(* ===== verification/_CoqProject ===== *)
-Q . S2P
Prelude.v
GoStrings.v
MemTypes.v
MemNodes.v
MemRequest.v
MemZones.v
MemAllocator.v
MemState.v
MemExpand.v
MemOvercommit.v
MemAlloc.v
MemOps.v
MemOffers.v
MemRealloc.v
MemSystem.v
MemWitness.v
Expr.v
ExprFacts.v
Affinity.v
AffinityFacts.v
CpuTree.v
CpuOrder.v
CpuResizeFacts.v
CpuSystem.v
CpuAlloc.v
CpuAllocFacts.v
CpuTopo.v
Kube.v
BlnTypes.v
BlnPin.v
BlnHints.v
BlnOps.v
BlnPolicy.v
BlnConfig.v
BlnFrame.v
BlnSize.v
BlnInv.v
BlnNew.v
BlnRequests.v
BlnRefine.v
BlnSetup.v
BlnReach.v
BlnWitness.v
ClsFreq.v
ClsPct.v
ClsHandler.v
ClsTurbo.v
ClsFacts.v
ClsPctFacts.v
ClsMock.v
BlnClasses.v
TaTypes.v
TaPrefs.v
TaSupply.v
TaScore.v
TaPolicy.v
TaBuild.v
TaConfig.v
TaAccount.v
TaAlloc.v
TaCapacity.v
TaInv.v
TaMain.v
TaBuildFacts.v
TaReach.v
TaWitness.v
CchTypes.v
CchContainer.v
CchStore.v
NriPlugin.v
NriFacts.v
NriReach.v
NriSync.v
NriMain.v
NriPending.v
NriTa.v
NriWitness.v
PlgTypes.v
PlgFacts.v
Resctrl.v
