(* ===== verification/Prelude.v ===== *)
(** * Verification of the resource management code of nri-plugins

    nri-plugins adjusts the resources of containers through the Node Resource
    Interface of the container runtime.  Its resource policies decide which
    CPUs and which memory nodes a container may use.  This development models
    the code that makes these decisions and proves it correct, part by part:

    - libmem (pkg/resmgr/lib/memory), the library the policies allocate memory
      nodes with.  It keeps requests, the zones (sets of nodes) they are
      assigned to, and makes room by moving requests to larger zones;
    - expressions (pkg/apis/resmgr/v1alpha1), which select containers by their
      properties, and the properties of pods and containers they can refer to
      (pkg/resmgr/cache/pod.go, container.go);
    - container affinities (pkg/resmgr/cache/affinity.go), which are built from
      expressions, and the affinities of containers to pools that the
      topology-aware policy computes from them
      (cmd/plugins/topology-aware/policy/affinity.go);
    - the CPU tree of the balloons policy
      (cmd/plugins/balloons/policy/cputree.go), which chooses the CPUs to add to
      or remove from a balloon by their place in the hardware topology;
    - the CPU allocator (pkg/cpuallocator/allocator.go), which takes CPUs from a
      set by topology and priority;
    - the balloons policy (cmd/plugins/balloons/policy/balloons-policy.go), which
      puts containers into balloons and resizes balloons with the CPU tree and
      the CPU allocator, and pins memory with libmem.  Its configuration is in
      pkg/apis/config/v1alpha1/resmgr/policy;
    - the topology-aware policy (cmd/plugins/topology-aware/policy), which builds
      a tree of pools from the sockets, dies, NUMA nodes and caches of the
      system, chooses a pool for every container by its preferences, hints and
      affinities, grants it CPUs exclusively or from the shared CPUs of the pool
      with the CPU allocator, and memory with libmem;
    - CPU classes (pkg/resmgr/cpuclass), through which the policies set the
      frequencies, C-states, uncore limits and SST classes of service of CPUs,
      with the arbitration of turbo frequencies and the accounting of CPUs of
      high priority;
    - the cache of pods and containers (pkg/resmgr/cache), which has what is
      known of them, what policies have set for containers, and which of it the
      runtime has not been told yet;
    - the NRI plugin (pkg/resmgr/nri.go), which handles the requests of the
      runtime: it keeps the cache up to date, asks the policy to allocate,
      update and release resources (pkg/resmgr/policy/policy.go), and returns
      what has changed;
    - the plugins without a resource policy (cmd/plugins): memory-policy,
      memory-qos, memtierd and sgx-epc, which translate annotations of a pod into
      adjustments of its containers, and resctrl-mon, which keeps monitoring
      groups of the resctrl file system for pods.

    ** Files

    Shared: [Prelude] (machine integers, results and errors, bit masks, what is
    relied on of Go's maps and sorting, insertion sort, list lemmas),
    [GoStrings] (packages strings and strconv, path.Clean and filepath.Match).

    libmem, definitions: [MemTypes] (types.go), [MemNodes] (nodes.go),
    [MemRequest] (mask-cache.go, request.go), [MemZones] (zones.go:
    the state of the allocator, usage, assignment, the journal), [MemAllocator]
    (allocator.go, custom-allocator.go: creation, expansion, overcommit,
    Allocate, GetOffer, Commit, Realloc, Release, Reset).  The Go allocator
    points to requests that its caller also holds: the model keeps them in a
    heap ([a_heap]) and the maps of the allocator hold pointers into it.  The
    fields of [Allocator], [Zone], [Request] and [Node] are those of the
    structs.  An operation takes the state and returns the new state with the
    result; the error value is one of the sentinel errors.

    libmem, theorems: [MemState] (the invariant [wf]; reverting the journal
    restores the assignments), [MemExpand] (what zone expansion
    returns, and that it finds nodes), [MemOvercommit] (moving requests frees
    memory, keeps nodes, and comes to an end), [MemAlloc] (validation and initial
    zones) and [MemOps] (Allocate: atomic, terminating, never overcommitting,
    keeping strict types, normal memory and the nodes of others), [MemOffers]
    (offers: without side effects, equivalent to allocating, expiring),
    [MemRealloc] (Release and Realloc), [MemSystem] (the allocator as a state
    machine of its clients' operations, and the invariant of all reachable states;
    clients commit no valid offer from before an Allocate or a Realloc, although
    the allocator would let them), [MemWitness] (the theorems in an example, and
    places where the code does not do what its comments say).

    Expressions and affinities: [Expr] and [Affinity] hold the definitions,
    [ExprFacts] and [AffinityFacts] the theorems: validated expressions evaluate
    without a panic, operators and their opposites, joint keys, expansion, the
    documented keys, symmetric annotations, usable affinities unless one is
    annotated as null, and affinities as sums of the weights that apply.  The YAML decoder is a parameter.

    CPU tree: [CpuTree] (trees, walks, splitting, building a tree from the
    system, the comparison of nodes and the chain of resizers) holds the
    definitions; [CpuOrder] shows that the comparisons are orders and
    that the deepest node comes first, [CpuResizeFacts] that every resizer of the
    chain keeps its promise to the one before it ([local_ok], [chain_ok]), and
    [CpuSystem] that the tree of a system is well formed, that splitting it keeps
    it usable, and that resizing succeeds exactly if there are enough CPUs and
    chooses them from the deepest node that has enough.

    CPU allocator: [CpuAlloc] (the steps of an allocation and both operations of
    allocator.go) and [CpuTopo] (discovery of packages, clusters, cache groups
    and priorities) hold the definitions; [CpuAllocFacts] shows what every step
    takes, [CpuTopo] also that AllocateCpus and ReleaseCpus do exactly what they
    are asked for on every system whose topology is as sysfs shows it.

    Balloons policy, definitions: [Kube] (CPU shares and quotas, and estimates
    of memory requests by OOM score adjustments, pkg/kubernetes/resources.go, with
    the theorem that these are exact), [BlnTypes] (balloon types, balloons, the state
    of the policy and what it sees of the system and the cache; balloons and
    types are shared by pointer and live in heaps), [BlnPin] (annotations,
    requests, pinning of CPUs and memory, CPU classes, sharing of idle CPUs),
    [BlnHints] (virtual devices and hints in the options of the CPU tree
    allocator), [BlnOps] (resizing, creation and deletion of balloons, composite
    balloons included), [BlnPolicy] (choosing a balloon, AllocateResources,
    ReleaseResources, UpdateResources, Sync) and [BlnConfig] (validateConfig,
    setConfig, built-in types, IRQ affinities).

    Balloons policy, theorems: [BlnFrame] (the equivalences [frame] and [quiet]
    of states, and that pinning, CPU classes and memory change nothing else),
    [BlnSize] (the class [CpuService], what the policy relies on of the CPU
    allocators, discharged for every system by [system_service]; resizing a
    balloon that owns its CPUs, and composite balloons), [BlnInv] (the invariant [good]: the CPUs are shared out between free ones
    and balloons), [BlnNew] (creating and deleting), [BlnRequests] (choosing a balloon, allocating and releasing), [BlnRefine] (the policy
    refines a finite map from containers to balloons), [BlnSetup] (setConfig
    establishes the invariant; circular components), [BlnReach] (the policy as a
    state machine of requests, the invariant of all reachable states, and what
    the entry points promise), [BlnWitness] (the theorems in an example).  The
    theorems about all states assume that components are not composite
    themselves and that numbers of CPUs in the configuration are at most
    2^50 ([config_ok]).

    CPU classes, definitions: [ClsFreq] (frequencies, definitions of classes,
    the turbo domains and the allocator of frequencies: internal/cpufreq,
    internal/types), [ClsPct] (the allocator of SST classes of service:
    internal/pct/pct.go, for any platform that implements the class [Sst]) and
    [ClsHandler] (the handler of cpuclass.go and the writers of frequencies,
    C-states and uncore limits; sysfs is a log of writes, any of which can
    fail).  The allocator of frequencies publishes to its owner through the class
    [Sink], as in the code.

    CPU classes, theorems: [ClsTurbo] (the laws [SinkLaws] of an owner, and the
    invariant [turbo_inv]: what is published agrees with what classes are in
    use), [ClsFacts] (the handler obeys these laws; what is in effect after a
    Commit), [ClsPctFacts] (the books of CPUs of high priority, proposed sets of
    CPUs, associations, capacities), [ClsMock] (pct_sst_mock.go, a platform in
    memory that obeys the laws [SstLaws], the theorems in an example, and places
    where the code does not do what its comments say), [BlnClasses] (the
    balloons policy and the handler together: in policies without composite
    types the CPUs of every balloon get the frequencies of its class).

    Topology-aware policy, definitions: [TaTypes] (pools, supplies, requests,
    grants, the state of the policy and what it sees of the system and the
    cache), [TaPrefs] (pod-preferences.go, cpu-class.go, irq-affinity.go,
    coldstart.go: what a container asks for), [TaSupply] (the supplies of
    resources.go: reserving, allocating and releasing CPUs and memory),
    [TaScore] (scores of pools, hints and their order), [TaPolicy] (choosing a
    pool, grants, shared allocations, the entry points of
    topology-aware-policy.go, cold starts), [TaBuild] (pools.go, node.go: the
    tree of pools, constraints, initialization) and [TaConfig] (configuration,
    Setup, Start, Reconfigure, events, saving and restoring of grants, topology
    zones).

    Topology-aware policy, theorems: [TaAccount] (traversals and well-formed
    trees; the books: the free supply of every pool is its capacity less
    what is granted), [TaAlloc] (the class [PoolCpus], what the policy relies on
    of the CPU allocator, discharged for every system by [system_pool_cpus];
    AllocateCPU keeps the books), [TaCapacity] (what is granted fits), [TaInv]
    (memory changes nothing else; a request of normal CPUs that fits is granted;
    the invariant [ta_inv], kept by allocatePool and releasePool),
    [TaMain] (containers are pinned to CPUs nobody else has
    exclusively; the entry points keep the invariant), [TaBuildFacts] (the tree
    built for a system is well formed and initialization establishes the
    invariant), [TaReach] (the policy as a state machine of requests, what holds
    in all reachable states, what the entry points promise, and that interrupts
    follow the grants), [TaWitness] (the theorems in an example).
    That pools are not overcommitted is shown for trees of two levels, the root
    and the pools below it ([flat]).

    Cache and NRI plugin, definitions: [CchTypes] (the data of NRI, pods,
    containers and the cache; containers are shared by pointer and live in a
    heap), [CchContainer] (topology hints of mounts, devices and pod resources,
    resource estimates and updates, pending requests, setters and getters of
    container.go), [CchStore] (cache.go, pod.go: inserting, deleting, refreshing,
    pending containers, saving and loading) and [NriPlugin] (nri.go: names of
    containers, pending updates, all requests).  The policy is any one that
    implements the class [Backend] (policy.Backend).

    Cache and NRI plugin, theorems: [NriFacts] (what hooks, exports, saving and
    pending changes leave alone, the class [Accounts], what the plugin relies on
    of a policy, and the invariant [nri_ok]), [NriReach] and
    [NriSync] (requests and synchronization keep it), [NriMain] (the plugin as a
    state machine of requests: no container with resources is lost track of;
    creating and stopping containers with any policy that meets [Accounts]),
    [NriPending]
    (updates are not lost), [NriTa] (the topology-aware policy as a [Backend],
    which discharges [Accounts], and what it sets for containers as setters of
    the cache; both together: containers are never pinned to CPUs others have
    exclusively, creating a container replaces the one of its name, stopping one
    releases exactly its grant) and [NriWitness] (the theorems in an
    example: requests of a runtime, run through the plugin, the cache, the
    policy, its CPU allocator and libmem).  The runtime is assumed not to use
    IDs of containers again, to start and update only containers that are
    created or running ([nri_step]; the examples [nex_updated_stopped],
    [nex_updated_replaced] and [nex_started_replaced] are what happens otherwise),
    and to agree with a loaded cache ([runtime_ok]).  The balloons policy does not
    meet [Accounts]: it gives nothing to containers that are to be preserved
    although it reports success, and releasing can fail.

    Other plugins: [PlgTypes] (the four plugins that only translate annotations,
    and a small model of a file system any operation of which can fail, [Fs] and
    [Kernel]), [PlgFacts] (which annotations are effective, in whatever order they
    are visited; what memory-qos and memtierd set; which memory policy a container
    gets, and that memory-policy runs nothing but mpolset with valid arguments in
    front of it) and [Resctrl] (the plugin resctrl-mon as a state machine of
    requests and ticks of its reconciler: the group of a pod stays until the pod is
    removed, and the reconciler removes all others it looks at).

    ** Modelling

    Machine integers are [Z] with the wrap-around written out where it can
    happen ([u64], [i64], [i32], [i16]).  Iteration over a Go map is in any
    order and sort.Slice and slices.SortFunc are not stable: both are operations
    of the class [GoRuntime], with only their documented behaviour as laws, so
    that all theorems hold for every order; [go_default] is the instance the
    examples run with.  Panics and fatal errors are the error [Panic].  Logging is
    left out.

    Loops without a structural measure have fuel, and running out of it is the
    error [OutOfFuel] that theorems exclude: the overcommit loop has one round
    more than 64 times the number of requests, since every round but the last
    adds a node to the zone of a request; the search for normal memory has 65,
    since every round but the last adds one of 64 nodes; resolving a key and
    validating it have one round per character; the recursion over components
    of a balloon is bounded by its address, since components are older than
    their balloon; the check for circular components by the number of composite
    types, since a way without a circle visits each at most once.

    ** Not modelled

    The reading of the hardware topology from sysfs, Kubernetes glue, logging and
    metrics are I/O.  Of the cache and the NRI plugin, JSON and YAML decoders,
    files and the search for devices in sysfs are parameters ([CEnv],
    [HintEnv]); controllers are only recorded to have been called ([n_hooks]);
    tracing, dumps of requests, published topology zones and extended resources
    are left out.  What is set for a container that has been removed from the
    cache, but not stopped before, is not modelled.  Of the balloons policy, Reconfigure with its
    comparison of configurations, topology zones and extended resources are not
    modelled; the calls of the CPU class handler are recorded ([p_uses]), and what
    is written as IRQ affinities is returned ([applyIrqAffinities]).  Of the topology-aware policy, the handler of CPU
    classes (cpuclass), the reading and writing of interrupt affinities (irq),
    YAML and quantities are parameters ([TEnv]); its metrics, the implicit
    affinities it registers on start and cold start timers (a timer that fires
    is an event) are left out.  Of CPU classes, the platform behind the goresctrl
    library (a third-party library), overrides of sysfs for tests and hooks of
    unit tests are left out.  [BlnClasses] puts the handler and the balloons policy
    together; elsewhere what the handler says to the policy, the hints for an
    allocation, is a parameter ([Env]), for any hints.

    The rest of the repository is glue around what is modelled or I/O: the
    resource manager's updates of its configuration and the agent watch objects of
    Kubernetes, pkg/sysfs reads files ([System] and [ClsSys] are what the policies
    see of it).  Of the other plugins, parsers, starting processes, the search for
    cgroups and the mpolset program are parameters or left out, and so is the
    lock of resctrl-mon, whose requests are steps. *)

From Stdlib Require Export ZArith Lia.
From stdpp Require Export relations sorting numbers base gmap fin_maps strings list.

#[global] Open Scope Z_scope.

(** ** Machine integers

    Go's fixed-width integers are [Z] with the wrap-around written out. *)

Definition u64 (x : Z) : Z := x `mod` 2 ^ 64.

Definition i64 (x : Z) : Z := (x + 2 ^ 63) `mod` 2 ^ 64 - 2 ^ 63.

Definition i32 (x : Z) : Z := (x + 2 ^ 31) `mod` 2 ^ 32 - 2 ^ 31.
Definition i16 (x : Z) : Z := (x + 2 ^ 15) `mod` 2 ^ 16 - 2 ^ 15.

Definition MaxInt : Z := 2 ^ 63 - 1.

(** ** Results of fallible code

    An [error] value of the Go code is one of the sentinel errors it wraps,
    or [ErrOther] for an error made by a bare [fmt.Errorf].  [Panic] is a
    run-time panic and [OutOfFuel] marks a loop whose fuel ran out; theorems
    show where neither can occur. *)

Inductive error :=
  | ErrFailedOption
  | ErrInvalidType
  | ErrInvalidNode
  | ErrInvalidNodeMask
  | ErrInvalidQosClass
  | ErrExpiredOffer
  | ErrUnknownRequest
  | ErrAlreadyExists
  | ErrNoMem
  | ErrNoZone
  | ErrInternalError
  | ErrOther
  | Panic
  | OutOfFuel.

Inductive res (A : Type) :=
  | Ok (a : A)
  | Err (e : error).

Arguments Ok {_} _.
Arguments Err {_} _.

#[export] Instance error_eq_dec : EqDecision error.
Proof. solve_decision. Defined.

#[export] Instance res_eq_dec `{EqDecision A} : EqDecision (res A).
Proof. solve_decision. Defined.

Definition res_bind {A B} (x : res A) (f : A → res B) : res B :=
  match x with
  | Ok a => f a
  | Err e => Err e
  end.

Declare Scope go_scope.
Delimit Scope go_scope with go.

Notation "'let!' x ':=' c 'in' k" := (res_bind c (λ x, k))
  (at level 10, x pattern, k at level 200) : go_scope.

(** Bit masks: Go's [&], [|] and [&^] on a mask. *)
Infix "&&&" := Z.land (at level 40, left associativity) : go_scope.
Infix "|||" := Z.lor (at level 50, left associativity) : go_scope.
Infix "&^" := Z.ldiff (at level 40, left associativity) : go_scope.

#[global] Open Scope go_scope.

(** ** Bit masks

    A [NodeMask] is a [uint64] and a [TypeMask] an [int]; both are used as
    sets of bits.  [submask] is the subset order, [popcount] the number of
    set bits of a 64-bit mask. *)

Definition submask (a b : Z) : Prop := a &&& b = a.

Definition popcount (m : Z) : nat :=
  length (filter (λ i, Z.testbit m i = true) (seqZ 0 64)).

(** Masks with no bit outside the 64 bits of the type. *)
Definition mask64 (m : Z) : Prop := 0 ≤ m < 2 ^ 64.

Create Rewrite HintDb bits.

Create HintDb masks.

#[export] Hint Rewrite Z.land_spec Z.lor_spec Z.ldiff_spec Z.bits_0 : bits.

(** [bits_solver] proves an equation between masks from equations between
    masks, one bit at a time. *)
Ltac bits_solver :=
  unfold submask in *;
  apply Z.bits_inj';
  let i := fresh "i" in let Hi := fresh "Hi" in
  intros i Hi;
  repeat match goal with
  | H : @eq Z _ _ |- _ =>
      apply (f_equal (λ v, Z.testbit v i)) in H; autorewrite with bits in H;
      revert H
  end;
  autorewrite with bits;
  repeat match goal with |- context [Z.testbit ?x i] => destruct (Z.testbit x i) end;
  simpl; try congruence.

Lemma mask_nonzero m : m ≠ 0 ↔ ∃ i, 0 ≤ i ∧ Z.testbit m i = true.
Proof.
  split.
  - intros Hm. destruct (Z.lt_trichotomy m 0) as [Hn|[?|Hp]]; [|done|].
    + exists (Z.log2_up (- m) + 1).
      assert (0 ≤ Z.log2_up (- m)) by apply Z.log2_up_nonneg.
      split; [lia|]. apply Z.bits_above_log2_neg; [lia|].
      pose proof (Z.le_log2_log2_up (Z.pred (- m))).
      pose proof (Z.log2_up_le_mono (Z.pred (- m)) (- m)). lia.
    + exists (Z.log2 m). split; [apply Z.log2_nonneg|]. by apply Z.bit_log2.
  - intros (i & ? & Hi) ->. by rewrite Z.bits_0 in Hi.
Qed.

Lemma submask_spec a b :
  submask a b ↔ ∀ i, 0 ≤ i → Z.testbit a i = true → Z.testbit b i = true.
Proof.
  unfold submask. split.
  - intros H i Hi Ha. rewrite <- H, Z.land_spec in Ha.
    by apply andb_true_iff in Ha as [_ ?].
  - intros H. apply Z.bits_inj'. intros i Hi. rewrite Z.land_spec.
    specialize (H i Hi). destruct (Z.testbit a i); [|done]. by rewrite H.
Qed.

#[export] Instance submask_dec a b : Decision (submask a b).
Proof. unfold submask. apply _. Defined.

#[export] Instance submask_preorder : PreOrder submask.
Proof.
  split.
  - intros a. apply Z.land_diag.
  - intros a b c ??. bits_solver.
Qed.

Lemma submask_lor_l a b : submask a (a ||| b).
Proof. bits_solver. Qed.

Lemma submask_lor_r a b : submask b (a ||| b).
Proof. bits_solver. Qed.

Lemma submask_lor a b c : submask a c → submask b c → submask (a ||| b) c.
Proof. intros. bits_solver. Qed.

Lemma submask_land_r a b : submask (a &&& b) b.
Proof. bits_solver. Qed.

Lemma submask_land_l a b : submask (a &&& b) a.
Proof. bits_solver. Qed.

Lemma submask_zero a : submask 0 a.
Proof. done. Qed.

#[export] Hint Resolve submask_lor_l submask_lor_r submask_lor
  submask_land_l submask_land_r submask_zero : masks.

Lemma lor_nonzero_l x y : x ≠ 0 → x ||| y ≠ 0.
Proof. intros Hx [? _]%Z.lor_eq_0_iff. done. Qed.

Lemma mask_overlap_mono a b c : submask a b → a &&& c ≠ 0 → b &&& c ≠ 0.
Proof.
  rewrite !mask_nonzero. intros Hab (i & Hi & H). exists i. split; [done|].
  rewrite Z.land_spec in *. apply andb_true_iff in H as [Ha ->].
  rewrite submask_spec in Hab. by rewrite Hab.
Qed.

Lemma mask64_spec m : mask64 m ↔ ∀ i, 0 ≤ i → Z.testbit m i = true → i < 64.
Proof.
  unfold mask64. split.
  - intros Hm i Hi Ht. destruct (decide (i < 64)) as [|Hge]; [done|].
    destruct (decide (m = 0)) as [->|]; [by rewrite Z.bits_0 in Ht|].
    rewrite Z.bits_above_log2 in Ht; [done|lia|].
    enough (Z.log2 m < 64) by lia. apply Z.log2_lt_pow2; lia.
  - intros H. destruct (Z.lt_trichotomy m 0) as [Hn|[->|Hp]]; [|lia|].
    + exfalso.
      assert (Z.testbit m (Z.max 64 (Z.log2 (Z.pred (- m)) + 1)) = true) as Ht.
      { apply Z.bits_above_log2_neg; lia. }
      pose proof (Z.log2_nonneg (Z.pred (- m))). apply H in Ht; lia.
    + split; [lia|]. apply Z.log2_lt_pow2; [lia|].
      apply H; [apply Z.log2_nonneg | by apply Z.bit_log2].
Qed.

Lemma mask64_lor a b : mask64 a → mask64 b → mask64 (a ||| b).
Proof.
  rewrite !mask64_spec. intros Ha Hb i Hi. rewrite Z.lor_spec.
  intros [?|?]%orb_true_iff; eauto.
Qed.

Lemma mask64_submask a b : submask a b → mask64 b → mask64 a.
Proof. rewrite submask_spec, !mask64_spec. eauto. Qed.

Lemma mask64_u64 x : mask64 (u64 x).
Proof. unfold mask64, u64. apply Z.mod_pos_bound. lia. Qed.

#[export] Hint Resolve mask64_lor mask64_submask mask64_u64 : masks.

(** Adding a bit that was not set makes a 64-bit mask strictly larger. *)
Lemma popcount_mono a b : submask a b → (popcount a ≤ popcount b)%nat.
Proof.
  intros Hab. unfold popcount. apply submseteq_length.
  apply NoDup_submseteq; [apply NoDup_filter, NoDup_seqZ|].
  intros i. rewrite !list_elem_of_filter, elem_of_seqZ.
  rewrite submask_spec in Hab. intros [? ?]. split; [apply Hab; [lia|done]|lia].
Qed.

Lemma popcount_le_64 m : (popcount m ≤ 64)%nat.
Proof.
  unfold popcount. etrans; [apply length_filter|]. by rewrite length_seqZ.
Qed.

Lemma popcount_grow z n :
  mask64 n → n ≠ 0 → z &&& n = 0 → (popcount z < popcount (z ||| n))%nat.
Proof.
  intros Hn Hnz Hd. apply mask_nonzero in Hnz as (i & Hi & Ht).
  assert (i < 64) by (by apply (proj1 (mask64_spec n) Hn)).
  assert (Z.testbit z i = false) as Hz.
  { apply (f_equal (λ v, Z.testbit v i)) in Hd. rewrite Z.land_spec, Z.bits_0, Ht in Hd.
    by destruct (Z.testbit z i). }
  unfold popcount.
  assert (i :: filter (λ i, Z.testbit z i = true) (seqZ 0 64)
    ⊆+ filter (λ i, Z.testbit (z ||| n) i = true) (seqZ 0 64)) as Hs.
  { apply NoDup_submseteq.
    - constructor; [rewrite list_elem_of_filter; by intros [? _]; congruence|].
      apply NoDup_filter, NoDup_seqZ.
    - intros j. rewrite elem_of_cons, !list_elem_of_filter, elem_of_seqZ, Z.lor_spec.
      intros [->|[-> ?]]; rewrite ?Ht, ?orb_true_r; (split; [done|lia]). }
  apply submseteq_length in Hs. simpl in Hs. lia.
Qed.

(** ** Sums over finite maps *)

Section msum.
Context {K V : Type} `{Countable K}.
Implicit Types m : gmap K V.

Definition msum (f : K → V → Z) (m : gmap K V) : Z :=
  map_fold (λ k v acc, f k v + acc) 0 m.

Lemma msum_empty f : msum f ∅ = 0.
Proof. apply map_fold_empty. Qed.

Lemma msum_insert f m k v : m !! k = None → msum f (<[k:=v]> m) = f k v + msum f m.
Proof. intros. unfold msum. rewrite (map_fold_insert_L (λ k v acc, f k v + acc)); [done|intros; lia|done]. Qed.

Lemma msum_delete f m k v : m !! k = Some v → msum f m = f k v + msum f (delete k m).
Proof. intros. unfold msum. rewrite (map_fold_delete_L (λ k v acc, f k v + acc) _ k v m); [done|intros; lia|done]. Qed.

Lemma msum_ext f g m : (∀ k v, m !! k = Some v → f k v = g k v) → msum f m = msum g m.
Proof.
  induction m as [|k v m Hk IH] using map_ind; intros Hfg; [done|].
  rewrite !msum_insert by done. rewrite Hfg by (by simplify_map_eq).
  rewrite IH; [done|]. intros k' v' ?. apply Hfg.
  rewrite lookup_insert_ne; congruence.
Qed.

Lemma msum_zero f m : (∀ k v, m !! k = Some v → f k v = 0) → msum f m = 0.
Proof.
  intros Hf. rewrite (msum_ext f (λ _ _, 0)) by done. clear Hf.
  induction m as [|k v m Hk IH] using map_ind; [done|]. by rewrite msum_insert, IH.
Qed.

Lemma msum_list f m (l : list (K * V)) :
  l ≡ₚ map_to_list m → foldr (λ kv acc, f kv.1 kv.2 + acc) 0 l = msum f m.
Proof.
  intros Hl. unfold msum. rewrite map_fold_foldr.
  transitivity (foldr (λ kv acc, f kv.1 kv.2 + acc) 0 (map_to_list m)).
  - induction Hl as [|x l1 l2 ? IH|x y l1|l1 l2 l3 ? IH1 ? IH2]; simpl; lia.
  - clear Hl. induction (map_to_list m) as [|[k v] l' IH]; simpl; [done|]. by rewrite IH.
Qed.

End msum.

(** A sum depends only on what each key contributes: keys that contribute
    nothing can be present in one map and absent in the other. *)
Lemma msum_contrib {K V W} `{Countable K} (f : K → V → Z) (g : K → W → Z)
    (m1 : gmap K V) (m2 : gmap K W) :
  (∀ k, from_option (f k) 0 (m1 !! k) = from_option (g k) 0 (m2 !! k)) →
  msum f m1 = msum g m2.
Proof.
  revert m2. induction m1 as [|k v m1 Hk IH] using map_ind; intros m2 Hc.
  - rewrite msum_empty. symmetry. apply msum_zero. intros k v Hkv.
    specialize (Hc k). by rewrite lookup_empty, Hkv in Hc.
  - rewrite msum_insert by done. pose proof (Hc k) as Hck.
    rewrite lookup_insert_eq in Hck. simpl in Hck.
    destruct (m2 !! k) as [v2|] eqn:Hk2; simpl in Hck.
    + rewrite (msum_delete g m2 k v2) by done. rewrite Hck. f_equal. apply IH.
      intros k'. destruct (decide (k = k')) as [<-|Hne].
      * by rewrite lookup_delete_eq, Hk.
      * specialize (Hc k'). by rewrite lookup_insert_ne in Hc; [|done]; rewrite lookup_delete_ne.
    + rewrite Hck, (IH m2); [lia|]. intros k'. destruct (decide (k = k')) as [<-|Hne].
      * by rewrite Hk, Hk2.
      * specialize (Hc k'). by rewrite lookup_insert_ne in Hc.
Qed.
Lemma msum_split {K V} `{Countable K} (f : K → V → Z) (P : V → Prop) `{∀ v, Decision (P v)}
    (m : gmap K V) :
  msum f m = msum f (filter (λ kv, P kv.2) m) + msum f (filter (λ kv, ¬ P kv.2) m).
Proof.
  induction m as [|k v m Hk IH] using map_ind; [done|].
  rewrite msum_insert by done. destruct (decide (P v)).
  - rewrite map_filter_insert_True, map_filter_insert_False by (simpl; tauto).
    rewrite (delete_id m) by done. rewrite msum_insert; [lia|].
    apply map_lookup_filter_None_2. by left.
  - rewrite map_filter_insert_False, map_filter_insert_True by (simpl; tauto).
    rewrite (delete_id m) by done. rewrite msum_insert; [lia|].
    apply map_lookup_filter_None_2. by left.
Qed.

Lemma msum_bounds {K V} `{Countable K} (f : K → V → Z) (b : Z) (m : gmap K V) :
  (∀ k v, m !! k = Some v → 0 ≤ f k v ≤ b) → 0 ≤ msum f m ≤ b * Z.of_nat (size m).
Proof.
  induction m as [|k v m Hk IH] using map_ind; intros Hb; [rewrite msum_empty, map_size_empty; lia|].
  rewrite msum_insert, map_size_insert_None by done.
  pose proof (Hb k v (lookup_insert_eq _ _ _)).
  assert (∀ k' v', m !! k' = Some v' → 0 ≤ f k' v' ≤ b) as Hb'.
  { intros k' v' ?. apply Hb. rewrite lookup_insert_ne; congruence. }
  specialize (IH Hb'). lia.
Qed.

(** A map of groups and the map from the members to their group give the same
    sum. *)
Lemma msum_groups {K G V W} `{Countable K, Countable G} (members : W → gmap K V)
    (g : G → K → Z) (groups : gmap G W) (grp : gmap K G) :
  (∀ k x, grp !! k = Some x ↔ ∃ w, groups !! x = Some w ∧ is_Some (members w !! k)) →
  msum (λ x w, msum (λ k _, g x k) (members w)) groups = msum (λ k x, g x k) grp.
Proof.
  revert grp. induction groups as [|x w groups Hx IH] using map_ind; intros grp Hof.
  - rewrite msum_empty. symmetry. apply msum_zero. intros k y (w & Hw & _)%Hof.
    by rewrite lookup_empty in Hw.
  - rewrite msum_insert by done. rewrite (msum_split _ (λ y, y = x) grp). f_equal.
    + apply msum_contrib. intros k. specialize (Hof k x). rewrite lookup_insert_eq in Hof.
      rewrite map_lookup_filter. destruct (grp !! k) as [y|] eqn:Hy; simpl.
      * destruct (decide (y = x)) as [->|Hne]; simpl.
        { destruct Hof as [Hof _]. destruct Hof as (w' & [= <-] & [v ->]); [done|].
          by rewrite option_guard_True. }
        rewrite option_guard_False by done. destruct (members w !! k) as [v|] eqn:Hv; [|done].
        exfalso. apply Hne. enough (Some y = Some x) by congruence. apply Hof. eauto.
      * destruct (members w !! k) as [v|] eqn:Hv; [|done]. exfalso.
        enough (None = Some x) by done. apply Hof. eauto.
    + apply IH. intros k y. rewrite map_lookup_filter_Some, Hof. simpl. split.
      * intros [(w' & Hw' & ?) Hne]. rewrite lookup_insert_ne in Hw' by done. eauto.
      * intros (w' & Hw' & ?). assert (y ≠ x) by congruence. split; [|done].
        exists w'. by rewrite lookup_insert_ne.
Qed.


(** Adding up with 64-bit wrap-around gives the wrapped sum. *)
Lemma i64_add_l a b : i64 (i64 a + b) = i64 (a + b).
Proof.
  unfold i64. f_equal.
  replace ((a + 2 ^ 63) `mod` 2 ^ 64 - 2 ^ 63 + b + 2 ^ 63)
    with ((a + 2 ^ 63) `mod` 2 ^ 64 + b) by lia.
  rewrite Zplus_mod_idemp_l. f_equal. lia.
Qed.

Lemma i64_small x : - 2 ^ 63 ≤ x < 2 ^ 63 → i64 x = x.
Proof. intros. unfold i64. rewrite Z.mod_small; lia. Qed.

Lemma fold_i64_sum {A} (f : A → Z) (l : list A) acc :
  fold_left (λ s x, i64 (s + f x)) l (i64 acc) = i64 (acc + foldr (λ x s, f x + s) 0 l).
Proof.
  revert acc. induction l as [|x l IH]; intros acc; simpl; [by rewrite Z.add_0_r|].
  rewrite i64_add_l, IH. f_equal. lia.
Qed.

(** ** The Go run time

    Two things the language leaves open matter to the code: the order in
    which [range] visits a map and what [slices.SortFunc] does with elements
    its comparison does not separate.  Both are a parameter of the model with
    their documented behaviour as laws, and theorems hold for every choice. *)

Definition cmp_le {A} (cmp : A → A → Z) (x y : A) : Prop := ¬ cmp y x < 0.

(** The comparison is a total preorder on the elements of a list. *)
Definition orders {A} (cmp : A → A → Z) (l : list A) : Prop :=
  (∀ x y, x ∈ l → y ∈ l → cmp_le cmp x y ∨ cmp_le cmp y x) ∧
  (∀ x y z, x ∈ l → y ∈ l → z ∈ l → cmp_le cmp x y → cmp_le cmp y z → cmp_le cmp x z).

Lemma orders_sub {A} (cmp : A → A → Z) l l' :
  orders cmp l → (∀ x, x ∈ l' → x ∈ l) → orders cmp l'.
Proof.
  intros [Htot Htr] Hs. split.
  - intros x y ??. apply Htot; auto.
  - intros x y z ???. apply Htr; auto.
Qed.

Class GoRuntime := {
  map_range : ∀ {K} `{Countable K} {V}, gmap K V → list (K * V);
  map_range_perm : ∀ {K} `{Countable K} {V} (m : gmap K V),
    map_range m ≡ₚ map_to_list m;
  sort_func : ∀ {A}, (A → A → Z) → list A → list A;
  sort_func_perm : ∀ {A} (cmp : A → A → Z) l, sort_func cmp l ≡ₚ l;
  sort_func_sorted : ∀ {A} (cmp : A → A → Z) l,
    orders cmp l → StronglySorted (cmp_le cmp) (sort_func cmp l);
}.

Lemma elem_of_map_range `{GoRuntime} `{Countable K} {V} (m : gmap K V) k v :
  (k, v) ∈ map_range m ↔ m !! k = Some v.
Proof. by rewrite map_range_perm, elem_of_map_to_list. Qed.

Lemma NoDup_map_range `{GoRuntime} `{Countable K} {V} (m : gmap K V) :
  NoDup ((map_range m).*1).
Proof.
  assert ((map_range m).*1 ≡ₚ (map_to_list m).*1) as ->
    by (apply fmap_Permutation, map_range_perm).
  apply NoDup_fst_map_to_list.
Qed.

Lemma elem_of_sort_func `{GoRuntime} {A} (cmp : A → A → Z) l x :
  x ∈ sort_func cmp l ↔ x ∈ l.
Proof. by rewrite sort_func_perm. Qed.

(** The run time of the witnesses: maps in the order of [map_to_list], and
    the insertion sort that [slices.SortFunc] runs on short slices, with the
    sorted prefix kept in reverse. *)
Section insertion_sort.
Context {A : Type} (cmp : A → A → Z).

Fixpoint insert_down (x : A) (rl : list A) : list A :=
  match rl with
  | [] => [x]
  | y :: rl' => if bool_decide (cmp x y < 0) then y :: insert_down x rl' else x :: y :: rl'
  end.

Definition insertion_sort (l : list A) : list A :=
  reverse (fold_left (λ rl x, insert_down x rl) l []).

Lemma insert_down_perm x rl : insert_down x rl ≡ₚ x :: rl.
Proof.
  induction rl as [|y rl IH]; simpl; [done|].
  case_bool_decide; [|done]. rewrite IH. constructor.
Qed.

Lemma insertion_sort_perm l : insertion_sort l ≡ₚ l.
Proof.
  unfold insertion_sort. rewrite reverse_Permutation.
  assert (∀ rl, fold_left (λ rl x, insert_down x rl) l rl ≡ₚ rl ++ l) as Hg; [|apply Hg].
  induction l as [|x l IH]; intros rl; simpl; [by rewrite app_nil_r|].
  rewrite IH, insert_down_perm. by rewrite <- Permutation_middle.
Qed.

Lemma insert_down_sorted x rl :
  orders cmp (x :: rl) →
  StronglySorted (flip (cmp_le cmp)) rl → StronglySorted (flip (cmp_le cmp)) (insert_down x rl).
Proof.
  intros Ho Hs. induction Hs as [|y rl Hs IH Hy]; simpl; [repeat constructor|].
  pose proof Ho as [Htot Htr]. assert (cmp_le cmp x y ∨ cmp_le cmp y x) as Hxy by (apply Htot; set_solver).
  case_bool_decide as Hc.
  - constructor.
    + apply IH. eapply orders_sub; [exact Ho|]. set_solver.
    + rewrite insert_down_perm. constructor; [|done]. destruct Hxy as [?|Hyx]; [done|]. by destruct Hyx.
  - constructor; [by constructor|]. constructor; [done|].
    rewrite Forall_forall in Hy |- *. intros z Hz. unfold flip in *.
    apply (Htr z y x); [set_solver..|by apply Hy|done].
Qed.

Lemma StronglySorted_reverse (R : relation A) l :
  StronglySorted (flip R) l → StronglySorted R (reverse l).
Proof.
  induction 1 as [|x l Hs IH Hx]; [constructor|]. rewrite reverse_cons.
  apply StronglySorted_app. split_and!; [|done|repeat constructor].
  intros y z Hy ->%list_elem_of_singleton.
  rewrite Forall_forall in Hx. apply elem_of_reverse in Hy. rewrite reverse_involutive in Hy. exact (Hx y Hy).
Qed.

Lemma insertion_sort_sorted l : orders cmp l → StronglySorted (cmp_le cmp) (insertion_sort l).
Proof.
  intros Ho. apply StronglySorted_reverse.
  assert (∀ rl, orders cmp (rl ++ l) → StronglySorted (flip (cmp_le cmp)) rl →
    StronglySorted (flip (cmp_le cmp)) (fold_left (λ rl x, insert_down x rl) l rl))
    as Hg; [|apply Hg; [done|constructor]].
  clear Ho. induction l as [|x l IH]; intros rl Ho Hrl; simpl; [done|].
  assert (∀ z, z ∈ insert_down x rl ++ l → z ∈ rl ++ x :: l) as Hin.
  { intros z. rewrite insert_down_perm. set_solver. }
  apply IH; [by eapply orders_sub|]. apply insert_down_sorted; [|done].
  eapply orders_sub; [exact Ho|]. set_solver.
Qed.
End insertion_sort.

Definition go_default : GoRuntime := {|
  map_range _ _ _ _ m := map_to_list m;
  map_range_perm _ _ _ _ m := reflexivity _;
  sort_func _ cmp l := insertion_sort cmp l;
  sort_func_perm _ cmp l := insertion_sort_perm cmp l;
  sort_func_sorted _ cmp l Ho := insertion_sort_sorted cmp l Ho;
|}.

(** ** Lists *)

Lemma filter_ext_in {A} (P Q : A → Prop) `{∀ x, Decision (P x), ∀ x, Decision (Q x)} (l : list A) :
  (∀ x, x ∈ l → P x ↔ Q x) → filter P l = filter Q l.
Proof.
  induction l as [|x l IH]; intros HPQ; [done|]. rewrite !filter_cons.
  rewrite IH by (intros; apply HPQ; by constructor).
  pose proof (HPQ x (list_elem_of_here _ _)). repeat case_decide; naive_solver.
Qed.

Lemma exists_snoc {A} (P : A → Prop) (l : list A) y :
  (∃ x, x ∈ l ++ [y] ∧ P x) ↔ (∃ x, x ∈ l ∧ P x) ∨ P y.
Proof.
  split.
  - intros (x & [?| ->%list_elem_of_singleton]%elem_of_app & ?); eauto.
  - intros [(x & ? & ?)|?]; [exists x|exists y]; rewrite elem_of_app, list_elem_of_singleton; eauto.
Qed.
