(* ===== verification/GoStrings.v ===== *)
(** * The string functions of Go's standard library the code uses

    [strings] and [strconv] on byte strings.  Case conversion and white space
    are those of ASCII: no character outside ASCII has an upper case letter
    of a memory type name or a lower case letter of a QoS class name as its
    conversion, so the comparisons the code makes agree. *)

From Stdlib Require Import Ascii DecimalString DecimalZ.
From Stdlib Require Import Ascii.
From S2P Require Import Prelude.

Abbreviation str_app := String.append.

(** The separators the code splits at. *)
Definition c_comma : ascii := ","%char.
Definition c_dash : ascii := "-"%char.
Definition c_slash : ascii := "/"%char.
Definition c_colon : ascii := ":"%char.

Definition is_upper (c : ascii) : bool :=
  let n := nat_of_ascii c in (Nat.leb 65 n && Nat.leb n 90)%bool.

Definition is_lower (c : ascii) : bool :=
  let n := nat_of_ascii c in (Nat.leb 97 n && Nat.leb n 122)%bool.

Definition upper_char (c : ascii) : ascii :=
  if is_lower c then ascii_of_nat (nat_of_ascii c - 32) else c.

Definition lower_char (c : ascii) : ascii :=
  if is_upper c then ascii_of_nat (nat_of_ascii c + 32) else c.

Fixpoint map_string (f : ascii → ascii) (s : string) : string :=
  match s with
  | EmptyString => EmptyString
  | String c s' => String (f c) (map_string f s')
  end.

(** [strings.ToUpper], [strings.ToLower] *)
Definition to_upper : string → string := map_string upper_char.

Definition to_lower : string → string := map_string lower_char.

(** [strings.Split], [strings.SplitSeq] with a separator of one byte *)
Fixpoint split_on (sep : ascii) (s : string) : list string :=
  match s with
  | EmptyString => [EmptyString]
  | String c s' =>
      if bool_decide (c = sep) then EmptyString :: split_on sep s'
      else match split_on sep s' with
           | [] => [String c EmptyString]
           | h :: t => String c h :: t
           end
  end.

(** [strings.Cut] with a separator of one byte: what comes before the first
    separator, and what comes after it if there is one. *)
Fixpoint cut (sep : ascii) (s : string) : string * option string :=
  match s with
  | EmptyString => (EmptyString, None)
  | String c s' =>
      if bool_decide (c = sep) then (EmptyString, Some s')
      else let '(b, r) := cut sep s' in (String c b, r)
  end.

(** [strings.SplitN] with [n] = 2 *)
Definition split_n2 (sep : ascii) (s : string) : list string :=
  match cut sep s with
  | (b, Some r) => [b; r]
  | (b, None) => [b]
  end.

(** [strings.Join] *)
Fixpoint join (sep : string) (l : list string) : string :=
  match l with
  | [] => EmptyString
  | [x] => x
  | x :: l' => str_app x (str_app sep (join sep l'))
  end.

(** [strings.TrimSpace], [strings.TrimLeft] *)
Definition is_space (c : ascii) : bool :=
  let n := nat_of_ascii c in (Nat.eqb n 32 || (Nat.leb 9 n && Nat.leb n 13))%bool.

Fixpoint trim_left_by (p : ascii → bool) (s : string) : string :=
  match s with
  | String c s' => if p c then trim_left_by p s' else s
  | EmptyString => EmptyString
  end.

Definition trim_space (s : string) : string :=
  String.rev (trim_left_by is_space (String.rev (trim_left_by is_space s))).

(** [strconv.Itoa], [strconv.FormatInt] in base 10 *)
Definition itoa (z : Z) : string := NilZero.string_of_int (Z.to_int z).

(** [strconv.ParseInt] in base 10 for a given bit size *)
Definition parse_digits (s : string) : option Z :=
  Z.of_uint <$> NilZero.uint_of_string s.

Definition parse_int (bits : Z) (s : string) : option Z :=
  let v :=
    match s with
    | String "-" s' => Z.opp <$> parse_digits s'
    | String "+" s' => parse_digits s'
    | _ => parse_digits s
    end in
  match v with
  | Some n => if bool_decide (- 2 ^ (bits - 1) ≤ n < 2 ^ (bits - 1)) then Some n else None
  | None => None
  end.

(** ** Facts *)

Fixpoint in_string (c : ascii) (s : string) : bool :=
  match s with
  | EmptyString => false
  | String a s' => bool_decide (a = c) || in_string c s'
  end.

Lemma str_app_cons c a b : str_app (String c a) b = String c (str_app a b).
Proof. done. Qed.

Lemma str_app_nil_l b : str_app EmptyString b = b.
Proof. done. Qed.

Lemma str_app_assoc a b c : str_app (str_app a b) c = str_app a (str_app b c).
Proof. induction a as [|x a IH]; [done|]. by rewrite !str_app_cons, IH. Qed.

Lemma str_app_nil_r a : str_app a EmptyString = a.
Proof. induction a as [|x a IH]; [done|]. by rewrite str_app_cons, IH. Qed.

Lemma in_string_app c a b : in_string c (str_app a b) = in_string c a || in_string c b.
Proof. induction a as [|x a IH]; [done|]. rewrite str_app_cons. cbn. by rewrite IH, orb_assoc. Qed.

Lemma split_on_no_sep sep s : in_string sep s = false → split_on sep s = [s].
Proof.
  induction s as [|c s IH]; [done|]. cbn.
  intros [Hc Hs]%orb_false_iff. rewrite IH by done.
  by case_bool_decide.
Qed.

Lemma split_on_app sep a s :
  in_string sep a = false →
  split_on sep (str_app a (String sep s)) = a :: split_on sep s.
Proof.
  induction a as [|c a IH]; intros Ha; rewrite ?str_app_nil_l, ?str_app_cons; cbn.
  - by rewrite bool_decide_eq_true_2.
  - cbn in Ha. apply orb_false_iff in Ha as [Hc Ha]. rewrite IH by done.
    by case_bool_decide.
Qed.

(** Splitting undoes joining when no part contains the separator. *)
Lemma split_on_join sep l :
  l ≠ [] → Forall (λ s, in_string sep s = false) l →
  split_on sep (join (String sep EmptyString) l) = l.
Proof.
  induction l as [|x l IH]; intros Hl Hf; [done|]. apply Forall_cons in Hf as [Hx Hf].
  destruct l as [|y l].
  - by apply split_on_no_sep.
  - change (join (String sep EmptyString) (x :: y :: l))
      with (str_app x (String sep (join (String sep EmptyString) (y :: l)))).
    rewrite split_on_app by done. by rewrite IH.
Qed.

Lemma cut_no_sep sep s : in_string sep s = false → cut sep s = (s, None).
Proof.
  induction s as [|c s IH]; [done|]. cbn.
  intros [Hc Hs]%orb_false_iff. rewrite IH by done.
  by case_bool_decide.
Qed.

Lemma cut_app sep a s :
  in_string sep a = false → cut sep (str_app a (String sep s)) = (a, Some s).
Proof.
  induction a as [|c a IH]; intros Ha; rewrite ?str_app_nil_l, ?str_app_cons; cbn.
  - by rewrite bool_decide_eq_true_2.
  - cbn in Ha. apply orb_false_iff in Ha as [Hc Ha]. rewrite IH by done.
    by case_bool_decide.
Qed.

(** The part before the cut does not contain the separator. *)
Lemma cut_before_no_sep sep s : in_string sep (cut sep s).1 = false.
Proof.
  induction s as [|c s IH]; [done|]. cbn. case_bool_decide as Hc; [done|].
  destruct (cut sep s) as [b r]. cbn in *. by rewrite bool_decide_eq_false_2, IH.
Qed.

(** * Paths and patterns of the Go standard library

    [path.Clean] and [filepath.Match] as the expression code uses them, on
    strings of one-byte characters and with ['/'] as the separator. *)

(** ** [path.Clean] *)

Definition c_dot : ascii := "."%char.

Definition s_dot : string := String c_dot EmptyString.
Definition s_dotdot : string := String c_dot s_dot.
Definition s_slash : string := String c_slash EmptyString.

(** The elements kept so far, the last one first. *)
Definition clean_step (rooted : bool) (out : list string) (elem : string) : list string :=
  if bool_decide (elem = EmptyString ∨ elem = s_dot) then out
  else if bool_decide (elem = s_dotdot) then
    match out with
    | e :: out' => if bool_decide (e = s_dotdot) then s_dotdot :: out else out'
    | [] => if rooted then [] else [s_dotdot]
    end
  else elem :: out.

Definition path_clean (p : string) : string :=
  let rooted := match p with String c _ => bool_decide (c = c_slash) | EmptyString => false end in
  let out := fold_left (clean_step rooted) (split_on c_slash p) [] in
  let body := join s_slash (reverse out) in
  if rooted then String c_slash body
  else match out with [] => s_dot | _ => body end.

(** ** [filepath.Match] *)

Definition c_star : ascii := "*"%char.
Definition c_quest : ascii := "?"%char.
Definition c_lbr : ascii := "["%char.
Definition c_rbr : ascii := "]"%char.
Definition c_caret : ascii := "^"%char.
Definition c_esc : ascii := "\"%char.

Abbreviation chr := nat_of_ascii.

(** The pattern up to the next star that is not in a range, and the rest. *)
Fixpoint scan_body (inrange : bool) (p : string) : string * string :=
  match p with
  | EmptyString => (EmptyString, EmptyString)
  | String c p' =>
      if bool_decide (c = c_star) && negb inrange then (EmptyString, p)
      else if bool_decide (c = c_esc) then
        match p' with
        | EmptyString => (p, EmptyString)
        | String d p'' =>
            let '(b, r) := scan_body inrange p'' in (String c (String d b), r)
        end
      else
        let inrange :=
          if bool_decide (c = c_lbr) then true
          else if bool_decide (c = c_rbr) then false else inrange in
        let '(b, r) := scan_body inrange p' in (String c b, r)
  end.

(** [scanChunk]: whether there is a leading star, the chunk after it and the
    rest of the pattern. *)
Definition scan_chunk (p : string) : bool * string * string :=
  let p' := trim_left_by (λ c, bool_decide (c = c_star)) p in
  let star := match p with String c _ => bool_decide (c = c_star) | EmptyString => false end in
  let '(chunk, rest) := scan_body false p' in
  (star, chunk, rest).

(** [getEsc]: a character of a class, possibly escaped; something must follow. *)
Definition get_esc (chunk : string) : option (ascii * string) :=
  match chunk with
  | EmptyString => None
  | String c rest =>
      if bool_decide (c = c_dash ∨ c = c_rbr) then None
      else
        match (if bool_decide (c = c_esc) then rest else chunk) with
        | String d rest' => if bool_decide (rest' = EmptyString) then None else Some (d, rest')
        | EmptyString => None
        end
  end.

(** The ranges of a class: whether [r] is in one of them, and the rest of the
    chunk.  [None] is [ErrBadPattern]; [n] bounds the number of ranges. *)
Fixpoint class_ranges (n : nat) (r : ascii) (first : bool) (chunk : string) (matched : bool)
    : option (bool * string) :=
  match n with
  | O => None
  | S n' =>
      match chunk with
      | String c rest =>
          if bool_decide (c = c_rbr) && negb first then Some (matched, rest)
          else
            match get_esc chunk with
            | None => None
            | Some (lo, chunk) =>
                let hi :=
                  match chunk with
                  | String d rest => if bool_decide (d = c_dash) then get_esc rest else Some (lo, chunk)
                  | EmptyString => Some (lo, chunk)
                  end in
                match hi with
                | None => None
                | Some (hi, chunk) =>
                    class_ranges n' r false chunk
                      (matched || (Nat.leb (chr lo) (chr r) && Nat.leb (chr r) (chr hi)))
                end
            end
      | EmptyString => None
      end
  end.

Inductive chunk_result := BadPattern | NoMatch | Matched (rest : string).

(** [matchChunk]: match a chunk without stars at the start of [s].  After a
    failure ([s] is [None]) the rest of the chunk is only checked. *)
Fixpoint match_chunk (n : nat) (chunk : string) (s : option string) : chunk_result :=
  match n with
  | O => BadPattern
  | S n' =>
      match chunk with
      | EmptyString => match s with Some rest => Matched rest | None => NoMatch end
      | String c chunk' =>
          let head := match s with Some (String h t) => Some (h, t) | _ => None end in
          if bool_decide (c = c_lbr) then
            let '(negated, body) :=
              match chunk' with
              | String d rest => if bool_decide (d = c_caret) then (true, rest) else (false, chunk')
              | EmptyString => (false, chunk')
              end in
            let r := match head with Some (h, _) => h | None => Ascii.zero end in
            match class_ranges (S (String.length body)) r true body false with
            | None => BadPattern
            | Some (matched, rest) =>
                match_chunk n' rest
                  (match head with
                   | Some (_, t) => if Bool.eqb matched negated then None else Some t
                   | None => None
                   end)
            end
          else if bool_decide (c = c_quest) then
            match_chunk n' chunk'
              (match head with
               | Some (h, t) => if bool_decide (h = c_slash) then None else Some t
               | None => None
               end)
          else
            let lit :=
              if bool_decide (c = c_esc)
              then match chunk' with String d rest => Some (d, rest) | EmptyString => None end
              else Some (c, chunk') in
            match lit with
            | None => BadPattern
            | Some (d, rest) =>
                match_chunk n' rest
                  (match head with
                   | Some (h, t) => if bool_decide (h = d) then Some t else None
                   | None => None
                   end)
            end
      end
  end.

Definition matchChunk (chunk s : string) : chunk_result :=
  match_chunk (S (String.length chunk)) chunk (Some s).

(** The positions a star can skip to: the rest of the name after one or more
    characters other than the separator. *)
Fixpoint star_skip (chunk : string) (last : bool) (name : string) : option (option string) :=
  match name with
  | EmptyString => Some None
  | String c name' =>
      if bool_decide (c = c_slash) then Some None
      else
        match matchChunk chunk name' with
        | BadPattern => None
        | NoMatch => star_skip chunk last name'
        | Matched t =>
            if last && negb (bool_decide (t = EmptyString)) then star_skip chunk last name'
            else Some (Some t)
        end
  end.

(** The loop of [filepath.Match]; an error counts as no match, as in the code
    that calls it. *)
Fixpoint glob_loop (n : nat) (pattern name : string) : bool :=
  match n with
  | O => false
  | S n' =>
      match pattern with
      | EmptyString => bool_decide (name = EmptyString)
      | _ =>
          let '(star, chunk, rest) := scan_chunk pattern in
          let last := bool_decide (rest = EmptyString) in
          if star && bool_decide (chunk = EmptyString) then negb (in_string c_slash name)
          else
            match matchChunk chunk name with
            | Matched t =>
                if bool_decide (t = EmptyString) || negb last then glob_loop n' rest t
                else if star then
                  match star_skip chunk last name with
                  | Some (Some t) => glob_loop n' rest t
                  | _ => false
                  end
                else false
            | NoMatch =>
                if star then
                  match star_skip chunk last name with
                  | Some (Some t) => glob_loop n' rest t
                  | _ => false
                  end
                else false
            | BadPattern => false
            end
      end
  end.

Definition filepath_Match (pattern name : string) : bool :=
  glob_loop (S (String.length pattern)) pattern name.

(** The result of [filepath.Match] together with its error: [None] is
    [ErrBadPattern].  What is left of the pattern once there is no match is
    checked as well. *)
Fixpoint glob_check (n : nat) (pattern : string) : option bool :=
  match n, pattern with
  | O, _ | _, EmptyString => Some false
  | S n', _ =>
      let '(_, chunk, rest) := scan_chunk pattern in
      match matchChunk chunk EmptyString with
      | BadPattern => None
      | _ => glob_check n' rest
      end
  end.

Fixpoint glob_result (n : nat) (pattern name : string) : option bool :=
  match n with
  | O => Some false
  | S n' =>
      match pattern with
      | EmptyString => Some (bool_decide (name = EmptyString))
      | _ =>
          let '(star, chunk, rest) := scan_chunk pattern in
          let last := bool_decide (rest = EmptyString) in
          let skip :=
            if star then
              match star_skip chunk last name with
              | None => None
              | Some (Some t) => glob_result n' rest t
              | Some None => glob_check n' rest
              end
            else glob_check n' rest in
          if star && bool_decide (chunk = EmptyString) then Some (negb (in_string c_slash name))
          else
            match matchChunk chunk name with
            | Matched t => if bool_decide (t = EmptyString) || negb last then glob_result n' rest t else skip
            | NoMatch => skip
            | BadPattern => None
            end
      end
  end.

Definition filepath_Match_err (pattern name : string) : option bool :=
  glob_result (S (String.length pattern)) pattern name.

(** ** Facts *)

Lemma glob_check_false n pattern : default false (glob_check n pattern) = false.
Proof.
  revert pattern. induction n as [|n IH]; intros [|c p]; [done..|]. cbn [glob_check].
  destruct (scan_chunk _) as [[? chunk] rest]. by destruct (matchChunk chunk _).
Qed.

Lemma glob_result_loop n pattern name : default false (glob_result n pattern name) = glob_loop n pattern name.
Proof.
  revert pattern name. induction n as [|n IH]; intros pattern name; [done|].
  destruct pattern as [|c p]; [done|]. cbn [glob_result glob_loop].
  destruct (scan_chunk _) as [[star chunk] rest]. destruct (star && _); [done|].
  assert (default false
    (if star then
       match star_skip chunk (bool_decide (rest = "")) name with
       | None => None | Some (Some t) => glob_result n rest t | Some None => glob_check n rest end
     else glob_check n rest) =
    if star then
      match star_skip chunk (bool_decide (rest = "")) name with
      | Some (Some t) => glob_loop n rest t | _ => false end
    else false) as Hskip.
  { destruct star; [|apply glob_check_false]. destruct (star_skip _ _ _) as [[t|]|]; [apply IH|apply glob_check_false|done]. }
  destruct (matchChunk chunk name) as [| |t]; [done|exact Hskip|]. destruct (_ || _); [apply IH|exact Hskip].
Qed.

(** Callers that treat an error as no match see [filepath_Match]. *)
Lemma filepath_Match_default pattern name :
  filepath_Match pattern name = default false (filepath_Match_err pattern name).
Proof. symmetry. apply glob_result_loop. Qed.

(** A pattern without special characters matches itself only. *)
Definition glob_plain (c : ascii) : bool :=
  negb (bool_decide (c = c_star ∨ c = c_quest ∨ c = c_lbr ∨ c = c_rbr ∨ c = c_esc)).

Fixpoint all_chars (p : ascii → bool) (s : string) : bool :=
  match s with
  | EmptyString => true
  | String c s' => p c && all_chars p s'
  end.

Ltac plain_char H :=
  unfold glob_plain in H; apply negb_true_iff, bool_decide_eq_false in H.

Lemma scan_body_plain p : all_chars glob_plain p = true → scan_body false p = (p, EmptyString).
Proof.
  induction p as [|c p IH]; [done|]. cbn [all_chars scan_body]. intros [Hc Hp]%andb_true_iff.
  plain_char Hc. rewrite !bool_decide_eq_false_2 by tauto. cbn. by rewrite IH.
Qed.

Fixpoint strip_prefix (p s : string) : option string :=
  match p, s with
  | EmptyString, _ => Some s
  | String c p', String d s' => if bool_decide (d = c) then strip_prefix p' s' else None
  | String _ _, EmptyString => None
  end.

Lemma strip_prefix_all p s : strip_prefix p s = Some EmptyString ↔ p = s.
Proof.
  revert s. induction p as [|c p IH]; intros [|d s]; cbn; try done.
  case_bool_decide as Hd; [subst; rewrite IH|]; split; congruence.
Qed.

Lemma match_chunk_plain n p s :
  all_chars glob_plain p = true → (String.length p < n)%nat →
  match_chunk n p s = match s ≫= strip_prefix p with
                      | Some rest => Matched rest
                      | None => NoMatch
                      end.
Proof.
  revert n s. induction p as [|c p IH]; intros n s Hp Hn; (destruct n as [|n]; [simpl in Hn; lia|]).
  { by destruct s. }
  cbn [all_chars] in Hp. apply andb_true_iff in Hp as [Hc Hp]. plain_char Hc.
  cbn [match_chunk]. rewrite !bool_decide_eq_false_2 by tauto. simpl in Hn.
  rewrite IH by (done || lia). destruct s as [[|h t]|]; try done. cbn. by case_bool_decide.
Qed.

Lemma filepath_Match_plain p s :
  all_chars glob_plain p = true → filepath_Match p s = bool_decide (p = s).
Proof.
  intros Hp. unfold filepath_Match. destruct p as [|c p].
  { cbn. apply bool_decide_ext. split; congruence. }
  set (q := String c p) in *. remember (String.length q) as n eqn:Hn.
  assert (trim_left_by (λ c, bool_decide (c = c_star)) q = q) as Htrim.
  { cbn in Hp |- *. apply andb_true_iff in Hp as [Hc _]. plain_char Hc.
    by rewrite bool_decide_eq_false_2 by tauto. }
  assert (scan_chunk q = (false, q, EmptyString)) as Hscan.
  { unfold scan_chunk. rewrite Htrim, scan_body_plain by done. unfold q.
    cbn in Hp. apply andb_true_iff in Hp as [Hc _]. plain_char Hc.
    by rewrite bool_decide_eq_false_2 by tauto. }
  cbn [glob_loop]. change (match q with EmptyString => ?x | _ => ?y end) with y. rewrite Hscan.
  cbn [andb]. unfold matchChunk. rewrite match_chunk_plain by (done || lia).
  cbn [mbind option_bind]. destruct (strip_prefix q s) as [rest|] eqn:Hpre.
  - rewrite (bool_decide_eq_true_2 (EmptyString = EmptyString)) by done. rewrite orb_false_r.
    case_bool_decide as Hrest.
    + subst. rewrite strip_prefix_all in Hpre. by rewrite bool_decide_eq_true_2.
    + rewrite bool_decide_eq_false_2; [done|]. intros Heq. apply strip_prefix_all in Heq. congruence.
  - rewrite bool_decide_eq_false_2; [done|]. intros Heq. apply strip_prefix_all in Heq. congruence.
Qed.
