(* ===== verification/MemTypes.v ===== *)
(** * Memory types and type masks (pkg/resmgr/lib/memory/types.go)

    [Type] is a Go [int]; the known types are DRAM, PMEM and HBM.  A
    [TypeMask] is an [int] used as a set of types, bit [t] for type [t]. *)

From S2P Require Import Prelude GoStrings.

(** ** Types *)

Definition TypeDRAM : Z := 0.
Definition TypePMEM : Z := 1.
Definition TypeHBM : Z := 2.

(** The memory types of pkg/sysfs. *)
Definition sysfs_MemoryTypeDRAM : Z := 0.
Definition sysfs_MemoryTypePMEM : Z := 1.
Definition sysfs_MemoryTypeHBM : Z := 2.

Definition sysToType : gmap Z Z :=
  list_to_map [(sysfs_MemoryTypeDRAM, TypeDRAM); (sysfs_MemoryTypePMEM, TypePMEM);
    (sysfs_MemoryTypeHBM, TypeHBM)].

Definition typeToSys : gmap Z Z :=
  list_to_map [(TypeDRAM, sysfs_MemoryTypeDRAM); (TypePMEM, sysfs_MemoryTypePMEM);
    (TypeHBM, sysfs_MemoryTypeHBM)].

Definition typeToString : gmap Z string :=
  list_to_map [(TypeDRAM, "DRAM"); (TypePMEM, "PMEM"); (TypeHBM, "HBM")].

Definition stringToType : gmap string Z :=
  list_to_map [("DRAM", TypeDRAM); ("PMEM", TypePMEM); ("HBM", TypeHBM)].

Definition TypeForSysfs (sysType : Z) : res Z :=
  match sysToType !! sysType with
  | Some t => Ok t
  | None => Err Panic
  end.

Definition Type_Sysfs (t : Z) : res Z :=
  match typeToSys !! t with
  | Some sysType => Ok sysType
  | None => Err Panic
  end.

Definition ParseType (str : string) : res Z :=
  match stringToType !! to_upper str with
  | Some t => Ok t
  | None => Err ErrInvalidType
  end.

Definition MustParseType (str : string) : res Z :=
  match ParseType str with
  | Ok t => Ok t
  | Err _ => Err Panic
  end.

(** [1 << t] as an [int]; the code shifts by valid types only. *)
Definition Type_Mask (t : Z) : Z := i64 (Z.shiftl 1 t).

Definition Type_IsValid (t : Z) : bool := bool_decide (is_Some (typeToSys !! t)).

(** A type that is not known is printed as a [%!(libmem:Bad-Type n)] marker. *)
Definition Type_String (t : Z) : string :=
  match typeToString !! t with
  | Some s => s
  | None => str_app "%!(libmem:Bad-Type " (str_app (itoa t) ")")
  end.

(** ** Type masks *)

Definition TypeMaskDRAM : Z := Z.shiftl 1 TypeDRAM.
Definition TypeMaskPMEM : Z := Z.shiftl 1 TypePMEM.
Definition TypeMaskHBM : Z := Z.shiftl 1 TypeHBM.
Definition TypeMaskAll : Z := Z.shiftl TypeMaskHBM 1 - 1.

Definition NewTypeMask (types : list Z) : Z :=
  fold_left (λ m t, m ||| Type_Mask t) types 0 &&& TypeMaskAll.

Definition NewTypeMaskForSysfs (sysTypes : list Z) : res Z :=
  let! m := fold_left (λ rm st, let! m := rm in let! t := TypeForSysfs st in
                        Ok (m ||| Type_Mask t)) sysTypes (Ok 0) in
  Ok (m &&& TypeMaskAll).

Fixpoint parse_type_parts (parts : list string) (m : Z) : res Z :=
  match parts with
  | [] => Ok m
  | s :: parts' =>
      match ParseType (trim_space s) with
      | Ok t => parse_type_parts parts' (m ||| Type_Mask t)
      | Err _ => Err ErrInvalidType
      end
  end.

Definition ParseTypeMask (str : string) : res Z :=
  parse_type_parts (split_on c_comma str) 0.

Definition MustParseTypeMask (str : string) : res Z :=
  match ParseTypeMask str with
  | Ok m => Ok m
  | Err _ => Err Panic
  end.

Definition TypeMask_Slice (m : Z) : list Z :=
  filter (λ t, m &&& Type_Mask t ≠ 0) [TypeDRAM; TypePMEM; TypeHBM].

Definition TypeMask_Set (m : Z) (types : list Z) : Z :=
  fold_left (λ m t, m ||| Type_Mask t) types m.

Definition TypeMask_Clear (m : Z) (types : list Z) : Z :=
  fold_left (λ m t, m &^ Type_Mask t) types m.

Fixpoint TypeMask_Contains (m : Z) (types : list Z) : bool :=
  match types with
  | [] => true
  | t :: types' => if bool_decide (m &&& Type_Mask t = 0) then false else TypeMask_Contains m types'
  end.

Fixpoint TypeMask_ContainsAny (m : Z) (types : list Z) : bool :=
  match types with
  | [] => false
  | t :: types' => if bool_decide (m &&& Type_Mask t ≠ 0) then true else TypeMask_ContainsAny m types'
  end.

Definition TypeMask_And (m o : Z) : Z := m &&& o.
Definition TypeMask_Or (m o : Z) : Z := m ||| o.
Definition TypeMask_AndNot (m o : Z) : Z := m &^ o.

(** The loop of [String]: [sep] is empty until a type has been written. *)
Fixpoint type_mask_string (m : Z) (types : list Z) (sep str : string) : string :=
  match types with
  | [] => str
  | t :: types' =>
      if bool_decide (m &&& Type_Mask t ≠ 0)
      then type_mask_string m types' "," (str_app (str_app str sep) (Type_String t))
      else type_mask_string m types' sep str
  end.

Definition TypeMask_String (m : Z) : string :=
  type_mask_string m [TypeDRAM; TypePMEM; TypeHBM] "" "".

(** [Foreach]: the callback updates a state and says whether to go on. *)
Fixpoint foreach_list {A St} (fn : A → St → St * bool) (l : list A) (st : St) : St :=
  match l with
  | [] => st
  | x :: l' => let '(st', more) := fn x st in if more : bool then foreach_list fn l' st' else st'
  end.

Definition TypeMask_Foreach {St} (m : Z) (fn : Z → St → St * bool) (st : St) : St :=
  foreach_list fn (TypeMask_Slice m) st.

(** ** JSON

    The value a JSON text decodes to, as far as decoding it into an [int] or
    a [string] tells values apart: [null] leaves the target as it was. *)
Inductive json :=
  | JNull
  | JInt (i : Z)
  | JString (s : string)
  | JOther.

Definition json_to_int (data : json) : option Z :=
  match data with
  | JNull => Some 0
  | JInt i => Some i
  | _ => None
  end.

Definition json_to_string (data : json) : option string :=
  match data with
  | JNull => Some ""
  | JString s => Some s
  | _ => None
  end.

Definition Type_MarshalJSON (t : Z) : json := JString (Type_String t).

Definition Type_UnmarshalJSON (data : json) : res Z :=
  match json_to_int data with
  | Some i => if bool_decide (is_Some (typeToString !! i)) then Ok i else Err ErrInvalidType
  | None =>
      match json_to_string data with
      | None => Err ErrInvalidType
      | Some str =>
          match stringToType !! to_upper str with
          | None => Err ErrInvalidType
          | Some stt => Ok stt
          end
      end
  end.

Definition TypeMask_MarshalJSON (m : Z) : json := JString (TypeMask_String m).

Definition TypeMask_UnmarshalJSON (data : json) : res Z :=
  match json_to_int data with
  | Some i => if bool_decide (i &^ TypeMaskAll ≠ 0) then Err ErrInvalidType else Ok i
  | None =>
      match json_to_string data with
      | None => Err ErrInvalidType
      | Some str =>
          match ParseTypeMask str with
          | Err _ => Err ErrInvalidType
          | Ok parsed => Ok parsed
          end
      end
  end.

(** ** Facts *)

Definition known_type (t : Z) : Prop := t = TypeDRAM ∨ t = TypePMEM ∨ t = TypeHBM.

Lemma Type_IsValid_known t : Type_IsValid t = true ↔ known_type t.
Proof.
  unfold Type_IsValid. rewrite bool_decide_eq_true. split.
  - intros [v Hv%elem_of_list_to_map_2]. unfold known_type. set_solver.
  - by intros [->|[->| ->]]; vm_compute; eexists.
Qed.

Lemma Type_Mask_bit t i :
  known_type t → 0 ≤ i → Z.testbit (Type_Mask t) i = bool_decide (i = t).
Proof.
  intros [->|[->| ->]] Hi;
    [change (Type_Mask TypeDRAM) with (2 ^ 0)|change (Type_Mask TypePMEM) with (2 ^ 1)
    |change (Type_Mask TypeHBM) with (2 ^ 2)];
    rewrite Z.pow2_bits_eqb by lia; unfold TypeDRAM, TypePMEM, TypeHBM;
    case_bool_decide; lia.
Qed.

Lemma Type_Mask_nonzero m t :
  known_type t → (m &&& Type_Mask t ≠ 0 ↔ Z.testbit m t = true).
Proof.
  intros Ht. assert (0 ≤ t) by (destruct Ht as [->|[->| ->]]; done).
  rewrite mask_nonzero. split.
  - intros (i & Hi & Hb). rewrite Z.land_spec, Type_Mask_bit in Hb by done.
    apply andb_true_iff in Hb as [Hb ->%bool_decide_eq_true]. done.
  - intros Hb. exists t. split; [done|].
    by rewrite Z.land_spec, Hb, Type_Mask_bit, bool_decide_eq_true_2.
Qed.

Lemma elem_of_TypeMask_Slice m t :
  t ∈ TypeMask_Slice m ↔ known_type t ∧ Z.testbit m t = true.
Proof.
  unfold TypeMask_Slice. rewrite list_elem_of_filter, !elem_of_cons, elem_of_nil.
  unfold known_type. split.
  - intros [Hm Ht]. assert (known_type t) by (unfold known_type; naive_solver).
    split; [done|]. by apply Type_Mask_nonzero.
  - intros [Ht Hm]. split; [by apply Type_Mask_nonzero|naive_solver].
Qed.

(** Masks of known types are the numbers below 8. *)
Lemma submask_TypeMaskAll m : submask m TypeMaskAll ↔ 0 ≤ m < 8.
Proof.
  change TypeMaskAll with (Z.ones 3). unfold submask. split.
  - intros <-. rewrite Z.land_ones by lia. by apply Z.mod_pos_bound.
  - intros. rewrite Z.land_ones by lia. by apply Z.mod_small.
Qed.

Lemma type_mask_cases m :
  0 < m < 8 → m = 1 ∨ m = 2 ∨ m = 3 ∨ m = 4 ∨ m = 5 ∨ m = 6 ∨ m = 7.
Proof. lia. Qed.

(** Parsing the printed form of a non-empty set of known memory types gives
    the set back. *)
Theorem TypeMask_String_roundtrip m :
  0 < m ≤ TypeMaskAll → ParseTypeMask (TypeMask_String m) = Ok m.
Proof.
  intros Hm. change TypeMaskAll with 7 in Hm.
  destruct (type_mask_cases m) as [->|[->|[->|[->|[->|[->| ->]]]]]]; [lia|vm_compute; done..].
Qed.

(** The empty type mask does not survive JSON: what it is marshalled to cannot
    be unmarshalled. *)
Theorem TypeMask_json_empty_not_roundtrip :
  TypeMask_UnmarshalJSON (TypeMask_MarshalJSON 0) = Err ErrInvalidType.
Proof. vm_compute. done. Qed.

Lemma TypeMask_String_roundtrip_witness : ParseTypeMask (TypeMask_String 5) = Ok 5.
Proof. apply (TypeMask_String_roundtrip 5). split; by vm_compute. Defined.
