(* ===== verification/MemNodes.v ===== *)
(** * Memory nodes and node masks (pkg/resmgr/lib/memory/nodes.go)

    A [NodeMask] is a [uint64] used as a set of node IDs, bit [id] for node
    [id].  A [Node] has an amount of memory of some type, the CPUs close to
    it and a vector of distances to every node. *)

From S2P Require Import Prelude GoStrings MemTypes.

(** ** Node masks *)

Definition MaxNodeID : Z := 63.

(** [1 << id] as a [NodeMask]: nothing is left of a bit shifted out of the
    64 bits.  The code shifts by IDs that are not negative. *)
Definition node_bit (id : Z) : Z := u64 (Z.shiftl 1 id).

Definition NodeMask_Set (m : Z) (ids : list Z) : Z :=
  fold_left (λ m id, m ||| node_bit id) ids m.

Definition NewNodeMask (ids : list Z) : Z := NodeMask_Set 0 ids.

Definition NodeMask_Clear (m : Z) (ids : list Z) : Z :=
  fold_left (λ m id, m &^ node_bit id) ids m.

Fixpoint NodeMask_Contains (m : Z) (ids : list Z) : bool :=
  match ids with
  | [] => true
  | id :: ids' => if bool_decide (m &&& node_bit id = 0) then false else NodeMask_Contains m ids'
  end.

Fixpoint NodeMask_ContainsAny (m : Z) (ids : list Z) : bool :=
  match ids with
  | [] => false
  | id :: ids' => if bool_decide (m &&& node_bit id ≠ 0) then true else NodeMask_ContainsAny m ids'
  end.

Definition NodeMask_And (m o : Z) : Z := m &&& o.
Definition NodeMask_Or (m o : Z) : Z := m ||| o.
Definition NodeMask_AndNot (m o : Z) : Z := m &^ o.

Definition NodeMask_Size (m : Z) : Z := Z.of_nat (popcount m).

(** [Foreach] looks at eight bits per round, skipping empty halves of the
    byte; the callback updates a state and says whether to go on.  The loops
    return the state and whether the iteration is still going on. *)
Section Foreach.
Context {St : Type} (fn : Z → St → St * bool).

Definition foreach_bit (m b k : Z) (s : St * bool) : St * bool :=
  let '(st, more) := s in
  if more : bool
  then if bool_decide (m &&& Z.shiftl 1 k ≠ 0) then fn (b + k) st else (st, true)
  else (st, false).

Definition foreach_byte (m b : Z) (s : St * bool) : St * bool :=
  if bool_decide (m &&& 0xff ≠ 0) then
    let s :=
      if bool_decide (m &&& 0xf ≠ 0)
      then foreach_bit m b 3 (foreach_bit m b 2 (foreach_bit m b 1 (foreach_bit m b 0 s)))
      else s in
    if bool_decide (m &&& 0xf0 ≠ 0)
    then foreach_bit m b 7 (foreach_bit m b 6 (foreach_bit m b 5 (foreach_bit m b 4 s)))
    else s
  else s.

Fixpoint foreach_loop (rounds : nat) (b m : Z) (st : St) : St :=
  match rounds with
  | O => st
  | S rounds' =>
      if bool_decide (m = 0) then st
      else match foreach_byte m b (st, true) with
           | (st', true) => foreach_loop rounds' (b + 8) (Z.shiftr m 8) st'
           | (st', false) => st'
           end
  end.
End Foreach.

(** Eight rounds empty a 64-bit mask. *)
Definition NodeMask_Foreach {St} (m : Z) (fn : Z → St → St * bool) (st : St) : St :=
  foreach_loop fn 8 0 m st.

Definition NodeMask_Slice (m : Z) : list Z :=
  NodeMask_Foreach m (λ id ids, (ids ++ [id], true)) [].

(** [MemsetString]: what has been written, the separator, and the range of
    consecutive IDs that has not been written yet. *)
Record memset_state := MemsetState {
  ms_b : string;
  ms_sep : string;
  ms_beg : Z;
  ms_end : Z;
}.

Definition dumpRange (s : memset_state) : memset_state :=
  let '(MemsetState b sep beg end_) := s in
  if bool_decide (beg < 0) then s
  else if bool_decide (beg = end_)
  then MemsetState (str_app (str_app b sep) (itoa beg)) "," beg end_
  else if bool_decide (beg ≤ end_ - 1)
  then MemsetState
         (str_app (str_app (str_app (str_app b sep) (itoa beg)) "-") (itoa end_)) "," beg end_
  else s.

Definition memset_step (id : Z) (s : memset_state) : memset_state * bool :=
  let '(MemsetState b sep beg end_) := s in
  if bool_decide (beg < 0) then (MemsetState b sep id id, true)
  else if bool_decide (id = end_ + 1) then (MemsetState b sep beg id, true)
  else let '(MemsetState b' sep' _ _) := dumpRange s in (MemsetState b' sep' id id, true).

Definition NodeMask_MemsetString (m : Z) : string :=
  ms_b (dumpRange (NodeMask_Foreach m memset_step (MemsetState "" "" (-1) (-1)))).

Definition NodeMask_String (m : Z) : string :=
  str_app (str_app "nodes{" (NodeMask_MemsetString m)) "}".

(** [ParseNodeMask].  The loop over a range stops at the first ID that does
    not fit a mask, so [MaxNodeID] + 2 rounds are enough for a range that
    does not start below 0. *)
Fixpoint parse_range (rounds : nat) (id end_ m : Z) : res Z :=
  match rounds with
  | O => Err OutOfFuel
  | S rounds' =>
      if bool_decide (id ≤ end_) then
        if bool_decide (id > MaxNodeID) then Err ErrInvalidNodeMask
        else parse_range rounds' (id + 1) end_ (m ||| node_bit id)
      else Ok m
  end.

Definition parse_node_part (s : string) (m : Z) : res Z :=
  match split_n2 c_dash s with
  | [lo; hi] =>
      match parse_int 32 lo with
      | None => Err ErrInvalidNodeMask
      | Some beg =>
          match parse_int 32 hi with
          | None => Err ErrInvalidNodeMask
          | Some end_ =>
              if bool_decide (end_ < beg) then Err ErrInvalidNodeMask
              else parse_range 65 beg end_ m
          end
      end
  | [one] =>
      match parse_int 32 one with
      | None => Err ErrInvalidNodeMask
      | Some id =>
          if bool_decide (id > MaxNodeID) then Err ErrInvalidNodeMask
          else Ok (m ||| node_bit id)
      end
  | _ => Err ErrInvalidNodeMask
  end.

Fixpoint parse_node_parts (parts : list string) (m : Z) : res Z :=
  match parts with
  | [] => Ok m
  | s :: parts' => let! m' := parse_node_part s m in parse_node_parts parts' m'
  end.

Definition ParseNodeMask (str : string) : res Z :=
  if bool_decide (str = "") then Ok 0
  else parse_node_parts (split_on c_comma str) 0.

Definition MustParseNodeMask (str : string) : res Z :=
  match ParseNodeMask str with
  | Ok m => Ok m
  | Err _ => Err Panic
  end.

(** ** Distances *)

Record Distance := MkDistance {
  vector : list Z;
  sorted : list Z;
  dist_nodes : gmap Z Z;
}.

(** [slices.Sort] *)
Definition slices_Sort : list Z → list Z := insertion_sort (λ x y, x - y).

(** One round of the loop over the vector: [nodes] collects the IDs at each
    distance, [sorted] the distances in the order they are first seen. *)
Definition distance_step (st : list Z * gmap Z Z) (id d : Z) : list Z * gmap Z Z :=
  let '(sorted, nodes) := st in
  match nodes !! d with
  | None => (sorted ++ [d], <[d := node_bit id]> nodes)
  | Some m => (sorted, <[d := m ||| node_bit id]> nodes)
  end.

Fixpoint distance_loop (st : list Z * gmap Z Z) (id : Z) (vec : list Z) : list Z * gmap Z Z :=
  match vec with
  | [] => st
  | d :: vec' => distance_loop (distance_step st id d) (id + 1) vec'
  end.

Definition NewDistance (id : Z) (vec : list Z) : res Distance :=
  if bool_decide (Z.of_nat (length vec) > MaxNodeID) then Err ErrInvalidNode
  else
    let '(ds, nodes) := distance_loop ([], ∅) 0 vec in
    let sorted := slices_Sort ds in
    match sorted with
    | [] => Err Panic
    | d0 :: _ =>
        if bool_decide (default 0 (nodes !! d0) ≠ NewNodeMask [id]) then Err ErrInvalidNode
        else Ok (MkDistance vec sorted nodes)
    end.

Definition Distance_NodesAt (d : Distance) (dist : Z) : Z := default 0 (dist_nodes d !! dist).

(** ** Nodes *)

(** A [cpuset.CPUSet] is the finite set of CPU IDs it stands for. *)
Abbreviation CPUSet := (gset Z).

Record Node := MkNode {
  n_id : Z;
  memType : Z;
  n_capacity : Z;
  n_normal : bool;
  n_cpus : CPUSet;
  distance : Distance;
}.

Definition NewNode (id t capa : Z) (normal : bool) (cpus : CPUSet) (d : list Z) : res Node :=
  if negb (Type_IsValid t) then Err ErrInvalidType
  else if bool_decide (id > MaxNodeID) then Err ErrInvalidNode
  else
    let! dist := NewDistance id d in
    Ok (MkNode id t capa normal cpus dist).

Definition Node_Mask (n : Node) : Z := node_bit (n_id n).
Definition Node_IsNormal (n : Node) : bool := n_normal n.
Definition Node_IsMovable (n : Node) : bool := negb (Node_IsNormal n).
Definition Node_HasMemory (n : Node) : bool := bool_decide (n_capacity n > 0).
Definition Node_HasCPUs (n : Node) : bool := bool_decide (Z.of_nat (size (n_cpus n)) > 0).

(** An index below 0 panics. *)
Definition Node_DistanceTo (n : Node) (id : Z) : res Z :=
  if bool_decide (id < Z.of_nat (length (vector (distance n))))
  then if bool_decide (id < 0) then Err Panic
       else Ok (default 0 (vector (distance n) !! Z.to_nat id))
  else Ok MaxInt.

(** The distances in increasing order without the first one, which is that
    of the node itself. *)
Definition Node_ForeachDistance {St} (n : Node) (fn : Z → Z → St → St * bool) (st : St) : St :=
  foreach_list (λ d st, fn d (Distance_NodesAt (distance n) d) st) (tail (sorted (distance n))) st.

(** ** Facts on node masks *)

(** The reference definition of the IDs in a mask: the positions of its set
    bits in increasing order. *)
Definition mask_ids (m : Z) : list Z := filter (λ i, Z.testbit m i = true) (seqZ 0 64).

Lemma node_bit_spec id i :
  0 ≤ id < 64 → 0 ≤ i → Z.testbit (node_bit id) i = bool_decide (i = id).
Proof.
  intros Hid Hi. unfold node_bit, u64. rewrite Z.shiftl_1_l.
  rewrite Z.mod_small.
  - rewrite Z.pow2_bits_eqb by lia. case_bool_decide; lia.
  - split; [lia|]. apply Z.pow_lt_mono_r; lia.
Qed.

Lemma elem_of_mask_ids m i : i ∈ mask_ids m ↔ 0 ≤ i < 64 ∧ Z.testbit m i = true.
Proof.
  unfold mask_ids. rewrite list_elem_of_filter, elem_of_seqZ. naive_solver lia.
Qed.

(** [foreach_list] that also tells whether it went through. *)
Fixpoint foreach_more {A St} (fn : A → St → St * bool) (l : list A) (s : St * bool) : St * bool :=
  match l with
  | [] => s
  | x :: l' =>
      let '(st, more) := s in
      if more : bool then foreach_more fn l' (fn x st) else (st, false)
  end.

Section foreach_facts.
Context {St : Type} (fn : Z → St → St * bool).

Lemma foreach_more_stop {A} (f : A → St → St * bool) l st :
  foreach_more f l (st, false) = (st, false).
Proof. by destruct l. Qed.

Lemma foreach_more_app l1 l2 s :
  foreach_more fn (l1 ++ l2) s = foreach_more fn l2 (foreach_more fn l1 s).
Proof.
  revert s. induction l1 as [|x l1 IH]; intros [st []]; simpl; try done.
  by rewrite foreach_more_stop.
Qed.

Lemma foreach_list_more l st : foreach_list fn l st = (foreach_more fn l (st, true)).1.
Proof.
  revert st. induction l as [|x l IH]; intros st; simpl; [done|].
  destruct (fn x st) as [st' []]; [apply IH|]. by rewrite foreach_more_stop.
Qed.

Lemma test_bit_land m k : 0 ≤ k → (m &&& Z.shiftl 1 k ≠ 0 ↔ Z.testbit m k = true).
Proof.
  intros Hk. rewrite mask_nonzero. rewrite Z.shiftl_1_l. split.
  - intros (i & Hi & Hb). rewrite Z.land_spec, Z.pow2_bits_eqb in Hb by done.
    apply andb_true_iff in Hb as [Hb ->%Z.eqb_eq]. done.
  - intros Hb. exists k. split; [done|]. by rewrite Z.land_spec, Hb, Z.pow2_bits_true.
Qed.

Lemma foreach_bit_more m b k s :
  0 ≤ k →
  foreach_bit fn m b k s
  = foreach_more fn (if Z.testbit m k then [b + k] else []) s.
Proof.
  intros Hk. destruct s as [st []]; unfold foreach_bit; simpl.
  - case_bool_decide as Hb.
    + apply test_bit_land in Hb as ->; [|done]. simpl. done.
    + destruct (Z.testbit m k) eqn:E; [|done]. by apply test_bit_land in E.
  - by destruct (Z.testbit m k).
Qed.

(** The IDs of one byte of the mask. *)
Definition byte_ids (m b : Z) : list Z :=
  filter (λ i, Z.testbit m (i - b) = true) (seqZ b 8).

Lemma filter_bit m b k l :
  filter (λ i, Z.testbit m (i - b) = true) (b + k :: l)
  = (if Z.testbit m k then [b + k] else []) ++ filter (λ i, Z.testbit m (i - b) = true) l.
Proof.
  rewrite filter_cons. replace (b + k - b) with k by lia.
  case_decide as H; [by rewrite H|]. by destruct (Z.testbit m k).
Qed.

(** An empty part of the mask has no IDs. *)
Lemma no_bits m c k :
  m &&& c = 0 → Z.testbit c k = true → Z.testbit m k = false.
Proof.
  intros H Hc. apply (f_equal (λ v, Z.testbit v k)) in H.
  rewrite Z.land_spec, Z.bits_0, Hc, andb_true_r in H. done.
Qed.

Lemma foreach_byte_more m b s :
  foreach_byte fn m b s = foreach_more fn (byte_ids m b) s.
Proof.
  unfold byte_ids.
  assert (seqZ b 8 = [b + 0; b + 1; b + 2; b + 3; b + 4; b + 5; b + 6; b + 7]) as ->.
  { unfold seqZ. simpl. repeat (apply f_equal2; [lia|]). done. }
  rewrite !filter_bit, filter_nil, app_nil_r, !foreach_more_app.
  unfold foreach_byte. rewrite !foreach_bit_more by done.
  assert (∀ k, m &&& 15 = 0 → Z.testbit 15 k = true → Z.testbit m k = false) as Hlo
    by (intros; by apply (no_bits m 15)).
  assert (∀ k, m &&& 240 = 0 → Z.testbit 240 k = true → Z.testbit m k = false) as Hhi
    by (intros; by apply (no_bits m 240)).
  assert (m &&& 255 = 0 → m &&& 15 = 0 ∧ m &&& 240 = 0) as Hall.
  { intros H. change 15 with (255 &&& 15). change 240 with (255 &&& 240).
    by rewrite !Z.land_assoc, H. }
  assert (m &&& 15 = 0 → ∀ s, foreach_more fn (if Z.testbit m 3 then [b + 3] else [])
    (foreach_more fn (if Z.testbit m 2 then [b + 2] else [])
    (foreach_more fn (if Z.testbit m 1 then [b + 1] else [])
    (foreach_more fn (if Z.testbit m 0 then [b + 0] else []) s))) = s) as Hlo'.
  { intros H s'. by rewrite !(Hlo _ H). }
  assert (m &&& 240 = 0 → ∀ s, foreach_more fn (if Z.testbit m 7 then [b + 7] else [])
    (foreach_more fn (if Z.testbit m 6 then [b + 6] else [])
    (foreach_more fn (if Z.testbit m 5 then [b + 5] else [])
    (foreach_more fn (if Z.testbit m 4 then [b + 4] else []) s))) = s) as Hhi'.
  { intros H s'. by rewrite !(Hhi _ H). }
  case_bool_decide as H1.
  - case_bool_decide; case_bool_decide; rewrite ?Hlo', ?Hhi' by done; done.
  - destruct (Hall H1). by rewrite Hlo', Hhi'.
Qed.
End foreach_facts.

Lemma foreach_loop_ids {St} (fn : Z → St → St * bool) n b m st :
  foreach_loop fn n b m st
  = foreach_list fn (filter (λ i, Z.testbit m (i - b) = true) (seqZ b (8 * Z.of_nat n))) st.
Proof.
  revert b m st. induction n as [|n IH]; intros b m st; [done|]. simpl.
  case_bool_decide as Hm.
  - subst. assert (∀ l, filter (λ i, Z.testbit 0 (i - b) = true) l = []) as ->; [|done].
    intros l. induction l; [done|]. by rewrite filter_cons, Z.bits_0.
  - replace (8 * Z.of_nat (S n)) with (8 + 8 * Z.of_nat n) by lia.
    rewrite seqZ_app, filter_app by lia.
    rewrite foreach_list_more, foreach_more_app, foreach_byte_more.
    fold (byte_ids m b). destruct (foreach_more _ _ _) as [st' []]; [|by rewrite foreach_more_stop].
    rewrite IH, foreach_list_more. do 2 f_equal. apply filter_ext_in.
    intros i Hi%elem_of_seqZ. rewrite Z.shiftr_spec by lia.
    by replace (i - (b + 8) + 8) with (i - b) by lia.
Qed.

Lemma NodeMask_Foreach_ids {St} m (fn : Z → St → St * bool) st :
  NodeMask_Foreach m fn st = foreach_list fn (mask_ids m) st.
Proof.
  unfold NodeMask_Foreach. rewrite foreach_loop_ids.
  change (8 * Z.of_nat 8) with 64. unfold mask_ids.
  rewrite (filter_ext_in (λ i, Z.testbit m (i - 0) = true) (λ i, Z.testbit m i = true)); [done|].
  intros i _. by rewrite Z.sub_0_r.
Qed.

Lemma foreach_list_snoc {A B} (f : A → B) (l : list A) acc :
  foreach_list (λ x st, (st ++ [f x], true)) l acc = acc ++ (f <$> l).
Proof.
  revert acc. induction l as [|x l IH]; intros acc; simpl; [by rewrite app_nil_r|].
  by rewrite IH, <- app_assoc.
Qed.

Lemma NodeMask_Slice_ids m : NodeMask_Slice m = mask_ids m.
Proof.
  unfold NodeMask_Slice. rewrite NodeMask_Foreach_ids.
  rewrite (foreach_list_snoc id). by rewrite list_fmap_id.
Qed.

Lemma foreach_list_fold {A St} (f : A → St → St) (l : list A) st :
  foreach_list (λ x st, (f x st, true)) l st = fold_left (λ st x, f x st) l st.
Proof. revert st. induction l as [|x l IH]; intros st; simpl; [done|]. apply IH. Qed.

(** ** Printing and parsing node masks *)

(** What the printer and the parser need of the decimal IDs of a mask. *)
Lemma itoa_id i :
  0 ≤ i < 64 →
  in_string c_comma (itoa i) = false ∧ in_string c_dash (itoa i) = false ∧
  parse_int 32 (itoa i) = Some i ∧ itoa i ≠ "".
Proof.
  intros Hi.
  set (ok i := bool_decide (in_string c_comma (itoa i) = false ∧
    in_string c_dash (itoa i) = false ∧ parse_int 32 (itoa i) = Some i ∧ itoa i ≠ "")).
  assert (forallb ok (seqZ 0 64) = true) as Hall by (vm_compute; done).
  rewrite forallb_forall in Hall. apply (bool_decide_eq_true_1 _).
  apply (Hall i). apply list_elem_of_In, elem_of_seqZ. lia.
Qed.

(** A range of IDs as the printer writes it. *)
Definition range_str (r : Z * Z) : string :=
  if bool_decide (r.1 = r.2) then itoa r.1
  else str_app (str_app (itoa r.1) "-") (itoa r.2).

Lemma range_str_pair x y :
  range_str (x, y)
  = if bool_decide (x = y) then itoa x else str_app (str_app (itoa x) "-") (itoa y).
Proof. done. Qed.

Definition range_ok (r : Z * Z) : Prop := 0 ≤ r.1 ≤ r.2 ∧ r.2 < 64.

Definition in_ranges (rs : list (Z * Z)) (i : Z) : Prop :=
  Exists (λ r, r.1 ≤ i ≤ r.2) rs.

Lemma range_str_no_comma r : range_ok r → in_string c_comma (range_str r) = false.
Proof.
  intros [? ?]. unfold range_str.
  destruct (itoa_id r.1) as (H1 & _); [lia|]. destruct (itoa_id r.2) as (H2 & _); [lia|].
  case_bool_decide; [done|]. by rewrite !in_string_app, H1, H2.
Qed.

Lemma range_str_nonempty r : range_ok r → range_str r ≠ "".
Proof.
  intros [? ?]. unfold range_str. destruct (itoa_id r.1) as (_ & _ & _ & Hne); [lia|].
  case_bool_decide; [done|]. by destruct (itoa r.1).
Qed.

Lemma parse_range_spec n id end_ m :
  0 ≤ id ≤ end_ + 1 → end_ < 64 → end_ - id + 1 < Z.of_nat n →
  ∃ m', parse_range n id end_ m = Ok m' ∧
    ∀ i, 0 ≤ i → Z.testbit m' i = true ↔ Z.testbit m i = true ∨ id ≤ i ≤ end_.
Proof.
  revert id m. induction n as [|n IH]; intros id m Hid He Hn; [lia|]. simpl.
  case_bool_decide as Hle; [|exists m; split; [done|intuition lia]].
  rewrite bool_decide_eq_false_2 by (unfold MaxNodeID; lia).
  destruct (IH (id + 1) (m ||| node_bit id)) as (m' & -> & Hm'); [lia..|].
  exists m'. split; [done|]. intros i Hi. rewrite Hm' by done.
  rewrite Z.lor_spec, node_bit_spec, orb_true_iff, bool_decide_eq_true by lia. intuition lia.
Qed.

Lemma parse_node_part_range r m :
  range_ok r →
  ∃ m', parse_node_part (range_str r) m = Ok m' ∧
    ∀ i, 0 ≤ i → Z.testbit m' i = true ↔ Z.testbit m i = true ∨ r.1 ≤ i ≤ r.2.
Proof.
  intros [Hr1 Hr2]. unfold parse_node_part, split_n2, range_str.
  destruct (itoa_id r.1) as (_ & Hd1 & Hp1 & _); [lia|].
  destruct (itoa_id r.2) as (_ & Hd2 & Hp2 & _); [lia|].
  case_bool_decide as Heq.
  - rewrite cut_no_sep by done. rewrite Hp1.
    rewrite bool_decide_eq_false_2 by (unfold MaxNodeID; lia).
    eexists. split; [done|]. intros i Hi.
    rewrite Z.lor_spec, node_bit_spec, orb_true_iff, bool_decide_eq_true by lia. intuition lia.
  - rewrite str_app_assoc. change (str_app "-" (itoa r.2)) with (String c_dash (itoa r.2)).
    rewrite cut_app by done. rewrite Hp1, Hp2. rewrite bool_decide_eq_false_2 by lia.
    apply parse_range_spec; lia.
Qed.

Lemma parse_node_parts_ranges rs m :
  Forall range_ok rs →
  ∃ m', parse_node_parts (range_str <$> rs) m = Ok m' ∧
    ∀ i, 0 ≤ i → Z.testbit m' i = true ↔ Z.testbit m i = true ∨ in_ranges rs i.
Proof.
  unfold in_ranges. revert m. induction rs as [|r rs IH]; intros m Hrs.
  - exists m. split; [done|]. intros. rewrite Exists_nil. tauto.
  - rewrite fmap_cons. cbn [parse_node_parts]. apply Forall_cons in Hrs as [Hr Hrs].
    destruct (parse_node_part_range r m Hr) as (m1 & -> & H1). cbn [res_bind].
    destruct (IH m1 Hrs) as (m2 & -> & H2). exists m2. split; [done|].
    intros i Hi. rewrite H2, H1, Exists_cons by done. tauto.
Qed.

(** What the state of the printer says after some IDs. *)
Definition memset_inv (l : list Z) (s : memset_state) : Prop :=
  (l = [] ∧ s = MemsetState "" "" (-1) (-1)) ∨
  ∃ rs,
    Forall range_ok rs ∧ range_ok (ms_beg s, ms_end s) ∧
    ms_b s = join "," (range_str <$> rs) ∧
    ms_sep s = (if rs is [] then "" else ",") ∧
    ∀ i, i ∈ l ↔ in_ranges (rs ++ [(ms_beg s, ms_end s)]) i.

Lemma join_snoc l x :
  join "," (l ++ [x]) = str_app (str_app (join "," l) (if l is [] then "" else ",")) x.
Proof.
  induction l as [|y l IH]; [done|]. destruct l as [|z l].
  - simpl. by rewrite str_app_assoc.
  - change (join "," ((y :: z :: l) ++ [x]))
      with (str_app y (str_app "," (join "," ((z :: l) ++ [x])))).
    rewrite IH. change (join "," (y :: z :: l))
      with (str_app y (str_app "," (join "," (z :: l)))).
    by rewrite !str_app_assoc.
Qed.

(** Writing the pending range out. *)
Lemma dumpRange_inv rs s :
  range_ok (ms_beg s, ms_end s) →
  ms_b s = join "," (range_str <$> rs) →
  ms_sep s = (if rs is [] then "" else ",") →
  dumpRange s = MemsetState (join "," (range_str <$> (rs ++ [(ms_beg s, ms_end s)]))) ","
                  (ms_beg s) (ms_end s).
Proof.
  destruct s as [b sep beg end_]. simpl. intros [? ?] -> ->. simpl in *.
  rewrite fmap_app. simpl. rewrite join_snoc. rewrite range_str_pair.
  rewrite bool_decide_eq_false_2 by lia.
  assert ((if range_str <$> rs is [] then "" else ",") = (if rs is [] then "" else ",")) as ->
    by (by destruct rs).
  case_bool_decide; [done|]. rewrite bool_decide_eq_true_2 by lia.
  by rewrite !str_app_assoc.
Qed.

Lemma in_ranges_snoc rs r i : in_ranges (rs ++ [r]) i ↔ in_ranges rs i ∨ r.1 ≤ i ≤ r.2.
Proof. unfold in_ranges. rewrite Exists_app, Exists_cons, Exists_nil. tauto. Qed.

Lemma memset_step_inv l s id :
  0 ≤ id < 64 → memset_inv l s →
  (memset_step id s).2 = true ∧ memset_inv (l ++ [id]) (memset_step id s).1.
Proof.
  intros Hid [[-> ->]|(rs & Hrs & Hr & Hb & Hsep & Hl)].
  - split; [done|]. right. exists []. simpl. split_and!; try done.
    + unfold range_ok. simpl. lia.
    + intros i. simpl. unfold in_ranges.
      rewrite Exists_cons, Exists_nil, list_elem_of_singleton. simpl. intuition lia.
  - pose proof (dumpRange_inv rs s Hr Hb Hsep) as Hd.
    destruct s as [b sep beg end_]. destruct Hr as [Hr1 Hr2]. cbn [ms_b ms_sep ms_beg ms_end] in *.
    cbn in Hr1, Hr2. unfold memset_step. rewrite bool_decide_eq_false_2 by lia.
    case_bool_decide as Hid2; (split; [by rewrite ?Hd|]); right.
    + exists rs. simpl. split_and!; try done; [unfold range_ok; simpl; lia..|].
      intros i. rewrite elem_of_app, list_elem_of_singleton, Hl, !in_ranges_snoc. simpl.
      intuition lia.
    + rewrite Hd. exists (rs ++ [(beg, end_)]). simpl. split_and!.
      * apply Forall_app. split; [done|]. repeat constructor; simpl; lia.
      * unfold range_ok. simpl. lia.
      * done.
      * by destruct rs.
      * intros i. rewrite elem_of_app, list_elem_of_singleton, Hl, !in_ranges_snoc. simpl.
        intuition lia.
Qed.

Lemma foreach_memset_inv l s l0 :
  Forall (λ i, 0 ≤ i < 64) l → memset_inv l0 s →
  memset_inv (l0 ++ l) (foreach_list memset_step l s).
Proof.
  revert s l0. induction l as [|id l IH]; intros s l0 Hl Hs; simpl; [by rewrite app_nil_r|].
  apply Forall_cons in Hl as [Hid Hl].
  destruct (memset_step_inv l0 s id Hid Hs) as [Hmore Hinv].
  destruct (memset_step id s) as [s' more]. simpl in *. subst more.
  replace (l0 ++ id :: l) with ((l0 ++ [id]) ++ l) by (by rewrite <- app_assoc).
  by apply IH.
Qed.

(** The printed form of a mask is a list of ranges that covers its IDs. *)
Lemma MemsetString_ranges m :
  ∃ rs, Forall range_ok rs ∧ NodeMask_MemsetString m = join "," (range_str <$> rs) ∧
    ∀ i, i ∈ mask_ids m ↔ in_ranges rs i.
Proof.
  unfold NodeMask_MemsetString. rewrite NodeMask_Foreach_ids.
  pose proof (foreach_memset_inv (mask_ids m) (MemsetState "" "" (-1) (-1)) []) as Hinv.
  destruct Hinv as [[Hnil Hs]|(rs & Hrs & Hr & Hb & Hsep & Hl)].
  - apply Forall_forall. intros i Hi%elem_of_mask_ids. lia.
  - by left.
  - exists []. rewrite Hs. simpl in Hnil. split_and!; [done..|]. rewrite Hnil.
    intros i. unfold in_ranges. by rewrite Exists_nil, elem_of_nil.
  - rewrite (dumpRange_inv _ _ Hr Hb Hsep). simpl. eexists. split_and!; [|done|].
    + apply Forall_app. split; [done|]. by repeat constructor; apply Hr.
    + intros i. apply Hl.
Qed.

Lemma join_ranges_nonempty rs :
  rs ≠ [] → Forall range_ok rs → join "," (range_str <$> rs) ≠ "".
Proof.
  destruct rs as [|r rs]; [done|]. intros _ [Hr _]%Forall_cons.
  apply range_str_nonempty in Hr. rewrite fmap_cons.
  destruct rs; simpl; [done|]. by destruct (range_str r).
Qed.

(** Parsing the memory set string of any set of nodes gives the set back, with
    ranges for runs of consecutive nodes. *)
Theorem MemsetString_ParseNodeMask m :
  mask64 m → ParseNodeMask (NodeMask_MemsetString m) = Ok m.
Proof.
  intros Hm. destruct (MemsetString_ranges m) as (rs & Hrs & -> & Hids).
  unfold ParseNodeMask. case_bool_decide as He.
  - f_equal. symmetry. destruct rs as [|r rs]; [|by apply join_ranges_nonempty in He].
    apply Z.bits_inj'. intros i Hi. rewrite Z.bits_0. destruct (Z.testbit m i) eqn:Ht; [|done].
    assert (i ∈ mask_ids m) as Hin
      by (apply elem_of_mask_ids; split; [split; [done|by apply (proj1 (mask64_spec m) Hm)]|done]).
    apply Hids in Hin. by apply Exists_nil in Hin.
  - change "," with (String c_comma "") at 1. rewrite split_on_join.
    + destruct (parse_node_parts_ranges rs 0 Hrs) as (m' & -> & Hm'). f_equal.
      apply Z.bits_inj'. intros i Hi. specialize (Hm' i Hi). specialize (Hids i).
      rewrite elem_of_mask_ids in Hids. rewrite Z.bits_0 in Hm'.
      pose proof (proj1 (mask64_spec m) Hm i Hi).
      destruct (Z.testbit m i), (Z.testbit m' i); intuition congruence.
    + intros Hnil%fmap_nil_inv. by subst.
    + apply Forall_fmap. eapply Forall_impl; [done|]. intros r Hr. by apply range_str_no_comma.
Qed.

(** ** Facts on distances *)

(** What the loop of [NewDistance] knows of the distances seen so far. *)
Definition distance_inv (pre : list Z) (st : list Z * gmap Z Z) : Prop :=
  NoDup st.1 ∧ (∀ x, x ∈ st.1 ↔ x ∈ pre) ∧
  ∀ x, match st.2 !! x with
       | None => x ∉ pre
       | Some m => x ∈ pre ∧ ∀ i, 0 ≤ i → Z.testbit m i = true ↔ pre !! Z.to_nat i = Some x
       end.

Lemma lookup_snoc_Z (pre : list Z) (d x i : Z) :
  0 ≤ i →
  (pre ++ [d]) !! Z.to_nat i = Some x ↔
  pre !! Z.to_nat i = Some x ∨ (i = Z.of_nat (length pre) ∧ d = x).
Proof.
  intros Hi. rewrite lookup_app_Some. split.
  - intros [?|[? Hx]]; [by left|]. right. apply list_lookup_singleton_Some in Hx. lia.
  - intros [?|[-> ->]]; [by left|]. right. rewrite Nat2Z.id, Nat.sub_diag. split; [lia|done].
Qed.

Lemma distance_step_inv pre st d :
  (length pre < 64)%nat → distance_inv pre st →
  distance_inv (pre ++ [d]) (distance_step st (Z.of_nat (length pre)) d).
Proof.
  intros Hlen. destruct st as [s n]. intros (Hnd & Hs & Hn). cbn in *.
  pose proof (Hn d) as Hd. unfold distance_step. destruct (n !! d) as [m|] eqn:Hnd2.
  - destruct Hd as [Hin Hm]. split_and!; cbn; [done|set_solver|].
    intros x. rewrite lookup_insert. case_decide as Hx.
    + subst x. split; [set_solver|]. intros i Hi.
      rewrite Z.lor_spec, node_bit_spec, orb_true_iff, bool_decide_eq_true, Hm by lia.
      rewrite lookup_snoc_Z by done. naive_solver lia.
    + specialize (Hn x). destruct (n !! x); [|set_solver].
      destruct Hn as [? Hx2]. split; [set_solver|]. intros i Hi.
      rewrite Hx2, lookup_snoc_Z by done. naive_solver.
  - split_and!; cbn.
    + apply NoDup_app. split_and!; [done| |apply NoDup_singleton]. set_solver.
    + set_solver.
    + intros x. rewrite lookup_insert. case_decide as Hx.
      * subst x. split; [set_solver|]. intros i Hi.
        rewrite node_bit_spec, bool_decide_eq_true by lia. rewrite lookup_snoc_Z by done.
        split; [naive_solver lia|]. intros [Hx|?]; [|lia].
        apply list_elem_of_lookup_2 in Hx. done.
      * specialize (Hn x). destruct (n !! x); [|set_solver].
        destruct Hn as [? Hx2]. split; [set_solver|]. intros i Hi.
        rewrite Hx2, lookup_snoc_Z by done. naive_solver.
Qed.

Lemma distance_loop_inv vec pre st :
  (length pre + length vec ≤ 64)%nat → distance_inv pre st →
  distance_inv (pre ++ vec) (distance_loop st (Z.of_nat (length pre)) vec).
Proof.
  revert pre st. induction vec as [|d vec IH]; intros pre st Hlen Hinv; simpl.
  - by rewrite app_nil_r.
  - replace (pre ++ d :: vec) with ((pre ++ [d]) ++ vec) by (by rewrite <- app_assoc).
    replace (Z.of_nat (length pre) + 1) with (Z.of_nat (length (pre ++ [d])))
      by (rewrite length_app; simpl; lia).
    apply IH; [rewrite length_app; simpl in *; lia|]. apply distance_step_inv; [simpl in *; lia|done].
Qed.

Lemma slices_Sort_sorted l : NoDup l → StronglySorted Z.lt (slices_Sort l).
Proof.
  intros Hnd. unfold slices_Sort.
  assert (StronglySorted (cmp_le (λ x y : Z, x - y)) (insertion_sort (λ x y, x - y) l)) as Hs.
  { apply insertion_sort_sorted. split; intros; unfold cmp_le in *; lia. }
  assert (NoDup (insertion_sort (λ x y, x - y) l)) as Hnd2 by (by rewrite insertion_sort_perm).
  induction Hs as [|x k Hs IH Hx]; [constructor|].
  apply NoDup_cons in Hnd2 as [Hnin Hnd2]. constructor; [by apply IH|].
  apply Forall_forall. intros y Hy. rewrite Forall_forall in Hx. specialize (Hx y Hy).
  unfold cmp_le in Hx. assert (x ≠ y) by congruence. lia.
Qed.

(** The distances of a node: [sorted] holds the distinct distances in
    increasing order, and the nodes at a distance are those the vector gives
    that distance.  The shortest one is to the node itself alone. *)
Definition distance_ok (id : Z) (d : Distance) : Prop :=
  (length (vector d) ≤ 63)%nat ∧
  StronglySorted Z.lt (sorted d) ∧
  (∀ x, x ∈ sorted d ↔ x ∈ vector d) ∧
  (∀ x i, 0 ≤ i → Z.testbit (Distance_NodesAt d x) i = true ↔ vector d !! Z.to_nat i = Some x) ∧
  ∃ d0, head (sorted d) = Some d0 ∧ Distance_NodesAt d d0 = NewNodeMask [id].

Lemma NewDistance_distance_ok id vec d :
  NewDistance id vec = Ok d → vector d = vec ∧ distance_ok id d.
Proof.
  unfold NewDistance. case_bool_decide as Hlen; [done|]. unfold MaxNodeID in Hlen.
  pose proof (distance_loop_inv vec [] ([], ∅)) as Hinv. simpl in Hinv.
  change (Z.of_nat 0) with 0 in Hinv.
  destruct (distance_loop ([], ∅) 0 vec) as [ds nodes].
  destruct Hinv as (Hnd & Hs & Hn); [lia| |].
  { split_and!; [constructor|done|]. intros x. cbn [snd]. rewrite lookup_empty. set_solver. }
  simpl in *. pose proof (slices_Sort_sorted ds Hnd) as Hsort.
  assert (∀ x, x ∈ slices_Sort ds ↔ x ∈ vec) as Helem
    by (intros x; unfold slices_Sort; by rewrite insertion_sort_perm).
  destruct (slices_Sort ds) as [|d0 ds'] eqn:Hd; [done|].
  case_bool_decide as H0; [done|]. intros [= <-]. simpl.
  split; [done|]. split_and!; simpl; [lia|done|done| |by exists d0].
  intros x i Hi. unfold Distance_NodesAt. simpl. specialize (Hn x).
  destruct (nodes !! x) as [m|]; simpl; [apply Hn; done|].
  rewrite Z.bits_0. split; [done|]. by intros Hx%list_elem_of_lookup_2.
Qed.

Lemma MemsetString_ParseNodeMask_witness : ParseNodeMask (NodeMask_MemsetString 46) = Ok 46.
Proof. apply (MemsetString_ParseNodeMask 46). split; by vm_compute. Defined.
