(* ===== verification/MemRequest.v ===== *)
(** * The mask cache (pkg/resmgr/lib/memory/mask-cache.go)

    The cache keeps, for the nodes of an allocator, the masks of the nodes
    with some property: having memory, normal memory, close CPUs, or memory
    of some type. *)

From Stdlib Require Import HexadecimalString.
From S2P Require Import Prelude GoStrings MemTypes MemNodes.

Record MaskCache := MkMaskCache {
  mc_types : Z;
  mc_all : Z;
  mc_normal : Z;
  mc_movable : Z;
  mc_hasMemory : Z;
  mc_noMemory : Z;
  mc_hasCPU : Z;
  mc_noCPU : Z;
  mc_byTypes : gmap Z Z;
}.

(** A Go map read: 0 for a key that is not there. *)
Definition mask_at (m : gmap Z Z) (k : Z) : Z := default 0 (m !! k).

Definition emptyMaskCache : MaskCache := MkMaskCache 0 0 0 0 0 0 0 0 ∅.

(** [byTypes[types] |= byTypes[t.Mask()]] for the types of a combination. *)
Definition or_types (m : gmap Z Z) (types : Z) : gmap Z Z :=
  fold_left (λ m t, <[types := mask_at m types ||| mask_at m (Type_Mask t)]> m)
    (TypeMask_Slice types) m.

Definition type_combinations : list Z :=
  [TypeMaskDRAM ||| TypeMaskPMEM; TypeMaskDRAM ||| TypeMaskHBM;
   TypeMaskPMEM ||| TypeMaskHBM; TypeMaskAll].

Definition add_by_types (m : gmap Z Z) (typeMask nodeMask : Z) : gmap Z Z :=
  fold_left or_types type_combinations (<[typeMask := mask_at m typeMask ||| nodeMask]> m).

Definition addNode (c : MaskCache) (n : Node) : MaskCache :=
  let typeMask := Type_Mask (memType n) in
  let nodeMask := Node_Mask n in
  let has := Node_HasMemory n in
  let normal := (has && Node_IsNormal n)%bool in
  let movable := (has && negb (Node_IsNormal n))%bool in
  let cpu := Node_HasCPUs n in
  let add (b : bool) (m x : Z) := if b then m ||| x else m in
  {| mc_types := add has (mc_types c) typeMask;
     mc_all := mc_all c ||| nodeMask;
     mc_normal := add normal (mc_normal c) nodeMask;
     mc_movable := add movable (mc_movable c) nodeMask;
     mc_hasMemory := add has (mc_hasMemory c) nodeMask;
     mc_noMemory := add (negb has) (mc_noMemory c) nodeMask;
     mc_hasCPU := add cpu (mc_hasCPU c) nodeMask;
     mc_noCPU := add (negb cpu) (mc_noCPU c) nodeMask;
     mc_byTypes := if has then add_by_types (mc_byTypes c) typeMask nodeMask else mc_byTypes c |}.

Definition NewMaskCache (nodes : list Node) : MaskCache := fold_left addNode nodes emptyMaskCache.

Definition NodesByTypes (c : MaskCache) (types : Z) : Z := mask_at (mc_byTypes c) types.

(** ** What the cache promises *)

(** A node with a known type and an ID that fits a mask; [NewNode] checks
    both, given an ID that is not negative. *)
Definition node_ok (n : Node) : Prop :=
  0 ≤ n_id n < 64 ∧ known_type (memType n) ∧ distance_ok (n_id n) (distance n).

(** The mask of the nodes in a list that satisfy a test. *)
Definition is_mask_of (nodes : list Node) (p : Node → Prop) (m : Z) : Prop :=
  ∀ i, 0 ≤ i → Z.testbit m i = true ↔ ∃ n, n ∈ nodes ∧ n_id n = i ∧ p n.

Record cache_ok (nodes : list Node) (c : MaskCache) : Prop := {
  ok_types : ∀ t, 0 ≤ t → Z.testbit (mc_types c) t = true ↔
    ∃ n, n ∈ nodes ∧ memType n = t ∧ Node_HasMemory n = true;
  ok_all : is_mask_of nodes (λ _, True) (mc_all c);
  ok_normal : is_mask_of nodes (λ n, Node_HasMemory n = true ∧ Node_IsNormal n = true) (mc_normal c);
  ok_movable : is_mask_of nodes (λ n, Node_HasMemory n = true ∧ Node_IsNormal n = false) (mc_movable c);
  ok_hasMemory : is_mask_of nodes (λ n, Node_HasMemory n = true) (mc_hasMemory c);
  ok_noMemory : is_mask_of nodes (λ n, Node_HasMemory n = false) (mc_noMemory c);
  ok_hasCPU : is_mask_of nodes (λ n, Node_HasCPUs n = true) (mc_hasCPU c);
  ok_noCPU : is_mask_of nodes (λ n, Node_HasCPUs n = false) (mc_noCPU c);
  ok_byTypes : ∀ T, 0 < T < 8 →
    is_mask_of nodes (λ n, Node_HasMemory n = true ∧ Z.testbit T (memType n) = true)
      (mask_at (mc_byTypes c) T);
  ok_noTypes : ∀ T, ¬ (0 < T < 8) → mask_at (mc_byTypes c) T = 0;
}.

Lemma is_mask_of_snoc_add nodes p m n (b : bool) :
  0 ≤ n_id n < 64 → (b = true ↔ p n) → is_mask_of nodes p m →
  is_mask_of (nodes ++ [n]) p (if b then m ||| Node_Mask n else m).
Proof.
  intros Hid Hb Hm i Hi.
  assert ((∃ n', n' ∈ nodes ++ [n] ∧ n_id n' = i ∧ p n') ↔
    (∃ n', n' ∈ nodes ∧ n_id n' = i ∧ p n') ∨ (i = n_id n ∧ b = true)) as ->.
  { rewrite (exists_snoc (λ n', n_id n' = i ∧ p n')). naive_solver. }
  rewrite <- (Hm i Hi). destruct b.
  - rewrite Z.lor_spec, orb_true_iff. unfold Node_Mask.
    rewrite node_bit_spec, bool_decide_eq_true by done. naive_solver.
  - naive_solver.
Qed.

Lemma mask_at_insert m k v k' :
  mask_at (<[k := v]> m) k' = if decide (k = k') then v else mask_at m k'.
Proof. unfold mask_at. rewrite lookup_insert. by case_decide. Qed.

(** The union of the masks of some types. *)
Definition or_masks (m : gmap Z Z) (ts : list Z) (acc : Z) : Z :=
  fold_left (λ acc t, acc ||| mask_at m (Type_Mask t)) ts acc.

Lemma or_types_at m types k :
  types ∉ Type_Mask <$> TypeMask_Slice types →
  mask_at (or_types m types) k
  = if decide (types = k) then or_masks m (TypeMask_Slice types) (mask_at m types) else mask_at m k.
Proof.
  unfold or_types, or_masks. revert m.
  induction (TypeMask_Slice types) as [|t ts IH]; intros m Hn; simpl.
  - by case_decide; subst.
  - rewrite fmap_cons, not_elem_of_cons in Hn. destruct Hn as [Ht Hts].
    rewrite IH by done. rewrite !mask_at_insert. destruct (decide (types = types)); [|done].
    case_decide; [|done].
    assert (∀ ts acc, types ∉ Type_Mask <$> ts →
      fold_left (λ acc t0, acc ||| mask_at (<[types:=mask_at m types ||| mask_at m (Type_Mask t)]> m)
        (Type_Mask t0)) ts acc
      = fold_left (λ acc t0, acc ||| mask_at m (Type_Mask t0)) ts acc) as Hext.
    { clear. intros ts. induction ts as [|t' ts IH]; intros acc Hn; simpl; [done|].
      rewrite fmap_cons, not_elem_of_cons in Hn. destruct Hn as [Ht' Hts].
      rewrite mask_at_insert. rewrite decide_False by done. by apply IH. }
    by apply Hext.
Qed.

Lemma combination_not_single T :
  T = 3 ∨ T = 5 ∨ T = 6 ∨ T = 7 → T ∉ Type_Mask <$> TypeMask_Slice T.
Proof.
  intros HT. apply (bool_decide_eq_false_1 _).
  destruct HT as [->|[->|[->| ->]]]; vm_compute; done.
Qed.

Lemma or_types_other m C k :
  C = 3 ∨ C = 5 ∨ C = 6 ∨ C = 7 → k ≠ C → mask_at (or_types m C) k = mask_at m k.
Proof.
  intros HC Hk. rewrite or_types_at by (by apply combination_not_single).
  by rewrite decide_False.
Qed.

Lemma or_types_self m C :
  C = 3 ∨ C = 5 ∨ C = 6 ∨ C = 7 →
  mask_at (or_types m C) C = or_masks m (TypeMask_Slice C) (mask_at m C).
Proof.
  intros HC. rewrite or_types_at by (by apply combination_not_single).
  by rewrite decide_True.
Qed.

(** What [add_by_types] leaves for each combination of types, with [m0] the
    map after the entry of the node's own type has been updated. *)
Lemma add_by_types_at m tm nm T :
  let m0 := <[tm := mask_at m tm ||| nm]> m in
  mask_at (add_by_types m tm nm) T =
    if bool_decide (T = 3 ∨ T = 5 ∨ T = 6 ∨ T = 7)
    then or_masks m0 (TypeMask_Slice T) (mask_at m0 T)
    else mask_at m0 T.
Proof.
  intros m0. unfold add_by_types. fold m0. clearbody m0.
  change type_combinations with [3; 5; 6; 7]. cbn [fold_left].
  case_bool_decide as HT.
  - destruct HT as [->|[->|[->| ->]]];
      repeat rewrite (or_types_other _ 7) by lia; rewrite ?(or_types_self _ 7) by lia;
      repeat rewrite (or_types_other _ 6) by lia; rewrite ?(or_types_self _ 6) by lia;
      repeat rewrite (or_types_other _ 5) by lia; rewrite ?(or_types_self _ 5) by lia;
      repeat rewrite (or_types_other _ 3) by lia; rewrite ?(or_types_self _ 3) by lia;
      try done;
      match goal with |- or_masks _ (TypeMask_Slice ?C) _ = _ =>
        let l := eval vm_compute in (TypeMask_Slice C) in change (TypeMask_Slice C) with l end;
      unfold or_masks; cbn [fold_left];
      change (Type_Mask 0) with 1; change (Type_Mask 1) with 2; change (Type_Mask 2) with 4;
      rewrite ?(or_types_other _ 6), ?(or_types_other _ 5), ?(or_types_other _ 3) by lia; done.
  - rewrite !or_types_other by lia. done.
Qed.

Definition has_type_bit (nodes : list Node) (T i : Z) : Prop :=
  ∃ n, n ∈ nodes ∧ n_id n = i ∧ Node_HasMemory n = true ∧ Z.testbit T (memType n) = true.

Lemma or_masks_bit m ts acc i :
  Z.testbit (or_masks m ts acc) i = true ↔
  Z.testbit acc i = true ∨ ∃ t, t ∈ ts ∧ Z.testbit (mask_at m (Type_Mask t)) i = true.
Proof.
  unfold or_masks. revert acc. induction ts as [|t ts IH]; intros acc; simpl; [set_solver|].
  rewrite IH, Z.lor_spec, orb_true_iff. set_solver.
Qed.

Lemma Type_Mask_inj t t' : known_type t → known_type t' → Type_Mask t = Type_Mask t' → t = t'.
Proof. by intros [->|[->| ->]] [->|[->| ->]]. Qed.

Lemma Type_Mask_range t : known_type t → 0 < Type_Mask t < 8.
Proof. by intros [->|[->| ->]]. Qed.

Lemma single_or_combination T :
  0 < T < 8 →
  (∃ t, known_type t ∧ T = Type_Mask t ∧ ¬ (T = 3 ∨ T = 5 ∨ T = 6 ∨ T = 7)) ∨
  (T = 3 ∨ T = 5 ∨ T = 6 ∨ T = 7) ∧ (∀ t, known_type t → T ≠ Type_Mask t).
Proof.
  intros HT. destruct (type_mask_cases T HT) as [->|[->|[->|[->|[->|[->| ->]]]]]].
  1: left; exists TypeDRAM. 2: left; exists TypePMEM. 4: left; exists TypeHBM.
  1, 2, 4: split_and!; [unfold known_type; tauto|done|lia].
  all: right; split; [lia|]; by intros t [->|[->| ->]].
Qed.

Lemma has_type_bit_mask nodes T i t :
  known_type t → Z.testbit T t = true → has_type_bit nodes (Type_Mask t) i →
  has_type_bit nodes T i.
Proof.
  intros Ht HT (n & Hn & Hi & Hmem & Hb). exists n. split_and!; try done.
  destruct (decide (0 ≤ memType n)) as [Hp|Hneg]; [|by rewrite Z.testbit_neg_r in Hb by lia].
  rewrite Type_Mask_bit in Hb by done. by apply bool_decide_eq_true in Hb as ->.
Qed.

Lemma add_by_types_bits nodes n m T i :
  node_ok n → Node_HasMemory n = true → 0 < T < 8 → 0 ≤ i →
  (∀ T', 0 < T' < 8 → Z.testbit (mask_at m T') i = true ↔ has_type_bit nodes T' i) →
  (Z.testbit (mask_at (add_by_types m (Type_Mask (memType n)) (Node_Mask n)) T) i = true ↔
   has_type_bit (nodes ++ [n]) T i).
Proof.
  intros (Hid & Hkt & _) Hmem HT Hi Hm.
  assert (has_type_bit (nodes ++ [n]) T i ↔
    has_type_bit nodes T i ∨ (i = n_id n ∧ Z.testbit T (memType n) = true)) as ->.
  { unfold has_type_bit. rewrite exists_snoc. intuition congruence. }
  rewrite add_by_types_at. set (m0 := <[_ := _]> m).
  assert (∀ T', 0 < T' < 8 → Z.testbit (mask_at m0 T') i = true ↔
    has_type_bit nodes T' i ∨ (i = n_id n ∧ T' = Type_Mask (memType n))) as Hm0.
  { intros T' HT'. unfold m0. rewrite mask_at_insert. case_decide as Hk.
    - subst T'. rewrite Z.lor_spec, orb_true_iff, Hm by done. unfold Node_Mask.
      rewrite node_bit_spec, bool_decide_eq_true by done. naive_solver.
    - rewrite Hm by done. naive_solver. }
  destruct (single_or_combination T HT) as [(t & Ht & -> & Hns)|[HC Hnt]].
  - rewrite bool_decide_eq_false_2 by done. rewrite Hm0 by done.
    assert (0 ≤ memType n) by (destruct Hkt as [->|[->| ->]]; done).
    rewrite Type_Mask_bit, bool_decide_eq_true by done.
    assert (memType n = t ↔ Type_Mask t = Type_Mask (memType n)) as ->; [|done].
    split; [by intros ->|]. intros. symmetry. by apply Type_Mask_inj.
  - rewrite bool_decide_eq_true_2 by done. rewrite or_masks_bit, Hm0 by done.
    setoid_rewrite elem_of_TypeMask_Slice. split.
    + intros [[?|[? HTn]]|(t & [Ht HtT] & Hb)]; [by left|by apply Hnt in HTn|].
      apply Hm0 in Hb; [|by apply Type_Mask_range].
      destruct Hb as [Hb|[? Heq]]; [left; by eapply has_type_bit_mask|].
      right. split; [done|]. by apply Type_Mask_inj in Heq as <-.
    + intros [?|[? HTn]]; [left; by left|]. right. exists (memType n). split; [done|].
      apply Hm0; [by apply Type_Mask_range|]. by right.
Qed.

Lemma addNode_cache_ok nodes n c :
  node_ok n → cache_ok nodes c → cache_ok (nodes ++ [n]) (addNode c n).
Proof.
  intros Hn Hc. pose proof Hn as (Hid & Hkt & _).
  assert (∀ T i, 0 < T < 8 → 0 ≤ i →
    (Z.testbit (mask_at (mc_byTypes (addNode c n)) T) i = true ↔ has_type_bit (nodes ++ [n]) T i))
    as Hby.
  { intros T i HT Hi. cbn. destruct (Node_HasMemory n) eqn:Hmem.
    - apply add_by_types_bits; try done. intros T' HT'. by apply (ok_byTypes _ _ Hc).
    - pose proof (ok_byTypes _ _ Hc T HT i Hi) as ->. unfold has_type_bit.
      rewrite exists_snoc. intuition congruence. }
  split; [| | | | | | | |intros T HT i Hi; by apply Hby|].
  - intros t Ht. cbn.
    assert ((∃ n', n' ∈ nodes ++ [n] ∧ memType n' = t ∧ Node_HasMemory n' = true) ↔
      (∃ n', n' ∈ nodes ∧ memType n' = t ∧ Node_HasMemory n' = true) ∨
      (t = memType n ∧ Node_HasMemory n = true)) as ->.
    { rewrite (exists_snoc (λ n', memType n' = t ∧ Node_HasMemory n' = true)). intuition congruence. }
    rewrite <- (ok_types _ _ Hc t Ht). destruct (Node_HasMemory n).
    + rewrite Z.lor_spec, orb_true_iff, Type_Mask_bit, bool_decide_eq_true by done. naive_solver.
    + naive_solver.
  - apply (is_mask_of_snoc_add _ _ _ _ true); [done|tauto|]. apply (ok_all _ _ Hc).
  - apply is_mask_of_snoc_add; [done| |apply (ok_normal _ _ Hc)]. apply andb_true_iff.
  - apply is_mask_of_snoc_add; [done| |apply (ok_movable _ _ Hc)].
    rewrite andb_true_iff, negb_true_iff. done.
  - apply is_mask_of_snoc_add; [done|done|apply (ok_hasMemory _ _ Hc)].
  - apply is_mask_of_snoc_add; [done| |apply (ok_noMemory _ _ Hc)]. by rewrite negb_true_iff.
  - apply is_mask_of_snoc_add; [done|done|apply (ok_hasCPU _ _ Hc)].
  - apply is_mask_of_snoc_add; [done| |apply (ok_noCPU _ _ Hc)]. by rewrite negb_true_iff.
  - intros T HT. cbn [addNode mc_byTypes]. pose proof (ok_noTypes _ _ Hc T HT) as H0.
    destruct (Node_HasMemory n); [|done]. rewrite add_by_types_at.
    rewrite bool_decide_eq_false_2 by lia. rewrite mask_at_insert.
    rewrite decide_False; [done|]. intros <-. by apply HT, Type_Mask_range.
Qed.

Lemma NewMaskCache_cache_ok nodes :
  Forall node_ok nodes → cache_ok nodes (NewMaskCache nodes).
Proof.
  assert (∀ pre c, Forall node_ok nodes → cache_ok pre c →
    cache_ok (pre ++ nodes) (fold_left addNode nodes c)) as Hg.
  { induction nodes as [|n nodes IH]; intros pre c Hn Hc; simpl; [by rewrite app_nil_r|].
    apply Forall_cons in Hn as [Hn Hns].
    replace (pre ++ n :: nodes) with ((pre ++ [n]) ++ nodes) by (by rewrite <- app_assoc).
    apply IH; [done|]. by apply addNode_cache_ok. }
  intros Hn. apply (Hg []); [done|].
  split; unfold is_mask_of; cbn; intros; rewrite ?Z.bits_0; try done;
    (split; [done|]); set_solver.
Qed.

(** * Allocation requests (pkg/resmgr/lib/memory/request.go)

    The code passes requests by pointer: an allocator, its zones, its offers
    and the caller share them, and the allocator updates them in place.  A
    request is therefore an object of a heap and the maps hold pointers. *)

(** [type Priority int16] *)
Definition NoPriority : Z := 0.
Definition BestEffort : Z := 0.
Definition Burstable : Z := Z.shiftl 1 10.
Definition Guaranteed : Z := Z.shiftl 1 14.
Definition Preserved : Z := Z.shiftl 1 15 - 2.
Definition Reservation : Z := Z.shiftl 1 15 - 1.

Record Request := MkRequest {
  r_id : string;
  r_name : string;
  r_limit : Z;
  r_affinity : Z;
  r_types : Z;
  r_strict : bool;
  r_priority : Z;
  r_zone : Z;
  r_created : Z;
}.

Definition set_name (v : string) (r : Request) : Request :=
  MkRequest (r_id r) v (r_limit r) (r_affinity r) (r_types r) (r_strict r) (r_priority r)
    (r_zone r) (r_created r).

Definition set_types (v : Z) (r : Request) : Request :=
  MkRequest (r_id r) (r_name r) (r_limit r) (r_affinity r) v (r_strict r) (r_priority r)
    (r_zone r) (r_created r).

Definition set_strict (v : bool) (r : Request) : Request :=
  MkRequest (r_id r) (r_name r) (r_limit r) (r_affinity r) (r_types r) v (r_priority r)
    (r_zone r) (r_created r).

Definition set_priority (v : Z) (r : Request) : Request :=
  MkRequest (r_id r) (r_name r) (r_limit r) (r_affinity r) (r_types r) (r_strict r) v
    (r_zone r) (r_created r).

Definition set_zone (v : Z) (r : Request) : Request :=
  MkRequest (r_id r) (r_name r) (r_limit r) (r_affinity r) (r_types r) (r_strict r)
    (r_priority r) v (r_created r).

(** ** Options and constructors *)

Abbreviation RequestOption := (Request → Request).

Definition WithName (name : string) : RequestOption := set_name name.
Definition WithPreferredTypes (types : Z) : RequestOption := set_types types.
Definition WithStrictTypes (types : Z) : RequestOption := λ r, set_strict true (set_types types r).
Definition WithPriority (p : Z) : RequestOption := set_priority p.

Definition WithQosClass (qosClass : string) : RequestOption :=
  let q := to_lower qosClass in
  if bool_decide (q = "besteffort") then WithPriority BestEffort
  else if bool_decide (q = "burstable") then WithPriority Burstable
  else if bool_decide (q = "guaranteed") then WithPriority Guaranteed
  else WithPriority NoPriority.

(** [now] is the time of creation. *)
Definition NewRequest (now : Z) (id : string) (limit affinity : Z) (options : list RequestOption)
    : Request :=
  let r := MkRequest id "" limit affinity 0 false 0 0 now in
  let r := if bool_decide (limit > 0) then set_priority Burstable r else r in
  fold_left (λ r o, o r) options r.

Definition Container (now : Z) (id name qos : string) (limit affin : Z) : Request :=
  NewRequest now id limit affin [WithName name; WithQosClass qos].

Definition ContainerWithTypes (now : Z) (id name qos : string) (limit affin types : Z) : Request :=
  NewRequest now id limit affin [WithName name; WithQosClass qos; WithPreferredTypes types].

Definition ContainerWithStrictTypes (now : Z) (id name qos : string) (limit affin types : Z)
    : Request :=
  NewRequest now id limit affin [WithName name; WithQosClass qos; WithStrictTypes types].

Definition PreservedContainer (now : Z) (id name : string) (limit affin : Z) : Request :=
  NewRequest now id limit affin [WithName name; WithPriority Preserved].

(** [NewID] takes the counter and returns it incremented. *)
Definition NewID (nextID : Z) : string * Z :=
  let next := i64 (nextID + 1) in
  (str_app "request-id-" (NilZero.string_of_int (Z.to_hex_int next)), next).

Definition ReservedMemory (now nextID : Z) (limit nodes : Z) (options : list RequestOption)
    : Request * Z :=
  let '(id, next) := NewID nextID in
  let name := str_app "memory reservation #" id in
  (NewRequest now id limit nodes ((WithName name :: options) ++ [WithPriority Reservation]), next).

Definition Request_Name (r : Request) : string :=
  if bool_decide (r_name r ≠ "") then r_name r else str_app "ID:#" (r_id r).

Definition Priority_String (p : Z) : string :=
  if bool_decide (p = BestEffort) then "besteffort"
  else if bool_decide (p = Burstable) then "burstable"
  else if bool_decide (p = Guaranteed) then "guaranteed"
  else if bool_decide (p = Preserved) then "preserved"
  else if bool_decide (p = Reservation) then "memory reservation"
  else str_app "priority " (itoa p).

(** ** Heap, filters and sorting *)

Abbreviation heap := (gmap positive Request).

Definition nil_request : Request := MkRequest "" "" 0 0 0 false 0 0 0.

(** The object a pointer points to; the pointers of the code are not nil. *)
Definition deref (h : heap) (p : positive) : Request := default nil_request (h !! p).

Abbreviation RequestFilter := (Request → bool).
Abbreviation RequestSorter := (Request → Request → Z).

Definition RequestsWithMaxPriority (limit : Z) : RequestFilter :=
  λ r, bool_decide (r_priority r ≤ limit).

Definition RequestsByPriority (r1 r2 : Request) : Z := i16 (r_priority r1 - r_priority r2).
Definition RequestsBySize (r1 r2 : Request) : Z := i64 (r_limit r1 - r_limit r2).
Definition RequestsByAge (r1 r2 : Request) : Z := i64 (r_created r2 - r_created r1).

(** Chained comparison: the first sorter that tells two elements apart. *)
Fixpoint chain {A} (s : list (A → A → Z)) (x y : A) : Z :=
  match s with
  | [] => 0
  | fn :: s' => let diff := fn x y in if bool_decide (diff ≠ 0) then diff else chain s' x y
  end.

Definition SortRequests `{GoRuntime} (h : heap) (requests : gmap string positive)
    (f : option RequestFilter) (s : list RequestSorter) : list positive :=
  let slice := filter (λ p, default (λ _, true) f (deref h p) = true) ((map_range requests).*2) in
  if bool_decide (Z.of_nat (length s) > 0)
  then sort_func (λ p1 p2, chain s (deref h p1) (deref h p2)) slice
  else slice.

(** ** Facts *)

Lemma elem_of_SortRequests `{GoRuntime} h requests f s p :
  p ∈ SortRequests h requests f s ↔
  (∃ id, requests !! id = Some p) ∧ default (λ _, true) f (deref h p) = true.
Proof.
  assert (p ∈ (map_range requests).*2 ↔ ∃ id, requests !! id = Some p) as Hr.
  { rewrite list_elem_of_fmap. split.
    - intros ([id p'] & -> & Hin%elem_of_map_range). eauto.
    - intros (id & Hin). exists (id, p). by rewrite elem_of_map_range. }
  unfold SortRequests. case_bool_decide; rewrite ?elem_of_sort_func, list_elem_of_filter, Hr; tauto.
Qed.

(** Priorities are compared without overflow as long as they are those of a
    QoS class or a reservation, none of which is negative. *)
Lemma RequestsByPriority_sign r1 r2 :
  0 ≤ r_priority r1 ≤ Reservation → 0 ≤ r_priority r2 ≤ Reservation →
  RequestsByPriority r1 r2 = r_priority r1 - r_priority r2.
Proof.
  unfold Reservation, RequestsByPriority, i16. rewrite Z.shiftl_1_l. intros.
  rewrite Z.mod_small; lia.
Qed.

(** Setting a field leaves the others alone. *)
Lemma r_limit_set_zone v r : r_limit (set_zone v r) = r_limit r.
Proof. done. Qed.

Lemma ReservedMemory_priority now nextID limit nodes options :
  r_priority (ReservedMemory now nextID limit nodes options).1 = Reservation.
Proof.
  unfold ReservedMemory, NewRequest. destruct (NewID nextID) as [id next]. cbn [fst].
  by rewrite fold_left_app.
Qed.
