(* ===== verification/MemZones.v ===== *)
(** * Zones of an allocator (pkg/resmgr/lib/memory/zones.go)

    A zone is a set of nodes with the requests that are allocated from it.
    The state of the allocator (allocator.go) is here too, since the zone
    operations are methods of it. *)

From S2P Require Import Prelude GoStrings MemTypes MemNodes MemRequest.

(** ** State *)

Record Zone := MkZone {
  z_nodes : Z;
  z_types : Z;
  z_capacity : Z;
  z_users : gmap string positive;
}.

(** The journal records reversible changes: [j_updates] the last zone given
    to a request, [j_reverts] the zone it had before, 0 for none. *)
Record journal := MkJournal {
  j_updates : gmap string Z;
  j_reverts : gmap string Z;
}.

(** The custom functions of the Go struct are an argument of the operations
    that call them; [a_heap] is the heap of request objects. *)
Record Allocator := MkAllocator {
  a_nodes : gmap Z Node;
  a_requests : gmap string positive;
  a_zones : gmap Z Zone;
  a_users : gmap string Z;
  a_masks : MaskCache;
  a_version : Z;
  a_journal : option journal;
  a_heap : heap;
}.

Definition with_requests (v : gmap string positive) (a : Allocator) : Allocator :=
  MkAllocator (a_nodes a) v (a_zones a) (a_users a) (a_masks a) (a_version a) (a_journal a)
    (a_heap a).

Definition with_zones (v : gmap Z Zone) (a : Allocator) : Allocator :=
  MkAllocator (a_nodes a) (a_requests a) v (a_users a) (a_masks a) (a_version a) (a_journal a)
    (a_heap a).

Definition with_users (v : gmap string Z) (a : Allocator) : Allocator :=
  MkAllocator (a_nodes a) (a_requests a) (a_zones a) v (a_masks a) (a_version a) (a_journal a)
    (a_heap a).

Definition with_version (v : Z) (a : Allocator) : Allocator :=
  MkAllocator (a_nodes a) (a_requests a) (a_zones a) (a_users a) (a_masks a) v (a_journal a)
    (a_heap a).

Definition with_journal (v : option journal) (a : Allocator) : Allocator :=
  MkAllocator (a_nodes a) (a_requests a) (a_zones a) (a_users a) (a_masks a) (a_version a) v
    (a_heap a).

Definition with_heap (v : heap) (a : Allocator) : Allocator :=
  MkAllocator (a_nodes a) (a_requests a) (a_zones a) (a_users a) (a_masks a) (a_version a)
    (a_journal a) v.

Definition with_masks (v : MaskCache) (a : Allocator) : Allocator :=
  MkAllocator (a_nodes a) (a_requests a) (a_zones a) (a_users a) v (a_version a)
    (a_journal a) (a_heap a).

Definition with_nodes (v : gmap Z Node) (a : Allocator) : Allocator :=
  MkAllocator v (a_requests a) (a_zones a) (a_users a) (a_masks a) (a_version a)
    (a_journal a) (a_heap a).

(** Update the request a pointer points to. *)
Definition upd_req (p : positive) (f : Request → Request) (a : Allocator) : Allocator :=
  with_heap (<[p := f (deref (a_heap a) p)]> (a_heap a)) a.

(** The request of a pointer. *)
Definition req (a : Allocator) (p : positive) : Request := deref (a_heap a) p.

(** ** Queries *)

Section zones.
Context `{GoRuntime}.

(** A node of the mask that is in [a_nodes]; the masks hold only such nodes,
    where the Go code would follow a nil pointer for another. *)
Definition node_types (a : Allocator) (id : Z) : Z :=
  match a_nodes a !! id with
  | Some n => Type_Mask (memType n)
  | None => 0
  end.

Definition node_capacity (a : Allocator) (id : Z) : Z :=
  match a_nodes a !! id with
  | Some n => n_capacity n
  | None => 0
  end.

Definition zoneType (a : Allocator) (zone : Z) : Z :=
  match a_zones a !! zone with
  | Some z => z_types z
  | None =>
      fold_left (λ types id, types ||| node_types a id)
        (NodeMask_Slice (zone &&& mc_all (a_masks a))) 0
  end.

Definition zoneCapacity (a : Allocator) (zone : Z) : Z :=
  match a_zones a !! zone with
  | Some z => z_capacity z
  | None =>
      fold_left (λ capacity id, i64 (capacity + node_capacity a id))
        (NodeMask_Slice (zone &&& mc_hasMemory (a_masks a))) 0
  end.

(** The requests of a zone count if the zone fits into the given one. *)
Definition zoneUsage (a : Allocator) (zone : Z) : Z :=
  fold_left (λ usage kz,
      if bool_decide (zone &&& kz.1 = kz.1)
      then fold_left (λ usage kp, i64 (usage + r_limit (req a kp.2))) (map_range (z_users kz.2)) usage
      else usage)
    (map_range (a_zones a)) 0.

Definition zoneFree (a : Allocator) (zone : Z) : Z :=
  i64 (zoneCapacity a zone - zoneUsage a zone).

(** The loop over the zones that contain the given one, with its early exit
    once nothing is available. *)
Fixpoint zone_available_loop (a : Allocator) (zone : Z) (zs : list (Z * Zone)) (available : Z) : Z :=
  match zs with
  | [] => available
  | (_, z) :: zs' =>
      let available :=
        if bool_decide (z_nodes z ≠ zone ∧ z_nodes z &&& zone = zone) then
          let free := zoneFree a (z_nodes z) in
          if bool_decide (free < available) then free else available
        else available in
      if bool_decide (available ≤ 0) then 0 else zone_available_loop a zone zs' available
  end.

Definition zoneAvailable (a : Allocator) (zone : Z) : Z :=
  let available := zoneFree a zone in
  if bool_decide (available ≤ 0) then 0
  else zone_available_loop a zone (map_range (a_zones a)) available.

Definition ZoneType (a : Allocator) (zone : Z) : Z := zoneType a (zone &&& mc_all (a_masks a)).

Definition ZoneCapacity (a : Allocator) (zone : Z) : Z :=
  zoneCapacity a (zone &&& mc_hasMemory (a_masks a)).

Definition ZoneUsage (a : Allocator) (zone : Z) : Z :=
  zoneUsage a (zone &&& mc_hasMemory (a_masks a)).

Definition ZoneFree (a : Allocator) (zone : Z) : Z :=
  zoneFree a (zone &&& mc_hasMemory (a_masks a)).

Definition ZoneAvailable (a : Allocator) (zone : Z) : Z :=
  zoneAvailable a (zone &&& mc_hasMemory (a_masks a)).

Definition zone_num_users (z : Zone) : Z := Z.of_nat (size (z_users z)).

Definition ZoneNumUsers (a : Allocator) (zone : Z) : Z :=
  match a_zones a !! zone with
  | Some z => zone_num_users z
  | None => 0
  end.

Definition ZonesByUsersSubzonesFirst (a : Allocator) (zone1 zone2 : Z) : Z :=
  let by_mask :=
    if bool_decide (zone1 &&& zone2 = zone1) then -1
    else if bool_decide (zone1 &&& zone2 = zone2) then 1
    else let diff := NodeMask_Size zone2 - NodeMask_Size zone1 in
         if bool_decide (diff ≠ 0) then diff
         else i64 (u64 (zone2 - zone1)) in
  match a_zones a !! zone1, a_zones a !! zone2 with
  | Some z1, Some z2 =>
      let diff := zone_num_users z2 - zone_num_users z1 in
      if bool_decide (diff ≠ 0) then diff else by_mask
  | _, _ => by_mask
  end.

Definition SortZones (a : Allocator) (f : option (Z → bool)) (s : list (Z → Z → Z)) : list Z :=
  let slice := filter (λ z, default (λ _, true) f z = true) ((map_range (a_zones a)).*1) in
  if bool_decide (Z.of_nat (length s) > 0) then sort_func (chain s) slice else slice.
End zones.

(** ** Changes of assignment *)

(** A method of a nil journal does nothing. *)
Definition journal_assign (j : option journal) (zone : Z) (id : string) : option journal :=
  match j with
  | None => None
  | Some j =>
      let updates := <[id := zone]> (j_updates j) in
      match j_reverts j !! id with
      | Some _ => Some (MkJournal updates (j_reverts j))
      | None => Some (MkJournal updates (<[id := 0]> (j_reverts j)))
      end
  end.

Definition journal_delete (j : option journal) (zone : Z) (id : string) : option journal :=
  match j with
  | None => None
  | Some j =>
      match j_reverts j !! id with
      | Some _ => Some j
      | None => Some (MkJournal (j_updates j) (<[id := zone]> (j_reverts j)))
      end
  end.

Definition zone_for (a : Allocator) (zone : Z) : Zone :=
  match a_zones a !! zone with
  | Some z => z
  | None => MkZone zone (zoneType a zone) (zoneCapacity a zone) ∅
  end.

Definition zoneAssign (zone : Z) (p : positive) (a : Allocator) : Allocator :=
  let z := zone_for a zone in
  let id := r_id (req a p) in
  {| a_nodes := a_nodes a;
     a_requests := a_requests a;
     a_zones :=
       <[zone := MkZone (z_nodes z) (z_types z) (z_capacity z) (<[id := p]> (z_users z))]> (a_zones a);
     a_users := <[id := zone]> (a_users a);
     a_masks := a_masks a;
     a_version := a_version a;
     a_journal := journal_assign (a_journal a) zone id;
     a_heap := <[p := set_zone zone (req a p)]> (a_heap a) |}.

Definition zoneRemove (zone : Z) (id : string) (a : Allocator) : Allocator :=
  match a_zones a !! zone with
  | None => a
  | Some z =>
      match z_users z !! id with
      | None => a
      | Some p =>
          let rid := r_id (req a p) in
          {| a_nodes := a_nodes a;
             a_requests := a_requests a;
             a_zones :=
               <[zone := MkZone (z_nodes z) (z_types z) (z_capacity z) (delete rid (z_users z))]>
                 (a_zones a);
             a_users := delete rid (a_users a);
             a_masks := a_masks a;
             a_version := a_version a;
             a_journal := journal_delete (a_journal a) zone id;
             a_heap := <[p := set_zone 0 (req a p)]> (a_heap a) |}
      end
  end.

Definition zoneMove (zone : Z) (p : positive) (a : Allocator) : Allocator :=
  match a_users a !! r_id (req a p) with
  | Some from =>
      if bool_decide (from = zone) then a
      else zoneAssign zone p (zoneRemove from (r_id (req a p)) a)
  | None => zoneAssign zone p a
  end.
