(* ===== verification/MemAllocator.v ===== *)
(** * The memory allocator (pkg/resmgr/lib/memory/allocator.go and
    custom-allocator.go)

    Every operation of the Go code is a function from the state of the
    allocator to its new state, together with the values it returns.  Logging
    is left out; [validateState], which only logs, is the boolean that says
    whether it would log an internal error. *)

From S2P Require Import Prelude GoStrings MemTypes MemNodes MemRequest MemZones.

(** The custom functions a client can plug into an allocator.  [ExpandZone]
    returns extra nodes for a zone; [HandleOvercommit] changes the allocator
    through the functions of [CustomAllocator] below. *)
Record CustomFunctions := MkCustom {
  ExpandZone : option (Z → Z → Allocator → Z);
  HandleOvercommit : option (gmap Z Z → Allocator → Allocator * option error);
}.

Definition no_custom : CustomFunctions := MkCustom None None.

(** An offer for a request; the allocator it belongs to is the state the
    operations on the offer are given. *)
Record Offer := MkOffer {
  o_version : Z;
  o_req : positive;
  o_updates : gmap string Z;
}.

(** An option to create an allocator with. *)
Abbreviation AllocatorOption :=
  (Allocator * CustomFunctions → res (Allocator * CustomFunctions)).

Section allocator.
Context `{GoRuntime}.

(** ** Setup *)

Definition invalidateOffers (a : Allocator) : Allocator :=
  with_version (i64 (a_version a + 1)) a.

Definition reset (a : Allocator) : Allocator :=
  invalidateOffers (with_requests ∅ (with_users ∅ (with_zones ∅ a))).

Definition Reset_ (a : Allocator) : Allocator := reset a.

Fixpoint add_nodes (ns : list Node) (nodes : gmap Z Node) : res (gmap Z Node) :=
  match ns with
  | [] => Ok nodes
  | n :: ns' =>
      match nodes !! n_id n with
      | Some _ => Err ErrOther
      | None => add_nodes ns' (<[n_id n := n]> nodes)
      end
  end.

Definition WithNodes (ns : list Node) : AllocatorOption := λ ac,
  if bool_decide (Z.of_nat (size (a_nodes ac.1)) > 0) then Err ErrOther
  else let! nodes := add_nodes ns (a_nodes ac.1) in Ok (with_nodes nodes ac.1, ac.2).

(** What [WithSystemNodes] reads of a node of sysfs. *)
Record SysNode := MkSysNode {
  sys_id : Z;
  sys_memTotal : option Z;
  sys_memType : Z;
  sys_hasNormal : bool;
  sys_cpus : CPUSet;
  sys_distance : list Z;
}.

Fixpoint system_nodes (sys : list SysNode) (nodes : list Node) : res (list Node) :=
  match sys with
  | [] => Ok nodes
  | s :: sys' =>
      match sys_memTotal s with
      | None => Err ErrOther
      | Some total =>
          let! t := TypeForSysfs (sys_memType s) in
          let! n := NewNode (sys_id s) t (i64 total) (sys_hasNormal s) (sys_cpus s) (sys_distance s) in
          system_nodes sys' (nodes ++ [n])
      end
  end.

Definition WithSystemNodes (sys : list SysNode) : AllocatorOption := λ ac,
  let! nodes := system_nodes sys [] in WithNodes nodes ac.

Definition WithCustomFunctions (c : option CustomFunctions) : AllocatorOption := λ ac,
  match c with
  | Some c => Ok (ac.1, c)
  | None => Ok ac
  end.

Fixpoint apply_options (options : list AllocatorOption) (ac : Allocator * CustomFunctions)
    : res (Allocator * CustomFunctions) :=
  match options with
  | [] => Ok ac
  | o :: options' =>
      match o ac with
      | Err Panic => Err Panic
      | Err _ => Err ErrFailedOption
      | Ok ac' => apply_options options' ac'
      end
  end.

Fixpoint add_masks (ns : list (Z * Node)) (n_nodes : nat) (masks : MaskCache) : res MaskCache :=
  match ns with
  | [] => Ok masks
  | (_, n) :: ns' =>
      if bool_decide (length (vector (distance n)) ≠ n_nodes) then Err ErrInvalidNode
      else add_masks ns' n_nodes (addNode masks n)
  end.

Definition newAllocator (options : list AllocatorOption) : res (Allocator * CustomFunctions) :=
  let a := reset (MkAllocator ∅ ∅ ∅ ∅ (NewMaskCache []) 0 None ∅) in
  let! ac := apply_options options (a, no_custom) in
  let a := ac.1 in
  let! masks := add_masks (map_range (a_nodes a)) (size (a_nodes a)) (a_masks a) in
  Ok (with_masks masks a, ac.2).

(** ** Iteration and queries *)

Definition ForeachNode {St} (a : Allocator) (nodes : Z) (fn : Node → St → St * bool) (st : St) : St :=
  NodeMask_Foreach (nodes &&& mc_all (a_masks a))
    (λ id st, match a_nodes a !! id with Some n => fn n st | None => (st, true) end) st.

Definition CPUSetAffinity (a : Allocator) (cpus : CPUSet) : Z :=
  ForeachNode a (mc_all (a_masks a))
    (λ n nodes, (if bool_decide (cpus ∩ n_cpus n ≠ ∅) then nodes ||| Node_Mask n else nodes, true)) 0.

Definition AssignedZone (a : Allocator) (id : string) : Z * bool :=
  match a_users a !! id with
  | Some zone => (zone, true)
  | None => (0, false)
  end.

(** The requests [ForeachRequest] goes through, in order. *)
Definition foreach_request_order (a : Allocator) : list positive :=
  SortRequests (a_heap a) (a_requests a) None [RequestsByAge].

Definition ForeachRequest {St} (a : Allocator) (fn : positive → St → St * bool) (st : St) : St :=
  foreach_list fn (foreach_request_order a) st.

(** ** Zone expansion *)

Definition close_nodes_step (a : Allocator) (zone t : Z) (dist nodes : Z) (st : Z * Z)
    : (Z * Z) * bool :=
  let '(close, max) := st in
  let nodes := nodes &&& (mask_at (mc_byTypes (a_masks a)) (Type_Mask t) &^ zone) in
  if bool_decide (nodes = 0) then (st, true)
  else if bool_decide (dist ≤ max) then ((close ||| nodes, dist), false)
  else (st, false).

Definition newCloseNodesOfType (a : Allocator) (zone t : Z) : Z :=
  fst (ForeachNode a zone
    (λ node st, (Node_ForeachDistance node (close_nodes_step a zone t) st, true)) (0, MaxInt)).

Definition defaultExpand (a : Allocator) (zone types : Z) : Z * Z :=
  TypeMask_Foreach types
    (λ t st,
      let '(newNodes, newTypes) := st in
      let n := newCloseNodesOfType a zone t in
      (if bool_decide (n ≠ 0) then (newNodes ||| n, newTypes ||| Type_Mask t) else st, true))
    (0, 0).

Context (custom : CustomFunctions).

(** The nodes a custom function returns are a [uint64]. *)
Definition expand (a : Allocator) (zone types : Z) : Z * Z :=
  match ExpandZone custom with
  | Some f => let nodes := u64 (f zone types a) &^ zone in (nodes, zoneType a nodes)
  | None => defaultExpand a zone types
  end.

(** ** Overcommit *)

Definition checkOvercommit (a : Allocator) (nodes : Z) : list Z * gmap Z Z :=
  let over z := bool_decide (nodes = 0 ∨ z &&& nodes ≠ 0) && bool_decide (zoneFree a z < 0) in
  let zones := filter (λ z, over z = true) ((map_range (a_zones a)).*1) in
  let spill := list_to_map ((λ z, (z, i64 (- zoneFree a z))) <$> zones) in
  (sort_func (ZonesByUsersSubzonesFirst a) zones, spill).

(** The loop of [zoneShrinkUsage] over the requests of the zone. *)
Fixpoint shrink_loop (ps : list positive) (ztypes types target amount moved : Z) (a : Allocator)
    : Allocator * Z :=
  match ps with
  | [] => (a, moved)
  | p :: ps' =>
      let r := req a p in
      if (negb (r_strict r) || bool_decide (r_types r = ztypes ||| types))%bool then
        let a := zoneMove target p a in
        let moved := i64 (moved + r_limit r) in
        if bool_decide (amount ≤ moved) then (a, moved)
        else shrink_loop ps' ztypes types target amount moved a
      else shrink_loop ps' ztypes types target amount moved a
  end.

Definition zoneShrinkUsage (a : Allocator) (zone amount limit extra : Z) : Allocator * Z :=
  match a_zones a !! zone with
  | None => (a, 0)
  | Some z =>
      if bool_decide (size (z_users z) = 0%nat) then (a, 0)
      else
        let '(nodes, types) := expand a zone (z_types z ||| extra) in
        if bool_decide (nodes = 0) then (a, 0)
        else
          shrink_loop
            (SortRequests (a_heap a) (z_users z) (Some (RequestsWithMaxPriority limit))
               [RequestsByPriority; RequestsBySize; RequestsByAge])
            (z_types z) types (zone ||| nodes) amount 0 a
  end.

Definition allowedPrios : list Z := [Burstable; Guaranteed; Preserved].
Definition expandTypes : list Z := [0; TypeMaskDRAM; TypeMaskPMEM; TypeMaskHBM].

Fixpoint shrink_zones (oc : list Z) (spill : gmap Z Z) (prio types moved : Z) (a : Allocator)
    : Allocator * Z :=
  match oc with
  | [] => (a, moved)
  | z :: oc' =>
      match spill !! z with
      | None => shrink_zones oc' spill prio types moved a
      | Some amount =>
          let '(a, m) := zoneShrinkUsage a z amount prio types in
          shrink_zones oc' spill prio types (i64 (moved + m)) a
      end
  end.

(** A state of the overcommit loops: resolved, or the allocator with what is
    still overcommitted and how much has been moved in this round. *)
Inductive oc_state :=
  | Resolved (a : Allocator)
  | Unresolved (a : Allocator) (oc : list Z) (spill : gmap Z Z) (moved : Z).

Fixpoint try_types (nodes prio : Z) (extras : list Z) (types : Z)
    (a : Allocator) (oc : list Z) (spill : gmap Z Z) (moved : Z) : oc_state :=
  match extras with
  | [] => Unresolved a oc spill moved
  | extra :: extras' =>
      let avail := extra &&& mc_types (a_masks a) in
      if bool_decide (extra ≠ 0 ∧ avail = 0)
      then try_types nodes prio extras' types a oc spill moved
      else
        let types := if bool_decide (extra ≠ 0) then types ||| avail else types in
        let '(a, moved) := shrink_zones oc spill prio types moved a in
        let '(oc, spill) := checkOvercommit a nodes in
        match oc with
        | [] => Resolved a
        | _ => try_types nodes prio extras' types a oc spill moved
        end
  end.

Fixpoint try_prios (nodes : Z) (prios : list Z)
    (a : Allocator) (oc : list Z) (spill : gmap Z Z) (moved : Z) : oc_state :=
  match prios with
  | [] => Unresolved a oc spill moved
  | prio :: prios' =>
      match try_types nodes prio expandTypes 0 a oc spill moved with
      | Resolved a => Resolved a
      | Unresolved a oc spill moved => try_prios nodes prios' a oc spill moved
      end
  end.

Fixpoint overcommit_loop (rounds : nat) (nodes : Z)
    (a : Allocator) (oc : list Z) (spill : gmap Z Z) : Allocator * option error :=
  match rounds with
  | O => (a, Some OutOfFuel)
  | S rounds' =>
      match try_prios nodes allowedPrios a oc spill 0 with
      | Resolved a => (a, None)
      | Unresolved a oc spill moved =>
          if bool_decide (moved = 0) then (a, Some ErrNoMem)
          else overcommit_loop rounds' nodes a oc spill
      end
  end.

(** A round that moves something adds a node to the zone of some request, so
    there are at most 64 rounds per request. *)
Definition overcommit_rounds (a : Allocator) : nat := S (64 * size (a_requests a)).

Definition defaultHandleOvercommit (a : Allocator) (nodes : Z) (oc : list Z) (spill : gmap Z Z)
    : Allocator * option error :=
  overcommit_loop (overcommit_rounds a) nodes a oc spill.

Definition handleOvercommit (a : Allocator) (nodes : Z) : Allocator * option error :=
  let '(oc, spill) := checkOvercommit a nodes in
  match oc with
  | [] => (a, None)
  | _ =>
      match HandleOvercommit custom with
      | Some f => f spill a
      | None => defaultHandleOvercommit a nodes oc spill
      end
  end.

Definition cleanupUnusedZones (a : Allocator) : Allocator :=
  with_zones (filter (λ kz, size (z_users kz.2) ≠ 0%nat) (a_zones a)) a.

(** ** Journal *)

Definition startJournal (a : Allocator) : res Allocator :=
  match a_journal a with
  | Some _ => Err ErrInternalError
  | None => Ok (with_journal (Some (MkJournal ∅ ∅)) a)
  end.

Definition commitJournal (id : string) (a : Allocator) : Allocator * gmap string Z :=
  let updates := match a_journal a with Some j => delete id (j_updates j) | None => ∅ end in
  (with_journal None a, updates).

Fixpoint revert_loop (rs : list (string * Z)) (rq : option positive) (a : Allocator)
    : Allocator * option error :=
  match rs with
  | [] => (a, None)
  | (id, zone) :: rs' =>
      let r :=
        match a_requests a !! id with
        | Some p => Some p
        | None =>
            match rq with
            | Some p => if bool_decide (r_id (req a p) = id) then Some p else None
            | None => None
            end
        end in
      match r with
      | None => (a, Some ErrInternalError)
      | Some p =>
          match a_users a !! id with
          | None => (a, Some ErrInternalError)
          | Some current =>
              let a := zoneRemove current id a in
              let a := if bool_decide (zone ≠ 0) then zoneAssign zone p a else a in
              revert_loop rs' rq a
          end
      end
  end.

Definition revertJournal (rq : option positive) (a : Allocator)
    : Allocator * res (gmap string Z) :=
  match a_journal a with
  | None => (a, Ok ∅)
  | Some j =>
      match revert_loop (map_range (j_reverts j)) rq (with_journal None a) with
      | (a, Some e) => (a, Err e)
      | (a, None) =>
          let a :=
            match rq with
            | Some p => with_requests (delete (r_id (req a p)) (a_requests a)) a
            | None => a
            end in
          (a, Ok (j_updates j))
      end
  end.

(** ** Allocation *)

Definition validateRequest (p : positive) (a : Allocator) : Allocator * option error :=
  let r := req a p in
  let masks := a_masks a in
  match a_requests a !! r_id r with
  | Some _ => (a, Some ErrAlreadyExists)
  | None =>
      if bool_decide (r_affinity r &&& mc_all masks ≠ r_affinity r) then (a, Some ErrInvalidNode)
      else if bool_decide (r_types r &&& mc_types masks ≠ r_types r) && r_strict r
      then (a, Some ErrInvalidType)
      else if bool_decide (r_affinity r = 0) then (a, Some ErrInvalidNodeMask)
      else
        let types := r_types r &&& mc_types masks in
        let types := if bool_decide (types = 0) then zoneType a (r_affinity r) else types in
        (upd_req p (set_types types) a, None)
  end.

Definition findInitialZone (p : positive) (a : Allocator) : Allocator * option error :=
  let r := req a p in
  let masks := a_masks a in
  let zone := r_affinity r &&& mc_all masks in
  let miss := r_types r &^ zoneType a zone in
  let zone := if bool_decide (miss ≠ 0) then zone ||| (expand a zone miss).1 else zone in
  if r_strict r then
    let zone := zone &&& mask_at (mc_byTypes masks) (r_types r) in
    let miss := r_types r &^ zoneType a zone in
    if bool_decide (miss ≠ 0) then (a, Some ErrOther)
    else (upd_req p (set_zone zone) a, None)
  else
    let prefer := zone &&& mask_at (mc_byTypes masks) (r_types r) in
    let zone := if bool_decide (prefer ≠ 0) then prefer else zone in
    (upd_req p (set_zone zone) a, None).

(** The loop of [ensureNormalMemory]: expand until there is normal memory or
    nothing to expand by.  Every round adds a node to a 64-bit mask. *)
Fixpoint ensure_normal_loop (rounds : nat) (p : positive) (zone types : Z) (a : Allocator)
    : Allocator * option error :=
  match rounds with
  | O => (a, Some OutOfFuel)
  | S rounds' =>
      let n := (expand a zone types).1 in
      if bool_decide (n = 0) then (a, Some ErrOther)
      else
        let zone := zone ||| n in
        if bool_decide (zone &&& mc_normal (a_masks a) ≠ 0)
        then (upd_req p (λ r, set_types (r_types r ||| types) (set_zone zone r)) a, None)
        else ensure_normal_loop rounds' p zone types a
  end.

Definition ensureNormalMemory (p : positive) (a : Allocator) : Allocator * option error :=
  let r := req a p in
  if bool_decide (r_zone r &&& mc_normal (a_masks a) ≠ 0) then (a, None)
  else
    let normal := zoneType a (mc_normal (a_masks a)) in
    let types := r_types r &&& normal in
    if bool_decide (types = 0) && r_strict r then (a, Some ErrOther)
    else
      let types :=
        if bool_decide (types = 0) then
          if bool_decide (normal &&& TypeMaskDRAM ≠ 0) then TypeMaskDRAM
          else if bool_decide (normal &&& TypeMaskPMEM ≠ 0) then TypeMaskPMEM
          else if bool_decide (normal &&& TypeMaskHBM ≠ 0) then TypeMaskHBM
          else 0
        else types in
      if bool_decide (types = 0) then (a, Some ErrOther)
      else ensure_normal_loop 65 p (r_zone r) types a.

(** [allocate] with its deferred revert on error. *)
Definition allocate (p : positive) (a : Allocator) : Allocator * option error :=
  match validateRequest p a with
  | (a, Some e) => (a, Some e)
  | (a, None) =>
      match findInitialZone p a with
      | (a, Some e) => (a, Some e)
      | (a, None) =>
          match ensureNormalMemory p a with
          | (a, Some e) => (a, Some e)
          | (a, None) =>
              match startJournal a with
              | Err e => (a, Some e)
              | Ok a =>
                  let a := with_requests (<[r_id (req a p) := p]> (a_requests a)) a in
                  let a := zoneAssign (r_zone (req a p)) p a in
                  match handleOvercommit a (r_zone (req a p)) with
                  | (a, None) => (a, None)
                  | (a, Some e) => ((revertJournal (Some p) a).1, Some e)
                  end
              end
          end
      end
  end.

Definition Allocate (p : positive) (a : Allocator) : Allocator * res (Z * gmap string Z) :=
  match allocate p a with
  | (a, Some e) => (cleanupUnusedZones a, Err e)
  | (a, None) =>
      let '(a', updates) := commitJournal (r_id (req a p)) a in
      (cleanupUnusedZones a', Ok (r_zone (req a p), updates))
  end.

(** ** Offers *)

Definition newOffer (p : positive) (updates : gmap string Z) (a : Allocator) : Offer :=
  MkOffer (a_version a) p updates.

Definition GetOffer (p : positive) (a : Allocator) : Allocator * res Offer :=
  match allocate p a with
  | (a, Some e) => (a, Err e)
  | (a, None) =>
      match revertJournal (Some p) a with
      | (a, Err e) => (a, Err e)
      | (a, Ok updates) => (a, Ok (newOffer p updates a))
      end
  end.

Definition Offer_IsValid (o : Offer) (a : Allocator) : bool := bool_decide (o_version o = a_version a).

Definition Offer_NodeMask (o : Offer) (a : Allocator) : Z :=
  default 0 (o_updates o !! r_id (req a (o_req o))).

(** A map without entries stands for the nil map. *)
Definition Offer_Updates (o : Offer) (a : Allocator) : gmap string Z :=
  delete (r_id (req a (o_req o))) (o_updates o).

Definition commit_step (o : Offer) (a : Allocator) (u : string * Z) : Allocator :=
  let '(id, zone) := u in
  if bool_decide (id = r_id (req a (o_req o))) then
    let a := zoneAssign zone (o_req o) a in
    with_requests (<[r_id (req a (o_req o)) := o_req o]> (a_requests a)) a
  else
    match a_requests a !! id with
    | Some p => upd_req p (set_zone zone) (zoneMove zone p a)
    | None => a
    end.

Definition Commit (o : Offer) (a : Allocator) : Allocator * res (Z * gmap string Z) :=
  if negb (Offer_IsValid o a) then (a, Err ErrExpiredOffer)
  else
    let a := fold_left (commit_step o) (map_range (o_updates o)) a in
    let a := invalidateOffers a in
    (cleanupUnusedZones a, Ok (Offer_NodeMask o a, Offer_Updates o a)).

(** ** Reallocation and release *)

(** [validateRealloc]: the nodes and types to add and whether there is
    nothing to do. *)
Definition validateRealloc (p : positive) (nodes types : Z) (a : Allocator) : res (Z * Z * bool) :=
  let r := req a p in
  let masks := a_masks a in
  if bool_decide (nodes = 0 ∧ types = 0) then Ok (0, 0, true)
  else if bool_decide (r_affinity r = nodes ∧ r_types r = types) then Ok (nodes, types, true)
  else if bool_decide (r_affinity r &&& mc_all masks ≠ r_affinity r) then Err ErrInvalidNode
  else if bool_decide (r_types r &&& mc_types masks ≠ r_types r) && r_strict r
  then Err ErrInvalidType
  else if bool_decide (r_zone r &&& nodes = nodes ∧ zoneType a (r_zone r) &&& types = types)
  then Ok (nodes, types, true)
  else if bool_decide (types = 0) then Ok (nodes, ZoneType a nodes, false)
  else Ok (nodes &&& mask_at (mc_byTypes masks) types, types, false).

Definition realloc (p : positive) (nodes types : Z) (a : Allocator)
    : Allocator * res (Z * gmap string Z) :=
  match validateRealloc p nodes types a with
  | Err e => (a, Err e)
  | Ok (_, _, true) => (a, Ok (r_zone (req a p), ∅))
  | Ok (nodes, types, false) =>
      match startJournal a with
      | Err e => (a, Err e)
      | Ok a =>
          let '(newNodes, newTypes) := expand a (r_zone (req a p) ||| nodes) types in
          if bool_decide (newNodes = 0) then ((revertJournal None a).1, Err ErrNoMem)
          else
            let a := zoneMove (r_zone (req a p) ||| nodes ||| newNodes) p a in
            match handleOvercommit a (r_zone (req a p) ||| nodes ||| newNodes) with
            | (a, Some e) =>
                let a := upd_req p (set_zone (default 0 (a_users a !! r_id (req a p)))) a in
                ((revertJournal None a).1, Err ErrNoMem)
            | (a, None) =>
                let a :=
                  upd_req p (λ r, set_types (r_types r ||| newTypes)
                                    (set_zone (r_zone r ||| nodes ||| newNodes) r)) a in
                let '(a, updates) := commitJournal (r_id (req a p)) a in
                (a, Ok (r_zone (req a p), updates))
            end
      end
  end.

Definition Realloc (id : string) (affinity types : Z) (a : Allocator)
    : Allocator * res (Z * gmap string Z) :=
  match a_requests a !! id with
  | None => (a, Err ErrUnknownRequest)
  | Some p => realloc p affinity types a
  end.

Definition release (p : positive) (a : Allocator) : Allocator * option error :=
  match a_users a !! r_id (req a p) with
  | None => (a, Some ErrNoZone)
  | Some zone =>
      let a := zoneRemove zone (r_id (req a p)) a in
      let a := with_requests (delete (r_id (req a p)) (a_requests a)) a in
      (invalidateOffers a, None)
  end.

Definition Release (id : string) (a : Allocator) : Allocator * option error :=
  match a_requests a !! id with
  | None => (a, Some ErrUnknownRequest)
  | Some p => let '(a, e) := release p a in (cleanupUnusedZones a, e)
  end.

(** ** Self-check *)

(** Whether [validateState] finds the assignments consistent: every request
    is assigned to the zone it records, and every user of a zone is a request
    that records that zone. *)
Definition validateState (a : Allocator) : bool :=
  forallb (λ kp : string * positive,
      let r := req a kp.2 in
      match a_users a !! r_id r with
      | Some assigned => bool_decide (assigned = r_zone r)
      | None => false
      end) (map_range (a_requests a)) &&
  forallb (λ kz : Z * Zone,
      forallb (λ kp : string * positive,
        match a_requests a !! kp.1 with
        | Some p => bool_decide (r_zone (req a p) = kz.1)
        | None => false
        end) (map_range (z_users kz.2))) (map_range (a_zones a)).

(** ** The interface of custom functions (custom-allocator.go) *)

Definition Custom_CheckOvercommit (a : Allocator) : gmap Z Z := (checkOvercommit a 0).2.

Definition Custom_GetRequests (a : Allocator) : list positive :=
  SortRequests (a_heap a) (a_requests a) None [RequestsByAge].

Definition Custom_GetRequestsForZone (a : Allocator) (zone : Z) : list positive :=
  match a_zones a !! zone with
  | None => []
  | Some z =>
      SortRequests (a_heap a) (z_users z) None [RequestsByPriority; RequestsBySize; RequestsByAge]
  end.

Definition Custom_MoveRequest (id : string) (zone : Z) (a : Allocator) : Allocator * option error :=
  match a_requests a !! id with
  | None => (a, Some ErrUnknownRequest)
  | Some p => (zoneMove zone p a, None)
  end.

Definition Custom_GetZones (a : Allocator) : list Z :=
  (filter (λ kz : Z * Zone, Z.of_nat (size (z_users kz.2)) > 0) (map_range (a_zones a))).*1.

Definition Custom_GetNodes (a : Allocator) : list Node := (map_range (a_nodes a)).*2.

Definition Custom_DefaultExpandZone (a : Allocator) (zone types : Z) : Z :=
  (defaultExpand a zone types).1.

Definition Custom_DefaultHandleOvercommit (overcommit : gmap Z Z) (a : Allocator)
    : Allocator * option error :=
  let nodes := fold_left (λ nodes kz, nodes ||| kz.1) (map_range overcommit) 0 in
  let '(zones, spill) := checkOvercommit a nodes in
  defaultHandleOvercommit a nodes zones spill.
End allocator.
