(* ===== verification/MemState.v ===== *)
(** * Well-formed allocator states

    The invariant that the operations of the allocator maintain, and what the
    three elementary changes of assignment ([zoneAssign], [zoneRemove],
    [zoneMove]) do to a well-formed state; and that reverting the journal restores
    the assignments. *)

From S2P Require Import Prelude GoStrings MemTypes MemNodes MemRequest MemZones MemAllocator.

(** ** Configuration *)

(** The nodes of an allocator and the masks cached for them. *)
Record config_ok (a : Allocator) : Prop := {
  cfg_node : ∀ id n, a_nodes a !! id = Some n → n_id n = id ∧ node_ok n;
  cfg_cache : ∃ ns, (∀ n, n ∈ ns ↔ a_nodes a !! n_id n = Some n) ∧ cache_ok ns (a_masks a);
}.

(** Type and capacity of a set of nodes, computed from the nodes. *)
Definition types_of (a : Allocator) (zone : Z) : Z :=
  fold_left (λ types id, types ||| node_types a id)
    (NodeMask_Slice (zone &&& mc_all (a_masks a))) 0.

Definition capacity_of (a : Allocator) (zone : Z) : Z :=
  fold_left (λ capacity id, i64 (capacity + node_capacity a id))
    (NodeMask_Slice (zone &&& mc_hasMemory (a_masks a))) 0.

(** ** Assignments *)

(** The state is consistent, except that the requests in [D] are registered
    but not assigned to a zone. *)
Record wf_but (D : gset string) (a : Allocator) : Prop := {
  wf_req : ∀ id p, a_requests a !! id = Some p → ∃ r, a_heap a !! p = Some r ∧ r_id r = id;
  wf_user_zone : ∀ id m, a_users a !! id = Some m →
    ∃ z p, a_zones a !! m = Some z ∧ z_users z !! id = Some p;
  wf_zone_user : ∀ m z id p, a_zones a !! m = Some z → z_users z !! id = Some p →
    a_users a !! id = Some m ∧ a_requests a !! id = Some p ∧ r_zone (req a p) = m;
  wf_zone_info : ∀ m z, a_zones a !! m = Some z →
    z_nodes z = m ∧ z_types z = types_of a m ∧ z_capacity z = capacity_of a m;
  wf_attached : ∀ id p, a_requests a !! id = Some p → id ∉ D → is_Some (a_users a !! id);
  wf_detached : ∀ id, id ∈ D → a_users a !! id = None;
  wf_nonzero : ∀ id m, a_users a !! id = Some m → m ≠ 0;
}.

(** Well-formed between operations: everything is assigned, no journal. *)
Record wf (a : Allocator) : Prop := {
  wf_all : wf_but ∅ a;
  wf_config : config_ok a;
  wf_idle : a_journal a = None;
}.

Lemma req_lookup a p r : a_heap a !! p = Some r → req a p = r.
Proof. intros Hp. unfold req, deref. by rewrite Hp. Qed.

Section wf_facts.
Context (D : gset string) (a : Allocator) (Hwf : wf_but D a).

Lemma wf_req_id id p : a_requests a !! id = Some p → r_id (req a p) = id.
Proof. intros (r & Hr & ?)%(wf_req _ _ Hwf). by rewrite (req_lookup _ _ _ Hr). Qed.

Lemma wf_user id m :
  a_users a !! id = Some m →
  ∃ z p, a_zones a !! m = Some z ∧ z_users z !! id = Some p ∧
    a_requests a !! id = Some p ∧ r_id (req a p) = id ∧ r_zone (req a p) = m.
Proof.
  intros Hu. destruct (wf_user_zone _ _ Hwf id m Hu) as (z & p & Hz & Hp).
  destruct (wf_zone_user _ _ Hwf _ _ _ _ Hz Hp) as (_ & Hr & Hzone).
  exists z, p. split_and!; try done. by apply wf_req_id.
Qed.

Lemma wf_req_zone id p m :
  a_requests a !! id = Some p → a_users a !! id = Some m → r_zone (req a p) = m.
Proof. intros Hp (z & p' & _ & _ & Hp' & _ & <-)%wf_user. by simplify_eq. Qed.

Lemma wf_req_inj id1 id2 p :
  a_requests a !! id1 = Some p → a_requests a !! id2 = Some p → id1 = id2.
Proof. intros <-%wf_req_id <-%wf_req_id. done. Qed.

Lemma zoneType_types_of m : zoneType a m = types_of a m.
Proof.
  unfold zoneType. destruct (a_zones a !! m) as [z|] eqn:Hz; [|done].
  by destruct (wf_zone_info _ _ Hwf m z Hz) as (_ & -> & _).
Qed.

Lemma zoneCapacity_capacity_of m : zoneCapacity a m = capacity_of a m.
Proof.
  unfold zoneCapacity. destruct (a_zones a !! m) as [z|] eqn:Hz; [|done].
  by destruct (wf_zone_info _ _ Hwf m z Hz) as (_ & _ & ->).
Qed.
End wf_facts.

(** ** What never changes while requests are moved *)

(** Same nodes, masks, version and registered requests, and requests that
    differ in their zone only. *)
Record frame (a a' : Allocator) : Prop := {
  fr_nodes : a_nodes a' = a_nodes a;
  fr_masks : a_masks a' = a_masks a;
  fr_version : a_version a' = a_version a;
  fr_requests : a_requests a' = a_requests a;
  fr_heap : ∀ p, set_zone 0 <$> a_heap a' !! p = set_zone 0 <$> a_heap a !! p;
}.

#[export] Instance frame_preorder : PreOrder frame.
Proof.
  split.
  - by split.
  - intros a b c [] []. split; try congruence.
Qed.

Lemma frame_req a a' p : frame a a' → set_zone 0 (req a' p) = set_zone 0 (req a p).
Proof.
  intros Hf. pose proof (fr_heap _ _ Hf p) as Hp. unfold req, deref.
  destruct (a_heap a !! p), (a_heap a' !! p); simpl in *; congruence.
Qed.

Lemma frame_fields a a' p :
  frame a a' →
  r_id (req a' p) = r_id (req a p) ∧ r_limit (req a' p) = r_limit (req a p) ∧
  r_types (req a' p) = r_types (req a p) ∧ r_strict (req a' p) = r_strict (req a p) ∧
  r_priority (req a' p) = r_priority (req a p).
Proof. intros Hf%(frame_req _ _ p). by destruct (req a p), (req a' p); simplify_eq/=. Qed.

Lemma frame_types_of a a' m : frame a a' → types_of a' m = types_of a m.
Proof.
  intros Hf. unfold types_of, node_types. by rewrite (fr_nodes _ _ Hf), (fr_masks _ _ Hf).
Qed.

Lemma frame_capacity_of a a' m : frame a a' → capacity_of a' m = capacity_of a m.
Proof.
  intros Hf. unfold capacity_of, node_capacity. by rewrite (fr_nodes _ _ Hf), (fr_masks _ _ Hf).
Qed.

Lemma frame_config a a' : frame a a' → config_ok a → config_ok a'.
Proof.
  intros Hf [Hn Hc]. split; rewrite ?(fr_nodes _ _ Hf), ?(fr_masks _ _ Hf); done.
Qed.

Lemma frame_upd_zone a p m r : a_heap a !! p = Some r → ∀ q,
  set_zone 0 <$> <[p := set_zone m (req a p)]> (a_heap a) !! q = set_zone 0 <$> a_heap a !! q.
Proof.
  intros Hp q. rewrite lookup_insert. case_decide; [|done]. subst.
  by rewrite (req_lookup _ _ _ Hp), Hp.
Qed.

(** Reduce the projections of an allocator, a zone or a journal given by its
    fields. *)
Ltac red_alloc :=
  cbn [a_nodes a_requests a_zones a_users a_masks a_version a_journal a_heap
       z_nodes z_types z_capacity z_users j_updates j_reverts] in *.

(** ** Removing an assignment *)

Section remove.
Context (D : gset string) (a : Allocator) (Hwf : wf_but D a).
Context (id : string) (m : Z) (Hu : a_users a !! id = Some m).

Lemma zoneRemove_eq :
  ∃ z p, a_zones a !! m = Some z ∧ z_users z !! id = Some p ∧ a_requests a !! id = Some p ∧
    r_id (req a p) = id ∧
    zoneRemove m id a =
      {| a_nodes := a_nodes a; a_requests := a_requests a;
         a_zones := <[m := MkZone (z_nodes z) (z_types z) (z_capacity z) (delete id (z_users z))]>
                      (a_zones a);
         a_users := delete id (a_users a); a_masks := a_masks a; a_version := a_version a;
         a_journal := journal_delete (a_journal a) m id;
         a_heap := <[p := set_zone 0 (req a p)]> (a_heap a) |}.
Proof.
  destruct (wf_user _ _ Hwf id m Hu) as (z & p & Hz & Hp & Hr & Hid & _).
  exists z, p. split_and!; try done. unfold zoneRemove. by rewrite Hz, Hp, Hid.
Qed.

Lemma zoneRemove_frame : frame a (zoneRemove m id a).
Proof.
  destruct zoneRemove_eq as (z & p & Hz & Hp & Hr & Hid & ->).
  destruct (wf_req _ _ Hwf id p Hr) as (r & Hheap & _).
  split; try done. cbn. by apply (frame_upd_zone _ _ _ r).
Qed.

Lemma zoneRemove_users : a_users (zoneRemove m id a) = delete id (a_users a).
Proof. by destruct zoneRemove_eq as (z & p & _ & _ & _ & _ & ->). Qed.

Lemma zoneRemove_journal : a_journal (zoneRemove m id a) = journal_delete (a_journal a) m id.
Proof. by destruct zoneRemove_eq as (z & p & _ & _ & _ & _ & ->). Qed.

Lemma zoneRemove_other_zone m' : m' ≠ m → a_zones (zoneRemove m id a) !! m' = a_zones a !! m'.
Proof.
  intros. destruct zoneRemove_eq as (z & p & _ & _ & _ & _ & ->). cbn. by rewrite lookup_insert_ne.
Qed.

Lemma zoneRemove_wf : wf_but ({[id]} ∪ D) (zoneRemove m id a).
Proof.
  pose proof zoneRemove_frame as Hf.
  destruct zoneRemove_eq as (z & p & Hz & Hp & Hr & Hid & Heq). rewrite Heq in *. clear Heq.
  split; red_alloc.
  - intros id' p' (r & Hr' & <-)%(wf_req _ _ Hwf). rewrite lookup_insert. case_decide; [|eauto].
    subst. rewrite (req_lookup _ _ _ Hr'). eauto.
  - intros id' m' Hu'. rewrite lookup_delete_Some in Hu'. destruct Hu' as [Hne Hu'].
    destruct (wf_user_zone _ _ Hwf _ _ Hu') as (z' & p' & Hz' & Hp').
    rewrite lookup_insert. case_decide; [|eauto]. subst. simplify_eq.
    eexists _, p'. split; [done|]. red_alloc. by rewrite lookup_delete_ne.
  - intros m' z' id' p' Hz' Hp'.
    assert (id' ≠ id ∧ ∃ z'', a_zones a !! m' = Some z'' ∧ z_users z'' !! id' = Some p')
      as (Hne & z'' & Hz'' & Hp'').
    { rewrite lookup_insert in Hz'. case_decide; simplify_eq; red_alloc.
      - apply lookup_delete_Some in Hp' as [? ?]. split; [done|]. eauto.
      - split; [|eauto]. intros ->. destruct (wf_zone_user _ _ Hwf _ _ _ _ Hz' Hp') as (? & _).
        simplify_eq. }
    destruct (wf_zone_user _ _ Hwf _ _ _ _ Hz'' Hp'') as (Hu' & Hr' & Hzone).
    rewrite lookup_delete_ne by done. split_and!; [done..|].
    assert (p' ≠ p) by (intros ->; by pose proof (wf_req_inj _ _ Hwf _ _ _ Hr Hr')).
    unfold req, deref. cbn. by rewrite lookup_insert_ne.
  - intros m' z' Hz'. rewrite (frame_types_of _ _ _ Hf), (frame_capacity_of _ _ _ Hf).
    rewrite lookup_insert in Hz'. case_decide; simplify_eq; red_alloc; by eapply (wf_zone_info _ _ Hwf).
  - intros id' p' Hr' Hn. rewrite lookup_delete_ne by set_solver.
    apply (wf_attached _ _ Hwf id' p' Hr'). set_solver.
  - intros id' [->%elem_of_singleton|Hd]%elem_of_union; [by rewrite lookup_delete_eq|].
    rewrite lookup_delete_None. right. by apply (wf_detached _ _ Hwf).
  - intros id' m' [_ ?]%lookup_delete_Some. by eapply (wf_nonzero _ _ Hwf).
Qed.
End remove.

(** ** Assigning a request that has no zone *)

Lemma zone_for_users a m id' p' :
  z_users (zone_for a m) !! id' = Some p' →
  ∃ z, a_zones a !! m = Some z ∧ z_users z !! id' = Some p'.
Proof. unfold zone_for. destruct (a_zones a !! m) as [z|]; [eauto|]. cbn. by rewrite lookup_empty. Qed.

Lemma zone_for_info D a m :
  wf_but D a →
  z_nodes (zone_for a m) = m ∧ z_types (zone_for a m) = types_of a m ∧
  z_capacity (zone_for a m) = capacity_of a m.
Proof.
  intros Hwf. unfold zone_for.
  destruct (a_zones a !! m) as [z|] eqn:Hz; [by apply (wf_zone_info _ _ Hwf)|].
  cbn. rewrite (zoneType_types_of _ _ Hwf), (zoneCapacity_capacity_of _ _ Hwf). done.
Qed.

Section assign.
Context (D : gset string) (a : Allocator) (Hwf : wf_but D a).
Context (id : string) (p : positive) (m : Z).
Context (Hr : a_requests a !! id = Some p) (HD : id ∈ D) (Hm : m ≠ 0).

Lemma assign_id : r_id (req a p) = id.
Proof. by apply (wf_req_id _ _ Hwf). Qed.

Lemma zoneAssign_frame : frame a (zoneAssign m p a).
Proof.
  destruct (wf_req _ _ Hwf id p Hr) as (r & Hheap & _).
  split; try done. by apply (frame_upd_zone _ _ _ r).
Qed.

Lemma zoneAssign_users : a_users (zoneAssign m p a) = <[id := m]> (a_users a).
Proof. cbn. by rewrite assign_id. Qed.

Lemma zoneAssign_journal : a_journal (zoneAssign m p a) = journal_assign (a_journal a) m id.
Proof. cbn. by rewrite assign_id. Qed.

Lemma zoneAssign_other_zone m' : m' ≠ m → a_zones (zoneAssign m p a) !! m' = a_zones a !! m'.
Proof. intros. cbn. by rewrite lookup_insert_ne. Qed.

Lemma zoneAssign_wf : wf_but (D ∖ {[id]}) (zoneAssign m p a).
Proof.
  pose proof zoneAssign_frame as Hf. pose proof assign_id as Hid.
  assert (a_users a !! id = None) as Hnone by (by apply (wf_detached _ _ Hwf)).
  destruct (wf_req _ _ Hwf id p Hr) as (r & Hheap & _).
  unfold zoneAssign in *. rewrite Hid in *. split; red_alloc.
  - intros id' p' (r' & Hr' & <-)%(wf_req _ _ Hwf). rewrite lookup_insert. case_decide; [|eauto].
    subst. rewrite (req_lookup _ _ _ Hr'). eauto.
  - intros id' m' Hu'. rewrite lookup_insert in Hu'. case_decide as Hc.
    + simplify_eq. eexists _, p. rewrite lookup_insert_eq. split; [done|]. cbn.
      by rewrite lookup_insert_eq.
    + destruct (wf_user_zone _ _ Hwf _ _ Hu') as (z' & p' & Hz' & Hp').
      rewrite lookup_insert. case_decide; [|eauto]. subst. eexists _, p'. split; [done|].
      cbn. rewrite lookup_insert_ne by done. unfold zone_for. by rewrite Hz'.
  - intros m' z' id' p' Hz' Hp'. destruct (decide (id' = id)) as [->|Hne].
    + assert (m' = m ∧ p' = p) as [-> ->].
      { rewrite lookup_insert in Hz'. case_decide; simplify_eq; red_alloc.
        - by rewrite lookup_insert_eq in Hp'; simplify_eq.
        - by destruct (wf_zone_user _ _ Hwf _ _ _ _ Hz' Hp') as (? & _); simplify_eq. }
      rewrite lookup_insert_eq. split_and!; [done..|]. unfold req, deref. cbn.
      by rewrite lookup_insert_eq.
    + assert (∃ z'', a_zones a !! m' = Some z'' ∧ z_users z'' !! id' = Some p') as (z'' & Hz'' & Hp'').
      { rewrite lookup_insert in Hz'. case_decide; [|eauto]. simplify_eq. red_alloc.
        rewrite lookup_insert_ne in Hp' by done. by apply zone_for_users. }
      destruct (wf_zone_user _ _ Hwf _ _ _ _ Hz'' Hp'') as (Hu' & Hr' & Hzone).
      rewrite lookup_insert_ne by done. split_and!; [done..|].
      assert (p' ≠ p) by (intros ->; by pose proof (wf_req_inj _ _ Hwf _ _ _ Hr Hr')).
      unfold req, deref. cbn. by rewrite lookup_insert_ne.
  - intros m' z' Hz'. rewrite (frame_types_of _ _ _ Hf), (frame_capacity_of _ _ _ Hf).
    rewrite lookup_insert in Hz'. case_decide; simplify_eq; red_alloc.
    + by eapply zone_for_info.
    + by eapply (wf_zone_info _ _ Hwf).
  - intros id' p' Hr' Hn. rewrite lookup_insert. case_decide; [done|].
    apply (wf_attached _ _ Hwf id' p' Hr'). set_solver.
  - intros id' [Hd Hne]%elem_of_difference. rewrite lookup_insert_ne by set_solver.
    by apply (wf_detached _ _ Hwf).
  - intros id' m' Hu'. rewrite lookup_insert in Hu'. case_decide; simplify_eq; [done|].
    by eapply (wf_nonzero _ _ Hwf).
Qed.
End assign.

(** ** Moving a request *)

Section move.
Context (a : Allocator) (Hwf : wf_but ∅ a).
Context (id : string) (p : positive) (from to : Z).
Context (Hr : a_requests a !! id = Some p) (Hu : a_users a !! id = Some from) (Hto : to ≠ 0).

Lemma zoneMove_eq :
  zoneMove to p a = if bool_decide (from = to) then a else zoneAssign to p (zoneRemove from id a).
Proof. unfold zoneMove. rewrite (wf_req_id _ _ Hwf id p Hr). by rewrite Hu. Qed.

Lemma move_requests : a_requests (zoneRemove from id a) !! id = Some p.
Proof. by rewrite (fr_requests _ _ (zoneRemove_frame _ _ Hwf _ _ Hu)). Qed.

Lemma zoneMove_frame : frame a (zoneMove to p a).
Proof.
  rewrite zoneMove_eq. case_bool_decide; [done|].
  etrans; [by apply (zoneRemove_frame _ _ Hwf)|].
  eapply zoneAssign_frame; [by apply (zoneRemove_wf _ _ Hwf)|apply move_requests].
Qed.

Lemma zoneMove_users : a_users (zoneMove to p a) = <[id := to]> (a_users a).
Proof.
  rewrite zoneMove_eq. case_bool_decide; [by subst; rewrite insert_id|].
  erewrite zoneAssign_users; [|by apply (zoneRemove_wf _ _ Hwf)|apply move_requests].
  rewrite (zoneRemove_users _ _ Hwf) by done. apply insert_delete_eq.
Qed.

Lemma zoneMove_journal :
  a_journal (zoneMove to p a)
  = if bool_decide (from = to) then a_journal a
    else journal_assign (journal_delete (a_journal a) from id) to id.
Proof.
  rewrite zoneMove_eq. case_bool_decide; [done|].
  erewrite zoneAssign_journal; [|by apply (zoneRemove_wf _ _ Hwf)|apply move_requests].
  by rewrite (zoneRemove_journal _ _ Hwf).
Qed.

Lemma zoneMove_other_zone m : m ≠ from → m ≠ to → a_zones (zoneMove to p a) !! m = a_zones a !! m.
Proof.
  intros. rewrite zoneMove_eq. case_bool_decide; [done|].
  rewrite zoneAssign_other_zone by done. by apply (zoneRemove_other_zone _ _ Hwf).
Qed.

Lemma zoneMove_wf : wf_but ∅ (zoneMove to p a).
Proof.
  rewrite zoneMove_eq. case_bool_decide; [done|].
  replace (∅ : gset string) with (({[id]} ∪ ∅) ∖ {[id]} : gset string) by set_solver.
  apply zoneAssign_wf; [by apply (zoneRemove_wf _ _ Hwf)|apply move_requests|set_solver|done].
Qed.
End move.

(** * Moves and the journal

    While an allocation is under way the allocator only moves registered
    requests between zones.  The journal relates such a state to the one the
    allocation started from, and reverting it restores the assignments. *)

(** ** Moves *)

(** [MoveRequest] to some set of nodes. *)
Inductive request_move (a : Allocator) : Allocator → Prop :=
  | RequestMove id p zone :
      a_requests a !! id = Some p → zone ≠ 0 → request_move a (zoneMove zone p a).

Lemma attached_zone a id p :
  wf_but ∅ a → a_requests a !! id = Some p → ∃ m, a_users a !! id = Some m.
Proof. intros Hwf Hr. by destruct (wf_attached _ _ Hwf id p Hr) as [m ?]; [set_solver|eauto]. Qed.

Lemma request_move_wf a a' : wf_but ∅ a → request_move a a' → wf_but ∅ a' ∧ frame a a'.
Proof.
  intros Hwf [id p zone Hr Hz]. destruct (attached_zone _ _ _ Hwf Hr) as [m Hu].
  split; [by eapply zoneMove_wf|by eapply zoneMove_frame].
Qed.

Lemma request_moves_wf a a' : wf_but ∅ a → rtc request_move a a' → wf_but ∅ a' ∧ frame a a'.
Proof.
  intros Hwf Hs. induction Hs as [a|a b c Hab Hbc IH]; [done|].
  destruct (request_move_wf _ _ Hwf Hab) as [Hwf' Hf]. destruct (IH Hwf') as [? ?].
  split; [done|]. by trans b.
Qed.

(** ** The contract of custom functions

    A custom overcommit handler changes the allocator only by moving
    requests, which is all the [CustomAllocator] interface lets it do. *)
Class CustomOk (custom : CustomFunctions) : Prop :=
  custom_moves : ∀ f spill a, HandleOvercommit custom = Some f → wf_but ∅ a →
    rtc request_move a (f spill a).1.

#[export] Instance no_custom_ok : CustomOk no_custom.
Proof. done. Qed.

(** ** The journal of an allocation *)

(** [journal_rel u a]: the journal of [a] records how the assignments of [a]
    differ from the assignments [u] at its start. *)
Definition journal_rel (u : gmap string Z) (a : Allocator) : Prop :=
  ∃ j, a_journal a = Some j ∧
  ∀ id, match j_reverts j !! id with
        | None => a_users a !! id = u !! id ∧ j_updates j !! id = None
        | Some m => m = default 0 (u !! id) ∧ is_Some (a_users a !! id) ∧
                    j_updates j !! id = a_users a !! id
        end.

Lemma journal_rel_start a :
  a_journal a = Some (MkJournal ∅ ∅) → journal_rel (a_users a) a.
Proof. intros Hj. eexists. split; [done|]. intros id. cbn. by rewrite !lookup_empty. Qed.

Lemma journal_rel_move u a a' :
  wf_but ∅ a → request_move a a' → journal_rel u a → journal_rel u a'.
Proof.
  intros Hwf [id p to Hr Hto] (j & Hj & Hrel).
  destruct (attached_zone _ _ _ Hwf Hr) as [from Hu].
  pose proof (zoneMove_journal _ Hwf id p from to Hr Hu) as Hj'.
  pose proof (zoneMove_users _ Hwf id p from to Hr Hu) as Hu'.
  case_bool_decide as Hft.
  { exists j. rewrite Hj'. split; [done|]. subst to. rewrite insert_id in Hu' by done.
    by rewrite Hu'. }
  pose proof (Hrel id) as Hid. rewrite Hj in Hj'. cbn in Hj'.
  destruct (j_reverts j !! id) as [m|] eqn:Hrev; cbn in Hj'.
  - rewrite Hrev in Hj'. eexists. split; [done|]. intros id'. cbn. rewrite Hu'.
    specialize (Hrel id'). destruct (decide (id = id')) as [<-|Hne].
    + rewrite Hrev, !lookup_insert_eq. destruct Hid as (-> & _ & _). by eauto.
    + by rewrite !lookup_insert_ne.
  - rewrite lookup_insert_eq in Hj'. eexists. split; [done|]. intros id'. cbn. rewrite Hu'.
    specialize (Hrel id'). destruct (decide (id = id')) as [<-|Hne].
    + rewrite !lookup_insert_eq. destruct Hid as (<- & _). rewrite Hu. by eauto.
    + by rewrite !lookup_insert_ne.
Qed.

Lemma journal_rel_moves u a a' :
  wf_but ∅ a → rtc request_move a a' → journal_rel u a → journal_rel u a'.
Proof.
  intros Hwf Hs. induction Hs as [a|a b c Hab Hbc IH]; [done|]. intros Hj.
  apply IH; [by eapply request_move_wf|by eapply journal_rel_move].
Qed.

(** ** Reverting *)

Section revert.
Context (u : gmap string Z) (rq : option positive).
Context (Hu0 : ∀ id m, u !! id = Some m → m ≠ 0).

(** One entry of the journal undone. *)
Definition revert_one (id : string) (zone : Z) (p : positive) (a : Allocator) : Allocator :=
  let current := default 0 (a_users a !! id) in
  let a := zoneRemove current id a in
  if bool_decide (zone ≠ 0) then zoneAssign zone p a else a.

Lemma revert_one_spec id zone p cur Dn a :
  wf_but Dn a → a_journal a = None →
  a_users a !! id = Some cur → a_requests a !! id = Some p →
  zone = default 0 (u !! id) →
  let a' := revert_one id zone p a in
  ∃ Dn', wf_but Dn' a' ∧ frame a a' ∧ a_journal a' = None ∧
    a_users a' !! id = u !! id ∧ (∀ id', id' ≠ id → a_users a' !! id' = a_users a !! id') ∧
    Dn' = (if u !! id is Some _ then Dn ∖ {[id]} else {[id]} ∪ Dn).
Proof.
  intros Hwf Hj Hcur Hp Hzone a'. unfold a', revert_one. rewrite Hcur.
  change (default 0 (Some cur)) with cur.
  pose proof (zoneRemove_wf _ _ Hwf id cur Hcur) as Hwf1.
  pose proof (zoneRemove_frame _ _ Hwf id cur Hcur) as Hf1.
  pose proof (zoneRemove_users _ _ Hwf id cur Hcur) as Hus1.
  pose proof (zoneRemove_journal _ _ Hwf id cur Hcur) as Hj1. rewrite Hj in Hj1. cbn in Hj1.
  set (a1 := zoneRemove cur id a) in *. clearbody a1.
  assert (a_requests a1 !! id = Some p) as Hp1 by (by rewrite (fr_requests _ _ Hf1)).
  destruct (u !! id) as [m|] eqn:Hui; cbn in Hzone; subst zone.
  - rewrite bool_decide_eq_true_2 by (by eapply Hu0).
    assert (id ∈ {[id]} ∪ Dn) as HinD by set_solver.
    assert (m ≠ 0) as Hm by (by eapply Hu0).
    exists (({[id]} ∪ Dn) ∖ {[id]}). split_and!.
    + by apply (zoneAssign_wf _ _ Hwf1 id).
    + trans a1; [done|]. by eapply zoneAssign_frame.
    + by rewrite (zoneAssign_journal _ _ Hwf1 id p m Hp1), Hj1.
    + by rewrite (zoneAssign_users _ _ Hwf1 id p m Hp1), lookup_insert_eq.
    + intros id' Hne. rewrite (zoneAssign_users _ _ Hwf1 id p m Hp1), lookup_insert_ne by done.
      by rewrite Hus1, lookup_delete_ne.
    + set_solver.
  - rewrite bool_decide_eq_false_2 by (by intros []). exists ({[id]} ∪ Dn). split_and!; try done.
    + by rewrite Hus1, lookup_delete_eq.
    + intros id' Hne. by rewrite Hus1, lookup_delete_ne.
Qed.

(** The loop of [revertJournal] never fails in a consistent state and leaves
    the assignments of the start. *)
Lemma revert_loop_spec rs Dn a :
  wf_but Dn a → a_journal a = None → NoDup (rs.*1) →
  (∀ id, id ∉ rs.*1 → a_users a !! id = u !! id) →
  (∀ id m, (id, m) ∈ rs → m = default 0 (u !! id) ∧ is_Some (a_users a !! id)) →
  ∃ a' Dn', revert_loop rs rq a = (a', None) ∧ wf_but Dn' a' ∧ frame a a' ∧
    a_journal a' = None ∧ a_users a' = u ∧
    (∀ id, id ∈ Dn' → id ∈ Dn ∨ u !! id = None).
Proof.
  revert Dn a. induction rs as [|[id zone] rs IH]; intros Dn a Hwf Hj Hnd Hout Hin.
  - exists a, Dn. cbn. split_and!; try done; [|tauto].
    apply map_eq. intros id. apply Hout. set_solver.
  - apply NoDup_cons in Hnd as [Hnin Hnd].
    destruct (Hin id zone) as [Hzone [cur Hcur]]; [by constructor|].
    destruct (wf_user _ _ Hwf _ _ Hcur) as (z & p & _ & _ & Hp & _).
    destruct (revert_one_spec id zone p cur Dn a) as (Dn1 & Hwf1 & Hf1 & Hj1 & Hid1 & Hother1 & HD1);
      try done.
    cbn [revert_loop]. rewrite Hp, Hcur.
    assert (revert_one id zone p a = (if bool_decide (zone ≠ 0) then zoneAssign zone p (zoneRemove cur id a)
      else zoneRemove cur id a)) as Heq by (unfold revert_one; by rewrite Hcur).
    rewrite <- Heq.
    destruct (IH Dn1 (revert_one id zone p a)) as (a' & Dn' & Hloop & Hwf' & Hf' & Hj' & Hus' & HD');
      try done.
    + intros id' Hid'. destruct (decide (id' = id)) as [->|Hne]; [done|].
      rewrite Hother1 by done. apply Hout. rewrite fmap_cons, not_elem_of_cons. done.
    + intros id' m' Hm'.
      assert (id' ≠ id).
      { intros ->. apply Hnin. apply list_elem_of_fmap. by exists (id, m'). }
      rewrite Hother1 by done. apply Hin. by constructor.
    + exists a', Dn'. split_and!; try done; [by trans (revert_one id zone p a)|].
      intros id' Hid'. destruct (HD' id' Hid') as [Hd|]; [|by right].
      subst Dn1. destruct (u !! id) eqn:Hui; set_solver.
Qed.
End revert.

(** ** Restored states *)

(** Two states with the same registered requests, identical in every field,
    and the same assignments.  They can differ in zones without users and in
    requests that are not registered. *)
Record alloc_eq (a b : Allocator) : Prop := {
  ae_nodes : a_nodes a = a_nodes b;
  ae_masks : a_masks a = a_masks b;
  ae_requests : a_requests a = a_requests b;
  ae_users : a_users a = a_users b;
  ae_journal : a_journal a = a_journal b;
  ae_heap : ∀ id p, a_requests a !! id = Some p → a_heap a !! p = a_heap b !! p;
}.

#[export] Instance alloc_eq_equivalence : Equivalence alloc_eq.
Proof.
  split.
  - by split.
  - intros a b []. split; try done. intros id p Hp. symmetry. apply (ae_heap0 id). by rewrite ae_requests0.
  - intros a b c [] []. split; try congruence. intros id p Hp.
    rewrite (ae_heap0 id p Hp). apply (ae_heap1 id). by rewrite <- ae_requests0.
Qed.

Lemma set_zone_inj r r' : set_zone 0 r = set_zone 0 r' → r_zone r = r_zone r' → r = r'.
Proof. destruct r, r'. unfold set_zone. cbn. intros [=] ->. by subst. Qed.

(** Consistent states with the same assignments agree on the zones recorded
    in the requests. *)
Lemma alloc_eq_intro a b :
  wf_but ∅ a → wf_but ∅ b →
  a_nodes a = a_nodes b → a_masks a = a_masks b → a_requests a = a_requests b →
  a_users a = a_users b → a_journal a = a_journal b →
  (∀ id p, a_requests a !! id = Some p →
    set_zone 0 <$> a_heap b !! p = set_zone 0 <$> a_heap a !! p) →
  alloc_eq a b.
Proof.
  intros Ha Hb Hn Hm Hr Hu Hj Hh. split; try done. intros id p Hp.
  destruct (wf_req _ _ Ha id p Hp) as (r & Hra & _).
  pose proof Hp as Hpb. rewrite Hr in Hpb.
  destruct (wf_req _ _ Hb id p Hpb) as (r' & Hrb & _).
  destruct (attached_zone _ _ _ Ha Hp) as [m Hum].
  pose proof (wf_req_zone _ _ Ha id p m Hp Hum) as Hza.
  rewrite Hu in Hum. pose proof (wf_req_zone _ _ Hb id p m Hpb Hum) as Hzb.
  specialize (Hh id p Hp). rewrite Hra, Hrb in *. simpl in Hh. f_equal.
  unfold req, deref in *. rewrite Hra in Hza. rewrite Hrb in Hzb. simpl in *.
  apply set_zone_inj; congruence.
Qed.

Lemma wf_delete_request D a id :
  wf_but D a → a_users a !! id = None →
  wf_but (D ∖ {[id]}) (with_requests (delete id (a_requests a)) a).
Proof.
  intros Hwf Hu. split; cbn [a_requests with_requests a_users a_zones a_heap].
  - intros id' p [_ ?]%lookup_delete_Some. by apply (wf_req _ _ Hwf).
  - apply (wf_user_zone _ _ Hwf).
  - intros m z id' p Hz Hp. destruct (wf_zone_user _ _ Hwf _ _ _ _ Hz Hp) as (Hu' & ? & ?).
    rewrite lookup_delete_ne by congruence. done.
  - apply (wf_zone_info _ _ Hwf).
  - intros id' p [? ?]%lookup_delete_Some Hn. apply (wf_attached _ _ Hwf id' p); [done|]. set_solver.
  - intros id' ?. apply (wf_detached _ _ Hwf). set_solver.
  - apply (wf_nonzero _ _ Hwf).
Qed.

Section revertJournal.
Context `{GoRuntime}.

(** [revertJournal] succeeds: it restores the assignments [u] and returns the
    zones of the requests whose assignment differs from [u]. *)
Lemma revertJournal_spec u rq a :
  wf_but ∅ a → journal_rel u a → (∀ id m, u !! id = Some m → m ≠ 0) →
  ∃ a' Dn updates,
    revertJournal rq a
    = (match rq with
       | Some p => with_requests (delete (r_id (req a' p)) (a_requests a')) a'
       | None => a'
       end, Ok updates) ∧
    wf_but Dn a' ∧ frame a a' ∧ a_journal a' = None ∧ a_users a' = u ∧
    (∀ id, id ∈ Dn → u !! id = None) ∧
    j_updates <$> a_journal a = Some updates ∧
    (∀ id m, updates !! id = Some m → a_users a !! id = Some m) ∧
    (∀ id, updates !! id = None → a_users a !! id = u !! id).
Proof.
  intros Hwf (j & Hj & Hrel) Hu0. unfold revertJournal. rewrite Hj.
  assert (wf_but ∅ (with_journal None a)) as Hwf'.
  { split; [apply (wf_req _ _ Hwf)|apply (wf_user_zone _ _ Hwf)|apply (wf_zone_user _ _ Hwf)
    |apply (wf_zone_info _ _ Hwf)|apply (wf_attached _ _ Hwf)|apply (wf_detached _ _ Hwf)
    |apply (wf_nonzero _ _ Hwf)]. }
  destruct (revert_loop_spec u rq Hu0 (map_range (j_reverts j)) ∅ (with_journal None a))
    as (a' & Dn & -> & Hwfa & Hf & Hja & Hua & HD); try done.
  - apply NoDup_map_range.
  - intros id Hid. cbn. specialize (Hrel id).
    destruct (j_reverts j !! id) as [m|] eqn:Hrev; [|by destruct Hrel].
    exfalso. apply Hid. apply list_elem_of_fmap. exists (id, m). by rewrite elem_of_map_range.
  - intros id m Hin%elem_of_map_range. specialize (Hrel id). rewrite Hin in Hrel. naive_solver.
  - exists a', Dn, (j_updates j). split_and!; try done.
    + destruct Hf. by split.
    + intros id Hid. destruct (HD id Hid) as [|]; [set_solver|done].
    + intros id m Hup. specialize (Hrel id). destruct (j_reverts j !! id); naive_solver congruence.
    + intros id Hup. specialize (Hrel id).
      destruct (j_reverts j !! id); [|naive_solver]. destruct Hrel as (_ & [x Hx] & Hup2). congruence.
Qed.
End revertJournal.
