(* ===== verification/MemExpand.v ===== *)
(** * Zone expansion

    What the cached masks say of the nodes of an allocator, and what
    expanding a zone can return. *)

From S2P Require Import Prelude GoStrings MemTypes MemNodes MemRequest MemZones MemAllocator MemState.

Lemma foreach_list_inv {A St} (P : St → Prop) (fn : A → St → St * bool) l st :
  P st → (∀ x st, x ∈ l → P st → P (fn x st).1) → P (foreach_list fn l st).
Proof.
  revert st. induction l as [|x l IH]; intros st Hst Hfn; simpl; [done|].
  pose proof (Hfn x st (list_elem_of_here _ _) Hst) as Hx.
  destruct (fn x st) as [st' []]; simpl in *; [|done].
  apply IH; [done|]. intros y st0 Hy. apply Hfn. by constructor.
Qed.

(** A loop that never stops early reaches [Q] if one of its steps does. *)
Lemma foreach_list_reach {A St} (P Q : St → Prop) (fn : A → St → St * bool) l x st :
  (∀ y st, (fn y st).2 = true) → (∀ y st, P st → P (fn y st).1) → (∀ y st, Q st → Q (fn y st).1) →
  x ∈ l → (∀ st, P st → Q (fn x st).1) → P st → Q (foreach_list fn l st).
Proof.
  intros Hgo HP HQ Hx Hhit. revert st. induction l as [|y l IH]; intros st Hst; [inversion Hx|]. simpl.
  pose proof (Hgo y st) as Hg. pose proof (HP y st Hst) as Hp.
  apply elem_of_cons in Hx as [->|Hx].
  - pose proof (Hhit st Hst) as Hq. destruct (fn y st) as [st' b]; simpl in *. subst b. clear -Hq HQ.
    apply (foreach_list_inv Q); [done|]. intros z st _. apply HQ.
  - destruct (fn y st) as [st' b]; simpl in *. subst b. by apply IH.
Qed.

Section config.
Context (a : Allocator) (Hcfg : config_ok a).

Lemma cfg_all i : 0 ≤ i → Z.testbit (mc_all (a_masks a)) i = true ↔ is_Some (a_nodes a !! i).
Proof.
  intros Hi. destruct (cfg_cache _ Hcfg) as (ns & Hns & Hc).
  rewrite (ok_all _ _ Hc i Hi). split.
  - intros (n & Hn%Hns & <- & _). eauto.
  - intros [n Hn]. exists n. destruct (cfg_node _ Hcfg i n Hn) as [Hid _].
    split_and!; try done. apply Hns. by rewrite Hid.
Qed.

Lemma cfg_byTypes T i :
  0 < T < 8 → 0 ≤ i →
  Z.testbit (mask_at (mc_byTypes (a_masks a)) T) i = true ↔
  ∃ n, a_nodes a !! i = Some n ∧ Node_HasMemory n = true ∧ Z.testbit T (memType n) = true.
Proof.
  intros HT Hi. destruct (cfg_cache _ Hcfg) as (ns & Hns & Hc).
  rewrite (ok_byTypes _ _ Hc T HT i Hi). split.
  - intros (n & Hn%Hns & <- & ? & ?). eauto.
  - intros (n & Hn & ? & ?). exists n. destruct (cfg_node _ Hcfg i n Hn) as [Hid _].
    split_and!; try done. apply Hns. by rewrite Hid.
Qed.

Lemma cfg_normal i :
  0 ≤ i → Z.testbit (mc_normal (a_masks a)) i = true ↔
  ∃ n, a_nodes a !! i = Some n ∧ Node_HasMemory n = true ∧ Node_IsNormal n = true.
Proof.
  intros Hi. destruct (cfg_cache _ Hcfg) as (ns & Hns & Hc).
  rewrite (ok_normal _ _ Hc i Hi). split.
  - intros (n & Hn%Hns & <- & ? & ?). eauto.
  - intros (n & Hn & ? & ?). exists n. destruct (cfg_node _ Hcfg i n Hn) as [Hid _].
    split_and!; try done. apply Hns. by rewrite Hid.
Qed.

Lemma cfg_all_mask64 : mask64 (mc_all (a_masks a)).
Proof.
  apply mask64_spec. intros i Hi [n Hn]%cfg_all; [|done].
  destruct (cfg_node _ Hcfg i n Hn) as [<- [[_ ?] _]]. done.
Qed.

Lemma cfg_byTypes_all T : submask (mask_at (mc_byTypes (a_masks a)) T) (mc_all (a_masks a)).
Proof.
  destruct (decide (0 < T < 8)) as [HT|HT].
  - apply submask_spec. intros i Hi (n & Hn & _)%cfg_byTypes; [|done..]. apply cfg_all; eauto.
  - destruct (cfg_cache _ Hcfg) as (ns & _ & Hc). by rewrite (ok_noTypes _ _ Hc T HT).
Qed.

(** ** Types of a set of nodes *)

Lemma fold_lor_bit {A} (f : A → Z) l acc i :
  Z.testbit (fold_left (λ m x, m ||| f x) l acc) i = true ↔
  Z.testbit acc i = true ∨ ∃ x, x ∈ l ∧ Z.testbit (f x) i = true.
Proof.
  revert acc. induction l as [|x l IH]; intros acc; simpl; [set_solver|].
  rewrite IH, Z.lor_spec, orb_true_iff. set_solver.
Qed.

Lemma types_of_bit zone t :
  0 ≤ t →
  Z.testbit (types_of a zone) t = true ↔
  ∃ i n, 0 ≤ i ∧ Z.testbit zone i = true ∧ a_nodes a !! i = Some n ∧ memType n = t.
Proof.
  intros Ht. unfold types_of. rewrite fold_lor_bit, Z.bits_0, NodeMask_Slice_ids.
  split.
  - intros [?|(i & Hi & Hb)]; [done|]. apply elem_of_mask_ids in Hi as [Hi Hz].
    rewrite Z.land_spec, andb_true_iff in Hz. destruct Hz as [Hz _].
    unfold node_types in Hb. destruct (a_nodes a !! i) as [n|] eqn:Hn; [|by rewrite Z.bits_0 in Hb].
    destruct (cfg_node _ Hcfg i n Hn) as [_ (_ & Hk & _)].
    rewrite Type_Mask_bit, bool_decide_eq_true in Hb by done. exists i, n. split_and!; try done. lia.
  - intros (i & n & Hi & Hz & Hn & <-). right. exists i.
    destruct (cfg_node _ Hcfg i n Hn) as [Hid (Hid2 & Hk & _)]. rewrite Hid in Hid2. split.
    + apply elem_of_mask_ids. split; [done|]. rewrite Z.land_spec, Hz. by apply cfg_all.
    + unfold node_types. rewrite Hn. by rewrite Type_Mask_bit, bool_decide_eq_true_2.
Qed.

Lemma types_of_lor z1 z2 : types_of a (z1 ||| z2) = types_of a z1 ||| types_of a z2.
Proof.
  apply Z.bits_inj'. intros t Ht. apply eq_true_iff_eq.
  rewrite Z.lor_spec, orb_true_iff, !types_of_bit by done.
  setoid_rewrite Z.lor_spec. setoid_rewrite orb_true_iff. naive_solver.
Qed.

Lemma types_of_mono z1 z2 : submask z1 z2 → submask (types_of a z1) (types_of a z2).
Proof.
  rewrite !submask_spec. intros Hs t Ht. rewrite !types_of_bit by done.
  intros (i & n & Hi & Hz & ?). exists i, n. split_and!; try tauto. by apply Hs.
Qed.

Lemma types_of_known zone : submask (types_of a zone) TypeMaskAll.
Proof.
  apply submask_spec. intros t Ht (i & n & _ & _ & Hn & <-)%types_of_bit; [|done].
  destruct (cfg_node _ Hcfg i n Hn) as [_ (_ & [->|[->| ->]] & _)]; done.
Qed.

Lemma types_of_zero : types_of a 0 = 0.
Proof. done. Qed.

(** Nodes of one type. *)
Lemma types_of_single t n :
  known_type t → submask n (mask_at (mc_byTypes (a_masks a)) (Type_Mask t)) → n ≠ 0 →
  types_of a n = Type_Mask t.
Proof.
  intros Ht Hn Hnz. assert (0 ≤ t) by (destruct Ht as [->|[->| ->]]; done).
  rewrite submask_spec in Hn.
  assert (∀ i, 0 ≤ i → Z.testbit n i = true → ∃ x, a_nodes a !! i = Some x ∧ memType x = t) as Hx.
  { intros i Hi (x & Hx & _ & Hb)%(Hn i Hi)%cfg_byTypes; [|by apply Type_Mask_range|done].
    exists x. split; [done|].
    destruct (cfg_node _ Hcfg i x Hx) as [_ (_ & Hk & _)].
    rewrite Type_Mask_bit, bool_decide_eq_true in Hb; [done|done|].
    destruct Hk as [->|[->| ->]]; done. }
  apply Z.bits_inj'. intros t' Ht'. apply eq_true_iff_eq.
  rewrite types_of_bit, Type_Mask_bit, bool_decide_eq_true by done. split.
  - intros (i & x & Hi & Hb & Hnode & <-). destruct (Hx i Hi Hb) as (x' & Hx' & <-). by simplify_eq.
  - intros ->. apply mask_nonzero in Hnz as (i & Hi & Hb).
    destruct (Hx i Hi Hb) as (x & Hnode & ?). eauto 10.
Qed.

(** ** Expansion *)

Lemma newCloseNodesOfType_sub zone t :
  submask (newCloseNodesOfType a zone t)
    (mask_at (mc_byTypes (a_masks a)) (Type_Mask t) &^ zone).
Proof.
  unfold newCloseNodesOfType, ForeachNode. rewrite NodeMask_Foreach_ids.
  apply (foreach_list_inv (λ st : Z * Z, submask st.1 _)); [apply submask_zero|].
  intros id st _ Hst. destruct (a_nodes a !! id) as [n|]; [|done]. cbn.
  unfold Node_ForeachDistance. apply (foreach_list_inv (λ st : Z * Z, submask st.1 _)); [done|].
  intros d [close max] _ Hcl. unfold close_nodes_step. cbn in *.
  repeat case_bool_decide; cbn; try done. apply submask_lor; [done|apply submask_land_r].
Qed.

Lemma defaultExpand_spec zone types :
  let '(n, t) := defaultExpand a zone types in
  n &&& zone = 0 ∧ submask n (mc_all (a_masks a)) ∧ t = types_of a n ∧ submask t types.
Proof.
  unfold defaultExpand, TypeMask_Foreach.
  apply (foreach_list_inv (λ st : Z * Z, let '(n, t) := st in
    n &&& zone = 0 ∧ submask n (mc_all (a_masks a)) ∧ t = types_of a n ∧ submask t types)).
  { by rewrite types_of_zero. }
  intros t [newNodes newTypes] [Ht Htb]%elem_of_TypeMask_Slice (Hd & Hall & Htypes & Hsub). cbn [fst].
  pose proof (newCloseNodesOfType_sub zone t) as Hn.
  set (n := newCloseNodesOfType a zone t) in *. clearbody n.
  case_bool_decide as Hnz; [|done].
  assert (submask n (mask_at (mc_byTypes (a_masks a)) (Type_Mask t))) as Hnt by bits_solver.
  split_and!.
  - bits_solver.
  - apply submask_lor; [done|]. trans (mask_at (mc_byTypes (a_masks a)) (Type_Mask t)); [done|].
    apply cfg_byTypes_all.
  - by rewrite types_of_lor, (types_of_single t n), Htypes.
  - apply submask_lor; [done|]. apply submask_spec. intros i Hi.
    rewrite Type_Mask_bit, bool_decide_eq_true by done. by intros ->.
Qed.

(** What the rest of the allocator relies on of an expansion, with and
    without a custom function. *)
Lemma expand_disjoint custom zone types n t :
  expand custom a zone types = (n, t) → n &&& zone = 0 ∧ mask64 n.
Proof.
  unfold expand. destruct (ExpandZone custom) as [f|].
  - intros [= <- _]. split; [bits_solver|].
    apply (mask64_submask _ (u64 (f zone types a))); [bits_solver|apply mask64_u64].
  - intros He. pose proof (defaultExpand_spec zone types) as Hs. rewrite He in Hs.
    destruct Hs as (? & Hall & _). split; [done|]. eapply mask64_submask; [done|].
    apply cfg_all_mask64.
Qed.

Lemma expand_default_types custom zone types n t :
  ExpandZone custom = None → expand custom a zone types = (n, t) →
  t = types_of a n ∧ submask t types ∧ submask n (mc_all (a_masks a)).
Proof.
  intros Hc. unfold expand. rewrite Hc. intros He.
  pose proof (defaultExpand_spec zone types) as Hs. rewrite He in Hs. naive_solver.
Qed.

(** ** Expansion finds nodes *)

(** While looking for the closest nodes: none found yet, or some. *)
Definition searching (st : Z * Z) : Prop := st.2 = MaxInt ∨ st.1 ≠ 0.

Lemma close_nodes_step_keeps zone t d nodes st :
  let st' := (close_nodes_step a zone t d nodes st).1 in
  (searching st → searching st') ∧ (st.1 ≠ 0 → st'.1 ≠ 0).
Proof.
  destruct st as [close max]. unfold searching, close_nodes_step.
  repeat case_bool_decide; cbn; try tauto. split; [intros _; right|by apply lor_nonzero_l].
  rewrite Z.lor_comm. by apply lor_nonzero_l.
Qed.

(** The nodes at a distance that are of the type and new. *)
Lemma distance_loop_finds zone t n ds d st :
  Forall (λ d, d ≤ MaxInt) ds → d ∈ ds →
  Distance_NodesAt (distance n) d &&& (mask_at (mc_byTypes (a_masks a)) (Type_Mask t) &^ zone) ≠ 0 →
  searching st →
  (foreach_list (λ d st, close_nodes_step a zone t d (Distance_NodesAt (distance n) d) st) ds st).1 ≠ 0.
Proof.
  intros Hds. revert st. induction Hds as [|d' ds Hd' Hds IH]; intros [close max] Hin Hnew Hst; [inversion Hin|].
  cbn [foreach_list]. unfold close_nodes_step at 1. case_bool_decide as Hz.
  - apply IH; [|done|done]. apply elem_of_cons in Hin as [->|?]; done.
  - case_bool_decide as Hle; cbn.
    + rewrite Z.lor_comm. by apply lor_nonzero_l.
    + destruct Hst as [Hst|Hst]; cbn in Hst; [lia|done].
Qed.

(** [j] is a new node for the zone, of type [t] with memory, and the
    distances of [n] cover it. *)
Definition new_node (zone t : Z) (n : Node) (j : Z) : Prop :=
  0 ≤ j ∧ Z.testbit zone j = false ∧
  (∃ y, a_nodes a !! j = Some y ∧ Node_HasMemory y = true ∧ memType y = t) ∧
  j < Z.of_nat (length (vector (distance n))) ∧ Forall (λ d, d ≤ MaxInt) (vector (distance n)).

Lemma new_node_distance zone t i n j :
  0 ≤ i → a_nodes a !! i = Some n → Z.testbit zone i = true → new_node zone t n j →
  ∃ d, d ∈ tail (sorted (distance n)) ∧
    Distance_NodesAt (distance n) d &&& (mask_at (mc_byTypes (a_masks a)) (Type_Mask t) &^ zone) ≠ 0.
Proof.
  intros Hi Hn Hzi (Hj & Hzj & (y & Hy & Hmem & Ht) & Hlen & _).
  destruct (cfg_node _ Hcfg i n Hn) as [Hid (_ & _ & Hd)]. subst i.
  destruct Hd as (_ & Hs & Hsv & Hat & d0 & Hd0 & Hself).
  destruct (lookup_lt_is_Some_2 (vector (distance n)) (Z.to_nat j)) as [d Hv]; [lia|].
  exists d. split.
  - assert (d ∈ sorted (distance n)) as Hin by (apply Hsv; by eapply list_elem_of_lookup_2).
    destruct (sorted (distance n)) as [|d1 ds]; [inversion Hin|]. cbn in Hd0 |- *. injection Hd0 as ->.
    apply elem_of_cons in Hin as [->|?]; [|done]. exfalso.
    apply Hat in Hv; [|done]. rewrite Hself in Hv. unfold NewNodeMask, NodeMask_Set in Hv. cbn in Hv.
    destruct (cfg_node _ Hcfg _ n Hn) as [_ (Hr & _)].
    rewrite Z.lor_0_l, node_bit_spec, bool_decide_eq_true in Hv by lia. subst j. congruence.
  - apply mask_nonzero. exists j. split; [done|].
    rewrite Z.land_spec, andb_true_iff. split; [by apply Hat|].
    rewrite Z.ldiff_spec, Hzj, andb_true_r. destruct (cfg_node _ Hcfg j y Hy) as [_ (_ & Hk & _)].
    subst t. apply cfg_byTypes; [by apply Type_Mask_range|done|]. exists y.
    split_and!; try done. rewrite Type_Mask_bit, bool_decide_eq_true; [done|done|].
    destruct Hk as [->|[->| ->]]; done.
Qed.

Lemma newCloseNodesOfType_finds zone t i n j :
  0 ≤ i < 64 → a_nodes a !! i = Some n → Z.testbit zone i = true → new_node zone t n j →
  newCloseNodesOfType a zone t ≠ 0.
Proof.
  intros Hi Hn Hzi Hnew. destruct (new_node_distance zone t i n j) as (d & Hd & Hnz); [lia|done..|].
  unfold newCloseNodesOfType, ForeachNode. rewrite NodeMask_Foreach_ids.
  apply (foreach_list_reach searching (λ st : Z * Z, st.1 ≠ 0) _ _ i).
  - intros y st. by destruct (a_nodes a !! y).
  - intros y st Hst. destruct (a_nodes a !! y) as [x|]; [|done]. cbn. unfold Node_ForeachDistance.
    apply (foreach_list_inv searching); [done|]. intros d' st' _. apply close_nodes_step_keeps.
  - intros y st Hst. destruct (a_nodes a !! y) as [x|]; [|done]. cbn. unfold Node_ForeachDistance.
    apply (foreach_list_inv (λ st : Z * Z, st.1 ≠ 0)); [done|]. intros d' st' _. apply close_nodes_step_keeps.
  - apply elem_of_mask_ids. split; [done|]. rewrite Z.land_spec, Hzi. apply cfg_all; [lia|eauto].
  - intros st Hst. rewrite Hn. cbn. unfold Node_ForeachDistance.
    destruct Hnew as (_ & _ & _ & _ & Hmax).
    destruct (cfg_node _ Hcfg i n Hn) as [_ (_ & _ & _ & Hs & Hsv & _)].
    apply (distance_loop_finds zone t n _ d); [|done|done|done].
    apply Forall_forall. intros d' Hd'. rewrite Forall_forall in Hmax. apply Hmax, Hsv.
    destruct (sorted (distance n)); [inversion Hd'|]. by constructor.
  - by left.
Qed.

(** The default expansion of a zone adds only nodes that exist and are new, reports
    exactly their types, which are among the allowed ones, and adds something
    whenever a node of the zone has a distance to a new node with memory of an
    allowed type. *)
Theorem defaultExpand_complete zone types :
  let '(nodes, newTypes) := defaultExpand a zone types in
  nodes &&& zone = 0 ∧ submask nodes (mc_all (a_masks a)) ∧
  newTypes = types_of a nodes ∧ submask newTypes types ∧
  ∀ i n j t, 0 ≤ i < 64 → a_nodes a !! i = Some n → Z.testbit zone i = true →
    Z.testbit types t = true → new_node zone t n j → nodes ≠ 0.
Proof.
  pose proof (defaultExpand_spec zone types) as Hs.
  destruct (defaultExpand a zone types) as [nodes newTypes] eqn:He.
  destruct Hs as (? & ? & ? & ?). split_and!; [done..|].
  intros i n j t Hi Hn Hzi Ht Hnew. change nodes with (nodes, newTypes).1. rewrite <- He.
  assert (known_type t) as Hk.
  { destruct Hnew as (_ & _ & (y & Hy & _ & <-) & _). by destruct (cfg_node _ Hcfg j y Hy) as [_ (_ & ? & _)]. }
  unfold defaultExpand, TypeMask_Foreach.
  apply (foreach_list_reach (λ _, True) (λ st : Z * Z, st.1 ≠ 0) _ _ t); try done.
  - by intros y [].
  - intros y [x ts] Hx. case_bool_decide; cbn; [by apply lor_nonzero_l|done].
  - by apply elem_of_TypeMask_Slice.
  - intros [x ts] _. rewrite bool_decide_eq_true_2; [|by eapply newCloseNodesOfType_finds]. cbn.
    rewrite Z.lor_comm. apply lor_nonzero_l. by eapply newCloseNodesOfType_finds.
Qed.
End config.
