(* ===== verification/MemOvercommit.v ===== *)
(** * Overcommit handling

    The default overcommit handler as a sequence of elementary moves, each of
    which takes a request to a larger zone.  Everything that holds of such
    sequences (termination, what is left alone) follows by induction on them. *)

From S2P Require Import Prelude GoStrings MemTypes MemNodes MemRequest MemZones MemAllocator MemState MemExpand.

Section moves.
Context (custom : CustomFunctions) (N : Z).

(** One move of the default handler called for the nodes [N]: a request of a
    zone that shares nodes with [N] gets the nodes [n] in addition.  Requests
    above the priority [Preserved] stay; a strict request moves only if the
    types of its new zone are the types it asked for. *)
Inductive move_step (a : Allocator) : Allocator → Prop :=
  | MoveStep id p from n t :
      a_requests a !! id = Some p →
      a_users a !! id = Some from →
      (N = 0 ∨ from &&& N ≠ 0) →
      n ≠ 0 → n &&& from = 0 → mask64 n →
      r_priority (req a p) ≤ Preserved →
      (ExpandZone custom = None → t = types_of a n ∧ submask n (mc_all (a_masks a))) →
      (r_strict (req a p) = true → r_types (req a p) = types_of a from ||| t) →
      move_step a (zoneMove (from ||| n) p a).

Lemma move_step_request_move a a' : wf_but ∅ a → move_step a a' → request_move a a'.
Proof.
  intros Hwf [id p from n t Hr Hu _ _ _ _ _ _ _]. apply (RequestMove _ id); [done|].
  apply lor_nonzero_l. by eapply (wf_nonzero _ _ Hwf).
Qed.

Lemma move_step_wf a a' : wf_but ∅ a → move_step a a' → wf_but ∅ a' ∧ frame a a'.
Proof. intros Hwf Hs. apply request_move_wf; [done|]. by apply move_step_request_move. Qed.

Lemma move_steps_wf a a' : wf_but ∅ a → rtc move_step a a' → wf_but ∅ a' ∧ frame a a'.
Proof.
  intros Hwf Hs. induction Hs as [a|a b c Hab Hbc IH]; [done|].
  destruct (move_step_wf _ _ Hwf Hab) as [Hwf' ?]. destruct (IH Hwf') as [? ?].
  split; [done|]. by trans b.
Qed.

Lemma move_steps_request_moves a a' : wf_but ∅ a → rtc move_step a a' → rtc request_move a a'.
Proof.
  intros Hwf Hs. induction Hs as [a|a b c Hab Hbc IH]; [done|].
  eapply rtc_l; [by apply move_step_request_move|]. apply IH. by eapply move_step_wf.
Qed.

(** Zero or more moves, and nothing counted as moved without a move. *)
Definition moves_counted (a : Allocator) (moved : Z) (a' : Allocator) (moved' : Z) : Prop :=
  (a' = a ∧ (moved = 0 → moved' = 0)) ∨ tc move_step a a'.

Lemma moves_counted_rtc a m a' m' : moves_counted a m a' m' → rtc move_step a a'.
Proof. intros [[-> _]|Hs]; [done|by apply tc_rtc]. Qed.

Lemma moves_counted_trans a m b m1 c m2 :
  moves_counted a m b m1 → moves_counted b m1 c m2 → moves_counted a m c m2.
Proof.
  unfold moves_counted. intros [[-> ?]|H1] [[-> ?]|H2]; auto. right. by etrans.
Qed.

(** ** Shrinking a zone *)

Section shrink.
Context (zone n t ztypes amount : Z).
Context (HN : N = 0 ∨ zone &&& N ≠ 0) (Hn : n ≠ 0) (Hd : n &&& zone = 0) (H64 : mask64 n).

Lemma shrink_loop_moves ps a moved :
  wf_but ∅ a → NoDup ps →
  (∀ p, p ∈ ps → ∃ id, a_requests a !! id = Some p ∧ a_users a !! id = Some zone ∧
    r_priority (req a p) ≤ Preserved) →
  ztypes = types_of a zone →
  (ExpandZone custom = None → t = types_of a n ∧ submask n (mc_all (a_masks a))) →
  let '(a', moved') := shrink_loop ps ztypes t (zone ||| n) amount moved a in
  moves_counted a moved a' moved'.
Proof.
  revert a moved. induction ps as [|p ps IH]; intros a moved Hwf Hnd Hps Hzt Ht; [by left|].
  apply NoDup_cons in Hnd as [Hnin Hnd]. cbn [shrink_loop].
  destruct (negb (r_strict (req a p)) || bool_decide (r_types (req a p) = ztypes ||| t)) eqn:Hstrict.
  2: { apply IH; try done. intros q Hq. apply Hps. by constructor. }
  destruct (Hps p) as (id & Hr & Hu & Hprio); [by constructor|].
  assert (move_step a (zoneMove (zone ||| n) p a)) as Hstep.
  { apply (MoveStep _ id p zone n t); try done. intros Hs. rewrite Hs in Hstrict. simpl in Hstrict.
    apply bool_decide_eq_true in Hstrict. by rewrite Hstrict, Hzt. }
  destruct (move_step_wf _ _ Hwf Hstep) as [Hwf' Hf].
  pose proof (zoneMove_users _ Hwf id p zone (zone ||| n) Hr Hu) as Hus.
  set (a1 := zoneMove (zone ||| n) p a) in *. clearbody a1.
  set (moved1 := i64 (moved + r_limit (req a p))). clearbody moved1.
  clear Hstrict. case_bool_decide; [right; by apply tc_once|].
  specialize (IH a1 moved1). destruct (shrink_loop _ _ _ _ _ _ _) as [a' moved'] eqn:Hloop.
  enough (moves_counted a1 moved1 a' moved') as Hm.
  { eapply moves_counted_trans; [|exact Hm]. right. by apply tc_once. }
  apply IH; try done.
  - intros q Hq. destruct (Hps q) as (id' & Hr' & Hu' & Hprio'); [by constructor|].
    assert (id' ≠ id) by (intros ->; simplify_eq).
    exists id'. rewrite (fr_requests _ _ Hf), Hus, lookup_insert_ne by done.
    destruct (frame_fields _ _ q Hf) as (_ & _ & _ & _ & ->). done.
  - by rewrite (frame_types_of _ _ _ Hf).
  - intros He. rewrite (frame_types_of _ _ _ Hf), (fr_masks _ _ Hf). by apply Ht.
Qed.
End shrink.

Context `{GoRuntime}.

Lemma NoDup_SortRequests h requests f s :
  (∀ id1 id2 p, requests !! id1 = Some p → requests !! id2 = Some p → id1 = id2) →
  NoDup (SortRequests h requests f s).
Proof.
  intros Hinj.
  assert (NoDup (filter (λ p, default (λ _, true) f (deref h p) = true) ((map_range requests).*2)))
    as Hnd.
  { apply NoDup_filter. apply NoDup_fmap_2_strong.
    - intros [id1 p1] [id2 p2] H1%elem_of_map_range H2%elem_of_map_range. simpl. intros ->.
      by rewrite (Hinj _ _ _ H1 H2).
    - eapply NoDup_fmap_1, NoDup_map_range. }
  unfold SortRequests. case_bool_decide; [|done]. by rewrite sort_func_perm.
Qed.

Lemma zoneShrinkUsage_moves a zone amount limit extra :
  wf_but ∅ a → config_ok a → limit ≤ Preserved → (N = 0 ∨ zone &&& N ≠ 0) →
  let '(a', m) := zoneShrinkUsage custom a zone amount limit extra in
  moves_counted a 0 a' m.
Proof.
  intros Hwf Hcfg Hlim HN. unfold zoneShrinkUsage.
  destruct (a_zones a !! zone) as [z|] eqn:Hz; [|by left].
  case_bool_decide; [by left|].
  destruct (expand custom a zone (z_types z ||| extra)) as [n t] eqn:He.
  case_bool_decide as Hn; [by left|].
  destruct (expand_disjoint a Hcfg _ _ _ _ _ He) as [Hd H64].
  apply shrink_loop_moves; try done.
  - apply NoDup_SortRequests. intros id1 id2 p H1 H2.
    destruct (wf_zone_user _ _ Hwf _ _ _ _ Hz H1) as (_ & Hr1 & _).
    destruct (wf_zone_user _ _ Hwf _ _ _ _ Hz H2) as (_ & Hr2 & _).
    by eapply (wf_req_inj _ _ Hwf).
  - intros p [(id & Hp) Hprio]%elem_of_SortRequests. exists id.
    destruct (wf_zone_user _ _ Hwf _ _ _ _ Hz Hp) as (? & ? & _).
    split_and!; try done. cbn in Hprio. apply bool_decide_eq_true in Hprio.
    unfold req. lia.
  - by apply (wf_zone_info _ _ Hwf).
  - intros Hc. destruct (expand_default_types a Hcfg _ _ _ _ _ Hc He) as (? & _ & ?). done.
Qed.

(** ** The rounds of the handler *)

Definition oc_ok (oc : list Z) : Prop := ∀ z, z ∈ oc → N = 0 ∨ z &&& N ≠ 0.

Lemma checkOvercommit_ok a : oc_ok (checkOvercommit a N).1.
Proof.
  intros z. unfold checkOvercommit. cbn [fst]. rewrite elem_of_sort_func, list_elem_of_filter.
  rewrite andb_true_iff, !bool_decide_eq_true. naive_solver.
Qed.

Lemma shrink_zones_moves oc spill prio types moved a :
  wf_but ∅ a → config_ok a → prio ≤ Preserved → oc_ok oc →
  let '(a', moved') := shrink_zones custom oc spill prio types moved a in
  moves_counted a moved a' moved'.
Proof.
  intros Hwf Hcfg Hprio. revert a moved Hwf Hcfg.
  induction oc as [|z oc IH]; intros a moved Hwf Hcfg Hoc; simpl; [left; done|].
  assert (oc_ok oc) as Hoc' by (intros x ?; apply Hoc; by constructor).
  destruct (spill !! z) as [amount|]; [|by apply IH].
  pose proof (zoneShrinkUsage_moves a z amount prio types Hwf Hcfg Hprio) as Hs.
  destruct (zoneShrinkUsage _ _ _ _ _ _) as [a1 m].
  assert (moves_counted a 0 a1 m) as Hm by (apply Hs, Hoc; constructor).
  destruct (move_steps_wf a a1 Hwf) as [Hwf1 Hf1]; [by eapply moves_counted_rtc|].
  specialize (IH a1 (i64 (moved + m)) Hwf1 (frame_config _ _ Hf1 Hcfg) Hoc').
  destruct (shrink_zones _ _ _ _ _ _ _) as [a2 moved2].
  eapply moves_counted_trans; [|exact IH].
  destruct Hm as [[-> Hm]|Hm]; [left|by right]. split; [done|]. intros ->. by rewrite Hm.
Qed.

(** What holds after some of the loops of a round that started from [a] with
    the count [moved]. *)
Definition round_ok (a : Allocator) (moved : Z) (s : oc_state) : Prop :=
  match s with
  | Resolved a' => rtc move_step a a' ∧ (checkOvercommit a' N).1 = []
  | Unresolved a' oc spill moved' => moves_counted a moved a' moved' ∧ oc_ok oc
  end.

Lemma round_ok_trans a m b m1 s : moves_counted a m b m1 → round_ok b m1 s → round_ok a m s.
Proof.
  intros Hm. destruct s as [a'|a' oc spill m2]; simpl.
  - intros [? ?]. split; [|done]. etrans; [by eapply moves_counted_rtc|done].
  - intros [? ?]. split; [|done]. by eapply moves_counted_trans.
Qed.

Lemma try_types_ok prio extras types a oc spill moved :
  wf_but ∅ a → config_ok a → prio ≤ Preserved → oc_ok oc →
  round_ok a moved (try_types custom N prio extras types a oc spill moved).
Proof.
  intros Hwf Hcfg Hprio. revert types a oc spill moved Hwf Hcfg.
  induction extras as [|extra extras IH]; intros types a oc spill moved Hwf Hcfg Hoc;
    [by split; [left|]|].
  cbn [try_types]. case_bool_decide; [by apply IH|].
  set (types' := if bool_decide (extra ≠ 0) then _ else _). clearbody types'.
  pose proof (shrink_zones_moves oc spill prio types' moved a Hwf Hcfg Hprio Hoc) as Hs.
  destruct (shrink_zones _ _ _ _ _ _ _) as [a1 moved1].
  destruct (move_steps_wf a a1 Hwf) as [Hwf1 Hf1]; [by eapply moves_counted_rtc|].
  eapply round_ok_trans; [exact Hs|].
  pose proof (checkOvercommit_ok a1) as Hok.
  destruct (checkOvercommit a1 N) as [oc1 spill1] eqn:Hc. simpl in Hok.
  destruct oc1 as [|z oc1]; [split; [done|by rewrite Hc]|].
  apply IH; [done|by eapply frame_config|done].
Qed.

Lemma try_prios_ok prios a oc spill moved :
  wf_but ∅ a → config_ok a → (∀ p, p ∈ prios → p ≤ Preserved) → oc_ok oc →
  round_ok a moved (try_prios custom N prios a oc spill moved).
Proof.
  revert a oc spill moved. induction prios as [|prio prios IH]; intros a oc spill moved Hwf Hcfg Hp Hoc;
    [by split; [left|]|].
  cbn [try_prios].
  pose proof (try_types_ok prio expandTypes 0 a oc spill moved Hwf Hcfg) as Ht.
  destruct (try_types _ _ _ _ _ _ _ _ _) as [a1|a1 oc1 spill1 moved1];
    [apply Ht; [apply Hp; constructor|done]|].
  destruct Ht as [Hm Hoc1]; [apply Hp; constructor|done|].
  destruct (move_steps_wf a a1 Hwf) as [Hwf1 Hf1]; [by eapply moves_counted_rtc|].
  eapply round_ok_trans; [exact Hm|]. apply IH; [done|by eapply frame_config| |done].
  intros; apply Hp; by constructor.
Qed.
End moves.

(** ** Usage of a zone

    The usage of a zone, computed from the assignments: the limits of all
    requests whose zone fits into it. *)

Definition limit_of (a : Allocator) (id : string) : Z :=
  match a_requests a !! id with
  | Some p => r_limit (req a p)
  | None => 0
  end.

Definition usage_of (a : Allocator) (zone : Z) : Z :=
  msum (λ id m, if bool_decide (submask m zone) then limit_of a id else 0) (a_users a).

Section usage.
Context `{GoRuntime}.

Lemma zone_users_sum a (users : gmap string positive) acc :
  fold_left (λ usage kp, i64 (usage + r_limit (req a kp.2))) (map_range users) (i64 acc)
  = i64 (acc + msum (λ _ p, r_limit (req a p)) users).
Proof.
  rewrite (fold_i64_sum (λ kp : string * positive, r_limit (req a kp.2))).
  by rewrite <- (msum_list (λ _ p, r_limit (req a p)) _ _ (map_range_perm users)).
Qed.

Lemma zone_usage_loop a zone (zs : list (Z * Zone)) acc :
  fold_left (λ usage kz,
      if bool_decide (zone &&& kz.1 = kz.1)
      then fold_left (λ usage kp, i64 (usage + r_limit (req a kp.2))) (map_range (z_users kz.2)) usage
      else usage) zs (i64 acc)
  = i64 (acc + foldr (λ kz s, (if bool_decide (zone &&& kz.1 = kz.1)
                               then msum (λ _ p, r_limit (req a p)) (z_users kz.2) else 0) + s) 0 zs).
Proof.
  revert acc. induction zs as [|[m z] zs IH]; intros acc; simpl; [by rewrite Z.add_0_r|].
  case_bool_decide; [rewrite zone_users_sum|]; rewrite IH; f_equal; lia.
Qed.

(** The two nested loops of [zoneUsage] add up the reference sum. *)
Lemma zoneUsage_usage_of D a zone : wf_but D a → zoneUsage a zone = i64 (usage_of a zone).
Proof.
  intros Hwf. unfold zoneUsage.
  pose proof (zone_usage_loop a zone (map_range (a_zones a)) 0) as Hl.
  change (i64 0) with 0 in Hl. rewrite Hl. f_equal. rewrite Z.add_0_l.
  pose (f (m : Z) (z : Zone) := if bool_decide (zone &&& m = m)
      then msum (λ _ p, r_limit (req a p)) (z_users z) else 0).
  etrans; [apply (msum_list f _ _ (map_range_perm (a_zones a)))|].
  unfold usage_of.
  rewrite <- (msum_groups z_users
    (λ m id, if bool_decide (submask m zone) then limit_of a id else 0) (a_zones a) (a_users a)).
  - apply msum_ext. intros m z Hz. unfold f.
    assert (submask m zone ↔ zone &&& m = m) as Hiff by (unfold submask; by rewrite Z.land_comm).
    rewrite (bool_decide_ext _ _ Hiff).
    case_bool_decide; [|symmetry; by apply msum_zero].
    apply msum_ext. intros id p Hp. destruct (wf_zone_user _ _ Hwf _ _ _ _ Hz Hp) as (_ & Hr & _).
    unfold limit_of. by rewrite Hr.
  - intros id m. split.
    + intros (z & p & ? & ?)%(wf_user_zone _ _ Hwf). eauto.
    + intros (z & Hz & p & Hp). by destruct (wf_zone_user _ _ Hwf _ _ _ _ Hz Hp).
Qed.

Lemma zoneFree_usage_of D a zone :
  wf_but D a → zoneFree a zone = i64 (capacity_of a zone - usage_of a zone).
Proof.
  intros Hwf. unfold zoneFree. rewrite (zoneCapacity_capacity_of _ _ Hwf), (zoneUsage_usage_of _ _ _ Hwf).
  rewrite <- (Z.add_opp_r _ (i64 _)), (Z.add_comm (capacity_of a zone)).
  unfold i64. generalize (2 ^ 63) (2 ^ 64). intros h w.
  replace (- ((usage_of a zone + h) `mod` w - h) + capacity_of a zone + h)
    with ((capacity_of a zone + h + h) - (usage_of a zone + h) `mod` w) by lia.
  rewrite Zminus_mod_idemp_r. f_equal. f_equal. lia.
Qed.

Lemma frame_limit_of a a' id : frame a a' → limit_of a' id = limit_of a id.
Proof.
  intros Hf. unfold limit_of. rewrite (fr_requests _ _ Hf). case_match; [|done].
  apply (frame_fields _ _ _ Hf).
Qed.
End usage.

(** ** What moves do and do not change *)

Section moved.
Context (custom : CustomFunctions) (N : Z).

Lemma move_step_users a a' :
  wf_but ∅ a → move_step custom N a a' →
  ∃ id p from n t, a_requests a !! id = Some p ∧ a_users a !! id = Some from ∧
    a_users a' = <[id := from ||| n]> (a_users a) ∧
    (N = 0 ∨ from &&& N ≠ 0) ∧ n ≠ 0 ∧ n &&& from = 0 ∧ mask64 n ∧
    r_priority (req a p) ≤ Preserved ∧
    (ExpandZone custom = None → t = types_of a n ∧ submask n (mc_all (a_masks a))) ∧
    (r_strict (req a p) = true → r_types (req a p) = types_of a from ||| t).
Proof.
  intros Hwf [id p from n t Hr Hu HN Hn Hd H64 Hp He Hs]. exists id, p, from, n, t.
  rewrite (zoneMove_users _ Hwf id p from) by done. done.
Qed.

(** Every request keeps its nodes. *)
Lemma move_steps_grow a a' id m :
  wf_but ∅ a → rtc (move_step custom N) a a' → a_users a !! id = Some m →
  ∃ m', a_users a' !! id = Some m' ∧ submask m m'.
Proof.
  intros Hwf Hs. revert m. induction Hs as [a|a b c Hab Hbc IH]; intros m Hu; [by exists m|].
  destruct (move_step_wf _ _ _ _ Hwf Hab) as [Hwf' _].
  destruct (move_step_users _ _ Hwf Hab) as (id' & p & from & n & t & Hr & Hu' & Hus & _).
  destruct (decide (id' = id)) as [->|Hne].
  - assert (from = m) as -> by congruence.
    destruct (IH Hwf' (m ||| n)) as (m' & ? & ?); [by rewrite Hus, lookup_insert_eq|].
    exists m'. split; [done|]. trans (m ||| n); [apply submask_lor_l|done].
  - apply IH; [done|]. by rewrite Hus, lookup_insert_ne.
Qed.

(** Requests above the priority [Preserved] keep their zone. *)
Lemma move_steps_priority a a' id p :
  wf_but ∅ a → rtc (move_step custom N) a a' →
  a_requests a !! id = Some p → Preserved < r_priority (req a p) →
  a_users a' !! id = a_users a !! id.
Proof.
  intros Hwf Hs. induction Hs as [a|a b c Hab Hbc IH]; intros Hr Hp; [done|].
  destruct (move_step_wf _ _ _ _ Hwf Hab) as [Hwf' Hf].
  destruct (move_step_users _ _ Hwf Hab) as (id' & p' & from & n & t & Hr' & Hu' & Hus & Hrest).
  rewrite IH; [|done|by rewrite (fr_requests _ _ Hf)|].
  2: by destruct (frame_fields _ _ p Hf) as (_ & _ & _ & _ & ->).
  rewrite Hus, lookup_insert_ne; [done|]. intros ->. simplify_eq.
  destruct Hrest as (_ & _ & _ & _ & ? & _). lia.
Qed.

(** Requests of zones without a node of [N] keep their zone. *)
Lemma move_steps_disjoint a a' id m :
  wf_but ∅ a → rtc (move_step custom N) a a' → N ≠ 0 →
  a_users a !! id = Some m → m &&& N = 0 → a_users a' !! id = Some m.
Proof.
  intros Hwf Hs HN. induction Hs as [a|a b c Hab Hbc IH]; intros Hu Hm; [done|].
  destruct (move_step_wf _ _ _ _ Hwf Hab) as [Hwf' Hf].
  destruct (move_step_users _ _ Hwf Hab) as (id' & p' & from & n & t & Hr' & Hu' & Hus & HN' & _).
  apply IH; [done| |done]. rewrite Hus, lookup_insert_ne; [done|]. intros ->. simplify_eq.
  by destruct HN'.
Qed.

(** Strict requests whose zone has exactly the types they asked for stay that
    way under the default expansion. *)
Lemma move_steps_strict a a' id p m :
  wf_but ∅ a → config_ok a → rtc (move_step custom N) a a' → ExpandZone custom = None →
  a_requests a !! id = Some p → r_strict (req a p) = true →
  a_users a !! id = Some m → types_of a m = r_types (req a p) →
  ∃ m', a_users a' !! id = Some m' ∧ types_of a m' = r_types (req a p).
Proof.
  intros Hwf Hcfg Hs He. revert m. induction Hs as [a|a b c Hab Hbc IH]; intros m Hr Hst Hu Ht; [eauto|].
  destruct (move_step_wf _ _ _ _ Hwf Hab) as [Hwf' Hf].
  destruct (move_step_users _ _ Hwf Hab)
    as (id' & p' & from & n & t & Hr' & Hu' & Hus & _ & _ & _ & _ & _ & Hexp & Hstrict).
  destruct (frame_fields _ _ p Hf) as (_ & _ & Hty & Hst' & _).
  rewrite <- Hty. setoid_rewrite <- (frame_types_of _ _ _ Hf).
  rewrite <- (fr_requests _ _ Hf) in Hr. rewrite <- Hst' in Hst.
  pose proof (frame_config _ _ Hf Hcfg) as Hcfg'.
  destruct (decide (id' = id)) as [->|Hne].
  - apply (IH Hwf' Hcfg' (from ||| n)); [done|done|by rewrite Hus, lookup_insert_eq|].
    rewrite (frame_types_of _ _ _ Hf), Hty. rewrite (fr_requests _ _ Hf) in Hr. simplify_eq.
    rewrite Hstrict by congruence. destruct (Hexp He) as [-> _]. by apply types_of_lor.
  - apply (IH Hwf' Hcfg' m); [done|done|by rewrite Hus, lookup_insert_ne|].
    by rewrite (frame_types_of _ _ _ Hf), Hty.
Qed.

(** The usage of a zone without a node of [N] does not change. *)
Lemma move_steps_usage a a' m :
  wf_but ∅ a → rtc (move_step custom N) a a' → N ≠ 0 → m &&& N = 0 →
  usage_of a' m = usage_of a m.
Proof.
  intros Hwf Hs HN Hm. induction Hs as [a|a b c Hab Hbc IH]; [done|].
  destruct (move_step_wf _ _ _ _ Hwf Hab) as [Hwf' Hf].
  destruct (move_step_users _ _ Hwf Hab) as (id' & p' & from & n & t & Hr' & Hu' & Hus & HN' & _).
  rewrite IH by done. unfold usage_of. rewrite Hus. apply msum_contrib. intros id.
  destruct (decide (id = id')) as [->|Hne].
  - rewrite lookup_insert_eq, Hu'. simpl. destruct HN' as [|HN']; [done|].
    assert (¬ submask from m) as Hsub.
    { intros Hsub. by apply (mask_overlap_mono from m N) in HN'. }
    rewrite (bool_decide_eq_false_2 (submask from m)) by done.
    rewrite bool_decide_eq_false_2; [done|]. intros Hsub2. apply Hsub.
    trans (from ||| n); [apply submask_lor_l|done].
  - rewrite lookup_insert_ne by done. destruct (a_users a !! id); [|done]. simpl.
    by rewrite (frame_limit_of _ _ _ Hf).
Qed.

(** ** Termination *)

(** Nodes that the requests do not have yet. *)
Definition room (a : Allocator) : Z := msum (λ _ m, 64 - Z.of_nat (popcount m)) (a_users a).

Lemma room_bounds D a : wf_but D a → 0 ≤ room a ≤ 64 * Z.of_nat (size (a_requests a)).
Proof.
  intros Hwf.
  assert (0 ≤ room a ≤ 64 * Z.of_nat (size (a_users a))) as Hb.
  { apply msum_bounds. intros id m _. pose proof (popcount_le_64 m). lia. }
  assert (size (a_users a) ≤ size (a_requests a))%nat; [|lia].
  rewrite <- !size_dom. apply subseteq_size. intros id [m Hu]%elem_of_dom.
  destruct (wf_user _ _ Hwf id m Hu) as (_ & p & _ & _ & Hr & _).
  apply elem_of_dom. eauto.
Qed.

Lemma move_step_room a a' : wf_but ∅ a → move_step custom N a a' → room a' < room a.
Proof.
  intros Hwf Hs.
  destruct (move_step_users _ _ Hwf Hs)
    as (id & p & from & n & t & _ & Hu & Hus & _ & Hn & Hd & H64 & _).
  unfold room. rewrite Hus, <- insert_delete_eq.
  rewrite msum_insert by apply lookup_delete_eq. rewrite (msum_delete _ _ id from Hu).
  rewrite Z.land_comm in Hd. pose proof (popcount_grow from n H64 Hn Hd). lia.
Qed.

Lemma moves_room a a' : wf_but ∅ a → tc (move_step custom N) a a' → room a' < room a.
Proof.
  intros Hwf Hs. induction Hs as [a b Hab|a b c Hab Hbc IH]; [by apply move_step_room|].
  pose proof (move_step_room _ _ Hwf Hab). destruct (move_step_wf _ _ _ _ Hwf Hab) as [Hwf' _].
  specialize (IH Hwf'). lia.
Qed.

Context `{GoRuntime}.

(** With more rounds than there is room the loop ends by itself: nothing is
    overcommitted any more, or nothing could be moved. *)
Lemma overcommit_loop_spec rounds a oc spill :
  wf_but ∅ a → config_ok a → oc_ok N oc → room a < Z.of_nat rounds →
  ∃ a' e, overcommit_loop custom rounds N a oc spill = (a', e) ∧
    rtc (move_step custom N) a a' ∧
    (e = None ∧ (checkOvercommit a' N).1 = [] ∨ e = Some ErrNoMem).
Proof.
  revert a oc spill. induction rounds as [|rounds IH]; intros a oc spill Hwf Hcfg Hoc Hroom.
  { pose proof (room_bounds _ _ Hwf). lia. }
  cbn [overcommit_loop].
  assert (∀ p, p ∈ allowedPrios → p ≤ Preserved) as Hprios.
  { unfold allowedPrios. intros p. rewrite !elem_of_cons, elem_of_nil.
    intros [->|[->|[->|[]]]]; done. }
  pose proof (try_prios_ok custom N allowedPrios a oc spill 0 Hwf Hcfg Hprios Hoc) as Hok.
  destruct (try_prios _ _ _ _ _ _ _) as [a1|a1 oc1 spill1 moved1]; [naive_solver|].
  destruct Hok as [Hm Hoc1]. pose proof (moves_counted_rtc _ _ _ _ _ _ Hm) as Hs.
  destruct (move_steps_wf _ _ a a1 Hwf Hs) as [Hwf1 Hf1].
  case_bool_decide as Hz; [naive_solver|].
  destruct Hm as [[-> Hm]|Hm]; [by destruct Hz; apply Hm|].
  pose proof (moves_room _ _ Hwf Hm).
  destruct (IH a1 oc1 spill1) as (a' & e & -> & Hs' & He); [done|by eapply frame_config|done|lia|].
  exists a', e. split; [done|]. split; [by etrans|done].
Qed.

Lemma defaultHandleOvercommit_spec a oc spill :
  wf_but ∅ a → config_ok a → oc_ok N oc →
  ∃ a' e, defaultHandleOvercommit custom a N oc spill = (a', e) ∧
    rtc (move_step custom N) a a' ∧
    (e = None ∧ (checkOvercommit a' N).1 = [] ∨ e = Some ErrNoMem).
Proof.
  intros Hwf Hcfg Hoc. apply overcommit_loop_spec; try done.
  pose proof (room_bounds _ _ Hwf). unfold overcommit_rounds. lia.
Qed.

(** [handleOvercommit] with the default handler. *)
Lemma handleOvercommit_default a :
  wf_but ∅ a → config_ok a → HandleOvercommit custom = None →
  ∃ a' e, handleOvercommit custom a N = (a', e) ∧ rtc (move_step custom N) a a' ∧
    (e = None ∧ (checkOvercommit a' N).1 = [] ∨ e = Some ErrNoMem).
Proof.
  intros Hwf Hcfg Hc. unfold handleOvercommit. pose proof (checkOvercommit_ok N a) as Hok.
  destruct (checkOvercommit a N) as [oc spill] eqn:Heq. destruct oc as [|z oc].
  - exists a, None. split_and!; [done..|]. left. by rewrite Heq.
  - rewrite Hc. by apply defaultHandleOvercommit_spec.
Qed.

(** Whatever handler there is, only moves happen. *)
Lemma handleOvercommit_moves `{CustomOk custom} a :
  wf_but ∅ a → config_ok a → rtc request_move a (handleOvercommit custom a N).1.
Proof.
  intros Hwf Hcfg. destruct (HandleOvercommit custom) as [f|] eqn:Hc.
  - unfold handleOvercommit. rewrite Hc. destruct (checkOvercommit a N) as [[|z oc] spill]; [done|].
    by apply (custom_moves f spill a).
  - destruct (handleOvercommit_default a Hwf Hcfg Hc) as (a' & e & -> & Hs & _).
    by eapply move_steps_request_moves.
Qed.

(** Nothing overcommitted: all zones that share nodes with [N] have room. *)
Lemma checkOvercommit_nil a :
  (checkOvercommit a N).1 = [] ↔
  ∀ m z, a_zones a !! m = Some z → N = 0 ∨ m &&& N ≠ 0 → 0 ≤ zoneFree a m.
Proof.
  unfold checkOvercommit. cbn [fst]. split.
  - intros Hnil m z Hz HN. destruct (decide (0 ≤ zoneFree a m)) as [|Hneg]; [done|]. exfalso.
    enough (m ∈ ([] : list Z)) by set_solver. rewrite <- Hnil, elem_of_sort_func, list_elem_of_filter.
    split; [rewrite andb_true_iff, !bool_decide_eq_true; split; [done|lia]|].
    apply list_elem_of_fmap. exists (m, z). by rewrite elem_of_map_range.
  - intros Hall. apply elem_of_nil_inv. intros m.
    rewrite elem_of_sort_func, list_elem_of_filter, andb_true_iff, !bool_decide_eq_true.
    intros [[HN Hfree] ([m' z] & -> & Hz%elem_of_map_range)%list_elem_of_fmap].
    specialize (Hall _ _ Hz HN). simpl in *. lia.
Qed.
End moved.
