(* ===== verification/MemAlloc.v ===== *)
(** * Choosing the initial zone of a request

    What the steps of [allocate] before the first change of assignment do:
    they only touch the request itself, they end, and on success the request
    has a zone with normal memory, of exactly the requested types if the
    request is strict. *)

From S2P Require Import Prelude GoStrings MemTypes MemNodes MemRequest MemZones MemAllocator MemState MemExpand MemOvercommit.

(** ** Changes of a single request *)

(** [a'] is [a] with other types and another zone for the request [p]. *)
Definition req_only (p : positive) (a a' : Allocator) : Prop :=
  ∃ T z, a' = upd_req p (λ r, set_types T (set_zone z r)) a.

Lemma deref_insert h p r : deref (<[p := r]> h) p = r.
Proof. unfold deref. by rewrite lookup_insert_eq. Qed.

Lemma req_upd_req p f a : req (upd_req p f a) p = f (req a p).
Proof. unfold req, upd_req, with_heap. cbn [a_heap]. by rewrite deref_insert. Qed.

Lemma upd_req_upd_req p f g a : upd_req p g (upd_req p f a) = upd_req p (λ r, g (f r)) a.
Proof.
  unfold upd_req, with_heap. cbn. f_equal. by rewrite deref_insert, insert_insert_eq.
Qed.

Lemma set_types_zone_id r : set_types (r_types r) (set_zone (r_zone r) r) = r.
Proof. by destruct r. Qed.

Lemma req_only_refl p a r : a_heap a !! p = Some r → req_only p a a.
Proof.
  intros Hp. exists (r_types r), (r_zone r). unfold upd_req, with_heap, deref. rewrite Hp. cbn.
  rewrite set_types_zone_id, insert_id by done. by destruct a.
Qed.

Lemma req_only_trans p a b c : req_only p a b → req_only p b c → req_only p a c.
Proof.
  intros (T & z & ->) (T' & z' & ->). exists T', z'. by rewrite upd_req_upd_req.
Qed.

Lemma req_only_types p T a : req_only p a (upd_req p (set_types T) a).
Proof.
  exists T, (r_zone (req a p)). unfold upd_req, req. by destruct (deref (a_heap a) p).
Qed.

Lemma req_only_zone p z a : req_only p a (upd_req p (set_zone z) a).
Proof.
  exists (r_types (req a p)), z. unfold upd_req, req. by destruct (deref (a_heap a) p).
Qed.

Lemma req_only_wf D p a a' :
  wf_but D a → (∀ id, a_requests a !! id ≠ Some p) → req_only p a a' → wf_but D a'.
Proof.
  intros Hwf Hnot (T & z & ->). split; cbn [a_requests a_users a_zones a_heap upd_req with_heap].
  - intros id q Hq. rewrite lookup_insert_ne by congruence. by apply (wf_req _ _ Hwf).
  - apply (wf_user_zone _ _ Hwf).
  - intros m z' id q Hz Hq. destruct (wf_zone_user _ _ Hwf _ _ _ _ Hz Hq) as (? & ? & Hzone).
    split_and!; [done..|]. unfold req, deref. cbn. rewrite lookup_insert_ne by congruence. done.
  - apply (wf_zone_info _ _ Hwf).
  - apply (wf_attached _ _ Hwf).
  - apply (wf_detached _ _ Hwf).
  - apply (wf_nonzero _ _ Hwf).
Qed.

Lemma req_only_alloc_eq p a a' :
  (∀ id, a_requests a !! id ≠ Some p) → req_only p a a' → alloc_eq a a'.
Proof.
  intros Hnot (T & z & ->). split; try done. intros id q Hq. cbn.
  rewrite lookup_insert_ne; [done|]. intros ->. by apply (Hnot id).
Qed.

Lemma req_only_config p a a' : config_ok a → req_only p a a' → config_ok a'.
Proof. intros [Hn Hc] (T & z & ->). by split. Qed.

Lemma req_only_lookup p a a' : req_only p a a' → a_heap a' !! p = Some (req a' p).
Proof.
  intros (T & z & ->). unfold req, deref. cbn. by rewrite lookup_insert_eq.
Qed.

(** ** Types and masks *)

Section config.
Context (a : Allocator) (Hcfg : config_ok a).

Lemma known_types_range T : submask T TypeMaskAll → T ≠ 0 → 0 < T < 8.
Proof.
  unfold submask. change TypeMaskAll with (Z.ones 3). rewrite Z.land_ones by done. intros <-.
  pose proof (Z.mod_pos_bound T (2 ^ 3)). lia.
Qed.

Lemma cfg_types_known : submask (mc_types (a_masks a)) TypeMaskAll.
Proof.
  apply submask_spec. intros t Ht. destruct (cfg_cache _ Hcfg) as (ns & Hns & Hc).
  intros (n & Hn%Hns & <- & _)%(ok_types _ _ Hc); [|done].
  destruct (cfg_node _ Hcfg _ _ Hn) as [_ (_ & [->|[->| ->]] & _)]; done.
Qed.

Lemma types_of_nonzero zone : zone ≠ 0 → submask zone (mc_all (a_masks a)) → types_of a zone ≠ 0.
Proof.
  rewrite !mask_nonzero, submask_spec. intros (i & Hi & Hz) Hall.
  destruct (proj1 (cfg_all a Hcfg i Hi) (Hall i Hi Hz)) as [n Hn].
  exists (memType n). assert (0 ≤ memType n) as Ht.
  { destruct (cfg_node _ Hcfg _ _ Hn) as [_ (_ & [->|[->| ->]] & _)]; done. }
  split; [done|]. apply types_of_bit; eauto 10.
Qed.

Lemma types_of_byTypes zone T :
  0 < T < 8 → submask (types_of a (zone &&& mask_at (mc_byTypes (a_masks a)) T)) T.
Proof.
  intros HT. apply submask_spec. intros t Ht.
  rewrite types_of_bit by done. intros (i & n & Hi & Hb & Hn & <-).
  rewrite Z.land_spec in Hb. apply andb_true_iff in Hb as [_ Hb].
  apply (cfg_byTypes a Hcfg) in Hb as (n' & Hn' & _ & ?); [|done..]. by simplify_eq.
Qed.

Lemma ldiff_zero_submask x y : x &^ y = 0 → submask x y.
Proof. intros. bits_solver. Qed.

Lemma submask_antisym x y : submask x y → submask y x → x = y.
Proof. intros. bits_solver. Qed.
End config.

(** ** The steps *)

Section steps.
Context `{GoRuntime} (custom : CustomFunctions).

Lemma validateRequest_spec a p :
  wf a →
  match validateRequest p a with
  | (a', Some e) => a' = a ∧ e ≠ OutOfFuel
  | (a', None) =>
      a_requests a !! r_id (req a p) = None ∧
      r_affinity (req a p) ≠ 0 ∧ submask (r_affinity (req a p)) (mc_all (a_masks a)) ∧
      ∃ T, a' = upd_req p (set_types T) a ∧ 0 < T < 8 ∧
        (r_strict (req a p) = true → r_types (req a p) ≠ 0 → T = r_types (req a p))
  end.
Proof.
  intros [Hwf Hcfg _]. unfold validateRequest.
  destruct (a_requests a !! r_id (req a p)) eqn:Hnew; [done|].
  destruct (bool_decide_reflect (r_affinity (req a p) &&& mc_all (a_masks a) ≠ r_affinity (req a p)))
    as [|Haff%dec_stable]; [done|].
  destruct (bool_decide (r_types (req a p) &&& mc_types (a_masks a) ≠ r_types (req a p)) &&
    r_strict (req a p)) eqn:Hty; [done|].
  destruct (bool_decide_reflect (r_affinity (req a p) = 0)) as [|Hz]; [done|].
  split_and!; [done..|]. eexists. split; [done|].
  assert (submask (r_types (req a p) &&& mc_types (a_masks a)) TypeMaskAll) as Hknown.
  { trans (mc_types (a_masks a)); [apply submask_land_r|by apply cfg_types_known]. }
  destruct (bool_decide_reflect (r_types (req a p) &&& mc_types (a_masks a) = 0)) as [Hty0|Hty0].
  - split.
    + rewrite (zoneType_types_of _ _ Hwf). apply known_types_range.
      * by apply types_of_known.
      * by apply types_of_nonzero.
    + intros Hs Hnz. rewrite Hs, andb_true_r in Hty. apply bool_decide_eq_false in Hty.
      apply dec_stable in Hty. congruence.
  - split; [by apply known_types_range|].
    intros Hs _. rewrite Hs, andb_true_r in Hty. apply bool_decide_eq_false in Hty.
    by apply dec_stable in Hty.
Qed.

Lemma findInitialZone_spec a p :
  wf a → 0 < r_types (req a p) < 8 → r_affinity (req a p) ≠ 0 →
  submask (r_affinity (req a p)) (mc_all (a_masks a)) →
  match findInitialZone custom p a with
  | (a', Some e) => a' = a ∧ e ≠ OutOfFuel
  | (a', None) =>
      ∃ z, a' = upd_req p (set_zone z) a ∧ z ≠ 0 ∧ mask64 z ∧
        (ExpandZone custom = None → submask z (mc_all (a_masks a))) ∧
        (r_strict (req a p) = true → types_of a z = r_types (req a p))
  end.
Proof.
  intros [Hwf Hcfg _] HT Haff Hall. unfold findInitialZone.
  replace (r_affinity (req a p) &&& mc_all (a_masks a)) with (r_affinity (req a p)) by done.
  set (zone := (if bool_decide _ then _ ||| _ else _)).
  assert (zone ≠ 0 ∧ mask64 zone ∧ (ExpandZone custom = None → submask zone (mc_all (a_masks a))))
    as (Hz & H64 & Hdef).
  { assert (mask64 (r_affinity (req a p))).
    { eapply mask64_submask; [done|by apply cfg_all_mask64]. }
    unfold zone. clear zone. case_bool_decide; [|done].
    destruct (expand custom a _ _) as [n t] eqn:He.
    destruct (expand_disjoint a Hcfg _ _ _ _ _ He) as [_ ?]. cbn [fst]. split_and!.
    - intros [? _]%Z.lor_eq_0_iff. done.
    - by apply mask64_lor.
    - intros Hc. destruct (expand_default_types a Hcfg _ _ _ _ _ Hc He) as (_ & _ & ?).
      by apply submask_lor. }
  clearbody zone.
  assert (∀ m, mask64 (zone &&& m) ∧
    (ExpandZone custom = None → submask (zone &&& m) (mc_all (a_masks a)))) as Hsub.
  { intros m. split; [eapply mask64_submask; [apply submask_land_l|done]|].
    intros. trans zone; [apply submask_land_l|auto]. }
  destruct (r_strict (req a p)) eqn:Hs.
  - case_bool_decide as Hmiss; [done|].
    rewrite (zoneType_types_of _ _ Hwf) in Hmiss. apply ldiff_zero_submask in Hmiss.
    eexists. split; [done|].
    assert (types_of a (zone &&& mask_at (mc_byTypes (a_masks a)) (r_types (req a p)))
      = r_types (req a p)) as Ht.
    { apply submask_antisym; [by apply types_of_byTypes|done]. }
    split_and!; [|apply Hsub..|done].
    intros Heq. rewrite Heq, types_of_zero in Ht. lia.
  - eexists. split; [done|]. case_bool_decide as Hpref.
    + split_and!; [done|apply Hsub..|done].
    + by split_and!.
Qed.

Lemma ensure_normal_loop_spec rounds p zone types a :
  config_ok a → (64 < rounds + popcount zone)%nat →
  match ensure_normal_loop custom rounds p zone types a with
  | (a', Some e) => a' = a ∧ e ≠ OutOfFuel
  | (a', None) =>
      ∃ z, a' = upd_req p (λ r, set_types (r_types r ||| types) (set_zone z r)) a ∧
        submask zone z ∧ z &&& mc_normal (a_masks a) ≠ 0 ∧ (mask64 zone → mask64 z) ∧
        (ExpandZone custom = None →
          (submask zone (mc_all (a_masks a)) → submask z (mc_all (a_masks a))) ∧
          submask (types_of a z) (types_of a zone ||| types))
  end.
Proof.
  intros Hcfg. revert zone. induction rounds as [|rounds IH]; intros zone Hr.
  { pose proof (popcount_le_64 zone). lia. }
  cbn [ensure_normal_loop]. destruct (expand custom a zone types) as [n t] eqn:He. cbn [fst].
  case_bool_decide as Hn; [done|].
  destruct (expand_disjoint a Hcfg _ _ _ _ _ He) as [Hd H64].
  assert (ExpandZone custom = None → submask n (mc_all (a_masks a)) ∧
    submask (types_of a (zone ||| n)) (types_of a zone ||| types)) as Hdef.
  { intros Hc. destruct (expand_default_types a Hcfg _ _ _ _ _ Hc He) as (-> & ? & ?).
    split; [done|]. rewrite types_of_lor by done. apply submask_lor; [apply submask_lor_l|].
    trans types; [done|apply submask_lor_r]. }
  case_bool_decide as Hnorm.
  - exists (zone ||| n). split_and!; [done|apply submask_lor_l|done|auto with masks|].
    intros Hc. destruct (Hdef Hc). split; [auto with masks|done].
  - rewrite Z.land_comm in Hd. pose proof (popcount_grow zone n H64 Hn Hd).
    specialize (IH (zone ||| n)). destruct (ensure_normal_loop _ _ _ _ _ _) as [a' [e|]]; [apply IH; lia|].
    destruct IH as (z & -> & Hsub & Hnorm' & H64' & Hdef'); [lia|].
    exists z. split_and!; [done| |done|auto with masks|].
    + trans (zone ||| n); [apply submask_lor_l|done].
    + intros Hc. destruct (Hdef Hc), (Hdef' Hc) as [? Hty]. split; [auto with masks|].
      etrans; [exact Hty|]. apply submask_lor; [done|apply submask_lor_r].
Qed.

Lemma ensureNormalMemory_spec a p r :
  wf a → a_heap a !! p = Some r →
  match ensureNormalMemory custom p a with
  | (a', Some e) => a' = a ∧ e ≠ OutOfFuel
  | (a', None) =>
      ∃ T z, a' = upd_req p (λ r, set_types T (set_zone z r)) a ∧
        submask (r_zone r) z ∧ z &&& mc_normal (a_masks a) ≠ 0 ∧ (mask64 (r_zone r) → mask64 z) ∧
        (ExpandZone custom = None →
          submask (r_zone r) (mc_all (a_masks a)) → submask z (mc_all (a_masks a))) ∧
        (r_strict r = true → T = r_types r ∧
          (ExpandZone custom = None → types_of a (r_zone r) = r_types r → types_of a z = r_types r))
  end.
Proof.
  intros [Hwf Hcfg _] Hp. unfold ensureNormalMemory. rewrite (req_lookup _ _ _ Hp).
  case_bool_decide as Hnorm.
  { exists (r_types r), (r_zone r). split_and!; try done.
    unfold upd_req, with_heap, deref. rewrite Hp. cbn.
    rewrite set_types_zone_id, insert_id by done. by destruct a. }
  set (normal := zoneType a _). clearbody normal.
  destruct (bool_decide (r_types r &&& normal = 0) && r_strict r) eqn:Hst; [done|].
  set (types := if bool_decide (r_types r &&& normal = 0) then _ else _).
  assert (r_strict r = true → types = r_types r &&& normal) as Hty.
  { intros Hs. unfold types. rewrite Hs, andb_true_r in Hst. by rewrite Hst. }
  clearbody types. destruct (bool_decide_reflect (types = 0)); [done|].
  pose proof (ensure_normal_loop_spec 65 p (r_zone r) types a Hcfg) as Hl.
  destruct (ensure_normal_loop _ _ _ _ _ _) as [a' [e|]]; [apply Hl; lia|].
  destruct Hl as (z & -> & Hsub & Hnorm' & H64 & Hdef); [lia|].
  exists (r_types r ||| types), z. split_and!; try done.
  - unfold upd_req, with_heap, deref. by rewrite Hp.
  - intros Hc. by apply Hdef.
  - intros Hs. rewrite (Hty Hs) in *.
    assert (r_types r ||| (r_types r &&& normal) = r_types r) as -> by bits_solver.
    split; [done|]. intros Hc Heq. destruct (Hdef Hc) as [_ Hsubt]. rewrite Heq in Hsubt.
    apply submask_antisym.
    + etrans; [exact Hsubt|]. bits_solver.
    + rewrite <- Heq. by apply types_of_mono.
Qed.
End steps.

(** * Allocation and offers

    [allocate] either leaves the assignments as they were or registers the
    request and then only moves requests; reverting its journal undoes it. *)

(** ** Well-formedness of related states *)

Lemma wf_but_same D a a' :
  wf_but D a →
  a_requests a' = a_requests a → a_users a' = a_users a → a_zones a' = a_zones a →
  a_heap a' = a_heap a → a_nodes a' = a_nodes a → a_masks a' = a_masks a → wf_but D a'.
Proof.
  intros Hwf Hr Hu Hz Hh Hn Hm.
  split; rewrite ?Hr, ?Hu, ?Hz, ?Hh; unfold types_of, capacity_of, node_types, node_capacity, req;
    rewrite ?Hn, ?Hm, ?Hh;
    [apply (wf_req _ _ Hwf)|apply (wf_user_zone _ _ Hwf)|apply (wf_zone_user _ _ Hwf)
    |apply (wf_zone_info _ _ Hwf)|apply (wf_attached _ _ Hwf)|apply (wf_detached _ _ Hwf)
    |apply (wf_nonzero _ _ Hwf)].
Qed.

Lemma wf_but_empty D a :
  wf_but D a → (∀ id, is_Some (a_requests a !! id) → is_Some (a_users a !! id)) → wf_but ∅ a.
Proof.
  intros [] Hatt. split; try done. intros id p Hp _. apply Hatt. eauto.
Qed.

(** Register a request that has no zone yet. *)
Lemma wf_insert_request D a id p r :
  wf_but D a → a_requests a !! id = None → a_heap a !! p = Some r → r_id r = id →
  wf_but ({[id]} ∪ D) (with_requests (<[id := p]> (a_requests a)) a).
Proof.
  intros Hwf Hnew Hp Hid.
  assert (a_users a !! id = None) as Hnu.
  { destruct (a_users a !! id) as [m|] eqn:Hu; [|done].
    destruct (wf_user _ _ Hwf id m Hu) as (_ & q & _ & _ & Hq & _). congruence. }
  split; cbn [a_requests with_requests a_users a_zones a_heap].
  - intros id' q. rewrite lookup_insert. case_decide; [|by apply (wf_req _ _ Hwf)].
    intros [= <-]. subst. eauto.
  - apply (wf_user_zone _ _ Hwf).
  - intros m z id' q Hz Hq. destruct (wf_zone_user _ _ Hwf _ _ _ _ Hz Hq) as (Hu & ? & ?).
    rewrite lookup_insert_ne by congruence. done.
  - apply (wf_zone_info _ _ Hwf).
  - intros id' q. rewrite lookup_insert. case_decide; [set_solver|].
    intros ? ?. apply (wf_attached _ _ Hwf id' q); [done|set_solver].
  - intros id' [->%elem_of_singleton|?]%elem_of_union; [done|by apply (wf_detached _ _ Hwf)].
  - apply (wf_nonzero _ _ Hwf).
Qed.

(** Dropping the zones without users. *)
Lemma cleanup_lookup a m z :
  a_zones (cleanupUnusedZones a) !! m = Some z ↔ a_zones a !! m = Some z ∧ z_users z ≠ ∅.
Proof. cbn. rewrite map_lookup_filter_Some. cbn. by rewrite map_size_empty_iff. Qed.

Lemma cleanupUnusedZones_wf D a : wf_but D a → wf_but D (cleanupUnusedZones a).
Proof.
  intros Hwf. split; try apply Hwf.
  - intros id m (z & p & Hz & Hp)%(wf_user_zone _ _ Hwf). exists z, p. split; [|done].
    apply cleanup_lookup. split; [done|]. intros He. by rewrite He, lookup_empty in Hp.
  - intros m z id p [Hz _]%cleanup_lookup Hp. by apply (wf_zone_user _ _ Hwf m z id p).
  - intros m z [Hz _]%cleanup_lookup. by apply (wf_zone_info _ _ Hwf).
Qed.

Lemma cleanupUnusedZones_eq a : alloc_eq a (cleanupUnusedZones a).
Proof. by split. Qed.

Lemma wf_cleanup a : wf a → wf (cleanupUnusedZones a).
Proof.
  intros [Hwf [] ?]. split; [by apply cleanupUnusedZones_wf|by split|done].
Qed.

(** ** The states of an allocation *)

Section alloc.
Context `{GoRuntime} (custom : CustomFunctions).

(** The request [p] of [a] is validated and has its initial zone in [a1]. *)
Record prepared (p : positive) (a a1 : Allocator) : Prop := {
  pr_only : req_only p a a1;
  pr_new : a_requests a !! r_id (req a p) = None;
  pr_nonzero : r_zone (req a1 p) ≠ 0;
  pr_mask64 : mask64 (r_zone (req a1 p));
  pr_normal : r_zone (req a1 p) &&& mc_normal (a_masks a) ≠ 0;
  pr_all : ExpandZone custom = None → submask (r_zone (req a1 p)) (mc_all (a_masks a));
  pr_types : r_strict (req a p) = true → r_types (req a p) ≠ 0 →
    r_types (req a1 p) = r_types (req a p);
  pr_strict : r_strict (req a p) = true → ExpandZone custom = None →
    types_of a (r_zone (req a1 p)) = r_types (req a1 p);
}.

(** The request is registered and assigned to that zone. *)
Definition registered (p : positive) (a : Allocator) : Allocator :=
  let a := with_journal (Some (MkJournal ∅ ∅)) a in
  let a := with_requests (<[r_id (req a p) := p]> (a_requests a)) a in
  zoneAssign (r_zone (req a p)) p a.

Lemma new_unregistered D a p :
  wf_but D a → a_requests a !! r_id (req a p) = None → ∀ id, a_requests a !! id ≠ Some p.
Proof. intros Hwf Hnew id Hid. rewrite (wf_req_id _ _ Hwf id p Hid) in Hnew. congruence. Qed.

Lemma wf_req_only p a a' :
  wf a → (∀ id, a_requests a !! id ≠ Some p) → req_only p a a' → wf a'.
Proof.
  intros [Hwf Hcfg Hj] Hnot Ho. split; [by eapply req_only_wf|by eapply req_only_config|].
  by destruct Ho as (T & z & ->).
Qed.

(** A failure before anything is assigned. *)
Definition only_request (p : positive) (a a' : Allocator) : Prop :=
  a' = a ∨ (∀ id, a_requests a !! id ≠ Some p) ∧ req_only p a a'.

Lemma allocate_cases a p r :
  wf a → a_heap a !! p = Some r →
  (∃ a' e, allocate custom p a = (a', Some e) ∧ only_request p a a' ∧ e ≠ OutOfFuel) ∨
  (∃ a1, prepared p a a1 ∧
    allocate custom p a
    = match handleOvercommit custom (registered p a1) (r_zone (req a1 p)) with
      | (a', None) => (a', None)
      | (a', Some e) => ((revertJournal (Some p) a').1, Some e)
      end).
Proof.
  intros Hwf Hp. unfold allocate.
  pose proof (validateRequest_spec a p Hwf) as Hv.
  destruct (validateRequest p a) as [a0 [e|]].
  { left. destruct Hv as [-> ?]. unfold only_request. eauto 10. }
  destruct Hv as (Hnew & Haff & Hall & T & -> & HT & HTs).
  pose proof (new_unregistered _ _ _ (wf_all _ Hwf) Hnew) as Hnot.
  pose proof (req_only_types p T a) as Ho1. set (a1 := upd_req p (set_types T) a) in *.
  assert (req a1 p = set_types T r) as Hr1.
  { unfold a1. by rewrite req_upd_req, (req_lookup _ _ _ Hp). }
  rewrite (req_lookup _ _ _ Hp) in *. pose proof (wf_req_only _ _ _ Hwf Hnot Ho1) as Hwf1.
  pose proof (findInitialZone_spec custom a1 p Hwf1) as Hf. rewrite Hr1 in Hf.
  destruct (findInitialZone custom p a1) as [a2 [e|]].
  { left. destruct Hf as [-> ?]; [done..|]. unfold only_request. eauto 10. }
  destruct Hf as (z & Ha2 & Hz & Hz64 & Hzall & Hzs); [done..|].
  assert (req_only p a a2) as Ho2 by (subst a2; eapply req_only_trans, req_only_zone; done).
  pose proof (wf_req_only _ _ _ Hwf Hnot Ho2) as Hwf2.
  pose proof (ensureNormalMemory_spec custom a2 p (set_zone z (set_types T r)) Hwf2) as He.
  assert (a_heap a2 !! p = Some (set_zone z (set_types T r))) as Hp2.
  { rewrite (req_only_lookup _ _ _ Ho2). subst a2. by rewrite req_upd_req, Hr1. }
  destruct (ensureNormalMemory custom p a2) as [a3 [e|]].
  { left. destruct (He Hp2) as [-> ?]. unfold only_request. eauto 10. }
  destruct (He Hp2) as (T' & z' & Ha3 & Hsub & Hnorm & H64 & Hdef & Hs). clear He.
  assert (req_only p a a3) as Ho3 by (eapply req_only_trans; [done|]; subst a3; by eexists _, _).
  assert (req a3 p = set_types T' (set_zone z' (set_zone z (set_types T r)))) as Hr3.
  { subst a3. by rewrite req_upd_req, (req_lookup _ _ _ Hp2). }
  pose proof (wf_req_only _ _ _ Hwf Hnot Ho3) as Hwf3.
  right. exists a3. split.
  - split; rewrite ?(req_lookup _ _ _ Hp), ?Hr3; try done; subst a2; cbn in *.
    + intros ->. apply Hz. unfold submask in Hsub. by rewrite Z.land_0_r in Hsub.
    + auto.
    + auto.
    + auto.
    + intros Hst Ht. rewrite (proj1 (Hs Hst)). auto.
    + intros Hst Hc. destruct (Hs Hst) as [-> Hs']. apply (Hs' Hc). by apply Hzs.
  - unfold startJournal. rewrite (wf_idle _ Hwf3).
    change (handleOvercommit custom _ (r_zone (req a3 p))) with
      (handleOvercommit custom (registered p a3) (r_zone (req a3 p))).
    assert (r_zone (req (registered p a3) p) = r_zone (req a3 p)) as Hzr.
    { unfold registered, zoneAssign, req at 1. cbn [a_heap]. by rewrite deref_insert. }
    fold (registered p a3). by rewrite Hzr.
Qed.

Section registered.
Context (a a1 : Allocator) (p : positive).
Context (Hwf : wf a) (Hpr : prepared p a a1).

Lemma registered_facts :
  let b := registered p a1 in let id := r_id (req a p) in
  a_nodes b = a_nodes a ∧ a_masks b = a_masks a ∧ a_version b = a_version a ∧
  a_requests b = <[id := p]> (a_requests a) ∧
  a_users b = <[id := r_zone (req a1 p)]> (a_users a) ∧
  req b p = req a1 p ∧ (∀ q, q ≠ p → a_heap b !! q = a_heap a !! q) ∧
  r_id (req a1 p) = id ∧ r_limit (req a1 p) = r_limit (req a p) ∧
  r_priority (req a1 p) = r_priority (req a p) ∧ r_strict (req a1 p) = r_strict (req a p).
Proof.
  destruct (pr_only _ _ _ Hpr) as (T & z & ->). cbn zeta.
  assert (req (registered p (upd_req p (λ r, set_types T (set_zone z r)) a)) p
    = set_types T (set_zone z (req a p))) as Hreq.
  { unfold registered, zoneAssign, req at 1. cbn [a_heap]. rewrite deref_insert.
    unfold req. cbn. by rewrite deref_insert. }
  rewrite Hreq, !req_upd_req. split_and!; try done.
  - unfold registered, zoneAssign, req. cbn. by rewrite deref_insert.
  - unfold registered, zoneAssign. cbn [a_users with_requests with_journal upd_req with_heap].
    unfold req. cbn. by rewrite deref_insert.
  - intros q Hq. cbn. by rewrite !lookup_insert_ne.
Qed.

Lemma registered_wf : wf_but ∅ (registered p a1) ∧ config_ok (registered p a1).
Proof.
  pose proof (new_unregistered _ _ _ (wf_all _ Hwf) (pr_new _ _ _ Hpr)) as Hnot.
  destruct registered_facts as (Hn & Hm & _ & _ & _ & _ & _ & Hid & _).
  pose proof (wf_req_only _ _ _ Hwf Hnot (pr_only _ _ _ Hpr)) as [Hwf1 Hcfg1 _].
  assert (a_requests a1 = a_requests a) as Hreqs by (by destruct (pr_only _ _ _ Hpr) as (?&?&->)).
  pose proof (req_only_lookup _ _ _ (pr_only _ _ _ Hpr)) as Hp1.
  split; [|destruct (wf_config _ Hwf); split; by rewrite ?Hn, ?Hm].
  set (a2 := with_journal (Some (MkJournal ∅ ∅)) a1).
  assert (wf_but ∅ a2) as Hwf2 by (by apply (wf_but_same _ a1)).
  pose proof (wf_insert_request _ a2 (r_id (req a2 p)) p (req a1 p) Hwf2) as Hwf3.
  assert (wf_but ({[r_id (req a2 p)]} ∪ ∅)
    (with_requests (<[r_id (req a2 p):=p]> (a_requests a2)) a2)) as Hwf3'.
  { apply Hwf3; [|done|done]. cbn. rewrite Hreqs. change (req a2 p) with (req a1 p).
    rewrite Hid. apply (pr_new _ _ _ Hpr). }
  replace (∅ : gset string) with (({[r_id (req a2 p)]} ∪ ∅) ∖ {[r_id (req a2 p)]} : gset string)
    by set_solver.
  apply zoneAssign_wf; [done| |set_solver|apply (pr_nonzero _ _ _ Hpr)].
  cbn. by rewrite lookup_insert_eq.
Qed.

Lemma users_new : a_users a !! r_id (req a p) = None.
Proof.
  destruct (a_users a !! r_id (req a p)) as [m|] eqn:Hu; [|done].
  destruct (wf_user _ _ (wf_all _ Hwf) _ m Hu) as (_ & q & _ & _ & Hq & _).
  by rewrite (pr_new _ _ _ Hpr) in Hq.
Qed.

Lemma registered_journal : journal_rel (a_users a) (registered p a1).
Proof.
  destruct registered_facts as (_ & _ & _ & _ & Hu & _ & _ & Hid & _).
  pose proof users_new as Hnew.
  unfold journal_rel. eexists. split; [reflexivity|]. intros id'. rewrite Hu.
  cbn [journal_assign with_requests with_journal a_journal j_reverts j_updates].
  repeat change (req (with_requests _ _) p) with (req a1 p). rewrite Hid.
  destruct (decide (id' = r_id (req a p))) as [->|Hne].
  - rewrite !lookup_insert_eq, Hnew. eauto.
  - rewrite !lookup_insert_ne, !lookup_empty by done. done.
Qed.

(** Reverting from any state reached from there by moves restores [a]. *)
Lemma revert_registered b :
  wf_but ∅ b → frame (registered p a1) b → journal_rel (a_users a) b →
  ∃ a' updates, revertJournal (Some p) b = (a', Ok updates) ∧
    wf a' ∧ alloc_eq a a' ∧ a_version a' = a_version a ∧
    set_zone 0 <$> a_heap a' !! p = Some (set_zone 0 (req a1 p)) ∧
    j_updates <$> a_journal b = Some updates ∧
    (∀ id m, updates !! id = Some m → a_users b !! id = Some m) ∧
    (∀ id, updates !! id = None → a_users b !! id = a_users a !! id).
Proof.
  intros Hb Hf Hj.
  destruct registered_facts as (Hn & Hm & Hv & Hr & Hu & Hreq & Hheap & Hid & _).
  pose proof (new_unregistered _ _ _ (wf_all _ Hwf) (pr_new _ _ _ Hpr)) as Hnot.
  destruct (revertJournal_spec (a_users a) (Some p) b Hb Hj (wf_nonzero _ _ (wf_all _ Hwf)))
    as (c & Dn & updates & Heq & Hc & Hfc & Hjc & Huc & HDn & Hju & Hup1 & Hup2).
  assert (frame (registered p a1) c) as Hf2 by (by trans b).
  assert (r_id (req c p) = r_id (req a p)) as Hidc.
  { rewrite <- Hid, <- Hreq. apply (frame_fields _ _ p Hf2). }
  rewrite Hidc in Heq. eexists _, updates. split; [exact Heq|].
  assert (delete (r_id (req a p)) (a_requests c) = a_requests a) as Hreqs.
  { rewrite (fr_requests _ _ Hf2), Hr. apply delete_insert_id, (pr_new _ _ _ Hpr). }
  set (a' := with_requests _ c).
  assert (wf_but ∅ a') as Hwf'.
  { eapply wf_but_empty; [apply wf_delete_request; [exact Hc|]|].
    - rewrite Huc. apply users_new.
    - intros id [q Hq]. cbn in *. rewrite Hreqs in Hq. rewrite Huc.
      destruct (attached_zone _ _ _ (wf_all _ Hwf) Hq) as [m ->]. eauto. }
  split_and!; try done.
  - split; [done| |done]. destruct (wf_config _ Hwf).
    split; cbn; by rewrite (fr_nodes _ _ Hf2), Hn, ?(fr_masks _ _ Hf2), ?Hm.
  - apply alloc_eq_intro; cbn; try done; [apply Hwf|..].
    + by rewrite (fr_nodes _ _ Hf2), Hn.
    + by rewrite (fr_masks _ _ Hf2), Hm.
    + by rewrite Hjc, (wf_idle _ Hwf).
    + intros id q Hq. rewrite (fr_heap _ _ Hf2), Hheap; [done|]. intros ->. by apply (Hnot id).
  - cbn. by rewrite (fr_version _ _ Hf2), Hv.
  - cbn. rewrite (fr_heap _ _ Hf2).
    assert (a_heap (registered p a1) !! p = Some (req (registered p a1) p)) as ->.
    { unfold req, deref, registered, zoneAssign. cbn [a_heap]. by rewrite lookup_insert_eq. }
    by rewrite Hreq.
Qed.
End registered.

(** ** The two outcomes of [allocate] *)

Lemma allocate_ok `{!CustomOk custom} a p r a' :
  wf a → a_heap a !! p = Some r → allocate custom p a = (a', None) →
  ∃ a1, prepared p a a1 ∧ wf_but ∅ a' ∧ frame (registered p a1) a' ∧
    rtc request_move (registered p a1) a' ∧ journal_rel (a_users a) a' ∧
    handleOvercommit custom (registered p a1) (r_zone (req a1 p)) = (a', None).
Proof.
  intros Hwf Hp Ha.
  destruct (allocate_cases a p r Hwf Hp) as [(? & ? & Heq & _)|(a1 & Hpr & Heq)]; [congruence|].
  destruct (registered_wf a a1 p Hwf Hpr) as [Hwf1 Hcfg1].
  pose proof (handleOvercommit_moves custom (r_zone (req a1 p)) _ Hwf1 Hcfg1) as Hm.
  rewrite Ha in Heq. destruct (handleOvercommit _ _ _) as [a2 [e|]] eqn:Ho; [done|]. simplify_eq.
  destruct (request_moves_wf _ _ Hwf1 Hm) as [Hwf2 Hf2].
  exists a1. split_and!; try done. apply (journal_rel_moves _ (registered p a1)); [done..|].
  by eapply registered_journal.
Qed.

Lemma allocate_err `{!CustomOk custom} a p r a' e :
  wf a → a_heap a !! p = Some r → allocate custom p a = (a', Some e) →
  wf a' ∧ alloc_eq a a' ∧ a_version a' = a_version a.
Proof.
  intros Hwf Hp Ha.
  destruct (allocate_cases a p r Hwf Hp) as [(a0 & e0 & Heq & Ho & _)|(a1 & Hpr & Heq)].
  - rewrite Ha in Heq. simplify_eq. destruct Ho as [->|[Hnot Ho]]; [done|].
    split_and!; [by eapply wf_req_only|by eapply req_only_alloc_eq|]. by destruct Ho as (? & ? & ->).
  - destruct (registered_wf a a1 p Hwf Hpr) as [Hwf1 Hcfg1].
    pose proof (handleOvercommit_moves custom (r_zone (req a1 p)) _ Hwf1 Hcfg1) as Hm.
    rewrite Ha in Heq. destruct (handleOvercommit _ _ _) as [a2 [e'|]] eqn:Ho; [|done]. simplify_eq.
    destruct (request_moves_wf _ _ Hwf1 Hm) as [Hwf2 Hf2].
    destruct (revert_registered a a1 p Hwf Hpr a2 Hwf2 Hf2) as (a3 & ups & -> & ? & ? & ? & _); [|done].
    apply (journal_rel_moves _ (registered p a1)); [done..|]. by eapply registered_journal.
Qed.

(** A committed allocation is well-formed. *)
Lemma commitJournal_wf a id :
  wf_but ∅ a → config_ok a → wf (commitJournal id a).1.
Proof.
  intros Hwf [Hn Hc]. split; [by apply (wf_but_same _ a)|by split|done].
Qed.
End alloc.
