(* ===== verification/MemOps.v ===== *)
(** * Correctness of the allocator operations

    The invariant, atomicity, the guarantees of a successful allocation and
    the life of an offer, for [Allocate], [GetOffer], [Commit], [Realloc] and
    [Release]. *)

From S2P Require Import Prelude GoStrings MemTypes MemNodes MemRequest MemZones MemAllocator MemState MemExpand MemOvercommit MemAlloc.

(** No zone that is in use has more memory assigned than it has. *)
Definition fits `{GoRuntime} (a : Allocator) : Prop :=
  ∀ m z, a_zones a !! m = Some z → 0 ≤ zoneFree a m.

(** Strict requests have zones of exactly the types they asked for. *)
Definition strict_ok (a : Allocator) : Prop :=
  ∀ id p m, a_requests a !! id = Some p → r_strict (req a p) = true →
    a_users a !! id = Some m → types_of a m = r_types (req a p).

Section ops.
Context `{GoRuntime} (custom : CustomFunctions).

(** ** Committing the journal *)

(** The updates a committed journal reports for other requests. *)
Definition updates_of (id : string) (a a' : Allocator) (updates : gmap string Z) : Prop :=
  updates !! id = None ∧
  ∀ id', id' ≠ id → a_users a' !! id' = match updates !! id' with
                                        | Some m => Some m
                                        | None => a_users a !! id'
                                        end.

Lemma commitJournal_updates u a id :
  journal_rel u a →
  (commitJournal id a).2 !! id = None ∧
  ∀ id', id' ≠ id → a_users a !! id' = match (commitJournal id a).2 !! id' with
                                       | Some m => Some m
                                       | None => u !! id'
                                       end.
Proof.
  intros (j & Hj & Hrel). unfold commitJournal. rewrite Hj. cbn [snd].
  split; [apply lookup_delete_eq|]. intros id' Hne. rewrite lookup_delete_ne by done.
  specialize (Hrel id'). destruct (j_reverts j !! id') as [m|].
  - destruct Hrel as (_ & [m' Hm'] & ->). by rewrite Hm'.
  - by destruct Hrel as [-> ->].
Qed.

(** ** The outcomes of Allocate *)

Lemma Allocate_ok_inv `{!CustomOk custom} a p r a' zone updates :
  wf a → a_heap a !! p = Some r → Allocate custom p a = (a', Ok (zone, updates)) →
  ∃ a1 b, prepared custom p a a1 ∧ allocate custom p a = (b, None) ∧
    handleOvercommit custom (registered p a1) (r_zone (req a1 p)) = (b, None) ∧
    wf_but ∅ b ∧ config_ok b ∧ frame (registered p a1) b ∧ journal_rel (a_users a) b ∧
    a' = cleanupUnusedZones (commitJournal (r_id (req b p)) b).1 ∧
    updates = (commitJournal (r_id (req b p)) b).2 ∧ zone = r_zone (req b p) ∧
    r_id (req b p) = r_id r.
Proof.
  intros Hwf Hp. unfold Allocate. destruct (allocate custom p a) as [b [e|]] eqn:Ha; [done|].
  destruct (allocate_ok custom a p r b Hwf Hp Ha) as (a1 & Hpr & Hb & Hf & _ & Hj & Ho).
  destruct (commitJournal (r_id (req b p)) b) as [b' ups] eqn:Hc. intros [= <- <- <-].
  destruct (registered_wf custom a a1 p Hwf Hpr) as [_ Hcfg1].
  destruct (registered_facts custom a a1 p Hpr) as (_ & _ & _ & _ & _ & Hreq & _ & Hid & _).
  exists a1, b. rewrite Hc. split_and!; try done; [by eapply frame_config|].
  destruct (frame_fields _ _ p Hf) as (-> & _). by rewrite Hreq, Hid, (req_lookup _ _ _ Hp).
Qed.

(** What the final state of a successful [Allocate] shares with the state in
    which the journal is committed. *)
Lemma committed_fields a id :
  let a' := cleanupUnusedZones (commitJournal id a).1 in
  a_nodes a' = a_nodes a ∧ a_masks a' = a_masks a ∧ a_requests a' = a_requests a ∧
  a_users a' = a_users a ∧ a_heap a' = a_heap a ∧ a_version a' = a_version a ∧
  a_journal a' = None.
Proof. done. Qed.

Lemma committed_free a id m :
  wf_but ∅ a → zoneFree (cleanupUnusedZones (commitJournal id a).1) m = zoneFree a m.
Proof.
  intros Hwf.
  assert (wf_but ∅ (cleanupUnusedZones (commitJournal id a).1)) as Hwf'.
  { apply cleanupUnusedZones_wf. by apply (wf_but_same _ a). }
  by rewrite (zoneFree_usage_of _ _ _ Hwf), (zoneFree_usage_of _ _ _ Hwf').
Qed.

(** A zone that is left after [cleanupUnusedZones] has a user. *)
Lemma cleanup_user a m z :
  wf_but ∅ a → a_zones (cleanupUnusedZones a) !! m = Some z → ∃ id, a_users a !! id = Some m.
Proof.
  intros Hwf [Hz Hne]%cleanup_lookup. apply map_choose in Hne as (id & p & Hp).
  exists id. by destruct (wf_zone_user _ _ Hwf _ _ _ _ Hz Hp).
Qed.

(** ** Invariant and atomicity *)

Lemma Allocate_preserves_wf `{!CustomOk custom} a p r :
  wf a → a_heap a !! p = Some r → wf (Allocate custom p a).1.
Proof.
  intros Hwf Hp. destruct (Allocate custom p a) as [a' [[zone updates]|e]] eqn:Ha.
  - destruct (Allocate_ok_inv a p r a' zone updates Hwf Hp Ha)
      as (a1 & b & _ & _ & _ & Hb & Hcfg & _ & _ & -> & _).
    apply wf_cleanup. by apply commitJournal_wf.
  - unfold Allocate in Ha. destruct (allocate custom p a) as [b [e'|]] eqn:Hal.
    + simplify_eq. apply wf_cleanup. by eapply allocate_err.
    + by destruct (commitJournal _ _).
Qed.

(** C19: If [Allocate] fails, nothing has happened: the registered requests,
    their assignments and everything recorded in them are as before, the
    offers are as valid as before, and the state is still consistent. *)
Theorem Allocate_atomic `{!CustomOk custom} a p r a' e :
  wf a → a_heap a !! p = Some r → Allocate custom p a = (a', Err e) →
  alloc_eq a a' ∧ a_version a' = a_version a ∧ wf a'.
Proof.
  intros Hwf Hp. unfold Allocate. destruct (allocate custom p a) as [b [e'|]] eqn:Hal.
  - intros [= <- <-]. destruct (allocate_err custom a p r b e' Hwf Hp Hal) as (Hb & He & Hv).
    split_and!; [|done|by apply wf_cleanup]. etrans; [done|]. apply cleanupUnusedZones_eq.
  - by destruct (commitJournal _ _).
Qed.

(** C25: A successful [Allocate] registers the request under its ID with the
    zone it returns, no other request appears or goes, and the returned updates are exactly the new zones of the requests
    that were moved: every other request has the zone of [updates], or its
    old zone if it is not in [updates]. *)
Theorem Allocate_success `{!CustomOk custom} a p r a' zone updates :
  wf a → a_heap a !! p = Some r → Allocate custom p a = (a', Ok (zone, updates)) →
  a_requests a !! r_id r = None ∧
  a_requests a' = <[r_id r := p]> (a_requests a) ∧
  a_users a' !! r_id r = Some zone ∧ r_zone (req a' p) = zone ∧ zone ≠ 0 ∧
  updates_of (r_id r) a a' updates ∧ a_version a' = a_version a ∧ wf a'.
Proof.
  intros Hwf Hp Ha. pose proof (Allocate_preserves_wf a p r Hwf Hp) as Hwf'. rewrite Ha in Hwf'.
  destruct (Allocate_ok_inv a p r a' zone updates Hwf Hp Ha)
    as (a1 & b & Hpr & _ & _ & Hb & _ & Hf & Hj & Ha' & -> & -> & Hid).
  destruct (registered_facts custom a a1 p Hpr) as (_ & _ & Hv & Hr & _ & _ & _ & Hid1 & _).
  rewrite (req_lookup _ _ _ Hp) in *.
  pose proof (fr_requests _ _ Hf) as Hrb. rewrite Hr in Hrb.
  destruct (attached_zone b (r_id r) p Hb) as [m Hm]; [by rewrite Hrb, lookup_insert_eq|].
  assert (r_zone (req b p) = m) as Hz.
  { apply (wf_req_zone _ _ Hb (r_id r)); [by rewrite Hrb, lookup_insert_eq|done]. }
  destruct (committed_fields b (r_id (req b p))) as (_ & _ & Hreqs & Hus & Hh & Hver & _).
  split_and!; try done.
  - pose proof (pr_new _ _ _ _ Hpr). by rewrite (req_lookup _ _ _ Hp) in *.
  - by rewrite Ha', Hreqs, Hrb.
  - by rewrite Ha', Hus, Hm, Hz.
  - unfold req. by rewrite Ha', Hh.
  - rewrite Hz. by eapply (wf_nonzero _ _ Hb).
  - unfold updates_of. rewrite Ha', Hus, <- Hid. by apply commitJournal_updates.
  - rewrite Ha', Hver, (fr_version _ _ Hf). done.
Qed.

(** A request that ends up in a zone without nodes of [N] was there before. *)
Lemma disjoint_user_before N a b id m :
  wf_but ∅ a → rtc (move_step custom N) a b → N ≠ 0 →
  a_users b !! id = Some m → m &&& N = 0 → a_users a !! id = Some m.
Proof.
  intros Hwf Hs HN Hid Hd.
  destruct (move_steps_wf _ _ _ _ Hwf Hs) as [Hb Hf].
  destruct (wf_user _ _ Hb id m Hid) as (_ & q & _ & _ & Hq & _).
  rewrite (fr_requests _ _ Hf) in Hq. destruct (attached_zone _ _ _ Hwf Hq) as [m0 Hm0].
  destruct (move_steps_grow _ _ _ _ _ _ Hwf Hs Hm0) as (m' & Hm' & Hsub). simplify_eq.
  assert (m0 &&& N = 0) as Hd0.
  { destruct (decide (m0 &&& N = 0)) as [|Hne]; [done|].
    by apply (mask_overlap_mono _ m) in Hne. }
  pose proof (move_steps_disjoint _ _ _ _ _ _ Hwf Hs HN Hm0 Hd0). congruence.
Qed.

(** The new request does not count for zones it does not fit into. *)
Lemma registered_usage a p a1 m :
  wf a → prepared custom p a a1 → m &&& r_zone (req a1 p) = 0 →
  usage_of (registered p a1) m = usage_of a m.
Proof.
  intros Hwf Hpr Hd.
  destruct (registered_facts custom a a1 p Hpr) as (_ & _ & _ & Hr & Hu & _ & Hheap & Hid & _).
  unfold usage_of. apply msum_contrib. intros id. rewrite Hu.
  destruct (decide (id = r_id (req a p))) as [->|Hne].
  - rewrite lookup_insert_eq, (users_new custom a a1 p Hwf Hpr). simpl.
    rewrite bool_decide_eq_false_2; [done|]. intros Hsub.
    apply (pr_nonzero _ _ _ _ Hpr). rewrite <- Hd. unfold submask in Hsub.
    by rewrite Z.land_comm, Hsub.
  - rewrite lookup_insert_ne by done. destruct (a_users a !! id) as [m0|] eqn:Hm0; [|done]. simpl.
    destruct (wf_user _ _ (wf_all _ Hwf) id m0 Hm0) as (_ & q & _ & _ & Hq & Hqid & _).
    assert (q ≠ p) as Hqp.
    { intros ->. pose proof (pr_new _ _ _ _ Hpr). congruence. }
    unfold limit_of, req. rewrite Hr, lookup_insert_ne by done. rewrite Hq.
    unfold deref. by rewrite Hheap.
Qed.

(** Requests registered before are unchanged by the registration. *)
Lemma registered_old a a1 p id q m :
  wf a → prepared custom p a a1 → a_requests a !! id = Some q → a_users a !! id = Some m →
  a_requests (registered p a1) !! id = Some q ∧ a_users (registered p a1) !! id = Some m ∧
  req (registered p a1) q = req a q.
Proof.
  intros Hwf Hpr Hq Hm.
  destruct (registered_facts custom a a1 p Hpr) as (_ & _ & _ & Hr & Hu & _ & Hheap & _).
  pose proof (pr_new _ _ _ _ Hpr) as Hnew.
  pose proof (new_unregistered _ _ _ (wf_all _ Hwf) Hnew) as Hnot.
  rewrite Hr, Hu, !lookup_insert_ne by congruence. split_and!; [done..|].
  unfold req, deref. rewrite Hheap; [done|]. intros ->. by apply (Hnot id).
Qed.

(** Under the default expansion zones stay within the nodes that exist. *)
Lemma move_steps_all N a a' id m m' :
  wf_but ∅ a → rtc (move_step custom N) a a' → ExpandZone custom = None →
  a_users a !! id = Some m → submask m (mc_all (a_masks a)) →
  a_users a' !! id = Some m' → submask m' (mc_all (a_masks a)).
Proof.
  intros Hwf Hs He. revert m. induction Hs as [a|a b c Hab Hbc IH]; intros m Hm Hall Hm'.
  { congruence. }
  destruct (move_step_wf _ _ _ _ Hwf Hab) as [Hwf' Hf].
  destruct (move_step_users _ _ _ _ Hwf Hab)
    as (id' & q & from & n & t & _ & Hu' & Hus & _ & _ & _ & _ & _ & Hexp & _).
  destruct (Hexp He) as [_ Hn]. rewrite <- (fr_masks _ _ Hf) in Hall, Hn |- *.
  destruct (decide (id' = id)) as [->|Hne].
  - apply (IH Hwf' (from ||| n)); [by rewrite Hus, lookup_insert_eq| |done].
    apply submask_lor; [|done]. congruence.
  - apply (IH Hwf' m); [by rewrite Hus, lookup_insert_ne|done..].
Qed.

(** ** The default overcommit handler *)

Section default_handler.
Context (Hdef : HandleOvercommit custom = None).

Lemma default_custom_ok : CustomOk custom.
Proof. intros f spill a Hf. congruence. Qed.

Lemma Allocate_default_inv a p r a' zone updates :
  wf a → a_heap a !! p = Some r → Allocate custom p a = (a', Ok (zone, updates)) →
  ∃ a1 b, prepared custom p a a1 ∧ wf_but ∅ (registered p a1) ∧ wf_but ∅ b ∧
    rtc (move_step custom (r_zone (req a1 p))) (registered p a1) b ∧
    (checkOvercommit b (r_zone (req a1 p))).1 = [] ∧
    frame (registered p a1) b ∧ zone = r_zone (req b p) ∧
    a' = cleanupUnusedZones (commitJournal (r_id (req b p)) b).1.
Proof.
  intros Hwf Hp Ha. pose proof default_custom_ok.
  destruct (Allocate_ok_inv a p r a' zone updates Hwf Hp Ha)
    as (a1 & b & Hpr & _ & Ho & Hb & _ & Hf & _ & -> & _ & -> & _).
  destruct (registered_wf custom a a1 p Hwf Hpr) as [Hwf1 Hcfg1].
  destruct (handleOvercommit_default custom (r_zone (req a1 p)) _ Hwf1 Hcfg1 Hdef)
    as (b' & e & Ho' & Hs & He).
  rewrite Ho in Ho'. simplify_eq. destruct He as [[_ Hnil]|]; [|done].
  exists a1, b'. split_and!; done.
Qed.

(** C20: [Allocate] always returns, whatever the memory situation: neither
    the overcommit loop nor the search for normal memory goes on for ever. *)
Theorem Allocate_terminates a p r :
  wf a → a_heap a !! p = Some r → (Allocate custom p a).2 ≠ Err OutOfFuel.
Proof.
  intros Hwf Hp. unfold Allocate.
  destruct (allocate_cases custom a p r Hwf Hp) as [(a' & e & -> & _ & He)|(a1 & Hpr & ->)];
    [cbn; congruence|].
  destruct (registered_wf custom a a1 p Hwf Hpr) as [Hwf1 Hcfg1].
  destruct (handleOvercommit_default custom (r_zone (req a1 p)) _ Hwf1 Hcfg1 Hdef)
    as (b & e & -> & _ & [[-> _]| ->]); [|done].
  by destruct (commitJournal _ _).
Qed.

(** C9: A successful [Allocate] never leaves a zone overcommitted: if every
    zone in use had free memory that is not negative before, so it is
    after, although only the zones around the new request are checked. *)
Theorem Allocate_fits a p r a' zone updates :
  wf a → fits a → a_heap a !! p = Some r →
  Allocate custom p a = (a', Ok (zone, updates)) → fits a'.
Proof.
  intros Hwf Hfit Hp Ha m z Hz.
  destruct (Allocate_default_inv a p r a' zone updates Hwf Hp Ha)
    as (a1 & b & Hpr & Hwf1 & Hb & Hs & Hnil & Hf & _ & ->).
  set (N := r_zone (req a1 p)) in *.
  pose proof (pr_nonzero _ _ _ _ Hpr : N ≠ 0) as HN.
  rewrite committed_free by done.
  assert (wf_but ∅ (commitJournal (r_id (req b p)) b).1) as Hc by (by apply (wf_but_same _ b)).
  destruct (cleanup_user _ m z Hc Hz) as [id Hid].
  destruct (proj1 (cleanup_lookup _ m z) Hz) as [Hzb _].
  destruct (decide (m &&& N = 0)) as [Hd|Hd].
  2: { rewrite checkOvercommit_nil in Hnil. apply (Hnil m z Hzb). by right. }
  destruct (registered_facts custom a a1 p Hpr)
    as (Hn & Hm & _ & Hr & Hu & _ & Hheap & Hid1 & Hlim & _).
  pose proof (disjoint_user_before N _ b id m Hwf1 Hs HN Hid Hd) as Hid0.
  assert (id ≠ r_id (req a p)).
  { intros ->. rewrite Hu, lookup_insert_eq in Hid0. simplify_eq. by rewrite Z.land_diag in Hd. }
  rewrite Hu, lookup_insert_ne in Hid0 by done.
  destruct (wf_user_zone _ _ (wf_all _ Hwf) _ _ Hid0) as (z0 & _ & Hz0 & _).
  replace (zoneFree b m) with (zoneFree a m); [by eapply Hfit|].
  rewrite (zoneFree_usage_of _ _ _ Hb), (zoneFree_usage_of _ _ _ (wf_all _ Hwf)).
  rewrite (frame_capacity_of _ _ _ Hf), (move_steps_usage custom N _ b m Hwf1 Hs HN Hd).
  rewrite (registered_usage a p a1 m Hwf Hpr) by done.
  by unfold capacity_of, node_capacity; rewrite Hn, Hm.
Qed.

(** C27: Making room never takes nodes away from a request: every request
    registered before keeps all nodes of its zone, and a request above the
    priority [Preserved] (memory reservations) keeps exactly its zone. *)
Theorem Allocate_keeps_nodes a p r a' zone updates id q m :
  wf a → a_heap a !! p = Some r → Allocate custom p a = (a', Ok (zone, updates)) →
  a_requests a !! id = Some q → a_users a !! id = Some m →
  ∃ m', a_users a' !! id = Some m' ∧ submask m m' ∧
    (Preserved < r_priority (req a q) → m' = m).
Proof.
  intros Hwf Hp Ha Hq Hm.
  destruct (Allocate_default_inv a p r a' zone updates Hwf Hp Ha)
    as (a1 & b & Hpr & Hwf1 & Hb & Hs & _ & _ & _ & ->).
  destruct (registered_old a a1 p id q m Hwf Hpr Hq Hm) as (Hq1 & Hm1 & Hr1).
  destruct (move_steps_grow _ _ _ _ _ _ Hwf1 Hs Hm1) as (m' & Hm' & Hsub).
  exists m'. split_and!; [done..|]. intros Hprio. rewrite <- Hr1 in Hprio.
  pose proof (move_steps_priority _ _ _ _ _ _ Hwf1 Hs Hq1 Hprio). congruence.
Qed.

(** The zone of a successful request has memory of the normal kind, and
    consists of nodes that exist if zones are expanded the default way. *)
Theorem Allocate_normal_memory a p r a' zone updates :
  wf a → a_heap a !! p = Some r → Allocate custom p a = (a', Ok (zone, updates)) →
  (∃ i n, Z.testbit zone i = true ∧ a_nodes a !! i = Some n ∧
     Node_HasMemory n = true ∧ Node_IsNormal n = true) ∧
  (ExpandZone custom = None → submask zone (mc_all (a_masks a))).
Proof.
  intros Hwf Hp Ha.
  destruct (Allocate_default_inv a p r a' zone updates Hwf Hp Ha)
    as (a1 & b & Hpr & Hwf1 & Hb & Hs & _ & Hf & -> & _).
  destruct (registered_facts custom a a1 p Hpr) as (Hn & Hm & _ & Hr & Hu & _).
  assert (a_users (registered p a1) !! r_id (req a p) = Some (r_zone (req a1 p))) as Hm1
    by (by rewrite Hu, lookup_insert_eq).
  destruct (move_steps_grow _ _ _ _ _ _ Hwf1 Hs Hm1) as (m' & Hm' & Hsub).
  assert (r_zone (req b p) = m') as ->.
  { eapply (wf_req_zone _ _ Hb); [|done]. by rewrite (fr_requests _ _ Hf), Hr, lookup_insert_eq. }
  split.
  - pose proof (mask_overlap_mono _ _ _ Hsub (pr_normal _ _ _ _ Hpr)) as Hnz.
    apply mask_nonzero in Hnz as (i & Hi & Hb2). rewrite Z.land_spec in Hb2.
    apply andb_true_iff in Hb2 as [? Hb2].
    apply (cfg_normal a (wf_config _ Hwf)) in Hb2 as (n & ? & ? & ?); [|done]. eauto 10.
  - intros Hc. rewrite <- Hm. eapply move_steps_all; [exact Hwf1|exact Hs|done|exact Hm1| |exact Hm'].
    rewrite Hm. by apply (pr_all _ _ _ _ Hpr).
Qed.

(** Strictness is kept: if every strict request had a zone of exactly
    the types it asked for, so it is after a successful [Allocate], for the
    requests that were moved to make room and for the new one. *)
Theorem Allocate_strict a p r a' zone updates :
  wf a → strict_ok a → ExpandZone custom = None → a_heap a !! p = Some r →
  Allocate custom p a = (a', Ok (zone, updates)) →
  strict_ok a' ∧
  (r_strict r = true → r_types r ≠ 0 → types_of a zone = r_types r).
Proof.
  intros Hwf Hst He Hp Ha.
  destruct (Allocate_default_inv a p r a' zone updates Hwf Hp Ha)
    as (a1 & b & Hpr & Hwf1 & Hb & Hs & _ & Hf & -> & ->).
  destruct (registered_facts custom a a1 p Hpr)
    as (Hn & Hm & _ & Hr & Hu & Hreq & Hheap & Hid & _ & _ & Hstr).
  destruct (registered_wf custom a a1 p Hwf Hpr) as [_ Hcfg1].
  assert (∀ x, types_of (registered p a1) x = types_of a x) as Hty.
  { intros x. unfold types_of, node_types. by rewrite Hn, Hm. }
  assert (strict_ok (registered p a1)) as Hst1.
  { intros id q m Hq Hsq Hmq. rewrite Hty. destruct (decide (id = r_id (req a p))) as [->|Hne].
    - rewrite Hr, lookup_insert_eq in Hq. rewrite Hu, lookup_insert_eq in Hmq. simplify_eq.
      rewrite Hreq in *. apply (pr_strict _ _ _ _ Hpr); congruence.
    - rewrite Hr, lookup_insert_ne in Hq by done. rewrite Hu, lookup_insert_ne in Hmq by done.
      destruct (registered_old a a1 p id q m Hwf Hpr Hq Hmq) as (_ & _ & Hrq).
      rewrite Hrq in *. by apply (Hst id). }
  assert (∀ id q m, a_requests b !! id = Some q → r_strict (req b q) = true →
    a_users b !! id = Some m → types_of a m = r_types (req b q)) as Hstb.
  { intros id q m Hq Hsq Hmq. rewrite (fr_requests _ _ Hf) in Hq.
    destruct (frame_fields _ _ q Hf) as (_ & _ & Htq & Hsq' & _). rewrite Htq. rewrite Hsq' in Hsq.
    destruct (attached_zone _ _ _ Hwf1 Hq) as [m0 Hm0].
    destruct (move_steps_strict _ _ _ _ _ _ m0 Hwf1 Hcfg1 Hs He Hq Hsq Hm0) as (m' & Hm' & Htm);
      [by apply (Hst1 id)|]. rewrite Hty in Htm. congruence. }
  split.
  - intros id q m Hq Hsq Hmq. etrans; [|exact (Hstb id q m Hq Hsq Hmq)].
    rewrite <- Hty. exact (frame_types_of _ _ m Hf).
  - intros Hsr Htr.
    assert (a_requests b !! r_id (req a p) = Some p) as Hpb
      by (by rewrite (fr_requests _ _ Hf), Hr, lookup_insert_eq).
    destruct (attached_zone _ _ _ Hb Hpb) as [m Hmb]. rewrite (wf_req_zone _ _ Hb _ _ _ Hpb Hmb).
    destruct (frame_fields _ _ p Hf) as (_ & _ & Htq & Hsq & _).
    rewrite (req_lookup _ _ _ Hp) in *. rewrite (Hstb _ _ _ Hpb).
    + rewrite Htq, Hreq. rewrite <- (req_lookup _ _ _ Hp) in Hsr, Htr |- *.
      by apply (pr_types _ _ _ _ Hpr).
    + rewrite Hsq, Hreq, Hstr. done.
    + done.
Qed.
End default_handler.
End ops.
