(* ===== verification/MemOffers.v ===== *)
(** * Offers

    Getting an offer changes nothing; committing it does what allocating the
    request at once would have done; a commit or a release makes every other
    offer expire. *)

From S2P Require Import Prelude GoStrings MemTypes MemNodes MemRequest MemZones MemAllocator MemState MemExpand MemOvercommit MemAlloc MemOps.

(** ** Changes that keep everything but assignments *)

Record core (a b : Allocator) : Prop := {
  co_nodes : a_nodes b = a_nodes a;
  co_masks : a_masks b = a_masks a;
  co_version : a_version b = a_version a;
  co_idle : a_journal a = None → a_journal b = None;
  co_heap : ∀ q, set_zone 0 <$> a_heap b !! q = set_zone 0 <$> a_heap a !! q;
}.

#[export] Instance core_preorder : PreOrder core.
Proof.
  split; [by split|]. intros a b c [] []. split; try congruence. auto.
Qed.

Lemma core_id a b p : core a b → r_id (req b p) = r_id (req a p).
Proof.
  intros Hc. pose proof (co_heap _ _ Hc p) as Hp. unfold req, deref.
  destruct (a_heap a !! p), (a_heap b !! p); simplify_eq/=; congruence.
Qed.

Lemma core_config a b : core a b → config_ok a → config_ok b.
Proof. intros Hc [Hn Hm]. split; by rewrite (co_nodes _ _ Hc), ?(co_masks _ _ Hc). Qed.

Lemma core_frame a b : frame a b → (a_journal a = None → a_journal b = None) → core a b.
Proof. intros [] ?. by split. Qed.

Lemma upd_zone_id a p r m : a_heap a !! p = Some r → r_zone r = m → upd_req p (set_zone m) a = a.
Proof.
  intros Hp <-. unfold upd_req, with_heap, deref. rewrite Hp. cbn.
  replace (set_zone (r_zone r) r) with r by (by destruct r). rewrite insert_id by done.
  by destruct a.
Qed.

(** ** One step of a commit *)

Section commit.
Context (o : Offer).

Abbreviation rid a := (r_id (req a (o_req o))).

Lemma commit_step_spec b id m :
  wf_but ∅ b → is_Some (a_heap b !! o_req o) → m ≠ 0 →
  (if decide (id = rid b) then a_requests b !! id = None else is_Some (a_requests b !! id)) →
  let b' := commit_step o b (id, m) in
  wf_but ∅ b' ∧ core b b' ∧ a_users b' = <[id := m]> (a_users b) ∧
  a_requests b' = if decide (id = rid b) then <[id := o_req o]> (a_requests b) else a_requests b.
Proof.
  intros Hb [r Hr] Hm Hcase b'. unfold b', commit_step. case_decide as Hid.
  - rewrite bool_decide_eq_true_2 by done. subst id.
    rewrite (req_lookup _ _ _ Hr) in *.
    set (c := with_requests (<[r_id r := o_req o]> (a_requests b)) b).
    assert (with_requests (<[rid (zoneAssign m (o_req o) b) := o_req o]>
        (a_requests (zoneAssign m (o_req o) b))) (zoneAssign m (o_req o) b)
      = zoneAssign m (o_req o) c) as ->.
    { unfold c. rewrite <- (req_lookup _ _ _ Hr).
      unfold with_requests, zoneAssign, req. cbn. by rewrite deref_insert. }
    assert (wf_but ({[r_id r]} ∪ ∅) c) as Hc.
    { unfold c. by apply (wf_insert_request _ b _ _ r). }
    assert (a_requests c !! r_id r = Some (o_req o)) as Hcr by (cbn; by rewrite lookup_insert_eq).
    split_and!.
    + replace (∅ : gset string) with (({[r_id r]} ∪ ∅) ∖ {[r_id r]} : gset string) by set_solver.
      apply zoneAssign_wf; [done..|set_solver|done].
    + pose proof (zoneAssign_frame _ _ Hc _ _ m Hcr) as []. split; try done.
      intros Hj. rewrite (zoneAssign_journal _ _ Hc _ _ m Hcr). cbn. by rewrite Hj.
    + by rewrite (zoneAssign_users _ _ Hc _ _ m Hcr).
    + done.
  - rewrite bool_decide_eq_false_2 by done. destruct Hcase as [q Hq]. rewrite Hq.
    destruct (attached_zone _ _ _ Hb Hq) as [from Hfrom].
    pose proof (zoneMove_wf _ Hb id q from m Hq Hfrom Hm) as Hwf'.
    pose proof (zoneMove_frame _ Hb id q from m Hq Hfrom) as Hf.
    pose proof (zoneMove_users _ Hb id q from m Hq Hfrom) as Hus.
    pose proof (zoneMove_journal _ Hb id q from m Hq Hfrom) as Hj.
    set (c := zoneMove m q b) in *. clearbody c.
    assert (a_requests c !! id = Some q) as Hqc by (by rewrite (fr_requests _ _ Hf)).
    destruct (wf_req _ _ Hwf' id q Hqc) as (rq & Hrq & _).
    rewrite (upd_zone_id c q rq m Hrq).
    + split_and!; [done| |done|apply Hf].
      apply core_frame; [done|]. intros Hjb. rewrite Hj, Hjb. by case_bool_decide.
    + rewrite <- (req_lookup _ _ _ Hrq). apply (wf_req_zone _ _ Hwf' id); [done|].
      by rewrite Hus, lookup_insert_eq.
Qed.

(** The loop of [Commit], in any order of the updates. *)
Lemma commit_fold us b :
  NoDup (us.*1) → wf_but ∅ b → is_Some (a_heap b !! o_req o) →
  (rid b ∈ us.*1 → a_requests b !! rid b = None) →
  (∀ id m, (id, m) ∈ us → m ≠ 0 ∧ (id ≠ rid b → is_Some (a_requests b !! id))) →
  let b' := fold_left (commit_step o) us b in
  wf_but ∅ b' ∧ core b b' ∧ a_users b' = list_to_map us ∪ a_users b ∧
  a_requests b' = if decide (rid b ∈ us.*1) then <[rid b := o_req o]> (a_requests b)
                  else a_requests b.
Proof.
  revert b. induction us as [|[id m] us IH]; intros b Hnd Hb Hh Hnew Hus.
  { cbn. split_and!; [done..|by rewrite (left_id_L ∅ (∪))|]. by rewrite decide_False by set_solver. }
  apply NoDup_cons in Hnd as [Hnin Hnd]. cbn [fold_left].
  destruct (Hus id m) as [Hm Hreg]; [by constructor|].
  destruct (commit_step_spec b id m Hb Hh Hm) as (Hb1 & Hc1 & Hu1 & Hr1).
  { case_decide as Hid; [subst; apply Hnew; set_solver|by apply Hreg]. }
  set (b1 := commit_step o b (id, m)) in *. clearbody b1.
  pose proof (core_id _ _ (o_req o) Hc1) as Hid1.
  destruct (IH b1) as (Hb2 & Hc2 & Hu2 & Hr2); [done|done|..].
  - pose proof (co_heap _ _ Hc1 (o_req o)) as Hp. destruct Hh as [r Hr]. rewrite Hr in Hp.
    destruct (a_heap b1 !! o_req o); [eauto|done].
  - rewrite Hid1. intros Hin. rewrite Hr1, decide_False by (by intros ->).
    apply Hnew. set_solver.
  - intros id' m' Hin. destruct (Hus id' m') as [? Hreg']; [by constructor|]. split; [done|].
    rewrite Hid1. intros Hne. rewrite Hr1. case_decide; [|by apply Hreg'].
    rewrite lookup_insert_ne by congruence. by apply Hreg'.
  - split_and!; [done|by trans b1| |].
    + rewrite Hu2, Hu1. cbn. rewrite <- insert_union_l, <- insert_union_r; [done|].
      by apply not_elem_of_list_to_map_1.
    + rewrite Hr2, Hid1, Hr1. cbn. repeat case_decide; set_solver.
Qed.
End commit.

(** ** Getting an offer *)

(** What makes an offer fit to be committed in a state. *)
Record offer_ok (o : Offer) (a : Allocator) : Prop := {
  of_heap : is_Some (a_heap a !! o_req o);
  of_new : a_requests a !! r_id (req a (o_req o)) = None;
  of_zone : is_Some (o_updates o !! r_id (req a (o_req o)));
  of_updates : ∀ id m, o_updates o !! id = Some m →
    m ≠ 0 ∧ (id ≠ r_id (req a (o_req o)) → is_Some (a_requests a !! id));
}.

Section offers.
Context `{GoRuntime} (custom : CustomFunctions) `{!CustomOk custom}.

Lemma GetOffer_inv a p r a' o :
  wf a → a_heap a !! p = Some r → GetOffer custom p a = (a', Ok o) →
  ∃ a1 b, prepared custom p a a1 ∧ allocate custom p a = (b, None) ∧
    wf_but ∅ b ∧ frame (registered p a1) b ∧
    wf a' ∧ alloc_eq a a' ∧ a_version a' = a_version a ∧
    set_zone 0 <$> a_heap a' !! p = Some (set_zone 0 (req a1 p)) ∧
    o_req o = p ∧ o_version o = a_version a ∧
    j_updates <$> a_journal b = Some (o_updates o) ∧
    (∀ id m, o_updates o !! id = Some m → a_users b !! id = Some m) ∧
    (∀ id, o_updates o !! id = None → a_users b !! id = a_users a !! id).
Proof.
  intros Hwf Hp. unfold GetOffer. destruct (allocate custom p a) as [b [e|]] eqn:Ha; [done|].
  destruct (allocate_ok custom a p r b Hwf Hp Ha) as (a1 & Hpr & Hb & Hf & _ & Hj & _).
  destruct (revert_registered custom a a1 p Hwf Hpr b Hb Hf Hj)
    as (a2 & ups & -> & Hwf2 & Heq & Hv & Hh & Hup0 & Hup1 & Hup2).
  intros [= <- <-]. exists a1, b. by split_and!.
Qed.

Lemma GetOffer_err a p r a' e :
  wf a → a_heap a !! p = Some r → GetOffer custom p a = (a', Err e) →
  wf a' ∧ alloc_eq a a' ∧ a_version a' = a_version a.
Proof.
  intros Hwf Hp. unfold GetOffer. destruct (allocate custom p a) as [b [e'|]] eqn:Ha.
  - intros [= <- _]. by eapply allocate_err.
  - destruct (allocate_ok custom a p r b Hwf Hp Ha) as (a1 & Hpr & Hb & Hf & _ & Hj & _).
    by destruct (revert_registered custom a a1 p Hwf Hpr b Hb Hf Hj) as (a2 & ups & -> & _).
Qed.

(** The offered zone, and who the updates are about. *)
Lemma GetOffer_offer_ok a p r a' o :
  wf a → a_heap a !! p = Some r → GetOffer custom p a = (a', Ok o) → offer_ok o a'.
Proof.
  intros Hwf Hp Ho.
  destruct (GetOffer_inv a p r a' o Hwf Hp Ho)
    as (a1 & b & Hpr & _ & Hb & Hf & _ & Heq & _ & Hh & Hreq & _ & _ & Hup1 & Hup2).
  destruct (registered_facts custom a a1 p Hpr) as (_ & _ & _ & Hr & _ & _ & _ & Hid & _).
  assert (r_id (req a' p) = r_id (req a p)) as Hid'.
  { rewrite <- Hid. unfold req at 1, deref. destruct (a_heap a' !! p); simplify_eq/=. congruence. }
  pose proof (fr_requests _ _ Hf) as Hrb. rewrite Hr in Hrb.
  split; rewrite ?Hreq, ?Hid', <- ?(ae_requests _ _ Heq).
  - destruct (a_heap a' !! p); [eauto|done].
  - apply (pr_new _ _ _ _ Hpr).
  - destruct (o_updates o !! r_id (req a p)) eqn:Hup; [eauto|].
    apply Hup2 in Hup. rewrite (users_new custom a a1 p Hwf Hpr) in Hup.
    destruct (attached_zone b (r_id (req a p)) p Hb) as [m Hm]; [|congruence].
    by rewrite Hrb, lookup_insert_eq.
  - intros id m Hup%Hup1. split; [by eapply (wf_nonzero _ _ Hb)|]. intros Hne.
    destruct (wf_user _ _ Hb id m Hup) as (_ & q & _ & _ & Hq & _).
    rewrite Hrb, lookup_insert_ne in Hq by done. eauto.
Qed.

(** [GetOffer] is free of side effects whether it succeeds or not: the
    registered requests, their assignments and the version that decides
    whether offers are valid are as before, and the state stays consistent. *)
Theorem GetOffer_pure a p r :
  wf a → a_heap a !! p = Some r →
  let a' := (GetOffer custom p a).1 in
  alloc_eq a a' ∧ a_version a' = a_version a ∧ wf a'.
Proof.
  intros Hwf Hp a'. unfold a'. destruct (GetOffer custom p a) as [b [o|e]] eqn:Ho.
  - by destruct (GetOffer_inv a p r b o Hwf Hp Ho) as (? & ? & _ & _ & _ & _ & ? & ? & ? & _).
  - by destruct (GetOffer_err a p r b e Hwf Hp Ho) as (? & ? & ?).
Qed.

(** ** Committing an offer *)

Lemma Commit_inv o a :
  wf a → offer_ok o a → o_version o = a_version a →
  let rid := r_id (req a (o_req o)) in
  ∃ b, Commit o a = (cleanupUnusedZones (invalidateOffers b),
      Ok (default 0 (o_updates o !! rid), delete rid (o_updates o))) ∧
    wf_but ∅ b ∧ core a b ∧ a_users b = o_updates o ∪ a_users a ∧
    a_requests b = <[rid := o_req o]> (a_requests a).
Proof.
  intros Hwf Hok Hv rid. unfold Commit, Offer_IsValid. rewrite bool_decide_eq_true_2 by done.
  cbn [negb]. destruct (commit_fold o (map_range (o_updates o)) a) as (Hb & Hc & Hu & Hr).
  - apply NoDup_map_range.
  - apply Hwf.
  - apply Hok.
  - intros _. apply Hok.
  - intros id m Hin%elem_of_map_range. by apply (of_updates _ _ Hok).
  - set (b := fold_left _ _ _) in *. clearbody b. exists b.
    rewrite decide_True in Hr.
    2: { destruct (of_zone _ _ Hok) as [m Hm]. apply list_elem_of_fmap.
         exists (rid, m). by rewrite elem_of_map_range. }
    split_and!; try done.
    + unfold Offer_NodeMask, Offer_Updates.
      change (req (invalidateOffers b) (o_req o)) with (req b (o_req o)).
      by rewrite (core_id _ _ _ Hc).
    + rewrite Hu. f_equal. apply map_eq. intros id. apply option_eq. intros m.
      rewrite <- elem_of_list_to_map by apply NoDup_map_range. apply elem_of_map_range.
Qed.

Lemma Commit_preserves_wf o a : wf a → offer_ok o a → wf (Commit o a).1.
Proof.
  intros Hwf Hok. destruct (decide (o_version o = a_version a)) as [Hv|Hv].
  - destruct (Commit_inv o a Hwf Hok Hv) as (b & -> & Hb & Hc & _). cbn [fst]. apply wf_cleanup.
    split; [by apply (wf_but_same _ b)| |apply (co_idle _ _ Hc), Hwf].
    destruct (core_config _ _ Hc (wf_config _ Hwf)). by split.
  - unfold Commit, Offer_IsValid. by rewrite bool_decide_eq_false_2.
Qed.

Lemma i64_succ_ne v : i64 (v + 1) ≠ v.
Proof.
  unfold i64. intros Hv.
  pose proof (Z.mod_pos_bound (v + 1 + 2 ^ 63) (2 ^ 64)) as Hb.
  pose proof (Z.div_mod (v + 1 + 2 ^ 63) (2 ^ 64)) as Hd.
  set (q := (v + 1 + 2 ^ 63) `div` 2 ^ 64) in *. clearbody q. lia.
Qed.

(** C26: Committing an offer right after it was made has the outcome of
    allocating the request at once: the same zone and the same updates are
    returned, and the same requests are registered with the same
    assignments, in whatever order the updates are applied. *)
Theorem GetOffer_Commit_Allocate a p r a1 o :
  wf a → a_heap a !! p = Some r → GetOffer custom p a = (a1, Ok o) →
  ∃ a2 a3 zone updates,
    Commit o a1 = (a2, Ok (zone, updates)) ∧
    Allocate custom p a = (a3, Ok (zone, updates)) ∧
    alloc_eq a2 a3 ∧ a_version a2 = i64 (a_version a3 + 1).
Proof.
  intros Hwf Hp Ho.
  destruct (GetOffer_inv a p r a1 o Hwf Hp Ho)
    as (a0 & b & Hpr & Hal & Hb & Hf & Hwf1 & Heq & Hv1 & Hh & Hreq & Hov & Hj & Hup1 & Hup2).
  pose proof (GetOffer_offer_ok a p r a1 o Hwf Hp Ho) as Hok.
  destruct (registered_facts custom a a0 p Hpr)
    as (Hn & Hm & Hv & Hr & _ & Hrq & Hheap & Hid & _).
  assert (r_id (req a1 p) = r_id (req a p)) as Hid1.
  { rewrite <- Hid. unfold req at 1, deref. destruct (a_heap a1 !! p); simplify_eq/=. congruence. }
  assert (r_id (req b p) = r_id (req a p)) as Hidb.
  { destruct (frame_fields _ _ p Hf) as (-> & _). by rewrite Hrq, Hid. }
  destruct (Commit_inv o a1 Hwf1 Hok) as (c & Hcm & Hc & Hcore & Huc & Hrc); [congruence|].
  rewrite Hreq, Hid1 in Hcm, Hrc. rewrite <- (ae_requests _ _ Heq) in Hrc.
  rewrite <- (ae_users _ _ Heq) in Huc.
  assert (a_requests b = a_requests c) as Hreqs by (by rewrite Hrc, (fr_requests _ _ Hf), Hr).
  assert (a_users b = a_users c) as Husers.
  { rewrite Huc. apply map_eq. intros id. rewrite lookup_union.
    destruct (o_updates o !! id) as [m|] eqn:Hup.
    - rewrite (Hup1 _ _ Hup). by destruct (a_users a !! id).
    - rewrite (Hup2 _ Hup). by destruct (a_users a !! id). }
  assert (Allocate custom p a = (cleanupUnusedZones (with_journal None b),
    Ok (r_zone (req b p), delete (r_id (req a p)) (o_updates o)))) as Hall.
  { unfold Allocate. rewrite Hal. unfold commitJournal.
    destruct (a_journal b) as [j|]; simplify_eq/=. by rewrite Hidb, Hj. }
  assert (default 0 (o_updates o !! r_id (req a p)) = r_zone (req b p)) as Hzone.
  { destruct (of_zone _ _ Hok) as [m Hz]. rewrite Hreq, Hid1 in Hz. rewrite Hz. simpl.
    symmetry. apply (wf_req_zone _ _ Hb (r_id (req a p))); [|by apply Hup1].
    by rewrite (fr_requests _ _ Hf), Hr, lookup_insert_eq. }
  rewrite Hzone in Hcm. eexists _, _, _, _. split; [exact Hcm|]. split; [exact Hall|]. split.
  - etrans; [symmetry; apply cleanupUnusedZones_eq|].
    etrans; [|apply cleanupUnusedZones_eq].
    apply alloc_eq_intro; cbn; try done.
    + by apply (wf_but_same _ c).
    + by apply (wf_but_same _ b).
    + by rewrite (co_nodes _ _ Hcore), (fr_nodes _ _ Hf), Hn, (ae_nodes _ _ Heq).
    + by rewrite (co_masks _ _ Hcore), (fr_masks _ _ Hf), Hm, (ae_masks _ _ Heq).
    + apply (co_idle _ _ Hcore), Hwf1.
    + intros id q Hq. rewrite (co_heap _ _ Hcore), (fr_heap _ _ Hf).
      destruct (decide (q = p)) as [->|Hne].
      * rewrite Hh, <- Hrq. unfold req, deref, registered, zoneAssign. cbn [a_heap].
        by rewrite lookup_insert_eq.
      * rewrite Hheap by done. rewrite Hrc in Hq.
        destruct (decide (id = r_id (req a p))) as [->|Hne'].
        { rewrite lookup_insert_eq in Hq. congruence. }
        rewrite lookup_insert_ne in Hq by done. by rewrite (ae_heap _ _ Heq id q Hq).
  - cbn. by rewrite (co_version _ _ Hcore), Hv1, (fr_version _ _ Hf), Hv.
Qed.

(** After a successful [Commit] every offer that was valid until then,
    the committed one included, is refused as expired, and refusing an offer
    does not change anything. *)
Theorem Commit_expires o o' a a1 zone updates :
  wf a → offer_ok o a → Commit o a = (a1, Ok (zone, updates)) → Offer_IsValid o' a = true →
  Commit o' a1 = (a1, Err ErrExpiredOffer).
Proof.
  intros Hwf Hok Hc Hv'. unfold Offer_IsValid in Hv'. apply bool_decide_eq_true in Hv'.
  assert (o_version o = a_version a) as Hv.
  { unfold Commit, Offer_IsValid in Hc. case_bool_decide; [done|]. done. }
  destruct (Commit_inv o a Hwf Hok Hv) as (b & Hb & _ & Hcore & _). rewrite Hb in Hc. simplify_eq.
  unfold Commit at 1, Offer_IsValid. rewrite bool_decide_eq_false_2; [done|].
  cbn. rewrite Hv', (co_version _ _ Hcore). apply not_eq_sym, i64_succ_ne.
Qed.
End offers.
