(* ===== verification/MemRealloc.v ===== *)
(** * Releasing and growing allocations

    [Release] takes exactly one request out of the allocator; [Realloc] never
    takes a node away from a request, and does nothing if it fails. *)

From S2P Require Import Prelude GoStrings MemTypes MemNodes MemRequest MemZones MemAllocator MemState MemExpand MemOvercommit MemAlloc MemOps MemOffers.

(** ** Release *)

Section release.
Context `{GoRuntime}.

Lemma release_inv a id p :
  wf a → a_requests a !! id = Some p →
  ∃ m b, a_users a !! id = Some m ∧
    Release id a = (cleanupUnusedZones (invalidateOffers
                      (with_requests (delete id (a_requests b)) b)), None) ∧
    b = zoneRemove m id a ∧ wf_but ({[id]} ∪ ∅) b ∧ frame a b ∧
    a_users b = delete id (a_users a) ∧ a_journal b = None.
Proof.
  intros [Hwf Hcfg Hj] Hr. destruct (attached_zone _ _ _ Hwf Hr) as [m Hm].
  exists m, (zoneRemove m id a).
  pose proof (zoneRemove_frame _ _ Hwf _ _ Hm) as Hf. split_and!; try done.
  - unfold Release, release. rewrite Hr, (wf_req_id _ _ Hwf id p Hr), Hm.
    destruct (frame_fields _ _ p Hf) as (-> & _). by rewrite (wf_req_id _ _ Hwf id p Hr).
  - by apply zoneRemove_wf.
  - by apply (zoneRemove_users _ _ Hwf).
  - rewrite (zoneRemove_journal _ _ Hwf) by done. by rewrite Hj.
Qed.

Lemma zoneRemove_heap D a id m p q :
  wf_but D a → a_users a !! id = Some m → a_requests a !! id = Some p → q ≠ p →
  a_heap (zoneRemove m id a) !! q = a_heap a !! q.
Proof.
  intros Hwf Hm Hr Hne. destruct (zoneRemove_eq _ _ Hwf _ _ Hm) as (z & p' & _ & _ & Hp' & _ & ->).
  simplify_eq. cbn. by rewrite lookup_insert_ne.
Qed.

Lemma released_wf a id m :
  wf a → a_users a !! id = Some m →
  let b := zoneRemove m id a in
  wf (cleanupUnusedZones (invalidateOffers (with_requests (delete id (a_requests b)) b))).
Proof.
  intros Hwf Hm b. pose proof (wf_all _ Hwf) as Hwfa.
  pose proof (zoneRemove_frame _ _ Hwfa _ _ Hm : frame a b) as Hf.
  pose proof (zoneRemove_wf _ _ Hwfa _ _ Hm : wf_but _ b) as Hwfb.
  pose proof (zoneRemove_users _ _ Hwfa _ _ Hm : a_users b = _) as Hub.
  assert (wf_but ∅ (with_requests (delete id (a_requests b)) b)) as Hwf1.
  { eapply wf_but_empty; [apply wf_delete_request; [exact Hwfb|by rewrite Hub, lookup_delete_eq]|].
    cbn. intros id' [q [Hne Hq]%lookup_delete_Some]. rewrite Hub, lookup_delete_ne by done.
    rewrite (fr_requests _ _ Hf) in Hq. by apply (wf_attached _ _ Hwfa id' q). }
  apply wf_cleanup. split; [by apply (wf_but_same _ (with_requests (delete id (a_requests b)) b))|..].
  - destruct (frame_config _ _ Hf (wf_config _ Hwf)). by split.
  - cbn. unfold b. rewrite (zoneRemove_journal _ _ Hwfa) by done. by rewrite (wf_idle _ Hwf).
Qed.

Lemma Release_wf a id p : wf a → a_requests a !! id = Some p → wf (Release id a).1.
Proof.
  intros Hwf Hr. destruct (release_inv a id p Hwf Hr) as (m & b & Hm & -> & -> & _).
  by apply released_wf.
Qed.

(** [Release] of a registered request succeeds: the request and its
    assignment are gone, every other request is exactly as before, the
    memory it held is free again in every zone that contains its own, all
    offers expire, and the state is consistent. *)
Theorem Release_spec a id p :
  wf a → a_requests a !! id = Some p →
  ∃ a', Release id a = (a', None) ∧ wf a' ∧
    a_requests a' = delete id (a_requests a) ∧ a_users a' = delete id (a_users a) ∧
    (∀ id' q, a_requests a' !! id' = Some q → a_heap a' !! q = a_heap a !! q) ∧
    (∀ m, zoneFree a' m = i64 (zoneFree a m +
       if bool_decide (submask (r_zone (req a p)) m) then r_limit (req a p) else 0)) ∧
    a_version a' = i64 (a_version a + 1).
Proof.
  intros Hwf Hr. destruct (release_inv a id p Hwf Hr) as (m & b & Hm & -> & Hb & Hwfb & Hf & Hub & Hjb).
  pose proof (wf_all _ Hwf) as Hwfa.
  eexists. split; [done|].
  pose proof (released_wf a id m Hwf Hm) as Hwf'. cbn zeta in Hwf'. rewrite <- Hb in Hwf'.
  split_and!; [done|by cbn; rewrite (fr_requests _ _ Hf)|done|..].
  - cbn. intros id' q [Hne Hq]%lookup_delete_Some. rewrite (fr_requests _ _ Hf) in Hq. subst b.
    apply (zoneRemove_heap ∅ a id m p q Hwfa Hm Hr). intros ->. apply Hne.
    by apply (wf_req_inj _ _ Hwfa _ _ p).
  - intros n. rewrite (zoneFree_usage_of _ _ _ (wf_all _ Hwf')), (zoneFree_usage_of _ _ _ Hwfa).
    set (a' := cleanupUnusedZones _). rewrite i64_add_l.
    assert (capacity_of a' n = capacity_of a n) as ->
      by exact (frame_capacity_of _ _ n Hf).
    f_equal. rewrite (wf_req_zone _ _ Hwfa id p m Hr Hm). unfold usage_of.
    rewrite (msum_delete _ (a_users a) id m Hm).
    assert (limit_of a id = r_limit (req a p)) as -> by (unfold limit_of; by rewrite Hr).
    assert (msum (λ id m, if bool_decide (submask m n) then limit_of a' id else 0) (a_users a')
      = msum (λ id m, if bool_decide (submask m n) then limit_of a id else 0) (delete id (a_users a)))
      as ->; [|case_bool_decide; lia].
    change (a_users a') with (a_users b). rewrite Hub. apply msum_ext. intros id' m' [Hne _]%lookup_delete_Some.
    case_bool_decide; [|done]. unfold limit_of at 1. cbn [a_requests a' cleanupUnusedZones with_zones
      invalidateOffers with_version with_requests]. rewrite lookup_delete_ne by done.
    exact (frame_limit_of _ _ id' Hf).
  - cbn. by rewrite (fr_version _ _ Hf).
Qed.

(** C36: Allocating a request that needs no other request to be moved and
    releasing it again gives back the state before. *)
Theorem Allocate_Release custom `{!CustomOk custom} a p r a1 zone :
  wf a → a_heap a !! p = Some r → Allocate custom p a = (a1, Ok (zone, ∅)) →
  ∃ a2, Release (r_id r) a1 = (a2, None) ∧ alloc_eq a a2.
Proof.
  intros Hwf Hp Ha.
  destruct (Allocate_ok_inv custom a p r a1 zone ∅ Hwf Hp Ha)
    as (a0 & b & Hpr & _ & _ & Hb & Hcfgb & Hf & Hj & Ha1 & Hups & _ & Hidb).
  destruct (registered_facts custom a a0 p Hpr) as (Hn & Hm & _ & Hr & _ & _ & Hheap & _).
  pose proof (commitJournal_updates _ _ (r_id (req b p)) Hj) as [_ Hothers].
  rewrite <- Hups in Hothers. rewrite (req_lookup _ _ _ Hp) in Hr.
  assert (wf a1) as Hwf1 by (subst a1; apply wf_cleanup; by apply commitJournal_wf).
  assert (a_requests a1 = <[r_id r := p]> (a_requests a)) as Hr1.
  { rewrite Ha1. cbn. by rewrite (fr_requests _ _ Hf). }
  destruct (release_inv a1 (r_id r) p Hwf1) as (m & c & Hmz & Hrel & Hc & Hwfc & Hfc & Huc & Hjc);
    [by rewrite Hr1, lookup_insert_eq|].
  eexists. split; [exact Hrel|]. etrans; [|apply cleanupUnusedZones_eq].
  pose proof (pr_new _ _ _ _ Hpr) as Hnew. rewrite (req_lookup _ _ _ Hp) in Hnew.
  pose proof (users_new custom a a0 p Hwf Hpr) as Hunew. rewrite (req_lookup _ _ _ Hp) in Hunew.
  assert (delete (r_id r) (a_requests c) = a_requests a) as Hreqs.
  { rewrite (fr_requests _ _ Hfc), Hr1. by apply delete_insert_id. }
  assert (a_users c = a_users a) as Husers.
  { rewrite Huc. apply map_eq. intros id. destruct (decide (id = r_id r)) as [->|Hne].
    - by rewrite lookup_delete_eq.
    - rewrite lookup_delete_ne by done. subst a1. cbn. rewrite Hothers by congruence.
      by rewrite lookup_empty. }
  assert (wf_but ∅ (with_requests (delete (r_id r) (a_requests c)) c)) as Hwf2.
  { eapply wf_but_empty; [apply wf_delete_request; [exact Hwfc|by rewrite Husers]|].
    cbn. rewrite Hreqs, Husers. intros id [q Hq].
    by destruct (attached_zone _ _ _ (wf_all _ Hwf) Hq) as [? ->]. }
  apply alloc_eq_intro; cbn; try done; try apply Hwf.
  - by apply (wf_but_same _ (with_requests (delete (r_id r) (a_requests c)) c)).
  - rewrite (fr_nodes _ _ Hfc). subst a1. cbn. by rewrite (fr_nodes _ _ Hf), Hn.
  - rewrite (fr_masks _ _ Hfc). subst a1. cbn. by rewrite (fr_masks _ _ Hf), Hm.
  - by rewrite Hjc, (wf_idle _ Hwf).
  - intros id q Hq. rewrite (fr_heap _ _ Hfc). subst a1. cbn. rewrite (fr_heap _ _ Hf), Hheap; [done|].
    intros ->.
    assert (r_id r = id) by (rewrite <- (req_lookup _ _ _ Hp); by apply (wf_req_id _ _ (wf_all _ Hwf))).
    congruence.
Qed.
End release.

(** ** Realloc *)

(** Changing the types of a registered request keeps a state consistent. *)
Lemma wf_set_types D a p T :
  wf_but D a → wf_but D (upd_req p (set_types T) a).
Proof.
  intros Hwf.
  assert (∀ q, r_zone (req (upd_req p (set_types T) a) q) = r_zone (req a q)) as Hz.
  { intros q. unfold req, upd_req, with_heap, deref. cbn. rewrite lookup_insert.
    case_decide; [|done]. by subst. }
  split; try apply Hwf.
  - intros id q (r & Hr & <-)%(wf_req _ _ Hwf). cbn. rewrite lookup_insert. case_decide; [|eauto].
    subst. eexists. split; [done|]. unfold deref. by rewrite Hr.
  - intros m z id q Hzm Hq. rewrite Hz. by apply (wf_zone_user _ _ Hwf m z).
Qed.

Section realloc.
Context `{GoRuntime} (custom : CustomFunctions) (Hdef : HandleOvercommit custom = None).

(** The two outcomes of [realloc] that change anything while they run: the
    journal reverted, or the request moved to a zone [T] and room made there. *)
Lemma realloc_cases a id p nodes types a' res :
  wf a → a_requests a !! id = Some p → realloc custom p nodes types a = (a', res) →
  (a' = a ∧ (∃ e, res = Err e ∧ e ≠ OutOfFuel ∨ res = Ok (r_zone (req a p), ∅))) ∨
  (res = Err ErrNoMem ∧ ∃ b, wf_but ∅ b ∧ frame a b ∧ journal_rel (a_users a) b ∧
     a' = (revertJournal None b).1) ∨
  (∃ T newTypes b b0, submask (r_zone (req a p)) T ∧ b0 = zoneMove T p (with_journal (Some (MkJournal ∅ ∅)) a) ∧
     wf_but ∅ b0 ∧ rtc (move_step custom T) b0 b ∧ (checkOvercommit b T).1 = [] ∧
     wf_but ∅ b ∧ frame a b ∧ journal_rel (a_users a) b ∧
     submask T (r_zone (req b p)) ∧ T ≠ 0 ∧
     a' = (commitJournal id (upd_req p (set_types (r_types (req b p) ||| newTypes)) b)).1 ∧
     res = Ok (r_zone (req b p), (commitJournal id b).2)).
Proof.
  intros Hwf Hr. pose proof (wf_all _ Hwf) as Hwfa. unfold realloc.
  destruct (validateRealloc p nodes types a) as [[[nodes' types'] [|]]|e] eqn:Hv.
  { intros [= <- <-]. left. split; [done|]. exists ErrOther. by right. }
  2: { intros [= <- <-]. left. split; [done|]. exists e. left. split; [done|].
       revert Hv. unfold validateRealloc. repeat case_match; congruence. }
  unfold startJournal. rewrite (wf_idle _ Hwf).
  set (a0 := with_journal (Some (MkJournal ∅ ∅)) a).
  assert (wf_but ∅ a0) as Hwf0 by (by apply (wf_but_same _ a)).
  assert (config_ok a0) as Hcfg0 by (destruct (wf_config _ Hwf); by split).
  assert (frame a a0) as Hf0 by (by split).
  assert (journal_rel (a_users a) a0) as Hj0 by (by apply (journal_rel_start a0)).
  change (req a0 p) with (req a p).
  destruct (expand custom a0 (r_zone (req a p) ||| nodes') types') as [newNodes newTypes] eqn:He.
  case_bool_decide as Hnn.
  { intros [= <- <-]. right; left. split; [done|]. by exists a0. }
  destruct (attached_zone a0 id p Hwf0 Hr) as [from Hfrom].
  assert (r_zone (req a p) = from) as Hza by (by apply (wf_req_zone _ _ Hwfa id)).
  set (T := r_zone (req a p) ||| nodes' ||| newNodes).
  assert (submask (r_zone (req a p)) T) as Hsub.
  { unfold T. trans (r_zone (req a p) ||| nodes'); apply submask_lor_l. }
  assert (T ≠ 0) as HT.
  { unfold T. intros [Hl _]%Z.lor_eq_0_iff. apply Z.lor_eq_0_iff in Hl as [Hl _].
    rewrite Hza in Hl. by eapply (wf_nonzero _ _ Hwf0 id from). }
  pose proof (RequestMove a0 id p T Hr HT) as Hstep.
  destruct (request_move_wf _ _ Hwf0 Hstep) as [Hwf1 Hf1].
  pose proof (journal_rel_move _ _ _ Hwf0 Hstep Hj0) as Hj1.
  pose proof (zoneMove_users _ Hwf0 id p from T Hr Hfrom) as Hu1.
  set (b0 := zoneMove T p a0) in *.
  assert (a_requests b0 !! id = Some p) as Hr1 by (by rewrite (fr_requests _ _ Hf1)).
  assert (r_zone (req b0 p) = T) as Hz1.
  { apply (wf_req_zone _ _ Hwf1 id); [done|]. by rewrite Hu1, lookup_insert_eq. }
  assert (r_zone (req b0 p) ||| nodes' ||| newNodes = T) as HN by (rewrite Hz1; unfold T; bits_solver).
  rewrite HN.
  destruct (handleOvercommit_default custom T b0 Hwf1) as (b & e & -> & Hs & Hout);
    [by eapply frame_config|done|].
  destruct (move_steps_wf _ _ _ _ Hwf1 Hs) as [Hb Hfb].
  assert (frame a b) as Hfab by (trans a0; [done|]; by trans b0).
  assert (journal_rel (a_users a) b) as Hj.
  { apply (journal_rel_moves _ b0); [done| |done]. by eapply move_steps_request_moves. }
  assert (a_requests b !! id = Some p) as Hrb by (by rewrite (fr_requests _ _ Hfb)).
  destruct (move_steps_grow _ _ _ _ id T Hwf1 Hs) as (m & Hm & HTm); [by rewrite Hu1, lookup_insert_eq|].
  pose proof (wf_req_zone _ _ Hb id p m Hrb Hm) as Hzb.
  pose proof (wf_req_id _ _ Hb id p Hrb) as Hidb.
  destruct (wf_req _ _ Hb id p Hrb) as (rb & Hrbh & _).
  destruct Hout as [[-> Hnil]| ->].
  - assert (r_zone (req b p) ||| nodes' ||| newNodes = r_zone (req b p)) as Hsame.
    { rewrite Hzb. clear -HTm. unfold T in HTm. bits_solver. }
    set (c := upd_req p _ b).
    assert (c = upd_req p (set_types (r_types (req b p) ||| newTypes)) b) as ->.
    { unfold c, upd_req. f_equal. f_equal. change (deref (a_heap b) p) with (req b p).
      rewrite Hsame. by destruct (req b p). }
    rewrite req_upd_req. cbn [r_id set_types r_zone]. rewrite Hidb.
    intros [= <- <-]. right; right. exists T, newTypes, b, b0. split_and!; try done.
    + by rewrite Hzb.
    + do 2 f_equal. unfold req. cbn. by rewrite deref_insert.
  - rewrite Hidb, Hm. change (default 0 (Some m)) with m. rewrite (upd_zone_id b p rb m Hrbh).
    + intros [= <- <-]. right; left. split; [done|]. by exists b.
    + by rewrite <- (req_lookup _ _ _ Hrbh).
Qed.

Lemma revert_restores a b :
  wf a → wf_but ∅ b → frame a b → journal_rel (a_users a) b →
  let a' := (revertJournal None b).1 in
  alloc_eq a a' ∧ a_version a' = a_version a ∧ wf a'.
Proof.
  intros Hwf Hb Hf Hj.
  destruct (revertJournal_spec (a_users a) None b Hb Hj (wf_nonzero _ _ (wf_all _ Hwf)))
    as (c & Dn & ups & -> & Hc & Hfc & Hjc & Huc & _).
  cbn zeta. cbn [fst]. assert (frame a c) as Hfac by (by trans b).
  assert (wf_but ∅ c) as Hwfc.
  { eapply wf_but_empty; [done|]. rewrite Huc, (fr_requests _ _ Hfac). intros id [q Hq].
    by destruct (attached_zone _ _ _ (wf_all _ Hwf) Hq) as [? ->]. }
  split_and!.
  - apply alloc_eq_intro; try done; try apply Hwf; try (symmetry; apply Hfac).
    + by rewrite Hjc, (wf_idle _ Hwf).
    + intros id q _. apply Hfac.
  - apply Hfac.
  - split; [done|by eapply frame_config, Hwf|done].
Qed.

Lemma Realloc_preserves_wf a id nodes types : wf a → wf (Realloc custom id nodes types a).1.
Proof.
  intros Hwf. unfold Realloc. destruct (a_requests a !! id) as [p|] eqn:Hr; [|done].
  destruct (realloc custom p nodes types a) as [a' res] eqn:Hre.
  destruct (realloc_cases a id p nodes types a' res Hwf Hr Hre)
    as [[-> _]|[(_ & b & Hb & Hf & Hj & ->)|(T & nt & b & b0 & _ & _ & _ & _ & _ & Hb & Hf & _ & _ & _ & -> & _)]];
    [done|by apply (revert_restores a b)|].
  apply commitJournal_wf; [by apply wf_set_types|].
  destruct (frame_config _ _ Hf (wf_config _ Hwf)). by split.
Qed.

(** C35: [Realloc] always returns; if it returns an error, the state is as
    before. *)
Theorem Realloc_atomic a id nodes types a' e :
  wf a → Realloc custom id nodes types a = (a', Err e) →
  alloc_eq a a' ∧ a_version a' = a_version a ∧ wf a' ∧ e ≠ OutOfFuel.
Proof.
  intros Hwf. unfold Realloc. destruct (a_requests a !! id) as [p|] eqn:Hr.
  2: { by intros [= <- <-]. }
  intros Hre. destruct (realloc_cases a id p nodes types a' (Err e) Hwf Hr Hre)
    as [(-> & e' & [[[= <-] ?]|?])|[(He & b & Hb & Hf & Hj & ->)|(T & nt & b & b0 & Hrest)]].
  - done.
  - done.
  - destruct (revert_restores a b Hwf Hb Hf Hj) as (? & ? & ?).
    split_and!; [done..|]. congruence.
  - destruct Hrest as (_ & _ & _ & _ & _ & _ & _ & _ & _ & _ & _ & [=]).
Qed.

(** A successful [Realloc] only adds: the request keeps the nodes and
    types it had, is assigned to the zone returned, and the updates are the
    new zones of the other requests, of which none loses a node. *)
Theorem Realloc_expansive a id p nodes types a' zone updates :
  wf a → a_requests a !! id = Some p →
  Realloc custom id nodes types a = (a', Ok (zone, updates)) →
  a_requests a' = a_requests a ∧ a_users a' !! id = Some zone ∧
  submask (r_zone (req a p)) zone ∧ submask (r_types (req a p)) (r_types (req a' p)) ∧
  (∀ id' m, a_users a !! id' = Some m → ∃ m', a_users a' !! id' = Some m' ∧ submask m m') ∧
  updates_of id a a' updates ∧ wf a'.
Proof.
  intros Hwf Hr Hre. pose proof (Realloc_preserves_wf a id nodes types Hwf) as Hwf'.
  rewrite Hre in Hwf'. cbn in Hwf'. unfold Realloc in Hre. rewrite Hr in Hre.
  destruct (attached_zone _ _ _ (wf_all _ Hwf) Hr) as [from Hfrom].
  pose proof (wf_req_zone _ _ (wf_all _ Hwf) _ _ _ Hr Hfrom) as Hza.
  destruct (realloc_cases a id p nodes types a' _ Hwf Hr Hre)
    as [(-> & e' & [[[=] ?]|[= -> ->]])|[([=] & _)|(T & nt & b & b0 & HT & Hb0 & Hwf0 & Hs & _ & Hb & Hf & Hj & HTb & HT0 & -> & [= -> ->])]].
  - split_and!; try reflexivity; [congruence|..|done].
    + intros id' m Hm. by exists m.
    + split; [done|]. intros id' _. by rewrite lookup_empty.
  - set (a0 := with_journal (Some (MkJournal ∅ ∅)) a) in *.
    assert (wf_but ∅ a0) as Hwfa0 by (apply (wf_but_same _ a); [apply Hwf|done..]).
    pose proof (zoneMove_users a0 Hwfa0 id p from T Hr Hfrom) as Hu0. rewrite <- Hb0 in Hu0.
    assert (a_requests b !! id = Some p) as Hrb by (by rewrite (fr_requests _ _ Hf)).
    destruct (attached_zone _ _ _ Hb Hrb) as [m Hm].
    pose proof (wf_req_zone _ _ Hb _ _ _ Hrb Hm) as Hzb.
    split_and!; try done.
    + apply Hf.
    + cbn. congruence.
    + by trans T.
    + change (req _ p) with (req (upd_req p (set_types (r_types (req b p) ||| nt)) b) p) at 2.
      rewrite req_upd_req. cbn. destruct (frame_fields _ _ p Hf) as (_ & _ & -> & _).
      apply submask_lor_l.
    + intros id' m0 Hm0. destruct (decide (id' = id)) as [->|Hne].
      * exists m. split; [done|].
        assert (m0 = r_zone (req a p)) as -> by congruence. trans T; [done|]. by rewrite <- Hzb.
      * apply (move_steps_grow custom T b0 b id' m0 Hwf0 Hs). rewrite Hu0, lookup_insert_ne by done. done.
    + exact (commitJournal_updates _ b id Hj).
Qed.

(** [Realloc] does not overcommit a zone that is in use: if all zones
    had room for their requests before, the zones of all requests have room
    after. *)
Theorem Realloc_fits a id p nodes types a' zone updates :
  wf a → fits a → a_requests a !! id = Some p →
  Realloc custom id nodes types a = (a', Ok (zone, updates)) →
  ∀ id' m, a_users a' !! id' = Some m → 0 ≤ zoneFree a' m.
Proof.
  intros Hwf Hfit Hr Hre id' m Hm. pose proof (Realloc_preserves_wf a id nodes types Hwf) as Hwf'.
  rewrite Hre in Hwf'. cbn in Hwf'. unfold Realloc in Hre. rewrite Hr in Hre.
  destruct (attached_zone _ _ _ (wf_all _ Hwf) Hr) as [from Hfrom].
  pose proof (wf_req_zone _ _ (wf_all _ Hwf) _ _ _ Hr Hfrom) as Hza.
  destruct (realloc_cases a id p nodes types a' _ Hwf Hr Hre)
    as [(-> & _)|[([=] & _)|(T & nt & b & b0 & HT & Hb0 & Hwf0 & Hs & Hnil & Hb & Hf & Hj & HTb & HT0 & Ha' & _)]].
  { destruct (wf_user_zone _ _ (wf_all _ Hwf) _ _ Hm) as (z & _ & Hz & _). by eapply Hfit. }
  set (a0 := with_journal (Some (MkJournal ∅ ∅)) a) in *.
  assert (wf_but ∅ a0) as Hwfa0 by (apply (wf_but_same _ a); [apply Hwf|done..]).
  pose proof (zoneMove_users a0 Hwfa0 id p from T Hr Hfrom) as Hu0. rewrite <- Hb0 in Hu0.
  pose proof (zoneMove_frame a0 Hwfa0 id p from T Hr Hfrom) as Hf0. rewrite <- Hb0 in Hf0.
  assert (a_users a' = a_users b) as Hub by (by rewrite Ha'). rewrite Hub in Hm.
  assert (zoneFree a' m = zoneFree b m) as ->.
  { rewrite (zoneFree_usage_of _ _ _ Hb), (zoneFree_usage_of _ _ _ (wf_all _ Hwf')).
    f_equal. f_equal; [by rewrite Ha'|]. unfold usage_of. rewrite Hub. apply msum_ext.
    intros i x _. case_bool_decide; [|done]. rewrite Ha'. unfold limit_of. cbn. case_match; [|done].
    unfold req, deref. cbn. rewrite lookup_insert. case_decide; [|done]. by subst. }
  destruct (decide (m &&& T = 0)) as [Hd|Hd].
  2: { rewrite checkOvercommit_nil in Hnil. destruct (wf_user_zone _ _ Hb _ _ Hm) as (z & _ & Hz & _).
       apply (Hnil m z Hz). by right. }
  pose proof (disjoint_user_before custom T b0 b id' m Hwf0 Hs HT0 Hm Hd) as Hm0.
  assert (id' ≠ id).
  { intros ->. rewrite Hu0, lookup_insert_eq in Hm0. simplify_eq. by rewrite Z.land_diag in Hd. }
  rewrite Hu0, lookup_insert_ne in Hm0 by done.
  destruct (wf_user_zone _ _ (wf_all _ Hwf) _ _ Hm0) as (z & _ & Hz & _).
  replace (zoneFree b m) with (zoneFree a m); [by eapply Hfit|].
  rewrite (zoneFree_usage_of _ _ _ Hb), (zoneFree_usage_of _ _ _ (wf_all _ Hwf)).
  rewrite (frame_capacity_of _ _ _ Hf), (move_steps_usage custom T b0 b m Hwf0 Hs HT0 Hd).
  f_equal. f_equal. unfold usage_of. rewrite Hu0. apply msum_contrib. intros i.
  destruct (decide (i = id)) as [->|Hne].
  - rewrite lookup_insert_eq, Hfrom. simpl. rewrite Hza in HT.
    assert (∀ x, x ≠ 0 → submask x T → ¬ submask x m) as Hno.
    { intros x Hx HxT Hxm. apply Hx. clear -HxT Hxm Hd. bits_solver. }
    rewrite !bool_decide_eq_false_2; [done|..]; apply Hno; try done.
    by eapply (wf_nonzero _ _ (wf_all _ Hwf)).
  - rewrite lookup_insert_ne by done. change (a_users a0 !! i) with (a_users a !! i).
    destruct (a_users a !! i); [|done]. simpl. by rewrite (frame_limit_of _ _ _ Hf0).
Qed.
End realloc.
