(* ===== verification/MemSystem.v ===== *)
(** * The allocator as a state machine

    The states a client can bring an allocator into, from its creation on,
    and the invariant they all have. *)

From S2P Require Import Prelude GoStrings MemTypes MemNodes MemRequest MemZones MemAllocator MemState MemExpand MemOvercommit MemAlloc MemOps MemOffers MemRealloc.

(** ** Creating an allocator *)

Section create.
Context `{GoRuntime}.

(** The options of the package, with the nodes and node IDs they are given. *)
Inductive std_option : AllocatorOption → Prop :=
  | OptNodes ns : Forall node_ok ns → std_option (WithNodes ns)
  | OptSystem sys : Forall (λ s, 0 ≤ sys_id s) sys → std_option (WithSystemNodes sys)
  | OptCustom c : std_option (WithCustomFunctions c).

Definition nodes_ok (nodes : gmap Z Node) : Prop :=
  ∀ id n, nodes !! id = Some n → n_id n = id ∧ node_ok n.

(** An allocator without any allocation and without masks. *)
Record blank (a : Allocator) : Prop := {
  bl_nodes : nodes_ok (a_nodes a);
  bl_requests : a_requests a = ∅;
  bl_zones : a_zones a = ∅;
  bl_users : a_users a = ∅;
  bl_journal : a_journal a = None;
  bl_masks : a_masks a = NewMaskCache [];
}.

Lemma NewNode_ok id t c nm cpus d n : 0 ≤ id → NewNode id t c nm cpus d = Ok n → node_ok n.
Proof.
  intros Hid. unfold NewNode. destruct (Type_IsValid t) eqn:Ht; [|done]. cbn [negb].
  case_bool_decide as Hmax; [done|]. destruct (NewDistance id d) as [dist|e] eqn:Hd; [|done].
  intros [= <-]. unfold node_ok. cbn. unfold MaxNodeID in Hmax.
  split_and!; [done|lia|by apply Type_IsValid_known|]. by eapply NewDistance_distance_ok.
Qed.

Lemma system_nodes_ok sys nodes ns :
  Forall (λ s, 0 ≤ sys_id s) sys → Forall node_ok nodes → system_nodes sys nodes = Ok ns →
  Forall node_ok ns.
Proof.
  intros Hs. revert nodes. induction Hs as [|s sys Hid Hs IH]; intros nodes Hn; simpl; [by intros [= <-]|].
  destruct (sys_memTotal s) as [total|]; [|done].
  destruct (TypeForSysfs (sys_memType s)) as [t|]; [|done]. simpl.
  destruct (NewNode _ _ _ _ _ _) as [n|] eqn:Hnew; [|done]. simpl.
  apply IH. apply Forall_app. split; [done|]. constructor; [by eapply NewNode_ok|done].
Qed.

Lemma add_nodes_ok ns nodes nodes' :
  Forall node_ok ns → nodes_ok nodes → add_nodes ns nodes = Ok nodes' → nodes_ok nodes'.
Proof.
  intros Hns. revert nodes. induction Hns as [|n ns Hn Hns IH]; intros nodes Hok; simpl; [by intros [= <-]|].
  destruct (nodes !! n_id n); [done|]. apply IH. intros id n'. rewrite lookup_insert.
  case_decide; [|by apply Hok]. intros [= <-]. done.
Qed.

Lemma WithNodes_blank ns ac ac' :
  Forall node_ok ns → blank ac.1 → WithNodes ns ac = Ok ac' → blank ac'.1.
Proof.
  intros Hns []. unfold WithNodes. case_bool_decide; [done|].
  destruct (add_nodes ns (a_nodes ac.1)) as [nodes|] eqn:Ha; [|done]. intros [= <-].
  split; try done. cbn. by eapply add_nodes_ok.
Qed.

Lemma std_option_blank o ac ac' : std_option o → blank ac.1 → o ac = Ok ac' → blank ac'.1.
Proof.
  intros [ns Hns|sys Hs|c] Hb.
  - by apply WithNodes_blank.
  - unfold WithSystemNodes. destruct (system_nodes sys []) as [ns|] eqn:Hsn; [|done]. simpl.
    apply WithNodes_blank; [|done]. by eapply system_nodes_ok.
  - unfold WithCustomFunctions. destruct c; intros [= <-]; done.
Qed.

Lemma apply_options_blank os ac ac' :
  Forall std_option os → blank ac.1 → apply_options os ac = Ok ac' → blank ac'.1.
Proof.
  intros Hos. revert ac. induction Hos as [|o os Ho Hos IH]; intros ac Hb; simpl; [by intros [= <-]|].
  destruct (o ac) as [ac1|e] eqn:Hoc; [|by destruct e]. apply IH. by eapply std_option_blank.
Qed.

Lemma add_masks_fold ns k masks masks' :
  add_masks ns k masks = Ok masks' → masks' = fold_left addNode (ns.*2) masks.
Proof.
  revert masks. induction ns as [|[id n] ns IH]; intros masks; simpl; [by intros [= <-]|].
  case_bool_decide; [done|]. apply IH.
Qed.

Lemma wf_but_blank a :
  a_requests a = ∅ → a_zones a = ∅ → a_users a = ∅ → wf_but ∅ a.
Proof.
  intros Hr Hz Hu. split; rewrite ?Hr, ?Hz, ?Hu; intros;
    try match goal with He : ∅ !! _ = Some _ |- _ => by rewrite lookup_empty in He end.
  done.
Qed.

Lemma blank_wf a masks :
  blank a → add_masks (map_range (a_nodes a)) (size (a_nodes a)) (a_masks a) = Ok masks →
  wf (with_masks masks a).
Proof.
  intros [Hn Hr Hz Hu Hj Hm] Hadd%add_masks_fold. split; [|split|done].
  - by apply wf_but_blank.
  - apply Hn.
  - exists ((map_range (a_nodes a)).*2). cbn. split.
    + intros n. rewrite list_elem_of_fmap. split.
      * intros ([id n'] & -> & Hin%elem_of_map_range). cbn. destruct (Hn _ _ Hin) as [-> _]. done.
      * intros Hin. exists (n_id n, n). by rewrite elem_of_map_range.
    + rewrite Hadd, Hm. apply NewMaskCache_cache_ok. apply Forall_forall.
      intros n ([id n'] & -> & Hin%elem_of_map_range)%list_elem_of_fmap. by apply (Hn id).
Qed.

Lemma newAllocator_wf os a c : Forall std_option os → newAllocator os = Ok (a, c) → wf a.
Proof.
  intros Hos. unfold newAllocator.
  destruct (apply_options os _) as [ac|] eqn:Hap; [|done]. simpl.
  destruct (add_masks _ _ _) as [masks|] eqn:Hadd; [|done]. simpl. intros [= <- _].
  apply blank_wf; [|done]. eapply apply_options_blank; [done| |done].
  by split.
Qed.

(** The masks of a new allocator agree with its nodes: the nodes for a set of
    memory types are those with memory of any of the types. *)
Theorem newAllocator_masks os a c T i :
  Forall std_option os → newAllocator os = Ok (a, c) → 0 < T < 8 → 0 ≤ i →
  Z.testbit (NodesByTypes (a_masks a) T) i = true ↔
  ∃ n, a_nodes a !! i = Some n ∧ Node_HasMemory n = true ∧ Z.testbit T (memType n) = true.
Proof.
  intros Hos Hnew HT Hi. apply cfg_byTypes; [|done|done]. apply wf_config. by eapply newAllocator_wf.
Qed.
End create.

(** ** Reachable states *)

Section reach.
Context `{GoRuntime} (custom : CustomFunctions).

(** A client holds an allocator and the offers it may still commit.  As the
    documentation of offers asks for, it commits no valid offer that it got
    before an allocation or a reallocation, although the allocator keeps such
    offers valid; committing an offer, releasing memory and resetting the
    allocator make it refuse all earlier offers, which the client may try to
    commit nevertheless. *)
Inductive client_step : Allocator * list Offer → Allocator * list Offer → Prop :=
  | StepNewRequest a os p r :
      a_heap a !! p = None → client_step (a, os) (with_heap (<[p := r]> (a_heap a)) a, os)
  | StepAllocate a os p :
      is_Some (a_heap a !! p) → client_step (a, os) ((Allocate custom p a).1, [])
  | StepGetOffer a os p a' o :
      is_Some (a_heap a !! p) → GetOffer custom p a = (a', Ok o) →
      client_step (a, os) (a', o :: os)
  | StepNoOffer a os p a' e :
      is_Some (a_heap a !! p) → GetOffer custom p a = (a', Err e) →
      client_step (a, os) (a', os)
  | StepCommit a os o :
      o ∈ os → client_step (a, os) ((Commit o a).1, [])
  | StepCommitExpired a os o :
      Offer_IsValid o a = false → client_step (a, os) ((Commit o a).1, os)
  | StepRealloc a os id nodes types :
      client_step (a, os) ((Realloc custom id nodes types a).1, [])
  | StepRelease a os id :
      client_step (a, os) ((Release id a).1, [])
  | StepReset a os :
      client_step (a, os) (Reset_ a, []).

Definition reachable (s : Allocator * list Offer) : Prop :=
  ∃ opts a, Forall std_option opts ∧ newAllocator opts = Ok (a, custom) ∧
    rtc client_step (a, []) s.

(** Offers survive whatever keeps the requests and their IDs. *)
Lemma offer_ok_mono o a a' :
  offer_ok o a → a_requests a' = a_requests a →
  (∀ p, is_Some (a_heap a !! p) → is_Some (a_heap a' !! p) ∧ r_id (req a' p) = r_id (req a p)) →
  offer_ok o a'.
Proof.
  intros [Hh Hn Hz Hu] Hr Hid. destruct (Hid _ Hh) as [Hh' Hid'].
  split; rewrite ?Hr, ?Hid'; done.
Qed.

Lemma req_only_ids p a a' q :
  req_only p a a' → is_Some (a_heap a !! q) →
  is_Some (a_heap a' !! q) ∧ r_id (req a' q) = r_id (req a q).
Proof.
  intros (T & z & ->) [r Hr]. unfold req, deref. cbn. rewrite lookup_insert. case_decide; [|eauto].
  subst. eauto.
Qed.

Lemma frame_ids a a' q :
  frame a a' → is_Some (a_heap a !! q) →
  is_Some (a_heap a' !! q) ∧ r_id (req a' q) = r_id (req a q).
Proof.
  intros Hf [r Hr]. pose proof (fr_heap _ _ Hf q) as Hq. rewrite Hr in Hq.
  destruct (a_heap a' !! q) eqn:Hq'; [|done]. split; [eauto|]. apply (frame_fields _ _ q Hf).
Qed.

Section inv.
Context (Hdef : HandleOvercommit custom = None).

(** The heap of requests keeps its requests and their IDs. *)
Lemma GetOffer_ids a p q :
  wf a → is_Some (a_heap a !! p) → is_Some (a_heap a !! q) →
  let a' := (GetOffer custom p a).1 in
  is_Some (a_heap a' !! q) ∧ r_id (req a' q) = r_id (req a q).
Proof.
  intros Hwf [r Hp] Hq. pose proof (default_custom_ok custom Hdef) as Hok. unfold GetOffer.
  destruct (allocate_cases custom a p r Hwf Hp) as [(a' & e & -> & Ho & _)|(a1 & Hpr & Heq)].
  { cbn. destruct Ho as [->|[_ Ho]]; [done|by eapply req_only_ids]. }
  destruct (registered_wf custom a a1 p Hwf Hpr) as [Hwf1 Hcfg1].
  destruct (registered_facts custom a a1 p Hpr) as (_ & _ & _ & _ & _ & Hreq & Hheap & Hid & _).
  assert (is_Some (a_heap (registered p a1) !! q) ∧
    r_id (req (registered p a1) q) = r_id (req a q)) as [Hq1 Hid1].
  { destruct (decide (q = p)) as [->|Hne].
    - split; [|congruence]. unfold registered, zoneAssign. cbn [a_heap]. by rewrite lookup_insert_eq.
    - unfold req, deref. by rewrite Hheap. }
  destruct (handleOvercommit_default custom (r_zone (req a1 p)) _ Hwf1 Hcfg1 Hdef)
    as (b & e & Hho & Hs & _). rewrite Hho in Heq. rewrite Heq.
  destruct (move_steps_wf _ _ _ _ Hwf1 Hs) as [Hb Hfb].
  assert (journal_rel (a_users a) b) as Hj.
  { apply (journal_rel_moves _ (registered p a1)); [done| |by eapply registered_journal].
    by eapply move_steps_request_moves. }
  destruct (revertJournal_spec (a_users a) (Some p) b Hb Hj (wf_nonzero _ _ (wf_all _ Hwf)))
    as (c & Dn & ups & Hrev & _ & Hfc & _).
  assert (is_Some (a_heap c !! q) ∧ r_id (req c q) = r_id (req a q)) as Hc.
  { destruct (frame_ids _ c q (transitivity Hfb Hfc) Hq1) as [? ->]. done. }
  destruct e; cbn; rewrite Hrev; exact Hc.
Qed.

Definition inv (s : Allocator * list Offer) : Prop := wf s.1 ∧ Forall (λ o, offer_ok o s.1) s.2.

Lemma heap_grow_wf a p r : wf a → a_heap a !! p = None → wf (with_heap (<[p := r]> (a_heap a)) a).
Proof.
  intros [Hwf [] Hj] Hp. split; [|by split|done].
  assert (∀ id q, a_requests a !! id = Some q → q ≠ p) as Hne.
  { intros id q (rq & Hq & _)%(wf_req _ _ Hwf) ->. congruence. }
  split; try apply Hwf; cbn.
  - intros id q Hq. rewrite lookup_insert_ne by (by apply not_eq_sym, (Hne id)).
    by apply (wf_req _ _ Hwf).
  - intros m z id q Hz Hq. destruct (wf_zone_user _ _ Hwf _ _ _ _ Hz Hq) as (? & Hr & Hzone).
    split_and!; [done..|]. unfold req, deref. cbn.
    rewrite lookup_insert_ne by (by apply not_eq_sym, (Hne id)). done.
Qed.

Lemma Reset_wf a : wf a → wf (Reset_ a).
Proof.
  intros [Hwf [] Hj]. split; [by apply wf_but_blank|by split|done].
Qed.

Lemma client_step_inv s s' : client_step s s' → inv s → inv s'.
Proof.
  pose proof (default_custom_ok custom Hdef) as Hok.
  intros Hs [Hwf Hos]. destruct Hs as [a os p r Hp|a os p [r Hp]|a os p a' o [r Hp] Ho
    |a os p a' e [r Hp] Ho|a os o Ho|a os o Ho|a os id nodes types|a os id|a os]; cbn [fst snd] in *.
  - split; cbn; [by apply heap_grow_wf|]. eapply Forall_impl; [done|]. intros o Ho.
    apply (offer_ok_mono o a); [exact Ho|done|]. intros q [rq Hq]. unfold req, deref. cbn.
    rewrite lookup_insert_ne by congruence. by rewrite Hq.
  - split; [|constructor]. by eapply Allocate_preserves_wf.
  - pose proof (GetOffer_ids a p) as Hids. rewrite Ho in Hids.
    destruct (GetOffer_inv custom a p r a' o Hwf Hp Ho)
      as (_ & _ & _ & _ & _ & _ & Hwf' & Heq & _).
    split; [done|]. constructor; [exact (GetOffer_offer_ok custom a p r a' o Hwf Hp Ho)|].
    eapply Forall_impl; [done|]. intros o' Ho'. apply (offer_ok_mono o' a); [exact Ho'|..].
    + symmetry. apply Heq.
    + intros q Hq. apply Hids; eauto.
  - pose proof (GetOffer_ids a p) as Hids. rewrite Ho in Hids.
    destruct (GetOffer_err custom a p r a' e Hwf Hp Ho) as (Hwf' & Heq & _).
    split; [done|]. eapply Forall_impl; [done|]. intros o' Ho'. apply (offer_ok_mono o' a); [exact Ho'|..].
    + symmetry. apply Heq.
    + intros q Hq. apply Hids; eauto.
  - split; [|constructor]. apply Commit_preserves_wf; [done|].
    by apply (proj1 (Forall_forall _ _) Hos).
  - unfold Commit. by rewrite Ho.
  - split; [|constructor]. by apply Realloc_preserves_wf.
  - split; [|constructor]. cbn [fst]. destruct (a_requests a !! id) as [p|] eqn:Hr.
    + by apply (Release_wf a id p).
    + unfold Release. by rewrite Hr.
  - split; [by apply Reset_wf|constructor].
Qed.

Lemma reachable_inv s : reachable s → inv s.
Proof.
  intros (opts & a & Hopts & Hnew & Hs). assert (inv (a, [])) as Hi.
  { split; [by eapply newAllocator_wf|constructor]. }
  clear Hnew. remember (a, []) as s0 eqn:E. clear E.
  induction Hs as [s|s1 s2 s3 H12 H23 IH]; [done|]. apply IH. by eapply client_step_inv.
Qed.

Lemma wf_validateState a : wf a → validateState a = true.
Proof.
  intros [Hwf _ _]. unfold validateState. apply andb_true_iff. split.
  - apply forallb_forall. intros [id p] Hin%list_elem_of_In%elem_of_map_range. cbn.
    rewrite (wf_req_id _ _ Hwf id p Hin). destruct (attached_zone _ _ _ Hwf Hin) as [m Hm].
    rewrite Hm. apply bool_decide_eq_true. symmetry. by eapply wf_req_zone.
  - apply forallb_forall. intros [m z] Hin%list_elem_of_In%elem_of_map_range. cbn.
    apply forallb_forall. intros [id p] Hp%list_elem_of_In%elem_of_map_range. cbn.
    destruct (wf_zone_user _ _ Hwf _ _ _ _ Hin Hp) as (_ & -> & ->). by apply bool_decide_eq_true.
Qed.

(** C3: In every state that a client can reach with the operations of an
    allocator, from its creation with the default handling of overcommit on, if it
    commits no offer that it got before an Allocate or a Realloc and that is still
    valid ([client_step]), the allocator is consistent: requests, assignments and
    zones agree with each other and with the cached masks, no journal is left
    open, every registered request has a zone, and the self-check that runs after
    every operation finds nothing to complain about.  The restriction, which the
    documentation of offers implies and the code does not enforce, is needed: see
    [stale_offer_inconsistent] in MemWitness. *)
Theorem reachable_consistent a os : reachable (a, os) → wf a ∧ validateState a = true.
Proof. intros [Hwf _]%reachable_inv. split; [done|]. by apply wf_validateState. Qed.
End inv.
End reach.
