(* ===== verification/MemWitness.v ===== *)
(** * Examples of the memory allocator

    The theorems about the allocator applied in an example: a machine with two
    DRAM and two PMEM nodes, and requests that fit, that need room to be made,
    and that do not fit at all. *)

From S2P Require Import Prelude GoStrings MemTypes MemNodes MemRequest MemZones MemAllocator MemState MemExpand MemOvercommit MemAlloc MemOps MemOffers MemRealloc MemSystem.

#[local] Existing Instance go_default.

Definition ex_sys : list SysNode :=
  [MkSysNode 0 (Some 4) sysfs_MemoryTypeDRAM true {[0; 1]} [10; 21; 17; 28];
   MkSysNode 1 (Some 4) sysfs_MemoryTypeDRAM true {[2; 3]} [21; 10; 28; 17];
   MkSysNode 2 (Some 16) sysfs_MemoryTypePMEM false ∅ [17; 28; 10; 28];
   MkSysNode 3 (Some 16) sysfs_MemoryTypePMEM false ∅ [28; 17; 28; 10]].

Definition ex_new : res (Allocator * CustomFunctions) := newAllocator [WithSystemNodes ex_sys].

Definition ex_fresh : Allocator :=
  match ex_new with
  | Ok (a, _) => a
  | Err _ => MkAllocator ∅ ∅ ∅ ∅ (NewMaskCache []) 0 None ∅
  end.

Definition ex_r1 : Request := Container 1 "c1" "one" "Burstable" 3 1.
Definition ex_r2 : Request := ContainerWithStrictTypes 2 "c2" "two" "Guaranteed" 3 1 TypeMaskDRAM.
Definition ex_r3 : Request := Container 3 "c3" "three" "Guaranteed" 100 1.

(** A client makes a new request. *)
Definition ex_add (p : positive) (r : Request) (a : Allocator) : Allocator :=
  with_heap (<[p := r]> (a_heap a)) a.

(** The requests exist, none is allocated. *)
Definition ex_a0 : Allocator := ex_add 3 ex_r3 (ex_add 2 ex_r2 (ex_add 1 ex_r1 ex_fresh)).

Definition ex_a1 : Allocator := (Allocate no_custom 1 ex_a0).1.
Abbreviation ex_a2 := (Allocate no_custom 2 ex_a1).1.

Definition ex_moved : gmap string Z := {["c1" := 3]}.

(** ** The states of the example are consistent *)

Lemma ex_a0_wf : wf ex_a0.
Proof.
  do 3 (apply heap_grow_wf; [|by vm_compute]).
  apply (newAllocator_wf [WithSystemNodes ex_sys] ex_fresh no_custom); [|by vm_compute].
  constructor; [|done]. apply OptSystem. repeat constructor; cbn; lia.
Qed.

Lemma ex_a1_wf : wf ex_a1.
Proof. eapply Allocate_preserves_wf; [apply _|apply ex_a0_wf|by vm_compute]. Qed.

Lemma fits_by_computation a :
  bool_decide (map_Forall (λ m _, 0 ≤ zoneFree a m) (a_zones a)) = true → fits a.
Proof. intros Hf%bool_decide_eq_true m z Hz. by apply (Hf m z). Qed.

Lemma strict_by_computation a :
  bool_decide (map_Forall (λ _ p, r_strict (req a p) = false) (a_requests a)) = true → strict_ok a.
Proof. intros Hf%bool_decide_eq_true id p m Hr Hs _. specialize (Hf id p Hr). cbn in Hf. congruence. Qed.

Lemma outcome {A B} (r : A * B) x : r.2 = x → r = (r.1, x).
Proof. by intros <-; destruct r. Qed.

(** ** The theorems in the example *)

Lemma Allocate_atomic_witness :
  alloc_eq ex_a1 (Allocate no_custom 3 ex_a1).1 ∧ a_version (Allocate no_custom 3 ex_a1).1 = 1.
Proof.
  destruct (Allocate_atomic no_custom ex_a1 3 ex_r3 (Allocate no_custom 3 ex_a1).1 ErrNoMem ex_a1_wf)
    as (? & ? & ?); [by vm_compute|apply outcome; by vm_compute|]. split; [assumption|by vm_compute].
Defined.

Lemma Allocate_success_witness : a_users ex_a2 !! "c2" = Some 1 ∧ updates_of "c2" ex_a1 ex_a2 ex_moved.
Proof.
  destruct (Allocate_success no_custom ex_a1 2 ex_r2 ex_a2 1 ex_moved ex_a1_wf)
    as (? & ? & ? & ? & ? & ? & ?); [by vm_compute|apply outcome; by vm_compute|]. split; assumption.
Defined.

Lemma Allocate_terminates_witness : (Allocate no_custom 3 ex_a1).2 ≠ Err OutOfFuel.
Proof. apply (Allocate_terminates no_custom eq_refl ex_a1 3 ex_r3 ex_a1_wf). by vm_compute. Defined.

Lemma Allocate_fits_witness : fits ex_a2.
Proof.
  apply (Allocate_fits no_custom eq_refl ex_a1 2 ex_r2 ex_a2 1 ex_moved ex_a1_wf);
    [apply fits_by_computation; by vm_compute|by vm_compute|apply outcome; by vm_compute].
Defined.

Lemma Allocate_keeps_nodes_witness : ∃ m', a_users ex_a2 !! "c1" = Some m' ∧ submask 1 m'.
Proof.
  destruct (Allocate_keeps_nodes no_custom eq_refl ex_a1 2 ex_r2 ex_a2 1 ex_moved "c1" 1 1 ex_a1_wf)
    as (m' & ? & ? & _); [by vm_compute|apply outcome; by vm_compute|by vm_compute|by vm_compute|].
  exists m'. split; assumption.
Defined.

Lemma Allocate_normal_memory_witness : submask 1 (mc_all (a_masks ex_a1)).
Proof.
  destruct (Allocate_normal_memory no_custom eq_refl ex_a1 2 ex_r2 ex_a2 1 ex_moved ex_a1_wf)
    as [_ Hsub]; [by vm_compute|apply outcome; by vm_compute|]. by apply Hsub.
Defined.

Lemma Allocate_strict_witness : strict_ok ex_a2 ∧ types_of ex_a1 1 = TypeMaskDRAM.
Proof.
  destruct (Allocate_strict no_custom eq_refl ex_a1 2 ex_r2 ex_a2 1 ex_moved ex_a1_wf)
    as [Hs Ht]; [|done|by vm_compute|apply outcome; by vm_compute|].
  - by apply strict_by_computation; vm_compute.
  - split; [assumption|by apply Ht].
Defined.

Lemma GetOffer_pure_witness : alloc_eq ex_a1 (GetOffer no_custom 2 ex_a1).1.
Proof. apply (GetOffer_pure no_custom ex_a1 2 ex_r2 ex_a1_wf). by vm_compute. Defined.

Definition ex_offer : Offer := MkOffer 1 2 (<["c2" := 1]> ex_moved).

Lemma ex_offer_made : GetOffer no_custom 2 ex_a1 = ((GetOffer no_custom 2 ex_a1).1, Ok ex_offer).
Proof. apply outcome. by vm_compute. Qed.

Lemma GetOffer_Commit_Allocate_witness :
  ∃ a2 zone updates, Commit ex_offer (GetOffer no_custom 2 ex_a1).1 = (a2, Ok (zone, updates)).
Proof.
  destruct (GetOffer_Commit_Allocate no_custom ex_a1 2 ex_r2 (GetOffer no_custom 2 ex_a1).1 ex_offer ex_a1_wf)
    as (a2 & a3 & zone & updates & Hc & _); [by vm_compute|exact ex_offer_made|].
  exists a2, zone, updates. assumption.
Defined.

Lemma Commit_expires_witness :
  Commit ex_offer (Commit ex_offer (GetOffer no_custom 2 ex_a1).1).1
  = ((Commit ex_offer (GetOffer no_custom 2 ex_a1).1).1, Err ErrExpiredOffer).
Proof.
  apply (Commit_expires ex_offer ex_offer (GetOffer no_custom 2 ex_a1).1
    (Commit ex_offer (GetOffer no_custom 2 ex_a1).1).1 1 ex_moved).
  - destruct (GetOffer_inv no_custom ex_a1 2 ex_r2 (GetOffer no_custom 2 ex_a1).1 ex_offer ex_a1_wf)
      as (_ & _ & _ & _ & _ & _ & Hwf & _);
      [by vm_compute|exact ex_offer_made|exact Hwf].
  - apply (GetOffer_offer_ok no_custom ex_a1 2 ex_r2); [apply ex_a1_wf|by vm_compute|exact ex_offer_made].
  - apply outcome. by vm_compute.
  - by vm_compute.
Defined.

Lemma Release_spec_witness : ∃ a', Release "c1" ex_a1 = (a', None) ∧ zoneFree a' 1 = 4.
Proof.
  destruct (Release_spec ex_a1 "c1" 1 ex_a1_wf) as (a' & Hr & _ & _ & _ & _ & Hf & _); [by vm_compute|].
  exists a'. split; [exact Hr|]. rewrite Hf. by vm_compute.
Defined.

Lemma Allocate_Release_witness : ∃ a2, Release "c1" ex_a1 = (a2, None) ∧ alloc_eq ex_a0 a2.
Proof.
  apply (Allocate_Release no_custom ex_a0 1 ex_r1 ex_a1 1 ex_a0_wf); [by vm_compute|].
  unfold ex_a1. apply outcome. by vm_compute.
Defined.

Lemma Realloc_atomic_witness : alloc_eq ex_a1 (Realloc no_custom "c9" 2 0 ex_a1).1.
Proof.
  apply (Realloc_atomic no_custom eq_refl ex_a1 "c9" 2 0 (Realloc no_custom "c9" 2 0 ex_a1).1 ErrUnknownRequest
    ex_a1_wf).
  apply outcome. by vm_compute.
Defined.

Abbreviation ex_realloc := (Realloc no_custom "c1" 0 TypeMaskPMEM ex_a1).1.

Lemma Realloc_expansive_witness : a_users ex_realloc !! "c1" = Some 5 ∧ submask (r_zone (req ex_a1 1)) 5.
Proof.
  destruct (Realloc_expansive no_custom eq_refl ex_a1 "c1" 1 0 TypeMaskPMEM ex_realloc 5 ∅ ex_a1_wf)
    as (_ & Hu & Hs & _); [by vm_compute|apply outcome; by vm_compute|]. split; assumption.
Defined.

Lemma Realloc_fits_witness : 0 ≤ zoneFree ex_realloc 5.
Proof.
  apply (Realloc_fits no_custom eq_refl ex_a1 "c1" 1 0 TypeMaskPMEM ex_realloc 5 ∅ ex_a1_wf) with (id' := "c1").
  - apply fits_by_computation. by vm_compute.
  - by vm_compute.
  - apply outcome. by vm_compute.
  - by vm_compute.
Defined.

Lemma reachable_consistent_witness : wf ex_a1.
Proof.
  apply (reachable_consistent no_custom eq_refl ex_a1 []).
  exists [WithSystemNodes ex_sys], ex_fresh. split_and!.
  - constructor; [|done]. apply OptSystem. repeat constructor; cbn; lia.
  - by vm_compute.
  - eapply rtc_l; [apply (StepNewRequest no_custom _ _ 1 ex_r1); by vm_compute|].
    eapply rtc_l; [apply (StepNewRequest no_custom _ _ 2 ex_r2); by vm_compute|].
    eapply rtc_l; [apply (StepNewRequest no_custom _ _ 3 ex_r3); by vm_compute|].
    apply rtc_once. apply (StepAllocate no_custom ex_a0 [] 1). exists ex_r1. by vm_compute.
Defined.

Lemma newAllocator_masks_witness :
  Z.testbit (NodesByTypes (a_masks ex_fresh) (TypeMaskDRAM ||| TypeMaskHBM)) 1 = true.
Proof.
  apply (newAllocator_masks [WithSystemNodes ex_sys] ex_fresh no_custom (TypeMaskDRAM ||| TypeMaskHBM) 1).
  - constructor; [|done]. apply OptSystem. repeat constructor; cbn; lia.
  - by vm_compute.
  - split; by vm_compute.
  - done.
  - destruct (a_nodes ex_fresh !! 1) as [n|] eqn:Hn; [|by vm_compute in Hn].
    exists n. vm_compute in Hn. injection Hn as <-. split_and!; reflexivity.
Defined.

Lemma defaultExpand_complete_witness : (defaultExpand ex_a1 1 TypeMaskPMEM).1 ≠ 0.
Proof.
  pose proof (defaultExpand_complete ex_a1 (wf_config _ ex_a1_wf) 1 TypeMaskPMEM) as He.
  destruct (defaultExpand ex_a1 1 TypeMaskPMEM) as [nodes types]. cbn [fst].
  destruct (a_nodes ex_a1 !! 0) as [n|] eqn:Hn; [|by vm_compute in Hn].
  destruct He as (_ & _ & _ & _ & He). apply (He 0 n 2 TypePMEM); [lia|exact Hn|reflexivity|reflexivity|].
  vm_compute in Hn. injection Hn as <-. split_and!; [lia|reflexivity| |reflexivity|].
  - destruct (a_nodes ex_a1 !! 2) as [y|] eqn:Hy; [|by vm_compute in Hy].
    exists y. vm_compute in Hy. injection Hy as <-. split_and!; reflexivity.
  - repeat constructor; by vm_compute.
Defined.

(** ** Where the code differs from its documentation *)

(** [Allocate] does not invalidate offers: an offer for the last memory of a node
    that was made before another request got that memory is still valid, and
    committing it overcommits the node. *)
Theorem Allocate_keeps_offers :
  let '(a, offer) := GetOffer no_custom 2 ex_a0 in
  let b := (Allocate no_custom 1 a).1 in
  match offer with
  | Ok o => Offer_IsValid o b = true ∧ zoneFree b 1 = 1 ∧ zoneFree (Commit o b).1 1 = -2
  | Err _ => False
  end.
Proof. vm_compute. split_and!; reflexivity. Qed.

(** An offer for a request that has been allocated since can be committed, too:
    if it was made before another allocation, the self-check fails. *)
Theorem stale_offer_inconsistent :
  let '(a, offer) := GetOffer no_custom 1 ex_a0 in
  let b := (Allocate no_custom 1 (Allocate no_custom 2 a).1).1 in
  match offer with
  | Ok o => validateState b = true ∧ Offer_IsValid o b = true ∧ validateState (Commit o b).1 = false
  | Err _ => False
  end.
Proof. vm_compute. split_and!; reflexivity. Qed.

(** [Realloc] refuses to add an existing node with plenty of free memory to a
    request if there is no further node of the same type beyond it. *)
Theorem Realloc_last_node_refused :
  zoneFree ex_a1 2 = 4 ∧ (Realloc no_custom "c1" 2 0 ex_a1).2 = Err ErrNoMem.
Proof. vm_compute. split; reflexivity. Qed.
