(* ===== verification/Expr.v ===== *)
(** * Expressions (pkg/apis/resmgr/v1alpha1/expression.go)

    Conditions on containers and pods: validation, evaluation, resolving of
    key references and their expansion in strings; and the objects they are
    evaluated against (pkg/resmgr/cache/container.go, pod.go). *)

From Stdlib Require Import Ascii.
From S2P Require Import Prelude GoStrings.

Open Scope string_scope.

(** ** Data *)

(** An operator is a string in Go; [OpUnknown] is any other string. *)
Inductive Operator :=
  | Equals | NotEqual | In | NotIn | Exists | NotExist | AlwaysTrue
  | Matches | MatchesNot | MatchesAny | MatchesNone
  | OpUnknown (s : string).

Record Expression := MkExpression {
  Key : string;
  Op : Operator;
  Values : list string;
}.

Definition KeyPod := "pod".
Definition KeyID := "id".
Definition KeyUID := "uid".
Definition KeyName := "name".
Definition KeyNamespace := "namespace".
Definition KeyQOSClass := "qosclass".
Definition KeyLabels := "labels".
Definition KeyTags := "tags".

(** What [EvalKey] can return: another object to look into, a map, a string,
    an error, or a value of some other type. *)
Inductive obj :=
  | OEval (evalKey : string → obj)
  | OMap (m : gmap string string)
  | OString (s : string)
  | OError
  | OOther.

(** The interface expressions are evaluated against. *)
Record Evaluable := MkEvaluable {
  EvalKey : string → obj;
  EvalRef : string → string * bool;
}.

(** ** Keys *)

Definition validSeparator (b : ascii) : bool :=
  let n := nat_of_ascii b in
  if Nat.leb 48 n && Nat.leb n 57 then false
  else if Nat.leb 97 n && Nat.leb n 122 then false
  else if Nat.leb 65 n && Nat.leb n 90 then false
  else if bool_decide (b = c_slash ∨ b = c_dot) then false
  else true.

Definition splitKeys (keys : string) : list string * string :=
  match keys with
  | String c (String ksep (String vsep (String x rest))) =>
      if bool_decide (c ≠ c_colon) then ([keys], "")
      else if validSeparator ksep && validSeparator vsep
      then (split_on ksep (String x rest), String vsep "")
      else (split_on c_colon (String ksep (String vsep (String x rest))), String c_colon "")
  | _ => ([keys], "")
  end.

(** ** Validation *)

(** The loop over the components of a key; every round is given a shorter
    key. *)
Fixpoint validate_key (rounds : nat) (key : string) : res unit :=
  match rounds with
  | O => Err OutOfFuel
  | S rounds' =>
      let '(prefKey, rest) := cut c_slash key in
      let restKey := default "" rest in
      if bool_decide (prefKey ∈ [KeyID; KeyUID; KeyName; KeyNamespace; KeyQOSClass]) then
        if bool_decide (restKey ≠ "") then Err ErrOther else Ok tt
      else if bool_decide (prefKey = KeyPod) then
        if bool_decide (restKey = "") then Err ErrOther else validate_key rounds' restKey
      else if bool_decide (prefKey = KeyLabels ∨ prefKey = KeyTags) then
        if bool_decide (restKey = "") then Err ErrOther else Ok tt
      else Err ErrOther
  end.

Fixpoint validate_keys (keys : list string) : res unit :=
  match keys with
  | [] => Ok tt
  | key :: keys' =>
      let key := trim_left_by (λ c, bool_decide (c = c_slash)) key in
      let! _ := validate_key (S (String.length key)) key in
      validate_keys keys'
  end.

Definition validateKey (e : Expression) : res unit := validate_keys (splitKeys (Key e)).1.

(** A nil expression is [None]. *)
Definition Validate (e : option Expression) : res unit :=
  match e with
  | None => Err ErrOther
  | Some e =>
      let! _ := validateKey e in
      match Op e with
      | Equals | NotEqual => if bool_decide (length (Values e) ≠ 1%nat) then Err ErrOther else Ok tt
      | Matches | MatchesNot => if bool_decide (length (Values e) ≠ 1%nat) then Err ErrOther else Ok tt
      | Exists | NotExist => if bool_decide (length (Values e) ≠ 0%nat) then Err ErrOther else Ok tt
      | In | NotIn => Ok tt
      | MatchesAny | MatchesNone => Ok tt
      | AlwaysTrue => if bool_decide (length (Values e) ≠ 0%nat) then Err ErrOther else Ok tt
      | OpUnknown _ => Err ErrOther
      end
  end.

(** ** Resolving keys *)

(** One look-up: the object found and what is left of the key. [Ok None] is a
    map without the key. *)
Definition resolve_step (o : obj) (key : string) : res (option (obj * string)) :=
  match o with
  | OEval evalKey =>
      let '(pref, rest) := cut c_slash key in Ok (Some (evalKey pref, default "" rest))
  | OMap m =>
      match m !! key with
      | None => Ok None
      | Some value => Ok (Some (OString value, ""))
      end
  | _ => Err ErrOther
  end.

(** [Ok (Some s)] is a value that was found, [Ok None] a reference without
    value, [Err] an error. *)
Fixpoint resolve_loop (rounds : nat) (o : obj) (key : string) : res (option string) :=
  match rounds with
  | O => Err OutOfFuel
  | S rounds' =>
      match resolve_step o key with
      | Err e => Err e
      | Ok None => Ok None
      | Ok (Some (o, key)) =>
          if bool_decide (key = "") then
            match o with
            | OString s => Ok (Some s)
            | _ => Err ErrOther
            end
          else resolve_loop rounds' o key
      end
  end.

Definition ResolveRef (subject : Evaluable) (spec : string) : res (option string) :=
  let key := path_clean spec in
  resolve_loop (S (String.length key)) (OEval (EvalKey subject)) key.

(** The value and whether it was found, an error being ignored. *)
Definition found (r : res (option string)) : string * bool :=
  match r with
  | Ok (Some s) => (s, true)
  | _ => ("", false)
  end.

Definition KeyValue (key : string) (subject : Evaluable) : string * bool :=
  let '(keys, vsep) := splitKeys key in
  match keys with
  | [key] => found (ResolveRef subject key)
  | _ =>
      let vals := (λ key, found (ResolveRef subject key)) <$> keys in
      (join vsep (vals.*1), existsb snd vals)
  end.

(** ** Evaluation *)

(** [e.Values[0]]; without values the code panics. *)
Definition value0 (e : Expression) : res string :=
  match Values e with
  | v :: _ => Ok v
  | [] => Err Panic
  end.

Definition Evaluate (e : Expression) (subject : Evaluable) : res bool :=
  match Op e with
  | AlwaysTrue => Ok true
  | _ =>
      let '(value, ok) := KeyValue (Key e) subject in
      match Op e with
      | Equals =>
          if ok then let! v := value0 e in Ok (bool_decide (value = v ∨ v = "*")) else Ok false
      | NotEqual =>
          if ok then let! v := value0 e in Ok (bool_decide (value ≠ v)) else Ok true
      | Matches | MatchesNot =>
          let! matched := (if ok then let! v := value0 e in Ok (filepath_Match v value) else Ok false) in
          let result := (ok && matched)%bool in
          Ok (match Op e with MatchesNot => negb result | _ => result end)
      | In | NotIn =>
          let result := (ok && existsb (λ v, bool_decide (value = v ∨ v = "*")) (Values e))%bool in
          Ok (match Op e with NotIn => negb result | _ => result end)
      | MatchesAny | MatchesNone =>
          let result := (ok && existsb (λ pattern, filepath_Match pattern value) (Values e))%bool in
          Ok (match Op e with MatchesNone => negb result | _ => result end)
      | Exists => Ok ok
      | NotExist => Ok (negb ok)
      | _ => Ok false
      end
  end.

(** ** Expansion *)

Definition c_dollar : ascii := "$"%char.
Definition c_lcurly : ascii := "{"%char.
Definition c_rcurly : ascii := "}"%char.

(** The loop of [Expand]: [key] is the reference being read, with whether it
    is in curly brackets, if [buf] is not [result]. *)
Fixpoint expand_loop (evalRef : string → string * bool) (mustResolve : bool) (src : string)
    (result : string) (key : option (string * bool)) : res string :=
  let subst (k : string) : res string :=
    let '(val, ok) := evalRef k in
    if negb ok && mustResolve then Err ErrOther else Ok (str_app result val) in
  match src with
  | EmptyString =>
      match key with
      | None => Ok result
      | Some (k, curly) =>
          if curly || bool_decide (k = "") then Err ErrOther else subst k
      end
  | String c src' =>
      match key with
      | None =>
          if bool_decide (c = c_dollar)
          then expand_loop evalRef mustResolve src' result (Some ("", false))
          else expand_loop evalRef mustResolve src' (str_app result (String c "")) None
      | Some (k, curly) =>
          if bool_decide (c = c_dollar) then
            if (curly : bool) then Err ErrOther
            else if bool_decide (k = "")
            then expand_loop evalRef mustResolve src' (str_app result (String c "")) None
            else
              let! result := subst k in
              expand_loop evalRef mustResolve src' result (Some ("", false))
          else if bool_decide (c = c_lcurly) then
            if curly || bool_decide (k ≠ "") then Err ErrOther
            else expand_loop evalRef mustResolve src' result (Some (k, true))
          else if bool_decide (c = c_rcurly) then
            if negb curly || bool_decide (k = "") then Err ErrOther
            else
              let! result := subst k in
              expand_loop evalRef mustResolve src' result None
          else expand_loop evalRef mustResolve src' result (Some (str_app k (String c ""), curly))
      end
  end.

Definition Expand (src : string) (subject : Evaluable) (mustResolve : bool) : res string :=
  expand_loop (EvalRef subject) mustResolve src "" None.

(** ** Containers and pods *)

Record pod := MkPod {
  p_id : string;
  p_uid : string;
  p_name : string;
  p_namespace : string;
  p_qosClass : string;
  p_labels : gmap string string;
}.

Record container := MkContainer {
  c_id : string;
  c_podID : string;
  c_name : string;
  c_labels : gmap string string;
  c_tags : gmap string string;
}.

(** The QoS class of a pod is a [v1.PodQOSClass], not a [string]. *)
Definition pod_EvalKey (p : pod) (key : string) : obj :=
  if bool_decide (key = KeyName) then OString (p_name p)
  else if bool_decide (key = KeyNamespace) then OString (p_namespace p)
  else if bool_decide (key = KeyQOSClass) then OOther
  else if bool_decide (key = KeyLabels) then OMap (p_labels p)
  else if bool_decide (key = KeyID) then OString (p_id p)
  else if bool_decide (key = KeyUID) then OString (p_uid p)
  else OError.

(** [KeyValue] asks its subject for [EvalKey] only. *)
Definition pod_EvalRef (p : pod) (key : string) : string * bool :=
  KeyValue key (MkEvaluable (pod_EvalKey p) (λ _, ("", false))).

Definition pod_Evaluable (p : pod) : Evaluable := MkEvaluable (pod_EvalKey p) (pod_EvalRef p).

Definition pod_ScopeExpression (p : pod) : Expression := MkExpression "pod/name" Equals [p_name p].

(** The pods the cache knows. *)
Section container.
Context (pods : gmap string pod).

Definition GetPod (c : container) : option pod := pods !! c_podID c.

Definition GetNamespace (c : container) : string :=
  match GetPod c with Some p => p_namespace p | None => "" end.

Definition GetQOSClass (c : container) : string :=
  match GetPod c with Some p => p_qosClass p | None => "" end.

Definition container_EvalKey (c : container) (key : string) : obj :=
  if bool_decide (key = KeyPod) then
    match GetPod c with
    | Some p => OEval (pod_EvalKey p)
    | None => OError
    end
  else if bool_decide (key = KeyName) then OString (c_name c)
  else if bool_decide (key = KeyNamespace) then OString (GetNamespace c)
  else if bool_decide (key = KeyQOSClass) then OString (GetQOSClass c)
  else if bool_decide (key = KeyLabels) then OMap (c_labels c)
  else if bool_decide (key = KeyTags) then OMap (c_tags c)
  else if bool_decide (key = KeyID) then OString (c_id c)
  else OError.

Definition container_EvalRef (c : container) (key : string) : string * bool :=
  KeyValue key (MkEvaluable (container_EvalKey c) (λ _, ("", false))).

Definition container_Evaluable (c : container) : Evaluable :=
  MkEvaluable (container_EvalKey c) (container_EvalRef c).

Definition container_Expand (c : container) (src : string) (mustResolve : bool) : res string :=
  Expand src (container_Evaluable c) mustResolve.
End container.
