(* ===== verification/ExprFacts.v ===== *)
(** * Correctness of expressions

    Validation rules out run-time panics, resolving ends, negated operators
    negate, joint keys join, and expansion substitutes references. *)

From Stdlib Require Import Ascii.
From S2P Require Import Prelude GoStrings Expr.

Open Scope string_scope.

(** ** Termination *)

Lemma cut_shorter sep s b r : cut sep s = (b, Some r) → (String.length r < String.length s)%nat.
Proof.
  revert b r. induction s as [|c s IH]; intros b r; [done|]. cbn.
  case_bool_decide; [intros [= _ <-]; lia|].
  destruct (cut sep s) as [b' [r'|]]; [|done]. intros [= _ <-]. specialize (IH _ _ eq_refl). lia.
Qed.

Lemma resolve_loop_total rounds o key :
  (String.length key < rounds)%nat → resolve_loop rounds o key ≠ Err OutOfFuel.
Proof.
  revert o key. induction rounds as [|rounds IH]; intros o key Hr; [lia|].
  cbn [resolve_loop]. destruct o as [ek|m|s| |]; cbn [resolve_step]; try done.
  - destruct (cut c_slash key) as [pref [rest|]] eqn:Hc.
    + case_bool_decide; [by destruct (ek pref)|]. apply IH.
      apply cut_shorter in Hc. change (default "" (Some rest)) with rest. lia.
    + rewrite bool_decide_eq_true_2 by done. by destruct (ek pref).
  - destruct (m !! key); [|done]. by rewrite bool_decide_eq_true_2.
Qed.

Lemma validate_key_total rounds key :
  (String.length key < rounds)%nat → validate_key rounds key ≠ Err OutOfFuel.
Proof.
  revert key. induction rounds as [|rounds IH]; intros key Hr; [lia|].
  cbn [validate_key]. destruct (cut c_slash key) as [pref rest] eqn:Hc.
  case_bool_decide; [by case_bool_decide|].
  case_bool_decide; [|by repeat case_bool_decide].
  case_bool_decide as Hr0; [done|]. apply IH. destruct rest as [rest|]; [|by destruct Hr0].
  apply cut_shorter in Hc. change (default "" (Some rest)) with rest. lia.
Qed.

(** Resolving a reference and validating an expression always come to an
    end, whatever object is looked into and whatever the key looks like. *)
Theorem ResolveRef_Validate_total subject spec e :
  ResolveRef subject spec ≠ Err OutOfFuel ∧ Validate e ≠ Err OutOfFuel.
Proof.
  split; [apply resolve_loop_total; lia|].
  destruct e as [e|]; [|done]. unfold Validate, validateKey.
  assert (∀ keys, validate_keys keys ≠ Err OutOfFuel) as Hk.
  { induction keys as [|k keys IH]; [done|]. cbn [validate_keys].
    set (k' := trim_left_by _ k).
    pose proof (validate_key_total (S (String.length k')) k') as Ht.
    destruct (validate_key _ k') as [[]|err]; [exact IH|].
    cbn. intros [= ->]. apply Ht; [lia|done]. }
  destruct (validate_keys _) as [[]|err] eqn:Hv; cbn [res_bind].
  - destruct (Op e); repeat case_bool_decide; done.
  - intros [= ->]. by apply (Hk _ Hv).
Qed.

(** ** Evaluation *)

Lemma valid_evaluates e subject :
  Validate (Some e) = Ok tt → ∃ b, Evaluate e subject = Ok b.
Proof.
  unfold Validate. destruct (validateKey e) as [[]|]; [|done]. cbn [res_bind].
  intros Hv. unfold Evaluate.
  assert ((if bool_decide (length (Values e) ≠ 1%nat) then Err ErrOther else Ok tt) = Ok tt →
    ∃ v, value0 e = Ok v) as Hone.
  { case_bool_decide as Hl; [done|]. intros _. unfold value0. destruct (Values e); [done|eauto]. }
  destruct (KeyValue (Key e) subject) as [value ok].
  destruct (Op e); try (eexists; reflexivity); try done;
    (destruct ok; [|eexists; reflexivity]); destruct (Hone Hv) as [v ->]; eexists; reflexivity.
Qed.

(** C40: Evaluating an expression that passed validation never panics. *)
Theorem Validate_Evaluate e subject :
  Validate (Some e) = Ok tt → Evaluate e subject ≠ Err Panic ∧ ∃ b, Evaluate e subject = Ok b.
Proof. intros (b & ->)%(valid_evaluates _ subject). eauto. Qed.

(** The operator that is meant to say the opposite. *)
Definition opposite (op : Operator) : option Operator :=
  match op with
  | Equals => Some NotEqual
  | Matches => Some MatchesNot
  | In => Some NotIn
  | MatchesAny => Some MatchesNone
  | Exists => Some NotExist
  | _ => None
  end.

(** [NotIn], [MatchesNot], [MatchesNone] and [NotExist] are exactly the
    negations of [In], [Matches], [MatchesAny] and [Exists], also for keys
    that do not resolve, and so is [NotEqual] of [Equals] for every value
    but the wild card. *)
Theorem opposite_negates key op op' values subject b :
  opposite op = Some op' → (op = Equals → values ≠ ["*"]) →
  length values = 1%nat ∨ op ≠ Equals →
  Evaluate (MkExpression key op values) subject = Ok b →
  Evaluate (MkExpression key op' values) subject = Ok (negb b).
Proof.
  intros Hop Hstar Hlen. unfold Evaluate.
  destruct op; simplify_eq/=; destruct (KeyValue key subject) as [value ok]; cbn.
  - destruct Hlen as [Hlen|]; [|done].
    destruct values as [|v [|? ?]]; [done| |done]. cbn.
    destruct ok; cbn; intros [= <-]; [|done]. f_equal.
    rewrite <- bool_decide_not. apply bool_decide_ext. specialize (Hstar eq_refl).
    split; [intros Hne [|Hv]; [done|by subst]|tauto].
  - intros [= <-]. by f_equal.
  - by intros [= <-].
  - destruct ok; cbn; [|by intros [= <-]].
    destruct (value0 _) as [v|]; [|done]. cbn. by intros [= <-].
  - by intros [= <-].
Qed.

(** The wild card is honoured by [Equals] but not by [NotEqual]: with the
    wild card as the value both hold of the same container. *)
Theorem NotEqual_wildcard key subject value :
  KeyValue key subject = (value, true) → value ≠ "*" →
  Evaluate (MkExpression key Equals ["*"]) subject = Ok true ∧
  Evaluate (MkExpression key NotEqual ["*"]) subject = Ok true.
Proof.
  intros Hk Hv. unfold Evaluate. cbn. rewrite Hk. cbn.
  by rewrite !bool_decide_eq_true_2 by (by auto).
Qed.

(** ** Joint keys *)

Lemma splitKeys_joint ksep vsep keys :
  validSeparator ksep = true → validSeparator vsep = true →
  keys ≠ [] → join (String ksep "") keys ≠ "" →
  Forall (λ k, in_string ksep k = false) keys →
  splitKeys (String c_colon (String ksep (String vsep (join (String ksep "") keys))))
  = (keys, String vsep "").
Proof.
  intros Hk Hv Hne Hj Hf. pose proof (split_on_join ksep keys Hne Hf) as Hs.
  destruct (join (String ksep "") keys) as [|x rest]; [done|].
  cbn [splitKeys]. rewrite bool_decide_eq_false_2 by (by intros []). by rewrite Hk, Hv, Hs.
Qed.

(** A joint key with two or more subkeys has as its value the values of
    the subkeys joined with the given separator, the empty string for those
    that do not resolve, and it exists if any of the subkeys does. *)
Theorem KeyValue_joint ksep vsep k1 k2 keys subject :
  validSeparator ksep = true → validSeparator vsep = true →
  Forall (λ k, in_string ksep k = false) (k1 :: k2 :: keys) →
  KeyValue (String c_colon (String ksep (String vsep (join (String ksep "") (k1 :: k2 :: keys)))))
    subject
  = let vals := (λ key, found (ResolveRef subject key)) <$> (k1 :: k2 :: keys) in
    (join (String vsep "") (vals.*1), existsb snd vals).
Proof.
  intros Hk Hv Hf. unfold KeyValue. rewrite splitKeys_joint; [done|done|done|done| |done].
  cbn [join]. by destruct k1.
Qed.

(** ** Expansion *)

(** A source string as a list of literal text and bracketed references. *)
Inductive token :=
  | TLit (s : string)
  | TRef (key : string).

Fixpoint escape (s : string) : string :=
  match s with
  | EmptyString => ""
  | String c s' =>
      if bool_decide (c = c_dollar) then String c (String c (escape s')) else String c (escape s')
  end.

Definition render_token (t : token) : string :=
  match t with
  | TLit s => escape s
  | TRef key => String c_dollar (String c_lcurly (str_app key (String c_rcurly "")))
  end.

Fixpoint render (ts : list token) : string :=
  match ts with
  | [] => ""
  | t :: ts' => str_app (render_token t) (render ts')
  end.

Definition key_char (c : ascii) : bool :=
  negb (bool_decide (c = c_dollar ∨ c = c_lcurly ∨ c = c_rcurly)).

Definition token_ok (t : token) : Prop :=
  match t with
  | TLit _ => True
  | TRef key => key ≠ "" ∧ all_chars key_char key = true
  end.

(** What the tokens stand for. *)
Fixpoint meaning (evalRef : string → string * bool) (mustResolve : bool) (ts : list token)
    (acc : string) : res string :=
  match ts with
  | [] => Ok acc
  | TLit s :: ts' => meaning evalRef mustResolve ts' (str_app acc s)
  | TRef key :: ts' =>
      let '(val, ok) := evalRef key in
      if negb ok && mustResolve then Err ErrOther
      else meaning evalRef mustResolve ts' (str_app acc val)
  end.

Section expand.
Context (evalRef : string → string * bool) (mustResolve : bool).

Lemma expand_literal s rest acc :
  expand_loop evalRef mustResolve (str_app (escape s) rest) acc None
  = expand_loop evalRef mustResolve rest (str_app acc s) None.
Proof.
  revert acc. induction s as [|c s IH]; intros acc; [by rewrite str_app_nil_r|].
  cbn [escape]. case_bool_decide as Hc.
  - subst. rewrite !str_app_cons. cbn [expand_loop].
    rewrite !bool_decide_eq_true_2 by done. rewrite IH, str_app_assoc. done.
  - rewrite str_app_cons. cbn [expand_loop]. rewrite bool_decide_eq_false_2 by done.
    rewrite IH, str_app_assoc. done.
Qed.

Lemma expand_key_chars k rest acc k0 :
  all_chars key_char k = true →
  expand_loop evalRef mustResolve (str_app k rest) acc (Some (k0, true))
  = expand_loop evalRef mustResolve rest acc (Some (str_app k0 k, true)).
Proof.
  revert k0. induction k as [|c k IH]; intros k0; [by rewrite str_app_nil_r|].
  cbn [all_chars]. intros [Hc Hk]%andb_true_iff.
  unfold key_char in Hc. apply negb_true_iff, bool_decide_eq_false in Hc.
  rewrite str_app_cons. cbn [expand_loop]. rewrite !bool_decide_eq_false_2 by tauto.
  rewrite IH by done. by rewrite str_app_assoc.
Qed.

Lemma expand_meaning ts acc :
  Forall token_ok ts →
  expand_loop evalRef mustResolve (render ts) acc None = meaning evalRef mustResolve ts acc.
Proof.
  intros Hts. revert acc. induction Hts as [|t ts Ht Hts IH]; intros acc; [done|].
  cbn [render]. destruct t as [s|key]; cbn [render_token meaning].
  - by rewrite expand_literal, IH.
  - destruct Ht as [Hne Hk]. rewrite !str_app_cons, str_app_assoc. cbn [expand_loop].
    rewrite bool_decide_eq_true_2 by done.
    rewrite bool_decide_eq_false_2 by done. rewrite bool_decide_eq_true_2 by done.
    cbn [orb]. rewrite bool_decide_eq_false_2 by (by intros []).
    rewrite expand_key_chars by done. rewrite str_app_nil_l, str_app_cons, str_app_nil_l.
    cbn [expand_loop]. change (bool_decide (c_rcurly = c_dollar)) with false.
    change (bool_decide (c_rcurly = c_lcurly)) with false.
    change (bool_decide (c_rcurly = c_rcurly)) with true.
    rewrite (bool_decide_eq_false_2 (key = "")) by done. cbn [negb orb].
    destruct (evalRef key) as [val ok]. destruct (negb ok && mustResolve); [done|]. cbn. apply IH.
Qed.
End expand.

(** Expanding text with bracketed references gives the text with every
    reference replaced by its value; [$$] stands for a dollar sign, an
    unresolvable reference is an error if references must resolve, and
    nothing otherwise. *)
Theorem Expand_render ts subject mustResolve :
  Forall token_ok ts →
  Expand (render ts) subject mustResolve = meaning (EvalRef subject) mustResolve ts "".
Proof. apply expand_meaning. Qed.

(** ** Keys of containers *)

Section container.
Context (pods : gmap string pod) (c : container) (p : pod) (Hp : pods !! c_podID c = Some p).

Abbreviation value key := (KeyValue key (container_Evaluable pods c)).

Lemma container_KeyValue key :
  splitKeys key = ([key], "") → path_clean key = key →
  value key = found (resolve_loop (S (String.length key)) (OEval (container_EvalKey pods c)) key).
Proof. intros Hs Hc. unfold KeyValue. rewrite Hs. unfold ResolveRef. by rewrite Hc. Qed.

Lemma found_pod : GetPod pods c = Some p.
Proof. exact Hp. Qed.

(** The keys documented for containers and their pods have the values
    they are documented to have. *)
Theorem container_keys :
  value "name" = (c_name c, true) ∧ value "id" = (c_id c, true) ∧
  value "namespace" = (p_namespace p, true) ∧ value "qosclass" = (p_qosClass p, true) ∧
  value "pod/name" = (p_name p, true) ∧ value "pod/namespace" = (p_namespace p, true) ∧
  value "pod/id" = (p_id p, true) ∧ value "pod/uid" = (p_uid p, true).
Proof.
  split_and!; rewrite container_KeyValue by reflexivity;
    lazy -[GetPod]; rewrite ?found_pod; reflexivity.
Qed.

(** The documented key [pod/qosclass] never resolves: [pod.EvalKey] returns a
    [v1.PodQOSClass] and [ResolveRef] accepts a [string] only. *)
Theorem pod_qosclass_unresolvable :
  Validate (Some (MkExpression "pod/qosclass" Exists [])) = Ok tt ∧
  value "pod/qosclass" = ("", false).
Proof.
  split; [reflexivity|]. rewrite container_KeyValue by reflexivity.
  lazy -[GetPod]. by rewrite found_pod.
Qed.
End container.

(** Validation skips leading slashes of a key, resolving does not: such a key
    is valid but never has a value. *)
Lemma leading_slash_unresolvable pods c :
  Validate (Some (MkExpression "/name" Exists [])) = Ok tt ∧
  KeyValue "/name" (container_Evaluable pods c) = ("", false).
Proof. split; reflexivity. Qed.

(** An expression that is always true but has no key is not valid. *)
Lemma AlwaysTrue_needs_key : Validate (Some (MkExpression "" AlwaysTrue [])) = Err ErrOther.
Proof. reflexivity. Qed.

(** ** Examples *)

Definition ex_pod : pod := MkPod "p1" "u1" "web" "shop" "Burstable" {["app" := "web"]}.
Definition ex_ctr : container := MkContainer "c1" "p1" "nginx" {["tier" := "front"]} ∅.
Definition ex_pods : gmap string pod := {["p1" := ex_pod]}.

Lemma Validate_Evaluate_witness :
  ∃ b, Evaluate (MkExpression "pod/labels/app" In ["web"; "db"]) (container_Evaluable ex_pods ex_ctr) = Ok b.
Proof.
  apply (Validate_Evaluate (MkExpression "pod/labels/app" In ["web"; "db"]) (container_Evaluable ex_pods ex_ctr)).
  reflexivity.
Defined.

Lemma opposite_negates_witness :
  Evaluate (MkExpression "labels/tier" MatchesNone ["f*"; "b*"]) (container_Evaluable ex_pods ex_ctr) = Ok false.
Proof.
  apply (opposite_negates "labels/tier" MatchesAny MatchesNone ["f*"; "b*"]
    (container_Evaluable ex_pods ex_ctr) true); [reflexivity|done|by right|by vm_compute].
Defined.

Lemma NotEqual_wildcard_witness :
  Evaluate (MkExpression "name" NotEqual ["*"]) (container_Evaluable ex_pods ex_ctr) = Ok true.
Proof.
  apply (NotEqual_wildcard "name" (container_Evaluable ex_pods ex_ctr) "nginx"); [by vm_compute|done].
Defined.

Lemma KeyValue_joint_witness :
  KeyValue ":,-namespace,name,tags/x" (container_Evaluable ex_pods ex_ctr) = ("shop-nginx-", true).
Proof.
  refine (eq_trans (KeyValue_joint "," "-" "namespace" "name" ["tags/x"] (container_Evaluable ex_pods ex_ctr)
    _ _ _) _); [reflexivity|reflexivity|repeat constructor|by vm_compute].
Defined.

Lemma Expand_render_witness :
  Expand "$$5 for ${pod/name}" (container_Evaluable ex_pods ex_ctr) true = Ok "$5 for web".
Proof.
  refine (eq_trans (Expand_render [TLit "$5 for "; TRef "pod/name"] (container_Evaluable ex_pods ex_ctr) true
    _) _); [|by vm_compute].
  repeat constructor; done.
Defined.

Lemma container_keys_witness : KeyValue "pod/uid" (container_Evaluable ex_pods ex_ctr) = ("u1", true).
Proof. apply (container_keys ex_pods ex_ctr ex_pod). by vm_compute. Defined.

Lemma pod_qosclass_unresolvable_witness :
  KeyValue "pod/qosclass" (container_Evaluable ex_pods ex_ctr) = ("", false).
Proof. apply (pod_qosclass_unresolvable ex_pods ex_ctr ex_pod). by vm_compute. Defined.
