(* ===== verification/Affinity.v ===== *)
(** * Container affinities (pkg/resmgr/cache/affinity.go and
    cmd/plugins/topology-aware/policy/affinity.go)

    Annotated and implicit affinities between containers, their evaluation,
    and the affinities of a container to the pools of the topology-aware
    policy.  YAML decoding is a parameter. *)

From S2P Require Import Prelude GoStrings Expr.

Open Scope string_scope.
Open Scope Z_scope.

Record Affinity := MkAffinity {
  Scope : option Expression;
  Match : option Expression;
  Weight : Z;
}.

Definition UserWeightCutoff : Z := 1000.
Definition DefaultWeight : Z := 1.

(** Affinities by container name. *)
Abbreviation podContainerAffinity := (gmap string (list Affinity)).

(** The affinity with its weight clamped. *)
Definition Affinity_Validate (a : Affinity) : res Affinity :=
  let! _ := Validate (Scope a) in
  let! _ := Validate (Match a) in
  Ok (MkAffinity (Scope a) (Match a)
        (if bool_decide (Weight a > UserWeightCutoff) then UserWeightCutoff
         else if bool_decide (Weight a < - UserWeightCutoff) then - UserWeightCutoff
         else Weight a)).

Section affinity.
Context `{GoRuntime}.

(** ** Annotations *)

(** An affinity of [name] to [v] and one of [v] to [name]. *)
Definition add_pair (name v : string) (symmetric : gmap string (gmap string unit))
    : gmap string (gmap string unit) :=
  let symmetric := <[name := <[v := tt]> (default ∅ (symmetric !! name))]> symmetric in
  <[v := <[name := tt]> (default ∅ (symmetric !! v))]> symmetric.

Definition make_symmetric (parsed : gmap string (list string)) : gmap string (gmap string unit) :=
  fold_left (λ symmetric nv, fold_left (λ symmetric v, add_pair nv.1 v symmetric) nv.2 symmetric)
    (map_range parsed) ∅.

Definition simple_affinity (podScope : Expression) (weight : Z) (others : list string) : Affinity :=
  MkAffinity (Some podScope)
    (Some (MkExpression "name" (if bool_decide (length others = 1%nat) then Equals else In) others))
    weight.

(** [parsed] is what the YAML decoder makes of the annotation, [None] if it
    is not in simple notation. *)
Definition parseSimple (p : pod) (parsed : option (gmap string (list string))) (weight : Z)
    (pca : podContainerAffinity) : podContainerAffinity * bool :=
  match parsed with
  | None => (pca, false)
  | Some parsed =>
      (fold_left (λ pca na,
         <[na.1 := app (default [] (pca !! na.1))
             [simple_affinity (pod_ScopeExpression p) weight ((map_range na.2).*1)]]> pca)
         (map_range (make_symmetric parsed)) pca, true)
  end.

(** The affinity of an annotation in full notation, with its defaults. *)
Definition full_affinity (podScope : Expression) (weight : Z) (a : Affinity) : res Affinity :=
  let scope := match Scope a with None => Some podScope | Some s => Some s end in
  let weight :=
    if bool_decide (Weight a = 0) then weight
    else if bool_decide (weight < 0) then i32 (Weight a * -1) else Weight a in
  Affinity_Validate (MkAffinity scope (Match a) weight).

(** The decoder gives a nil pointer for an entry that is [null], which the
    code dereferences. *)
Fixpoint full_affinities (podScope : Expression) (weight : Z) (pa : list (option Affinity))
    (ca : list Affinity) : res (list Affinity) :=
  match pa with
  | [] => Ok ca
  | None :: _ => Err Panic
  | Some a :: pa' =>
      let! a := full_affinity podScope weight a in
      full_affinities podScope weight pa' (app ca [a])
  end.

Fixpoint full_names (podScope : Expression) (weight : Z) (parsed : list (string * list (option Affinity)))
    (pca : podContainerAffinity) : podContainerAffinity * option error :=
  match parsed with
  | [] => (pca, None)
  | (name, pa) :: parsed' =>
      match full_affinities podScope weight pa (default [] (pca !! name)) with
      | Err e => (pca, Some e)
      | Ok ca => full_names podScope weight parsed' (<[name := ca]> pca)
      end
  end.

Definition parseFull (p : pod) (parsed : option (gmap string (list (option Affinity)))) (weight : Z)
    (pca : podContainerAffinity) : podContainerAffinity * option error :=
  match parsed with
  | None => (pca, Some ErrOther)
  | Some parsed => full_names (pod_ScopeExpression p) weight (map_range parsed) pca
  end.

(** The YAML decoder, for both notations. *)
Context (yaml_simple : string → option (gmap string (list string))).
Context (yaml_full : string → option (gmap string (list (option Affinity)))).

Definition parse_annotation (p : pod) (value : option string) (weight : Z)
    (pca : podContainerAffinity) : podContainerAffinity * option error :=
  match value with
  | None => (pca, None)
  | Some value =>
      match parseSimple p (yaml_simple value) weight pca with
      | (pca, true) => (pca, None)
      | (pca, false) => parseFull p (yaml_full value) weight pca
      end
  end.

(** The affinities of a pod, read from its annotations when first asked for
    ([known] is [None] before); the second component is what the pod keeps. *)
Definition GetContainerAffinity (p : pod) (affinity antiAffinity : option string)
    (known : option podContainerAffinity) (name : string)
    : res (list Affinity) * option podContainerAffinity :=
  match known with
  | Some pca => (Ok (default [] (pca !! name)), Some pca)
  | None =>
      match parse_annotation p affinity DefaultWeight ∅ with
      | (_, Some e) => (Err e, None)
      | (pca, None) =>
          match parse_annotation p antiAffinity (- DefaultWeight) pca with
          | (_, Some e) => (Err e, None)
          | (pca, None) => (Ok (default [] (pca !! name)), Some pca)
          end
      end
  end.
End affinity.

(** ** Implicit affinities *)

Definition GlobalAffinity (key : string) (weight : Z) : Affinity :=
  MkAffinity (Some (MkExpression "" AlwaysTrue [])) (Some (MkExpression key Exists [])) weight.

Definition GlobalAntiAffinity (key : string) (weight : Z) : Affinity :=
  GlobalAffinity key (i32 (- weight)).

Abbreviation ImplicitAffinity := (container → bool → option Affinity).

Definition AddImplicitAffinities (add : gmap string ImplicitAffinity)
    (implicit : gmap string ImplicitAffinity) : gmap string ImplicitAffinity * option error :=
  if bool_decide (map_Exists (λ name _, is_Some (implicit !! name)) add) then (implicit, Some ErrOther)
  else (add ∪ implicit, None).

Definition DeleteImplicitAffinities (names : list string)
    (implicit : gmap string ImplicitAffinity) : gmap string ImplicitAffinity :=
  fold_left (λ m name, delete name m) names implicit.

Section implicit.
Context `{GoRuntime} (pods : gmap string pod).

Definition colocate_pods : ImplicitAffinity := λ c hasExplicit,
  if hasExplicit then None
  else match GetPod pods c with
       | None => None
       | Some p =>
           Some (MkAffinity (Some (pod_ScopeExpression p)) (Some (MkExpression "" AlwaysTrue [])) 10)
       end.

Definition colocate_namespaces : ImplicitAffinity := λ c hasExplicit,
  if hasExplicit then None
  else Some (MkAffinity (Some (MkExpression "" AlwaysTrue []))
               (Some (MkExpression KeyNamespace Equals [GetNamespace pods c])) 10).

(** The names under which the policy registers them; [PolicyName] is
    "topology-aware". *)
Definition PolicyName := "topology-aware".

Definition implicit_name (name : string) : string := str_app PolicyName (str_app ":" name).

Definition registerImplicitAffinities (colocatePods colocateNamespaces : bool)
    (implicit : gmap string ImplicitAffinity) : gmap string ImplicitAffinity * option error :=
  let n1 := implicit_name "colocate-pods" in
  let n2 := implicit_name "colocate-namespaces" in
  let add : gmap string ImplicitAffinity :=
    if colocatePods then {[n1 := colocate_pods]} else ∅ in
  let add := if colocateNamespaces then <[n2 := colocate_namespaces]> add else add in
  AddImplicitAffinities add (DeleteImplicitAffinities [n1; n2] implicit).

Definition implicitAffinities (implicit : gmap string ImplicitAffinity) (c : container)
    (hasExplicit : bool) : list Affinity :=
  omap (λ ng, ng.2 c hasExplicit) (map_range implicit).

(** The affinities of a container: those of its pod's annotations and the
    implicit ones.  [annotation] looks up the annotations of a pod for the
    resource manager, [known] holds the affinities pods have read before, by
    pod ID.  A container without a pod makes the code call a method of nil. *)
Definition GetAffinity (yaml_simple : string → option (gmap string (list string)))
    (yaml_full : string → option (gmap string (list (option Affinity))))
    (annotation : pod → string → option string) (implicit : gmap string ImplicitAffinity)
    (known : gmap string podContainerAffinity) (c : container)
    : res (list Affinity) * gmap string podContainerAffinity :=
  match GetPod pods c with
  | None => (Err Panic, known)
  | Some p =>
      match GetContainerAffinity yaml_simple yaml_full p (annotation p "affinity")
              (annotation p "anti-affinity") (known !! c_podID c) (c_name c) with
      | (Err e, _) => (Err e, known)
      | (Ok affinity, kept) =>
          (Ok (app affinity
                 (implicitAffinities implicit c (bool_decide (Z.of_nat (length affinity) > 0)))),
           match kept with
           | Some pca => <[c_podID c := pca]> known
           | None => known
           end)
      end
  end.

(** ** Evaluation *)

Context (containers : gmap string container).

(** An expression that is nil or panics makes the code panic. *)
Definition eval_opt (e : option Expression) (c : container) : res bool :=
  match e with
  | None => Err Panic
  | Some e => Evaluate e (container_Evaluable pods c)
  end.

Fixpoint filter_scope (scope : option Expression) (cs : list container) : res (list container) :=
  match cs with
  | [] => Ok []
  | c :: cs' =>
      let! b := eval_opt scope c in
      let! result := filter_scope scope cs' in
      Ok (if (b : bool) then c :: result else result)
  end.

Definition FilterScope (scope : option Expression) : res (list container) :=
  filter_scope scope ((map_range containers).*2).

Fixpoint affinity_loop (a : Affinity) (cs : list container) (results : gmap string Z)
    : res (gmap string Z) :=
  match cs with
  | [] => Ok results
  | c :: cs' =>
      let! b := eval_opt (Match a) c in
      affinity_loop a cs'
        (if (b : bool)
         then <[c_id c := i32 (default 0 (results !! c_id c) + Weight a)]> results
         else results)
  end.

Definition EvaluateAffinity (a : Affinity) : res (gmap string Z) :=
  let! cs := FilterScope (Scope a) in
  affinity_loop a cs ∅.

(** Add the weights of one affinity to the result. *)
Definition add_weights (weights : list (string * Z)) (result : gmap string Z) : gmap string Z :=
  fold_left (λ result iw, <[iw.1 := i32 (default 0 (result !! iw.1) + iw.2)]> result) weights result.

Fixpoint container_affinity_loop (ca : list Affinity) (result : gmap string Z)
    : res (gmap string Z) :=
  match ca with
  | [] => Ok result
  | a :: ca' =>
      let! weights := EvaluateAffinity a in
      container_affinity_loop ca' (add_weights (map_range weights) result)
  end.

(** [ca] is what [GetAffinity] returns for the container. *)
Definition calculateContainerAffinity (ca : res (list Affinity)) (c : container)
    : res (gmap string Z) :=
  let! ca := ca in
  let! result := container_affinity_loop ca ∅ in
  Ok (delete (c_id c) result).

(** [grants] gives the ID of the pool a container has its CPUs from. *)
Definition calculatePoolAffinities (grants : gmap string Z) (ca : res (list Affinity)) (c : container)
    : res (gmap Z Z) :=
  let! affinities := calculateContainerAffinity ca c in
  Ok (fold_left (λ result iw,
        match grants !! iw.1 with
        | None => result
        | Some node => <[node := i32 (default 0 (result !! node) + iw.2)]> result
        end) (map_range affinities) ∅).
End implicit.
