(* ===== verification/AffinityFacts.v ===== *)
(** * Correctness of container affinities

    Simple annotations are symmetric, every affinity read from annotations can
    be evaluated, and the affinity of a container to another container or to
    a pool is the sum of the weights that apply. *)

From S2P Require Import Prelude GoStrings Expr ExprFacts Affinity.

Open Scope string_scope.
Open Scope Z_scope.

Lemma i32_add_l a b : i32 (i32 a + b) = i32 (a + b).
Proof.
  unfold i32. f_equal.
  replace ((a + 2 ^ 31) `mod` 2 ^ 32 - 2 ^ 31 + b + 2 ^ 31)
    with ((a + 2 ^ 31) `mod` 2 ^ 32 + b) by lia.
  rewrite Zplus_mod_idemp_l. f_equal. lia.
Qed.

(** ** Implicit affinities *)

Lemma registerImplicitAffinities_ok pods cp cn (implicit : gmap string ImplicitAffinity) :
  ∃ m, registerImplicitAffinities pods cp cn implicit = (m, None) ∧
    m !! implicit_name "colocate-pods" = (if cp then Some (colocate_pods pods) else None) ∧
    m !! implicit_name "colocate-namespaces" = (if cn then Some (colocate_namespaces pods) else None) ∧
    ∀ name, name ≠ implicit_name "colocate-pods" → name ≠ implicit_name "colocate-namespaces" →
      m !! name = implicit !! name.
Proof.
  unfold registerImplicitAffinities, AddImplicitAffinities, DeleteImplicitAffinities. cbn [fold_left].
  set (n1 := implicit_name "colocate-pods"). set (n2 := implicit_name "colocate-namespaces").
  assert (n1 ≠ n2) as Hne by done. clearbody n1 n2.
  set (del := delete n2 (delete n1 implicit)).
  assert (del !! n1 = None ∧ del !! n2 = None ∧
    ∀ n, n ≠ n1 → n ≠ n2 → del !! n = implicit !! n) as (H1 & H2 & H3).
  { unfold del. split_and!.
    - by rewrite lookup_delete_ne, lookup_delete_eq.
    - by rewrite lookup_delete_eq.
    - intros n ? ?. by rewrite !lookup_delete_ne. }
  set (add := if cn then _ else _).
  assert (add !! n1 = (if cp then Some (colocate_pods pods) else None) ∧
    add !! n2 = (if cn then Some (colocate_namespaces pods) else None) ∧
    ∀ n, n ≠ n1 → n ≠ n2 → add !! n = None) as (A1 & A2 & A3).
  { unfold add. destruct cp, cn; split_and!; intros; simplify_map_eq; done. }
  rewrite bool_decide_eq_false_2.
  - eexists. split; [done|]. split_and!.
    + rewrite lookup_union, A1, H1. by destruct cp.
    + rewrite lookup_union, A2, H2. by destruct cn.
    + intros name Hn1 Hn2. rewrite lookup_union, (A3 name Hn1 Hn2), (H3 name Hn1 Hn2).
      by destruct (implicit !! name).
  - intros (n & x & Hn & [y Hy]). destruct (decide (n = n1)) as [->|]; [congruence|].
    destruct (decide (n = n2)) as [->|]; [congruence|]. rewrite A3 in Hn; done.
Qed.

(** ** Simple annotations *)

Definition edge (sym : gmap string (gmap string unit)) (x y : string) : Prop :=
  ∃ m, sym !! x = Some m ∧ m !! y = Some tt.

Lemma edge_default sym x y : edge sym x y ↔ default ∅ (sym !! x) !! y = Some tt.
Proof.
  unfold edge. destruct (sym !! x) as [m|] eqn:Hm; simpl.
  - split; [by intros (? & [= <-] & ?)|eauto].
  - rewrite lookup_empty. naive_solver.
Qed.

Lemma add_pair_edge n v sym x y :
  edge (add_pair n v sym) x y ↔ edge sym x y ∨ (x = n ∧ y = v) ∨ (x = v ∧ y = n).
Proof.
  rewrite !edge_default. unfold add_pair. rewrite lookup_insert.
  destruct (decide (v = x)) as [->|Hv]; simpl.
  - rewrite !lookup_insert. destruct (decide (n = y)) as [->|Hn]; [naive_solver|].
    destruct (decide (n = x)) as [->|Hnx]; simpl.
    + rewrite lookup_insert_ne by done. naive_solver.
    + naive_solver.
  - rewrite lookup_insert. destruct (decide (n = x)) as [->|Hnx]; simpl; [|naive_solver].
    rewrite lookup_insert. destruct (decide (v = y)) as [->|Hvy]; naive_solver.
Qed.

Lemma fold_add_pair_edge n vs sym x y :
  edge (fold_left (λ s v, add_pair n v s) vs sym) x y ↔
  edge sym x y ∨ (x = n ∧ y ∈ vs) ∨ (x ∈ vs ∧ y = n).
Proof.
  revert sym. induction vs as [|v vs IH]; intros sym; simpl; [set_solver|].
  rewrite IH, add_pair_edge. set_solver.
Qed.

Lemma fold_names_edge ps sym x y :
  edge (fold_left (λ s nv, fold_left (λ s v, add_pair nv.1 v s) nv.2 s) ps sym) x y ↔
  edge sym x y ∨ ∃ n vs, (n, vs) ∈ ps ∧ ((x = n ∧ y ∈ vs) ∨ (x ∈ vs ∧ y = n)).
Proof.
  revert sym. induction ps as [|[n vs] ps IH]; intros sym; simpl; [set_solver|].
  rewrite IH, fold_add_pair_edge. simpl. split.
  - intros [[?|?]|(n' & vs' & ? & ?)]; [by left|..]; right.
    + exists n, vs. split; [constructor|done].
    + exists n', vs'. split; [by constructor|done].
  - intros [?|(n' & vs' & [[= -> ->]|?]%elem_of_cons & ?)]; [tauto|tauto|]. right. eauto.
Qed.

(** What the annotation says: [x] is listed with [y]. *)
Definition listed (parsed : gmap string (list string)) (x y : string) : Prop :=
  ∃ vs, parsed !! x = Some vs ∧ y ∈ vs.

(** The affinity selects containers by name, [y] among them. *)
Definition selects (a : Affinity) (y : string) : Prop :=
  ∃ op vs, Match a = Some (MkExpression "name" op vs) ∧ y ∈ vs.

Section simple.
Context `{GoRuntime}.

Lemma make_symmetric_edge parsed x y :
  edge (make_symmetric parsed) x y ↔ listed parsed x y ∨ listed parsed y x.
Proof.
  unfold make_symmetric. rewrite fold_names_edge. unfold listed.
  setoid_rewrite elem_of_map_range. split.
  - intros [(m & Hm & _)|?]; [by rewrite lookup_empty in Hm|naive_solver].
  - naive_solver.
Qed.

Lemma parse_simple_fold (f : gmap string unit → Affinity) l (pca : gmap string (list Affinity)) x :
  NoDup (l.*1) →
  fold_left (λ (pca : gmap string (list Affinity)) na,
    <[na.1 := app (default [] (pca !! na.1)) [f na.2]]> pca) l pca !! x
  = match (list_to_map l : gmap string (gmap string unit)) !! x with
    | Some m => Some (app (default [] (pca !! x)) [f m])
    | None => pca !! x
    end.
Proof.
  revert pca. induction l as [|[n m] l IH]; intros pca Hnd; simpl; [by rewrite lookup_empty|].
  apply NoDup_cons in Hnd as [Hn Hnd]. rewrite IH by done. simpl.
  rewrite (lookup_insert (list_to_map l)). case_decide as Hx.
  - subst. rewrite not_elem_of_list_to_map_1 by done. by rewrite lookup_insert_eq.
  - destruct (list_to_map l !! x); by rewrite lookup_insert_ne.
Qed.

(** Affinities annotated in simple notation are symmetric: a container
    [x] gets an affinity that selects [y] exactly if the annotation lists [y]
    for [x] or [x] for [y], it gets one such affinity at most, with the given
    weight and within the pod. *)
Theorem parseSimple_symmetric p parsed weight x :
  let pca := (parseSimple p (Some parsed) weight ∅).1 in
  (∀ y, (∃ ca a, pca !! x = Some ca ∧ a ∈ ca ∧ selects a y) ↔ listed parsed x y ∨ listed parsed y x) ∧
  (∀ ca, pca !! x = Some ca → ∃ a, ca = [a] ∧ Weight a = weight ∧
     Scope a = Some (pod_ScopeExpression p)).
Proof.
  cbn [parseSimple fst]. set (sym := make_symmetric parsed).
  set (pca := fold_left _ _ ∅).
  assert (pca !! x = match sym !! x with
    | Some m => Some [simple_affinity (pod_ScopeExpression p) weight ((map_range m).*1)]
    | None => None end) as Hpca.
  { unfold pca.
    rewrite (parse_simple_fold (λ m, simple_affinity (pod_ScopeExpression p) weight ((map_range m).*1)))
      by apply NoDup_map_range.
    assert (list_to_map (map_range sym) = sym) as ->.
    { apply map_eq. intros k. apply option_eq. intros m.
      rewrite <- elem_of_list_to_map by apply NoDup_map_range. apply elem_of_map_range. }
    destruct (sym !! x); reflexivity. }
  split.
  - intros y. rewrite <- make_symmetric_edge. fold sym. unfold edge. rewrite Hpca. split.
    + intros (ca & a & Hca & Ha & op & vs & Hm & Hy). destruct (sym !! x) as [m|]; simplify_eq.
      apply list_elem_of_singleton in Ha as ->. injection Hm as <- <-.
      apply list_elem_of_fmap in Hy as ([y' []] & -> & Hy%elem_of_map_range). eauto.
    + intros (m & -> & Hy). eexists _, _. split; [done|]. split; [apply list_elem_of_here|].
      eexists _, _. split; [done|]. apply list_elem_of_fmap. exists (y, tt).
      by rewrite elem_of_map_range.
  - intros ca. rewrite Hpca. destruct (sym !! x); [|done]. intros [= <-]. by eexists.
Qed.

(** ** Affinities that can be evaluated *)

Context (pods : gmap string pod).

Definition usable (a : Affinity) : Prop :=
  (∀ c, ∃ b, eval_opt pods (Scope a) c = Ok b) ∧ (∀ c, ∃ b, eval_opt pods (Match a) c = Ok b) ∧
  - UserWeightCutoff ≤ Weight a ≤ UserWeightCutoff.

Lemma valid_eval e c : Validate e = Ok tt → ∃ b, eval_opt pods e c = Ok b.
Proof.
  destruct e as [e|]; [|done]. apply valid_evaluates.
Qed.

Lemma equals_eval key v c : ∃ b, eval_opt pods (Some (MkExpression key Equals [v])) c = Ok b.
Proof. cbn. unfold Evaluate. cbn. destruct (KeyValue _ _) as [value []]; cbn; eauto. Qed.

Lemma simple_usable p w others :
  - UserWeightCutoff ≤ w ≤ UserWeightCutoff →
  usable (simple_affinity (pod_ScopeExpression p) w others).
Proof.
  intros Hw. split_and!; [intros c; apply equals_eval| |apply Hw|apply Hw].
  intros c. unfold simple_affinity. cbn [Match]. case_bool_decide as Hl.
  - destruct others as [|v [|? ?]]; [done|apply equals_eval|done].
  - cbn. unfold Evaluate. cbn. destruct (KeyValue _ _) as [value ok]. eauto.
Qed.

Lemma full_usable scope w a a' : full_affinity scope w a = Ok a' → usable a'.
Proof.
  unfold full_affinity, Affinity_Validate. cbn [Scope Match Weight].
  destruct (Validate (match Scope a with None => _ | Some s => _ end)) as [[]|] eqn:Hs; [|done].
  cbn [res_bind]. destruct (Validate (Match a)) as [[]|] eqn:Hm; [|done]. cbn [res_bind].
  set (w' := if bool_decide (Weight a = 0) then _ else _). intros [= <-].
  split_and!; cbn; [intros c; by apply valid_eval|intros c; by apply valid_eval|..];
    unfold UserWeightCutoff; repeat case_bool_decide; lia.
Qed.

Definition all_usable (pca : podContainerAffinity) : Prop :=
  ∀ name ca, pca !! name = Some ca → Forall usable ca.

Lemma parseSimple_usable p parsed w pca :
  - UserWeightCutoff ≤ w ≤ UserWeightCutoff → all_usable pca → all_usable (parseSimple p parsed w pca).1.
Proof.
  intros Hw. destruct parsed as [parsed|]; [|done]. cbn [parseSimple fst].
  generalize (map_range (make_symmetric parsed)). intros l. revert pca.
  induction l as [|[n m] l IH]; intros pca Hok; [done|]. cbn [fold_left]. apply IH.
  intros name ca. rewrite lookup_insert. case_decide; [|apply Hok]. intros [= <-].
  apply Forall_app. split; [|by constructor; [apply simple_usable|]].
  simpl in *. destruct (pca !! n) eqn:Hn; [by apply (Hok n)|constructor].
Qed.

Lemma full_affinities_usable scope w pa ca ca' :
  Forall usable ca → full_affinities scope w pa ca = Ok ca' → Forall usable ca'.
Proof.
  revert ca. induction pa as [|[a|] pa IH]; intros ca Hca; simpl; [by intros [= <-]| |done].
  destruct (full_affinity scope w a) as [a'|] eqn:Ha; [|done]. cbn [res_bind]. apply IH.
  apply Forall_app. split; [done|]. constructor; [by eapply full_usable|constructor].
Qed.

Lemma full_names_usable scope w ps pca :
  all_usable pca → all_usable (full_names scope w ps pca).1.
Proof.
  revert pca. induction ps as [|[n pa] ps IH]; intros pca Hok; [done|]. cbn [full_names].
  destruct (full_affinities scope w pa _) as [ca|] eqn:Hf; [|done]. apply IH.
  intros name ca'. rewrite lookup_insert. case_decide; [|apply Hok]. intros [= <-].
  eapply full_affinities_usable; [|done].
  destruct (pca !! n) eqn:Hn; [by apply (Hok n)|constructor].
Qed.

Lemma parse_annotation_usable ys yf p value w pca :
  - UserWeightCutoff ≤ w ≤ UserWeightCutoff → all_usable pca →
  all_usable (parse_annotation ys yf p value w pca).1.
Proof.
  intros Hw Hok. destruct value as [value|]; [|done]. unfold parse_annotation.
  pose proof (parseSimple_usable p (ys value) w pca Hw Hok) as Hs.
  destruct (parseSimple _ _ _ _) as [pca' []]; [done|]. unfold parseFull.
  destruct (yf value); [|done]. by apply full_names_usable.
Qed.

Lemma GetContainerAffinity_ok ys yf p affinity antiAffinity known name ca kept :
  (∀ pca, known = Some pca → all_usable pca) →
  GetContainerAffinity ys yf p affinity antiAffinity known name = (Ok ca, kept) →
  Forall usable ca ∧ ∀ pca, kept = Some pca → all_usable pca.
Proof.
  assert (∀ pca : podContainerAffinity, all_usable pca → Forall usable (default [] (pca !! name))) as Hd.
  { intros pca Hok. destruct (pca !! name) eqn:Hn; [by apply (Hok name)|constructor]. }
  unfold GetContainerAffinity. destruct known as [pca|]; intros Hk.
  { intros [= <- <-]. split; [apply Hd; by apply Hk|by intros ? [= <-]; apply Hk]. }
  assert (- UserWeightCutoff ≤ DefaultWeight ≤ UserWeightCutoff) as H1 by done.
  assert (- UserWeightCutoff ≤ - DefaultWeight ≤ UserWeightCutoff) as H2 by done.
  assert (all_usable ∅) as H0 by (intros ? ?; by rewrite lookup_empty).
  pose proof (parse_annotation_usable ys yf p affinity DefaultWeight ∅ H1 H0) as Ha.
  destruct (parse_annotation _ _ p affinity _ _) as [pca1 [e|]]; [done|].
  pose proof (parse_annotation_usable ys yf p antiAffinity (- DefaultWeight) pca1 H2 Ha) as Hb.
  destruct (parse_annotation _ _ p antiAffinity _ _) as [pca2 [e|]]; [done|]. cbn in Hb.
  intros [= <- <-]. split; [by apply Hd|]. by intros ? [= <-].
Qed.

Lemma implicit_usable cp cn c b name g a :
  (registerImplicitAffinities pods cp cn ∅).1 !! name = Some g → g c b = Some a → usable a.
Proof.
  destruct (registerImplicitAffinities_ok pods cp cn ∅) as (m & -> & H1 & H2 & H3). cbn [fst].
  assert (∀ e c, Op e = AlwaysTrue → ∃ b, eval_opt pods (Some e) c = Ok b) as Htrue.
  { intros e c' He. cbn. unfold Evaluate. rewrite He. eauto. }
  destruct (decide (name = implicit_name "colocate-pods")) as [->|Hn1].
  { rewrite H1. destruct cp; [|done]. intros [= <-]. unfold colocate_pods.
    destruct b; [done|]. destruct (GetPod pods c); [|done]. intros [= <-].
    split_and!; [intros ?; apply equals_eval|intros ?; by apply Htrue|done|done]. }
  destruct (decide (name = implicit_name "colocate-namespaces")) as [->|Hn2].
  { rewrite H2. destruct cn; [|done]. intros [= <-]. unfold colocate_namespaces.
    destruct b; [done|]. intros [= <-].
    split_and!; [intros ?; by apply Htrue|intros ?; apply equals_eval|done|done]. }
  by rewrite H3.
Qed.

(** ** Errors *)

Lemma validate_key_error rounds key e : validate_key rounds key = Err e → e = ErrOther ∨ e = OutOfFuel.
Proof.
  revert key. induction rounds as [|rounds IH]; intros key; cbn [validate_key]; [intros [= <-]; by right|].
  destruct (cut c_slash key) as [pref rest]. repeat case_bool_decide; try done; try (intros [= <-]; by left). apply IH.
Qed.

Lemma validate_keys_error keys e : validate_keys keys = Err e → e = ErrOther ∨ e = OutOfFuel.
Proof.
  induction keys as [|key keys IH]; [done|]. cbn [validate_keys]. set (k := trim_left_by _ key).
  destruct (validate_key _ k) as [[]|e'] eqn:Hv; cbn [res_bind]; [exact IH|]. intros [= <-]. by eapply validate_key_error.
Qed.

Lemma Validate_error e err : Validate e = Err err → err = ErrOther.
Proof.
  intros Hv. pose proof (proj2 (ResolveRef_Validate_total (MkEvaluable (λ _, OOther) (λ _, ("", false))) "" e)) as Ht. rewrite Hv in Ht.
  destruct e as [[k op vs]|]; [|by injection Hv]. unfold Validate, validateKey in Hv.
  destruct (validate_keys _) as [[]|e] eqn:Hk; cbn [res_bind] in Hv.
  - revert Hv. destruct op; repeat case_bool_decide; by intros [= <-].
  - injection Hv as <-. destruct (validate_keys_error _ _ Hk) as [?| ->]; done.
Qed.

Lemma full_affinity_error scope w a e : full_affinity scope w a = Err e → e = ErrOther.
Proof.
  unfold full_affinity, Affinity_Validate. cbn [Scope Match]. set (sc := match Scope a with None => _ | Some s => _ end).
  destruct (Validate sc) as [?|e1] eqn:H1; cbn [res_bind]; [|intros [= <-]; by eapply Validate_error].
  destruct (Validate (Match a)) as [?|e2] eqn:H2; cbn [res_bind]; [done|intros [= <-]; by eapply Validate_error].
Qed.

Lemma full_affinities_error scope w pa ca e : None ∉ pa → full_affinities scope w pa ca = Err e → e = ErrOther.
Proof.
  revert ca. induction pa as [|[a|] pa IH]; intros ca Hn; cbn [full_affinities]; [done| |by destruct Hn; constructor].
  destruct (full_affinity scope w a) as [a'|e'] eqn:Ha; cbn [res_bind]; [|intros [= <-]; by eapply full_affinity_error].
  apply IH. intros ?. apply Hn. by constructor.
Qed.

Lemma full_names_error scope w ps pca e : Forall (λ np, None ∉ np.2) ps → (full_names scope w ps pca).2 = Some e → e = ErrOther.
Proof.
  intros Hall. revert pca. induction Hall as [|[name pa] ps Hn _ IH]; intros pca; cbn [full_names]; [done|].
  destruct (full_affinities scope w pa _) as [ca|e'] eqn:Hf; [apply IH|]. intros [= <-]. by eapply full_affinities_error.
Qed.

(** What an annotation in full notation decodes to has no [null] for an
    affinity. *)
Definition no_nulls (yf : string → option (gmap string (list (option Affinity)))) (value : string) : Prop :=
  ∀ parsed, yf value = Some parsed → map_Forall (λ _ pa, None ∉ pa) parsed.

Lemma parse_annotation_error ys yf p value w pca e : (∀ v, value = Some v → no_nulls yf v) →
  (parse_annotation ys yf p value w pca).2 = Some e → e = ErrOther.
Proof.
  intros Hn. unfold parse_annotation. destruct value as [v|]; [|done].
  unfold parseSimple. destruct (ys v); [done|]. unfold parseFull. destruct (yf v) as [parsed|] eqn:Hy; [|by intros [= <-]].
  apply full_names_error, Forall_forall. intros [name pa] Hin%elem_of_map_range. by apply (Hn v eq_refl parsed Hy name).
Qed.

Lemma GetContainerAffinity_error ys yf p affinity antiAffinity known name e :
  (∀ v, affinity = Some v ∨ antiAffinity = Some v → no_nulls yf v) →
  (GetContainerAffinity ys yf p affinity antiAffinity known name).1 = Err e → e = ErrOther.
Proof.
  intros Hn. unfold GetContainerAffinity. destruct known; [done|].
  pose proof (parse_annotation_error ys yf p affinity DefaultWeight ∅) as Ha.
  destruct (parse_annotation _ _ p affinity _ _) as [pca1 [e1|]]; [intros [= <-]; apply Ha; [by auto|done]|].
  pose proof (parse_annotation_error ys yf p antiAffinity (- DefaultWeight) pca1) as Hb.
  destruct (parse_annotation _ _ p antiAffinity _ _) as [pca2 [e2|]]; [intros [= <-]; apply Hb; [by auto|done]|done].
Qed.

(** C39: Getting the affinities of a container whose pod is in the cache does
    not panic, whatever is annotated, if no affinity in full notation is [null]
    (the code panics then, see below): it gives an error, if an annotation is in
    neither notation or has an invalid expression, or the affinities, annotated
    and implicit ones, all of which can be evaluated against any container without
    a panic and have weights within the allowed range.  Nulls or not, this also
    holds of all affinities that are returned at all and that the pods
    remember. *)
Theorem GetAffinity_usable ys yf annotation cp cn (known : gmap string podContainerAffinity) c :
  map_Forall (λ _, all_usable) known →
  let '(r, known') :=
    GetAffinity pods ys yf annotation (registerImplicitAffinities pods cp cn ∅).1 known c in
  map_Forall (λ _, all_usable) known' ∧ (∀ ca, r = Ok ca → Forall usable ca) ∧
  ∀ p, GetPod pods c = Some p →
    (∀ v, annotation p "affinity" = Some v ∨ annotation p "anti-affinity" = Some v → no_nulls yf v) →
    (∃ ca, r = Ok ca) ∨ r = Err ErrOther.
Proof.
  intros Hk. unfold GetAffinity. destruct (GetPod pods c) as [p|]; [|done].
  pose proof (GetContainerAffinity_error ys yf p (annotation p "affinity") (annotation p "anti-affinity")
    (known !! c_podID c) (c_name c)) as He.
  destruct (GetContainerAffinity _ _ _ _ _ _ _) as [[ca|e] kept] eqn:Hg.
  2:{ split_and!; [done|done|]. intros p' [= <-] Hn. right. by rewrite (He e Hn eq_refl). }
  apply GetContainerAffinity_ok in Hg as [Hca Hkept]; [|intros pca Hpca; by apply (Hk _ _ Hpca)]. split_and!; [| |eauto].
  - destruct kept as [pca|]; [|done]. apply map_Forall_insert_2; [by apply Hkept|done].
  - intros ca' [= <-]. apply Forall_app. split; [done|]. apply Forall_forall. intros a.
    unfold implicitAffinities. rewrite list_elem_of_omap. intros ([name g] & Hin%elem_of_map_range & Hg).
    by eapply implicit_usable.
Qed.

(** An annotation in full notation with a [null] affinity makes the code
    dereference a nil pointer. *)
Theorem GetContainerAffinity_null_panics ys yf p value name :
  ys value = None → yf value = Some {[name := [None]]} →
  (GetContainerAffinity ys yf p (Some value) None None name).1 = Err Panic.
Proof.
  intros Hs Hf. unfold GetContainerAffinity, parse_annotation. rewrite Hs, Hf. cbn.
  assert (map_range ({[name := [None]]} : gmap string (list (option Affinity))) = [(name, [None])]) as ->;
    [|done].
  apply Permutation_singleton_r. by rewrite map_range_perm, map_to_list_singleton.
Qed.
End simple.

(** ** Sums of weights *)

Section sums.
Context `{GoRuntime} (pods : gmap string pod) (containers : gmap string container).
Context (Hids : ∀ id c, containers !! id = Some c → c_id c = id).

(** Whether an affinity applies to a container. *)
Definition applies (a : Affinity) (c : container) : bool :=
  bool_decide (eval_opt pods (Scope a) c = Ok true) && bool_decide (eval_opt pods (Match a) c = Ok true).

Definition weight_for (a : Affinity) (id : string) : Z :=
  match containers !! id with
  | Some c => if applies a c then Weight a else 0
  | None => 0
  end.

Lemma filter_scope_ok scope cs :
  (∀ c, ∃ b, eval_opt pods scope c = Ok b) →
  filter_scope pods scope cs = Ok (filter (λ c, eval_opt pods scope c = Ok true) cs).
Proof.
  intros Hok. induction cs as [|c cs IH]; [done|]. cbn [filter_scope].
  destruct (Hok c) as [b Hb]. rewrite Hb, IH. cbn [res_bind]. rewrite filter_cons.
  destruct b; [by rewrite decide_True by done|by rewrite decide_False by congruence].
Qed.

Definition matched_in (a : Affinity) (cs : list container) (id : string) : bool :=
  existsb (λ c, bool_decide (c_id c = id ∧ eval_opt pods (Match a) c = Ok true)) cs.

Lemma matched_in_true a cs id :
  matched_in a cs id = true ↔ ∃ c, c ∈ cs ∧ c_id c = id ∧ eval_opt pods (Match a) c = Ok true.
Proof.
  unfold matched_in. rewrite existsb_exists. setoid_rewrite list_elem_of_In.
  by setoid_rewrite bool_decide_eq_true.
Qed.

Lemma affinity_loop_ok a cs results id :
  (∀ c, ∃ b, eval_opt pods (Match a) c = Ok b) → NoDup (c_id <$> cs) →
  ∃ r, affinity_loop pods a cs results = Ok r ∧
    r !! id = if matched_in a cs id
              then Some (i32 (default 0 (results !! id) + Weight a)) else results !! id.
Proof.
  intros Hok. revert results. induction cs as [|c cs IH]; intros results Hnd; [by exists results|].
  apply NoDup_cons in Hnd as [Hc Hnd]. cbn [affinity_loop].
  destruct (Hok c) as [b Hb]. rewrite Hb. cbn [res_bind].
  destruct (IH (if b then <[c_id c := i32 (default 0 (results !! c_id c) + Weight a)]> results
    else results) Hnd) as (r & -> & Hr).
  exists r. split; [done|]. rewrite Hr. clear Hr IH. cbn [matched_in existsb].
  fold (matched_in a cs id). destruct (decide (c_id c = id)) as [Hid|Hid].
  - assert (matched_in a cs id = false) as ->.
    { apply not_true_iff_false. rewrite matched_in_true. intros (c' & Hin & Heq & _).
      apply Hc. rewrite Hid, <- Heq. by apply list_elem_of_fmap_2. }
    destruct b.
    + rewrite bool_decide_eq_true_2 by done. cbn. by rewrite Hid, lookup_insert_eq.
    + rewrite bool_decide_eq_false_2; [done|]. intros [_ ?]. congruence.
  - rewrite bool_decide_eq_false_2 by tauto. cbn [orb].
    destruct b; [by rewrite lookup_insert_ne|done].
Qed.

Lemma EvaluateAffinity_ok a :
  usable pods a →
  ∃ r, EvaluateAffinity pods containers a = Ok r ∧
    ∀ id, r !! id = match containers !! id with
                    | Some c => if applies a c then Some (i32 (Weight a)) else None
                    | None => None
                    end.
Proof.
  intros (Hs & Hm & _). unfold EvaluateAffinity, FilterScope. rewrite filter_scope_ok by done.
  cbn [res_bind]. set (cs := filter _ _).
  assert (∀ c, c ∈ cs ↔ eval_opt pods (Scope a) c = Ok true ∧ containers !! c_id c = Some c) as Hcs.
  { intros c. unfold cs. rewrite list_elem_of_filter, list_elem_of_fmap. split.
    - intros (? & [id c'] & -> & Hin%elem_of_map_range). cbn [snd] in *. by rewrite (Hids _ _ Hin).
    - intros [? Hin]. split; [done|]. exists (c_id c, c). by rewrite elem_of_map_range. }
  assert (NoDup (c_id <$> cs)) as Hnd.
  { apply NoDup_fmap_2_strong.
    - intros x y [_ Hx]%Hcs [_ Hy]%Hcs Heq. congruence.
    - unfold cs. apply NoDup_filter. apply NoDup_fmap_2_strong; [|eapply NoDup_fmap_1, NoDup_map_range].
      intros [i x] [j y] Hx%elem_of_map_range Hy%elem_of_map_range. simpl. intros ->.
      f_equal. pose proof (Hids _ _ Hx). pose proof (Hids _ _ Hy). congruence. }
  destruct (affinity_loop_ok a cs ∅ "" Hm Hnd) as (r & Hr & _). exists r. split; [done|].
  intros id. destruct (affinity_loop_ok a cs ∅ id Hm Hnd) as (r' & Hr' & Hid).
  assert (r' = r) as -> by congruence. rewrite Hid, lookup_empty. simpl. unfold applies.
  destruct (containers !! id) as [c|] eqn:Hc.
  - pose proof (Hids _ _ Hc) as Hcid. rewrite <- bool_decide_and.
    assert (matched_in a cs id = true ↔
      eval_opt pods (Scope a) c = Ok true ∧ eval_opt pods (Match a) c = Ok true) as Hiff.
    { rewrite matched_in_true. split.
      - intros (c' & [? Hc']%Hcs & Heq & ?). rewrite Heq in Hc'. by simplify_eq.
      - intros [? ?]. exists c. rewrite Hcs, Hcid. done. }
    case_bool_decide as Hb; [by rewrite (proj2 Hiff Hb)|].
    destruct (matched_in a cs id); [by destruct Hb; apply Hiff|done].
  - assert (matched_in a cs id = false) as ->; [|done].
    apply not_true_iff_false. rewrite matched_in_true. intros (c & [_ Hc']%Hcs & <- & _). congruence.
Qed.

Lemma add_weights_lookup ws result id :
  NoDup (ws.*1) →
  add_weights ws result !! id
  = match (list_to_map ws : gmap string Z) !! id with
    | Some w => Some (i32 (default 0 (result !! id) + w))
    | None => result !! id
    end.
Proof.
  unfold add_weights. revert result. induction ws as [|[i w] ws IH]; intros result Hnd; simpl;
    [by rewrite lookup_empty|].
  apply NoDup_cons in Hnd as [Hi Hnd]. rewrite IH by done. simpl.
  rewrite (lookup_insert (list_to_map ws)). case_decide as Heq.
  - subst. rewrite not_elem_of_list_to_map_1 by done. by rewrite lookup_insert_eq.
  - by rewrite lookup_insert_ne.
Qed.

Lemma list_to_map_range {V} (m : gmap string V) : list_to_map (map_range m) = m.
Proof.
  apply map_eq. intros k. apply option_eq. intros v.
  rewrite <- elem_of_list_to_map by apply NoDup_map_range. apply elem_of_map_range.
Qed.

Definition total_weight (ca : list Affinity) (id : string) : Z :=
  foldr (λ a s, weight_for a id + s) 0 ca.

Lemma container_affinity_loop_ok ca result :
  Forall (usable pods) ca →
  ∃ r, container_affinity_loop pods containers ca result = Ok r ∧
    ∀ id s, default 0 (result !! id) = i32 s → default 0 (r !! id) = i32 (s + total_weight ca id).
Proof.
  intros Hca. revert result. induction Hca as [|a ca Ha Hca IH]; intros result.
  { exists result. split; [done|]. intros id s ->. by rewrite Z.add_0_r. }
  cbn [container_affinity_loop]. destruct (EvaluateAffinity_ok a Ha) as (ws & -> & Hws).
  cbn [res_bind]. destruct (IH (add_weights (map_range ws) result)) as (r & -> & Hr).
  exists r. split; [done|]. intros id s Hs. cbn [total_weight foldr].
  fold (total_weight ca id). rewrite Z.add_assoc. apply Hr.
  rewrite add_weights_lookup, list_to_map_range, Hws by apply NoDup_map_range.
  unfold weight_for. destruct (containers !! id) as [c|]; [|by rewrite Z.add_0_r].
  destruct (applies a c); [|by rewrite Z.add_0_r].
  simpl. rewrite Hs, i32_add_l, Z.add_comm, i32_add_l. f_equal. lia.
Qed.

Lemma calculateContainerAffinity_ok ca c :
  Forall (usable pods) ca →
  ∃ r, calculateContainerAffinity pods containers (Ok ca) c = Ok r ∧ r !! c_id c = None ∧
    ∀ id, id ≠ c_id c → default 0 (r !! id) = i32 (total_weight ca id).
Proof.
  intros Hca. unfold calculateContainerAffinity. cbn [res_bind].
  destruct (container_affinity_loop_ok ca ∅ Hca) as (r & -> & Hr). cbn [res_bind].
  eexists. split; [done|]. split; [apply lookup_delete_eq|]. intros id Hid.
  rewrite lookup_delete_ne by done. rewrite <- (Z.add_0_l (total_weight ca id)). by apply Hr.
Qed.

(** The effective affinity of a container to another one is the sum of
    the weights of all its affinities that have the other container in scope
    and match it, in 32-bit arithmetic; it has no affinity to itself. *)
Theorem calculateContainerAffinity_sum ca c :
  Forall (usable pods) ca →
  ∃ r, calculateContainerAffinity pods containers (Ok ca) c = Ok r ∧ r !! c_id c = None ∧
    ∀ id, id ≠ c_id c → default 0 (r !! id) = i32 (foldr (λ a s, weight_for a id + s) 0 ca).
Proof. apply calculateContainerAffinity_ok. Qed.

(** ** Pools *)

Lemma pool_fold (grants : gmap string Z) ws (result : gmap Z Z) n s :
  default 0 (result !! n) = i32 s →
  default 0 (fold_left (λ (result : gmap Z Z) (iw : string * Z),
      match grants !! iw.1 with
      | None => result
      | Some node => <[node := i32 (default 0 (result !! node) + iw.2)]> result
      end) ws result !! n)
  = i32 (s + foldr (λ iw t, (if bool_decide (grants !! iw.1 = Some n) then iw.2 else 0) + t) 0 ws).
Proof.
  revert result s. induction ws as [|[id w] ws IH]; intros result s Hs; simpl.
  { by rewrite Z.add_0_r. }
  rewrite Z.add_assoc. apply IH. simpl. destruct (grants !! id) as [node|] eqn:Hg.
  - rewrite lookup_insert. case_decide as Hn.
    + subst. rewrite bool_decide_eq_true_2 by done. simpl. by rewrite Hs, i32_add_l.
    + rewrite bool_decide_eq_false_2 by congruence. by rewrite Z.add_0_r.
  - rewrite bool_decide_eq_false_2 by done. by rewrite Z.add_0_r.
Qed.

(** The affinity of a container to a pool is the sum of its affinities
    to the containers that have their CPUs from that pool. *)
Theorem calculatePoolAffinities_sum grants ca c :
  Forall (usable pods) ca →
  ∃ affinities r, calculateContainerAffinity pods containers (Ok ca) c = Ok affinities ∧
    calculatePoolAffinities pods containers grants (Ok ca) c = Ok r ∧
    ∀ n, default 0 (r !! n)
      = i32 (msum (λ id w, if bool_decide (grants !! id = Some n) then w else 0) affinities).
Proof.
  intros Hca. destruct (calculateContainerAffinity_ok ca c Hca) as (affinities & Hca' & _).
  unfold calculatePoolAffinities. rewrite Hca'. cbn [res_bind]. eexists _, _.
  split; [done|]. split; [done|]. intros n.
  rewrite (pool_fold grants (map_range affinities) ∅ n 0) by done. f_equal.
  rewrite Z.add_0_l.
  pose (f (id : string) (w : Z) := if bool_decide (grants !! id = Some n) then w else 0).
  exact (msum_list f affinities _ (map_range_perm affinities)).
Qed.
End sums.

(** ** Implicit affinities *)

(** Registering the implicit affinities of the policy always succeeds,
    also when it is done again with other settings: afterwards exactly the
    enabled ones are registered, and those of others are untouched. *)
Theorem registerImplicitAffinities_spec pods cp cn (implicit : gmap string ImplicitAffinity) :
  ∃ m, registerImplicitAffinities pods cp cn implicit = (m, None) ∧
    m !! implicit_name "colocate-pods" = (if cp then Some (colocate_pods pods) else None) ∧
    m !! implicit_name "colocate-namespaces" = (if cn then Some (colocate_namespaces pods) else None) ∧
    ∀ name, name ≠ implicit_name "colocate-pods" → name ≠ implicit_name "colocate-namespaces" →
      m !! name = implicit !! name.
Proof. apply registerImplicitAffinities_ok. Qed.

(** ** Examples *)

Definition ex_near : Affinity :=
  MkAffinity (Some (MkExpression "namespace" Equals ["shop"])) (Some (MkExpression "name" In ["db"; "cache"])) 5.
Definition ex_far : Affinity := MkAffinity None (Some (MkExpression "name" Matches ["d*"])) (-3).
Definition ex_db : container := MkContainer "c2" "p1" "db" ∅ ∅.
Definition ex_ctrs : gmap string container := <["c1" := ex_ctr]> {["c2" := ex_db]}.

(** A decoder for two annotations. *)
Definition ex_yaml_full (value : string) : option (gmap string (list (option Affinity))) :=
  if bool_decide (value = "near") then Some {["nginx" := [Some ex_near; Some ex_far]]}
  else if bool_decide (value = "nil") then Some {["nginx" := [None]]}
  else None.

#[local] Existing Instance go_default.

Definition ex_affinities : list Affinity :=
  [ex_near; MkAffinity (Some (pod_ScopeExpression ex_pod)) (Match ex_far) (-3)].

Definition ex_annotation (p : pod) (key : string) : option string :=
  if bool_decide (key = "affinity") then Some "near" else None.

Lemma GetAffinity_usable_witness :
  GetAffinity ex_pods (λ _, None) ex_yaml_full ex_annotation
    (registerImplicitAffinities ex_pods true true ∅).1 ∅ ex_ctr
  = (Ok ex_affinities, {["p1" := {["nginx" := ex_affinities]}]}) ∧
  Forall (usable ex_pods) ex_affinities.
Proof.
  pose proof (GetAffinity_usable ex_pods (λ _, None) ex_yaml_full ex_annotation true true ∅ ex_ctr
    (map_Forall_empty _)) as Hu.
  split; [by vm_compute|].
  replace (GetAffinity _ _ _ _ _ _ _) with (Ok ex_affinities,
    ({["p1" := {["nginx" := ex_affinities]}]} : gmap string (gmap string (list Affinity)))) in Hu
    by (by vm_compute).
  destruct Hu as (_ & Hu & _). by apply Hu.
Defined.

Lemma GetContainerAffinity_null_panics_witness :
  (GetContainerAffinity (λ _, None) ex_yaml_full ex_pod (Some "nil") None None "nginx").1 = Err Panic.
Proof. apply (GetContainerAffinity_null_panics (λ _, None) ex_yaml_full ex_pod "nil" "nginx"); reflexivity. Defined.

Lemma ex_affinities_usable : Forall (usable ex_pods) ex_affinities.
Proof.
  repeat constructor; try (intros c; apply valid_eval; reflexivity); cbn; unfold UserWeightCutoff; lia.
Qed.

Lemma ex_ctrs_ids id c : ex_ctrs !! id = Some c → c_id c = id.
Proof.
  unfold ex_ctrs. intros [[<- <-]|[_ Hc]]%lookup_insert_Some; [done|]. by apply lookup_singleton_Some in Hc as [<- <-].
Qed.

Lemma calculateContainerAffinity_sum_witness :
  ∃ r, calculateContainerAffinity ex_pods ex_ctrs (Ok ex_affinities) ex_ctr = Ok r ∧ default 0 (r !! "c2") = 2.
Proof.
  destruct (calculateContainerAffinity_sum ex_pods ex_ctrs ex_ctrs_ids ex_affinities ex_ctr ex_affinities_usable)
    as (r & Hr & _ & Hsum).
  exists r. split; [exact Hr|]. rewrite (Hsum "c2") by done. by vm_compute.
Defined.

Lemma calculatePoolAffinities_sum_witness :
  ∃ r, calculatePoolAffinities ex_pods ex_ctrs {["c2" := 7]} (Ok ex_affinities) ex_ctr = Ok r.
Proof.
  destruct (calculatePoolAffinities_sum ex_pods ex_ctrs ex_ctrs_ids {["c2" := 7]} ex_affinities ex_ctr
    ex_affinities_usable) as (affinities & r & _ & Hr & _).
  exists r. exact Hr.
Defined.
