(* ===== verification/CpuTree.v ===== *)
(** * The CPU tree of the balloons policy
    (cmd/plugins/balloons/policy/cputree.go)

    The topology tree, its walks, and the chain of resizers that chooses the
    CPUs to add to or remove from a balloon.  A node is modelled by the tree
    below it; where the code follows a parent pointer, the position of a node
    among its siblings is passed down instead. *)

From S2P Require Import Prelude GoStrings MemNodes.

Open Scope string_scope.
Open Scope Z_scope.

(** ** Data *)

Inductive CPUTopologyLevel :=
  | LevelUndefined | LevelSystem | LevelPackage | LevelDie | LevelNuma
  | LevelL3Cache | LevelL2Cache | LevelCore | LevelThread.

#[export] Instance CPUTopologyLevel_eq_dec : EqDecision CPUTopologyLevel.
Proof. solve_decision. Defined.

Inductive cpuTreeNode := MkTree {
  t_name : string;
  t_level : CPUTopologyLevel;
  t_cpus : CPUSet;
  t_children : list cpuTreeNode;
}.

Definition csize (s : CPUSet) : Z := Z.of_nat (size s).

(** [CPUSet.List], in increasing order. *)
Definition CPUSet_List (s : CPUSet) : list Z := slices_Sort (elements s).

Record cpuTreeNodeAttributes := MkAttributes {
  tna_t : cpuTreeNode;
  tna_depth : Z;
  tna_currentCpus : CPUSet;
  tna_freeCpus : CPUSet;
  tna_currentCpuCount : Z;
  tna_currentCpuCounts : list Z;
  tna_freeCpuCount : Z;
  tna_freeCpuCounts : list Z;
}.

(** The CPU sets close to a device, by device; the callback for virtual
    devices changes them. *)
Abbreviation closeSets := (gmap string (list CPUSet)).

Record cpuTreeAllocatorOptions := MkTreeOptions {
  topologyBalancing : bool;
  preferSpreadOnPhysicalCores : bool;
  preferCloseToDevices : list string;
  preferFarFromDevices : list string;
  virtDevCpusets : option closeSets;
  deviceUpdateOnEveryCpu : option (CPUSet → closeSets → closeSets);
}.

(** ** Building trees *)

Definition NewCpuTree (name : string) : cpuTreeNode := MkTree name LevelUndefined ∅ [].

(** A node with children.  [AddCpus] of a thread adds its CPU to the thread
    and all nodes above it, so a node ends up with the CPUs of its children. *)
Definition tree_with (name : string) (level : CPUTopologyLevel) (children : list cpuTreeNode)
    : cpuTreeNode :=
  MkTree name level (⋃ (t_cpus <$> children)) children.

Definition thread_tree (name : string) (threadID : Z) : cpuTreeNode :=
  MkTree name LevelThread {[threadID]} [].

(** A cache of the system; [cache_key] is the identity of the object. *)
Record Cache := MkCache {
  cache_key : Z;
  cache_id : Z;
  cache_sharedCPUs : CPUSet;
}.

(** What [NewCpuTreeFromSystem] asks the system for. *)
Record System := MkSystem {
  PackageIDs : list Z;
  DieIDs : Z → list Z;
  DieNodeIDs : Z → Z → list Z;
  NodeCPUSet : Z → CPUSet;
  GetL2Caches : Z → list Cache;
  ThreadCPUSet : Z → CPUSet;
}.

Definition numbered (prefix infix : string) (n : Z) : string := str_app prefix (str_app infix (itoa n)).

(** ** Walking *)

Inductive walk_action := WalkOn | WalkSkipChildren | WalkStop.

Section walk.
Context {St : Type} (handler : Z → cpuTreeNode → St → St * walk_action).

(** The handler is given the index of the node among its siblings, -1 for
    the root.  The result says whether the walk was stopped. *)
Fixpoint DepthFirstWalk (index : Z) (t : cpuTreeNode) (st : St) : St * bool :=
  match handler index t st with
  | (st, WalkSkipChildren) => (st, false)
  | (st, WalkStop) => (st, true)
  | (st, WalkOn) =>
      (fix walk_children (i : Z) (cs : list cpuTreeNode) (st : St) : St * bool :=
         match cs with
         | [] => (st, false)
         | c :: cs' =>
             match DepthFirstWalk i c st with
             | (st, true) => (st, true)
             | (st, false) => walk_children (i + 1) cs' st
             end
         end) 0 (t_children t) st
  end.
End walk.

(** The sibling index of the first leaf with the CPU. *)
Definition FindLeafWithCpu (t : cpuTreeNode) (cpu : Z) : option (Z * cpuTreeNode) :=
  (DepthFirstWalk (λ index tn found,
     if bool_decide (t_children tn ≠ []) then (found, WalkOn)
     else if bool_decide (cpu ∈ CPUSet_List (t_cpus tn)) then (Some (index, tn), WalkStop)
     else (found, WalkOn)) (-1) t None).1.

Fixpoint LeafDepth (t : cpuTreeNode) : Z :=
  match t_children t with
  | [] => 0
  | c :: _ => LeafDepth c + 1
  end.

(** [names[i] = append(names[i], name)]; an index out of range panics. *)
Definition append_name (i : Z) (name : string) (names : res (list (list string)))
    : res (list (list string)) :=
  let! ns := names in
  if bool_decide (0 ≤ i) then
    match ns !! Z.to_nat i with
    | Some l => Ok (<[Z.to_nat i := app l [name]]> ns)
    | None => Err Panic
    end
  else Err Panic.

Definition CpuLocations (t : cpuTreeNode) (cpus : CPUSet) : res (list (list string)) :=
  let tLeafDepth := LeafDepth t in
  (DepthFirstWalk (λ _ tn names,
     if bool_decide (csize (t_cpus tn ∩ cpus) = 0) then (names, WalkSkipChildren)
     else (append_name (tLeafDepth - LeafDepth tn) (t_name tn) names, WalkOn))
     (-1) t (Ok (replicate (Z.to_nat (tLeafDepth + 1)) []))).1.

(** ** Attributes *)

Section attributes.
Context (currentCpus freeCpus : CPUSet) (filter : cpuTreeNodeAttributes → bool).

Definition attributes_of (t : cpuTreeNode) (depth : Z) (currentCounts freeCounts : list Z)
    : cpuTreeNodeAttributes :=
  let currentHere := t_cpus t ∩ currentCpus in
  let freeHere := t_cpus t ∩ freeCpus in
  {| tna_t := t;
     tna_depth := depth;
     tna_currentCpus := currentHere;
     tna_freeCpus := freeHere;
     tna_currentCpuCount := csize currentHere;
     tna_currentCpuCounts := app currentCounts [csize currentHere];
     tna_freeCpuCount := csize freeHere;
     tna_freeCpuCounts := app freeCounts [csize freeHere] |}.

Fixpoint toAttributedSlice (t : cpuTreeNode) (depth : Z) (currentCounts freeCounts : list Z)
    : list cpuTreeNodeAttributes :=
  let tna := attributes_of t depth currentCounts freeCounts in
  if filter tna then
    tna ::
      (fix slices (cs : list cpuTreeNode) : list cpuTreeNodeAttributes :=
         match cs with
         | [] => []
         | c :: cs' =>
             app (toAttributedSlice c (depth + 1) (tna_currentCpuCounts tna) (tna_freeCpuCounts tna))
               (slices cs')
         end) (t_children t)
  else [].

Definition ToAttributedSlice (t : cpuTreeNode) : list cpuTreeNodeAttributes :=
  toAttributedSlice t 0 [] [].
End attributes.

(** ** Splitting a level *)

(** Mask the CPUs of a branch; a branch without CPUs is cut off. *)
Fixpoint mask_tree (cpuMask : CPUSet) (t : cpuTreeNode) : option cpuTreeNode :=
  let cpus := t_cpus t ∩ cpuMask in
  if bool_decide (csize cpus = 0) then None
  else Some (MkTree (t_name t) (t_level t) cpus
               ((fix mask_children (cs : list cpuTreeNode) : list cpuTreeNode :=
                   match cs with
                   | [] => []
                   | c :: cs' =>
                       match mask_tree cpuMask c with
                       | Some c' => c' :: mask_children cs'
                       | None => mask_children cs'
                       end
                   end) (t_children t))).

(** A masked copy of a child of the level that is split.  Its own parent is
    not the new class node yet, so it stays even without CPUs, with the
    branches below it as they were. *)
Definition mask_child (cpuMask : CPUSet) (child : cpuTreeNode) : cpuTreeNode :=
  match mask_tree cpuMask child with
  | Some c => c
  | None => MkTree (t_name child) (t_level child) (t_cpus child ∩ cpuMask) (t_children child)
  end.

Section split.
Context `{GoRuntime}.

Definition class_node (tn : cpuTreeNode) (cc : Z * list Z) : cpuTreeNode :=
  let cpuMask : CPUSet := list_to_set cc.2 in
  MkTree (numbered (t_name tn) "class" cc.1) (t_level tn) (t_cpus tn ∩ cpuMask)
    (mask_child cpuMask <$> t_children tn).

Definition class_cpus (cpuClassifier : Z → Z) (cpus : list Z) : gmap Z (list Z) :=
  fold_left (λ classCpus cpu,
      let class := cpuClassifier cpu in
      <[class := app (default [] (classCpus !! class)) [cpu]]> classCpus) cpus ∅.

Fixpoint split_nodes (splitLevel : CPUTopologyLevel) (classes : list (Z * list Z)) (tn : cpuTreeNode)
    : cpuTreeNode :=
  if bool_decide (t_level tn = splitLevel)
  then MkTree (t_name tn) (t_level tn) (t_cpus tn) (class_node tn <$> classes)
  else MkTree (t_name tn) (t_level tn) (t_cpus tn)
         (map (split_nodes splitLevel classes) (t_children tn)).

Definition SplitLevel (t : cpuTreeNode) (splitLevel : CPUTopologyLevel) (cpuClassifier : Z → Z)
    : cpuTreeNode :=
  split_nodes splitLevel (map_range (class_cpus cpuClassifier (CPUSet_List (t_cpus t)))) t.

(** The class of a CPU is the index of its leaf; a CPU that is in no leaf
    ends the program. *)
Definition leaf_index (t : cpuTreeNode) (cpu : Z) : Z :=
  match FindLeafWithCpu t cpu with
  | Some (index, _) => index
  | None => -1
  end.

Record cpuTreeAllocator := MkTreeAllocator {
  ta_options : cpuTreeAllocatorOptions;
  ta_root : cpuTreeNode;
}.

(** The allocator and the initial close CPU sets. *)
Definition NewAllocator (t : cpuTreeNode) (options : cpuTreeAllocatorOptions)
    : res (cpuTreeAllocator * closeSets) :=
  let cache := default ∅ (virtDevCpusets options) in
  if preferSpreadOnPhysicalCores options then
    if bool_decide (Forall (λ cpu, is_Some (FindLeafWithCpu t cpu)) (CPUSet_List (t_cpus t)))
    then Ok (MkTreeAllocator options (SplitLevel t LevelNuma (leaf_index t)), cache)
    else Err Panic
  else Ok (MkTreeAllocator options t, cache).

(** ** From the system *)

Section from_system.
Context (sys : System).

Definition core_tree (nodeName : string) (cpuID : Z) : cpuTreeNode :=
  let name := numbered nodeName "cpu" cpuID in
  tree_with name LevelCore
    ((λ threadID, thread_tree (numbered name "t" threadID) threadID) <$>
       CPUSet_List (ThreadCPUSet sys cpuID)).

(** The loop over the CPUs of a cache, with the threads already seen. *)
Fixpoint core_trees (nodeName : string) (cpus : list Z) (threadsSeen : CPUSet) : list cpuTreeNode :=
  match cpus with
  | [] => []
  | cpuID :: cpus' =>
      if bool_decide (cpuID ∈ threadsSeen) then core_trees nodeName cpus' threadsSeen
      else core_tree nodeName cpuID ::
             core_trees nodeName cpus' (threadsSeen ∪ ThreadCPUSet sys cpuID)
  end.

Definition l2c_tree (nodeName : string) (cache : Cache) : cpuTreeNode :=
  tree_with (numbered nodeName "$" (cache_id cache)) LevelL2Cache
    (core_trees nodeName (CPUSet_List (cache_sharedCPUs cache)) ∅).

(** The level 2 caches of the CPUs of a node, without duplicates. *)
Definition l2_caches (nodeID : Z) : gmap Z Cache :=
  fold_left (λ l2cs cpuID,
      fold_left (λ l2cs cache, <[cache_key cache := cache]> l2cs) (GetL2Caches sys cpuID) l2cs)
    (CPUSet_List (NodeCPUSet sys nodeID)) ∅.

Definition node_tree (dieName : string) (nodeID : Z) : cpuTreeNode :=
  let name := numbered dieName "n" nodeID in
  tree_with name LevelNuma (l2c_tree name <$> (map_range (l2_caches nodeID)).*2).

Definition die_tree (packageName : string) (packageID dieID : Z) : cpuTreeNode :=
  let name := numbered packageName "d" dieID in
  tree_with name LevelDie (node_tree name <$> DieNodeIDs sys packageID dieID).

Definition package_tree (packageID : Z) : cpuTreeNode :=
  let name := numbered "" "p" packageID in
  tree_with name LevelPackage (die_tree name packageID <$> DieIDs sys packageID).

Definition NewCpuTreeFromSystem : cpuTreeNode :=
  tree_with "system" LevelSystem (package_tree <$> PackageIDs sys).
End from_system.
End split.

(** * Resizing a set of CPUs (cmd/plugins/balloons/policy/cputree.go)

    The resizers of a CPU tree allocator.  Each one is given the next ones in
    the chain; the close CPU sets are the state they share. *)

Open Scope Z_scope.

(** CPUs to add from, CPUs to remove from, and an error. *)
Abbreviation resize_result := (CPUSet * CPUSet * option error)%type.

(** The rest of the chain: current CPUs, free CPUs and the change wanted. *)
Abbreviation resizer := (CPUSet → CPUSet → Z → closeSets → resize_result * closeSets).

Section resize.
Context `{GoRuntime} (options : cpuTreeAllocatorOptions) (root : cpuTreeNode).

(** The topology hints of a device in sysfs, [None] if there are none to be
    found. *)
Context (NewTopologyHints : string → option (list CPUSet)).

(** [UnsortedList] of a CPU set, in any order. *)
Definition UnsortedList (s : CPUSet) : list Z := (map_range (gset_to_gmap tt s)).*1.

(** [sort.Slice] with a less-than function. *)
Definition cmp_of_less {A} (less : A → A → bool) (x y : A) : Z :=
  if less x y then -1 else if less y x then 1 else 0.

Definition sort_slice {A} (less : A → A → bool) (l : list A) : list A :=
  sort_func (cmp_of_less less) l.

(** ** Comparing nodes *)

(** Compare two lists of counts of the same length at their first difference;
    [None] if there is none. *)
Fixpoint first_difference (better : Z → Z → bool) (xs ys : list Z) : option bool :=
  match xs, ys with
  | x :: xs', y :: ys' =>
      if bool_decide (x ≠ y) then Some (better x y) else first_difference better xs' ys'
  | _, _ => None
  end.

Definition gt (x y : Z) : bool := bool_decide (x > y).
Definition lt (x y : Z) : bool := bool_decide (x < y).

Definition sorterAllocate (x y : cpuTreeNodeAttributes) : bool :=
  if bool_decide (tna_depth x ≠ tna_depth y) then gt (tna_depth x) (tna_depth y)
  else
    match first_difference gt (tna_currentCpuCounts x) (tna_currentCpuCounts y) with
    | Some b => b
    | None =>
        match first_difference (if topologyBalancing options then gt else lt)
                (tna_freeCpuCounts x) (tna_freeCpuCounts y) with
        | Some b => b
        | None => String.ltb (t_name (tna_t x)) (t_name (tna_t y))
        end
    end.

Definition sorterRelease (x y : cpuTreeNodeAttributes) : bool :=
  if bool_decide (tna_depth x ≠ tna_depth y) then gt (tna_depth x) (tna_depth y)
  else
    match first_difference lt (tna_currentCpuCounts x) (tna_currentCpuCounts y) with
    | Some b => b
    | None =>
        match first_difference (if topologyBalancing options then lt else lt)
                (tna_freeCpuCounts x) (tna_freeCpuCounts y) with
        | Some b => b
        | None => String.ltb (t_name (tna_t y)) (t_name (tna_t x))
        end
    end.

(** ** The resizers *)

Definition resizeCpusNow (next : resizer) : resizer := λ currentCpus freeCpus delta close,
  ((freeCpus, currentCpus, None), close).

Definition resizeCpusOnlyIfNecessary (next : resizer) : resizer := λ currentCpus freeCpus delta close,
  if bool_decide (delta = 0) then ((∅, ∅, None), close)
  else if bool_decide (delta > 0) then
    if bool_decide (csize freeCpus < delta) then ((freeCpus, ∅, Some ErrOther), close)
    else if bool_decide (csize freeCpus = delta) then ((freeCpus, ∅, None), close)
    else next currentCpus freeCpus delta close
  else
    if bool_decide (csize currentCpus < - delta) then ((∅, currentCpus, Some ErrOther), close)
    else if bool_decide (csize currentCpus = - delta) then ((∅, currentCpus, None), close)
    else next currentCpus freeCpus delta close.

(** The loop of [resizeCpusWithDynamicDeviceHints]; every round adds a CPU. *)
Fixpoint dynamic_loop (rounds : nat) (next : resizer) (update : CPUSet → closeSets → closeSets)
    (delta : Z) (addFrom removeFrom addedCpus currentCpus freeCpus : CPUSet) (close : closeSets)
    : resize_result * closeSets :=
  match rounds with
  | O => ((addFrom, removeFrom, Some OutOfFuel), close)
  | S rounds' =>
      match CPUSet_List addFrom with
      | [] => ((addFrom, removeFrom, Some Panic), close)
      | addedCpu :: _ =>
          let addedCpus := addedCpus ∪ {[addedCpu]} in
          if bool_decide (delta ≤ csize addedCpus) then ((addedCpus ∪ addFrom, removeFrom, None), close)
          else
            let currentCpus := currentCpus ∪ {[addedCpu]} in
            let freeCpus := freeCpus ∖ currentCpus in
            let close := update currentCpus close in
            match next currentCpus freeCpus 1 close with
            | ((addFrom, removeFrom, err), close) =>
                if bool_decide (err ≠ None ∨ csize addFrom < 1) then ((addedCpus, removeFrom, err), close)
                else dynamic_loop rounds' next update delta addFrom removeFrom addedCpus currentCpus
                       freeCpus close
            end
      end
  end.

Definition resizeCpusWithDynamicDeviceHints (next : resizer) : resizer :=
  λ currentCpus freeCpus delta close,
  match deviceUpdateOnEveryCpu options with
  | None => next currentCpus freeCpus delta close
  | Some update =>
      let close := update currentCpus close in
      if bool_decide (delta ≤ 0) then next currentCpus freeCpus delta close
      else
        match next currentCpus freeCpus delta close with
        | ((addFrom, removeFrom, err), close) =>
            if bool_decide (err ≠ None ∨ csize addFrom < delta) then ((addFrom, removeFrom, err), close)
            else dynamic_loop (Z.to_nat delta) next update delta addFrom removeFrom ∅ currentCpus
                   freeCpus close
        end
  end.

(** [topologyHintCpus]: the cached CPU sets of a device, read once. *)
Definition topologyHintCpus (dev : string) (close : closeSets) : list CPUSet * closeSets :=
  match close !! dev with
  | Some sets => (sets, close)
  | None =>
      match NewTopologyHints dev with
      | None => ([], <[dev := []]> close)
      | Some [] => ([], close)
      | Some sets => (sets, <[dev := sets]> close)
      end
  end.

Fixpoint close_to (devs : list string) (close : closeSets) : list (list CPUSet) * closeSets :=
  match devs with
  | [] => ([], close)
  | dev :: devs' =>
      let '(sets, close) := topologyHintCpus dev close in
      let '(rest, close) := close_to devs' close in
      (if bool_decide (Z.of_nat (length sets) > 0) then sets :: rest else rest, close)
  end.

Fixpoint far_from (devs : list string) (freeCpus : CPUSet) (close : closeSets)
    : list (list CPUSet) * closeSets :=
  match devs with
  | [] => ([], close)
  | dev :: devs' =>
      let '(sets, close) := topologyHintCpus dev close in
      let '(rest, close) := far_from devs' freeCpus close in
      (app ((λ farCpuSet, [freeCpus ∖ farCpuSet]) <$> sets) rest, close)
  end.

(** Take the hints that leave enough CPUs. *)
Definition apply_hints (delta : Z) (allCloseCpuSets : list (list CPUSet)) (freeCpus : CPUSet) : CPUSet :=
  fold_left (λ remaining closeCpuSets,
      fold_left (λ remaining cpus,
          let common := remaining ∩ cpus in
          if bool_decide (delta ≤ csize common) then common else remaining) closeCpuSets remaining)
    allCloseCpuSets freeCpus.

(** The hints of the current CPUs, earlier hints counting more. *)
Fixpoint cpu_hints (allCloseCpuSets : list (list CPUSet)) (currentCpus : CPUSet) (hints : gmap Z Z)
    : gmap Z Z :=
  match allCloseCpuSets with
  | [] => hints
  | closeCpuSets :: rest =>
      let weight := u64 (Z.shiftl 1 (Z.of_nat (length rest))) in
      cpu_hints rest currentCpus
        (fold_left (λ hints cpus,
             fold_left (λ hints cpu, <[cpu := u64 (default 0 (hints !! cpu) + weight)]> hints)
               (UnsortedList (cpus ∩ currentCpus)) hints) closeCpuSets hints)
  end.

Definition hint_of (hints : gmap Z Z) (cpu : Z) : Z := default 0 (hints !! cpu).

(** The loop that splits the CPUs to free into those with fewer than
    [maxHints] hints and those with as many. *)
Fixpoint split_hinted (hints : gmap Z Z) (maxHints : Z) (cpus : list Z) (sure maybe : CPUSet)
    : CPUSet * CPUSet :=
  match cpus with
  | [] => (sure, maybe)
  | cpu :: cpus' =>
      if bool_decide (hint_of hints cpu ≤ maxHints) then
        if bool_decide (hint_of hints cpu < maxHints)
        then split_hinted hints maxHints cpus' (sure ∪ {[cpu]}) maybe
        else split_hinted hints maxHints cpus' sure (maybe ∪ {[cpu]})
      else (sure, maybe)
  end.

Fixpoint take_cpus (n : Z) (cpus : list Z) (sure : CPUSet) : CPUSet :=
  match cpus with
  | [] => sure
  | cpu :: cpus' => if bool_decide (n ≤ csize sure) then sure else take_cpus n cpus' (sure ∪ {[cpu]})
  end.

Definition resizeCpusWithDevices (next : resizer) : resizer := λ currentCpus freeCpus delta close,
  let '(close1, close) := close_to (preferCloseToDevices options) close in
  let '(close2, close) := far_from (preferFarFromDevices options) freeCpus close in
  let allCloseCpuSets := app close1 close2 in
  if bool_decide (length allCloseCpuSets = 0%nat) then next currentCpus freeCpus delta close
  else if bool_decide (delta > 0) then
    next currentCpus (apply_hints delta allCloseCpuSets freeCpus) delta close
  else if bool_decide (delta < 0) then
    let hints := cpu_hints allCloseCpuSets currentCpus ∅ in
    let leastHintedCpus := sort_slice (λ x y, lt (hint_of hints x) (hint_of hints y))
                             (UnsortedList currentCpus) in
    match leastHintedCpus !! Z.to_nat (- delta) with
    | None => ((freeCpus, currentCpus, Some Panic), close)
    | Some cpu =>
        let '(sure, maybe) := split_hinted hints (hint_of hints cpu) leastHintedCpus ∅ ∅ in
        let remainingDelta := delta + csize sure in
        match next maybe freeCpus remainingDelta close with
        | ((_, freeFromMaybe, err), close) =>
            ((freeCpus, take_cpus (- delta) (UnsortedList freeFromMaybe) sure, err), close)
        end
    end
  else ((freeCpus, currentCpus, None), close).

(** The loop that adds one CPU at a time, for [n] more CPUs after [k]. *)
Fixpoint add_loop (n : nat) (k : Z) (next : resizer) (superset : CPUSet * CPUSet) (addFrom : CPUSet)
    (currentCpus freeCpus : CPUSet) (close : closeSets) : resize_result * closeSets :=
  match n with
  | O => ((addFrom, superset.2, None), close)
  | S n' =>
      match next currentCpus freeCpus 1 close with
      | ((single, _, err), close) =>
          match err with
          | Some e => ((superset.1, superset.2, Some e), close)
          | None =>
              if bool_decide (csize single ≠ 1) then ((superset.1, superset.2, Some ErrOther), close)
              else if bool_decide (csize (addFrom ∪ single) ≠ k + 1)
              then ((superset.1, superset.2, Some ErrOther), close)
              else add_loop n' (k + 1) next superset (addFrom ∪ single) (currentCpus ∪ single)
                     (freeCpus ∖ single) close
          end
      end
  end.

(** The loop that removes one CPU at a time, [n] more after [k]. *)
Fixpoint remove_loop (n : nat) (k : Z) (next : resizer) (removeFrom currentCpus freeCpus : CPUSet)
    (close : closeSets) : resize_result * closeSets :=
  match n with
  | O => ((∅, removeFrom, None), close)
  | S n' =>
      match next currentCpus freeCpus (-1) close with
      | ((_, single, err), close) =>
          match err with
          | Some e => ((∅, removeFrom, Some e), close)
          | None =>
              if bool_decide (csize single ≠ 1) then ((∅, removeFrom, Some ErrOther), close)
              else if bool_decide (csize (removeFrom ∪ single) ≠ k + 1)
              then ((∅, removeFrom, Some ErrOther), close)
              else remove_loop n' (k + 1) next (removeFrom ∪ single) (currentCpus ∖ single)
                     (freeCpus ∪ single) close
          end
      end
  end.

Definition resizeCpusOneAtATime (next : resizer) : resizer := λ currentCpus freeCpus delta close,
  if bool_decide (delta > 0) then
    match next currentCpus freeCpus delta close with
    | ((addFromSuperset, removeFromSuperset, err), close) =>
        if negb (preferSpreadOnPhysicalCores options) || bool_decide (csize addFromSuperset = delta)
        then ((addFromSuperset, removeFromSuperset, err), close)
        else add_loop (Z.to_nat delta) 0 next (addFromSuperset, removeFromSuperset) ∅
               currentCpus freeCpus close
    end
  else remove_loop (Z.to_nat (- delta)) 0 next ∅ currentCpus freeCpus close.

(** The nodes that have enough CPUs. *)
Definition enough (delta : Z) (tna : cpuTreeNodeAttributes) : bool :=
  if bool_decide (delta > 0 ∧ tna_freeCpuCount tna - delta < 0) then false
  else if bool_decide (delta < 0 ∧ tna_currentCpuCount tna + delta < 0) then false
  else true.

Definition resizeCpusMaxLocalSet (next : resizer) : resizer := λ currentCpus freeCpus delta close,
  let tnas := ToAttributedSlice currentCpus freeCpus (enough delta) root in
  let tnas := sort_slice (if bool_decide (delta > 0) then sorterAllocate else sorterRelease) tnas in
  match tnas with
  | [] => ((freeCpus, currentCpus, Some ErrOther), close)
  | tna :: _ => next (tna_currentCpus tna) (tna_freeCpus tna) delta close
  end.

(** ** The chain *)

Fixpoint nextCpuResizer (resizers : list (resizer → resizer)) : resizer :=
  match resizers with
  | [] => λ currentCpus freeCpus delta close, ((freeCpus, currentCpus, Some ErrOther), close)
  | r :: resizers' => r (nextCpuResizer resizers')
  end.

Definition ResizeCpus : resizer :=
  nextCpuResizer
    [resizeCpusOnlyIfNecessary; resizeCpusWithDynamicDeviceHints; resizeCpusWithDevices;
     resizeCpusOneAtATime; resizeCpusMaxLocalSet; resizeCpusNow].
End resize.
