(* ===== verification/CpuOrder.v ===== *)
(** * The order in which CPU tree nodes are preferred

    The two sorters of the resizer are strict weak orders on the nodes they
    are given, so that sorting finds the best node; and the best node is one
    of the deepest. *)

From Stdlib Require Import OrderedTypeEx.
From S2P Require Import Prelude GoStrings MemNodes CpuTree.

Open Scope Z_scope.

(** ** Comparisons *)

(** A comparison that is a total preorder. *)
Record preorder_cmp {A} (c : A → A → comparison) : Prop := {
  pc_opp : ∀ x y, c y x = CompOpp (c x y);
  pc_trans : ∀ x y z, c x y ≠ Gt → c y z ≠ Gt → c x z ≠ Gt;
}.

Definition lex {A} (c1 c2 : A → A → comparison) (x y : A) : comparison :=
  match c1 x y with
  | Eq => c2 x y
  | r => r
  end.

Lemma pc_eq {A} (c : A → A → comparison) x y z : preorder_cmp c → c x y = Eq → c x z = c y z.
Proof.
  intros [Hopp Htr] Hxy. assert (c y x = Eq) as Hyx by (by rewrite Hopp, Hxy).
  pose proof (Hopp x z) as Hzx. pose proof (Hopp y z) as Hzy.
  pose proof (Htr y x z) as H1. pose proof (Htr z x y) as H2.
  pose proof (Htr x y z) as H3. pose proof (Htr z y x) as H4.
  rewrite Hxy, Hyx, Hzx, Hzy in *.
  destruct (c x z), (c y z); simpl in *; try done;
    exfalso; first [by apply H1|by apply H2|by apply H3|by apply H4].
Qed.

Lemma lex_preorder {A} (c1 c2 : A → A → comparison) :
  preorder_cmp c1 → preorder_cmp c2 → preorder_cmp (lex c1 c2).
Proof.
  intros H1 H2. split.
  - intros x y. unfold lex. rewrite (pc_opp _ H1 x y). destruct (c1 x y); simpl; [|done..].
    apply (pc_opp _ H2).
  - intros x y z. unfold lex. destruct (c1 x y) eqn:Hxy; [| |done].
    + rewrite (pc_eq c1 x y z H1 Hxy). destruct (c1 y z); [|done..]. apply (pc_trans _ H2).
    + intros _. destruct (c1 y z) eqn:Hyz; [| |done]; intros _.
      * assert (c1 z y = Eq) as Hzy by (by rewrite (pc_opp _ H1), Hyz).
        assert (c1 x z = Lt) as ->; [|done].
        rewrite (pc_opp _ H1 z x), (pc_eq c1 z y x H1 Hzy), <- (pc_opp _ H1 y x). done.
      * destruct (c1 x z) eqn:Hxz; [|done|].
        { exfalso. rewrite (pc_eq c1 x z y H1 Hxz) in Hxy.
          pose proof (pc_opp _ H1 y z) as Ho. rewrite Hyz in Ho. simpl in Ho. congruence. }
        exfalso. apply (pc_trans _ H1 x y z); congruence.
Qed.

Lemma map_preorder {A B} (f : A → B) (c : B → B → comparison) :
  preorder_cmp c → preorder_cmp (λ x y, c (f x) (f y)).
Proof. intros [Ho Ht]. split; [intros; apply Ho|intros x y z; apply Ht]. Qed.

Lemma flip_preorder {A} (c : A → A → comparison) : preorder_cmp c → preorder_cmp (λ x y, c y x).
Proof. intros [Ho Ht]. split; [intros; apply Ho|]. intros x y z ? ?. by apply (Ht z y x). Qed.

Lemma Zcompare_preorder : preorder_cmp Z.compare.
Proof.
  split; [intros; apply Z.compare_antisym|]. intros x y z Hxy Hyz.
  change (x ≤ z). change (x ≤ y) in Hxy. change (y ≤ z) in Hyz. lia.
Qed.

Lemma string_preorder : preorder_cmp String.compare.
Proof.
  split; [intros; apply String.compare_antisym|]. intros x y z Hxy Hyz.
  destruct (String.compare x y) eqn:E1; [|..|done].
  { apply String.compare_eq_iff in E1 as ->. done. }
  destruct (String.compare y z) eqn:E2; [|..|done].
  { apply String.compare_eq_iff in E2 as <-. by rewrite E1. }
  assert (String.compare x z = Lt) as ->; [|done].
  apply String_as_OT.cmp_lt. apply String_as_OT.cmp_lt in E1, E2.
  by eapply String_as_OT.lt_trans.
Qed.

(** Lists of numbers, shorter ones first. *)
Fixpoint list_cmp (c : Z → Z → comparison) (xs ys : list Z) : comparison :=
  match xs, ys with
  | [], [] => Eq
  | [], _ :: _ => Lt
  | _ :: _, [] => Gt
  | x :: xs', y :: ys' => match c x y with Eq => list_cmp c xs' ys' | r => r end
  end.

Lemma list_preorder c : preorder_cmp c → preorder_cmp (list_cmp c).
Proof.
  intros Hc. split.
  - induction x as [|x xs IH]; intros [|y ys]; simpl; try done.
    rewrite (pc_opp _ Hc x y). destruct (c x y); simpl; [apply IH|done..].
  - induction x as [|x xs IH]; intros [|y ys] [|z zs]; simpl; try done.
    destruct (c x y) eqn:Hxy; [|intros _|done].
    + rewrite (pc_eq c x y z Hc Hxy). destruct (c y z); [apply IH|done..].
    + destruct (c y z) eqn:Hyz; [intros _|intros _|done].
      * assert (c z y = Eq) as Hzy by (by rewrite (pc_opp _ Hc), Hyz).
        assert (c x z = Lt) as ->; [|done].
        rewrite (pc_opp _ Hc z x), (pc_eq c z y x Hc Hzy), <- (pc_opp _ Hc y x). done.
      * destruct (c x z) eqn:Hxz; [|done|].
        { exfalso. rewrite (pc_eq c x z y Hc Hxz) in Hxy.
          pose proof (pc_opp _ Hc y z) as Ho. rewrite Hyz in Ho. simpl in Ho. congruence. }
        exfalso. apply (pc_trans _ Hc x y z); congruence.
Qed.

(** ** Sorting by less-than functions *)

Lemma less_orders {A} (less : A → A → bool) (c : A → A → comparison) (l : list A) :
  preorder_cmp c → (∀ x y, x ∈ l → y ∈ l → less x y = true ↔ c x y = Lt) →
  orders (cmp_of_less less) l.
Proof.
  intros Hc Hless.
  assert (∀ x y, x ∈ l → y ∈ l → cmp_le (cmp_of_less less) x y ↔ c x y ≠ Gt) as Hle.
  { intros x y Hx Hy. unfold cmp_le, cmp_of_less. rewrite (pc_opp _ Hc y x).
    pose proof (Hless y x Hy Hx) as Hyx. pose proof (Hless x y Hx Hy) as Hxy.
    destruct (less y x); [rewrite (proj1 Hyx eq_refl); simpl; split; [lia|done]|].
    destruct (c y x); simpl; [destruct (less x y); simpl; (split; [done|lia])| |].
    - destruct Hyx as [_ Hyx]. by specialize (Hyx eq_refl).
    - destruct (less x y); (split; [done|lia]). }
  split.
  - intros x y Hx Hy. rewrite !Hle by done. rewrite (pc_opp _ Hc x y). destruct (c x y); simpl; auto.
  - intros x y z Hx Hy Hz. rewrite !Hle by done. apply (pc_trans _ Hc).
Qed.

Section best.
Context `{GoRuntime}.

Lemma sort_slice_first {A} (less : A → A → bool) (c : A → A → comparison) (l : list A) x rest :
  preorder_cmp c → (∀ x y, x ∈ l → y ∈ l → less x y = true ↔ c x y = Lt) →
  sort_slice less l = x :: rest → x ∈ l ∧ ∀ y, y ∈ l → c x y ≠ Gt.
Proof.
  intros Hc Hless Hs. unfold sort_slice in Hs.
  pose proof (sort_func_sorted _ l (less_orders less c l Hc Hless)) as Hsort. rewrite Hs in Hsort.
  assert (∀ y, y ∈ l ↔ y ∈ x :: rest) as Hin.
  { intros y. by rewrite <- Hs, elem_of_sort_func. }
  assert (x ∈ l) as Hx by (rewrite Hin; constructor). split; [done|]. intros y Hy.
  pose proof (proj1 (Hin y) Hy) as Hy'. apply elem_of_cons in Hy' as [->|Hy'].
  - pose proof (pc_opp _ Hc x x). by destruct (c x x).
  - apply StronglySorted_inv in Hsort as [_ Hall]. rewrite Forall_forall in Hall.
    specialize (Hall y Hy'). unfold cmp_le, cmp_of_less in Hall.
    rewrite (pc_opp _ Hc y x). destruct (c y x) eqn:Hyx; simpl; try done.
    rewrite (proj2 (Hless y x Hy Hx) Hyx) in Hall. lia.
Qed.

Lemma sort_slice_nil {A} (less : A → A → bool) (l : list A) : sort_slice less l = [] → l = [].
Proof.
  unfold sort_slice. intros Hs. pose proof (sort_func_perm (cmp_of_less less) l) as Hp.
  rewrite Hs in Hp. by apply Permutation_nil_l in Hp.
Qed.

(** ** The sorters *)

Definition gt_cmp (x y : Z) : comparison := Z.compare y x.

(** Nodes as [ToAttributedSlice] lists them. *)
Definition tna_wf (x : cpuTreeNodeAttributes) : Prop :=
  0 ≤ tna_depth x ∧
  Z.of_nat (length (tna_currentCpuCounts x)) = tna_depth x + 1 ∧
  Z.of_nat (length (tna_freeCpuCounts x)) = tna_depth x + 1.

Lemma first_difference_cmp better c xs ys :
  (∀ x y, c x y = Eq ↔ x = y) → (∀ x y, better x y = true ↔ c x y = Lt) →
  length xs = length ys →
  first_difference better xs ys
  = match list_cmp c xs ys with Eq => None | Lt => Some true | Gt => Some false end.
Proof.
  intros Heq Hb. revert ys. induction xs as [|x xs IH]; intros [|y ys] Hl; try done. simpl in *.
  pose proof (Heq x y) as He. pose proof (Hb x y) as Hbxy.
  case_bool_decide as Hne.
  - destruct (c x y); [by destruct Hne; apply He|by rewrite (proj2 Hbxy eq_refl)|].
    destruct (better x y); [by discriminate (proj1 Hbxy eq_refl)|done].
  - rewrite (proj2 He Hne). apply IH. lia.
Qed.

Lemma gt_ok x y : gt x y = true ↔ gt_cmp x y = Lt.
Proof. unfold gt, gt_cmp. rewrite bool_decide_eq_true, Z.compare_lt_iff. lia. Qed.

Lemma lt_ok x y : lt x y = true ↔ Z.compare x y = Lt.
Proof. unfold lt. by rewrite bool_decide_eq_true, Z.compare_lt_iff. Qed.

Lemma gt_eq x y : gt_cmp x y = Eq ↔ x = y.
Proof. unfold gt_cmp. rewrite Z.compare_eq_iff. done. Qed.

Definition node_cmp (c1 c2 : Z → Z → comparison) (cn : string → string → comparison)
    : cpuTreeNodeAttributes → cpuTreeNodeAttributes → comparison :=
  lex (λ x y, gt_cmp (tna_depth x) (tna_depth y))
    (lex (λ x y, list_cmp c1 (tna_currentCpuCounts x) (tna_currentCpuCounts y))
       (lex (λ x y, list_cmp c2 (tna_freeCpuCounts x) (tna_freeCpuCounts y))
          (λ x y, cn (t_name (tna_t x)) (t_name (tna_t y))))).

Lemma node_cmp_preorder c1 c2 cn :
  preorder_cmp c1 → preorder_cmp c2 → preorder_cmp cn → preorder_cmp (node_cmp c1 c2 cn).
Proof.
  intros H1 H2 Hn. unfold node_cmp. apply lex_preorder.
  { apply (map_preorder tna_depth gt_cmp). apply (flip_preorder Z.compare), Zcompare_preorder. }
  apply lex_preorder.
  { apply (map_preorder tna_currentCpuCounts (list_cmp c1)). by apply list_preorder. }
  apply lex_preorder.
  { apply (map_preorder tna_freeCpuCounts (list_cmp c2)). by apply list_preorder. }
  by apply (map_preorder (λ x, t_name (tna_t x)) cn).
Qed.

Lemma node_cmp_depth c1 c2 cn x y : node_cmp c1 c2 cn x y ≠ Gt → tna_depth y ≤ tna_depth x.
Proof.
  unfold node_cmp, lex, gt_cmp. destruct (Z.compare_spec (tna_depth y) (tna_depth x)); [lia|lia|done].
Qed.

Context (options : cpuTreeAllocatorOptions).

Lemma sorter_cmp b1 b2 c1 c2 cn less x y :
  tna_wf x → tna_wf y →
  (∀ x y, c1 x y = Eq ↔ x = y) → (∀ x y, b1 x y = true ↔ c1 x y = Lt) →
  (∀ x y, c2 x y = Eq ↔ x = y) → (∀ x y, b2 x y = true ↔ c2 x y = Lt) →
  (less = true ↔ cn (t_name (tna_t x)) (t_name (tna_t y)) = Lt) →
  (if bool_decide (tna_depth x ≠ tna_depth y) then gt (tna_depth x) (tna_depth y)
   else match first_difference b1 (tna_currentCpuCounts x) (tna_currentCpuCounts y) with
        | Some b => b
        | None =>
            match first_difference b2 (tna_freeCpuCounts x) (tna_freeCpuCounts y) with
            | Some b => b
            | None => less
            end
        end) = true ↔ node_cmp c1 c2 cn x y = Lt.
Proof.
  intros (_ & Hx1 & Hx2) (_ & Hy1 & Hy2) He1 Hb1 He2 Hb2 Hn. unfold node_cmp, lex.
  case_bool_decide as Hd.
  - rewrite gt_ok. pose proof (gt_eq (tna_depth x) (tna_depth y)).
    destruct (gt_cmp (tna_depth x) (tna_depth y)); tauto.
  - rewrite (proj2 (gt_eq _ _) Hd).
    rewrite (first_difference_cmp b1 c1), (first_difference_cmp b2 c2) by (done || lia).
    destruct (list_cmp c1 _ _); [|done..]. destruct (list_cmp c2 _ _); done.
Qed.

Lemma sorterAllocate_cmp x y :
  tna_wf x → tna_wf y →
  sorterAllocate options x y = true ↔
  node_cmp gt_cmp (if topologyBalancing options then gt_cmp else Z.compare) String.compare x y = Lt.
Proof.
  intros Hx Hy. unfold sorterAllocate. apply sorter_cmp; try done.
  - apply gt_eq.
  - apply gt_ok.
  - destruct (topologyBalancing options); [apply gt_eq|apply Z.compare_eq_iff].
  - destruct (topologyBalancing options); [apply gt_ok|apply lt_ok].
  - unfold String.ltb. by destruct (String.compare _ _).
Qed.

Lemma sorterRelease_cmp x y :
  tna_wf x → tna_wf y →
  sorterRelease options x y = true ↔
  node_cmp Z.compare Z.compare (λ a b, String.compare b a) x y = Lt.
Proof.
  intros Hx Hy. unfold sorterRelease. apply sorter_cmp; try done.
  - apply Z.compare_eq_iff.
  - apply lt_ok.
  - apply Z.compare_eq_iff.
  - destruct (topologyBalancing options); apply lt_ok.
  - unfold String.ltb. by destruct (String.compare _ _).
Qed.

(** The first node after sorting is one of the nodes, and none is deeper. *)
Lemma best_node delta l tna rest :
  Forall tna_wf l →
  sort_slice (if bool_decide (delta > 0) then sorterAllocate options else sorterRelease options) l
    = tna :: rest →
  tna ∈ l ∧ ∀ y, y ∈ l → tna_depth y ≤ tna_depth tna.
Proof.
  intros Hwf. rewrite Forall_forall in Hwf. case_bool_decide; intros Hs.
  - destruct (sort_slice_first (sorterAllocate options) (node_cmp gt_cmp
      (if topologyBalancing options then gt_cmp else Z.compare) String.compare) l tna rest) as [Hin Hle];
      [|by intros; apply sorterAllocate_cmp; apply Hwf|done|].
    + apply node_cmp_preorder; [apply (flip_preorder Z.compare), Zcompare_preorder| |apply string_preorder].
      destruct (topologyBalancing options);
        [apply (flip_preorder Z.compare), Zcompare_preorder|apply Zcompare_preorder].
    + split; [done|]. intros y Hy. eapply node_cmp_depth. by apply Hle.
  - destruct (sort_slice_first (sorterRelease options) (node_cmp Z.compare Z.compare (λ a b, String.compare b a)) l tna rest)
      as [Hin Hle]; [|by intros; apply sorterRelease_cmp; apply Hwf|done|].
    + apply node_cmp_preorder; [apply Zcompare_preorder..|]. apply flip_preorder, string_preorder.
    + split; [done|]. intros y Hy. eapply node_cmp_depth. by apply Hle.
Qed.
End best.
