(* ===== verification/CpuResizeFacts.v ===== *)
(** * Correctness of resizing a set of CPUs

    On a tree that covers the CPUs, the chain of resizers finds CPUs to add or
    to remove whenever there are enough of them, and only then. *)

From S2P Require Import Prelude GoStrings MemNodes CpuTree CpuOrder.

Open Scope Z_scope.

(** ** Sizes of CPU sets *)

Lemma csize_nonneg s : 0 ≤ csize s.
Proof. unfold csize. lia. Qed.

Lemma csize_mono (s t : CPUSet) : s ⊆ t → csize s ≤ csize t.
Proof. intros Hs%subseteq_size. unfold csize. lia. Qed.

Lemma csize_empty : csize ∅ = 0.
Proof. done. Qed.

Lemma csize_singleton x : csize {[x]} = 1.
Proof. unfold csize. by rewrite size_singleton. Qed.

Lemma csize_union_disjoint (s t : CPUSet) : s ## t → csize (s ∪ t) = csize s + csize t.
Proof. intros Hd. unfold csize. rewrite size_union by done. lia. Qed.

Lemma csize_difference (s t : CPUSet) : t ⊆ s → csize (s ∖ t) = csize s - csize t.
Proof.
  intros Hs. pose proof (subseteq_size _ _ Hs). unfold csize. rewrite size_difference by done. lia.
Qed.

Lemma csize_pos (s : CPUSet) : 1 ≤ csize s → ∃ x, x ∈ s.
Proof. intros Hs. apply size_pos_elem_of. unfold csize in Hs. lia. Qed.

Lemma elem_csize (s : CPUSet) x : x ∈ s → 1 ≤ csize s.
Proof. intros Hx. rewrite <- (csize_singleton x). apply csize_mono. set_solver. Qed.

Lemma csize_list (l : list Z) : NoDup l → csize (list_to_set l : CPUSet) = Z.of_nat (length l).
Proof. intros Hl. unfold csize. by rewrite size_list_to_set. Qed.

Section lists.
Context `{GoRuntime}.

Lemma elem_of_UnsortedList (s : CPUSet) x : x ∈ UnsortedList s ↔ x ∈ s.
Proof.
  unfold UnsortedList. rewrite list_elem_of_fmap. split.
  - intros ([y []] & -> & Hy%elem_of_map_range). by apply lookup_gset_to_gmap_Some in Hy as [? _].
  - intros Hx. exists (x, tt). split; [done|]. apply elem_of_map_range.
    by apply lookup_gset_to_gmap_Some.
Qed.

Lemma NoDup_UnsortedList (s : CPUSet) : NoDup (UnsortedList s).
Proof. apply NoDup_map_range. Qed.

Lemma length_UnsortedList (s : CPUSet) : Z.of_nat (length (UnsortedList s)) = csize s.
Proof.
  rewrite <- csize_list by apply NoDup_UnsortedList. f_equal. apply set_eq. intros x.
  by rewrite elem_of_list_to_set, elem_of_UnsortedList.
Qed.

Lemma elem_of_CPUSet_List (s : CPUSet) x : x ∈ CPUSet_List s ↔ x ∈ s.
Proof. unfold CPUSet_List, slices_Sort. by rewrite insertion_sort_perm, elem_of_elements. Qed.
End lists.

Lemma elem_of_concat_map {A B} (g : A → list B) l y :
  y ∈ concat (map g l) ↔ ∃ x, x ∈ l ∧ y ∈ g x.
Proof. induction l as [|x l IH]; simpl; [set_solver|]. rewrite elem_of_app, IH. set_solver. Qed.

(** ** Trees *)

Lemma tree_ind' (P : cpuTreeNode → Prop) :
  (∀ name level cpus cs, Forall P cs → P (MkTree name level cpus cs)) → ∀ t, P t.
Proof.
  intros Hstep. fix IH 1. intros [name level cpus cs]. apply Hstep.
  induction cs as [|c cs IHcs]; constructor; [apply IH|apply IHcs].
Qed.

(** A leaf has at most one CPU, and the CPUs of another node are in its
    children. *)
Inductive tree_ok : cpuTreeNode → Prop :=
  | TreeOk name level cpus cs :
      Forall tree_ok cs →
      (cs = [] → csize cpus ≤ 1) →
      (∀ x, cs ≠ [] → x ∈ cpus → ∃ c, c ∈ cs ∧ x ∈ t_cpus c) →
      tree_ok (MkTree name level cpus cs).

Section slice.
Context (cur free : CPUSet) (f : cpuTreeNodeAttributes → bool).

Abbreviation slice := (toAttributedSlice cur free f).

Lemma slice_unfold t depth cc fc :
  slice t depth cc fc
  = let tna := attributes_of cur free t depth cc fc in
    if f tna then tna :: concat (map (λ c, slice c (depth + 1) (tna_currentCpuCounts tna)
                                         (tna_freeCpuCounts tna)) (t_children t))
    else [].
Proof.
  destruct t as [name level cpus cs]. cbn [toAttributedSlice t_children]. cbn zeta.
  set (tna := attributes_of _ _ _ _ _ _). destruct (f tna); [|done]. f_equal. clearbody tna.
  induction cs as [|c cs IH]; [done|]. cbn [map concat]. by rewrite IH.
Qed.

(** What holds of every node listed. *)
Definition listed_ok (tna : cpuTreeNodeAttributes) : Prop :=
  tna_wf tna ∧ f tna = true ∧
  tna_currentCpus tna = t_cpus (tna_t tna) ∩ cur ∧ tna_freeCpus tna = t_cpus (tna_t tna) ∩ free ∧
  tna_currentCpuCount tna = csize (tna_currentCpus tna) ∧
  tna_freeCpuCount tna = csize (tna_freeCpus tna) ∧
  tree_ok (tna_t tna).

Lemma slice_listed t depth cc fc :
  tree_ok t → 0 ≤ depth → Z.of_nat (length cc) = depth → Z.of_nat (length fc) = depth →
  Forall listed_ok (slice t depth cc fc).
Proof.
  revert depth cc fc. induction t as [name level cpus cs IH] using tree_ind'.
  intros depth cc fc Hok Hd Hc Hf. rewrite slice_unfold. cbn zeta.
  destruct (f _) eqn:Hflt; [|constructor]. constructor.
  - unfold listed_ok, tna_wf. rewrite Hflt. cbn. rewrite !length_app. cbn. split_and!; try done; lia.
  - apply Forall_concat, Forall_map. inversion Hok as [? ? ? ? Hcs _ _]; subst. cbn [t_children].
    rewrite Forall_forall in IH, Hcs |- *. intros c Hin.
    apply IH; [done|by apply Hcs|lia|..]; cbn; rewrite length_app; cbn; lia.
Qed.

(** The children of a listed node that pass the filter are listed too, one
    level deeper. *)
Lemma slice_child t depth cc fc tna c :
  tna ∈ slice t depth cc fc → c ∈ t_children (tna_t tna) →
  f (attributes_of cur free c (tna_depth tna + 1) (tna_currentCpuCounts tna) (tna_freeCpuCounts tna))
    = true →
  ∃ tna', tna' ∈ slice t depth cc fc ∧ tna_depth tna' = tna_depth tna + 1.
Proof.
  revert depth cc fc. induction t as [name level cpus cs IH] using tree_ind'.
  intros depth cc fc. rewrite slice_unfold. cbn zeta.
  destruct (f (attributes_of cur free (MkTree name level cpus cs) depth cc fc)); [|set_solver].
  intros [->|Hin]%elem_of_cons Hc Hfc.
  - set (tna0 := attributes_of cur free (MkTree name level cpus cs) depth cc fc) in *.
    exists (attributes_of cur free c (depth + 1) (tna_currentCpuCounts tna0) (tna_freeCpuCounts tna0)).
    split; [|reflexivity]. apply list_elem_of_further, elem_of_concat_map. exists c. split; [exact Hc|].
    rewrite slice_unfold. cbn zeta. change (tna_depth tna0) with depth in Hfc. rewrite Hfc. constructor.
  - apply elem_of_concat_map in Hin as (c' & Hc' & Hl).
    rewrite Forall_forall in IH. destruct (IH c' Hc' _ _ _ Hl Hc Hfc) as (tna' & Htna' & ?).
    exists tna'. split; [|done]. apply list_elem_of_further, elem_of_concat_map. by exists c'.
Qed.
End slice.

(** ** The best local set *)

Section chain.
Context `{GoRuntime} (options : cpuTreeAllocatorOptions) (root : cpuTreeNode).
Context (Hroot : tree_ok root).

Abbreviation R := (t_cpus root).

(** A result without error that has what was asked for. *)
Definition resized (cur free : CPUSet) (delta : Z) (r : resize_result) : Prop :=
  let '(add, rem, err) := r in
  err = None ∧
  (0 < delta → add ⊆ free ∧ delta ≤ csize add) ∧
  (delta < 0 → rem ⊆ cur ∧ - delta ≤ csize rem).

Definition singles (delta : Z) (r : resize_result) : Prop :=
  let '(add, rem, _) := r in
  (delta = 1 → csize add = 1) ∧ (delta = -1 → csize rem = 1).

(** What the last part of the chain promises to the one-at-a-time resizer. *)
Definition local_ok (next : resizer) : Prop := ∀ cur free delta close,
  cur ⊆ R → free ⊆ R → (0 < delta → delta ≤ csize free) → (delta < 0 → - delta ≤ csize cur) →
  let r := (next cur free delta close).1 in resized cur free delta r ∧ singles delta r.

(** Exactly as many CPUs are removed as was asked for. *)
Definition exactly (delta : Z) (r : resize_result) : Prop := delta < 0 → csize r.1.2 = - delta.

(** What a resizer further up promises; [s] is 1 if it relies on a CPU being
    left when CPUs are removed. *)
Definition chain_ok (s : Z) (next : resizer) : Prop := ∀ cur free delta close,
  cur ## free → cur ⊆ R → free ⊆ R →
  (0 < delta → delta ≤ csize free) → (delta < 0 → - delta + s ≤ csize cur) →
  let r := (next cur free delta close).1 in resized cur free delta r ∧ exactly delta r.

Lemma enough_true delta tna :
  enough delta tna = true ↔
  (0 < delta → delta ≤ tna_freeCpuCount tna) ∧ (delta < 0 → - delta ≤ tna_currentCpuCount tna).
Proof. unfold enough. repeat case_bool_decide; (split; [try done; lia|lia || done]). Qed.

(** The node that is used, and that no node further down has enough CPUs. *)
Lemma max_local_node cur free delta :
  cur ⊆ R → free ⊆ R → (0 < delta → delta ≤ csize free) → (delta < 0 → - delta ≤ csize cur) →
  ∃ tna rest,
    sort_slice (if bool_decide (delta > 0) then sorterAllocate options else sorterRelease options)
      (ToAttributedSlice cur free (enough delta) root) = tna :: rest ∧
    listed_ok cur free (enough delta) tna ∧
    ∀ c, c ∈ t_children (tna_t tna) →
      ¬ ((0 < delta → delta ≤ csize (t_cpus c ∩ free)) ∧ (delta < 0 → - delta ≤ csize (t_cpus c ∩ cur))).
Proof.
  intros Hcur Hfree Hp Hn. set (l := ToAttributedSlice cur free (enough delta) root).
  assert (Forall (listed_ok cur free (enough delta)) l) as Hl by (apply slice_listed; done).
  destruct (sort_slice _ l) as [|tna rest] eqn:Hs.
  { exfalso. apply sort_slice_nil in Hs. unfold l, ToAttributedSlice in Hs. rewrite slice_unfold in Hs.
    cbn zeta in Hs. rewrite (proj2 (enough_true delta _)) in Hs; [done|]. cbn.
    replace (R ∩ free) with free by (clear -Hfree; set_solver).
    replace (R ∩ cur) with cur by (clear -Hcur; set_solver). done. }
  assert (Forall tna_wf l) as Hwf by (eapply Forall_impl; [exact Hl|]; by intros x [? _]).
  destruct (best_node options delta l tna rest Hwf Hs) as [Hin Hdeep].
  exists tna, rest. split; [done|]. rewrite Forall_forall in Hl. split; [by apply Hl|].
  intros c Hc Hen. destruct (slice_child cur free (enough delta) root 0 [] [] tna c Hin Hc)
    as (tna' & Hin' & Hd').
  - apply enough_true. done.
  - specialize (Hdeep tna' Hin'). lia.
Qed.

Lemma max_local_ok : local_ok (resizeCpusMaxLocalSet options root (resizeCpusNow (nextCpuResizer []))).
Proof.
  intros cur free delta close Hcur Hfree Hp Hn. unfold resizeCpusMaxLocalSet.
  destruct (max_local_node cur free delta Hcur Hfree Hp Hn)
    as (tna & rest & -> & (_ & Hen & Hc & Hf & Hcc & Hfc & Hok) & Hchild).
  rewrite enough_true in Hen. rewrite Hcc, Hfc in Hen. cbn. split.
  - split; [done|]. rewrite Hc, Hf in *. split; intros; (split; [clear; set_solver|tauto]).
  - destruct (tna_t tna) as [name level cpus cs] eqn:Ht. cbn [t_cpus t_children] in *.
    inversion Hok as [? ? ? ? _ Hleaf Hcover]; subst.
    assert (∀ S : CPUSet, S ⊆ cpus → (∀ c, c ∈ cs → csize (t_cpus c ∩ S) < 1) → 1 ≤ csize S →
      csize S = 1) as Hone.
    { intros S HS Hno H1. destruct (decide (cs = [])) as [Hnil|Hne].
      - specialize (Hleaf Hnil). pose proof (csize_mono _ _ HS). lia.
      - destruct (csize_pos S H1) as [x Hx].
        destruct (Hcover x Hne (HS x Hx)) as (c & Hcs & Hxc).
        assert (1 ≤ csize (t_cpus c ∩ S)) by (apply (elem_csize _ x), elem_of_intersection; done).
        specialize (Hno c Hcs). lia. }
    assert (∀ S T : CPUSet, csize (S ∩ (cpus ∩ T)) ≤ csize (S ∩ T)) as Hsub
      by (intros S T; apply csize_mono; clear; set_solver).
    split; intros ->; apply Hone; rewrite ?Hc, ?Hf in *; try lia; try (clear; set_solver);
      intros c Hcs; specialize (Hchild c Hcs);
      [pose proof (Hsub (t_cpus c) free)|pose proof (Hsub (t_cpus c) cur)]; lia.
Qed.

(** ** One CPU at a time *)

Lemma add_loop_ok next n k superset add cur free close free0 :
  local_ok next → cur ⊆ R → free ⊆ R → Z.of_nat n ≤ csize free →
  csize add = k → add ## free → add ⊆ free0 → free ⊆ free0 →
  ∃ add' close', add_loop n k next superset add cur free close = ((add', superset.2, None), close') ∧
    add' ⊆ free0 ∧ csize add' = k + Z.of_nat n.
Proof.
  intros Hnext. revert k add cur free close.
  induction n as [|n IH]; intros k add cur free close Hcur Hfree Hn Hk Hd Hadd Hfree0.
  { exists add, close. split_and!; [done..|lia]. }
  cbn [add_loop].
  pose proof (Hnext cur free 1 close Hcur Hfree) as Hs.
  destruct (next cur free 1 close) as [[[single rem] err] close1]. cbn in Hs.
  destruct Hs as [(-> & Hs & _) [H1 _]]; [lia|lia|]. destruct Hs as [Hsub _]; [lia|].
  specialize (H1 eq_refl). rewrite bool_decide_eq_false_2 by lia.
  assert (add ## single) as Hd1 by (clear -Hd Hsub; set_solver).
  rewrite bool_decide_eq_false_2 by (rewrite csize_union_disjoint by done; lia).
  destruct (IH (k + 1) (add ∪ single) (cur ∪ single) (free ∖ single) close1)
    as (add' & close' & -> & ? & ?).
  - clear -Hcur Hsub Hfree. set_solver.
  - clear -Hfree. set_solver.
  - rewrite csize_difference by done. lia.
  - rewrite csize_union_disjoint by done. lia.
  - clear -Hd. set_solver.
  - clear -Hadd Hsub Hfree0. set_solver.
  - clear -Hfree0. set_solver.
  - exists add', close'. split_and!; [done..|lia].
Qed.

Lemma remove_loop_ok next n k rem cur free close cur0 :
  local_ok next → cur ⊆ R → free ⊆ R → Z.of_nat n ≤ csize cur →
  csize rem = k → rem ## cur → rem ⊆ cur0 → cur ⊆ cur0 →
  ∃ rem' close', remove_loop n k next rem cur free close = ((∅, rem', None), close') ∧
    rem' ⊆ cur0 ∧ csize rem' = k + Z.of_nat n.
Proof.
  intros Hnext. revert k rem cur free close.
  induction n as [|n IH]; intros k rem cur free close Hcur Hfree Hn Hk Hd Hrem Hcur0.
  { exists rem, close. split_and!; [done..|lia]. }
  cbn [remove_loop].
  pose proof (Hnext cur free (-1) close Hcur Hfree) as Hs.
  destruct (next cur free (-1) close) as [[[add single] err] close1]. cbn in Hs.
  destruct Hs as [(-> & _ & Hs) [_ H1]]; [lia|lia|]. destruct Hs as [Hsub _]; [lia|].
  specialize (H1 eq_refl). rewrite bool_decide_eq_false_2 by lia.
  assert (rem ## single) as Hd1 by (clear -Hd Hsub; set_solver).
  rewrite bool_decide_eq_false_2 by (rewrite csize_union_disjoint by done; lia).
  destruct (IH (k + 1) (rem ∪ single) (cur ∖ single) (free ∪ single) close1)
    as (rem' & close' & -> & ? & ?).
  - clear -Hcur. set_solver.
  - clear -Hcur Hsub Hfree. set_solver.
  - rewrite csize_difference by done. lia.
  - rewrite csize_union_disjoint by done. lia.
  - clear -Hd. set_solver.
  - clear -Hrem Hsub Hcur0. set_solver.
  - clear -Hcur0. set_solver.
  - exists rem', close'. split_and!; [done..|lia].
Qed.

Lemma one_at_a_time_ok next : local_ok next → chain_ok 0 (resizeCpusOneAtATime options next).
Proof.
  intros Hnext cur free delta close Hd Hcur Hfree Hp Hn. unfold resizeCpusOneAtATime.
  case_bool_decide as Hdelta.
  - pose proof (Hnext cur free delta close Hcur Hfree Hp) as Hs.
    destruct (next cur free delta close) as [[[add rem] err] close1]. cbn in Hs.
    destruct Hs as [Hs _]; [lia|].
    destruct (negb _ || _); [split; [exact Hs|unfold exactly; lia]|].
    destruct (add_loop_ok next (Z.to_nat delta) 0 (add, rem) ∅ cur free close1 free)
      as (add' & close' & -> & Hsub & Hsz); try done; try lia.
    split; [|unfold exactly; lia]. split; [done|]. split; [|lia]. intros _. split; [done|lia].
  - destruct (remove_loop_ok next (Z.to_nat (- delta)) 0 ∅ cur free close cur)
      as (rem' & close' & -> & Hsub & Hsz); try done; [|].
    + destruct (decide (delta < 0)); [specialize (Hn ltac:(done)); lia|]. pose proof (csize_nonneg cur). lia.
    + split; [|intros ?; cbn; lia]. split; [done|]. split; [lia|]. intros _. split; [done|lia].
Qed.

(** ** Device hints *)

Lemma apply_hints_ok delta sets free :
  delta ≤ csize free → apply_hints delta sets free ⊆ free ∧ delta ≤ csize (apply_hints delta sets free).
Proof.
  unfold apply_hints. intros Hd.
  assert (∀ cs r, r ⊆ free → delta ≤ csize r →
    let r' := fold_left (λ remaining cpus,
      if bool_decide (delta ≤ csize (remaining ∩ cpus)) then remaining ∩ cpus else remaining) cs r in
    r' ⊆ free ∧ delta ≤ csize r') as Hin.
  { induction cs as [|c cs IH]; intros r Hr Hz; [done|]. cbn. apply IH; case_bool_decide; try done.
    clear -Hr. set_solver. }
  assert (∀ r, r ⊆ free → delta ≤ csize r →
    let r' := fold_left (λ remaining closeCpuSets, fold_left (λ remaining cpus,
      if bool_decide (delta ≤ csize (remaining ∩ cpus)) then remaining ∩ cpus else remaining)
      closeCpuSets remaining) sets r in r' ⊆ free ∧ delta ≤ csize r') as Hout.
  { induction sets as [|c cs IH]; intros r Hr Hz; [done|]. cbn.
    destruct (Hin c r Hr Hz) as [? ?]. by apply IH. }
  by apply Hout.
Qed.

Lemma split_hinted_ok hints m l sure maybe :
  StronglySorted (λ x y, hint_of hints x ≤ hint_of hints y) l →
  split_hinted hints m l sure maybe
  = (sure ∪ list_to_set (filter (λ x, hint_of hints x < m) l),
     maybe ∪ list_to_set (filter (λ x, hint_of hints x = m) l)).
Proof.
  intros Hs. revert sure maybe. induction Hs as [|x l Hs IH Hx]; intros sure maybe.
  { cbn. f_equal; clear; set_solver. }
  cbn [split_hinted]. case_bool_decide as Hle.
  - rewrite !filter_cons. case_bool_decide as Hlt.
    + rewrite IH, decide_True, decide_False by lia. cbn. f_equal. clear. set_solver.
    + rewrite IH, decide_False, decide_True by lia. cbn. f_equal. clear. set_solver.
  - assert (∀ P : Z → Prop, ∀ `{∀ x, Decision (P x)}, (∀ y, y ∈ x :: l → ¬ P y) →
      filter P (x :: l) = []) as Hnil.
    { intros P ? Hno. apply elem_of_nil_inv. intros y [Hy Hin]%list_elem_of_filter. by apply (Hno y). }
    rewrite Forall_forall in Hx.
    rewrite !Hnil; [cbn; f_equal; clear; set_solver|..];
      intros y [->|Hy]%elem_of_cons; try lia; specialize (Hx y Hy); lia.
Qed.

Lemma take_cpus_ok n l sure :
  NoDup l → (∀ x, x ∈ l → x ∉ sure) →
  let r := take_cpus n l sure in
  sure ⊆ r ∧ r ⊆ sure ∪ list_to_set l ∧
  (n ≤ csize sure + Z.of_nat (length l) → n ≤ csize r) ∧ (csize sure ≤ n → csize r ≤ n).
Proof.
  revert sure. induction l as [|x l IH]; intros sure Hnd Hl; cbn [take_cpus].
  { cbn. split_and!; [done|clear; set_solver|lia|done]. }
  case_bool_decide as Hn.
  { split_and!; [done|clear; set_solver|lia|lia]. }
  apply NoDup_cons in Hnd as [Hx Hnd].
  destruct (IH (sure ∪ {[x]}) Hnd) as (H1 & H2 & H3 & H4).
  { intros y Hy. assert (y ∉ sure) as Hys by (apply Hl; by constructor).
    assert (y ≠ x) as Hyx by congruence. clear -Hys Hyx. set_solver. }
  assert (sure ## {[x]}) as Hd.
  { assert (x ∉ sure) as Hxs by (apply Hl; constructor). clear -Hxs. set_solver. }
  rewrite csize_union_disjoint, csize_singleton in H3, H4 by done.
  cbn zeta. split_and!; [clear -H1; set_solver|clear -H2; set_solver| |lia].
  intros Hlen. apply H3. cbn in Hlen. lia.
Qed.

Lemma sorted_by_hints hints (l : list Z) :
  StronglySorted (λ x y, hint_of hints x ≤ hint_of hints y)
    (sort_slice (λ x y, lt (hint_of hints x) (hint_of hints y)) l).
Proof.
  pose (c x y := Z.compare (hint_of hints x) (hint_of hints y)).
  assert (orders (cmp_of_less (λ x y, lt (hint_of hints x) (hint_of hints y))) l) as Ho.
  { apply (less_orders _ c).
    - apply (map_preorder (hint_of hints) Z.compare), Zcompare_preorder.
    - intros x y _ _. apply lt_ok. }
  apply sort_func_sorted in Ho. fold (sort_slice (λ x y, lt (hint_of hints x) (hint_of hints y)) l) in Ho.
  induction Ho as [|x k Hs IH Hx]; constructor; [done|].
  eapply Forall_impl; [exact Hx|]. intros y. unfold cmp_le, cmp_of_less, lt.
  repeat case_bool_decide; lia.
Qed.

Lemma hinted_counts hints (l : list Z) N x :
  StronglySorted (λ x y, hint_of hints x ≤ hint_of hints y) l → l !! N = Some x →
  (length (filter (λ y, (hint_of hints y < hint_of hints x)%Z) l) ≤ N)%nat ∧
  (N < length (filter (λ y, (hint_of hints y < hint_of hints x)%Z) l)
       + length (filter (λ y, hint_of hints y = hint_of hints x) l))%nat.
Proof.
  intros Hs Hx. set (m := hint_of hints x).
  rewrite <- (take_drop_middle l N x Hx) in Hs |- *.
  assert (length (take N l) = N) as HN.
  { apply length_take_le. apply lookup_lt_Some in Hx. lia. }
  apply StronglySorted_app in Hs as (Hle & _ & Hs).
  apply StronglySorted_inv in Hs as [_ Hge]. rewrite Forall_forall in Hge.
  assert (∀ y, y ∈ take N l → hint_of hints y ≤ m) as Hbelow.
  { intros y Hy. apply (Hle y x Hy). constructor. }
  rewrite !filter_app, !length_app, !filter_cons, (decide_False (P := m < m)) by lia.
  rewrite (decide_True (P := hint_of hints x = m)) by done. cbn [length].
  assert (filter (λ y, hint_of hints y < m) (drop (S N) l) = []) as ->.
  { apply elem_of_nil_inv. intros y [Hy Hin]%list_elem_of_filter. specialize (Hge y Hin).
    fold m in Hge. lia. }
  assert (length (filter (λ y, (hint_of hints y < m)%Z) (take N l))
    + length (filter (λ y, hint_of hints y = m) (take N l)) = length (take N l))%nat as Hsum.
  { clear -Hbelow. induction (take N l) as [|y k IH]; [done|].
    rewrite !filter_cons. assert (hint_of hints y ≤ m) by (apply Hbelow; constructor).
    assert (∀ z, z ∈ k → hint_of hints z ≤ m) as Hk by (intros; apply Hbelow; by constructor).
    specialize (IH Hk). repeat case_decide; cbn [length]; lia. }
  pose proof (length_filter (λ y, hint_of hints y < m) (take N l)). cbn [length]. lia.
Qed.

Context (NewTopologyHints : string → option (list CPUSet)).

(** The CPUs with fewer hints than the one after the last to remove, and those
    with as many: the first are too few or just enough, both together leave
    something to choose from. *)
Lemma split_counts hints (cur : CPUSet) (n x : Z) l :
  l ≡ₚ UnsortedList cur → StronglySorted (λ x y, hint_of hints x ≤ hint_of hints y) l →
  0 ≤ n → l !! Z.to_nat n = Some x →
  ∃ sure maybe, split_hinted hints (hint_of hints x) l ∅ ∅ = (sure, maybe) ∧
    sure ⊆ cur ∧ maybe ⊆ cur ∧ sure ## maybe ∧ csize sure ≤ n < csize sure + csize maybe.
Proof.
  intros Hperm Hs Hn Hx.
  assert (NoDup l) as Hnd by (rewrite Hperm; apply NoDup_UnsortedList).
  assert (∀ x, x ∈ l ↔ x ∈ cur) as Hl by (intros y; by rewrite Hperm, elem_of_UnsortedList).
  destruct (hinted_counts hints l _ x Hs Hx) as [Hc1 Hc2].
  rewrite (split_hinted_ok hints _ l ∅ ∅ Hs), !(left_id_L ∅ (∪)). do 2 eexists. split; [done|].
  split_and!.
  - intros y. rewrite elem_of_list_to_set, list_elem_of_filter, Hl. tauto.
  - intros y. rewrite elem_of_list_to_set, list_elem_of_filter, Hl. tauto.
  - intros y. rewrite !elem_of_list_to_set, !list_elem_of_filter. lia.
  - rewrite csize_list by (by apply NoDup_filter). lia.
  - rewrite !csize_list by (by apply NoDup_filter). lia.
Qed.

Lemma take_cpus_exact n (rem sure cur : CPUSet) :
  sure ⊆ cur → rem ⊆ cur → sure ## rem → csize sure ≤ n → (csize sure < n → n ≤ csize sure + csize rem) →
  take_cpus n (UnsortedList rem) sure ⊆ cur ∧ csize (take_cpus n (UnsortedList rem) sure) = n.
Proof.
  intros Hsc Hrc Hd Hle Hsz.
  destruct (decide (csize sure = n)) as [<-|Hne].
  { destruct (UnsortedList rem); cbn; [done|]. by rewrite bool_decide_eq_true_2 by lia. }
  destruct (take_cpus_ok n (UnsortedList rem) sure (NoDup_UnsortedList rem)) as (_ & Hsub & Hge & Hle').
  { intros y Hy%elem_of_UnsortedList. clear -Hd Hy. set_solver. }
  rewrite length_UnsortedList in Hge. split; [|lia].
  intros y Hy. apply Hsub in Hy. rewrite elem_of_union, elem_of_list_to_set, elem_of_UnsortedList in Hy.
  clear -Hy Hsc Hrc. set_solver.
Qed.

Lemma with_devices_ok next :
  chain_ok 0 next → chain_ok 1 (resizeCpusWithDevices options NewTopologyHints next).
Proof.
  intros Hnext cur free delta close Hd Hcur Hfree Hp Hn. unfold resizeCpusWithDevices.
  destruct (close_to _ _ _) as [close1 st1]. destruct (far_from _ _ _ _) as [close2 st2].
  set (sets := app close1 close2). clearbody sets.
  case_bool_decide.
  { apply Hnext; try done. intros Hneg. specialize (Hn Hneg). lia. }
  case_bool_decide as Hpos.
  { destruct (apply_hints_ok delta sets free) as [Hsub Hsz]; [apply Hp; lia|].
    pose proof (Hnext cur (apply_hints delta sets free) delta st2) as Hs.
    destruct (next _ _ _ _) as [[[add rem] err] st3]. cbn in Hs.
    destruct Hs as [(-> & Ha & Hr) _];
      [clear -Hd Hsub; set_solver|done|clear -Hsub Hfree; set_solver|done|lia|].
    split; [|unfold exactly; lia]. split; [done|]. split; [|done]. intros Hdp. destruct (Ha Hdp) as [? ?].
    split; [by trans (apply_hints delta sets free)|done]. }
  case_bool_decide as Hneg; [|cbn; split_and!; [done|lia|lia|unfold exactly; lia]].
  specialize (Hn Hneg). set (hints := cpu_hints sets cur ∅). clearbody hints.
  set (l := sort_slice _ _). pose proof (sorted_by_hints hints (UnsortedList cur)) as Hs. fold l in Hs.
  assert (l ≡ₚ UnsortedList cur) as Hperm by apply sort_func_perm.
  assert (Z.of_nat (length l) = csize cur) as Hlen by (by rewrite Hperm, length_UnsortedList).
  clearbody l. destruct (lookup_lt_is_Some_2 l (Z.to_nat (- delta))) as [x Hx]; [lia|]. rewrite Hx.
  destruct (split_counts hints cur (- delta) x l) as (sure & maybe & -> & Hsc & Hmc & Hdm & Hc);
    [done|done|lia|done|].
  pose proof (Hnext maybe free (delta + csize sure) st2) as Hr.
  destruct (next _ _ _ _) as [[[add rem] err] st3]. cbn in Hr. unfold exactly in Hr.
  destruct Hr as [(-> & _ & Hrem) Hex];
    [clear -Hd Hmc; set_solver|clear -Hmc Hcur; set_solver|done|lia|lia|]. cbn in Hex.
  assert (take_cpus (- delta) (UnsortedList rem) sure ⊆ cur ∧
    csize (take_cpus (- delta) (UnsortedList rem) sure) = - delta) as [? ?].
  { destruct (decide (delta + csize sure = 0)) as [Hz|Hz].
    - destruct (UnsortedList rem); cbn; rewrite ?bool_decide_eq_true_2 by lia; (split; [done|lia]).
    - destruct Hrem as [Hrs Hrz]; [lia|]. apply take_cpus_exact; try done; try lia.
      + by trans maybe.
      + clear -Hdm Hrs. set_solver. }
  split; [|by intros _]. split; [done|]. split; [lia|]. intros _. split; [done|lia].
Qed.

(** ** Dynamic device hints *)

Lemma dynamic_loop_ok next update delta rounds add rem added cur free close free0 cur0 :
  chain_ok 1 next → 0 < delta →
  cur ## free → cur ⊆ R → free ⊆ R → free ⊆ free0 → added ⊆ free0 →
  add ⊆ free → 1 ≤ csize add → added ## free → delta ≤ csize added + csize free →
  csize added < delta ≤ csize added + Z.of_nat rounds →
  resized cur0 free0 delta
    (dynamic_loop rounds next update delta add rem added cur free close).1.
Proof.
  intros Hnext Hdp. revert add rem added cur free close.
  induction rounds as [|rounds IH];
    intros add rem added cur free close Hd Hcur Hfree Hf0 Had0 Hadd H1 Hdaf Hroom Hr; [lia|].
  cbn [dynamic_loop]. destruct (CPUSet_List add) as [|x xs] eqn:Hl.
  { exfalso. destruct (csize_pos add H1) as [y Hy%elem_of_CPUSet_List]. rewrite Hl in Hy. inversion Hy. }
  assert (x ∈ add) as Hx by (apply elem_of_CPUSet_List; rewrite Hl; constructor).
  assert (x ∈ free) as Hxf by (by apply Hadd).
  assert (csize (added ∪ {[x]}) = csize added + 1) as Hsz.
  { rewrite csize_union_disjoint, csize_singleton; [done|]. clear -Hdaf Hxf. set_solver. }
  case_bool_decide as Hdone.
  - split; [done|]. split; [|lia]. intros _. split.
    + clear -Had0 Hadd Hf0 Hxf. set_solver.
    + pose proof (csize_mono (added ∪ {[x]}) (added ∪ {[x]} ∪ add)) as Hm.
      specialize (Hm ltac:(clear; set_solver)). lia.
  - set (cur' := cur ∪ {[x]}). set (free' := free ∖ cur').
    assert (free' = free ∖ {[x]}) as Hfree'.
    { unfold free', cur'. apply set_eq. intros y. clear -Hd. set_solver. }
    assert (csize free' = csize free - 1) as Hsf.
    { rewrite Hfree', csize_difference, csize_singleton; [done|]. clear -Hxf. set_solver. }
    pose proof (Hnext cur' free' 1 (update cur' close)) as Hn.
    destruct (next _ _ _ _) as [[[add' rem'] err] close']. cbn in Hn.
    destruct Hn as [(-> & Ha & _) _].
    { unfold free'. clear. set_solver. }
    { unfold cur'. clear -Hcur Hxf Hfree. set_solver. }
    { unfold free'. clear -Hfree. set_solver. }
    { lia. }
    { lia. }
    destruct Ha as [Ha Ha1]; [lia|]. rewrite bool_decide_eq_false_2 by (intros [?|?]; [done|lia]).
    apply IH; try done; try lia.
    + unfold free'. clear. set_solver.
    + unfold cur'. clear -Hcur Hxf Hfree. set_solver.
    + rewrite Hfree'. clear -Hfree. set_solver.
    + rewrite Hfree'. clear -Hf0. set_solver.
    + clear -Had0 Hxf Hf0. set_solver.
    + rewrite Hfree'. clear -Hdaf. set_solver.
Qed.

Lemma dynamic_ok next : chain_ok 1 next → chain_ok 1 (resizeCpusWithDynamicDeviceHints options next).
Proof.
  intros Hnext cur free delta close Hd Hcur Hfree Hp Hn. unfold resizeCpusWithDynamicDeviceHints.
  destruct (deviceUpdateOnEveryCpu options) as [update|]; [|by apply Hnext].
  case_bool_decide as Hdelta; [by apply Hnext|].
  pose proof (Hnext cur free delta (update cur close) Hd Hcur Hfree Hp Hn) as Hs.
  destruct (next _ _ _ _) as [[[add rem] err] close']. cbn in Hs. destruct Hs as [(-> & Ha & _) _].
  destruct Ha as [Ha Ha1]; [lia|]. rewrite bool_decide_eq_false_2 by (intros [?|?]; [done|lia]).
  split; [|unfold exactly; lia]. apply dynamic_loop_ok; try done; try lia; rewrite ?csize_empty; try lia.
Qed.

(** ** The whole chain *)

Lemma ResizeCpus_ok cur free delta close :
  cur ## free → cur ⊆ R → free ⊆ R →
  let '(add, rem, err) := (ResizeCpus options root NewTopologyHints cur free delta close).1 in
  (err = None ↔ delta ≤ csize free ∧ - delta ≤ csize cur) ∧
  (err = None →
   (0 < delta → add ⊆ free ∧ delta ≤ csize add) ∧ (delta < 0 → rem ⊆ cur ∧ csize rem = - delta)).
Proof.
  intros Hd Hcur Hfree. unfold ResizeCpus. cbn [nextCpuResizer].
  set (next := resizeCpusWithDynamicDeviceHints _ _).
  assert (chain_ok 1 next) as Hnext.
  { apply dynamic_ok, with_devices_ok, one_at_a_time_ok, max_local_ok. }
  clearbody next. specialize (Hnext cur free delta close Hd Hcur Hfree).
  pose proof (csize_nonneg cur). pose proof (csize_nonneg free). unfold resizeCpusOnlyIfNecessary.
  assert (∀ s : CPUSet, s ⊆ s) as Hrefl by done.
  repeat case_bool_decide; cbn; try (split; [split; [done || lia|done || lia]|]; intros; split; intros;
    (done || lia || (split; [done|lia]))).
  - destruct (next cur free delta close) as [[[add rem] err] st]. cbn in Hnext.
    destruct Hnext as [(-> & Ha & Hr) Hex]; [lia|lia|]. unfold exactly in Hex. cbn in Hex.
    split; [split; [lia|done]|]. intros _. split; [done|lia].
  - destruct (next cur free delta close) as [[[add rem] err] st]. cbn in Hnext.
    destruct Hnext as [(-> & Ha & Hr) Hex]; [lia|lia|]. unfold exactly in Hex. cbn in Hex.
    split; [split; [lia|done]|]. intros _. split; [lia|]. intros Hneg. split; [by apply Hr|by apply Hex].
Qed.
End chain.
