(* ===== verification/CpuSystem.v ===== *)
(** * CPU allocators of a system's topology tree

    The tree built from a system is well formed, splitting it for spreading
    CPUs on physical cores keeps it usable, and the allocator made from it
    finds CPUs whenever there are enough. *)

From S2P Require Import Prelude GoStrings MemNodes CpuTree CpuOrder CpuResizeFacts.

Open Scope string_scope.
Open Scope Z_scope.

(** ** Well-formed trees *)

(** A leaf has at most one CPU, another node has the CPUs of its children. *)
Inductive tree_wf : cpuTreeNode → Prop :=
  | TreeWf name level cpus cs :
      Forall tree_wf cs →
      (cs = [] → csize cpus ≤ 1) →
      (cs ≠ [] → cpus = ⋃ (t_cpus <$> cs)) →
      tree_wf (MkTree name level cpus cs).

Lemma tree_wf_inv t :
  tree_wf t →
  Forall tree_wf (t_children t) ∧ (t_children t = [] → csize (t_cpus t) ≤ 1) ∧
  (t_children t ≠ [] → t_cpus t = ⋃ (t_cpus <$> t_children t)).
Proof. by destruct 1. Qed.

Lemma elem_of_union_cpus (cs : list cpuTreeNode) x :
  x ∈ ⋃ (t_cpus <$> cs) ↔ ∃ c, c ∈ cs ∧ x ∈ t_cpus c.
Proof.
  rewrite elem_of_union_list. setoid_rewrite list_elem_of_fmap. split.
  - intros (s & (c & -> & Hc) & Hx). by exists c.
  - intros (c & Hc & Hx). exists (t_cpus c). split; [by exists c|done].
Qed.

Lemma tree_wf_child t c : tree_wf t → c ∈ t_children t → tree_wf c ∧ t_cpus c ⊆ t_cpus t.
Proof.
  intros (Hcs & _ & Hu)%tree_wf_inv Hc. rewrite Forall_forall in Hcs. split; [by apply Hcs|].
  rewrite Hu by (intros Hnil; rewrite Hnil in Hc; inversion Hc). intros x Hx.
  apply elem_of_union_cpus. by exists c.
Qed.

Lemma tree_wf_ok t : tree_wf t → tree_ok t.
Proof.
  induction t as [name level cpus cs IH] using tree_ind'.
  intros (Hcs & Hleaf & Hu)%tree_wf_inv. cbn in *. constructor; [|done|].
  - rewrite Forall_forall in IH, Hcs |- *. intros c Hc. by apply IH; [|apply Hcs].
  - intros x Hne Hx. rewrite (Hu Hne) in Hx. by apply elem_of_union_cpus.
Qed.

Lemma tree_with_wf name level cs : Forall tree_wf cs → tree_wf (tree_with name level cs).
Proof. intros Hcs. constructor; [done| |done]. intros ->. cbn. by rewrite csize_empty. Qed.

(** ** The tree of a system *)

Section system.
Context `{GoRuntime} (sys : System).

Lemma core_tree_wf nodeName cpuID : tree_wf (core_tree sys nodeName cpuID).
Proof.
  apply tree_with_wf, Forall_fmap, Forall_forall. intros threadID _. constructor; [done| |done].
  intros _. by rewrite csize_singleton.
Qed.

Lemma core_trees_wf nodeName cpus seen : Forall tree_wf (core_trees sys nodeName cpus seen).
Proof.
  revert seen. induction cpus as [|cpu cpus IH]; intros seen; [done|]. cbn [core_trees].
  case_bool_decide; [apply IH|]. constructor; [apply core_tree_wf|apply IH].
Qed.

Lemma system_tree_wf : tree_wf (NewCpuTreeFromSystem sys).
Proof.
  apply tree_with_wf, Forall_fmap, Forall_forall. intros packageID _.
  apply tree_with_wf, Forall_fmap, Forall_forall. intros dieID _.
  apply tree_with_wf, Forall_fmap, Forall_forall. intros nodeID _.
  apply tree_with_wf, Forall_fmap, Forall_forall. intros cache _.
  apply tree_with_wf, core_trees_wf.
Qed.

(** The CPUs of the threads of the CPUs of a list are all in its core trees. *)
Lemma core_trees_cpus nodeName cpus seen x :
  (∀ c, c ∈ cpus → c ∈ ThreadCPUSet sys c) →
  x ∈ cpus → x ∉ seen → ∃ t, t ∈ core_trees sys nodeName cpus seen ∧ x ∈ t_cpus t.
Proof.
  revert seen. induction cpus as [|c cpus IH]; intros seen Hself Hx Hseen; [inversion Hx|].
  cbn [core_trees].
  assert (∀ s : CPUSet, x ∈ cpus → x ∉ s →
    ∃ t, t ∈ core_trees sys nodeName cpus s ∧ x ∈ t_cpus t) as IH'.
  { intros s ??. apply IH; [|done|done]. intros c' Hc'. apply Hself. by constructor. }
  case_bool_decide as Hc.
  { apply IH'; [|done]. apply elem_of_cons in Hx as [->|Hx]; [done|done]. }
  assert (∀ y, y ∈ ThreadCPUSet sys c → y ∈ t_cpus (core_tree sys nodeName c)) as Hcore.
  { intros y Hy. apply elem_of_union_cpus.
    eexists. split; [apply list_elem_of_fmap; exists y; split; [reflexivity|by apply elem_of_CPUSet_List]|].
    cbn. set_solver. }
  destruct (decide (x ∈ ThreadCPUSet sys c)) as [Hin|Hnin].
  { exists (core_tree sys nodeName c). split; [constructor|by apply Hcore]. }
  destruct (IH' (seen ∪ ThreadCPUSet sys c)) as (t & Ht & Hxt).
  - apply elem_of_cons in Hx as [->|Hx]; [|done]. contradict Hnin. apply Hself. constructor.
  - clear -Hseen Hnin. set_solver.
  - exists t. split; [by constructor|done].
Qed.

(** The caches found for a node are those of its CPUs; a cache is
    identified by its object. *)
Lemma l2_caches_lookup nodeID cpu cache :
  (∀ c1 c2 k1 k2, k1 ∈ GetL2Caches sys c1 → k2 ∈ GetL2Caches sys c2 →
    cache_key k1 = cache_key k2 → k1 = k2) →
  cpu ∈ NodeCPUSet sys nodeID → cache ∈ GetL2Caches sys cpu →
  l2_caches sys nodeID !! cache_key cache = Some cache.
Proof.
  intros Hkey Hcpu Hcache. unfold l2_caches. rewrite <- elem_of_CPUSet_List in Hcpu.
  set (ins := λ l2cs cache, <[cache_key cache := cache]> l2cs).
  assert (∀ cpu' ks (m : gmap Z Cache), (∀ k, k ∈ ks → k ∈ GetL2Caches sys cpu') →
    m !! cache_key cache = Some cache ∨ cache ∈ ks →
    fold_left ins ks m !! cache_key cache = Some cache) as Hin.
  { intros cpu' ks. induction ks as [|k ks IH]; intros m Hks Hm; cbn.
    { destruct Hm as [?|Hm]; [done|inversion Hm]. }
    apply IH; [intros; apply Hks; by constructor|]. unfold ins.
    destruct (decide (cache_key k = cache_key cache)) as [Heq|Hne].
    - left. assert (k = cache) as ->; [|by rewrite lookup_insert_eq].
      apply (Hkey cpu' cpu); [apply Hks; constructor|done|done].
    - rewrite lookup_insert_ne by done. destruct Hm as [?|[?|?]%elem_of_cons]; [by left| |by right].
      by subst. }
  assert (∀ cpus (m : gmap Z Cache), m !! cache_key cache = Some cache ∨ cpu ∈ cpus →
    fold_left (λ l2cs cpuID, fold_left ins (GetL2Caches sys cpuID) l2cs) cpus m
      !! cache_key cache = Some cache) as Hout.
  { induction cpus as [|c cpus IH]; intros m Hm; cbn.
    { destruct Hm as [?|Hm]; [done|inversion Hm]. }
    apply IH. destruct Hm as [?|[<-|?]%elem_of_cons]; [left|left|by right].
    - apply (Hin c); [done|by left].
    - apply (Hin cpu); [done|by right]. }
  apply Hout. by right.
Qed.

(** C38: The tree built from a system is well formed (every node has exactly the CPUs
    of its children, every leaf at most one) and holds every CPU that belongs to a
    NUMA node of a die of a package and shares a level 2 cache, provided the CPUs
    of a cache are among their own threads and different caches are different
    objects. *)
Theorem NewCpuTreeFromSystem_spec :
  (∀ c k cpu, k ∈ GetL2Caches sys c → cpu ∈ cache_sharedCPUs k → cpu ∈ ThreadCPUSet sys cpu) →
  (∀ c1 c2 k1 k2, k1 ∈ GetL2Caches sys c1 → k2 ∈ GetL2Caches sys c2 →
    cache_key k1 = cache_key k2 → k1 = k2) →
  tree_wf (NewCpuTreeFromSystem sys) ∧
  ∀ packageID dieID nodeID cpu cache,
    packageID ∈ PackageIDs sys → dieID ∈ DieIDs sys packageID →
    nodeID ∈ DieNodeIDs sys packageID dieID → cpu ∈ NodeCPUSet sys nodeID →
    cache ∈ GetL2Caches sys cpu → cpu ∈ cache_sharedCPUs cache →
    cpu ∈ t_cpus (NewCpuTreeFromSystem sys).
Proof.
  intros Hself Hkey. split; [apply system_tree_wf|].
  intros packageID dieID nodeID cpu cache Hp Hd Hn Hc Hk Hs.
  pose proof (l2_caches_lookup nodeID cpu cache Hkey Hc Hk) as Hl.
  apply elem_of_union_cpus. eexists.
  split; [apply list_elem_of_fmap; exists packageID; split; [reflexivity|exact Hp]|].
  apply elem_of_union_cpus. eexists.
  split; [apply list_elem_of_fmap; exists dieID; split; [reflexivity|exact Hd]|].
  apply elem_of_union_cpus. eexists.
  split; [apply list_elem_of_fmap; exists nodeID; split; [reflexivity|exact Hn]|].
  apply elem_of_union_cpus. eexists.
  split; [apply list_elem_of_fmap; exists cache; split; [reflexivity|]|].
  { apply list_elem_of_fmap. exists (cache_key cache, cache). split; [done|]. by apply elem_of_map_range. }
  apply elem_of_union_cpus. apply core_trees_cpus; [|by apply elem_of_CPUSet_List|set_solver].
  intros c Hin%elem_of_CPUSet_List. by apply (Hself cpu cache).
Qed.
End system.

(** ** Walks *)

Section walks.
Context {St : Type} (handler : Z → cpuTreeNode → St → St * walk_action).

Fixpoint walk_children (i : Z) (cs : list cpuTreeNode) (st : St) : St * bool :=
  match cs with
  | [] => (st, false)
  | c :: cs' =>
      match DepthFirstWalk handler i c st with
      | (st, true) => (st, true)
      | (st, false) => walk_children (i + 1) cs' st
      end
  end.

Lemma DepthFirstWalk_unfold index t st :
  DepthFirstWalk handler index t st
  = match handler index t st with
    | (st, WalkSkipChildren) => (st, false)
    | (st, WalkStop) => (st, true)
    | (st, WalkOn) => walk_children 0 (t_children t) st
    end.
Proof. by destruct t. Qed.
End walks.

Abbreviation leaf_handler cpu := (λ index tn (found : option (Z * cpuTreeNode)),
  if bool_decide (t_children tn ≠ []) then (found, WalkOn)
  else if bool_decide (cpu ∈ CPUSet_List (t_cpus tn)) then (Some (index, tn), WalkStop)
  else (found, WalkOn)).

(** The walk stops at a leaf with the CPU, or there is none. *)
Definition leaf_found (cpu : Z) (here : Prop) (r : option (Z * cpuTreeNode) * bool) : Prop :=
  match r with
  | (found, true) => ∃ i leaf, found = Some (i, leaf) ∧ t_children leaf = [] ∧ cpu ∈ t_cpus leaf ∧ here
  | (_, false) => ¬ here
  end.

#[export] Instance leaf_found_proper cpu : Proper (iff ==> (=) ==> iff) (leaf_found cpu).
Proof.
  intros P Q HPQ r _ <-. destruct r as [found []]; cbn; [|by rewrite HPQ].
  by setoid_rewrite HPQ.
Qed.

Lemma leaf_walk cpu t index st :
  tree_wf t → leaf_found cpu (cpu ∈ t_cpus t) (DepthFirstWalk (leaf_handler cpu) index t st).
Proof.
  revert index st. induction t as [name level cpus cs IH] using tree_ind'.
  intros index st (Hcs & Hleaf & Hu)%tree_wf_inv. rewrite DepthFirstWalk_unfold. cbn [t_children t_cpus] in *.
  case_bool_decide as Hne.
  - rewrite (Hu Hne), elem_of_union_cpus. clear Hu Hleaf Hne. generalize 0. revert st.
    induction cs as [|c cs IHcs]; intros st i; cbn [walk_children].
    { intros (? & Hin & _). inversion Hin. }
    apply Forall_cons in IH as [IHc IH]. apply Forall_cons in Hcs as [Hc Hcs].
    specialize (IHc i st Hc). destruct (DepthFirstWalk _ i c st) as [st' []]; cbn in IHc.
    + destruct IHc as (j & leaf & -> & ? & ? & ?). exists j, leaf. split_and!; try done.
      exists c. split; [constructor|done].
    + specialize (IHcs IH Hcs st' (i + 1)). destruct (walk_children _ _ _ _) as [st'' []]; cbn in *.
      * destruct IHcs as (j & leaf & -> & ? & ? & c' & ? & ?). exists j, leaf. split_and!; try done.
        exists c'. split; [by constructor|done].
      * intros (c' & [->|Hc']%elem_of_cons & Hx); [done|]. apply IHcs. by exists c'.
  - assert (cs = []) as -> by (by destruct cs).
    destruct (bool_decide_reflect (cpu ∈ CPUSet_List cpus)) as [Hin|Hnin];
      rewrite elem_of_CPUSet_List in *; [|done].
    by exists index, (MkTree name level cpus []).
Qed.

Lemma FindLeafWithCpu_spec t cpu :
  tree_wf t → cpu ∈ t_cpus t →
  ∃ i leaf, FindLeafWithCpu t cpu = Some (i, leaf) ∧ t_children leaf = [] ∧ cpu ∈ t_cpus leaf.
Proof.
  intros Hwf Hcpu. pose proof (leaf_walk cpu t (-1) None Hwf) as Hw. unfold FindLeafWithCpu.
  destruct (DepthFirstWalk _ _ _ _) as [found []]; cbn in *; [|done].
  destruct Hw as (i & leaf & -> & ? & ? & _). by exists i, leaf.
Qed.

(** ** Splitting *)

Section split.
Context `{GoRuntime}.

Section mask.
Context (cpuMask : CPUSet).

Fixpoint mask_children (cs : list cpuTreeNode) : list cpuTreeNode :=
  match cs with
  | [] => []
  | c :: cs' =>
      match mask_tree cpuMask c with
      | Some c' => c' :: mask_children cs'
      | None => mask_children cs'
      end
  end.
End mask.

Lemma mask_tree_unfold mask t :
  mask_tree mask t
  = if bool_decide (csize (t_cpus t ∩ mask) = 0) then None
    else Some (MkTree (t_name t) (t_level t) (t_cpus t ∩ mask) (mask_children mask (t_children t))).
Proof. by destruct t. Qed.

Lemma elem_of_mask_children mask cs c' :
  c' ∈ mask_children mask cs ↔ ∃ c, c ∈ cs ∧ mask_tree mask c = Some c'.
Proof.
  induction cs as [|c cs IH]; cbn [mask_children].
  { split; [intros Hin; inversion Hin|]. intros (c & Hin & _). inversion Hin. }
  destruct (mask_tree mask c) as [d|] eqn:Hd; rewrite ?elem_of_cons, IH; split.
  - intros [->|(e & ? & ?)]; [by exists c; split; [constructor|]|by exists e; split; [constructor|]].
  - intros (e & [->|He]%elem_of_cons & Hm); [left; congruence|right; by exists e].
  - intros (e & ? & ?). by exists e; split; [constructor|].
  - intros (e & [->|He]%elem_of_cons & Hm); [congruence|by exists e].
Qed.

Lemma mask_tree_cpus mask t t' : mask_tree mask t = Some t' → t_cpus t' = t_cpus t ∩ mask.
Proof. rewrite mask_tree_unfold. case_bool_decide; [done|]. by intros [= <-]. Qed.

Lemma mask_tree_some mask t x : x ∈ t_cpus t → x ∈ mask → ∃ t', mask_tree mask t = Some t'.
Proof.
  intros Hx Hm. rewrite mask_tree_unfold. case_bool_decide as Hz; [|by eexists].
  assert (x ∈ t_cpus t ∩ mask) as Hin by set_solver. apply elem_csize in Hin. lia.
Qed.

Lemma mask_tree_wf mask t t' : tree_wf t → mask_tree mask t = Some t' → tree_ok t'.
Proof.
  revert t'. induction t as [name level cpus cs IH] using tree_ind'. intros t' Hwf.
  rewrite mask_tree_unfold. case_bool_decide as Hz; [done|]. intros [= <-]. cbn [t_children t_cpus] in *.
  pose proof Hwf as (Hcs & Hleaf & Hu)%tree_wf_inv. cbn in *.
  constructor.
  - apply Forall_forall. intros c' (c & Hc & Hm)%elem_of_mask_children.
    rewrite Forall_forall in IH, Hcs. by apply (IH c Hc); [apply Hcs|].
  - intros Hnil. destruct (decide (cs = [])) as [Hcsnil|Hne].
    { specialize (Hleaf Hcsnil). assert (csize (cpus ∩ mask) ≤ csize cpus); [|lia].
      apply csize_mono. set_solver. }
    exfalso. apply Hz. assert (cpus ∩ mask = ∅) as ->; [|done]. apply set_eq. intros x.
    split; [|set_solver]. intros [Hx Hm]%elem_of_intersection. rewrite (Hu Hne) in Hx.
    apply elem_of_union_cpus in Hx as (c & Hc & Hxc).
    destruct (mask_tree_some mask c x Hxc Hm) as [c' Hc'].
    assert (c' ∈ mask_children mask cs) as Hin by (apply elem_of_mask_children; by exists c).
    rewrite Hnil in Hin. inversion Hin.
  - intros x Hnn [Hx Hm]%elem_of_intersection.
    assert (cs ≠ []) as Hne by (intros ->; by apply Hnn).
    rewrite (Hu Hne) in Hx. apply elem_of_union_cpus in Hx as (c & Hc & Hxc).
    destruct (mask_tree_some mask c x Hxc Hm) as [c' Hc'].
    exists c'. split; [apply elem_of_mask_children; by exists c|].
    rewrite (mask_tree_cpus _ _ _ Hc'). set_solver.
Qed.

Lemma mask_child_cpus mask c : t_cpus (mask_child mask c) = t_cpus c ∩ mask.
Proof.
  unfold mask_child. destruct (mask_tree mask c) eqn:Hm; [by apply mask_tree_cpus|done].
Qed.

Lemma mask_child_ok mask c : tree_wf c → tree_ok (mask_child mask c).
Proof.
  intros Hwf. unfold mask_child. destruct (mask_tree mask c) as [c'|] eqn:Hm.
  { by eapply mask_tree_wf. }
  rewrite mask_tree_unfold in Hm. destruct (bool_decide_reflect (csize (t_cpus c ∩ mask) = 0)); [|done].
  pose proof Hwf as (Hcs & _ & _)%tree_wf_inv. constructor.
  - eapply Forall_impl; [exact Hcs|]. apply tree_wf_ok.
  - lia.
  - intros x _ Hx%elem_csize. lia.
Qed.

Lemma class_node_ok tn cc : tree_wf tn → tree_ok (class_node tn cc).
Proof.
  intros Hwf. unfold class_node. set (mask := list_to_set cc.2 : CPUSet).
  pose proof Hwf as (Hcs & Hleaf & Hu)%tree_wf_inv. constructor.
  - apply Forall_fmap. eapply Forall_impl; [exact Hcs|]. intros c. apply mask_child_ok.
  - intros Hnil%fmap_nil_inv. specialize (Hleaf Hnil).
    assert (csize (t_cpus tn ∩ mask) ≤ csize (t_cpus tn)); [|lia]. apply csize_mono. set_solver.
  - intros x Hne [Hx Hm]%elem_of_intersection.
    rewrite Hu in Hx by (intros Hnil; by rewrite Hnil in Hne).
    apply elem_of_union_cpus in Hx as (c & Hc & Hx). exists (mask_child mask c).
    split; [by apply list_elem_of_fmap_2|]. rewrite mask_child_cpus. set_solver.
Qed.

(** Every CPU is in a class. *)
Lemma class_cpus_covers classifier l x :
  x ∈ l → ∃ class cpus, class_cpus classifier l !! class = Some cpus ∧ x ∈ cpus.
Proof.
  unfold class_cpus. set (step := λ classCpus cpu, _).
  assert (∀ l (m : gmap Z (list Z)), (x ∈ l ∨ ∃ class cpus, m !! class = Some cpus ∧ x ∈ cpus) →
    ∃ class cpus, fold_left step l m !! class = Some cpus ∧ x ∈ cpus) as Hf; [|intros Hx; apply Hf; by left].
  clear l. induction l as [|y l IH]; intros m Hx; cbn.
  { destruct Hx as [Hx|Hx]; [inversion Hx|done]. }
  apply IH. destruct Hx as [[->|Hx]%elem_of_cons|(class & cpus & Hm & Hx)].
  - right. unfold step. eexists (classifier y), _. rewrite lookup_insert_eq. split; [done|].
    apply elem_of_app. right. constructor.
  - by left.
  - right. unfold step. destruct (decide (classifier y = class)) as [<-|Hne].
    + eexists (classifier y), _. rewrite lookup_insert_eq. split; [done|].
      apply elem_of_app. left. by rewrite Hm.
    + exists class, cpus. by rewrite lookup_insert_ne.
Qed.

Lemma split_nodes_cpus level classes t : t_cpus (split_nodes level classes t) = t_cpus t.
Proof. destruct t. cbn. by case_bool_decide. Qed.

Lemma split_nodes_ok level classes t :
  tree_wf t → (∀ x, x ∈ t_cpus t → ∃ cc, cc ∈ classes ∧ x ∈ cc.2) →
  tree_ok (split_nodes level classes t).
Proof.
  induction t as [name lvl cpus cs IH] using tree_ind'. intros Hwf Hcover.
  pose proof Hwf as (Hcs & Hleaf & Hu)%tree_wf_inv. cbn [split_nodes t_name t_level t_cpus t_children] in *.
  case_bool_decide; constructor.
  - apply Forall_fmap, Forall_forall. intros cc _. by apply class_node_ok.
  - intros Hnil%fmap_nil_inv. subst classes. assert (cpus = ∅) as ->; [|by rewrite csize_empty].
    apply set_eq. intros x. split; [|set_solver]. intros (? & Hin & _)%Hcover. inversion Hin.
  - intros x _ Hx. destruct (Hcover x Hx) as (cc & Hcc & Hxc).
    exists (class_node (MkTree name lvl cpus cs) cc). split; [by apply list_elem_of_fmap_2|].
    cbn. apply elem_of_intersection. split; [done|]. by apply elem_of_list_to_set.
  - apply Forall_map, Forall_forall. intros c Hc. rewrite Forall_forall in IH.
    destruct (tree_wf_child _ c Hwf Hc) as [? Hsub]. apply IH; [done|done|].
    intros x Hx. apply Hcover. by apply Hsub.
  - intros Hnil%map_eq_nil. by apply Hleaf.
  - intros x Hne Hx. rewrite Hu in Hx by (intros Hnil; by rewrite Hnil in Hne).
    apply elem_of_union_cpus in Hx as (c & Hc & Hx). exists (split_nodes level classes c).
    split; [by apply (list_elem_of_fmap_2 (split_nodes level classes))|]. by rewrite split_nodes_cpus.
Qed.

Lemma SplitLevel_ok t level classifier :
  tree_wf t → tree_ok (SplitLevel t level classifier) ∧ t_cpus (SplitLevel t level classifier) = t_cpus t.
Proof.
  intros Hwf. split; [|apply split_nodes_cpus]. apply split_nodes_ok; [done|].
  intros x Hx. destruct (class_cpus_covers classifier (CPUSet_List (t_cpus t)) x)
    as (class & cpus & Hl & Hin); [by apply elem_of_CPUSet_List|].
  exists (class, cpus). split; [by apply elem_of_map_range|done].
Qed.

Lemma NewAllocator_ok t options :
  tree_wf t → ∃ ta, NewAllocator t options = Ok (ta, default ∅ (virtDevCpusets options)) ∧
    ta_options ta = options ∧ tree_ok (ta_root ta) ∧ t_cpus (ta_root ta) = t_cpus t ∧
    (preferSpreadOnPhysicalCores options = false → ta_root ta = t).
Proof.
  intros Hwf. unfold NewAllocator. destruct (preferSpreadOnPhysicalCores options).
  - rewrite bool_decide_eq_true_2.
    + eexists. split; [done|]. cbn. split; [done|].
      destruct (SplitLevel_ok t LevelNuma (leaf_index t) Hwf). done.
    + apply Forall_forall. intros cpu Hcpu%elem_of_CPUSet_List.
      destruct (FindLeafWithCpu_spec t cpu Hwf Hcpu) as (i & leaf & -> & _). done.
  - eexists. split; [done|]. cbn. split_and!; try done. by apply tree_wf_ok.
Qed.

(** C23: On a well-formed tree an allocator is always made, and its [ResizeCpus]
    succeeds exactly if there are enough free CPUs to add or current CPUs to
    remove.  When it succeeds, the CPUs to add from are free and at least as many
    as asked for, and the CPUs to remove are current CPUs and exactly as many as
    asked for; whatever the options, device hints and cached hints are. *)
Theorem ResizeCpus_spec t options NewTopologyHints :
  tree_wf t →
  ∃ ta, NewAllocator t options = Ok (ta, default ∅ (virtDevCpusets options)) ∧
  ∀ cur free delta close, cur ## free → cur ⊆ t_cpus t → free ⊆ t_cpus t →
    let '(add, rem, err) :=
      (ResizeCpus (ta_options ta) (ta_root ta) NewTopologyHints cur free delta close).1 in
    (err = None ↔ delta ≤ csize free ∧ - delta ≤ csize cur) ∧
    (err = None →
     (0 < delta → add ⊆ free ∧ delta ≤ csize add) ∧ (delta < 0 → rem ⊆ cur ∧ csize rem = - delta)).
Proof.
  intros Hwf. destruct (NewAllocator_ok t options Hwf) as (ta & -> & Hopt & Hok & Hcpus & _).
  exists ta. split; [done|]. intros cur free delta close Hd Hcur Hfree.
  apply ResizeCpus_ok; [done|done|by rewrite Hcpus..].
Qed.
End split.

(** ** Locality *)

(** The nodes of a tree with their depth. *)
Inductive at_depth : cpuTreeNode → Z → cpuTreeNode → Prop :=
  | AtRoot t : at_depth t 0 t
  | AtChild t c d n : c ∈ t_children t → at_depth c d n → at_depth t (d + 1) n.

Lemma at_depth_cpus t d n : tree_wf t → at_depth t d n → tree_wf n ∧ t_cpus n ⊆ t_cpus t.
Proof.
  intros Hwf Hat. induction Hat as [|t c d n Hc Hat IH]; [done|].
  destruct (tree_wf_child t c Hwf Hc) as [Hcwf Hsub]. destruct (IH Hcwf). split; [done|]. by trans (t_cpus c).
Qed.

Section listing.
Context (cur free : CPUSet) (delta : Z) (Hdelta : 0 < delta).

Abbreviation slice := (toAttributedSlice cur free (enough delta)).

Lemma enough_alloc t depth cc fc :
  enough delta (attributes_of cur free t depth cc fc) = true ↔ delta ≤ csize (t_cpus t ∩ free).
Proof. rewrite enough_true. cbn. split; [intros [Hp _]; by apply Hp|]. intros ?. split; [done|lia]. Qed.

Lemma slice_sound t depth cc fc tna :
  tna ∈ slice t depth cc fc → ∃ d, at_depth t d (tna_t tna) ∧ tna_depth tna = depth + d.
Proof.
  revert depth cc fc. induction t as [name level cpus cs IH] using tree_ind'. intros depth cc fc.
  rewrite slice_unfold. cbn zeta. destruct (enough _ _); [|intros Hin; inversion Hin].
  intros [->|(c & Hc & Hin)%elem_of_concat_map]%elem_of_cons.
  - exists 0. split; [constructor|cbn; lia].
  - rewrite Forall_forall in IH. destruct (IH c Hc _ _ _ Hin) as (d & Hat & ->). exists (d + 1).
    split; [by econstructor|lia].
Qed.

Lemma slice_complete t d n depth cc fc :
  tree_wf t → at_depth t d n → delta ≤ csize (t_cpus n ∩ free) →
  ∃ tna, tna ∈ slice t depth cc fc ∧ tna_t tna = n ∧ tna_depth tna = depth + d.
Proof.
  intros Hwf Hat Hen. revert depth cc fc. induction Hat as [t|t c d n Hc Hat IH]; intros depth cc fc.
  - rewrite slice_unfold. cbn zeta. rewrite (proj2 (enough_alloc _ _ _ _)) by done.
    eexists. split; [constructor|]. split; [done|cbn; lia].
  - destruct (tree_wf_child t c Hwf Hc) as [Hcwf Hsub].
    destruct (at_depth_cpus c d n Hcwf Hat) as [_ Hsub'].
    assert (csize (t_cpus n ∩ free) ≤ csize (t_cpus t ∩ free)).
    { apply csize_mono. clear -Hsub Hsub'. set_solver. }
    rewrite slice_unfold. cbn zeta. rewrite (proj2 (enough_alloc t _ _ _)) by lia.
    edestruct (IH Hcwf Hen) as (tna & Hin & ? & ?). exists tna.
    split; [apply list_elem_of_further, elem_of_concat_map; exists c; split; [done|exact Hin]|].
    split; [done|lia].
Qed.
End listing.

(** Without device hints and spreading, more CPUs are allocated from the free CPUs
    of one node of the tree that has enough of them, and no node that has enough of
    them is deeper in the tree: a balloon is kept in as small a part of the
    topology as the depth of the tree can tell. *)
Theorem ResizeCpus_local `{GoRuntime} t options NewTopologyHints cur free delta close :
  tree_wf t → preferSpreadOnPhysicalCores options = false →
  preferCloseToDevices options = [] → preferFarFromDevices options = [] →
  deviceUpdateOnEveryCpu options = None →
  cur ⊆ t_cpus t → free ⊆ t_cpus t → 0 < delta < csize free →
  ∃ n d, at_depth t d n ∧ delta ≤ csize (t_cpus n ∩ free) ∧
    ResizeCpus options t NewTopologyHints cur free delta close
    = ((t_cpus n ∩ free, t_cpus n ∩ cur, None), close) ∧
    ∀ n' d', at_depth t d' n' → delta ≤ csize (t_cpus n' ∩ free) → d' ≤ d.
Proof.
  intros Hwf Hspread Hclose Hfar Hcb Hcur Hfree Hdelta.
  unfold ResizeCpus. cbn [nextCpuResizer]. unfold resizeCpusOnlyIfNecessary, resizeCpusWithDynamicDeviceHints.
  rewrite Hcb. rewrite bool_decide_eq_false_2 by lia. rewrite bool_decide_eq_true_2 by lia.
  rewrite !bool_decide_eq_false_2 by lia.
  unfold resizeCpusWithDevices. rewrite Hclose, Hfar. cbn [close_to far_from app length].
  rewrite bool_decide_eq_true_2 by done. unfold resizeCpusOneAtATime, resizeCpusMaxLocalSet.
  rewrite Hspread. rewrite !bool_decide_eq_true_2 by lia. cbn [negb orb].
  destruct (max_local_node options t (tree_wf_ok t Hwf) cur free delta) as (tna & rest & Hs & Hok & _);
    [done|done|lia|lia|].
  destruct (best_node options delta (ToAttributedSlice cur free (enough delta) t) tna rest) as [Hin Hdeep].
  { eapply Forall_impl; [apply slice_listed; [by apply tree_wf_ok|done..]|]. by intros ? [? _]. }
  { done. }
  rewrite bool_decide_eq_true_2 in Hs by lia. rewrite Hs.
  destruct Hok as (_ & Hen & Hc & Hf & Hcc & Hfc & _). apply enough_true in Hen as [Hen _].
  destruct (slice_sound cur free delta t 0 [] [] tna Hin) as (d & Hat & Hd).
  exists (tna_t tna), d. split; [done|]. split; [rewrite <- Hf, <- Hfc; apply Hen; lia|].
  split; [cbn; by rewrite Hc, Hf|]. intros n' d' Hat' Hen'.
  destruct (slice_complete cur free delta ltac:(lia) t d' n' 0 [] [] Hwf Hat' Hen') as (tna' & Hin' & _ & Hd').
  specialize (Hdeep tna' Hin'). lia.
Qed.

(** ** Examples *)

#[local] Existing Instance go_default.

(** A machine with one package and two NUMA nodes, each with two cores of two
    threads. *)
Definition ex_cache (c : Z) : Cache := MkCache (c / 2) (c / 2) {[2 * (c / 2); 2 * (c / 2) + 1]}.

Definition ex_system : System :=
  MkSystem [0] (λ _, [0]) (λ _ _, [0; 1])
    (λ n, list_to_set [4 * n; 4 * n + 1; 4 * n + 2; 4 * n + 3]) (λ c, [ex_cache c])
    (λ c, {[2 * (c / 2); 2 * (c / 2) + 1]}).

Lemma NewCpuTreeFromSystem_spec_witness : 6 ∈ t_cpus (NewCpuTreeFromSystem ex_system).
Proof.
  destruct (NewCpuTreeFromSystem_spec ex_system) as [_ Hin].
  - intros c k cpu ->%list_elem_of_singleton. cbn. intros Hcpu.
    assert (cpu / 2 = c / 2) as ->; [|done].
    apply elem_of_union in Hcpu as [->%elem_of_singleton| ->%elem_of_singleton].
    + rewrite Z.mul_comm, Z.div_mul; lia.
    + rewrite Z.mul_comm, Z.div_add_l by lia. change (1 / 2) with 0. lia.
  - intros c1 c2 k1 k2 ->%list_elem_of_singleton ->%list_elem_of_singleton. cbn.
    unfold ex_cache. by intros ->.
  - apply (Hin 0 0 1 6 (ex_cache 6)); try (apply (bool_decide_unpack _); by vm_compute).
    apply list_elem_of_here.
Defined.

Definition ex_options : cpuTreeAllocatorOptions := MkTreeOptions false true ["gpu"] ["nic"] None None.

(** The topology hints of the devices. *)
Definition ex_hints (dev : string) : option (list CPUSet) :=
  if bool_decide (dev = "gpu") then Some [{[4; 5; 6; 7]}] else None.

Lemma ResizeCpus_spec_witness :
  ∃ ta close, NewAllocator (NewCpuTreeFromSystem ex_system) ex_options = Ok (ta, close) ∧
    (ResizeCpus (ta_options ta) (ta_root ta) ex_hints ∅ {[1; 4; 5; 6]} 2 close).1.2 = None.
Proof.
  destruct (ResizeCpus_spec (NewCpuTreeFromSystem ex_system) ex_options ex_hints) as (ta & Hta & Hr).
  { apply system_tree_wf. }
  exists ta, ∅. split; [exact Hta|].
  specialize (Hr ∅ {[1; 4; 5; 6]} 2 ∅).
  destruct (ResizeCpus _ _ _ _ _ _ _) as [[[add rem] err] close]. cbn in Hr |- *.
  apply Hr; [set_solver|set_solver| |by vm_compute].
  apply (bool_decide_unpack _). by vm_compute.
Defined.

Definition ex_plain : cpuTreeAllocatorOptions := MkTreeOptions true false [] [] None None.

Lemma ResizeCpus_local_witness :
  ∃ n d, at_depth (NewCpuTreeFromSystem ex_system) d n ∧ 2 ≤ csize (t_cpus n ∩ {[1; 4; 5; 6]}) ∧
    ∀ n' d', at_depth (NewCpuTreeFromSystem ex_system) d' n' →
      2 ≤ csize (t_cpus n' ∩ {[1; 4; 5; 6]}) → d' ≤ d.
Proof.
  destruct (ResizeCpus_local (NewCpuTreeFromSystem ex_system) ex_plain ex_hints ∅ {[1; 4; 5; 6]} 2 ∅)
    as (n & d & Hat & Hen & _ & Hdeep); [apply system_tree_wf|reflexivity..|set_solver| | |].
  - apply (bool_decide_unpack _). by vm_compute.
  - split; by vm_compute.
  - exists n, d. split_and!; assumption.
Defined.
