(* ===== verification/CpuAlloc.v ===== *)
(** * The CPU allocator (pkg/cpuallocator/allocator.go)

    Choosing a number of CPUs from a set: idle packages first, then clusters,
    cache groups, cores and threads. *)

From S2P Require Import Prelude GoStrings MemNodes CpuTree.

Open Scope string_scope.
Open Scope Z_scope.

(** ** Data *)

(** CPU priorities; [PriorityNone] is the number of the others. *)
Inductive CPUPriority := PriorityHigh | PriorityNormal | PriorityLow | PriorityNone.

#[export] Instance CPUPriority_eq_dec : EqDecision CPUPriority.
Proof. solve_decision. Defined.

(** Kinds of cores, of pkg/sysfs. *)
Definition PerformanceCore : Z := 0.
Definition EfficientCore : Z := 1.

Definition AllocIdlePackages : Z := Z.shiftl 1 0.
Definition AllocIdleClusters : Z := Z.shiftl 1 1.
Definition AllocCacheGroups : Z := Z.shiftl 1 2.
Definition AllocIdleCores : Z := Z.shiftl 1 3.
Definition AllocDefault : Z :=
  AllocIdlePackages ||| AllocIdleClusters ||| AllocCacheGroups ||| AllocIdleCores.

Record cpuCluster := MkCluster {
  cl_pkg : Z;
  cl_die : Z;
  cl_cluster : Z;
  cl_cpus : CPUSet;
  cl_kind : Z;
}.

Record cacheGroup := MkGroup {
  cg_id : Z;
  cg_pkg : Z;
  cg_die : Z;
  cg_node : Z;
  cg_cpus : CPUSet;
  cg_kind : Z;
}.

Record topologyCache := MkTopology {
  tc_pkg : gmap Z CPUSet;
  tc_node : gmap Z CPUSet;
  tc_core : gmap Z CPUSet;
  tc_kind : gmap Z CPUSet;
  tc_cpuPriorities : CPUPriority → CPUSet;
  tc_clusters : list cpuCluster;
  tc_cacheGroups : list cacheGroup;
}.

(** What the allocator asks the system for. *)
Record CpuSys := MkCpuSys {
  cs_PackageIDs : list Z;
  cs_CPUIDs : list Z;
  cs_OfflineCPUs : CPUSet;
  cs_PackageID : Z → Z;
}.

(** The state of an allocation. *)
Record allocatorHelper := MkHelper {
  h_flags : Z;
  h_from : CPUSet;
  h_prefer : CPUPriority;
  h_cnt : Z;
  h_result : CPUSet;
}.

Definition newAllocatorHelper : allocatorHelper := MkHelper AllocDefault ∅ PriorityHigh 0 ∅.

(** Options set the preferred priority and the flags. *)
Abbreviation Option_ := (allocatorHelper → allocatorHelper).

Definition WithPriority (p : CPUPriority) : Option_ := λ a,
  MkHelper (h_flags a) (h_from a) p (h_cnt a) (h_result a).

Definition WithAllocFlags (flags : Z) : Option_ := λ a,
  MkHelper flags (h_from a) (h_prefer a) (h_cnt a) (h_result a).

Definition has_flag (a : allocatorHelper) (flag : Z) : bool := bool_decide (h_flags a &&& flag ≠ 0).

(** [result = result.Union(cset); from = from.Difference(cset); cnt -= cset.Size()] *)
Definition take_set (cset : CPUSet) (a : allocatorHelper) : allocatorHelper :=
  MkHelper (h_flags a) (h_from a ∖ cset) (h_prefer a) (h_cnt a - csize cset) (h_result a ∪ cset).

(** The zero CPU set for an ID that is not in the map. *)
Definition cpus_at (m : gmap Z CPUSet) (id : Z) : CPUSet := default ∅ (m !! id).

(** ** Comparing CPU sets by priority *)

(** The priorities not higher than one, and those higher. *)
Definition prios_from (p : CPUPriority) : list CPUPriority :=
  match p with
  | PriorityHigh => [PriorityHigh; PriorityNormal; PriorityLow]
  | PriorityNormal => [PriorityNormal; PriorityLow]
  | PriorityLow => [PriorityLow]
  | PriorityNone => []
  end.

Definition prios_below (p : CPUPriority) : list CPUPriority :=
  match p with
  | PriorityHigh => []
  | PriorityNormal => [PriorityHigh]
  | PriorityLow => [PriorityHigh; PriorityNormal]
  | PriorityNone => [PriorityHigh; PriorityNormal; PriorityLow]
  end.

Section cmp.
Context (prios : CPUPriority → CPUSet).

Definition prio_count (cset : CPUSet) (p : CPUPriority) : Z := csize (cset ∩ prios p).

(** Both sets have enough CPUs: the tighter fit; one has: that one. *)
Definition tightest (prefA prefB cpuCnt : Z) : option Z :=
  if bool_decide (cpuCnt ≤ prefA ∧ cpuCnt ≤ prefB) then Some (prefB - prefA)
  else if bool_decide (cpuCnt ≤ prefA ∨ cpuCnt ≤ prefB) then Some (prefA - prefB)
  else None.

Definition cmp_low (csetA csetB : CPUSet) (prefer : CPUPriority) (cpuCnt : Z) : option Z :=
  if bool_decide (cpuCnt > 0 ∧ prefer = PriorityLow)
  then tightest (prio_count csetA prefer) (prio_count csetB prefer) cpuCnt
  else None.

Definition cmp_high (csetA csetB : CPUSet) (prefer : CPUPriority) (cpuCnt : Z) : option Z :=
  if bool_decide (cpuCnt > 0 ∧ prefer = PriorityHigh) then
    let prefA := prio_count csetA prefer in
    let prefB := prio_count csetB prefer in
    if bool_decide (prefA = 0 ∧ prefB = 0)
    then tightest (prio_count csetA PriorityNormal) (prio_count csetB PriorityNormal) cpuCnt
    else tightest prefA prefB cpuCnt
  else None.

Fixpoint cmp_favor (ps : list CPUPriority) (csetA csetB : CPUSet) (prefer : CPUPriority) (cpuCnt : Z)
    : option Z :=
  match ps with
  | [] => None
  | p :: ps' =>
      let prefA := prio_count csetA p in
      let prefB := prio_count csetB p in
      if bool_decide (cpuCnt > 0 ∧ p = prefer ∧ cpuCnt ≤ prefA ∧ cpuCnt ≤ prefB) then Some (prefB - prefA)
      else if bool_decide (prefA ≠ prefB) then Some (prefA - prefB)
      else cmp_favor ps' csetA csetB prefer cpuCnt
  end.

Fixpoint cmp_repel (ps : list CPUPriority) (csetA csetB : CPUSet) : Z :=
  match ps with
  | [] => 0
  | p :: ps' =>
      let nonprefA := prio_count csetA p in
      let nonprefB := prio_count csetB p in
      if bool_decide (nonprefA ≠ nonprefB) then nonprefB - nonprefA else cmp_repel ps' csetA csetB
  end.

Definition cmpCPUSet (csetA csetB : CPUSet) (prefer : CPUPriority) (cpuCnt : Z) : Z :=
  if bool_decide (prefer = PriorityNone) then 0
  else
    match cmp_low csetA csetB prefer cpuCnt with
    | Some r => r
    | None =>
        match cmp_high csetA csetB prefer cpuCnt with
        | Some r => r
        | None =>
            match cmp_favor (prios_from prefer) csetA csetB prefer cpuCnt with
            | Some r => r
            | None => cmp_repel (prios_below prefer) csetA csetB
            end
        end
    end.
End cmp.

Section allocator.
Context `{GoRuntime} (sys : CpuSys) (topo : topologyCache).

Abbreviation offline := (cs_OfflineCPUs sys).
Abbreviation cmp_prio := (cmpCPUSet (tc_cpuPriorities topo)).

(** ** Idle packages *)

Definition pickIds (ids : list Z) (f : Z → bool) : list Z := filter (λ id, f id = true) ids.

(** The online CPUs of a package with the preferred priority. *)
Definition package_cpus (a : allocatorHelper) (id : Z) : CPUSet :=
  let cset := cpus_at (tc_pkg topo) id ∖ offline in
  if bool_decide (h_prefer a ≠ PriorityNone) then cset ∩ tc_cpuPriorities topo (h_prefer a) else cset.

(** The order of [sort.Slice] by preference, then by ID. *)
Definition by_preference (a : allocatorHelper) (m : gmap Z CPUSet) (x y : Z) : bool :=
  let r := cmp_prio (cpus_at m x) (cpus_at m y) (h_prefer a) (-1) in
  if bool_decide (r ≠ 0) then bool_decide (r > 0) else bool_decide (x < y).

(** Take the sets that are not larger than what is needed, in order. *)
Fixpoint take_sets (csets : list CPUSet) (a : allocatorHelper) : allocatorHelper :=
  match csets with
  | [] => a
  | cset :: csets' =>
      if bool_decide (csize cset ≤ h_cnt a) then
        let a := take_set cset a in
        if bool_decide (h_cnt a = 0) then a else take_sets csets' a
      else take_sets csets' a
  end.

Definition takeIdlePackages (a : allocatorHelper) : allocatorHelper :=
  let pkgs := pickIds (cs_PackageIDs sys)
                (λ id, bool_decide (package_cpus a id ∩ h_from a = package_cpus a id)) in
  let pkgs := sort_slice (by_preference a (tc_pkg topo)) pkgs in
  take_sets (package_cpus a <$> pkgs) a.

(** ** Idle clusters *)

(** On a machine with several kinds of cores, efficient cores are for low
    priority only and performance cores for the others. *)
Definition wrong_kind (prefer : CPUPriority) (kind : Z) : bool :=
  bool_decide (Z.of_nat (size (tc_kind topo)) > 1) &&
  (bool_decide (prefer ≠ PriorityLow ∧ kind = EfficientCore) ||
   bool_decide (prefer = PriorityLow ∧ kind = PerformanceCore)).

Definition pickIdle (a : allocatorHelper) (c : cpuCluster) : bool * CPUSet :=
  if wrong_kind (h_prefer a) (cl_kind c) then (false, ∅)
  else
    let cset := cl_cpus c ∖ offline in
    let free := cset ∩ h_from a in
    if bool_decide (free = ∅ ∨ free ≠ cset) then (false, ∅) else (true, free).

(** Smaller package, die and last ID. *)
Definition by_ids (pkgA pkgB dieA dieB idA idB : Z) : Z :=
  if bool_decide (pkgA ≠ pkgB) then pkgA - pkgB
  else if bool_decide (dieA ≠ dieB) then dieA - dieB
  else idA - idB.

(** Compare two counts of CPUs by how they satisfy a request for [cnt]:
    [None] if neither does, otherwise the one that does, the tighter one of
    two, or [tie]. *)
Definition satisfies (cnt cntA cntB tie : Z) : option Z :=
  if bool_decide (cnt ≤ cntA ∧ cntB < cnt) then Some (-1)
  else if bool_decide (cntA < cnt ∧ cnt ≤ cntB) then Some 1
  else if bool_decide (cnt ≤ cntA ∧ cnt ≤ cntB) then
    Some (if bool_decide (cntA - cntB ≠ 0) then cntA - cntB else tie)
  else None.

Definition preferTightestFit (cnt : Z) (cA cB : cpuCluster) (pkgA pkgB dieA dieB : Z)
    (csetA csetB : CPUSet) : Z :=
  let tie := by_ids (cl_pkg cA) (cl_pkg cB) (cl_die cA) (cl_die cB) (cl_cluster cA) (cl_cluster cB) in
  match satisfies cnt (csize csetA) (csize csetB) tie with
  | Some r => r
  | None =>
      match satisfies cnt dieA dieB tie with
      | Some r => r
      | None => default 0 (satisfies cnt pkgA pkgB tie)
      end
  end.

(** Counts of CPUs per package and die. *)
Definition count_cpus {K} `{Countable K} (l : list (K * CPUSet)) : gmap K Z :=
  fold_left (λ m kc, <[kc.1 := default 0 (m !! kc.1) + csize kc.2]> m) l ∅.

(** The clusters picked with their usable CPUs, in order of topology. *)
Definition picked_clusters (a : allocatorHelper) : list (cpuCluster * CPUSet) :=
  omap (λ c, let '(pick, usable) := pickIdle a c in
             if negb pick || bool_decide (csize usable = 0) then None else Some (c, usable))
    (tc_clusters topo).

Definition sortCPUClusters (a : allocatorHelper) : list (cpuCluster * CPUSet) :=
  let picked := picked_clusters a in
  let pkgCPUCnt := count_cpus ((λ cu, (cl_pkg cu.1, cu.2)) <$> picked) in
  let dieCPUCnt := count_cpus ((λ cu, ((cl_pkg cu.1, cl_die cu.1), cu.2)) <$> picked) in
  let pkgCPUs (c : cpuCluster) := default 0 (pkgCPUCnt !! cl_pkg c) in
  let dieCPUs (c : cpuCluster) := default 0 (dieCPUCnt !! (cl_pkg c, cl_die c)) in
  sort_func (λ x y, preferTightestFit (h_cnt a) x.1 y.1 (pkgCPUs x.1) (pkgCPUs y.1)
                      (dieCPUs x.1) (dieCPUs y.1) x.2 y.2) picked.

(** Consume clusters until one is too large or nothing more is needed. *)
Fixpoint take_clusters (csets : list CPUSet) (a : allocatorHelper) : allocatorHelper :=
  match csets with
  | [] => a
  | cset :: csets' =>
      if bool_decide (h_cnt a < csize cset) then a
      else
        let a := take_set cset a in
        if bool_decide (h_cnt a = 0) then a else take_clusters csets' a
  end.

Definition takeIdleClusters (a : allocatorHelper) : allocatorHelper :=
  if bool_decide (Z.of_nat (length (tc_clusters topo)) ≤ 1) then a
  else
    match sortCPUClusters a with
    | [] => a
    | (c, cset) :: clusters =>
        if bool_decide (csize cset = h_cnt a) then take_set cset a
        else if bool_decide (csize cset > h_cnt a) then a
        else take_clusters (cset :: clusters.*2) a
    end.

(** ** Idle cores and threads *)

Definition core_cpus (id : Z) : CPUSet := cpus_at (tc_core topo) id ∖ offline.

(** An idle core is picked by the first of its online CPUs. *)
Definition idle_core (a : allocatorHelper) (id : Z) : bool :=
  match CPUSet_List (core_cpus id) with
  | [] => false
  | first :: _ => bool_decide (core_cpus id ∩ h_from a = core_cpus id) && bool_decide (first = id)
  end.

Definition takeIdleCores (a : allocatorHelper) : allocatorHelper :=
  let cores := pickIds (cs_CPUIDs sys) (idle_core a) in
  let cores := sort_slice (by_preference a (tc_core topo)) cores in
  take_sets (core_cpus <$> cores) a.

(** The first comparison that tells two CPUs apart. *)
Definition by_threads (a : allocatorHelper) (iCore jCore : Z) : bool :=
  let iPkg := cs_PackageID sys iCore in
  let jPkg := cs_PackageID sys jCore in
  let iCoreSet := cpus_at (tc_core topo) iCore in
  let jCoreSet := cpus_at (tc_core topo) jCore in
  let iPkgSet := cpus_at (tc_pkg topo) iPkg in
  let jPkgSet := cpus_at (tc_pkg topo) jPkg in
  let iPkgColo := csize (iPkgSet ∩ h_result a) in
  let jPkgColo := csize (jPkgSet ∩ h_result a) in
  if bool_decide (iPkgColo ≠ jPkgColo) then bool_decide (iPkgColo > jPkgColo)
  else
    let res := cmp_prio (iPkgSet ∩ h_from a) (jPkgSet ∩ h_from a) (h_prefer a) (h_cnt a) in
    if bool_decide (res ≠ 0) then bool_decide (res > 0)
    else if bool_decide (iPkg ≠ jPkg) then bool_decide (iPkg < jPkg)
    else
      let res := cmp_prio {[iCore]} {[jCore]} (h_prefer a) 0 in
      if bool_decide (res ≠ 0) then bool_decide (res > 0)
      else
        let iPkgFree := csize (iPkgSet ∩ h_from a) in
        let jPkgFree := csize (jPkgSet ∩ h_from a) in
        if bool_decide (iPkgFree ≠ jPkgFree) then bool_decide (iPkgFree < jPkgFree)
        else
          let iCoreFree := csize (iCoreSet ∩ h_from a) in
          let jCoreFree := csize (jCoreSet ∩ h_from a) in
          if bool_decide (iCoreFree ≠ jCoreFree) then bool_decide (iCoreFree < jCoreFree)
          else bool_decide (iCore < jCore).

Fixpoint take_threads (ids : list Z) (a : allocatorHelper) : allocatorHelper :=
  match ids with
  | [] => a
  | id :: ids' =>
      let a := take_set {[id]} a in
      if bool_decide (h_cnt a = 0) then a else take_threads ids' a
  end.

Definition takeIdleThreads (a : allocatorHelper) : allocatorHelper :=
  let cores := pickIds (cs_CPUIDs sys) (λ id, bool_decide (id ∈ h_from a ∖ offline)) in
  take_threads (sort_slice (by_threads a) cores) a.

(** ** The order of the steps *)

(** [allocate] with the step that takes cache groups. *)
Definition allocate_with (takeCacheGroups : allocatorHelper → res allocatorHelper) (a : allocatorHelper)
    : res (CPUSet * allocatorHelper) :=
  let a := if has_flag a AllocIdlePackages then takeIdlePackages a else a in
  let a :=
    if bool_decide (Z.of_nat (size (tc_kind topo)) > 1) then
      if bool_decide (h_cnt a > 0) && has_flag a AllocIdleClusters then takeIdleClusters a else a
    else a in
  let! a :=
    if bool_decide (h_cnt a > 0) && has_flag a AllocCacheGroups then takeCacheGroups a else Ok a in
  let a := if bool_decide (h_cnt a > 0) && has_flag a AllocIdleCores then takeIdleCores a else a in
  let a := if bool_decide (h_cnt a > 0) then takeIdleThreads a else a in
  Ok (if bool_decide (h_cnt a = 0) then h_result a else ∅, a).

(** The allocation of part of a cache group, by cores and threads only. *)
Definition allocate_part (prefer : CPUPriority) (from : CPUSet) (cnt : Z) : res CPUSet :=
  let! r := allocate_with Ok (MkHelper AllocIdleCores from prefer cnt ∅) in
  Ok r.1.

(** ** Cache groups *)

Inductive pickVerdict := pickPrefer | pickUsable | pickIgnore.

Definition pickGroups (a : allocatorHelper) (g : cacheGroup) : pickVerdict * CPUSet :=
  if wrong_kind (h_prefer a) (cg_kind g) then (pickIgnore, ∅)
  else
    let cset := cg_cpus g ∖ offline in
    let free := cset ∩ h_from a in
    if bool_decide (free = ∅) then (pickIgnore, ∅)
    else if bool_decide (free = cset) then (pickPrefer, free)
    else (pickUsable, free).

Abbreviation picked := (list (cacheGroup * CPUSet)).

Record cacheGroupSorter := MkSorter {
  s_prefer : picked;
  s_preferPkg : gmap Z Z;
  s_preferDie : gmap (Z * Z) Z;
  s_usable : picked;
  s_usablePkg : gmap Z Z;
  s_usableDie : gmap (Z * Z) Z;
  s_full : Z;
  s_part : Z;
}.

Definition preferPkgCPUCount (s : cacheGroupSorter) (pkg : Z) : Z := default 0 (s_preferPkg s !! pkg).
Definition preferDieCPUCount (s : cacheGroupSorter) (pkg die : Z) : Z :=
  default 0 (s_preferDie s !! (pkg, die)).
Definition usablePkgCPUCount (s : cacheGroupSorter) (pkg : Z) : Z := default 0 (s_usablePkg s !! pkg).
Definition usableDieCPUCount (s : cacheGroupSorter) (pkg die : Z) : Z :=
  default 0 (s_usableDie s !! (pkg, die)).

(** Compare two places by their idle and partly used CPUs: [None] if none
    satisfies the request, otherwise the one that does, the tighter one, or
    [tie]. *)
Definition satisfies_both (full part fullA fullB partA partB tie : Z) : option Z :=
  if bool_decide (full ≤ fullA ∧ fullB < full ∧ part ≤ partA) then Some (-1)
  else if bool_decide (fullA < full ∧ full ≤ fullB ∧ part ≤ partB) then Some 1
  else if bool_decide (full ≤ fullA ∧ full ≤ fullB) then
    if bool_decide (part ≤ partA ∧ partB < part) then Some (-1)
    else if bool_decide (partA < part ∧ part ≤ partB) then Some 1
    else if bool_decide (part ≤ partA ∧ part ≤ partB) then
      Some (if bool_decide (fullA - fullB ≠ 0) then fullA - fullB
            else if bool_decide (partA - partB ≠ 0) then partA - partB
            else tie)
    else None
  else None.

Definition sortIdle (s : cacheGroupSorter) (gA gB : cacheGroup) : Z :=
  let tie := by_ids (cg_pkg gA) (cg_pkg gB) (cg_die gA) (cg_die gB) (cg_id gA) (cg_id gB) in
  match satisfies_both (s_full s) (s_part s)
          (preferDieCPUCount s (cg_pkg gA) (cg_die gA)) (preferDieCPUCount s (cg_pkg gB) (cg_die gB))
          (usableDieCPUCount s (cg_pkg gA) (cg_die gA)) (usableDieCPUCount s (cg_pkg gB) (cg_die gB)) tie
  with
  | Some r => r
  | None =>
      match satisfies_both (s_full s) (s_part s)
              (preferPkgCPUCount s (cg_pkg gA)) (preferPkgCPUCount s (cg_pkg gB))
              (usablePkgCPUCount s (cg_pkg gA)) (usablePkgCPUCount s (cg_pkg gB)) tie
      with
      | Some r => r
      | None => cg_id gA - cg_id gB
      end
  end.

(** The package and die of the groups are compared with CPU counts of the
    first idle group, as the code has it. *)
Definition near_idle (s : cacheGroupSorter) (idle : cacheGroup) (x y : cacheGroup * CPUSet) : Z :=
  let dieIdle := preferDieCPUCount s (cg_pkg idle) (cg_die idle) in
  let pkgIdle := preferPkgCPUCount s (cg_pkg idle) in
  if bool_decide (cg_pkg x.1 = pkgIdle ∧ cg_pkg y.1 ≠ pkgIdle) then -1
  else if bool_decide (cg_pkg x.1 ≠ pkgIdle ∧ cg_pkg y.1 = pkgIdle) then 1
  else if bool_decide (cg_pkg x.1 = pkgIdle ∧ cg_pkg y.1 = pkgIdle) then
    if bool_decide (cg_die x.1 = dieIdle ∧ cg_die y.1 ≠ dieIdle) then -1
    else if bool_decide (cg_die x.1 ≠ dieIdle ∧ cg_die y.1 = dieIdle) then 1
    else if bool_decide (cg_die x.1 = dieIdle ∧ cg_die y.1 = dieIdle) then
      let diff := csize x.2 - csize y.2 in
      if bool_decide (diff ≠ 0) then - diff else cg_id x.1 - cg_id y.1
    else 0
  else 0.

Definition sortUsed (s : cacheGroupSorter) (x y : cacheGroup * CPUSet) : Z :=
  match (if bool_decide (s_full s > 0) then s_prefer s else []) with
  | (idle, _) :: _ => near_idle s idle x y
  | [] =>
      let diePartA := usableDieCPUCount s (cg_pkg x.1) (cg_die x.1) in
      let diePartB := usableDieCPUCount s (cg_pkg y.1) (cg_die y.1) in
      let total := s_full s + s_part s in
      let diff := csize x.2 - csize y.2 in
      default 0 (satisfies total diePartA diePartB
        (if bool_decide (diff ≠ 0) then - diff
         else by_ids (cg_pkg x.1) (cg_pkg y.1) (cg_die x.1) (cg_die y.1) (cg_id x.1) (cg_id y.1)))
  end.

Definition picked_groups (a : allocatorHelper) (verdict : pickVerdict) : picked :=
  omap (λ g, match pickGroups a g, verdict with
             | (pickPrefer, cset), pickPrefer => Some (g, cset)
             | (pickUsable, cset), pickUsable => Some (g, cset)
             | _, _ => None
             end) (tc_cacheGroups topo).

Definition group_pkgs (l : picked) : list (Z * CPUSet) := (λ gu, (cg_pkg gu.1, gu.2)) <$> l.
Definition group_dies (l : picked) : list (Z * Z * CPUSet) :=
  (λ gu, ((cg_pkg gu.1, cg_die gu.1), gu.2)) <$> l.

(** A division by zero if the first group had no CPUs. *)
Definition sortCacheGroups (a : allocatorHelper) : res cacheGroupSorter :=
  match tc_cacheGroups topo with
  | [] => Err Panic
  | g0 :: _ =>
      let size := csize (cg_cpus g0) in
      if bool_decide (size = 0) then Err Panic
      else
        let part := Z.rem (h_cnt a) size in
        let prefer := picked_groups a pickPrefer in
        let usable := picked_groups a pickUsable in
        let s := MkSorter prefer (count_cpus (group_pkgs prefer)) (count_cpus (group_dies prefer))
                   usable (count_cpus (group_pkgs usable)) (count_cpus (group_dies usable))
                   (h_cnt a - part) part in
        let prefer := sort_func (λ x y, sortIdle s x.1 y.1) prefer in
        let s := MkSorter prefer (s_preferPkg s) (s_preferDie s) (s_usable s) (s_usablePkg s)
                   (s_usableDie s) (s_full s) (s_part s) in
        Ok (MkSorter prefer (s_preferPkg s) (s_preferDie s) (sort_func (sortUsed s) usable)
              (s_usablePkg s) (s_usableDie s) (s_full s) (s_part s))
  end.

(** Take full idle groups, splitting up the last one if necessary. *)
Fixpoint take_idle_groups (groups : picked) (a : allocatorHelper) : res allocatorHelper :=
  match groups with
  | [] => Ok a
  | (g, cset) :: groups' =>
      if bool_decide (h_cnt a ≤ 0) then Ok a
      else if bool_decide (csize cset ≤ h_cnt a) then take_idle_groups groups' (take_set cset a)
      else
        let! use := allocate_part (h_prefer a) cset (h_cnt a) in
        take_idle_groups groups' (take_set use a)
  end.

(** The usable groups of the chosen package, up to the first of another one. *)
Fixpoint chosen_groups (chosenPkg : Z) (usable : picked) : picked :=
  match usable with
  | [] => []
  | (g, cset) :: usable' =>
      if bool_decide (cg_pkg g ≠ chosenPkg) then [] else (g, cset) :: chosen_groups chosenPkg usable'
  end.

Definition groupsBySize (groups : picked) : gmap Z picked :=
  fold_left (λ m gu, <[csize gu.2 := app (default [] (m !! csize gu.2)) [gu]]> m) groups ∅.

(** The fewest groups of a single size that give exactly [cnt] CPUs. *)
Definition single_size (cnt : Z) (bySize : list (Z * picked)) : Z * Z :=
  fold_left (λ st sg,
      let '(size, take) := st in
      let '(grpSize, groups) := sg in
      if bool_decide (grpSize > 0 ∧ grpSize < cnt ∧ Z.rem cnt grpSize = 0) then
        let n := Z.quot cnt grpSize in
        if bool_decide (n < Z.of_nat (length groups) ∧ n < take) then (grpSize, n) else (size, take)
      else (size, take)) bySize (0, 0).

(** The number of groups needed and the CPUs in them, with the totals so far. *)
Fixpoint groups_needed (cnt : Z) (groups : picked) (grpCnt : nat) (cpuCnt : Z) : nat * Z :=
  match groups with
  | [] => (grpCnt, cpuCnt)
  | (_, cset) :: groups' =>
      let total := cpuCnt + csize cset in
      if bool_decide (cnt ≤ total) then (S grpCnt, total)
      else groups_needed cnt groups' (S grpCnt) total
  end.

(** Take groups until one is larger than what is needed. *)
Fixpoint take_used_groups (groups : picked) (a : allocatorHelper) : allocatorHelper :=
  match groups with
  | [] => a
  | (_, cset) :: groups' =>
      if bool_decide (h_cnt a < csize cset) then a else take_used_groups groups' (take_set cset a)
  end.

(** The end of [takeCacheGroups]: groups of any size, the last one in part.
    [a0] is the state to go back to, [a] the state so far. *)
Definition take_any_groups (chosen : picked) (a0 a : allocatorHelper) : res allocatorHelper :=
  let '(grpCnt, cpuCnt) := groups_needed (h_cnt a) chosen 0 0 in
  if bool_decide (cpuCnt < h_cnt a) then Ok a0
  else
    let a := take_used_groups (take grpCnt chosen) a in
    let! a :=
      if bool_decide (h_cnt a > 0) then
        match chosen !! pred grpCnt with
        | None => Err Panic
        | Some (_, cset) =>
            let! use := allocate_part (h_prefer a) cset (h_cnt a) in
            Ok (take_set use a)
        end
      else Ok a in
    if bool_decide (h_cnt a ≠ 0) then Ok a0 else Ok a.

(** The groups that are not idle. *)
Definition take_usable_groups (chosenPkg : Z) (usable : picked) (a0 a : allocatorHelper)
    : res allocatorHelper :=
  let chosen := chosen_groups chosenPkg usable in
  let bySize := groupsBySize chosen in
  match bySize !! h_cnt a with
  | Some ((_, cset) :: _) => Ok (take_set cset a)
  | Some [] => Err Panic
  | None =>
      let '(size, n) := single_size (h_cnt a) (map_range bySize) in
      if bool_decide (n ≠ 0 ∧ size > 1) then
        let a := fold_left (λ a gu, take_set gu.2 a) (default [] (bySize !! size)) a in
        if bool_decide (h_cnt a ≠ 0) then Ok a0 else take_any_groups chosen a a
      else take_any_groups chosen a0 a
  end.

Definition takeCacheGroups (a : allocatorHelper) : res allocatorHelper :=
  if bool_decide (Z.of_nat (length (tc_cacheGroups topo)) ≤ 1) then Ok a
  else if bool_decide (h_cnt a < 2) then Ok a
  else
    let! s := sortCacheGroups a in
    let '(chosenPkg, preferPkgCPUs, usablePkgCPUs) :=
      match s_prefer s, s_usable s with
      | (g, _) :: _, _ => (cg_pkg g, preferPkgCPUCount s (cg_pkg g), usablePkgCPUCount s (cg_pkg g))
      | [], (g, _) :: _ => (cg_pkg g, 0, usablePkgCPUCount s (cg_pkg g))
      | [], [] => (0, 0, 0)
      end in
    if bool_decide (preferPkgCPUs + usablePkgCPUs < h_cnt a) then Ok a
    else
      let! a' := take_idle_groups (s_prefer s) a in
      if bool_decide (h_cnt a' ≤ 0) then Ok a'
      else take_usable_groups chosenPkg (s_usable s) a a'.

Definition allocate : allocatorHelper → res (CPUSet * allocatorHelper) := allocate_with takeCacheGroups.
End allocator.

(** ** The interface *)

(** [takeAny], for an allocator without system information; a negative count
    is out of range. *)
Definition takeAny (a : allocatorHelper) : res allocatorHelper :=
  let cpus := CPUSet_List (h_from a) in
  if bool_decide (h_cnt a ≤ Z.of_nat (length cpus)) then
    if bool_decide (h_cnt a < 0) then Err Panic
    else
      let cset : CPUSet := list_to_set (take (Z.to_nat (h_cnt a)) cpus) in
      Ok (MkHelper (h_flags a) (h_from a ∖ cset) (h_prefer a) 0 (h_result a ∪ cset))
  else Ok a.

Section interface.
Context `{GoRuntime} (sys : option CpuSys) (topo : topologyCache).

(** [allocate], with and without system information. *)
Definition allocate_cpus (a : allocatorHelper) : res (CPUSet * allocatorHelper) :=
  match sys with
  | Some sys => allocate sys topo a
  | None =>
      let! a := takeAny a in
      Ok (if bool_decide (h_cnt a = 0) then h_result a else ∅, a)
  end.

(** The result and the CPUs left in the set. *)
Definition allocateCpus (from : CPUSet) (cnt : Z) (options : list Option_) : res CPUSet * CPUSet :=
  if bool_decide (csize from < cnt) then (Err ErrOther, from)
  else if bool_decide (csize from = cnt) then (Ok from, ∅)
  else
    let a := fold_left (λ a o, o a) options newAllocatorHelper in
    match allocate_cpus (MkHelper (h_flags a) from (h_prefer a) cnt ∅) with
    | Ok (result, a) => (Ok result, h_from a)
    | Err e => (Err e, from)
    end.

Definition AllocateCpus (from : CPUSet) (cnt : Z) (options : list Option_) : res CPUSet * CPUSet :=
  allocateCpus from cnt options.

Definition ReleaseCpus (from : CPUSet) (cnt : Z) (options : list Option_) : res CPUSet * CPUSet :=
  allocateCpus from (csize from - cnt) options.
End interface.
