(* ===== verification/CpuAllocFacts.v ===== *)
(** * Correctness of the CPU allocator

    Every step of an allocation moves CPUs from the set to the result and
    reduces the count by as many, whatever the order of preference; on online
    CPUs an allocation gives exactly the number asked for. *)

From S2P Require Import Prelude GoStrings MemNodes CpuTree CpuOrder CpuResizeFacts CpuAlloc.

Open Scope string_scope.
Open Scope Z_scope.

(** ** Lists of disjoint sets *)

Fixpoint disjoint_sets (l : list CPUSet) : Prop :=
  match l with
  | [] => True
  | x :: l' => Forall (λ y, x ## y) l' ∧ disjoint_sets l'
  end.

Lemma disjoint_sets_perm l l' : l ≡ₚ l' → disjoint_sets l → disjoint_sets l'.
Proof.
  induction 1; simpl; rewrite ?Forall_cons; auto.
  - intros [Hx ?]. split; [|auto]. revert Hx. by apply Permutation_Forall.
  - intros ([? ?] & ? & ?). split_and!; auto.
Qed.

#[export] Instance disjoint_sets_proper : Proper ((≡ₚ) ==> iff) disjoint_sets.
Proof. intros l l' Hl. split; apply disjoint_sets_perm; [done|by symmetry]. Qed.

Lemma disjoint_sets_app l l' :
  disjoint_sets (app l l') ↔
  disjoint_sets l ∧ disjoint_sets l' ∧ (∀ x y, x ∈ l → y ∈ l' → x ## y).
Proof.
  induction l as [|x l IH]; simpl; [set_solver|]. rewrite IH, Forall_app, !Forall_forall.
  split; [|set_solver]. intros ((H1 & H2) & H3 & H4 & H5). split_and!; auto.
  intros y z [->|?]%elem_of_cons ?; auto.
Qed.

(** Sets under a map, of elements that are pairwise different. *)
Lemma disjoint_sets_fmap {A} (f : A → CPUSet) (l : list A) :
  NoDup l → (∀ x y, x ∈ l → y ∈ l → x ≠ y → f x ## f y) → disjoint_sets (f <$> l).
Proof.
  induction 1 as [|x l Hx Hl IH]; simpl; intros Hd; [done|]. split; [|apply IH; set_solver].
  rewrite Forall_fmap. apply Forall_forall. intros y Hy. apply Hd; set_solver.
Qed.

Lemma disjoint_sets_omap {A} (f : A → CPUSet) (g : A → option CPUSet) (l : list A) :
  (∀ x c, g x = Some c → c ⊆ f x) → disjoint_sets (f <$> l) → disjoint_sets (omap g l).
Proof.
  intros Hg. induction l as [|x l IH]; simpl; [done|]. intros [Hx Hl].
  destruct (g x) as [c|] eqn:Hc; simpl; [|by apply IH]. split; [|by apply IH].
  apply Forall_forall. intros y (z & Hz & Hy)%list_elem_of_omap.
  rewrite Forall_fmap, Forall_forall in Hx. specialize (Hx z Hz). simpl in Hx.
  specialize (Hg _ _ Hc) as Hcx. specialize (Hg _ _ Hy) as Hyz. clear -Hx Hcx Hyz. set_solver.
Qed.

(** ** Steps of an allocation *)

(** [a'] is [a] after taking some of the CPUs it may take. *)
Definition takes (a a' : allocatorHelper) : Prop :=
  ∃ X, X ⊆ h_from a ∧ csize X ≤ h_cnt a ∧ a' = take_set X a.

(** Disjoint sets that are still there. *)
Definition available (csets : list CPUSet) (a : allocatorHelper) : Prop :=
  disjoint_sets csets ∧ Forall (λ c, c ⊆ h_from a) csets.

Lemma take_set_empty a : take_set ∅ a = a.
Proof. destruct a. unfold take_set; simpl. rewrite csize_empty. f_equal; [set_solver|lia|set_solver]. Qed.

Lemma take_set_union X Y a : X ## Y → take_set Y (take_set X a) = take_set (X ∪ Y) a.
Proof.
  intros Hd. unfold take_set; simpl. rewrite csize_union_disjoint by done.
  f_equal; [set_solver|lia|set_solver].
Qed.

Lemma takes_refl a : 0 ≤ h_cnt a → takes a a.
Proof. intros ?. exists ∅. rewrite take_set_empty. split_and!; [set_solver|by rewrite csize_empty|done]. Qed.

Lemma takes_trans a b c : takes a b → takes b c → takes a c.
Proof.
  intros (X & HX & HcX & ->) (Y & HY & HcY & ->). simpl in *.
  assert (X ## Y) as Hd by (clear -HY; set_solver).
  exists (X ∪ Y). rewrite take_set_union by done. rewrite csize_union_disjoint by done.
  split_and!; [clear -HX HY; set_solver|lia|done].
Qed.

Lemma takes_set X a : X ⊆ h_from a → csize X ≤ h_cnt a → takes a (take_set X a).
Proof. intros ??. by exists X. Qed.

Lemma takes_cnt a a' : takes a a' → 0 ≤ h_cnt a'.
Proof. intros (X & ? & ? & ->). simpl. lia. Qed.

Lemma takes_prefer a a' : takes a a' → h_prefer a' = h_prefer a.
Proof. by intros (X & ? & ? & ->). Qed.

Lemma takes_from a a' : takes a a' → h_from a' ⊆ h_from a.
Proof. intros (X & ? & ? & ->). simpl. set_solver. Qed.

(** Taking part of the first set leaves the others. *)
Lemma available_take X c csets a :
  X ⊆ c → available (c :: csets) a → available csets (take_set X a).
Proof.
  intros HX [[Hd Hcs] Hf%Forall_cons]. destruct Hf as [Hc Hf]. split; [done|].
  rewrite Forall_forall in Hf, Hd |- *. intros y Hy. simpl.
  specialize (Hf y Hy). specialize (Hd y Hy). simpl in Hd. clear -HX Hf Hd. set_solver.
Qed.

Lemma available_tail c csets a : available (c :: csets) a → available csets a.
Proof. intros [[_ ?] [_ ?]%Forall_cons]. by split. Qed.

Lemma available_head c csets a : available (c :: csets) a → c ⊆ h_from a.
Proof. by intros [_ [? _]%Forall_cons]. Qed.

Lemma take_sets_takes csets a : 0 ≤ h_cnt a → available csets a → takes a (take_sets csets a).
Proof.
  revert a. induction csets as [|c csets IH]; intros a Hn Ha; simpl; [by apply takes_refl|].
  case_bool_decide as Hc; [|by eapply IH, available_tail].
  assert (takes a (take_set c a)) as Ht by (apply takes_set; [by eapply available_head|done]).
  case_bool_decide; [done|]. eapply takes_trans; [exact Ht|].
  apply IH; [by eapply takes_cnt|by eapply available_take].
Qed.

Lemma take_clusters_takes csets a : 0 ≤ h_cnt a → available csets a → takes a (take_clusters csets a).
Proof.
  revert a. induction csets as [|c csets IH]; intros a Hn Ha; simpl; [by apply takes_refl|].
  case_bool_decide as Hc; [by apply takes_refl|].
  assert (takes a (take_set c a)) as Ht by (apply takes_set; [by eapply available_head|lia]).
  case_bool_decide; [done|]. eapply takes_trans; [exact Ht|].
  apply IH; [by eapply takes_cnt|by eapply available_take].
Qed.

(** Threads are taken one by one until nothing more is needed. *)
Lemma take_threads_takes ids a : 0 < h_cnt a → NoDup ids → (∀ id, id ∈ ids → id ∈ h_from a) →
  takes a (take_threads ids a) ∧
  h_cnt (take_threads ids a) = Z.max 0 (h_cnt a - Z.of_nat (length ids)).
Proof.
  intros Hn Hnd. revert a Hn. induction Hnd as [|id ids Hid Hnd IH]; intros a Hn Hf; simpl.
  { split; [apply takes_refl; lia|lia]. }
  assert (takes a (take_set {[id]} a)) as Ht.
  { apply takes_set; [|rewrite csize_singleton; lia]. specialize (Hf id). set_solver. }
  rewrite csize_singleton. case_bool_decide as Hc; [split; [done|simpl; rewrite csize_singleton; lia]|].
  destruct (IH (take_set {[id]} a)) as [Ht' Hc'].
  - simpl. rewrite csize_singleton. lia.
  - intros x Hx. simpl. specialize (Hf x). set_solver.
  - split; [by eapply takes_trans|]. rewrite Hc'. simpl. rewrite csize_singleton. lia.
Qed.

(** ** Topology *)

(** Packages, clusters and cache groups do not overlap, and CPUs are threads of
    the same core or of different ones. *)
Record topology_ok (sys : CpuSys) (topo : topologyCache) : Prop := {
  ok_PackageIDs : NoDup (cs_PackageIDs sys);
  ok_pkg : ∀ i j, i ∈ cs_PackageIDs sys → j ∈ cs_PackageIDs sys → i ≠ j →
    cpus_at (tc_pkg topo) i ## cpus_at (tc_pkg topo) j;
  ok_CPUIDs : NoDup (cs_CPUIDs sys);
  ok_core : ∀ i j, i ∈ cs_CPUIDs sys → j ∈ cs_CPUIDs sys →
    cpus_at (tc_core topo) i = cpus_at (tc_core topo) j ∨
    cpus_at (tc_core topo) i ## cpus_at (tc_core topo) j;
  ok_clusters : disjoint_sets (cl_cpus <$> tc_clusters topo);
  ok_groups : disjoint_sets (cg_cpus <$> tc_cacheGroups topo);
  ok_group_cpus : Forall (λ g, cg_cpus g ≠ ∅) (tc_cacheGroups topo);
}.

Section steps.
Context `{GoRuntime} (sys : CpuSys) (topo : topologyCache) (Hok : topology_ok sys topo).

Lemma elem_of_sort_slice {A} (less : A → A → bool) l x : x ∈ sort_slice less l ↔ x ∈ l.
Proof. apply elem_of_sort_func. Qed.

Lemma NoDup_sort_slice {A} (less : A → A → bool) l : NoDup l → NoDup (sort_slice less l).
Proof. unfold sort_slice. by rewrite sort_func_perm. Qed.

Lemma takeIdlePackages_takes a : 0 ≤ h_cnt a → takes a (takeIdlePackages sys topo a).
Proof.
  intros Hn. apply take_sets_takes; [done|]. split.
  - apply disjoint_sets_fmap.
    + apply NoDup_sort_slice, NoDup_filter, Hok.
    + intros i j [_ Hi]%elem_of_sort_slice%list_elem_of_filter
        [_ Hj]%elem_of_sort_slice%list_elem_of_filter Hij.
      pose proof (ok_pkg _ _ Hok i j Hi Hj Hij) as Hd. clear -Hd. unfold package_cpus.
      case_bool_decide; set_solver.
  - rewrite Forall_fmap. apply Forall_forall.
    intros i [Hi _]%elem_of_sort_slice%list_elem_of_filter. simpl.
    apply bool_decide_eq_true in Hi. clear -Hi. set_solver.
Qed.

Lemma takeIdleCores_takes a : 0 ≤ h_cnt a → takes a (takeIdleCores sys topo a).
Proof.
  intros Hn. apply take_sets_takes; [done|].
  assert (∀ i, idle_core sys topo a i = true →
    core_cpus sys topo i ⊆ h_from a ∧ head (CPUSet_List (core_cpus sys topo i)) = Some i) as Hidle.
  { intros i. unfold idle_core. destruct (CPUSet_List _) as [|x l]; [done|].
    intros [Hc%bool_decide_eq_true Hx%bool_decide_eq_true]%andb_true_iff.
    split; [clear -Hc; set_solver|simpl; by rewrite Hx]. }
  split.
  - apply disjoint_sets_fmap.
    + apply NoDup_sort_slice, NoDup_filter, Hok.
    + intros i j [Hi Hi']%elem_of_sort_slice%list_elem_of_filter
        [Hj Hj']%elem_of_sort_slice%list_elem_of_filter Hij.
      destruct (Hidle i Hi) as [_ Hhi], (Hidle j Hj) as [_ Hhj]. unfold core_cpus in *.
      destruct (ok_core _ _ Hok i j Hi' Hj') as [He|Hd]; [|clear -Hd; set_solver].
      exfalso. rewrite He in Hhi. congruence.
  - rewrite Forall_fmap. apply Forall_forall.
    intros i [Hi _]%elem_of_sort_slice%list_elem_of_filter. by apply Hidle.
Qed.

Lemma picked_clusters_available a : available (picked_clusters sys topo a).*2 a.
Proof.
  assert (∀ c u, pickIdle sys topo a c = (true, u) → u ⊆ cl_cpus c ∧ u ⊆ h_from a) as Hpick.
  { intros c u. unfold pickIdle. repeat case_match; try done. case_bool_decide; [done|].
    intros [= <-]. set_solver. }
  unfold picked_clusters. rewrite list_fmap_omap. split.
  - eapply (disjoint_sets_omap cl_cpus); [|apply Hok]. intros c u. simpl.
    destruct (pickIdle _ _ _ _) as [[] usable] eqn:Hp; simpl; [|done].
    case_bool_decide; [done|]. intros [= <-]. by apply Hpick in Hp as [? _].
  - apply Forall_forall. intros u (c & Hc & Hu)%list_elem_of_omap. simpl in Hu.
    destruct (pickIdle _ _ _ _) as [[] usable] eqn:Hp; simpl in Hu; [|done].
    case_bool_decide; [done|]. injection Hu as <-. by apply Hpick in Hp as [_ ?].
Qed.

Lemma takeIdleClusters_takes a : 0 ≤ h_cnt a → takes a (takeIdleClusters sys topo a).
Proof.
  intros Hn. unfold takeIdleClusters. case_bool_decide; [by apply takes_refl|].
  assert (available (sortCPUClusters sys topo a).*2 a) as Ha.
  { destruct (picked_clusters_available a) as [Hd Hf]. unfold available, sortCPUClusters.
    by rewrite !sort_func_perm. }
  destruct (sortCPUClusters sys topo a) as [|[c cset] cs]; [by apply takes_refl|].
  case_bool_decide; [apply takes_set; [by eapply available_head|lia]|].
  case_bool_decide; [by apply takes_refl|]. by apply take_clusters_takes.
Qed.

(** The CPUs of a machine that can be allocated. *)
Definition online : CPUSet := list_to_set (cs_CPUIDs sys) ∖ cs_OfflineCPUs sys.

Lemma takeIdleThreads_takes a : 0 < h_cnt a →
  takes a (takeIdleThreads sys topo a) ∧
  h_cnt (takeIdleThreads sys topo a) = Z.max 0 (h_cnt a - csize (h_from a ∩ online)).
Proof.
  intros Hn. unfold takeIdleThreads. set (cores := pickIds _ _).
  assert (NoDup cores) as Hnd by apply NoDup_filter, Hok.
  assert (∀ id, id ∈ cores ↔ id ∈ h_from a ∩ online) as Hin.
  { intros id. unfold cores, pickIds, online. rewrite list_elem_of_filter, bool_decide_eq_true. set_solver. }
  assert (Z.of_nat (length cores) = csize (h_from a ∩ online)) as Hlen.
  { rewrite <- csize_list by done. f_equal. apply set_eq. intros id. by rewrite elem_of_list_to_set. }
  destruct (take_threads_takes (sort_slice (by_threads sys topo a) cores) a Hn) as [Ht Hc].
  - by apply NoDup_sort_slice.
  - intros id Hid%elem_of_sort_slice%Hin. set_solver.
  - split; [done|]. rewrite Hc, <- Hlen. unfold sort_slice. by rewrite sort_func_perm.
Qed.

(** An optional step. *)
Lemma takes_if (b : bool) (f : allocatorHelper → allocatorHelper) a :
  0 ≤ h_cnt a → takes a (f a) → takes a (if b then f a else a).
Proof. destruct b; [done|]. intros. by apply takes_refl. Qed.

Lemma takes_enough a b :
  takes a b → h_from a ⊆ online → h_cnt a ≤ csize (h_from a) → h_cnt b ≤ csize (h_from b ∩ online).
Proof.
  intros (X & HX & HcX & ->) Hon Hn. simpl.
  replace ((h_from a ∖ X) ∩ online) with (h_from a ∖ X) by (clear -Hon; set_solver).
  rewrite csize_difference by done. lia.
Qed.

(** The whole sequence of steps, given that the one for cache groups is one. *)
Lemma allocate_with_takes g a :
  (∀ b, takes a b → ∃ c, g b = Ok c ∧ takes b c) → 0 ≤ h_cnt a →
  ∃ a', allocate_with sys topo g a = Ok (if bool_decide (h_cnt a' = 0) then h_result a' else ∅, a') ∧
    takes a a' ∧ (h_from a ⊆ online → h_cnt a ≤ csize (h_from a) → h_cnt a' = 0).
Proof.
  intros Hg Hn. unfold allocate_with.
  set (a1 := if has_flag a AllocIdlePackages then _ else a).
  assert (takes a a1) as H1 by (apply takes_if; [done|by apply takeIdlePackages_takes]).
  pose proof (takes_cnt _ _ H1) as Hn1.
  set (a2 := if bool_decide (Z.of_nat _ > 1) then _ else a1).
  assert (takes a a2) as H2.
  { eapply takes_trans; [exact H1|]. unfold a2. case_bool_decide; [|by apply takes_refl].
    apply takes_if; [done|by apply takeIdleClusters_takes]. }
  pose proof (takes_cnt _ _ H2) as Hn2. clearbody a1 a2. clear a1 H1 Hn1.
  assert (∃ a3, (if bool_decide (h_cnt a2 > 0) && has_flag a2 AllocCacheGroups then g a2 else Ok a2) = Ok a3
    ∧ takes a a3) as (a3 & -> & H3).
  { destruct (_ && _); [|by exists a2]. destruct (Hg a2 H2) as (c & -> & Hc).
    exists c. split; [done|by eapply takes_trans]. }
  simpl. pose proof (takes_cnt _ _ H3) as Hn3.
  set (a4 := if _ && has_flag a3 AllocIdleCores then _ else a3).
  assert (takes a a4) as H4.
  { eapply takes_trans; [exact H3|]. apply takes_if; [done|by apply takeIdleCores_takes]. }
  pose proof (takes_cnt _ _ H4) as Hn4. clearbody a4. clear a2 a3 H2 Hn2 H3 Hn3.
  destruct (bool_decide_reflect (h_cnt a4 > 0)) as [Hc|Hc].
  - destruct (takeIdleThreads_takes a4) as [Ht Hct]; [lia|].
    eexists. split; [reflexivity|]. split; [by eapply takes_trans|].
    intros Hon Hle. rewrite Hct. pose proof (takes_enough _ _ H4 Hon Hle). lia.
  - eexists. split; [reflexivity|]. split; [done|]. intros; lia.
Qed.

(** Part of a cache group. *)
Lemma allocate_part_spec prefer from cnt : 0 ≤ cnt →
  ∃ use, allocate_part sys topo prefer from cnt = Ok use ∧ use ⊆ from ∧ csize use ≤ cnt ∧
    (from ⊆ online → cnt ≤ csize from → csize use = cnt).
Proof.
  intros Hn. unfold allocate_part.
  destruct (allocate_with_takes Ok (MkHelper AllocIdleCores from prefer cnt ∅)) as (a' & -> & Ht & Hon); [|done|].
  { intros b Hb. exists b. split; [done|]. by eapply takes_refl, takes_cnt. }
  simpl in Hon. destruct Ht as (X & HX & HcX & ->). simpl in *. eexists. split; [reflexivity|].
  case_bool_decide as Hc; rewrite ?(left_id_L ∅ (∪)).
  - split_and!; [done|done|lia].
  - split_and!; [set_solver|done|]. intros ? ?. specialize (Hon ltac:(done) ltac:(done)). lia.
Qed.

(** ** Cache groups *)

Lemma pickGroups_spec a g v u :
  pickGroups sys topo a g = (v, u) → v ≠ pickIgnore →
  u ⊆ cg_cpus g ∧ u ⊆ h_from a ∧ (u = cg_cpus g ∖ cs_OfflineCPUs sys ↔ v = pickPrefer).
Proof.
  unfold pickGroups. repeat case_match; repeat case_bool_decide; intros [= <- <-] ?; try done;
    (split_and!; [set_solver|set_solver|naive_solver]).
Qed.

(** The groups picked, preferred ones first. *)
Lemma picked_groups_perm a :
  app (picked_groups sys topo a pickPrefer) (picked_groups sys topo a pickUsable) ≡ₚ
  omap (λ g, match pickGroups sys topo a g with
             | (pickIgnore, _) => None
             | (_, cset) => Some (g, cset)
             end) (tc_cacheGroups topo).
Proof.
  unfold picked_groups. induction (tc_cacheGroups topo) as [|g gs IH]; simpl; [done|].
  destruct (pickGroups sys topo a g) as [[] u]; simpl; [by rewrite IH| |done].
  rewrite <- IH. by rewrite <- Permutation_middle.
Qed.

Lemma picked_groups_available a :
  available (app (picked_groups sys topo a pickPrefer).*2 (picked_groups sys topo a pickUsable).*2) a.
Proof.
  unfold available. rewrite <- fmap_app, picked_groups_perm, list_fmap_omap. split.
  - eapply (disjoint_sets_omap cg_cpus); [|apply Hok]. intros g u. simpl.
    destruct (pickGroups _ _ _ _) as [[] c] eqn:Hp; simpl; intros [= <-]; by apply pickGroups_spec in Hp as [? _].
  - apply Forall_forall. intros u (g & Hg & Hu)%list_elem_of_omap. simpl in Hu.
    destruct (pickGroups _ _ _ _) as [[] c] eqn:Hp; simpl in Hu; simplify_eq;
      by apply pickGroups_spec in Hp as (_ & ? & _).
Qed.

(** The sorter never divides by zero and only orders the groups. *)
Lemma sortCacheGroups_spec a : 1 < Z.of_nat (length (tc_cacheGroups topo)) →
  ∃ s, sortCacheGroups sys topo a = Ok s ∧
    s_prefer s ≡ₚ picked_groups sys topo a pickPrefer ∧ s_usable s ≡ₚ picked_groups sys topo a pickUsable ∧
    s_preferPkg s = count_cpus (group_pkgs (picked_groups sys topo a pickPrefer)) ∧
    s_usablePkg s = count_cpus (group_pkgs (picked_groups sys topo a pickUsable)).
Proof.
  intros Hl. unfold sortCacheGroups. pose proof (ok_group_cpus _ _ Hok) as Hne.
  destruct (tc_cacheGroups topo) as [|g gs] eqn:Hg; [simpl in Hl; lia|].
  apply Forall_cons in Hne as [Hne _].
  rewrite bool_decide_eq_false_2
    by (intros Hs; apply Hne, leibniz_equiv, size_empty_inv; unfold csize in Hs; lia).
  eexists. split; [reflexivity|]. simpl. split_and!; try done; apply sort_func_perm.
Qed.

(** Full idle groups and part of one. *)
Lemma take_idle_groups_takes groups rest a : 0 ≤ h_cnt a → available (app groups.*2 rest) a →
  ∃ a', take_idle_groups sys topo groups a = Ok a' ∧ takes a a' ∧ available rest a'.
Proof.
  revert a. induction groups as [|[g c] groups IH]; intros a Hn Ha; simpl.
  { exists a. split_and!; [done|by apply takes_refl|done]. }
  case_bool_decide.
  { exists a. split_and!; [done|by apply takes_refl|].
    destruct Ha as [[_ Hd]%disjoint_sets_app Hf]. split; [apply Hd|].
    by apply Forall_app in Hf as [_ ?]. }
  simpl in Ha. case_bool_decide as Hc.
  - destruct (IH (take_set c a)) as (a' & -> & Ht & Hr); [simpl; lia|by eapply available_take|].
    exists a'. split_and!; [done| |done]. eapply takes_trans; [|exact Ht].
    apply takes_set; [by eapply available_head|done].
  - destruct (allocate_part_spec (h_prefer a) c (h_cnt a) Hn) as (use & -> & Hu & Hcu & _). simpl.
    destruct (IH (take_set use a)) as (a' & -> & Ht & Hr); [simpl; lia|by eapply available_take|].
    exists a'. split_and!; [done| |done]. eapply takes_trans; [|exact Ht].
    apply takes_set; [etrans; [done|by eapply available_head]|done].
Qed.

Lemma chosen_groups_prefix pkg usable : chosen_groups pkg usable `prefix_of` usable.
Proof.
  induction usable as [|[g c] usable IH]; simpl; [done|].
  case_bool_decide; [apply prefix_nil|by apply prefix_cons].
Qed.

Lemma available_prefix l l' a : l `prefix_of` l' → available l' a → available l a.
Proof.
  intros [k ->] [Hd Hf]. apply disjoint_sets_app in Hd as [Hd _]. by apply Forall_app in Hf as [? _].
Qed.

Lemma available_elem c csets a : c ∈ csets → available csets a → c ⊆ h_from a.
Proof. intros Hc [_ Hf]. rewrite Forall_forall in Hf. by apply Hf. Qed.

Lemma groupsBySize_spec groups n l : groupsBySize groups !! n = Some l →
  l ≠ [] ∧ ∀ gu, gu ∈ l → gu ∈ groups ∧ csize gu.2 = n.
Proof.
  unfold groupsBySize. revert n l. induction groups as [|gu groups IH] using rev_ind; intros n l; [done|].
  rewrite fold_left_app. simpl. set (m := fold_left _ groups _) in *.
  destruct (decide (n = csize gu.2)) as [->|Hne].
  - rewrite lookup_insert, decide_True by done. intros [= <-].
    split; [intros []%app_eq_nil; done|]. intros x [Hx| ->%list_elem_of_singleton]%elem_of_app; [|set_solver].
    destruct (m !! csize gu.2) as [l|] eqn:Hm; [|by apply not_elem_of_nil in Hx].
    destruct (IH _ _ Hm) as [_ Hl]. apply Hl in Hx as [??]. set_solver.
  - rewrite lookup_insert_ne by done. intros [? Hl]%IH. split; [done|].
    intros x Hx%Hl. set_solver.
Qed.

(** No number of groups is ever less than the one to begin with, which is
    zero: the strategy of a single size never finds any. *)
Lemma single_size_never cnt bySize : 0 ≤ cnt → single_size cnt bySize = (0, 0).
Proof.
  intros Hn. unfold single_size. induction bySize as [|[size groups] l IH]; simpl; [done|].
  case_bool_decide as Hs; [|done]. destruct Hs as (Hs & Hlt & _).
  pose proof (Z.quot_pos cnt size Hn ltac:(lia)). rewrite bool_decide_eq_false_2 by lia. done.
Qed.

(** If the groups have enough CPUs, the groups before the last one needed are
    taken, and the last one if it is taken completely. *)
Lemma groups_needed_spec cnt groups k t : t < cnt →
  (groups_needed cnt groups k t).2 < cnt ∨
  ∃ j g c, (groups_needed cnt groups k t).1 = (k + S j)%nat ∧ groups !! j = Some (g, c) ∧
    ∀ a, h_cnt a = cnt - t → available groups.*2 a →
      takes a (take_used_groups (take (S j) groups) a) ∧
      (h_cnt (take_used_groups (take (S j) groups) a) = 0 ∨
       0 < h_cnt (take_used_groups (take (S j) groups) a) ≤ csize c ∧
       c ⊆ h_from (take_used_groups (take (S j) groups) a)).
Proof.
  revert k t. induction groups as [|[g c] groups IH]; intros k t Ht; simpl; [by left|].
  case_bool_decide as Hc.
  - right. exists 0%nat, g, c. split_and!; [simpl; lia|done|]. intros a Ha Hav. simpl.
    apply available_head in Hav as Hcf. case_bool_decide as Hlt.
    + split; [apply takes_refl; lia|]. right. split; [lia|done].
    + split; [apply takes_set; [done|lia]|]. left. simpl. lia.
  - destruct (IH (S k) (t + csize c)) as [?|(j & g' & c' & Hk & Hj & Hspec)]; [lia|by left|right].
    exists (S j), g', c'. split_and!; [lia|done|]. intros a Ha Hav. simpl in Hav.
    replace (take (S (S j)) ((g, c) :: groups)) with ((g, c) :: take (S j) groups) by done.
    simpl take_used_groups. rewrite bool_decide_eq_false_2 by lia.
    destruct (Hspec (take_set c a)) as [Ht' Hor]; [simpl; lia|by eapply available_take|].
    split; [|done]. eapply takes_trans; [|exact Ht']. apply takes_set; [by eapply available_head|lia].
Qed.

Lemma take_any_groups_takes chosen a0 a :
  takes a0 a → 0 < h_cnt a → available chosen.*2 a → ∃ a', take_any_groups sys topo chosen a0 a = Ok a' ∧ takes a0 a'.
Proof.
  intros H0 Hn Ha. unfold take_any_groups.
  assert (takes a0 a0) as Hrefl by (apply takes_refl; destruct H0 as (X & _ & ? & _); pose proof (csize_nonneg X); lia).
  destruct (groups_needed_spec (h_cnt a) chosen 0 0 Hn) as [Hlt|(j & g & c & Hj & Hc & Hspec)];
    destruct (groups_needed _ _ _ _) as [grpCnt cpuCnt]; simpl in *.
  { rewrite bool_decide_eq_true_2 by done. eauto. }
  case_bool_decide; [by eauto|]. subst grpCnt. destruct (Hspec a) as [Ht Hor]; [lia|done|].
  set (a1 := take_used_groups _ a) in *. clearbody a1.
  assert (takes a0 a1) as Ht1 by exact (takes_trans _ _ _ H0 Ht).
  destruct Hor as [Hz|[Hc1 Hf]].
  - rewrite bool_decide_eq_false_2 by lia. simpl. case_bool_decide; eauto.
  - rewrite bool_decide_eq_true_2 by lia. simpl. rewrite Hc.
    destruct (allocate_part_spec (h_prefer a1) c (h_cnt a1)) as (use & -> & Hu & Hcu & _); [lia|]. simpl.
    case_bool_decide; [by eauto|]. eexists. split; [done|]. eapply takes_trans; [exact Ht1|].
    apply takes_set; [by etrans|done].
Qed.

Lemma take_usable_groups_takes pkg usable a0 a :
  takes a0 a → 0 < h_cnt a → available usable.*2 a →
  ∃ a', take_usable_groups sys topo pkg usable a0 a = Ok a' ∧ takes a0 a'.
Proof.
  intros H0 Hn Ha. unfold take_usable_groups.
  assert (available (chosen_groups pkg usable).*2 a) as Hch.
  { eapply available_prefix; [|exact Ha]. destruct (chosen_groups_prefix pkg usable) as [k Hk].
    exists k.*2. by rewrite Hk, fmap_app at 1. }
  destruct (groupsBySize _ !! h_cnt a) as [[|[g c] l]|] eqn:Hs.
  - by apply groupsBySize_spec in Hs as [? _].
  - apply groupsBySize_spec in Hs as [_ Hs]. destruct (Hs (g, c)) as [Hin Hc]; [by constructor|].
    eexists. split; [done|]. eapply takes_trans; [exact H0|]. apply takes_set; [|simpl in Hc; lia].
    eapply available_elem; [|exact Hch]. apply list_elem_of_fmap. by exists (g, c).
  - rewrite single_size_never by lia. simpl. by apply take_any_groups_takes.
Qed.

Lemma takeCacheGroups_takes a : 0 ≤ h_cnt a → ∃ a', takeCacheGroups sys topo a = Ok a' ∧ takes a a'.
Proof.
  intros Hn. pose proof (takes_refl a Hn) as Hrefl. unfold takeCacheGroups.
  case_bool_decide; [by eauto|]. case_bool_decide; [by eauto|].
  destruct (sortCacheGroups_spec a) as (s & -> & Hp & Hu & _ & _); [lia|]. simpl.
  destruct (match s_prefer s with [] => _ | _ => _ end) as [[chosenPkg preferPkgCPUs] usablePkgCPUs].
  case_bool_decide; [by eauto|].
  destruct (take_idle_groups_takes (s_prefer s) (s_usable s).*2 a Hn) as (a' & -> & Ht & Hav).
  { unfold available. rewrite Hp, Hu. apply picked_groups_available. }
  simpl. case_bool_decide; [by eauto|]. apply take_usable_groups_takes; [done|lia|done].
Qed.
End steps.

(** ** The whole allocation *)

Lemma allocate_takes `{GoRuntime} sys topo a : topology_ok sys topo → 0 ≤ h_cnt a →
  ∃ a', allocate sys topo a = Ok (if bool_decide (h_cnt a' = 0) then h_result a' else ∅, a') ∧
    takes a a' ∧ (h_from a ⊆ online sys → h_cnt a ≤ csize (h_from a) → h_cnt a' = 0).
Proof.
  intros Hok Hn. apply allocate_with_takes; [done| |done].
  intros b Hb%takes_cnt. by apply takeCacheGroups_takes.
Qed.

Section interface.
Context `{GoRuntime} (sys : option CpuSys) (topo : topologyCache).

(** A sound topology, if there is one, and a set of CPUs that are online. *)
Definition allocatable (from : CPUSet) : Prop :=
  match sys with
  | Some sys => topology_ok sys topo ∧ from ⊆ online sys
  | None => True
  end.

Lemma takeAny_takes a : 0 ≤ h_cnt a → h_cnt a ≤ csize (h_from a) →
  ∃ a', takeAny a = Ok a' ∧ takes a a' ∧ h_cnt a' = 0.
Proof.
  intros Hn Hle. unfold takeAny. set (cpus := CPUSet_List (h_from a)).
  assert (NoDup cpus) as Hnd.
  { unfold cpus, CPUSet_List, slices_Sort. rewrite insertion_sort_perm. apply NoDup_elements. }
  assert (Z.of_nat (length cpus) = csize (h_from a)) as Hlen.
  { rewrite <- csize_list by done. f_equal. apply set_eq. intros x.
    unfold cpus. by rewrite elem_of_list_to_set, elem_of_CPUSet_List. }
  rewrite bool_decide_eq_true_2, bool_decide_eq_false_2 by lia.
  set (X := list_to_set (take (Z.to_nat (h_cnt a)) cpus) : CPUSet).
  assert (csize X = h_cnt a) as HX.
  { unfold X. rewrite csize_list by (eapply sublist_NoDup; [done|apply sublist_take]).
    rewrite length_take. lia. }
  eexists. split; [done|]. split; [|done]. exists X. split_and!; [|lia|].
  - intros x Hx%elem_of_list_to_set. eapply elem_of_CPUSet_List.
    by eapply elem_of_sublist, sublist_take.
  - unfold take_set. f_equal. lia.
Qed.

Lemma allocate_cpus_spec a : allocatable (h_from a) → 0 ≤ h_cnt a → h_cnt a ≤ csize (h_from a) →
  ∃ X, allocate_cpus sys topo a = Ok (h_result a ∪ X, take_set X a) ∧ X ⊆ h_from a ∧ csize X = h_cnt a.
Proof.
  unfold allocatable, allocate_cpus. intros Hal Hn Hle.
  assert (∀ a', takes a a' → h_cnt a' = 0 → ∃ X,
    (if bool_decide (h_cnt a' = 0) then h_result a' else ∅, a') = (h_result a ∪ X, take_set X a) ∧
    X ⊆ h_from a ∧ csize X = h_cnt a) as Hres.
  { intros a' (X & HX & Hc & ->) Hz. exists X. rewrite bool_decide_eq_true_2 by done.
    split_and!; [done|done|simpl in Hz; lia]. }
  destruct sys as [s|].
  - destruct Hal as [Hok Hon]. destruct (allocate_takes s topo a Hok Hn) as (a' & -> & Ht & Hz).
    destruct (Hres a' Ht (Hz Hon Hle)) as (X & -> & ?). by exists X.
  - destruct (takeAny_takes a Hn Hle) as (a' & -> & Ht & Hz). simpl.
    destruct (Hres a' Ht Hz) as (X & -> & ?). by exists X.
Qed.

Lemma allocateCpus_spec from cnt options : allocatable from → 0 ≤ cnt → cnt ≤ csize from →
  ∃ result, allocateCpus sys topo from cnt options = (Ok result, from ∖ result) ∧
    result ⊆ from ∧ csize result = cnt.
Proof.
  intros Hal Hn Hle. unfold allocateCpus. rewrite bool_decide_eq_false_2 by lia.
  case_bool_decide as Hc.
  { exists from. by rewrite difference_diag_L. }
  set (a := fold_left _ _ _). clearbody a.
  destruct (allocate_cpus_spec (MkHelper (h_flags a) from (h_prefer a) cnt ∅)) as (X & -> & HX & HcX); [done..|].
  exists X. simpl. by rewrite (left_id_L ∅ (∪)).
Qed.

Lemma ReleaseCpus_keeps from cnt options : allocatable from → 0 ≤ cnt ≤ csize from →
  ∃ released, ReleaseCpus sys topo from cnt options = (Ok released, from ∖ released) ∧
    released ⊆ from ∧ csize (from ∖ released) = cnt.
Proof.
  intros Hal Hn. unfold ReleaseCpus.
  destruct (allocateCpus_spec from (csize from - cnt) options) as (X & -> & HX & HcX); [done|lia|lia|].
  exists X. split_and!; [done..|]. rewrite csize_difference by done. lia.
Qed.
End interface.

(** Whatever CPUs the set holds, AllocateCpus returns exactly the number
    asked for or none at all; what it returns comes from the set and is no
    longer in it, and at most that number of CPUs leaves the set. *)
Theorem AllocateCpus_safe `{GoRuntime} sys topo from cnt options : topology_ok sys topo → 0 ≤ cnt ≤ csize from →
  ∃ result left, AllocateCpus (Some sys) topo from cnt options = (Ok result, left) ∧
    (result = ∅ ∨ csize result = cnt) ∧
    result ⊆ from ∧ left ⊆ from ∧ result ## left ∧ csize from - cnt ≤ csize left.
Proof.
  intros Hok Hn. unfold AllocateCpus, allocateCpus. rewrite bool_decide_eq_false_2 by lia.
  case_bool_decide as Hc.
  { exists from, ∅. rewrite csize_empty. split_and!; [done|by right|set_solver..|lia]. }
  set (a := fold_left _ _ _). clearbody a. simpl.
  destruct (allocate_takes sys topo (MkHelper (h_flags a) from (h_prefer a) cnt ∅)) as (a' & -> & Ht & _); [done|simpl; lia|].
  destruct Ht as (X & HX & HcX & ->). simpl in *. do 2 eexists. split; [reflexivity|].
  rewrite csize_difference by done. case_bool_decide; split_and!; try set_solver; try lia.
  - right. rewrite (left_id_L ∅ (∪)). lia.
Qed.

(** ** Examples *)

(** A machine with two packages of two cores with two threads each; every core
    has a cache of its own. *)
Section example.
Let cpus (l : list Z) : CPUSet := list_to_set l.

Definition example_with (offline : CPUSet) : CpuSys :=
  MkCpuSys [0; 1] [0; 1; 2; 3; 4; 5; 6; 7] offline (λ cpu, Z.quot cpu 4).

Definition example_sys : CpuSys := example_with ∅.

(** The same machine with CPUs 2 and 3 offline. *)
Definition example_offline : CpuSys := example_with {[2; 3]}.

Definition example_topo : topologyCache :=
  MkTopology (list_to_map [(0, cpus [0; 1; 2; 3]); (1, cpus [4; 5; 6; 7])])
    (list_to_map [(0, cpus [0; 1; 2; 3]); (1, cpus [4; 5; 6; 7])])
    (list_to_map [(0, cpus [0; 1]); (1, cpus [0; 1]); (2, cpus [2; 3]); (3, cpus [2; 3]);
                  (4, cpus [4; 5]); (5, cpus [4; 5]); (6, cpus [6; 7]); (7, cpus [6; 7])])
    (list_to_map [(PerformanceCore, cpus [0; 1; 2; 3; 4; 5; 6; 7])])
    (λ p, if bool_decide (p = PriorityNormal) then cpus [0; 1; 2; 3; 4; 5; 6; 7] else ∅)
    []
    [MkGroup 0 0 0 0 (cpus [0; 1]) PerformanceCore; MkGroup 1 0 0 0 (cpus [2; 3]) PerformanceCore;
     MkGroup 2 1 0 1 (cpus [4; 5]) PerformanceCore; MkGroup 3 1 0 1 (cpus [6; 7]) PerformanceCore].
End example.

(** Pairs of elements of a list, for checking relations by evaluation. *)
Lemma Forall_pairs {A} (R : A → A → Prop) (l : list A) :
  Forall (λ x, Forall (R x) l) l → ∀ x y, x ∈ l → y ∈ l → R x y.
Proof. rewrite Forall_forall. intros HR x y Hx Hy. specialize (HR x Hx). rewrite Forall_forall in HR. auto. Qed.

#[export] Instance disjoint_sets_dec l : Decision (disjoint_sets l).
Proof. induction l; simpl; apply _. Defined.

Lemma example_topology_ok offline : topology_ok (example_with offline) example_topo.
Proof.
  split.
  - apply (bool_decide_unpack _). by vm_compute.
  - apply (Forall_pairs (λ i j, i ≠ j → _)). apply (bool_decide_unpack _). by vm_compute.
  - apply (bool_decide_unpack _). by vm_compute.
  - apply (Forall_pairs (λ i j, _ i = _ j ∨ _ i ## _ j)). apply (bool_decide_unpack _). by vm_compute.
  - apply (bool_decide_unpack _). by vm_compute.
  - apply (bool_decide_unpack _). by vm_compute.
  - apply (bool_decide_unpack _). by vm_compute.
Qed.

Lemma AllocateCpus_safe_witness :
  ∃ result left, AllocateCpus (H := go_default) (Some example_offline) example_topo (list_to_set [0; 1; 2; 3]) 3 []
    = (Ok result, left) ∧ (result = ∅ ∨ csize result = 3) ∧ result ## left.
Proof.
  destruct (AllocateCpus_safe (H := go_default) example_offline example_topo (list_to_set [0; 1; 2; 3]) 3 [])
    as (result & left & He & Hr & _ & _ & Hd & _).
  - apply example_topology_ok.
  - split; [lia|]. by vm_compute.
  - exists result, left. split_and!; assumption.
Defined.

(** Allocating more CPUs than are online gives none and no error, yet CPUs 0
    and 1 have been removed from the set. *)
Lemma AllocateCpus_offline_lost :
  AllocateCpus (H := go_default) (Some example_offline) example_topo (list_to_set [0; 1; 2; 3]) 3 []
    = (Ok ∅, {[2; 3]}).
Proof. by vm_compute. Qed.
