(* ===== verification/CpuTopo.v ===== *)
(** * Topology lookups of the CPU allocator (pkg/cpuallocator/allocator.go)

    What a new allocator discovers from the system: packages, cores, clusters,
    cache groups and the priorities of CPUs. *)

From S2P Require Import Prelude GoStrings MemNodes CpuTree CpuOrder CpuResizeFacts CpuAlloc CpuAllocFacts.

Open Scope string_scope.
Open Scope Z_scope.

(** ** The system *)

(** Status of a power unit, from the SST library. *)
Record PunitStatus := MkPunit {
  pu_CPUs : CPUSet;
  pu_TF_Enabled : bool;
  pu_CP_Enabled : bool;
  pu_CP_Ordered : bool;
  pu_Clos : gmap Z Z;               (* proportional priority by CLOS *)
  pu_PP_Supported : bool;
  pu_PP_CurrentLevel : Z;
  pu_BF_Enabled : bool;
}.

(** What the discovery asks the system for, by CPU, package and die. *)
Record TopoSys := MkTopoSys {
  ts_sys : CpuSys;
  ts_PackageCPUSet : Z → CPUSet;
  ts_NodeIDs : list Z;
  ts_NodeCPUSet : Z → CPUSet;
  ts_ThreadCPUSet : Z → CPUSet;
  ts_OnlineCPUs : CPUSet;
  ts_DieIDs : Z → list Z;
  ts_DieCPUSet : Z → Z → CPUSet;
  ts_LogicalDieClusterIDs : Z → Z → list Z;
  ts_LogicalDieClusterCPUSet : Z → Z → Z → CPUSet;
  ts_CoreKinds : list Z;
  ts_CoreKindCPUs : Z → CPUSet;
  ts_CoreKind : Z → Z;
  ts_DieID : Z → Z;
  ts_NodeID : Z → Z;
  ts_CacheCount : Z → Z;
  ts_GetNthLevelCacheCPUSet : Z → Z → CPUSet;
  ts_BaseFrequency : Z → Z;
  ts_EPP : Z → Z;
  ts_SstClos : Z → Z;
  ts_SstInfo : Z → option (gmap Z PunitStatus);
  (** high priority CPUs by power unit, for a package and a performance level *)
  ts_PerfLevel : Z → option (Z → option (gmap Z CPUSet));
}.

Definition EPPUnknown : Z := 4.

(** CPUs by priority, an array of three lists in Go. *)
Abbreviation prio_lists := (CPUPriority → list Z).

(** The state of the loop over power units: priorities, whether SST is active
    and the performance levels once they are known. *)
Abbreviation sst_state := (gmap Z CPUPriority * bool * option (gmap Z CPUSet))%type.

Section topology.
Context `{GoRuntime} (sys : TopoSys).

Abbreviation pkgs := (cs_PackageIDs (ts_sys sys)).
Abbreviation online := (ts_OnlineCPUs sys).

Definition lookup_table (ids : list Z) (cpus : Z → CPUSet) : gmap Z CPUSet :=
  fold_left (λ m id, <[id := cpus id]> m) ids ∅.

(** ** Clusters *)

(** The first CPU of a set that is not empty. *)
Definition first_cpu (cpus : CPUSet) : Z := default 0 (head (CPUSet_List cpus)).

Definition package_clusters (id : Z) : list cpuCluster :=
  concat (map (λ die,
    omap (λ cl,
      let cpus := ts_LogicalDieClusterCPUSet sys id die cl in
      if bool_decide (csize cpus > 0)
      then Some (MkCluster id die cl cpus (ts_CoreKind sys (first_cpu cpus)))
      else None) (ts_LogicalDieClusterIDs sys id die)) (ts_DieIDs sys id)).

Definition discoverCPUClusters : list cpuCluster * gmap Z CPUSet :=
  (concat (map (λ id,
     let clusters := package_clusters id in
     if bool_decide (Z.of_nat (length clusters) > 1) then clusters else []) pkgs),
   lookup_table (ts_CoreKinds sys) (ts_CoreKindCPUs sys)).

(** ** Cache groups *)

(** CPU sets that give no useful grouping: single CPUs, threads of a core,
    whole dies and packages. *)
Definition useless (pkg cpu : Z) (cpus : CPUSet) : bool :=
  bool_decide (csize cpus = 0 ∨ csize cpus = 1) ||
  bool_decide (cpus = ts_ThreadCPUSet sys cpu ∩ online) ||
  bool_decide (cpus = ts_DieCPUSet sys pkg (ts_DieID sys cpu) ∩ online) ||
  bool_decide (cpus = ts_PackageCPUSet sys pkg ∩ online).

Fixpoint useful_level (cpu : Z) (levels : list Z) : option Z :=
  match levels with
  | [] => None
  | n :: levels' =>
      if useless (cs_PackageID (ts_sys sys) cpu) cpu (ts_GetNthLevelCacheCPUSet sys cpu n)
      then useful_level cpu levels' else Some n
  end.

Fixpoint pick_level (cpus : list Z) : Z :=
  match cpus with
  | [] => -1
  | cpu :: cpus' =>
      match useful_level cpu (reverse (seqZ 1 (ts_CacheCount sys cpu - 1))) with
      | Some n => n
      | None => pick_level cpus'
      end
  end.

Definition pickCacheLevelForGrouping : Z := pick_level (CPUSet_List online).

(** The groups of a package among CPUs that are not assigned yet. *)
Fixpoint package_groups (n pkg : Z) (cpuIDs : list Z) (assigned : CPUSet) : list cacheGroup :=
  match cpuIDs with
  | [] => []
  | cpu :: cpuIDs' =>
      if bool_decide (cpu ∈ assigned) then package_groups n pkg cpuIDs' assigned
      else
        let cpus := ts_GetNthLevelCacheCPUSet sys cpu n ∩ online in
        if useless pkg cpu cpus then package_groups n pkg cpuIDs' assigned
        else MkGroup 0 (cs_PackageID (ts_sys sys) cpu) (ts_DieID sys cpu) (ts_NodeID sys cpu) cpus
               (ts_CoreKind sys cpu)
             :: package_groups n pkg cpuIDs' (assigned ∪ cpus)
  end.

Definition cacheGroupCompare (sortByDie : bool) (a b : cacheGroup) : Z :=
  if bool_decide (cg_pkg a - cg_pkg b ≠ 0) then cg_pkg a - cg_pkg b
  else if sortByDie && bool_decide (cg_die a - cg_die b ≠ 0) then cg_die a - cg_die b
  else if bool_decide (cg_node a - cg_node b ≠ 0) then cg_node a - cg_node b
  else first_cpu (cg_cpus a) - first_cpu (cg_cpus b).

(** Groups are numbered in order. *)
Definition set_ids (groups : list cacheGroup) : list cacheGroup :=
  imap (λ idx g, MkGroup (Z.of_nat idx) (cg_pkg g) (cg_die g) (cg_node g) (cg_cpus g) (cg_kind g)) groups.

Inductive group_check := GroupOk | GroupDies | GroupBad.

(** Whether the CPUs of a group have its package, die and node; looking no
    further than the first CPU of another die. *)
Fixpoint check_group (g : cacheGroup) (cpus : list Z) : group_check :=
  match cpus with
  | [] => GroupOk
  | cpu :: cpus' =>
      if bool_decide (cs_PackageID (ts_sys sys) cpu ≠ cg_pkg g) then GroupBad
      else if bool_decide (ts_DieID sys cpu ≠ cg_die g) then GroupDies
      else if bool_decide (ts_NodeID sys cpu ≠ cg_node g) then GroupBad
      else check_group g cpus'
  end.

(** Whether dies are used for sorting; [None] if groups are of no use. *)
Fixpoint check_groups (groups : list cacheGroup) (sortByDie : bool) : option bool :=
  match groups with
  | [] => Some sortByDie
  | g :: groups' =>
      match check_group g (UnsortedList (cg_cpus g)) with
      | GroupBad => None
      | GroupDies => check_groups groups' false
      | GroupOk => check_groups groups' sortByDie
      end
  end.

Definition discoverCacheGroups : list cacheGroup :=
  let n := pickCacheLevelForGrouping in
  if bool_decide (n < 0) then []
  else
    let groups :=
      concat (map (λ id,
        let groups := package_groups n id (CPUSet_List (ts_PackageCPUSet sys id ∩ online)) ∅ in
        if bool_decide (Z.of_nat (length groups) > 1) then groups else []) pkgs) in
    let groups := set_ids (sort_func (cacheGroupCompare true) groups) in
    match check_groups groups true with
    | None => []
    | Some true => groups
    | Some false => set_ids (sort_func (cacheGroupCompare false) groups)
    end.

(** ** Priorities *)

Definition no_prios : prio_lists := λ _, [].

Definition add_prio (p : CPUPriority) (cpu : Z) (prios : prio_lists) : prio_lists := λ q,
  if bool_decide (q = p) then app (prios q) [cpu] else prios q.

(** Priorities of classes of service: by ID or by proportional priority, of
    which one class is kept for each value; the first class has high and the
    last one low priority. *)
Definition sstClosPriority (punit : PunitStatus) : gmap Z CPUPriority :=
  let closPps := fold_left (λ m cp, <[cp.2 := cp.1]> m) (map_range (pu_Clos punit)) (∅ : gmap Z Z) in
  let closSorted :=
    if pu_CP_Ordered punit then slices_Sort (map_range (pu_Clos punit)).*1
    else omap (λ pp, closPps !! pp) (slices_Sort (map_range closPps).*1) in
  let closPriority := fold_left (λ m id, <[id := PriorityNormal]> m) closSorted ∅ in
  match closSorted, last closSorted with
  | first :: _ :: _, Some last => <[last := PriorityLow]> (<[first := PriorityHigh]> closPriority)
  | _, _ => closPriority
  end.

Definition sst_clos (punit : PunitStatus) (st : gmap Z CPUPriority * bool) : gmap Z CPUPriority * bool :=
  let '(prios, active) := st in
  if pu_TF_Enabled punit then
    (fold_left (λ m cpu, <[cpu := if bool_decide (ts_SstClos sys cpu < 2) then PriorityHigh else PriorityLow]> m)
       (CPUSet_List (pu_CPUs punit)) prios, true)
  else if pu_CP_Enabled punit then
    let closPrio := sstClosPriority punit in
    fold_left (λ st cpu,
        let p := default PriorityHigh (closPrio !! ts_SstClos sys cpu) in
        (<[cpu := p]> st.1, st.2 || bool_decide (p ≠ PriorityNormal)))
      (CPUSet_List (pu_CPUs punit)) (prios, active)
  else (prios, active).

(** The high priority CPUs of a power unit with SST-BF. *)
Definition sst_bf (pkgID punitID : Z) (punit : PunitStatus) (st : sst_state) : sst_state :=
  let '(prios, active, plInfos) := st in
  let plInfos :=
    match plInfos with
    | Some _ => plInfos
    | None =>
        match ts_PerfLevel sys pkgID with
        | None => None
        | Some GetPerfLevelInfo => GetPerfLevelInfo (pu_PP_CurrentLevel punit)
        end
    end in
  match plInfos with
  | None => (prios, active, None)
  | Some infos =>
      match infos !! punitID with
      | None => (prios, active, Some infos)
      | Some high =>
          (fold_left (λ m cpu, <[cpu := PriorityHigh]> m) (UnsortedList high) prios, true, Some infos)
      end
  end.

Definition sst_punit (pkgID : Z) (st : sst_state) (pu : Z * PunitStatus) : sst_state :=
  let '(prios, active, plInfos) := st in
  let '(prios, active) := sst_clos pu.2 (prios, active) in
  if negb active && pu_PP_Supported pu.2 && pu_BF_Enabled pu.2
  then sst_bf pkgID pu.1 pu.2 (prios, active, plInfos)
  else (prios, active, plInfos).

Definition discoverSstCPUPriority (pkgID : Z) : prio_lists * bool :=
  match ts_SstInfo sys pkgID with
  | None => (no_prios, false)
  | Some punits =>
      let '(prios, active, _) := fold_left (sst_punit pkgID) (map_range punits) (∅, false, None) in
      (fold_left (λ ret cp, add_prio cp.2 cp.1 ret) (map_range prios) no_prios, active)
  end.

(** Values of the CPUs, without repetition and sorted. *)
Definition distinct_values (cpuIDs : list Z) (value : Z → Z) (known : Z → bool) : list Z :=
  slices_Sort (filter (λ v, known v = true)
    (map_range (list_to_map ((λ cpu, (value cpu, tt)) <$> cpuIDs) : gmap Z unit)).*1).

(** The priority of a CPU given the frequencies and EPP values of its package. *)
Definition cpufreq_priority (freqList eppList : list Z) (cpu : Z) : CPUPriority :=
  let p :=
    match freqList with
    | lowest :: _ :: _ => if bool_decide (ts_BaseFrequency sys cpu > lowest) then PriorityHigh else PriorityLow
    | _ => PriorityNormal
    end in
  if bool_decide (ts_CoreKind sys cpu = EfficientCore) then PriorityLow
  else
    match eppList, last eppList with
    | _ :: _ :: _, Some worst =>
        if bool_decide (ts_EPP sys cpu < worst) then PriorityHigh else PriorityLow
    | _, _ => p
    end.

Definition discoverCpufreqPriority (pkgID : Z) : prio_lists :=
  let cpuIDs := CPUSet_List (ts_PackageCPUSet sys pkgID) in
  let freqList := distinct_values cpuIDs (ts_BaseFrequency sys) (λ freq, bool_decide (freq > 0)) in
  let eppList := distinct_values cpuIDs (ts_EPP sys) (λ e, bool_decide (e ≠ EPPUnknown)) in
  fold_left (λ prios cpu, add_prio (cpufreq_priority freqList eppList cpu) cpu prios) cpuIDs no_prios.

(** The CPUs of a package with a priority; efficient cores have low priority
    only, unless there are no other cores. *)
Definition package_priority (id : Z) (p : CPUPriority) : CPUSet :=
  let '(sst, sstActive) := discoverSstCPUPriority id in
  let prios := if sstActive then sst else discoverCpufreqPriority id in
  let ecores := cpus_at (lookup_table (ts_CoreKinds sys) (ts_CoreKindCPUs sys)) EfficientCore in
  let ocores := online ∖ ecores in
  let cset : CPUSet := list_to_set (prios p) in
  if bool_decide (p ≠ PriorityLow ∧ csize ocores > 0) then cset ∖ ecores else cset.

Definition discoverCPUPriorities (pkg : gmap Z CPUSet) (p : CPUPriority) : CPUSet :=
  fold_left (λ cset ids, cset ∪ package_priority ids.1 p) (map_range pkg) ∅.

(** ** The topology *)

Definition newTopologyCache : topologyCache :=
  let pkg := lookup_table pkgs (ts_PackageCPUSet sys) in
  let '(clusters, kind) := discoverCPUClusters in
  MkTopology pkg
    (lookup_table (ts_NodeIDs sys) (ts_NodeCPUSet sys))
    (lookup_table (cs_CPUIDs (ts_sys sys)) (ts_ThreadCPUSet sys))
    kind (discoverCPUPriorities pkg) clusters discoverCacheGroups.

End topology.

(** Without a system nothing is known. *)
Definition NewCPUAllocator `{GoRuntime} (sys : option TopoSys) : option CpuSys * topologyCache :=
  match sys with
  | None => (None, MkTopology ∅ ∅ ∅ ∅ (λ _, ∅) [] [])
  | Some sys => (Some (ts_sys sys), newTopologyCache sys)
  end.

(** The sets of the three priorities. *)
Definition GetCPUPriorities (topo : topologyCache) (p : CPUPriority) : CPUSet :=
  if bool_decide (p = PriorityNone) then ∅ else tc_cpuPriorities topo p.

(** * The topology found by the CPU allocator is sound

    On a system whose packages, cores, clusters and caches partition the CPUs,
    discovery gives the allocator a topology it can rely on, and every CPU has
    at most one priority. *)

Open Scope string_scope.
Open Scope Z_scope.

(** What sysfs shows of real machines. *)
Record system_ok (sys : TopoSys) : Prop := {
  so_PackageIDs : NoDup (cs_PackageIDs (ts_sys sys));
  so_CPUIDs : NoDup (cs_CPUIDs (ts_sys sys));
  so_package : ∀ id cpu, id ∈ cs_PackageIDs (ts_sys sys) → cpu ∈ ts_PackageCPUSet sys id →
    cs_PackageID (ts_sys sys) cpu = id;
  so_threads : ∀ i j, i ∈ cs_CPUIDs (ts_sys sys) → j ∈ cs_CPUIDs (ts_sys sys) →
    ts_ThreadCPUSet sys i = ts_ThreadCPUSet sys j ∨ ts_ThreadCPUSet sys i ## ts_ThreadCPUSet sys j;
  so_DieIDs : ∀ id, NoDup (ts_DieIDs sys id);
  so_ClusterIDs : ∀ id die, NoDup (ts_LogicalDieClusterIDs sys id die);
  so_cluster : ∀ id die cl, ts_LogicalDieClusterCPUSet sys id die cl ⊆ ts_PackageCPUSet sys id;
  so_clusters : ∀ id die die' cl cl', (die, cl) ≠ (die', cl') →
    ts_LogicalDieClusterCPUSet sys id die cl ## ts_LogicalDieClusterCPUSet sys id die' cl';
  so_cache : ∀ n i j, ts_GetNthLevelCacheCPUSet sys i n = ts_GetNthLevelCacheCPUSet sys j n ∨
    ts_GetNthLevelCacheCPUSet sys i n ## ts_GetNthLevelCacheCPUSet sys j n;
  so_cache_self : ∀ n i x, x ∈ ts_GetNthLevelCacheCPUSet sys i n → i ∈ ts_GetNthLevelCacheCPUSet sys i n;
  so_cache_package : ∀ n i x, x ∈ ts_GetNthLevelCacheCPUSet sys i n →
    cs_PackageID (ts_sys sys) x = cs_PackageID (ts_sys sys) i;
}.

Lemma lookup_table_elem ids cpus id : id ∈ ids → cpus_at (lookup_table ids cpus) id = cpus id.
Proof.
  unfold cpus_at, lookup_table. intros Hid.
  assert (∀ m : gmap Z CPUSet, id ∈ ids ∨ m !! id = Some (cpus id) →
    fold_left (λ m id, <[id := cpus id]> m) ids m !! id = Some (cpus id)) as Hg.
  { clear Hid. induction ids as [|i ids IH]; intros m Hor; simpl.
    { destruct Hor as [Hin|?]; [inversion Hin|done]. }
    apply IH. destruct Hor as [[->|?]%elem_of_cons|Hm]; [right|by left|].
    - by rewrite lookup_insert_eq.
    - destruct (decide (i = id)) as [->|]; [right; by rewrite lookup_insert_eq|].
      right. by rewrite lookup_insert_ne. }
  by rewrite (Hg ∅ (or_introl Hid)).
Qed.

(** Lists of sets, one list after the other. *)
Lemma disjoint_sets_concat {A} (f : A → list CPUSet) (l : list A) :
  (∀ x, x ∈ l → disjoint_sets (f x)) → NoDup l →
  (∀ x y c d, x ∈ l → y ∈ l → x ≠ y → c ∈ f x → d ∈ f y → c ## d) →
  disjoint_sets (concat (map f l)).
Proof.
  intros Hf Hnd Hd. induction Hnd as [|x l Hx Hnd IH]; cbn [map concat]; [done|].
  apply disjoint_sets_app. split_and!; [apply Hf; constructor| |].
  - apply IH; [intros; apply Hf; by constructor|]. intros y z c d ????; apply (Hd y z); try done; by constructor.
  - intros c d Hc (y & Hy & Hdy)%elem_of_concat_map. apply (Hd x y); [constructor|by constructor| |done|done].
    intros ->. done.
Qed.

Lemma concat_map_fmap {A B C} (g : B → C) (f : A → list B) (l : list A) :
  g <$> concat (map f l) = concat (map (λ x, g <$> f x) l).
Proof. induction l as [|x l IH]; simpl; [done|]. by rewrite fmap_app, IH. Qed.

Section discovery.
Context `{GoRuntime} (sys : TopoSys) (Hok : system_ok sys).

Abbreviation pkgs := (cs_PackageIDs (ts_sys sys)).

Lemma so_pkg_disjoint i j : i ∈ pkgs → j ∈ pkgs → i ≠ j → ts_PackageCPUSet sys i ## ts_PackageCPUSet sys j.
Proof.
  intros Hi Hj Hne. apply elem_of_disjoint. intros x Hxi Hxj.
  apply (so_package _ Hok i) in Hxi; [|done]. apply (so_package _ Hok j) in Hxj; [|done]. congruence.
Qed.

(** ** Clusters *)

Lemma package_clusters_cpus id c : c ∈ cl_cpus <$> package_clusters sys id →
  ∃ die cl, c = ts_LogicalDieClusterCPUSet sys id die cl ∧ die ∈ ts_DieIDs sys id ∧ cl ∈ ts_LogicalDieClusterIDs sys id die.
Proof.
  intros (k & -> & Hk)%list_elem_of_fmap. unfold package_clusters in Hk.
  apply elem_of_concat_map in Hk as (die & Hdie & (cl & Hcl & Hk)%list_elem_of_omap).
  case_bool_decide; [|done]. injection Hk as <-. by exists die, cl.
Qed.

Lemma package_clusters_disjoint id : disjoint_sets (cl_cpus <$> package_clusters sys id).
Proof.
  unfold package_clusters. rewrite concat_map_fmap. apply disjoint_sets_concat; [|apply Hok|].
  - intros die Hdie. rewrite list_fmap_omap.
    eapply (disjoint_sets_omap (ts_LogicalDieClusterCPUSet sys id die)).
    + intros cl c. simpl. case_bool_decide; [|done]. by intros [= <-].
    + apply disjoint_sets_fmap; [apply Hok|]. intros cl cl' _ _ Hne. apply (so_clusters _ Hok). congruence.
  - intros die die' c d _ _ Hne Hc Hd. rewrite list_fmap_omap in Hc, Hd.
    apply list_elem_of_omap in Hc as (cl & _ & Hc). apply list_elem_of_omap in Hd as (cl' & _ & Hd).
    simpl in Hc, Hd. repeat case_bool_decide; try done. injection Hc as <-. injection Hd as <-.
    apply (so_clusters _ Hok). congruence.
Qed.

Lemma discoverCPUClusters_disjoint : disjoint_sets (cl_cpus <$> (discoverCPUClusters sys).1).
Proof.
  unfold discoverCPUClusters. simpl. rewrite concat_map_fmap. apply disjoint_sets_concat; [|apply Hok|].
  - intros id _. case_bool_decide; [apply package_clusters_disjoint|done].
  - intros id id' c d Hid Hid' Hne Hc Hd.
    assert (∀ id c, c ∈ cl_cpus <$>
      (if bool_decide (Z.of_nat (length (package_clusters sys id)) > 1) then package_clusters sys id else []) →
      c ⊆ ts_PackageCPUSet sys id) as Hsub.
    { clear -Hok. intros id c Hc. case_bool_decide; [|inversion Hc].
      apply package_clusters_cpus in Hc as (die & cl & -> & _). apply Hok. }
    apply Hsub in Hc, Hd. pose proof (so_pkg_disjoint id id' Hid Hid' Hne) as Hpd.
    clear -Hc Hd Hpd. set_solver.
Qed.

(** ** Cache groups *)

Lemma package_groups_spec n pkg cpuIDs assigned :
  (∀ x, x ∈ assigned → x ∈ ts_OnlineCPUs sys ∧ ∀ j, j ∈ ts_OnlineCPUs sys →
     x ∈ ts_GetNthLevelCacheCPUSet sys j n → j ∈ assigned) →
  (∀ cpu, cpu ∈ cpuIDs → cpu ∈ ts_OnlineCPUs sys) →
  disjoint_sets (cg_cpus <$> package_groups sys n pkg cpuIDs assigned) ∧
  ∀ g, g ∈ package_groups sys n pkg cpuIDs assigned →
    cg_cpus g ## assigned ∧ cg_cpus g ≠ ∅ ∧
    ∃ cpu, cpu ∈ cpuIDs ∧ cg_cpus g = ts_GetNthLevelCacheCPUSet sys cpu n ∩ ts_OnlineCPUs sys.
Proof.
  revert assigned. induction cpuIDs as [|cpu cpuIDs IH]; intros assigned Has Hon; simpl.
  { split; [done|]. intros g Hg. inversion Hg. }
  assert (∀ a, (∀ x, x ∈ a → x ∈ ts_OnlineCPUs sys ∧ ∀ j, j ∈ ts_OnlineCPUs sys →
     x ∈ ts_GetNthLevelCacheCPUSet sys j n → j ∈ a) →
    disjoint_sets (cg_cpus <$> package_groups sys n pkg cpuIDs a) ∧
    ∀ g, g ∈ package_groups sys n pkg cpuIDs a →
      cg_cpus g ## a ∧ cg_cpus g ≠ ∅ ∧
      ∃ c, c ∈ cpu :: cpuIDs ∧ cg_cpus g = ts_GetNthLevelCacheCPUSet sys c n ∩ ts_OnlineCPUs sys) as IH'.
  { intros a Ha. destruct (IH a Ha) as [? Hg]; [set_solver|]. split; [done|]. intros g Hin.
    destruct (Hg g Hin) as (? & ? & c & ? & ?). split_and!; [done..|]. exists c. set_solver. }
  case_bool_decide as Hc; [by apply IH'|].
  destruct (useless _ _ _ _) eqn:Hu; [by apply IH'|].
  set (cpus := ts_GetNthLevelCacheCPUSet sys cpu n ∩ ts_OnlineCPUs sys) in *.
  assert (cpu ∈ ts_OnlineCPUs sys) as Hcpu by (apply Hon; constructor).
  assert (cpus ## assigned) as Hdis.
  { apply elem_of_disjoint. intros x [Hx _]%elem_of_intersection Hxa. apply Hc. by apply (Has x Hxa). }
  assert (cpus ≠ ∅) as Hne.
  { unfold useless in Hu. intros He. fold cpus in Hu. rewrite He in Hu. discriminate. }
  destruct (IH' (assigned ∪ cpus)) as [Hd Hg].
  { intros x [Hx|Hx]%elem_of_union.
    - destruct (Has x Hx) as [? Hj]. split; [done|]. intros j ??. apply elem_of_union_l. by apply Hj.
    - apply elem_of_intersection in Hx as [Hx Hxo]. split; [done|]. intros j Hj Hxj.
      apply elem_of_union_r, elem_of_intersection. split; [|done].
      destruct (so_cache _ Hok n cpu j) as [->|Hd]; [by eapply so_cache_self|].
      exfalso. clear -Hx Hxj Hd. set_solver. }
  split.
  - simpl. split; [|done]. rewrite Forall_fmap. apply Forall_forall. intros g Hin. simpl.
    destruct (Hg g Hin) as (Hga & _). clear -Hga. set_solver.
  - intros g [->|Hin]%elem_of_cons; simpl.
    + split_and!; [done|done|]. exists cpu. split; [constructor|done].
    + destruct (Hg g Hin) as (Hga & ? & ?). split_and!; [|done|done]. clear -Hga. set_solver.
Qed.

Lemma set_ids_cpus groups : cg_cpus <$> set_ids groups = cg_cpus <$> groups.
Proof. unfold set_ids. rewrite fmap_imap. apply list_eq. intros i. rewrite list_lookup_imap, list_lookup_fmap. by destruct (groups !! i). Qed.

Abbreviation online_groups n id :=
  (package_groups sys n id (CPUSet_List (ts_PackageCPUSet sys id ∩ ts_OnlineCPUs sys)) ∅).

Lemma online_groups_spec n id :
  disjoint_sets (cg_cpus <$> online_groups n id) ∧
  ∀ c, c ∈ cg_cpus <$> online_groups n id → c ≠ ∅ ∧
    ∃ cpu, cpu ∈ ts_PackageCPUSet sys id ∧ c = ts_GetNthLevelCacheCPUSet sys cpu n ∩ ts_OnlineCPUs sys.
Proof.
  destruct (package_groups_spec n id (CPUSet_List (ts_PackageCPUSet sys id ∩ ts_OnlineCPUs sys)) ∅) as [Hd Hg].
  - set_solver.
  - intros cpu Hcpu%elem_of_CPUSet_List. set_solver.
  - split; [done|]. intros c (g & -> & Hin)%list_elem_of_fmap.
    destruct (Hg g Hin) as (_ & ? & cpu & Hcpu%elem_of_CPUSet_List & ?). split; [done|].
    exists cpu. set_solver.
Qed.

(** The groups of all packages together. *)
Lemma all_groups_spec n :
  let groups := concat (map (λ id,
    if bool_decide (Z.of_nat (length (online_groups n id)) > 1) then online_groups n id else []) pkgs) in
  disjoint_sets (cg_cpus <$> groups) ∧ ∀ c, c ∈ cg_cpus <$> groups → c ≠ ∅.
Proof.
  simpl. rewrite concat_map_fmap. split.
  - apply disjoint_sets_concat; [|apply Hok|].
    + intros id _. case_bool_decide; [apply online_groups_spec|done].
    + intros id id' c d Hid Hid' Hne Hc Hd. repeat case_bool_decide; try (by inversion Hc); try (by inversion Hd).
      destruct (online_groups_spec n id) as [_ Hg]. apply Hg in Hc as (_ & cpu & Hcpu & ->).
      destruct (online_groups_spec n id') as [_ Hg']. apply Hg' in Hd as (_ & cpu' & Hcpu' & ->).
      apply elem_of_disjoint. intros x [Hx _]%elem_of_intersection [Hx' _]%elem_of_intersection.
      apply (so_cache_package _ Hok) in Hx, Hx'.
      apply (so_package _ Hok id) in Hcpu; [|done]. apply (so_package _ Hok id') in Hcpu'; [|done]. congruence.
  - intros c (id & _ & Hc)%elem_of_concat_map. case_bool_decide; [|inversion Hc].
    by apply online_groups_spec in Hc as [? _].
Qed.

Lemma discoverCacheGroups_spec :
  disjoint_sets (cg_cpus <$> discoverCacheGroups sys) ∧
  Forall (λ g, cg_cpus g ≠ ∅) (discoverCacheGroups sys).
Proof.
  unfold discoverCacheGroups. case_bool_decide; [done|].
  destruct (all_groups_spec (pickCacheLevelForGrouping sys)) as [Hd Hne].
  set (groups := concat _) in *. clearbody groups.
  assert (∀ cmp l, cg_cpus <$> l ≡ₚ cg_cpus <$> groups →
    cg_cpus <$> set_ids (sort_func cmp l) ≡ₚ cg_cpus <$> groups) as Hperm.
  { intros cmp l Hl. by rewrite set_ids_cpus, sort_func_perm. }
  assert (∀ l, cg_cpus <$> l ≡ₚ cg_cpus <$> groups →
    disjoint_sets (cg_cpus <$> l) ∧ Forall (λ g, cg_cpus g ≠ ∅) l) as Hl.
  { intros l Hl. rewrite Hl. split; [done|]. apply Forall_forall. intros g Hg. apply Hne. rewrite <- Hl.
    by apply list_elem_of_fmap_2. }
  destruct (check_groups _ _ _) as [[]|]; [apply Hl; by apply Hperm|apply Hl|done].
  apply Hperm. by apply Hperm.
Qed.

(** The topology that a new CPU allocator discovers meets everything the
    allocation steps rely on. *)
Lemma newTopologyCache_ok : topology_ok (ts_sys sys) (newTopologyCache sys).
Proof.
  destruct discoverCacheGroups_spec as [Hd Hne].
  split; try apply Hok; try done; simpl.
  - intros i j Hi Hj Hij. rewrite !lookup_table_elem by done. by apply so_pkg_disjoint.
  - intros i j Hi Hj. rewrite !lookup_table_elem by done. by apply Hok.
  - apply discoverCPUClusters_disjoint.
Qed.
End discovery.

Section allocator.
Context `{GoRuntime} (sys : option TopoSys).

(** A system as it should be, if there is one, and CPUs of it that are online. *)
Definition usable_from (from : CPUSet) : Prop :=
  match sys with
  | Some sys => system_ok sys ∧ from ⊆ online (ts_sys sys)
  | None => True
  end.

Lemma usable_allocatable from :
  usable_from from → allocatable (NewCPUAllocator sys).1 (NewCPUAllocator sys).2 from.
Proof. unfold usable_from. destruct sys as [s|]; [|done]. intros [Hok ?]. split; [by apply newTopologyCache_ok|done]. Qed.

(** C37: AllocateCpus of a CPU allocator made for a system, from a set of
    online CPUs of the system ([usable_from]; with offline ones in the set the code
    does not keep to this, see [AllocateCpus_offline_lost]), fails exactly if there
    are not enough CPUs in the set, leaving it as it is; otherwise it returns
    exactly the number of CPUs asked for and removes exactly these from the set.
    The priority, the flags, the topology found and the order in which sorting
    leaves equal elements do not matter. *)
Theorem AllocateCpus_spec from cnt options : usable_from from → 0 ≤ cnt →
  (csize from < cnt ∧
   AllocateCpus (NewCPUAllocator sys).1 (NewCPUAllocator sys).2 from cnt options = (Err ErrOther, from)) ∨
  (cnt ≤ csize from ∧ ∃ result,
    AllocateCpus (NewCPUAllocator sys).1 (NewCPUAllocator sys).2 from cnt options = (Ok result, from ∖ result) ∧
    result ⊆ from ∧ csize result = cnt).
Proof.
  intros Hal%usable_allocatable Hn. destruct (decide (csize from < cnt)) as [Hlt|Hge].
  - left. split; [done|]. unfold AllocateCpus, allocateCpus. by rewrite bool_decide_eq_true_2.
  - right. split; [lia|]. apply allocateCpus_spec; [done..|lia].
Qed.

(** ReleaseCpus of a CPU allocator made for a system keeps in the set
    exactly the number of CPUs given and returns all others. *)
Theorem ReleaseCpus_spec from cnt options : usable_from from → 0 ≤ cnt ≤ csize from →
  ∃ released,
    ReleaseCpus (NewCPUAllocator sys).1 (NewCPUAllocator sys).2 from cnt options = (Ok released, from ∖ released) ∧
    released ⊆ from ∧ csize (from ∖ released) = cnt.
Proof. intros Hal%usable_allocatable. by apply ReleaseCpus_keeps. Qed.
End allocator.

(** ** Priorities *)

(** What SST reports of a package is about CPUs of it, and efficient cores are
    the CPUs of that kind. *)
Record priorities_ok (sys : TopoSys) : Prop := {
  po_punit : ∀ id punits pu punit, ts_SstInfo sys id = Some punits → punits !! pu = Some punit →
    pu_CPUs punit ⊆ ts_PackageCPUSet sys id;
  po_high : ∀ id info level infos pu high, ts_PerfLevel sys id = Some info → info level = Some infos →
    infos !! pu = Some high → high ⊆ ts_PackageCPUSet sys id;
  po_ecores : ∀ cpu, cpu ∈ cpus_at (lookup_table (ts_CoreKinds sys) (ts_CoreKindCPUs sys)) EfficientCore →
    ts_CoreKind sys cpu = EfficientCore;
}.

Lemma elem_of_add_prios {A} (prio : A → CPUPriority) (cpu : A → Z) (l : list A) (prios : prio_lists) p x :
  x ∈ fold_left (λ ps a, add_prio (prio a) (cpu a) ps) l prios p ↔
  x ∈ prios p ∨ ∃ a, a ∈ l ∧ cpu a = x ∧ prio a = p.
Proof.
  revert prios. induction l as [|a l IH]; intros prios; cbn [fold_left]; [set_solver|].
  rewrite IH. unfold add_prio. case_bool_decide as Hp; [|set_solver].
  rewrite elem_of_app, list_elem_of_singleton. set_solver.
Qed.

Lemma insert_all_dom {A} (f : Z → A) (l : list Z) (m : gmap Z A) (P : Z → Prop) :
  (∀ x, x ∈ l → P x) → (∀ x, is_Some (m !! x) → P x) →
  ∀ x, is_Some (fold_left (λ m x, <[x := f x]> m) l m !! x) → P x.
Proof.
  intros Hl. revert m. induction l as [|y l IH]; intros m Hm x; cbn; [auto|].
  apply IH; [set_solver|]. intros z. destruct (decide (y = z)) as [->|].
  - intros _. apply Hl. constructor.
  - rewrite lookup_insert_ne by done. auto.
Qed.

Section priorities.
Context `{GoRuntime} (sys : TopoSys) (Hok : system_ok sys) (Hpo : priorities_ok sys).

Lemma sst_clos_dom punit st (P : Z → Prop) :
  (∀ x, x ∈ pu_CPUs punit → P x) → (∀ x, is_Some (st.1 !! x) → P x) →
  ∀ x, is_Some ((sst_clos sys punit st).1 !! x) → P x.
Proof.
  intros Hcpus Hst. destruct st as [prios active]. unfold sst_clos.
  assert (∀ x, x ∈ CPUSet_List (pu_CPUs punit) → P x) as Hl.
  { intros x Hx%elem_of_CPUSet_List. auto. }
  destruct (pu_TF_Enabled punit); [by apply insert_all_dom|].
  destruct (pu_CP_Enabled punit); [|done]. revert Hl.
  generalize (CPUSet_List (pu_CPUs punit)). intros l. simpl in Hst. revert active prios Hst.
  induction l as [|y l IH]; intros active prios Hst Hl; cbn; [done|].
  apply IH; [|set_solver]. intros z. destruct (decide (y = z)) as [->|].
  - intros _. apply Hl. constructor.
  - rewrite lookup_insert_ne by done. auto.
Qed.

(** The performance levels seen so far are those of the package. *)
Definition sst_inv (id : Z) (st : sst_state) : Prop :=
  (∀ x, is_Some (st.1.1 !! x) → x ∈ ts_PackageCPUSet sys id) ∧
  (∀ infos pu high, st.2 = Some infos → infos !! pu = Some high → high ⊆ ts_PackageCPUSet sys id).

Lemma sst_bf_inv id pu punit st : sst_inv id st → sst_inv id (sst_bf sys id pu punit st).
Proof.
  destruct st as [[prios active] plInfos]. intros [Hst Hpl]. unfold sst_bf. cbn [fst snd] in *.
  assert (∀ infos, match plInfos with
    | Some _ => plInfos
    | None => match ts_PerfLevel sys id with None => None | Some f => f (pu_PP_CurrentLevel punit) end
    end = Some infos → ∀ p high, infos !! p = Some high → high ⊆ ts_PackageCPUSet sys id) as Hinf.
  { intros infos Hi p high Hp. destruct plInfos as [i|]; [by eapply Hpl|].
    destruct (ts_PerfLevel sys id) as [f|] eqn:Hf; [|done]. by eapply po_high. }
  destruct (match plInfos with Some _ => _ | None => _ end) as [infos|]; [|by split].
  specialize (Hinf infos eq_refl).
  destruct (infos !! pu) as [high|] eqn:Hh; (split; cbn [fst snd]; [|by intros ??? [= <-]; apply Hinf]); [|done].
  apply insert_all_dom; [|done]. intros x Hx. apply (Hinf _ _ Hh). by apply elem_of_UnsortedList.
Qed.

Lemma discoverSst_dom id p x : x ∈ (discoverSstCPUPriority sys id).1 p → x ∈ ts_PackageCPUSet sys id.
Proof.
  unfold discoverSstCPUPriority. destruct (ts_SstInfo sys id) as [punits|] eqn:Hi; [|by intros Hx; inversion Hx].
  assert (∀ l st, (∀ kv, kv ∈ l → pu_CPUs kv.2 ⊆ ts_PackageCPUSet sys id) → sst_inv id st →
    sst_inv id (fold_left (sst_punit sys id) l st)) as Hfold.
  { clear Hi. induction l as [|[pu punit] l IH]; intros st Hl Hst; cbn [fold_left]; [done|].
    apply IH; [set_solver|]. unfold sst_punit. destruct st as [[prios active] plInfos].
    pose proof (sst_clos_dom punit (prios, active) (λ x, x ∈ ts_PackageCPUSet sys id)) as Hc.
    cbn [fst snd] in *. destruct (sst_clos sys punit (prios, active)) as [prios' active'].
    assert (sst_inv id (prios', active', plInfos)) as Hinv.
    { destruct Hst as [Hst Hpl]. split; [|done]. cbn. apply Hc; [|done]. apply (Hl (pu, punit)). constructor. }
    destruct (_ && _); [by apply sst_bf_inv|done]. }
  destruct (fold_left _ _ _) as [[prios active] pl] eqn:Hf.
  assert (sst_inv id (prios, active, pl)) as [Hinv _].
  { rewrite <- Hf. apply Hfold; [|split; [intros ? []; done|done]].
    intros [pu punit] Hin%elem_of_map_range. by eapply po_punit. }
  cbn [fst]. rewrite elem_of_add_prios. intros [Hx|([c q] & Hin%elem_of_map_range & <- & <-)]; [inversion Hx|].
  cbn. apply Hinv. cbn. eauto.
Qed.

(** A CPU has at most one of the priorities of its package. *)
Lemma prio_lists_unique id p q x :
  let prios := if (discoverSstCPUPriority sys id).2 then (discoverSstCPUPriority sys id).1
               else discoverCpufreqPriority sys id in
  x ∈ prios p → x ∈ prios q → p = q.
Proof.
  cbn. destruct (discoverSstCPUPriority sys id).2.
  - unfold discoverSstCPUPriority. destruct (ts_SstInfo sys id) as [punits|]; [|by intros Hx; inversion Hx].
    destruct (fold_left _ _ _) as [[prios active] pl]. cbn [fst]. rewrite !elem_of_add_prios.
    intros [Hx|([c1 q1] & H1%elem_of_map_range & <- & <-)]; [inversion Hx|].
    intros [Hx|([c2 q2] & H2%elem_of_map_range & Heq & <-)]; [inversion Hx|]. cbn in *. congruence.
  - unfold discoverCpufreqPriority. rewrite !(elem_of_add_prios _ (λ c, c)).
    intros [Hx|(c1 & _ & <- & <-)]; [inversion Hx|]. intros [Hx|(c2 & _ & -> & <-)]; [inversion Hx|done].
Qed.

Lemma package_priority_elem id p x : x ∈ package_priority sys id p →
  x ∈ (if (discoverSstCPUPriority sys id).2 then (discoverSstCPUPriority sys id).1
       else discoverCpufreqPriority sys id) p.
Proof.
  unfold package_priority. destruct (discoverSstCPUPriority sys id) as [sst active]. cbn [fst snd].
  case_bool_decide; [rewrite elem_of_difference; intros [Hx _]|intros Hx]; by apply elem_of_list_to_set in Hx.
Qed.

Lemma package_priority_sub id p : package_priority sys id p ⊆ ts_PackageCPUSet sys id.
Proof.
  intros x Hx%package_priority_elem. destruct (discoverSstCPUPriority sys id).2; [by eapply discoverSst_dom|].
  unfold discoverCpufreqPriority in Hx. rewrite (elem_of_add_prios _ (λ c, c)) in Hx.
  destruct Hx as [Hx|(c & Hc%elem_of_CPUSet_List & <- & _)]; [inversion Hx|done].
Qed.

Lemma elem_of_discoverCPUPriorities p x :
  x ∈ discoverCPUPriorities sys (lookup_table (cs_PackageIDs (ts_sys sys)) (ts_PackageCPUSet sys)) p ↔
  ∃ id, id ∈ cs_PackageIDs (ts_sys sys) ∧ x ∈ package_priority sys id p.
Proof.
  unfold discoverCPUPriorities. set (m := lookup_table _ _).
  assert (∀ l s, x ∈ fold_left (λ (cset : CPUSet) (ids : Z * CPUSet), cset ∪ package_priority sys ids.1 p) l s ↔
    x ∈ s ∨ ∃ ids, ids ∈ l ∧ x ∈ package_priority sys ids.1 p) as Hfold.
  { induction l as [|y l IH]; intros s; cbn [fold_left]; [set_solver|]. rewrite IH. set_solver. }
  rewrite Hfold. assert (∀ id, is_Some (m !! id) ↔ id ∈ cs_PackageIDs (ts_sys sys)) as Hm.
  { intros id. split.
    - apply (insert_all_dom _ _ ∅ (λ id, id ∈ cs_PackageIDs (ts_sys sys))); [done|]. by intros ? [].
    - intros Hid. unfold m, lookup_table.
      assert (∀ l (m : gmap Z CPUSet), id ∈ l ∨ is_Some (m !! id) →
        is_Some (fold_left (λ m id, <[id := ts_PackageCPUSet sys id]> m) l m !! id)) as Hin; [|by apply Hin; left].
      clear. induction l as [|y l IH]; intros m Hor; cbn.
      { destruct Hor as [Hin|?]; [inversion Hin|done]. }
      apply IH. destruct Hor as [[->|?]%elem_of_cons|Hm]; [right; rewrite lookup_insert_eq; eauto|by left|].
      right. destruct (decide (y = id)) as [->|]; [rewrite lookup_insert_eq; eauto|by rewrite lookup_insert_ne]. }
  split.
  - intros [Hx|([id c] & Hin%elem_of_map_range & Hx)]; [set_solver|]. exists id. split; [|done]. apply Hm. eauto.
  - intros (id & [c Hc]%Hm & Hx). right. exists (id, c). split; [by apply elem_of_map_range|done].
Qed.

(** A CPU never has two of the priorities that a new allocator discovers;
    it has one if SST does not set the priorities of its package. *)
Theorem GetCPUPriorities_unique :
  (∀ p q, p ≠ q →
    GetCPUPriorities (newTopologyCache sys) p ## GetCPUPriorities (newTopologyCache sys) q) ∧
  (∀ id cpu, id ∈ cs_PackageIDs (ts_sys sys) → cpu ∈ ts_PackageCPUSet sys id →
    (discoverSstCPUPriority sys id).2 = false →
    ∃ p, cpu ∈ GetCPUPriorities (newTopologyCache sys) p).
Proof.
  unfold GetCPUPriorities. cbn [newTopologyCache discoverCPUClusters tc_cpuPriorities]. split.
  - intros p q Hpq. repeat case_bool_decide; try set_solver. apply elem_of_disjoint. intros x.
    rewrite !elem_of_discoverCPUPriorities. intros (i & Hi & Hxi) (j & Hj & Hxj).
    assert (i = j) as <-.
    { destruct (decide (i = j)) as [|Hne]; [done|].
      pose proof (so_pkg_disjoint sys Hok i j Hi Hj Hne) as Hd.
      apply package_priority_sub in Hxi, Hxj. clear -Hd Hxi Hxj. set_solver. }
    apply package_priority_elem in Hxi, Hxj. apply Hpq. by eapply prio_lists_unique.
  - intros id cpu Hid Hcpu Hsst.
    set (fl := distinct_values (CPUSet_List (ts_PackageCPUSet sys id)) (ts_BaseFrequency sys) (λ freq, bool_decide (freq > 0))).
    set (el := distinct_values (CPUSet_List (ts_PackageCPUSet sys id)) (ts_EPP sys) (λ e, bool_decide (e ≠ EPPUnknown))).
    exists (cpufreq_priority sys fl el cpu).
    assert (cpufreq_priority sys fl el cpu ≠ PriorityNone) as Hnn.
    { unfold cpufreq_priority. repeat case_match; congruence. }
    rewrite bool_decide_eq_false_2 by done. apply elem_of_discoverCPUPriorities. exists id. split; [done|].
    unfold package_priority. destruct (discoverSstCPUPriority sys id) as [sst []]; [done|].
    assert (cpu ∈ (list_to_set (discoverCpufreqPriority sys id (cpufreq_priority sys fl el cpu)) : CPUSet)) as Hin.
    { apply elem_of_list_to_set. unfold discoverCpufreqPriority. rewrite (elem_of_add_prios _ (λ c, c)).
      right. exists cpu. split; [by apply elem_of_CPUSet_List|done]. }
    case_bool_decide as Hlow; [|done]. apply elem_of_difference. split; [done|].
    intros He%(po_ecores _ Hpo). destruct Hlow as [Hlow _]. apply Hlow. unfold cpufreq_priority.
    by rewrite bool_decide_eq_true_2.
Qed.
End priorities.

(** ** Examples *)

(** The set of a list that a CPU is in. *)
Definition block_of (l : list CPUSet) (x : Z) : CPUSet := default ∅ (head (filter (λ c, x ∈ c) l)).

Lemma block_of_elem l x : block_of l x = ∅ ∨ (block_of l x ∈ l ∧ x ∈ block_of l x).
Proof.
  unfold block_of. destruct (filter _ l) as [|c cs] eqn:Hf; [by left|right]. cbn.
  assert (c ∈ filter (λ c, x ∈ c) l) as [??]%list_elem_of_filter by (rewrite Hf; constructor). done.
Qed.

Lemma disjoint_sets_elem l c d : disjoint_sets l → c ∈ l → d ∈ l → c = d ∨ c ## d.
Proof.
  induction l as [|x l IH]; cbn; [by intros _ Hc; inversion Hc|]. rewrite Forall_forall.
  intros [Hx Hl] [->|Hc]%elem_of_cons [->|Hd]%elem_of_cons; [by left|right; auto|right|auto].
  symmetry. auto.
Qed.

Lemma block_of_disjoint l x y : disjoint_sets l → block_of l x = block_of l y ∨ block_of l x ## block_of l y.
Proof.
  intros Hl. destruct (block_of_elem l x) as [->|[Hx _]]; [right; set_solver|].
  destruct (block_of_elem l y) as [->|[Hy _]]; [right; set_solver|]. by apply (disjoint_sets_elem l).
Qed.

(** Two packages of four cores without hyperthreads; two neighbouring cores
    share a cache, and the last two cores are efficient ones. *)
Section example_system.
Let cpus (l : list Z) : CPUSet := list_to_set l.
Let all := cpus [0; 1; 2; 3; 4; 5; 6; 7].

Definition example_caches : list CPUSet := [cpus [0; 1]; cpus [2; 3]; cpus [4; 5]; cpus [6; 7]].

Definition example_package (id : Z) : CPUSet :=
  if bool_decide (id = 0) then cpus [0; 1; 2; 3] else if bool_decide (id = 1) then cpus [4; 5; 6; 7] else ∅.

Definition example_system : TopoSys :=
  MkTopoSys (MkCpuSys [0; 1] [0; 1; 2; 3; 4; 5; 6; 7] ∅ (λ cpu, if bool_decide (cpu ∈ example_package 1) then 1 else 0))
    example_package [0; 1] example_package (λ cpu, {[cpu]}) all
    (λ _, [0]) (λ pkg _, example_package pkg) (λ _ _, []) (λ _ _ _, ∅)
    [PerformanceCore; EfficientCore]
    (λ kind, if bool_decide (kind = EfficientCore) then cpus [6; 7] else cpus [0; 1; 2; 3; 4; 5])
    (λ cpu, if bool_decide (cpu ∈ cpus [6; 7]) then EfficientCore else PerformanceCore)
    (λ _, 0) (λ cpu, if bool_decide (cpu ∈ example_package 1) then 1 else 0)
    (λ _, 2) (λ cpu _, block_of example_caches cpu) (λ _, 2000) (λ _, EPPUnknown) (λ _, 0)
    (λ _, None) (λ _, None).
End example_system.

Lemma example_system_ok : system_ok example_system.
Proof.
  assert (disjoint_sets example_caches) as Hd by (apply (bool_decide_unpack _); by vm_compute).
  split; cbn [ts_sys cs_PackageIDs cs_CPUIDs cs_PackageID ts_PackageCPUSet ts_ThreadCPUSet ts_DieIDs
    ts_LogicalDieClusterIDs ts_LogicalDieClusterCPUSet ts_GetNthLevelCacheCPUSet example_system].
  - apply (bool_decide_unpack _). by vm_compute.
  - apply (bool_decide_unpack _). by vm_compute.
  - intros id cpu Hid Hcpu. apply elem_of_cons in Hid as [->|[->|Hid]%elem_of_cons]; [| |inversion Hid].
    + rewrite bool_decide_eq_false_2; [done|]. intros Hcpu'.
      assert (example_package 0 ## example_package 1) as Hp by (apply (bool_decide_unpack _); by vm_compute).
      set_solver.
    + by rewrite bool_decide_eq_true_2.
  - intros i j _ _. destruct (decide (i = j)) as [->|]; [by left|right; set_solver].
  - intros id. apply NoDup_singleton.
  - intros. constructor.
  - set_solver.
  - set_solver.
  - intros _ i j. by apply block_of_disjoint.
  - intros _ i x Hx. destruct (block_of_elem example_caches i) as [He|[_ ?]]; [|done]. rewrite He in Hx. set_solver.
  - intros _ i x Hx. destruct (block_of_elem example_caches i) as [He|[Hb Hi]]; [rewrite He in Hx; set_solver|].
    assert (Forall (λ c : CPUSet, c ⊆ example_package 1 ∨ c ## example_package 1) example_caches) as Hall
      by (apply (bool_decide_unpack _); by vm_compute).
    rewrite Forall_forall in Hall. destruct (Hall _ Hb) as [Hs|Hs].
    + rewrite !bool_decide_eq_true_2; [done|by apply Hs..].
    + rewrite !bool_decide_eq_false_2; [done|intros ?; by apply (Hs i)|intros ?; by apply (Hs x)].
Qed.

Lemma example_priorities_ok : priorities_ok example_system.
Proof.
  split; cbn; [done|done|]. intros cpu Hcpu. rewrite bool_decide_eq_true_2; [done|exact Hcpu].
Qed.

Lemma AllocateCpus_spec_witness :
  let ca := NewCPUAllocator (H := go_default) (Some example_system) in
  ∃ result, AllocateCpus (H := go_default) ca.1 ca.2 (list_to_set [0; 2; 3; 4; 5; 6; 7]) 3
      [CpuAlloc.WithPriority PriorityNormal]
    = (Ok result, list_to_set [0; 2; 3; 4; 5; 6; 7] ∖ result) ∧ csize result = 3.
Proof.
  destruct (AllocateCpus_spec (H := go_default) (Some example_system) (list_to_set [0; 2; 3; 4; 5; 6; 7]) 3
    [CpuAlloc.WithPriority PriorityNormal]) as [[Hlt _]|(_ & result & He & _ & Hc)].
  - split; [exact example_system_ok|]. apply (bool_decide_unpack _). by vm_compute.
  - lia.
  - exfalso. revert Hlt. by vm_compute.
  - exists result. split; assumption.
Defined.

Lemma ReleaseCpus_spec_witness :
  let ca := NewCPUAllocator (H := go_default) (Some example_system) in
  ∃ released, ReleaseCpus (H := go_default) ca.1 ca.2 (list_to_set [0; 1; 2]) 1 []
    = (Ok released, list_to_set [0; 1; 2] ∖ released) ∧ csize (list_to_set [0; 1; 2] ∖ released) = 1.
Proof.
  destruct (ReleaseCpus_spec (H := go_default) (Some example_system) (list_to_set [0; 1; 2]) 1 [])
    as (released & He & _ & Hc).
  - split; [exact example_system_ok|]. apply (bool_decide_unpack _). by vm_compute.
  - split; [lia|]. by vm_compute.
  - exists released. split; assumption.
Defined.

Lemma GetCPUPriorities_unique_witness :
  GetCPUPriorities (newTopologyCache (H := go_default) example_system) PriorityNormal ##
  GetCPUPriorities (newTopologyCache (H := go_default) example_system) PriorityLow.
Proof.
  apply (GetCPUPriorities_unique (H := go_default) example_system example_system_ok example_priorities_ok).
  discriminate.
Defined.

(** The allocator takes an idle cache group, here of the package that has no
    partly used one. *)
Example example_allocation :
  (AllocateCpus (H := go_default) (NewCPUAllocator (H := go_default) (Some example_system)).1
     (NewCPUAllocator (H := go_default) (Some example_system)).2
     (list_to_set [0; 2; 3; 4; 5; 6; 7]) 2 [CpuAlloc.WithPriority PriorityNormal])
  = (Ok {[4; 5]}, list_to_set [0; 2; 3; 6; 7]).
Proof. by vm_compute. Qed.
