(* ===== verification/Kube.v ===== *)
(** * Resource amounts (pkg/kubernetes/resources.go)

    Conversions between milli-CPUs and the CPU shares and quotas of cgroups. *)

From S2P Require Import Prelude GoStrings.

Open Scope Z_scope.

Definition MinShares : Z := 2.
Definition MaxShares : Z := 262144.
Definition SharesPerCPU : Z := 1024.
Definition MilliCPUToCPU : Z := 1000.
Definition QuotaPeriod : Z := 100000.
Definition MinQuotaPeriod : Z := 1000.

(** Quota and period; the arithmetic is that of [int64]. *)
Definition MilliCPUToQuota (milliCPU : Z) : Z * Z :=
  if bool_decide (milliCPU = 0) then (0, 0)
  else
    let period := QuotaPeriod in
    (Z.max (Z.quot (i64 (milliCPU * period)) MilliCPUToCPU) MinQuotaPeriod, period).

Definition MilliCPUToShares (milliCPU : Z) : Z :=
  if bool_decide (milliCPU = 0) then MinShares
  else
    let shares := Z.quot (i64 (milliCPU * SharesPerCPU)) MilliCPUToCPU in
    if bool_decide (shares < MinShares) then MinShares
    else if bool_decide (shares > MaxShares) then MaxShares
    else shares.

(** The conversion through [float64] rounds to the nearest integer.  It is
    exact for shares up to [MaxShares]: the product, its quotient by the power
    of two [SharesPerCPU] and the sum with one half have fewer than 53 bits. *)
Definition SharesToMilliCPU (shares : Z) : Z :=
  if bool_decide (shares = MinShares) then 0
  else (shares * MilliCPUToCPU + SharesPerCPU / 2) / SharesPerCPU.

(** Shares stay in the range that cgroups accept. *)
Lemma MilliCPUToShares_range m : MinShares ≤ MilliCPUToShares m ≤ MaxShares.
Proof.
  unfold MilliCPUToShares, MinShares, MaxShares. repeat case_bool_decide; lia.
Qed.

Lemma MilliCPUToShares_value m : 3 ≤ m ≤ 256000 →
  MilliCPUToShares m = m * 1024 / 1000 ∧ 3 ≤ m * 1024 / 1000 ≤ 262144.
Proof.
  intros Hm. assert (3 ≤ m * 1024 / 1000 ≤ 262144) as Hr.
  { split; [apply Z.div_le_lower_bound; lia|]. apply Z.lt_succ_r, Z.div_lt_upper_bound; lia. }
  split; [|done]. unfold MilliCPUToShares, MinShares, MaxShares, SharesPerCPU, MilliCPUToCPU, i64.
  rewrite (Z.mod_small (m * 1024 + 2 ^ 63)) by lia.
  replace (m * 1024 + 2 ^ 63 - 2 ^ 63) with (m * 1024) by lia.
  rewrite Z.quot_div_nonneg by lia. rewrite !bool_decide_eq_false_2 by lia. done.
Qed.

(** CPU shares are in the range that cgroups accept.  A request of at
    least 3 mCPU and at most 256 CPUs survives the conversion to CPU shares and
    back, up to one milli-CPU; smaller requests become the minimum of shares,
    which stands for none. *)
Theorem shares_roundtrip m :
  MinShares ≤ MilliCPUToShares m ≤ MaxShares ∧
  (3 ≤ m ≤ 256000 → m - 1 ≤ SharesToMilliCPU (MilliCPUToShares m) ≤ m) ∧
  (0 ≤ m ≤ 2 → SharesToMilliCPU (MilliCPUToShares m) = 0).
Proof.
  split; [apply MilliCPUToShares_range|]. split.
  - intros Hm. destruct (MilliCPUToShares_value m Hm) as [-> Hr].
    unfold SharesToMilliCPU, MinShares, SharesPerCPU, MilliCPUToCPU.
    rewrite bool_decide_eq_false_2 by lia.
    pose proof (Z.div_mod (m * 1024) 1000 ltac:(lia)) as Hd.
    pose proof (Z.mod_pos_bound (m * 1024) 1000 ltac:(lia)) as Hb.
    set (s := m * 1024 / 1000) in *. set (r := (m * 1024) `mod` 1000) in *. clearbody s r.
    replace (1024 / 2) with 512 by done. split.
    + apply Z.div_le_lower_bound; lia.
    + apply Z.lt_succ_r, Z.div_lt_upper_bound; lia.
  - intros Hm. assert (m = 0 ∨ m = 1 ∨ m = 2) as [->|[->| ->]] by lia; done.
Qed.

(** A quota is never less than a millisecond per period. *)
Lemma MilliCPUToQuota_min m : m ≠ 0 → MinQuotaPeriod ≤ (MilliCPUToQuota m).1.
Proof. intros Hm. unfold MilliCPUToQuota. rewrite bool_decide_eq_false_2 by done. cbn. lia. Qed.

(** * Memory requests (pkg/kubernetes/resources.go)

    The kernel is told how much memory a container of a burstable pod requests
    by an adjustment of its OOM score.  The resource manager estimates the
    request from the adjustment with a table it calculates for the memory
    capacity of the node. *)

Open Scope Z_scope.

Definition GuaranteedOOMScoreAdj : Z := -997.
Definition BestEffortOOMScoreAdj : Z := 1000.
Definition MinBurstableOOMScoreAdj : Z := 1000 + GuaranteedOOMScoreAdj.
Definition MaxBurstableOOMScoreAdj : Z := BestEffortOOMScoreAdj - 1.

(** The conversion through [float64] rounds to the nearest integer.  It is
    exact for periods of up to a second and amounts of up to 2^30: a quotient
    that is not a half differs from one by more than the error of the division. *)
Definition QuotaToMilliCPU (quota period : Z) : Z :=
  if bool_decide (quota = 0 ∨ period = 0) then 0
  else Z.quot (2 * i64 (quota * MilliCPUToCPU) + period) (2 * period).

Section capacity.
Context (memCapacity : Z).

Definition MemReqToOomAdj (memRequest : Z) : Z := 1000 - Z.quot (i64 (1000 * memRequest)) memCapacity.

(** The table of estimates and the requests found so far. *)
Abbreviation tables := (gmap Z Z * gmap Z Z)%type.

(** The loop that looks for the smallest request; [fuel] is the bound on its
    rounds, [int(milliMem)]. *)
Fixpoint smallest_request (fuel : nat) (i prevAdj currReq : Z) (st : tables) : tables :=
  match fuel with
  | O => st
  | S fuel =>
      let currAdj := MemReqToOomAdj currReq in
      if bool_decide (currAdj < prevAdj) then
        let st := if bool_decide (currAdj = prevAdj - 1) then (<[currAdj := currReq]> st.1, <[i := currReq]> st.2) else st in
        smallest_request fuel i prevAdj (currReq - 1) st
      else st
  end.

(** The loop that looks for the first request with another adjustment. *)
Fixpoint first_request (fuel : nat) (prevAdj currReq : Z) : Z :=
  match fuel with
  | O => currReq
  | S fuel =>
      if bool_decide (MemReqToOomAdj currReq = prevAdj) then first_request fuel prevAdj (currReq + 1) else currReq
  end.

(** A round of the table.  The next request is first taken to be a thousandth of
    the capacity larger, rounded to an integer; through [float64] this is exact
    for capacities of less than 2^42. *)
Definition estimate_step (i : Z) (st : tables) : res tables :=
  let fuel := Z.to_nat (memCapacity / 1000) in
  let prevReq := default 0 (st.2 !! (i - 1)) in
  let prevAdj := MemReqToOomAdj prevReq in
  let currReq := (2000 * prevReq + 2 * memCapacity + 1000) / 2000 in
  let currAdj := MemReqToOomAdj currReq in
  if bool_decide (currAdj < prevAdj) then Ok (smallest_request fuel i prevAdj currReq st)
  else if bool_decide (currAdj = prevAdj) then
    let currReq := first_request fuel prevAdj currReq in
    let currAdj := MemReqToOomAdj currReq in
    if bool_decide (currAdj = prevAdj - 1) then Ok (<[currAdj := currReq]> st.1, <[i := currReq]> st.2) else Err Panic
  else Err Panic.

Fixpoint estimate_steps (rounds : list Z) (st : tables) : res tables :=
  match rounds with
  | [] => Ok st
  | i :: rounds => let! st := estimate_step i st in estimate_steps rounds st
  end.

Definition CalculateOomAdjToMemReqEstimates : res (gmap Z Z) :=
  let! st := estimate_steps (seqZ 1 999) ({[1000 := 0; 0 := memCapacity]}, {[0 := 0; 1000 := memCapacity]}) in Ok st.1.

(** ** The table is exact *)

(** The smallest request whose adjustment is [1000 - i]. *)
Definition least (i : Z) : Z := (i * memCapacity + 999) / 1000.

Hypothesis capacity_range : 2000 ≤ memCapacity < 2 ^ 42.

Lemma least_spec i r : 0 ≤ i → 0 ≤ r → least i ≤ r ↔ i * memCapacity ≤ 1000 * r.
Proof.
  intros Hi Hr. unfold least. pose proof (Z.div_mod (i * memCapacity + 999) 1000 ltac:(lia)) as Hd.
  pose proof (Z.mod_pos_bound (i * memCapacity + 999) 1000 ltac:(lia)) as Hm. lia.
Qed.

Lemma MemReqToOomAdj_value r : 0 ≤ r ≤ 2 * memCapacity → MemReqToOomAdj r = 1000 - 1000 * r / memCapacity.
Proof.
  intros Hr. unfold MemReqToOomAdj. rewrite i64_small by lia. by rewrite Z.quot_div_nonneg by lia.
Qed.

Lemma adj_le i r : 0 ≤ i → 0 ≤ r ≤ 2 * memCapacity → MemReqToOomAdj r ≤ 1000 - i ↔ least i ≤ r.
Proof.
  intros Hi Hr. rewrite MemReqToOomAdj_value, least_spec by lia.
  pose proof (Z.div_le_lower_bound (1000 * r) memCapacity i ltac:(lia)) as H1.
  pose proof (Z.mul_div_le (1000 * r) memCapacity ltac:(lia)) as H2. split; [nia|]. intros. assert (i ≤ 1000 * r / memCapacity); [|lia].
  apply H1. lia.
Qed.

Lemma least_next i : 0 ≤ i → least i + 2 ≤ least (i + 1).
Proof.
  intros Hi. unfold least. replace ((i + 1) * memCapacity + 999) with (i * memCapacity + 999 + memCapacity) by lia.
  pose proof (Z.div_le_mono (i * memCapacity + 999 + 2 * 1000) (i * memCapacity + 999 + memCapacity) 1000 ltac:(lia) ltac:(lia)) as H.
  rewrite Z.div_add in H by lia. lia.
Qed.

Lemma least_bounds i : 0 ≤ i ≤ 1000 → 0 ≤ least i ≤ memCapacity.
Proof.
  intros Hi. unfold least. split; [apply Z.div_pos; nia|]. apply Z.lt_succ_r, Z.div_lt_upper_bound; nia.
Qed.

Lemma adj_iff i r : 0 ≤ i → 0 ≤ r ≤ 2 * memCapacity → MemReqToOomAdj r = 1000 - i ↔ least i ≤ r < least (i + 1).
Proof.
  intros Hi Hr. pose proof (adj_le i r Hi Hr). pose proof (adj_le (i + 1) r ltac:(lia) Hr). lia.
Qed.

(** The first guess is the request looked for, or next to it. *)
Lemma guess_near i : 0 ≤ i → least (i + 1) - 1 ≤ (2000 * least i + 2 * memCapacity + 1000) / 2000 ≤ least (i + 1) + 1.
Proof.
  intros Hi. unfold least.
  pose proof (Z.div_mod (i * memCapacity + 999) 1000 ltac:(lia)). pose proof (Z.mod_pos_bound (i * memCapacity + 999) 1000 ltac:(lia)).
  pose proof (Z.div_mod ((i + 1) * memCapacity + 999) 1000 ltac:(lia)).
  pose proof (Z.mod_pos_bound ((i + 1) * memCapacity + 999) 1000 ltac:(lia)).
  set (a := (i * memCapacity + 999) / 1000) in *. set (b := ((i + 1) * memCapacity + 999) / 1000) in *.
  pose proof (Z.div_mod (2000 * a + 2 * memCapacity + 1000) 2000 ltac:(lia)).
  pose proof (Z.mod_pos_bound (2000 * a + 2 * memCapacity + 1000) 2000 ltac:(lia)). nia.
Qed.

(** The tables after [i] rounds. *)
Definition filled (i : Z) (st : tables) : Prop :=
  (∀ j, 0 ≤ j ≤ i → st.1 !! (1000 - j) = Some (least j)) ∧ st.1 !! 0 = Some memCapacity ∧ st.2 !! i = Some (least i).

Lemma filled_next i st r : 0 ≤ i < 999 → filled i st → r = least (i + 1) →
  filled (i + 1) (<[1000 - (i + 1) := r]> st.1, <[i + 1 := r]> st.2).
Proof.
  intros Hi (H1 & H2 & H3) ->. split_and!; cbn [fst snd].
  - intros j Hj. destruct (decide (j = i + 1)) as [->|Hne]; [by rewrite lookup_insert_eq|].
    rewrite lookup_insert_ne by lia. apply H1. lia.
  - by rewrite lookup_insert_ne by lia.
  - by rewrite lookup_insert_eq.
Qed.

(** The requests are tried downwards; each better one replaces the one before. *)
Lemma smallest_request_spec i st fuel r : 0 ≤ i < 999 → filled i st → least (i + 1) ≤ r ≤ least (i + 1) + 1 →
  (2 ≤ fuel)%nat → filled (i + 1) (smallest_request fuel (i + 1) (1000 - i) r st).
Proof.
  intros Hi Hf Hr Hfuel. pose proof (least_next i ltac:(lia)). pose proof (least_next (i + 1) ltac:(lia)).
  pose proof (least_bounds i ltac:(lia)). pose proof (least_bounds (i + 1) ltac:(lia)).
  assert (∀ r', least (i + 1) ≤ r' ≤ least (i + 1) + 1 → MemReqToOomAdj r' = 1000 - (i + 1)) as Hadj
    by (intros; apply adj_iff; lia).
  assert (MemReqToOomAdj (least (i + 1) - 1) = 1000 - i) as Hlast by (apply adj_iff; lia).
  assert (∀ fuel st, smallest_request fuel (i + 1) (1000 - i) (least (i + 1) - 1) st = st) as Hend.
  { intros [|n] st'; cbn; [done|]. rewrite Hlast, bool_decide_eq_false_2 by lia. done. }
  destruct fuel as [|[|fuel]]; [lia..|]. cbn [smallest_request]. rewrite (Hadj r) by lia.
  rewrite (bool_decide_eq_true_2 (1000 - (i + 1) < 1000 - i)), (bool_decide_eq_true_2 (1000 - (i + 1) = 1000 - i - 1)) by lia.
  destruct (decide (r = least (i + 1))) as [->|Hne].
  - rewrite Hlast, bool_decide_eq_false_2 by lia. by apply filled_next.
  - replace (r - 1) with (least (i + 1)) by lia. rewrite Hadj, (bool_decide_eq_true_2 (1000 - (i + 1) < 1000 - i)), (bool_decide_eq_true_2 (1000 - (i + 1) = 1000 - i - 1)) by lia.
    rewrite Hend. cbn [fst snd]. rewrite !insert_insert_eq. by apply filled_next.
Qed.

Lemma estimate_step_spec i st : 0 ≤ i < 999 → filled i st → ∃ st', estimate_step (i + 1) st = Ok st' ∧ filled (i + 1) st'.
Proof.
  intros Hi Hf. unfold estimate_step. replace (i + 1 - 1) with i by lia. rewrite (proj2 (proj2 Hf)). cbn [default]. unfold id.
  pose proof (guess_near i ltac:(lia)) as Hg. pose proof (least_next i ltac:(lia)). pose proof (least_next (i + 1) ltac:(lia)).
  pose proof (least_bounds i ltac:(lia)). pose proof (least_bounds (i + 1) ltac:(lia)).
  assert (2 ≤ Z.to_nat (memCapacity / 1000))%nat as Hfuel.
  { pose proof (Z.div_le_lower_bound memCapacity 1000 2 ltac:(lia) ltac:(lia)). lia. }
  set (r := (2000 * least i + 2 * memCapacity + 1000) / 2000) in *.
  rewrite (proj2 (adj_iff i (least i) ltac:(lia) ltac:(lia))) by lia.
  destruct (decide (r = least (i + 1) - 1)) as [Hr|Hr].
  - rewrite (proj2 (adj_iff i r ltac:(lia) ltac:(lia))) by lia.
    rewrite bool_decide_eq_false_2, bool_decide_eq_true_2 by lia. destruct (Z.to_nat (memCapacity / 1000)) as [|[|n]]; [lia..|].
    assert (MemReqToOomAdj (r + 1) = 1000 - (i + 1)) as Hadj by (apply adj_iff; lia).
    cbn [first_request]. rewrite (proj2 (adj_iff i r ltac:(lia) ltac:(lia))) by lia.
    rewrite (bool_decide_eq_true_2 (1000 - i = 1000 - i)), Hadj, (bool_decide_eq_false_2 (1000 - (i + 1) = 1000 - i)) by lia.
    rewrite Hadj, (bool_decide_eq_true_2 (1000 - (i + 1) = 1000 - i - 1)) by lia. eexists. split; [done|]. apply filled_next; [done|done|lia].
  - rewrite (proj2 (adj_iff (i + 1) r ltac:(lia) ltac:(lia))) by lia.
    rewrite bool_decide_eq_true_2 by lia. eexists. split; [done|]. apply smallest_request_spec; [done|done|lia|done].
Qed.

Lemma estimate_steps_spec n i st : 0 ≤ i → i + Z.of_nat n ≤ 999 → filled i st →
  ∃ st', estimate_steps (seqZ (i + 1) (Z.of_nat n)) st = Ok st' ∧ filled (i + Z.of_nat n) st'.
Proof.
  revert i st. induction n as [|n IH]; intros i st Hi Hn Hf.
  - exists st. rewrite Z.add_0_r. by split.
  - rewrite Nat2Z.inj_succ. rewrite seqZ_cons by lia. cbn [estimate_steps].
    destruct (estimate_step_spec i st ltac:(lia) Hf) as (st' & -> & Hf').
    destruct (IH (i + 1) st' ltac:(lia) ltac:(lia) Hf') as (st'' & Hst & Hf''). exists st''. cbn.
    replace (Z.succ (i + 1)) with (i + 1 + 1) by lia. replace (Z.pred (Z.succ (Z.of_nat n))) with (Z.of_nat n) by lia.
    split; [done|]. by replace (i + Z.succ (Z.of_nat n)) with (i + 1 + Z.of_nat n) by lia.
Qed.
End capacity.

(** C18: The table of memory request estimates can be calculated without a
    panic for every memory capacity of at least 2000 bytes (and less than 2^42),
    and it is exact: for each adjustment of OOM scores from 0 to 1000 it has the
    smallest memory request that leads to this adjustment. *)
Theorem oom_estimates_exact memCapacity : 2000 ≤ memCapacity < 2 ^ 42 →
  ∃ table, CalculateOomAdjToMemReqEstimates memCapacity = Ok table ∧
  ∀ adj, 0 ≤ adj ≤ 1000 → ∃ req, table !! adj = Some req ∧ MemReqToOomAdj memCapacity req = adj ∧
    ∀ smaller, 0 ≤ smaller < req → adj < MemReqToOomAdj memCapacity smaller.
Proof.
  intros Hc. unfold CalculateOomAdjToMemReqEstimates.
  destruct (estimate_steps_spec memCapacity Hc 999 0 ({[1000 := 0; 0 := memCapacity]}, {[0 := 0; 1000 := memCapacity]}))
    as (st & Hst & Hf); [lia|lia| |].
  { split_and!; [|done|done]. intros j Hj. replace j with 0 by lia. done. }
  change (0 + 1) with 1 in Hst. change (Z.of_nat 999) with 999 in *. rewrite Hst. exists st.1. split; [done|].
  intros adj Ha. assert (st.1 !! adj = Some (least memCapacity (1000 - adj))) as Hr.
  { destruct (decide (adj = 0)) as [->|Hne].
    - rewrite (proj1 (proj2 Hf)). f_equal. unfold least. replace ((1000 - 0) * memCapacity + 999) with (999 + memCapacity * 1000) by lia.
      by rewrite Z.div_add by lia.
    - rewrite <- (proj1 Hf (1000 - adj)) by lia. f_equal. lia. }
  exists (least memCapacity (1000 - adj)). split; [exact Hr|]. pose proof (least_bounds memCapacity Hc (1000 - adj) ltac:(lia)).
  pose proof (least_next memCapacity Hc (1000 - adj) ltac:(lia)). split.
  - rewrite (proj2 (adj_iff memCapacity Hc (1000 - adj) (least memCapacity (1000 - adj)) ltac:(lia) ltac:(lia))); lia.
  - intros r Hr'. pose proof (adj_le memCapacity Hc (1000 - adj) r ltac:(lia) ltac:(lia)). lia.
Qed.

(** The estimate of a request, from the table: none for adjustments that
    burstable pods do not have, or at the limit. *)
Definition OomAdjToMemReq (oomAdjToMemReqEstimates : gmap Z Z) (oomAdj memLimit : Z) : option Z :=
  if bool_decide (oomAdj < MinBurstableOOMScoreAdj ∨ oomAdj > MaxBurstableOOMScoreAdj) then None
  else
    let req := default 0 (oomAdjToMemReqEstimates !! oomAdj) in
    if bool_decide (req < memLimit ∨ memLimit = 0) then Some req else None.

Lemma oom_estimates_exact_witness : ∃ table req, CalculateOomAdjToMemReqEstimates 2048 = Ok table ∧
  table !! 500 = Some req ∧ MemReqToOomAdj 2048 req = 500.
Proof.
  destruct (oom_estimates_exact 2048 ltac:(lia)) as (table & Ht & H). destruct (H 500 ltac:(lia)) as (req & Hr & Hadj & _).
  exists table, req. split; [exact Ht|]. split; [exact Hr|exact Hadj].
Defined.
