(* ===== verification/BlnTypes.v ===== *)
(** * Data of the balloons policy
    (cmd/plugins/balloons/policy/balloons-policy.go,
    pkg/apis/config/v1alpha1/resmgr/policy/balloons/config.go)

    Balloon types, balloons, the state of the policy and what it sees of the
    system and of the cache of containers.  Balloons and balloon types are
    shared by pointer in the code, so both live in heaps here. *)

From Stdlib Require Import Ascii.
From S2P Require Import Prelude GoStrings Expr MemTypes MemNodes MemRequest MemZones MemAllocator CpuTree CpuAlloc CpuTopo.

Open Scope string_scope.
Open Scope Z_scope.

(** ** Configuration *)

Record BalloonDef := MkDef {
  d_Name : string;
  d_Components : list string;
  d_ComponentCreation : string;
  d_Namespaces : list string;
  d_GroupBy : string;
  d_MatchExpressions : list Expression;
  d_MaxCpus : Z;
  d_MinCpus : Z;
  d_MemoryTypes : list string;
  d_PinMemory : option bool;
  d_AllocatorPriority : string;
  d_PreferSpreadOnPhysicalCores : option bool;
  d_HideHyperthreads : option bool;
  d_AllocatorTopologyBalancing : option bool;
  d_CpuClass : string;
  d_Loads : list string;
  d_MinBalloons : Z;
  d_MaxBalloons : Z;
  d_PreferSpreadingPods : bool;
  d_PreferPerNamespaceBalloon : bool;
  d_PreferNewBalloons : bool;
  d_ShareIdleCpusInSame : CPUTopologyLevel;
  d_PreferCloseToDevices : list string;
  d_PreferFarFromDevices : list string;
  d_PreferIsolCpus : bool;
  d_PreferCoreType : string;
  d_SchedulingClass : string;
  d_IrqClaim : list string;
  d_IrqMode : string;
}.

Definition NoLimit : Z := 0.

Definition reservedBalloonDefName := "reserved".
Definition defaultBalloonDefName := "default".
Definition defaultCpuClassName := "default".

(** A type with a name and everything else left out. *)
Definition nil_def : BalloonDef :=
  MkDef "" [] "" [] "" [] 0 0 [] None "" None None None "" [] 0 0 false false false LevelUndefined [] []
    false "" "" [] "".

(** [AllocatorPriority.Value]. *)
Definition prio_Value (p : string) : CPUPriority :=
  let p := to_lower p in
  if bool_decide (p = "high") then PriorityHigh
  else if bool_decide (p = "normal") then PriorityNormal
  else if bool_decide (p = "low") then PriorityLow
  else PriorityNone.

Record LoadClass := MkLoadClass {
  lc_Name : string;
  lc_Level : CPUTopologyLevel;
  lc_OverloadsLevelInBalloon : bool;
}.

(** A virtual device under load due to a load class. *)
Record loadClassVirtDev := MkVirtDev {
  vd_name : string;
  vd_level : CPUTopologyLevel;
  vd_updateOnEveryCpuAllocation : bool;
}.

(** Scheduling parameters that a class sets. *)
Record SchedulingClass := MkSchedulingClass {
  sc_Name : string;
  sc_Policy : string;
  sc_Priority : option Z;
  sc_Flags : list string;
  sc_Nice : option Z;
  sc_Runtime : option Z;
  sc_Deadline : option Z;
  sc_Period : option Z;
  sc_IOClass : string;
  sc_IOPriority : option Z;
}.

(** A CPU class (pkg/apis/config/v1alpha1/resmgr/policy/cpuclass.go).
    Frequencies are in kHz, with three values set apart for symbolic ones. *)
Record CPUClass := MkCPUClass {
  cc_Name : string;
  cc_MinFreq : Z;
  cc_MaxFreq : Z;
  cc_EnergyPerformancePreference : Z;
  cc_UncoreMinFreq : Z;
  cc_UncoreMaxFreq : Z;
  cc_FreqGovernor : string;
  cc_DisabledCstates : list string;
  cc_TurboPriority : Z;
  cc_PctPriority : string;
  cc_SstClosID : option Z;
  cc_PctMinFreq : Z;
  cc_PctMaxFreq : Z;
  cc_PublishExtendedResource : bool;
}.

(** [o_AvailableResources] and [o_ReservedResources] are the amounts of CPU. *)
Record BalloonsOptions := MkOptions {
  o_PinCPU : option bool;
  o_PinMemory : option bool;
  o_IdleCpuClass : string;
  o_ReservedPoolNamespaces : option (list string);
  o_AllocatorTopologyBalancing : bool;
  o_PreferSpreadOnPhysicalCores : bool;
  o_BalloonDefs : list positive;
  o_Preserve : option (list Expression);
  o_LoadClasses : list LoadClass;
  o_SchedulingClasses : list SchedulingClass;
  o_CPUClasses : list CPUClass;
  o_AvailableResources : option string;
  o_ReservedResources : option string;
}.

(** ** Balloons *)

(** The CPU tree allocator of a balloon.  The map of virtual devices in its
    options is also its cache of close CPU sets. *)
Record treeAlloc := MkTreeAlloc {
  al_tree : cpuTreeAllocator;
  al_virtDevCpusets : closeSets;
}.

Record Balloon := MkBalloon {
  b_Def : positive;
  b_Instance : Z;
  b_Cpus : CPUSet;
  b_Mems : Z;
  b_SharedIdleCpus : CPUSet;
  b_PodIDs : gmap string (list string);
  b_Groups : gmap string Z;
  b_LoadedVirtDevs : gset string;
  b_cpuTreeAlloc : option treeAlloc;
  b_memTypeMask : Z;
  b_components : list positive;
}.

Definition set_Cpus (v : CPUSet) (b : Balloon) : Balloon :=
  MkBalloon (b_Def b) (b_Instance b) v (b_Mems b) (b_SharedIdleCpus b) (b_PodIDs b) (b_Groups b)
    (b_LoadedVirtDevs b) (b_cpuTreeAlloc b) (b_memTypeMask b) (b_components b).

Definition set_Mems (v : Z) (b : Balloon) : Balloon :=
  MkBalloon (b_Def b) (b_Instance b) (b_Cpus b) v (b_SharedIdleCpus b) (b_PodIDs b) (b_Groups b)
    (b_LoadedVirtDevs b) (b_cpuTreeAlloc b) (b_memTypeMask b) (b_components b).

Definition set_SharedIdleCpus (v : CPUSet) (b : Balloon) : Balloon :=
  MkBalloon (b_Def b) (b_Instance b) (b_Cpus b) (b_Mems b) v (b_PodIDs b) (b_Groups b)
    (b_LoadedVirtDevs b) (b_cpuTreeAlloc b) (b_memTypeMask b) (b_components b).

Definition set_PodIDs (v : gmap string (list string)) (b : Balloon) : Balloon :=
  MkBalloon (b_Def b) (b_Instance b) (b_Cpus b) (b_Mems b) (b_SharedIdleCpus b) v (b_Groups b)
    (b_LoadedVirtDevs b) (b_cpuTreeAlloc b) (b_memTypeMask b) (b_components b).

Definition set_Groups (v : gmap string Z) (b : Balloon) : Balloon :=
  MkBalloon (b_Def b) (b_Instance b) (b_Cpus b) (b_Mems b) (b_SharedIdleCpus b) (b_PodIDs b) v
    (b_LoadedVirtDevs b) (b_cpuTreeAlloc b) (b_memTypeMask b) (b_components b).

Definition set_cpuTreeAlloc (v : option treeAlloc) (b : Balloon) : Balloon :=
  MkBalloon (b_Def b) (b_Instance b) (b_Cpus b) (b_Mems b) (b_SharedIdleCpus b) (b_PodIDs b) (b_Groups b)
    (b_LoadedVirtDevs b) v (b_memTypeMask b) (b_components b).

Definition nil_balloon : Balloon := MkBalloon 1 0 ∅ 0 ∅ ∅ ∅ ∅ None 0 [].

(** ** The state *)

(** Calls that set scheduling parameters of a container. *)
Inductive SchedCall :=
  | SetSchedulingPolicy (v : Z)
  | SetSchedulingPriority (v : Z)
  | SetSchedulingFlags (v : list Z)
  | SetSchedulingNice (v : Z)
  | SetSchedulingRuntime (v : Z)
  | SetSchedulingDeadline (v : Z)
  | SetSchedulingPeriod (v : Z)
  | SetSchedulingIOClass (v : Z)
  | SetSchedulingIOPriority (v : Z).

(** What the policy has set for a container; [pin_sched] are the scheduling
    parameters, in the order they were set. *)
Record Pinning := MkPinning {
  pin_cpus : option CPUSet;
  pin_shares : option Z;
  pin_mems : option string;
  pin_sched : list SchedCall;
}.

Definition no_pinning : Pinning := MkPinning None None None [].

(** [p_uses] are the calls made to the CPU class handler, oldest first. *)
Record balloons := MkBalloons {
  p_bpoptions : BalloonsOptions;
  p_allowed : CPUSet;
  p_reserved : CPUSet;
  p_freeCpus : CPUSet;
  p_ifreeCpus : CPUSet;
  p_reservedBalloonDef : option positive;
  p_defaultBalloonDef : option positive;
  p_balloons : list positive;
  p_loadVirtDev : gmap string loadClassVirtDev;
  p_memAllocator : Allocator;
  p_defs : gmap positive BalloonDef;
  p_heap : gmap positive Balloon;
  p_next : positive;
  p_uses : list (string * CPUSet);
  p_pins : gmap string Pinning;
}.

Definition with_freeCpus (v : CPUSet) (p : balloons) : balloons :=
  MkBalloons (p_bpoptions p) (p_allowed p) (p_reserved p) v (p_ifreeCpus p) (p_reservedBalloonDef p)
    (p_defaultBalloonDef p) (p_balloons p) (p_loadVirtDev p) (p_memAllocator p) (p_defs p) (p_heap p)
    (p_next p) (p_uses p) (p_pins p).

Definition with_balloons (v : list positive) (p : balloons) : balloons :=
  MkBalloons (p_bpoptions p) (p_allowed p) (p_reserved p) (p_freeCpus p) (p_ifreeCpus p) (p_reservedBalloonDef p)
    (p_defaultBalloonDef p) v (p_loadVirtDev p) (p_memAllocator p) (p_defs p) (p_heap p)
    (p_next p) (p_uses p) (p_pins p).

Definition with_memAllocator (v : Allocator) (p : balloons) : balloons :=
  MkBalloons (p_bpoptions p) (p_allowed p) (p_reserved p) (p_freeCpus p) (p_ifreeCpus p) (p_reservedBalloonDef p)
    (p_defaultBalloonDef p) (p_balloons p) (p_loadVirtDev p) v (p_defs p) (p_heap p)
    (p_next p) (p_uses p) (p_pins p).

Definition with_heap (v : gmap positive Balloon) (p : balloons) : balloons :=
  MkBalloons (p_bpoptions p) (p_allowed p) (p_reserved p) (p_freeCpus p) (p_ifreeCpus p) (p_reservedBalloonDef p)
    (p_defaultBalloonDef p) (p_balloons p) (p_loadVirtDev p) (p_memAllocator p) (p_defs p) v
    (p_next p) (p_uses p) (p_pins p).

Definition with_uses (v : list (string * CPUSet)) (p : balloons) : balloons :=
  MkBalloons (p_bpoptions p) (p_allowed p) (p_reserved p) (p_freeCpus p) (p_ifreeCpus p) (p_reservedBalloonDef p)
    (p_defaultBalloonDef p) (p_balloons p) (p_loadVirtDev p) (p_memAllocator p) (p_defs p) (p_heap p)
    (p_next p) v (p_pins p).

Definition with_pins (v : gmap string Pinning) (p : balloons) : balloons :=
  MkBalloons (p_bpoptions p) (p_allowed p) (p_reserved p) (p_freeCpus p) (p_ifreeCpus p) (p_reservedBalloonDef p)
    (p_defaultBalloonDef p) (p_balloons p) (p_loadVirtDev p) (p_memAllocator p) (p_defs p) (p_heap p)
    (p_next p) (p_uses p) v.

(** A configuration taken into use: its types live at new addresses. *)
Fixpoint add_defs (defs : list BalloonDef) (next : positive) (heap : gmap positive BalloonDef)
    : gmap positive BalloonDef * list positive * positive :=
  match defs with
  | [] => (heap, [], next)
  | d :: defs' =>
      let '(heap, ptrs, next') := add_defs defs' (Pos.succ next) (<[next := d]> heap) in
      (heap, next :: ptrs, next')
  end.

Definition set_BalloonDefs (v : list positive) (o : BalloonsOptions) : BalloonsOptions :=
  MkOptions (o_PinCPU o) (o_PinMemory o) (o_IdleCpuClass o) (o_ReservedPoolNamespaces o)
    (o_AllocatorTopologyBalancing o) (o_PreferSpreadOnPhysicalCores o) v (o_Preserve o) (o_LoadClasses o)
    (o_SchedulingClasses o) (o_CPUClasses o) (o_AvailableResources o) (o_ReservedResources o).

Definition with_bpoptions (o : BalloonsOptions) (defs : list BalloonDef) (p : balloons) : balloons :=
  let '(heap, ptrs, next) := add_defs defs (p_next p) (p_defs p) in
  MkBalloons (set_BalloonDefs ptrs o) (p_allowed p) (p_reserved p) (p_freeCpus p) (p_ifreeCpus p)
    (p_reservedBalloonDef p) (p_defaultBalloonDef p) (p_balloons p) (p_loadVirtDev p) (p_memAllocator p)
    heap (p_heap p) next (p_uses p) (p_pins p).

Definition with_allowed (v : CPUSet) (p : balloons) : balloons :=
  MkBalloons (p_bpoptions p) v (p_reserved p) (p_freeCpus p) (p_ifreeCpus p) (p_reservedBalloonDef p)
    (p_defaultBalloonDef p) (p_balloons p) (p_loadVirtDev p) (p_memAllocator p) (p_defs p) (p_heap p)
    (p_next p) (p_uses p) (p_pins p).

Definition with_reserved (v : CPUSet) (p : balloons) : balloons :=
  MkBalloons (p_bpoptions p) (p_allowed p) v (p_freeCpus p) (p_ifreeCpus p) (p_reservedBalloonDef p)
    (p_defaultBalloonDef p) (p_balloons p) (p_loadVirtDev p) (p_memAllocator p) (p_defs p) (p_heap p)
    (p_next p) (p_uses p) (p_pins p).

Definition with_ifreeCpus (v : CPUSet) (p : balloons) : balloons :=
  MkBalloons (p_bpoptions p) (p_allowed p) (p_reserved p) (p_freeCpus p) v (p_reservedBalloonDef p)
    (p_defaultBalloonDef p) (p_balloons p) (p_loadVirtDev p) (p_memAllocator p) (p_defs p) (p_heap p)
    (p_next p) (p_uses p) (p_pins p).

Definition with_builtin (reserved default : option positive) (p : balloons) : balloons :=
  MkBalloons (p_bpoptions p) (p_allowed p) (p_reserved p) (p_freeCpus p) (p_ifreeCpus p) reserved
    default (p_balloons p) (p_loadVirtDev p) (p_memAllocator p) (p_defs p) (p_heap p)
    (p_next p) (p_uses p) (p_pins p).

Definition with_loadVirtDev (v : gmap string loadClassVirtDev) (p : balloons) : balloons :=
  MkBalloons (p_bpoptions p) (p_allowed p) (p_reserved p) (p_freeCpus p) (p_ifreeCpus p) (p_reservedBalloonDef p)
    (p_defaultBalloonDef p) (p_balloons p) v (p_memAllocator p) (p_defs p) (p_heap p)
    (p_next p) (p_uses p) (p_pins p).

(** A new balloon at the next free address. *)
Definition new_object (b : Balloon) (p : balloons) : balloons * positive :=
  (MkBalloons (p_bpoptions p) (p_allowed p) (p_reserved p) (p_freeCpus p) (p_ifreeCpus p) (p_reservedBalloonDef p)
     (p_defaultBalloonDef p) (p_balloons p) (p_loadVirtDev p) (p_memAllocator p) (p_defs p)
     (<[p_next p := b]> (p_heap p)) (Pos.succ (p_next p)) (p_uses p) (p_pins p), p_next p).

(** The balloon a pointer points to and the type of a balloon; the pointers
    of the code are not nil. *)
Definition bln (p : balloons) (x : positive) : Balloon := default nil_balloon (p_heap p !! x).

Definition def_at (p : balloons) (d : positive) : BalloonDef := default nil_def (p_defs p !! d).

Definition def_of (p : balloons) (x : positive) : BalloonDef := def_at p (b_Def (bln p x)).

Definition upd_bln (x : positive) (f : Balloon → Balloon) (p : balloons) : balloons :=
  with_heap (<[x := f (bln p x)]> (p_heap p)) p.

(** ** The system and the cache *)

(** Placement preferences of the CPU class handler. *)
Record CpuPreference := MkPreference {
  pref_Name : string;
  pref_Cpus : list CPUSet;
}.

Record AllocationIntent := MkIntent {
  in_ClassName : string;
  in_CurrentCpus : CPUSet;
  in_FreeCpus : CPUSet;
  in_RequestedCount : Z;
}.

(** What the policy sees of the system.  The preferences of the CPU class
    handler depend on its configuration and on how it has been used so far. *)
Record Env := MkEnv {
  e_cpuTree : cpuTreeNode;
  e_cpuAllocator : option CpuSys * topologyCache;
  e_System : TopoSys;
  e_Isolated : CPUSet;
  e_NewTopologyHints : string → option (list CPUSet);
  e_Hints : BalloonsOptions → list (string * CPUSet) → AllocationIntent → list CpuPreference * list CpuPreference;
  e_Parse : string → option CPUSet;
  (** the names of scheduler policies, flags and I/O classes of NRI *)
  e_LinuxSchedulerPolicy_value : gmap string Z;
  e_LinuxSchedulerFlag_value : gmap string Z;
  e_IOPrioClass_value : gmap string Z;
  e_now : positive → Z;
  e_SysNodes : list SysNode;
  (** a quantity in thousandths *)
  e_ParseQuantity : string → option Z;
  (** whether the CPU class handler can be made and takes a configuration, and
      whether interrupts can be limited to what the configuration allows *)
  e_NewHandler : bool;
  e_Configure : BalloonsOptions → CPUSet → bool;
  e_SetAllowedInterrupts : BalloonsOptions → bool;
}.

(** [AllThreadsForCPUs], [AllCPUsSharingNthLevelCacheWithCPUs] and
    [SingleThreadForCPUs] of a system (pkg/sysfs/system.go). *)
Section sysfs.
Context `{GoRuntime} (sys : TopoSys).

Definition known_cpu (id : Z) : bool := bool_decide (id ∈ cs_CPUIDs (ts_sys sys)).

Definition AllThreadsForCPUs (cpus : CPUSet) : CPUSet :=
  fold_left (λ all id, if known_cpu id then all ∪ ts_ThreadCPUSet sys id else all) (UnsortedList cpus) ∅.

Definition AllCPUsSharingNthLevelCacheWithCPUs (n : Z) (cpus : CPUSet) : CPUSet :=
  fold_left (λ (all : CPUSet) id,
      if bool_decide (id ∈ all) then all
      else if known_cpu id then all ∪ ts_GetNthLevelCacheCPUSet sys id n
      else all) (UnsortedList cpus) ∅.

(** The CPUs taken and the CPUs already handled. *)
Definition single_thread_step (st : CPUSet * CPUSet) (cpu : Z) : CPUSet * CPUSet :=
  let '(result, handled) := st in
  if bool_decide (cpu ∈ handled) then (result, handled)
  else
    let handled := handled ∪ {[cpu]} in
    let result := result ∪ {[cpu]} in
    if known_cpu cpu then (result, handled ∪ ts_ThreadCPUSet sys cpu) else (result, handled).

Definition SingleThreadForCPUs (cpus : CPUSet) : CPUSet :=
  (fold_left single_thread_step (CPUSet_List cpus) (∅, ∅)).1.
End sysfs.

(** A device assigned to a container, with the NUMA nodes it is close to. *)
Record ContainerDevice := MkDevice {
  dev_ResourceName : string;
  dev_NUMANodes : list Z;
}.

(** A container of the cache: its resource requirements and what else the
    policy asks it for.  [ct_memoryUpdate] is the memory limit in a pending
    update of its resources. *)
Record Ctr := MkCtr {
  ct_container : container;
  ct_requestCPU : option Z;
  ct_limitCPU : option Z;
  ct_limitMemory : option Z;
  ct_memoryUpdate : option (option Z);
  ct_cpusetMems : string;
  ct_ctime : Z;
  ct_podResources : option (list ContainerDevice);
}.

Record Cache_ := MkCache_ {
  cch_pods : gmap string pod;
  cch_annotations : gmap string (gmap string string);
  cch_podCtime : gmap string Z;
  cch_containers : gmap string Ctr;
}.

Definition ct_ID (c : Ctr) : string := c_id (ct_container c).
Definition ct_PodID (c : Ctr) : string := c_podID (ct_container c).
