(* ===== verification/BlnPin.v ===== *)
(** * Containers, CPU classes and pinning in the balloons policy
    (cmd/plugins/balloons/policy/balloons-policy.go, pkg/resmgr/cache/container.go)

    What the policy asks containers for, the classes of CPUs, the sharing of
    idle CPUs, and the pinning of containers to CPUs and memory. *)

From Stdlib Require Import Ascii.
From S2P Require Import Prelude GoStrings Expr MemTypes MemNodes MemRequest MemZones MemAllocator CpuTree CpuAlloc CpuTopo Kube BlnTypes.

Open Scope string_scope.
Open Scope Z_scope.

Abbreviation append := String.append.

(** ** Annotations (pkg/resmgr/cache) *)

Definition ResmgrKeyNamespace := "resource-policy.nri.io".
Definition balloonKey := append "balloon.balloons." ResmgrKeyNamespace.
Definition hideHyperthreadsKey := append "hide-hyperthreads." ResmgrKeyNamespace.
Definition schedulingClassKey := append "scheduling-class." ResmgrKeyNamespace.
Definition PreserveCpuKey := append "cpu.preserve." ResmgrKeyNamespace.
Definition PreserveMemoryKey := append "memory.preserve." ResmgrKeyNamespace.
Definition MemoryTypeKey := append "memory-type." ResmgrKeyNamespace.

(** [strconv.ParseBool] *)
Definition ParseBool (s : string) : option bool :=
  if bool_decide (s ∈ ["1"; "t"; "T"; "TRUE"; "true"; "True"]) then Some true
  else if bool_decide (s ∈ ["0"; "f"; "F"; "FALSE"; "false"; "False"]) then Some false
  else None.

(** [QueryEffectiveAnnotation] of a pod without the scope: container, pod and
    unscoped annotation. *)
Definition effective (annotations : gmap string string) (key container : string) : option string :=
  match annotations !! append key (append "/container." container) with
  | Some v => Some v
  | None =>
      match annotations !! append key "/pod" with
      | Some v => Some v
      | None => annotations !! key
      end
  end.

Section cache.
Context (cch : Cache_).

Definition GetEffectiveAnnotation (c : Ctr) (key : string) : option string :=
  match cch_pods cch !! ct_PodID c with
  | None => None
  | Some _ => effective (default ∅ (cch_annotations cch !! ct_PodID c)) key (c_name (ct_container c))
  end.

Definition PreserveCpuResources (c : Ctr) : bool :=
  bool_decide (GetEffectiveAnnotation c PreserveCpuKey = Some "true").

Definition PreserveMemoryResources (c : Ctr) : bool :=
  bool_decide (GetEffectiveAnnotation c PreserveMemoryKey = Some "true").

(** The types of an invalid annotation are logged and ignored by the caller. *)
Definition MemoryTypes (c : Ctr) : res Z :=
  match GetEffectiveAnnotation c MemoryTypeKey with
  | None => Ok 0
  | Some value =>
      match ParseTypeMask value with
      | Ok mask => Ok mask
      | Err _ => Err ErrOther
      end
  end.

Definition pod_PrettyName (pod : pod) : string :=
  append (if bool_decide (p_namespace pod = "") then "<unknown-namespace>/" else append (p_namespace pod) "/")
    (if bool_decide (p_name pod = "") then "<unknown-pod>" else p_name pod).

Definition PrettyName (c : Ctr) : string :=
  append
    match cch_pods cch !! ct_PodID c with
    | Some pod => pod_PrettyName pod
    | None => append "<unknown-pod " (append (ct_PodID c) ">")
    end (append "/" (c_name (ct_container c))).

(** ** Requests of containers *)

Definition containerRequestedMilliCpus (contID : string) : Z :=
  match cch_containers cch !! contID with
  | None => 0
  | Some cont => default 0 (ct_requestCPU cont)
  end.

Definition containerLimitedMilliCpus (contID : string) : Z :=
  match cch_containers cch !! contID with
  | None => 0
  | Some cont => default 0 (ct_limitCPU cont)
  end.

Definition getMemoryLimit (c : Ctr) : Z :=
  match ct_memoryUpdate c with
  | Some limit => default 0 limit
  | None => default 0 (ct_limitMemory c)
  end.

(** [runWithoutHyperthreads]: an annotation overrides the balloon type. *)
Definition runWithoutHyperthreads (c : Ctr) (def : BalloonDef) : bool :=
  match (match GetEffectiveAnnotation c hideHyperthreadsKey with
         | Some value => ParseBool value
         | None => None
         end) with
  | Some hide => hide
  | None => default false (d_HideHyperthreads def)
  end.
End cache.

Section pinning.
Context `{GoRuntime} (E : Env) (cch : Cache_).

(** ** Containers of a balloon *)

Definition ContainerIDs (b : Balloon) : list string :=
  concat (map_range (b_PodIDs b)).*2.

Definition ContainerCount (b : Balloon) : Z :=
  fold_left (λ count kv, count + Z.of_nat (length kv.2)) (map_range (b_PodIDs b)) 0.

Definition AvailMilliCpus (b : Balloon) : Z := csize (b_Cpus b) * 1000.

Definition requestedMilliCpus (b : Balloon) : Z :=
  fold_left (λ cpuRequested cID, i64 (cpuRequested + containerRequestedMilliCpus cch cID)) (ContainerIDs b) 0.

Definition freeMilliCpus (p : balloons) (x : positive) : Z :=
  i64 (AvailMilliCpus (bln p x) - requestedMilliCpus (bln p x)).

(** ** CPU classes *)

Definition resolveCpuClassName (p : balloons) (name : string) : string :=
  if bool_decide (name ≠ "") then name
  else if bool_decide (defaultCpuClassName ∈ cc_Name <$> o_CPUClasses (p_bpoptions p)) then defaultCpuClassName
  else "".

Definition UseClass (class : string) (cpus : CPUSet) (p : balloons) : balloons :=
  with_uses (app (p_uses p) [(class, cpus)]) p.

Definition resetCpuClass (p : balloons) : balloons :=
  UseClass (resolveCpuClassName p (o_IdleCpuClass (p_bpoptions p))) (p_allowed p) p.

(** The components of a balloon are older than it, so their addresses are
    smaller and the address bounds the depth of the recursion. *)
Fixpoint use_cpu_class (depth : nat) (x : positive) (p : balloons) : balloons :=
  match depth with
  | O => p
  | S depth' =>
      match b_components (bln p x) with
      | [] => UseClass (resolveCpuClassName p (d_CpuClass (def_of p x))) (b_Cpus (bln p x)) p
      | components => fold_left (λ p compBln, use_cpu_class depth' compBln p) components p
      end
  end.

Definition useCpuClass (x : positive) (p : balloons) : balloons := use_cpu_class (Pos.to_nat x) x p.

Definition forgetCpuClass (x : positive) (p : balloons) : balloons :=
  UseClass (resolveCpuClassName p (o_IdleCpuClass (p_bpoptions p))) (b_Cpus (bln p x)) p.

(** ** Pinning *)

Definition pinning (id : string) (p : balloons) : Pinning := default no_pinning (p_pins p !! id).

Definition SetCpusetCpus (id : string) (cpus : CPUSet) (p : balloons) : balloons :=
  let pin := pinning id p in
  with_pins (<[id := MkPinning (Some cpus) (pin_shares pin) (pin_mems pin) (pin_sched pin)]> (p_pins p)) p.

Definition SetCPUShares (id : string) (shares : Z) (p : balloons) : balloons :=
  let pin := pinning id p in
  with_pins (<[id := MkPinning (pin_cpus pin) (Some shares) (pin_mems pin) (pin_sched pin)]> (p_pins p)) p.

Definition SetCpusetMems (id : string) (mems : string) (p : balloons) : balloons :=
  let pin := pinning id p in
  with_pins (<[id := MkPinning (pin_cpus pin) (pin_shares pin) (Some mems) (pin_sched pin)]> (p_pins p)) p.

Definition GetCpusetMems (c : Ctr) (p : balloons) : string :=
  default (ct_cpusetMems c) (pin_mems (pinning (ct_ID c) p)).

(** The nodes closest to CPUs, kept as a mask. *)
Definition closestMems (p : balloons) (cpus : CPUSet) : Z := CPUSetAffinity (p_memAllocator p) cpus.

(** [allocMem]: the zone of the container, new or changed, and the nodes
    themselves if there is an error. *)
Definition allocMem (c : Ctr) (nodes types : Z) (preserve : bool) (p : balloons) : balloons * Z :=
  let amount := getMemoryLimit c in
  let a := p_memAllocator p in
  let '(a, r) :=
    if negb (AssignedZone a (ct_ID c)).2 then
      let ptr := fresh (dom (a_heap a)) in
      let req :=
        if preserve then PreservedContainer (e_now E ptr) (ct_ID c) (PrettyName cch c) amount nodes
        else ContainerWithTypes (e_now E ptr) (ct_ID c) (PrettyName cch c)
               (GetQOSClass (cch_pods cch) (ct_container c)) amount nodes types in
      Allocate no_custom ptr (MemZones.with_heap (<[ptr := req]> (a_heap a)) a)
    else Realloc no_custom (ct_ID c) nodes types a in
  let p := with_memAllocator a p in
  match r with
  | Err _ => (p, nodes)
  | Ok (zone, updates) =>
      (fold_left (λ p idz,
          match cch_containers cch !! idz.1 with
          | Some _ => SetCpusetMems idz.1 (NodeMask_MemsetString idz.2) p
          | None => p
          end) (map_range updates) p, zone)
  end.

(** [parseIDSet], as a mask. *)
Definition parseIDSet (mems : string) : option Z :=
  match e_Parse E mems with
  | None => None
  | Some ids => Some (NewNodeMask (CPUSet_List ids))
  end.

Definition pinMem (c : Ctr) (mems memTypeMask : Z) (p : balloons) : balloons :=
  if PreserveMemoryResources cch c then
    match parseIDSet (GetCpusetMems c p) with
    | None => p
    | Some preserveMems =>
        let '(p, zone) := allocMem c preserveMems 0 true p in
        SetCpusetMems (ct_ID c) (NodeMask_MemsetString zone) p
    end
  else
    let effMemTypeMask := match MemoryTypes cch c with Ok m => m | Err _ => 0 end in
    let effMemTypeMask := if bool_decide (effMemTypeMask ≠ 0) then effMemTypeMask else memTypeMask in
    let '(p, zone) := allocMem c mems effMemTypeMask false p in
    SetCpusetMems (ct_ID c) (NodeMask_MemsetString zone) p.

Definition pinCpuMem (c : Ctr) (cpus : CPUSet) (mems memTypeMask : Z) (blnDefPinMemory : option bool)
    (p : balloons) : balloons :=
  let p :=
    if default true (o_PinCPU (p_bpoptions p)) then
      let p := SetCpusetCpus (ct_ID c) cpus p in
      match ct_requestCPU c with
      | Some mCpu => SetCPUShares (ct_ID c) (MilliCPUToShares mCpu) p
      | None => p
      end
    else p in
  let pinMemory := default (default true (o_PinMemory (p_bpoptions p))) blnDefPinMemory in
  if pinMemory then pinMem c mems memTypeMask p else p.

(** [updatePinning] of a balloon. *)
Definition update_pinning (x : positive) (p : balloons) : balloons :=
  let pinnableCpus := b_Cpus (bln p x) ∪ b_SharedIdleCpus (bln p x) in
  let p := upd_bln x (set_Mems (closestMems p pinnableCpus)) p in
  fold_left (λ p cID,
      match cch_containers cch !! cID with
      | None => p
      | Some c =>
          let allowedCpus :=
            if runWithoutHyperthreads cch c (def_of p x) then SingleThreadForCPUs (e_System E) pinnableCpus
            else pinnableCpus in
          pinCpuMem c allowedCpus (b_Mems (bln p x)) (b_memTypeMask (bln p x)) (d_PinMemory (def_of p x)) p
      end) (ContainerIDs (bln p x)) p.

Definition updatePinning (blns : list positive) (p : balloons) : balloons :=
  fold_left (λ p x, update_pinning x p) blns p.

(** ** Sharing idle CPUs *)

(** The idle CPUs in the parts of the topology where the balloon has CPUs. *)
Definition idle_in_level (topoLevel : CPUTopologyLevel) (cpus addCpus : CPUSet) : CPUSet :=
  (DepthFirstWalk (λ _ t (idle : CPUSet),
     if bool_decide (t_level t ≠ topoLevel) then (idle, WalkOn)
     else if bool_decide (csize (t_cpus t ∩ cpus) > 0) then (idle ∪ (t_cpus t ∩ addCpus), WalkSkipChildren)
     else (idle, WalkSkipChildren)) (-1) (e_cpuTree E) ∅).1.

(** Take CPUs away from the balloons that share them. *)
Definition unshare_step (removeCpus : CPUSet) (st : balloons * gset nat) (ix : nat * positive)
    : balloons * gset nat :=
  let '(p, updated) := st in
  let shared := b_SharedIdleCpus (bln p ix.2) in
  if bool_decide (csize (shared ∩ removeCpus) > 0)
  then (upd_bln ix.2 (set_SharedIdleCpus (shared ∖ removeCpus)) p, {[ix.1]} ∪ updated)
  else (p, updated).

Definition share_step (addCpus : CPUSet) (st : balloons * gset nat) (ix : nat * positive)
    : balloons * gset nat :=
  let '(p, updated) := st in
  let topoLevel := d_ShareIdleCpusInSame (def_of p ix.2) in
  if bool_decide (topoLevel = LevelUndefined) then (p, updated)
  else
    let idle := idle_in_level topoLevel (b_Cpus (bln p ix.2)) addCpus in
    if bool_decide (csize idle = 0) then (p, updated)
    else
      let shared := b_SharedIdleCpus (bln p ix.2) in
      let p := upd_bln ix.2 (set_SharedIdleCpus (shared ∪ idle)) p in
      (p, if bool_decide (csize shared ≠ csize (shared ∪ idle)) then {[ix.1]} ∪ updated else updated).

(** [shareIdleCpus]: the balloons to pin again, in any order. *)
Definition shareIdleCpus (addCpus removeCpus : CPUSet) (p : balloons) : balloons * list positive :=
  let indexed := imap (λ i x, (i, x)) (p_balloons p) in
  let '(p, updated) :=
    if bool_decide (csize removeCpus > 0) then fold_left (unshare_step removeCpus) indexed (p, ∅) else (p, ∅) in
  let addCpus := addCpus ∖ e_Isolated E in
  let '(p, updated) :=
    if bool_decide (csize addCpus > 0) then fold_left (share_step addCpus) indexed (p, updated)
    else (p, updated) in
  (p, omap (λ ix, p_balloons p !! ix) (map_range (gset_to_gmap tt updated)).*1).
End pinning.
