(* ===== verification/BlnHints.v ===== *)
(** * Placement hints of the balloons policy
    (cmd/plugins/balloons/policy/balloons-policy.go)

    Balloons are placed with virtual devices in the options of their CPU tree
    allocators: CPUs under load, preferences of the CPU class handler, and the
    locality of the devices of containers. *)

From Stdlib Require Import Ascii.
From S2P Require Import Prelude GoStrings Expr MemTypes MemNodes MemZones CpuTree CpuAlloc CpuTopo Kube BlnTypes BlnPin.

Open Scope string_scope.
Open Scope Z_scope.

(** ** Options of an allocator *)

Definition virt_devs (o : cpuTreeAllocatorOptions) : closeSets := default ∅ (virtDevCpusets o).

Definition with_close (v : list string) (o : cpuTreeAllocatorOptions) : cpuTreeAllocatorOptions :=
  MkTreeOptions (topologyBalancing o) (preferSpreadOnPhysicalCores o) v (preferFarFromDevices o)
    (virtDevCpusets o) (deviceUpdateOnEveryCpu o).

Definition with_far (v : list string) (o : cpuTreeAllocatorOptions) : cpuTreeAllocatorOptions :=
  MkTreeOptions (topologyBalancing o) (preferSpreadOnPhysicalCores o) (preferCloseToDevices o) v
    (virtDevCpusets o) (deviceUpdateOnEveryCpu o).

Definition with_virt_devs (v : closeSets) (o : cpuTreeAllocatorOptions) : cpuTreeAllocatorOptions :=
  MkTreeOptions (topologyBalancing o) (preferSpreadOnPhysicalCores o) (preferCloseToDevices o)
    (preferFarFromDevices o) (Some v) (deviceUpdateOnEveryCpu o).

Definition with_update (v : option (CPUSet → closeSets → closeSets)) (o : cpuTreeAllocatorOptions)
    : cpuTreeAllocatorOptions :=
  MkTreeOptions (topologyBalancing o) (preferSpreadOnPhysicalCores o) (preferCloseToDevices o)
    (preferFarFromDevices o) (virtDevCpusets o) v.

(** The options of a balloon's allocator, with the devices it knows by now. *)
Definition alloc_options (a : treeAlloc) : cpuTreeAllocatorOptions :=
  with_virt_devs (al_virtDevCpusets a) (ta_options (al_tree a)).

Definition with_options (o : cpuTreeAllocatorOptions) (a : treeAlloc) : treeAlloc :=
  MkTreeAlloc (MkTreeAllocator o (ta_root (al_tree a))) (virt_devs o).

Definition HasPrefix (s pref : string) : bool := String.prefix pref s.

Definition filterOutPrefixDevs (devs : list string) (pref : string) : list string :=
  filter (λ d, HasPrefix d pref = false) devs.

(** Delete the devices with a prefix. *)
Definition delete_prefix (pref : string) (m : closeSets) : closeSets :=
  filter (λ kv, HasPrefix kv.1 pref = false) m.

Section hints.
Context `{GoRuntime} (E : Env).

(** ** CPUs under load *)

(** [updateLoadedVirtDev]; other levels than these are not implemented. *)
Definition updateLoadedVirtDev (virtDev : loadClassVirtDev) (vdCpus : CPUSet) (overwrite : bool) (m : closeSets)
    : closeSets :=
  let prevCpus :=
    if overwrite then ∅
    else match m !! vd_name virtDev with
         | Some (cpus :: _) => cpus
         | _ => ∅
         end in
  match vd_level virtDev with
  | LevelCore => <[vd_name virtDev := [prevCpus ∪ AllThreadsForCPUs (e_System E) vdCpus]]> m
  | LevelL2Cache =>
      <[vd_name virtDev := [prevCpus ∪ AllCPUsSharingNthLevelCacheWithCPUs (e_System E) 2 vdCpus]]> m
  | _ => m
  end.

(** The CPUs of all balloons that put load on a device. *)
Definition loaded_cpus (p : balloons) (vdName : string) : CPUSet :=
  fold_left (λ vdCpus x,
      if bool_decide (vdName ∈ b_LoadedVirtDevs (bln p x)) then vdCpus ∪ b_Cpus (bln p x) else vdCpus)
    (p_balloons p) ∅.

(** A load without a load class is a nil pointer. *)
Fixpoint load_virt_devs (p : balloons) (loads : list string) (loaded : gset string) (m : closeSets)
    : res (closeSets * gset string) :=
  match loads with
  | [] => Ok (m, loaded)
  | lc :: loads' =>
      match p_loadVirtDev p !! lc with
      | None => Err Panic
      | Some virtDev =>
          if bool_decide (vd_name virtDev ∈ loaded) then load_virt_devs p loads' loaded m
          else load_virt_devs p loads' ({[vd_name virtDev]} ∪ loaded)
                 (updateLoadedVirtDev virtDev (loaded_cpus p (vd_name virtDev)) true m)
      end
  end.

Definition updateLoadedVirtDevsInAllocatorOptions (p : balloons) (o : cpuTreeAllocatorOptions)
    (loadClassNames : list string) : res (cpuTreeAllocatorOptions * gset string) :=
  match load_virt_devs p loadClassNames ∅ (virt_devs o) with
  | Ok (m, loaded) => Ok (with_virt_devs m o, loaded)
  | Err e => Err e
  end.

Definition virtDevsChangeDuringCpuAllocation (p : balloons) (loadClassNames : list string) : bool :=
  existsb (λ lc,
      match p_loadVirtDev p !! lc with
      | Some virtDev => vd_updateOnEveryCpuAllocation virtDev
      | None => false
      end) loadClassNames.

(** The function a new balloon updates its loaded devices with for every CPU;
    its loads have been looked up before. *)
Definition update_on_every_cpu (p : balloons) (loads : list string) : CPUSet → closeSets → closeSets :=
  λ currentCpus m,
  fold_left (λ m virtDev, updateLoadedVirtDev virtDev currentCpus false m)
    (omap (λ load, p_loadVirtDev p !! load) loads) m.

(** ** CPU classes *)

Definition cpuClassHintDevPrefix := "__cls_".

Definition hint_name (kind : string) (i : nat) (name : string) : string :=
  append cpuClassHintDevPrefix (append kind (append (itoa (Z.of_nat i)) (append "_" name))).

Definition add_prefer (o : cpuTreeAllocatorOptions) (ipref : nat * CpuPreference) : cpuTreeAllocatorOptions :=
  let name := hint_name "pref_" ipref.1 (pref_Name ipref.2) in
  let o := with_virt_devs (<[name := pref_Cpus ipref.2]> (virt_devs o)) o in
  with_close (app (preferCloseToDevices o) [name]) o.

Definition add_avoid (o : cpuTreeAllocatorOptions) (iav : nat * CpuPreference) : cpuTreeAllocatorOptions :=
  let name := hint_name "avoid_" iav.1 (pref_Name iav.2) in
  let o := with_virt_devs (<[name := pref_Cpus iav.2]> (virt_devs o)) o in
  with_far (app (preferFarFromDevices o) [name]) o.

(** Forget the hints of an earlier round. *)
Definition drop_class_hints (o : cpuTreeAllocatorOptions) : cpuTreeAllocatorOptions :=
  let o := with_close (filterOutPrefixDevs (preferCloseToDevices o) cpuClassHintDevPrefix) o in
  let o := with_far (filterOutPrefixDevs (preferFarFromDevices o) cpuClassHintDevPrefix) o in
  with_virt_devs (delete_prefix cpuClassHintDevPrefix (virt_devs o)) o.

Definition mergeCpuClassHints (hints : list CpuPreference * list CpuPreference) (o : cpuTreeAllocatorOptions)
    : cpuTreeAllocatorOptions :=
  let o := drop_class_hints o in
  let o := fold_left add_prefer (imap pair hints.1) o in
  fold_left add_avoid (imap pair hints.2) o.

(** [applyCpuClassHints]; the handler has been made before there are balloons. *)
Definition applyCpuClassHints (p : balloons) (o : cpuTreeAllocatorOptions) (cpuClass : string)
    (currentCpus : CPUSet) (requestedCount : Z) : cpuTreeAllocatorOptions :=
  mergeCpuClassHints (e_Hints E (p_bpoptions p) (p_uses p) (MkIntent cpuClass currentCpus (p_freeCpus p) requestedCount)) o.

(** ** Devices of containers *)

Definition HintProvider := "podresourceapi:".
Definition podResourceHintDevPrefix := "__podres_".

Definition IsPodResourceHint (provider : string) : bool := HasPrefix provider HintProvider.

Definition podResourceDeviceName (dev : string) : option string := strip_prefix HintProvider dev.

Definition podResourceHintDevName (c : option Ctr) (resourceName : string) : string :=
  let ctrID := match c with Some c => ct_ID c | None => "unknown" end in
  append podResourceHintDevPrefix (append ctrID (append "_" resourceName)).

(** [None] if there is no locality to be found. *)
Definition containerDeviceCpus (p : balloons) (c : Ctr) (resourceName : string) : option CPUSet :=
  match ct_podResources c with
  | None => None
  | Some devices =>
      let numas : CPUSet :=
        fold_left (λ numas dev,
            if filepath_Match resourceName (dev_ResourceName dev) then numas ∪ list_to_set (dev_NUMANodes dev)
            else numas) devices ∅ in
      if bool_decide (csize numas = 0) then None
      else
        let cpus := fold_left (λ cpus numaID,
            if bool_decide (numaID ∈ ts_NodeIDs (e_System E)) then cpus ∪ ts_NodeCPUSet (e_System E) numaID
            else cpus) (CPUSet_List numas) ∅ in
        if bool_decide (cpus = ∅) then None else Some (cpus ∩ p_allowed p)
  end.

Fixpoint resolvePodResourceDevs (p : balloons) (c : option Ctr) (devs : list string) (m : closeSets)
    : list string * closeSets :=
  match devs with
  | [] => ([], m)
  | dev :: devs' =>
      match podResourceDeviceName dev with
      | None => let '(out, m) := resolvePodResourceDevs p c devs' m in (dev :: out, m)
      | Some resourceName =>
          match (match c with Some c => containerDeviceCpus p c resourceName | None => None end) with
          | None => resolvePodResourceDevs p c devs' m
          | Some cpus =>
              let name := podResourceHintDevName c resourceName in
              let '(out, m) := resolvePodResourceDevs p c devs' (<[name := [cpus]]> m) in (name :: out, m)
          end
      end
  end.

Definition applyPodResourcesHints (p : balloons) (o : cpuTreeAllocatorOptions) (c : option Ctr)
    : cpuTreeAllocatorOptions :=
  let '(devs, m) := resolvePodResourceDevs p c (preferCloseToDevices o) (virt_devs o) in
  with_close devs (with_virt_devs m o).

(** Remove the hints with a prefix from an allocator. *)
Definition remove_hints (pref : string) (a : treeAlloc) : treeAlloc :=
  let o := alloc_options a in
  if bool_decide (delete_prefix pref (virt_devs o) ≠ virt_devs o) then
    let o := with_virt_devs (delete_prefix pref (virt_devs o)) o in
    with_options (with_close (filterOutPrefixDevs (preferCloseToDevices o) pref) o) a
  else a.

(** [removePodResourcesHints]: the balloon and its direct components. *)
Definition removePodResourcesHints (x : positive) (c : Ctr) (p : balloons) : balloons :=
  let pref := podResourceHintDevName (Some c) "" in
  fold_left (λ p y,
      match b_cpuTreeAlloc (bln p y) with
      | None => p
      | Some a => upd_bln y (set_cpuTreeAlloc (Some (remove_hints pref a))) p
      end) (x :: b_components (bln p x)) p.
End hints.
