(* ===== verification/BlnOps.v ===== *)
(** * Resizing, creating and deleting balloons
    (cmd/plugins/balloons/policy/balloons-policy.go) *)

From Stdlib Require Import Ascii.
From S2P Require Import Prelude GoStrings Expr MemTypes MemNodes MemZones CpuTree CpuAlloc CpuTopo Kube BlnTypes BlnPin BlnHints.

Open Scope string_scope.
Open Scope Z_scope.

Definition virtDevReservedCpus := "reserved CPUs".
Definition virtDevIsolatedCpus := "isolated CPUs".
Definition virtDevECores := "efficient cores".
Definition virtDevPCores := "performance cores".

Definition ComponentCreationAll := "all".
Definition ComponentCreationBalanceBalloons := "balance-balloons".

(** An error in the text of another one; a panic goes on. *)
Definition crash (e : error) : bool := bool_decide (e = Panic ∨ e = OutOfFuel).

Definition wrapped (e : error) : error := if crash e then e else ErrOther.

(** ** Finding balloons and their types *)

Definition balloonsByFunc (blns : list positive) (f : positive → bool) : list positive :=
  filter (λ x, f x = true) blns.

(** Types are compared by pointer. *)
Definition balloonsByDef (p : balloons) (blnDef : positive) : list positive :=
  balloonsByFunc (p_balloons p) (λ x, bool_decide (b_Def (bln p x) = blnDef)).

Definition balloonDefByName (p : balloons) (defName : string) : option positive :=
  list_find (λ d, d_Name (def_at p d) = defName) (o_BalloonDefs (p_bpoptions p)) ≫= λ id, Some id.2.

(** The loop that collects the names of a type and of its components; a type
    is pushed again only while its name has not been counted. *)
Fixpoint count_defs (rounds : nat) (p : balloons) (unhandled : list positive) (names : gset string)
    : res (gset string) :=
  match unhandled with
  | [] => Ok names
  | current :: unhandled' =>
      match rounds with
      | O => Err OutOfFuel
      | S rounds' =>
          let names := {[d_Name (def_at p current)]} ∪ names in
          let unhandled := fold_left (λ unhandled comp,
              match balloonDefByName p comp with
              | Some compDef =>
                  if bool_decide (d_Name (def_at p compDef) ∈ names) then unhandled else compDef :: unhandled
              | None => unhandled
              end) (d_Components (def_at p current)) unhandled' in
          count_defs rounds' p unhandled names
      end
  end.

(** Every type pushes its components at most once. *)
Definition count_rounds (p : balloons) : nat :=
  S (sum_list_with (λ d, length (d_Components (def_at p d))) (o_BalloonDefs (p_bpoptions p))).

Fixpoint add_with_components (depth : nat) (p : balloons) (names : gset string) (x : positive) : list positive :=
  match depth with
  | O => []
  | S depth' =>
      app (if bool_decide (d_Name (def_of p x) ∈ names) then [x] else [])
        (concat (add_with_components depth' p names <$> b_components (bln p x)))
  end.

Definition balloonsByDefIncludingComponents (p : balloons) (blnDef : positive) : res (list positive) :=
  match count_defs (count_rounds p) p [blnDef] ∅ with
  | Ok names => Ok (concat ((λ x, add_with_components (Pos.to_nat x) p names x) <$> p_balloons p))
  | Err e => Err e
  end.

(** [memTypeMaskFromStringList] *)
Fixpoint mem_type_mask (mask : Z) (memTypes : list string) : res Z :=
  match memTypes with
  | [] => Ok mask
  | typeString :: memTypes' =>
      match ParseType typeString with
      | Err e => Err e
      | Ok memType => mem_type_mask (mask ||| Type_Mask memType) memTypes'
      end
  end.

Definition memTypeMaskFromStringList (memTypes : list string) : res Z := mem_type_mask 0 memTypes.

Definition mask_or_none (memTypes : list string) : Z :=
  match memTypeMaskFromStringList memTypes with Ok m => m | Err _ => 0 end.

Section ops.
Context `{GoRuntime} (E : Env) (cch : Cache_).

Definition alloc_cpus (from : CPUSet) (cnt : Z) (prio : CPUPriority) : res CPUSet * CPUSet :=
  AllocateCpus (e_cpuAllocator E).1 (e_cpuAllocator E).2 from cnt [CpuAlloc.WithPriority prio].

Definition release_cpus (from : CPUSet) (cnt : Z) (prio : CPUPriority) : res CPUSet * CPUSet :=
  ReleaseCpus (e_cpuAllocator E).1 (e_cpuAllocator E).2 from cnt [CpuAlloc.WithPriority prio].

(** ** Resizing *)

(** The number of CPUs for an amount of milli-CPUs, within the limits of a
    type. *)
Definition new_cpu_count (def : BalloonDef) (newMilliCpus : Z) : Z :=
  let newCpuCount := Z.quot (i64 (newMilliCpus + 999)) 1000 in
  let newCpuCount :=
    if bool_decide (d_MaxCpus def > NoLimit ∧ newCpuCount > d_MaxCpus def) then d_MaxCpus def else newCpuCount in
  if bool_decide (d_MinCpus def > 0 ∧ newCpuCount < d_MinCpus def) then d_MinCpus def else newCpuCount.

(** Add CPUs to a balloon from a set. *)
Definition inflate (x : positive) (delta : Z) (addFromCpus : CPUSet) (p : balloons) : balloons * res unit :=
  match (alloc_cpus addFromCpus delta (prio_Value (d_AllocatorPriority (def_of p x)))).1 with
  | Err e => (p, Err e)
  | Ok newCpus =>
      let p := with_freeCpus (p_freeCpus p ∖ newCpus) p in
      let p := upd_bln x (set_Cpus (b_Cpus (bln p x) ∪ newCpus)) p in
      let '(p, blns) := shareIdleCpus E (p_freeCpus p) newCpus p in
      let p := updatePinning E cch blns p in
      (updatePinning E cch [x] p, Ok tt)
  end.

(** Remove CPUs of a set from a balloon; what is left of the set is what has
    been released. *)
Definition deflate (x : positive) (delta : Z) (removeFromCpus : CPUSet) (p : balloons) : balloons * res unit :=
  match release_cpus removeFromCpus (- delta) (prio_Value (d_AllocatorPriority (def_of p x))) with
  | (Err e, _) => (p, Err e)
  | (Ok _, removeFromCpus) =>
      let p := with_freeCpus (p_freeCpus p ∪ removeFromCpus) p in
      let p := upd_bln x (set_Cpus (b_Cpus (bln p x) ∖ removeFromCpus)) p in
      let '(p, blns) := shareIdleCpus E removeFromCpus ∅ p in
      let p := updatePinning E cch blns p in
      (updatePinning E cch [x] p, Ok tt)
  end.

Definition resize_by (x : positive) (delta : Z) (p : balloons) : balloons * res unit :=
  match b_cpuTreeAlloc (bln p x) with
  | None => (p, Err Panic)
  | Some a =>
      match updateLoadedVirtDevsInAllocatorOptions E p (alloc_options a) (d_Loads (def_of p x)) with
      | Err e => (p, Err e)
      | Ok (o, _) =>
          let cpus := b_Cpus (bln p x) in
          let o := applyCpuClassHints E p o (resolveCpuClassName p (d_CpuClass (def_of p x))) cpus delta in
          let a := with_options o a in
          let '((addFromCpus, removeFromCpus, err), close) :=
            ResizeCpus (ta_options (al_tree a)) (ta_root (al_tree a)) (e_NewTopologyHints E) cpus (p_freeCpus p)
              delta (al_virtDevCpusets a) in
          let p := upd_bln x (set_cpuTreeAlloc (Some (MkTreeAlloc (al_tree a) close))) p in
          match err with
          | Some e => (p, Err e)
          | None => if bool_decide (delta > 0) then inflate x delta addFromCpus p else deflate x delta removeFromCpus p
          end
      end
  end.

(** [resizeBalloon] of a balloon without components. *)
Definition resize_leaf (x : positive) (newMilliCpus : Z) (p : balloons) : balloons * res unit :=
  let oldCpuCount := csize (b_Cpus (bln p x)) in
  let newCpuCount := new_cpu_count (def_of p x) newMilliCpus in
  if bool_decide (oldCpuCount = newCpuCount) then (p, Ok tt)
  else
    let p := forgetCpuClass x p in
    let '(p, r) := resize_by x (newCpuCount - oldCpuCount) p in
    (useCpuClass x p, r).

(** The loop of [resizeCompositeBalloon]: the original CPUs of the components
    visited, and the CPUs of all components unless there is an error. *)
Fixpoint resize_components (resize : positive → Z → balloons → balloons * res unit) (components : list positive)
    (milliCpus : Z) (origs : list CPUSet) (blnCpus : CPUSet) (p : balloons) : balloons * list CPUSet * res CPUSet :=
  match components with
  | [] => (p, origs, Ok blnCpus)
  | compBln :: components' =>
      let origs := app origs [b_Cpus (bln p compBln)] in
      match resize compBln milliCpus p with
      | (p, Err e) => (p, origs, Err e)
      | (p, Ok _) =>
          resize_components resize components' milliCpus origs (blnCpus ∪ b_Cpus (bln p compBln)) p
      end
  end.

Definition resizeCompositeBalloon (resize : positive → Z → balloons → balloons * res unit) (x : positive)
    (newMilliCpus : Z) (p : balloons) : balloons * res unit :=
  let origFreeCpus := p_freeCpus p in
  let components := b_components (bln p x) in
  let newMilliCpusPerComponent := Z.quot newMilliCpus (Z.of_nat (length components)) in
  match resize_components resize components newMilliCpusPerComponent [] ∅ p with
  | (p, origs, Err e) =>
      let p := with_freeCpus origFreeCpus p in
      (fold_left (λ p yc, upd_bln yc.1 (set_Cpus yc.2) p) (zip components origs) p, Err e)
  | (p, _, Ok blnCpus) =>
      let p := forgetCpuClass x p in
      let p := upd_bln x (set_Cpus blnCpus) p in
      let p := updatePinning E cch [x] p in
      (useCpuClass x p, Ok tt)
  end.

(** Components are older than their balloon. *)
Fixpoint resize_balloon (depth : nat) (x : positive) (newMilliCpus : Z) (p : balloons) : balloons * res unit :=
  match depth with
  | O => (p, Err OutOfFuel)
  | S depth' =>
      match b_components (bln p x) with
      | [] => resize_leaf x newMilliCpus p
      | _ => resizeCompositeBalloon (resize_balloon depth') x newMilliCpus p
      end
  end.

Definition resizeBalloon (x : positive) (newMilliCpus : Z) (p : balloons) : balloons * res unit :=
  resize_balloon (Pos.to_nat x) x newMilliCpus p.

(** ** Deleting *)

Definition deleteBalloon (x : positive) (p : balloons) : balloons :=
  let p := with_balloons (filter (λ b, b ≠ x) (p_balloons p)) p in
  let p := forgetCpuClass x p in
  let cpus := b_Cpus (bln p x) in
  let p := with_freeCpus (p_freeCpus p ∪ cpus) p in
  let '(_, cpus) := release_cpus cpus (csize cpus) (prio_Value (d_AllocatorPriority (def_of p x))) in
  upd_bln x (set_Cpus cpus) p.

Definition freeBalloon (x : positive) (p : balloons) : balloons :=
  let p := upd_bln x (set_PodIDs ∅) p in
  if bool_decide (Z.of_nat (length (balloonsByDef p (b_Def (bln p x)))) > d_MinBalloons (def_of p x))
  then deleteBalloon x p else p.

(** ** Creating *)

(** The first instance number in use by none of the balloons. *)
Fixpoint free_instance (n : nat) (i : Z) (p : balloons) (blns : list positive) : Z :=
  match n with
  | O => i
  | S n' =>
      if existsb (λ x, bool_decide (b_Instance (bln p x) = i)) blns then free_instance n' (i + 1) p blns else i
  end.

Definition tree_options (p : balloons) (blnDef : BalloonDef) : cpuTreeAllocatorOptions :=
  let priorities := GetCPUPriorities (e_cpuAllocator E).2 in
  MkTreeOptions (o_AllocatorTopologyBalancing (p_bpoptions p)) (o_PreferSpreadOnPhysicalCores (p_bpoptions p))
    (d_PreferCloseToDevices blnDef) (d_PreferFarFromDevices blnDef)
    (Some (<[virtDevReservedCpus := [p_reserved p]]>
             (<[virtDevIsolatedCpus := [e_Isolated E]]>
                (<[virtDevECores := [priorities PriorityLow]]>
                   (<[virtDevPCores := [priorities PriorityHigh]]> ∅)))))
    None.

Definition override_options (blnDef : BalloonDef) (o : cpuTreeAllocatorOptions) : cpuTreeAllocatorOptions :=
  MkTreeOptions (default (topologyBalancing o) (d_AllocatorTopologyBalancing blnDef))
    (default (preferSpreadOnPhysicalCores o) (d_PreferSpreadOnPhysicalCores blnDef))
    (preferCloseToDevices o) (preferFarFromDevices o) (virtDevCpusets o) (deviceUpdateOnEveryCpu o).

(** [newBalloon] of a type without components.  The function that updates
    devices for every CPU is set right after the allocator has been made. *)
Definition new_leaf (d : positive) (confCpus : bool) (freeInstance : Z) (c : option Ctr) (p : balloons)
    : balloons * res positive :=
  let blnDef := def_at p d in
  let o := tree_options p blnDef in
  let o := applyPodResourcesHints E p o c in
  let o := applyCpuClassHints E p o (resolveCpuClassName p (d_CpuClass blnDef)) ∅ 0 in
  let o := override_options blnDef o in
  match updateLoadedVirtDevsInAllocatorOptions E p o (d_Loads blnDef) with
  | Err e => (p, Err e)
  | Ok (o, loadedVirtDevs) =>
      match NewAllocator (e_cpuTree E) o with
      | Err e => (p, Err e)
      | Ok (ta, close) =>
          let update :=
            if virtDevsChangeDuringCpuAllocation p (d_Loads blnDef)
            then Some (update_on_every_cpu E p (d_Loads blnDef)) else None in
          let ta := MkTreeAllocator (with_update update (ta_options ta)) (ta_root ta) in
          let '(p, x) := new_object
            (MkBalloon d freeInstance ∅ 0 ∅ ∅ ∅ loadedVirtDevs (Some (MkTreeAlloc ta close))
               (mask_or_none (d_MemoryTypes blnDef)) []) p in
          match resizeBalloon x (i64 (d_MinCpus blnDef * 1000)) p with
          | (p, Err e) => (p, Err e)
          | (p, Ok _) =>
              let p := upd_bln x (set_Mems (closestMems p (b_Cpus (bln p x)))) p in
              (if confCpus then useCpuClass x p else p, Ok x)
          end
      end
  end.

Definition delete_components (componentBlns : list positive) (p : balloons) : balloons :=
  fold_left (λ p compBln, deleteBalloon compBln p) componentBlns p.

(** Create a balloon for each component. *)
Fixpoint new_components (new : positive → balloons → balloons * res positive) (components : list string)
    (componentBlns : list positive) (p : balloons) : balloons * res (list positive) :=
  match components with
  | [] => (p, Ok componentBlns)
  | comp :: components' =>
      match balloonDefByName p comp with
      | None => (delete_components componentBlns p, Err ErrOther)
      | Some compDef =>
          match new compDef p with
          | (p, Err e) => (delete_components componentBlns p, Err (wrapped e))
          | (p, Ok compBln) => new_components new components' (app componentBlns [compBln]) p
          end
      end
  end.

(** The number of instances of every component, with its index. *)
Fixpoint count_components (p : balloons) (components : list string) (compIdx : nat) : res (list (Z * nat)) :=
  match components with
  | [] => Ok []
  | comp :: components' =>
      match balloonDefByName p comp with
      | None => Err ErrOther
      | Some compDef =>
          match balloonsByDefIncludingComponents p compDef with
          | Err e => Err e
          | Ok blns =>
              match count_components p components' (S compIdx) with
              | Err e => Err e
              | Ok counts => Ok ((Z.of_nat (length blns), compIdx) :: counts)
              end
          end
      end
  end.

Definition fewer_instances (x y : Z * nat) : bool :=
  bool_decide (x.1 < y.1 ∨ x.1 = y.1 ∧ (x.2 < y.2)%nat).

(** Create a balloon for the component with the fewest instances. *)
Definition new_balanced (new : positive → balloons → balloons * res positive) (components : list string)
    (p : balloons) : balloons * res (list positive) :=
  match count_components p components 0 with
  | Err e => (p, Err e)
  | Ok counts =>
      match sort_slice fewer_instances counts with
      | [] => (p, Err Panic)
      | (_, compIdx) :: _ =>
          match components !! compIdx ≫= balloonDefByName p with
          | None => (p, Err ErrOther)
          | Some compDef =>
              match new compDef p with
              | (p, Err e) => (p, Err (wrapped e))
              | (p, Ok compBln) => (p, Ok [compBln])
              end
          end
      end
  end.

Definition newCompositeBalloon (new : positive → balloons → balloons * res positive) (d : positive)
    (confCpus : bool) (freeInstance : Z) (p : balloons) : balloons * res positive :=
  let blnDef := def_at p d in
  let '(p, r) :=
    if bool_decide (d_ComponentCreation blnDef = "" ∨ d_ComponentCreation blnDef = ComponentCreationAll)
    then new_components new (d_Components blnDef) [] p
    else if bool_decide (d_ComponentCreation blnDef = ComponentCreationBalanceBalloons)
    then new_balanced new (d_Components blnDef) p
    else (p, Err ErrOther) in
  match r with
  | Err e => (p, Err e)
  | Ok componentBlns =>
      let '(p, x) := new_object
        (MkBalloon d freeInstance ∅ 0 ∅ ∅ ∅ ∅ None (mask_or_none (d_MemoryTypes blnDef)) componentBlns) p in
      match resizeBalloon x (i64 (d_MinCpus blnDef * 1000)) p with
      | (p, Err e) => (delete_components componentBlns p, Err e)
      | (p, Ok _) => (if confCpus then useCpuClass x p else p, Ok x)
      end
  end.

(** [newBalloon]: the depth of composition is bounded by the number of types
    if there is no circular composition. *)
Fixpoint new_balloon (depth : nat) (d : positive) (confCpus : bool) (c : option Ctr) (p : balloons)
    : balloons * res positive :=
  match depth with
  | O => (p, Err OutOfFuel)
  | S depth' =>
      let blnDef := def_at p d in
      let blnsOfDef := balloonsByDef p d in
      if bool_decide (d_MaxBalloons blnDef > NoLimit ∧ d_MaxBalloons blnDef ≤ Z.of_nat (length blnsOfDef))
      then (p, Err ErrOther)
      else
        let freeInstance := free_instance (length blnsOfDef) 0 p blnsOfDef in
        match d_Components blnDef with
        | [] => new_leaf d confCpus freeInstance c p
        | _ => newCompositeBalloon (λ d p, new_balloon depth' d confCpus c p) d confCpus freeInstance p
        end
  end.

Definition newBalloon (d : positive) (confCpus : bool) (c : option Ctr) (p : balloons) : balloons * res positive :=
  new_balloon (S (length (o_BalloonDefs (p_bpoptions p)))) d confCpus c p.
End ops.
