(* ===== verification/BlnPolicy.v ===== *)
(** * Containers in balloons (cmd/plugins/balloons/policy/balloons-policy.go)

    Choosing the type and the balloon for a container, assigning it to the
    balloon and dismissing it, and the entry points of the policy. *)

From Stdlib Require Import Ascii.
From S2P Require Import Prelude GoStrings Expr MemTypes MemNodes MemZones MemAllocator CpuTree CpuAlloc CpuTopo Kube BlnTypes BlnPin BlnHints BlnOps.

Open Scope string_scope.
Open Scope Z_scope.

Inductive FillMethod :=
  | FillUnspecified | FillBalanced | FillBalancedInflate | FillPacked | FillPackedInflate
  | FillSameGroup | FillSameNamespace | FillSamePod | FillNewBalloon | FillNewBalloonMust.

#[export] Instance FillMethod_eq_dec : EqDecision FillMethod.
Proof. solve_decision. Defined.

Definition MinInt : Z := - 2 ^ 63.

(** [largest]: the indices of the largest values and the largest value. *)
Definition largest_step (st : list nat * Z) (iv : nat * Z) : list nat * Z :=
  let '(largestIndices, largestValue) := st in
  if bool_decide (largestIndices = []) then ([iv.1], iv.2)
  else if bool_decide (iv.2 = largestValue) then (app largestIndices [iv.1], largestValue)
  else if bool_decide (iv.2 > largestValue) then ([iv.1], iv.2)
  else (largestIndices, largestValue).

Definition largest (values : list Z) : list nat * Z :=
  fold_left largest_step (imap pair values) ([], MinInt).

Definition namespaceMatches (namespace : string) (patterns : list string) : bool :=
  existsb (λ pattern, filepath_Match pattern namespace) patterns.

(** The last element takes the place of the one removed. *)
Fixpoint remove_at (before strings : list string) (element : string) : list string :=
  match strings with
  | [] => before
  | s :: rest =>
      if bool_decide (s = element) then
        match last rest with
        | None => before
        | Some l => app before (l :: removelast rest)
        end
      else remove_at (app before [s]) rest element
  end.

Definition removeString (strings : list string) (element : string) : list string := remove_at [] strings element.

Section policy.
Context `{GoRuntime} (E : Env) (cch : Cache_).

(** ** Room in balloons *)

(** [MaxAvailMilliCpus] *)
Fixpoint max_avail (depth : nat) (p : balloons) (x : positive) (freeCpus : CPUSet) : Z :=
  match depth with
  | O => 0
  | S depth' =>
      let components := b_components (bln p x) in
      let availableFreeCpus :=
        if bool_decide (components = []) then csize freeCpus
        else
          let compMinAvailmCPUs := fold_left (λ least comp,
              let mcpus := max_avail depth' p comp freeCpus in
              if bool_decide (mcpus < least ∨ least = -1) then mcpus else least) components (-1) in
          let sumMinAvailCPUs := Z.quot (i64 (compMinAvailmCPUs * Z.of_nat (length components))) 1000 in
          Z.min sumMinAvailCPUs (csize freeCpus) in
      let def := def_of p x in
      if bool_decide (d_MaxCpus def = NoLimit ∨ d_MaxCpus def > availableFreeCpus)
      then i64 ((csize (b_Cpus (bln p x)) + availableFreeCpus) * 1000)
      else i64 (d_MaxCpus def * 1000)
  end.

Definition MaxAvailMilliCpus (p : balloons) (x : positive) (freeCpus : CPUSet) : Z :=
  max_avail (Pos.to_nat x) p x freeCpus.

Definition maxFreeMilliCpus (p : balloons) (x : positive) : Z :=
  i64 (MaxAvailMilliCpus p x (p_freeCpus p) - requestedMilliCpus cch (bln p x)).

(** ** Finding balloons *)

Definition balloonByContainer (p : balloons) (c : Ctr) : option positive :=
  list_find (λ x, ct_ID c ∈ default [] (b_PodIDs (bln p x) !! ct_PodID c)) (p_balloons p) ≫= λ ix, Some ix.2.

Definition balloonsByNamespace (p : balloons) (namespace : string) : list positive :=
  balloonsByFunc (p_balloons p) (λ x,
    existsb (λ kv,
        if bool_decide (kv.2 = []) then false
        else match cch_pods cch !! kv.1 with
             | Some pod => bool_decide (p_namespace pod = namespace)
             | None => false
             end) (map_range (b_PodIDs (bln p x)))).

Definition balloonsByPod (p : balloons) (podID : string) : list positive :=
  balloonsByFunc (p_balloons p) (λ x, bool_decide (is_Some (b_PodIDs (bln p x) !! podID))).

(** ** Choosing a type *)

Definition subject (c : Ctr) : Evaluable := container_Evaluable (cch_pods cch) (ct_container c).

(** Does any expression match, in their order. *)
Fixpoint any_matches (exprs : list Expression) (c : Ctr) : res bool :=
  match exprs with
  | [] => Ok false
  | expr :: exprs' =>
      let! matched := Evaluate expr (subject c) in
      if (matched : bool) then Ok true else any_matches exprs' c
  end.

Fixpoint matching_def (p : balloons) (defs : list positive) (c : Ctr) : res (option positive) :=
  match defs with
  | [] => Ok (p_defaultBalloonDef p)
  | d :: defs' =>
      let! matched := any_matches (d_MatchExpressions (def_at p d)) c in
      if (matched : bool) then Ok (Some d)
      else if namespaceMatches (GetNamespace (cch_pods cch) (ct_container c)) (d_Namespaces (def_at p d))
      then Ok (Some d)
      else matching_def p defs' c
  end.

Definition chooseBalloonDef (p : balloons) (c : Ctr) : res (option positive) :=
  match GetEffectiveAnnotation cch c balloonKey with
  | Some blnDefName =>
      match balloonDefByName p blnDefName with
      | None => Err ErrOther
      | Some d => Ok (Some d)
      end
  | None => matching_def p (o_BalloonDefs (p_bpoptions p)) c
  end.

(** ** Choosing a balloon *)

(** Make a new balloon official: its CPUs get their class and are no longer
    shared. *)
Definition add_balloon (x : positive) (p : balloons) : balloons :=
  let p := with_balloons (app (p_balloons p) [x]) p in
  if bool_decide (csize (b_Cpus (bln p x)) > 0) then
    let p := useCpuClass x p in
    let '(p, blns) := shareIdleCpus E (p_freeCpus p) (b_Cpus (bln p x)) p in
    updatePinning E cch blns p
  else p.

(** A method that is not a must is not applicable if there is an error. *)
Definition unless_must (fm : FillMethod) (e : error) : res (list positive) :=
  if bool_decide (fm = FillNewBalloonMust) || crash e then Err e else Ok [].

Definition fill_new (d : positive) (fm : FillMethod) (c : Ctr) (p : balloons) : balloons * res (list positive) :=
  let reqMilliCpus := containerRequestedMilliCpus cch (ct_ID c) in
  match list_find (λ x, b_PodIDs (bln p x) = ∅) (balloonsByDef p d) with
  | Some (_, x) => (p, Ok [x])
  | None =>
      if bool_decide (csize (p_freeCpus p) = 0 ∨ csize (p_freeCpus p) < d_MinCpus (def_at p d))
      then (p, unless_must fm ErrOther)
      else
        match newBalloon E cch d false (Some c) p with
        | (p, Err e) => (p, unless_must fm e)
        | (p, Ok newBln) =>
            if bool_decide (MaxAvailMilliCpus p newBln (p_freeCpus p) < reqMilliCpus)
            then (with_freeCpus (p_freeCpus p ∪ b_Cpus (bln p newBln)) p, unless_must fm ErrOther)
            else (add_balloon newBln p, Ok [newBln])
        end
  end.

Definition fillableBalloonInstances (d : positive) (fm : FillMethod) (c : Ctr) (p : balloons)
    : balloons * res (list positive) :=
  let reqMilliCpus := containerRequestedMilliCpus cch (ct_ID c) in
  let fits x := bool_decide (b_Def (bln p x) = d) && bool_decide (reqMilliCpus ≤ maxFreeMilliCpus p x) in
  match fm with
  | FillNewBalloon | FillNewBalloonMust => fill_new d fm c p
  | FillSameGroup =>
      match container_Expand (cch_pods cch) (ct_container c) (d_GroupBy (def_at p d)) true with
      | Err e => (p, if crash e then Err e else Ok [])
      | Ok group =>
          (p, Ok (balloonsByFunc (p_balloons p) (λ x,
             bool_decide (default 0 (b_Groups (bln p x) !! group) > 0) && fits x)))
      end
  | FillSameNamespace =>
      (p, Ok (balloonsByFunc (balloonsByNamespace p (GetNamespace (cch_pods cch) (ct_container c))) fits))
  | FillSamePod =>
      match GetPod (cch_pods cch) (ct_container c) with
      | Some _ => (p, Ok (balloonsByFunc (balloonsByPod p (ct_PodID c)) fits))
      | None => (p, Err ErrOther)
      end
  | _ =>
      let blns := balloonsByDef p d in
      if bool_decide (blns = []) then (p, Ok [])
      else
        match fm with
        | FillBalanced => (p, Ok (balloonsByFunc blns (λ x, bool_decide (reqMilliCpus ≤ freeMilliCpus cch p x))))
        | FillBalancedInflate =>
            (p, Ok (balloonsByFunc blns (λ x, bool_decide (reqMilliCpus ≤ maxFreeMilliCpus p x))))
        | _ => (p, Err ErrOther)
        end
  end.

Definition fill_chain (def : BalloonDef) : list FillMethod :=
  app (if bool_decide (d_GroupBy def ≠ "") then [FillSameGroup] else [])
    (app (if d_PreferSpreadingPods def then [] else [FillSamePod])
       (app (if d_PreferPerNamespaceBalloon def then [FillSameNamespace; FillNewBalloon] else [])
          (if d_PreferNewBalloons def then [FillNewBalloon; FillBalanced; FillBalancedInflate]
           else [FillBalanced; FillBalancedInflate; FillNewBalloon]))).

(** The balloon with the most room and of these the one with the fewest
    containers. *)
Definition best_balloon (fm : FillMethod) (blns : list positive) (p : balloons) : res positive :=
  let largestBy := if bool_decide (fm = FillBalancedInflate) then maxFreeMilliCpus p else freeMilliCpus cch p in
  let mostRoom := (largest (largestBy <$> blns)).1 in
  let count (i : nat) := match blns !! i with Some x => - ContainerCount (bln p x) | None => 0 end in
  let leastContainers := (largest (count <$> mostRoom)).1 in
  match (head leastContainers ≫= λ j : nat, mostRoom !! j) ≫= λ i : nat, blns !! i with
  | Some x => Ok x
  | None => Err Panic
  end.

Fixpoint try_fill (chain : list FillMethod) (d : positive) (c : Ctr) (p : balloons)
    : balloons * res (option positive) :=
  match chain with
  | [] => (p, Ok None)
  | fillMethod :: chain' =>
      match fillableBalloonInstances d fillMethod c p with
      | (p, Err e) => (p, Err e)
      | (p, Ok []) => try_fill chain' d c p
      | (p, Ok blns) =>
          match best_balloon fillMethod blns p with
          | Ok x => (p, Ok (Some x))
          | Err e => (p, Err e)
          end
      end
  end.

Definition allocateBalloonOfDef (d : positive) (c : Ctr) (p : balloons) : balloons * res (option positive) :=
  try_fill (fill_chain (def_at p d)) d c p.

Definition allocateBalloon (c : Ctr) (p : balloons) : balloons * res positive :=
  match chooseBalloonDef p c with
  | Err e => (p, Err e)
  | Ok None => (p, Err ErrOther)
  | Ok (Some d) =>
      match allocateBalloonOfDef d c p with
      | (p, Err e) => (p, Err e)
      | (p, Ok None) => (p, Err ErrOther)
      | (p, Ok (Some x)) => (p, Ok x)
      end
  end.

(** ** Assigning and dismissing containers *)

Definition updateGroups (x : positive) (c : Ctr) (delta : Z) (p : balloons) : balloons :=
  let groupBy := d_GroupBy (def_of p x) in
  if bool_decide (groupBy ≠ "") then
    let group := match container_Expand (cch_pods cch) (ct_container c) groupBy false with
                 | Ok group => group
                 | Err _ => ""
                 end in
    upd_bln x (λ b, set_Groups (<[group := default 0 (b_Groups b !! group) + delta]> (b_Groups b)) b) p
  else p.

(** Names of the constants of NRI. *)
Definition cstyle (pref name : string) : string :=
  append pref (to_upper (map_string (λ ch, if bool_decide (ch = c_dash) then "_"%char else ch) name)).

Definition policy_ToNRI (sp : string) : option Z := e_LinuxSchedulerPolicy_value E !! cstyle "SCHED_" sp.

Definition flags_ToNRI (sfl : list string) : option (list Z) :=
  mapM (λ sf, e_LinuxSchedulerFlag_value E !! cstyle "SCHED_FLAG_" sf) sfl.

Definition io_ToNRI (ioc : string) : option Z := e_IOPrioClass_value E !! cstyle "IOPRIO_CLASS_" ioc.

Definition maybe_set {A} (f : A → SchedCall) (v : option A) : list SchedCall :=
  match v with Some v => [f v] | None => [] end.

Definition applyProcessScheduling (sc : SchedulingClass) : list SchedCall :=
  concat
    [maybe_set SetSchedulingPolicy (if bool_decide (sc_Policy sc = "") then None else policy_ToNRI (sc_Policy sc));
     maybe_set (λ v, SetSchedulingPriority (i32 v)) (sc_Priority sc);
     maybe_set SetSchedulingFlags (if bool_decide (sc_Flags sc = []) then None else flags_ToNRI (sc_Flags sc));
     maybe_set (λ v, SetSchedulingNice (i32 v)) (sc_Nice sc);
     maybe_set SetSchedulingRuntime (sc_Runtime sc);
     maybe_set SetSchedulingDeadline (sc_Deadline sc);
     maybe_set SetSchedulingPeriod (sc_Period sc);
     maybe_set SetSchedulingIOClass (if bool_decide (sc_IOClass sc = "") then None else io_ToNRI (sc_IOClass sc));
     maybe_set (λ v, SetSchedulingIOPriority (i32 v)) (sc_IOPriority sc)].

Definition applyProcessProperties (c : Ctr) (x : positive) (p : balloons) : balloons :=
  let effSc := default (d_SchedulingClass (def_of p x)) (GetEffectiveAnnotation cch c schedulingClassKey) in
  if bool_decide (effSc = "") then p
  else
    match list_find (λ sc, sc_Name sc = effSc) (o_SchedulingClasses (p_bpoptions p)) with
    | None => p
    | Some (_, sc) =>
        let pin := pinning (ct_ID c) p in
        with_pins (<[ct_ID c := MkPinning (pin_cpus pin) (pin_shares pin) (pin_mems pin)
                                  (app (pin_sched pin) (applyProcessScheduling sc))]> (p_pins p)) p
    end.

Definition assignContainer (c : Ctr) (x : positive) (p : balloons) : balloons :=
  let p := upd_bln x (λ b,
      set_PodIDs (<[ct_PodID c := app (default [] (b_PodIDs b !! ct_PodID c)) [ct_ID c]]> (b_PodIDs b)) b) p in
  let p := updateGroups x c 1 p in
  let p := updatePinning E cch [x] p in
  applyProcessProperties c x p.

Definition dismissContainer (c : Ctr) (x : positive) (p : balloons) : balloons :=
  let p := with_memAllocator (Release (ct_ID c) (p_memAllocator p)).1 p in
  let p := upd_bln x (λ b,
      let ids := removeString (default [] (b_PodIDs b !! ct_PodID c)) (ct_ID c) in
      set_PodIDs (if bool_decide (ids = []) then delete (ct_PodID c) (b_PodIDs b)
                  else <[ct_PodID c := ids]> (b_PodIDs b)) b) p in
  let p := updateGroups x c (-1) p in
  removePodResourcesHints x c p.

(** ** Entry points *)

(** [MatchContainer] of the containers to leave alone. *)
Definition preserved (p : balloons) (c : Ctr) : res bool :=
  match o_Preserve (p_bpoptions p) with
  | None => Ok false
  | Some exprs => any_matches exprs c
  end.

Definition AllocateResources (c : Ctr) (p : balloons) : balloons * res unit :=
  if PreserveCpuResources cch c then (p, Ok tt)
  else
    match preserved p c with
    | Err e => (p, Err e)
    | Ok true => (p, Ok tt)
    | Ok false =>
        match allocateBalloon c p with
        | (p, Err e) => (p, Err e)
        | (p, Ok x) =>
            let reqMilliCpus := i64 (containerRequestedMilliCpus cch (ct_ID c) + requestedMilliCpus cch (bln p x)) in
            if bool_decide (AvailMilliCpus (bln p x) < Z.max 1 reqMilliCpus) then
              match resizeBalloon E cch x (Z.max 1 reqMilliCpus) p with
              | (p, Err e) => (p, Err e)
              | (p, Ok _) => (assignContainer c x p, Ok tt)
              end
            else (assignContainer c x p, Ok tt)
        end
    end.

Definition ReleaseResources (c : Ctr) (p : balloons) : balloons * res unit :=
  match balloonByContainer p c with
  | None => (p, Ok tt)
  | Some x =>
      let p := dismissContainer c x p in
      if bool_decide (ContainerCount (bln p x) = 0) then
        match resizeBalloon E cch x 0 p with
        | (p, Err e) => if crash e then (p, Err e) else (freeBalloon E x p, Ok tt)
        | (p, Ok _) => (freeBalloon E x p, Ok tt)
        end
      else resizeBalloon E cch x (Z.max 1 (requestedMilliCpus cch (bln p x))) p
  end.

Definition UpdateResources (c : Ctr) (p : balloons) : balloons * res unit := (p, Ok tt).

(** ** Synchronisation (pkg/resmgr/cache/container.go) *)

Definition CompareContainerCtime (ci cj : Ctr) : Z := Z.sgn (ct_ctime ci - ct_ctime cj).

Definition ComparePodCtime (ci cj : Ctr) : Z :=
  match GetPod (cch_pods cch) (ct_container ci), GetPod (cch_pods cch) (ct_container cj) with
  | Some _, Some _ =>
      Z.sgn (default 0 (cch_podCtime cch !! ct_PodID ci) - default 0 (cch_podCtime cch !! ct_PodID cj))
  | _, _ => 0
  end.

Definition less_by_name (ci cj : Ctr) : bool :=
  match GetPod (cch_pods cch) (ct_container ci), GetPod (cch_pods cch) (ct_container cj) with
  | Some pi, Some pj =>
      if bool_decide (p_name pi ≠ p_name pj) then String.ltb (p_name pi) (p_name pj)
      else String.ltb (c_name (ct_container ci)) (c_name (ct_container cj))
  | _, _ => String.ltb (c_name (ct_container ci)) (c_name (ct_container cj))
  end.

Fixpoint less_by (compareFns : list (Ctr → Ctr → Z)) (ci cj : Ctr) : bool :=
  match compareFns with
  | [] => less_by_name ci cj
  | cmpFn :: compareFns' =>
      let diff := cmpFn ci cj in
      if bool_decide (diff < 0) then true
      else if bool_decide (diff > 0) then false
      else less_by compareFns' ci cj
  end.

Definition SortContainers (containers : list Ctr) (compareFns : list (Ctr → Ctr → Z)) : list Ctr :=
  sort_slice (less_by compareFns) containers.

(** Errors are logged; a panic ends the loop. *)
Fixpoint for_each (f : Ctr → balloons → balloons * res unit) (cs : list Ctr) (p : balloons) : balloons * res unit :=
  match cs with
  | [] => (p, Ok tt)
  | c :: cs' =>
      match f c p with
      | (p, Err e) => if crash e then (p, Err e) else for_each f cs' p
      | (p, Ok _) => for_each f cs' p
      end
  end.

Definition Sync (add del : list Ctr) (p : balloons) : balloons * res unit :=
  match for_each ReleaseResources del p with
  | (p, Err e) => (p, Err e)
  | (p, Ok _) => for_each AllocateResources (SortContainers add [ComparePodCtime; CompareContainerCtime]) p
  end.
End policy.
