(* ===== verification/BlnConfig.v ===== *)
(** * Configuration of the balloons policy
    (cmd/plugins/balloons/policy/balloons-policy.go, flags.go,
    pkg/apis/config/v1alpha1/resmgr/policy/config.go, cpuclass.go)

    Validation of a configuration, the built-in balloon types, the devices
    types are close to and far from, and taking a configuration into use. *)

From Stdlib Require Import Ascii.
From S2P Require Import Prelude GoStrings Expr MemTypes MemNodes MemZones MemAllocator CpuTree CpuAlloc CpuTopo Kube BlnTypes BlnPin BlnHints BlnOps BlnPolicy.

Open Scope string_scope.
Open Scope Z_scope.

(** ** Amounts *)

Inductive Amount :=
  | AmountAbsent
  | AmountCPUSet (a : string)
  | AmountExcludeCPUSet (a : string)
  | AmountQuantity (a : string).

(** [Constraints.Get] of the CPU domain. *)
Definition Get (amount : option string) : Amount :=
  match amount with
  | None => AmountAbsent
  | Some a =>
      match strip_prefix "cpuset:" a with
      | Some a => AmountCPUSet a
      | None =>
          match strip_prefix "exclude-cpuset:" a with
          | Some a => AmountExcludeCPUSet a
          | None => AmountQuantity a
          end
      end
  end.

(** ** CPU classes *)

Definition CPUClass_Validate (cc : CPUClass) : res unit :=
  let pct := bool_decide (cc_PctPriority cc ≠ "") in
  let sst := bool_decide (cc_SstClosID cc ≠ None) in
  if bool_decide (cc_Name cc = "") then Err ErrOther
  else if pct && sst then Err ErrOther
  else if bool_decide (cc_PctPriority cc ∉ [""; "high"; "low"]) then Err ErrOther
  else if bool_decide (default 0 (cc_SstClosID cc) < 0) then Err ErrOther
  else if bool_decide (cc_PctMinFreq cc ≠ 0 ∨ cc_PctMaxFreq cc ≠ 0) && (sst || negb pct) then Err ErrOther
  else if cc_PublishExtendedResource cc && negb pct && negb sst then Err ErrOther
  else Ok tt.

Fixpoint validate_classes (cpuClasses : list CPUClass) (names : gset string) : res (gset string) :=
  match cpuClasses with
  | [] => Ok names
  | cc :: cpuClasses' =>
      let! _ := CPUClass_Validate cc in
      if bool_decide (cc_Name cc ∈ names) then Err ErrOther
      else validate_classes cpuClasses' ({[cc_Name cc]} ∪ names)
  end.

Definition ValidateCPUClasses (cpuClasses : list CPUClass) : res (gset string) :=
  let! names := validate_classes cpuClasses ∅ in
  let managed := filter (λ cc, cc_PctPriority cc ≠ "") cpuClasses in
  let assocOnly := filter (λ cc, cc_PctPriority cc = "" ∧ cc_SstClosID cc ≠ None) cpuClasses in
  let high := filter (λ cc, cc_PctPriority cc = "high") managed in
  let low := filter (λ cc, cc_PctPriority cc ≠ "high") managed in
  if bool_decide (managed ≠ [] ∧ assocOnly ≠ []) then Err ErrOther
  else if bool_decide (1 < length high)%nat then Err ErrOther
  else if bool_decide (1 < length low)%nat then Err ErrOther
  else Ok names.

(** ** Validation *)

(** Whether a composite type has options of CPU allocation. *)
Definition forbidden_options (def : BalloonDef) : bool :=
  bool_decide (d_PreferSpreadOnPhysicalCores def ≠ None) || bool_decide (d_AllocatorTopologyBalancing def ≠ None) ||
  bool_decide (d_PreferCloseToDevices def ≠ []) || d_PreferIsolCpus def ||
  bool_decide (d_PreferCoreType def ≠ "").

Definition validate_def (def : BalloonDef) : res unit :=
  if bool_decide (d_MaxCpus def ≠ NoLimit ∧ d_MinCpus def > d_MaxCpus def) then Err ErrOther
  else if bool_decide (d_MaxBalloons def ≠ NoLimit ∧ d_MinBalloons def > d_MaxBalloons def) then Err ErrOther
  else
    let! _ := memTypeMaskFromStringList (d_MemoryTypes def) in
    if bool_decide (d_Name def = reservedBalloonDefName ∧ (d_MinBalloons def < 0 ∨ d_MinBalloons def > 1))
    then Err ErrOther
    else if bool_decide (d_Name def = reservedBalloonDefName ∧ (d_MaxBalloons def < 0 ∨ d_MaxBalloons def > 1))
    then Err ErrOther
    else if bool_decide (d_Components def ≠ [] ∧ d_CpuClass def ≠ "") then Err ErrOther
    else if bool_decide (d_Components def ≠ []) && forbidden_options def then Err ErrOther
    else if bool_decide (d_ComponentCreation def ≠ "" ∧ d_Components def = []) then Err ErrOther
    else if bool_decide (d_ComponentCreation def ∉ [""; ComponentCreationAll; ComponentCreationBalanceBalloons])
    then Err ErrOther
    else Ok tt.

(** The names seen and the composite types by name. *)
Fixpoint validate_defs (defs : list BalloonDef) (seenNames : gset string) (composite : gmap string BalloonDef)
    : res (gset string * gmap string BalloonDef) :=
  match defs with
  | [] => Ok (seenNames, composite)
  | def :: defs' =>
      if bool_decide (d_Name def = "") then Err ErrOther
      else if bool_decide (d_Name def ∈ seenNames) then Err ErrOther
      else
        let! _ := validate_def def in
        validate_defs defs' ({[d_Name def]} ∪ seenNames)
          (if bool_decide (d_Components def ≠ []) then <[d_Name def := def]> composite else composite)
  end.

Fixpoint validate_loads (loadClasses : list LoadClass) : res unit :=
  match loadClasses with
  | [] => Ok tt
  | lc :: loadClasses' =>
      if bool_decide (lc_Name lc = "") then Err ErrOther
      else if bool_decide (lc_Level lc = LevelUndefined) then Err ErrOther
      else validate_loads loadClasses'
  end.

(** [circularCheck].  A name is counted while its components are checked, so
    the names counted are those on the way to it. *)
Fixpoint circularCheck (depth : nat) (composite : gmap string BalloonDef) (name : string) (seen : gset string)
    : res unit :=
  match depth with
  | O => Err OutOfFuel
  | S depth' =>
      if bool_decide (name ∈ seen) then Err ErrOther
      else
        match composite !! name with
        | None => Ok tt
        | Some def =>
            (fix check (components : list string) : res unit :=
               match components with
               | [] => Ok tt
               | comp :: components' =>
                   match circularCheck depth' composite comp ({[name]} ∪ seen) with
                   | Err e => Err e
                   | Ok _ => check components'
                   end
               end) (d_Components def)
        end
  end.

(** A way is made of different composite types, and one more name. *)
Definition circular_depth (composite : gmap string BalloonDef) : nat := S (S (size composite)).

Fixpoint check_components (seenNames : gset string) (components : list string) : res unit :=
  match components with
  | [] => Ok tt
  | comp :: components' =>
      if bool_decide (comp = "") then Err ErrOther
      else if bool_decide (comp ∉ seenNames) then Err ErrOther
      else check_components seenNames components'
  end.

Fixpoint check_composites (seenNames : gset string) (composite : gmap string BalloonDef)
    (blnDefs : list (string * BalloonDef)) : res unit :=
  match blnDefs with
  | [] => Ok tt
  | (name, def) :: blnDefs' =>
      let! _ := check_components seenNames (d_Components def) in
      let! _ := circularCheck (circular_depth composite) composite name ∅ in
      check_composites seenNames composite blnDefs'
  end.

Definition validateConfig `{GoRuntime} (o : BalloonsOptions) (defs : list BalloonDef) : res unit :=
  let! sc := validate_defs defs ∅ ∅ in
  let! _ := validate_loads (o_LoadClasses o) in
  if bool_decide (Forall (λ load, load ∈ lc_Name <$> o_LoadClasses o) (concat (d_Loads <$> defs))) then
    if bool_decide (Forall (λ name, name = "" ∨ name ∈ sc_Name <$> o_SchedulingClasses o) (d_SchedulingClass <$> defs))
    then
      let! _ := ValidateCPUClasses (o_CPUClasses o) in
      check_composites sc.1 sc.2 (map_range sc.2)
    else Err ErrOther
  else Err ErrOther.

(** ** Devices *)

(** Setters of a type. *)
Definition set_devices (close far : list string) (d : BalloonDef) : BalloonDef :=
  MkDef (d_Name d) (d_Components d) (d_ComponentCreation d) (d_Namespaces d) (d_GroupBy d) (d_MatchExpressions d)
    (d_MaxCpus d) (d_MinCpus d) (d_MemoryTypes d) (d_PinMemory d) (d_AllocatorPriority d)
    (d_PreferSpreadOnPhysicalCores d) (d_HideHyperthreads d) (d_AllocatorTopologyBalancing d) (d_CpuClass d)
    (d_Loads d) (d_MinBalloons d) (d_MaxBalloons d) (d_PreferSpreadingPods d) (d_PreferPerNamespaceBalloon d)
    (d_PreferNewBalloons d) (d_ShareIdleCpusInSame d) close far (d_PreferIsolCpus d) (d_PreferCoreType d)
    (d_SchedulingClass d) (d_IrqClaim d) (d_IrqMode d).

Definition set_reserved (namespaces : list string) (minCpus : Z) (priority : string) (minBalloons maxBalloons : Z)
    (close : list string) (d : BalloonDef) : BalloonDef :=
  MkDef (d_Name d) (d_Components d) (d_ComponentCreation d) namespaces (d_GroupBy d) (d_MatchExpressions d)
    (d_MaxCpus d) minCpus (d_MemoryTypes d) (d_PinMemory d) priority
    (d_PreferSpreadOnPhysicalCores d) (d_HideHyperthreads d) (d_AllocatorTopologyBalancing d) (d_CpuClass d)
    (d_Loads d) minBalloons maxBalloons (d_PreferSpreadingPods d) (d_PreferPerNamespaceBalloon d)
    (d_PreferNewBalloons d) (d_ShareIdleCpusInSame d) close (d_PreferFarFromDevices d) (d_PreferIsolCpus d)
    (d_PreferCoreType d) (d_SchedulingClass d) (d_IrqClaim d) (d_IrqMode d).

Definition fill_close (d : BalloonDef) : BalloonDef :=
  set_devices
    (app (d_PreferCloseToDevices d)
       (app (if d_PreferIsolCpus d then [virtDevIsolatedCpus] else [])
          (app (if bool_decide (d_PreferCoreType d = "performance") then [virtDevPCores] else [])
             (if bool_decide (d_PreferCoreType d = "efficient") then [virtDevECores] else []))))
    (d_PreferFarFromDevices d) d.

Definition fillCloseToDevices (defs : list BalloonDef) : list BalloonDef := fill_close <$> defs.

(** The devices some type prefers to be close to, in the order found. *)
Definition avoid_devs (isolated : CPUSet) (defs : list BalloonDef) : list string :=
  let close := filter (λ dev, IsPodResourceHint dev = false) (concat (d_PreferCloseToDevices <$> defs)) in
  app (if bool_decide (csize isolated ≠ 0) then [virtDevIsolatedCpus] else [])
    (fold_left (λ devs dev, if bool_decide (dev ∈ devs) then devs else app devs [dev]) close []).

(** Whether a type of that name prefers to be close to a device. *)
Definition prefers_close (defs : list BalloonDef) (dev name : string) : bool :=
  existsb (λ d, bool_decide (d_Name d = name ∧ dev ∈ d_PreferCloseToDevices d ∧ IsPodResourceHint dev = false)) defs.

(** [fillFarFromDevices]; a load without a load class is a nil pointer. *)
Definition fill_far (loadVirtDev : gmap string loadClassVirtDev) (isolated : CPUSet) (defs : list BalloonDef)
    (d : BalloonDef) : res BalloonDef :=
  match mapM (λ load, loadVirtDev !! load) (d_Loads d) with
  | None => Err Panic
  | Some virtDevs =>
      Ok (set_devices (d_PreferCloseToDevices d)
            (app (d_PreferFarFromDevices d)
               (app (filter (λ dev, prefers_close defs dev (d_Name d) = false) (avoid_devs isolated defs))
                  (vd_name <$> virtDevs))) d)
  end.

Fixpoint fill_far_all (loadVirtDev : gmap string loadClassVirtDev) (isolated : CPUSet) (all defs : list BalloonDef)
    : res (list BalloonDef) :=
  match defs with
  | [] => Ok []
  | d :: defs' =>
      let! d := fill_far loadVirtDev isolated all d in
      let! defs := fill_far_all loadVirtDev isolated all defs' in
      Ok (d :: defs)
  end.

Definition fillFarFromDevices (loadVirtDev : gmap string loadClassVirtDev) (isolated : CPUSet)
    (defs : list BalloonDef) : res (list BalloonDef) := fill_far_all loadVirtDev isolated defs defs.

Definition level_String (l : CPUTopologyLevel) : string :=
  match l with
  | LevelUndefined => "" | LevelSystem => "system" | LevelPackage => "package" | LevelDie => "die"
  | LevelNuma => "numa" | LevelL3Cache => "l3cache" | LevelL2Cache => "l2cache" | LevelCore => "core"
  | LevelThread => "thread"
  end.

Definition fillLoadVirtDevices (loadClasses : list LoadClass) : gmap string loadClassVirtDev :=
  fold_left (λ m lc,
      <[lc_Name lc := MkVirtDev (append "loaded-" (level_String (lc_Level lc))) (lc_Level lc)
                        (lc_OverloadsLevelInBalloon lc)]> m) loadClasses ∅.

(** ** Built-in types *)

Definition NamespaceSystem := "kube-system".

Definition setOmittedDefaults (o : BalloonsOptions) : BalloonsOptions :=
  MkOptions (Some (default true (o_PinCPU o))) (Some (default true (o_PinMemory o))) (o_IdleCpuClass o)
    (Some (default [NamespaceSystem] (o_ReservedPoolNamespaces o)))
    (o_AllocatorTopologyBalancing o) (o_PreferSpreadOnPhysicalCores o) (o_BalloonDefs o) (o_Preserve o)
    (o_LoadClasses o) (o_SchedulingClasses o) (o_CPUClasses o) (o_AvailableResources o) (o_ReservedResources o).

Definition implicit_def (name : string) (minBalloons maxBalloons : Z) : BalloonDef :=
  MkDef name [] "" [] "" [] 0 0 [] None "low" None None None "" [] minBalloons maxBalloons false false false
    LevelUndefined [] [] false "" "" [] "".

(** The types with the built-in ones, which are added at the ends. *)
Definition add_builtin (defs : list BalloonDef) : list BalloonDef :=
  let defs' :=
    if bool_decide (reservedBalloonDefName ∈ d_Name <$> defs) then defs
    else implicit_def reservedBalloonDefName 1 0 :: defs in
  if bool_decide (defaultBalloonDefName ∈ d_Name <$> defs) then defs'
  else app defs' [implicit_def defaultBalloonDefName 1 1].

(** Change the reserved type; validation refuses two types of that name. *)
Definition map_reserved (f : BalloonDef → BalloonDef) (defs : list BalloonDef) : list BalloonDef :=
  (λ d, if bool_decide (d_Name d = reservedBalloonDefName) then f d else d) <$> defs.

Definition minCpus_of_reserved (reserved : CPUSet) (d : BalloonDef) : BalloonDef :=
  set_reserved (d_Namespaces d)
    (if bool_decide (d_MinCpus d = 0) then Z.min (csize reserved) (d_MaxCpus d) else d_MinCpus d)
    "normal" (d_MinBalloons d) (d_MaxBalloons d) (virtDevReservedCpus :: d_PreferCloseToDevices d) d.

(** A reserved type whose size does not match the quantity. *)
Definition bad_quantity (reserveCnt : Z) (d : BalloonDef) : bool :=
  if bool_decide (d_MinCpus d = 0) then bool_decide (d_MaxCpus d ≠ 0 ∧ d_MaxCpus d < reserveCnt)
  else bool_decide (d_MinCpus d ≠ reserveCnt).

Section config.
Context `{GoRuntime} (E : Env) (cch : Cache_).

(** The types as far as they have been changed, the reserved CPUs, and an
    error. *)
Definition fillBuiltinBalloonDefs (p : balloons) (o : BalloonsOptions) (defs : list BalloonDef)
    : list BalloonDef * CPUSet * res unit :=
  let defs := add_builtin defs in
  let done defs reserved :=
    (map_reserved (λ d, set_reserved
        (app (d_Namespaces d) (NamespaceSystem :: default [] (o_ReservedPoolNamespaces o))) (d_MinCpus d)
        (d_AllocatorPriority d) 1 1 (d_PreferCloseToDevices d) d) defs, reserved, Ok tt) in
  let cpus cset :=
    if bool_decide (csize (cset ∖ p_allowed p) > 0) then (defs, p_reserved p, Err ErrOther)
    else
      let reserved := p_allowed p ∩ cset in
      done (map_reserved (minCpus_of_reserved reserved) defs) reserved in
  match Get (o_ReservedResources o) with
  | AmountAbsent => done defs (p_reserved p)
  | AmountCPUSet a =>
      match e_Parse E a with
      | None => (defs, p_reserved p, Err ErrOther)
      | Some cset => cpus cset
      end
  | AmountExcludeCPUSet a =>
      match e_Parse E a with
      | None => (defs, p_reserved p, Err ErrOther)
      | Some cset => cpus (p_allowed p ∖ cset)
      end
  | AmountQuantity a =>
      match e_ParseQuantity E a with
      | None => (defs, p_reserved p, Err ErrOther)
      | Some qty =>
          let reserveCnt := Z.quot (i64 (qty + 999)) 1000 in
          let sized := map_reserved (λ d, set_reserved (d_Namespaces d)
              (if bool_decide (d_MinCpus d = 0) then reserveCnt else d_MinCpus d) (d_AllocatorPriority d)
              (d_MinBalloons d) (d_MaxBalloons d) (d_PreferCloseToDevices d) d) defs in
          if existsb (λ d, bool_decide (d_Name d = reservedBalloonDefName) && bad_quantity reserveCnt d) defs
          then (sized, p_reserved p, Err ErrOther)
          else done sized ∅
      end
  end.

(** ** Taking a configuration into use *)

(** Balloons of a type that must exist. *)
Fixpoint apply_balloon_def (n : nat) (d : positive) (p : balloons) : balloons * res unit :=
  match n with
  | O => (p, Ok tt)
  | S n' =>
      match newBalloon E cch d false None p with
      | (p, Err e) => (p, Err e)
      | (p, Ok newBln) => apply_balloon_def n' d (with_balloons (app (p_balloons p) [newBln]) p)
      end
  end.

Definition applyBalloonDef (d : positive) (p : balloons) : balloons * res unit :=
  apply_balloon_def (Z.to_nat (d_MinBalloons (def_at p d))) d p.

Fixpoint apply_defs (defs : list positive) (p : balloons) : balloons * res unit :=
  match defs with
  | [] => (p, Ok tt)
  | d :: defs' =>
      match applyBalloonDef d p with
      | (p, Err e) => (p, Err e)
      | (p, Ok _) => apply_defs defs' p
      end
  end.

(** The types in the order of their priority. *)
Definition by_priority (p : balloons) (defs : list positive) : list positive :=
  concat ((λ prio, filter (λ d, prio_Value (d_AllocatorPriority (def_at p d)) = prio) defs)
            <$> [PriorityHigh; PriorityNormal; PriorityLow; PriorityNone]).

Definition available_cpus (o : BalloonsOptions) : res CPUSet :=
  let all : CPUSet := list_to_set (cs_CPUIDs (ts_sys (e_System E))) in
  match Get (o_AvailableResources o) with
  | AmountAbsent => Ok all
  | AmountCPUSet a => match e_Parse E a with Some cset => Ok cset | None => Err ErrOther end
  | AmountExcludeCPUSet a => match e_Parse E a with Some cset => Ok (all ∖ cset) | None => Err ErrOther end
  | AmountQuantity _ => Err ErrOther
  end.

Definition find_def (p : balloons) (name : string) : option positive := balloonDefByName p name.

(** Create the balloons of a configuration that has been validated. *)
Definition start_balloons (p : balloons) : balloons * res unit :=
  let p := with_builtin (find_def p reservedBalloonDefName) (find_def p defaultBalloonDefName) p in
  let p := with_balloons [] p in
  let p := with_freeCpus (p_allowed p) p in
  match newAllocator [WithSystemNodes (e_SysNodes E)] with
  | Err e => (p, Err e)
  | Ok (malloc, _) =>
      let p := with_memAllocator malloc p in
      match apply_defs (by_priority p (o_BalloonDefs (p_bpoptions p))) p with
      | (p, Err e) => (p, Err e)
      | (p, Ok _) =>
          let p := with_ifreeCpus (p_freeCpus p) p in
          let '(p, blns) := shareIdleCpus E (p_freeCpus p) ∅ p in
          let p := updatePinning E cch blns p in
          let p := resetCpuClass p in
          (fold_left (λ p x, useCpuClass x p) (p_balloons p) p, Ok tt)
      end
  end.

Definition setConfig (o : BalloonsOptions) (defs : list BalloonDef) (p : balloons) : balloons * res unit :=
  match available_cpus o with
  | Err e => (p, Err e)
  | Ok available =>
      let p := with_allowed (available ∩ ts_OnlineCPUs (e_System E)) p in
      let o := setOmittedDefaults o in
      if negb (e_NewHandler E) || negb (e_SetAllowedInterrupts E o) then (with_bpoptions o defs p, Err ErrOther)
      else
        match fillBuiltinBalloonDefs p o defs with
        | (defs, reserved, Err e) => (with_bpoptions o defs (with_reserved reserved p), Err e)
        | (defs, reserved, Ok _) =>
            let p := with_reserved reserved p in
            match validateConfig o defs with
            | Err e => (with_bpoptions o defs p, Err e)
            | Ok _ =>
                if negb (e_Configure E o (p_allowed p)) then (with_bpoptions o defs p, Err ErrOther)
                else
                  let loadVirtDev := fillLoadVirtDevices (o_LoadClasses o) in
                  let p := with_loadVirtDev loadVirtDev p in
                  match fillFarFromDevices loadVirtDev (e_Isolated E) (fillCloseToDevices defs) with
                  | Err e => (with_bpoptions o defs p, Err e)
                  | Ok defs => start_balloons (with_bpoptions o defs p)
                  end
            end
        end
  end.

(** ** Interrupts *)

(** A hardware interrupt: its number, description and CPUs, if they can be
    read. *)
Record Irq := MkIrq {
  irq_num : Z;
  irq_description : string;
  irq_cpus : option CPUSet;
}.

Definition irq_Match (i : Irq) (pattern : string) : bool :=
  if bool_decide (pattern = "") then false
  else if bool_decide (pattern = itoa (irq_num i)) then true
  else filepath_Match pattern (irq_description i).

Definition irqOptionsInUse (p : balloons) : bool :=
  existsb (λ d, bool_decide (d_IrqClaim (def_at p d) ≠ [] ∨ d_IrqMode (def_at p d) ≠ ""))
    (o_BalloonDefs (p_bpoptions p)).

(** The CPUs of the balloons of which something holds. *)
Definition cpus_where (p : balloons) (f : positive → bool) : CPUSet :=
  fold_left (λ cpus x,
      if bool_decide (b_Cpus (bln p x) = ∅) then cpus
      else if f x then cpus ∪ b_Cpus (bln p x) else cpus) (p_balloons p) ∅.

Definition irqClaimCpus (p : balloons) (i : Irq) : CPUSet :=
  cpus_where p (λ x, existsb (irq_Match i) (d_IrqClaim (def_of p x))).

(** The CPUs to set for an interrupt, [None] to leave it alone. *)
Definition irq_affinity (p : balloons) (i : Irq) : option CPUSet :=
  let sinkCpus := cpus_where p (λ x, bool_decide (d_IrqMode (def_of p x) = "sink")) in
  let isolateCpus := cpus_where p (λ x, bool_decide (d_IrqMode (def_of p x) = "isolate")) in
  match irq_cpus i with
  | None => None
  | Some curCpus =>
      let new :=
        if bool_decide (irqClaimCpus p i ≠ ∅) then Some (irqClaimCpus p i)
        else if bool_decide (sinkCpus ≠ ∅) then Some sinkCpus
        else if bool_decide (curCpus ∩ p_allowed p = ∅) then None
        else if bool_decide (isolateCpus ≠ ∅) then Some ((curCpus ∪ p_allowed p) ∖ isolateCpus)
        else Some (p_allowed p) in
      match new with
      | Some newCpus => if bool_decide (curCpus = newCpus) then None else Some newCpus
      | None => None
      end
  end.

(** The affinities to set, in the order of the interrupts. *)
Definition applyIrqAffinities (p : balloons) (hwIrqs : list Irq) : list (Z * CPUSet) :=
  if irqOptionsInUse p then omap (λ i, (λ cpus, (irq_num i, cpus)) <$> irq_affinity p i) hwIrqs else [].
End config.
