(* ===== verification/BlnFrame.v ===== *)
(** * What the steps of the balloons policy leave alone

    Two equivalences of states: [frame] relates states with the same balloons,
    types and containers, whatever CPUs they have, and [quiet] also the same
    CPUs.  Classes, pinning, memory and hints are quiet. *)

From Stdlib Require Import Ascii.
From S2P Require Import Prelude GoStrings Expr MemTypes MemNodes MemZones MemAllocator CpuTree CpuAlloc CpuTopo CpuResizeFacts CpuSystem Kube BlnTypes BlnPin BlnHints BlnOps BlnPolicy.

Open Scope Z_scope.

(** The tree a balloon's allocator works on. *)
Definition alloc_root (b : Balloon) : option cpuTreeNode := (λ a, ta_root (al_tree a)) <$> b_cpuTreeAlloc b.

Definition b_shape (b : Balloon) :=
  (b_Def b, b_Instance b, b_components b, b_PodIDs b, b_LoadedVirtDevs b, alloc_root b).

Definition b_quiet (b : Balloon) := (b_shape b, b_Cpus b, b_SharedIdleCpus b).

Definition p_shape (p : balloons) :=
  (p_balloons p, p_defs p, p_bpoptions p, p_allowed p, p_loadVirtDev p, p_next p, p_defaultBalloonDef p).

Definition frame (p p' : balloons) : Prop :=
  p_shape p' = p_shape p ∧ ∀ y, b_shape (bln p' y) = b_shape (bln p y).

Definition quiet (p p' : balloons) : Prop :=
  p_shape p' = p_shape p ∧ p_freeCpus p' = p_freeCpus p ∧ ∀ y, b_quiet (bln p' y) = b_quiet (bln p y).

#[export] Instance frame_equiv : Equivalence frame.
Proof.
  split; unfold frame.
  - done.
  - intros p q [-> H]. split; [done|]. intros y. by rewrite H.
  - intros p q r [-> H] [-> H']. split; [done|]. intros y. by rewrite H', H.
Qed.

#[export] Instance quiet_equiv : Equivalence quiet.
Proof.
  split; unfold quiet.
  - done.
  - intros p q (-> & -> & H). split_and!; [done..|]. intros y. by rewrite H.
  - intros p q r (-> & -> & H) (-> & -> & H'). split_and!; [done..|]. intros y. by rewrite H', H.
Qed.

Lemma quiet_frame p p' : quiet p p' → frame p p'.
Proof. intros (Hs & _ & Hb). split; [done|]. intros y. specialize (Hb y). unfold b_quiet in Hb. congruence. Qed.

(** ** Reading an updated balloon *)

Lemma bln_upd_eq x f p : bln (upd_bln x f p) x = f (bln p x).
Proof. unfold bln at 1. cbn. by rewrite lookup_insert_eq. Qed.

Lemma bln_upd_ne x y f p : x ≠ y → bln (upd_bln x f p) y = bln p y.
Proof. intros. unfold bln at 1. cbn. by rewrite lookup_insert_ne. Qed.

Lemma bln_upd x y f p : bln (upd_bln x f p) y = if bool_decide (x = y) then f (bln p x) else bln p y.
Proof. case_bool_decide; subst; [apply bln_upd_eq|by apply bln_upd_ne]. Qed.

Lemma p_shape_upd x f p : p_shape (upd_bln x f p) = p_shape p.
Proof. done. Qed.

Lemma frame_upd x f p : (∀ b, b_shape (f b) = b_shape b) → frame p (upd_bln x f p).
Proof. intros Hf. split; [done|]. intros y. rewrite bln_upd. case_bool_decide; subst; auto. Qed.

Lemma quiet_upd x f p : b_quiet (f (bln p x)) = b_quiet (bln p x) → quiet p (upd_bln x f p).
Proof. intros Hf. split_and!; [done..|]. intros y. rewrite bln_upd. case_bool_decide; subst; auto. Qed.

Lemma quiet_fold {A} (f : balloons → A → balloons) (l : list A) p :
  (∀ p a, quiet p (f p a)) → quiet p (fold_left f l p).
Proof.
  intros Hf. revert p. induction l as [|a l IH]; intros p; cbn; [done|]. etrans; [apply Hf|apply IH].
Qed.

(** Fields of states related by [frame] and [quiet]. *)
Section fields.
Context {p p' : balloons}.

Lemma frame_balloons : frame p p' → p_balloons p' = p_balloons p.
Proof. intros [Hs _]. unfold p_shape in Hs. congruence. Qed.

Lemma frame_defs : frame p p' → p_defs p' = p_defs p.
Proof. intros [Hs _]. unfold p_shape in Hs. congruence. Qed.

Lemma frame_options : frame p p' → p_bpoptions p' = p_bpoptions p.
Proof. intros [Hs _]. unfold p_shape in Hs. congruence. Qed.

Lemma frame_allowed : frame p p' → p_allowed p' = p_allowed p.
Proof. intros [Hs _]. unfold p_shape in Hs. congruence. Qed.

Lemma frame_loads : frame p p' → p_loadVirtDev p' = p_loadVirtDev p.
Proof. intros [Hs _]. unfold p_shape in Hs. congruence. Qed.

Lemma frame_next : frame p p' → p_next p' = p_next p.
Proof. intros [Hs _]. unfold p_shape in Hs. congruence. Qed.

Lemma frame_default : frame p p' → p_defaultBalloonDef p' = p_defaultBalloonDef p.
Proof. intros [Hs _]. unfold p_shape in Hs. congruence. Qed.

Lemma frame_Def y : frame p p' → b_Def (bln p' y) = b_Def (bln p y).
Proof. intros [_ Hb]. specialize (Hb y). unfold b_shape in Hb. congruence. Qed.

Lemma frame_Instance y : frame p p' → b_Instance (bln p' y) = b_Instance (bln p y).
Proof. intros [_ Hb]. specialize (Hb y). unfold b_shape in Hb. congruence. Qed.

Lemma frame_components y : frame p p' → b_components (bln p' y) = b_components (bln p y).
Proof. intros [_ Hb]. specialize (Hb y). unfold b_shape in Hb. congruence. Qed.

Lemma frame_PodIDs y : frame p p' → b_PodIDs (bln p' y) = b_PodIDs (bln p y).
Proof. intros [_ Hb]. specialize (Hb y). unfold b_shape in Hb. congruence. Qed.

Lemma frame_root y : frame p p' → alloc_root (bln p' y) = alloc_root (bln p y).
Proof. intros [_ Hb]. specialize (Hb y). unfold b_shape in Hb. congruence. Qed.

Lemma frame_def_at d : frame p p' → def_at p' d = def_at p d.
Proof. intros H. unfold def_at. by rewrite (frame_defs H). Qed.

Lemma frame_def_of y : frame p p' → def_of p' y = def_of p y.
Proof. intros H. unfold def_of. by rewrite (frame_Def y H), (frame_def_at _ H). Qed.

Lemma quiet_free : quiet p p' → p_freeCpus p' = p_freeCpus p.
Proof. by intros (_ & ? & _). Qed.

Lemma quiet_Cpus y : quiet p p' → b_Cpus (bln p' y) = b_Cpus (bln p y).
Proof. intros (_ & _ & Hb). specialize (Hb y). unfold b_quiet in Hb. congruence. Qed.

Lemma quiet_Shared y : quiet p p' → b_SharedIdleCpus (bln p' y) = b_SharedIdleCpus (bln p y).
Proof. intros (_ & _ & Hb). specialize (Hb y). unfold b_quiet in Hb. congruence. Qed.
End fields.

Lemma csize_disjoint (s t : CPUSet) : csize (s ∩ t) = 0 → s ## t.
Proof. intros Hs x Hx Ht. pose proof (elem_csize (s ∩ t) x ltac:(set_solver)). lia. Qed.

(** What a handler keeps, a walk keeps. *)
Lemma walk_invariant {St} (handler : Z → cpuTreeNode → St → St * walk_action) (P : St → Prop) i t st :
  (∀ i t st, P st → P (handler i t st).1) → P st → P (DepthFirstWalk handler i t st).1.
Proof.
  intros Hh. revert i st. induction t as [name level cpus cs IH] using tree_ind'. intros i st Hst.
  rewrite DepthFirstWalk_unfold. specialize (Hh i (MkTree name level cpus cs) st Hst).
  destruct (handler _ _ _) as [st' []]; cbn in *; try done. clear Hst. generalize 0. revert st' Hh.
  induction cs as [|c cs IHcs]; intros st' Hst' j; cbn; [done|]. apply Forall_cons in IH as [IHc IH].
  specialize (IHc j st' Hst'). destruct (DepthFirstWalk handler j c st') as [st'' []]; [done|]. by apply IHcs.
Qed.

Lemma imap_const_id {A} (l : list A) : imap (λ _ x, x) l = l.
Proof. induction l as [|x l IH]; [done|]. cbn. f_equal. apply IH. Qed.

Section steps.
Context `{GoRuntime} (E : Env) (cch : Cache_).

(** ** Classes and pinning *)

Lemma UseClass_quiet class cpus p : quiet p (UseClass class cpus p).
Proof. done. Qed.

Lemma use_cpu_class_quiet depth x p : quiet p (use_cpu_class depth x p).
Proof.
  revert x p. induction depth as [|depth IH]; intros x p; cbn; [done|].
  destruct (b_components (bln p x)); [done|]. etrans; [apply IH|].
  apply (quiet_fold (λ p y, use_cpu_class depth y p)); auto.
Qed.

Lemma useCpuClass_quiet x p : quiet p (useCpuClass x p).
Proof. apply use_cpu_class_quiet. Qed.

Lemma forgetCpuClass_quiet x p : quiet p (forgetCpuClass x p).
Proof. done. Qed.

Lemma allocMem_quiet c nodes types preserve p : quiet p (allocMem E cch c nodes types preserve p).1.
Proof.
  unfold allocMem. destruct (if negb _ then _ else _) as [a [[zone updates]|e]]; [|done]. cbn.
  change (quiet (with_memAllocator a p) (fold_left (λ p idz,
    match cch_containers cch !! idz.1 with
    | Some _ => SetCpusetMems idz.1 (NodeMask_MemsetString idz.2) p
    | None => p
    end) (map_range updates) (with_memAllocator a p))).
  apply quiet_fold. intros q idz. by destruct (cch_containers cch !! idz.1).
Qed.

Lemma pinMem_quiet c mems mask p : quiet p (pinMem E cch c mems mask p).
Proof.
  unfold pinMem. destruct (PreserveMemoryResources cch c).
  - destruct (parseIDSet E _) as [m|]; [|done].
    pose proof (allocMem_quiet c m 0 true p) as Hq. by destruct (allocMem E cch c m 0 true p).
  - set (types := if bool_decide _ then _ else _). clearbody types.
    pose proof (allocMem_quiet c mems types false p) as Hq. by destruct (allocMem E cch c mems types false p).
Qed.

Lemma pinCpuMem_quiet c cpus mems mask pin p : quiet p (pinCpuMem E cch c cpus mems mask pin p).
Proof.
  unfold pinCpuMem. set (q := if default true _ then _ else _).
  assert (quiet p q) as Hq. { unfold q. destruct (default _ _); [|done]. by destruct (ct_requestCPU c). }
  clearbody q. destruct (default _ _); [|done]. etrans; [done|apply pinMem_quiet].
Qed.

Lemma update_pinning_quiet x p : quiet p (update_pinning E cch x p).
Proof.
  unfold update_pinning. set (p1 := upd_bln x _ p).
  assert (quiet p p1) as H1 by (by apply quiet_upd). etrans; [exact H1|].
  apply quiet_fold. intros q cID. destruct (cch_containers cch !! cID); [apply pinCpuMem_quiet|done].
Qed.

Lemma updatePinning_quiet blns p : quiet p (updatePinning E cch blns p).
Proof. apply quiet_fold. intros. apply update_pinning_quiet. Qed.

Lemma applyProcessProperties_quiet c x p : quiet p (applyProcessProperties E cch c x p).
Proof.
  unfold applyProcessProperties. case_bool_decide; [done|]. by destruct (list_find _ _) as [[]|].
Qed.

Lemma updateGroups_quiet x c delta p : quiet p (updateGroups cch x c delta p).
Proof. unfold updateGroups. case_bool_decide; [|done]. by apply quiet_upd. Qed.

Lemma removePodResourcesHints_quiet x c p : quiet p (removePodResourcesHints x c p).
Proof.
  unfold removePodResourcesHints. apply quiet_fold. intros q y.
  destruct (b_cpuTreeAlloc (bln q y)) as [a|] eqn:Ha; [|done]. apply quiet_upd.
  unfold b_quiet, b_shape, alloc_root. rewrite Ha. cbn. unfold remove_hints. by case_bool_decide.
Qed.

(** ** Sharing idle CPUs *)

(** CPUs that are taken away are no longer shared, and only CPUs that are
    added are newly shared, by the balloons of the policy. *)
Definition shares (add rem : CPUSet) (p p' : balloons) : Prop :=
  frame p p' ∧ p_freeCpus p' = p_freeCpus p ∧ (∀ y, b_Cpus (bln p' y) = b_Cpus (bln p y)) ∧
  ∀ y, b_SharedIdleCpus (bln p' y) ⊆ b_SharedIdleCpus (bln p y) ∪ add ∧
       (y ∈ p_balloons p → b_SharedIdleCpus (bln p' y) ∩ rem ⊆ add) ∧
       (y ∉ p_balloons p → b_SharedIdleCpus (bln p' y) = b_SharedIdleCpus (bln p y)).

Lemma unshare_fold rem (l : list (nat * positive)) st :
  let st' := fold_left (unshare_step rem) l st in
  frame st.1 st'.1 ∧ p_freeCpus st'.1 = p_freeCpus st.1 ∧ (∀ y, b_Cpus (bln st'.1 y) = b_Cpus (bln st.1 y)) ∧
  (∀ y, b_SharedIdleCpus (bln st'.1 y) ⊆ b_SharedIdleCpus (bln st.1 y)) ∧
  (∀ y, y ∈ l.*2 → b_SharedIdleCpus (bln st'.1 y) ## rem) ∧
  (∀ y, y ∉ l.*2 → b_SharedIdleCpus (bln st'.1 y) = b_SharedIdleCpus (bln st.1 y)).
Proof.
  revert st. induction l as [|[i x] l IH]; intros [p updated]; cbn [fold_left].
  { cbn. split_and!; try done. intros y. by rewrite elem_of_nil. }
  set (st1 := unshare_step rem (p, updated) (i, x)).
  assert (frame p st1.1 ∧ p_freeCpus st1.1 = p_freeCpus p ∧ (∀ y, b_Cpus (bln st1.1 y) = b_Cpus (bln p y)) ∧
    (∀ y, b_SharedIdleCpus (bln st1.1 y) ⊆ b_SharedIdleCpus (bln p y)) ∧
    b_SharedIdleCpus (bln st1.1 x) ## rem ∧
    (∀ y, y ≠ x → b_SharedIdleCpus (bln st1.1 y) = b_SharedIdleCpus (bln p y))) as (Hf & Hfree & Hc & Hs & Hx & Hne).
  { unfold st1, unshare_step. cbn. case_bool_decide as Hcase; cbn; split_and!; try done.
    - by apply frame_upd.
    - intros y. rewrite bln_upd. case_bool_decide; subst; done.
    - intros y. rewrite bln_upd. case_bool_decide; subst; cbn; set_solver.
    - rewrite bln_upd_eq. cbn. set_solver.
    - intros y Hy. by rewrite bln_upd_ne by done.
    - apply csize_disjoint. pose proof (csize_nonneg (b_SharedIdleCpus (bln p x) ∩ rem)). lia. }
  clearbody st1. destruct (IH st1) as (Hf' & Hfree' & Hc' & Hs' & Hx' & Hne').
  split_and!.
  - by etrans.
  - by rewrite Hfree', Hfree.
  - intros y. by rewrite Hc', Hc.
  - intros y. etrans; [apply Hs'|apply Hs].
  - intros y. cbn. rewrite elem_of_cons. intros [->|Hy]; [|by apply Hx']. pose proof (Hs' x). set_solver.
  - intros y. cbn. rewrite not_elem_of_cons. intros [Hy1 Hy2]. by rewrite Hne', Hne.
Qed.

Lemma idle_in_level_sub level cpus add : idle_in_level E level cpus add ⊆ add.
Proof.
  apply (walk_invariant _ (λ st, st ⊆ add)); [|done]. intros i t st Hst.
  repeat case_bool_decide; cbn; set_solver.
Qed.

Lemma share_fold add (l : list (nat * positive)) st :
  let st' := fold_left (share_step E add) l st in
  frame st.1 st'.1 ∧ p_freeCpus st'.1 = p_freeCpus st.1 ∧ (∀ y, b_Cpus (bln st'.1 y) = b_Cpus (bln st.1 y)) ∧
  (∀ y, b_SharedIdleCpus (bln st'.1 y) ⊆ b_SharedIdleCpus (bln st.1 y) ∪ add) ∧
  (∀ y, y ∉ l.*2 → b_SharedIdleCpus (bln st'.1 y) = b_SharedIdleCpus (bln st.1 y)).
Proof.
  revert st. induction l as [|[i x] l IH]; intros [p updated]; cbn [fold_left].
  { cbn. split_and!; try done. intros y. set_solver. }
  set (st1 := share_step E add (p, updated) (i, x)).
  assert (frame p st1.1 ∧ p_freeCpus st1.1 = p_freeCpus p ∧ (∀ y, b_Cpus (bln st1.1 y) = b_Cpus (bln p y)) ∧
    (∀ y, b_SharedIdleCpus (bln st1.1 y) ⊆ b_SharedIdleCpus (bln p y) ∪ add) ∧
    (∀ y, y ≠ x → b_SharedIdleCpus (bln st1.1 y) = b_SharedIdleCpus (bln p y))) as (Hf & Hfree & Hc & Hs & Hne).
  { unfold st1, share_step. cbn. set (idle := idle_in_level _ _ _ _).
    assert (idle ⊆ add) by apply idle_in_level_sub. clearbody idle.
    case_bool_decide; [|case_bool_decide]; cbn; (split; [first [done|by apply frame_upd]|]);
      (split; [done|]); split_and!; intros y; rewrite ?bln_upd; try (by apply union_subseteq_l); try done;
      case_bool_decide; subst; cbn; try done; [|by apply union_subseteq_l]. by apply union_mono_l. }
  clearbody st1. destruct (IH st1) as (Hf' & Hfree' & Hc' & Hs' & Hne'). split_and!.
  - by etrans.
  - by rewrite Hfree', Hfree.
  - intros y. by rewrite Hc', Hc.
  - intros y. specialize (Hs y). specialize (Hs' y). cbn. set_solver.
  - intros y. cbn. rewrite not_elem_of_cons. intros [Hy1 Hy2]. by rewrite Hne', Hne.
Qed.

Lemma shareIdleCpus_shares add rem p : shares add rem p (shareIdleCpus E add rem p).1.
Proof.
  unfold shareIdleCpus. set (indexed := imap _ _).
  assert (indexed.*2 = p_balloons p) as Hix.
  { unfold indexed. rewrite fmap_imap. cbn. apply imap_const_id. }
  set (st1 := if bool_decide (csize rem > 0) then _ else _).
  assert (frame p st1.1 ∧ p_freeCpus st1.1 = p_freeCpus p ∧ (∀ y, b_Cpus (bln st1.1 y) = b_Cpus (bln p y)) ∧
    (∀ y, b_SharedIdleCpus (bln st1.1 y) ⊆ b_SharedIdleCpus (bln p y)) ∧
    (∀ y, y ∈ p_balloons p → b_SharedIdleCpus (bln st1.1 y) ## rem) ∧
    (∀ y, y ∉ p_balloons p → b_SharedIdleCpus (bln st1.1 y) = b_SharedIdleCpus (bln p y)))
    as (Hf & Hfree & Hc & Hs & Hr & Hn).
  { unfold st1. case_bool_decide as Hrem.
    - rewrite <- Hix. apply (unshare_fold rem indexed (p, ∅)).
    - split_and!; try done. intros y _ z _ Hz. pose proof (elem_csize _ _ Hz). lia. }
  clearbody st1. destruct st1 as [p1 u1]. cbn in *.
  set (st2 := if bool_decide _ then _ else _).
  assert (frame p1 st2.1 ∧ p_freeCpus st2.1 = p_freeCpus p1 ∧ (∀ y, b_Cpus (bln st2.1 y) = b_Cpus (bln p1 y)) ∧
    (∀ y, b_SharedIdleCpus (bln st2.1 y) ⊆ b_SharedIdleCpus (bln p1 y) ∪ add) ∧
    (∀ y, y ∉ p_balloons p → b_SharedIdleCpus (bln st2.1 y) = b_SharedIdleCpus (bln p1 y)))
    as (Hf' & Hfree' & Hc' & Hs' & Hn').
  { unfold st2. case_bool_decide.
    - destruct (share_fold (add ∖ e_Isolated E) indexed (p1, u1)) as (? & ? & ? & Hsh & Hn1). cbn in *.
      rewrite Hix in Hn1. split_and!; try done. intros y. specialize (Hsh y). set_solver.
    - split_and!; try done. intros y. set_solver. }
  clearbody st2. destruct st2 as [p2 u2]. cbn in *. split_and!.
  - by etrans.
  - by rewrite Hfree', Hfree.
  - intros y. by rewrite Hc', Hc.
  - intros y. split_and!.
    + specialize (Hs y). specialize (Hs' y). set_solver.
    + intros Hy. specialize (Hr y Hy). specialize (Hs' y). set_solver.
    + intros Hy. by rewrite Hn', Hn.
Qed.
End steps.
