(* ===== verification/BlnSize.v ===== *)
(** * Resizing a balloon

    The CPUs of the policy are either free or of exactly one balloon without
    components.  Resizing such a balloon moves CPUs between it and the free
    ones and changes nothing else. *)

From Stdlib Require Import Ascii.
From S2P Require Import Prelude GoStrings MemNodes CpuTree CpuResizeFacts CpuSystem CpuAlloc CpuAllocFacts CpuTopo Kube BlnTypes BlnPin BlnHints BlnOps BlnPolicy BlnFrame.

Open Scope Z_scope.

(** What the CPU allocators promise of the CPUs of the policy. *)
Class CpuService `{GoRuntime} (E : Env) (usable : CPUSet) : Prop := {
  service_tree : tree_wf (e_cpuTree E);
  service_cpus : usable ⊆ t_cpus (e_cpuTree E);
  service_alloc from cnt prio : from ⊆ usable → 0 ≤ cnt ≤ csize from →
    ∃ result, (alloc_cpus E from cnt prio).1 = Ok result ∧ result ⊆ from ∧ csize result = cnt;
  service_release from cnt prio : from ⊆ usable → 0 ≤ cnt ≤ csize from →
    ∃ kept left, release_cpus E from cnt prio = (Ok kept, left) ∧ left ⊆ from ∧ csize left = cnt;
}.

(** The CPU allocator of a system keeps that promise for its online CPUs. *)
Lemma system_service `{GoRuntime} (E : Env) (sys : CpuSys) topo (usable : CPUSet) :
  e_cpuAllocator E = (Some sys, topo) → topology_ok sys topo → tree_wf (e_cpuTree E) →
  usable ⊆ online sys ∩ t_cpus (e_cpuTree E) → CpuService E usable.
Proof.
  intros Halloc Htopo Htree Hus.
  assert (∀ from, from ⊆ usable → allocatable (e_cpuAllocator E).1 (e_cpuAllocator E).2 from) as Hal.
  { intros from Hfrom. rewrite Halloc. cbn. split; [done|set_solver]. }
  split; [done|set_solver|..]; intros from cnt prio Hfrom Hcnt.
  - destruct (allocateCpus_spec _ _ from cnt [CpuAlloc.WithPriority prio] (Hal _ Hfrom)) as (r & Hr & ? & ?); [lia..|].
    exists r. unfold alloc_cpus, AllocateCpus. by rewrite Hr.
  - destruct (ReleaseCpus_keeps _ _ from cnt [CpuAlloc.WithPriority prio] (Hal _ Hfrom) Hcnt) as (r & Hr & ? & ?).
    exists r, (from ∖ r). unfold release_cpus. rewrite Hr. split_and!; [done|set_solver|done].
Qed.

(** ** Sizes *)

(** The number of CPUs within the limits of a type that is closest to a
    number. *)
Definition clamp (def : BalloonDef) (n : Z) : Z :=
  let n := if bool_decide (d_MaxCpus def > NoLimit ∧ n > d_MaxCpus def) then d_MaxCpus def else n in
  if bool_decide (d_MinCpus def > 0 ∧ n < d_MinCpus def) then d_MinCpus def else n.

Definition full_cpus (milliCpus : Z) : Z := Z.quot (i64 (milliCpus + 999)) 1000.

Lemma new_cpu_count_clamp def m : new_cpu_count def m = clamp def (full_cpus m).
Proof. done. Qed.

Lemma clamp_mono def n n' : n ≤ n' → clamp def n ≤ clamp def n'.
Proof. intros. unfold clamp, NoLimit. repeat case_bool_decide; lia. Qed.

Lemma clamp_bounds def n : 0 ≤ n → (0 < d_MaxCpus def → d_MinCpus def ≤ d_MaxCpus def) →
  0 ≤ clamp def n ∧ d_MinCpus def ≤ Z.max 0 (clamp def n) ∧ (0 < d_MaxCpus def → clamp def n ≤ d_MaxCpus def).
Proof. intros. unfold clamp, NoLimit. repeat case_bool_decide; lia. Qed.

(** A number of CPUs that there can be is what a number that is not negative
    is clamped to. *)
Lemma clamp_nonneg def n : 0 ≤ clamp def n → clamp def n = clamp def (Z.max 0 n).
Proof. unfold clamp, NoLimit. repeat case_bool_decide; lia. Qed.

Lemma full_cpus_ceil m : 0 ≤ m < 2 ^ 63 - 999 → m ≤ 1000 * full_cpus m < m + 1000.
Proof.
  intros Hm. unfold full_cpus, i64. rewrite Z.mod_small by lia.
  replace (m + 999 + 2 ^ 63 - 2 ^ 63) with (m + 999) by lia. rewrite Z.quot_div_nonneg by lia.
  pose proof (Z.div_mod (m + 999) 1000 ltac:(lia)). pose proof (Z.mod_pos_bound (m + 999) 1000 ltac:(lia)). lia.
Qed.

Section sizes.
Context `{GoRuntime} (E : Env) (cch : Cache_).

(** ** Owners of CPUs *)

Definition leaf_ok (p : balloons) (y : positive) : Prop :=
  b_components (bln p y) = [] ∧
  (∃ r, alloc_root (bln p y) = Some r ∧ tree_ok r ∧ t_cpus r = t_cpus (e_cpuTree E)) ∧
  Forall (λ load, is_Some (p_loadVirtDev p !! load)) (d_Loads (def_of p y)).

(** The balloons [L] own all CPUs that are not free, each CPU once. *)
Record part (p : balloons) (L : list positive) : Prop := {
  pt_leaf : ∀ y, y ∈ L → leaf_ok p y;
  pt_disj : ∀ y z, y ∈ L → z ∈ L → y ≠ z → b_Cpus (bln p y) ## b_Cpus (bln p z);
  pt_free : ∀ y, y ∈ L → b_Cpus (bln p y) ## p_freeCpus p;
  pt_all : ∀ c, c ∈ p_allowed p ↔ c ∈ p_freeCpus p ∨ ∃ y, y ∈ L ∧ c ∈ b_Cpus (bln p y);
}.

Lemma leaf_ok_frame p p' y : frame p p' → leaf_ok p y → leaf_ok p' y.
Proof.
  intros Hf (Hc & Hr & Hl). unfold leaf_ok.
  by rewrite (frame_components y Hf), (frame_root y Hf), (frame_loads Hf), (frame_def_of y Hf).
Qed.

(** CPUs moved between a balloon and the free ones. *)
Lemma part_move p p' L y : part p L → frame p p' → y ∈ L →
  (∀ z, z ≠ y → b_Cpus (bln p' z) = b_Cpus (bln p z)) →
  p_freeCpus p' ∪ b_Cpus (bln p' y) = p_freeCpus p ∪ b_Cpus (bln p y) →
  b_Cpus (bln p' y) ## p_freeCpus p' → part p' L.
Proof.
  intros [Hleaf Hdisj Hfree Hall] Hf Hy Hz Hun Hdj.
  assert (∀ z, z ∈ L → z ≠ y → b_Cpus (bln p' z) ## p_freeCpus p' ∪ b_Cpus (bln p' y)) as Hsep.
  { intros z HzL Hne. rewrite Hun, Hz by done. pose proof (Hfree z HzL). pose proof (Hdisj z y HzL Hy Hne). set_solver. }
  split.
  - intros z HzL. by apply (leaf_ok_frame p), Hleaf.
  - intros z1 z2 H1 H2 Hne. destruct (decide (z1 = y)) as [->|Hn1].
    + specialize (Hsep z2 H2 (not_eq_sym Hne)). set_solver.
    + destruct (decide (z2 = y)) as [->|Hn2]; [specialize (Hsep z1 H1 Hn1); set_solver|].
      rewrite !Hz by done. by apply Hdisj.
  - intros z HzL. destruct (decide (z = y)) as [->|Hne]; [done|]. specialize (Hsep z HzL Hne). set_solver.
  - intros c. rewrite (frame_allowed Hf), Hall.
    assert (c ∈ p_freeCpus p' ∨ c ∈ b_Cpus (bln p' y) ↔ c ∈ p_freeCpus p ∨ c ∈ b_Cpus (bln p y)) as Hc by set_solver.
    split; intros [Hc1|(z & HzL & Hcz)].
    + destruct (proj2 Hc (or_introl Hc1)); eauto.
    + destruct (decide (z = y)) as [->|Hne]; [destruct (proj2 Hc (or_intror Hcz)); eauto|].
      right. exists z. by rewrite Hz.
    + destruct (proj1 Hc (or_introl Hc1)); eauto.
    + destruct (decide (z = y)) as [->|Hne]; [destruct (proj1 Hc (or_intror Hcz)); eauto|].
      right. exists z. by rewrite <- Hz.
Qed.

(** The same owners after a step that moves no CPUs. *)
Lemma part_same p p' L : part p L → frame p p' → p_freeCpus p' = p_freeCpus p →
  (∀ y, y ∈ L → b_Cpus (bln p' y) = b_Cpus (bln p y)) → part p' L.
Proof.
  intros [Hleaf Hdisj Hfree Hall] Hf Hfr Hc. split.
  - intros y Hy. by apply (leaf_ok_frame p), Hleaf.
  - intros y z Hy Hz Hne. rewrite !Hc by done. by apply Hdisj.
  - intros y Hy. rewrite Hfr, Hc by done. by apply Hfree.
  - intros c. rewrite (frame_allowed Hf), Hfr, Hall.
    by split; (intros [?|(y & Hy & ?)]; [left|right; exists y]); rewrite ?Hc in *.
Qed.

Lemma part_sub p L y : part p L → y ∈ L → b_Cpus (bln p y) ⊆ p_allowed p.
Proof. intros Hp Hy c Hc. apply (pt_all p L Hp). right. eauto. Qed.

Lemma part_free_sub p L : part p L → p_freeCpus p ⊆ p_allowed p.
Proof. intros Hp c Hc. apply (pt_all p L Hp). by left. Qed.

(** Shared CPUs are free; balloons that are not in the policy yet share none. *)
Definition shared_ok (p : balloons) (X : list positive) : Prop :=
  (∀ x, x ∈ p_balloons p → b_SharedIdleCpus (bln p x) ⊆ p_freeCpus p) ∧
  (∀ x, x ∈ X → (x ∉ p_balloons p) ∧ b_SharedIdleCpus (bln p x) = ∅).

Lemma shared_ok_quiet p p' X : quiet p p' → shared_ok p X → shared_ok p' X.
Proof.
  intros Hq [H1 H2]. pose proof (quiet_frame _ _ Hq) as Hf. split; intros x.
  - rewrite (frame_balloons Hf), (quiet_Shared x Hq), (quiet_free Hq). apply H1.
  - rewrite (frame_balloons Hf), (quiet_Shared x Hq). apply H2.
Qed.

(** Sharing the free CPUs once CPUs have been taken, or CPUs that have become
    free. *)
Lemma shared_ok_shares p p0 p' X add rem : shares add rem p p' →
  shared_ok p0 X → p_balloons p = p_balloons p0 →
  (∀ x, b_SharedIdleCpus (bln p x) = b_SharedIdleCpus (bln p0 x)) →
  add ⊆ p_freeCpus p → p_freeCpus p0 ⊆ p_freeCpus p ∪ rem → shared_ok p' X.
Proof.
  intros (Hf & Hfree & _ & Hsh) [H1 H2] Hb Hs Hadd Hrem. split; intros x.
  - rewrite (frame_balloons Hf), Hfree. intros Hx. destruct (Hsh x) as (Ha & Hr & _).
    specialize (Hr Hx). rewrite Hb in Hx. specialize (H1 x Hx). rewrite Hs in Ha. set_solver.
  - intros Hx. destruct (H2 x Hx) as [Hni Hemp]. rewrite (frame_balloons Hf), Hb. split; [done|].
    destruct (Hsh x) as (_ & _ & Hn). rewrite Hn, Hs by (by rewrite Hb). done.
Qed.

(** ** Balloons without components *)

(** [y] has become [n] CPUs large. *)
Record resized (X : list positive) (y : positive) (n : Z) (p p' : balloons) : Prop := {
  rs_frame : frame p p';
  rs_other : ∀ z, z ≠ y → b_Cpus (bln p' z) = b_Cpus (bln p z);
  rs_union : p_freeCpus p' ∪ b_Cpus (bln p' y) = p_freeCpus p ∪ b_Cpus (bln p y);
  rs_disj : b_Cpus (bln p' y) ## p_freeCpus p';
  rs_shared : shared_ok p' X;
  rs_size : csize (b_Cpus (bln p' y)) = n;
  rs_mono : b_Cpus (bln p y) ⊆ b_Cpus (bln p' y) ∨ b_Cpus (bln p' y) ⊆ b_Cpus (bln p y);
}.

Lemma resized_quiet_r X y n p p' p'' : resized X y n p p' → quiet p' p'' → resized X y n p p''.
Proof.
  intros [Hf Ho Hu Hd Hs Hn Hm] Hq. pose proof (quiet_frame _ _ Hq) as Hf'.
  split; rewrite ?(quiet_free Hq), ?(quiet_Cpus _ Hq); try done.
  - by etrans.
  - intros z Hz. rewrite (quiet_Cpus z Hq). by apply Ho.
  - by apply (shared_ok_quiet p').
Qed.

Lemma resized_quiet_l X y n p p' p'' : quiet p p' → resized X y n p' p'' → resized X y n p p''.
Proof.
  intros Hq [Hf Ho Hu Hd Hs Hn Hm]. pose proof (quiet_frame _ _ Hq) as Hf'.
  rewrite (quiet_free Hq), (quiet_Cpus _ Hq) in Hu. rewrite (quiet_Cpus _ Hq) in Hm. split; try done.
  - by etrans.
  - intros z Hz. rewrite <- (quiet_Cpus z Hq). by apply Ho.
Qed.

Lemma resized_part X y n p p' L : resized X y n p p' → y ∈ L → part p L → part p' L.
Proof. intros [Hf Ho Hu Hd _ _ _] Hy Hp. by apply (part_move p p' L y). Qed.

(** The CPUs of a balloon and the free CPUs are replaced, CPUs are shared
    again, and containers are pinned again. *)
Lemma move_resized X y p free cpus add rem blns :
  shared_ok p X → free ∪ cpus = p_freeCpus p ∪ b_Cpus (bln p y) → cpus ## free →
  add ⊆ free → p_freeCpus p ⊆ free ∪ rem →
  (b_Cpus (bln p y) ⊆ cpus ∨ cpus ⊆ b_Cpus (bln p y)) →
  let p1 := upd_bln y (set_Cpus cpus) (with_freeCpus free p) in
  let p2 := (shareIdleCpus E add rem p1).1 in
  resized X y (csize cpus) p (updatePinning E cch [y] (updatePinning E cch blns p2)).
Proof.
  intros Hsh Hun Hdj Hadd Hrem Hm p1 p2.
  pose proof (shareIdleCpus_shares E add rem p1) as Hs. fold p2 in Hs.
  assert (frame p p1) as Hf1. { by apply (frame_upd y (set_Cpus cpus) (with_freeCpus free p)). }
  assert (∀ z, b_Cpus (bln p1 z) = if bool_decide (y = z) then cpus else b_Cpus (bln p z)) as Hc1.
  { intros z. unfold p1. rewrite bln_upd. by case_bool_decide. }
  assert (∀ z, b_SharedIdleCpus (bln p1 z) = b_SharedIdleCpus (bln p z)) as Hs1.
  { intros z. unfold p1. rewrite bln_upd. by case_bool_decide; subst. }
  assert (resized X y (csize cpus) p p2) as Hr.
  { destruct Hs as (Hf2 & Hfree2 & Hc2 & Hsh2).
    split; rewrite ?Hfree2, ?Hc2, ?Hc1, ?bool_decide_eq_true_2 by done; try done.
    - by etrans.
    - intros z Hz. by rewrite Hc2, Hc1, bool_decide_eq_false_2.
    - by apply (shared_ok_shares p1 p p2 X add rem). }
  clearbody p2. eapply resized_quiet_r; [|apply updatePinning_quiet].
  eapply resized_quiet_r; [|apply updatePinning_quiet]. done.
Qed.

Context {allowed : CPUSet} `{!CpuService E allowed}.

Lemma inflate_spec X y p L delta add :
  part p L → y ∈ L → shared_ok p X → p_allowed p = allowed →
  add ⊆ p_freeCpus p → 0 < delta ≤ csize add →
  ∃ p', inflate E cch y delta add p = (p', Ok tt) ∧ resized X y (csize (b_Cpus (bln p y)) + delta) p p'.
Proof.
  intros Hp Hy Hsh Hal Hadd Hd. unfold inflate.
  destruct (service_alloc add delta (prio_Value (d_AllocatorPriority (def_of p y)))) as (new & -> & Hnew & Hn); [|lia|].
  { pose proof (part_free_sub p L Hp). set_solver. }
  pose proof (pt_free p L Hp y Hy) as Hdf.
  destruct (shareIdleCpus E _ _ _) as [p2 blns] eqn:Hp2. eexists. split; [reflexivity|].
  assert (csize (b_Cpus (bln p y) ∪ new) = csize (b_Cpus (bln p y)) + delta) as <-.
  { rewrite csize_union_disjoint by set_solver. lia. }
  replace p2 with (shareIdleCpus E (p_freeCpus p ∖ new) new
    (upd_bln y (set_Cpus (b_Cpus (bln p y) ∪ new)) (with_freeCpus (p_freeCpus p ∖ new) p))).1
    by (change (bln (with_freeCpus (p_freeCpus p ∖ new) p) y) with (bln p y) in Hp2; cbn [p_freeCpus upd_bln with_heap with_freeCpus] in Hp2; by rewrite Hp2).
  apply move_resized; try done.
  - apply set_eq. intros c. destruct (decide (c ∈ new)); set_solver.
  - set_solver.
  - intros c Hc. destruct (decide (c ∈ new)); set_solver.
  - left. set_solver.
Qed.

Lemma deflate_spec X y p L delta rem :
  part p L → y ∈ L → shared_ok p X → p_allowed p = allowed →
  rem ⊆ b_Cpus (bln p y) → csize rem = - delta → delta < 0 →
  ∃ p', deflate E cch y delta rem p = (p', Ok tt) ∧ resized X y (csize (b_Cpus (bln p y)) + delta) p p'.
Proof.
  intros Hp Hy Hsh Hal Hrem Hn Hd. unfold deflate.
  destruct (service_release rem (- delta) (prio_Value (d_AllocatorPriority (def_of p y))))
    as (kept & left & -> & Hleft & Hnl); [|lia|].
  { pose proof (part_sub p L y Hp Hy). set_solver. }
  pose proof (pt_free p L Hp y Hy) as Hdf.
  destruct (shareIdleCpus E _ _ _) as [p2 blns] eqn:Hp2. eexists. split; [reflexivity|].
  assert (csize (b_Cpus (bln p y) ∖ left) = csize (b_Cpus (bln p y)) + delta) as <-.
  { rewrite csize_difference by set_solver. lia. }
  replace p2 with (shareIdleCpus E left ∅
    (upd_bln y (set_Cpus (b_Cpus (bln p y) ∖ left)) (with_freeCpus (p_freeCpus p ∪ left) p))).1
    by (change (bln (with_freeCpus (p_freeCpus p ∪ left) p) y) with (bln p y) in Hp2; by rewrite Hp2).
  apply move_resized; try done.
  - apply set_eq. intros c. destruct (decide (c ∈ left)); set_solver.
  - set_solver.
  - set_solver.
  - set_solver.
  - right. set_solver.
Qed.

(** Loads that have a class can always be looked up. *)
Lemma load_virt_devs_ok p loads loaded m : Forall (λ load, is_Some (p_loadVirtDev p !! load)) loads →
  ∃ m' loaded', load_virt_devs E p loads loaded m = Ok (m', loaded').
Proof.
  revert loaded m. induction loads as [|lc loads IH]; intros loaded m Hl; cbn; [eauto|].
  apply Forall_cons in Hl as [[vd ->] Hl]. case_bool_decide; by apply IH.
Qed.

(** Without enough CPUs the chain of resizers fails at once. *)
Lemma ResizeCpus_short o root hints cur free delta close : ¬ (delta ≤ csize free ∧ - delta ≤ csize cur) →
  (ResizeCpus o root hints cur free delta close).1.2 = Some ErrOther.
Proof.
  intros Hn. unfold ResizeCpus. cbn [nextCpuResizer]. unfold resizeCpusOnlyIfNecessary at 1.
  pose proof (csize_nonneg cur). pose proof (csize_nonneg free). repeat case_bool_decide; try done; lia.
Qed.

Lemma resize_by_spec X y p L delta :
  part p L → y ∈ L → shared_ok p X → p_allowed p = allowed → delta ≠ 0 →
  ∃ p', (delta ≤ csize (p_freeCpus p) ∧ - delta ≤ csize (b_Cpus (bln p y)) ∧
         resize_by E cch y delta p = (p', Ok tt) ∧ resized X y (csize (b_Cpus (bln p y)) + delta) p p') ∨
        (¬ (delta ≤ csize (p_freeCpus p) ∧ - delta ≤ csize (b_Cpus (bln p y))) ∧
         resize_by E cch y delta p = (p', Err ErrOther) ∧ quiet p p').
Proof.
  intros Hp Hy Hsh Hal Hd. destruct (pt_leaf p L Hp y Hy) as (_ & (r & Hr & Hrok & Hrc) & Hloads).
  unfold resize_by. unfold alloc_root in Hr. destruct (b_cpuTreeAlloc (bln p y)) as [a|] eqn:Ha; [|done].
  cbn in Hr. injection Hr as <-. unfold updateLoadedVirtDevsInAllocatorOptions.
  destruct (load_virt_devs_ok p _ ∅ (virt_devs (alloc_options a)) Hloads) as (m & loaded & ->).
  set (o := applyCpuClassHints _ _ _ _ _ _). clearbody o.
  set (cur := b_Cpus (bln p y)). set (free := p_freeCpus p).
  assert (cur ⊆ t_cpus (ta_root (al_tree a))) as Hcur.
  { rewrite Hrc. etrans; [apply (part_sub p L y Hp Hy)|rewrite Hal]. apply service_cpus. }
  assert (free ⊆ t_cpus (ta_root (al_tree a))) as Hfree.
  { rewrite Hrc. etrans; [apply (part_free_sub p L Hp)|rewrite Hal]. apply service_cpus. }
  pose proof (pt_free p L Hp y Hy) as Hdf. fold cur free in Hdf.
  pose proof (ResizeCpus_ok o (ta_root (al_tree a)) Hrok (e_NewTopologyHints E) cur free delta (virt_devs o) Hdf Hcur Hfree) as Hrs.
  pose proof (ResizeCpus_short o (ta_root (al_tree a)) (e_NewTopologyHints E) cur free delta (virt_devs o)) as Hshort.
  cbn [with_options al_tree ta_options ta_root al_virtDevCpusets].
  destruct (ResizeCpus o _ _ _ _ _ _) as [[[add rem] err] close]. cbn in Hrs, Hshort.
  set (p1 := upd_bln y _ p).
  assert (quiet p p1) as Hq.
  { apply quiet_upd. unfold b_quiet, b_shape, alloc_root. by rewrite Ha. }
  pose proof (quiet_frame _ _ Hq) as Hf. destruct Hrs as [Hiff Hrs].
  assert (part p1 L) as Hp1.
  { apply (part_same p); [done|done|by apply quiet_free|]. intros. by apply quiet_Cpus. }
  assert (p_allowed p1 = allowed) as Hal1 by (by rewrite (frame_allowed Hf)).
  assert (b_Cpus (bln p1 y) = cur) as Hc1 by (by apply quiet_Cpus).
  assert (p_freeCpus p1 = free) as Hf1 by (by apply quiet_free).
  clearbody p1. destruct err as [e|].
  - assert (¬ (delta ≤ csize free ∧ - delta ≤ csize cur)) as Hno by (intros Hc; by apply Hiff in Hc).
    exists p1. right. split; [done|]. split; [|done]. specialize (Hshort Hno). congruence.
  - destruct (proj1 Hiff eq_refl) as [Hd1 Hd2]. destruct (Hrs eq_refl) as [Hpos Hneg].
    case_bool_decide as Hgt.
    + destruct Hpos as [Hadd Hda]; [lia|].
      destruct (inflate_spec X y p1 L delta add) as (p' & -> & Hres); rewrite ?Hf1; try done.
      { by apply (shared_ok_quiet p). } { lia. }
      exists p'. left. split_and!; try done. rewrite Hc1 in Hres. by apply (resized_quiet_l _ _ _ p p1).
    + destruct Hneg as [Hrem Hdr]; [lia|].
      destruct (deflate_spec X y p1 L delta rem) as (p' & -> & Hres); rewrite ?Hc1; try done.
      { by apply (shared_ok_quiet p). } { lia. }
      exists p'. left. split_and!; try done. rewrite Hc1 in Hres. by apply (resized_quiet_l _ _ _ p p1).
Qed.

(** [resizeBalloon] of a balloon without components succeeds exactly if there
    are enough free CPUs, and otherwise changes no CPUs. *)
Lemma resize_leaf_spec X y p L m :
  part p L → y ∈ L → shared_ok p X → p_allowed p = allowed →
  let n := new_cpu_count (def_of p y) m in
  ∃ p', (0 ≤ n ≤ csize (p_freeCpus p) + csize (b_Cpus (bln p y)) ∧
         resize_leaf E cch y m p = (p', Ok tt) ∧ resized X y n p p') ∨
        (¬ (0 ≤ n ≤ csize (p_freeCpus p) + csize (b_Cpus (bln p y))) ∧
         resize_leaf E cch y m p = (p', Err ErrOther) ∧ quiet p p').
Proof.
  intros Hp Hy Hsh Hal n. unfold resize_leaf. fold n.
  pose proof (csize_nonneg (b_Cpus (bln p y))). pose proof (csize_nonneg (p_freeCpus p)).
  case_bool_decide as Heq.
  { exists p. left. split; [lia|]. split; [done|]. split; try done; [apply (pt_free p L Hp y Hy)|]. by left. }
  set (p1 := forgetCpuClass y p). assert (quiet p p1) as Hq by apply forgetCpuClass_quiet.
  pose proof (quiet_frame _ _ Hq) as Hf.
  assert (part p1 L) as Hp1.
  { apply (part_same p); [done|done|by apply quiet_free|]. intros. by apply quiet_Cpus. }
  destruct (resize_by_spec X y p1 L (n - csize (b_Cpus (bln p y)))) as (p' & [(Hn1 & Hn2 & -> & Hr)|(Hno & -> & Hr)]).
  - done.
  - done.
  - by apply (shared_ok_quiet p).
  - by rewrite (frame_allowed Hf).
  - lia.
  - exists (useCpuClass y p'). left. rewrite (quiet_free Hq) in Hn1. rewrite (quiet_Cpus y Hq) in Hn2, Hr.
    split; [lia|]. split; [done|]. replace n with (csize (b_Cpus (bln p y)) + (n - csize (b_Cpus (bln p y)))) by lia.
    apply (resized_quiet_l _ _ _ p p1); [done|]. eapply resized_quiet_r; [done|apply useCpuClass_quiet].
  - exists (useCpuClass y p'). right. rewrite (quiet_free Hq), (quiet_Cpus y Hq) in Hno.
    split; [lia|]. split; [done|]. etrans; [exact Hq|]. etrans; [exact Hr|apply useCpuClass_quiet].
Qed.
End sizes.

(** * Resizing composite balloons

    The balloons that own the CPUs of a balloon are its components, or the
    balloon itself if it has none.  They are resized together or not at all. *)

Open Scope Z_scope.

Definition leaves_of (p : balloons) (x : positive) : list positive :=
  match b_components (bln p x) with [] => [x] | components => components end.

Definition cpus_of (p : balloons) (ys : list positive) : CPUSet := ⋃ ((λ y, b_Cpus (bln p y)) <$> ys).

Lemma elem_of_cpus_of p ys c : c ∈ cpus_of p ys ↔ ∃ y, y ∈ ys ∧ c ∈ b_Cpus (bln p y).
Proof.
  unfold cpus_of. rewrite elem_of_union_list. split.
  - intros (s & (y & -> & Hy)%list_elem_of_fmap & Hc). eauto.
  - intros (y & Hy & Hc). eexists. split; [|exact Hc]. by apply (list_elem_of_fmap_2 (λ y, b_Cpus (bln p y))).
Qed.

Lemma cpus_of_ext p p' ys : (∀ y, y ∈ ys → b_Cpus (bln p' y) = b_Cpus (bln p y)) → cpus_of p' ys = cpus_of p ys.
Proof. intros Hc. apply set_eq. intros c. rewrite !elem_of_cpus_of. split; intros (y & Hy & ?); exists y; (split; [done|]); [rewrite <- Hc|rewrite Hc]; done. Qed.

Lemma cpus_of_cons p y ys : cpus_of p (y :: ys) = b_Cpus (bln p y) ∪ cpus_of p ys.
Proof. done. Qed.

Lemma leaves_of_frame p p' x : frame p p' → leaves_of p' x = leaves_of p x.
Proof. intros Hf. unfold leaves_of. by rewrite (frame_components x Hf). Qed.

Lemma zip_take {A B} (f : A → B) (l : list A) k : zip l (f <$> take k l) = (λ y, (y, f y)) <$> take k l.
Proof.
  revert k. induction l as [|x l IH]; intros [|k]; cbn; [done..|]. f_equal. apply IH.
Qed.

Lemma union_swap (a b c : CPUSet) : a ∪ (b ∪ c) = a ∪ c ∪ b.
Proof. set_solver. Qed.

(** Give balloons their CPUs back. *)
Lemma restore_cpus (f : positive → CPUSet) (ys : list positive) q :
  let q' := fold_left (λ p yc, upd_bln yc.1 (set_Cpus yc.2) p) ((λ y, (y, f y)) <$> ys) q in
  frame q q' ∧ p_freeCpus q' = p_freeCpus q ∧ (∀ y, b_SharedIdleCpus (bln q' y) = b_SharedIdleCpus (bln q y)) ∧
  (∀ y, b_Cpus (bln q' y) = if bool_decide (y ∈ ys) then f y else b_Cpus (bln q y)).
Proof.
  revert q. induction ys as [|y ys IH]; intros q; cbn [fmap list_fmap fold_left].
  { cbn. split_and!; done. }
  cbn [fst snd]. set (q1 := upd_bln y (set_Cpus (f y)) q).
  assert (frame q q1) as Hf by (by apply frame_upd).
  assert (∀ z, b_SharedIdleCpus (bln q1 z) = b_SharedIdleCpus (bln q z)) as Hs.
  { intros z. unfold q1. rewrite bln_upd. by case_bool_decide; subst. }
  assert (∀ z, b_Cpus (bln q1 z) = if bool_decide (y = z) then f y else b_Cpus (bln q z)) as Hc.
  { intros z. unfold q1. rewrite bln_upd. by case_bool_decide. }
  assert (p_freeCpus q1 = p_freeCpus q) as Hfr by done.
  clearbody q1. destruct (IH q1) as (Hf' & Hfr' & Hs' & Hc'). split_and!.
  - by etrans.
  - by rewrite Hfr', Hfr.
  - intros z. by rewrite Hs', Hs.
  - intros z. rewrite Hc', Hc. destruct (decide (y = z)) as [->|Hne].
    + rewrite (bool_decide_eq_true_2 (z = z)), (bool_decide_eq_true_2 (z ∈ z :: ys)) by (done || constructor). by case_bool_decide.
    + rewrite (bool_decide_eq_false_2 (y = z)) by done. do 2 case_bool_decide; set_solver.
Qed.

Section groups.
Context `{GoRuntime} (E : Env) (cch : Cache_) {allowed : CPUSet} `{!CpuService E allowed}.

(** Nothing has changed but what is pinned and shared. *)
Record restored (X : list positive) (p p' : balloons) : Prop := {
  rt_frame : frame p p';
  rt_free : p_freeCpus p' = p_freeCpus p;
  rt_cpus : ∀ y, b_Cpus (bln p' y) = b_Cpus (bln p y);
  rt_shared : shared_ok p' X;
}.

Lemma quiet_restored X p p' : quiet p p' → shared_ok p X → restored X p p'.
Proof.
  intros Hq Hs. split; [by apply quiet_frame|by apply quiet_free|intros; by apply quiet_Cpus|by apply (shared_ok_quiet p)].
Qed.

Lemma restored_part X p p' L : restored X p p' → part E p L → part E p' L.
Proof. intros [Hf Hfr Hc _] Hp. by apply (part_same E p). Qed.

(** The balloons [ys] have been resized, others not. *)
Record group_resized (X : list positive) (ys : list positive) (p p' : balloons) : Prop := {
  gr_frame : frame p p';
  gr_other : ∀ z, (z ∉ ys) → b_Cpus (bln p' z) = b_Cpus (bln p z);
  gr_shared : shared_ok p' X;
  gr_free : p_freeCpus p' ∪ cpus_of p' ys = p_freeCpus p ∪ cpus_of p ys;
}.

Lemma resize_components_spec X (resize : positive → Z → balloons → balloons * res unit) m :
  (∀ y q, b_components (bln q y) = [] → resize y m q = resize_leaf E cch y m q) →
  ∀ ys p L origs acc,
  part E p L → ys ⊆ L → NoDup ys → shared_ok p X → p_allowed p = allowed →
  let count y := new_cpu_count (def_of p y) m in
  ((∀ y, y ∈ ys → csize (b_Cpus (bln p y)) ≤ count y) ∨
   (∀ y, y ∈ ys → 0 ≤ count y ≤ csize (b_Cpus (bln p y))) ∨ (length ys ≤ 1)%nat) →
  ∃ p', (∃ origs', resize_components resize ys m origs acc p = (p', origs', Ok (acc ∪ cpus_of p' ys)) ∧
           part E p' L ∧ group_resized X ys p p' ∧ ∀ y, y ∈ ys → csize (b_Cpus (bln p' y)) = count y) ∨
        (∃ k, resize_components resize ys m origs acc p
              = (p', app origs ((λ y, b_Cpus (bln p y)) <$> take k ys), Err ErrOther) ∧
           ¬ (∀ y, y ∈ ys → 0 ≤ count y ≤ csize (b_Cpus (bln p y))) ∧
           frame p p' ∧ shared_ok p' X ∧ p_freeCpus p' ⊆ p_freeCpus p ∧
           ∀ z, (z ∉ take k ys) → b_Cpus (bln p' z) = b_Cpus (bln p z)).
Proof.
  intros Hres ys. induction ys as [|y ys IH]; intros p L origs acc Hp Hys Hnd Hsh Hal count Hdir.
  { exists p. left. exists origs. cbn. unfold cpus_of. cbn. rewrite (right_id_L ∅ (∪)).
    split_and!; try done. intros y. by rewrite elem_of_nil. }
  apply NoDup_cons in Hnd as [Hny Hnd]. assert (y ∈ L) as HyL by (apply Hys; constructor).
  assert (ys ⊆ L) as HysL by (intros z Hz; apply Hys; by constructor).
  cbn [resize_components]. destruct (pt_leaf E p L Hp y HyL) as (Hcomp & _). rewrite Hres by done.
  destruct (resize_leaf_spec E cch X y p L m Hp HyL Hsh Hal) as (p1 & [(Hn & -> & Hr)|(Hn & -> & Hq)]); fold (count y) in *.
  - pose proof (rs_frame _ _ _ _ _ Hr) as Hf1. pose proof (resized_part E X y _ p p1 L Hr HyL Hp) as Hp1.
    assert (∀ z, z ∈ ys → b_Cpus (bln p1 z) = b_Cpus (bln p z)) as Hz1.
    { intros z Hz. apply (rs_other _ _ _ _ _ Hr). by intros ->. }
    destruct (IH p1 L (app origs [b_Cpus (bln p y)]) (acc ∪ b_Cpus (bln p1 y))) as (p' & Hp'); try done.
    { by apply (rs_shared _ _ _ _ _ Hr). } { by rewrite (frame_allowed Hf1). }
    { destruct Hdir as [Hup|[Hdown|Hone]]; [left|right; left|right; right; cbn in Hone; lia];
        intros z Hz; rewrite Hz1, (frame_def_of z Hf1) by done; [apply Hup|apply Hdown]; by constructor. }
    exists p'. destruct Hp' as [(origs' & -> & Hp' & Hg & Hsz)|(k & -> & Hno & Hf' & Hsh' & Hfree' & Hz')]; [left|right].
    + exists origs'. pose proof (gr_frame _ _ _ _ Hg) as Hf'. pose proof (gr_other _ _ _ _ Hg) as Ho.
      assert (b_Cpus (bln p' y) = b_Cpus (bln p1 y)) as Hy' by (by apply Ho).
      split_and!.
      * f_equal. f_equal. rewrite cpus_of_cons, Hy'. by rewrite (assoc_L (∪)).
      * done.
      * split; [by etrans|..|by apply (gr_shared _ _ _ _ Hg)|].
        -- intros z [Hz1' Hz2']%not_elem_of_cons. rewrite Ho by done. by apply (rs_other _ _ _ _ _ Hr).
        -- rewrite !cpus_of_cons, Hy'. pose proof (gr_free _ _ _ _ Hg) as Hgf. pose proof (rs_union _ _ _ _ _ Hr) as Hru.
           rewrite (cpus_of_ext p p1 ys) in Hgf by done.
           by rewrite union_swap, Hgf, <- (union_swap _ _ (cpus_of p ys)), (assoc_L (∪)), Hru, (assoc_L (∪)).
      * intros z [->|Hz]%elem_of_cons; [by rewrite Hy', (rs_size _ _ _ _ _ Hr)|].
        rewrite Hsz by done. by rewrite (frame_def_of z Hf1).
    + exists (S k). cbn [take fmap list_fmap]. split_and!.
      * f_equal. f_equal. rewrite <- app_assoc. cbn. f_equal. f_equal. apply list_fmap_ext.
        intros i z Hz. apply Hz1. apply list_elem_of_lookup_2, elem_of_take in Hz as (? & Hl & _). by apply list_elem_of_lookup_2 in Hl.
      * intros Hdown. apply Hno. intros z Hz. rewrite Hz1, (frame_def_of z Hf1) by done. apply Hdown. by constructor.
      * by etrans.
      * done.
      * destruct Hdir as [Hup|[Hdown|Hone]].
        -- pose proof (rs_union _ _ _ _ _ Hr) as Hru. pose proof (rs_mono _ _ _ _ _ Hr) as Hmono.
           assert (b_Cpus (bln p y) ⊆ b_Cpus (bln p1 y)) as Hsub.
           { destruct Hmono as [?|Hsub]; [done|]. specialize (Hup y ltac:(constructor)).
             rewrite <- (rs_size _ _ _ _ _ Hr) in Hup.
             assert (b_Cpus (bln p1 y) = b_Cpus (bln p y)) as ->; [|done].
             apply leibniz_equiv, set_subseteq_size_equiv; [done|unfold csize in Hup; lia]. }
           pose proof (rs_disj _ _ _ _ _ Hr). set_solver.
        -- destruct Hno. intros z Hz. rewrite Hz1, (frame_def_of z Hf1) by done. apply Hdown. by constructor.
        -- destruct Hno. intros z Hz. destruct ys; [by apply not_elem_of_nil in Hz|cbn in Hone; lia].
      * intros z [Hz1' Hz2']%not_elem_of_cons. rewrite Hz' by done. by apply (rs_other _ _ _ _ _ Hr).
  - exists p1. right. exists 1%nat. cbn. split_and!; try done.
    + intros Hdown. specialize (Hdown y ltac:(constructor)). pose proof (csize_nonneg (p_freeCpus p)). lia.
    + by apply quiet_frame.
    + by apply (shared_ok_quiet p).
    + by rewrite (quiet_free Hq).
    + intros z _. by apply quiet_Cpus.
Qed.

(** All balloons of a group have the size of the same number of CPUs. *)
Definition sized (p : balloons) (ys : list positive) (t : Z) : Prop :=
  ∀ y, y ∈ ys → csize (b_Cpus (bln p y)) = clamp (def_of p y) t.

Lemma clamp_ge_0 def n : 0 ≤ n → 0 ≤ clamp def n.
Proof. unfold clamp, NoLimit. repeat case_bool_decide; lia. Qed.

Lemma sized_direction p ys t m :
  0 ≤ t → sized p ys t → (0 ≤ full_cpus m ∨ (length ys ≤ 1)%nat) →
  (∀ y, y ∈ ys → csize (b_Cpus (bln p y)) ≤ new_cpu_count (def_of p y) m) ∨
  (∀ y, y ∈ ys → 0 ≤ new_cpu_count (def_of p y) m ≤ csize (b_Cpus (bln p y))) ∨ (length ys ≤ 1)%nat.
Proof.
  intros Ht Hs [Hm|?]; [|auto]. setoid_rewrite new_cpu_count_clamp.
  destruct (decide (t ≤ full_cpus m)); [left|right; left]; intros y Hy; rewrite Hs by done.
  - by apply clamp_mono.
  - split; [by apply clamp_ge_0|]. apply clamp_mono. lia.
Qed.

Lemma part_m k m : (1 ≤ k)%nat → 0 ≤ m < 2 ^ 63 → 0 ≤ full_cpus (Z.quot m (Z.of_nat k)) ∨ (k ≤ 1)%nat.
Proof.
  intros Hk Hm. destruct (decide (k = 1%nat)); [right; lia|left].
  assert (0 ≤ Z.quot m (Z.of_nat k) ≤ m / 2) as Hq.
  { rewrite Z.quot_div_nonneg by lia. split; [apply Z.div_pos; lia|]. apply Z.div_le_compat_l; lia. }
  assert (m / 2 < 2 ^ 62) by (apply Z.div_lt_upper_bound; lia).
  pose proof (full_cpus_ceil (Z.quot m (Z.of_nat k)) ltac:(lia)). lia.
Qed.

(** [resizeCompositeBalloon]: all components get their new size, or no CPUs
    change. *)
Lemma resizeComposite_spec X x resize p L m t :
  let ys := b_components (bln p x) in
  (∀ m y q, b_components (bln q y) = [] → resize y m q = resize_leaf E cch y m q) →
  part E p L → ys ⊆ L → NoDup ys → ys ≠ [] → shared_ok p X → p_allowed p = allowed →
  0 ≤ t → sized p ys t → 0 ≤ m < 2 ^ 63 →
  ∃ p', (resizeCompositeBalloon E cch resize x m p = (p', Ok tt) ∧
         part E p' L ∧ frame p p' ∧ shared_ok p' X ∧
         (∀ z, z ≠ x → (z ∉ ys) → b_Cpus (bln p' z) = b_Cpus (bln p z)) ∧
         b_Cpus (bln p' x) = cpus_of p' ys ∧
         ∃ t', 0 ≤ t' ∧ t' = Z.max 0 (full_cpus (Z.quot m (Z.of_nat (length ys)))) ∧ sized p' ys t') ∨
        (resizeCompositeBalloon E cch resize x m p = (p', Err ErrOther) ∧ restored X p p').
Proof.
  intros ys Hres Hp Hys Hnd Hne Hsh Hal Ht Hs Hm. unfold resizeCompositeBalloon. fold ys.
  set (m' := Z.quot m _). assert (1 ≤ length ys)%nat as Hlen by (destruct ys; cbn; [done|lia]).
  destruct (resize_components_spec X resize m' (Hres m') ys p L [] ∅ Hp Hys Hnd Hsh Hal) as (p1 & Hp1).
  { apply (sized_direction p ys t m' Ht Hs). by apply part_m. }
  destruct Hp1 as [(origs & -> & Hp1 & Hg & Hsz)|(k & -> & _ & Hf & Hsh1 & Hfr & Hz)].
  - rewrite (left_id_L ∅ (∪)). pose proof (gr_frame _ _ _ _ Hg) as Hf1.
    assert (x ∉ L) as HxL. { intros HxL. by destruct (pt_leaf E p L Hp x HxL) as (? & _). }
    set (p2 := forgetCpuClass x p1). assert (quiet p1 p2) as Hq2 by apply forgetCpuClass_quiet. clearbody p2.
    set (p3 := upd_bln x (set_Cpus (cpus_of p1 ys)) p2).
    assert (frame p2 p3) as Hf3 by (by apply frame_upd).
    assert (∀ z, z ≠ x → b_Cpus (bln p3 z) = b_Cpus (bln p1 z)) as Hc3.
    { intros z Hz. unfold p3. rewrite bln_upd_ne by done. by apply quiet_Cpus. }
    assert (b_Cpus (bln p3 x) = cpus_of p1 ys) as Hx3 by (unfold p3; by rewrite bln_upd_eq).
    assert (shared_ok p3 X) as Hsh3.
    { pose proof (shared_ok_quiet p1 p2 X Hq2 (gr_shared _ _ _ _ Hg)) as [Ha Hb].
      assert (∀ z, b_SharedIdleCpus (bln p3 z) = b_SharedIdleCpus (bln p2 z)) as Hss.
      { intros z. unfold p3. rewrite bln_upd. by case_bool_decide; subst. }
      split; intros z; rewrite Hss; [apply Ha|apply Hb]. }
    assert (p_freeCpus p3 = p_freeCpus p1) as Hfr3 by (by apply (quiet_free Hq2)). clearbody p3.
    set (p4 := useCpuClass x (updatePinning E cch [x] p3)).
    assert (quiet p3 p4) as Hq4 by (etrans; [apply updatePinning_quiet|apply useCpuClass_quiet]). clearbody p4.
    assert (frame p1 p4) as Hf14.
    { etrans; [by apply quiet_frame|]. etrans; [done|]. by apply quiet_frame. }
    assert (∀ z, z ≠ x → b_Cpus (bln p4 z) = b_Cpus (bln p1 z)) as Hc4.
    { intros z Hz. rewrite (quiet_Cpus z Hq4). by apply Hc3. }
    assert (∀ z, z ∈ ys → z ≠ x) as Hysx by (intros z Hz ->; auto).
    exists p4. left. split_and!.
    + done.
    + apply (part_same E p1); [done..|by rewrite (quiet_free Hq4)|]. intros y Hy. apply Hc4. by intros ->.
    + by etrans.
    + by apply (shared_ok_quiet p3).
    + intros z Hzx Hzy. rewrite Hc4 by done. by apply (gr_other _ _ _ _ Hg).
    + rewrite (quiet_Cpus x Hq4), Hx3. symmetry. apply cpus_of_ext. auto.
    + eexists. split; [|split; [reflexivity|]]; [lia|]. intros y Hy.
      rewrite Hc4, (frame_def_of y Hf14), (frame_def_of y Hf1), Hsz, new_cpu_count_clamp by auto.
      apply clamp_nonneg. rewrite <- new_cpu_count_clamp, <- Hsz by done. apply csize_nonneg.
  - rewrite app_nil_l, zip_take.
    set (q := with_freeCpus (p_freeCpus p) p1).
    assert (frame p1 q) as Hfq by done.
    destruct (restore_cpus (λ y, b_Cpus (bln p y)) (take k ys) q) as (Hf' & Hfr' & Hs' & Hc').
    eexists. right. split; [reflexivity|]. split.
    + etrans; [exact Hf|]. by etrans.
    + by rewrite Hfr'.
    + intros y. rewrite Hc'. case_bool_decide as Hy; [done|]. by apply Hz.
    + destruct Hsh1 as [Ha Hb]. pose proof (frame_balloons Hf') as Hbl.
      split; intros z; rewrite Hs', Hbl; [|apply Hb]. intros Hzb. rewrite Hfr'.
      change (b_SharedIdleCpus (bln p1 z) ⊆ p_freeCpus p). etrans; [by apply Ha|done].
Qed.
End groups.
