(* ===== verification/BlnInv.v ===== *)
(** * The invariant of the balloons policy

    [good p X] says that the CPUs of the policy are shared out between the
    free ones, its balloons and the balloons [X] that are being created, that
    every balloon has a size within the limits of its type, and that only free
    CPUs are shared. *)

From Stdlib Require Import Ascii.
From S2P Require Import Prelude GoStrings MemNodes CpuTree CpuAlloc CpuTopo CpuResizeFacts CpuSystem Kube BlnTypes BlnPin BlnHints BlnOps BlnPolicy BlnFrame BlnSize.

Open Scope Z_scope.

(** ** Configurations *)

(** The types of a configuration: their loads have classes, their limits make
    sense, and components are not composite themselves. *)
Definition def_ok (p : balloons) (d : positive) : Prop :=
  let D := def_at p d in
  Forall (λ load, is_Some (p_loadVirtDev p !! load)) (d_Loads D) ∧
  0 ≤ d_MinCpus D ≤ 2 ^ 50 ∧ (0 < d_MaxCpus D → d_MinCpus D ≤ d_MaxCpus D) ∧
  ∀ comp c, comp ∈ d_Components D → balloonDefByName p comp = Some c → d_Components (def_at p c) = [].

Definition conf_ok (p : balloons) : Prop :=
  ∀ d, d ∈ o_BalloonDefs (p_bpoptions p) → def_ok p d.

Lemma balloonDefByName_elem p name d : balloonDefByName p name = Some d →
  d ∈ o_BalloonDefs (p_bpoptions p) ∧ d_Name (def_at p d) = name.
Proof.
  unfold balloonDefByName. destruct (list_find _ _) as [[i d']|] eqn:Hf; [|done]. cbn. intros [= <-].
  apply list_find_Some in Hf as (Hl & Hn & _). split; [by apply list_elem_of_lookup_2 in Hl|done].
Qed.

(** ** States with the same balloons *)

(** [p'] has the configuration and the balloons of [p], and maybe more. *)
Record like (p p' : balloons) : Prop := {
  lk_conf : (p_defs p', p_bpoptions p', p_allowed p', p_loadVirtDev p') =
            (p_defs p, p_bpoptions p, p_allowed p, p_loadVirtDev p);
  lk_next : (p_next p ≤ p_next p')%positive;
  lk_bln y : (y < p_next p)%positive →
    (b_Def (bln p' y), b_components (bln p' y), alloc_root (bln p' y)) =
    (b_Def (bln p y), b_components (bln p y), alloc_root (bln p y));
}.

#[export] Instance like_preorder : PreOrder like.
Proof.
  split.
  - by intros p.
  - intros p q r [C1 N1 B1] [C2 N2 B2]. split; [congruence|lia|]. intros y Hy. rewrite B2, B1; [done|lia..].
Qed.

Lemma frame_like p p' : frame p p' → like p p'.
Proof.
  intros Hf. split.
  - by rewrite (frame_defs Hf), (frame_options Hf), (frame_allowed Hf), (frame_loads Hf).
  - by rewrite (frame_next Hf).
  - intros y _. by rewrite (frame_Def y Hf), (frame_components y Hf), (frame_root y Hf).
Qed.

Section like.
Context {p p' : balloons} (Hl : like p p').

Lemma like_defs : p_defs p' = p_defs p.
Proof. pose proof (lk_conf _ _ Hl). congruence. Qed.

Lemma like_root y : (y < p_next p)%positive → alloc_root (bln p' y) = alloc_root (bln p y).
Proof. intros Hy. pose proof (lk_bln _ _ Hl y Hy). congruence. Qed.

Lemma like_Def y : (y < p_next p)%positive → b_Def (bln p' y) = b_Def (bln p y).
Proof. intros Hy. pose proof (lk_bln _ _ Hl y Hy). congruence. Qed.

Lemma like_def_at d : def_at p' d = def_at p d.
Proof. unfold def_at. pose proof (lk_conf _ _ Hl). congruence. Qed.

Lemma like_options : p_bpoptions p' = p_bpoptions p.
Proof. pose proof (lk_conf _ _ Hl). congruence. Qed.

Lemma like_allowed : p_allowed p' = p_allowed p.
Proof. pose proof (lk_conf _ _ Hl). congruence. Qed.

Lemma like_loads : p_loadVirtDev p' = p_loadVirtDev p.
Proof. pose proof (lk_conf _ _ Hl). congruence. Qed.

Lemma like_def_of y : (y < p_next p)%positive → def_of p' y = def_of p y.
Proof. intros Hy. unfold def_of. rewrite like_def_at. pose proof (lk_bln _ _ Hl y Hy). congruence. Qed.

Lemma like_components y : (y < p_next p)%positive → b_components (bln p' y) = b_components (bln p y).
Proof. intros Hy. pose proof (lk_bln _ _ Hl y Hy). congruence. Qed.

Lemma like_leaves_of x : (x < p_next p)%positive → leaves_of p' x = leaves_of p x.
Proof. intros Hx. unfold leaves_of. by rewrite like_components. Qed.

Lemma like_byName name : balloonDefByName p' name = balloonDefByName p name.
Proof. unfold balloonDefByName, def_at. by rewrite like_defs, like_options. Qed.

Lemma like_conf_ok : conf_ok p → conf_ok p'.
Proof.
  unfold conf_ok, def_ok. rewrite like_options. intros Hc d Hd. destruct (Hc d Hd) as (? & ? & ? & Hflat).
  rewrite like_def_at, like_loads. split; [done|]. split; [done|]. split; [done|]. intros comp c. rewrite like_byName, like_def_at. apply Hflat.
Qed.
End like.

Section invariant.
Context `{GoRuntime} (E : Env) (cch : Cache_) (allowed : CPUSet).

(** ** Balloons *)

Definition leaves (p : balloons) (T : list positive) : list positive := concat (leaves_of p <$> T).

Lemma elem_of_leaves p T y : y ∈ leaves p T ↔ ∃ x, x ∈ T ∧ y ∈ leaves_of p x.
Proof. unfold leaves. apply elem_of_concat_map. Qed.

(** The CPUs of a balloon are those of the balloons that own them, and all of
    these have the size for the same number of CPUs. *)
Record group_ok (p : balloons) (x : positive) : Prop := {
  go_next : (x < p_next p)%positive;
  go_older : ∀ y, y ∈ leaves_of p x → (y ≤ x)%positive;
  go_old : ∀ y, y ∈ b_components (bln p x) → (y < x)%positive;
  go_def : b_Def (bln p x) ∈ o_BalloonDefs (p_bpoptions p) ∧
           ∀ y, y ∈ leaves_of p x → b_Def (bln p y) ∈ o_BalloonDefs (p_bpoptions p);
  go_cpus : b_Cpus (bln p x) = cpus_of p (leaves_of p x);
  go_sized : ∃ t, 0 ≤ t ∧ sized p (leaves_of p x) t;
}.

(** The balloons [T] share out the CPUs. *)
Record ok (p : balloons) (T : list positive) : Prop := {
  ok_conf : conf_ok p;
  ok_allowed : p_allowed p = allowed;
  ok_part : part E p (leaves p T);
  ok_nodup : NoDup (leaves p T);
  ok_group : ∀ x, x ∈ T → group_ok p x;
}.

Definition good (p : balloons) (X : list positive) : Prop :=
  ok p (app (p_balloons p) X) ∧ shared_ok p X.

Lemma leaves_next p T y : ok p T → y ∈ leaves p T → (y < p_next p)%positive.
Proof.
  intros Hok (x & Hx & Hy)%elem_of_leaves. pose proof (go_next _ _ (ok_group _ _ Hok x Hx)).
  pose proof (go_older _ _ (ok_group _ _ Hok x Hx) y Hy). lia.
Qed.

Lemma like_leaves p p' T : like p p' → (∀ x, x ∈ T → (x < p_next p)%positive) → leaves p' T = leaves p T.
Proof.
  intros Hl Hn. unfold leaves. f_equal. apply list_fmap_ext. intros i x Hx.
  apply (like_leaves_of Hl), Hn. by apply list_elem_of_lookup_2 in Hx.
Qed.

Lemma part_like p p' L : like p p' → (∀ y, y ∈ L → (y < p_next p)%positive) → p_freeCpus p' = p_freeCpus p →
  (∀ y, y ∈ L → b_Cpus (bln p' y) = b_Cpus (bln p y)) → part E p L → part E p' L.
Proof.
  intros Hl Hn Hfr Hc [Hleaf Hdisj Hfree Hall]. split.
  - intros y Hy. destruct (Hleaf y Hy) as (H1 & H2 & H3). specialize (Hn y Hy).
    unfold leaf_ok. by rewrite (like_components Hl y Hn), (like_root Hl y Hn), (like_loads Hl), (like_def_of Hl y Hn).
  - intros y z Hy Hz Hne. rewrite !Hc by done. by apply Hdisj.
  - intros y Hy. rewrite Hfr, Hc by done. by apply Hfree.
  - intros c. rewrite (like_allowed Hl), Hfr, Hall.
    by split; (intros [?|(y & Hy & ?)]; [left|right; exists y]); rewrite ?Hc in *.
Qed.

Lemma group_ok_like p p' x : like p p' →
  (∀ y, y = x ∨ y ∈ leaves_of p x → b_Cpus (bln p' y) = b_Cpus (bln p y)) → group_ok p x → group_ok p' x.
Proof.
  intros Hl Hc [Hn Holder Hold [Hd Hds] Hcp (t & Ht & Hs)]. pose proof (lk_next _ _ Hl).
  assert (∀ y, y ∈ leaves_of p x → (y < p_next p)%positive) as Hyn by (intros y Hy; specialize (Holder y Hy); lia).
  split; rewrite ?(like_leaves_of Hl x Hn), ?(like_components Hl x Hn), ?(like_options Hl).
  - lia.
  - done.
  - done.
  - rewrite (like_Def Hl x Hn). split; [done|]. intros y Hy. rewrite (like_Def Hl y (Hyn y Hy)). by apply Hds.
  - rewrite Hc, Hcp by auto. symmetry. apply cpus_of_ext. auto.
  - exists t. split; [done|]. intros y Hy. rewrite Hc, (like_def_of Hl y (Hyn y Hy)) by auto. by apply Hs.
Qed.

(** The invariant after a step that moves no CPUs of the balloons. *)
Lemma ok_like p p' T : like p p' → p_freeCpus p' = p_freeCpus p →
  (∀ y, (y < p_next p)%positive → b_Cpus (bln p' y) = b_Cpus (bln p y)) → ok p T → ok p' T.
Proof.
  intros Hl Hfr Hc Hok. pose proof (λ y, leaves_next p T y Hok) as Hyn.
  assert (∀ x, x ∈ T → (x < p_next p)%positive) as Hxn by (intros x Hx; apply (go_next _ _ (ok_group _ _ Hok x Hx))).
  destruct Hok as [Hconf Hal Hp Hnd Hg]. pose proof (like_leaves p p' T Hl Hxn) as Hlv. split.
  - by apply (like_conf_ok Hl).
  - by rewrite (like_allowed Hl).
  - rewrite Hlv. apply (part_like p); auto.
  - by rewrite Hlv.
  - intros x Hx. apply (group_ok_like p); [done| |auto]. intros y [->|Hy]; apply Hc; [auto|].
    apply Hyn, elem_of_leaves. eauto.
Qed.

Lemma leaves_perm p T T' : T ≡ₚ T' → leaves p T ≡ₚ leaves p T'.
Proof. intros Ht. unfold leaves. by rewrite Ht. Qed.

Lemma part_set p L L' : (∀ y, y ∈ L ↔ y ∈ L') → part E p L → part E p L'.
Proof.
  intros HL [Hleaf Hdisj Hfree Hall]. split; setoid_rewrite <- HL; try done.
Qed.

Lemma ok_perm p T T' : T ≡ₚ T' → ok p T → ok p T'.
Proof.
  intros Ht [Hconf Hal Hp Hnd Hg]. split; [done..| | |].
  - apply (part_set p (leaves p T)); [|done]. intros y. by rewrite (leaves_perm p T T' Ht).
  - by rewrite <- (leaves_perm p T T' Ht).
  - intros x Hx. apply Hg. by rewrite Ht.
Qed.

(** A balloon that gives its CPUs back. *)
Lemma ok_drop p p' x T : ok p (x :: T) → like p p' → p_freeCpus p' = p_freeCpus p ∪ b_Cpus (bln p x) →
  (∀ y, y ≠ x → (y < p_next p)%positive → b_Cpus (bln p' y) = b_Cpus (bln p y)) → (x ∉ T) → ok p' T.
Proof.
  intros Hok Hl Hfr Hc HxT. pose proof (λ y, leaves_next p _ y Hok) as Hyn.
  assert (∀ z, z ∈ x :: T → (z < p_next p)%positive) as Hxn by (intros z Hz; apply (go_next _ _ (ok_group _ _ Hok z Hz))).
  destruct Hok as [Hconf Hal [Hleaf Hdisj Hfree Hall] Hnd Hg].
  change (leaves p (x :: T)) with (app (leaves_of p x) (leaves p T)) in *.
  apply NoDup_app in Hnd as (_ & Hsep & Hnd).
  assert (leaves p' T = leaves p T) as Hlv by (apply like_leaves; [done|]; intros z Hz; apply Hxn; by constructor).
  assert (∀ y, y ∈ leaves p T → y ∈ app (leaves_of p x) (leaves p T)) as Hin by (intros; apply elem_of_app; by right).
  assert (∀ y, y ∈ leaves p T → y ≠ x) as Hne.
  { intros y Hy ->. destruct (Hleaf x (Hin x Hy)) as (Hcx & _). apply (Hsep x); [|done].
    unfold leaves_of. rewrite Hcx. constructor. }
  assert (∀ c, c ∈ b_Cpus (bln p x) ↔ ∃ y, y ∈ leaves_of p x ∧ c ∈ b_Cpus (bln p y)) as Hcx.
  { intros c. rewrite (go_cpus _ _ (Hg x ltac:(constructor))). apply elem_of_cpus_of. }
  split; rewrite ?Hlv; try done.
  - by apply (like_conf_ok Hl).
  - by rewrite (like_allowed Hl).
  - split.
    + intros y Hy. destruct (Hleaf y (Hin y Hy)) as (H1 & H2 & H3). pose proof (Hyn y (Hin y Hy)) as Hn.
      unfold leaf_ok. by rewrite (like_components Hl y Hn), (like_root Hl y Hn), (like_loads Hl), (like_def_of Hl y Hn).
    + intros y z Hy Hz Hyz. rewrite !Hc by auto. apply Hdisj; auto.
    + intros y Hy. rewrite Hfr, Hc by auto. intros c Hcy [Hcf|(z & Hz & Hcz)%Hcx]%elem_of_union.
      * by apply (Hfree y (Hin y Hy) c).
      * apply (Hdisj y z (Hin y Hy)) with c; try done; [apply elem_of_app; by left|]. intros ->. by apply (Hsep z).
    + intros c. rewrite (like_allowed Hl), Hall, Hfr, elem_of_union, Hcx. split.
      * intros [?|(y & [Hy|Hy]%elem_of_app & Hcy)]; [auto|left; right; eauto|right]. exists y. by rewrite Hc by auto.
      * intros [[?|(y & Hy & Hcy)]|(y & Hy & Hcy)]; [auto|right..]; exists y.
        -- split; [apply elem_of_app; by left|done].
        -- rewrite Hc in Hcy by auto. auto.
  - intros z Hz. assert (z ≠ x) as Hzx by (by intros ->). apply (group_ok_like p); [done| |apply Hg; by constructor].
    intros y [->|Hy]; apply Hc; auto.
    + apply Hxn. by constructor.
    + apply Hne, elem_of_leaves. eauto.
    + apply Hyn, Hin, elem_of_leaves. eauto.
Qed.

(** ** Resizing *)

Lemma groups_disjoint p T x z y : NoDup (leaves p T) → x ∈ T → z ∈ T → x ≠ z →
  y ∈ leaves_of p x → (y ∉ leaves_of p z).
Proof.
  intros Hnd Hx Hz Hne Hy1 Hy2.
  apply elem_of_Permutation in Hx as [T1 HT1]. assert (z ∈ T1) as Hz1.
  { rewrite HT1 in Hz. apply elem_of_cons in Hz as [->|]; done. }
  apply elem_of_Permutation in Hz1 as [T2 HT2].
  rewrite (leaves_perm p T (x :: z :: T2)) in Hnd by (by rewrite HT1, HT2).
  change (leaves p (x :: z :: T2)) with (app (leaves_of p x) (app (leaves_of p z) (leaves p T2))) in Hnd.
  apply NoDup_app in Hnd as (_ & Hd & _). apply (Hd y Hy1), elem_of_app. by left.
Qed.

Lemma ok_leaf p T x y : ok p T → x ∈ T → y ∈ leaves_of p x → leaf_ok E p y.
Proof. intros Hok Hx Hy. apply (pt_leaf E p _ (ok_part _ _ Hok)), elem_of_leaves. eauto. Qed.

Lemma leaf_self p y : b_components (bln p y) = [] → leaves_of p y = [y].
Proof. intros Hc. unfold leaves_of. by rewrite Hc. Qed.

(** Other balloons do not own CPUs of a balloon and are not owned by it. *)
Lemma ok_other p T x z y : ok p T → x ∈ T → z ∈ T → x ≠ z → y = z ∨ y ∈ leaves_of p z →
  y ≠ x ∧ (y ∉ leaves_of p x).
Proof.
  intros Hok Hx Hz Hne Hy. pose proof (ok_nodup _ _ Hok) as Hnd. split.
  - intros ->. destruct Hy as [->|Hy]; [done|].
    destruct (ok_leaf p T z x Hok Hz Hy) as (Hc & _).
    apply (groups_disjoint p T z x x Hnd Hz Hx (not_eq_sym Hne) Hy). rewrite (leaf_self p x Hc). constructor.
  - intros Hyx. destruct Hy as [->|Hy].
    + destruct (ok_leaf p T x z Hok Hx Hyx) as (Hc & _).
      apply (groups_disjoint p T x z z Hnd Hx Hz Hne Hyx). rewrite (leaf_self p z Hc). constructor.
    + by apply (groups_disjoint p T x z y Hnd Hx Hz Hne Hyx).
Qed.

Lemma ok_resized p p' x T : ok p T → x ∈ T → frame p p' → part E p' (leaves p T) →
  (∀ z, z ≠ x → (z ∉ leaves_of p x) → b_Cpus (bln p' z) = b_Cpus (bln p z)) →
  b_Cpus (bln p' x) = cpus_of p' (leaves_of p x) → (∃ t, 0 ≤ t ∧ sized p' (leaves_of p x) t) → ok p' T.
Proof.
  intros Hok Hx Hf Hp Hz Hcx Hsz. pose proof (frame_like _ _ Hf) as Hl.
  assert (∀ z, z ∈ T → (z < p_next p)%positive) as Hxn by (intros z Hz'; apply (go_next _ _ (ok_group _ _ Hok z Hz'))).
  pose proof (like_leaves p p' T Hl Hxn) as Hlv. split; rewrite ?Hlv.
  - apply (like_conf_ok Hl), (ok_conf _ _ Hok).
  - rewrite (like_allowed Hl). apply (ok_allowed _ _ Hok).
  - done.
  - apply (ok_nodup _ _ Hok).
  - intros z HzT. destruct (decide (x = z)) as [<-|Hne].
    + destruct (ok_group _ _ Hok x Hx) as [Hn Holder Hold [Hd Hds] _ _].
      split; rewrite ?(leaves_of_frame p p' x Hf), ?(frame_components x Hf), ?(frame_next Hf), ?(frame_options Hf); try done.
      rewrite (frame_Def x Hf). split; [done|]. intros y Hy. rewrite (frame_Def y Hf). by apply Hds.
    + apply (group_ok_like p); [done| |by apply (ok_group _ _ Hok)]. intros y Hy.
      destruct (ok_other p T x z y Hok Hx HzT Hne Hy) as [Hy1 Hy2]. by apply Hz.
Qed.

Context `{!CpuService E allowed}.

Lemma good_restored p p' X : good p X → restored X p p' → good p' X.
Proof.
  intros [Hok Hsh] [Hf Hfr Hc Hs]. split; [|done]. rewrite (frame_balloons Hf).
  apply (ok_like p); auto. by apply frame_like.
Qed.

(** [resizeBalloon] keeps the invariant.  It succeeds, with all owners of the
    balloon's CPUs at their new size and no other balloon changed, or it fails
    and no balloon has changed. *)
Lemma good_resize p X x m : good p X → x ∈ app (p_balloons p) X → 0 ≤ m < 2 ^ 63 →
  let ys := leaves_of p x in
  ∃ p', good p' X ∧ frame p p' ∧
    ((resizeBalloon E cch x m p = (p', Ok tt) ∧
      (∀ z, z ≠ x → (z ∉ ys) → b_Cpus (bln p' z) = b_Cpus (bln p z)) ∧
      sized p' ys (Z.max 0 (full_cpus (Z.quot m (Z.of_nat (length ys)))))) ∨
     (resizeBalloon E cch x m p = (p', Err ErrOther) ∧ restored X p p')).
Proof.
  intros [Hok Hsh] Hx Hm ys. set (L := leaves p (app (p_balloons p) X)).
  pose proof (ok_part _ _ Hok) as Hp. fold L in Hp.
  assert (ys ⊆ L) as Hys by (intros y Hy; apply elem_of_leaves; eauto).
  assert (ys = leaves_of p x) as Hysx by done. clearbody ys.
  unfold resizeBalloon. destruct (Pos.to_nat x) as [|depth] eqn:Hdepth; [lia|]. cbn [resize_balloon].
  unfold leaves_of in Hysx. destruct (b_components (bln p x)) as [|y0 ys0] eqn:Hcomp.
  - assert (x ∈ L) as HxL by (apply Hys; rewrite Hysx; constructor).
    destruct (resize_leaf_spec E cch X x p L m Hp HxL Hsh (ok_allowed _ _ Hok)) as (p' & [(Hn & Hr & Hres)|(_ & Hr & Hq)]);
      exists p'; rewrite Hr.
    + pose proof (rs_frame _ _ _ _ _ Hres) as Hf. pose proof (rs_size _ _ _ _ _ Hres) as Hsz.
      assert (sized p' ys (Z.max 0 (full_cpus (Z.quot m (Z.of_nat (length ys)))))) as Hsized.
      { rewrite Hysx. intros y ->%list_elem_of_singleton. cbn [length]. rewrite Z.quot_1_r, Hsz, (frame_def_of x Hf).
        rewrite new_cpu_count_clamp in *. apply clamp_nonneg. lia. }
      assert (leaves_of p x = ys) as Hlv by (rewrite Hysx; by apply leaf_self).
      split_and!; [split|done|left].
      * rewrite (frame_balloons Hf). apply (ok_resized p p' x); try done; rewrite ?Hlv.
        -- apply (resized_part E X x _ p p' L Hres HxL Hp).
        -- intros z Hz _. by apply (rs_other _ _ _ _ _ Hres).
        -- rewrite Hysx. unfold cpus_of. cbn. by rewrite (right_id_L ∅ (∪)).
        -- eexists. split; [|done]. lia.
      * apply (rs_shared _ _ _ _ _ Hres).
      * split; [done|]. split; [|done]. intros z Hz _. by apply (rs_other _ _ _ _ _ Hres).
    + pose proof (quiet_restored X p p' Hq Hsh) as Hrest. split_and!; [by apply (good_restored p)|by apply quiet_frame|auto].
  - assert (ys = b_components (bln p x)) as Hyc by (by rewrite Hcomp).
    assert (leaves_of p x = ys) as Hlv by (unfold leaves_of; by rewrite Hcomp).
    destruct (ok_group _ _ Hok x Hx) as [Hn Holder Hold _ _ (t & Ht & Hs)]. rewrite Hlv in Hs.
    assert (depth ≠ O) as Hdne.
    { intros ->. specialize (Hold y0). rewrite Hcomp in Hold. specialize (Hold ltac:(constructor)). lia. }
    destruct (resizeComposite_spec E cch X x (resize_balloon E cch depth) p L m t) as (p' & Hp');
      rewrite <- ?Hyc; try done.
    { intros m' y q Hq. destruct depth; [done|]. cbn. by rewrite Hq. }
    { pose proof (ok_nodup _ _ Hok) as Hnd. apply elem_of_Permutation in Hx as [T HT].
      rewrite (leaves_perm p _ _ HT) in Hnd. change (leaves p (x :: T)) with (app (leaves_of p x) (leaves p T)) in Hnd.
      rewrite Hlv in Hnd. by apply NoDup_app in Hnd as (? & _). }
    { rewrite Hysx. done. }
    { apply (ok_allowed _ _ Hok). }
    rewrite <- ?Hyc in Hp'. exists p'.
    destruct Hp' as [(Hr & Hp1 & Hf & Hsh' & Hz & Hcx & t' & Ht' & -> & Hsz)|(Hr & Hrest)]; rewrite Hr.
    + split_and!; [split|done|auto].
      * rewrite (frame_balloons Hf). apply (ok_resized p p' x); rewrite ?Hlv; eauto.
      * done.
    + split_and!; [by apply (good_restored p)|by apply (rt_frame _ _ _ Hrest)|auto].
Qed.
End invariant.
