(* ===== verification/BlnNew.v ===== *)
(** * Creating and deleting balloons keeps the invariant *)

From Stdlib Require Import Ascii.
From S2P Require Import Prelude GoStrings MemNodes CpuTree CpuAlloc CpuTopo CpuResizeFacts CpuSystem Kube BlnTypes BlnPin BlnHints BlnOps BlnPolicy BlnFrame BlnSize BlnInv.

Open Scope Z_scope.

(** [p'] has the balloons of [p] with their containers, and maybe balloons
    that are not in the policy. *)
Record extends (p p' : balloons) : Prop := {
  ex_like : like p p';
  ex_balloons : p_balloons p' = p_balloons p;
  ex_default : p_defaultBalloonDef p' = p_defaultBalloonDef p;
  ex_bln y : (y < p_next p)%positive →
    (b_PodIDs (bln p' y), b_Instance (bln p' y)) = (b_PodIDs (bln p y), b_Instance (bln p y));
}.

#[export] Instance extends_preorder : PreOrder extends.
Proof.
  split.
  - by intros p.
  - intros p q r [L1 B1 D1 E1] [L2 B2 D2 E2]. split; [by etrans|congruence|congruence|].
    intros y Hy. rewrite E2, E1; [done|done|]. pose proof (lk_next _ _ L1). lia.
Qed.

Lemma frame_extends p p' : frame p p' → extends p p'.
Proof.
  intros Hf. split; [by apply frame_like|by apply frame_balloons|by apply frame_default|].
  intros y _. by rewrite (frame_PodIDs y Hf), (frame_Instance y Hf).
Qed.

Lemma bln_new b p y : bln (new_object b p).1 y = if bool_decide (y = p_next p) then b else bln p y.
Proof.
  unfold bln at 1. cbn. case_bool_decide as Hy; [by rewrite Hy, lookup_insert_eq|].
  by rewrite lookup_insert_ne.
Qed.

Lemma new_object_extends b p : extends p (new_object b p).1.
Proof.
  split; [split|..]; try done; [cbn; lia|..]; intros y Hy; rewrite bln_new, bool_decide_eq_false_2; done || lia.
Qed.

(** ** Lists *)

Lemma filter_id {A} (P : A → Prop) `{∀ x, Decision (P x)} (l : list A) : (∀ x, x ∈ l → P x) → filter P l = l.
Proof.
  induction l as [|x l IH]; intros Hl; [done|].
  rewrite filter_cons_True by (apply Hl; constructor). f_equal. apply IH. intros y Hy. apply Hl. by constructor.
Qed.

Lemma filter_remove (l : list positive) x : NoDup l → x ∈ l → l ≡ₚ x :: filter (λ b, b ≠ x) l.
Proof.
  intros Hnd (k & Hk)%elem_of_Permutation. rewrite Hk in Hnd. apply NoDup_cons in Hnd as [Hx _].
  rewrite Hk at 1. f_equiv. rewrite Hk, filter_cons_False by tauto. rewrite filter_id; [done|]. by intros y Hy ->.
Qed.

Lemma NoDup_concat_nonempty {A B} (f : A → list B) (l : list A) :
  (∀ x, f x ≠ []) → NoDup (concat (f <$> l)) → NoDup l.
Proof.
  intros Hf. induction l as [|x l IH]; cbn; [constructor|]. intros (_ & Hd & Hl)%NoDup_app. constructor; [|auto].
  intros Hx. destruct (f x) as [|y ys] eqn:Hy; [by apply (Hf x)|].
  apply (Hd y); [constructor|]. apply elem_of_concat_map. exists x. rewrite Hy. split; [done|constructor].
Qed.

Section create.
Context `{GoRuntime} (E : Env) (cch : Cache_) (allowed : CPUSet) `{!CpuService E allowed}.

Abbreviation good := (good E allowed).
Abbreviation ok := (ok E allowed).

Lemma NoDup_tops p T : ok p T → NoDup T.
Proof.
  intros Hok. apply (NoDup_concat_nonempty (leaves_of p)); [|apply (ok_nodup _ _ _ _ Hok)].
  intros x. unfold leaves_of. by destruct (b_components (bln p x)).
Qed.

Lemma good_perm p X X' : X ≡ₚ X' → good p X → good p X'.
Proof.
  intros HX [Hok [Hs1 Hs2]]. split; [by apply (ok_perm E allowed p (app (p_balloons p) X)); [rewrite HX|]|].
  split; [done|]. intros x. rewrite <- HX. apply Hs2.
Qed.

Lemma good_quiet p p' X : quiet p p' → good p X → good p' X.
Proof. intros Hq Hg. apply (good_restored E allowed p); [done|]. apply quiet_restored; [done|apply Hg]. Qed.

Lemma good_next p X x : good p X → x ∈ app (p_balloons p) X → (x < p_next p)%positive.
Proof. intros [Hok _] Hx. apply (go_next _ _ (ok_group _ _ _ _ Hok x Hx)). Qed.

(** ** Deleting *)

Lemma deleteBalloon_spec x p :
  like p (deleteBalloon E x p) ∧
  p_balloons (deleteBalloon E x p) = filter (λ b, b ≠ x) (p_balloons p) ∧
  p_defaultBalloonDef (deleteBalloon E x p) = p_defaultBalloonDef p ∧
  p_freeCpus (deleteBalloon E x p) = p_freeCpus p ∪ b_Cpus (bln p x) ∧
  (∀ y, y ≠ x → bln (deleteBalloon E x p) y = bln p y) ∧
  b_SharedIdleCpus (bln (deleteBalloon E x p) x) = b_SharedIdleCpus (bln p x) ∧
  b_PodIDs (bln (deleteBalloon E x p) x) = b_PodIDs (bln p x) ∧
  b_Instance (bln (deleteBalloon E x p) x) = b_Instance (bln p x).
Proof.
  unfold deleteBalloon. destruct (release_cpus _ _ _ _) as [r cpus].
  set (p1 := forgetCpuClass x _).
  assert (∀ y, bln (with_freeCpus (p_freeCpus p1 ∪ b_Cpus (bln p1 x)) p1) y = bln p y) as Hb by done.
  split_and!; try done; try (rewrite bln_upd_eq; done).
  - split; [done|cbn; lia|]. intros y _. rewrite bln_upd. by case_bool_decide; subst.
  - intros y Hy. by rewrite bln_upd_ne.
Qed.

Lemma good_delete_new p X x : good p (x :: X) → (x ∉ X) → good (deleteBalloon E x p) X ∧ extends p (deleteBalloon E x p).
Proof.
  intros [Hok [Hs1 Hs2]] HxX. destruct (deleteBalloon_spec x p) as (Hl & Hbl & Hdf & Hfr & Hb & Hsx & Hpx & Hix).
  destruct (Hs2 x ltac:(constructor)) as [Hxb _].
  assert (p_balloons (deleteBalloon E x p) = p_balloons p) as Hbl'.
  { rewrite Hbl. apply filter_id. intros y Hy ->. done. }
  assert (∀ y, b_SharedIdleCpus (bln (deleteBalloon E x p) y) = b_SharedIdleCpus (bln p y)) as Hsh.
  { intros y. destruct (decide (y = x)) as [->|]; [done|]. by rewrite Hb. }
  split.
  - split.
    + rewrite Hbl'. apply (ok_drop E allowed p _ x); try done.
      * apply (ok_perm E allowed p (app (p_balloons p) (x :: X))); [|done]. by rewrite <- Permutation_middle.
      * intros y Hy _. by rewrite Hb.
      * rewrite elem_of_app. tauto.
    + split; intros y; rewrite Hbl', Hsh, ?Hfr; [intros Hy; specialize (Hs1 y Hy); set_solver|].
      intros Hy. apply Hs2. by constructor.
  - split; try done. intros y _. destruct (decide (y = x)) as [->|]; [by rewrite Hpx, Hix|]. by rewrite Hb.
Qed.

Lemma good_delete_components p X ys : good p (app X ys) → NoDup (app X ys) →
  good (delete_components E ys p) X ∧ extends p (delete_components E ys p).
Proof.
  revert p. induction ys as [|y ys IH]; intros p Hg Hnd; cbn.
  { rewrite app_nil_r in Hg. done. }
  destruct (good_delete_new p (app X ys) y) as [Hg1 He1].
  { apply (good_perm p (app X (y :: ys))); [|done]. by rewrite <- Permutation_middle. }
  { rewrite <- Permutation_middle in Hnd. by apply NoDup_cons in Hnd as [? _]. }
  destruct (IH _ Hg1) as [Hg2 He2].
  { rewrite <- Permutation_middle in Hnd. by apply NoDup_cons in Hnd as [_ ?]. }
  split; [done|]. by etrans.
Qed.

(** A balloon of the policy that is deleted. *)
Lemma good_delete p x : good p [] → x ∈ p_balloons p → good (deleteBalloon E x p) [].
Proof.
  intros [Hok [Hs1 _]] Hx. rewrite app_nil_r in Hok.
  destruct (deleteBalloon_spec x p) as (Hl & Hbl & _ & Hfr & Hb & Hsx & _).
  assert (NoDup (p_balloons p)) as Hnd.
  { by apply (NoDup_tops p). }
  split.
  - rewrite app_nil_r, Hbl. apply (ok_drop E allowed p _ x); try done.
    + apply (ok_perm E allowed p (p_balloons p)); [|done]. by apply filter_remove.
    + intros y Hy _. by rewrite Hb.
    + rewrite list_elem_of_filter. tauto.
  - split; [|intros y Hy; by apply not_elem_of_nil in Hy]. intros y. rewrite Hbl, list_elem_of_filter, Hfr.
    intros [Hy1 Hy2]. rewrite Hb by done. specialize (Hs1 y Hy2). set_solver.
Qed.

(** ** A balloon without components *)

(** A new balloon of a type, before it gets CPUs. *)
Definition fresh_leaf (p : balloons) (b : Balloon) : Prop :=
  b_components b = [] ∧ b_Cpus b = ∅ ∧ b_SharedIdleCpus b = ∅ ∧ b_PodIDs b = ∅ ∧
  b_Def b ∈ o_BalloonDefs (p_bpoptions p) ∧
  ∃ r, alloc_root b = Some r ∧ tree_ok r ∧ t_cpus r = t_cpus (e_cpuTree E).

Lemma part_add p L x : leaf_ok E p x → b_Cpus (bln p x) = ∅ → part E p L → part E p (app L [x]).
Proof.
  intros Hx Hcx [Hleaf Hdisj Hfree Hall].
  assert (∀ y, y ∈ app L [x] ↔ y ∈ L ∨ y = x) as Hin by (intros y; by rewrite elem_of_app, list_elem_of_singleton).
  split; setoid_rewrite Hin.
  - by intros y [?| ->]; [apply Hleaf|].
  - intros y z [?| ->] [?| ->] Hne; rewrite ?Hcx; [auto|set_solver..].
  - intros y [?| ->]; rewrite ?Hcx; [auto|set_solver].
  - intros c. rewrite Hall. split; intros [?|(y & Hy & Hc)]; eauto.
    destruct Hy as [?| ->]; [eauto|]. rewrite Hcx in Hc. set_solver.
Qed.

(** A new balloon without CPUs is one more owner of CPUs. *)
Lemma new_object_part p X b : good p X → fresh_leaf p b →
  let x := p_next p in
  let p1 := (new_object b p).1 in
  let T := app (p_balloons p) X in
  ok p1 T ∧ (∀ y, y ∈ leaves p1 T → (y < x)%positive) ∧
  part E p1 (app (leaves p1 T) [x]) ∧ shared_ok p1 (app X [x]).
Proof.
  intros [Hok [Hs1 Hs2]] (Hc & Hcx & Hsx & Hpx & Hd & r & Hr & Hrok) x p1 T.
  assert (bln p1 x = b) as Hbx by (unfold p1; by rewrite bln_new, bool_decide_eq_true_2).
  assert (∀ y, (y < p_next p)%positive → bln p1 y = bln p y) as Hby.
  { intros y Hy. unfold p1. rewrite bln_new, bool_decide_eq_false_2; [done|lia]. }
  pose proof (ex_like _ _ (new_object_extends b p)) as Hl. fold p1 in Hl.
  assert (ok p1 T) as Hok1. { apply (ok_like E allowed p); [done|done| |done]. intros y Hy. by rewrite Hby. }
  assert (∀ y, y ∈ T → (y < x)%positive) as HTn by (intros y Hy; apply (go_next _ _ (ok_group _ _ _ _ Hok y Hy))).
  split_and!; [done| | |split].
  - intros y Hy. rewrite (like_leaves p p1 T Hl HTn) in Hy. by apply (leaves_next E allowed p T).
  - apply part_add; [|by rewrite Hbx|apply (ok_part _ _ _ _ Hok1)].
    unfold leaf_ok, def_of. rewrite Hbx, (like_loads Hl), (like_def_at Hl). split_and!; [done|eauto|].
    by destruct (ok_conf _ _ _ _ Hok _ Hd) as (? & _).
  - intros y Hy. change (y ∈ p_balloons p) in Hy. rewrite Hby by (apply HTn; apply elem_of_app; by left). by apply Hs1.
  - intros y. rewrite elem_of_app, list_elem_of_singleton. intros [Hy| ->].
    + rewrite Hby by (apply HTn; apply elem_of_app; by right). by apply Hs2.
    + rewrite Hbx. split; [|done]. intros Hxb. specialize (HTn x ltac:(apply elem_of_app; by left)). lia.
Qed.

(** A new balloon that gets its first CPUs belongs to the invariant; without
    CPUs for it nothing has changed. *)
Lemma new_leaf_resize p X b m : good p X → fresh_leaf p b →
  let x := p_next p in
  ∃ p', extends p p' ∧ (∀ y, (y < x)%positive → b_Cpus (bln p' y) = b_Cpus (bln p y)) ∧
    ((resizeBalloon E cch x m (new_object b p).1 = (p', Ok tt) ∧ good p' (app X [x]) ∧
      leaves_of p' x = [x] ∧ b_Def (bln p' x) = b_Def b ∧ b_PodIDs (bln p' x) = ∅ ∧
      b_Instance (bln p' x) = b_Instance b ∧
      csize (b_Cpus (bln p' x)) = new_cpu_count (def_of p' x) m) ∨
     (resizeBalloon E cch x m (new_object b p).1 = (p', Err ErrOther) ∧ good p' X)).
Proof.
  intros Hg Hb x. destruct (new_object_part p X b Hg Hb) as (Hok1 & HLn & Hp1 & Hsh1). fold x in HLn, Hp1, Hsh1.
  destruct Hg as [Hok _], Hb as (Hc & Hcx & Hsx & Hpx & Hd & _).
  pose proof (new_object_extends b p) as He. set (p1 := (new_object b p).1) in *.
  assert (bln p1 x = b) as Hbx by (unfold p1; by rewrite bln_new, bool_decide_eq_true_2).
  assert (∀ y, (y < p_next p)%positive → bln p1 y = bln p y) as Hby.
  { intros y Hy. unfold p1. rewrite bln_new, bool_decide_eq_false_2; [done|lia]. }
  assert (p_freeCpus p1 = p_freeCpus p) as Hfr by done. assert (p_next p1 = Pos.succ x) as Hnx by done.
  pose proof (ex_like _ _ He) as Hl. pose proof (ex_balloons _ _ He) as Hbl. clearbody p1.
  set (T := app (p_balloons p) X) in *.
  assert (∀ y, y ∈ T → (y < x)%positive) as HTn by (intros y Hy; apply (go_next _ _ (ok_group _ _ _ _ Hok y Hy))).
  assert (resizeBalloon E cch x m p1 = resize_leaf E cch x m p1) as ->.
  { unfold resizeBalloon. destruct (Pos.to_nat x) eqn:Hx; [lia|]. cbn. by rewrite Hbx, Hc. }
  destruct (resize_leaf_spec E cch (app X [x]) x p1 (app (leaves p1 T) [x]) m) as (p' & [(Hn & -> & Hres)|(Hn & -> & Hq)]);
    [done|apply elem_of_app; right; constructor|done|by rewrite (ok_allowed _ _ _ _ Hok1)|..]; exists p'.
  - pose proof (rs_frame _ _ _ _ _ Hres) as Hf. split; [etrans; [done|by apply frame_extends]|].
    split. { intros y Hy. rewrite (rs_other _ _ _ _ _ Hres) by lia. by rewrite Hby. }
    assert (leaves_of p' x = [x]) as Hlvx by (apply leaf_self; by rewrite (frame_components x Hf), Hbx).
    left. split_and!; try done.
    + split; [|by apply (rs_shared _ _ _ _ _ Hres)]. rewrite (frame_balloons Hf), Hbl, (assoc_L app). fold T.
      assert (leaves p' (app T [x]) = app (leaves p1 T) [x]) as Hlv.
      { unfold leaves. rewrite fmap_app, concat_app. cbn. rewrite Hlvx. f_equal.
        apply (like_leaves p1 p' T); [by apply frame_like|]. intros y Hy. rewrite Hnx. specialize (HTn y Hy). lia. }
      pose proof (frame_like _ _ Hf) as Hl'. split; rewrite ?Hlv.
      * apply (like_conf_ok Hl'), (ok_conf _ _ _ _ Hok1).
      * rewrite (like_allowed Hl'). apply (ok_allowed _ _ _ _ Hok1).
      * eapply resized_part; [exact Hres|apply elem_of_app; right; constructor|exact Hp1].
      * apply NoDup_app. split; [apply (ok_nodup _ _ _ _ Hok1)|]. split; [|apply NoDup_singleton].
        intros y Hy ->%list_elem_of_singleton. specialize (HLn x Hy). lia.
      * intros z [Hz| ->%list_elem_of_singleton]%elem_of_app.
        -- apply (group_ok_like p1); [done| |by apply (ok_group _ _ _ _ Hok1)]. intros y Hy.
           apply (rs_other _ _ _ _ _ Hres). intros ->. destruct Hy as [->|Hy]; [specialize (HTn _ Hz); lia|].
           specialize (HLn x). rewrite elem_of_leaves in HLn. specialize (HLn ltac:(eauto)). lia.
        -- split; rewrite ?Hlvx, ?(frame_components x Hf), ?(frame_next Hf), ?(frame_options Hf), ?Hnx.
           ++ lia.
           ++ by intros y ->%list_elem_of_singleton.
           ++ rewrite Hbx, Hc. intros y Hy. by apply not_elem_of_nil in Hy.
           ++ rewrite (like_options Hl). split; [by rewrite (frame_Def x Hf), Hbx|].
              intros y ->%list_elem_of_singleton. by rewrite (frame_Def x Hf), Hbx.
           ++ unfold cpus_of. cbn. by rewrite (right_id_L ∅ (∪)).
           ++ exists (Z.max 0 (full_cpus m)). split; [lia|]. intros y ->%list_elem_of_singleton.
              rewrite (rs_size _ _ _ _ _ Hres), (frame_def_of x Hf), new_cpu_count_clamp. apply clamp_nonneg.
              rewrite <- new_cpu_count_clamp. lia.
    + by rewrite (frame_Def x Hf), Hbx.
    + by rewrite (frame_PodIDs x Hf), Hbx.
    + by rewrite (frame_Instance x Hf), Hbx.
    + by rewrite (rs_size _ _ _ _ _ Hres), (frame_def_of x Hf).
  - pose proof (quiet_frame _ _ Hq) as Hf. split; [etrans; [done|by apply frame_extends]|].
    split. { intros y Hy. by rewrite (quiet_Cpus y Hq), Hby. } right. split; [done|].
    apply (good_quiet p1); [done|]. split.
    + by rewrite Hbl.
    + destruct Hsh1 as [Ha Hb]. split; [done|]. intros y Hy. apply Hb, elem_of_app. by left.
Qed.

(** A balloon of type [d] has been created, or nothing has changed. *)
Definition created (X : list positive) (d : positive) (i : Z) (p : balloons) (r : balloons * res positive) : Prop :=
  extends p r.1 ∧
  match r.2 with
  | Ok x => good r.1 (app X [x]) ∧ (p_next p ≤ x)%positive ∧
      b_Def (bln r.1 x) = d ∧ b_PodIDs (bln r.1 x) = ∅ ∧ b_Instance (bln r.1 x) = i
  | Err e => e = ErrOther ∧ good r.1 X
  end.

Lemma created_quiet X d i p p' r p'' : created X d i p (p', r) → quiet p' p'' → created X d i p (p'', r).
Proof.
  intros [He Hr] Hq. pose proof (quiet_frame _ _ Hq) as Hf. split; cbn in *.
  { etrans; [done|by apply frame_extends]. }
  destruct r as [x|e].
  - destruct Hr as (Hg & Hn & Hd & Hp & Hi). split_and!; [by apply (good_quiet p')|done|..].
    + by rewrite (frame_Def x Hf).
    + by rewrite (frame_PodIDs x Hf).
    + by rewrite (frame_Instance x Hf).
  - destruct Hr. split; [done|]. by apply (good_quiet p').
Qed.

(** A type with sensible limits starts with as few CPUs as it allows. *)
Lemma first_count p d : def_ok p d →
  new_cpu_count (def_at p d) (i64 (d_MinCpus (def_at p d) * 1000)) = clamp (def_at p d) 0.
Proof.
  intros (_ & Hmin & Hmax & _). rewrite new_cpu_count_clamp. set (D := def_at p d) in *.
  assert (i64 (d_MinCpus D * 1000) = d_MinCpus D * 1000) as ->. { unfold i64. rewrite Z.mod_small; lia. }
  pose proof (full_cpus_ceil (d_MinCpus D * 1000) ltac:(lia)).
  assert (full_cpus (d_MinCpus D * 1000) = d_MinCpus D) as -> by lia.
  unfold clamp, NoLimit. repeat case_bool_decide; lia.
Qed.

Lemma new_leaf_spec p X d conf i c : good p X → d ∈ o_BalloonDefs (p_bpoptions p) →
  let r := new_leaf E cch d conf i c p in
  created X d i p r ∧ (∀ y, (y < p_next p)%positive → b_Cpus (bln r.1 y) = b_Cpus (bln p y)) ∧
  ∀ x, r.2 = Ok x → leaves_of r.1 x = [x] ∧ sized r.1 [x] 0.
Proof.
  intros Hg Hd. destruct Hg as [Hok Hsh]. pose proof (ok_conf _ _ _ _ Hok d Hd) as Hdef. pose proof Hdef as (Hloads & _).
  unfold new_leaf. set (o := override_options _ _). clearbody o. unfold updateLoadedVirtDevsInAllocatorOptions.
  destruct (load_virt_devs_ok E p _ ∅ (virt_devs o) Hloads) as (m & loaded & ->).
  destruct (NewAllocator_ok (e_cpuTree E) (with_virt_devs m o) service_tree) as (ta & -> & Hopt & Hrok & Hrc & _).
  set (ta' := MkTreeAllocator _ _). set (b := MkBalloon d i _ _ _ _ _ _ _ _ _).
  set (minm := i64 _). cbn [new_object].
  destruct (new_leaf_resize p X b minm) as (p' & He & Hold & [(Hr & Hg' & Hlv & Hbd & Hbp & Hbi & Hsz)|(Hr & Hg')]).
  { done. }
  { unfold fresh_leaf. split_and!; try done. exists (ta_root ta). done. }
  - cbn [new_object fst] in Hr. rewrite Hr. set (x := p_next p) in *.
    assert (created X d i p (p', Ok x)) as Hcr. { split; [done|]. cbn. by split_and!. }
    assert (sized p' [x] 0) as Hs.
    { intros y ->%list_elem_of_singleton. rewrite Hsz. unfold def_of. rewrite Hbd, (like_def_at (ex_like _ _ He)).
      cbn. unfold minm. by apply first_count. }
    set (p1 := upd_bln x _ p'). assert (quiet p' p1) as Hq1 by (by apply quiet_upd). clearbody p1.
    set (p2 := if conf then _ else _).
    assert (quiet p' p2) as Hq2.
    { etrans; [exact Hq1|]. unfold p2. destruct conf; [apply useCpuClass_quiet|done]. }
    clearbody p2. pose proof (quiet_frame _ _ Hq2) as Hf2. split; [by apply (created_quiet X d i p p')|].
    split. { intros y Hy. cbn. rewrite (quiet_Cpus y Hq2). by apply Hold. } intros y [= <-]. cbn. split; [by rewrite (leaves_of_frame p' p2 x Hf2)|].
    intros y Hy. rewrite (quiet_Cpus y Hq2), (frame_def_of y Hf2). by apply Hs.
  - cbn [new_object fst] in Hr. rewrite Hr. split; [|done]. split; [done|]. cbn. done.
Qed.

(** ** Composite balloons *)

(** Balloons that own their CPUs and are as small as their types allow. *)
Definition small (p : balloons) (ys : list positive) : Prop :=
  (∀ y, y ∈ ys → leaves_of p y = [y]) ∧ sized p ys 0.

Lemma small_extends X p p' ys : good p (app X ys) → extends p p' →
  (∀ y, y ∈ ys → b_Cpus (bln p' y) = b_Cpus (bln p y)) → small p ys → small p' ys.
Proof.
  intros Hg He Hc [Hl Hs].
  assert (∀ y, y ∈ ys → (y < p_next p)%positive) as Hn.
  { intros y Hy. apply (good_next p (app X ys)); [done|]. rewrite !elem_of_app. auto. }
  split; intros y Hy.
  - rewrite (like_leaves_of (ex_like _ _ He)) by auto. auto.
  - rewrite Hc, (like_def_of (ex_like _ _ He)) by auto. auto.
Qed.

(** What creating a component does: a new balloon that is small. *)
Definition creates (new : positive → balloons → balloons * res positive) : Prop := ∀ X d p,
  good p X → d ∈ o_BalloonDefs (p_bpoptions p) → d_Components (def_at p d) = [] →
  ∃ i, created X d i p (new d p) ∧
    (∀ y, (y < p_next p)%positive → b_Cpus (bln (new d p).1 y) = b_Cpus (bln p y)) ∧
    ∀ x, (new d p).2 = Ok x → small (new d p).1 [x].

Definition components_result (X : list positive) (p : balloons) (r : balloons * res (list positive)) : Prop :=
  extends p r.1 ∧
  match r.2 with
  | Ok ys => good r.1 (app X ys) ∧ small r.1 ys ∧ ys ≠ []
  | Err e => e = ErrOther ∧ good r.1 X
  end.

Lemma new_balloon_creates depth conf c : depth ≠ O → creates (λ d p, new_balloon E cch depth d conf c p).
Proof.
  intros Hdepth X d p Hg Hd Hcomp. destruct depth as [|depth]; [done|]. cbn [new_balloon].
  set (i := free_instance _ _ _ _). exists i. case_bool_decide; [by split_and!|]. rewrite Hcomp.
  destruct (new_leaf_spec p X d conf i c Hg Hd) as (Hcr & Hold & Hs). split_and!; [done|done|].
  intros x Hx. destruct (Hs x Hx) as [Hl Hsz]. split; [|done]. by intros y ->%list_elem_of_singleton.
Qed.

Lemma good_NoDup p X : good p X → NoDup X.
Proof. intros [Hok _]. apply NoDup_tops in Hok. by apply NoDup_app in Hok as (_ & _ & ?). Qed.

Section composite.
Context (new : positive → balloons → balloons * res positive) (Hnew : creates new).

(** Components that are not composite. *)
Definition flat (p : balloons) (components : list string) : Prop :=
  ∀ comp d, comp ∈ components → balloonDefByName p comp = Some d → d_Components (def_at p d) = [].

Lemma flat_extends p p' components : extends p p' → flat p components → flat p' components.
Proof.
  intros He Hfl comp d. rewrite (like_byName (ex_like _ _ He)), (like_def_at (ex_like _ _ He)). apply Hfl.
Qed.

Lemma small_app p ys zs : small p ys → small p zs → small p (app ys zs).
Proof. intros [L1 S1] [L2 S2]. split; intros y [?|?]%elem_of_app; auto. Qed.

Lemma new_components_spec X components acc p : good p (app X acc) → small p acc → flat p components →
  (acc ≠ [] ∨ components ≠ []) → components_result X p (new_components E new components acc p).
Proof.
  revert acc p. induction components as [|comp components IH]; intros acc p Hg Hsm Hfl Hne; cbn [new_components].
  { split; [done|]. cbn. destruct Hne; done. }
  assert (∀ q, extends p q → good q (app X acc) → components_result X p (delete_components E acc q, Err ErrOther)) as Hdel.
  { intros q He Hgq. destruct (good_delete_components q X acc Hgq (good_NoDup q _ Hgq)) as [Hg' He'].
    split; [by etrans|]. done. }
  destruct (balloonDefByName p comp) as [d|] eqn:Hd; [|by apply Hdel].
  destruct (balloonDefByName_elem p comp d Hd) as [Hdin _].
  destruct (Hnew (app X acc) d p Hg Hdin) as (i & [He Hr] & Hold & Hs).
  { apply (Hfl comp); [constructor|done]. }
  destruct (new d p) as [p1 [x|e]]; cbn in *.
  - destruct Hr as (Hg1 & _). assert (small p1 acc) as Hsm1.
    { apply (small_extends X p); try done. intros y Hy. apply Hold.
      apply (good_next p (app X acc)); [done|]. rewrite !elem_of_app. auto. }
    destruct (IH (app acc [x]) p1) as [He2 Hr2].
    + by rewrite (assoc_L app).
    + apply small_app; auto.
    + apply (flat_extends p); [done|]. intros comp' d' Hc. apply Hfl. by constructor.
    + left. by destruct acc.
    + split; [by etrans|done].
  - destruct Hr as [-> Hg1]. by apply Hdel.
Qed.

Lemma count_components_res p components k : flat p components →
  count_components p components k = Err ErrOther ∨
  ∃ counts, count_components p components k = Ok counts ∧ length counts = length components.
Proof.
  revert k. induction components as [|comp components IH]; intros k Hfl; cbn; [by right; exists []|].
  destruct (balloonDefByName p comp) as [d|] eqn:Hd; [|auto].
  unfold balloonsByDefIncludingComponents, count_rounds. cbn [count_defs].
  rewrite (Hfl comp d) by (done || constructor). cbn [fold_left].
  replace (count_defs _ p [] _) with (Ok ({[d_Name (def_at p d)]} ∪ ∅ : gset string)) by (by destruct (sum_list_with _ _)).
  destruct (IH (S k)) as [-> |(counts & -> & Hlen)].
  { intros comp' d' Hc. apply Hfl. by constructor. }
  - auto.
  - right. eexists. split; [reflexivity|]. cbn. by rewrite Hlen.
Qed.

Lemma new_balanced_spec X components p : good p X → flat p components → components ≠ [] →
  components_result X p (new_balanced new components p).
Proof.
  intros Hg Hfl Hne. unfold new_balanced.
  destruct (count_components_res p components 0 Hfl) as [->|(counts & -> & Hlen)]; [done|].
  assert (sort_slice fewer_instances counts ≠ []) as Hs.
  { intros Hs. apply (f_equal length) in Hs. unfold sort_slice in Hs.
    rewrite (Permutation_length (sort_func_perm _ counts)), Hlen in Hs. by destruct components. }
  destruct (sort_slice fewer_instances counts) as [|[n k] rest]; [done|].
  destruct (components !! k) as [comp|] eqn:Hk; [|done]. cbn.
  destruct (balloonDefByName p comp) as [d|] eqn:Hd; [|done]. cbn.
  destruct (balloonDefByName_elem p comp d Hd) as [Hdin _].
  destruct (Hnew X d p Hg Hdin) as (i & [He Hr] & Hold & Hs').
  { apply (Hfl comp); [by apply list_elem_of_lookup_2 in Hk|done]. }
  destruct (new d p) as [p1 [x|e]]; cbn in *.
  - destruct Hr as (Hg1 & _). split; [done|]. cbn. split_and!; auto.
  - destruct Hr as [-> Hg1]. done.
Qed.
End composite.

Lemma leaves_app p T U : leaves p (app T U) = app (leaves p T) (leaves p U).
Proof. unfold leaves. by rewrite fmap_app, concat_app. Qed.

Lemma leaves_small p ys : (∀ y, y ∈ ys → leaves_of p y = [y]) → leaves p ys = ys.
Proof.
  induction ys as [|y ys IH]; intros Hl; [done|]. unfold leaves in *. cbn.
  rewrite Hl by constructor. cbn. f_equal. apply IH. intros z Hz. apply Hl. by constructor.
Qed.

(** A new composite balloon of small components, before it gets its size. *)
Definition fresh_composite (p : balloons) (ys : list positive) (b : Balloon) : Prop :=
  b_components b = ys ∧ b_SharedIdleCpus b = ∅ ∧ b_PodIDs b = ∅ ∧ b_Def b ∈ o_BalloonDefs (p_bpoptions p).

Lemma new_composite_resize p X ys b m : good p (app X ys) → small p ys → ys ≠ [] → fresh_composite p ys b →
  0 ≤ m < 2 ^ 63 →
  let x := p_next p in
  ∃ p', extends p p' ∧
    ((resizeBalloon E cch x m (new_object b p).1 = (p', Ok tt) ∧ good p' (app X [x]) ∧
      b_Def (bln p' x) = b_Def b ∧ b_PodIDs (bln p' x) = ∅ ∧ b_Instance (bln p' x) = b_Instance b) ∨
     (resizeBalloon E cch x m (new_object b p).1 = (p', Err ErrOther) ∧ good p' (app X ys))).
Proof.
  intros [Hok [Hs1 Hs2]] [Hlv Hsz] Hne (Hc & Hsx & Hpx & Hd) Hm x.
  pose proof (new_object_extends b p) as He. set (p1 := (new_object b p).1) in *.
  assert (bln p1 x = b) as Hbx by (unfold p1; by rewrite bln_new, bool_decide_eq_true_2).
  assert (∀ y, (y < p_next p)%positive → bln p1 y = bln p y) as Hby.
  { intros y Hy. unfold p1. rewrite bln_new, bool_decide_eq_false_2; [done|lia]. }
  assert (p_freeCpus p1 = p_freeCpus p) as Hfr by done. assert (p_next p1 = Pos.succ x) as Hnx by done.
  pose proof (ex_like _ _ He) as Hl. pose proof (ex_balloons _ _ He) as Hbl. clearbody p1.
  set (T := app (p_balloons p) (app X ys)) in *.
  assert (ok p1 T) as Hok1. { apply (ok_like E allowed p); [done|done| |done]. intros y Hy. by rewrite Hby. }
  assert (∀ y, y ∈ T → (y < x)%positive) as HTn by (intros y Hy; apply (go_next _ _ (ok_group _ _ _ _ Hok y Hy))).
  assert (∀ y, y ∈ ys → y ∈ T) as HyT by (intros y Hy; unfold T; rewrite !elem_of_app; auto).
  assert (∀ y, y ∈ ys → leaves_of p1 y = [y]) as Hlv1.
  { intros y Hy. rewrite (like_leaves_of Hl) by auto. auto. }
  assert (leaves p1 T = app (leaves p1 (app (p_balloons p) X)) ys) as HL.
  { unfold T. rewrite (assoc_L app), leaves_app. by rewrite (leaves_small p1 ys). }
  assert (shared_ok p1 (app (app X ys) [x])) as Hsh1.
  { split; intros y; rewrite Hbl.
    - intros Hy. rewrite Hby, Hfr by (apply HTn; apply elem_of_app; by left). by apply Hs1.
    - rewrite elem_of_app, list_elem_of_singleton. intros [Hy| ->].
      + rewrite Hby by (apply HTn; apply elem_of_app; by right). by apply Hs2.
      + rewrite Hbx. split; [|done]. intros Hxb. specialize (HTn x ltac:(apply elem_of_app; by left)). lia. }
  destruct (Pos.to_nat x) as [|depth] eqn:Hx; [lia|].
  assert (depth ≠ O) as Hdepth.
  { destruct ys as [|y ys']; [done|]. specialize (HTn y (HyT y ltac:(constructor))). lia. }
  assert (resizeBalloon E cch x m p1 = resizeCompositeBalloon E cch (resize_balloon E cch depth) x m p1) as ->.
  { unfold resizeBalloon. rewrite Hx. cbn. rewrite Hbx, Hc. by destruct ys. }
  destruct (resizeComposite_spec E cch (app (app X ys) [x]) x (resize_balloon E cch depth) p1 (leaves p1 T) m 0) as (p' & Hp').
  { intros m' y q Hq. destruct depth; [done|]. cbn. by rewrite Hq. }
  { apply (ok_part _ _ _ _ Hok1). }
  { rewrite Hbx, Hc, HL. intros y Hy. apply elem_of_app. by right. }
  { rewrite Hbx, Hc. pose proof (ok_nodup _ _ _ _ Hok1) as Hnd. rewrite HL in Hnd. by apply NoDup_app in Hnd as (_ & _ & ?). }
  { by rewrite Hbx, Hc. } { done. } { apply (ok_allowed _ _ _ _ Hok1). } { done. }
  { rewrite Hbx, Hc. intros y Hy. rewrite Hby, (like_def_of Hl) by auto. auto. } { done. }
  rewrite Hbx, Hc in Hp'. exists p'. destruct Hp' as [(Hr & Hp' & Hf & Hsh' & Hz & Hcx & t' & Ht' & _ & Hsz')|(Hr & [Hf Hfr' Hc' Hsh'])].
  - split; [etrans; [done|by apply frame_extends]|]. left. pose proof (frame_like _ _ Hf) as Hl'.
    assert (leaves_of p' x = ys) as Hlx.
    { unfold leaves_of. rewrite (frame_components x Hf), Hbx, Hc. by destruct ys. }
    split; [done|]. split_and!.
    + split.
      * rewrite (frame_balloons Hf), Hbl, (assoc_L app).
        assert (leaves p' (app (app (p_balloons p) X) [x]) = leaves p1 T) as Hlvs.
        { rewrite HL, leaves_app. unfold leaves at 2. cbn. rewrite Hlx, app_nil_r. f_equal.
          apply (like_leaves p1 p'); [done|]. intros y Hy. rewrite Hnx. specialize (HTn y). unfold T in HTn.
          rewrite (assoc_L app), elem_of_app in HTn. specialize (HTn (or_introl Hy)). lia. }
        split; rewrite ?Hlvs.
        -- apply (like_conf_ok Hl'), (ok_conf _ _ _ _ Hok1).
        -- rewrite (like_allowed Hl'). apply (ok_allowed _ _ _ _ Hok1).
        -- done.
        -- apply (ok_nodup _ _ _ _ Hok1).
        -- intros z [Hzt| ->%list_elem_of_singleton]%elem_of_app.
           ++ assert (z ∈ T) as HzT by (unfold T; rewrite !elem_of_app in *; tauto).
              apply (group_ok_like p1); [done| |by apply (ok_group _ _ _ _ Hok1)]. intros y Hy.
              assert (y < x)%positive as Hyx.
              { destruct Hy as [->|Hy]; [by apply HTn|]. pose proof (go_older _ _ (ok_group _ _ _ _ Hok1 z HzT) y Hy).
                specialize (HTn z HzT). lia. }
              apply Hz; [lia|]. intros Hyy. pose proof (NoDup_tops p1 T Hok1) as HndT.
              assert (z ∉ ys) as Hzy. { unfold T in HndT. rewrite (assoc_L app) in HndT. apply NoDup_app in HndT as (_ & Hd' & _). by apply Hd'. }
              assert (y ≠ z) as Hyz by (by intros ->).
              destruct (ok_other E allowed p1 T y z y Hok1 (HyT y Hyy) HzT Hyz); [destruct Hy; auto; by subst|done].
           ++ split; rewrite ?Hlx, ?(frame_components x Hf), ?(frame_next Hf), ?(frame_options Hf), ?Hnx.
              ** lia.
              ** intros y Hy. specialize (HTn y (HyT y Hy)). lia.
              ** rewrite Hbx, Hc. intros y Hy. by apply HTn, HyT.
              ** rewrite (like_options Hl). split; [by rewrite (frame_Def x Hf), Hbx|]. intros y Hy.
                 rewrite (frame_Def y Hf), Hby by (by apply HTn, HyT).
                 pose proof (go_def _ _ (ok_group _ _ _ _ Hok y (HyT y Hy))) as [? _]. done.
              ** done.
              ** eauto.
      * destruct Hsh' as [Ha Hb]. split; [done|]. intros y Hy. apply Hb. rewrite !elem_of_app in *. tauto.
    + by rewrite (frame_Def x Hf), Hbx.
    + by rewrite (frame_PodIDs x Hf), Hbx.
    + by rewrite (frame_Instance x Hf), Hbx.
  - split; [etrans; [done|by apply frame_extends]|]. right. split; [done|]. split.
    + rewrite (frame_balloons Hf), Hbl. apply (ok_like E allowed p1); [by apply frame_like|done|auto|done].
    + destruct Hsh' as [Ha Hb]. split; [done|]. intros y Hy. apply Hb, elem_of_app. by left.
Qed.

Lemma newComposite_spec new X d conf i p : creates new → good p X → d ∈ o_BalloonDefs (p_bpoptions p) →
  d_Components (def_at p d) ≠ [] → created X d i p (newCompositeBalloon E cch new d conf i p).
Proof.
  intros Hnew Hg Hd Hne. pose proof (ok_conf _ _ _ _ (proj1 Hg) d Hd) as (_ & Hmin & _ & Hfl).
  unfold newCompositeBalloon. set (r := if bool_decide _ then _ else _).
  assert (components_result X p r) as [He Hr].
  { unfold r. repeat case_bool_decide.
    - apply new_components_spec; [done|by rewrite app_nil_r| |done|auto].
      split; intros y Hy; by apply not_elem_of_nil in Hy.
    - by apply new_balanced_spec.
    - done. }
  clearbody r. destruct r as [p1 [ys|e]]; cbn in He, Hr; [|destruct Hr as [-> ?]; by split].
  destruct Hr as (Hg1 & Hsm & Hys). set (b := MkBalloon d i _ _ _ _ _ _ _ _ _). cbn [new_object].
  assert (i64 (d_MinCpus (def_at p d) * 1000) = d_MinCpus (def_at p d) * 1000) as Hm.
  { unfold i64. rewrite Z.mod_small; lia. }
  destruct (new_composite_resize p1 X ys b (i64 (d_MinCpus (def_at p d) * 1000))) as (p2 & He2 & Hres).
  { done. } { done. } { done. } { split_and!; [done..|]. by rewrite (like_options (ex_like _ _ He)). } { lia. }
  cbn [new_object fst] in Hres. destruct Hres as [(-> & Hg2 & Hbd & Hbp & Hbi)|(-> & Hg2)].
  - set (p3 := if conf then _ else _).
    assert (quiet p2 p3) as Hq by (unfold p3; destruct conf; [apply useCpuClass_quiet|done]).
    apply (created_quiet X d i p p2); [|done]. split; [by etrans|]. cbn. split_and!; try done.
    apply (lk_next _ _ (ex_like _ _ He)).
  - destruct (good_delete_components p2 X ys Hg2 (good_NoDup p2 _ Hg2)) as [Hg3 He3].
    split; [|done]. etrans; [exact He|]. by etrans.
Qed.

(** [newBalloon] creates a balloon with the first unused instance number, or
    changes nothing. *)
Lemma newBalloon_spec p X d conf c : good p X → d ∈ o_BalloonDefs (p_bpoptions p) →
  let ds := balloonsByDef p d in
  created X d (free_instance (length ds) 0 p ds) p (newBalloon E cch d conf c p) ∧
  ((newBalloon E cch d conf c p).2 ≠ Err ErrOther → 0 < d_MaxBalloons (def_at p d) →
   Z.of_nat (length ds) < d_MaxBalloons (def_at p d)).
Proof.
  intros Hg Hd ds. unfold newBalloon. cbn [new_balloon]. fold ds. unfold NoLimit. case_bool_decide as Hmax.
  { split; [|done]. by split. }
  split; [|lia]. destruct (d_Components (def_at p d)) as [|comp comps] eqn:Hcomp.
  - by apply new_leaf_spec.
  - apply newComposite_spec; [|done..|by rewrite Hcomp]. apply new_balloon_creates.
    intros Hlen%nil_length_inv. by rewrite Hlen in Hd; apply not_elem_of_nil in Hd.
Qed.
End create.
