(* ===== verification/BlnRequests.v ===== *)
(** * The balloons policy keeps its invariant

    Allocating and releasing containers, in any order and with any cache of
    containers, keeps the CPUs shared out between balloons. *)

From Stdlib Require Import Ascii.
From S2P Require Import Prelude GoStrings MemNodes MemAllocator Expr CpuTree CpuResizeFacts CpuSystem CpuAlloc CpuTopo Kube BlnTypes BlnPin BlnHints BlnOps BlnPolicy BlnFrame BlnSize BlnInv BlnNew.

Open Scope Z_scope.

(** [p'] has the balloons of [p] with their containers, and new ones without
    containers. *)
Record grows (p p' : balloons) : Prop := {
  gw_like : like p p';
  gw_default : p_defaultBalloonDef p' = p_defaultBalloonDef p;
  gw_balloons : ∃ new, p_balloons p' = app (p_balloons p) new ∧ ∀ x, x ∈ new → b_PodIDs (bln p' x) = ∅;
  gw_pods y : y ∈ p_balloons p → b_PodIDs (bln p' y) = b_PodIDs (bln p y);
}.

#[export] Instance grows_preorder : PreOrder grows.
Proof.
  split.
  - intros p. split; try done. exists []. rewrite app_nil_r. split; [done|]. intros x Hx. by apply not_elem_of_nil in Hx.
  - intros p q r [L1 D1 (n1 & B1 & N1) P1] [L2 D2 (n2 & B2 & N2) P2]. split; [by etrans|congruence| |].
    + exists (app n1 n2). rewrite B2, B1, (assoc_L app). split; [done|].
      intros x [Hx|Hx]%elem_of_app; [|auto]. rewrite P2; [auto|]. rewrite B1. apply elem_of_app. by right.
    + intros y Hy. rewrite P2, P1; [done|done|]. rewrite B1. apply elem_of_app. by left.
Qed.

Lemma frame_grows p p' : frame p p' → grows p p'.
Proof.
  intros Hf. split; [by apply frame_like|by apply frame_default| |].
  - exists []. rewrite app_nil_r. split; [by apply frame_balloons|]. intros x Hx. by apply not_elem_of_nil in Hx.
  - intros y _. by apply frame_PodIDs.
Qed.

Lemma i64_lt x : i64 x < 2 ^ 63.
Proof. unfold i64. pose proof (Z.mod_pos_bound (x + 2 ^ 63) (2 ^ 64)). lia. Qed.

(** ** The largest values *)

(** The indices of the largest value, in ascending order. *)
Definition is_largest (l : list Z) (indices : list nat) (v : Z) : Prop :=
  (∀ i, i ∈ indices ↔ l !! i = Some v) ∧ (∀ w, w ∈ l → w ≤ v) ∧ indices ≠ [] ∧ StronglySorted Nat.lt indices.

Lemma largest_app l v : largest (app l [v]) = largest_step (largest l) (length l, v).
Proof. unfold largest. rewrite imap_app, fold_left_app. cbn. by rewrite Nat.add_0_r. Qed.

Lemma StronglySorted_snoc (l : list nat) n : StronglySorted Nat.lt l → Forall (λ i, (i < n)%nat) l →
  StronglySorted Nat.lt (app l [n]).
Proof.
  induction l as [|x l IH]; cbn; intros Hs Hl; [repeat constructor|].
  apply StronglySorted_inv in Hs as [Hs Hx]. apply Forall_cons in Hl as [Hxn Hl]. constructor; [auto|].
  apply Forall_app. auto.
Qed.

Lemma largest_step_spec l indices v w : is_largest l indices v →
  let r := largest_step (indices, v) (length l, w) in is_largest (app l [w]) r.1 r.2.
Proof.
  intros (Hi & Hle & Hne & Hs). unfold largest_step. rewrite bool_decide_eq_false_2 by done. cbn.
  assert (∀ i u, app l [w] !! i = Some u ↔ l !! i = Some u ∨ (i = length l ∧ u = w)) as Hl.
  { intros i u. destruct (decide (i < length l)%nat) as [Hlt|Hge].
    - rewrite lookup_app_l by done. split; [auto|]. intros [?|[-> _]]; [done|lia].
    - assert (l !! i = None) as -> by (apply lookup_ge_None_2; lia). rewrite lookup_app_r by lia. destruct (decide (i = length l)) as [->|].
      + rewrite Nat.sub_diag. cbn. split; [intros [= ->]; auto|]. intros [?|[_ ->]]; done.
      + rewrite lookup_ge_None_2 by (cbn; lia). split; [done|]. intros [?|[? _]]; done. }
  assert (∀ u, u ∈ app l [w] ↔ u ∈ l ∨ u = w) as Hel by (intros u; by rewrite elem_of_app, list_elem_of_singleton).
  assert (∀ i, i ∈ indices → (i < length l)%nat) as Hlt by (intros i Hin; apply Hi in Hin; by apply lookup_lt_Some in Hin).
  case_bool_decide as Heq; [subst w|case_bool_decide as Hgt]; cbn.
  - split_and!; [|intros u [?| ->]%Hel; [auto|done]|by destruct indices|apply StronglySorted_snoc; [done|by apply Forall_forall]].
    intros i. rewrite elem_of_app, list_elem_of_singleton, Hi, Hl. split; (intros [?|?]; [by left|right]); tauto.
  - split_and!; [|intros u [Hu| ->]%Hel; [specialize (Hle u Hu)|]; lia|done|repeat constructor].
    intros i. rewrite list_elem_of_singleton, Hl. split; [intros ->; by right|].
    intros [Hw|[? _]]; [|done]. apply list_elem_of_lookup_2, Hle in Hw. lia.
  - split_and!; [|intros u [Hu| ->]%Hel; [auto|lia]|done|done].
    intros i. rewrite Hi, Hl. split; [by left|]. intros [?|[_ ?]]; [done|lia].
Qed.

Lemma largest_ok l : l ≠ [] → is_largest l (largest l).1 (largest l).2.
Proof.
  induction l as [|v l IH] using rev_ind; [done|]. intros _. rewrite largest_app.
  destruct (decide (l = [])) as [->|Hne].
  - cbn. split_and!; [|intros w ->%list_elem_of_singleton; done|done|repeat constructor].
    intros [|i]; rewrite list_elem_of_singleton; cbn; [done|]. by destruct i.
  - specialize (IH Hne). destruct (largest l) as [indices u]. by apply largest_step_spec.
Qed.

Section policy.
Context `{GoRuntime} (E : Env) (allowed : CPUSet) `{!CpuService E allowed}.

Abbreviation good := (good E allowed).
Abbreviation ok := (ok E allowed).

(** The invariant of the policy between requests. *)
Definition policy_ok (p : balloons) : Prop :=
  good p [] ∧ ∀ d, p_defaultBalloonDef p = Some d → d ∈ o_BalloonDefs (p_bpoptions p).

Lemma policy_ok_grows p p' : policy_ok p → grows p p' → good p' [] → policy_ok p'.
Proof. intros [_ Hd] [Hl Hdf _ _] Hg. split; [done|]. rewrite Hdf, (like_options Hl). done. Qed.

Lemma good_upd p X x f :
  (∀ b, (b_Def (f b), b_components (f b), alloc_root (f b), b_Cpus (f b), b_SharedIdleCpus (f b)) =
        (b_Def b, b_components b, alloc_root b, b_Cpus b, b_SharedIdleCpus b)) →
  good p X → good (upd_bln x f p) X ∧ like p (upd_bln x f p).
Proof.
  intros Hf [Hok [Hs1 Hs2]]. pose proof (Hf (bln p x)) as Hfx.
  assert (∀ y, b_Cpus (bln (upd_bln x f p) y) = b_Cpus (bln p y)) as Hc.
  { intros y. rewrite bln_upd. case_bool_decide; subst; congruence. }
  assert (∀ y, b_SharedIdleCpus (bln (upd_bln x f p) y) = b_SharedIdleCpus (bln p y)) as Hs.
  { intros y. rewrite bln_upd. case_bool_decide; subst; congruence. }
  assert (like p (upd_bln x f p)) as Hl.
  { split; [done|cbn; lia|]. intros y _. rewrite bln_upd. case_bool_decide; subst; congruence. }
  split; [|done]. split.
  - apply (ok_like E allowed p); auto.
  - split; intros y; rewrite Hs; [apply Hs1|apply Hs2].
Qed.

Lemma extends_grows p p' X : good p X → extends p p' → grows p p'.
Proof.
  intros Hg [Hl Hb Hdf Hbl]. split; [done..| |].
  - exists []. rewrite app_nil_r. split; [done|]. intros x Hx. by apply not_elem_of_nil in Hx.
  - intros y Hy. assert (y < p_next p)%positive as Hn.
    { apply (good_next E allowed p X); [done|]. apply elem_of_app. by left. }
    specialize (Hbl y Hn). congruence.
Qed.

(** Sharing CPUs that are free. *)
Lemma good_shares p p' X add rem : good p X → shares add rem p p' → add ⊆ p_freeCpus p → good p' X.
Proof.
  intros Hg Hsh Hadd. apply (good_restored E allowed p); [done|].
  pose proof Hsh as (Hf & Hfr & Hc & _). split; [done..|].
  apply (shared_ok_shares p p p' X add rem); [done|apply Hg|done..|set_solver].
Qed.

(** A balloon that has been created becomes one of the policy. *)
Lemma good_append x p : good p [x] → b_PodIDs (bln p x) = ∅ →
  good (with_balloons (app (p_balloons p) [x]) p) [] ∧ grows p (with_balloons (app (p_balloons p) [x]) p).
Proof.
  intros [Hok [Hs1 Hs2]] Hpods. destruct (Hs2 x ltac:(constructor)) as [Hxb Hsx].
  set (p1 := with_balloons (app (p_balloons p) [x]) p). split.
  - split; [|split].
    + cbn [p1 p_balloons with_balloons]. rewrite app_nil_r.
      apply (ok_like E allowed p); [by split; cbn|done..].
    + intros y [Hy| ->%list_elem_of_singleton]%elem_of_app; [by apply Hs1|].
      change (b_SharedIdleCpus (bln p1 x)) with (b_SharedIdleCpus (bln p x)). set_solver.
    + intros y Hy. by apply not_elem_of_nil in Hy.
  - split; [by split; cbn|done| |done]. exists [x]. split; [done|]. by intros y ->%list_elem_of_singleton.
Qed.

Section requests.
Context (cch : Cache_).

(** ** Choosing a balloon *)

Lemma add_balloon_spec x p : good p [x] → b_PodIDs (bln p x) = ∅ →
  good (add_balloon E cch x p) [] ∧ grows p (add_balloon E cch x p) ∧
  p_balloons (add_balloon E cch x p) = app (p_balloons p) [x] ∧
  (∀ y, b_Def (bln (add_balloon E cch x p) y) = b_Def (bln p y)).
Proof.
  intros Hg Hpods. destruct (good_append x p Hg Hpods) as [Hg1 Hgw1].
  set (p1 := with_balloons (app (p_balloons p) [x]) p) in *.
  assert (∀ p2, frame p1 p2 → good p2 [] → add_balloon E cch x p = p2 →
    good (add_balloon E cch x p) [] ∧ grows p (add_balloon E cch x p) ∧
    p_balloons (add_balloon E cch x p) = app (p_balloons p) [x] ∧
    (∀ y, b_Def (bln (add_balloon E cch x p) y) = b_Def (bln p y))) as Hfin.
  { intros p2 Hf Hg2 ->. split_and!; [done|etrans; [done|by apply frame_grows]|by rewrite (frame_balloons Hf)|].
    intros y. by rewrite (frame_Def y Hf). }
  unfold add_balloon in *. fold p1 in Hfin |- *. case_bool_decide; [|by apply (Hfin p1)].
  set (p2 := useCpuClass x p1) in *. assert (quiet p1 p2) as Hq2 by apply useCpuClass_quiet. clearbody p2.
  pose proof (shareIdleCpus_shares E (p_freeCpus p2) (b_Cpus (bln p2 x)) p2) as Hsh.
  destruct (shareIdleCpus E _ _ p2) as [p3 blns]. cbn [fst] in Hsh.
  assert (good p3 []) as Hg3.
  { apply (good_shares p2 p3 [] (p_freeCpus p2) (b_Cpus (bln p2 x))); [by apply (good_quiet E allowed p1)|done..]. }
  apply (Hfin (updatePinning E cch blns p3)); [|apply (good_quiet E allowed p3); [apply updatePinning_quiet|done]|done].
  etrans; [by apply quiet_frame|]. etrans; [apply Hsh|]. apply quiet_frame, updatePinning_quiet.
Qed.

(** A fill method gives balloons of the type, or fails without a panic. *)
Definition filled (d : positive) (p : balloons) (r : balloons * res (list positive)) : Prop :=
  good r.1 [] ∧ grows p r.1 ∧
  match r.2 with
  | Ok xs => ∀ x, x ∈ xs → x ∈ p_balloons r.1 ∧ b_Def (bln r.1 x) = d
  | Err e => e = ErrOther
  end.

Lemma elem_of_balloonsByDef p d x : x ∈ balloonsByDef p d ↔ x ∈ p_balloons p ∧ b_Def (bln p x) = d.
Proof. unfold balloonsByDef, balloonsByFunc. rewrite list_elem_of_filter, bool_decide_eq_true. tauto. Qed.

Lemma fill_new_spec d fm c p : good p [] → d ∈ o_BalloonDefs (p_bpoptions p) → filled d p (fill_new E cch d fm c p).
Proof.
  intros Hg Hd. unfold fill_new. destruct (list_find _ _) as [[i x]|] eqn:Hf.
  { apply list_find_Some in Hf as (Hx & _). apply list_elem_of_lookup_2, elem_of_balloonsByDef in Hx.
    split_and!; [done..|]. by intros y ->%list_elem_of_singleton. }
  assert (∀ q, good q [] → grows p q → filled d p (q, unless_must fm ErrOther)) as Hno.
  { intros q Hq Hgw. split_and!; [done..|]. unfold unless_must. cbn. destruct (_ || _); [done|].
    intros x Hx. by apply not_elem_of_nil in Hx. }
  case_bool_decide; [by apply Hno|].
  destruct (newBalloon_spec E cch allowed p [] d false (Some c) Hg Hd) as [[He Hr] _].
  pose proof (λ q, extends_grows p q [] Hg) as Hgw.
  destruct (newBalloon E cch d false (Some c) p) as [p1 [x|e]]; cbn in He, Hr.
  - destruct Hr as (Hg1 & Hn & Hbd & Hbp & _). case_bool_decide.
    + apply Hno.
      * destruct Hg1 as [Hok [Hs1 Hs2]]. destruct (Hs2 x ltac:(constructor)) as [Hxb _]. split.
        -- rewrite app_nil_r. apply (ok_drop E allowed p1 _ x); try done.
           apply (ok_perm E allowed p1 (app (p_balloons p1) [x])); [|done]. by rewrite <- Permutation_cons_append.
        -- split; [|intros y Hy; by apply not_elem_of_nil in Hy]. intros y Hy. cbn. specialize (Hs1 y Hy).
           change (bln (with_freeCpus _ p1) y) with (bln p1 y). set_solver.
      * etrans; [by apply Hgw|]. split; try done. exists []. rewrite app_nil_r. split; [done|].
        intros y Hy. by apply not_elem_of_nil in Hy.
    + destruct (add_balloon_spec x p1 Hg1 Hbp) as (Hg2 & Hgw2 & Hbl2 & Hd2). split_and!; [done| |].
      * etrans; [by apply Hgw|done].
      * cbn. intros y ->%list_elem_of_singleton. rewrite Hbl2, Hd2. split; [|done]. apply elem_of_app. right. constructor.
  - destruct Hr as [-> Hg1]. apply Hno; [done|by apply Hgw].
Qed.

Lemma expand_loop_err evalRef must src result key e :
  expand_loop evalRef must src result key = Err e → e = ErrOther.
Proof.
  revert result key. induction src as [|ch src IH]; intros result key; cbn.
  - destruct key as [[k curly]|]; [|done]. destruct (_ || _); [congruence|].
    destruct (evalRef k). destruct (_ && _); congruence.
  - destruct key as [[k curly]|]; [|case_bool_decide; apply IH].
    repeat case_bool_decide; destruct curly; cbn; try apply IH; try congruence;
      destruct (evalRef k); destruct (_ && _); cbn; try apply IH; congruence.
Qed.

Lemma balloonsByFunc_sub blns f x : x ∈ balloonsByFunc blns f → x ∈ blns ∧ f x = true.
Proof. unfold balloonsByFunc. rewrite list_elem_of_filter. tauto. Qed.

Lemma fillable_spec d fm c p : good p [] → d ∈ o_BalloonDefs (p_bpoptions p) →
  filled d p (fillableBalloonInstances E cch d fm c p).
Proof.
  intros Hg Hd. unfold fillableBalloonInstances.
  set (fits := λ x, bool_decide (b_Def (bln p x) = d) && bool_decide (_ ≤ maxFreeMilliCpus cch p x)).
  assert (∀ blns f, (∀ x, x ∈ blns → f x = true → x ∈ p_balloons p ∧ b_Def (bln p x) = d) →
    filled d p (p, Ok (balloonsByFunc blns f))) as Hby.
  { intros blns f Hf. split_and!; [done..|]. cbn. intros x [Hx Hfx]%balloonsByFunc_sub. auto. }
  assert (∀ x, fits x = true → b_Def (bln p x) = d) as Hfits.
  { intros x Hx. unfold fits in Hx. apply andb_true_iff in Hx as [Hx _]. by apply bool_decide_eq_true in Hx. }
  assert (filled d p (p, Ok [])) as Hnone. { split_and!; [done..|]. intros x Hx. by apply not_elem_of_nil in Hx. }
  assert (∀ f, filled d p (p, Ok (balloonsByFunc (balloonsByDef p d) f))) as Hdef.
  { intros f. apply Hby. intros x Hx _. by apply elem_of_balloonsByDef. }
  destruct fm; try (by apply fill_new_spec); try (case_bool_decide; [done|done || apply Hdef]).
  - destruct (container_Expand _ _ _ _) as [group|e] eqn:He.
    + apply Hby. intros x Hx [_ Hfx]%andb_true_iff. auto.
    + apply expand_loop_err in He as ->. done.
  - apply Hby. intros x [Hx _]%balloonsByFunc_sub Hfx. auto.
  - destruct (GetPod _ _); [|done]. apply Hby. intros x [Hx _]%balloonsByFunc_sub Hfx. auto.
Qed.

(** The room a fill method looks at. *)
Definition room (fm : FillMethod) (p : balloons) (x : positive) : Z :=
  if bool_decide (fm = FillBalancedInflate) then maxFreeMilliCpus cch p x else freeMilliCpus cch p x.

Lemma best_balloon_ok fm blns p : blns ≠ [] →
  ∃ x, best_balloon cch fm blns p = Ok x ∧ x ∈ blns ∧
    (∀ y, y ∈ blns → room fm p y ≤ room fm p x) ∧
    (∀ y, y ∈ blns → room fm p y = room fm p x → ContainerCount (bln p x) ≤ ContainerCount (bln p y)).
Proof.
  intros Hne. unfold best_balloon. set (largestBy := if bool_decide _ then _ else _).
  assert (∀ y, largestBy y = room fm p y) as Hroom by (intros y; unfold largestBy, room; by case_bool_decide).
  destruct (largest_ok (largestBy <$> blns)) as (Hi1 & Hle1 & Hne1 & _); [by destruct blns|].
  destruct (largest (largestBy <$> blns)) as [mostRoom v1]. cbn [fst snd] in *.
  set (count := λ i, match blns !! i with Some x => _ | None => _ end).
  destruct (largest_ok (count <$> mostRoom)) as (Hi2 & Hle2 & Hne2 & _); [by destruct mostRoom|].
  destruct (largest (count <$> mostRoom)) as [least v2]. cbn [fst snd] in *.
  destruct least as [|j least]; [done|]. cbn [head mbind option_bind].
  pose proof (proj1 (Hi2 j) ltac:(constructor)) as Hj. rewrite list_lookup_fmap in Hj.
  destruct (mostRoom !! j) as [i|] eqn:Hmi; [|done]. cbn in Hj. injection Hj as Hj. cbn [mbind option_bind].
  pose proof (proj1 (Hi1 i) ltac:(by apply list_elem_of_lookup_2 in Hmi)) as Hiv.
  rewrite list_lookup_fmap in Hiv. destruct (blns !! i) as [x|] eqn:Hx; [|done]. cbn in Hiv. injection Hiv as Hiv.
  exists x. split_and!; [done|by apply list_elem_of_lookup_2 in Hx|..].
  - intros y Hy. rewrite <- !Hroom, Hiv. apply Hle1. by apply list_elem_of_fmap_2.
  - intros y Hy Hr. rewrite <- !Hroom, Hiv in Hr. apply list_elem_of_lookup_1 in Hy as [k Hk].
    assert (k ∈ mostRoom) as Hkm. { apply Hi1. rewrite list_lookup_fmap, Hk. cbn. by rewrite Hr. }
    specialize (Hle2 (count k) ltac:(by apply list_elem_of_fmap_2)). rewrite <- Hj in Hle2.
    unfold count in Hle2. rewrite Hk, Hx in Hle2. lia.
Qed.

Lemma try_fill_spec chain d c p : good p [] → d ∈ o_BalloonDefs (p_bpoptions p) →
  let r := try_fill E cch chain d c p in
  good r.1 [] ∧ grows p r.1 ∧
  match r.2 with
  | Ok (Some x) => x ∈ p_balloons r.1 ∧ b_Def (bln r.1 x) = d
  | Ok None => True
  | Err e => e = ErrOther
  end.
Proof.
  revert p. induction chain as [|fm chain IH]; intros p Hg Hd; [done|]. cbn [try_fill].
  destruct (fillable_spec d fm c p Hg Hd) as (Hg1 & Hgw1 & Hr).
  destruct (fillableBalloonInstances E cch d fm c p) as [p1 [[|x0 xs]|e]]; cbn in Hg1, Hgw1, Hr.
  - destruct (IH p1) as (Hg2 & Hgw2 & Hr2); [done|by rewrite (like_options (gw_like _ _ Hgw1))|].
    split_and!; [done|by etrans|done].
  - destruct (best_balloon_ok fm (x0 :: xs) p1) as (x & -> & Hx & _); [done|]. split_and!; [done..|].
    by apply Hr.
  - done.
Qed.

Lemma chooseBalloonDef_elem p c d : policy_ok p → chooseBalloonDef cch p c = Ok (Some d) →
  d ∈ o_BalloonDefs (p_bpoptions p).
Proof.
  intros [_ Hdef]. unfold chooseBalloonDef. destruct (GetEffectiveAnnotation _ _ _) as [name|].
  { destruct (balloonDefByName p name) as [d'|] eqn:Hn; [|done]. intros [= <-].
    by destruct (balloonDefByName_elem p name d' Hn). }
  assert (∀ defs, (∀ d, d ∈ defs → d ∈ o_BalloonDefs (p_bpoptions p)) →
    matching_def cch p defs c = Ok (Some d) → d ∈ o_BalloonDefs (p_bpoptions p)) as Hm; [|by apply Hm].
  induction defs as [|d' defs IH]; cbn; intros Hin; [intros [= ?]; by apply Hdef|].
  destruct (any_matches _ _ _) as [[]|]; cbn; [intros [= <-]; apply Hin; constructor| |done].
  destruct (namespaceMatches _ _); [intros [= <-]; apply Hin; constructor|].
  apply IH. intros d'' Hd''. apply Hin. by constructor.
Qed.
End requests.
End policy.

(** * Requests to the balloons policy

    What AllocateResources, ReleaseResources and Sync do to the CPUs and to
    the assignment of containers to balloons. *)

Open Scope Z_scope.

(** ** Removing a container from a list *)

Lemma remove_at_perm before l e : remove_at before l e ≡ₚ app before (match list_find (λ s, s = e) l with
  | Some (i, _) => delete i l
  | None => l
  end).
Proof.
  revert before. induction l as [|s l IH]; intros before; cbn [remove_at]; [by rewrite app_nil_r|].
  cbn [list_find]. case_bool_decide as Hs; destruct (decide (s = e)); try done.
  - cbn. destruct (last l) as [x|] eqn:Hl.
    + apply last_Some in Hl as [l' ->]. rewrite removelast_last. by rewrite <- Permutation_cons_append.
    + apply last_None in Hl as ->. by rewrite app_nil_r.
  - rewrite IH. destruct (list_find (λ s, s = e) l) as [[i x]|]; cbn; rewrite <- app_assoc; done.
Qed.

(** [removeString] removes one occurrence; the order of the rest may change. *)
Lemma removeString_perm l e : e ∈ l → l ≡ₚ e :: removeString l e.
Proof.
  intros He. unfold removeString. rewrite remove_at_perm. cbn.
  destruct (list_find (λ s, s = e) l) as [[i x]|] eqn:Hf.
  - apply list_find_Some in Hf as (Hl & -> & _). by apply delete_Permutation.
  - apply list_find_None in Hf. rewrite Forall_forall in Hf. by destruct (Hf e He).
Qed.

Lemma removeString_none l e : (e ∉ l) → removeString l e ≡ₚ l.
Proof.
  intros He. unfold removeString. rewrite remove_at_perm. cbn.
  destruct (list_find (λ s, s = e) l) as [[i x]|] eqn:Hf; [|done].
  apply list_find_Some in Hf as (Hl & -> & _). destruct He. by apply list_elem_of_lookup_2 in Hl.
Qed.

Section requests.
Context `{GoRuntime} (E : Env) (allowed : CPUSet) `{!CpuService E allowed}.

Abbreviation good := (good E allowed).
Abbreviation policy_ok := (policy_ok E allowed).

Section one.
Context (cch : Cache_).

(** ** Assigning and dismissing *)

(** The containers of a balloon once a container has been added. *)
Definition with_container (c : Ctr) (pods : gmap string (list string)) : gmap string (list string) :=
  <[ct_PodID c := app (default [] (pods !! ct_PodID c)) [ct_ID c]]> pods.

Definition without_container (c : Ctr) (pods : gmap string (list string)) : gmap string (list string) :=
  let ids := removeString (default [] (pods !! ct_PodID c)) (ct_ID c) in
  if bool_decide (ids = []) then delete (ct_PodID c) pods else <[ct_PodID c := ids]> pods.

(** [p'] is [p] with the containers of [x] changed by [f]. *)
Record repods (x : positive) (f : gmap string (list string) → gmap string (list string)) (p p' : balloons) : Prop := {
  rp_like : like p p';
  rp_default : p_defaultBalloonDef p' = p_defaultBalloonDef p;
  rp_balloons : p_balloons p' = p_balloons p;
  rp_free : p_freeCpus p' = p_freeCpus p;
  rp_cpus y : b_Cpus (bln p' y) = b_Cpus (bln p y);
  rp_fields y : (b_Def (bln p' y), b_components (bln p' y)) = (b_Def (bln p y), b_components (bln p y));
  rp_pods y : b_PodIDs (bln p' y) = if bool_decide (x = y) then f (b_PodIDs (bln p x)) else b_PodIDs (bln p y);
}.

Lemma repods_quiet x f p p' p'' : repods x f p p' → quiet p' p'' → repods x f p p''.
Proof.
  intros [Hl Hdf Hb Hfr Hc Hfd Hp] Hq. pose proof (quiet_frame _ _ Hq) as Hf. split.
  - etrans; [done|by apply frame_like].
  - by rewrite (frame_default Hf).
  - by rewrite (frame_balloons Hf).
  - by rewrite (quiet_free Hq).
  - intros y. by rewrite (quiet_Cpus y Hq).
  - intros y. by rewrite (frame_Def y Hf), (frame_components y Hf).
  - intros y. by rewrite (frame_PodIDs y Hf).
Qed.

Lemma repods_upd x f p X : good p X → let p' := upd_bln x (λ b, set_PodIDs (f (b_PodIDs b)) b) p in
  good p' X ∧ repods x f p p'.
Proof.
  intros Hg p'. destruct (good_upd E allowed p X x (λ b, set_PodIDs (f (b_PodIDs b)) b)) as [Hg' Hl]; [done..|].
  split; [done|]. split; try done; intros y; unfold p'; rewrite bln_upd; by case_bool_decide; subst.
Qed.

Lemma assignContainer_spec c x p : good p [] →
  good (assignContainer E cch c x p) [] ∧ repods x (with_container c) p (assignContainer E cch c x p).
Proof.
  intros Hg. unfold assignContainer. destruct (repods_upd x (with_container c) p [] Hg) as [Hg1 Hr1].
  unfold with_container in Hg1, Hr1. set (p1 := upd_bln x _ p) in *. clearbody p1.
  set (p2 := applyProcessProperties _ _ _ _ _). assert (quiet p1 p2) as Hq.
  { etrans; [apply updateGroups_quiet|]. etrans; [apply updatePinning_quiet|]. apply applyProcessProperties_quiet. }
  split; [by apply (good_quiet E allowed p1)|by apply (repods_quiet x _ p p1)].
Qed.

Lemma dismissContainer_spec c x p : good p [] →
  good (dismissContainer cch c x p) [] ∧ repods x (without_container c) p (dismissContainer cch c x p).
Proof.
  intros Hg. unfold dismissContainer. set (p0 := with_memAllocator _ p).
  assert (good p0 []) as Hg0 by (by apply (good_quiet E allowed p)).
  destruct (repods_upd x (without_container c) p0 [] Hg0) as [Hg1 Hr1].
  unfold without_container in Hg1, Hr1. set (p1 := upd_bln x _ p0) in *.
  assert (repods x (without_container c) p p1) as Hr1'. { destruct Hr1 as [Hl ? ? ? ? ? ?]. split; try done. etrans; [|exact Hl]. by apply frame_like, quiet_frame. }
  clearbody p1. set (p2 := removePodResourcesHints _ _ _). assert (quiet p1 p2) as Hq.
  { etrans; [apply updateGroups_quiet|]. apply removePodResourcesHints_quiet. }
  split; [by apply (good_quiet E allowed p1)|by apply (repods_quiet x _ p p1)].
Qed.

(** ** Allocating *)

(** The request a balloon has to fit once it has the container. *)
Definition needed (c : Ctr) (p : balloons) (x : positive) : Z :=
  Z.max 1 (i64 (containerRequestedMilliCpus cch (ct_ID c) + requestedMilliCpus cch (bln p x))).

(** A balloon has CPUs for a request, or all that its types allow for it. *)
Definition fits (p : balloons) (x : positive) (milliCpus : Z) : Prop :=
  milliCpus ≤ AvailMilliCpus (bln p x) ∨
  sized p (leaves_of p x) (Z.max 0 (full_cpus (Z.quot milliCpus (Z.of_nat (length (leaves_of p x)))))).

Lemma allocateBalloon_spec c p : policy_ok p →
  let r := allocateBalloon E cch c p in
  good r.1 [] ∧ grows p r.1 ∧
  match r.2 with
  | Ok x => x ∈ p_balloons r.1
  | Err e => e = ErrOther ∨ chooseBalloonDef cch p c = Err e
  end.
Proof.
  intros Hp. unfold allocateBalloon. destruct (chooseBalloonDef cch p c) as [[d|]|e] eqn:Hc; cbn.
  - pose proof (chooseBalloonDef_elem E allowed cch p c d Hp Hc) as Hd. unfold allocateBalloonOfDef.
    destruct (try_fill_spec E allowed cch (fill_chain (def_at p d)) d c p (proj1 Hp) Hd) as (Hg & Hgw & Hr).
    destruct (try_fill _ _ _ _ _ _) as [p1 [[x|]|e]]; cbn in *; split_and!; auto. by destruct Hr.
  - split_and!; [apply Hp|done|auto].
  - split_and!; [apply Hp|done|auto].
Qed.

Lemma allocate_spec c p : policy_ok p →
  let r := AllocateResources E cch c p in
  good r.1 [] ∧
  match r.2 with
  | Ok _ => r.1 = p ∨
      ∃ p1 p2 x, grows p p1 ∧ frame p1 p2 ∧ x ∈ p_balloons p1 ∧ repods x (with_container c) p2 r.1 ∧
        fits p2 x (needed c p1 x)
  | Err e => grows p r.1
  end.
Proof.
  intros Hp. unfold AllocateResources. destruct (PreserveCpuResources cch c); [split; [apply Hp|by left]|].
  destruct (preserved cch p c) as [[]|e]; [split; [apply Hp|by left]| |split; [apply Hp|cbn; reflexivity]].
  destruct (allocateBalloon_spec c p Hp) as (Hg & Hgw & Hr).
  destruct (allocateBalloon E cch c p) as [p1 [x|e]]; cbn in Hg, Hgw, Hr; [|by split].
  fold (needed c p1 x). assert (0 ≤ needed c p1 x < 2 ^ 63) as Hn.
  { unfold needed. pose proof (i64_lt (containerRequestedMilliCpus cch (ct_ID c) + requestedMilliCpus cch (bln p1 x))). lia. }
  assert (x ∈ app (p_balloons p1) []) as Hx by (by rewrite app_nil_r).
  case_bool_decide as Hav.
  - destruct (good_resize E cch allowed p1 [] x _ Hg Hx Hn) as (p2 & Hg2 & Hf & [(-> & _ & Hs)|(-> & _)]).
    + destruct (assignContainer_spec c x p2 Hg2) as [Hg3 Hrp]. split; [done|]. right. exists p1, p2, x. split_and!; try done.
      right. by rewrite (leaves_of_frame p1 p2 x Hf).
    + split; [done|]. cbn. etrans; [done|by apply frame_grows].
  - destruct (assignContainer_spec c x p1 Hg) as [Hg3 Hrp]. split; [done|]. right. exists p1, p1, x. split_and!; try done.
    left. lia.
Qed.

(** ** Releasing *)

Lemma fold_count (l : list (string * list string)) n :
  fold_left (λ count kv, count + Z.of_nat (length kv.2)) l n = n + Z.of_nat (length (concat l.*2)).
Proof.
  revert n. induction l as [|[k ids] l IH]; intros n; cbn; [lia|]. rewrite IH, length_app. cbn. lia.
Qed.

Lemma ContainerCount_zero b pod : ContainerCount b = 0 → default [] (b_PodIDs b !! pod) = [].
Proof.
  unfold ContainerCount. rewrite fold_count. intros Hz.
  destruct (b_PodIDs b !! pod) as [ids|] eqn:Hp; [|done]. cbn.
  apply elem_of_map_range in Hp. destruct ids as [|id ids]; [done|].
  assert (id ∈ concat (map_range (b_PodIDs b)).*2) as Hin.
  { apply (elem_of_concat_map snd). exists (pod, id :: ids). split; [done|constructor]. }
  destruct (concat _); [by apply not_elem_of_nil in Hin|cbn in Hz; lia].
Qed.

Lemma requested_lt b : requestedMilliCpus cch b < 2 ^ 63.
Proof.
  unfold requestedMilliCpus. generalize (ContainerIDs b). intros l.
  assert (∀ n, n < 2 ^ 63 → fold_left (λ s id, i64 (s + containerRequestedMilliCpus cch id)) l n < 2 ^ 63) as Hf; [|by apply Hf].
  induction l as [|id l IH]; intros n Hn; cbn; [done|]. apply IH, i64_lt.
Qed.

Lemma freeBalloon_spec x p : good p [] → x ∈ p_balloons p →
  good (freeBalloon E x p) [] ∧
  p_defaultBalloonDef (freeBalloon E x p) = p_defaultBalloonDef p ∧
  p_bpoptions (freeBalloon E x p) = p_bpoptions p ∧
  p_balloons (freeBalloon E x p) ⊆ p_balloons p ∧
  (∀ y, y ∈ p_balloons p → y ≠ x → y ∈ p_balloons (freeBalloon E x p)) ∧
  ∀ y, b_PodIDs (bln (freeBalloon E x p) y) = if bool_decide (x = y) then ∅ else b_PodIDs (bln p y).
Proof.
  intros Hg Hx. unfold freeBalloon. set (p1 := upd_bln x (set_PodIDs ∅) p).
  assert (good p1 [] ∧ repods x (λ _, ∅) p p1) as [Hg1 [Hl Hdf Hb Hfr Hc Hfd Hpd]].
  { apply (repods_upd x (λ _, ∅) p [] Hg). }
  clearbody p1.
  case_bool_decide.
  - destruct (deleteBalloon_spec E x p1) as (Hl' & Hbl & Hdf' & _ & Hby & _ & Hpx & _). split_and!.
    + apply (good_delete E allowed p1); [done|by rewrite Hb].
    + congruence.
    + by rewrite (like_options Hl'), (like_options Hl).
    + rewrite Hbl, Hb. intros y Hy. apply list_elem_of_filter in Hy as [_ ?]. done.
    + intros y Hy Hne. rewrite Hbl, Hb. by apply list_elem_of_filter.
    + intros y. rewrite <- Hpd. destruct (decide (y = x)) as [->|]; [done|]. by rewrite Hby.
  - split_and!; [done|done|by apply like_options|by rewrite Hb|by rewrite Hb|done].
Qed.

Lemma release_spec c p : policy_ok p →
  let r := ReleaseResources E cch c p in
  policy_ok r.1 ∧ (r.2 = Ok tt ∨ r.2 = Err ErrOther) ∧
  match balloonByContainer p c with
  | None => r.1 = p
  | Some x => p_balloons r.1 ⊆ p_balloons p ∧ (∀ y, y ∈ p_balloons p → y ≠ x → y ∈ p_balloons r.1) ∧
      ∃ f, (∀ y, b_PodIDs (bln r.1 y) = if bool_decide (x = y) then f else b_PodIDs (bln p y)) ∧
        ((x ∈ p_balloons r.1 ∧ f = without_container c (b_PodIDs (bln p x))) ∨
         (f = ∅ ∧ ∀ pod, default [] (without_container c (b_PodIDs (bln p x)) !! pod) = []))
  end.
Proof.
  intros [Hg Hdef]. unfold ReleaseResources. destruct (balloonByContainer p c) as [x|] eqn:Hx; [|by split_and!; [|left|]].
  assert (x ∈ p_balloons p) as Hxb.
  { unfold balloonByContainer in Hx. destruct (list_find _ _) as [[i y]|] eqn:Hf; [|done]. injection Hx as ->.
    apply list_find_Some in Hf as (Hl & _). by apply list_elem_of_lookup_2 in Hl. }
  destruct (dismissContainer_spec c x p Hg) as [Hg1 Hr1]. set (p1 := dismissContainer cch c x p) in *. clearbody p1.
  pose proof (rp_balloons _ _ _ _ Hr1) as Hb1. pose proof (rp_pods _ _ _ _ Hr1) as Hpd1.
  assert (p_defaultBalloonDef p1 = p_defaultBalloonDef p ∧ p_bpoptions p1 = p_bpoptions p) as [Hd1 Ho1].
  { split; [apply Hr1|apply like_options, Hr1]. }
  assert (x ∈ app (p_balloons p1) []) as Hx1 by (by rewrite app_nil_r, Hb1).
  assert (∀ p2, frame p1 p2 → good p2 [] → policy_ok p2) as Hpol.
  { intros p2 Hf Hg2. split; [done|]. by rewrite (frame_default Hf), (frame_options Hf), Hd1, Ho1. }
  case_bool_decide as Hcount.
  - destruct (good_resize E cch allowed p1 [] x 0 Hg1 Hx1 ltac:(lia)) as (p2 & Hg2 & Hf & Hres).
    set (r := let '(_, _) := resizeBalloon E cch x 0 p1 in _).
    assert (r = (freeBalloon E x p2, Ok tt)) as ->. { unfold r. by destruct Hres as [(-> & _)|(-> & _)]. }
    clear Hres. destruct (freeBalloon_spec x p2 Hg2) as (Hg3 & Hd3 & Ho3 & Hsub & Hsup & Hpods).
    { by rewrite (frame_balloons Hf), Hb1. }
    cbn. rewrite (frame_balloons Hf), Hb1 in Hsub, Hsup. split_and!; [split; [done|]|by left|done|done|].
    + rewrite Hd3, Ho3, (frame_default Hf), (frame_options Hf), Hd1, Ho1. done.
    + exists ∅. split.
      * intros y. rewrite Hpods. case_bool_decide; [done|]. rewrite (frame_PodIDs y Hf), Hpd1.
        by rewrite bool_decide_eq_false_2.
      * right. split; [done|]. specialize (Hpd1 x). rewrite bool_decide_eq_true_2 in Hpd1 by done. rewrite <- Hpd1.
        intros pod. by apply ContainerCount_zero.
  - set (m := Z.max 1 _). assert (0 ≤ m < 2 ^ 63) as Hm.
    { unfold m. pose proof (requested_lt (bln p1 x)). lia. }
    destruct (good_resize E cch allowed p1 [] x m Hg1 Hx1 Hm) as (p2 & Hg2 & Hf & Hres).
    assert ((resizeBalloon E cch x m p1).1 = p2 ∧ ((resizeBalloon E cch x m p1).2 = Ok tt ∨
      (resizeBalloon E cch x m p1).2 = Err ErrOther)) as [-> Hr2]. { destruct Hres as [(-> & _)|(-> & _)]; auto. }
    split_and!; [by apply Hpol|done|by rewrite (frame_balloons Hf), Hb1|by rewrite (frame_balloons Hf), Hb1|].
    eexists. split; [|left; split; [by rewrite (frame_balloons Hf), Hb1|reflexivity]].
    intros y. by rewrite (frame_PodIDs y Hf), Hpd1.
Qed.
End one.
End requests.
