(* ===== verification/BlnRefine.v ===== *)
(** * The balloons policy refines an assignment of containers

    The containers of all balloons are a finite map from containers to
    balloons.  AllocateResources inserts into the map and ReleaseResources
    deletes from it. *)

From Stdlib Require Import Ascii.
From S2P Require Import Prelude GoStrings Expr MemNodes MemAllocator CpuTree CpuAlloc CpuTopo CpuResizeFacts CpuSystem Kube BlnTypes BlnPin BlnHints BlnOps BlnPolicy BlnFrame BlnSize BlnInv BlnNew BlnRequests.

Open Scope Z_scope.

(** ** The abstract state *)

(** The balloon of every container, by its pod and its ID. *)
Abbreviation Assignment := (gmap (string * string) positive).

Definition key (c : Ctr) : string * string := (ct_PodID c, ct_ID c).

(** The containers of a pod in a balloon. *)
Definition containers_of (p : balloons) (x : positive) (pod : string) : list string :=
  default [] (b_PodIDs (bln p x) !! pod).

(** The state represents the map, and no container is listed twice. *)
Record represents (p : balloons) (A : Assignment) : Prop := {
  re_map : ∀ pod id x, A !! (pod, id) = Some x ↔ x ∈ p_balloons p ∧ id ∈ containers_of p x pod;
  re_nodup : ∀ x pod, x ∈ p_balloons p → NoDup (containers_of p x pod);
}.

Lemma represents_byContainer p A c : represents p A → balloonByContainer p c = A !! key c.
Proof.
  intros [Hm _]. unfold balloonByContainer. destruct (list_find _ _) as [[i x]|] eqn:Hf; cbn.
  - apply list_find_Some in Hf as (Hx & Hin & _). symmetry. apply Hm. split; [by apply list_elem_of_lookup_2 in Hx|done].
  - apply list_find_None in Hf. rewrite Forall_forall in Hf. destruct (A !! key c) as [x|] eqn:Hk; [|done].
    apply Hm in Hk as [Hx Hin]. by destruct (Hf x Hx).
Qed.

(** ** Steps that move no containers *)

Lemma represents_grows p p' A : grows p p' → represents p A → represents p' A.
Proof.
  intros [_ _ (new & Hb & Hn) Hpods] [Hm Hnd]. split.
  - intros pod id x. rewrite Hm, Hb, elem_of_app. unfold containers_of. split.
    + intros [Hx Hid]. rewrite Hpods by done. auto.
    + intros [[Hx|Hx] Hid]; [by rewrite Hpods in Hid|]. rewrite Hn in Hid by done. cbn in Hid. by apply not_elem_of_nil in Hid.
  - intros x pod. unfold containers_of. rewrite Hb. intros [Hx|Hx]%elem_of_app; [rewrite Hpods by done; by apply Hnd|].
    rewrite Hn by done. constructor.
Qed.

(** ** Requests of a balloon *)

Section requested.
Context `{GoRuntime} (cch : Cache_).

Abbreviation req := (containerRequestedMilliCpus cch).

Definition total (ids : list string) : Z := foldr (λ id s, req id + s) 0 ids.

Lemma total_app l l' : total (app l l') = total l + total l'.
Proof. unfold total. induction l as [|x l IH]; cbn; [done|]. rewrite IH. lia. Qed.

Lemma total_perm l l' : l ≡ₚ l' → total l = total l'.
Proof. unfold total. induction 1; cbn; lia. Qed.

Lemma i64_add x y : i64 (i64 x + y) = i64 (x + y).
Proof.
  unfold i64. f_equal. replace ((x + 2 ^ 63) `mod` 2 ^ 64 - 2 ^ 63 + y + 2 ^ 63) with ((x + 2 ^ 63) `mod` 2 ^ 64 + y) by lia.
  rewrite Zplus_mod_idemp_l. f_equal. lia.
Qed.

(** The sum wraps around only once it is complete. *)
Lemma requested_total b : requestedMilliCpus cch b = i64 (total (ContainerIDs b)).
Proof.
  unfold requestedMilliCpus. generalize (ContainerIDs b). intros l.
  assert (∀ n, fold_left (λ s id, i64 (s + req id)) l (i64 n) = i64 (n + total l)) as Hf.
  { unfold total. induction l as [|id l IH]; intros n; cbn; [by rewrite Z.add_0_r|]. rewrite i64_add, IH. f_equal. lia. }
  apply (Hf 0).
Qed.

Lemma ContainerIDs_perm b : ContainerIDs b ≡ₚ concat (map_to_list (b_PodIDs b)).*2.
Proof. unfold ContainerIDs. by rewrite map_range_perm. Qed.

Lemma concat_delete (m : gmap string (list string)) k :
  concat (map_to_list m).*2 ≡ₚ app (default [] (m !! k)) (concat (map_to_list (delete k m)).*2).
Proof.
  destruct (m !! k) as [ids|] eqn:Hk; cbn; [|by rewrite delete_id].
  rewrite <- (map_to_list_delete m k ids) by done. done.
Qed.

Lemma requested_with c b b' : b_PodIDs b' = with_container c (b_PodIDs b) →
  requestedMilliCpus cch b' = i64 (req (ct_ID c) + requestedMilliCpus cch b).
Proof.
  intros Hb. rewrite !requested_total, (Z.add_comm (req _)), i64_add. f_equal.
  rewrite (total_perm _ _ (ContainerIDs_perm b')), (total_perm _ _ (ContainerIDs_perm b)), Hb.
  unfold with_container. set (m := b_PodIDs b). set (k := ct_PodID c).
  rewrite (total_perm _ _ (concat_delete (<[k:=_]> m) k)), (total_perm _ _ (concat_delete m k)).
  rewrite lookup_insert_eq, delete_insert_eq. cbn [default from_option id].
  rewrite !total_app. change (total [ct_ID c]) with (req (ct_ID c) + 0). lia.
Qed.
End requested.

Section refinement.
Context `{GoRuntime} (E : Env) (allowed : CPUSet) `{!CpuService E allowed}.

Abbreviation policy_ok := (policy_ok E allowed).

(** ** Assigning and dismissing *)

Lemma represents_assign p p' A c x : represents p A → A !! key c = None → x ∈ p_balloons p →
  repods x (with_container c) p p' → represents p' (<[key c := x]> A).
Proof.
  intros [Hm Hnd] Hnone Hx [_ _ Hb _ _ _ Hpods].
  assert (∀ y pod, containers_of p' y pod =
    if bool_decide (x = y ∧ ct_PodID c = pod) then app (containers_of p y pod) [ct_ID c] else containers_of p y pod) as Hc.
  { intros y pod. unfold containers_of. rewrite Hpods. unfold with_container.
    destruct (decide (x = y)) as [<-|Hxy]; [|rewrite !bool_decide_eq_false_2 by tauto; done].
    rewrite (bool_decide_eq_true_2 (x = x)) by done. destruct (decide (ct_PodID c = pod)) as [<-|Hp].
    - by rewrite bool_decide_eq_true_2, lookup_insert_eq by done.
    - by rewrite bool_decide_eq_false_2, lookup_insert_ne by tauto. }
  assert (∀ y, y ∈ p_balloons p → ct_ID c ∉ containers_of p y (ct_PodID c)) as Hno.
  { intros y Hy Hin. assert (A !! key c = Some y) by (by apply Hm). congruence. }
  split.
  - intros pod id y. rewrite Hb, Hc. unfold key. destruct (decide ((ct_PodID c, ct_ID c) = (pod, id))) as [[= <- <-]|Hne].
    + rewrite lookup_insert_eq. split.
      * intros [= <-]. split; [done|]. rewrite bool_decide_eq_true_2 by done. apply elem_of_app. right. constructor.
      * intros [Hy Hin]. case_bool_decide as Hxy; [by destruct Hxy as [-> _]|]. by destruct (Hno y Hy).
    + rewrite lookup_insert_ne by done. rewrite Hm. case_bool_decide as Hxy; [|done]. destruct Hxy as [<- <-].
      rewrite elem_of_app, list_elem_of_singleton. split; [tauto|]. intros [? [?| ->]]; done.
  - intros y pod. rewrite Hb, Hc. intros Hy. case_bool_decide as Hxy; [|by apply Hnd]. destruct Hxy as [<- <-].
    apply NoDup_app. split; [by apply Hnd|]. split; [|apply NoDup_singleton].
    intros id Hin ->%list_elem_of_singleton. by apply (Hno x Hx).
Qed.

Lemma fits_repods p p' x f n : repods x f p p' → fits p x n → fits p' x n.
Proof.
  intros [Hl _ _ _ Hc Hfd _] Hfit.
  assert (leaves_of p' x = leaves_of p x) as Hlv. { unfold leaves_of. specialize (Hfd x). by injection Hfd as _ ->. }
  assert (∀ y, def_of p' y = def_of p y) as Hd.
  { intros y. unfold def_of. rewrite (like_def_at Hl). specialize (Hfd y). by injection Hfd as -> _. }
  destruct Hfit as [Hfit|Hfit]; [left|right].
  - unfold AvailMilliCpus in *. by rewrite Hc.
  - rewrite Hlv. intros y Hy. rewrite Hc, Hd. by apply Hfit.
Qed.

(** AllocateResources refines inserting into the assignment of containers
    to balloons.  A container that is not in a balloon yet is put into exactly
    one balloon, or the assignment stays as it is; it only stays so without an
    error if the container is to be left alone.  The balloon has CPUs for all
    its containers, or as many as its types allow for them.  The invariant of
    the policy holds again, also if there is an error. *)
Lemma allocate_refines cch c p A : policy_ok p → represents p A → A !! key c = None →
  let r := AllocateResources E cch c p in
  policy_ok r.1 ∧
  ((r.2 = Ok tt ∧ ∃ x, represents r.1 (<[key c := x]> A) ∧
      fits r.1 x (Z.max 1 (requestedMilliCpus cch (bln r.1 x)))) ∨
   (represents r.1 A ∧ (r.2 = Ok tt → r.1 = p))).
Proof.
  intros Hp HA Hnone. destruct (allocate_spec E allowed cch c p Hp) as [Hg Hr].
  destruct (AllocateResources E cch c p) as [p' [[]|e]]; cbn in *.
  - destruct Hr as [->|(p1 & p2 & x & Hgw & Hf & Hx & Hrp & Hfit)]; [split; [done|]; right; done|].
    assert (represents p2 A) as HA2. { apply (represents_grows p); [|done]. etrans; [done|by apply frame_grows]. }
    split.
    + split; [done|]. destruct Hp as [_ Hdef].
      rewrite (rp_default _ _ _ _ Hrp), (like_options (rp_like _ _ _ _ Hrp)), (frame_default Hf), (frame_options Hf).
      rewrite (gw_default _ _ Hgw), (like_options (gw_like _ _ Hgw)). done.
    + left. split; [done|]. exists x. split.
      * apply (represents_assign p2); [done..| |done]. by rewrite (frame_balloons Hf).
      * apply (fits_repods p2 p' x (with_container c)); [done|]. unfold needed in Hfit.
        pose proof (rp_pods _ _ _ _ Hrp x) as Hpx. rewrite bool_decide_eq_true_2 in Hpx by done.
        rewrite (frame_PodIDs x Hf) in Hpx. by rewrite (requested_with cch c (bln p1 x) (bln p' x) Hpx).
  - split; [by apply (policy_ok_grows E allowed p)|]. right. split; [|done]. by apply (represents_grows p).
Qed.

Lemma release_containers c p p' x f :
  (∀ y, b_PodIDs (bln p' y) = if bool_decide (x = y) then f else b_PodIDs (bln p y)) →
  (x ∈ p_balloons p' ∧ f = without_container c (b_PodIDs (bln p x))) ∨
  (f = ∅ ∧ ∀ pod, default [] (without_container c (b_PodIDs (bln p x)) !! pod) = []) →
  (∀ pod, containers_of p' x pod =
     if bool_decide (pod = ct_PodID c) then removeString (containers_of p x (ct_PodID c)) (ct_ID c)
     else containers_of p x pod) ∧
  ((x ∉ p_balloons p') → ∀ pod, containers_of p' x pod = []).
Proof.
  intros Hpods Hf.
  assert (∀ pod, default [] (without_container c (b_PodIDs (bln p x)) !! pod) =
    if bool_decide (pod = ct_PodID c) then removeString (containers_of p x (ct_PodID c)) (ct_ID c)
    else containers_of p x pod) as Hw.
  { intros pod. unfold without_container, containers_of. set (ids := removeString _ _).
    destruct (decide (pod = ct_PodID c)) as [->|Hne].
    - rewrite (bool_decide_eq_true_2 (ct_PodID c = _)) by done.
      case_bool_decide as Hids; [by rewrite lookup_delete_eq, Hids|by rewrite lookup_insert_eq].
    - rewrite (bool_decide_eq_false_2 (pod = _)) by done.
      case_bool_decide; [by rewrite lookup_delete_ne|by rewrite lookup_insert_ne]. }
  unfold containers_of at 1. setoid_rewrite Hpods. rewrite bool_decide_eq_true_2 by done.
  split.
  - intros pod. rewrite <- Hw. destruct Hf as [[_ ->]|[-> Hemp]]; [done|]. by rewrite Hemp, lookup_empty.
  - intros Hxn pod. unfold containers_of. rewrite Hpods, bool_decide_eq_true_2 by done.
    destruct Hf as [[? _]|[-> _]]; [done|]. by rewrite lookup_empty.
Qed.

(** ReleaseResources refines deleting from the assignment of containers
    to balloons: the container is in no balloon afterwards and all other
    containers stay where they are, also if resizing a balloon fails.  It never
    panics, and the invariant of the policy holds again. *)
Lemma release_refines cch c p A : policy_ok p → represents p A →
  let r := ReleaseResources E cch c p in
  policy_ok r.1 ∧ represents r.1 (delete (key c) A) ∧ (r.2 = Ok tt ∨ r.2 = Err ErrOther).
Proof.
  intros Hp HA. destruct (release_spec E allowed cch c p Hp) as (Hp' & Hr & Hrel). split; [done|]. split; [|done].
  rewrite (represents_byContainer p A c HA) in Hrel. set (p' := (ReleaseResources E cch c p).1) in *. clearbody p'.
  destruct (A !! key c) as [x|] eqn:Hk; [|by rewrite Hrel, delete_id].
  destruct Hrel as (Hsub & Hsup & f & Hpods & Hf). destruct HA as [Hm Hnd].
  assert (x ∈ p_balloons p ∧ ct_ID c ∈ containers_of p x (ct_PodID c)) as [Hx Hin] by (by apply Hm).
  pose proof (removeString_perm _ _ Hin) as Hperm. pose proof (Hnd x (ct_PodID c) Hx) as Hnd1.
  pose proof (proj1 (NoDup_Permutation_proper _ _ Hperm) Hnd1) as [Hni Hnd2]%NoDup_cons.
  assert (∀ id, id ∈ containers_of p x (ct_PodID c) ↔
    id = ct_ID c ∨ id ∈ removeString (containers_of p x (ct_PodID c)) (ct_ID c)) as Hmem.
  { intros id. rewrite <- elem_of_cons. by apply elem_of_Permutation_proper. }
  destruct (release_containers c p p' x f Hpods Hf) as [Hcx Hgone].
  assert (∀ y pod, y ≠ x → containers_of p' y pod = containers_of p y pod) as Hcy.
  { intros y pod Hy. unfold containers_of. by rewrite Hpods, bool_decide_eq_false_2. }
  assert (∀ pod id, id ∈ containers_of p' x pod ↔ id ∈ containers_of p x pod ∧ (pod, id) ≠ key c) as Hcx'.
  { intros pod id. rewrite Hcx. case_bool_decide as Hpod.
    - subst pod. rewrite (Hmem id). split.
      + intros Hid. split; [auto|]. intros [= ->]. done.
      + intros [[->|?] Hne]; [by destruct Hne|done].
    - split; [|tauto]. intros Hid. split; [done|]. by intros [= ->]. }
  split.
  - intros pod id y. rewrite lookup_delete_Some, Hm. destruct (decide (y = x)) as [->|Hy].
    + rewrite Hcx'. split; [intros (? & _ & ?); split; [|done]|intros (? & ? & ?); done].
      destruct (decide (x ∈ p_balloons p')) as [|Hxn]; [done|]. specialize (Hgone Hxn pod).
      assert (id ∈ containers_of p' x pod) as Hid by (by apply Hcx'). rewrite Hgone in Hid. by apply not_elem_of_nil in Hid.
    + rewrite Hcy by done. split; [intros (_ & ? & ?); auto|]. intros [Hyb Hid]. split; [|auto].
      intros Hkey. assert (A !! (pod, id) = Some y) by (apply Hm; auto). congruence.
  - intros y pod Hy. destruct (decide (y = x)) as [->|Hne]; [|rewrite Hcy by done; apply Hnd; auto].
    rewrite Hcx. case_bool_decide as Hpod; [by subst|by apply Hnd].
Qed.
End refinement.
