(* ===== verification/BlnSetup.v ===== *)
(** * Taking a configuration into use

    A configuration that has been validated and that [setConfig] accepts puts
    the policy into a state in which its invariant holds, with the balloons
    that must exist and no containers.  Circular components are found. *)

From Stdlib Require Import Ascii.
From S2P Require Import Prelude GoStrings Expr MemNodes MemAllocator CpuTree CpuAlloc CpuTopo CpuResizeFacts CpuSystem Kube BlnTypes BlnPin BlnHints BlnOps BlnPolicy BlnConfig BlnFrame BlnSize BlnInv BlnNew BlnRequests BlnRefine.

Open Scope string_scope.
Open Scope Z_scope.

(** ** Circular components *)

Section circular.
Context (composite : gmap string BalloonDef).

(** A composite type has a component. *)
Definition has_component (name comp : string) : Prop :=
  ∃ def, composite !! name = Some def ∧ comp ∈ d_Components def.

Definition cyclic (name : string) : Prop := ∃ x, rtc has_component name x ∧ tc has_component x x.

Abbreviation check_all depth seen := (fix check (components : list string) : res unit :=
  match components with
  | [] => Ok tt
  | comp :: components' =>
      match circularCheck depth composite comp seen with
      | Err e => Err e
      | Ok _ => check components'
      end
  end).

Lemma check_all_ok depth seen components : check_all depth seen components = Ok tt ↔
  ∀ comp, comp ∈ components → circularCheck depth composite comp seen = Ok tt.
Proof.
  induction components as [|c cs IH]; [by split; [intros _ c Hc; apply not_elem_of_nil in Hc|]|].
  destruct (circularCheck depth composite c seen) as [[]|e] eqn:Hc.
  - rewrite IH. split; [intros Hall c' [->|Hc']%elem_of_cons; auto|]. intros Hall c' Hc'. apply Hall. by constructor.
  - split; [done|]. intros Hall. specialize (Hall c ltac:(constructor)). congruence.
Qed.

Lemma check_all_err depth seen components e : check_all depth seen components = Err e →
  ∃ comp, comp ∈ components ∧ circularCheck depth composite comp seen = Err e.
Proof.
  induction components as [|c cs IH]; [done|].
  destruct (circularCheck depth composite c seen) as [[]|e'] eqn:Hc.
  - intros (c' & ? & ?)%IH. exists c'. split; [by constructor|done].
  - intros [= ->]. exists c. split; [constructor|done].
Qed.

(** Nothing that is reached from a name that is accepted has been seen, and no
    way leads in a circle. *)
Lemma circularCheck_sound depth name seen : circularCheck depth composite name seen = Ok tt →
  (∀ y, rtc has_component name y → (y ∉ seen)) ∧ ¬ cyclic name.
Proof.
  revert name seen. induction depth as [|depth IH]; intros name seen; [done|]. cbn [circularCheck].
  case_bool_decide as Hseen; [done|]. destruct (composite !! name) as [def|] eqn:Hdef.
  - rewrite check_all_ok. intros Hall.
    assert (∀ comp, has_component name comp →
      (∀ y, rtc has_component comp y → (y ∉ {[name]} ∪ seen)) ∧ ¬ cyclic comp) as Hcomp.
    { intros comp (def' & Hdef' & Hin). apply IH, Hall. congruence. }
    split.
    + intros y Hy. apply rtc_inv in Hy as [<-|(comp & Hc & Hy)]; [done|].
      destruct (Hcomp comp Hc) as [Hno _]. specialize (Hno y Hy). set_solver.
    + intros (x & Hx & Hcyc). apply rtc_inv in Hx as [<-|(comp & Hc & Hx)].
      * assert (∃ comp, has_component name comp ∧ rtc has_component comp name) as (comp & Hc & Hback).
        { inversion Hcyc; subst; [by eexists|]. eexists. split; [done|]. by apply tc_rtc. }
        destruct (Hcomp comp Hc) as [Hno _]. specialize (Hno name Hback). set_solver.
      * destruct (Hcomp comp Hc) as [_ Hnc]. apply Hnc. by exists x.
  - intros _.
    assert (∀ y, rtc has_component name y → y = name) as Honly.
    { intros y Hy. apply rtc_inv in Hy as [<-|(comp & (def & ? & _) & _)]; [done|congruence]. }
    split; [by intros y ->%Honly|]. intros (x & Hx & Hcyc). apply Honly in Hx as ->.
    inversion Hcyc as [? ? (def & ? & _)|? ? ? (def & ? & _)]; congruence.
Qed.

(** A name is refused only for a circle, and the depth is enough. *)
Lemma circularCheck_complete depth name seen e : (size composite < depth + size seen)%nat → seen ⊆ dom composite →
  (∀ s, s ∈ seen → tc has_component s name) →
  circularCheck depth composite name seen = Err e → e = ErrOther ∧ cyclic name.
Proof.
  revert name seen. induction depth as [|depth IH]; intros name seen Hdepth Hdom Hseen; cbn [circularCheck].
  { pose proof (subseteq_size _ _ Hdom) as Hsz. rewrite size_dom in Hsz. lia. }
  case_bool_decide as Hin.
  { intros [= <-]. split; [done|]. exists name. split; [done|by apply Hseen]. }
  destruct (composite !! name) as [def|] eqn:Hdef; [|done].
  intros (comp & Hc & He)%check_all_err.
  assert (has_component name comp) as Hstep by (by exists def).
  destruct (IH comp ({[name]} ∪ seen)) as [-> (x & Hx & Hcyc)]; [|..|done|].
  - rewrite size_union, size_singleton by set_solver. lia.
  - apply union_subseteq. split; [|done]. intros n ->%elem_of_singleton. by apply elem_of_dom.
  - intros s [->%elem_of_singleton|Hs]%elem_of_union; [by apply tc_once|].
    eapply tc_r; [by apply Hseen|done].
  - split; [done|]. exists x. split; [by eapply rtc_l|done].
Qed.
End circular.

(** C34: Composite balloon types are checked for circles exactly: the check of
    a type ends, it refuses the type if and only if a way along components
    from the type leads in a circle, and there is no other error. *)
Theorem circularCheck_spec composite name :
  let r := circularCheck (circular_depth composite) composite name ∅ in
  (r = Err ErrOther ↔ cyclic composite name) ∧ (r = Ok tt ↔ ¬ cyclic composite name).
Proof.
  cbn zeta. pose proof (circularCheck_sound composite (circular_depth composite) name ∅) as Hs.
  pose proof (λ e, circularCheck_complete composite (circular_depth composite) name ∅ e) as Hc.
  destruct (circularCheck _ _ _ _) as [[]|e].
  - destruct (Hs eq_refl) as [_ Hno]. by split.
  - destruct (Hc e) as [-> Hcyc]; [unfold circular_depth; lia|set_solver|set_solver|done|]. by split; split.
Qed.

(** ** Configurations *)

(** The part of a type its validity depends on. *)
Definition limits (d : BalloonDef) := (d_Name d, d_Components d, d_Loads d, d_MinCpus d, d_MaxCpus d).

(** Components are not composite themselves. *)
Definition flat (defs : list BalloonDef) : Prop :=
  ∀ d e, d ∈ defs → e ∈ defs → d_Name e ∈ d_Components d → d_Components e = [].

(** Numbers of CPUs that machines can have. *)
Definition bounded (d : BalloonDef) : Prop := 0 ≤ d_MinCpus d ≤ 2 ^ 50 ∧ 0 ≤ d_MaxCpus d ≤ 2 ^ 50.

Definition named (d : BalloonDef) := (d_Name d, d_Components d).

Lemma elem_of_fmap_eq {A B} (f : A → B) (l l' : list A) x : f <$> l = f <$> l' → x ∈ l → ∃ y, y ∈ l' ∧ f y = f x.
Proof.
  intros Heq Hx. assert (f x ∈ f <$> l') as (y & Hy & ?)%list_elem_of_fmap; [|by exists y].
  rewrite <- Heq. by apply list_elem_of_fmap_2.
Qed.

Lemma flat_named defs defs' : named <$> defs' = named <$> defs → flat defs → flat defs'.
Proof.
  intros Hn Hf d e Hd He. destruct (elem_of_fmap_eq named _ _ _ Hn Hd) as (d0 & Hd0 & [= Hdn Hdc]).
  destruct (elem_of_fmap_eq named _ _ _ Hn He) as (e0 & He0 & [= Hen Hec]).
  rewrite <- Hec, <- Hen, <- Hdc. by apply Hf.
Qed.

Lemma limits_named (defs defs' : list BalloonDef) : limits <$> defs' = limits <$> defs → named <$> defs' = named <$> defs.
Proof.
  intros Hl. apply (f_equal (fmap (λ x : string * list string * list string * Z * Z, x.1.1.1))) in Hl.
  by rewrite <- !list_fmap_compose in Hl.
Qed.

Lemma limits_Forall P (defs defs' : list BalloonDef) : (∀ d d', limits d = limits d' → P d → P d') →
  limits <$> defs' = limits <$> defs → Forall P defs → Forall P defs'.
Proof.
  rewrite !Forall_forall. intros HP Hl Hd d' Hd'. destruct (elem_of_fmap_eq limits _ _ _ Hl Hd') as (d & Hin & Heq). eauto.
Qed.

Lemma map_reserved_named f defs : (∀ d, named (f d) = named d) → named <$> map_reserved f defs = named <$> defs.
Proof.
  intros Hf. unfold map_reserved. rewrite <- list_fmap_compose. apply list_fmap_ext. intros _ d _. cbn.
  case_bool_decide; [apply Hf|done].
Qed.

Lemma map_reserved_Forall P f defs : (∀ d, P d → P (f d)) → Forall P defs → Forall P (map_reserved f defs).
Proof. intros Hf Hd. unfold map_reserved. apply Forall_fmap. eapply Forall_impl; [done|]. intros d Hp. cbn. case_bool_decide; auto. Qed.

Lemma add_builtin_elem defs d : d ∈ add_builtin defs →
  d ∈ defs ∨ (∃ name min max, d = implicit_def name min max).
Proof.
  unfold add_builtin. intros Hd.
  assert (d ∈ (if bool_decide (reservedBalloonDefName ∈ d_Name <$> defs) then defs
               else implicit_def reservedBalloonDefName 1 0 :: defs) → d ∈ defs ∨ ∃ name min max, d = implicit_def name min max) as H1.
  { clear Hd. case_bool_decide; [by left|]. intros [->|?]%elem_of_cons; [right; eauto|by left]. }
  destruct (bool_decide (defaultBalloonDefName ∈ _)); [auto|]. apply elem_of_app in Hd as [Hd|Hd]; [auto|].
  apply list_elem_of_singleton in Hd as ->. right; eauto.
Qed.

Lemma add_builtin_bounded defs : Forall bounded defs → Forall bounded (add_builtin defs).
Proof.
  rewrite !Forall_forall. intros Hb d [Hd|(name & min & max & ->)]%add_builtin_elem; [auto|]. unfold bounded. cbn. lia.
Qed.

Lemma add_builtin_flat defs : flat defs → flat (add_builtin defs).
Proof.
  intros Hf d e [Hd|(name & min & max & ->)]%add_builtin_elem [He|(name' & min' & max' & ->)]%add_builtin_elem; [|done| |done].
  - by apply Hf.
  - cbn. by intros ?%not_elem_of_nil.
Qed.

Lemma fillBuiltin_spec `{GoRuntime} (E : Env) p o defs defs' reserved :
  (∀ a q, Get (o_ReservedResources o) = AmountQuantity a → e_ParseQuantity E a = Some q → 0 ≤ q ≤ 2 ^ 50) →
  flat defs → Forall bounded defs → fillBuiltinBalloonDefs E p o defs = (defs', reserved, Ok tt) →
  flat defs' ∧ Forall bounded defs'.
Proof.
  intros Hq Hfl Hb. unfold fillBuiltinBalloonDefs.
  pose proof (add_builtin_flat _ Hfl) as Hfl1. pose proof (add_builtin_bounded _ Hb) as Hb1.
  set (defs1 := add_builtin defs) in *. clearbody defs1.
  assert (∀ f, (∀ d, named (f d) = named d) → (∀ d, bounded d → bounded (f d)) → ∀ l,
    flat l ∧ Forall bounded l → flat (map_reserved f l) ∧ Forall bounded (map_reserved f l)) as Hmap.
  { intros f Hn Hf l [? ?]. split; [apply (flat_named l); [by apply map_reserved_named|done]|by apply map_reserved_Forall]. }
  assert (∀ cset, (if bool_decide (csize (cset ∖ p_allowed p) > 0) then (defs1, p_reserved p, Err ErrOther)
     else (map_reserved (λ d, set_reserved
        (app (d_Namespaces d) (NamespaceSystem :: default [] (o_ReservedPoolNamespaces o))) (d_MinCpus d)
        (d_AllocatorPriority d) 1 1 (d_PreferCloseToDevices d) d)
        (map_reserved (minCpus_of_reserved (p_allowed p ∩ cset)) defs1), p_allowed p ∩ cset, Ok tt))
     = (defs', reserved, Ok tt) → flat defs' ∧ Forall bounded defs') as Hcset.
  { intros cset. case_bool_decide; [done|]. intros [= <- _]. apply Hmap; [done|done|]. apply Hmap; [done| |done].
    intros d [? ?]. unfold bounded, minCpus_of_reserved. cbn. pose proof (csize_nonneg (p_allowed p ∩ cset)).
    case_bool_decide; lia. }
  destruct (Get (o_ReservedResources o)) as [|a|a|a] eqn:Hget.
  - intros [= <- _]. apply Hmap; done.
  - destruct (e_Parse E a); [apply Hcset|done].
  - destruct (e_Parse E a); [apply Hcset|done].
  - destruct (e_ParseQuantity E a) as [q|] eqn:Hpq; [|done]. specialize (Hq a q eq_refl Hpq).
    destruct (existsb _ _); [done|]. intros [= <- _]. apply Hmap; [done|done|]. apply Hmap; [done| |done].
    intros d [? ?]. unfold bounded. cbn. case_bool_decide; [|done]. split; [|done].
    change (Z.quot (i64 (q + 999)) 1000) with (full_cpus q). pose proof (full_cpus_ceil q ltac:(lia)). lia.
Qed.

(** Filling in devices keeps the limits of the types, and cannot fail if the
    loads have classes. *)
Lemma fillFar_spec loadVirtDev isolated defs :
  Forall (λ d, Forall (λ load, is_Some (loadVirtDev !! load)) (d_Loads d)) defs →
  ∃ defs', fillFarFromDevices loadVirtDev isolated (fillCloseToDevices defs) = Ok defs' ∧ limits <$> defs' = limits <$> defs.
Proof.
  unfold fillFarFromDevices, fillCloseToDevices. generalize (fill_close <$> defs) at 1. intros all.
  induction 1 as [|d defs Hd _ (defs' & He & Hl)]; [by exists []|]. cbn [fmap list_fmap fill_far_all].
  unfold fill_far at 1. change (d_Loads (fill_close d)) with (d_Loads d).
  apply mapM_is_Some_2 in Hd as [virtDevs Hv]. rewrite Hv. cbn. rewrite He. cbn. eexists. split; [done|]. cbn. by rewrite Hl.
Qed.

Lemma fillLoadVirtDevices_some loadClasses load : load ∈ lc_Name <$> loadClasses →
  is_Some (fillLoadVirtDevices loadClasses !! load).
Proof.
  unfold fillLoadVirtDevices.
  assert (∀ m : gmap string loadClassVirtDev, load ∈ lc_Name <$> loadClasses ∨ is_Some (m !! load) →
    is_Some (fold_left (λ m lc, <[lc_Name lc := MkVirtDev (append "loaded-" (level_String (lc_Level lc))) (lc_Level lc)
       (lc_OverloadsLevelInBalloon lc)]> m) loadClasses m !! load)) as Hf; [|auto].
  induction loadClasses as [|lc lcs IH]; intros m Hm; cbn; [by destruct Hm as [?%not_elem_of_nil|]|].
  apply IH. destruct (decide (lc_Name lc = load)) as [<-|Hne]; [right; rewrite lookup_insert_eq; eauto|].
  rewrite lookup_insert_ne by done. cbn in Hm. rewrite elem_of_cons in Hm. naive_solver.
Qed.

Lemma validate_defs_spec defs seen composite sc : validate_defs defs seen composite = Ok sc →
  Forall (λ d, d_MaxCpus d ≠ 0 → d_MinCpus d ≤ d_MaxCpus d) defs.
Proof.
  revert seen composite. induction defs as [|d defs IH]; intros seen composite; cbn [validate_defs]; [constructor|].
  case_bool_decide; [done|]. case_bool_decide; [done|].
  destruct (validate_def d) as [[]|e] eqn:Hd; [|done]. cbn. intros Hrest. constructor; [|by eapply IH].
  clear Hrest. unfold validate_def, NoLimit in Hd. case_bool_decide as Hlim; [done|]. lia.
Qed.

Lemma validateConfig_spec `{GoRuntime} o defs : validateConfig o defs = Ok tt →
  Forall (λ d, d_MaxCpus d ≠ 0 → d_MinCpus d ≤ d_MaxCpus d) defs ∧
  Forall (λ d, Forall (λ load, is_Some (fillLoadVirtDevices (o_LoadClasses o) !! load)) (d_Loads d)) defs.
Proof.
  unfold validateConfig. destruct (validate_defs defs ∅ ∅) as [sc|e] eqn:Hdefs; [|done]. cbn.
  destruct (validate_loads _) as [[]|e]; [|done]. cbn. case_bool_decide as Hloads; [|done]. intros _.
  split; [by eapply validate_defs_spec|]. rewrite !Forall_forall in *. intros d Hd. rewrite Forall_forall. intros load Hl.
  apply fillLoadVirtDevices_some, Hloads. apply elem_of_concat_map. eauto.
Qed.

Lemma validateConfig_classes `{GoRuntime} o defs : validateConfig o defs = Ok tt →
  ∃ names, ValidateCPUClasses (o_CPUClasses o) = Ok names.
Proof.
  unfold validateConfig. destruct (validate_defs defs ∅ ∅) as [sc|e]; [|done]. cbn.
  destruct (validate_loads _) as [[]|e]; [|done]. cbn. case_bool_decide; [|done]. case_bool_decide; [|done].
  destruct (ValidateCPUClasses _) as [names|e]; [eauto|done].
Qed.

(** The types of a configuration in the heap. *)
Lemma add_defs_spec defs next heap : let '(heap', ptrs, next') := add_defs defs next heap in
  Forall2 (λ ptr d, heap' !! ptr = Some d) ptrs defs ∧ NoDup ptrs ∧
  Forall (λ ptr, (next ≤ ptr)%positive) ptrs ∧ ∀ x, (x < next)%positive → heap' !! x = heap !! x.
Proof.
  revert next heap. induction defs as [|d defs IH]; intros next heap; cbn; [split_and!; [constructor|constructor|constructor|done]|].
  specialize (IH (Pos.succ next) (<[next := d]> heap)). destruct (add_defs defs _ _) as [[heap' ptrs] next'].
  destruct IH as (H2 & Hnd & Hge & Hold). rewrite Forall_forall in Hge. split_and!.
  - constructor; [|done]. rewrite Hold by lia. apply lookup_insert_eq.
  - constructor; [|done]. intros Hin%Hge. lia.
  - constructor; [lia|]. apply Forall_forall. intros x Hx%Hge. lia.
  - intros x Hx. rewrite Hold by lia. rewrite lookup_insert_ne by lia. done.
Qed.

Lemma with_bpoptions_spec o defs p : let p' := with_bpoptions o defs p in
  Forall2 (λ ptr d, def_at p' ptr = d) (o_BalloonDefs (p_bpoptions p')) defs ∧ NoDup (o_BalloonDefs (p_bpoptions p')) ∧
  p_allowed p' = p_allowed p ∧ p_loadVirtDev p' = p_loadVirtDev p.
Proof.
  cbn zeta. unfold with_bpoptions. pose proof (add_defs_spec defs (p_next p) (p_defs p)) as Hadd.
  destruct (add_defs _ _ _) as [[heap ptrs] next]. destruct Hadd as (H2 & Hnd & _ & _). cbn. split_and!; [|done..].
  eapply Forall2_impl; [exact H2|]. intros ptr d Hp. unfold def_at. cbn. by rewrite Hp.
Qed.

Lemma conf_ok_with o defs p : flat defs → Forall bounded defs →
  Forall (λ d, d_MaxCpus d ≠ 0 → d_MinCpus d ≤ d_MaxCpus d) defs →
  Forall (λ d, Forall (λ load, is_Some (p_loadVirtDev p !! load)) (d_Loads d)) defs →
  conf_ok (with_bpoptions o defs p).
Proof.
  rewrite !Forall_forall. intros Hfl Hb Hlim Hloads d Hd.
  destruct (with_bpoptions_spec o defs p) as (H2 & _ & _ & Hl). set (p' := with_bpoptions o defs p) in *. clearbody p'.
  assert (∀ d, d ∈ o_BalloonDefs (p_bpoptions p') → def_at p' d ∈ defs) as Hin.
  { intros d' (i & Hi)%list_elem_of_lookup_1. destruct (Forall2_lookup_l _ _ _ _ _ H2 Hi) as (D & HD & <-).
    by apply list_elem_of_lookup_2 in HD. }
  pose proof (Hin d Hd) as HD. split_and!.
  - rewrite Hl. by apply Hloads.
  - apply (Hb _ HD).
  - apply (Hb _ HD).
  - intros Hmax. apply Hlim; [done|lia].
  - intros comp c Hcomp [Hc Hname]%balloonDefByName_elem. subst comp. by apply (Hfl (def_at p' d)); [|apply Hin|].
Qed.

(** ** Balloons that must exist *)

Section setup.
Context `{GoRuntime} (E : Env) (cch : Cache_) (allowed : CPUSet) `{!CpuService E allowed}.

Abbreviation good := (good E allowed).
Abbreviation policy_ok := (policy_ok E allowed).

(** Without balloons all CPUs are free. *)
Lemma good_empty p : conf_ok p → p_allowed p = allowed → p_balloons p = [] → p_freeCpus p = p_allowed p → good p [].
Proof.
  intros Hc Ha Hb Hf. split; [|split]; rewrite ?Hb; [|intros x Hx; by apply not_elem_of_nil in Hx..].
  split; [done|done|split|constructor|]; cbn.
  - intros y Hy. by apply not_elem_of_nil in Hy.
  - intros y z Hy. by apply not_elem_of_nil in Hy.
  - intros y Hy. by apply not_elem_of_nil in Hy.
  - intros c. rewrite Hf. split; [by left|]. intros [?|(y & Hy & _)]; [done|by apply not_elem_of_nil in Hy].
  - intros x Hx. by apply not_elem_of_nil in Hx.
Qed.

(** The number of balloons of a type. *)
Definition count_of (p : balloons) (d : positive) : nat := length (balloonsByDef p d).

(** Balloons are added to those of the policy, [n d] of a type [d]. *)
Record adds (n : positive → nat) (p : balloons) (r : balloons * res unit) : Prop := {
  ad_good : good r.1 [];
  ad_grows : grows p r.1;
  ad_count : r.2 = Ok tt → ∀ d, count_of r.1 d = (count_of p d + n d)%nat;
  ad_res : r.2 = Ok tt ∨ r.2 = Err ErrOther;
}.

Abbreviation of_def p d := (λ x, bool_decide (b_Def (bln p x) = d)).

Lemma balloonsByFunc_ext l f g : (∀ x, x ∈ l → f x = g x) → balloonsByFunc l f = balloonsByFunc l g.
Proof.
  unfold balloonsByFunc. induction l as [|x l IH]; intros Hfg; [done|]. rewrite !filter_cons, (Hfg x) by constructor.
  rewrite IH; [done|]. intros y Hy. apply Hfg. by constructor.
Qed.

Lemma newBalloon_adds d p : good p [] → d ∈ o_BalloonDefs (p_bpoptions p) →
  adds (λ d', if bool_decide (d = d') then 1%nat else O) p
    (match newBalloon E cch d false None p with
     | (p, Err e) => (p, Err e)
     | (p, Ok x) => (with_balloons (app (p_balloons p) [x]) p, Ok tt)
     end).
Proof.
  intros Hg Hd. destruct (newBalloon_spec E cch allowed p [] d false None Hg Hd) as [[He Hr] _].
  destruct (newBalloon E cch d false None p) as [p1 [x|e]]; cbn in *.
  - destruct Hr as (Hg1 & Hx & HxD & Hpods & _). destruct (good_append E allowed x p1 Hg1 Hpods) as [Hg2 Hgw].
    split; [done| | |by left]; cbn [fst snd].
    + etrans; [|exact Hgw]. by apply (extends_grows E allowed p _ []).
    + intros _ d'. unfold count_of, balloonsByDef. cbn [p_balloons with_balloons].
      rewrite (ex_balloons _ _ He). unfold balloonsByFunc. rewrite filter_app, length_app. f_equal.
      * f_equal. apply (balloonsByFunc_ext _ (of_def _ d') (of_def p d')). intros y Hy.
        change (bln (with_balloons _ p1) y) with (bln p1 y). rewrite (like_Def (ex_like _ _ He) y); [done|].
        apply (good_next E allowed p []); [done|]. by rewrite app_nil_r.
      * rewrite filter_cons, filter_nil. change (bln (with_balloons _ p1) x) with (bln p1 x). rewrite HxD.
        case_bool_decide; by rewrite ?decide_True, ?decide_False by done.
  - destruct Hr as [-> Hg1]. split; [done| |done|by right]. by apply (extends_grows E allowed p _ []).
Qed.

Lemma adds_trans n n' p r f : adds n p r → (∀ p', r = (p', Ok tt) → adds n' p' (f p')) →
  adds (λ d, n d + n' d)%nat p (match r with (p', Ok _) => f p' | (p', Err e) => (p', Err e) end).
Proof.
  intros [G1 W1 C1 R1] H2. destruct r as [p' [[]|e]]; cbn in *.
  - destruct (H2 p' eq_refl) as [G2 W2 C2 R2]. split; [done|by etrans| |done].
    intros Ho d. rewrite C2, C1 by done. lia.
  - split; [done|done|done|]. by destruct R1 as [|[= ->]]; [|right].
Qed.

Lemma adds_none p : good p [] → adds (λ _, O) p (p, Ok tt).
Proof. intros Hg. split; [done|done|cbn; intros; lia|by left]. Qed.

Lemma adds_ext n n' p r : (∀ d, n d = n' d) → adds n p r → adds n' p r.
Proof. intros Hn [G W C R]. split; [done..| |done]. intros Ho d. rewrite C, Hn; done. Qed.

Lemma apply_balloon_def_adds k d p : good p [] → d ∈ o_BalloonDefs (p_bpoptions p) →
  adds (λ d', if bool_decide (d = d') then k else O) p (apply_balloon_def E cch k d p).
Proof.
  revert p. induction k as [|k IH]; intros p Hg Hd; cbn [apply_balloon_def].
  { eapply adds_ext; [|by apply adds_none]. intros d'. by case_bool_decide. }
  pose proof (newBalloon_adds d p Hg Hd) as Hnew.
  pose proof (adds_trans _ (λ d', if bool_decide (d = d') then k else O) _ _ (apply_balloon_def E cch k d) Hnew) as Ht.
  eapply (adds_ext _ _ p) in Ht.
  - destruct (newBalloon E cch d false None p) as [p1 [x|e]]; exact Ht.
  - intros d'. cbn. case_bool_decide; lia.
  - intros p' Hp'. rewrite Hp' in Hnew. apply IH; [apply Hnew|].
    pose proof (gw_like _ _ (ad_grows _ _ _ Hnew)) as Hl. cbn in Hl. by rewrite (like_options Hl).
Qed.

(** The balloons of the types of a list. *)
Fixpoint sum_of (min : positive → Z) (defs : list positive) (d : positive) : nat :=
  match defs with
  | [] => O
  | d' :: defs' => ((if bool_decide (d' = d) then Z.to_nat (min d') else O) + sum_of min defs' d)%nat
  end.

Lemma sum_of_once min defs d : NoDup defs → d ∈ defs → sum_of min defs d = Z.to_nat (min d).
Proof.
  assert (∀ l, (d ∉ l) → sum_of min l d = O) as Hno.
  { induction l as [|d' l IH]; [done|]. intros [Hne Hni]%not_elem_of_cons. cbn. rewrite IH by done.
    by rewrite bool_decide_eq_false_2 by congruence. }
  induction 1 as [|d' l Hd' Hl IH]; [by intros ?%not_elem_of_nil|]. intros [->|Hd]%elem_of_cons; cbn.
  - rewrite bool_decide_eq_true_2, Hno by done. lia.
  - rewrite IH by done. rewrite bool_decide_eq_false_2; [done|congruence].
Qed.

Lemma apply_defs_adds defs p : good p [] → (∀ d, d ∈ defs → d ∈ o_BalloonDefs (p_bpoptions p)) →
  adds (sum_of (λ d, d_MinBalloons (def_at p d)) defs) p (apply_defs E cch defs p).
Proof.
  revert p. induction defs as [|d defs IH]; intros p Hg Hd; cbn [apply_defs]; [by apply adds_none|].
  assert (adds (λ d', if bool_decide (d = d') then Z.to_nat (d_MinBalloons (def_at p d)) else O) p
    (applyBalloonDef E cch d p)) as H1 by (apply apply_balloon_def_adds; [done|]; apply Hd; constructor).
  apply (adds_trans _ (sum_of (λ d, d_MinBalloons (def_at p d)) defs) _ _ (apply_defs E cch defs) H1).
  intros p' Hp'. rewrite Hp' in H1. pose proof (gw_like _ _ (ad_grows _ _ _ H1)) as Hl. cbn in Hl.
  assert (∀ d, def_at p d = def_at p' d) as Hdef by (intros d'; by rewrite (like_def_at Hl)).
  eapply adds_ext; [|apply IH; [apply H1|]].
  - intros d'. clear -Hdef. induction defs as [|d defs IH]; [done|]. cbn. by rewrite IH, Hdef.
  - intros d' Hd'. rewrite (like_options Hl). apply Hd. by constructor.
Qed.

(** Sorting by priority keeps all types. *)
Lemma by_priority_perm p defs : by_priority p defs ≡ₚ defs.
Proof.
  unfold by_priority. cbn [fmap list_fmap concat]. rewrite app_nil_r.
  induction defs as [|d defs IH]; [done|]. rewrite !filter_cons.
  assert (∀ l1 l2, app l1 l2 ≡ₚ defs → app l1 (d :: l2) ≡ₚ d :: defs) as Hmid.
  { intros l1 l2 <-. by rewrite Permutation_middle. }
  destruct (prio_Value _); repeat (case_decide; try done; []); cbn [app].
  - by rewrite IH.
  - by apply Hmid.
  - rewrite (assoc_L app). apply Hmid. by rewrite <- (assoc_L app).
  - rewrite !(assoc_L app). apply Hmid. by rewrite <- !(assoc_L app).
Qed.

Lemma represents_empty p : p_balloons p = [] → represents p ∅.
Proof.
  intros Hb. split.
  - intros pod id x. rewrite lookup_empty, Hb. split; [done|]. by intros [?%not_elem_of_nil _].
  - intros x pod. rewrite Hb. by intros ?%not_elem_of_nil.
Qed.

Lemma frame_count p p' d : frame p p' → count_of p' d = count_of p d.
Proof.
  intros Hf. unfold count_of, balloonsByDef. rewrite (frame_balloons Hf). f_equal.
  apply balloonsByFunc_ext. intros x _. by rewrite (frame_Def x Hf).
Qed.

(** What a configuration in use looks like: no containers, and the balloons
    that must exist. *)
Record started (p : balloons) : Prop := {
  st_ok : policy_ok p;
  st_empty : represents p ∅;
  st_count : ∀ d, d ∈ o_BalloonDefs (p_bpoptions p) → count_of p d = Z.to_nat (d_MinBalloons (def_at p d));
}.

Lemma started_frame p p' : frame p p' → good p' [] → started p → started p'.
Proof.
  intros Hf Hg [[_ Hdef] He Hc]. split.
  - split; [done|]. by rewrite (frame_default Hf), (frame_options Hf).
  - apply (represents_grows p); [by apply frame_grows|done].
  - intros d. rewrite (frame_options Hf), (frame_count p p' d Hf), (frame_def_at d Hf). apply Hc.
Qed.

Lemma started_quiet p p' : quiet p p' → started p → started p'.
Proof.
  intros Hq Hs. apply (started_frame p); [by apply quiet_frame| |done].
  apply (good_quiet E allowed p); [done|apply Hs].
Qed.

Lemma start_balloons_spec p : conf_ok p → p_allowed p = allowed → NoDup (o_BalloonDefs (p_bpoptions p)) →
  (start_balloons E cch p).2 = Ok tt → started (start_balloons E cch p).1.
Proof.
  intros Hc Ha Hnd. unfold start_balloons.
  set (p1 := with_freeCpus _ _). set (defs := o_BalloonDefs (p_bpoptions p)) in *.
  destruct (newAllocator _) as [[malloc ?]|e]; [|done].
  set (p2 := with_memAllocator malloc p1).
  assert (good p2 []) as Hg2 by (by apply good_empty).
  change (o_BalloonDefs (p_bpoptions p2)) with defs.
  pose proof (apply_defs_adds (by_priority p2 defs) p2 Hg2) as Hadd.
  destruct (apply_defs E cch (by_priority p2 defs) p2) as [p3 [[]|e]]; [|done].
  destruct Hadd as [Hg3 Hgw3 Hcnt _]; [by intros d; rewrite by_priority_perm|]. cbn [fst snd] in Hg3, Hgw3, Hcnt.
  assert (started p3) as Hs3.
  { pose proof (gw_like _ _ Hgw3) as Hl. split.
    - split; [done|]. intros d. rewrite (gw_default _ _ Hgw3), (like_options Hl). cbn.
      intros Hd%balloonDefByName_elem. apply Hd.
    - apply (represents_grows p2); [done|]. by apply represents_empty.
    - intros d. rewrite (like_options Hl), (like_def_at Hl). intros Hd. rewrite Hcnt by done.
      change (count_of p2 d) with O. rewrite Nat.add_0_l, sum_of_once; [done| |]; by rewrite by_priority_perm. }
  assert (started (with_ifreeCpus (p_freeCpus p3) p3)) as Hs4 by (by apply (started_quiet p3)).
  set (p4 := with_ifreeCpus _ p3) in *.
  pose proof (shareIdleCpus_shares E (p_freeCpus p4) ∅ p4) as Hsh.
  destruct (shareIdleCpus E (p_freeCpus p4) ∅ p4) as [p5 blns]. cbn [fst] in Hsh. intros _. cbn [fst].
  apply (started_quiet p5); [|apply (started_frame p4); [apply Hsh| |done]].
  - etrans; [apply updatePinning_quiet|]. etrans; [apply UseClass_quiet|]. apply quiet_fold.
    intros q x. apply useCpuClass_quiet.
  - apply (good_shares E allowed p4 p5 [] (p_freeCpus p4) ∅); [apply Hs4|done..].
Qed.

(** What a configuration is to be like. *)
Record config_ok (o : BalloonsOptions) (defs : list BalloonDef) : Prop := {
  cf_flat : flat defs;
  cf_bounded : Forall bounded defs;
  cf_quantity a q : Get (o_ReservedResources o) = AmountQuantity a → e_ParseQuantity E a = Some q → 0 ≤ q ≤ 2 ^ 50;
}.

(** What setConfig hands over to the creation of balloons. *)
Record prepared (o : BalloonsOptions) (p q : balloons) : Prop := {
  pr_conf : conf_ok q;
  pr_allowed : p_allowed q = allowed;
  pr_nodup : NoDup (o_BalloonDefs (p_bpoptions q));
  pr_uses : p_uses q = p_uses p;
  pr_classes : o_CPUClasses (p_bpoptions q) = o_CPUClasses o ∧ ∃ names, ValidateCPUClasses (o_CPUClasses o) = Ok names;
}.

Lemma with_bpoptions_uses o defs p :
  p_uses (with_bpoptions o defs p) = p_uses p ∧ o_CPUClasses (p_bpoptions (with_bpoptions o defs p)) = o_CPUClasses o.
Proof. unfold with_bpoptions. by destruct (add_defs _ _ _) as [[heap ptrs] next]. Qed.

Lemma setConfig_prepares o defs p available : config_ok o defs → available_cpus E o = Ok available →
  available ∩ ts_OnlineCPUs (e_System E) = allowed →
  (setConfig E cch o defs p).2 = Ok tt → ∃ q, setConfig E cch o defs p = start_balloons E cch q ∧ prepared o p q.
Proof.
  intros [Hfl Hb Hq] Hav Hall. unfold setConfig. rewrite Hav, Hall.
  set (p1 := with_allowed allowed p). set (o1 := setOmittedDefaults o).
  destruct (_ || _); [done|].
  destruct (fillBuiltinBalloonDefs E p1 o1 defs) as [[defs1 reserved] [[]|e]] eqn:Hfill; [|done].
  apply fillBuiltin_spec in Hfill as [Hfl1 Hb1]; [|done..].
  destruct (validateConfig o1 defs1) as [[]|e] eqn:Hval; [|done].
  pose proof (validateConfig_classes _ _ Hval) as Hcls. apply validateConfig_spec in Hval as [Hlim Hloads].
  destruct (negb _); [done|]. set (lv := fillLoadVirtDevices (o_LoadClasses o1)) in *.
  destruct (fillFar_spec lv (e_Isolated E) defs1 Hloads) as (defs2 & -> & Hl2).
  set (p2 := with_loadVirtDev lv _). intros _. eexists. split; [reflexivity|].
  destruct (with_bpoptions_spec o1 defs2 p2) as (_ & Hnd & Ha & _).
  destruct (with_bpoptions_uses o1 defs2 p2) as [Hu Hc]. split; [|done..].
  apply conf_ok_with.
  - apply (flat_named defs1); [by apply limits_named|done].
  - apply (limits_Forall bounded defs1); [by unfold bounded; intros ? ? [= _ _ _ -> ->]|done..].
  - apply (limits_Forall _ defs1); [by intros ? ? [= _ _ _ -> ->]|done..].
  - apply (limits_Forall _ defs1); [by intros ? ? [= _ _ -> _ _]|done..].
Qed.

Lemma setConfig_started o defs p available : config_ok o defs → available_cpus E o = Ok available →
  available ∩ ts_OnlineCPUs (e_System E) = allowed →
  (setConfig E cch o defs p).2 = Ok tt → started (setConfig E cch o defs p).1.
Proof.
  intros Hc Hav Hall Hok. destruct (setConfig_prepares o defs p available Hc Hav Hall Hok) as (q & Hr & Hq).
  rewrite Hr in Hok |- *. by apply start_balloons_spec; [apply Hq..|].
Qed.
End setup.
