(* ===== verification/BlnReach.v ===== *)
(** * Reachable states of the balloons policy

    Any sequence of requests after a configuration has been taken into use:
    the CPUs stay shared out between balloons, within the limits of their
    types, and every container is in one balloon at most.  Synchronisation is
    such a sequence. *)

From Stdlib Require Import Ascii.
From S2P Require Import Prelude GoStrings Expr MemNodes MemAllocator MemWitness CpuTree CpuAlloc CpuTopo CpuResizeFacts CpuSystem Kube BlnTypes BlnPin BlnHints BlnOps BlnPolicy BlnConfig BlnFrame BlnSize BlnInv BlnNew BlnRequests BlnRefine BlnSetup.

Open Scope string_scope.
Open Scope Z_scope.

Section reach.
Context `{GoRuntime} (E : Env) (allowed : CPUSet) `{!CpuService E allowed}.

Abbreviation policy_ok := (policy_ok E allowed).

(** ** Requests *)

(** A request, with the cache of containers at that time.  Resources are
    allocated only to containers that have none. *)
Inductive step : balloons → balloons → Prop :=
  | step_allocate cch c p : balloonByContainer p c = None → step p (AllocateResources E cch c p).1
  | step_release cch c p : step p (ReleaseResources E cch c p).1
  | step_update c p : step p (UpdateResources c p).1.

(** The invariant, and the containers in balloons. *)
Definition consistent (p : balloons) : Prop := policy_ok p ∧ ∃ A, represents p A.

Lemma allocate_consistent cch c p : balloonByContainer p c = None → consistent p →
  consistent (AllocateResources E cch c p).1.
Proof.
  intros Hn [Hp [A HA]]. rewrite (represents_byContainer p A c HA) in Hn.
  destruct (allocate_refines E allowed cch c p A Hp HA Hn) as [Hp' Hr]. split; [done|].
  destruct Hr as [(_ & x & ? & _)|[? _]]; eauto.
Qed.

Lemma release_consistent cch c p : consistent p → consistent (ReleaseResources E cch c p).1.
Proof.
  intros [Hp [A HA]]. destruct (release_refines E allowed cch c p A Hp HA) as (? & ? & _). split; eauto.
Qed.

Lemma step_consistent p p' : step p p' → consistent p → consistent p'.
Proof. destruct 1; [by apply allocate_consistent|apply release_consistent|done]. Qed.

Lemma steps_consistent p p' : rtc step p p' → consistent p → consistent p'.
Proof. induction 1; [done|]. eauto using step_consistent. Qed.

(** ** The CPUs of balloons *)

Lemma balloons_disjoint p x z : policy_ok p → x ∈ p_balloons p → z ∈ p_balloons p → x ≠ z →
  b_Cpus (bln p x) ## b_Cpus (bln p z).
Proof.
  intros [[Hok _] _] Hx Hz Hne. rewrite app_nil_r in Hok.
  rewrite (go_cpus _ _ (ok_group _ _ _ _ Hok x Hx)), (go_cpus _ _ (ok_group _ _ _ _ Hok z Hz)).
  intros c (y & Hy & Hcy)%elem_of_cpus_of (y' & Hy' & Hcy')%elem_of_cpus_of.
  destruct (decide (y = y')) as [<-|Hyy].
  - by apply (groups_disjoint p (p_balloons p) x z y (ok_nodup _ _ _ _ Hok) Hx Hz Hne).
  - apply (pt_disj _ _ _ (ok_part _ _ _ _ Hok) y y') in Hcy'; [done|apply elem_of_leaves; eauto..|done|done].
Qed.

Lemma balloons_cover p c : policy_ok p →
  c ∈ allowed ↔ c ∈ p_freeCpus p ∨ ∃ x, x ∈ p_balloons p ∧ c ∈ b_Cpus (bln p x).
Proof.
  intros [[Hok _] _]. rewrite app_nil_r in Hok. rewrite <- (ok_allowed _ _ _ _ Hok), (pt_all _ _ _ (ok_part _ _ _ _ Hok)).
  split; (intros [?|(x & Hx & Hc)]; [by left|right]).
  - apply elem_of_leaves in Hx as (z & Hz & Hx). exists z. split; [done|].
    rewrite (go_cpus _ _ (ok_group _ _ _ _ Hok z Hz)). apply elem_of_cpus_of. eauto.
  - rewrite (go_cpus _ _ (ok_group _ _ _ _ Hok x Hx)) in Hc. apply elem_of_cpus_of in Hc as (y & Hy & Hc).
    exists y. split; [|done]. apply elem_of_leaves. eauto.
Qed.

Lemma balloon_owner p x y : policy_ok p → x ∈ p_balloons p → y ∈ leaves_of p x →
  b_Cpus (bln p y) ## p_freeCpus p ∧
  d_MinCpus (def_of p y) ≤ csize (b_Cpus (bln p y)) ∧
  (0 < d_MaxCpus (def_of p y) → csize (b_Cpus (bln p y)) ≤ d_MaxCpus (def_of p y)).
Proof.
  intros [[Hok _] _] Hx Hy. rewrite app_nil_r in Hok. pose proof (ok_group _ _ _ _ Hok x Hx) as [_ _ _ [_ Hd] _ (t & Ht & Hs)].
  split; [apply (pt_free _ _ _ (ok_part _ _ _ _ Hok)), elem_of_leaves; eauto|].
  destruct (ok_conf _ _ _ _ Hok _ (Hd y Hy)) as (_ & Hmin & Hmax & _). rewrite (Hs y Hy).
  unfold def_of. pose proof (clamp_bounds (def_at p (b_Def (bln p y))) t Ht Hmax) as (? & ? & ?).
  split; [lia|done].
Qed.

(** ** Synchronisation *)

Section sync.
Context (cch : Cache_).

Lemma for_each_release cs p A : policy_ok p → represents p A →
  let r := for_each (ReleaseResources E cch) cs p in
  r.2 = Ok tt ∧ policy_ok r.1 ∧
  ∃ A', represents r.1 A' ∧ ∀ k, A' !! k = if bool_decide (k ∈ key <$> cs) then None else A !! k.
Proof.
  revert p A. induction cs as [|c cs IH]; intros p A Hp HA; cbn [for_each].
  { split_and!; [done..|]. exists A. split; [done|]. intros k. by rewrite bool_decide_eq_false_2 by apply not_elem_of_nil. }
  destruct (release_refines E allowed cch c p A Hp HA) as (Hp1 & HA1 & Hr).
  assert (∀ p1 : balloons, policy_ok p1 → represents p1 (delete (key c) A) →
    let r := for_each (ReleaseResources E cch) cs p1 in
    r.2 = Ok tt ∧ policy_ok r.1 ∧
    ∃ A', represents r.1 A' ∧ ∀ k, A' !! k = if bool_decide (k ∈ key <$> c :: cs) then None else A !! k) as Hrest.
  { intros p1 Hq1 Hq2. destruct (IH p1 _ Hq1 Hq2) as (? & ? & A' & HA' & Hk). split_and!; [done..|]. exists A'. split; [done|].
    intros k. rewrite Hk. cbn [fmap list_fmap]. destruct (decide (k ∈ key <$> cs)) as [Hin|Hni].
    - rewrite !bool_decide_eq_true_2; [done|by constructor|done].
    - rewrite (bool_decide_eq_false_2 (k ∈ key <$> cs)) by done. destruct (decide (k = key c)) as [->|Hne].
      + rewrite bool_decide_eq_true_2 by constructor. apply lookup_delete_eq.
      + rewrite bool_decide_eq_false_2 by (by rewrite elem_of_cons; intros [?|?]). by rewrite lookup_delete_ne. }
  destruct (ReleaseResources E cch c p) as [p1 [[]|e]]; cbn in *; [by apply Hrest|].
  destruct Hr as [?|[= ->]]; [done|]. cbn. by apply Hrest.
Qed.

Lemma for_each_allocate cs p A : policy_ok p → represents p A → NoDup (key <$> cs) →
  (∀ c, c ∈ cs → A !! key c = None) →
  let r := for_each (AllocateResources E cch) cs p in
  policy_ok r.1 ∧ ∃ A', represents r.1 A' ∧ ∀ k, (k ∉ key <$> cs) → A' !! k = A !! k.
Proof.
  revert p A. induction cs as [|c cs IH]; intros p A Hp HA Hnd Hnone; cbn [for_each]; [eauto|].
  cbn in Hnd. apply NoDup_cons in Hnd as [Hni Hnd].
  destruct (allocate_refines E allowed cch c p A Hp HA) as [Hp1 Hr]; [apply Hnone; constructor|].
  set (p1 := (AllocateResources E cch c p).1) in *.
  assert (∃ A1, represents p1 A1 ∧ ∀ k, k ≠ key c → A1 !! k = A !! k) as (A1 & HA1 & Hk1).
  { destruct Hr as [(_ & x & Hx & _)|[Hx _]]; [|eauto]. exists (<[key c := x]> A). split; [done|].
    intros k Hk. by rewrite lookup_insert_ne. }
  assert (let r := for_each (AllocateResources E cch) cs p1 in
    policy_ok r.1 ∧ ∃ A', represents r.1 A' ∧ ∀ k, (k ∉ key <$> c :: cs) → A' !! k = A !! k) as Hrest.
  { destruct (IH p1 A1 Hp1 HA1 Hnd) as (? & A' & HA' & Hk').
    { intros c' Hc'. rewrite Hk1; [apply Hnone; by constructor|]. intros Heq. rewrite <- Heq in Hni.
      by apply Hni, list_elem_of_fmap_2. }
    split; [done|]. exists A'. split; [done|]. intros k [Hne Hk]%not_elem_of_cons. by rewrite Hk', Hk1. }
  subst p1. destruct (AllocateResources E cch c p) as [p1 [[]|e]]; [done|]. cbn in *. destruct (crash e); [|done].
  split; [done|]. exists A1. split; [done|]. intros k [Hne _]%not_elem_of_cons. by apply Hk1.
Qed.
End sync.

(** ** What the policy promises *)


(** C29: A configuration that is accepted is taken into use: the invariant of
    the policy holds, no container is in a balloon, and every type has exactly
    the balloons that must exist. *)
Theorem setConfig_establishes o defs cch p0 available : config_ok E o defs →
  available_cpus E o = Ok available → available ∩ ts_OnlineCPUs (e_System E) = allowed →
  let r := setConfig E cch o defs p0 in
  r.2 = Ok tt → policy_ok r.1 ∧ represents r.1 ∅ ∧
    ∀ d, d ∈ o_BalloonDefs (p_bpoptions r.1) →
      length (balloonsByDef r.1 d) = Z.to_nat (d_MinBalloons (def_at r.1 d)).
Proof.
  intros Hc Hav Hall r Hr. by destruct (setConfig_started E cch allowed o defs p0 available Hc Hav Hall Hr).
Qed.

(** A balloon without components that has too few CPUs for a request has as
    many as its type allows at most. *)
Lemma fits_leaf p x m : policy_ok p → x ∈ p_balloons p → b_components (bln p x) = [] → 0 ≤ m ≤ 2 ^ 62 → fits p x m →
  m ≤ AvailMilliCpus (bln p x) ∨ 0 < d_MaxCpus (def_of p x) ∧ csize (b_Cpus (bln p x)) = d_MaxCpus (def_of p x).
Proof.
  intros [[Hok _] _] Hx Hleaf Hm [?|Hs]; [by left|]. rewrite app_nil_r in Hok.
  pose proof (go_def _ _ (ok_group _ _ _ _ Hok x Hx)) as [Hd _].
  destruct (ok_conf _ _ _ _ Hok _ Hd) as (_ & Hmin & Hmax & _). fold (def_of p x) in Hmin, Hmax.
  unfold sized in Hs. rewrite (leaf_self p x Hleaf) in Hs.
  specialize (Hs x ltac:(constructor)). change (Z.of_nat (length [x])) with 1 in Hs. rewrite Z.quot_1_r in Hs.
  pose proof (full_cpus_ceil m ltac:(lia)) as Hfull. rewrite Z.max_r in Hs by lia. unfold AvailMilliCpus. rewrite Hs.
  unfold clamp, NoLimit. repeat case_bool_decide; lia.
Qed.

(** C10: AllocateResources refines inserting into the assignment of containers
    to balloons, if components of composite types are not composite themselves.  A
    container that is not in a balloon yet is put into exactly one balloon, or the
    assignment stays as it is; it only stays so without an error if the container
    is to be left alone.  The balloon has CPUs for all its containers, or the CPUs
    the resizing that has been done for them gives: a balloon without components
    then has the maximum of its type (for requests up to 2^62 mCPU), and every component of one with components
    has the number of CPUs, within the limits of its own type, for its share,
    which is the request divided by the number of components rounded down
    ([fits]).  The invariant of the policy holds again, also if there is an
    error. *)
Theorem AllocateResources_refines cch c p A : policy_ok p → represents p A → A !! key c = None →
  let r := AllocateResources E cch c p in
  policy_ok r.1 ∧
  ((r.2 = Ok tt ∧ ∃ x, represents r.1 (<[key c := x]> A) ∧
      let m := Z.max 1 (requestedMilliCpus cch (bln r.1 x)) in
      fits r.1 x m ∧
      (b_components (bln r.1 x) = [] → m ≤ 2 ^ 62 → m ≤ AvailMilliCpus (bln r.1 x) ∨
         0 < d_MaxCpus (def_of r.1 x) ∧ csize (b_Cpus (bln r.1 x)) = d_MaxCpus (def_of r.1 x))) ∨
   (represents r.1 A ∧ (r.2 = Ok tt → r.1 = p))).
Proof.
  intros Hp HA Hn. destruct (allocate_refines E allowed cch c p A Hp HA Hn) as [Hp' Hr]. cbn zeta in *.
  split; [exact Hp'|]. destruct Hr as [(Hok & x & Hx & Hf)|Hr]; [left|by right].
  split; [exact Hok|]. exists x. split_and!; [exact Hx|exact Hf|]. intros Hleaf Hm. apply fits_leaf; [exact Hp'| |exact Hleaf|lia|exact Hf].
  apply (re_map _ _ Hx (ct_PodID c) (ct_ID c)), lookup_insert_eq.
Qed.

(** C11: ReleaseResources refines deleting from the assignment of containers
    to balloons: the container is in no balloon afterwards and all other
    containers stay where they are, also if resizing a balloon fails.  It never
    panics, and the invariant of the policy holds again. *)
Theorem ReleaseResources_refines cch c p A : policy_ok p → represents p A →
  let r := ReleaseResources E cch c p in
  policy_ok r.1 ∧ represents r.1 (delete (key c) A) ∧ (r.2 = Ok tt ∨ r.2 = Err ErrOther).
Proof. apply release_refines; apply _. Qed.

(** C28: Sync is a sequence of requests: all containers to remove are in no
    balloon afterwards, unless they are to be added again, and all containers
    that are neither removed nor added stay where they are, no matter which of
    the requests fail.  The invariant of the policy holds again. *)
Theorem Sync_refines cch add del p A : policy_ok p → represents p A → NoDup (key <$> add) →
  (∀ c, c ∈ add → A !! key c = None ∨ key c ∈ key <$> del) →
  let r := Sync E cch add del p in
  policy_ok r.1 ∧ ∃ A', represents r.1 A' ∧
    ∀ k, (k ∉ key <$> add) → A' !! k = if bool_decide (k ∈ key <$> del) then None else A !! k.
Proof.
  intros Hp HA Hnd Hadd. unfold Sync. destruct (for_each_release cch del p A Hp HA) as (Hr1 & Hp1 & A1 & HA1 & Hk1).
  destruct (for_each (ReleaseResources E cch) del p) as [p1 [[]|e]]; [|done]. cbn in Hp1, HA1.
  unfold SortContainers. set (cs := sort_slice _ add). assert (cs ≡ₚ add) as Hcs by (unfold cs, sort_slice; apply sort_func_perm). clearbody cs.
  destruct (for_each_allocate cch cs p1 A1 Hp1 HA1) as (Hp2 & A2 & HA2 & Hk2).
  - by rewrite Hcs.
  - intros c Hc. rewrite Hcs in Hc. rewrite Hk1. destruct (Hadd c Hc) as [->|Hin]; [by case_bool_decide|].
    by rewrite bool_decide_eq_true_2.
  - split; [done|]. exists A2. split; [done|]. intros k Hk. rewrite Hk2, Hk1; [done|]. by rewrite Hcs.
Qed.

(** C24: resizeBalloon is atomic if no component of a composite type is
    composite itself (resizing nested components is not).  If it succeeds, every
    balloon that owns CPUs of the balloon has the number of CPUs for its share of
    the request, the request divided by the number of components rounded down to
    mCPU and then up to CPUs, within the limits of its own type, and all other
    balloons keep their CPUs.  If it fails, every balloon keeps its CPUs and so do
    the free ones.  A balloon without components is resized exactly if there are
    enough free CPUs.  The invariant of the policy holds in any case. *)
Theorem resizeBalloon_spec cch p x m : policy_ok p → x ∈ p_balloons p → 0 ≤ m < 2 ^ 63 →
  let r := resizeBalloon E cch x m p in
  let ys := leaves_of p x in
  policy_ok r.1 ∧
  ((r.2 = Ok tt ∧ sized r.1 ys (Z.max 0 (full_cpus (Z.quot m (Z.of_nat (length ys))))) ∧
    ∀ z, z ≠ x → (z ∉ ys) → b_Cpus (bln r.1 z) = b_Cpus (bln p z)) ∨
   (r.2 = Err ErrOther ∧ p_freeCpus r.1 = p_freeCpus p ∧ ∀ z, b_Cpus (bln r.1 z) = b_Cpus (bln p z))) ∧
  (b_components (bln p x) = [] →
   (r.2 = Ok tt ↔ 0 ≤ clamp (def_of p x) (full_cpus m) ≤ csize (p_freeCpus p) + csize (b_Cpus (bln p x)))).
Proof.
  intros [Hg Hdef] Hx Hm r ys.
  destruct (good_resize E cch allowed p [] x m Hg ltac:(by rewrite app_nil_r) Hm) as (p' & Hg' & Hf & Hr). fold ys in Hr.
  assert (r.1 = p') as Hr1 by (unfold r; by destruct Hr as [(-> & _)|[-> _]]).
  split_and!.
  - rewrite Hr1. split; [done|]. by rewrite (frame_default Hf), (frame_options Hf).
  - unfold r. destruct Hr as [(-> & Hz & Hs)|(-> & Hrest)]; [left|right]; cbn; [done|].
    split_and!; [done|apply (rt_free _ _ _ Hrest)|apply (rt_cpus _ _ _ Hrest)].
  - intros Hleaf. destruct Hg as [Hok Hsh]. rewrite app_nil_r in Hok.
    destruct (resize_leaf_spec E cch [] x p (leaves p (p_balloons p)) m (ok_part _ _ _ _ Hok)) as (q & Hq); [|done|apply Hok|].
    { apply elem_of_leaves. exists x. split; [done|]. rewrite leaf_self by done. constructor. }
    unfold r, resizeBalloon. destruct (Pos.to_nat x) as [|depth] eqn:Hdepth; [lia|]. cbn [resize_balloon]. rewrite Hleaf.
    rewrite new_cpu_count_clamp in Hq. by destruct Hq as [(? & -> & _)|(? & -> & _)].
Qed.
End reach.
