(* ===== verification/BlnWitness.v ===== *)
(** * Examples of the balloons policy

    The theorems about the balloons policy applied in an example: a machine
    with eight CPUs, one of them reserved, and a type of balloons made of two
    halves. *)

From Stdlib Require Import Ascii.
From S2P Require Import Prelude GoStrings Expr MemTypes MemNodes MemAllocator MemWitness CpuTree CpuAlloc CpuTopo CpuResizeFacts CpuSystem Kube BlnTypes BlnPin BlnHints BlnOps BlnPolicy BlnConfig BlnFrame BlnSize BlnInv BlnNew BlnRequests BlnRefine BlnSetup BlnReach.

Open Scope string_scope.
Open Scope Z_scope.

#[local] Existing Instance go_default.

Definition bex_env : Env :=
  MkEnv (NewCpuTreeFromSystem ex_system) (NewCPUAllocator (Some example_system)) example_system ∅
    (λ _, None) (λ _ _ _, ([], [])) (λ _, None) ∅ ∅ ∅ Zpos ex_sys
    (λ q, if bool_decide (q = "1") then Some 1000 else None) true (λ _ _, true) (λ _, true).

Definition bex_allowed : CPUSet := list_to_set [0; 1; 2; 3; 4; 5; 6; 7].

#[local] Instance bex_service : CpuService bex_env bex_allowed.
Proof.
  apply (system_service bex_env (ts_sys example_system) (newTopologyCache example_system)).
  - reflexivity.
  - by apply newTopologyCache_ok, example_system_ok.
  - apply system_tree_wf.
  - apply (bool_decide_unpack _). by vm_compute.
Qed.

(** One CPU is reserved. *)
Definition bex_options : BalloonsOptions :=
  MkOptions None None "" None false false [] None [] [] [] None (Some "1").

Definition bex_def (name : string) (components : list string) (max maxBalloons : Z) (namespaces : list string)
    : BalloonDef :=
  MkDef name components "" namespaces "" [] max 0 [] None "" None None None "" [] 0 maxBalloons false false false
    LevelNuma [] [] false "" "" [] "".

Definition bex_defs : list BalloonDef :=
  [bex_def "half" [] 3 0 []; bex_def "pair" ["half"; "half"] 0 2 ["app"]].

Definition bex_start : balloons := MkBalloons bex_options ∅ ∅ ∅ ∅ None None [] ∅ ex_a0 ∅ ∅ 1 [] ∅.

Definition bex_pod : pod := MkPod "p1" "u1" "web" "app" "Burstable" ∅.

Definition bex_ctr : Ctr := MkCtr (MkContainer "c1" "p1" "server" ∅ ∅) (Some 2500) None None None "" 1 None.

Definition bex_cch : Cache_ := MkCache_ {["p1" := bex_pod]} ∅ ∅ {["c1" := bex_ctr]}.

Definition bex_p1 : balloons := (setConfig bex_env bex_cch bex_options bex_defs bex_start).1.

Definition bex_p2 : balloons := (AllocateResources bex_env bex_cch bex_ctr bex_p1).1.

Lemma bex_config : config_ok bex_env bex_options bex_defs.
Proof.
  split.
  - intros d e [->|[->|?%not_elem_of_nil]%elem_of_cons]%elem_of_cons
      [->|[->|?%not_elem_of_nil]%elem_of_cons]%elem_of_cons; cbn; try done.
    all: intros Hin%(bool_decide_eq_true_2 _); by vm_compute in Hin.
  - unfold bounded. repeat constructor; cbn; lia.
  - intros a q [= <-]. cbn. rewrite bool_decide_eq_true_2 by done. intros [= <-]. lia.
Qed.

Lemma bex_available : available_cpus bex_env bex_options = Ok bex_allowed ∧
  bex_allowed ∩ ts_OnlineCPUs (e_System bex_env) = bex_allowed ∧
  (setConfig bex_env bex_cch bex_options bex_defs bex_start).2 = Ok tt.
Proof. split_and!; by vm_compute. Qed.

Lemma bex_started : started bex_env bex_allowed bex_p1.
Proof.
  destruct bex_available as (Hav & Hall & Hok).
  exact (setConfig_started bex_env bex_cch bex_allowed bex_options bex_defs bex_start bex_allowed bex_config Hav Hall Hok).
Qed.

Lemma bex_running : policy_ok bex_env bex_allowed bex_p2 ∧ represents bex_p2 {[key bex_ctr := 9%positive]}.
Proof.
  destruct bex_started as [Hp He _].
  destruct (allocate_refines bex_env bex_allowed bex_cch bex_ctr bex_p1 ∅ Hp He eq_refl) as [Hp2 Hr]. split; [done|].
  destruct Hr as [(_ & x & Hx & _)|[_ Hr]].
  - rewrite insert_empty in Hx. replace 9%positive with x; [done|].
    pose proof (represents_byContainer _ _ bex_ctr Hx) as Hb. rewrite lookup_singleton_eq in Hb.
    assert (balloonByContainer (AllocateResources bex_env bex_cch bex_ctr bex_p1).1 bex_ctr = Some 9%positive) as Hc
      by (by vm_compute).
    rewrite Hb in Hc. by injection Hc.
  - exfalso. assert ((AllocateResources bex_env bex_cch bex_ctr bex_p1).2 = Ok tt) as Ho by (by vm_compute).
    apply (f_equal (λ p, length (p_balloons p))) in Hr; [|done]. revert Hr. by vm_compute.
Qed.

(** The container runs on four CPUs, two of each half. *)
Example bex_cpus : (λ x, (d_Name (def_of bex_p2 x), CPUSet_List (b_Cpus (bln bex_p2 x)))) <$> p_balloons bex_p2
  = [("reserved", [0]); ("default", []); ("pair", [2; 3; 4; 5])].
Proof. by vm_compute. Qed.

Lemma setConfig_establishes_witness : policy_ok bex_env bex_allowed bex_p1 ∧ represents bex_p1 ∅.
Proof.
  destruct bex_available as (Hav & Hall & Hok).
  destruct (setConfig_establishes bex_env bex_allowed bex_options bex_defs bex_cch bex_start bex_allowed bex_config Hav Hall Hok)
    as (Hp & He & _).
  split; assumption.
Defined.


Lemma AllocateResources_refines_witness : ∃ x,
  represents (AllocateResources bex_env bex_cch bex_ctr bex_p1).1 {[key bex_ctr := x]}.
Proof.
  destruct bex_started as [Hp He _].
  destruct (AllocateResources_refines bex_env bex_allowed bex_cch bex_ctr bex_p1 ∅ Hp He eq_refl)
    as [_ [(_ & x & Hx & _)|[_ Hr]]].
  - exists x. exact Hx.
  - exfalso. assert ((AllocateResources bex_env bex_cch bex_ctr bex_p1).2 = Ok tt) as Ho by (by vm_compute).
    apply (f_equal (λ p, length (p_balloons p))) in Hr; [|exact Ho]. revert Hr. by vm_compute.
Defined.

Lemma ReleaseResources_refines_witness : represents (ReleaseResources bex_env bex_cch bex_ctr bex_p2).1 ∅.
Proof.
  destruct bex_running as [Hp HA].
  destruct (ReleaseResources_refines bex_env bex_allowed bex_cch bex_ctr bex_p2 _ Hp HA) as (_ & Hr & _).
  rewrite delete_singleton_eq in Hr. exact Hr.
Defined.

Lemma Sync_refines_witness : ∃ A, represents (Sync bex_env bex_cch [bex_ctr] [bex_ctr] bex_p2).1 A ∧
  ∀ k, k ≠ key bex_ctr → A !! k = None.
Proof.
  destruct bex_running as [Hp HA].
  destruct (Sync_refines bex_env bex_allowed bex_cch [bex_ctr] [bex_ctr] bex_p2 _ Hp HA) as (_ & A & HA' & Hk).
  - apply NoDup_singleton.
  - intros c ->%list_elem_of_singleton. right. constructor.
  - exists A. split; [exact HA'|]. intros k Hne. rewrite Hk by (by intros ?%list_elem_of_singleton).
    rewrite bool_decide_eq_false_2 by (by intros ?%list_elem_of_singleton). by rewrite lookup_singleton_ne.
Defined.

Lemma resizeBalloon_spec_witness : policy_ok bex_env bex_allowed (resizeBalloon bex_env bex_cch 9 1000 bex_p2).1.
Proof.
  destruct bex_running as [Hp _].
  destruct (resizeBalloon_spec bex_env bex_allowed bex_cch bex_p2 9 1000 Hp) as [Hr _]; [|lia|exact Hr].
  apply (bool_decide_unpack _). by vm_compute.
Defined.
