(* ===== verification/ClsFreq.v ===== *)
(** * CPU frequency classes

    The cpufreq part of CPU classes (pkg/resmgr/cpuclass/internal/cpufreq and
    internal/types), and frequencies (pkg/apis/config/v1alpha1/resmgr/policy/
    frequency.go): resolution of symbolic frequencies, arbitration of turbo
    frequencies between the classes in use in a turbo domain, and the writer of
    frequencies, which writes only what has changed.  The allocator publishes
    definitions of classes and assignments of CPUs to its owner through the
    interface [Sink]. *)

From S2P Require Import Prelude GoStrings MemNodes CpuTree BlnTypes.

(** ** Frequencies

    A [Frequency] is a uint of kHz; the three largest values are symbolic. *)

Definition FrequencyMin : Z := 2 ^ 64 - 1 - 2.
Definition FrequencyBase : Z := 2 ^ 64 - 1 - 1.
Definition FrequencyTurbo : Z := 2 ^ 64 - 1.

Definition IsSymbolic (f : Z) : bool :=
  bool_decide (f = FrequencyMin) || bool_decide (f = FrequencyBase) || bool_decide (f = FrequencyTurbo).

Definition Resolve (f minKHz baseKHz turboKHz : Z) : Z :=
  if bool_decide (f = FrequencyMin) then minKHz
  else if bool_decide (f = FrequencyBase) then baseKHz
  else if bool_decide (f = FrequencyTurbo) then turboKHz
  else f.

Definition Frequency_String (f : Z) : string :=
  if bool_decide (f = FrequencyMin) then "min"
  else if bool_decide (f = FrequencyBase) then "base"
  else if bool_decide (f = FrequencyTurbo) then "turbo"
  else if bool_decide (f = 0) then "0"
  else if bool_decide (1000000 ≤ f) && bool_decide (f `mod` 1000000 = 0)
  then str_app (itoa (f `div` 1000000)) "GHz"
  else if bool_decide (1000 ≤ f) && bool_decide (f `mod` 1000 = 0)
  then str_app (itoa (f `div` 1000)) "MHz"
  else str_app (itoa f) "kHz".

(** ** Class definitions *)

Record ClassDef := MkClassDef {
  df_MinFreq : Z;
  df_MaxFreq : Z;
  df_EnergyPerformancePreference : Z;
  df_UncoreMinFreq : Z;
  df_UncoreMaxFreq : Z;
  df_FreqGovernor : string;
  df_DisabledCstates : list string;
}.

#[export] Instance ClassDef_eq_dec : EqDecision ClassDef.
Proof. solve_decision. Defined.

(** Comparison of two slices of strings of the same length. *)
Fixpoint same_strings (xs ys : list string) : bool :=
  match xs, ys with
  | x :: xs', y :: ys' => if bool_decide (x ≠ y) then false else same_strings xs' ys'
  | _, _ => true
  end.

Definition ClassDef_Equal (c other : ClassDef) : bool :=
  if bool_decide (df_MinFreq c ≠ df_MinFreq other) ||
     bool_decide (df_MaxFreq c ≠ df_MaxFreq other) ||
     bool_decide (df_EnergyPerformancePreference c ≠ df_EnergyPerformancePreference other) ||
     bool_decide (df_UncoreMinFreq c ≠ df_UncoreMinFreq other) ||
     bool_decide (df_UncoreMaxFreq c ≠ df_UncoreMaxFreq other) ||
     bool_decide (df_FreqGovernor c ≠ df_FreqGovernor other)
  then false
  else if bool_decide (length (df_DisabledCstates c) ≠ length (df_DisabledCstates other)) then false
  else same_strings (df_DisabledCstates c) (df_DisabledCstates other).

(** ** The system

    What CPU classes use of [sysfs.System]: CPUs and packages by ID, [None] for
    nil. *)

Record CpuInfo := MkCpuInfo {
  ci_PackageID : Z;
  ci_Online : bool;
  ci_FreqMin : Z;
  ci_FreqMax : Z;
  ci_BaseFrequency : Z;
}.

Record PkgInfo := MkPkgInfo {
  pk_DieIDs : list Z;
  pk_DieCPUSet : Z → CPUSet;
}.

Record ClsSys := MkClsSys {
  cy_CPUIDs : list Z;
  cy_CPU : Z → option CpuInfo;
  cy_Package : Z → option PkgInfo;
}.

Record platformTurboInfo := MkTurboInfo {
  baseFreqKHz : Z;
  maxTurboFreqKHz : Z;
  minFreqKHz : Z;
}.

(** The frequencies of the first CPU that is online and has a range. *)
Fixpoint first_turbo_info (sys : ClsSys) (cpuIDs : list Z) : option platformTurboInfo :=
  match cpuIDs with
  | [] => None
  | id :: cpuIDs' =>
      match cy_CPU sys id with
      | None => first_turbo_info sys cpuIDs'
      | Some cpu =>
          if negb (ci_Online cpu) then first_turbo_info sys cpuIDs'
          else if bool_decide (ci_FreqMin cpu = 0) && bool_decide (ci_FreqMax cpu = 0)
          then first_turbo_info sys cpuIDs'
          else
            let base := if bool_decide (ci_BaseFrequency cpu = 0) then ci_FreqMax cpu else ci_BaseFrequency cpu in
            Some (MkTurboInfo base (ci_FreqMax cpu) (ci_FreqMin cpu))
      end
  end.

Definition discoverTurboInfo (sys : ClsSys) : option platformTurboInfo :=
  first_turbo_info sys (cy_CPUIDs sys).

(** ** The interface to the owner of the allocator *)

Class Sink (S : Type) := {
  SetClassDef : string → ClassDef → S → S;
  AssignCPUs : string → list Z → S → S;
}.

(** ** The allocator *)

Record freqAllocator := MkFreqAllocator {
  fq_classes : list CPUClass;
  fq_classByName : gmap string CPUClass;
  fq_turboDomain : string;
  fq_turboInfo : option platformTurboInfo;
  fq_allowed : CPUSet;
  fq_cpuDomain : gmap Z Z;
  fq_domains : list Z;
  fq_activeCpus : gmap Z (gmap string CPUSet);
  fq_winnerPrio : gmap Z Z;
}.

Definition with_activeCpus (v : gmap Z (gmap string CPUSet)) (a : freqAllocator) : freqAllocator :=
  MkFreqAllocator (fq_classes a) (fq_classByName a) (fq_turboDomain a) (fq_turboInfo a) (fq_allowed a)
    (fq_cpuDomain a) (fq_domains a) v (fq_winnerPrio a).

Definition with_winnerPrio (v : gmap Z Z) (a : freqAllocator) : freqAllocator :=
  MkFreqAllocator (fq_classes a) (fq_classByName a) (fq_turboDomain a) (fq_turboInfo a) (fq_allowed a)
    (fq_cpuDomain a) (fq_domains a) (fq_activeCpus a) v.

Definition with_freq_config (classes : list CPUClass) (byName : gmap string CPUClass) (turboDomain : string)
    (allowed : CPUSet) (a : freqAllocator) : freqAllocator :=
  MkFreqAllocator classes byName turboDomain (fq_turboInfo a) allowed
    (fq_cpuDomain a) (fq_domains a) (fq_activeCpus a) (fq_winnerPrio a).

Definition with_domains (cpuDomain : gmap Z Z) (domains : list Z) (a : freqAllocator) : freqAllocator :=
  MkFreqAllocator (fq_classes a) (fq_classByName a) (fq_turboDomain a) (fq_turboInfo a) (fq_allowed a)
    cpuDomain domains (fq_activeCpus a) (fq_winnerPrio a).

Definition systemDomainID : Z := 0.
Definition turboDomainPackage : string := "package".
Definition turboDomainSystem : string := "system".

(** [New], with the platform's frequencies discovered. *)
Definition newFreqAllocator (sys : ClsSys) : freqAllocator :=
  MkFreqAllocator [] ∅ "" (discoverTurboInfo sys) ∅ ∅ [] ∅ ∅.

Definition classes_by_name (classes : list CPUClass) : gmap string CPUClass :=
  fold_left (λ m cc, <[cc_Name cc := cc]> m) classes ∅.

Definition classDefFromCPUClass (cc : CPUClass) (info : option platformTurboInfo) (effectiveTurboKHz : Z)
    : ClassDef :=
  let resolve f :=
    match info with
    | Some info =>
        let turboKHz := if bool_decide (effectiveTurboKHz > 0) then effectiveTurboKHz else maxTurboFreqKHz info in
        Resolve f (minFreqKHz info) (baseFreqKHz info) turboKHz
    | None => if IsSymbolic f then 0 else f
    end in
  MkClassDef (resolve (cc_MinFreq cc)) (resolve (cc_MaxFreq cc)) (cc_EnergyPerformancePreference cc)
    (resolve (cc_UncoreMinFreq cc)) (resolve (cc_UncoreMaxFreq cc)) (cc_FreqGovernor cc) (cc_DisabledCstates cc).

Definition syntheticName (a : freqAllocator) (name : string) (d : Z) : string :=
  if bool_decide (name = "") then ""
  else
    match fq_classByName a !! name with
    | None => name
    | Some _ => str_app name (str_app "@d" (itoa d))
    end.

Definition FreqIsKnownClass (a : freqAllocator) (name : string) : bool :=
  bool_decide (is_Some (fq_classByName a !! name)).

(** Unknown names are only logged. *)
Definition resolveClassName (a : freqAllocator) (name : string) : string := name.

Section allocator.
Context `{GoRuntime} {S : Type} `{Sink S}.

(** The turbo domain of a CPU; CPUs without one are in that of the system. *)
Definition domain_of (a : freqAllocator) (cpu : Z) : Z := default systemDomainID (fq_cpuDomain a !! cpu).

Definition cpu_domain_step (sys : ClsSys) (mode : string) (allowed : CPUSet)
    (st : gmap Z Z * gmap Z bool) (cpuID : Z) : gmap Z Z * gmap Z bool :=
  if bool_decide (Z.of_nat (size allowed) > 0) && negb (bool_decide (cpuID ∈ allowed)) then st
  else
    match cy_CPU sys cpuID with
    | None => st
    | Some c =>
        let d := if bool_decide (mode = turboDomainSystem) then systemDomainID else ci_PackageID c in
        (<[cpuID := d]> st.1, <[d := true]> st.2)
    end.

Definition buildCpuDomains (sys : ClsSys) (a : freqAllocator) : freqAllocator :=
  let mode := if bool_decide (fq_turboDomain a = "") then turboDomainPackage else fq_turboDomain a in
  let '(cpuDomain, seen) :=
    fold_left (cpu_domain_step sys mode (fq_allowed a)) (cy_CPUIDs sys) (∅, ∅) in
  let a := with_domains cpuDomain (slices_Sort (map_range seen).*1) a in
  with_winnerPrio (fold_left (λ w d, <[d := -1]> w) (fq_domains a) (fq_winnerPrio a)) a.

Definition pushInitialClassDefinitions (a : freqAllocator) (sink : S) : S :=
  if bool_decide (fq_domains a = []) then sink
  else
    fold_left (λ sink cc,
      let def := classDefFromCPUClass cc (fq_turboInfo a) 0 in
      fold_left (λ sink d, SetClassDef (syntheticName a (cc_Name cc) d) def sink) (fq_domains a) sink)
      (fq_classes a) sink.

Definition FreqConfigure (sys : ClsSys) (classes : list CPUClass) (turboDomain : string) (allowed : CPUSet)
    (a : freqAllocator) (sink : S) : (freqAllocator * S) * option error :=
  if bool_decide (turboDomain ∉ [""; turboDomainPackage; turboDomainSystem])
  then ((with_freq_config classes (classes_by_name classes) (fq_turboDomain a) (fq_allowed a) a, sink), Some ErrOther)
  else
    let a := with_freq_config classes (classes_by_name classes) turboDomain allowed a in
    let a := buildCpuDomains sys a in
    let a := with_winnerPrio ∅ (with_activeCpus ∅ a) in
    ((a, pushInitialClassDefinitions a sink), None).

(** The loops over the maps delete what becomes empty. *)
Definition removeCpusFromAllClasses (cpus : CPUSet) (a : freqAllocator) : freqAllocator :=
  with_activeCpus (omap (λ perClass : gmap string CPUSet,
    let perClass := omap (λ set : CPUSet,
      let newSet := set ∖ cpus in if bool_decide (newSet = ∅) then None else Some newSet) perClass in
    if bool_decide (perClass = ∅) then None else Some perClass) (fq_activeCpus a)) a.

Definition cpusByDomain (a : freqAllocator) (cpus : CPUSet) : gmap Z CPUSet :=
  fold_left (λ out cpu,
    let d := domain_of a cpu in
    <[d := default ∅ (out !! d) ∪ {[cpu]}]> out) (UnsortedList cpus) ∅.

(** The highest priority of classes in use in a domain, 0 if there are none. *)
Definition winner_prio (a : freqAllocator) (d : Z) : Z :=
  match fq_activeCpus a !! d with
  | None => 0
  | Some perClass =>
      fold_left (λ newPrio cc,
        if bool_decide (cc_TurboPriority cc ≤ newPrio) then newPrio
        else
          match perClass !! cc_Name cc with
          | Some set => if bool_decide (set = ∅) then newPrio else cc_TurboPriority cc
          | None => newPrio
          end) (fq_classes a) 0
  end.

Definition effective_turbo (info : platformTurboInfo) (newPrio : Z) (cc : CPUClass) : Z :=
  if bool_decide (newPrio = 0) || bool_decide (newPrio ≤ cc_TurboPriority cc)
  then maxTurboFreqKHz info else baseFreqKHz info.

Definition recalculateTurbo (d : Z) (st : freqAllocator * S) : freqAllocator * S :=
  let '(a, sink) := st in
  if bool_decide (fq_classes a = []) then (a, sink)
  else
    let newPrio := winner_prio a d in
    if bool_decide (fq_winnerPrio a !! d = Some newPrio) then (a, sink)
    else
      let a := with_winnerPrio (<[d := newPrio]> (fq_winnerPrio a)) a in
      match fq_turboInfo a with
      | None => (a, sink)
      | Some info =>
          (a, fold_left (λ sink cc,
                SetClassDef (syntheticName a (cc_Name cc) d)
                  (classDefFromCPUClass cc (fq_turboInfo a) (effective_turbo info newPrio cc)) sink)
                (fq_classes a) sink)
      end.

(** Mark CPUs of a domain as in use by a class. *)
Definition activate (className : string) (a : freqAllocator) (dc : Z * CPUSet) : freqAllocator :=
  let perClass := default ∅ (fq_activeCpus a !! dc.1) in
  with_activeCpus
    (<[dc.1 := <[className := default ∅ (perClass !! className) ∪ dc.2]> perClass]> (fq_activeCpus a)) a.

Definition FreqUseClass (className : string) (cpus : CPUSet) (st : freqAllocator * S) : freqAllocator * S :=
  let '(a, sink) := st in
  let cpus := if bool_decide (Z.of_nat (size (fq_allowed a)) > 0) then cpus ∩ fq_allowed a else cpus in
  if bool_decide (cpus = ∅) then (a, sink)
  else
    let className := resolveClassName a className in
    let a := removeCpusFromAllClasses cpus a in
    let byDomain := cpusByDomain a cpus in
    let a := if bool_decide (className ≠ "") then fold_left (activate className) (map_range byDomain) a else a in
    let '(a, sink) := fold_left (λ st d, recalculateTurbo d st) (map_range byDomain).*1 (a, sink) in
    (a, fold_left (λ sink dc, AssignCPUs (syntheticName a className dc.1) (UnsortedList dc.2) sink)
          (map_range byDomain) sink).

End allocator.
