(* ===== verification/ClsPct.v ===== *)
(** * Priority Core Turbo

    The allocator of SST classes of service (CLOS) for CPU classes
    (pkg/resmgr/cpuclass/internal/pct/pct.go).  The platform is any
    implementation of the interface [Sst] (pct_sst.go). *)

From S2P Require Import Prelude GoStrings MemNodes CpuTree BlnTypes ClsFreq.

(** ** The platform *)

Record pctPunit := MkPunit {
  pu_PkgID : Z;
  pu_PunitID : Z;
  pu_CPUs : CPUSet;
  pu_MaxHpCpus : Z;
  pu_GuaranteedHpCpus : Z;
}.

Record pctClosConfig := MkClosConfig {
  cl_ClosID : Z;
  cl_MinFreq : Z;
  cl_MaxFreq : Z;
}.

Record pctClosCfg := MkClosCfg {
  cf_MinFreq : Z;
  cf_MaxFreq : Z;
}.

(** What the allocator uses of the interface [sst].  [sst_GetClosConfig]
    returns [None] if nothing is known of the CLOS; associations are pairs of a
    CPU and a CLOS; the status of SST-TF is by package and punit. *)
Class Sst (T : Type) := {
  sst_Supported : T → bool;
  sst_Punits : T → list pctPunit;
  sst_GetClosConfig : T → Z → res (option pctClosCfg);
  sst_PrepareManagedMode : T → T * option error;
  sst_ConfigureClos : pctClosConfig → T → T * option error;
  sst_EnableCP : T → T * option error;
  sst_AssociateCPUs : list (Z * Z) → T → T * option error;
  sst_TFStatus : T → res (gmap (Z * Z) bool);
  sst_GetCPUClosID : T → Z → res Z;
  sst_Shutdown : T → T * option error;
}.

(** ** The allocator *)

Definition pctDefaultHpClos : Z := 0.
Definition pctDefaultLpClos : Z := 3.

Inductive pctMode := pctModeDisabled | pctModeManaged | pctModeAssocOnly.

#[export] Instance pctMode_eq_dec : EqDecision pctMode.
Proof. solve_decision. Defined.

Record pctClassPlan := MkPlan {
  pl_ClosID : Z;
  pl_MinFreq : Z;
  pl_MaxFreq : Z;
}.

(** Punits are numbered by their place in [px_punits].  [px_hpClasses] are the
    names mapped to true. *)
Record pctAllocator (T : Type) := MkPct {
  px_sst : T;
  px_mode : pctMode;
  px_classPlan : gmap string pctClassPlan;
  px_fallbackClos : Z;
  px_allowed : CPUSet;
  px_hpClasses : gset string;
  px_punits : list pctPunit;
  px_punitByCpu : gmap Z nat;
  px_hpUsed : gmap nat CPUSet;
  px_hpEligiblePunit : gset nat;
}.

Arguments MkPct {_}.
Arguments px_sst {_}.
Arguments px_mode {_}.
Arguments px_classPlan {_}.
Arguments px_fallbackClos {_}.
Arguments px_allowed {_}.
Arguments px_hpClasses {_}.
Arguments px_punits {_}.
Arguments px_punitByCpu {_}.
Arguments px_hpUsed {_}.
Arguments px_hpEligiblePunit {_}.

Definition planned_priority (prio : string) : option Z :=
  if bool_decide (prio = "high") then Some pctDefaultHpClos
  else if bool_decide (prio = "low") then Some pctDefaultLpClos
  else None.

(** [resolveHWFreq] *)
Definition resolveHWFreq (sys : ClsSys) (f : Z) : Z :=
  if bool_decide (f = 0) then 0
  else
    match discoverTurboInfo sys with
    | None => f
    | Some info => Resolve f (minFreqKHz info) (baseFreqKHz info) (maxTurboFreqKHz info)
    end.

Definition managed_plan (sys : ClsSys) (closID : Z) (cc : CPUClass) : pctClassPlan :=
  let minSrc := if bool_decide (cc_PctMinFreq cc = 0) then cc_MinFreq cc else cc_PctMinFreq cc in
  let maxSrc := if bool_decide (cc_PctMaxFreq cc = 0) then cc_MaxFreq cc else cc_PctMaxFreq cc in
  MkPlan closID (resolveHWFreq sys minSrc) (resolveHWFreq sys maxSrc).

Fixpoint plan_classes (sys : ClsSys) (classes : list CPUClass) (plans : gmap string pctClassPlan)
    (managed assocOnly : bool) : res (gmap string pctClassPlan * bool * bool) :=
  match classes with
  | [] => Ok (plans, managed, assocOnly)
  | cc :: classes' =>
      if bool_decide (cc_PctPriority cc ≠ "") then
        match planned_priority (cc_PctPriority cc) with
        | None => Err ErrOther
        | Some closID =>
            plan_classes sys classes' (<[cc_Name cc := managed_plan sys closID cc]> plans) true assocOnly
        end
      else
        match cc_SstClosID cc with
        | Some closID => plan_classes sys classes' (<[cc_Name cc := MkPlan closID 0 0]> plans) managed true
        | None => plan_classes sys classes' plans managed assocOnly
        end
  end.

Definition planClasses (sys : ClsSys) (classes : list CPUClass) : res (pctMode * gmap string pctClassPlan) :=
  let! r := plan_classes sys classes ∅ false false in
  let '(plans, managed, assocOnly) := r in
  if negb managed && negb assocOnly then Ok (pctModeDisabled, ∅)
  else if managed && assocOnly then Err ErrOther
  else if managed then Ok (pctModeManaged, plans)
  else Ok (pctModeAssocOnly, plans).

(** [snapshotPunits]: the punits cut down to allowed CPUs, and their CPUs. *)
Fixpoint snapshotPunits (allowed : CPUSet) (raw : list pctPunit) (punits : list pctPunit) (byCpu : gmap Z nat)
    : list pctPunit * gmap Z nat :=
  match raw with
  | [] => (punits, byCpu)
  | pu :: raw' =>
      let cpus := if bool_decide (Z.of_nat (size allowed) > 0) then pu_CPUs pu ∩ allowed else pu_CPUs pu in
      if bool_decide (cpus = ∅) then snapshotPunits allowed raw' punits byCpu
      else
        snapshotPunits allowed raw'
          (app punits [MkPunit (pu_PkgID pu) (pu_PunitID pu) cpus (pu_MaxHpCpus pu) (pu_GuaranteedHpCpus pu)])
          (set_fold (λ c m, <[c := length punits]> m) byCpu cpus)
  end.

Section pct.
Context `{GoRuntime} {T : Type} `{Sst T} (sys : ClsSys).

Definition with_sst (v : T) (a : pctAllocator T) : pctAllocator T :=
  MkPct v (px_mode a) (px_classPlan a) (px_fallbackClos a) (px_allowed a) (px_hpClasses a) (px_punits a)
    (px_punitByCpu a) (px_hpUsed a) (px_hpEligiblePunit a).

Definition with_mode (mode : pctMode) (plan : gmap string pctClassPlan) (a : pctAllocator T) : pctAllocator T :=
  MkPct (px_sst a) mode plan (px_fallbackClos a) (px_allowed a) (px_hpClasses a) (px_punits a)
    (px_punitByCpu a) (px_hpUsed a) (px_hpEligiblePunit a).

Definition with_fallback (v : Z) (a : pctAllocator T) : pctAllocator T :=
  MkPct (px_sst a) (px_mode a) (px_classPlan a) v (px_allowed a) (px_hpClasses a) (px_punits a)
    (px_punitByCpu a) (px_hpUsed a) (px_hpEligiblePunit a).

Definition with_hpClasses (v : gset string) (a : pctAllocator T) : pctAllocator T :=
  MkPct (px_sst a) (px_mode a) (px_classPlan a) (px_fallbackClos a) (px_allowed a) v (px_punits a)
    (px_punitByCpu a) (px_hpUsed a) (px_hpEligiblePunit a).

Definition with_punits (punits : list pctPunit) (byCpu : gmap Z nat) (a : pctAllocator T) : pctAllocator T :=
  MkPct (px_sst a) (px_mode a) (px_classPlan a) (px_fallbackClos a) (px_allowed a) (px_hpClasses a) punits
    byCpu (px_hpUsed a) (px_hpEligiblePunit a).

Definition with_hpUsed (v : gmap nat CPUSet) (a : pctAllocator T) : pctAllocator T :=
  MkPct (px_sst a) (px_mode a) (px_classPlan a) (px_fallbackClos a) (px_allowed a) (px_hpClasses a) (px_punits a)
    (px_punitByCpu a) v (px_hpEligiblePunit a).

Definition with_eligible (v : gset nat) (a : pctAllocator T) : pctAllocator T :=
  MkPct (px_sst a) (px_mode a) (px_classPlan a) (px_fallbackClos a) (px_allowed a) (px_hpClasses a) (px_punits a)
    (px_punitByCpu a) (px_hpUsed a) v.

(** [NewAllocator] on a platform. *)
Definition newPctAllocator (s : T) : pctAllocator T :=
  MkPct s pctModeDisabled ∅ 0 ∅ ∅ [] ∅ ∅ ∅.

Definition Active (a : pctAllocator T) : bool := bool_decide (px_mode a ≠ pctModeDisabled).

Definition classIsHighPriority (a : pctAllocator T) (className : string) : bool :=
  Active a && bool_decide (className ∈ px_hpClasses a).

Definition hpHintsActive (a : pctAllocator T) : bool :=
  Active a && bool_decide (Z.of_nat (size (px_hpClasses a)) > 0).

(** *** Configuration *)

(** The CLOSes of the plans, sorted. *)
Definition planned_closes (plans : gmap string pctClassPlan) : list Z :=
  slices_Sort (fold_left (λ ids p, if bool_decide (pl_ClosID p ∈ ids) then ids else app ids [pl_ClosID p])
    (map_range plans).*2 []).

(** The first plan of a CLOS. *)
Definition clos_plan (plans : gmap string pctClassPlan) (closID : Z) : option pctClassPlan :=
  List.find (λ p, bool_decide (pl_ClosID p = closID)) (map_range plans).*2.

Fixpoint program_closes (plans : gmap string pctClassPlan) (closIDs : list Z) (s : T) : T * option error :=
  match closIDs with
  | [] => (s, None)
  | closID :: closIDs' =>
      let '(minF, maxF) :=
        match clos_plan plans closID with
        | Some p => (i64 (pl_MinFreq p), i64 (pl_MaxFreq p))
        | None => (0, 0)
        end in
      match sst_ConfigureClos (MkClosConfig closID minF maxF) s with
      | (s, Some e) => (s, Some e)
      | (s, None) => program_closes plans closIDs' s
      end
  end.

(** Classes of high priority, and the CLOS of the last one of low priority. *)
Definition managed_class (plans : gmap string pctClassPlan) (st : gset string * option Z) (cc : CPUClass)
    : gset string * option Z :=
  if bool_decide (cc_PctPriority cc = "high") then ({[cc_Name cc]} ∪ st.1, st.2)
  else if bool_decide (cc_PctPriority cc = "low") then (st.1, pl_ClosID <$> plans !! cc_Name cc)
  else st.

Definition configure_managed (classes : list CPUClass) (a : pctAllocator T) : pctAllocator T * option error :=
  match sst_PrepareManagedMode (px_sst a) with
  | (s, Some e) => (with_sst s a, Some e)
  | (s, None) =>
      let a := with_eligible (list_to_set (seq 0 (length (px_punits a)))) (with_sst s a) in
      match program_closes (px_classPlan a) (planned_closes (px_classPlan a)) (px_sst a) with
      | (s, Some e) => (with_sst s a, Some e)
      | (s, None) =>
          match sst_EnableCP s with
          | (s, Some e) => (with_sst s a, Some e)
          | (s, None) =>
              let '(hp, lpClos) := fold_left (managed_class (px_classPlan a)) classes (px_hpClasses a, None) in
              let a := with_hpClasses hp (with_sst s a) in
              (match lpClos with Some clos => with_fallback clos a | None => a end, None)
          end
      end
  end.

(** The frequencies of the CLOSes of plans that are programmed. *)
Definition max_freq_step (s : T) (st : gmap Z Z * list Z) (p : pctClassPlan) : gmap Z Z * list Z :=
  match st.1 !! pl_ClosID p with
  | Some _ => st
  | None =>
      match sst_GetClosConfig s (pl_ClosID p) with
      | Ok (Some cfg) => (<[pl_ClosID p := cf_MaxFreq cfg]> st.1, app st.2 [pl_ClosID p])
      | _ => st
      end
  end.

Definition best_clos_step (maxFreqs : gmap Z Z) (best : Z * Z) (id : Z) : Z * Z :=
  let freq := default 0 (maxFreqs !! id) in
  if bool_decide (freq > best.2) then (id, freq) else best.

Definition classifyAssocOnlyHP (classes : list CPUClass) (a : pctAllocator T) : pctAllocator T :=
  let '(maxFreqs, closIDs) := fold_left (max_freq_step (px_sst a)) (map_range (px_classPlan a)).*2 (∅, []) in
  if bool_decide (closIDs = []) then a
  else
    let '(bestClos, bestMax) := fold_left (best_clos_step maxFreqs) (slices_Sort closIDs) (-1, -1) in
    if bool_decide (bestClos < 0) || bool_decide (bestMax ≤ 0) then a
    else
      with_hpClasses (fold_left (λ hp cc,
        match px_classPlan a !! cc_Name cc with
        | Some p => if bool_decide (pl_ClosID p ≠ bestClos) then hp else {[cc_Name cc]} ∪ hp
        | None => hp
        end) classes (px_hpClasses a)) a.

Definition evaluateAssocOnlyHpEligibility (a : pctAllocator T) : pctAllocator T :=
  if bool_decide (px_punits a = []) then a
  else
    match sst_TFStatus (px_sst a) with
    | Err _ => a
    | Ok status =>
        with_eligible (px_hpEligiblePunit a ∪
          list_to_set (omap (λ ip : nat * pctPunit,
            match status !! (pu_PkgID ip.2, pu_PunitID ip.2) with
            | Some true => Some ip.1
            | _ => None
            end) (imap pair (px_punits a)))) a
    end.

Definition PctConfigure (classes : list CPUClass) (allowed : CPUSet) (a : pctAllocator T)
    : pctAllocator T * option error :=
  let a := MkPct (px_sst a) (px_mode a) (px_classPlan a) pctDefaultHpClos allowed ∅ [] ∅ ∅ ∅ in
  match planClasses sys classes with
  | Err e => (a, Some e)
  | Ok (mode, plans) =>
      let a := with_mode mode plans a in
      if bool_decide (mode = pctModeDisabled) then (a, None)
      else if negb (sst_Supported (px_sst a)) then (with_mode pctModeDisabled ∅ a, None)
      else
        let '(punits, byCpu) := snapshotPunits (px_allowed a) (sst_Punits (px_sst a)) [] ∅ in
        let a := with_punits punits byCpu a in
        if bool_decide (mode = pctModeManaged) then configure_managed classes a
        else (evaluateAssocOnlyHpEligibility (classifyAssocOnlyHP classes a), None)
  end.

(** *** Use of CPUs *)

Definition clearHpUsage (cpus : CPUSet) (a : pctAllocator T) : pctAllocator T :=
  if negb (hpHintsActive a) then a
  else
    with_hpUsed ((λ set : CPUSet,
      let remaining := set ∖ cpus in
      if bool_decide (size remaining ≠ size set) then remaining else set) <$> px_hpUsed a) a.

(** CPUs by punit. *)
Definition cpus_per_punit (a : pctAllocator T) (cpus : CPUSet) : gmap nat (list Z) :=
  fold_left (λ perPunit cpu,
    match px_punitByCpu a !! cpu with
    | None => perPunit
    | Some idx => <[idx := app (default [] (perPunit !! idx)) [cpu]]> perPunit
    end) (UnsortedList cpus) ∅.

Definition trackHpUsage (className : string) (cpus : CPUSet) (a : pctAllocator T) : pctAllocator T :=
  if negb (hpHintsActive a) then a
  else
    let a := clearHpUsage cpus a in
    if negb (classIsHighPriority a className) then a
    else
      with_hpUsed (fold_left (λ (used : gmap nat CPUSet) (il : nat * list Z),
        <[il.1 := default ∅ (used !! il.1) ∪ list_to_set il.2]> used)
        (map_range (cpus_per_punit a cpus)) (px_hpUsed a)) a.

Definition associate (cpus : CPUSet) (clos : Z) (a : pctAllocator T) : pctAllocator T * option error :=
  let assocs := (λ c, (c, clos)) <$> slices_Sort (UnsortedList cpus) in
  let '(s, err) := sst_AssociateCPUs assocs (px_sst a) in
  (with_sst s a, err).

Definition PctUseClass (className : string) (cpus : CPUSet) (a : pctAllocator T)
    : pctAllocator T * option error :=
  if negb (Active a) then (a, None)
  else
    let cpus := if bool_decide (Z.of_nat (size (px_allowed a)) > 0) then cpus ∩ px_allowed a else cpus in
    if bool_decide (cpus = ∅) then (a, None)
    else
      let a := trackHpUsage className cpus a in
      match px_classPlan a !! className with
      | None =>
          if bool_decide (px_mode a = pctModeAssocOnly) then (a, None)
          else associate cpus (px_fallbackClos a) a
      | Some plan => associate cpus (pl_ClosID plan) a
      end.

Definition PctShutdown (a : pctAllocator T) : pctAllocator T * option error :=
  if negb (sst_Supported (px_sst a)) then (a, None)
  else if bool_decide (px_mode a ≠ pctModeManaged) then (a, None)
  else let '(s, err) := sst_Shutdown (px_sst a) in (with_sst s a, err).

(** *** Capacity *)

Definition FreeClassCapacity (a : pctAllocator T) (className : string) (held : CPUSet) : Z :=
  if negb (Active a) then 0
  else
    match px_classPlan a !! className with
    | None => 0
    | Some _ =>
        let allowed := px_allowed a in
        let free := if bool_decide (Z.of_nat (size allowed) > 0) then allowed ∖ held else allowed in
        if negb (classIsHighPriority a className) then Z.of_nat (size free)
        else
          fold_left (λ total ip,
            if bool_decide (ip.1 ∉ px_hpEligiblePunit a) then total
            else
              let puCpus := if bool_decide (Z.of_nat (size allowed) > 0) then pu_CPUs ip.2 ∩ allowed else pu_CPUs ip.2 in
              let puFree := Z.of_nat (size (puCpus ∖ held)) in
              let gtdHp := pu_GuaranteedHpCpus ip.2 in
              if bool_decide (gtdHp ≤ 0) then total else total + Z.max (Z.min puFree gtdHp) 0)
            (imap pair (px_punits a)) 0
    end.

(** *** Hints *)

Definition closCpus (a : pctAllocator T) (closID : Z) : CPUSet :=
  if negb (Active a) then ∅
  else
    list_to_set (filter (λ cpu, sst_GetCPUClosID (px_sst a) cpu = Ok closID) (UnsortedList (px_allowed a))).

Definition hpInUseCpus (a : pctAllocator T) : CPUSet :=
  if negb (hpHintsActive a) then ∅
  else
    let out := fold_left (λ (out : CPUSet) (iu : nat * CPUSet),
      if bool_decide (iu.2 = ∅) then out
      else match px_punits a !! iu.1 with Some pu => out ∪ pu_CPUs pu | None => out end)
      (map_range (px_hpUsed a)) ∅ in
    if bool_decide (Z.of_nat (size (px_allowed a)) > 0) then out ∩ px_allowed a else out.

(** What a punit has for a request: free CPUs and room for CPUs of high
    priority, and where it is. *)
Record punitState := MkPunitState {
  ps_free : CPUSet;
  ps_room : Z;
  ps_pkg : Z;
  ps_punit : Z;
}.

Definition punit_state (a : pctAllocator T) (free excludeBln : CPUSet) (i : nat) (pu : pctPunit) : punitState :=
  let room :=
    if bool_decide (pu_MaxHpCpus pu ≤ 0) then 0
    else
      let used := default ∅ (px_hpUsed a !! i) in
      let used := if bool_decide (Z.of_nat (size excludeBln) > 0) then used ∖ excludeBln else used in
      Z.max (pu_MaxHpCpus pu - Z.of_nat (size used)) 0 in
  MkPunitState (pu_CPUs pu ∩ free) room (pu_PkgID pu) (pu_PunitID pu).

Definition free_size (free : CPUSet) : Z := Z.of_nat (size free).

(** A punit that can host all of a request. *)
Definition tier_a (need : Z) (s : punitState) : bool :=
  negb (bool_decide (ps_free s = ∅) || bool_decide (ps_room s ≤ 0)) &&
  negb (bool_decide (free_size (ps_free s) < need) || bool_decide (ps_room s < need)).

Definition tier_a_less (x y : punitState) : bool :=
  if bool_decide (ps_room x ≠ ps_room y) then bool_decide (ps_room x > ps_room y)
  else if bool_decide (free_size (ps_free x) ≠ free_size (ps_free y))
  then bool_decide (free_size (ps_free x) > free_size (ps_free y))
  else if bool_decide (ps_pkg x ≠ ps_pkg y) then bool_decide (ps_pkg x < ps_pkg y)
  else bool_decide (ps_punit x < ps_punit y).

(** Room and free CPUs of packages. *)
Definition package_step (agg : gmap Z (Z * CPUSet)) (s : punitState) : gmap Z (Z * CPUSet) :=
  if bool_decide (ps_room s ≤ 0) || bool_decide (ps_free s = ∅) then agg
  else
    let e := default (0, ∅) (agg !! ps_pkg s) in
    <[ps_pkg s := (e.1 + ps_room s, e.2 ∪ ps_free s)]> agg.

Definition tier_b_less (x y : Z * (Z * CPUSet)) : bool :=
  if bool_decide (x.2.1 ≠ y.2.1) then bool_decide (x.2.1 > y.2.1)
  else if bool_decide (free_size x.2.2 ≠ free_size y.2.2)
  then bool_decide (free_size x.2.2 > free_size y.2.2)
  else bool_decide (x.1 < y.1).

Definition hpReserveCpus (a : pctAllocator T) (free excludeBln : CPUSet) (requested : Z) : list CPUSet :=
  if negb (hpHintsActive a) then []
  else
    let free := if bool_decide (Z.of_nat (size (px_allowed a)) > 0) then free ∩ px_allowed a else free in
    if bool_decide (free = ∅) then []
    else
      let states := imap (punit_state a free excludeBln) (px_punits a) in
      if negb (existsb (λ pu, bool_decide (0 < pu_MaxHpCpus pu)) (px_punits a)) then []
      else
        let need := Z.max requested 1 in
        let tierA := filter (λ s, tier_a need s = true) states in
        if bool_decide (Z.of_nat (length tierA) > 0) then ps_free <$> sort_slice tier_a_less tierA
        else if bool_decide (requested > 0) then
          let agg := fold_left package_step states ∅ in
          let pkgs := filter (λ ie : Z * (Z * CPUSet),
            ¬ (ie.2.1 < requested ∨ free_size ie.2.2 < requested)) (map_range agg) in
          (λ ie, ie.2.2) <$> sort_slice tier_b_less pkgs
        else [].

Definition classClosID (a : pctAllocator T) (className : string) : option Z :=
  if negb (Active a) then None else pl_ClosID <$> px_classPlan a !! className.

Definition virtDevSstHpReserveHint : string := "sst-hp-reserve".
Definition virtDevSstHpInUseHint : string := "sst-hp-in-use".
Definition virtDevSstClosHint (closID : Z) : string := str_app "sst-clos-" (itoa closID).

(** Preferred CPUs and CPUs to avoid. *)
Definition PctHints (a : pctAllocator T) (intent : AllocationIntent) : list CpuPreference * list CpuPreference :=
  if negb (Active a) then ([], [])
  else if bool_decide (in_RequestedCount intent < 1) then ([], [])
  else
    let prefer :=
      match classClosID a (in_ClassName intent) with
      | None => []
      | Some closID =>
          let freeClosCpus := closCpus a closID ∩ in_FreeCpus intent in
          if bool_decide (in_RequestedCount intent ≤ Z.of_nat (size freeClosCpus))
          then [MkPreference (virtDevSstClosHint closID) [freeClosCpus]]
          else []
      end in
    if classIsHighPriority a (in_ClassName intent) then
      let reserve := hpReserveCpus a (in_FreeCpus intent) (in_CurrentCpus intent) (in_RequestedCount intent) in
      (if bool_decide (Z.of_nat (length reserve) > 0)
       then app prefer [MkPreference virtDevSstHpReserveHint reserve] else prefer, [])
    else if hpHintsActive a then
      let inUse := hpInUseCpus a in
      (prefer, if bool_decide (inUse = ∅) then [] else [MkPreference virtDevSstHpInUseHint [inUse]])
    else (prefer, []).

End pct.
