(* ===== verification/ClsHandler.v ===== *)
(** * The handler of CPU classes

    pkg/resmgr/cpuclass/cpuclass.go, the writers of frequencies, C-states and
    uncore frequencies (internal/cpufreq/sysfs.go, internal/cpuidle/cpuidle.go,
    internal/uncorefreq/uncorefreq.go) and the platform they write to.

    The platform is a log of all writes tried, newest first, with whether each
    succeeded.  Which writes fail is any function of the log ([hw_fails]), so
    nothing is assumed about it.  The hooks of the writers, which only tests
    set, are nil. *)

From S2P Require Import Prelude GoStrings MemNodes CpuTree BlnTypes ClsFreq ClsPct.

(** ** The platform *)

(** [WCstates cpus names disable] is applying one value of the attribute
    "disable" to C-states of CPUs. *)
Inductive Write :=
  | WMin (cpu kHz : Z)
  | WMax (cpu kHz : Z)
  | WGov (cpu : Z) (governor : string)
  | WUncoreMin (pkg die kHz : Z)
  | WUncoreMax (pkg die kHz : Z)
  | WCstates (cpus : list Z) (names : list string) (disable : bool).

Definition Log := list (Write * bool).

(** [hw_Cstates] are the names of C-states, [None] if they cannot be read. *)
Record HwEnv := MkHwEnv {
  hw_fails : Log → Write → bool;
  hw_UncoreFreqAvailable : bool;
  hw_Cstates : option (list string);
  hw_CstatesOverride : bool;
}.

Definition DieKey : Type := Z * Z.

(** ** What the writers remember *)

Record cpufreqWritten := MkFreqWritten {
  fw_min : Z;
  fw_max : Z;
  fw_governor : string;
  fw_hasMin : bool;
  fw_hasMax : bool;
  fw_hasGov : bool;
}.

Record uncoreWritten := MkUncoreWritten {
  uw_min : Z;
  uw_max : Z;
  uw_hasMin : bool;
  uw_hasMax : bool;
}.

Definition nothing_written : cpufreqWritten := MkFreqWritten 0 0 "" false false false.
Definition no_uncore_written : uncoreWritten := MkUncoreWritten 0 0 false false.

(** ** Definitions and assignments of classes

    The part of the handler the allocator publishes to. *)

Record Assignments := MkAssignments {
  as_defs : gmap string ClassDef;
  as_cpuClass : gmap Z string;
  as_dirtyCPUs : gset Z;
}.

Definition HandlerSetClassDef (name : string) (def : ClassDef) (h : Assignments) : Assignments :=
  if bool_decide (name = "") then h
  else
    let dirty :=
      match as_defs h !! name with
      | Some prev => if ClassDef_Equal prev def then false else true
      | None => true
      end in
    MkAssignments (<[name := def]> (as_defs h)) (as_cpuClass h)
      (if dirty then as_dirtyCPUs h ∪ dom (filter (λ kv : Z * string, kv.2 = name) (as_cpuClass h))
       else as_dirtyCPUs h).

Definition HandlerAssignCPUs (name : string) (cpus : list Z) (h : Assignments) : Assignments :=
  fold_left (λ h cpu,
    if bool_decide (as_cpuClass h !! cpu = Some name) then h
    else MkAssignments (as_defs h) (<[cpu := name]> (as_cpuClass h)) ({[cpu]} ∪ as_dirtyCPUs h)) cpus h.

#[export] Instance Handler_Sink : Sink Assignments := {
  SetClassDef := HandlerSetClassDef;
  AssignCPUs := HandlerAssignCPUs;
}.

(** ** Writers *)

Section writers.
Context `{GoRuntime} (E : HwEnv) (sys : ClsSys).

(** A write, and the first error of a sequence of writes. *)
Definition try_write (w : Write) (st : Log * option error) : Log * option error :=
  let fails := hw_fails E st.1 w in
  ((w, negb fails) :: st.1, if fails then match st.2 with None => Some ErrOther | err => err end else st.2).

Definition enforce_min (cpu min : Z) (st : cpufreqWritten * (Log * option error))
    : cpufreqWritten * (Log * option error) :=
  let '(state, log) := st in
  if bool_decide (min > 0) && (negb (fw_hasMin state) || bool_decide (fw_min state ≠ min))
  then (MkFreqWritten min (fw_max state) (fw_governor state) true (fw_hasMax state) (fw_hasGov state),
        try_write (WMin cpu (i64 min)) log)
  else (state, log).

Definition enforce_max (cpu max : Z) (st : cpufreqWritten * (Log * option error))
    : cpufreqWritten * (Log * option error) :=
  let '(state, log) := st in
  if bool_decide (max > 0) && (negb (fw_hasMax state) || bool_decide (fw_max state ≠ max))
  then (MkFreqWritten (fw_min state) max (fw_governor state) (fw_hasMin state) true (fw_hasGov state),
        try_write (WMax cpu (i64 max)) log)
  else (state, log).

Definition enforce_gov (cpu : Z) (governor : string) (st : cpufreqWritten * (Log * option error))
    : cpufreqWritten * (Log * option error) :=
  let '(state, log) := st in
  if bool_decide (governor ≠ "") && (negb (fw_hasGov state) || bool_decide (fw_governor state ≠ governor))
  then (MkFreqWritten (fw_min state) (fw_max state) governor (fw_hasMin state) (fw_hasMax state) true,
        try_write (WGov cpu governor) log)
  else (state, log).

Definition enforce_cpu (def : ClassDef) (st : gmap Z cpufreqWritten * (Log * option error)) (cpu : Z)
    : gmap Z cpufreqWritten * (Log * option error) :=
  let state := default nothing_written (st.1 !! cpu) in
  let '(state, log) :=
    enforce_gov cpu (df_FreqGovernor def)
      (enforce_max cpu (df_MaxFreq def) (enforce_min cpu (df_MinFreq def) (state, st.2))) in
  (<[cpu := state]> st.1, log).

(** [Enforce] of the writer of frequencies; the error is the first one. *)
Definition FreqEnforce (def : ClassDef) (cpus : list Z) (written : gmap Z cpufreqWritten) (log : Log)
    : gmap Z cpufreqWritten * (Log * option error) :=
  fold_left (enforce_cpu def) cpus (written, (log, None)).

(** [Enforce] of the writer of C-states; [cs] tells whether it has a handle. *)
Definition IdleEnforce (disabledCstates : list string) (cpus : list Z) (cs : bool) (log : Log)
    : bool * (Log * option error) :=
  if bool_decide (cpus = []) then (cs, (log, None))
  else if bool_decide (disabledCstates = []) && negb cs && negb (hw_CstatesOverride E) then (cs, (log, None))
  else
    match hw_Cstates E with
    | None => (cs, (log, Some ErrOther))
    | Some names =>
        let enabledCstates := filter (λ name, name ∉ disabledCstates) names in
        let '(log, err) := try_write (WCstates cpus enabledCstates false) (log, None) in
        match err with
        | Some e => (true, (log, Some e))
        | None => (true, try_write (WCstates cpus disabledCstates true) (log, None))
        end
    end.

(** ** Uncore frequencies *)

(** [RequiresAvailable], without the name for the error. *)
Definition RequiresAvailable (defs : gmap string ClassDef) : bool :=
  existsb (λ nd : string * ClassDef, bool_decide (df_UncoreMinFreq nd.2 ≠ 0) || bool_decide (df_UncoreMaxFreq nd.2 ≠ 0))
    (map_range defs).

(** One CPU of a die; the classes seen so far, and the frequencies. *)
Definition uncore_step (defs : gmap string ClassDef) (cpuClass : gmap Z string)
    (st : gset string * (Z * Z)) (cpu : Z) : gset string * (Z * Z) :=
  match cpuClass !! cpu with
  | None => st
  | Some name =>
      if bool_decide (name = "") then st
      else if bool_decide (name ∈ st.1) then st
      else
        let seen := {[name]} ∪ st.1 in
        match defs !! name with
        | None => (seen, st.2)
        | Some def =>
            (seen, (if bool_decide (df_UncoreMinFreq def > st.2.1) then df_UncoreMinFreq def else st.2.1,
                    if bool_decide (df_UncoreMaxFreq def > st.2.2) then df_UncoreMaxFreq def else st.2.2))
        end
  end.

(** [effectiveUncoreFreqs], without the names of classes for the log. *)
Definition effectiveUncoreFreqs (key : DieKey) (defs : gmap string ClassDef) (cpuClass : gmap Z string) : Z * Z :=
  match cy_Package sys key.1 with
  | None => (0, 0)
  | Some pkg =>
      (fold_left (uncore_step defs cpuClass) (UnsortedList (pk_DieCPUSet pkg key.2)) (∅, (0, 0))).2
  end.

Definition enforce_uncore_min (key : DieKey) (min : Z) (st : uncoreWritten * (Log * option error))
    : uncoreWritten * (Log * option error) :=
  let '(state, log) := st in
  if bool_decide (min > 0) && (negb (uw_hasMin state) || bool_decide (uw_min state ≠ min))
  then (MkUncoreWritten min (uw_max state) true (uw_hasMax state), try_write (WUncoreMin key.1 key.2 (i64 min)) log)
  else (state, log).

Definition enforce_uncore_max (key : DieKey) (max : Z) (st : uncoreWritten * (Log * option error))
    : uncoreWritten * (Log * option error) :=
  let '(state, log) := st in
  if bool_decide (max > 0) && (negb (uw_hasMax state) || bool_decide (uw_max state ≠ max))
  then (MkUncoreWritten (uw_min state) max (uw_hasMin state) true, try_write (WUncoreMax key.1 key.2 (i64 max)) log)
  else (state, log).

Definition enforce_die (defs : gmap string ClassDef) (cpuClass : gmap Z string)
    (st : gmap DieKey uncoreWritten * (Log * option error)) (key : DieKey)
    : gmap DieKey uncoreWritten * (Log * option error) :=
  let '(min, max) := effectiveUncoreFreqs key defs cpuClass in
  if bool_decide (min = 0) && bool_decide (max = 0) then st
  else
    let state := default no_uncore_written (st.1 !! key) in
    let '(state, log) := enforce_uncore_max key max (enforce_uncore_min key min (state, st.2)) in
    (<[key := state]> st.1, log).

(** [Enforce] of the uncore writer; the error is the first one. *)
Definition UncoreEnforce (available : bool) (defs : gmap string ClassDef) (cpuClass : gmap Z string)
    (dirtyDies : gset DieKey) (written : gmap DieKey uncoreWritten) (log : Log)
    : gmap DieKey uncoreWritten * (Log * option error) :=
  if negb available || bool_decide (dirtyDies = ∅) then (written, (log, None))
  else
    fold_left (enforce_die defs cpuClass) (map_range (gset_to_gmap tt dirtyDies)).*1 (written, (log, None)).

(** The die of a CPU. *)
Definition die_of (cpu : Z) : option DieKey :=
  match cy_CPU sys cpu with
  | None => None
  | Some c =>
      match cy_Package sys (ci_PackageID c) with
      | None => None
      | Some pkg =>
          (λ die, (ci_PackageID c, die)) <$>
            List.find (λ die, bool_decide (cpu ∈ pk_DieCPUSet pkg die)) (pk_DieIDs pkg)
      end
  end.

Definition DiesForCpus (cpus : gset Z) : gset DieKey :=
  list_to_set (omap die_of (UnsortedList cpus)).

End writers.

(** ** The handler *)

Record Handler (T : Type) := MkHandler {
  h_allowed : CPUSet;
  h_cpufreq : freqAllocator;
  h_pct : pctAllocator T;
  h_assign : Assignments;
  h_classNames : gset string;
  h_freqWriter : gmap Z cpufreqWritten;
  h_idleWriter : bool;
  h_uncoreWriter : gmap DieKey uncoreWritten;
  h_log : Log;
}.

Arguments MkHandler {_}.
Arguments h_allowed {_}.
Arguments h_cpufreq {_}.
Arguments h_pct {_}.
Arguments h_assign {_}.
Arguments h_classNames {_}.
Arguments h_freqWriter {_}.
Arguments h_idleWriter {_}.
Arguments h_uncoreWriter {_}.
Arguments h_log {_}.

Record ConfigSpec := MkSpec {
  sp_Classes : list CPUClass;
  sp_TurboDomain : string;
  sp_Allowed : CPUSet;
}.

Section handler.
Context `{GoRuntime} {T : Type} `{Sst T} (E : HwEnv) (sys : ClsSys).

(** [New] on a platform whose log is empty. *)
Definition NewHandler (s : T) : Handler T :=
  MkHandler ∅ (newFreqAllocator sys) (newPctAllocator s) (MkAssignments ∅ ∅ ∅) ∅ ∅ false ∅ [].

Definition with_assign (a : freqAllocator) (v : Assignments) (h : Handler T) : Handler T :=
  MkHandler (h_allowed h) a (h_pct h) v (h_classNames h) (h_freqWriter h) (h_idleWriter h) (h_uncoreWriter h) (h_log h).

Definition with_pct (v : pctAllocator T) (h : Handler T) : Handler T :=
  MkHandler (h_allowed h) (h_cpufreq h) v (h_assign h) (h_classNames h) (h_freqWriter h) (h_idleWriter h)
    (h_uncoreWriter h) (h_log h).

Definition with_classNames (v : gset string) (h : Handler T) : Handler T :=
  MkHandler (h_allowed h) (h_cpufreq h) (h_pct h) (h_assign h) v (h_freqWriter h) (h_idleWriter h)
    (h_uncoreWriter h) (h_log h).

Definition Configure (spec : ConfigSpec) (h : Handler T) : Handler T * option error :=
  let h := MkHandler (sp_Allowed spec) (h_cpufreq h) (h_pct h) (MkAssignments ∅ ∅ ∅) (h_classNames h) ∅
             (h_idleWriter h) ∅ (h_log h) in
  let '((a, sink), err) :=
    FreqConfigure sys (sp_Classes spec) (sp_TurboDomain spec) (sp_Allowed spec) (h_cpufreq h) (h_assign h) in
  let h := with_assign a sink h in
  match err with
  | Some e => (h, Some e)
  | None =>
      if RequiresAvailable (as_defs (h_assign h)) && negb (hw_UncoreFreqAvailable E) then (h, Some ErrOther)
      else
        let '(pct, err) := PctConfigure sys (sp_Classes spec) (sp_Allowed spec) (h_pct h) in
        let h := with_pct pct h in
        match err with
        | Some e => (h, Some e)
        | None => (with_classNames (list_to_set (cc_Name <$> sp_Classes spec)) h, None)
        end
  end.

Definition IsKnownClass (h : Handler T) (name : string) : bool := bool_decide (name ∈ h_classNames h).

(** Errors are only logged. *)
Definition UseClass (className : string) (cpus : CPUSet) (h : Handler T) : Handler T :=
  let '(a, sink) := FreqUseClass className cpus (h_cpufreq h, h_assign h) in
  with_pct (PctUseClass className cpus (h_pct h)).1 (with_assign a sink h).

(** The dirty CPUs by class. *)
Definition dirty_per_class (as_ : Assignments) : gmap string (list Z) :=
  fold_left (λ perClass cpu,
    match as_cpuClass as_ !! cpu with
    | None => perClass
    | Some name =>
        if bool_decide (name = "") then perClass
        else <[name := app (default [] (perClass !! name)) [cpu]]> perClass
    end) (UnsortedList (as_dirtyCPUs as_)) ∅.

Definition first_error (err err' : option error) : option error :=
  match err with None => err' | Some _ => err end.

(** Frequencies and C-states of the dirty CPUs of one class. *)
Definition commit_class (defs : gmap string ClassDef)
    (st : (gmap Z cpufreqWritten * bool) * (Log * option error)) (nc : string * list Z)
    : (gmap Z cpufreqWritten * bool) * (Log * option error) :=
  let '((written, cs), (log, firstErr)) := st in
  let cpus := slices_Sort nc.2 in
  match defs !! nc.1 with
  | None => st
  | Some def =>
      let '(written, (log, err)) := FreqEnforce E def cpus written log in
      let '(cs, (log, err')) := IdleEnforce E (df_DisabledCstates def) cpus cs log in
      ((written, cs), (log, first_error (first_error firstErr err) err'))
  end.

Definition Commit (h : Handler T) : Handler T * option error :=
  let as_ := h_assign h in
  if bool_decide (as_dirtyCPUs as_ = ∅) then (h, None)
  else
    let '((written, cs), (log, firstErr)) :=
      fold_left (commit_class (as_defs as_)) (map_range (dirty_per_class as_))
        ((h_freqWriter h, h_idleWriter h), (h_log h, None)) in
    let dirtyDies := DiesForCpus sys (as_dirtyCPUs as_) in
    let '(uncore, (log, err)) :=
      UncoreEnforce E sys (hw_UncoreFreqAvailable E) (as_defs as_) (as_cpuClass as_) dirtyDies (h_uncoreWriter h) log in
    (MkHandler (h_allowed h) (h_cpufreq h) (h_pct h) (MkAssignments (as_defs as_) (as_cpuClass as_) ∅)
       (h_classNames h) written cs uncore log, first_error firstErr err).

(** One list of preferences cut down to a set of CPUs. *)
Definition clip (bound : CPUSet) (prefs : list CpuPreference) : list CpuPreference :=
  omap (λ p,
    let sets := omap (λ c : CPUSet, let s := c ∩ bound in if bool_decide (s = ∅) then None else Some s) (pref_Cpus p) in
    if bool_decide (sets = []) then None else Some (MkPreference (pref_Name p) sets)) prefs.

Definition intersectHints (hints : list CpuPreference * list CpuPreference) (bound : CPUSet)
    : list CpuPreference * list CpuPreference :=
  (clip bound hints.1, clip bound hints.2).

Definition Hints (h : Handler T) (intent : AllocationIntent) : list CpuPreference * list CpuPreference :=
  let hints := PctHints (h_pct h) intent in
  if bool_decide (Z.of_nat (size (h_allowed h)) > 0) then intersectHints hints (h_allowed h) else hints.

Definition PctFreeClassCapacity (h : Handler T) (className : string) (held : CPUSet) : Z :=
  FreeClassCapacity (h_pct h) className held.

Definition PctActive (h : Handler T) : bool := Active (h_pct h).

Definition Shutdown (h : Handler T) : Handler T * option error :=
  let '(pct, err) := PctShutdown (h_pct h) in (with_pct pct h, err).

End handler.
