(* ===== verification/ClsTurbo.v ===== *)
(** * Turbo arbitration

    The allocator of ClsFreq keeps, for every CPU, the class it was last used
    for, and publishes for every class and turbo domain a definition in which
    the symbolic frequency "turbo" is the turbo frequency exactly for the
    classes of the highest priority in use in the domain.  Proved for any owner
    that keeps what is published to it ([SinkLaws]). *)

From Stdlib Require Import Ascii DecimalString DecimalZ.
From S2P Require Import Prelude GoStrings MemNodes CpuTree CpuResizeFacts BlnTypes ClsFreq.

(** ** What the allocator relies on of its owner *)

Class SinkLaws (S : Type) `{Sink S} := {
  sink_def : S → string → option ClassDef;
  sink_class : S → Z → option string;
  SetClassDef_def : ∀ name def s name', name ≠ "" →
    sink_def (SetClassDef name def s) name' = if decide (name' = name) then Some def else sink_def s name';
  SetClassDef_class : ∀ name def s cpu, sink_class (SetClassDef name def s) cpu = sink_class s cpu;
  AssignCPUs_def : ∀ name cpus s name', sink_def (AssignCPUs name cpus s) name' = sink_def s name';
  AssignCPUs_class : ∀ name cpus s cpu,
    sink_class (AssignCPUs name cpus s) cpu = if decide (cpu ∈ cpus) then Some name else sink_class s cpu;
}.

(** ** Synthetic names *)

Fixpoint no_char (c : ascii) (s : string) : Prop :=
  match s with EmptyString => True | String x s' => x ≠ c ∧ no_char c s' end.

Lemma no_char_uint d : no_char "@" (NilEmpty.string_of_uint d).
Proof. induction d; cbn; (done || (split; [done|assumption])). Qed.

Lemma itoa_no_at d : no_char "@" (itoa d).
Proof.
  unfold itoa, NilZero.string_of_int, NilZero.string_of_uint.
  destruct (Z.to_int d) as [u|u]; cbn; [|split; [done|]];
    destruct u; cbn; (done || (split; [done|])); try apply no_char_uint; done.
Qed.

Lemma no_char_app c s s' : no_char c (str_app s s') ↔ no_char c s ∧ no_char c s'.
Proof. induction s as [|x s IH]; [cbn; tauto|]. change (no_char c (str_app (String x s) s')) with (x ≠ c ∧ no_char c (str_app s s')). rewrite IH. cbn. tauto. Qed.

Lemma last_at_inj n1 n2 s1 s2 : no_char "@" s1 → no_char "@" s2 →
  str_app n1 (String "@" s1) = str_app n2 (String "@" s2) → n1 = n2 ∧ s1 = s2.
Proof.
  intros Hs1 Hs2. revert n2. induction n1 as [|x n1 IH]; intros [|y n2]; cbn; intros E.
  - by injection E.
  - injection E as Hy ->. apply no_char_app in Hs1 as [_ [Hn _]]. by destruct Hn.
  - injection E as Hy <-. apply no_char_app in Hs2 as [_ [Hn _]]. by destruct Hn.
  - injection E as -> E. destruct (IH n2 E) as [-> ->]. done.
Qed.

Lemma itoa_inj d d' : itoa d = itoa d' → d = d'.
Proof.
  assert (Hnil : ∀ z, Z.to_int z ≠ Decimal.Pos Decimal.Nil ∧ Z.to_int z ≠ Decimal.Neg Decimal.Nil).
  { intros z. split; intros E; pose proof (DecimalZ.of_to z) as Hz; rewrite E in Hz; cbn in Hz; by subst z. }
  unfold itoa. intros E. apply (f_equal NilZero.int_of_string) in E.
  rewrite !NilZero.isi in E by apply Hnil. injection E as E. by apply DecimalZ.to_int_inj.
Qed.

(** The name of a known class in a domain. *)
Definition synthetic (name : string) (d : Z) : string := str_app name (str_app "@d" (itoa d)).

Lemma synthetic_inj n d n' d' : synthetic n d = synthetic n' d' → n = n' ∧ d = d'.
Proof.
  unfold synthetic. intros [-> E]%last_at_inj; [|split; [done|apply itoa_no_at]..].
  injection E as E. by apply itoa_inj in E.
Qed.

Lemma synthetic_nonempty n d : synthetic n d ≠ "".
Proof. by destruct n. Qed.

(** ** Classes by name *)

Lemma fold_by_name cs (m : gmap string CPUClass) n : NoDup (cc_Name <$> cs) →
  fold_left (λ m cc, <[cc_Name cc := cc]> m) cs m !! n
  = match list_find (λ cc, cc_Name cc = n) cs with Some (_, cc) => Some cc | None => m !! n end.
Proof.
  revert m. induction cs as [|cc cs IH]; intros m; cbn; [done|].
  intros [Hni Hnd]%NoDup_cons. rewrite IH by done. case_decide as Hn.
  - destruct (list_find _ cs) as [[i cc']|] eqn:E; [|by rewrite Hn, lookup_insert_eq].
    apply list_find_Some in E as (Hl & Hc & _). exfalso. apply Hni. rewrite Hn, <- Hc.
    apply list_elem_of_fmap. eauto using list_elem_of_lookup_2.
  - destruct (list_find _ cs) as [[i cc']|] eqn:E; cbn; [done|by rewrite lookup_insert_ne].
Qed.

Lemma classes_by_name_spec cs n cc : NoDup (cc_Name <$> cs) →
  classes_by_name cs !! n = Some cc ↔ cc ∈ cs ∧ cc_Name cc = n.
Proof.
  intros Hnd. unfold classes_by_name. rewrite fold_by_name by done.
  destruct (list_find _ cs) as [[i cc']|] eqn:E.
  - apply list_find_Some in E as (Hl & Hc & _). split.
    + intros [= ->]. eauto using list_elem_of_lookup_2.
    + intros [[j Hj]%list_elem_of_lookup_1 Hn]. f_equal.
      assert (i = j) as <-; [|congruence].
      eapply (NoDup_lookup _ _ _ n Hnd); rewrite list_lookup_fmap; [by rewrite Hl; cbn; rewrite Hc|by rewrite Hj; cbn; rewrite Hn].
  - apply list_find_None in E. rewrite lookup_empty. split; [done|].
    intros [Hin Hn]. rewrite Forall_forall in E. by destruct (E cc Hin).
Qed.

(** ** CPUs in use *)

Section active.
Context `{GoRuntime}.
Implicit Types (a : freqAllocator) (cpu d : Z) (n : string).

Definition active a d n : CPUSet := default ∅ (fq_activeCpus a !! d ≫= λ per, per !! n).

Lemma active_remove cpus a d n : active (removeCpusFromAllClasses cpus a) d n = active a d n ∖ cpus.
Proof.
  unfold active, removeCpusFromAllClasses. cbn. rewrite lookup_omap.
  destruct (fq_activeCpus a !! d) as [per|]; cbn; [|set_solver].
  set (per' := omap _ per).
  assert (Hper : per' !! n = per !! n ≫= λ set, if bool_decide (set ∖ cpus = ∅) then None else Some (set ∖ cpus))
    by apply lookup_omap.
  assert (Hd : default ∅ (per' !! n) = default ∅ (per !! n) ∖ cpus).
  { rewrite Hper. destruct (per !! n) as [set|]; cbn; [|set_solver]. case_bool_decide; cbn; set_solver. }
  case_bool_decide as He; cbn; [|done]. rewrite He, lookup_empty in Hd. done.
Qed.

Lemma elem_of_active_fold cls l a cpu d n :
  cpu ∈ active (fold_left (activate cls) l a) d n ↔
  cpu ∈ active a d n ∨ (n = cls ∧ ∃ s, (d, s) ∈ l ∧ cpu ∈ s).
Proof.
  revert a. induction l as [|[d' s'] l IH]; intros a; cbn; [set_solver|]. rewrite IH.
  assert (cpu ∈ active (activate cls a (d', s')) d n ↔ cpu ∈ active a d n ∨ (n = cls ∧ d = d' ∧ cpu ∈ s')) as ->.
  { unfold active, activate. cbn. destruct (decide (d = d')) as [->|]; [|rewrite lookup_insert_ne by done; naive_solver].
    rewrite lookup_insert_eq. cbn. destruct (decide (n = cls)) as [->|]; [|rewrite lookup_insert_ne by done].
    - rewrite lookup_insert_eq. cbn. destruct (fq_activeCpus a !! d'); cbn; set_solver.
    - destruct (fq_activeCpus a !! d'); cbn; set_solver. }
  set_solver.
Qed.

Lemma fold_activate_core cls l a :
  fold_left (activate cls) l a = with_activeCpus (fq_activeCpus (fold_left (activate cls) l a)) a.
Proof.
  revert a. induction l as [|x l IH]; intros a; cbn; [by destruct a|]. rewrite IH. done.
Qed.

Lemma elem_of_map_range_keys {V} (m : gmap Z V) k : is_Some (m !! k) → k ∈ slices_Sort (map_range m).*1.
Proof.
  intros [v Hv]. unfold slices_Sort. rewrite insertion_sort_perm. apply list_elem_of_fmap. exists (k, v).
  by rewrite elem_of_map_range.
Qed.

Lemma cpusByDomain_spec a cpus d :
  (∀ cpu, cpu ∈ default ∅ (cpusByDomain a cpus !! d) ↔ cpu ∈ cpus ∧ domain_of a cpu = d) ∧
  (is_Some (cpusByDomain a cpus !! d) → ∃ cpu, cpu ∈ cpus ∧ domain_of a cpu = d).
Proof.
  unfold cpusByDomain. set (f := λ (out : gmap Z CPUSet) cpu, _).
  assert (Hf : ∀ l (out : gmap Z CPUSet),
    (∀ cpu, cpu ∈ default ∅ (fold_left f l out !! d) ↔ cpu ∈ default ∅ (out !! d) ∨ (cpu ∈ l ∧ domain_of a cpu = d)) ∧
    (is_Some (fold_left f l out !! d) → is_Some (out !! d) ∨ ∃ cpu, cpu ∈ l ∧ domain_of a cpu = d)).
  { induction l as [|x l IH]; intros out; cbn; [set_solver|].
    destruct (IH (f out x)) as [IH1 IH2]. unfold f in *. cbn in *.
    destruct (decide (domain_of a x = d)) as [Hd|Hd].
    - rewrite Hd, lookup_insert_eq in *. cbn in *. split; [|set_solver]. intros cpu. rewrite IH1. set_solver.
    - rewrite lookup_insert_ne in * by done. split; [|set_solver]. intros cpu. rewrite IH1. set_solver. }
  destruct (Hf (UnsortedList cpus) ∅) as [H1 H2]. setoid_rewrite elem_of_UnsortedList in H1.
  setoid_rewrite elem_of_UnsortedList in H2. rewrite lookup_empty in *. split.
  - intros cpu. rewrite H1. set_solver.
  - intros Hs. by destruct (H2 Hs) as [[??]|?].
Qed.

(** ** The winner *)

Definition winner_step a d (newPrio : Z) (cc : CPUClass) : Z :=
  if bool_decide (cc_TurboPriority cc ≤ newPrio) then newPrio
  else if bool_decide (active a d (cc_Name cc) = ∅) then newPrio else cc_TurboPriority cc.

Lemma winner_prio_fold a d : winner_prio a d = fold_left (winner_step a d) (fq_classes a) 0.
Proof.
  unfold winner_prio. unfold winner_step, active. destruct (fq_activeCpus a !! d) as [per|]; cbn.
  - generalize 0. induction (fq_classes a) as [|cc cs IH]; intros p; cbn; [done|]. rewrite <- IH. f_equal.
    destruct (per !! cc_Name cc); cbn; [done|]. by rewrite (bool_decide_eq_true_2 (∅ = ∅)).
  - generalize 0. induction (fq_classes a) as [|cc cs IH]; intros p; cbn; [done|]. rewrite <- IH.
    by repeat case_bool_decide.
Qed.

Lemma winner_prio_ext a a' d :
  fq_classes a' = fq_classes a → (∀ n, active a' d n = active a d n) → winner_prio a' d = winner_prio a d.
Proof.
  intros Hc Ha. rewrite !winner_prio_fold, Hc. clear Hc. generalize 0.
  induction (fq_classes a) as [|cc cs IH]; intros p; cbn; [done|]. rewrite IH. unfold winner_step. by rewrite Ha.
Qed.

(** The winning priority is that of a class in use, and no class in use has a
    higher one. *)
Lemma winner_prio_spec a d : let w := winner_prio a d in
  0 ≤ w ∧
  (∀ cc, cc ∈ fq_classes a → active a d (cc_Name cc) ≠ ∅ → cc_TurboPriority cc ≤ w) ∧
  (w = 0 ∨ ∃ cc, cc ∈ fq_classes a ∧ active a d (cc_Name cc) ≠ ∅ ∧ w = cc_TurboPriority cc).
Proof.
  cbn zeta. rewrite winner_prio_fold.
  assert (Hf : ∀ cs p, let w := fold_left (winner_step a d) cs p in
    p ≤ w ∧ (∀ cc, cc ∈ cs → active a d (cc_Name cc) ≠ ∅ → cc_TurboPriority cc ≤ w) ∧
    (w = p ∨ ∃ cc, cc ∈ cs ∧ active a d (cc_Name cc) ≠ ∅ ∧ w = cc_TurboPriority cc)).
  { induction cs as [|cc cs IH]; intros p; cbn; [set_solver by lia|].
    destruct (IH (winner_step a d p cc)) as (H1 & H2 & H3). cbn zeta in *.
    set (w := fold_left _ cs _) in *.
    assert (p ≤ winner_step a d p cc ∧ (active a d (cc_Name cc) ≠ ∅ → cc_TurboPriority cc ≤ winner_step a d p cc) ∧
      (winner_step a d p cc = p ∨ active a d (cc_Name cc) ≠ ∅ ∧ winner_step a d p cc = cc_TurboPriority cc)) as (?&?&Hor).
    { unfold winner_step. repeat case_bool_decide; naive_solver lia. }
    split; [lia|]. split.
    - intros cc' [->|?]%elem_of_cons ?; [specialize (H4 H5); lia|auto].
    - destruct H3 as [H3|(cc' & ? & ? & ?)]; [|right; exists cc'; set_solver].
      destruct Hor as [?|[??]]; [left; lia|right; exists cc; set_solver by lia]. }
  apply Hf.
Qed.

End active.

(** ** The invariant of the allocator *)

Section turbo.
Context `{GoRuntime} {S : Type} `{SinkLaws S}.
Implicit Types (a : freqAllocator) (s : S) (cpu d : Z) (n : string).

(** Names of classes are distinct and not empty, as ValidateCPUClasses
    requires. *)
Definition names_ok (classes : list CPUClass) : Prop :=
  NoDup (cc_Name <$> classes) ∧ "" ∉ cc_Name <$> classes.

Definition config_known a : Prop :=
  names_ok (fq_classes a) ∧ fq_classByName a = classes_by_name (fq_classes a).

(** The definition of a class in a domain whose winning priority is [w]. *)
Definition expected_def a (w : Z) (cc : CPUClass) : ClassDef :=
  match fq_turboInfo a with
  | Some info => classDefFromCPUClass cc (Some info) (effective_turbo info w cc)
  | None => classDefFromCPUClass cc None 0
  end.

(** Definitions are published for every domain that has been calculated, and
    if frequencies are not known, for all domains. *)
Definition defs_ok a s : Prop :=
  ∀ d cc, cc ∈ fq_classes a →
    (∀ w, fq_winnerPrio a !! d = Some w → fq_turboInfo a ≠ None → sink_def s (synthetic (cc_Name cc) d) = Some (expected_def a w cc)) ∧
    (d ∈ fq_domains a → fq_turboInfo a = None → sink_def s (synthetic (cc_Name cc) d) = Some (expected_def a 0 cc)).

(** [use] is the class every CPU was last used for. *)
Record turbo_inv a s (use : Z → option string) : Prop := MkTurboInv {
  ti_known : config_known a;
  ti_active : ∀ cpu d n, cpu ∈ active a d n ↔ use cpu = Some n ∧ n ≠ "" ∧ domain_of a cpu = d;
  ti_winner : fq_classes a ≠ [] → ∀ d w, fq_winnerPrio a !! d = Some w → w = winner_prio a d;
  ti_recalc : fq_classes a ≠ [] → ∀ cpu, is_Some (use cpu) → is_Some (fq_winnerPrio a !! domain_of a cpu);
  ti_defs : defs_ok a s;
  ti_class : ∀ cpu n, use cpu = Some n → sink_class s cpu = Some (syntheticName a n (domain_of a cpu));
}.

Lemma syntheticName_known a cc d : config_known a → cc ∈ fq_classes a →
  syntheticName a (cc_Name cc) d = synthetic (cc_Name cc) d.
Proof.
  intros [[Hnd Hne] Hby] Hin. unfold syntheticName. rewrite bool_decide_eq_false_2.
  - by rewrite Hby, (proj2 (classes_by_name_spec _ _ cc Hnd) (conj Hin eq_refl)).
  - intros He. apply Hne. rewrite <- He. apply list_elem_of_fmap. eauto.
Qed.

(** Publishing the definitions of all classes of a domain. *)
Fixpoint publish (d : Z) (def : CPUClass → ClassDef) (cs : list CPUClass) s : S :=
  match cs with
  | [] => s
  | cc :: cs' => publish d def cs' (SetClassDef (synthetic (cc_Name cc) d) (def cc) s)
  end.

Lemma fold_publish a d def cs s : config_known a → (∀ cc, cc ∈ cs → cc ∈ fq_classes a) →
  fold_left (λ s cc, SetClassDef (syntheticName a (cc_Name cc) d) (def cc) s) cs s = publish d def cs s.
Proof.
  intros Hk. revert s. induction cs as [|cc cs IH]; intros s Hs; cbn; [done|].
  rewrite syntheticName_known by (done || (apply Hs; set_solver)). apply IH. set_solver.
Qed.

Lemma publish_other d def cs s name :
  (∀ cc, cc ∈ cs → name ≠ synthetic (cc_Name cc) d) → sink_def (publish d def cs s) name = sink_def s name.
Proof.
  revert s. induction cs as [|cc cs IH]; intros s Hn; cbn; [done|].
  rewrite IH by set_solver. rewrite SetClassDef_def by apply synthetic_nonempty.
  rewrite decide_False by (apply Hn; set_solver). done.
Qed.

Lemma publish_class d def cs s cpu : sink_class (publish d def cs s) cpu = sink_class s cpu.
Proof. revert s. induction cs as [|cc cs IH]; intros s; cbn; [done|]. by rewrite IH, SetClassDef_class. Qed.

Lemma publish_in d def cs s cc : NoDup (cc_Name <$> cs) → cc ∈ cs →
  sink_def (publish d def cs s) (synthetic (cc_Name cc) d) = Some (def cc).
Proof.
  revert s. induction cs as [|cc' cs IH]; intros s; cbn; [set_solver|].
  intros [Hni Hnd]%NoDup_cons [->|Hin]%elem_of_cons; [|by apply IH].
  rewrite publish_other.
  - rewrite SetClassDef_def, decide_True by (done || apply synthetic_nonempty). done.
  - intros cc Hcc [E _]%synthetic_inj. apply Hni. rewrite E. apply list_elem_of_fmap. eauto.
Qed.

Lemma publish_at d def cs s d' cc : NoDup (cc_Name <$> cs) → cc ∈ cs →
  sink_def (publish d def cs s) (synthetic (cc_Name cc) d')
  = if decide (d' = d) then Some (def cc) else sink_def s (synthetic (cc_Name cc) d').
Proof.
  intros Hnd Hin. case_decide as Hd; [subst; by apply publish_in|].
  apply publish_other. by intros cc' _ [_ ?]%synthetic_inj.
Qed.

(** [recalculateTurbo] only changes the winner of a domain. *)
Lemma recalculateTurbo_spec d a s a' s' :
  config_known a → defs_ok a s → recalculateTurbo d (a, s) = (a', s') →
  ∃ w, a' = with_winnerPrio w a ∧ defs_ok a' s' ∧
    (∀ cpu, sink_class s' cpu = sink_class s cpu) ∧
    (fq_classes a ≠ [] → w = <[d := winner_prio a d]> (fq_winnerPrio a)).
Proof.
  intros Hk Hd. unfold recalculateTurbo. case_bool_decide as Hc.
  { intros [= <- <-]. exists (fq_winnerPrio a). split_and!; [by destruct a|done..]. }
  case_bool_decide as Hw.
  { intros [= <- <-]. exists (fq_winnerPrio a). split_and!; [by destruct a|done..|]. intros _. by rewrite insert_id. }
  set (w := <[d := winner_prio a d]> (fq_winnerPrio a)). cbn. destruct (fq_turboInfo a) as [info|] eqn:Hi.
  - rewrite (fold_publish (with_winnerPrio w a) d
      (λ cc, classDefFromCPUClass cc (Some info) (effective_turbo info (winner_prio a d) cc))) by done.
    intros [= <- <-]. exists w. split_and!; [done| |intros; apply publish_class|done].
    intros d' cc Hcc. cbn in *. split; [|congruence]. intros w'. unfold expected_def. cbn. rewrite Hi.
    rewrite publish_at by (apply Hk || done). unfold w. case_decide as Hd'; [subst d'|].
    + rewrite lookup_insert_eq. by intros [= <-] _.
    + rewrite lookup_insert_ne by done. intros Hw' _.
      destruct (Hd d' cc Hcc) as [He _]. unfold expected_def in He. rewrite Hi in He. by apply He.
  - intros [= <- <-]. exists w. split_and!; [done| |done..].
    intros d' cc Hcc. destruct (Hd d' cc Hcc) as [_ He]. split; [cbn; congruence|]. exact He.
Qed.

Lemma with_winnerPrio_twice w w' a : with_winnerPrio w (with_winnerPrio w' a) = with_winnerPrio w a.
Proof. done. Qed.

(** All domains of a list. *)
Lemma recalculate_all ds a s a' s' :
  config_known a → defs_ok a s → fold_left (λ st d, recalculateTurbo d st) ds (a, s) = (a', s') →
  ∃ w, a' = with_winnerPrio w a ∧ defs_ok a' s' ∧
    (∀ cpu, sink_class s' cpu = sink_class s cpu) ∧
    (fq_classes a ≠ [] → ∀ d, w !! d = if decide (d ∈ ds) then Some (winner_prio a d) else fq_winnerPrio a !! d).
Proof.
  revert a s. induction ds as [|d ds IH]; intros a s Hk Hd Hf.
  { injection Hf as <- <-. exists (fq_winnerPrio a). split_and!; [by destruct a|done..]. }
  cbn [fold_left] in Hf. destruct (recalculateTurbo d (a, s)) as [a1 s1] eqn:E1.
  destruct (recalculateTurbo_spec d a s a1 s1 Hk Hd E1) as (w1 & -> & Hd1 & Hc1 & Hw1).
  destruct (IH (with_winnerPrio w1 a) s1 Hk Hd1 Hf) as (w & -> & Hd' & Hc' & Hw).
  exists w. split_and!; [done|done|intros; by rewrite Hc'|].
  intros Hne d'. rewrite Hw by done. cbn. rewrite (winner_prio_ext a) by done. rewrite Hw1 by done.
  destruct (decide (d' = d)) as [->|]; [rewrite lookup_insert_eq|rewrite lookup_insert_ne by done];
    repeat case_decide; set_solver.
Qed.

(** *** Using a class *)

Definition allowed_cpus (allowed cpus : CPUSet) : CPUSet :=
  if bool_decide (Z.of_nat (size allowed) > 0) then cpus ∩ allowed else cpus.

Lemma allowed_cpus_in (allowed cpus : CPUSet) cpu : cpu ∈ allowed → cpu ∈ allowed_cpus allowed cpus ↔ cpu ∈ cpus.
Proof. intros Hc. unfold allowed_cpus. case_bool_decide; [rewrite elem_of_intersection; tauto|done]. Qed.

Definition used (allowed : CPUSet) (className : string) (cpus : CPUSet) (use : Z → option string) : Z → option string :=
  λ cpu, if decide (cpu ∈ allowed_cpus allowed cpus) then Some className else use cpu.

(** Publishing the assignments of CPUs by domain. *)
Lemma assign_all a className l s cpu :
  Forall (λ dc : Z * CPUSet, cpu ∈ dc.2 → dc.1 = domain_of a cpu) l →
  let s' := fold_left (λ s dc, AssignCPUs (syntheticName a className dc.1) (UnsortedList dc.2) s) l s in
  (∀ name, sink_def s' name = sink_def s name) ∧
  sink_class s' cpu = if decide (Exists (λ dc : Z * CPUSet, cpu ∈ dc.2) l)
    then Some (syntheticName a className (domain_of a cpu)) else sink_class s cpu.
Proof.
  cbn zeta. intros Hl. revert s. induction l as [|[d set] l IH]; intros s.
  { split; [done|]. rewrite decide_False; [done|]. by intros ?%Exists_nil. }
  apply Forall_cons in Hl as [Hd Hl]. cbn [fold_left fst snd] in *.
  destruct (IH Hl (AssignCPUs (syntheticName a className d) (UnsortedList set) s)) as [Hdef Hcls].
  split; [intros name; rewrite Hdef; apply AssignCPUs_def|]. rewrite Hcls, AssignCPUs_class.
  destruct (decide (Exists _ l)) as [He|He].
  - by rewrite (decide_True (P:=Exists _ (_ :: _))) by (by right).
  - destruct (decide (cpu ∈ set)) as [Hc|Hc].
    + rewrite decide_True by (by rewrite elem_of_UnsortedList). rewrite (decide_True (P:=Exists _ (_ :: _))) by (by left).
      by rewrite Hd.
    + rewrite decide_False by (by rewrite elem_of_UnsortedList).
      rewrite (decide_False (P:=Exists _ (_ :: _))) by (by intros [?|?]%Exists_cons). done.
Qed.

(** The domains of the CPUs of a set. *)
Lemma elem_of_by_domain a cpus d set cpu : (d, set) ∈ map_range (cpusByDomain a cpus) →
  cpu ∈ set ↔ cpu ∈ cpus ∧ domain_of a cpu = d.
Proof.
  rewrite elem_of_map_range. intros Hl. destruct (cpusByDomain_spec a cpus d) as [Hs _].
  rewrite Hl in Hs. apply Hs.
Qed.

Lemma by_domain_exists a cpus cpu :
  Exists (λ dc : Z * CPUSet, cpu ∈ dc.2) (map_range (cpusByDomain a cpus)) ↔ cpu ∈ cpus.
Proof.
  rewrite Exists_exists. split.
  - intros ([d set] & Hin & Hc). by apply (elem_of_by_domain _ _ _ _ _ Hin) in Hc as [? _].
  - intros Hc. destruct (cpusByDomain_spec a cpus (domain_of a cpu)) as [Hs _].
    specialize (Hs cpu). destruct (cpusByDomain a cpus !! domain_of a cpu) as [set|] eqn:E; cbn in Hs.
    + exists (domain_of a cpu, set). rewrite elem_of_map_range. set_solver.
    + set_solver.
Qed.

Lemma by_domain_keys a cpus d :
  d ∈ (map_range (cpusByDomain a cpus)).*1 ↔ ∃ cpu, cpu ∈ cpus ∧ domain_of a cpu = d.
Proof.
  rewrite list_elem_of_fmap. split.
  - intros ([d' set] & -> & Hin%elem_of_map_range). apply (cpusByDomain_spec a cpus d'). eauto.
  - intros (cpu & Hc & <-). apply (by_domain_exists a) in Hc. apply Exists_exists in Hc as ([d set] & Hin & Hc).
    exists (d, set). split; [|done]. by apply (elem_of_by_domain _ _ _ _ _ Hin) in Hc as [_ ?].
Qed.

(** The CPUs in use once a class is used for a set of CPUs. *)
Lemma active_used a className cpus (use : Z → option string) :
  (∀ cpu d n, cpu ∈ active a d n ↔ use cpu = Some n ∧ n ≠ "" ∧ domain_of a cpu = d) →
  let a1 := removeCpusFromAllClasses cpus a in
  let a2 := if bool_decide (className ≠ "") then fold_left (activate className) (map_range (cpusByDomain a1 cpus)) a1 else a1 in
  a2 = with_activeCpus (fq_activeCpus a2) a ∧
  ∀ cpu d n, cpu ∈ active a2 d n ↔
    (if decide (cpu ∈ cpus) then Some className else use cpu) = Some n ∧ n ≠ "" ∧ domain_of a cpu = d.
Proof.
  intros Ha a1 a2. split.
  { unfold a2. case_bool_decide; [by rewrite fold_activate_core|done]. }
  intros cpu d n.
  assert (Hr : cpu ∈ active a1 d n ↔ cpu ∉ cpus ∧ use cpu = Some n ∧ n ≠ "" ∧ domain_of a cpu = d).
  { unfold a1. rewrite active_remove, elem_of_difference, Ha. tauto. }
  assert (Hex : (∃ set : CPUSet, (d, set) ∈ map_range (cpusByDomain a1 cpus) ∧ cpu ∈ set) ↔ cpu ∈ cpus ∧ domain_of a cpu = d).
  { split.
    - intros (set & Hin & Hc). by apply (elem_of_by_domain _ _ _ _ _ Hin) in Hc.
    - intros [Hc Hd]. apply (by_domain_exists a1) in Hc. apply Exists_exists in Hc as ([d' set] & Hin & Hc).
      cbn in Hc. exists set. pose proof Hc as Hc'. apply (elem_of_by_domain _ _ _ _ _ Hin) in Hc' as [_ Hd'].
      change (domain_of a1 cpu) with (domain_of a cpu) in Hd'. by subst d d'. }
  unfold a2. case_bool_decide as Hne.
  - rewrite elem_of_active_fold, Hr, Hex. case_decide; naive_solver.
  - rewrite Hr. case_decide; naive_solver.
Qed.

Lemma FreqUseClass_inv className cpus a s use a' s' :
  turbo_inv a s use → FreqUseClass className cpus (a, s) = (a', s') →
  turbo_inv a' s' (used (fq_allowed a) className cpus use) ∧
  fq_classes a' = fq_classes a ∧ fq_classByName a' = fq_classByName a ∧ fq_turboInfo a' = fq_turboInfo a ∧
  fq_allowed a' = fq_allowed a ∧ fq_cpuDomain a' = fq_cpuDomain a ∧ fq_domains a' = fq_domains a.
Proof.
  intros Hi. unfold FreqUseClass. fold (allowed_cpus (fq_allowed a) cpus). unfold used.
  set (cs := allowed_cpus (fq_allowed a) cpus).
  case_bool_decide as Hcs.
  { intros [= <- <-]. split_and!; [|done..]. destruct Hi.
    split; try done; [intros cpu d n|intros Hne cpu|intros cpu n]; rewrite decide_False by set_solver; auto. }
  unfold resolveClassName.
  destruct (active_used a className cs use (ti_active _ _ _ Hi)) as [Hcore Hact].
  set (a1 := removeCpusFromAllClasses cs a) in *. set (bd := cpusByDomain a1 cs) in *.
  set (a2 := if bool_decide (className ≠ "") then _ else a1) in *.
  destruct (fold_left _ (map_range bd).*1 (a2, s)) as [a3 s3] eqn:E3.
  assert (Hk2 : config_known a2) by (rewrite Hcore; apply Hi).
  assert (Hd2 : defs_ok a2 s) by (rewrite Hcore; apply (ti_defs _ _ _ Hi)).
  destruct (recalculate_all _ _ _ _ _ Hk2 Hd2 E3) as (w & -> & Hd3 & Hc3 & Hw).
  intros [= <- <-]. set (a3 := with_winnerPrio w a2) in *.
  assert (Hs : ∀ cpu, Forall (λ dc : Z * CPUSet, cpu ∈ dc.2 → dc.1 = domain_of a3 cpu) (map_range bd)).
  { intros cpu. apply Forall_forall. intros [d set] Hin Hc. apply (elem_of_by_domain _ _ _ _ _ Hin) in Hc as [_ <-].
    unfold a3. rewrite Hcore. done. }
  assert (Hdom : ∀ cpu, domain_of a3 cpu = domain_of a cpu) by (intros; unfold a3; by rewrite Hcore).
  assert (Hw2 : ∀ d, winner_prio a3 d = winner_prio a2 d) by (intros; by apply winner_prio_ext).
  assert (Hfq : fq_classes a3 = fq_classes a ∧ fq_winnerPrio a2 = fq_winnerPrio a) by (unfold a3; by rewrite Hcore).
  destruct Hfq as [Hcl Hwp].
  split_and!; [|unfold a3; rewrite Hcore; done..]. split.
  - unfold a3. rewrite Hcore. apply Hi.
  - intros cpu d n. rewrite Hdom. apply Hact.
  - rewrite Hcl. intros Hne d w'. rewrite Hw2. cbn. rewrite Hw by (by rewrite Hcore). case_decide as Hin; [by intros [= <-]|].
    rewrite Hwp. intros Hold. rewrite (ti_winner _ _ _ Hi Hne d w' Hold). symmetry. apply winner_prio_ext; [by rewrite Hcore|].
    intros n. apply set_eq. intros cpu. rewrite Hact, (ti_active _ _ _ Hi). unfold bd in Hin. rewrite by_domain_keys in Hin.
    case_decide; [|done]. split; [|naive_solver]. intros (_ & _ & Hd'). destruct Hin. exists cpu. split; [done|].
    unfold a1. done.
  - rewrite Hcl. intros Hne cpu Hu. rewrite Hdom. cbn. rewrite Hw by (by rewrite Hcore).
    destruct (decide (_ ∈ (map_range bd).*1)) as [Hin|Hin]; [by eexists|]. rewrite Hwp. apply (ti_recalc _ _ _ Hi Hne).
    destruct (decide (cpu ∈ cs)); [|done]. exfalso. apply Hin. unfold bd. apply by_domain_keys. by exists cpu.
  - intros d cc Hcc. destruct (assign_all a3 className (map_range bd) s3 0 (Hs 0)) as [Hdef _].
    rewrite !Hdef. by apply Hd3.
  - intros cpu n Hu. destruct (assign_all a3 className (map_range bd) s3 cpu (Hs cpu)) as [_ Hcls].
    rewrite Hcls. destruct (decide (cpu ∈ cs)) as [Hc|Hc].
    + rewrite decide_True by (by apply by_domain_exists). by injection Hu as ->.
    + rewrite decide_False by (unfold bd; by rewrite by_domain_exists). rewrite Hc3, (ti_class _ _ _ Hi cpu n Hu).
      unfold a3. by rewrite Hcore.
Qed.

(** *** Configuring *)

Lemma push_domains a def cc ds s : config_known a → cc ∈ fq_classes a →
  fold_left (λ s d, SetClassDef (syntheticName a (cc_Name cc) d) def s) ds s
  = fold_left (λ s d, SetClassDef (synthetic (cc_Name cc) d) def s) ds s.
Proof.
  intros Hk Hcc. revert s. induction ds as [|d ds IH]; intros s; cbn; [done|]. by rewrite syntheticName_known, IH.
Qed.

Lemma push_defs (def : CPUClass → ClassDef) cc' ds s name :
  sink_def (fold_left (λ s d, SetClassDef (synthetic (cc_Name cc') d) (def cc') s) ds s) name
  = if decide (Exists (λ d, name = synthetic (cc_Name cc') d) ds) then Some (def cc') else sink_def s name.
Proof.
  revert s. induction ds as [|d ds IH]; intros s; cbn [fold_left].
  { rewrite decide_False; [done|]. by intros ?%Exists_nil. }
  rewrite IH, SetClassDef_def by apply synthetic_nonempty.
  destruct (decide (Exists _ ds)) as [He|He].
  - by rewrite (decide_True (P:=Exists _ (_ :: _))) by (by right).
  - case_decide as Hd.
    + by rewrite (decide_True (P:=Exists _ (_ :: _))) by (by left).
    + rewrite (decide_False (P:=Exists _ (_ :: _))); [done|]. by intros [?|?]%Exists_cons.
Qed.

Lemma pushInitial_def a s cc d : config_known a → cc ∈ fq_classes a → d ∈ fq_domains a →
  sink_def (pushInitialClassDefinitions a s) (synthetic (cc_Name cc) d)
  = Some (classDefFromCPUClass cc (fq_turboInfo a) 0).
Proof.
  intros Hk Hcc Hd. unfold pushInitialClassDefinitions. rewrite bool_decide_eq_false_2 by (intros E; rewrite E in Hd; set_solver).
  set (def cc := classDefFromCPUClass cc (fq_turboInfo a) 0).
  assert (Hf : ∀ cs s, (∀ cc, cc ∈ cs → cc ∈ fq_classes a) → NoDup (cc_Name <$> cs) →
    cc ∈ cs ∨ (cc_Name cc ∉ cc_Name <$> cs ∧ sink_def s (synthetic (cc_Name cc) d) = Some (def cc)) →
    sink_def (fold_left (λ s cc, fold_left (λ s d, SetClassDef (syntheticName a (cc_Name cc) d) (def cc) s) (fq_domains a) s) cs s)
      (synthetic (cc_Name cc) d) = Some (def cc)).
  { induction cs as [|cc' cs IH]; intros s0 Hsub Hnd Hor; cbn [fold_left]; [set_solver|].
    rewrite fmap_cons in Hnd. apply NoDup_cons in Hnd as [Hni Hnd].
    apply IH; [set_solver|done|]. rewrite (push_domains a (def cc')) by (done || (apply Hsub; set_solver)).
    rewrite push_defs. destruct Hor as [[<-|Hin]%elem_of_cons|[Hno Hdef]]; [|by left|].
    - right. split; [done|]. rewrite decide_True; [done|]. apply Exists_exists. eauto.
    - right. rewrite fmap_cons, not_elem_of_cons in Hno. split; [tauto|]. rewrite decide_False; [done|].
      intros (d' & _ & [? _]%synthetic_inj)%Exists_exists. tauto. }
  apply Hf; [done|apply Hk|by left].
Qed.

(** The domain of a CPU by the configuration. *)
Definition configured_domain (sys : ClsSys) (turboDomain : string) (allowed : CPUSet) (cpu : Z) : option Z :=
  if bool_decide (cpu ∈ cy_CPUIDs sys) && negb (bool_decide (Z.of_nat (size allowed) > 0) && negb (bool_decide (cpu ∈ allowed)))
  then (λ c, if bool_decide (turboDomain = turboDomainSystem) then systemDomainID else ci_PackageID c) <$> cy_CPU sys cpu
  else None.

Lemma cpu_domains_fold sys mode allowed ids st cpu :
  let st' := fold_left (cpu_domain_step sys mode allowed) ids st in
  (st'.1 !! cpu = if bool_decide (cpu ∈ ids) && negb (bool_decide (Z.of_nat (size allowed) > 0) && negb (bool_decide (cpu ∈ allowed)))
     then match cy_CPU sys cpu with
          | Some c => Some (if bool_decide (mode = turboDomainSystem) then systemDomainID else ci_PackageID c)
          | None => st.1 !! cpu
          end else st.1 !! cpu) ∧
  ((∀ cpu d, st.1 !! cpu = Some d → is_Some (st.2 !! d)) → ∀ cpu d, st'.1 !! cpu = Some d → is_Some (st'.2 !! d)).
Proof.
  cbn zeta. revert st. induction ids as [|id ids IH]; intros st; [by split|]. cbn [fold_left].
  destruct (IH (cpu_domain_step sys mode allowed st id)) as [Hd Hs]. clear IH. split.
  - rewrite Hd. clear Hd Hs.
    set (out := bool_decide (Z.of_nat (size allowed) > 0)).
    assert (Hstep : (cpu_domain_step sys mode allowed st id).1 !! cpu
      = if bool_decide (cpu = id) && negb (out && negb (bool_decide (cpu ∈ allowed)))
        then match cy_CPU sys cpu with
             | Some c => Some (if bool_decide (mode = turboDomainSystem) then systemDomainID else ci_PackageID c)
             | None => st.1 !! cpu
             end else st.1 !! cpu).
    { unfold cpu_domain_step. fold out. destruct (decide (cpu = id)) as [Hc|Hc];
        [rewrite (bool_decide_eq_true_2 (cpu = id)) by done|rewrite (bool_decide_eq_false_2 (cpu = id)) by done]; cbn [andb].
      - subst id. destruct (out && _); cbn [negb]; [done|]. destruct (cy_CPU sys cpu); [|done]. cbn. by rewrite lookup_insert_eq.
      - destruct (out && _); [done|]. destruct (cy_CPU sys id); [|done]. cbn. by rewrite lookup_insert_ne. }
    rewrite Hstep. clear Hstep.
    destruct (out && negb (bool_decide (cpu ∈ allowed))); cbn [negb]; rewrite ?andb_false_r, ?andb_true_r; [done|].
    repeat case_bool_decide; destruct (cy_CPU sys cpu); set_solver.
  - intros Hst. apply Hs. clear Hd Hs. intros cpu' d. unfold cpu_domain_step. destruct (_ && _); [apply Hst|].
    destruct (cy_CPU sys id) as [c|]; [|apply Hst]. cbn. set (d0 := if bool_decide _ then _ else _).
    destruct (decide (cpu' = id)) as [->|]; [rewrite lookup_insert_eq|rewrite lookup_insert_ne by done].
    + intros [= <-]. rewrite lookup_insert_eq. by eexists.
    + intros Hl%Hst. destruct (decide (d = d0)) as [->|]; [rewrite lookup_insert_eq; by eexists|by rewrite lookup_insert_ne].
Qed.

Definition domains_ok a : Prop := ∀ cpu d, fq_cpuDomain a !! cpu = Some d → d ∈ fq_domains a.

Lemma buildCpuDomains_spec sys a :
  let a' := buildCpuDomains sys a in
  domains_ok a' ∧ (∀ cpu, fq_cpuDomain a' !! cpu = configured_domain sys (fq_turboDomain a) (fq_allowed a) cpu) ∧
  a' = with_winnerPrio (fq_winnerPrio a') (with_domains (fq_cpuDomain a') (fq_domains a') a).
Proof.
  cbn zeta. unfold buildCpuDomains. set (mode := if bool_decide _ then _ else _).
  assert (Hm : bool_decide (mode = turboDomainSystem) = bool_decide (fq_turboDomain a = turboDomainSystem)).
  { unfold mode. destruct (decide (fq_turboDomain a = "")) as [Hx|Hx].
    - rewrite Hx. reflexivity.
    - by rewrite (bool_decide_eq_false_2 (fq_turboDomain a = "")). }
  pose proof (cpu_domains_fold sys mode (fq_allowed a) (cy_CPUIDs sys) (∅, ∅)) as Hf. cbn zeta in Hf.
  destruct (fold_left _ _ _) as [cd seen]. cbn in *. split_and!; [|intros cpu|done].
  - intros cpu d Hl. cbn. apply (elem_of_map_range_keys seen). 
    destruct (Hf 0) as [_ Hs]. eapply Hs; [by intros ?? ?%lookup_empty_Some|done].
  - destruct (Hf cpu) as [Hl _]. rewrite Hl, Hm. unfold configured_domain. rewrite lookup_empty.
    destruct (_ && _); [|done]. by destruct (cy_CPU sys cpu).
Qed.

Lemma FreqConfigure_inv sys classes turboDomain allowed a s a' s' :
  names_ok classes → FreqConfigure sys classes turboDomain allowed a s = ((a', s'), None) →
  turbo_inv a' s' (λ _, None) ∧ fq_classes a' = classes ∧ fq_allowed a' = allowed ∧
  fq_turboInfo a' = fq_turboInfo a ∧ domains_ok a' ∧
  (∀ cpu, fq_cpuDomain a' !! cpu = configured_domain sys turboDomain allowed cpu).
Proof.
  intros Hn. unfold FreqConfigure. case_bool_decide as Ht; [done|].
  set (a0 := with_freq_config classes (classes_by_name classes) turboDomain allowed a).
  destruct (buildCpuDomains_spec sys a0) as (Hdo & Hcd & Hb). cbn zeta in *.
  set (a1 := buildCpuDomains sys a0) in *. intros [= <- <-].
  assert (Hk : config_known (with_winnerPrio ∅ (with_activeCpus ∅ a1))) by (rewrite Hb; split; done).
  assert (Hf : fq_classes a1 = classes ∧ fq_allowed a1 = allowed ∧ fq_turboInfo a1 = fq_turboInfo a) by (by rewrite Hb).
  split_and!; try apply Hf; [|done|done]. split.
  - exact Hk.
  - intros cpu d n. unfold active. cbn. rewrite lookup_empty. cbn. naive_solver set_solver.
  - intros _ d w. cbn. by rewrite lookup_empty.
  - by intros _ cpu [? ?].
  - intros d cc Hcc. split; [intros w; cbn; by rewrite lookup_empty|]. intros Hd Hi.
    rewrite (pushInitial_def _ _ cc d Hk Hcc Hd). unfold expected_def. by rewrite Hi.
  - done.
Qed.

(** What is published for a CPU in use. *)
Lemma published a s use cpu cc :
  turbo_inv a s use → domains_ok a → cc ∈ fq_classes a → use cpu = Some (cc_Name cc) →
  fq_turboInfo a ≠ None ∨ is_Some (fq_cpuDomain a !! cpu) →
  sink_class s cpu = Some (synthetic (cc_Name cc) (domain_of a cpu)) ∧
  sink_def s (synthetic (cc_Name cc) (domain_of a cpu))
  = Some (expected_def a (winner_prio a (domain_of a cpu)) cc).
Proof.
  intros Hi Hdo Hcc Hu Hor. pose proof (ti_class _ _ _ Hi cpu _ Hu) as Hc.
  rewrite syntheticName_known in Hc by (done || apply Hi). split; [done|].
  assert (Hne : fq_classes a ≠ []) by (intros E; rewrite E in Hcc; set_solver).
  destruct (ti_recalc _ _ _ Hi Hne cpu) as [w Hw]; [by eexists|].
  destruct (ti_defs _ _ _ Hi (domain_of a cpu) cc Hcc) as [Hd1 Hd2].
  rewrite <- (ti_winner _ _ _ Hi Hne _ _ Hw). destruct (fq_turboInfo a) as [info|] eqn:Ht; [by apply Hd1|].
  destruct Hor as [|[d Hd]]; [done|]. rewrite Hd2 by (done || (unfold domain_of; rewrite Hd; eapply Hdo; exact Hd)).
  unfold expected_def. by rewrite Ht.
Qed.

End turbo.
