(* ===== verification/ClsFacts.v ===== *)
(** * What the handler of CPU classes enforces

    The handler tracks exactly the CPUs whose settings may be out of date
    ([cpu_def] and [dirty]), its writers remember exactly what was last written,
    and so, after Commit, the platform has been told the frequencies of the
    class every CPU was last used for, with turbo frequencies for the classes of
    the highest priority in use only, and every die has the highest uncore
    frequencies of the classes in use on it. *)

From S2P Require Import Prelude GoStrings MemNodes CpuTree CpuResizeFacts BlnTypes BlnConfig ClsFreq ClsPct ClsHandler ClsTurbo.

(** ** The log *)

(** A setting of the platform. *)
Inductive Setting :=
  | SMin (cpu : Z)
  | SMax (cpu : Z)
  | SGov (cpu : Z)
  | SUncoreMin (key : DieKey)
  | SUncoreMax (key : DieKey).

#[export] Instance Setting_eq_dec : EqDecision Setting.
Proof. solve_decision. Defined.

Definition setting_of (w : Write) : option (Setting * (Z + string)) :=
  match w with
  | WMin cpu kHz => Some (SMin cpu, inl kHz)
  | WMax cpu kHz => Some (SMax cpu, inl kHz)
  | WGov cpu governor => Some (SGov cpu, inr governor)
  | WUncoreMin pkg die kHz => Some (SUncoreMin (pkg, die), inl kHz)
  | WUncoreMax pkg die kHz => Some (SUncoreMax (pkg, die), inl kHz)
  | WCstates _ _ _ => None
  end.

Definition written_value (w : Write) (k : Setting) : option (Z + string) :=
  match setting_of w with
  | Some (k', v) => if decide (k' = k) then Some v else None
  | None => None
  end.

(** The last value that was written successfully, the last one tried, and
    whether a write has failed. *)
Fixpoint in_effect (log : Log) (k : Setting) : option (Z + string) :=
  match log with
  | [] => None
  | (w, ok) :: log' =>
      match written_value w k with
      | Some v => if (ok : bool) then Some v else in_effect log' k
      | None => in_effect log' k
      end
  end.

Fixpoint last_tried (log : Log) (k : Setting) : option (Z + string) :=
  match log with
  | [] => None
  | (w, _) :: log' => match written_value w k with Some v => Some v | None => last_tried log' k end
  end.

Definition failed (log : Log) (k : Setting) : Prop :=
  Exists (λ wo : Write * bool, is_Some (written_value wo.1 k) ∧ wo.2 = false) log.

Lemma tried_in_effect log k : ¬ failed log k → in_effect log k = last_tried log k.
Proof.
  induction log as [|[w ok] log IH]; cbn; [done|]. intros Hf.
  assert (¬ failed log k) by (intros ?; apply Hf; by right).
  destruct (written_value w k) as [v|] eqn:Hw; [|auto]. destruct ok; [done|].
  destruct Hf. left. cbn. rewrite Hw. by split.
Qed.

Lemma last_tried_write E w st k : last_tried (try_write E w st).1 k
  = match setting_of w with
    | Some (k', v) => if decide (k' = k) then Some v else last_tried st.1 k
    | None => last_tried st.1 k
    end.
Proof. cbn. unfold written_value. destruct (setting_of w) as [[k' v]|]; [|done]. by case_decide. Qed.

(** ** The writer of frequencies *)

Definition of_cpu (cpu : Z) (k : Setting) : Prop := k = SMin cpu ∨ k = SMax cpu ∨ k = SGov cpu.

(** What is remembered of a CPU was last tried. *)
Definition remembered (log : Log) (cpu : Z) (st : cpufreqWritten) : Prop :=
  (fw_hasMin st = true → last_tried log (SMin cpu) = Some (inl (i64 (fw_min st)))) ∧
  (fw_hasMax st = true → last_tried log (SMax cpu) = Some (inl (i64 (fw_max st)))) ∧
  (fw_hasGov st = true → last_tried log (SGov cpu) = Some (inr (fw_governor st))).

(** What a definition asks for is remembered. *)
Definition in_place (def : ClassDef) (st : cpufreqWritten) : Prop :=
  (0 < df_MinFreq def → fw_hasMin st = true ∧ fw_min st = df_MinFreq def) ∧
  (0 < df_MaxFreq def → fw_hasMax st = true ∧ fw_max st = df_MaxFreq def) ∧
  (df_FreqGovernor def ≠ "" → fw_hasGov st = true ∧ fw_governor st = df_FreqGovernor def).

Definition written_at (written : gmap Z cpufreqWritten) (cpu : Z) : cpufreqWritten :=
  default nothing_written (written !! cpu).

Lemma remembered_same log log' cpu st :
  (∀ k, of_cpu cpu k → last_tried log' k = last_tried log k) → remembered log cpu st → remembered log' cpu st.
Proof. intros Hs (?&?&?). unfold remembered. rewrite !Hs by (unfold of_cpu; auto). done. Qed.

Section writer.
Context (E : HwEnv).
Implicit Types (st : cpufreqWritten) (lg : Log * option error).

(** One setting of one CPU. *)
Lemma enforce_min_spec cpu m st lg st' lg' :
  remembered lg.1 cpu st → enforce_min E cpu m (st, lg) = (st', lg') →
  remembered lg'.1 cpu st' ∧ (0 < m → fw_hasMin st' = true ∧ fw_min st' = m) ∧
  fw_hasMax st' = fw_hasMax st ∧ fw_max st' = fw_max st ∧
  fw_hasGov st' = fw_hasGov st ∧ fw_governor st' = fw_governor st ∧
  (∀ k, ¬ of_cpu cpu k → last_tried lg'.1 k = last_tried lg.1 k).
Proof.
  intros (Hr1 & Hr2 & Hr3). unfold enforce_min. destruct (_ && _) eqn:Hb; intros [= <- <-].
  - clear Hb. unfold remembered. setoid_rewrite last_tried_write. cbn. unfold of_cpu.
    repeat case_decide; try congruence. split_and!; try done. intros k Hk. case_decide; naive_solver.
  - split_and!; try done. intros Hm. rewrite bool_decide_eq_true_2 in Hb by lia. cbn in Hb.
    apply orb_false_iff in Hb as [Hb1 Hb2]. apply negb_false_iff in Hb1. apply bool_decide_eq_false in Hb2.
    split; [done|]. by destruct (decide (fw_min st = m)).
Qed.

Lemma enforce_max_spec cpu m st lg st' lg' :
  remembered lg.1 cpu st → enforce_max E cpu m (st, lg) = (st', lg') →
  remembered lg'.1 cpu st' ∧ (0 < m → fw_hasMax st' = true ∧ fw_max st' = m) ∧
  fw_hasMin st' = fw_hasMin st ∧ fw_min st' = fw_min st ∧
  fw_hasGov st' = fw_hasGov st ∧ fw_governor st' = fw_governor st ∧
  (∀ k, ¬ of_cpu cpu k → last_tried lg'.1 k = last_tried lg.1 k).
Proof.
  intros (Hr1 & Hr2 & Hr3). unfold enforce_max. destruct (_ && _) eqn:Hb; intros [= <- <-].
  - clear Hb. unfold remembered. setoid_rewrite last_tried_write. cbn. unfold of_cpu.
    repeat case_decide; try congruence. split_and!; try done. intros k Hk. case_decide; naive_solver.
  - split_and!; try done. intros Hm. rewrite bool_decide_eq_true_2 in Hb by lia. cbn in Hb.
    apply orb_false_iff in Hb as [Hb1 Hb2]. apply negb_false_iff in Hb1. apply bool_decide_eq_false in Hb2.
    split; [done|]. by destruct (decide (fw_max st = m)).
Qed.

Lemma enforce_gov_spec cpu g st lg st' lg' :
  remembered lg.1 cpu st → enforce_gov E cpu g (st, lg) = (st', lg') →
  remembered lg'.1 cpu st' ∧ (g ≠ "" → fw_hasGov st' = true ∧ fw_governor st' = g) ∧
  fw_hasMin st' = fw_hasMin st ∧ fw_min st' = fw_min st ∧
  fw_hasMax st' = fw_hasMax st ∧ fw_max st' = fw_max st ∧
  (∀ k, ¬ of_cpu cpu k → last_tried lg'.1 k = last_tried lg.1 k).
Proof.
  intros (Hr1 & Hr2 & Hr3). unfold enforce_gov. destruct (_ && _) eqn:Hb; intros [= <- <-].
  - clear Hb. unfold remembered. setoid_rewrite last_tried_write. cbn. unfold of_cpu.
    repeat case_decide; try congruence. split_and!; try done. intros k Hk. case_decide; naive_solver.
  - split_and!; try done. intros Hm. rewrite bool_decide_eq_true_2 in Hb by done. cbn in Hb.
    apply orb_false_iff in Hb as [Hb1 Hb2]. apply negb_false_iff in Hb1. apply bool_decide_eq_false in Hb2.
    split; [done|]. by destruct (decide (fw_governor st = g)).
Qed.

(** What is remembered of all CPUs. *)
Definition all_remembered (log : Log) (written : gmap Z cpufreqWritten) : Prop :=
  ∀ cpu, remembered log cpu (written_at written cpu).

Lemma enforce_cpu_spec def written lg cpu written' lg' :
  all_remembered lg.1 written → enforce_cpu E def (written, lg) cpu = (written', lg') →
  all_remembered lg'.1 written' ∧ in_place def (written_at written' cpu) ∧
  (∀ cpu', cpu' ≠ cpu → written_at written' cpu' = written_at written cpu') ∧
  (∀ k, ¬ of_cpu cpu k → last_tried lg'.1 k = last_tried lg.1 k).
Proof.
  intros Hr. unfold enforce_cpu. cbn [fst snd]. fold (written_at written cpu).
  destruct (enforce_min E cpu (df_MinFreq def) (written_at written cpu, lg)) as [s1 l1] eqn:E1.
  destruct (enforce_max E cpu (df_MaxFreq def) (s1, l1)) as [s2 l2] eqn:E2.
  destruct (enforce_gov E cpu (df_FreqGovernor def) (s2, l2)) as [s3 l3] eqn:E3.
  apply enforce_min_spec in E1 as (R1 & P1 & ? & ? & ? & ? & F1); [|apply Hr].
  apply enforce_max_spec in E2 as (R2 & P2 & ? & ? & ? & ? & F2); [|done].
  apply enforce_gov_spec in E3 as (R3 & P3 & ? & ? & ? & ? & F3); [|done].
  assert (Hk : ∀ k, ¬ of_cpu cpu k → last_tried l3.1 k = last_tried lg.1 k)
    by (intros k Hk; rewrite F3, F2, F1 by done; done).
  assert (Hat : ∀ c, written_at (<[cpu := s3]> written) c = if decide (c = cpu) then s3 else written_at written c).
  { intros c. unfold written_at. case_decide as Hc; [subst; by rewrite lookup_insert_eq|by rewrite lookup_insert_ne]. }
  intros [= <- <-]. split_and!; [|rewrite Hat, decide_True by done|intros c Hc; by rewrite Hat, decide_False|exact Hk].
  - intros c. rewrite Hat. case_decide as Hc; [by subst|]. eapply remembered_same; [|apply Hr].
    intros k [->|[->| ->]]; apply Hk; unfold of_cpu; naive_solver.
  - unfold in_place. naive_solver congruence.
Qed.

(** The CPUs of a list. *)
Lemma FreqEnforce_spec def cpus written log written' lg' :
  all_remembered log written → FreqEnforce E def cpus written log = (written', lg') →
  all_remembered lg'.1 written' ∧ (∀ cpu, cpu ∈ cpus → in_place def (written_at written' cpu)) ∧
  (∀ cpu, cpu ∉ cpus → written_at written' cpu = written_at written cpu) ∧
  (∀ k, (∀ cpu, cpu ∈ cpus → ¬ of_cpu cpu k) → last_tried lg'.1 k = last_tried log k).
Proof.
  unfold FreqEnforce. change log with ((log, @None error).1) at 1 3. generalize (log, @None error).
  revert written. induction cpus as [|cpu cpus IH]; intros written lg Hr; cbn [fold_left].
  { intros [= <- <-]. split_and!; [done|set_solver|done..]. }
  destruct (enforce_cpu E def (written, lg) cpu) as [w1 l1] eqn:E1.
  destruct (enforce_cpu_spec _ _ _ _ _ _ Hr E1) as (R1 & P1 & O1 & F1).
  intros H2. destruct (IH _ _ R1 H2) as (R2 & P2 & O2 & F2). split_and!; [done| | |].
  - intros c Hc. destruct (decide (c ∈ cpus)); [auto|]. assert (c = cpu) as -> by set_solver. by rewrite O2.
  - intros c Hc. rewrite O2, O1 by set_solver. done.
  - intros k Hk. rewrite F2, F1; [done|..]; [apply Hk; set_solver|intros; apply Hk; set_solver].
Qed.

(** A write is not tried again, whether or not it succeeded. *)
Lemma in_place_quiet def cpu st lg : in_place def st →
  enforce_gov E cpu (df_FreqGovernor def)
    (enforce_max E cpu (df_MaxFreq def) (enforce_min E cpu (df_MinFreq def) (st, lg))) = (st, lg).
Proof.
  intros (P1 & P2 & P3).
  assert (Hmin : enforce_min E cpu (df_MinFreq def) (st, lg) = (st, lg)).
  { unfold enforce_min. case_bool_decide as Hm; [|done]. destruct P1 as [-> ->]; [lia|].
    by rewrite bool_decide_eq_false_2 by tauto. }
  assert (Hmax : enforce_max E cpu (df_MaxFreq def) (st, lg) = (st, lg)).
  { unfold enforce_max. case_bool_decide as Hm; [|done]. destruct P2 as [-> ->]; [lia|].
    by rewrite bool_decide_eq_false_2 by tauto. }
  rewrite Hmin, Hmax. unfold enforce_gov. case_bool_decide as Hm; [|done]. destruct P3 as [-> ->]; [done|].
  by rewrite bool_decide_eq_false_2 by tauto.
Qed.

Lemma FreqEnforce_again def cpus written log written' lg' log2 :
  all_remembered log written → FreqEnforce E def cpus written log = (written', lg') →
  (FreqEnforce E def cpus written' log2).2 = (log2, None).
Proof.
  intros Hr He. destruct (FreqEnforce_spec _ _ _ _ _ _ Hr He) as (_ & P & _). clear Hr He. unfold FreqEnforce.
  revert P. generalize (@None error). intros err. revert written'.
  assert (Hf : ∀ l w lg, (∀ cpu, cpu ∈ l → in_place def (written_at w cpu)) → (fold_left (enforce_cpu E def) l (w, lg)).2 = lg).
  { induction l as [|c l IH]; intros w lg P; [done|]. cbn [fold_left]. unfold enforce_cpu at 2. cbn [fst snd].
    fold (written_at w c). rewrite in_place_quiet by (apply P; set_solver). apply IH. intros c' Hc'.
    unfold written_at. destruct (decide (c' = c)) as [->|]; [rewrite lookup_insert_eq|rewrite lookup_insert_ne by done].
    - apply P. set_solver.
    - apply P. set_solver. }
  intros written' P. by apply Hf.
Qed.

Lemma IdleEnforce_tried disabled cpus cs log k :
  last_tried (IdleEnforce E disabled cpus cs log).2.1 k = last_tried log k.
Proof.
  unfold IdleEnforce. destruct (bool_decide _); [done|]. destruct (_ && _); [done|].
  destruct (hw_Cstates E) as [names|]; [|done]. unfold try_write at 1. cbn.
  by destruct (hw_fails E log _).
Qed.

End writer.

(** ** CPUs that may be out of date *)

(** The definition a CPU is to be set by. *)
Definition cpu_def (as_ : Assignments) (cpu : Z) : option ClassDef :=
  match as_cpuClass as_ !! cpu with
  | Some name => if bool_decide (name = "") then None else as_defs as_ !! name
  | None => None
  end.

Lemma same_strings_eq xs ys : length xs = length ys → same_strings xs ys = true → xs = ys.
Proof.
  revert ys. induction xs as [|x xs IH]; intros [|y ys]; cbn; try done. intros [= Hl].
  case_bool_decide as Hx; [done|]. intros Hs. f_equal; [by destruct (decide (x = y))|auto].
Qed.

Lemma ClassDef_Equal_eq c c' : ClassDef_Equal c c' = true → c = c'.
Proof.
  unfold ClassDef_Equal. destruct c, c'; cbn. repeat case_bool_decide; cbn; try done.
  intros Hs. apply same_strings_eq in Hs; [|lia]. f_equal; try done;
    match goal with H : ¬ ?a ≠ ?b |- ?a = ?b => by destruct (decide (a = b)) end.
Qed.

(** The definition of a CPU changes only if it becomes dirty. *)
Definition tracks (as_ as' : Assignments) : Prop :=
  ∀ cpu, cpu ∉ as_dirtyCPUs as' → cpu ∉ as_dirtyCPUs as_ ∧ cpu_def as' cpu = cpu_def as_ cpu.

#[export] Instance tracks_preorder : PreOrder tracks.
Proof.
  split; [by intros as_ cpu|]. intros x y z Hxy Hyz cpu Hc. destruct (Hyz cpu Hc) as [Hc' ->]. by apply Hxy.
Qed.

Lemma SetClassDef_tracks name def as_ : tracks as_ (HandlerSetClassDef name def as_).
Proof.
  unfold HandlerSetClassDef. case_bool_decide as Hn; [done|]. intros cpu. unfold cpu_def. cbn [as_cpuClass as_defs as_dirtyCPUs].
  intros Hc. assert (Hcl : cpu ∉ as_dirtyCPUs as_) by (clear Hn; case_match; set_solver). split; [done|].
  destruct (as_cpuClass as_ !! cpu) as [n|] eqn:Hn'; [|done].
  destruct (decide (n = name)) as [->|Hne]; [|by rewrite lookup_insert_ne].
  rewrite lookup_insert_eq. assert (cpu ∈ dom (filter (λ kv : Z * string, kv.2 = name) (as_cpuClass as_))).
  { apply elem_of_dom. exists name. by apply map_lookup_filter_Some_2. }
  destruct (as_defs as_ !! name) as [prev|] eqn:Hd; [|set_solver].
  destruct (ClassDef_Equal prev def) eqn:He; [|set_solver]. apply ClassDef_Equal_eq in He as ->. done.
Qed.

Lemma AssignCPUs_tracks name cpus as_ : tracks as_ (HandlerAssignCPUs name cpus as_).
Proof.
  unfold HandlerAssignCPUs. revert as_. induction cpus as [|c cpus IH]; intros as_; [done|]. cbn [fold_left].
  etrans; [|apply IH]. case_bool_decide; [done|]. intros cpu. unfold cpu_def. cbn. intros Hc.
  rewrite lookup_insert_ne by set_solver. set_solver.
Qed.

#[export, program] Instance Handler_SinkLaws : SinkLaws Assignments := {
  sink_def := λ s name, as_defs s !! name;
  sink_class := λ s cpu, as_cpuClass s !! cpu;
}.
Next Obligation.
  intros name def s name' Hn. cbn. unfold HandlerSetClassDef. rewrite bool_decide_eq_false_2 by done. cbn.
  case_decide as Hd; [subst; by rewrite lookup_insert_eq|by rewrite lookup_insert_ne].
Qed.
Next Obligation. intros name def s cpu. cbn. unfold HandlerSetClassDef. by case_bool_decide. Qed.
Next Obligation.
  intros name cpus s name'. cbn. unfold HandlerAssignCPUs. revert s. induction cpus as [|c cpus IH]; intros s; [done|].
  cbn [fold_left]. rewrite IH. by case_bool_decide.
Qed.
Next Obligation.
  intros name cpus s cpu. cbn. unfold HandlerAssignCPUs. revert s. induction cpus as [|c cpus IH]; intros s; [done|].
  cbn [fold_left]. rewrite IH. destruct (decide (cpu ∈ cpus)) as [Hc|Hc].
  - rewrite decide_True by set_solver. done.
  - destruct (decide (cpu = c)) as [->|Hne].
    + rewrite decide_True by set_solver. case_bool_decide; [done|]. cbn. by rewrite lookup_insert_eq.
    + rewrite decide_False by set_solver. case_bool_decide; [done|]. cbn. by rewrite lookup_insert_ne.
Qed.

Section allocator_tracks.
Context `{GoRuntime}.

Lemma fold_tracks {A} (f : Assignments → A → Assignments) l as_ :
  (∀ s x, tracks s (f s x)) → tracks as_ (fold_left f l as_).
Proof. intros Hf. revert as_. induction l as [|x l IH]; intros as_; [done|]. cbn. etrans; [apply Hf|apply IH]. Qed.

Lemma recalculateTurbo_tracks d st : tracks st.2 (recalculateTurbo d st).2.
Proof.
  destruct st as [a s]. unfold recalculateTurbo. repeat case_bool_decide; try done. cbn.
  destruct (fq_turboInfo a); [|done]. cbn. apply fold_tracks. intros. apply SetClassDef_tracks.
Qed.

Lemma FreqUseClass_tracks className cpus st : tracks st.2 (FreqUseClass className cpus st).2.
Proof.
  destruct st as [a s]. unfold FreqUseClass. case_bool_decide; [done|].
  set (a2 := if bool_decide (resolveClassName a className ≠ "") then _ else _). set (ds := (map_range _).*1).
  assert (Hf : ∀ st, tracks st.2 (fold_left (λ st d, recalculateTurbo d st) ds st).2).
  { induction ds as [|d ds IH]; intros st; [done|]. cbn. etrans; [apply recalculateTurbo_tracks|apply IH]. }
  specialize (Hf (a2, s)). destruct (fold_left _ ds (a2, s)) as [a3 s3]. cbn in *. etrans; [exact Hf|].
  apply fold_tracks. intros. apply AssignCPUs_tracks.
Qed.

End allocator_tracks.

(** ** Uncore frequencies *)

Section uncore.
Context `{GoRuntime} (E : HwEnv) (sys : ClsSys).

(** The highest value of a field of definitions. *)
Definition max_of (f : ClassDef → Z) (defs : list ClassDef) : Z := foldr (λ def m, Z.max (f def) m) 0 defs.

Lemma max_of_perm f l l' : l ≡ₚ l' → max_of f l = max_of f l'.
Proof. unfold max_of. induction 1; cbn; lia. Qed.

Lemma max_of_nonneg f l : 0 ≤ max_of f l.
Proof. unfold max_of. induction l; cbn; lia. Qed.

(** The CPUs of a die. *)
Definition die_cpus (key : DieKey) : CPUSet :=
  match cy_Package sys key.1 with Some pkg => pk_DieCPUSet pkg key.2 | None => ∅ end.

Lemma uncore_fold as_ cpus seen m1 m2 :
  (∀ name def, name ∈ seen → as_defs as_ !! name = Some def → df_UncoreMinFreq def ≤ m1 ∧ df_UncoreMaxFreq def ≤ m2) →
  (fold_left (uncore_step (as_defs as_) (as_cpuClass as_)) cpus (seen, (m1, m2))).2
  = (foldr (λ def m, Z.max (df_UncoreMinFreq def) m) m1 (omap (cpu_def as_) cpus),
     foldr (λ def m, Z.max (df_UncoreMaxFreq def) m) m2 (omap (cpu_def as_) cpus)).
Proof.
  assert (Hmax : ∀ (f : ClassDef → Z) l x m, foldr (λ def m, Z.max (f def) m) (Z.max x m) l
    = Z.max x (foldr (λ def m, Z.max (f def) m) m l)) by (intros f l x m; induction l; cbn; lia).
  revert seen m1 m2. induction cpus as [|cpu cpus IH]; intros seen m1 m2 Hs; [done|]. cbn [fold_left].
  set (rest := omap (cpu_def as_) cpus) in *.
  assert (omap (cpu_def as_) (cpu :: cpus) = match cpu_def as_ cpu with Some def => def :: rest | None => rest end) as -> by done.
  clearbody rest. unfold uncore_step at 2, cpu_def.
  destruct (as_cpuClass as_ !! cpu) as [name|]; [|by apply IH]. case_bool_decide as Hn; [by apply IH|]. cbn [fst snd].
  case_bool_decide as Hseen.
  - rewrite IH by done. destruct (as_defs as_ !! name) as [def|] eqn:Hd; [|done]. cbn.
    destruct (Hs name def Hseen Hd).
    rewrite <- !Hmax. by rewrite !Z.max_r.
  - destruct (as_defs as_ !! name) as [def|] eqn:Hd.
    + rewrite IH.
      * cbn. rewrite <- !Hmax. repeat case_bool_decide; f_equal; f_equal; lia.
      * intros n' def' [->%elem_of_singleton|Hin]%elem_of_union Hd'.
        -- assert (def' = def) as -> by congruence. repeat case_bool_decide; lia.
        -- destruct (Hs n' def' Hin Hd'). repeat case_bool_decide; lia.
    + apply IH. intros n' def' [->%elem_of_singleton|Hin]%elem_of_union Hd'; [congruence|by eapply Hs].
Qed.

(** The definitions in use on a die. *)
Definition die_defs (as_ : Assignments) (key : DieKey) : list ClassDef := omap (cpu_def as_) (elements (die_cpus key)).

Lemma UnsortedList_perm s : UnsortedList s ≡ₚ elements s.
Proof.
  unfold UnsortedList. apply NoDup_Permutation.
  - apply NoDup_map_range.
  - apply NoDup_elements.
  - intros x. rewrite elem_of_elements. apply elem_of_UnsortedList.
Qed.

Lemma effective_max as_ key :
  effectiveUncoreFreqs sys key (as_defs as_) (as_cpuClass as_)
  = (max_of df_UncoreMinFreq (die_defs as_ key), max_of df_UncoreMaxFreq (die_defs as_ key)).
Proof.
  unfold effectiveUncoreFreqs, die_defs, die_cpus. destruct (cy_Package sys key.1) as [pkg|]; [|done].
  rewrite uncore_fold by set_solver.
  assert (Hp : omap (cpu_def as_) (UnsortedList (pk_DieCPUSet pkg key.2)) ≡ₚ omap (cpu_def as_) (elements (pk_DieCPUSet pkg key.2)))
    by (apply omap_Permutation, UnsortedList_perm).
  f_equal; by apply max_of_perm.
Qed.

Lemma die_defs_same as_ as' key :
  (∀ cpu, cpu ∈ die_cpus key → cpu_def as' cpu = cpu_def as_ cpu) → die_defs as' key = die_defs as_ key.
Proof.
  intros Hs. unfold die_defs. assert (Hin : ∀ cpu, cpu ∈ elements (die_cpus key) → cpu ∈ die_cpus key)
    by (intros cpu; by rewrite elem_of_elements). revert Hin. generalize (elements (die_cpus key)).
  induction l as [|cpu l IH]; intros Hin; [done|]. cbn. rewrite Hs by (apply Hin; set_solver).
  by rewrite IH by set_solver.
Qed.

(** The writer of uncore frequencies. *)
Definition die_setting (key : DieKey) (k : Setting) : Prop := k = SUncoreMin key ∨ k = SUncoreMax key.

Definition uncore_at (written : gmap DieKey uncoreWritten) (key : DieKey) : uncoreWritten :=
  default no_uncore_written (written !! key).

Definition die_remembered (log : Log) (key : DieKey) (st : uncoreWritten) : Prop :=
  (uw_hasMin st = true → last_tried log (SUncoreMin key) = Some (inl (i64 (uw_min st)))) ∧
  (uw_hasMax st = true → last_tried log (SUncoreMax key) = Some (inl (i64 (uw_max st)))).

Definition uncore_remembered (log : Log) (written : gmap DieKey uncoreWritten) : Prop :=
  ∀ key, die_remembered log key (uncore_at written key).

Definition uncore_in_place (f : Z * Z) (st : uncoreWritten) : Prop :=
  (0 < f.1 → uw_hasMin st = true ∧ uw_min st = f.1) ∧ (0 < f.2 → uw_hasMax st = true ∧ uw_max st = f.2).

Lemma die_remembered_same log log' key st :
  (∀ k, die_setting key k → last_tried log' k = last_tried log k) → die_remembered log key st → die_remembered log' key st.
Proof. intros Hs (?&?). unfold die_remembered. rewrite !Hs by (unfold die_setting; auto). done. Qed.

Lemma enforce_uncore_min_spec key m st lg st' lg' :
  die_remembered lg.1 key st → enforce_uncore_min E key m (st, lg) = (st', lg') →
  die_remembered lg'.1 key st' ∧ (0 < m → uw_hasMin st' = true ∧ uw_min st' = m) ∧
  uw_hasMax st' = uw_hasMax st ∧ uw_max st' = uw_max st ∧
  (∀ k, ¬ die_setting key k → last_tried lg'.1 k = last_tried lg.1 k).
Proof.
  intros (Hr1 & Hr2). unfold enforce_uncore_min. destruct (_ && _) eqn:Hb; intros [= <- <-].
  - clear Hb. unfold die_remembered. setoid_rewrite last_tried_write. cbn. unfold die_setting. destruct key; cbn.
    repeat case_decide; try congruence. split_and!; try done. intros k Hk. case_decide; naive_solver.
  - split_and!; try done. intros Hm. rewrite bool_decide_eq_true_2 in Hb by lia. cbn in Hb.
    apply orb_false_iff in Hb as [Hb1 Hb2]. apply negb_false_iff in Hb1. apply bool_decide_eq_false in Hb2.
    split; [done|]. by destruct (decide (uw_min st = m)).
Qed.

Lemma enforce_uncore_max_spec key m st lg st' lg' :
  die_remembered lg.1 key st → enforce_uncore_max E key m (st, lg) = (st', lg') →
  die_remembered lg'.1 key st' ∧ (0 < m → uw_hasMax st' = true ∧ uw_max st' = m) ∧
  uw_hasMin st' = uw_hasMin st ∧ uw_min st' = uw_min st ∧
  (∀ k, ¬ die_setting key k → last_tried lg'.1 k = last_tried lg.1 k).
Proof.
  intros (Hr1 & Hr2). unfold enforce_uncore_max. destruct (_ && _) eqn:Hb; intros [= <- <-].
  - clear Hb. unfold die_remembered. setoid_rewrite last_tried_write. cbn. unfold die_setting. destruct key; cbn.
    repeat case_decide; try congruence. split_and!; try done. intros k Hk. case_decide; naive_solver.
  - split_and!; try done. intros Hm. rewrite bool_decide_eq_true_2 in Hb by lia. cbn in Hb.
    apply orb_false_iff in Hb as [Hb1 Hb2]. apply negb_false_iff in Hb1. apply bool_decide_eq_false in Hb2.
    split; [done|]. by destruct (decide (uw_max st = m)).
Qed.

Lemma enforce_die_spec as_ written lg key written' lg' :
  uncore_remembered lg.1 written → enforce_die E sys (as_defs as_) (as_cpuClass as_) (written, lg) key = (written', lg') →
  uncore_remembered lg'.1 written' ∧
  uncore_in_place (effectiveUncoreFreqs sys key (as_defs as_) (as_cpuClass as_)) (uncore_at written' key) ∧
  (∀ key', key' ≠ key → uncore_at written' key' = uncore_at written key') ∧
  (∀ k, ¬ die_setting key k → last_tried lg'.1 k = last_tried lg.1 k).
Proof.
  intros Hr. unfold enforce_die. destruct (effectiveUncoreFreqs _ _ _ _) as [f1 f2].
  destruct (_ && _) eqn:Hz.
  { apply andb_true_iff in Hz as [->%bool_decide_eq_true ->%bool_decide_eq_true]. intros [= <- <-].
    split_and!; try done. }
  cbn [fst snd]. fold (uncore_at written key).
  destruct (enforce_uncore_min E key f1 (uncore_at written key, lg)) as [s1 l1] eqn:E1.
  destruct (enforce_uncore_max E key f2 (s1, l1)) as [s2 l2] eqn:E2.
  apply enforce_uncore_min_spec in E1 as (R1 & P1 & ? & ? & F1); [|apply Hr].
  apply enforce_uncore_max_spec in E2 as (R2 & P2 & ? & ? & F2); [|done].
  assert (Hk : ∀ k, ¬ die_setting key k → last_tried l2.1 k = last_tried lg.1 k)
    by (intros k Hk; rewrite F2, F1 by done; done).
  assert (Hat : ∀ c, uncore_at (<[key := s2]> written) c = if decide (c = key) then s2 else uncore_at written c).
  { intros c. unfold uncore_at. destruct (decide (c = key)) as [->|Hc]; [by rewrite lookup_insert_eq|by rewrite lookup_insert_ne]. }
  intros [= <- <-]. split_and!; [|rewrite Hat, decide_True by done|intros c Hc; by rewrite Hat, decide_False|exact Hk].
  - intros c. rewrite Hat. destruct (decide (c = key)) as [->|Hc]; [done|]. eapply die_remembered_same; [|apply Hr].
    intros k [->| ->]; apply Hk; unfold die_setting; naive_solver.
  - unfold uncore_in_place. naive_solver congruence.
Qed.

Lemma UncoreEnforce_spec as_ dies written log written' lg' :
  uncore_remembered log written →
  UncoreEnforce E sys (hw_UncoreFreqAvailable E) (as_defs as_) (as_cpuClass as_) dies written log = (written', lg') →
  uncore_remembered lg'.1 written' ∧
  (hw_UncoreFreqAvailable E = true → ∀ key, key ∈ dies →
    uncore_in_place (effectiveUncoreFreqs sys key (as_defs as_) (as_cpuClass as_)) (uncore_at written' key)) ∧
  (∀ key, key ∉ dies → uncore_at written' key = uncore_at written key) ∧
  (∀ k, (∀ key, ¬ die_setting key k) → last_tried lg'.1 k = last_tried log k).
Proof.
  intros Hr. unfold UncoreEnforce. destruct (_ || _) eqn:Hb.
  { intros [= <- <-]. split_and!; try done. intros Ha key. rewrite Ha in Hb. cbn in Hb.
    apply bool_decide_eq_true in Hb as ->. set_solver. }
  set (l := (map_range (gset_to_gmap tt dies)).*1).
  assert (Hl : ∀ key, key ∈ l ↔ key ∈ dies).
  { intros key. unfold l. rewrite list_elem_of_fmap. split.
    - intros ([x []] & -> & Hx). rewrite elem_of_map_range, lookup_gset_to_gmap_Some in Hx. naive_solver.
    - intros Hx. exists (key, tt). by rewrite elem_of_map_range, lookup_gset_to_gmap_Some. }
  setoid_rewrite <- Hl. clear Hl Hb. clearbody l. revert Hr.
  change log with ((log, @None error).1) at 1 3. generalize (log, @None error). revert written.
  induction l as [|key l IH]; intros written lg Hr; cbn [fold_left].
  { intros [= <- <-]. split_and!; try done. set_solver. }
  destruct (enforce_die E sys _ _ (written, lg) key) as [w1 l1] eqn:E1.
  destruct (enforce_die_spec _ _ _ _ _ _ Hr E1) as (R1 & P1 & O1 & F1). intros Hf.
  destruct (IH _ _ R1 Hf) as (R2 & P2 & O2 & F2). split_and!; [done| | |].
  - intros Ha c Hc. destruct (decide (c ∈ l)); [by apply P2|]. assert (c = key) as -> by set_solver. by rewrite O2.
  - intros c Hc. rewrite O2, O1 by set_solver. done.
  - intros k Hk. rewrite F2, F1; done.
Qed.

End uncore.

(** ** The handler *)

(** Every CPU of a die is found to be on it. *)
Definition dies_ok (sys : ClsSys) : Prop :=
  ∀ key cpu, cpu ∈ die_cpus sys key → die_of sys cpu = Some key.

Section handler.
Context `{GoRuntime} {T : Type} `{Sst T} (E : HwEnv) (sys : ClsSys).
Implicit Types (h : Handler T).

(** The writers remember what was last written, and what they remember is up to
    date for all CPUs that are not dirty, and for all dies without a dirty CPU. *)
Record writer_ok h : Prop := MkWriterOk {
  wo_freq : all_remembered (h_log h) (h_freqWriter h);
  wo_uncore : uncore_remembered (h_log h) (h_uncoreWriter h);
  wo_clean : ∀ cpu def, cpu ∉ as_dirtyCPUs (h_assign h) → cpu_def (h_assign h) cpu = Some def →
    in_place def (written_at (h_freqWriter h) cpu);
  wo_dies : hw_UncoreFreqAvailable E = true → ∀ key,
    (∀ cpu, cpu ∈ die_cpus sys key → cpu ∉ as_dirtyCPUs (h_assign h)) →
    uncore_in_place (effectiveUncoreFreqs sys key (as_defs (h_assign h)) (as_cpuClass (h_assign h)))
      (uncore_at (h_uncoreWriter h) key);
}.

Lemma dirty_per_class_spec as_ name cpu :
  cpu ∈ default [] (dirty_per_class as_ !! name) ↔
  cpu ∈ as_dirtyCPUs as_ ∧ as_cpuClass as_ !! cpu = Some name ∧ name ≠ "".
Proof.
  unfold dirty_per_class. set (f := λ (m : gmap string (list Z)) cpu, _).
  assert (Hf : ∀ l (m : gmap string (list Z)), cpu ∈ default [] (fold_left f l m !! name) ↔
    cpu ∈ default [] (m !! name) ∨ (cpu ∈ l ∧ as_cpuClass as_ !! cpu = Some name ∧ name ≠ "")).
  { induction l as [|x l IH]; intros m; [set_solver|]. cbn [fold_left]. rewrite IH. unfold f at 1.
    destruct (as_cpuClass as_ !! x) as [n|] eqn:Hx; [|set_solver]. case_bool_decide as Hn; [set_solver|].
    destruct (decide (n = name)) as [->|]; [rewrite lookup_insert_eq|rewrite lookup_insert_ne by done]; set_solver. }
  rewrite Hf, elem_of_UnsortedList, lookup_empty. set_solver.
Qed.

Lemma commit_sets_fold as_ ncs written cs lg written' cs' lg' :
  Forall (λ nc : string * list Z, ∀ cpu, cpu ∈ nc.2 → as_cpuClass as_ !! cpu = Some nc.1 ∧ nc.1 ≠ "") ncs →
  all_remembered lg.1 written →
  fold_left (commit_class E (as_defs as_)) ncs ((written, cs), lg) = ((written', cs'), lg') →
  all_remembered lg'.1 written' ∧
  (∀ cpu def, Exists (λ nc : string * list Z, cpu ∈ nc.2) ncs → cpu_def as_ cpu = Some def → in_place def (written_at written' cpu)) ∧
  (∀ cpu, ¬ Exists (λ nc : string * list Z, cpu ∈ nc.2) ncs → written_at written' cpu = written_at written cpu) ∧
  (∀ k, (∀ cpu, ¬ of_cpu cpu k) → last_tried lg'.1 k = last_tried lg.1 k).
Proof.
  revert written cs lg. induction ncs as [|[name l] ncs IH]; intros written cs [log err] Hok Hr; cbn [fold_left].
  { intros [= <- <- <-]. split_and!; try done. by intros ? ? ?%Exists_nil. }
  apply Forall_cons in Hok as [Hl Hok]. cbn [fst snd] in Hl.
  destruct (commit_class E (as_defs as_) (written, cs, (log, err)) (name, l)) as [[w1 c1] l1] eqn:E1.
  assert (H1 : all_remembered l1.1 w1 ∧
    (∀ cpu def, cpu ∈ l → cpu_def as_ cpu = Some def → in_place def (written_at w1 cpu)) ∧
    (∀ cpu, cpu ∉ l → written_at w1 cpu = written_at written cpu) ∧
    (∀ k, (∀ cpu, ¬ of_cpu cpu k) → last_tried l1.1 k = last_tried log k)).
  { unfold commit_class in E1. cbn [fst snd] in E1. destruct (as_defs as_ !! name) as [def|] eqn:Hd.
    - destruct (FreqEnforce E def (slices_Sort l) written log) as [w2 [log2 err2]] eqn:E2.
      destruct (IdleEnforce E _ _ cs log2) as [c3 [log3 err3]] eqn:E3. injection E1 as <- <- <-.
      destruct (FreqEnforce_spec E def (slices_Sort l) _ _ _ _ Hr E2) as (R & P & O & F).
      pose proof (λ k, IdleEnforce_tried E (df_DisabledCstates def) (slices_Sort l) cs log2 k) as Hi. rewrite E3 in Hi. cbn in *.
      assert (Hs : ∀ c, c ∈ slices_Sort l ↔ c ∈ l) by (intros c; unfold slices_Sort; by rewrite insertion_sort_perm).
      split_and!.
      + intros c. eapply remembered_same; [|apply R]. intros k _. apply Hi.
      + intros c def' Hc. destruct (Hl c Hc) as [Hcl Hne]. unfold cpu_def. rewrite Hcl, bool_decide_eq_false_2, Hd by done.
        intros [= <-]. apply P. by rewrite Hs.
      + intros c Hc. apply O. by rewrite Hs.
      + intros k Hk. rewrite Hi. apply F. auto.
    - injection E1 as <- <- <-. split_and!; try done. intros c def' Hc. destruct (Hl c Hc) as [Hcl Hne].
      unfold cpu_def. by rewrite Hcl, bool_decide_eq_false_2, Hd. }
  destruct H1 as (R1 & P1 & O1 & F1). intros Hf. destruct (IH _ _ _ Hok R1 Hf) as (R2 & P2 & O2 & F2).
  split_and!; [done| | |intros k Hk; by rewrite F2, F1].
  - intros c def Hc Hdef. destruct (decide (Exists (λ nc : string * list Z, c ∈ nc.2) ncs)) as [He|He]; [by eapply P2|].
    rewrite O2 by done. apply P1; [|done]. by apply Exists_cons in Hc as [?|?].
  - intros c Hc. rewrite Exists_cons in Hc. cbn in Hc. rewrite O2, O1; tauto.
Qed.

(** Commit brings everything up to date. *)
Lemma Commit_ok h : dies_ok sys → writer_ok h →
  writer_ok (Commit E sys h).1 ∧
  h_assign (Commit E sys h).1 = MkAssignments (as_defs (h_assign h)) (as_cpuClass (h_assign h)) ∅ ∧
  h_cpufreq (Commit E sys h).1 = h_cpufreq h ∧ h_pct (Commit E sys h).1 = h_pct h ∧ h_allowed (Commit E sys h).1 = h_allowed h.
Proof.
  intros Hdies Hw. unfold Commit. set (as_ := h_assign h). case_bool_decide as Hd.
  { split_and!; try done. cbn [fst]. unfold as_ in *. clear Hw. destruct (h_assign h) as [x y z]. cbn in *. by rewrite Hd. }
  destruct (fold_left _ _ _) as [[written cs] [log err]] eqn:Ef.
  destruct (UncoreEnforce _ _ _ _ _ _ _ _) as [uncore [log' err']] eqn:Eu. cbn [fst].
  apply commit_sets_fold in Ef as (R & P & O & F); [| |apply Hw].
  2:{ apply Forall_forall. intros [name l] Hin%elem_of_map_range cpu Hc. cbn in *.
      pose proof (proj1 (dirty_per_class_spec as_ name cpu)) as Hs. rewrite Hin in Hs. naive_solver. }
  assert (Hur : uncore_remembered log (h_uncoreWriter h)).
  { intros key. eapply die_remembered_same; [|apply Hw]. intros k Hk. apply F.
    intros cpu [->|[->| ->]]; destruct Hk; done. }
  destruct (UncoreEnforce_spec _ _ _ _ _ _ _ _ Hur Eu) as (RU & PU & OU & FU).
  split_and!; try done. split; cbn [h_log h_freqWriter h_uncoreWriter h_assign as_dirtyCPUs as_defs as_cpuClass].
  - intros cpu. eapply remembered_same; [|apply R]. intros k Hk. apply FU. intros key [->| ->]; destruct Hk as [|[|]]; done.
  - exact RU.
  - intros cpu def _ Hdef. change (cpu_def as_ cpu = Some def) in Hdef.
    destruct (decide (cpu ∈ as_dirtyCPUs as_)) as [Hc|Hc].
    + apply P; [|done]. apply Exists_exists. unfold cpu_def in Hdef.
      destruct (as_cpuClass as_ !! cpu) as [name|] eqn:Hcl; [|done]. case_bool_decide as Hn; [done|].
      pose proof (proj2 (dirty_per_class_spec as_ name cpu) (conj Hc (conj Hcl Hn))) as Hin.
      destruct (dirty_per_class as_ !! name) as [l|] eqn:Hl; [|set_solver]. exists (name, l). by rewrite elem_of_map_range.
    + rewrite O; [by apply (wo_clean _ Hw)|]. intros ([name l] & Hin%elem_of_map_range & Hl)%Exists_exists. cbn in *.
      pose proof (proj1 (dirty_per_class_spec as_ name cpu)) as Hs. rewrite Hin in Hs. naive_solver.
  - intros Ha key _. destruct (decide (key ∈ DiesForCpus sys (as_dirtyCPUs as_))) as [Hk|Hk]; [by apply PU|].
    rewrite OU by done. apply (wo_dies _ Hw Ha). intros cpu Hc Hdc. apply Hk. unfold DiesForCpus.
    rewrite elem_of_list_to_set, list_elem_of_omap. exists cpu. rewrite elem_of_UnsortedList. split; [done|by apply Hdies].
Qed.

(** Using a class keeps track of what is out of date. *)
Lemma UseClass_ok className cpus h : writer_ok h → writer_ok (UseClass className cpus h).
Proof.
  intros Hw. unfold UseClass. pose proof (FreqUseClass_tracks className cpus (h_cpufreq h, h_assign h)) as Ht.
  destruct (FreqUseClass className cpus (h_cpufreq h, h_assign h)) as [a s]. cbn in *.
  split; cbn; [apply Hw..| |].
  - intros cpu def Hc Hd. destruct (Ht cpu Hc) as [Hc' He]. rewrite He in Hd. by apply (wo_clean _ Hw).
  - intros Ha key Hk. rewrite effective_max, (die_defs_same sys (h_assign h)), <- effective_max.
    + apply (wo_dies _ Hw Ha). intros cpu Hc. by apply Ht, Hk.
    + intros cpu Hc. by apply Ht, Hk.
Qed.

(** *** Configuring *)

Lemma pushInitial_class a s cpu : as_cpuClass (pushInitialClassDefinitions a s) !! cpu = as_cpuClass s !! cpu.
Proof.
  unfold pushInitialClassDefinitions. case_bool_decide; [done|].
  assert (Hf : ∀ n def ds s, as_cpuClass (fold_left (λ s d, SetClassDef (syntheticName a n d) def s) ds s) !! cpu = as_cpuClass s !! cpu).
  { intros n def ds. induction ds as [|d ds IH]; intros s0; [done|]. cbn [fold_left]. rewrite IH. exact (SetClassDef_class (S:=Assignments) (syntheticName a n d) def s0 cpu). }
  revert s. induction (fq_classes a) as [|cc cs IH]; intros s; [done|]. cbn [fold_left]. rewrite IH. apply Hf.
Qed.

Lemma unassigned_ok h : as_cpuClass (h_assign h) = ∅ → h_freqWriter h = ∅ → h_uncoreWriter h = ∅ → writer_ok h.
Proof.
  intros Ha Hf Hu.
  assert (Hno : ∀ cpu, cpu_def (h_assign h) cpu = None) by (intros cpu; unfold cpu_def; by rewrite Ha, lookup_empty).
  split.
  - intros cpu. rewrite Hf. done.
  - intros key. rewrite Hu. done.
  - intros cpu def _. by rewrite Hno.
  - intros _ key _. rewrite effective_max. unfold die_defs.
    assert (omap (cpu_def (h_assign h)) (elements (die_cpus sys key)) = []) as ->.
    { induction (elements (die_cpus sys key)) as [|c l IH]; [done|]. cbn. by rewrite Hno. }
    split; cbn; lia.
Qed.

(** What a configuration leaves fixed. *)
Definition configured (spec : ConfigSpec) (info : option platformTurboInfo) h : Prop :=
  fq_classes (h_cpufreq h) = sp_Classes spec ∧ fq_allowed (h_cpufreq h) = sp_Allowed spec ∧
  fq_turboInfo (h_cpufreq h) = info ∧ domains_ok (h_cpufreq h) ∧
  ∀ cpu, fq_cpuDomain (h_cpufreq h) !! cpu = configured_domain sys (sp_TurboDomain spec) (sp_Allowed spec) cpu.

Lemma Configure_ok spec h0 h :
  names_ok (sp_Classes spec) → Configure E sys spec h0 = (h, None) →
  turbo_inv (h_cpufreq h) (h_assign h) (λ _, None) ∧ writer_ok h ∧ configured spec (fq_turboInfo (h_cpufreq h0)) h.
Proof.
  intros Hn. unfold Configure. cbn [h_cpufreq h_assign].
  destruct (FreqConfigure sys _ _ _ (h_cpufreq h0) _) as [[a s] [e|]] eqn:Ec; [done|].
  assert (Hs : as_cpuClass s = ∅).
  { unfold FreqConfigure in Ec. case_bool_decide; [done|]. injection Ec as <- <-.
    apply map_eq. intros cpu. by rewrite pushInitial_class. }
  apply FreqConfigure_inv in Ec as (Hi & Hc & Hal & Ht & Hdo & Hcd); [|done].
  cbn. destruct (_ && _); [done|]. destruct (PctConfigure _ _ _ _) as [pct [e|]]; [done|]. intros [= <-].
  split_and!; [exact Hi|by apply unassigned_ok|]. unfold configured. cbn. done.
Qed.

(** *** Runs

    The policies use classes for CPUs and commit. *)
Inductive ClassOp :=
  | OpUse (className : string) (cpus : CPUSet)
  | OpCommit.

Definition run_op h (op : ClassOp) : Handler T :=
  match op with
  | OpUse className cpus => UseClass className cpus h
  | OpCommit => (Commit E sys h).1
  end.

Definition run (ops : list ClassOp) h : Handler T := fold_left run_op ops h.

(** The class a CPU was last used for. *)
Definition use_op (allowed : CPUSet) (use : Z → option string) (op : ClassOp) : Z → option string :=
  match op with
  | OpUse className cpus => used allowed className cpus use
  | OpCommit => use
  end.

Definition last_use (allowed : CPUSet) (ops : list ClassOp) : Z → option string :=
  fold_left (use_op allowed) ops (λ _, None).

Lemma turbo_inv_defs a s s' use :
  (∀ n, as_defs s' !! n = as_defs s !! n) → (∀ cpu, as_cpuClass s' !! cpu = as_cpuClass s !! cpu) →
  turbo_inv a s use → turbo_inv a s' use.
Proof.
  intros Hd Hc [? ? ? ? Hdefs Hcls]. split; try done.
  - intros d cc Hcc. cbn. rewrite Hd. by apply Hdefs.
  - intros cpu n Hu. cbn. rewrite Hc. by apply Hcls.
Qed.

Lemma run_ok spec info ops use h :
  dies_ok sys → turbo_inv (h_cpufreq h) (h_assign h) use → writer_ok h → configured spec info h →
  turbo_inv (h_cpufreq (run ops h)) (h_assign (run ops h)) (fold_left (use_op (sp_Allowed spec)) ops use) ∧
  writer_ok (run ops h) ∧ configured spec info (run ops h).
Proof.
  intros Hdies. revert use h. induction ops as [|[className cpus|] ops IH]; intros use h Hi Hw Hc; [done|..]; cbn.
  - apply IH; [|by apply UseClass_ok|]; unfold UseClass, configured in *.
    + destruct (FreqUseClass className cpus (h_cpufreq h, h_assign h)) as [a s] eqn:Eu. cbn.
      destruct (FreqUseClass_inv _ _ _ _ _ _ _ Hi Eu) as [Hi' _]. destruct Hc as (_ & <- & _). exact Hi'.
    + destruct (FreqUseClass className cpus (h_cpufreq h, h_assign h)) as [a s] eqn:Eu. cbn.
      destruct (FreqUseClass_inv _ _ _ _ _ _ _ Hi Eu) as (_ & Hcl & _ & Ht & Hal & Hcd & Hdo).
      unfold domains_ok in *. rewrite Hcl, Ht, Hal, Hcd, Hdo. exact Hc.
  - destruct (Commit_ok h Hdies Hw) as (Hw' & Ha & Hq & _). apply IH; [|done|].
    + rewrite Hq, Ha. by eapply turbo_inv_defs; [..|exact Hi].
    + unfold configured. rewrite Hq. exact Hc.
Qed.

(** [w] is the highest priority of classes in use in a domain, 0 if there is
    none above it. *)
Definition top_priority (classes : list CPUClass) (domain : Z → Z) (use : Z → option string) (d w : Z) : Prop :=
  0 ≤ w ∧
  (∀ cpu cc, cc ∈ classes → use cpu = Some (cc_Name cc) → domain cpu = d → cc_TurboPriority cc ≤ w) ∧
  (w = 0 ∨ ∃ cpu cc, cc ∈ classes ∧ use cpu = Some (cc_Name cc) ∧ domain cpu = d ∧ w = cc_TurboPriority cc).

Lemma winner_top a s use d :
  turbo_inv a s use → top_priority (fq_classes a) (domain_of a) use d (winner_prio a d).
Proof.
  intros Hi. destruct (winner_prio_spec a d) as (Hw & Hmax & Hor).
  assert (Hne : ∀ cc, cc ∈ fq_classes a → cc_Name cc ≠ "").
  { intros cc Hcc He. destruct (ti_known _ _ _ Hi) as [[_ Hno] _]. apply Hno. rewrite <- He. apply list_elem_of_fmap. eauto. }
  split_and!; [done| |].
  - intros cpu cc Hcc Hu Hd. apply Hmax; [done|].
    assert (cpu ∈ active a d (cc_Name cc)) by (apply (ti_active _ _ _ Hi); auto). set_solver.
  - destruct Hor as [?|(cc & Hcc & Hact & ->)]; [by left|]. right. apply set_choose_L in Hact as [cpu Hc].
    apply (ti_active _ _ _ Hi) in Hc as (? & _ & ?). eauto 10.
Qed.

(** The domain of a CPU by the configuration. *)
Definition spec_domain (spec : ConfigSpec) (cpu : Z) : Z :=
  default systemDomainID (configured_domain sys (sp_TurboDomain spec) (sp_Allowed spec) cpu).

(** The definition of a class in a domain with the highest priority [w]. *)
Definition class_def (info : option platformTurboInfo) (w : Z) (cc : CPUClass) : ClassDef :=
  match info with
  | Some info => classDefFromCPUClass cc (Some info) (effective_turbo info w cc)
  | None => classDefFromCPUClass cc None 0
  end.

Lemma run_cpu_def spec h0 h ops cpu cc :
  names_ok (sp_Classes spec) → dies_ok sys → Configure E sys spec h0 = (h, None) →
  cc ∈ sp_Classes spec → last_use (sp_Allowed spec) ops cpu = Some (cc_Name cc) →
  fq_turboInfo (h_cpufreq h0) ≠ None ∨ is_Some (configured_domain sys (sp_TurboDomain spec) (sp_Allowed spec) cpu) →
  writer_ok (run ops h) ∧
  ∃ w, top_priority (sp_Classes spec) (spec_domain spec) (last_use (sp_Allowed spec) ops) (spec_domain spec cpu) w ∧
    cpu_def (h_assign (run ops h)) cpu = Some (class_def (fq_turboInfo (h_cpufreq h0)) w cc).
Proof.
  intros Hn Hdies Hcf Hcc Hu Hor. destruct (Configure_ok spec h0 h Hn Hcf) as (Hi & Hw & Hc).
  destruct (run_ok spec _ ops _ h Hdies Hi Hw Hc) as (Hi' & Hw' & Hc1 & _ & Hc3 & Hdo & Hcd). split; [done|].
  set (h1 := run ops h) in *. set (d := domain_of (h_cpufreq h1) cpu).
  assert (Hdom : ∀ c, domain_of (h_cpufreq h1) c = spec_domain spec c) by (intros; unfold domain_of, spec_domain; by rewrite Hcd).
  destruct (published _ _ _ cpu cc Hi' Hdo) as [Hcls Hdef]; [by rewrite Hc1|done|by rewrite Hc3, Hcd|].
  exists (winner_prio (h_cpufreq h1) (spec_domain spec cpu)). split.
  - pose proof (winner_top _ _ _ (spec_domain spec cpu) Hi') as Ht. rewrite Hc1 in Ht. unfold top_priority in *.
    setoid_rewrite Hdom in Ht. exact Ht.
  - unfold cpu_def. cbn in Hcls, Hdef. rewrite Hcls, bool_decide_eq_false_2, Hdef by apply synthetic_nonempty.
    unfold expected_def, class_def. by rewrite Hc3, Hdom.
Qed.

(** The definition of a CPU is in effect once it is committed. *)
Definition in_force (log : Log) (cpu : Z) (def : ClassDef) : Prop :=
  (0 < df_MinFreq def → ¬ failed log (SMin cpu) → in_effect log (SMin cpu) = Some (inl (i64 (df_MinFreq def)))) ∧
  (0 < df_MaxFreq def → ¬ failed log (SMax cpu) → in_effect log (SMax cpu) = Some (inl (i64 (df_MaxFreq def)))) ∧
  (df_FreqGovernor def ≠ "" → ¬ failed log (SGov cpu) → in_effect log (SGov cpu) = Some (inr (df_FreqGovernor def))).

Lemma committed h cpu def : dies_ok sys → writer_ok h → cpu_def (h_assign h) cpu = Some def →
  in_force (h_log (Commit E sys h).1) cpu def.
Proof.
  intros Hdies Hw Hd. destruct (Commit_ok h Hdies Hw) as (Hw' & Ha & _).
  destruct (wo_freq _ Hw' cpu) as (R1 & R2 & R3).
  destruct (wo_clean _ Hw' cpu def) as (P1 & P2 & P3); [by rewrite Ha|by rewrite Ha; exact Hd|].
  split_and!; intros Hp Hf; rewrite tried_in_effect by done.
  - destruct (P1 Hp) as [Hh <-]. by apply R1.
  - destruct (P2 Hp) as [Hh <-]. by apply R2.
  - destruct (P3 Hp) as [Hh <-]. by apply R3.
Qed.

End handler.

(** Names of validated classes. *)
Lemma validate_classes_names cs names names' :
  validate_classes cs names = Ok names' →
  NoDup (cc_Name <$> cs) ∧ (∀ n, n ∈ cc_Name <$> cs → n ∉ names ∧ n ≠ "").
Proof.
  revert names. induction cs as [|cc cs IH]; intros names; cbn; [split; [constructor|set_solver]|].
  destruct (CPUClass_Validate cc) as [[]|] eqn:Hv; cbn; [|done]. case_bool_decide as Hin; [done|]. intros Hr.
  destruct (IH _ Hr) as [Hnd Hno].
  assert (cc_Name cc ≠ "").
  { intros He. unfold CPUClass_Validate in Hv. by rewrite (bool_decide_eq_true_2 (cc_Name cc = "")) in Hv. }
  split; [constructor; [|done]|]; set_solver.
Qed.

Lemma validated_names cs names : ValidateCPUClasses cs = Ok names → names_ok cs.
Proof.
  unfold ValidateCPUClasses. destruct (validate_classes cs ∅) as [names'|] eqn:Hv; cbn; [|done]. intros _.
  destruct (validate_classes_names _ _ _ Hv) as [Hnd Hno]. split; [done|]. intros ?%Hno. tauto.
Qed.

Section claims.
Context `{GoRuntime} {T : Type} `{Sst T} (E : HwEnv) (sys : ClsSys).

(** C7: However classes have been used for CPUs and committed since validated
    CPU classes were configured: once Commit returns, every CPU has the
    minimum and maximum frequency and the governor of the class it was last used
    for, unless writing one of them has failed.  In these frequencies "turbo" is
    the turbo frequency exactly if no class in use in the turbo domain of the CPU
    has a higher priority, and the base frequency otherwise. *)
Theorem Commit_enforces spec names (h0 h : Handler T) ops cpu cc :
  ValidateCPUClasses (sp_Classes spec) = Ok names → dies_ok sys →
  Configure E sys spec h0 = (h, None) →
  cc ∈ sp_Classes spec → last_use (sp_Allowed spec) ops cpu = Some (cc_Name cc) →
  fq_turboInfo (h_cpufreq h0) ≠ None ∨ is_Some (configured_domain sys (sp_TurboDomain spec) (sp_Allowed spec) cpu) →
  ∃ w, top_priority (sp_Classes spec) (spec_domain sys spec) (last_use (sp_Allowed spec) ops) (spec_domain sys spec cpu) w ∧
    in_force (h_log (Commit E sys (run E sys ops h)).1) cpu (class_def (fq_turboInfo (h_cpufreq h0)) w cc).
Proof.
  intros Hn%validated_names Hdies Hcf Hcc Hu Hor.
  destruct (run_cpu_def E sys spec h0 h ops cpu cc Hn Hdies Hcf Hcc Hu Hor) as (Hw & w & Ht & Hd).
  exists w. split; [exact Ht|]. by apply committed.
Qed.

(** C32: Once Commit returns, the uncore frequency limits of every die are the
    highest ones of the definitions of the CPUs on the die, whichever order they
    are visited in, unless writing them has failed. *)
Theorem Commit_uncore spec names (h0 h : Handler T) ops key :
  ValidateCPUClasses (sp_Classes spec) = Ok names → dies_ok sys → hw_UncoreFreqAvailable E = true →
  Configure E sys spec h0 = (h, None) →
  let h' := (Commit E sys (run E sys ops h)).1 in
  let minFreq := max_of df_UncoreMinFreq (die_defs sys (h_assign h') key) in
  let maxFreq := max_of df_UncoreMaxFreq (die_defs sys (h_assign h') key) in
  (0 < minFreq → ¬ failed (h_log h') (SUncoreMin key) → in_effect (h_log h') (SUncoreMin key) = Some (inl (i64 minFreq))) ∧
  (0 < maxFreq → ¬ failed (h_log h') (SUncoreMax key) → in_effect (h_log h') (SUncoreMax key) = Some (inl (i64 maxFreq))).
Proof.
  intros Hn%validated_names Hdies Hav Hcf h'.
  destruct (Configure_ok E sys spec h0 h Hn Hcf) as (Hi & Hw & Hc).
  destruct (run_ok E sys spec _ ops _ h Hdies Hi Hw Hc) as (_ & Hw1 & _).
  destruct (Commit_ok E sys (run E sys ops h) Hdies Hw1) as (Hw' & Ha & _). fold h' in Hw', Ha.
  destruct (wo_uncore _ _ _ Hw' key) as (R1 & R2).
  destruct (wo_dies _ _ _ Hw' Hav key) as (P1 & P2); [by rewrite Ha|]. rewrite effective_max in P1, P2. cbn [fst snd] in *.
  split; intros Hp Hf; rewrite tried_in_effect by done.
  - destruct (P1 Hp) as [Hh <-]. by apply R1.
  - destruct (P2 Hp) as [Hh <-]. by apply R2.
Qed.

End claims.
