(* ===== verification/ClsPctFacts.v ===== *)
(** * High priority CPUs

    The allocator of ClsPct keeps books of the CPUs of every power domain
    (punit) that are used by classes of high priority, associates CPUs with the
    CLOS of the class they are used for, and proposes CPUs for requests of high
    priority that fit the capacity of a punit, or of one package, and that it has
    not promised already. *)

From S2P Require Import Prelude GoStrings MemNodes CpuTree CpuOrder CpuResizeFacts BlnTypes BlnConfig ClsFreq ClsPct ClsHandler ClsTurbo ClsFacts.

(** ** Punits *)

(** Punits do not share CPUs. *)
Definition punits_apart (punits : list pctPunit) : Prop :=
  ∀ i j pu pu' cpu, punits !! i = Some pu → punits !! j = Some pu' → cpu ∈ pu_CPUs pu → cpu ∈ pu_CPUs pu' → i = j.

Definition punits_known (allowed : CPUSet) (punits : list pctPunit) (byCpu : gmap Z nat) : Prop :=
  (∀ cpu i, byCpu !! cpu = Some i ↔ ∃ pu, punits !! i = Some pu ∧ cpu ∈ pu_CPUs pu) ∧
  (∀ i pu, punits !! i = Some pu → allowed_cpus allowed (pu_CPUs pu) = pu_CPUs pu).

Lemma punits_apart_nil : punits_apart [].
Proof. intros i j pu pu' cpu. by rewrite lookup_nil. Qed.

Lemma punits_known_nil allowed : punits_known allowed [] ∅.
Proof. split; [intros cpu i|intros i pu]; rewrite ?lookup_empty; setoid_rewrite lookup_nil; naive_solver. Qed.

Lemma elem_of_allowed allowed cpus cpu :
  cpu ∈ allowed_cpus allowed cpus ↔ cpu ∈ cpus ∧ (0 < size allowed → cpu ∈ allowed)%nat.
Proof. unfold allowed_cpus. case_bool_decide; [rewrite elem_of_intersection|]; naive_solver lia. Qed.

Lemma set_fold_lookup (cpus : CPUSet) (i : nat) (m : gmap Z nat) cpu :
  set_fold (λ c m, <[c := i]> m) m cpus !! cpu = if decide (cpu ∈ cpus) then Some i else m !! cpu.
Proof.
  refine (set_fold_ind_L (λ (r : gmap Z nat) (X : CPUSet), r !! cpu = if decide (cpu ∈ X) then Some i else m !! cpu) _ _ _ _ _); [by rewrite decide_False by set_solver|].
  intros x X r Hx Hr. cbv beta in *.
  destruct (decide (cpu = x)) as [->|Hne].
  - rewrite lookup_insert_eq, decide_True by set_solver. done.
  - rewrite lookup_insert_ne, Hr by done. repeat case_decide; set_solver.
Qed.

(** The punits that are kept do not share CPUs either. *)
Lemma snapshotPunits_spec allowed raw punits byCpu punits' byCpu' :
  (∀ pu pu' cpu, pu ∈ punits → pu' ∈ raw → cpu ∈ pu_CPUs pu → cpu ∉ pu_CPUs pu') → punits_apart raw →
  punits_apart punits → punits_known allowed punits byCpu →
  snapshotPunits allowed raw punits byCpu = (punits', byCpu') →
  punits_apart punits' ∧ punits_known allowed punits' byCpu'.
Proof.
  revert punits byCpu. induction raw as [|pu raw IH]; intros punits byCpu Hx Hra Ha Hk; cbn [snapshotPunits].
  { intros [= <- <-]. done. }
  assert (Hra' : punits_apart raw).
  { intros i j p p' c Hi Hj Hc Hc'. assert (S i = S j) as [= ->] by (by eapply (Hra (S i) (S j))). done. }
  assert (Hhd : ∀ p c, p ∈ raw → c ∈ pu_CPUs pu → c ∉ pu_CPUs p).
  { intros p c [j Hj]%list_elem_of_lookup_1 Hc Hc'. by assert (0%nat = S j) by (by eapply (Hra 0%nat (S j))). }
  fold (allowed_cpus allowed (pu_CPUs pu)). set (cpus := allowed_cpus allowed (pu_CPUs pu)).
  case_bool_decide as He; [apply IH; try done; set_solver|].
  set (pu' := MkPunit _ _ _ _ _).
  assert (Hsub : ∀ c, c ∈ cpus → c ∈ pu_CPUs pu) by (intros c; unfold cpus; rewrite elem_of_allowed; tauto).
  assert (Hnew : ∀ i p, app punits [pu'] !! i = Some p ↔ punits !! i = Some p ∨ (i = length punits ∧ p = pu')).
  { intros i p. rewrite lookup_app. destruct (punits !! i) as [q|] eqn:Hi.
    - apply lookup_lt_Some in Hi as Hlt. split; [naive_solver|]. intros [?|[-> _]]; [naive_solver|lia].
    - apply lookup_ge_None in Hi as Hge. rewrite list_lookup_singleton_Some. split; [intros [? ->]; right; split; [lia|done]|].
      intros [?|[-> ->]]; [done|]. split; [lia|done]. }
  assert (Hold : ∀ i p c, punits !! i = Some p → c ∈ pu_CPUs p → c ∉ cpus).
  { intros i p c Hi Hc Hc'. eapply Hx; [eapply list_elem_of_lookup_2; exact Hi|by left|exact Hc|by apply Hsub]. }
  apply IH; [|done| |].
  - intros p p' c Hp Hp' Hc. apply elem_of_app in Hp as [Hp|Hp]; [eapply Hx; [exact Hp|by right|done]|].
    apply list_elem_of_singleton in Hp as ->. apply Hhd; [done|by apply Hsub].
  - intros i j p p' c Hi Hj Hc Hc'. apply Hnew in Hi as [Hi|[-> ->]]; apply Hnew in Hj as [Hj|[-> ->]]; [by eapply Ha| | |done].
    + by destruct (Hold _ _ _ Hi Hc).
    + by destruct (Hold _ _ _ Hj Hc').
  - destruct Hk as [Hk1 Hk2]. split.
    + intros c i. rewrite set_fold_lookup. setoid_rewrite Hnew. case_decide as Hc.
      * split; [intros [= <-]; exists pu'; naive_solver|]. intros (p & [Hi|[-> ->]] & Hp); [|done]. by destruct (Hold _ _ _ Hi Hp).
      * rewrite Hk1. split; [naive_solver|]. intros (p & [Hi|[-> ->]] & Hp); [by exists p|]. done.
    + intros i p [Hi|[-> ->]]%Hnew; [by eapply Hk2|]. cbn. unfold cpus, allowed_cpus. case_bool_decide; [set_solver|done].
Qed.

(** ** CPUs of high priority in use *)

Section books.
Context `{GoRuntime} {T : Type} `{Sst T}.
Implicit Types (a : pctAllocator T) (use : Z → option string).

Definition hp_used a (i : nat) : CPUSet := default ∅ (px_hpUsed a !! i).

(** A CPU was last used for a class of high priority. *)
Definition used_hp a use (cpu : Z) : Prop := ∃ n, use cpu = Some n ∧ n ∈ px_hpClasses a.

Record pct_books a use : Prop := MkBooks {
  bk_apart : punits_apart (px_punits a);
  bk_known : punits_known (px_allowed a) (px_punits a) (px_punitByCpu a);
  bk_used : hpHintsActive a = true → ∀ i cpu,
    cpu ∈ hp_used a i ↔ (∃ pu, px_punits a !! i = Some pu ∧ cpu ∈ pu_CPUs pu) ∧ used_hp a use cpu;
}.

Lemma clear_used cpus a i cpu : hpHintsActive a = true →
  cpu ∈ hp_used (clearHpUsage cpus a) i ↔ cpu ∈ hp_used a i ∧ cpu ∉ cpus.
Proof.
  intros Ha. unfold hp_used, clearHpUsage. rewrite Ha. cbn. rewrite lookup_fmap.
  destruct (px_hpUsed a !! i) as [set|]; cbn; [|set_solver]. case_bool_decide as Hs; [set_solver|].
  assert (set ∖ cpus = set) as Heq; [|set_solver]. apply set_eq. intros c. split; [set_solver|]. intros Hc.
  destruct (decide (c ∈ cpus)) as [Hx|]; [|set_solver]. exfalso.
  assert (size (set ∖ cpus) < size set)%nat by (apply subset_size; set_solver). lia.
Qed.

Lemma cpus_per_punit_spec a cpus i cpu :
  cpu ∈ default [] (cpus_per_punit a cpus !! i) ↔ cpu ∈ cpus ∧ px_punitByCpu a !! cpu = Some i.
Proof.
  unfold cpus_per_punit. set (f := λ (m : gmap nat (list Z)) cpu, _).
  assert (Hf : ∀ l (m : gmap nat (list Z)), cpu ∈ default [] (fold_left f l m !! i) ↔
    cpu ∈ default [] (m !! i) ∨ (cpu ∈ l ∧ px_punitByCpu a !! cpu = Some i)).
  { induction l as [|x l IH]; intros m; [set_solver|]. cbn [fold_left]. rewrite IH. unfold f at 1.
    destruct (px_punitByCpu a !! x) as [j|] eqn:Hx; [|set_solver].
    destruct (decide (j = i)) as [->|]; [rewrite lookup_insert_eq|rewrite lookup_insert_ne by done]; set_solver. }
  rewrite Hf, elem_of_UnsortedList, lookup_empty. set_solver.
Qed.

(** Adding CPUs by punit. *)
Lemma add_used l (m : gmap nat CPUSet) i cpu :
  cpu ∈ default ∅ (fold_left (λ (used : gmap nat CPUSet) (il : nat * list Z),
    <[il.1 := default ∅ (used !! il.1) ∪ list_to_set il.2]> used) l m !! i) ↔
  cpu ∈ default ∅ (m !! i) ∨ ∃ cpus, (i, cpus) ∈ l ∧ cpu ∈ cpus.
Proof.
  revert m. induction l as [|[j cpus] l IH]; intros m; [set_solver|]. cbn [fold_left fst snd]. rewrite IH.
  destruct (decide (j = i)) as [->|]; [rewrite lookup_insert_eq|rewrite lookup_insert_ne by done]; cbn; set_solver.
Qed.

Lemma track_used className cpus a i cpu : hpHintsActive a = true →
  cpu ∈ hp_used (trackHpUsage className cpus a) i ↔
  (cpu ∈ hp_used a i ∧ cpu ∉ cpus) ∨
  (className ∈ px_hpClasses a ∧ cpu ∈ cpus ∧ px_punitByCpu a !! cpu = Some i).
Proof.
  intros Ha. unfold trackHpUsage. rewrite Ha. cbn [negb]. rewrite <- clear_used by done.
  assert (Hc : classIsHighPriority (clearHpUsage cpus a) className = bool_decide (className ∈ px_hpClasses a)).
  { unfold classIsHighPriority, clearHpUsage. rewrite Ha. unfold hpHintsActive in Ha. apply andb_true_iff in Ha as [Hact _].
    unfold Active in *. cbn. by rewrite Hact. }
  assert (Hp : px_punitByCpu (clearHpUsage cpus a) = px_punitByCpu a) by (unfold clearHpUsage; by rewrite Ha).
  rewrite Hc. case_bool_decide as Hin; cbn [negb]; [|tauto]. unfold hp_used at 1. cbn [px_hpUsed with_hpUsed].
  rewrite add_used. fold (hp_used (clearHpUsage cpus a) i).
  assert ((∃ l, (i, l) ∈ map_range (cpus_per_punit (clearHpUsage cpus a) cpus) ∧ cpu ∈ l) ↔
          cpu ∈ cpus ∧ px_punitByCpu a !! cpu = Some i) as ->; [|tauto].
  rewrite <- Hp, <- cpus_per_punit_spec. split.
  - intros (l & Hl%elem_of_map_range & Hx). by rewrite Hl.
  - destruct (cpus_per_punit (clearHpUsage cpus a) cpus !! i) as [l|] eqn:Hl; [|set_solver].
    intros Hx. exists l. by rewrite elem_of_map_range.
Qed.

(** Everything but the platform and the CPUs in use stays as configured. *)
Definition same_config a a' : Prop :=
  px_mode a' = px_mode a ∧ px_classPlan a' = px_classPlan a ∧ px_fallbackClos a' = px_fallbackClos a ∧
  px_allowed a' = px_allowed a ∧ px_hpClasses a' = px_hpClasses a ∧ px_punits a' = px_punits a ∧
  px_punitByCpu a' = px_punitByCpu a ∧ px_hpEligiblePunit a' = px_hpEligiblePunit a.

Lemma track_config className cpus a : same_config a (trackHpUsage className cpus a) ∧ px_sst (trackHpUsage className cpus a) = px_sst a.
Proof.
  unfold trackHpUsage, clearHpUsage. destruct (hpHintsActive a); cbn [negb]; [|done].
  by destruct (negb (classIsHighPriority _ className)).
Qed.

Lemma associate_config cpus clos a : same_config a (associate cpus clos a).1 ∧ px_hpUsed (associate cpus clos a).1 = px_hpUsed a.
Proof. unfold associate. by destruct (sst_AssociateCPUs _ _) as [s e]. Qed.

Lemma PctUseClass_config className cpus a : same_config a (PctUseClass className cpus a).1.
Proof.
  unfold PctUseClass. destruct (negb (Active a)); [done|]. case_bool_decide; [done|].
  set (cs := if bool_decide _ then _ else _) in *. set (a1 := trackHpUsage className cs a).
  assert (Ht : same_config a a1) by apply track_config.
  assert (Has : ∀ clos, same_config a (associate cs clos a1).1).
  { intros clos. destruct (associate_config cs clos a1) as [(?&?&?&?&?&?&?&?) _].
    destruct Ht as (?&?&?&?&?&?&?&?). unfold same_config. split_and!; congruence. }
  destruct (px_classPlan a1 !! className); [apply Has|]. case_bool_decide; [done|apply Has].
Qed.

Lemma PctUseClass_used className cpus a : Active a = true →
  px_hpUsed (PctUseClass className cpus a).1 = px_hpUsed (trackHpUsage className (allowed_cpus (px_allowed a) cpus) a) ∨
  allowed_cpus (px_allowed a) cpus = ∅ ∧ px_hpUsed (PctUseClass className cpus a).1 = px_hpUsed a.
Proof.
  intros Ha. unfold PctUseClass. rewrite Ha. cbn [negb]. fold (allowed_cpus (px_allowed a) cpus).
  case_bool_decide as He; [by right|]. left. set (a1 := trackHpUsage _ _ a).
  destruct (px_classPlan a1 !! className); [apply associate_config|]. case_bool_decide; [done|apply associate_config].
Qed.

Lemma hints_active_config a a' : same_config a a' → hpHintsActive a' = hpHintsActive a.
Proof. intros (Hm & _ & _ & _ & Hh & _). unfold hpHintsActive, Active. by rewrite Hm, Hh. Qed.

Lemma PctUseClass_books className cpus a use :
  pct_books a use → pct_books (PctUseClass className cpus a).1 (used (px_allowed a) className cpus use).
Proof.
  intros [Hap Hkn Hus]. pose proof (PctUseClass_config className cpus a) as Hc.
  pose proof (hints_active_config _ _ Hc) as Hh. destruct Hc as (_ & _ & _ & Hal & Hhp & Hpu & Hby & _).
  split; [by rewrite Hpu|by rewrite Hpu, Hby, Hal|].
  rewrite Hh, Hpu. intros Hact i cpu. unfold used_hp. rewrite Hhp. unfold used.
  assert (Ha : Active a = true) by (unfold hpHintsActive in Hact; by apply andb_true_iff in Hact as [? _]).
  unfold hp_used. destruct (PctUseClass_used className cpus a Ha) as [->|[He ->]]; fold (hp_used a i).
  - fold (hp_used (trackHpUsage className (allowed_cpus (px_allowed a) cpus) a) i).
    rewrite track_used, Hus by done. rewrite (proj1 Hkn). unfold used_hp.
    destruct (decide (cpu ∈ allowed_cpus (px_allowed a) cpus)); naive_solver.
  - rewrite Hus by done. unfold used_hp. rewrite decide_False by set_solver. done.
Qed.

End books.

(** ** Candidates for requests of high priority *)

(** The sets of a list do not share CPUs. *)
Definition apart {A} (f : A → CPUSet) (l : list A) : Prop :=
  ∀ i j x y, i ≠ j → l !! i = Some x → l !! j = Some y → f x ## f y.

Lemma apart_sub {A} (f : A → CPUSet) l l' : l' ⊆+ l → apart f l → apart f l'.
Proof.
  intros [k Hk]%submseteq_Permutation Ha i j x y Hij Hi Hj. symmetry in Hk.
  apply Permutation_inj in Hk as (_ & g & Hg & Hl).
  apply (Ha (g i) (g j)); [by intros ?%Hg|..]; rewrite <- Hl; by apply lookup_app_l_Some.
Qed.

Section reserve.
Context `{GoRuntime} {T : Type} `{Sst T}.
Implicit Types (a : pctAllocator T).

(** Room for CPUs of high priority on a punit, not counting the CPUs of the
    requester. *)
Definition hp_room a (excludeBln : CPUSet) (ip : nat * pctPunit) : Z :=
  if bool_decide (pu_MaxHpCpus ip.2 ≤ 0) then 0
  else Z.max (pu_MaxHpCpus ip.2 - Z.of_nat (size (hp_used a ip.1 ∖ excludeBln))) 0.

Definition total_room a (excludeBln : CPUSet) (hosts : list (nat * pctPunit)) : Z :=
  foldr (λ ip sum, hp_room a excludeBln ip + sum) 0 hosts.

(** The free CPUs of punits of one package, with room for a request. *)
Definition candidate a (free excludeBln : CPUSet) (requested : Z) (c : CPUSet) : Prop :=
  ∃ pkg hosts,
    NoDup hosts.*1 ∧
    (∀ i pu, (i, pu) ∈ hosts → px_punits a !! i = Some pu ∧ pu_PkgID pu = pkg) ∧
    (∀ cpu, cpu ∈ c ↔ cpu ∈ free ∧ ∃ i pu, (i, pu) ∈ hosts ∧ cpu ∈ pu_CPUs pu) ∧
    requested ≤ Z.of_nat (size c) ∧ requested ≤ total_room a excludeBln hosts.

Definition state_of a (free excludeBln : CPUSet) (ip : nat * pctPunit) : punitState :=
  punit_state a free excludeBln ip.1 ip.2.

Lemma states_fmap a free excludeBln :
  imap (punit_state a free excludeBln) (px_punits a) = state_of a free excludeBln <$> imap pair (px_punits a).
Proof. by rewrite fmap_imap. Qed.

Lemma room_state a free excludeBln ip : ps_room (state_of a free excludeBln ip) = hp_room a excludeBln ip.
Proof.
  unfold state_of, punit_state, hp_room. cbn. case_bool_decide; [done|]. fold (hp_used a ip.1).
  case_bool_decide as Hx; [done|]. assert (excludeBln = ∅) as -> by (apply leibniz_equiv, size_empty_inv; lia).
  by rewrite difference_empty_L.
Qed.

Lemma elem_of_punits a i pu : (i, pu) ∈ imap pair (px_punits a) ↔ px_punits a !! i = Some pu.
Proof.
  rewrite list_elem_of_lookup. split.
  - intros [j Hj]. rewrite list_lookup_imap in Hj. by destruct (px_punits a !! j) eqn:E; simplify_eq/=.
  - intros Hi. exists i. by rewrite list_lookup_imap, Hi.
Qed.

Lemma NoDup_punits a : NoDup (imap pair (px_punits a)).*1.
Proof. rewrite fmap_imap. unfold compose. cbn. rewrite (imap_seq_0 _ id), list_fmap_id. apply NoDup_seq. Qed.

(** The sums and unions over the punits of a package. *)
Definition hosts_package (pkg : Z) (s : punitState) : bool :=
  bool_decide (ps_pkg s = pkg) && negb (bool_decide (ps_room s ≤ 0) || bool_decide (ps_free s = ∅)).

Lemma package_step_at agg s pkg : let e := default (0, ∅) (agg !! pkg) in
  default (0, ∅) (package_step agg s !! pkg) = if hosts_package pkg s then (e.1 + ps_room s, e.2 ∪ ps_free s) else e.
Proof.
  unfold package_step, hosts_package. destruct (_ || _); cbn; [by rewrite andb_false_r|]. rewrite andb_true_r.
  destruct (decide (ps_pkg s = pkg)) as [<-|Hne].
  - rewrite bool_decide_eq_true_2 by done. by rewrite lookup_insert_eq.
  - rewrite bool_decide_eq_false_2 by done. by rewrite lookup_insert_ne.
Qed.

Lemma package_fold l agg pkg :
  let hosts := filter (λ s, hosts_package pkg s = true) l in
  let r := default (0, ∅) (fold_left package_step l agg !! pkg) in
  r.1 = (default (0, ∅) (agg !! pkg)).1 + foldr (λ s sum, ps_room s + sum) 0 hosts ∧
  ∀ cpu, cpu ∈ r.2 ↔ cpu ∈ (default (0, ∅) (agg !! pkg)).2 ∨ ∃ s, s ∈ hosts ∧ cpu ∈ ps_free s.
Proof.
  cbn zeta. revert agg. induction l as [|s l IH]; intros agg; [cbn; split; [lia|set_solver]|]. cbn [fold_left].
  destruct (IH (package_step agg s)) as [IH1 IH2]. rewrite package_step_at in IH1, IH2. rewrite filter_cons.
  destruct (hosts_package pkg s); [rewrite decide_True by done|rewrite decide_False by done; auto].
  cbn in *. split; [lia|]. intros cpu. rewrite IH2. set_solver.
Qed.

Lemma filter_states a free excludeBln (P : punitState → bool) (l : list (nat * pctPunit)) :
  filter (λ s, P s = true) (state_of a free excludeBln <$> l)
  = state_of a free excludeBln <$> filter (λ ip, P (state_of a free excludeBln ip) = true) l.
Proof. induction l as [|ip l IH]; [done|]. rewrite fmap_cons, !filter_cons, IH. by case_decide. Qed.

Lemma NoDup_filter_keys (P : nat * pctPunit → Prop) `{!∀ x, Decision (P x)} a : NoDup (filter P (imap pair (px_punits a))).*1.
Proof.
  eapply sublist_NoDup; [apply NoDup_punits|]. apply fmap_sublist, sublist_filter.
Qed.

Lemma total_room_states a free excludeBln (l : list (nat * pctPunit)) :
  foldr (λ s sum, ps_room s + sum) 0 (state_of a free excludeBln <$> l) = total_room a excludeBln l.
Proof. unfold total_room. induction l as [|ip l IH]; [done|]. rewrite fmap_cons. cbn [foldr]. by rewrite IH, room_state. Qed.

(** A package all of whose punits with room and free CPUs make a candidate. *)
Lemma package_candidate a free excludeBln requested pkg room c :
  fold_left package_step (imap (punit_state a free excludeBln) (px_punits a)) ∅ !! pkg = Some (room, c) →
  requested ≤ room → requested ≤ Z.of_nat (size c) → candidate a free excludeBln requested c.
Proof.
  intros Hl Hroom Hsize.
  destruct (package_fold (imap (punit_state a free excludeBln) (px_punits a)) ∅ pkg) as [Hr Hf].
  rewrite Hl in Hr, Hf. cbn in Hr, Hf. rewrite lookup_empty in Hr, Hf. cbn in Hr, Hf.
  rewrite states_fmap, filter_states in Hr, Hf. rewrite total_room_states in Hr.
  set (hosts := filter _ _) in *. exists pkg, hosts. split_and!; [apply NoDup_filter_keys| | |done|lia].
  - intros i pu [Hh Hin]%list_elem_of_filter. apply elem_of_punits in Hin. split; [done|].
    apply andb_true_iff in Hh as [Hp _]. by apply bool_decide_eq_true in Hp.
  - intros cpu. rewrite Hf. setoid_rewrite list_elem_of_fmap. split.
    + intros [[]%not_elem_of_empty|(s & ([i pu] & -> & Hin) & Hc)]. cbn in Hc. set_solver.
    + intros (Hfree & i & pu & Hin & Hc). right. exists (state_of a free excludeBln (i, pu)). cbn. split; [eauto|set_solver].
Qed.

Lemma punit_candidate a free excludeBln requested i pu :
  px_punits a !! i = Some pu → requested ≤ Z.of_nat (size (pu_CPUs pu ∩ free)) → requested ≤ hp_room a excludeBln (i, pu) →
  candidate a free excludeBln requested (pu_CPUs pu ∩ free).
Proof.
  intros Hi Hs Hr. exists (pu_PkgID pu), [(i, pu)]. cbn. split_and!; [apply NoDup_singleton| | |done|lia].
  - intros j p Hin. set_solver.
  - intros cpu. set_solver.
Qed.

(** A punit that is known, has free CPUs and room for all of a request. *)
Definition can_host a (free excludeBln : CPUSet) (need : Z) (ip : nat * pctPunit) : Prop :=
  px_punits a !! ip.1 = Some ip.2 ∧ need ≤ Z.of_nat (size (pu_CPUs ip.2 ∩ free)) ∧ need ≤ hp_room a excludeBln ip.

Lemma tier_a_host a free excludeBln need i pu : 1 ≤ need → px_punits a !! i = Some pu →
  tier_a need (state_of a free excludeBln (i, pu)) = true ↔ can_host a free excludeBln need (i, pu).
Proof.
  intros Hneed Hi. unfold tier_a, can_host. rewrite room_state. unfold state_of, free_size, punit_state. cbn [fst snd ps_free].
  rewrite andb_true_iff, !negb_true_iff, !orb_false_iff, !bool_decide_eq_false. split; [intros (_ & ? & ?); split_and!; [done|lia..]|].
  intros (_ & Hs & Hr). split_and!; [|lia..]. intros He. rewrite He, size_empty in Hs. lia.
Qed.

Lemma tier_a_elem a free excludeBln need c : 1 ≤ need →
  c ∈ ps_free <$> sort_slice tier_a_less (filter (λ s, tier_a need s = true) (imap (punit_state a free excludeBln) (px_punits a))) ↔
  ∃ ip, can_host a free excludeBln need ip ∧ c = pu_CPUs ip.2 ∩ free.
Proof.
  intros Hneed. rewrite list_elem_of_fmap. unfold sort_slice. setoid_rewrite elem_of_sort_func.
  rewrite states_fmap, filter_states. setoid_rewrite list_elem_of_fmap. setoid_rewrite list_elem_of_filter. split.
  - intros (s & -> & [i pu] & -> & Ht & Hin%elem_of_punits). exists (i, pu). split; [|done]. by apply tier_a_host in Ht.
  - intros ([i pu] & Hh & ->). pose proof Hh as (Hi & _). exists (state_of a free excludeBln (i, pu)). split; [done|].
    exists (i, pu). split; [done|]. split; [by apply tier_a_host|by apply elem_of_punits].
Qed.

(** Every proposed set is a candidate for the request. *)
Lemma reserve_candidate a free excludeBln requested c :
  c ∈ hpReserveCpus a free excludeBln requested →
  candidate a (allowed_cpus (px_allowed a) free) excludeBln (Z.max requested 1) c.
Proof.
  unfold hpReserveCpus. destruct (negb _); [set_solver|]. fold (allowed_cpus (px_allowed a) free).
  set (fr := allowed_cpus (px_allowed a) free). case_bool_decide; [set_solver|]. destruct (negb _); [set_solver|].
  case_bool_decide as Hn.
  - intros ([i pu] & (Hi & Hs & Hr) & ->)%tier_a_elem; [|lia]. by apply (punit_candidate _ _ _ _ i).
  - case_bool_decide as Hreq; [|set_solver]. intros ([pkg [room c']] & -> & Hin)%list_elem_of_fmap.
    unfold sort_slice in Hin. apply elem_of_sort_func, list_elem_of_filter in Hin as [Hok Hl%elem_of_map_range].
    cbn in Hok. unfold free_size in Hok. cbn. eapply package_candidate; [exact Hl|lia..].
Qed.

(** If a punit can host a request, those that can are proposed. *)
Lemma reserve_hosts a free excludeBln requested ip :
  hpHintsActive a = true → can_host a (allowed_cpus (px_allowed a) free) excludeBln (Z.max requested 1) ip →
  ∀ c, c ∈ hpReserveCpus a free excludeBln requested ↔
    ∃ ip, can_host a (allowed_cpus (px_allowed a) free) excludeBln (Z.max requested 1) ip ∧
      c = pu_CPUs ip.2 ∩ allowed_cpus (px_allowed a) free.
Proof.
  intros Ha Hh c. pose proof Hh as (Hi & Hs & Hr). unfold hpReserveCpus. rewrite Ha. cbn [negb].
  fold (allowed_cpus (px_allowed a) free). set (fr := allowed_cpus (px_allowed a) free) in *.
  rewrite (bool_decide_eq_false_2 (fr = ∅)).
  2:{ intros He. rewrite He, intersection_empty_r_L, size_empty in Hs. lia. }
  assert (existsb (λ pu, bool_decide (0 < pu_MaxHpCpus pu)) (px_punits a) = true) as ->.
  { apply existsb_exists. exists ip.2. split; [eapply list_elem_of_In, list_elem_of_lookup_2; exact Hi|].
    apply bool_decide_eq_true. unfold hp_room in Hr. destruct (decide (pu_MaxHpCpus ip.2 ≤ 0)) as [Hz|Hz]; [rewrite bool_decide_eq_true_2 in Hr by done|]; lia. }
  cbn [negb]. rewrite <- tier_a_elem by lia. rewrite bool_decide_eq_true_2; [done|].
  assert (Hin : (pu_CPUs ip.2 ∩ fr) ∈ ps_free <$> sort_slice tier_a_less
    (filter (λ s, tier_a (requested `max` 1) s = true) (imap (punit_state a fr excludeBln) (px_punits a)))).
  { apply tier_a_elem; [lia|eauto]. }
  unfold sort_slice in Hin. apply list_elem_of_fmap in Hin as (s & _ & Hin). apply elem_of_sort_func in Hin.
  destruct (filter _ _); [set_solver|cbn; lia].
Qed.

Lemma apart_fmap {A B} (f : B → CPUSet) (g : A → B) l : apart f (g <$> l) ↔ apart (f ∘ g) l.
Proof.
  unfold apart. setoid_rewrite list_lookup_fmap_Some. split.
  - intros Ha i j x y Hij Hi Hj. eapply Ha; eauto.
  - intros Ha i j x y Hij (x' & -> & Hi) (y' & -> & Hj). by eapply Ha.
Qed.

Lemma sort_sub {A} (less : A → A → bool) (P : A → Prop) `{!∀ x, Decision (P x)} l : sort_slice less (filter P l) ⊆+ l.
Proof.
  unfold sort_slice. rewrite (sort_func_perm (cmp_of_less less) (filter P l)). apply sublist_submseteq, sublist_filter.
Qed.

Lemma package_free a free excludeBln pkg room c cpu :
  fold_left package_step (imap (punit_state a free excludeBln) (px_punits a)) ∅ !! pkg = Some (room, c) →
  cpu ∈ c → ∃ i pu, px_punits a !! i = Some pu ∧ pu_PkgID pu = pkg ∧ cpu ∈ pu_CPUs pu.
Proof.
  intros Hl Hc. destruct (package_fold (imap (punit_state a free excludeBln) (px_punits a)) ∅ pkg) as [_ Hf].
  rewrite Hl in Hf. cbn in Hf. rewrite lookup_empty in Hf. apply Hf in Hc as [[]%not_elem_of_empty|(s & Hs & Hc)].
  rewrite states_fmap, filter_states in Hs. apply list_elem_of_fmap in Hs as ([i pu] & -> & Hin).
  apply list_elem_of_filter in Hin as [Hh Hin%elem_of_punits]. apply andb_true_iff in Hh as [Hp%bool_decide_eq_true _].
  cbn in *. exists i, pu. set_solver.
Qed.

(** The proposed sets do not share CPUs. *)
Lemma reserve_apart a free excludeBln requested :
  punits_apart (px_punits a) → apart id (hpReserveCpus a free excludeBln requested).
Proof.
  intros Hap. assert (Hnil : apart id []) by (intros i j x y _; by rewrite lookup_nil).
  unfold hpReserveCpus. destruct (negb _); [done|]. fold (allowed_cpus (px_allowed a) free). set (fr := allowed_cpus (px_allowed a) free).
  case_bool_decide; [done|]. destruct (negb _); [done|].
  case_bool_decide as Hn.
  - apply apart_fmap, (apart_sub _ _ _ (sort_sub _ _ _)). rewrite states_fmap. apply apart_fmap.
    intros i j [i' x] [j' y] Hij Hi Hj. rewrite list_lookup_imap in Hi, Hj.
    apply fmap_Some in Hi as (? & Hi & [= -> ->]). apply fmap_Some in Hj as (? & Hj & [= -> ->]). cbn.
    intros cpu Hc Hc'. apply Hij. apply elem_of_intersection in Hc as [Hc _], Hc' as [Hc' _]. by eapply Hap.
  - case_bool_decide; [|done]. apply apart_fmap, (apart_sub _ _ _ (sort_sub _ _ _)).
    intros i j [pkg [room c]] [pkg' [room' c']] Hij Hi Hj cpu Hc Hc'. cbn in Hc, Hc'. apply Hij.
    pose proof (proj1 (elem_of_map_range _ _ _) (list_elem_of_lookup_2 _ _ _ Hi)) as Hl.
    pose proof (proj1 (elem_of_map_range _ _ _) (list_elem_of_lookup_2 _ _ _ Hj)) as Hl'.
    destruct (package_free _ _ _ _ _ _ _ Hl Hc) as (k & pu & Hk & <- & Hck).
    destruct (package_free _ _ _ _ _ _ _ Hl' Hc') as (k' & pu' & Hk' & <- & Hck').
    assert (k = k') as <- by (by eapply Hap). assert (pu = pu') as <- by congruence.
    pose proof (NoDup_map_range (fold_left package_step (imap (punit_state a fr excludeBln) (px_punits a)) ∅)) as Hnd.
    apply (NoDup_lookup _ _ _ (pu_PkgID pu) Hnd); rewrite list_lookup_fmap; [by rewrite Hi|by rewrite Hj].
Qed.

End reserve.

(** ** Configuration *)

(** What an implementation of the platform promises: associations take effect,
    and no others change. *)
Class SstLaws (T : Type) `{Sst T} := {
  AssociateCPUs_clos : ∀ clos cpus (s s' : T) cpu,
    sst_AssociateCPUs ((λ c, (c, clos)) <$> cpus) s = (s', None) →
    sst_GetCPUClosID s' cpu = if decide (cpu ∈ cpus) then Ok clos else sst_GetCPUClosID s cpu;
}.

(** The plan of a class. *)
Definition plan_of (sys : ClsSys) (cc : CPUClass) : option pctClassPlan :=
  if bool_decide (cc_PctPriority cc ≠ "")
  then (λ clos, managed_plan sys clos cc) <$> planned_priority (cc_PctPriority cc)
  else (λ clos, MkPlan clos 0 0) <$> cc_SstClosID cc.

Lemma plan_classes_spec sys classes plans m ao plans' m' ao' :
  NoDup (cc_Name <$> classes) → plan_classes sys classes plans m ao = Ok (plans', m', ao') →
  (∀ n, n ∉ cc_Name <$> classes → plans' !! n = plans !! n) ∧
  (∀ cc, cc ∈ classes → plan_of sys cc = None → plans' !! cc_Name cc = plans !! cc_Name cc) ∧
  (∀ cc p, cc ∈ classes → plan_of sys cc = Some p → plans' !! cc_Name cc = Some p) ∧
  (∀ cc, cc ∈ classes → cc_PctPriority cc ≠ "" → is_Some (planned_priority (cc_PctPriority cc))) ∧
  m' = m || existsb (λ cc, bool_decide (cc_PctPriority cc ≠ "")) classes.
Proof.
  revert plans m ao. induction classes as [|cc classes IH]; intros plans m ao; cbn [plan_classes existsb].
  { intros _ [= <- <- <-]. split_and!; try set_solver. by rewrite orb_false_r. }
  rewrite fmap_cons. intros [Hni Hnd]%NoDup_cons.
  set (rest := λ plans m ao, plan_classes sys classes plans m ao = Ok (plans', m', ao')).
  assert (Hstep : ∀ plans1 m1 ao1, rest plans1 m1 ao1 →
    (∀ n, n ≠ cc_Name cc → plans1 !! n = plans !! n) → plans1 !! cc_Name cc = match plan_of sys cc with Some p => Some p | None => plans !! cc_Name cc end →
    (cc_PctPriority cc ≠ "" → is_Some (planned_priority (cc_PctPriority cc))) →
    m1 = m || bool_decide (cc_PctPriority cc ≠ "") →
    (∀ n, n ∉ cc_Name cc :: (cc_Name <$> classes) → plans' !! n = plans !! n) ∧
    (∀ cc', cc' ∈ cc :: classes → plan_of sys cc' = None → plans' !! cc_Name cc' = plans !! cc_Name cc') ∧
    (∀ cc' p, cc' ∈ cc :: classes → plan_of sys cc' = Some p → plans' !! cc_Name cc' = Some p) ∧
    (∀ cc', cc' ∈ cc :: classes → cc_PctPriority cc' ≠ "" → is_Some (planned_priority (cc_PctPriority cc'))) ∧
    m' = m || (bool_decide (cc_PctPriority cc ≠ "") || existsb (λ cc, bool_decide (cc_PctPriority cc ≠ "")) classes)).
  { intros plans1 m1 ao1 Hrest Ho Hs Hp Hm. destruct (IH _ _ _ Hnd Hrest) as (I1 & I2 & I3 & I4 & I5).
    assert (Hin : ∀ c, c ∈ classes → cc_Name c ≠ cc_Name cc).
    { intros c Hc He. apply Hni. rewrite <- He. apply list_elem_of_fmap. eauto. }
    split_and!.
    - intros n [Hn Hn']%not_elem_of_cons. by rewrite I1, Ho.
    - intros c [->|Hc]%elem_of_cons Hpl; [by rewrite I1, Hs, Hpl|]. rewrite I2 by done. apply Ho. auto.
    - intros c p [->|Hc]%elem_of_cons Hpl; [by rewrite I1, Hs, Hpl|by apply I3].
    - intros c [->|Hc]%elem_of_cons; [done|by apply I4].
    - by rewrite I5, Hm, orb_assoc. }
  unfold plan_of in Hstep. destruct (decide (cc_PctPriority cc = "")) as [He|He].
  - rewrite (bool_decide_eq_false_2 (cc_PctPriority cc ≠ "")) in * by tauto.
    destruct (cc_SstClosID cc) as [clos|]; intros Hr; (eapply Hstep; [exact Hr|..]); try done; try by rewrite orb_false_r.
    + intros n Hn. by rewrite lookup_insert_ne.
    + by rewrite lookup_insert_eq.
  - rewrite (bool_decide_eq_true_2 (cc_PctPriority cc ≠ "")) in * by done.
    destruct (planned_priority (cc_PctPriority cc)) as [clos|] eqn:Hp; [|done].
    intros Hr. eapply Hstep; [exact Hr|..]; try done; try by rewrite orb_true_r.
    + intros n Hn. by rewrite lookup_insert_ne.
    + by rewrite lookup_insert_eq.
Qed.

(** The CLOS a class is to be associated with.  CPUs of classes without one are
    given the CLOS of low priority, or the default one if there is no class of
    low priority; if the platform is managed by others, they are left alone. *)
Definition is_managed (classes : list CPUClass) : bool :=
  existsb (λ cc, bool_decide (cc_PctPriority cc ≠ "")) classes.

Definition fallback_of (classes : list CPUClass) : Z :=
  if existsb (λ cc, bool_decide (cc_PctPriority cc = "low")) classes then pctDefaultLpClos else pctDefaultHpClos.

Definition other_clos (classes : list CPUClass) : option Z :=
  if is_managed classes then Some (fallback_of classes) else None.

Definition clos_of (classes : list CPUClass) (name : string) : option Z :=
  match List.find (λ cc, bool_decide (cc_Name cc = name)) classes with
  | None => other_clos classes
  | Some cc =>
      if bool_decide (cc_PctPriority cc = "high") then Some pctDefaultHpClos
      else if bool_decide (cc_PctPriority cc = "low") then Some pctDefaultLpClos
      else match cc_SstClosID cc with Some clos => Some clos | None => other_clos classes end
  end.

Section configuration.
Context `{GoRuntime} {T : Type} `{Sst T} (sys : ClsSys).
Implicit Types (a : pctAllocator T).

(** The CLOS the allocator associates CPUs of a class with. *)
Definition target_clos a (name : string) : option Z :=
  match px_classPlan a !! name with
  | Some p => Some (pl_ClosID p)
  | None => if bool_decide (px_mode a = pctModeAssocOnly) then None else Some (px_fallbackClos a)
  end.

Lemma managed_classes plans classes st :
  (∀ cc, cc ∈ classes → cc_PctPriority cc = "low" → pl_ClosID <$> plans !! cc_Name cc = Some pctDefaultLpClos) →
  (fold_left (managed_class plans) classes st).2
  = if existsb (λ cc, bool_decide (cc_PctPriority cc = "low")) classes then Some pctDefaultLpClos else st.2.
Proof.
  revert st. induction classes as [|cc classes IH]; intros st Hl; [done|]. cbn [fold_left existsb].
  rewrite IH by set_solver. unfold managed_class. destruct (decide (cc_PctPriority cc = "low")) as [He|He].
  - rewrite (bool_decide_eq_true_2 (cc_PctPriority cc = "low")) by done.
    rewrite bool_decide_eq_false_2 by (rewrite He; done). cbn. rewrite Hl by (done || set_solver).
    by destruct (existsb _ classes).
  - rewrite (bool_decide_eq_false_2 (cc_PctPriority cc = "low")) by done. by case_bool_decide.
Qed.

(** What an active configuration consists of. *)
Definition pct_configured (classes : list CPUClass) (allowed : CPUSet) a : Prop :=
  px_allowed a = allowed ∧ px_hpUsed a = ∅ ∧ (∀ name clos, clos_of classes name = Some clos → target_clos a name = Some clos).

Lemma clos_target classes a mode plans :
  NoDup (cc_Name <$> classes) → planClasses sys classes = Ok (mode, plans) → mode ≠ pctModeDisabled →
  px_mode a = mode → px_classPlan a = plans → (mode = pctModeManaged → px_fallbackClos a = fallback_of classes) →
  ∀ name clos, clos_of classes name = Some clos → target_clos a name = Some clos.
Proof.
  intros Hnd Hpl Hm Hmode Hplan Hfb name clos. unfold planClasses in Hpl.
  destruct (plan_classes sys classes ∅ false false) as [[[plans' m] ao]|] eqn:Hpc; [|done]. cbn in Hpl.
  destruct (plan_classes_spec _ _ _ _ _ _ _ _ Hnd Hpc) as (I1 & I2 & I3 & I4 & I5). cbn in I5.
  assert (Hmm : plans = plans' ∧ (m = true → mode = pctModeManaged) ∧ (m = false → mode = pctModeAssocOnly)).
  { destruct m, ao; cbn in Hpl; simplify_eq; by split_and!. }
  destruct Hmm as (-> & Hman & Hass).
  assert (Hother : ∀ c, other_clos classes = Some c → px_classPlan a !! name = None → target_clos a name = Some c).
  { intros c. unfold other_clos, is_managed. rewrite <- I5. destruct m; [|done]. intros [= <-] Hno. unfold target_clos.
    rewrite Hno, Hmode, Hman by done. by rewrite bool_decide_eq_false_2, Hfb by auto. }
  unfold clos_of. destruct (List.find _ classes) as [cc|] eqn:Hf.
  - apply find_some in Hf as [Hin%list_elem_of_In He%bool_decide_eq_true].
    assert (Hp : ∀ p, plan_of sys cc = Some p → target_clos a name = Some (pl_ClosID p)).
    { intros p Hp. unfold target_clos. by rewrite Hplan, <- He, (I3 cc p Hin Hp). }
    unfold plan_of in Hp. destruct (decide (cc_PctPriority cc = "")) as [Hz|Hz].
    + rewrite (bool_decide_eq_false_2 (cc_PctPriority cc ≠ "")) in Hp by tauto. rewrite Hz. cbn.
      destruct (cc_SstClosID cc) as [id|] eqn:Hid; cbn in Hp; [intros [= <-]; by apply (Hp _ eq_refl)|].
      intros Ho. apply Hother; [done|]. rewrite Hplan, <- He, I2; [done..|].
      unfold plan_of. by rewrite bool_decide_eq_false_2, Hid by tauto.
    + rewrite (bool_decide_eq_true_2 (cc_PctPriority cc ≠ "")) in Hp by done.
      destruct (I4 cc Hin Hz) as [c Hc]. rewrite Hc in Hp. cbn in Hp. specialize (Hp _ eq_refl). cbn in Hp.
      unfold planned_priority in Hc. case_bool_decide; [naive_solver|]. case_bool_decide; naive_solver.
  - intros Ho. apply Hother; [done|]. rewrite Hplan, I1; [done|].
    intros (cc & -> & Hin)%list_elem_of_fmap. apply list_elem_of_In in Hin.
    pose proof (find_none _ _ Hf cc Hin) as Hno. by apply bool_decide_eq_false in Hno.
Qed.

(** Configuring the platform leaves these alone. *)
Definition same_punits a a' : Prop :=
  px_mode a' = px_mode a ∧ px_classPlan a' = px_classPlan a ∧ px_allowed a' = px_allowed a ∧
  px_punits a' = px_punits a ∧ px_punitByCpu a' = px_punitByCpu a ∧ px_hpUsed a' = px_hpUsed a.

Lemma configure_managed_spec classes a a' :
  (∀ cc, cc ∈ classes → cc_PctPriority cc = "low" → pl_ClosID <$> px_classPlan a !! cc_Name cc = Some pctDefaultLpClos) →
  px_fallbackClos a = pctDefaultHpClos → configure_managed classes a = (a', None) →
  same_punits a a' ∧ px_fallbackClos a' = fallback_of classes.
Proof.
  intros Hl Hfb. unfold configure_managed. destruct (sst_PrepareManagedMode _) as [s1 [e|]]; [done|].
  destruct (program_closes _ _ _) as [s2 [e|]]; [done|]. destruct (sst_EnableCP s2) as [s3 [e|]]; [done|].
  pose proof (managed_classes (px_classPlan a) classes (px_hpClasses a, None) Hl) as Hm. cbn [px_classPlan with_eligible with_sst px_hpClasses] in *.
  destruct (fold_left _ _ _) as [hp lp]. cbn in Hm. intros [= <-]. unfold fallback_of.
  destruct (existsb _ classes); rewrite Hm; by split.
Qed.

Lemma assoc_only_spec classes a : let a' := evaluateAssocOnlyHpEligibility (classifyAssocOnlyHP classes a) in same_punits a a'.
Proof.
  assert (Hc : same_punits a (classifyAssocOnlyHP classes a)).
  { unfold classifyAssocOnlyHP. destruct (fold_left _ _ _) as [maxFreqs closIDs]. case_bool_decide; [done|].
    destruct (fold_left _ _ _) as [best bestMax]. by destruct (_ || _). }
  cbn zeta. set (a1 := classifyAssocOnlyHP classes a) in *. unfold evaluateAssocOnlyHpEligibility.
  case_bool_decide; [done|]. by destruct (sst_TFStatus (px_sst a1)).
Qed.

Lemma PctConfigure_spec classes allowed a0 a :
  NoDup (cc_Name <$> classes) → punits_apart (sst_Punits (px_sst a0)) →
  PctConfigure sys classes allowed a0 = (a, None) →
  pct_books a (λ _, None) ∧ (Active a = true → pct_configured classes allowed a).
Proof.
  intros Hnd Hap. unfold PctConfigure. set (a1 := MkPct _ _ _ _ _ _ _ _ _ _).
  assert (Hempty : ∀ a', px_punits a' = [] → px_punitByCpu a' = ∅ → px_hpUsed a' = ∅ → pct_books a' (λ _, None)).
  { intros a' Hp Hb Hu. split; rewrite ?Hp, ?Hb; [apply punits_apart_nil|apply punits_known_nil|].
    intros _ i cpu. unfold hp_used. rewrite Hu, lookup_empty. setoid_rewrite lookup_nil. cbn. set_solver. }
  destruct (planClasses sys classes) as [[mode plans]|e] eqn:Hpl; [|done].
  case_bool_decide as Hmode; [intros [= <-]; split; [by apply Hempty|by rewrite Hmode]|].
  destruct (sst_Supported _); cbn [negb]; [|intros [= <-]; split; [by apply Hempty|done]].
  destruct (snapshotPunits _ _ [] ∅) as [punits byCpu] eqn:Hsn.
  apply snapshotPunits_spec in Hsn as [Hap' Hkn']; [|by intros pu ? ? ?%elem_of_nil|done|apply punits_apart_nil|apply punits_known_nil].
  set (a2 := with_punits punits byCpu (with_mode mode plans a1)).
  assert (Hok : ∀ a', same_punits a2 a' → (mode = pctModeManaged → px_fallbackClos a' = fallback_of classes) →
    pct_books a' (λ _, None) ∧ (Active a' = true → pct_configured classes allowed a')).
  { intros a' (Hm & Hp & Hal & Hpu & Hby & Hus) Hfb. split.
    - split; rewrite ?Hpu, ?Hby, ?Hal; [done|done|]. intros _ i cpu. unfold hp_used. rewrite Hus. cbn. rewrite lookup_empty.
      unfold used_hp. set_solver.
    - intros _. split_and!; [done|done|]. by eapply clos_target. }
  case_bool_decide as Hman.
  - intros Hc. apply configure_managed_spec in Hc as [Hs Hf]; [by apply Hok| |done].
    intros cc Hcc Hlow. cbn. unfold planClasses in Hpl.
    destruct (plan_classes sys classes ∅ false false) as [[[plans' m] ao]|] eqn:Hpc; [|done]. cbn in Hpl.
    destruct (plan_classes_spec _ _ _ _ _ _ _ _ Hnd Hpc) as (_ & _ & I3 & _ & _).
    assert (plans = plans') as -> by (destruct m, ao; cbn in Hpl; congruence).
    rewrite (I3 cc (managed_plan sys pctDefaultLpClos cc) Hcc); [done|]. unfold plan_of. by rewrite Hlow.
  - intros [= <-]. apply Hok; [apply assoc_only_spec|done].
Qed.

(** ** Uses *)

Definition pct_uses (uses : list (string * CPUSet)) a : pctAllocator T :=
  fold_left (λ a u, (PctUseClass u.1 u.2 a).1) uses a.

Definition last_used (allowed : CPUSet) (uses : list (string * CPUSet)) : Z → option string :=
  fold_left (λ use u, used allowed u.1 u.2 use) uses (λ _, None).

(** A sequence of uses none of which fails. *)
Fixpoint pct_run (uses : list (string * CPUSet)) a : option (pctAllocator T) :=
  match uses with
  | [] => Some a
  | u :: uses' =>
      match PctUseClass u.1 u.2 a with
      | (a, None) => pct_run uses' a
      | (_, Some _) => None
      end
  end.

Lemma same_config_trans a a' a'' : same_config a a' → same_config a' a'' → same_config a a''.
Proof. intros (?&?&?&?&?&?&?&?) (?&?&?&?&?&?&?&?). unfold same_config. split_and!; congruence. Qed.

Lemma pct_uses_books uses a use : pct_books a use →
  pct_books (pct_uses uses a) (fold_left (λ use u, used (px_allowed a) u.1 u.2 use) uses use) ∧ same_config a (pct_uses uses a).
Proof.
  revert a use. induction uses as [|u uses IH]; intros a use Hb; [done|]. cbn.
  destruct (IH _ _ (PctUseClass_books u.1 u.2 a use Hb)) as [Hb' Hc'].
  destruct (PctUseClass_config u.1 u.2 a) as (_ & _ & _ & Hal & _). rewrite Hal in Hb'. split; [done|]. eapply same_config_trans; [apply PctUseClass_config|done].
Qed.

End configuration.

(** ** Capacity *)

Lemma sizes_of_apart {A} (f : A → CPUSet) l (X : CPUSet) :
  apart f l → (∀ x, x ∈ l → f x ⊆ X) → foldr (λ x n, Z.of_nat (size (f x)) + n) 0 l ≤ Z.of_nat (size X).
Proof.
  revert X. induction l as [|x l IH]; intros X Ha Hs; cbn [foldr]; [lia|].
  assert (Hx : f x ⊆ X) by (apply Hs; by left).
  assert (foldr (λ x n, Z.of_nat (size (f x)) + n) 0 l ≤ Z.of_nat (size (X ∖ f x))).
  { apply IH.
    - intros i j y z Hij Hi Hj. by apply (Ha (S i) (S j)); [lia|..].
    - intros y Hy. apply list_elem_of_lookup in Hy as [j Hj].
      assert (f x ## f y) by (by apply (Ha 0%nat (S j))).
      assert (f y ⊆ X) by (apply Hs; right; by apply list_elem_of_lookup_2 in Hj). set_solver. }
  rewrite size_difference in * by done. pose proof (subseteq_size _ _ Hx). lia.
Qed.

Section capacity.
Context `{GoRuntime} {T : Type} `{Sst T} (sys : ClsSys).

(** What one punit adds to the capacity for high priority. *)
Definition punit_capacity (a : pctAllocator T) (held : CPUSet) (ip : nat * pctPunit) : Z :=
  if bool_decide (ip.1 ∉ px_hpEligiblePunit a) || bool_decide (pu_GuaranteedHpCpus ip.2 ≤ 0) then 0
  else Z.min (Z.of_nat (size (allowed_cpus (px_allowed a) (pu_CPUs ip.2) ∖ held))) (pu_GuaranteedHpCpus ip.2).

Lemma capacity_sum a className held :
  Active a = true → is_Some (px_classPlan a !! className) → className ∈ px_hpClasses a →
  FreeClassCapacity a className held = foldr (λ ip n, punit_capacity a held ip + n) 0 (imap pair (px_punits a)).
Proof.
  intros Ha [p Hp] Hc. unfold FreeClassCapacity, classIsHighPriority. rewrite Ha, Hp. cbn [negb andb].
  rewrite bool_decide_eq_true_2 by done. cbn [negb].
  set (f := λ total (ip : nat * pctPunit), _). set (l := imap pair _).
  assert (Hf : ∀ l n, fold_left f l n = n + foldr (λ ip n, punit_capacity a held ip + n) 0 l).
  { induction l0 as [|ip l0 IH]; intros n; cbn [fold_left foldr]; [lia|]. rewrite IH. unfold f, punit_capacity.
    fold (allowed_cpus (px_allowed a) (pu_CPUs ip.2)).
    destruct (bool_decide (ip.1 ∉ _)); cbn [orb]; [lia|]. destruct (bool_decide (pu_GuaranteedHpCpus ip.2 ≤ 0)) eqn:Hg; [lia|].
    apply bool_decide_eq_false in Hg. lia. }
  by rewrite Hf.
Qed.

Lemma capacity_bounds (a : pctAllocator T) use className held : pct_books a use → (0 < size (px_allowed a))%nat →
  0 ≤ FreeClassCapacity a className held ≤ Z.of_nat (size (px_allowed a ∖ held)).
Proof.
  intros Hb Hal. destruct (Active a) eqn:Ha; [|unfold FreeClassCapacity; rewrite Ha; cbn; lia].
  destruct (px_classPlan a !! className) as [p|] eqn:Hp; [|unfold FreeClassCapacity; rewrite Ha, Hp; cbn; lia].
  destruct (decide (className ∈ px_hpClasses a)) as [Hc|Hc].
  2:{ unfold FreeClassCapacity, classIsHighPriority. rewrite Ha, Hp. cbn [negb andb].
      rewrite bool_decide_eq_false_2 by done. cbn [negb]. rewrite bool_decide_eq_true_2 by lia. lia. }
  rewrite capacity_sum by (done || by eexists). set (l := imap pair (px_punits a)).
  set (f := λ ip : nat * pctPunit, pu_CPUs ip.2 ∖ held).
  assert (Hl : ∀ ip, ip ∈ l → px_punits a !! ip.1 = Some ip.2) by (intros [i pu] Hip; by apply elem_of_punits).
  assert (Hs : 0 ≤ foldr (λ ip n, punit_capacity a held ip + n) 0 l ≤ foldr (λ ip n, Z.of_nat (size (f ip)) + n) 0 l).
  { clearbody l. induction l as [|ip l IH]; cbn [foldr]; [lia|].
    assert (0 ≤ punit_capacity a held ip ≤ Z.of_nat (size (f ip))).
    { unfold punit_capacity, f. rewrite (proj2 (bk_known _ _ Hb) _ _ (Hl ip ltac:(by left))).
      destruct (_ || _) eqn:Ho; [lia|]. apply orb_false_iff in Ho as [_ Hg%bool_decide_eq_false]. lia. }
    specialize (IH ltac:(intros; apply Hl; by right)). lia. }
  split; [lia|]. etrans; [apply Hs|]. apply sizes_of_apart.
  - intros i j [i' x] [j' y] Hij Hi Hj cpu Hx Hy. apply Hij. unfold l in Hi, Hj. rewrite list_lookup_imap in Hi, Hj.
    apply fmap_Some in Hi as (? & Hi & [= -> ->]). apply fmap_Some in Hj as (? & Hj & [= -> ->]).
    apply elem_of_difference in Hx as [Hx _], Hy as [Hy _]. by eapply (bk_apart _ _ Hb).
  - intros ip Hip cpu [Hc1 Hc2]%elem_of_difference. apply elem_of_difference. split; [|done].
    rewrite <- (proj2 (bk_known _ _ Hb) _ _ (Hl ip Hip)), elem_of_allowed in Hc1. tauto.
Qed.

End capacity.

(** ** Associations *)

Section associations.
Context `{GoRuntime} {T : Type} `{SstLaws T}.
Implicit Types (a : pctAllocator T).

Lemma associate_clos cpus clos a a' cpu : associate cpus clos a = (a', None) →
  sst_GetCPUClosID (px_sst a') cpu = if decide (cpu ∈ cpus) then Ok clos else sst_GetCPUClosID (px_sst a) cpu.
Proof.
  unfold associate. destruct (sst_AssociateCPUs _ _) as [s e] eqn:Ea. intros [= <- ->].
  cbn [px_sst with_sst]. rewrite (AssociateCPUs_clos _ _ _ _ cpu Ea).
  assert (cpu ∈ slices_Sort (UnsortedList cpus) ↔ cpu ∈ cpus) as Hc
    by (unfold slices_Sort; by rewrite insertion_sort_perm, elem_of_UnsortedList).
  by repeat case_decide; try tauto.
Qed.

Lemma target_config a a' name : same_config a a' → target_clos a' name = target_clos a name.
Proof. intros (Hm & Hp & Hf & _). unfold target_clos. by rewrite Hm, Hp, Hf. Qed.

(** CPUs are associated as their classes say. *)
Definition associated a (use : Z → option string) (cpu : Z) : Prop :=
  ∀ name clos, use cpu = Some name → target_clos a name = Some clos → sst_GetCPUClosID (px_sst a) cpu = Ok clos.

Lemma PctUseClass_clos className cpus a a' use cpu : Active a = true →
  PctUseClass className cpus a = (a', None) → associated a use cpu →
  associated a' (used (px_allowed a) className cpus use) cpu.
Proof.
  intros Hact Hu Has name clos. pose proof (PctUseClass_config className cpus a) as Hc. rewrite Hu in Hc. cbn in Hc.
  rewrite (target_config _ _ name Hc). unfold used. revert Hu. unfold PctUseClass. rewrite Hact. cbn [negb].
  fold (allowed_cpus (px_allowed a) cpus). set (cs := allowed_cpus (px_allowed a) cpus).
  case_bool_decide as He; [intros [= <-]; rewrite decide_False by set_solver; apply Has|].
  destruct (track_config className cs a) as [Hct Hst]. set (a1 := trackHpUsage className cs a) in *.
  assert (Hass : ∀ c, target_clos a className = Some c → associate cs c a1 = (a', None) →
    (if decide (cpu ∈ cs) then Some className else use cpu) = Some name → target_clos a name = Some clos →
    sst_GetCPUClosID (px_sst a') cpu = Ok clos).
  { intros c Hc1 Ha. rewrite (associate_clos _ _ _ _ cpu Ha), Hst. case_decide; [|apply Has]. intros [= <-]. congruence. }
  assert (Hplan : px_classPlan a1 = px_classPlan a ∧ px_mode a1 = px_mode a ∧ px_fallbackClos a1 = px_fallbackClos a)
    by (destruct Hct as (?&?&?&_); done).
  destruct Hplan as (-> & -> & ->). unfold target_clos in Hass at 1.
  destruct (px_classPlan a !! className) as [p|] eqn:Hp; [by apply Hass|].
  case_bool_decide as Hm; [|by apply Hass]. intros [= <-]. rewrite Hst. case_decide; [|apply Has].
  intros [= <-]. unfold target_clos. by rewrite Hp, bool_decide_eq_true_2.
Qed.

Lemma pct_run_clos uses a a' use cpu : Active a = true → pct_run uses a = Some a' → associated a use cpu →
  associated a' (fold_left (λ use u, used (px_allowed a) u.1 u.2 use) uses use) cpu ∧ same_config a a'.
Proof.
  revert a use. induction uses as [|[n cpus] uses IH]; intros a use Hact Hr Has; cbn in Hr |- *; [by injection Hr as <-|].
  destruct (PctUseClass n cpus a) as [a1 [e|]] eqn:Eu; [done|].
  pose proof (PctUseClass_clos _ _ _ _ _ cpu Hact Eu Has) as Has1.
  pose proof (PctUseClass_config n cpus a) as Hc1. rewrite Eu in Hc1. cbn in Hc1.
  pose proof Hc1 as (Hm & _ & _ & Hal & _).
  destruct (IH a1 _ ltac:(unfold Active in *; by rewrite Hm) Hr Has1) as [Hf Hc]. rewrite Hal in Hf.
  split; [done|by eapply same_config_trans].
Qed.

End associations.

Section claims.
Context `{GoRuntime} {T : Type} `{Sst T} (sys : ClsSys).

(** C33: However classes have been used for CPUs since the punits of a platform
    were configured: the CPUs recorded as used for high priority on a punit are
    exactly its CPUs that were last used for a class of high priority. *)
Theorem hpUsed_exact classes names allowed (a0 a : pctAllocator T) uses i cpu :
  ValidateCPUClasses classes = Ok names → punits_apart (sst_Punits (px_sst a0)) →
  PctConfigure sys classes allowed a0 = (a, None) →
  let a' := pct_uses uses a in
  hpHintsActive a' = true →
  cpu ∈ hp_used a' i ↔
    (∃ pu, px_punits a' !! i = Some pu ∧ cpu ∈ pu_CPUs pu) ∧
    ∃ name, last_used (px_allowed a) uses cpu = Some name ∧ name ∈ px_hpClasses a'.
Proof.
  intros [Hnd _]%validated_names Hap Hcf a' Hh. destruct (PctConfigure_spec sys classes allowed a0 a Hnd Hap Hcf) as [Hb _].
  destruct (pct_uses_books uses a _ Hb) as [Hb' _]. by apply (bk_used _ _ Hb').
Qed.

(** C21: The sets of CPUs proposed for a request of high priority are disjoint.
    Each consists of the free allowed CPUs of punits of one package, has as many
    CPUs as requested, and the punits have room for as many more CPUs of high
    priority.  If a single punit can host the request, the sets are those of the
    punits that can. *)
Theorem hpReserveCpus_fits classes names allowed (a0 a : pctAllocator T) uses free excludeBln requested :
  ValidateCPUClasses classes = Ok names → punits_apart (sst_Punits (px_sst a0)) →
  PctConfigure sys classes allowed a0 = (a, None) →
  let a' := pct_uses uses a in
  let sets := hpReserveCpus a' free excludeBln requested in
  apart id sets ∧
  (∀ c, c ∈ sets → candidate a' (allowed_cpus (px_allowed a') free) excludeBln (Z.max requested 1) c) ∧
  (hpHintsActive a' = true →
   (∃ ip, can_host a' (allowed_cpus (px_allowed a') free) excludeBln (Z.max requested 1) ip) →
   ∀ c, c ∈ sets ↔ ∃ ip, can_host a' (allowed_cpus (px_allowed a') free) excludeBln (Z.max requested 1) ip ∧
     c = pu_CPUs ip.2 ∩ allowed_cpus (px_allowed a') free).
Proof.
  intros [Hnd _]%validated_names Hap Hcf a'. destruct (PctConfigure_spec sys classes allowed a0 a Hnd Hap Hcf) as [Hb _].
  destruct (pct_uses_books uses a _ Hb) as [Hb' _]. split_and!.
  - apply reserve_apart, Hb'.
  - apply reserve_candidate.
  - intros Hh [ip Hip]. by eapply reserve_hosts.
Qed.

(** C22: Once classes have been used for CPUs without an error, every CPU is
    associated with the CLOS of the class it was last used for: the one of high
    or low priority, the one the class names, or for other classes, if the
    platform is managed, the CLOS of low priority if there is one. *)
Theorem PctUseClass_associates `{!SstLaws T} classes names allowed (a0 a a' : pctAllocator T) uses cpu name clos :
  ValidateCPUClasses classes = Ok names → punits_apart (sst_Punits (px_sst a0)) →
  PctConfigure sys classes allowed a0 = (a, None) → Active a = true → pct_run uses a = Some a' →
  last_used (px_allowed a) uses cpu = Some name → clos_of classes name = Some clos →
  sst_GetCPUClosID (px_sst a') cpu = Ok clos.
Proof.
  intros [Hnd _]%validated_names Hap Hcf Hact Hrun.
  destruct (PctConfigure_spec sys classes allowed a0 a Hnd Hap Hcf) as [_ Hc]. destruct (Hc Hact) as (_ & _ & Ht).
  intros Hu Hcl%Ht. destruct (pct_run_clos uses a a' (λ _, None) cpu Hact Hrun) as [Has Hsc]; [done|].
  apply (Has name clos Hu). by rewrite (target_config _ _ name Hsc).
Qed.

(** The capacity published for a class never exceeds the allowed CPUs that
    are not held by others, and is not negative. *)
Theorem FreeClassCapacity_bounds classes names allowed (a0 a : pctAllocator T) uses className held :
  ValidateCPUClasses classes = Ok names → punits_apart (sst_Punits (px_sst a0)) →
  PctConfigure sys classes allowed a0 = (a, None) → (0 < size (px_allowed a))%nat →
  0 ≤ FreeClassCapacity (pct_uses uses a) className held ≤ Z.of_nat (size (px_allowed a ∖ held)).
Proof.
  intros [Hnd _]%validated_names Hap Hcf Hal. destruct (PctConfigure_spec sys classes allowed a0 a Hnd Hap Hcf) as [Hb _].
  destruct (pct_uses_books uses a _ Hb) as [Hb' (_ & _ & _ & Hal' & _)]. rewrite <- Hal'.
  eapply capacity_bounds; [exact Hb'|by rewrite Hal'].
Qed.

End claims.
