(* ===== verification/ClsMock.v ===== *)
(** * The SST platform in memory

    sstMock (pkg/resmgr/cpuclass/internal/pct/pct_sst_mock.go), the
    implementation of the platform interface [Sst] that keeps the state of SST in
    memory, and the theorems about CPU classes in an example on it.  The state is
    also written to a file; whether that works is a parameter ([persist]). *)

From Stdlib Require Import Ascii.
From S2P Require Import Prelude GoStrings MemNodes CpuTree BlnTypes BlnConfig ClsFreq ClsPct ClsHandler ClsTurbo ClsFacts ClsPctFacts.

(** ** Lists of CPUs *)

Definition is_digit (c : ascii) : bool :=
  let n := nat_of_ascii c in Nat.leb 48 n && Nat.leb n 57.

Fixpoint take_digits (s : string) : string :=
  match s with
  | String c s' => if is_digit c then String c (take_digits s') else ""
  | EmptyString => ""
  end.

(** [fmt.Sscanf] with "%d": white space, a sign and digits; what follows is not
    looked at. *)
Definition atoi (s : string) : option Z :=
  match trim_left_by (λ c, is_space c && negb (bool_decide (nat_of_ascii c = 10%nat))) s with
  | String "-" s' => parse_int 64 (String "-" (take_digits s'))
  | String "+" s' => parse_int 64 (take_digits s')
  | s' => parse_int 64 (take_digits s')
  end.

(** Parts between commas; the last one only if it is not empty. *)
Fixpoint split_comma_loop (s : string) (cur : string) (out : list string) : list string :=
  match s with
  | EmptyString => if bool_decide (cur ≠ "") then app out [cur] else out
  | String c s' =>
      if bool_decide (c = c_comma) then split_comma_loop s' "" (app out [cur])
      else split_comma_loop s' (str_app cur (String c "")) out
  end.

Definition splitComma (s : string) : list string := split_comma_loop s "" [].

Definition joinComma (parts : list string) : string := String.concat "," parts.

(** The part before and after the first dash. *)
Fixpoint cut_dash (before s : string) : option (string * string) :=
  match s with
  | EmptyString => None
  | String c s' =>
      if bool_decide (c = c_dash) then Some (before, s') else cut_dash (str_app before (String c "")) s'
  end.

Definition parseRange (s : string) : option (Z * Z) :=
  match cut_dash "" s with
  | Some (lo, hi) =>
      match atoi lo, atoi hi with
      | Some lo, Some hi => Some (lo, hi)
      | _, _ => None
      end
  | None => (λ v, (v, v)) <$> atoi s
  end.

Fixpoint parse_cpu_parts (parts : list string) (out : list Z) : option (list Z) :=
  match parts with
  | [] => Some out
  | part :: parts' =>
      if bool_decide (part = "") then parse_cpu_parts parts' out
      else
        match parseRange part with
        | None => None
        | Some (lo, hi) => parse_cpu_parts parts' (app out (seqZ lo (hi - lo + 1)))
        end
  end.

Definition parseCPUList (s : string) : option (list Z) :=
  if bool_decide (s = "") then Some [] else slices_Sort <$> parse_cpu_parts (splitComma s) [].

(** What is used of a list whose errors are ignored. *)
Definition cpu_list (s : string) : list Z := default [] (parseCPUList s).

Definition format_range (lo prev : Z) : string :=
  if bool_decide (lo = prev) then itoa lo else str_app (itoa lo) (str_app "-" (itoa prev)).

Fixpoint format_loop (rest : list Z) (lo prev : Z) (parts : list string) : list string :=
  match rest with
  | [] => app parts [format_range lo prev]
  | v :: rest' =>
      if bool_decide (v = prev + 1) then format_loop rest' lo v parts
      else format_loop rest' v v (app parts [format_range lo prev])
  end.

Definition formatCPUList (ids : list Z) : string :=
  match slices_Sort ids with
  | [] => ""
  | lo :: rest => joinComma (format_loop rest lo lo [])
  end.

(** ** The state *)

Record sstMockClos := MkMockClos {
  mc_ID : Z;
  mc_MinFreq : Z;
  mc_MaxFreq : Z;
  mc_CPUs : string;
}.

Record sstMockPunit := MkMockPunit {
  mp_ID : Z;
  mp_CPUs : string;
  mp_MaxHpCpus : Z;
  mp_GuaranteedHpCpus : Z;
}.

Record sstMockPackage := MkMockPackage {
  mg_ID : Z;
  mg_CPUs : string;
  mg_TFEnabled : bool;
  mg_CPEnabled : bool;
  mg_CPPriority : string;
  mg_MaxHpCpus : Z;
  mg_Punits : list sstMockPunit;
  mg_Clos : list sstMockClos;
}.

(** [mk_cpuPkg] are the CPUs that have a package. *)
Record sstMock := MkMock {
  mk_Supported : bool;
  mk_ClosCount : Z;
  mk_Packages : list sstMockPackage;
  mk_cpuPkg : gset Z;
  mk_cpuClos : gmap Z Z;
}.

Definition with_packages (v : list sstMockPackage) (b : sstMock) : sstMock :=
  MkMock (mk_Supported b) (mk_ClosCount b) v (mk_cpuPkg b) (mk_cpuClos b).

Definition with_cpuClos (v : gmap Z Z) (b : sstMock) : sstMock :=
  MkMock (mk_Supported b) (mk_ClosCount b) (mk_Packages b) (mk_cpuPkg b) v.

Definition with_clos (v : list sstMockClos) (pkg : sstMockPackage) : sstMockPackage :=
  MkMockPackage (mg_ID pkg) (mg_CPUs pkg) (mg_TFEnabled pkg) (mg_CPEnabled pkg) (mg_CPPriority pkg) (mg_MaxHpCpus pkg)
    (mg_Punits pkg) v.

Definition set_clos (cpus : list Z) (clos : Z) (m : gmap Z Z) : gmap Z Z := fold_left (λ m c, <[c := clos]> m) cpus m.

(** The CLOSes CPUs are seeded with. *)
Fixpoint seed_closes (closes : list sstMockClos) (cpuClos : gmap Z Z) : option (gmap Z Z) :=
  match closes with
  | [] => Some cpuClos
  | cl :: closes' =>
      if bool_decide (mc_CPUs cl = "") then seed_closes closes' cpuClos
      else
        match parseCPUList (mc_CPUs cl) with
        | None => None
        | Some cpus => seed_closes closes' (set_clos cpus (mc_ID cl) cpuClos)
        end
  end.

Fixpoint seed_packages (pkgs : list sstMockPackage) (cpuPkg : gset Z) (cpuClos : gmap Z Z)
    : option (gset Z * gmap Z Z) :=
  match pkgs with
  | [] => Some (cpuPkg, cpuClos)
  | pkg :: pkgs' =>
      match parseCPUList (mg_CPUs pkg) with
      | None => None
      | Some cpus =>
          match seed_closes (mg_Clos pkg) (set_clos cpus 0 cpuClos) with
          | None => None
          | Some cpuClos => seed_packages pkgs' (cpuPkg ∪ list_to_set cpus) cpuClos
          end
      end
  end.

(** [newSstMock] from the document that JSON decodes to. *)
Definition newSstMock (supported : bool) (closCount : Z) (pkgs : list sstMockPackage) : option sstMock :=
  let closCount := if bool_decide (closCount = 0) then 4 else closCount in
  (λ pc, MkMock supported closCount pkgs pc.1 pc.2) <$> seed_packages pkgs ∅ ∅.

(** ** Operations *)

Section mock.
Context `{GoRuntime} (persist : sstMock → option error).

(** [pkgEnsureClos] followed by a change of the CLOS. *)
Definition pkgEnsureClos (clos : Z) (f : sstMockClos → sstMockClos) (pkg : sstMockPackage) : sstMockPackage :=
  let closes := mg_Clos pkg in
  let closes :=
    if existsb (λ c, bool_decide (mc_ID c = clos)) closes then closes
    else sort_slice (λ x y, bool_decide (mc_ID x < mc_ID y)) (app closes [MkMockClos clos 0 0 ""]) in
  let fix change (cs : list sstMockClos) :=
    match cs with
    | [] => []
    | c :: cs' => if bool_decide (mc_ID c = clos) then f c :: cs' else c :: change cs'
    end in
  with_clos (change closes) pkg.

Definition mock_PrepareManagedMode (b : sstMock) : sstMock * option error :=
  let cpuClos := fold_left (λ m pkg, set_clos (cpu_list (mg_CPUs pkg)) 0 m) (mk_Packages b) (mk_cpuClos b) in
  let pkgs := (λ pkg, MkMockPackage (mg_ID pkg) (mg_CPUs pkg) true (mg_CPEnabled pkg) "ordered" (mg_MaxHpCpus pkg)
                        (mg_Punits pkg) []) <$> mk_Packages b in
  let b := with_cpuClos cpuClos (with_packages pkgs b) in (b, persist b).

Definition mock_ConfigureClos (cfg : pctClosConfig) (b : sstMock) : sstMock * option error :=
  let b := with_packages (pkgEnsureClos (cl_ClosID cfg)
             (λ c, MkMockClos (mc_ID c) (cl_MinFreq cfg) (cl_MaxFreq cfg) (mc_CPUs c)) <$> mk_Packages b) b in
  (b, persist b).

Definition mock_EnableCP (b : sstMock) : sstMock * option error :=
  let b := with_packages ((λ pkg, MkMockPackage (mg_ID pkg) (mg_CPUs pkg) (mg_TFEnabled pkg) true (mg_CPPriority pkg)
                                    (mg_MaxHpCpus pkg) (mg_Punits pkg) (mg_Clos pkg)) <$> mk_Packages b) b in
  (b, persist b).

Fixpoint associate_cpus (assocs : list (Z * Z)) (cpuPkg : gset Z) (cpuClos : gmap Z Z) : gmap Z Z * bool :=
  match assocs with
  | [] => (cpuClos, true)
  | a :: assocs' =>
      if bool_decide (a.1 ∉ cpuPkg) then (cpuClos, false)
      else associate_cpus assocs' cpuPkg (<[a.1 := a.2]> cpuClos)
  end.

Definition set_clos_cpus (cpus : string) (c : sstMockClos) : sstMockClos :=
  MkMockClos (mc_ID c) (mc_MinFreq c) (mc_MaxFreq c) cpus.

(** The CPUs of the CLOSes of a package, for the state file. *)
Definition refresh_package (cpuClos : gmap Z Z) (pkg : sstMockPackage) : sstMockPackage :=
  let clos2cpus := fold_left (λ (m : gmap Z (list Z)) c,
    let cl := default 0 (cpuClos !! c) in <[cl := app (default [] (m !! cl)) [c]]> m) (cpu_list (mg_CPUs pkg)) ∅ in
  let '(closes, clos2cpus) :=
    fold_left (λ (st : list sstMockClos * gmap Z (list Z)) cl,
      (app st.1 [set_clos_cpus (formatCPUList (default [] (st.2 !! mc_ID cl))) cl], delete (mc_ID cl) st.2))
      (mg_Clos pkg) ([], clos2cpus) in
  fold_left (λ pkg cl, pkgEnsureClos cl.1 (set_clos_cpus (formatCPUList cl.2)) pkg) (map_range clos2cpus) (with_clos closes pkg).

Definition mock_AssociateCPUs (assocs : list (Z * Z)) (b : sstMock) : sstMock * option error :=
  match associate_cpus assocs (mk_cpuPkg b) (mk_cpuClos b) with
  | (cpuClos, false) => (with_cpuClos cpuClos b, Some ErrOther)
  | (cpuClos, true) =>
      let b := with_packages (refresh_package cpuClos <$> mk_Packages b) (with_cpuClos cpuClos b) in (b, persist b)
  end.

Definition mock_GetCPUClosID (b : sstMock) (cpu : Z) : res Z :=
  match mk_cpuClos b !! cpu with Some cl => Ok cl | None => Err ErrOther end.

Definition package_punits (pkg : sstMockPackage) : list pctPunit :=
  match mg_Punits pkg with
  | [] => [MkPunit (mg_ID pkg) 0 (list_to_set (cpu_list (mg_CPUs pkg))) (mg_MaxHpCpus pkg) (mg_MaxHpCpus pkg)]
  | punits =>
      (λ pu, MkPunit (mg_ID pkg) (mp_ID pu) (list_to_set (cpu_list (mp_CPUs pu))) (mp_MaxHpCpus pu)
               (if bool_decide (mp_GuaranteedHpCpus pu = 0) then mp_MaxHpCpus pu else mp_GuaranteedHpCpus pu)) <$>
        sort_slice (λ x y, bool_decide (mp_ID x < mp_ID y)) punits
  end.

(** Packages by ID, in order of their IDs; the last one of an ID counts. *)
Definition mock_Punits (b : sstMock) : list pctPunit :=
  let byID : gmap Z sstMockPackage := fold_left (λ m p, <[mg_ID p := p]> m) (mk_Packages b) ∅ in
  concat (package_punits <$> omap (λ id, byID !! id) (slices_Sort (mg_ID <$> mk_Packages b))).

(** Only the first package is looked at. *)
Definition mock_GetClosConfig (b : sstMock) (closID : Z) : res (option pctClosCfg) :=
  match mk_Packages b with
  | [] => Ok None
  | pkg :: _ =>
      Ok ((λ cl, MkClosCfg (mc_MinFreq cl) (mc_MaxFreq cl)) <$>
            List.find (λ cl, bool_decide (mc_ID cl = closID)) (mg_Clos pkg))
  end.

Definition mock_TFStatus (b : sstMock) : res (gmap (Z * Z) bool) :=
  Ok (fold_left (λ m pkg,
        match mg_Punits pkg with
        | [] => <[(mg_ID pkg, 0) := mg_TFEnabled pkg]> m
        | punits => fold_left (λ m pu, <[(mg_ID pkg, mp_ID pu) := mg_TFEnabled pkg]> m) punits m
        end) (mk_Packages b) ∅).

Definition mock_Shutdown (b : sstMock) : sstMock * option error :=
  let pkgs := (λ pkg, MkMockPackage (mg_ID pkg) (mg_CPUs pkg) false false (mg_CPPriority pkg) (mg_MaxHpCpus pkg)
                        (mg_Punits pkg) []) <$> mk_Packages b in
  let b := with_packages pkgs (with_cpuClos ((λ _, 0) <$> mk_cpuClos b) b) in (b, persist b).

#[export] Instance mock_Sst : Sst sstMock := {
  sst_Supported := mk_Supported;
  sst_Punits := mock_Punits;
  sst_GetClosConfig := mock_GetClosConfig;
  sst_PrepareManagedMode := mock_PrepareManagedMode;
  sst_ConfigureClos := mock_ConfigureClos;
  sst_EnableCP := mock_EnableCP;
  sst_AssociateCPUs := mock_AssociateCPUs;
  sst_TFStatus := mock_TFStatus;
  sst_GetCPUClosID := mock_GetCPUClosID;
  sst_Shutdown := mock_Shutdown;
}.

Lemma associate_cpus_spec clos cpus cpuPkg m m' cpu :
  associate_cpus ((λ c, (c, clos)) <$> cpus) cpuPkg m = (m', true) →
  m' !! cpu = if decide (cpu ∈ cpus) then Some clos else m !! cpu.
Proof.
  revert m. induction cpus as [|c cpus IH]; intros m; cbn; [by intros [= <-]|].
  case_bool_decide; [done|]. intros Ha. rewrite (IH _ Ha). destruct (decide (cpu ∈ cpus)) as [Hc|Hc].
  - by rewrite decide_True by set_solver.
  - destruct (decide (cpu = c)) as [->|].
    + rewrite decide_True by set_solver. by rewrite lookup_insert_eq.
    + rewrite decide_False by set_solver. by rewrite lookup_insert_ne.
Qed.

(** The platform in memory keeps the promise of the interface. *)
#[export] Instance mock_SstLaws : SstLaws sstMock.
Proof.
  split. intros clos cpus s s' cpu. cbn. unfold mock_AssociateCPUs.
  destruct (associate_cpus _ _ _) as [m [|]] eqn:Ha; [|done]. intros [= <- _]. unfold mock_GetCPUClosID. cbn.
  rewrite (associate_cpus_spec _ _ _ _ _ cpu Ha). by case_decide.
Qed.

End mock.

(** ** An example

    Two packages of four CPUs.  Package 0 has CPUs of high and low priority. *)

#[local] Existing Instance go_default.

Definition cex_cpu (pkg : Z) : CpuInfo := MkCpuInfo pkg true 800000 3500000 2000000.

Definition cex_sys : ClsSys :=
  MkClsSys (seqZ 0 8) (λ id, if bool_decide (0 ≤ id < 8) then Some (cex_cpu (id `div` 4)) else None)
    (λ p, if bool_decide (0 ≤ p < 2)
          then Some (MkPkgInfo [0] (λ d, if bool_decide (d = 0) then list_to_set (seqZ (4 * p) 4) else ∅)) else None).

Definition cex_hp : CPUClass :=
  MkCPUClass "hp" FrequencyMin FrequencyTurbo 0 1200000 0 "" [] 10 "high" None 0 0 false.
Definition cex_lp : CPUClass :=
  MkCPUClass "lp" 0 FrequencyTurbo 0 1000000 0 "powersave" ["C6"] 1 "low" None 0 0 false.

Definition cex_spec : ConfigSpec := MkSpec [cex_hp; cex_lp] "" (list_to_set (seqZ 0 8)).

Definition cex_env : HwEnv := MkHwEnv (λ _ _, false) true (Some ["C1"; "C6"]) false.

Definition cex_package (id : Z) (cpus : string) : sstMockPackage := MkMockPackage id cpus false false "" 2 [] [].

Definition cex_mock : sstMock :=
  match newSstMock true 0 [cex_package 0 "0-3"; cex_package 1 "4-7"] with
  | Some b => b
  | None => MkMock false 0 [] ∅ ∅
  end.

#[local] Instance cex_Sst : Sst sstMock := mock_Sst (λ _, None).

Definition cex_h0 : Handler sstMock := NewHandler cex_sys cex_mock.
Definition cex_h : Handler sstMock := (Configure cex_env cex_sys cex_spec cex_h0).1.

Definition cex_ops : list ClassOp :=
  [OpUse "lp" (list_to_set (seqZ 0 8)); OpCommit; OpUse "hp" {[0; 1]}].

Definition cex_h1 : Handler sstMock := (Commit cex_env cex_sys (run cex_env cex_sys cex_ops cex_h)).1.

(** Turbo for the class of high priority, the base frequency for the other
    CPUs of the package, and turbo for those of the other package. *)
Example cex_turbo : (λ cpu, in_effect (h_log cex_h1) (SMax cpu)) <$> [0; 1; 2; 3; 4]
  = (Some ∘ inl) <$> [3500000; 3500000; 2000000; 2000000; 3500000].
Proof. vm_compute. reflexivity. Qed.

Lemma cex_dies : dies_ok cex_sys.
Proof.
  intros [p d] cpu. unfold die_cpus, die_of. cbn. case_bool_decide as Hp; [|set_solver]. cbn.
  case_bool_decide as Hd; [|set_solver]. subst d. rewrite elem_of_list_to_set, elem_of_seqZ. intros Hc.
  rewrite bool_decide_eq_true_2 by lia. cbn. assert (cpu `div` 4 = p) as -> by (symmetry; apply (Z.div_unique cpu 4 p (cpu - 4 * p)); lia).
  rewrite bool_decide_eq_true_2 by done. cbn. rewrite bool_decide_eq_true_2; [done|].
  case_bool_decide; [|done]. rewrite elem_of_list_to_set, elem_of_seqZ. lia.
Qed.

Definition cex_names : gset string := {["hp"; "lp"]}.

Lemma cex_validated : ValidateCPUClasses (sp_Classes cex_spec) = Ok cex_names.
Proof. vm_compute. reflexivity. Qed.

Lemma cex_configured : Configure cex_env cex_sys cex_spec cex_h0 = (cex_h, None).
Proof. vm_compute. reflexivity. Qed.

Lemma Commit_enforces_witness :
  last_use (sp_Allowed cex_spec) cex_ops 2 = Some (cc_Name cex_lp) ∧
  ∃ w, top_priority (sp_Classes cex_spec) (spec_domain cex_sys cex_spec) (last_use (sp_Allowed cex_spec) cex_ops)
         (spec_domain cex_sys cex_spec 2) w ∧
    in_force (h_log cex_h1) 2 (class_def (fq_turboInfo (h_cpufreq cex_h0)) w cex_lp).
Proof.
  assert (Hu : last_use (sp_Allowed cex_spec) cex_ops 2 = Some (cc_Name cex_lp)) by (vm_compute; reflexivity).
  split; [exact Hu|].
  exact (Commit_enforces cex_env cex_sys cex_spec cex_names cex_h0 cex_h cex_ops 2 cex_lp
    cex_validated cex_dies cex_configured ltac:(right; left) Hu ltac:(left; discriminate)).
Defined.

Lemma Commit_uncore_witness :
  let h1 := (Commit cex_env cex_sys (run cex_env cex_sys cex_ops cex_h)).1 in
  let m := max_of df_UncoreMinFreq (die_defs cex_sys (h_assign h1) (0, 0)) in
  0 < m ∧ in_effect (h_log h1) (SUncoreMin (0, 0)) = Some (inl (i64 m)).
Proof.
  intros h1 m. assert (Hp : 0 < m) by (vm_compute; reflexivity).
  assert (Hf : ¬ failed (h_log h1) (SUncoreMin (0, 0))).
  { unfold failed. apply (bool_decide_unpack (¬ _)). vm_compute. exact I. }
  split; [exact Hp|].
  exact (proj1 (Commit_uncore cex_env cex_sys cex_spec cex_names cex_h0 cex_h cex_ops (0, 0)
    cex_validated cex_dies eq_refl cex_configured) Hp Hf).
Defined.

(** The punits of the example, one for each package. *)
Definition cex_a0 : pctAllocator sstMock := newPctAllocator cex_mock.
Definition cex_a : pctAllocator sstMock := (PctConfigure cex_sys (sp_Classes cex_spec) (sp_Allowed cex_spec) cex_a0).1.
Definition cex_uses : list (string * CPUSet) := [("lp", list_to_set (seqZ 0 8)); ("hp", {[0]})].

Lemma cex_apart : punits_apart (sst_Punits (px_sst cex_a0)).
Proof.
  assert (sst_Punits (px_sst cex_a0) = [MkPunit 0 0 (list_to_set (seqZ 0 4)) 2 2; MkPunit 1 0 (list_to_set (seqZ 4 4)) 2 2]) as ->
    by (vm_compute; reflexivity).
  intros i j pu pu' cpu Hi Hj Hc Hc'. destruct i as [|[|]], j as [|[|]]; cbn in Hi, Hj; simplify_eq; try done; exfalso;
    cbn [pu_CPUs] in *; rewrite elem_of_list_to_set, elem_of_seqZ in Hc, Hc'; lia.
Qed.

Lemma cex_pct : PctConfigure cex_sys (sp_Classes cex_spec) (sp_Allowed cex_spec) cex_a0 = (cex_a, None).
Proof. vm_compute. reflexivity. Qed.

Lemma hpUsed_exact_witness :
  hpHintsActive (pct_uses cex_uses cex_a) = true ∧
  (0 ∈ hp_used (pct_uses cex_uses cex_a) 0 ↔
   (∃ pu, px_punits (pct_uses cex_uses cex_a) !! 0%nat = Some pu ∧ 0 ∈ pu_CPUs pu) ∧
   ∃ name, last_used (px_allowed cex_a) cex_uses 0 = Some name ∧ name ∈ px_hpClasses (pct_uses cex_uses cex_a)).
Proof.
  assert (Hh : hpHintsActive (pct_uses cex_uses cex_a) = true) by (vm_compute; reflexivity). split; [exact Hh|].
  exact (hpUsed_exact cex_sys _ cex_names _ cex_a0 cex_a cex_uses 0 0 cex_validated cex_apart cex_pct Hh).
Defined.

(** Package 0 has room for one more CPU, so two are proposed from package 1. *)
Lemma hpReserveCpus_fits_witness :
  let a' := pct_uses cex_uses cex_a in
  CPUSet_List <$> hpReserveCpus a' (list_to_set (seqZ 1 7)) ∅ 2 = [[4; 5; 6; 7]] ∧
  ∀ c, c ∈ hpReserveCpus a' (list_to_set (seqZ 1 7)) ∅ 2 →
    candidate a' (allowed_cpus (px_allowed a') (list_to_set (seqZ 1 7))) ∅ (Z.max 2 1) c.
Proof.
  intros a'. split; [vm_compute; reflexivity|].
  apply (hpReserveCpus_fits cex_sys _ cex_names _ cex_a0 cex_a cex_uses _ ∅ 2 cex_validated cex_apart cex_pct).
Defined.

Lemma PctUseClass_associates_witness :
  ∃ a', pct_run cex_uses cex_a = Some a' ∧ sst_GetCPUClosID (px_sst a') 1 = Ok pctDefaultLpClos.
Proof.
  destruct (pct_run cex_uses cex_a) as [a'|] eqn:Hr; [|vm_compute in Hr; discriminate Hr]. exists a'. split; [reflexivity|].
  exact (PctUseClass_associates cex_sys (SstLaws0 := mock_SstLaws (λ _, None)) _ cex_names _ cex_a0 cex_a a' cex_uses 1 "lp" pctDefaultLpClos
    cex_validated cex_apart cex_pct eq_refl Hr eq_refl eq_refl).
Defined.

Lemma FreeClassCapacity_bounds_witness :
  FreeClassCapacity (pct_uses cex_uses cex_a) "hp" {[2; 3; 4]} = 4 ∧
  0 ≤ FreeClassCapacity (pct_uses cex_uses cex_a) "hp" {[2; 3; 4]} ≤ Z.of_nat (size (px_allowed cex_a ∖ {[2; 3; 4]})).
Proof.
  split; [vm_compute; reflexivity|].
  apply (FreeClassCapacity_bounds cex_sys _ cex_names _ cex_a0 cex_a cex_uses "hp" _ cex_validated cex_apart cex_pct).
  vm_compute. lia.
Defined.

(** ** Where the code does not do what it says

    A failed write is recorded as if it had succeeded: CPU 0 keeps running
    without its limit, although the write would work the next time, and the
    second Commit reports no error. *)

Definition cex_flaky : HwEnv :=
  MkHwEnv (λ log w, match w with WMax 0 _ => bool_decide (last_tried log (SMax 0) = None) | _ => false end)
    true (Some ["C1"; "C6"]) false.

Example cex_not_retried :
  let '(h1, err1) := Commit cex_flaky cex_sys (UseClass "lp" {[0]} cex_h) in
  let '(h2, err2) := Commit cex_flaky cex_sys (UseClass "lp" {[0]} (UseClass "" {[0]} h1)) in
  (err1, err2, in_effect (h_log h2) (SMax 0)) = (Some ErrOther, None, None).
Proof. vm_compute. reflexivity. Qed.

(** Once the classes that made the plugin manage SST are configured away,
    Shutdown no longer restores the platform: SST-TF stays enabled. *)
Example cex_left_managed :
  let h1 := (Configure cex_env cex_sys (MkSpec [] "" (sp_Allowed cex_spec)) cex_h).1 in
  let h2 := (Shutdown h1).1 in
  mg_TFEnabled <$> mk_Packages (px_sst (h_pct h2)) = [true; true] ∧
  mg_TFEnabled <$> mk_Packages (px_sst (h_pct (Shutdown cex_h).1)) = [false; false].
Proof. vm_compute. split; reflexivity. Qed.

(** On a system without frequency information a symbolic frequency is programmed
    as it is represented, -1 kHz. *)
Example cex_symbolic_programmed :
  let sys := MkClsSys (cy_CPUIDs cex_sys) (λ _, None) (cy_Package cex_sys) in
  let a := (PctConfigure sys (sp_Classes cex_spec) (sp_Allowed cex_spec) cex_a0).1 in
  mock_GetClosConfig (px_sst a) 0 = Ok (Some (MkClosCfg (-3) (-1))).
Proof. vm_compute. reflexivity. Qed.
