(* ===== verification/BlnClasses.v ===== *)
(** * CPU classes of balloons

    The balloons policy tells the CPU class handler what class CPUs are used
    for.  In policies without composite types, whatever requests have come and
    failed, every CPU of a balloon was last used for the class of the type of
    the balloon ([classy]).  Together with what the handler promises
    (ClsFacts.v) the CPUs of a balloon run at the
    frequencies of its class. *)

From Stdlib Require Import Ascii.
From S2P Require Import Prelude GoStrings Expr MemNodes MemAllocator ClsFreq ClsPct ClsHandler ClsTurbo ClsFacts ClsPctFacts ClsMock CpuTree CpuAlloc CpuTopo CpuResizeFacts CpuSystem Kube BlnTypes BlnPin BlnHints BlnOps BlnPolicy BlnConfig BlnFrame BlnSize BlnInv BlnNew BlnRequests BlnRefine BlnSetup BlnReach BlnWitness.

Open Scope Z_scope.

(** ** The class CPUs were last used for *)

Definition last_class (uses : list (string * CPUSet)) (cpu : Z) : option string :=
  fold_left (λ use u, if decide (cpu ∈ u.2) then Some u.1 else use) uses None.

Lemma last_class_app us class (cpus : CPUSet) cpu :
  last_class (app us [(class, cpus)]) cpu = if decide (cpu ∈ cpus) then Some class else last_class us cpu.
Proof. unfold last_class. by rewrite fold_left_app. Qed.

Definition class_of (p : balloons) (x : positive) : string := resolveCpuClassName p (d_CpuClass (def_of p x)).

(** No type has components. *)
Definition simple (p : balloons) : Prop :=
  Forall (λ d, d_Components (def_at p d) = []) (o_BalloonDefs (p_bpoptions p)).

Lemma like_simple p p' : like p p' → simple p' ↔ simple p.
Proof.
  intros Hl. unfold simple. rewrite (like_options Hl), !Forall_forall. by setoid_rewrite (like_def_at Hl).
Qed.

Lemma like_class_of p p' x : like p p' → (x < p_next p)%positive → class_of p' x = class_of p x.
Proof. intros Hl Hx. unfold class_of, resolveCpuClassName. by rewrite (like_options Hl), (like_def_of Hl). Qed.

Lemma frame_class_of p p' x : frame p p' → class_of p' x = class_of p x.
Proof. intros Hf. unfold class_of, resolveCpuClassName. by rewrite (frame_options Hf), (frame_def_of x Hf). Qed.

Lemma uses_fold {A} (f : balloons → A → balloons) (l : list A) p :
  (∀ p a, p_uses (f p a) = p_uses p) → p_uses (fold_left f l p) = p_uses p.
Proof. intros Hf. revert p. induction l as [|a l IH]; intros p; cbn; [done|]. by rewrite IH, Hf. Qed.

(** ** Steps that use no CPUs *)

Section calm.
Context `{GoRuntime} (E : Env) (cch : Cache_).

Lemma allocMem_uses c nodes types preserve p : p_uses (allocMem E cch c nodes types preserve p).1 = p_uses p.
Proof.
  unfold allocMem. destruct (if negb _ then _ else _) as [a [[zone updates]|e]]; [|done]. cbn.
  rewrite (uses_fold (λ p idz, match cch_containers cch !! idz.1 with
    | Some _ => SetCpusetMems idz.1 (NodeMask_MemsetString idz.2) p | None => p end)); [done|].
  intros q idz. by destruct (cch_containers cch !! idz.1).
Qed.

Lemma pinMem_uses c mems mask p : p_uses (pinMem E cch c mems mask p) = p_uses p.
Proof.
  unfold pinMem. destruct (PreserveMemoryResources cch c).
  - destruct (parseIDSet E _) as [m|]; [|done].
    pose proof (allocMem_uses c m 0 true p) as Hq. by destruct (allocMem E cch c m 0 true p).
  - set (types := if bool_decide _ then _ else _). clearbody types.
    pose proof (allocMem_uses c mems types false p) as Hq. by destruct (allocMem E cch c mems types false p).
Qed.

Lemma pinCpuMem_uses c cpus mems mask pin p : p_uses (pinCpuMem E cch c cpus mems mask pin p) = p_uses p.
Proof.
  unfold pinCpuMem. set (q := if default true _ then _ else _).
  assert (p_uses q = p_uses p) as Hq. { unfold q. destruct (default _ _); [|done]. by destruct (ct_requestCPU c). }
  clearbody q. destruct (default _ _); [by rewrite pinMem_uses|done].
Qed.

Lemma updatePinning_uses blns p : p_uses (updatePinning E cch blns p) = p_uses p.
Proof.
  apply uses_fold. intros q x. unfold update_pinning. rewrite uses_fold; [done|].
  intros r cID. destruct (cch_containers cch !! cID); [apply pinCpuMem_uses|done].
Qed.

Lemma shareIdleCpus_uses add rem p : p_uses (shareIdleCpus E add rem p).1 = p_uses p.
Proof.
  unfold shareIdleCpus. set (indexed := imap _ _). clearbody indexed.
  assert (∀ (l : list (nat * positive)) st, p_uses (fold_left (unshare_step rem) l st).1 = p_uses st.1) as H1.
  { induction l as [|[i x] l IH]; intros [q u]; [done|]. cbn [fold_left]. rewrite IH.
    unfold unshare_step. cbn. by case_bool_decide. }
  assert (∀ add (l : list (nat * positive)) st, p_uses (fold_left (share_step E add) l st).1 = p_uses st.1) as H2.
  { intros add'. induction l as [|[i x] l IH]; intros [q u]; [done|]. cbn [fold_left]. rewrite IH.
    unfold share_step. cbn. by repeat case_bool_decide. }
  set (st1 := if bool_decide (csize rem > 0) then _ else _).
  assert (p_uses st1.1 = p_uses p) as Hs1 by (unfold st1; case_bool_decide; [by rewrite H1|done]).
  clearbody st1. destruct st1 as [p1 u1]. cbn in Hs1. set (st2 := if bool_decide _ then _ else _).
  assert (p_uses st2.1 = p_uses p1) as Hs2 by (unfold st2; case_bool_decide; [by rewrite H2|done]).
  clearbody st2. destruct st2 as [p2 u2]. cbn in *. congruence.
Qed.

Lemma inflate_uses x delta add p : p_uses (inflate E cch x delta add p).1 = p_uses p.
Proof.
  unfold inflate. destruct (alloc_cpus E _ _ _).1 as [new|e]; [|done].
  set (p1 := upd_bln x _ _). pose proof (shareIdleCpus_uses (p_freeCpus p1) new p1) as Hs.
  destruct (shareIdleCpus E _ _ p1) as [p2 blns]. cbn [fst]. by rewrite !updatePinning_uses.
Qed.

Lemma deflate_uses x delta rem p : p_uses (deflate E cch x delta rem p).1 = p_uses p.
Proof.
  unfold deflate. destruct (release_cpus E _ _ _) as [[kept|e] left]; [|done].
  set (p1 := upd_bln x _ _). pose proof (shareIdleCpus_uses left ∅ p1) as Hs.
  destruct (shareIdleCpus E _ _ p1) as [p2 blns]. cbn [fst]. by rewrite !updatePinning_uses.
Qed.

Lemma resize_by_uses x delta p : p_uses (resize_by E cch x delta p).1 = p_uses p.
Proof.
  unfold resize_by. destruct (b_cpuTreeAlloc (bln p x)) as [a|]; [|done].
  destruct (updateLoadedVirtDevsInAllocatorOptions _ _ _ _) as [[o l]|e]; [|done].
  destruct (ResizeCpus _ _ _ _ _ _ _) as [[[add rem] [e|]] close]; [done|].
  case_bool_decide; [by rewrite inflate_uses|by rewrite deflate_uses].
Qed.

(** What resizing a balloon without components uses CPUs for. *)
Lemma resize_leaf_uses x m p :
  let r := resize_leaf E cch x m p in
  r.1 = p ∨ ∃ q, p_uses q = p_uses (forgetCpuClass x p) ∧ r.1 = useCpuClass x q.
Proof.
  unfold resize_leaf. case_bool_decide; [by left|]. right.
  pose proof (resize_by_uses x (new_cpu_count (def_of p x) m - csize (b_Cpus (bln p x))) (forgetCpuClass x p)) as Hu.
  destruct (resize_by _ _ _ _ _) as [q r]. by exists q.
Qed.

Lemma useCpuClass_leaf x p : b_components (bln p x) = [] → useCpuClass x p = UseClass (class_of p x) (b_Cpus (bln p x)) p.
Proof. intros Hc. unfold useCpuClass. destruct (Pos.to_nat x) eqn:Hx; [lia|]. cbn. by rewrite Hc. Qed.

Lemma assignContainer_uses c x p : p_uses (assignContainer E cch c x p) = p_uses p.
Proof.
  unfold assignContainer, applyProcessProperties. set (p1 := updatePinning _ _ _ _).
  assert (p_uses p1 = p_uses p) as Hp1.
  { unfold p1. rewrite updatePinning_uses. unfold updateGroups. by case_bool_decide. }
  clearbody p1. case_bool_decide; [done|]. by destruct (list_find _ _) as [[]|].
Qed.

Lemma dismissContainer_uses c x p : p_uses (dismissContainer cch c x p) = p_uses p.
Proof.
  unfold dismissContainer, removePodResourcesHints. rewrite uses_fold.
  - unfold updateGroups. by case_bool_decide.
  - intros q y. by destruct (b_cpuTreeAlloc (bln q y)).
Qed.
End calm.

(** ** Balloons whose CPUs are used for their classes *)

Section classes.
Context `{GoRuntime} (E : Env) (cch : Cache_) (allowed : CPUSet) `{!CpuService E allowed}.
Context (before : list (string * CPUSet)).

Abbreviation good := (good E allowed).
Abbreviation policy_ok := (policy_ok E allowed).

Definition used_for (us : list (string * CPUSet)) (p : balloons) (T : list positive) : Prop :=
  ∀ x, x ∈ T → ∀ cpu, cpu ∈ b_Cpus (bln p x) → last_class us cpu = Some (class_of p x).

(** Since [before], the CPUs of the balloons of the policy and of the balloons
    [X] that are being created have been used for their classes. *)
Record classy (p : balloons) (X : list positive) : Prop := {
  cl_leaf x : x ∈ app (p_balloons p) X → b_components (bln p x) = [];
  cl_uses : ∃ us, p_uses p = app before us ∧ used_for us p (app (p_balloons p) X);
}.

Lemma classy_calm p p' X X' : like p p' → p_uses p' = p_uses p →
  (∀ x, x ∈ app (p_balloons p') X' → x ∈ app (p_balloons p) X ∧ (x < p_next p)%positive ∧
     b_Cpus (bln p' x) = b_Cpus (bln p x)) → classy p X → classy p' X'.
Proof.
  intros Hl Hu HT [Hleaf (us & Hus & Hcl)]. split.
  - intros x Hx. destruct (HT x Hx) as (Hx' & Hn & _). rewrite (like_components Hl x Hn). auto.
  - exists us. split; [congruence|]. intros x Hx cpu. destruct (HT x Hx) as (Hx' & Hn & ->).
    rewrite (like_class_of p p' x Hl Hn). by apply Hcl.
Qed.

(** CPUs are used for the class of their balloon, or are of no balloon. *)
Lemma classy_use p X class (cpus : CPUSet) :
  (∀ x, x ∈ app (p_balloons p) X → class = class_of p x ∨ cpus ## b_Cpus (bln p x)) →
  classy p X → classy (UseClass class cpus p) X.
Proof.
  intros HT [Hleaf (us & Hus & Hcl)]. split; [done|]. exists (app us [(class, cpus)]). split.
  - cbn. by rewrite Hus, <- app_assoc.
  - intros x Hx cpu Hc. change (bln (UseClass class cpus p) x) with (bln p x) in Hc.
    change (class_of (UseClass class cpus p) x) with (class_of p x). rewrite last_class_app.
    destruct (HT x Hx) as [->|Hd]; case_decide; [done|by apply Hcl|set_solver|by apply Hcl].
Qed.

Lemma leaves_simple p T : (∀ x, x ∈ T → b_components (bln p x) = []) → leaves p T = T.
Proof.
  induction T as [|x T IH]; intros Hl; [done|]. unfold leaves. cbn. unfold leaves_of at 1. rewrite Hl by constructor.
  cbn. f_equal. apply IH. intros y Hy. apply Hl. by constructor.
Qed.

Lemma classy_disjoint p X x z : good p X → classy p X → x ∈ app (p_balloons p) X → z ∈ app (p_balloons p) X →
  x ≠ z → b_Cpus (bln p x) ## b_Cpus (bln p z).
Proof.
  intros [Hok _] [Hleaf _] Hx Hz Hne. pose proof (ok_part _ _ _ _ Hok) as Hp. rewrite leaves_simple in Hp by done.
  by apply (pt_disj _ _ _ Hp).
Qed.

(** *** Resizing *)

Lemma resize_leaf_effect X y p L m : part E p L → y ∈ L → shared_ok p X → p_allowed p = allowed →
  let p' := (resize_leaf E cch y m p).1 in
  frame p p' ∧ (∀ z, z ≠ y → b_Cpus (bln p' z) = b_Cpus (bln p z)) ∧
  b_Cpus (bln p' y) ⊆ p_freeCpus p ∪ b_Cpus (bln p y).
Proof.
  intros Hp Hy Hsh Hal p'.
  destruct (resize_leaf_spec E cch X y p L m Hp Hy Hsh Hal) as (q & [(_ & Hr & Hres)|(_ & Hr & Hq)]); unfold p'; rewrite Hr; cbn.
  - split_and!; [apply Hres|by apply (rs_other _ _ _ _ _ Hres)|]. pose proof (rs_union _ _ _ _ _ Hres). set_solver.
  - split_and!; [by apply quiet_frame|intros; by apply quiet_Cpus|]. rewrite (quiet_Cpus y Hq). set_solver.
Qed.

Lemma resize_leaf_classes X y p L m us : part E p L → y ∈ L → shared_ok p X → p_allowed p = allowed →
  p_uses p = app before us → used_for us p L →
  let p' := (resize_leaf E cch y m p).1 in ∃ us', p_uses p' = app before us' ∧ used_for us' p' L.
Proof.
  intros Hp Hy Hsh Hal Hus Hcl p'. destruct (resize_leaf_effect X y p L m Hp Hy Hsh Hal) as (Hf & Hz & Hsub).
  fold p' in Hf, Hz, Hsub. destruct (resize_leaf_uses E cch y m p) as [Hr|(q & Hq & Hr)]; fold p' in Hr.
  { exists us. by rewrite Hr. }
  pose proof (useCpuClass_quiet y q) as Hqq. rewrite <- Hr in Hqq. pose proof (quiet_frame _ _ Hqq) as Hqf.
  destruct (pt_leaf _ _ _ Hp y Hy) as (Hc & _). rewrite <- (frame_components y Hf), (frame_components y Hqf) in Hc.
  exists (app (app us [(resolveCpuClassName p (o_IdleCpuClass (p_bpoptions p)), b_Cpus (bln p y))])
            [(class_of p' y, b_Cpus (bln p' y))]). split.
  - assert (p_uses p' = app (p_uses q) [(class_of q y, b_Cpus (bln q y))]) as -> by (by rewrite Hr, useCpuClass_leaf).
    rewrite Hq, (quiet_Cpus y Hqq), (frame_class_of _ _ y Hqf). cbn. rewrite Hus. by rewrite <- !app_assoc.
  - intros z HzL cpu Hcpu. rewrite !last_class_app. destruct (decide (z = y)) as [->|Hne]; [by rewrite decide_True|].
    rewrite Hz in Hcpu by done. rewrite (frame_class_of _ _ z Hf).
    pose proof (pt_disj _ _ _ Hp z y HzL Hy Hne). pose proof (pt_free _ _ _ Hp z HzL).
    rewrite !decide_False by set_solver. by apply Hcl.
Qed.

Lemma classy_resize p X x m : good p X → classy p X → x ∈ app (p_balloons p) X →
  classy (resizeBalloon E cch x m p).1 X.
Proof.
  intros [Hok Hsh] [Hleaf (us & Hus & Hcl)] Hx. pose proof (ok_part _ _ _ _ Hok) as Hp. rewrite leaves_simple in Hp by done.
  assert (resizeBalloon E cch x m p = resize_leaf E cch x m p) as ->.
  { unfold resizeBalloon. destruct (Pos.to_nat x) eqn:Hn; [lia|]. cbn. by rewrite Hleaf. }
  destruct (resize_leaf_effect X x p _ m Hp Hx Hsh (ok_allowed _ _ _ _ Hok)) as (Hf & _).
  pose proof (resize_leaf_classes X x p _ m us Hp Hx Hsh (ok_allowed _ _ _ _ Hok) Hus Hcl) as Hr.
  split; rewrite (frame_balloons Hf); [|done]. intros y Hy. rewrite (frame_components y Hf). auto.
Qed.

(** *** Creating *)

Lemma new_leaf_classes p X d i c : good p X → classy p X → d ∈ o_BalloonDefs (p_bpoptions p) →
  let r := new_leaf E cch d false i c p in
  classy r.1 (match r.2 with Ok x => app X [x] | Err _ => X end).
Proof.
  intros Hg Hcl Hd. pose proof (ok_conf _ _ _ _ (proj1 Hg) d Hd) as (Hloads & _).
  unfold new_leaf. set (o := override_options _ _). clearbody o. unfold updateLoadedVirtDevsInAllocatorOptions.
  destruct (load_virt_devs_ok E p _ ∅ (virt_devs o) Hloads) as (m & loaded & ->).
  destruct (NewAllocator_ok (e_cpuTree E) (with_virt_devs m o) service_tree) as (ta & -> & Hopt & Hrok & Hrc & _).
  set (ta' := MkTreeAllocator _ _). set (b := MkBalloon d i _ _ _ _ _ _ _ _ _). set (minm := i64 _).
  assert (fresh_leaf E p b) as Hb by (split_and!; try done; by exists (ta_root ta)).
  destruct (new_object_part E allowed p X b Hg Hb) as (Hok1 & HLn & Hp1 & Hsh1).
  pose proof (new_object_extends b p) as He. pose proof (λ y, bln_new b p y) as Hbln.
  assert ((new_object b p).2 = p_next p) as Hx by done. assert (p_uses (new_object b p).1 = p_uses p) as Hu by done.
  destruct (new_object b p) as [p1 x]. cbn -[upd_bln] in *. subst x. set (x := p_next p) in *. set (T := app (p_balloons p) X) in *.
  destruct Hcl as [Hleaf (us & Hus & Hcl)].
  assert (∀ y, y ∈ T → (y < x)%positive) as HTn by (intros y Hy; apply (good_next E allowed p X y Hg Hy)).
  assert (bln p1 x = b) as Hbx by (by rewrite Hbln, bool_decide_eq_true_2).
  assert (∀ y, y ∈ T → bln p1 y = bln p y) as Hby.
  { intros y Hy. rewrite Hbln, bool_decide_eq_false_2; [done|]. specialize (HTn y Hy). lia. }
  rewrite leaves_simple in Hp1 by (intros y Hy; rewrite Hby by done; auto).
  assert (resizeBalloon E cch x minm p1 = resize_leaf E cch x minm p1) as Hrs.
  { unfold resizeBalloon. destruct (Pos.to_nat x) eqn:Hn; [lia|]. cbn. by rewrite Hbx. }
  assert (x ∈ app T [x]) as HxT by (apply elem_of_app; right; constructor).
  destruct (resize_leaf_classes (app X [x]) x p1 (app T [x]) minm us Hp1 HxT Hsh1 (ok_allowed _ _ _ _ Hok1)) as (us' & Hus' & Hcl').
  { congruence. }
  { intros y [Hy| ->%list_elem_of_singleton]%elem_of_app cpu; [|rewrite Hbx; set_solver].
    rewrite Hby by done. rewrite (like_class_of p p1 y (ex_like _ _ He)) by auto. by apply Hcl. }
  destruct (resize_leaf_effect (app X [x]) x p1 _ minm Hp1 HxT Hsh1 (ok_allowed _ _ _ _ Hok1)) as (Hf & _).
  rewrite <- Hrs in Hus', Hcl', Hf.
  assert (∀ y, y ∈ app T [x] → b_components (bln (resizeBalloon E cch x minm p1).1 y) = []) as Hl2.
  { intros y Hy. rewrite (frame_components y Hf). apply elem_of_app in Hy as [Hy| ->%list_elem_of_singleton]; [rewrite Hby; auto|by rewrite Hbx]. }
  pose proof (frame_balloons Hf) as Hbl. rewrite (ex_balloons _ _ He) in Hbl.
  destruct (resizeBalloon E cch x minm p1) as [p2 [[]|e]]; cbn -[upd_bln] in *.
  - set (p3 := upd_bln x _ p2). assert (quiet p2 p3) as Hq by (by apply quiet_upd).
    assert (p_uses p3 = p_uses p2) as Hu3 by done. pose proof (quiet_frame _ _ Hq) as Hqf. clearbody p3.
    split; rewrite (frame_balloons Hqf), Hbl, (assoc_L app).
    + intros y Hy. rewrite (frame_components y Hqf). auto.
    + exists us'. split; [congruence|]. intros y Hy cpu. rewrite (quiet_Cpus y Hq), (frame_class_of _ _ y Hqf). by apply Hcl'.
  - split; rewrite Hbl; [intros y Hy; apply Hl2, elem_of_app; by left|]. exists us'. split; [done|].
    intros y Hy. apply Hcl', elem_of_app. by left.
Qed.

Lemma newBalloon_classes p X d c : good p X → classy p X → simple p → d ∈ o_BalloonDefs (p_bpoptions p) →
  let r := newBalloon E cch d false c p in
  classy r.1 (match r.2 with Ok x => app X [x] | Err _ => X end).
Proof.
  intros Hg Hcl Hs Hd. unfold newBalloon. cbn [new_balloon]. case_bool_decide; [done|]. rewrite (proj1 (Forall_forall _ _) Hs d Hd).
  by apply new_leaf_classes.
Qed.

(** A balloon that has been created becomes one of the policy. *)
Lemma classy_append p x : classy p [x] → classy (with_balloons (app (p_balloons p) [x]) p) [].
Proof.
  intros [Hleaf (us & Hus & Hcl)]. split; cbn [p_balloons with_balloons]; rewrite app_nil_r; [done|]. by exists us.
Qed.

Lemma add_balloon_classes x p : good p [x] → b_PodIDs (bln p x) = ∅ → classy p [x] → classy (add_balloon E cch x p) [].
Proof.
  intros Hg Hpods Hcl. destruct (good_append E allowed x p Hg Hpods) as [Hg1 _]. pose proof (classy_append p x Hcl) as Hcl1.
  unfold add_balloon. set (p1 := with_balloons _ p) in *.
  assert (x ∈ p_balloons p1) as Hx1 by (apply elem_of_app; right; constructor). clearbody p1.
  case_bool_decide; [|done]. assert (x ∈ app (p_balloons p1) []) as Hx by (by rewrite app_nil_r).
  rewrite useCpuClass_leaf by (by apply (cl_leaf _ _ Hcl1)).
  set (p2 := UseClass _ _ p1). assert (classy p2 []) as Hcl2.
  { apply classy_use; [|done]. intros z Hz. destruct (decide (x = z)) as [->|Hne]; [by left|right].
    by apply (classy_disjoint p1 []). }
  assert (good p2 []) as Hg2 by (by apply (good_quiet E allowed p1)). clearbody p2.
  pose proof (shareIdleCpus_shares E (p_freeCpus p2) (b_Cpus (bln p2 x)) p2) as (Hf3 & _ & Hc3 & _).
  pose proof (shareIdleCpus_uses E (p_freeCpus p2) (b_Cpus (bln p2 x)) p2) as Hu3.
  destruct (shareIdleCpus E _ _ p2) as [p3 blns]. cbn in *.
  pose proof (updatePinning_quiet E cch blns p3) as Hq. apply (classy_calm p2 _ []); [| | |done].
  - apply frame_like. etrans; [done|by apply quiet_frame].
  - by rewrite updatePinning_uses.
  - intros z. rewrite (frame_balloons (quiet_frame _ _ Hq)), (frame_balloons Hf3). intros Hz.
    split_and!; [done|by apply (good_next E allowed p2 [])|]. by rewrite (quiet_Cpus z Hq).
Qed.

Lemma fill_new_classes d fm c p : good p [] → classy p [] → simple p → d ∈ o_BalloonDefs (p_bpoptions p) →
  classy (fill_new E cch d fm c p).1 [].
Proof.
  intros Hg Hcl Hs Hd. unfold fill_new. destruct (list_find _ _) as [[i x]|]; [done|]. case_bool_decide; [done|].
  pose proof (newBalloon_classes p [] d (Some c) Hg Hcl Hs Hd) as Hn.
  destruct (newBalloon_spec E cch allowed p [] d false (Some c) Hg Hd) as [[_ Hr] _].
  destruct (newBalloon E cch d false (Some c) p) as [p1 [x|e]]; cbn in *; [|done].
  destruct Hr as (Hg1 & _ & _ & Hpods & _). case_bool_decide; cbn; [|by apply add_balloon_classes].
  apply (classy_calm p1 _ [x]); [by split; cbn|done| |done]. intros y Hy. cbn in Hy. rewrite app_nil_r in Hy.
  assert (y ∈ app (p_balloons p1) [x]) as Hy' by (apply elem_of_app; by left).
  split_and!; [done|by apply (good_next E allowed p1 [x])|done].
Qed.

Lemma fillable_classes d fm c p : good p [] → classy p [] → simple p → d ∈ o_BalloonDefs (p_bpoptions p) →
  classy (fillableBalloonInstances E cch d fm c p).1 [].
Proof.
  intros Hg Hcl Hs Hd. unfold fillableBalloonInstances. destruct fm; try (by apply fill_new_classes);
    repeat (case_match || case_bool_decide); done.
Qed.

Lemma try_fill_classes chain d c p : good p [] → classy p [] → simple p → d ∈ o_BalloonDefs (p_bpoptions p) →
  classy (try_fill E cch chain d c p).1 [].
Proof.
  revert p. induction chain as [|fm chain IH]; intros p Hg Hcl Hs Hd; [done|]. cbn [try_fill].
  pose proof (fillable_classes d fm c p Hg Hcl Hs Hd) as Hcl1.
  destruct (fillable_spec E allowed cch d fm c p Hg Hd) as (Hg1 & Hgw1 & _).
  destruct (fillableBalloonInstances E cch d fm c p) as [p1 [[|x0 xs]|e]]; cbn in *; [|by destruct (best_balloon _ _ _ _)|done].
  pose proof (gw_like _ _ Hgw1) as Hl. apply IH; [done..|by apply (like_simple _ _ Hl)|by rewrite (like_options Hl)].
Qed.

(** *** Requests *)

Lemma repods_classes x f p p' : good p [] → repods x f p p' → p_uses p' = p_uses p → classy p [] → classy p' [].
Proof.
  intros Hg [Hl _ Hb _ Hc _ _] Hu. apply (classy_calm p p' [] []); [done..|]. intros y. rewrite Hb. intros Hy.
  split_and!; [done|by apply (good_next E allowed p [])|done].
Qed.

Lemma allocate_classes c p : policy_ok p → classy p [] → simple p → classy (AllocateResources E cch c p).1 [].
Proof.
  intros Hp Hcl Hs. unfold AllocateResources. destruct (PreserveCpuResources cch c); [done|].
  destruct (preserved cch p c) as [[]|e]; [done| |done].
  destruct (allocateBalloon_spec E allowed cch c p Hp) as (Hg1 & Hgw1 & Hr1).
  assert (classy (allocateBalloon E cch c p).1 []) as Hcl1.
  { unfold allocateBalloon. destruct (chooseBalloonDef cch p c) as [[d|]|e] eqn:Hd; [|done..].
    pose proof (try_fill_classes (fill_chain (def_at p d)) d c p (proj1 Hp) Hcl Hs (chooseBalloonDef_elem E allowed cch p c d Hp Hd)) as Ht.
    unfold allocateBalloonOfDef. by destruct (try_fill _ _ _ _ _ _) as [p1 [[x|]|e]]. }
  destruct (allocateBalloon E cch c p) as [p1 [x|e]]; cbn in *; [|done].
  assert (∀ q, good q [] → classy q [] → classy (assignContainer E cch c x q) []) as Has.
  { intros q Hgq Hclq. destruct (assignContainer_spec E allowed cch c x q Hgq) as [_ Hrp].
    apply (repods_classes x (with_container c) q); [done..|apply assignContainer_uses|done]. }
  assert (x ∈ app (p_balloons p1) []) as Hx by (by rewrite app_nil_r).
  case_bool_decide; [|by apply Has]. set (m := Z.max 1 _).
  assert (0 ≤ m < 2 ^ 63) as Hm.
  { unfold m. pose proof (i64_lt (containerRequestedMilliCpus cch (ct_ID c) + requestedMilliCpus cch (bln p1 x))). lia. }
  pose proof (classy_resize p1 [] x m Hg1 Hcl1 Hx) as Hcl2.
  destruct (good_resize E cch allowed p1 [] x m Hg1 Hx Hm) as (p2 & Hg2 & _ & [(Hr & _)|(Hr & _)]); rewrite Hr in Hcl2 |- *; [|done].
  by apply Has.
Qed.

Lemma freeBalloon_classes x p : good p [] → x ∈ p_balloons p → classy p [] → classy (freeBalloon E x p) [].
Proof.
  intros Hg Hx Hcl. unfold freeBalloon. set (p1 := upd_bln x (set_PodIDs ∅) p).
  assert (good p1 [] ∧ repods x (λ _, ∅) p p1) as [Hg1 Hr1] by (apply (repods_upd E allowed x (λ _, ∅) p [] Hg)).
  assert (classy p1 []) as Hcl1 by (by apply (repods_classes x (λ _, ∅) p)).
  assert (x ∈ p_balloons p1) as Hx1 by done. clearbody p1. case_bool_decide; [|done].
  destruct (deleteBalloon_spec E x p1) as (Hl & Hbl & _ & _ & Hb & _).
  assert (p_uses (deleteBalloon E x p1) = p_uses (forgetCpuClass x p1)) as Hu.
  { unfold deleteBalloon. by destruct (release_cpus _ _ _ _). }
  set (p2 := forgetCpuClass x (with_balloons (filter (λ b, b ≠ x) (p_balloons p1)) p1)).
  assert (∀ y, y ∈ app (p_balloons p2) [] → y ∈ app (p_balloons p1) [] ∧ y ≠ x) as Hin.
  { intros y. cbn. rewrite !app_nil_r, list_elem_of_filter. tauto. }
  assert (classy p2 []) as Hcl2.
  { apply classy_use.
    - intros y [Hy Hne]%Hin. right. assert (x ∈ app (p_balloons p1) []) as Hx2 by (by rewrite app_nil_r).
      exact (classy_disjoint p1 [] x y Hg1 Hcl1 Hx2 Hy (not_eq_sym Hne)).
    - apply (classy_calm p1 _ []); [by split; cbn|done| |done]. intros y [Hy Hne]%Hin.
      split_and!; [done|by apply (good_next E allowed p1 [])|done]. }
  apply (classy_calm p2 _ []); [|done| |done].
  - destruct Hl as [L1 L2 L3]. by split.
  - intros y Hy. rewrite Hbl in Hy. destruct (Hin y Hy) as [Hy1 Hne]. split_and!; [done|by apply (good_next E allowed p1 [])|].
    by rewrite Hb.
Qed.

Lemma release_classes c p : policy_ok p → classy p [] → classy (ReleaseResources E cch c p).1 [].
Proof.
  intros [Hg _] Hcl. unfold ReleaseResources. destruct (balloonByContainer p c) as [x|] eqn:Hx; [|done].
  assert (x ∈ p_balloons p) as Hxb.
  { unfold balloonByContainer in Hx. destruct (list_find _ _) as [[i y]|] eqn:Hf; [|done]. injection Hx as ->.
    apply list_find_Some in Hf as (Hl & _). by apply list_elem_of_lookup_2 in Hl. }
  destruct (dismissContainer_spec E allowed cch c x p Hg) as [Hg1 Hr1].
  assert (classy (dismissContainer cch c x p) []) as Hcl1 by (apply (repods_classes x (without_container c) p); [done..|apply dismissContainer_uses|done]).
  pose proof (rp_balloons _ _ _ _ Hr1) as Hb1. set (p1 := dismissContainer cch c x p) in *. clearbody p1.
  assert (x ∈ app (p_balloons p1) []) as Hx1 by (by rewrite app_nil_r, Hb1).
  case_bool_decide.
  - pose proof (classy_resize p1 [] x 0 Hg1 Hcl1 Hx1) as Hcl2.
    destruct (good_resize E cch allowed p1 [] x 0 Hg1 Hx1 ltac:(lia)) as (p2 & Hg2 & Hf & [(Hr & _)|(Hr & _)]);
      rewrite Hr in Hcl2 |- *; cbn; apply freeBalloon_classes; try done; by rewrite (frame_balloons Hf), Hb1.
  - by apply classy_resize.
Qed.

(** *** Configurations *)

Lemma apply_balloon_def_classes k d p : good p [] → classy p [] → simple p → d ∈ o_BalloonDefs (p_bpoptions p) →
  (apply_balloon_def E cch k d p).2 = Ok tt → classy (apply_balloon_def E cch k d p).1 [].
Proof.
  revert p. induction k as [|k IH]; intros p Hg Hcl Hs Hd; [done|]. cbn [apply_balloon_def].
  pose proof (newBalloon_classes p [] d None Hg Hcl Hs Hd) as Hn.
  destruct (newBalloon_spec E cch allowed p [] d false None Hg Hd) as [[He Hr] _].
  destruct (newBalloon E cch d false None p) as [p1 [x|e]]; cbn in *; [|done].
  destruct Hr as (Hg1 & _ & _ & Hpods & _). destruct (good_append E allowed x p1 Hg1 Hpods) as [Hg2 Hgw2].
  pose proof (ex_like _ _ He) as Hl. pose proof (gw_like _ _ Hgw2) as Hl2. apply IH; [done|by apply classy_append| |].
  - by apply (like_simple _ _ Hl2), (like_simple _ _ Hl).
  - by rewrite (like_options Hl2), (like_options Hl).
Qed.

Lemma apply_defs_classes defs p : good p [] → classy p [] → simple p →
  (∀ d, d ∈ defs → d ∈ o_BalloonDefs (p_bpoptions p)) →
  (apply_defs E cch defs p).2 = Ok tt → classy (apply_defs E cch defs p).1 [].
Proof.
  revert p. induction defs as [|d defs IH]; intros p Hg Hcl Hs Hd; [done|]. cbn [apply_defs].
  assert (d ∈ o_BalloonDefs (p_bpoptions p)) as Hd1 by (apply Hd; constructor). unfold applyBalloonDef.
  set (k := Z.to_nat _). pose proof (apply_balloon_def_classes k d p Hg Hcl Hs Hd1) as Hcl1.
  destruct (apply_balloon_def_adds E cch allowed k d p Hg Hd1) as [Hg1 Hgw1 _ _].
  destruct (apply_balloon_def E cch k d p) as [p1 [[]|e]]; cbn in *; [|done].
  pose proof (gw_like _ _ Hgw1) as Hl. apply IH; [done|by apply Hcl1|by apply (like_simple _ _ Hl)|].
  intros d' Hd'. rewrite (like_options Hl). apply Hd. by constructor.
Qed.

(** Balloons use their CPUs for their classes, one after the other. *)
Lemma use_all l rest p us : good p [] → (∀ x, x ∈ p_balloons p → b_components (bln p x) = []) →
  l ⊆ p_balloons p → rest ⊆ p_balloons p → p_uses p = app before us → used_for us p rest →
  let p' := fold_left (λ p x, useCpuClass x p) l p in
  quiet p p' ∧ ∃ us', p_uses p' = app before us' ∧ used_for us' p' (app l rest).
Proof.
  revert rest p us. induction l as [|x l IH]; intros rest p us Hg Hleaf Hl Hrest Hus Hcl; [by split; [|exists us]|].
  cbn [fold_left]. assert (x ∈ p_balloons p) as Hx by (apply Hl; constructor).
  rewrite useCpuClass_leaf by auto. set (p1 := UseClass _ _ p).
  assert (quiet p p1) as Hq by done.
  assert (used_for (app us [(class_of p x, b_Cpus (bln p x))]) p1 (x :: rest)) as Hcl1.
  { intros z Hz cpu Hc. change (bln p1 z) with (bln p z) in Hc. change (class_of p1 z) with (class_of p z).
    rewrite last_class_app. destruct (decide (z = x)) as [->|Hne]; [by rewrite decide_True|].
    apply elem_of_cons in Hz as [->|Hz]; [done|]. rewrite decide_False; [by apply Hcl|]. intros Hc'.
    destruct Hg as [Hok _]. pose proof (ok_part _ _ _ _ Hok) as Hp. rewrite app_nil_r, leaves_simple in Hp by done.
    apply (pt_disj _ _ _ Hp z x (Hrest z Hz) Hx Hne cpu Hc Hc'). }
  destruct (IH (x :: rest) p1 (app us [(class_of p x, b_Cpus (bln p x))])) as (Hq2 & us' & Hus' & Hcl2).
  - by apply (good_quiet E allowed p).
  - done.
  - intros z Hz. apply Hl. by constructor.
  - intros z [->|Hz]%elem_of_cons; [done|by apply Hrest].
  - cbn. by rewrite Hus, <- app_assoc.
  - done.
  - split; [by etrans|]. exists us'. split; [done|]. intros z Hz. apply Hcl2. set_solver.
Qed.

Lemma start_balloons_classes o p0 p : before = p_uses p0 → prepared allowed o p0 p →
  simple p → (start_balloons E cch p).2 = Ok tt → classy (start_balloons E cch p).1 [].
Proof.
  intros Hbefore [Hc Ha Hnd Hu _] Hs. unfold start_balloons.
  set (p1 := with_freeCpus _ _). set (defs := o_BalloonDefs (p_bpoptions p)) in *.
  destruct (newAllocator _) as [[malloc ?]|e]; [|done].
  set (p2 := with_memAllocator malloc p1). assert (good p2 []) as Hg2 by (by apply good_empty).
  assert (classy p2 []) as Hcl2.
  { split; [intros x Hx; by apply not_elem_of_nil in Hx|]. exists []. rewrite app_nil_r. split; [by subst|].
    intros x Hx. by apply not_elem_of_nil in Hx. }
  assert (simple p2) as Hs2 by done. change (o_BalloonDefs (p_bpoptions p2)) with defs.
  assert (∀ d, d ∈ by_priority p2 defs → d ∈ o_BalloonDefs (p_bpoptions p2)) as Hin by (intros d; by rewrite by_priority_perm).
  destruct (apply_defs_adds E cch allowed (by_priority p2 defs) p2 Hg2 Hin) as [Hg3 _ _ _].
  pose proof (apply_defs_classes (by_priority p2 defs) p2 Hg2 Hcl2 Hs2 Hin) as Hcl3. clearbody p2.
  destruct (apply_defs E cch (by_priority p2 defs) p2) as [p3 [[]|e]]; [|done]. cbn [fst snd] in Hg3, Hcl3.
  destruct (Hcl3 eq_refl) as [Hleaf3 (us & Hus & _)]. set (p4 := with_ifreeCpus _ p3).
  pose proof (shareIdleCpus_shares E (p_freeCpus p4) ∅ p4) as Hsh. pose proof (shareIdleCpus_uses E (p_freeCpus p4) ∅ p4) as Hu5.
  assert (good p4 []) as Hg4 by (by apply (good_quiet E allowed p3)).
  destruct (shareIdleCpus E (p_freeCpus p4) ∅ p4) as [p5 blns]. cbn [fst] in Hsh, Hu5. intros _. cbn [fst].
  assert (good p5 []) as Hg5 by (by apply (good_shares E allowed p4 p5 [] (p_freeCpus p4) ∅)).
  destruct Hsh as (Hf5 & _ & _ & _). set (p6 := updatePinning E cch blns p5).
  assert (quiet p5 p6) as Hq6 by apply updatePinning_quiet. assert (p_uses p6 = p_uses p5) as Hu6 by apply updatePinning_uses.
  assert (frame p3 p6) as Hf. { etrans; [|by apply quiet_frame]. etrans; [|exact Hf5]. done. } clearbody p6.
  set (p7 := resetCpuClass p6). assert (quiet p6 p7) as Hq7 by done.
  assert (good p7 []) as Hg7. { apply (good_quiet E allowed p6); [done|]. by apply (good_quiet E allowed p5). }
  assert (∀ x, x ∈ p_balloons p7 → b_components (bln p7 x) = []) as Hleaf7.
  { intros x. change (x ∈ p_balloons p6 → b_components (bln p6 x) = []). rewrite (frame_balloons Hf), (frame_components x Hf).
    intros Hx. apply Hleaf3. by rewrite app_nil_r. }
  destruct (use_all (p_balloons p7) [] p7 (app us [(resolveCpuClassName p6 (o_IdleCpuClass (p_bpoptions p6)), p_allowed p6)]))
    as (Hq8 & us' & Hus' & Hcl8); [done..|set_solver| |intros x Hx; by apply not_elem_of_nil in Hx|].
  { cbn. rewrite Hu6, Hu5. change (p_uses p4) with (p_uses p3). by rewrite Hus, <- app_assoc. }
  split; rewrite (frame_balloons (quiet_frame _ _ Hq8)); [|by exists us'].
  intros x. rewrite app_nil_r, (frame_components x (quiet_frame _ _ Hq8)). apply Hleaf7.
Qed.

(** The types and options the balloons are started with. *)
Lemma start_balloons_like p : conf_ok p → p_allowed p = allowed →
  (start_balloons E cch p).2 = Ok tt → like p (start_balloons E cch p).1.
Proof.
  intros Hc Ha. unfold start_balloons. set (p1 := with_freeCpus _ _). set (defs := o_BalloonDefs (p_bpoptions p)) in *.
  destruct (newAllocator _) as [[malloc ?]|e]; [|done].
  set (p2 := with_memAllocator malloc p1). assert (good p2 []) as Hg2 by (by apply good_empty).
  assert (like p p2) as Hl2 by (by split; cbn).
  assert (∀ d, d ∈ by_priority p2 defs → d ∈ o_BalloonDefs (p_bpoptions p2)) as Hin by (intros d; by rewrite by_priority_perm).
  destruct (apply_defs_adds E cch allowed (by_priority p2 defs) p2 Hg2 Hin) as [_ Hgw3 _ _].
  pose proof (gw_like _ _ Hgw3) as Hl3. change (o_BalloonDefs (p_bpoptions p2)) with defs. clear Hgw3 Hin. clearbody p2.
  destruct (apply_defs E cch _ p2) as [p3 [[]|e]]; [|done]. cbn [fst] in Hl3.
  set (p4 := with_ifreeCpus _ p3). pose proof (shareIdleCpus_shares E (p_freeCpus p4) ∅ p4) as Hsh.
  destruct (shareIdleCpus E (p_freeCpus p4) ∅ p4) as [p5 blns]. destruct Hsh as (Hf5 & _). intros _. cbn [fst] in *.
  etrans; [exact Hl2|]. etrans; [exact Hl3|]. apply frame_like. etrans; [|apply quiet_frame, quiet_fold; intros; apply useCpuClass_quiet].
  etrans; [|apply quiet_frame; by apply UseClass_quiet]. etrans; [|apply quiet_frame, updatePinning_quiet]. by etrans; [|exact Hf5].
Qed.

End classes.

(** ** Reachable states *)

Section reach.
Context `{GoRuntime} (E : Env) (allowed : CPUSet) `{!CpuService E allowed}.

Lemma step_classes before p p' : step E p p' → policy_ok E allowed p → simple p → classy before p [] → classy before p' [].
Proof. destruct 1; intros Hp Hs Hcl; [by apply (allocate_classes E cch allowed)|by apply (release_classes E cch allowed)|done]. Qed.

(** Requests keep the types and the options. *)
Lemma freeBalloon_like x p : good E allowed p [] → like p (freeBalloon E x p).
Proof.
  intros Hg. unfold freeBalloon. set (p1 := upd_bln x (set_PodIDs ∅) p).
  assert (repods x (λ _, ∅) p p1) as Hr1 by (apply (repods_upd E allowed x (λ _, ∅) p [] Hg)).
  case_bool_decide; [|apply Hr1]. etrans; [apply Hr1|]. by destruct (deleteBalloon_spec E x p1).
Qed.

Lemma step_like p p' : step E p p' → policy_ok E allowed p → like p p'.
Proof.
  destruct 1 as [cch c p _|cch c p|]; intros Hp; [| |done].
  - destruct (allocate_spec E allowed cch c p Hp) as [_ Hr].
    destruct (AllocateResources E cch c p) as [p' [[]|e]]; cbn in *; [|by apply gw_like].
    destruct Hr as [->|(p1 & p2 & x & Hgw & Hf & _ & Hrp & _)]; [done|].
    etrans; [apply Hgw|]. etrans; [by apply frame_like|apply Hrp].
  - pose proof Hp as [Hg _]. unfold ReleaseResources. destruct (balloonByContainer p c) as [x|] eqn:Hx; [|done].
    assert (x ∈ p_balloons p) as Hxb.
    { unfold balloonByContainer in Hx. destruct (list_find _ _) as [[i y]|] eqn:Hf; [|done]. injection Hx as ->.
      apply list_find_Some in Hf as (Hl & _). by apply list_elem_of_lookup_2 in Hl. }
    destruct (dismissContainer_spec E allowed cch c x p Hg) as [Hg1 Hr1]. set (p1 := dismissContainer cch c x p) in *.
    assert (x ∈ app (p_balloons p1) []) as Hx1 by (by rewrite app_nil_r, (rp_balloons _ _ _ _ Hr1)).
    etrans; [apply Hr1|]. clearbody p1. case_bool_decide.
    + destruct (good_resize E cch allowed p1 [] x 0 Hg1 Hx1 ltac:(lia)) as (p2 & Hg2 & Hf & [(-> & _)|(-> & _)]); cbn;
        (etrans; [by apply frame_like|by apply freeBalloon_like]).
    + set (m := Z.max 1 _). assert (0 ≤ m < 2 ^ 63) as Hm.
      { unfold m. pose proof (requested_lt cch (bln p1 x)). lia. }
      by destruct (good_resize E cch allowed p1 [] x m Hg1 Hx1 Hm) as (p2 & Hg2 & Hf & [(-> & _)|(-> & _)]); apply frame_like.
Qed.

Lemma reachable_classy o defs cch p0 available p : config_ok E o defs →
  available_cpus E o = Ok available → available ∩ ts_OnlineCPUs (e_System E) = allowed →
  (setConfig E cch o defs p0).2 = Ok tt → simple (setConfig E cch o defs p0).1 →
  rtc (step E) (setConfig E cch o defs p0).1 p →
  classy (p_uses p0) p [] ∧ policy_ok E allowed p ∧
  o_CPUClasses (p_bpoptions p) = o_CPUClasses o ∧ ∃ names, ValidateCPUClasses (o_CPUClasses o) = Ok names.
Proof.
  intros Hc Hav Hall Hok Hs Hsteps.
  pose proof (setConfig_started E cch allowed o defs p0 available Hc Hav Hall Hok) as [Hp He _].
  destruct (setConfig_prepares E cch allowed o defs p0 available Hc Hav Hall Hok) as (q & Hr & Hq).
  rewrite Hr in *. pose proof (start_balloons_like E cch allowed q (pr_conf _ _ _ _ Hq) (pr_allowed _ _ _ _ Hq) Hok) as Hl.
  assert (classy (p_uses p0) (start_balloons E cch q).1 []) as Hcl.
  { apply (start_balloons_classes E cch allowed (p_uses p0) o p0); [done..|by apply (like_simple _ _ Hl)|done]. }
  assert (consistent E allowed (start_balloons E cch q).1) as Hcons by (split; eauto).
  assert (o_CPUClasses (p_bpoptions (start_balloons E cch q).1) = o_CPUClasses o) as Ho.
  { rewrite (like_options Hl). apply (pr_classes _ _ _ _ Hq). }
  destruct (pr_classes _ _ _ _ Hq) as [_ Hv]. clear Hl Hr Hq He Hp Hok. revert Hs Hcl Hcons Ho.
  induction Hsteps as [p|p p' p'' Hstep _ IH]; intros Hs Hcl Hcons Ho; [by split_and!; [|apply Hcons|..]|].
  pose proof (step_like p p' Hstep (proj1 Hcons)) as Hl. apply IH.
  - by apply (like_simple _ _ Hl).
  - by apply (step_classes _ p); [|apply Hcons|..].
  - by apply (step_consistent E allowed p).
  - by rewrite (like_options Hl).
Qed.
End reach.

(** ** The frequencies of balloons

    The balloons policy uses classes and commits: the uses of the handler are
    those of the policy. *)

Definition uses_of (ops : list ClassOp) : list (string * CPUSet) :=
  omap (λ op, match op with OpUse class cpus => Some (class, cpus) | OpCommit => None end) ops.

Lemma last_use_class (allowed : CPUSet) ops cpu : cpu ∈ allowed →
  last_use allowed ops cpu = last_class (uses_of ops) cpu.
Proof.
  intros Hcpu. unfold last_use, last_class.
  assert (∀ use (u : option string), use cpu = u → fold_left (use_op allowed) ops use cpu =
    fold_left (λ use v, if decide (cpu ∈ v.2) then Some v.1 else use) (uses_of ops) u) as Hgen; [|by apply Hgen].
  induction ops as [|[class cpus|] ops IH]; intros use u Hu; [done| |by apply IH]. cbn. apply IH. unfold used.
  pose proof (allowed_cpus_in allowed cpus cpu Hcpu). repeat case_decide; tauto.
Qed.

Section frequencies.
Context `{GoRuntime} (E : Env) (allowed : CPUSet) `{!CpuService E allowed}.
Context {T : Type} `{Sst T} (HW : HwEnv) (sys : ClsSys).

(** C8: In a policy without composite types, whatever requests have come and
    failed since the configuration: if the CPU class handler was configured
    with the classes of the policy and saw its uses of classes, with commits in
    between wherever they were, then after one more commit every CPU of a
    balloon has the frequencies and the governor of the class of the type of the
    balloon, unless writing one of them has failed.  Balloons that were resized,
    deleted or not created in the end leave no CPU with the class of another
    one. *)
Theorem reachable_frequencies o defs cch p0 available p spec (h0 h : Handler T) ops x cpu cc :
  config_ok E o defs → available_cpus E o = Ok available → available ∩ ts_OnlineCPUs (e_System E) = allowed →
  (setConfig E cch o defs p0).2 = Ok tt → simple (setConfig E cch o defs p0).1 →
  rtc (step E) (setConfig E cch o defs p0).1 p →
  sp_Classes spec = o_CPUClasses o → sp_Allowed spec = allowed → dies_ok sys →
  Configure HW sys spec h0 = (h, None) → p_uses p = app (p_uses p0) (uses_of ops) →
  fq_turboInfo (h_cpufreq h0) ≠ None ∨ is_Some (configured_domain sys (sp_TurboDomain spec) allowed cpu) →
  x ∈ p_balloons p → cpu ∈ b_Cpus (bln p x) → cc ∈ o_CPUClasses o → class_of p x = cc_Name cc →
  ∃ w, top_priority (o_CPUClasses o) (spec_domain sys spec) (last_use allowed ops) (spec_domain sys spec cpu) w ∧
    in_force (h_log (Commit HW sys (run HW sys ops h)).1) cpu (class_def (fq_turboInfo (h_cpufreq h0)) w cc).
Proof.
  intros Hc Hav Hall Hok Hs Hsteps Hcls Hal Hdies Hcf Hops Hor Hx Hcpu Hcc Hname.
  destruct (reachable_classy E allowed o defs cch p0 available p Hc Hav Hall Hok Hs Hsteps)
    as ([_ (us & Hus & Hused)] & Hp & _ & names & Hv).
  rewrite Hops in Hus. apply app_inv_head in Hus as <-.
  assert (cpu ∈ allowed) as Hcpua by (apply (balloons_cover E allowed p cpu Hp); eauto).
  assert (last_use (sp_Allowed spec) ops cpu = Some (cc_Name cc)) as Hu.
  { rewrite Hal, last_use_class, <- Hname by done. apply Hused; [|done]. apply elem_of_app. by left. }
  rewrite <- Hcls in Hv, Hcc. rewrite <- Hal in Hor.
  destruct (run_cpu_def HW sys spec h0 h ops cpu cc (validated_names _ _ Hv) Hdies Hcf Hcc Hu Hor) as (Hw & w & Ht & Hd).
  exists w. rewrite <- Hcls, <- Hal. split; [exact Ht|]. by apply committed.
Qed.
End frequencies.

(** ** An example

    A type of balloons whose class has a high priority. *)

#[local] Existing Instance go_default.
#[local] Existing Instance bex_service.
#[local] Existing Instance cex_Sst.

Definition kex_options : BalloonsOptions :=
  MkOptions None None "lp" None false false [] None [] [] [cex_hp; cex_lp] None (Some "1").

Definition kex_defs : list BalloonDef :=
  [MkDef "fast" [] "" ["app"] "" [] 3 0 [] None "" None None None "hp" [] 0 0 false false false
    LevelNuma [] [] false "" "" [] ""].

Definition kex_p1 : balloons := (setConfig bex_env bex_cch kex_options kex_defs bex_start).1.
Definition kex_p2 : balloons := (AllocateResources bex_env bex_cch bex_ctr kex_p1).1.


Definition kex_spec : ConfigSpec := MkSpec (o_CPUClasses kex_options) "" bex_allowed.
Definition kex_h : Handler sstMock := (Configure cex_env cex_sys kex_spec cex_h0).1.
Definition kex_ops : list ClassOp := app ((λ u, OpUse u.1 u.2) <$> p_uses kex_p2) [OpCommit].
Definition kex_log : Log := h_log (Commit cex_env cex_sys (run cex_env cex_sys kex_ops kex_h)).1.

Lemma uses_of_app us rest : uses_of (app ((λ u, OpUse u.1 u.2) <$> us) rest) = app us (uses_of rest).
Proof. induction us as [|[class cpus] us IH]; [done|]. cbn. by f_equal. Qed.

Lemma kex_config : config_ok bex_env kex_options kex_defs.
Proof.
  split.
  - intros d e [->|?%not_elem_of_nil]%elem_of_cons [->|?%not_elem_of_nil]%elem_of_cons; cbn; try done.
  - unfold bounded. repeat constructor; cbn; lia.
  - intros a q [= <-]. cbn. rewrite bool_decide_eq_true_2 by done. intros [= <-]. lia.
Qed.

Lemma kex_available : available_cpus bex_env kex_options = Ok bex_allowed ∧
  bex_allowed ∩ ts_OnlineCPUs (e_System bex_env) = bex_allowed ∧
  (setConfig bex_env bex_cch kex_options kex_defs bex_start).2 = Ok tt ∧ simple kex_p1.
Proof. split_and!; [by vm_compute..|]. apply (bool_decide_unpack _). by vm_compute. Qed.

(** The balloon has turbo frequencies, and so have idle CPUs of the other
    package; the reserved CPU has no class. *)
Example kex_turbo : (λ cpu, in_effect kex_log (SMax cpu)) <$> [0; 1; 2; 3; 4] = [None; Some (inl 3500000); Some (inl 3500000); Some (inl 3500000); Some (inl 3500000)].
Proof. vm_compute. reflexivity. Qed.

Lemma kex_uses : p_uses kex_p2 = app (p_uses bex_start) (uses_of kex_ops).
Proof.
  unfold kex_ops. rewrite uses_of_app. change (uses_of [OpCommit]) with (@nil (string * CPUSet)).
  change (p_uses bex_start) with (@nil (string * CPUSet)). rewrite app_nil_r. reflexivity.
Qed.

Lemma kex_configured : Configure cex_env cex_sys kex_spec cex_h0 = (kex_h, None).
Proof. vm_compute. reflexivity. Qed.

Lemma kex_steps : rtc (step bex_env) kex_p1 kex_p2.
Proof. apply rtc_once, step_allocate. by vm_compute. Qed.

Lemma kex_balloon : 6%positive ∈ p_balloons kex_p2 ∧ 2 ∈ b_Cpus (bln kex_p2 6) ∧ class_of kex_p2 6 = cc_Name cex_hp.
Proof. split_and!; [apply (bool_decide_unpack _); by vm_compute..|by vm_compute]. Qed.

Lemma reachable_frequencies_witness :
  6%positive ∈ p_balloons kex_p2 ∧ 2 ∈ b_Cpus (bln kex_p2 6) ∧
  ∃ w, top_priority (o_CPUClasses kex_options) (spec_domain cex_sys kex_spec) (last_use bex_allowed kex_ops)
         (spec_domain cex_sys kex_spec 2) w ∧
    in_force kex_log 2 (class_def (fq_turboInfo (h_cpufreq cex_h0)) w cex_hp).
Proof.
  destruct kex_available as (Hav & Hall & Hok & Hs), kex_balloon as (Hx & Hcpu & Hname).
  split; [exact Hx|split; [exact Hcpu|]].
  exact (reachable_frequencies bex_env bex_allowed cex_env cex_sys kex_options kex_defs bex_cch bex_start bex_allowed kex_p2
    kex_spec cex_h0 kex_h kex_ops 6 2 cex_hp kex_config Hav Hall Hok Hs kex_steps eq_refl eq_refl cex_dies kex_configured
    kex_uses ltac:(left; discriminate) Hx Hcpu ltac:(left) Hname).
Defined.
