(* ===== verification/TaTypes.v ===== *)
(** * Data of the topology-aware policy
    (cmd/plugins/topology-aware/policy/node.go, resources.go,
    topology-aware-policy.go and
    pkg/apis/config/v1alpha1/resmgr/policy/topologyaware/config.go)

    The tree of pools with their supplies of CPUs, requests, grants, the
    configuration, the containers the policy sees and its state.  A pool is
    named by its ID: the part of it that changes, its free supply, is in the
    state. *)

From Stdlib Require Import Ascii.
From S2P Require Import Prelude GoStrings Expr MemTypes MemNodes MemRequest MemZones MemAllocator CpuTree CpuAlloc CpuTopo Affinity BlnTypes.

Open Scope string_scope.
Open Scope Z_scope.

(** ** Kinds *)

Inductive cpuType := cpuNormal | cpuReserved | cpuPreserve.

#[export] Instance cpuType_eq_dec : EqDecision cpuType.
Proof. solve_decision. Defined.

(** Types of memory are masks of [libmem.TypeMask], with one more bit. *)
Definition memoryUnspec : Z := 0.
Definition memoryDRAM : Z := TypeMaskDRAM.
Definition memoryPMEM : Z := TypeMaskPMEM.
Definition memoryHBM : Z := TypeMaskHBM.
Definition memoryPreserve : Z := Z.shiftl TypeMaskHBM 1.
Definition memoryAll : Z := memoryDRAM ||| memoryPMEM ||| memoryHBM.
Definition defaultMemoryType : Z := memoryAll.

(** The number of [math.MaxInt], for a container without CPU limit. *)
Definition unlimitedCPU : Z := MaxInt.

Inductive NodeKind :=
  | NilNode | UnknownNode | SocketNode | DieNode | NumaNode | L3CacheNode | VirtualNode.

#[export] Instance NodeKind_eq_dec : EqDecision NodeKind.
Proof. solve_decision. Defined.

Definition TopologyLevel (k : NodeKind) : CPUTopologyLevel :=
  match k with
  | VirtualNode => LevelSystem
  | SocketNode => LevelPackage
  | DieNode => LevelDie
  | NumaNode => LevelNuma
  | L3CacheNode => LevelL3Cache
  | _ => LevelUndefined
  end.

Definition NodeKindForTopologyLevel (level : CPUTopologyLevel) : NodeKind :=
  match level with
  | LevelSystem => VirtualNode
  | LevelPackage => SocketNode
  | LevelDie => DieNode
  | LevelNuma => NumaNode
  | LevelL3Cache => L3CacheNode
  | _ => UnknownNode
  end.

(** [CPUTopologyLevel.Value] *)
Definition level_Value (l : CPUTopologyLevel) : Z :=
  match l with
  | LevelUndefined => 0 | LevelSystem => 1 | LevelPackage => 2 | LevelDie => 3 | LevelNuma => 4
  | LevelL3Cache => 5 | LevelL2Cache => 6 | LevelCore => 7 | LevelThread => 8
  end.

(** ** Supplies and pools *)

(** CPUs of a pool.  The granted amounts are in thousandths of a CPU. *)
Record supply := MkSupply {
  su_isolated : CPUSet;
  su_reserved : CPUSet;
  su_sharable : CPUSet;
  su_grantedReserved : Z;
  su_grantedShared : Z;
}.

Definition nil_supply : supply := MkSupply ∅ ∅ ∅ 0 0.

(** What a pool has besides its children and its free supply; [nd_sysid] is
    the ID of the socket, die, NUMA node or cache, [nd_pkg] that of the socket
    of a die, and [nd_cpus] are the CPUs of a cache. *)
Record node := MkNode {
  nd_id : Z;
  nd_name : string;
  nd_kind : NodeKind;
  nd_depth : Z;
  nd_sysid : Z;
  nd_pkg : Z;
  nd_cpus : CPUSet;
  nd_noderes : supply;
  nd_mem : gset Z;
  nd_pMem : gset Z;
  nd_hbm : gset Z;
}.

Inductive Pool := MkPool {
  pool_node : node;
  pool_children : list Pool;
}.

Definition NodeID (n : Pool) : Z := nd_id (pool_node n).
Definition Name (n : Pool) : string := nd_name (pool_node n).
Definition RootDistance (n : Pool) : Z := nd_depth (pool_node n).
Definition GetSupply (n : Pool) : supply := nd_noderes (pool_node n).
Definition IsSameNode (n other : Pool) : bool := bool_decide (NodeID n = NodeID other).
Definition IsLeafNode (n : Pool) : bool := bool_decide (pool_children n = []).

(** The pools that [DepthFirst] and [BreadthFirst] call a function for, in
    order, as long as the function does not stop them. *)
Fixpoint DepthFirst (n : Pool) : list Pool :=
  app (concat (map DepthFirst (pool_children n))) [n].

Fixpoint BreadthFirst (n : Pool) : list Pool :=
  n :: concat (map BreadthFirst (pool_children n)).

(** The pools above the pool with an ID, the nearest one first: the chain of
    [Parent] of a pool in the tree. *)
Fixpoint ancestors (root : Pool) (id : Z) : option (list Pool) :=
  if bool_decide (NodeID root = id) then Some []
  else
    (fix first (cs : list Pool) : option (list Pool) :=
       match cs with
       | [] => None
       | c :: cs' =>
           match ancestors c id with
           | Some above => Some (app above [root])
           | None => first cs'
           end
       end) (pool_children root).

Definition find_pool (root : Pool) (id : Z) : option Pool :=
  snd <$> list_find (λ n, NodeID n = id) (DepthFirst root).

(** ** Hints and interrupts *)

(** A topology hint; [hint_IRQs] are interrupts of the device. *)
Record Hint := MkHint {
  hint_Provider : string;
  hint_CPUs : string;
  hint_NUMAs : string;
  hint_Sockets : string;
  hint_IRQs : list Z;
}.

Inductive IrqMode := IrqClaimFirst | IrqMaskFirst.

#[export] Instance IrqMode_eq_dec : EqDecision IrqMode.
Proof. solve_decision. Defined.

Record IrqAffinity := MkIrqAffinity {
  irq_Claim : list string;
  irq_Devices : list string;
  irq_Mask : list string;
  irq_Mode : IrqMode;
}.

(** ** Containers *)

(** Resources requested and limited: CPU in thousandths, memory in bytes. *)
Record Resources := MkResources {
  rs_requestCPU : option Z;
  rs_limitCPU : option Z;
  rs_requestMemory : option Z;
  rs_limitMemory : option Z;
}.

(** A container of the cache and what the policy asks it for: its resource
    requirements, a pending update of them, and its topology hints. *)
Record TCtr := MkTCtr {
  tc_container : container;
  tc_Requirements : Resources;
  tc_ResourceUpdates : option Resources;
  tc_TopologyHints : gmap string Hint;
}.

Definition tc_ID (c : TCtr) : string := c_id (tc_container c).

(** The cache: pods, their annotations, and containers. *)
Record TCache := MkTCache {
  tch_pods : gmap string pod;
  tch_annotations : gmap string (gmap string string);
  tch_containers : gmap string TCtr;
}.

(** ** Requests and grants *)

Record request := MkReq {
  rq_container : TCtr;
  rq_full : Z;
  rq_fraction : Z;
  rq_limit : Z;
  rq_isolate : bool;
  rq_cpuType : cpuType;
  rq_cpuClass : string;
  rq_prio : CPUPriority;
  rq_memReq : Z;
  rq_memLim : Z;
  rq_memType : Z;
  rq_pickByHints : bool;
  rq_irqs : option IrqAffinity;
  rq_coldStart : Z;
}.

(** A grant points to its container, which is named by its ID here.
    [g_timer] tells whether a cold start timer is running. *)
Record grant := MkGrant {
  g_container : string;
  g_node : Z;
  g_exclusive : CPUSet;
  g_cpuType : cpuType;
  g_cpuPortion : Z;
  g_memType : Z;
  g_coldStart : Z;
  g_timer : bool;
  g_memSize : Z;
  g_memZone : Z;
  g_cpuClass : string;
  g_irqs : option IrqAffinity;
}.

Definition set_cpuPortion (v : Z) (g : grant) : grant :=
  MkGrant (g_container g) (g_node g) (g_exclusive g) (g_cpuType g) v (g_memType g) (g_coldStart g) (g_timer g)
    (g_memSize g) (g_memZone g) (g_cpuClass g) (g_irqs g).

Definition set_memType (v : Z) (g : grant) : grant :=
  MkGrant (g_container g) (g_node g) (g_exclusive g) (g_cpuType g) (g_cpuPortion g) v (g_coldStart g) (g_timer g)
    (g_memSize g) (g_memZone g) (g_cpuClass g) (g_irqs g).

Definition set_memZone (v : Z) (g : grant) : grant :=
  MkGrant (g_container g) (g_node g) (g_exclusive g) (g_cpuType g) (g_cpuPortion g) (g_memType g) (g_coldStart g)
    (g_timer g) (g_memSize g) v (g_cpuClass g) (g_irqs g).

Definition set_memSize (v : Z) (g : grant) : grant :=
  MkGrant (g_container g) (g_node g) (g_exclusive g) (g_cpuType g) (g_cpuPortion g) (g_memType g) (g_coldStart g)
    (g_timer g) v (g_memZone g) (g_cpuClass g) (g_irqs g).

Definition set_coldStart (v : Z) (g : grant) : grant :=
  MkGrant (g_container g) (g_node g) (g_exclusive g) (g_cpuType g) (g_cpuPortion g) (g_memType g) v
    (g_timer g) (g_memSize g) (g_memZone g) (g_cpuClass g) (g_irqs g).

Definition set_timer (v : bool) (g : grant) : grant :=
  MkGrant (g_container g) (g_node g) (g_exclusive g) (g_cpuType g) (g_cpuPortion g) (g_memType g) (g_coldStart g)
    v (g_memSize g) (g_memZone g) (g_cpuClass g) (g_irqs g).

Definition set_cpuClass (v : string) (g : grant) : grant :=
  MkGrant (g_container g) (g_node g) (g_exclusive g) (g_cpuType g) (g_cpuPortion g) (g_memType g) (g_coldStart g)
    (g_timer g) (g_memSize g) (g_memZone g) v (g_irqs g).

Definition set_node (v : Z) (g : grant) : grant :=
  MkGrant (g_container g) v (g_exclusive g) (g_cpuType g) (g_cpuPortion g) (g_memType g) (g_coldStart g)
    (g_timer g) (g_memSize g) (g_memZone g) (g_cpuClass g) (g_irqs g).

(** ** Configuration *)

Record Config := MkConfig {
  opt_PinCPU : bool;
  opt_PinMemory : bool;
  opt_PreferIsolated : option bool;
  opt_PreferShared : option bool;
  opt_ReservedPoolNamespaces : list string;
  opt_AvailableResources : option string;
  opt_ReservedResources : option string;
  opt_DefaultCPUPriority : string;
  opt_UnlimitedBurstable : CPUTopologyLevel;
  opt_SchedulingClasses : list SchedulingClass;
  opt_NamespaceSchedulingClasses : gmap string string;
  opt_PodQoSSchedulingClasses : gmap string string;
  opt_CPUClasses : list CPUClass;
  opt_SharedPoolCpuClass : string;
  opt_ReservedPoolCpuClass : string;
  opt_DefaultExclusiveCpuClass : string;
  opt_ControllableInterrupts : list string;
}.

(** ** The state *)

(** What the policy asks the system for besides the topology of its CPUs:
    NUMA nodes, dies and caches of packages, and the memory of NUMA nodes.
    [sy_MemTotal] is missing for a node whose memory cannot be told. *)
Record TaSys := MkTaSys {
  sy_CPUSet : CPUSet;
  sy_OnlineCPUs : CPUSet;
  sy_Isolated : CPUSet;
  sy_PkgNodeIDs : Z → list Z;
  sy_DieClusterIDs : Z → Z → list Z;
  sy_DieNodeIDs : Z → Z → list Z;
  sy_L3CacheIDs : Z → list Z;
  sy_L3CacheCPUSet : Z → Z → CPUSet;
  sy_NodePackageID : Z → Z;
  sy_MemTotal : Z → option Z;
  sy_MemoryType : Z → Z;
  sy_HasNormalMemory : Z → bool;
  sy_Distances : Z → list Z;
}.

(** What the policy sees of the system: the CPU allocator, the topology, how
    CPU sets are parsed and printed, and the handlers of CPU classes and interrupts.
    [te_ColdStart] decodes a cold start preference to a duration in
    nanoseconds, [te_IrqYaml] an interrupt affinity and its mode. *)
Record TEnv := MkTEnv {
  te_cpuAllocator : option CpuSys * topologyCache;
  te_System : TopoSys;
  te_Sys : TaSys;
  te_Parse : string → option CPUSet;
  te_String : CPUSet → string;
  te_now : positive → Z;
  te_ParseQuantity : string → option Z;
  te_SysNodes : list SysNode;
  (** whether a handler of CPU classes can be created, and configured for CPUs *)
  te_NewClasses : bool;
  te_Configure : list CPUClass → CPUSet → bool;
  te_SetAllowedInterrupts : list string → bool;
  te_Hints : list (string * CPUSet) → AllocationIntent → list CpuPreference;
  te_ColdStart : string → option Z;
  te_IrqYaml : string → option (IrqAffinity * string);
  te_ValidInterrupts : list string → bool;
  te_ValidPatterns : list string → bool;
  (** whether an interrupt is known and may be controlled, and whether it
      matches a pattern *)
  te_Interrupt : Z → option bool;
  te_IrqMatch : Z → string → bool;
  (** the interrupts that may be controlled, unless they cannot be read, and
      whether setting the affinity of one works *)
  te_Interrupts : option (list Z);
  te_SetAffinity : Z → CPUSet → bool;
  (** the names of scheduler policies, flags and I/O classes of NRI *)
  te_LinuxSchedulerPolicy_value : gmap string Z;
  te_LinuxSchedulerFlag_value : gmap string Z;
  te_IOPrioClass_value : gmap string Z;
  (** the affinities of a container *)
  te_GetAffinity : container → res (list Affinity);
}.

(** [ta_opt] and [ta_defaultPrio] are global variables of the package,
    [ta_cfg] is the configuration the policy keeps.  [ta_free] are the free
    supplies of the pools by ID.  [ta_irqCnt] counts changes of grants with
    interrupt affinity, [ta_irqApplied] is that count when affinities were last
    applied, and [ta_irqAffinity] are the affinities of interrupts.
    [ta_classes] tells whether there is a handler of CPU classes, [ta_uses] are
    the calls made to it and [ta_pins] is what has been set for containers. *)
Record policy := MkPolicy {
  ta_opt : Config;
  ta_cfg : Config;
  ta_defaultPrio : CPUPriority;
  ta_root : Pool;
  ta_allowed : CPUSet;
  ta_reserved : CPUSet;
  ta_isolated : CPUSet;
  ta_free : gmap Z supply;
  ta_grants : gmap string grant;
  ta_irqCnt : Z;
  ta_irqApplied : Z;
  ta_irqAffinity : gmap Z CPUSet;
  ta_memAllocator : Allocator;
  ta_classes : bool;
  ta_coldStartOff : bool;
  ta_uses : list (string * CPUSet);
  ta_pins : gmap string Pinning;
}.

Definition with_opt (v : Config) (p : policy) : policy :=
  MkPolicy v (ta_cfg p) (ta_defaultPrio p) (ta_root p) (ta_allowed p) (ta_reserved p) (ta_isolated p) (ta_free
    p) (ta_grants p) (ta_irqCnt p) (ta_irqApplied p) (ta_irqAffinity p) (ta_memAllocator p) (ta_classes
    p) (ta_coldStartOff p) (ta_uses p) (ta_pins p).

Definition with_cfg (v : Config) (p : policy) : policy :=
  MkPolicy (ta_opt p) v (ta_defaultPrio p) (ta_root p) (ta_allowed p) (ta_reserved p) (ta_isolated p) (ta_free
    p) (ta_grants p) (ta_irqCnt p) (ta_irqApplied p) (ta_irqAffinity p) (ta_memAllocator p) (ta_classes
    p) (ta_coldStartOff p) (ta_uses p) (ta_pins p).

Definition with_defaultPrio (v : CPUPriority) (p : policy) : policy :=
  MkPolicy (ta_opt p) (ta_cfg p) v (ta_root p) (ta_allowed p) (ta_reserved p) (ta_isolated p) (ta_free p)
    (ta_grants p) (ta_irqCnt p) (ta_irqApplied p) (ta_irqAffinity p) (ta_memAllocator p) (ta_classes p)
    (ta_coldStartOff p) (ta_uses p) (ta_pins p).

Definition with_free (v : gmap Z supply) (p : policy) : policy :=
  MkPolicy (ta_opt p) (ta_cfg p) (ta_defaultPrio p) (ta_root p) (ta_allowed p) (ta_reserved p) (ta_isolated p)
    v (ta_grants p) (ta_irqCnt p) (ta_irqApplied p) (ta_irqAffinity p) (ta_memAllocator p) (ta_classes
    p) (ta_coldStartOff p) (ta_uses p) (ta_pins p).

Definition with_grants (v : gmap string grant) (p : policy) : policy :=
  MkPolicy (ta_opt p) (ta_cfg p) (ta_defaultPrio p) (ta_root p) (ta_allowed p) (ta_reserved p) (ta_isolated p)
    (ta_free p) v (ta_irqCnt p) (ta_irqApplied p) (ta_irqAffinity p) (ta_memAllocator p) (ta_classes p)
    (ta_coldStartOff p) (ta_uses p) (ta_pins p).

Definition with_irqCnt (v : Z) (p : policy) : policy :=
  MkPolicy (ta_opt p) (ta_cfg p) (ta_defaultPrio p) (ta_root p) (ta_allowed p) (ta_reserved p) (ta_isolated p)
    (ta_free p) (ta_grants p) v (ta_irqApplied p) (ta_irqAffinity p) (ta_memAllocator p) (ta_classes p)
    (ta_coldStartOff p) (ta_uses p) (ta_pins p).

Definition with_irqApplied (v : Z) (p : policy) : policy :=
  MkPolicy (ta_opt p) (ta_cfg p) (ta_defaultPrio p) (ta_root p) (ta_allowed p) (ta_reserved p) (ta_isolated p)
    (ta_free p) (ta_grants p) (ta_irqCnt p) v (ta_irqAffinity p) (ta_memAllocator p) (ta_classes p)
    (ta_coldStartOff p) (ta_uses p) (ta_pins p).

Definition with_irqAffinity (v : gmap Z CPUSet) (p : policy) : policy :=
  MkPolicy (ta_opt p) (ta_cfg p) (ta_defaultPrio p) (ta_root p) (ta_allowed p) (ta_reserved p) (ta_isolated p)
    (ta_free p) (ta_grants p) (ta_irqCnt p) (ta_irqApplied p) v (ta_memAllocator p) (ta_classes p)
    (ta_coldStartOff p) (ta_uses p) (ta_pins p).

Definition with_memory (v : Allocator) (p : policy) : policy :=
  MkPolicy (ta_opt p) (ta_cfg p) (ta_defaultPrio p) (ta_root p) (ta_allowed p) (ta_reserved p) (ta_isolated p)
    (ta_free p) (ta_grants p) (ta_irqCnt p) (ta_irqApplied p) (ta_irqAffinity p) v (ta_classes p)
    (ta_coldStartOff p) (ta_uses p) (ta_pins p).

Definition with_calls (v : list (string * CPUSet)) (p : policy) : policy :=
  MkPolicy (ta_opt p) (ta_cfg p) (ta_defaultPrio p) (ta_root p) (ta_allowed p) (ta_reserved p) (ta_isolated p)
    (ta_free p) (ta_grants p) (ta_irqCnt p) (ta_irqApplied p) (ta_irqAffinity p) (ta_memAllocator p)
    (ta_classes p) (ta_coldStartOff p) v (ta_pins p).

Definition with_settings (v : gmap string Pinning) (p : policy) : policy :=
  MkPolicy (ta_opt p) (ta_cfg p) (ta_defaultPrio p) (ta_root p) (ta_allowed p) (ta_reserved p) (ta_isolated p)
    (ta_free p) (ta_grants p) (ta_irqCnt p) (ta_irqApplied p) (ta_irqAffinity p) (ta_memAllocator p)
    (ta_classes p) (ta_coldStartOff p) (ta_uses p) v.

Definition with_cpus (allowed isolated reserved : CPUSet) (p : policy) : policy :=
  MkPolicy (ta_opt p) (ta_cfg p) (ta_defaultPrio p) (ta_root p) allowed reserved isolated (ta_free p)
    (ta_grants p) (ta_irqCnt p) (ta_irqApplied p) (ta_irqAffinity p) (ta_memAllocator p) (ta_classes p)
    (ta_coldStartOff p) (ta_uses p) (ta_pins p).

Definition with_tree (root : Pool) (free : gmap Z supply) (p : policy) : policy :=
  MkPolicy (ta_opt p) (ta_cfg p) (ta_defaultPrio p) root (ta_allowed p) (ta_reserved p) (ta_isolated p)
    free (ta_grants p) (ta_irqCnt p) (ta_irqApplied p) (ta_irqAffinity p) (ta_memAllocator p) (ta_classes
    p) (ta_coldStartOff p) (ta_uses p) (ta_pins p).

Definition with_classes (v : bool) (p : policy) : policy :=
  MkPolicy (ta_opt p) (ta_cfg p) (ta_defaultPrio p) (ta_root p) (ta_allowed p) (ta_reserved p)
    (ta_isolated p) (ta_free p) (ta_grants p) (ta_irqCnt p) (ta_irqApplied p) (ta_irqAffinity p)
    (ta_memAllocator p) v (ta_coldStartOff p) (ta_uses p) (ta_pins p).

Definition with_coldStartOff (v : bool) (p : policy) : policy :=
  MkPolicy (ta_opt p) (ta_cfg p) (ta_defaultPrio p) (ta_root p) (ta_allowed p) (ta_reserved p)
    (ta_isolated p) (ta_free p) (ta_grants p) (ta_irqCnt p) (ta_irqApplied p) (ta_irqAffinity p)
    (ta_memAllocator p) (ta_classes p) v (ta_uses p) (ta_pins p).

(** [FreeSupply] of the pool with an ID. *)
Definition FreeSupply (p : policy) (id : Z) : supply := default nil_supply (ta_free p !! id).

Definition set_supply (id : Z) (cs : supply) (p : policy) : policy :=
  with_free (<[id := cs]> (ta_free p)) p.

(** The pools in the order of their IDs. *)
Definition ta_pools (p : policy) : list Pool := DepthFirst (ta_root p).

Definition Parents (p : policy) (id : Z) : list Pool := default [] (ancestors (ta_root p) id).
