(* ===== verification/TaPrefs.v ===== *)
(** * Preferences and requests in the topology-aware policy
    (cmd/plugins/topology-aware/policy/pod-preferences.go, cpu-class.go,
    irq-affinity.go, resources.go, pkg/resmgr/cache/pod.go, container.go)

    What the annotations and resources of a container and the configuration
    say about the CPUs and the memory to allocate for it. *)

From Stdlib Require Import Ascii.
From S2P Require Import Prelude GoStrings Expr MemTypes MemNodes MemRequest MemZones MemAllocator CpuTree CpuAlloc CpuTopo BlnTypes BlnPin BlnConfig TaTypes.

Open Scope string_scope.
Open Scope Z_scope.

(** ** Annotations *)

Definition ContainerScopedAnnotation : Z := 0.
Definition PodScopedAnnotation : Z := 1.
Definition UnscopedAnnotation : Z := 2.

(** [QueryEffectiveAnnotation]: the value, its scope and whether there is one. *)
Definition query (annotations : gmap string string) (key ctr : string) : string * Z * bool :=
  match annotations !! append key (append "/container." ctr) with
  | Some v => (v, ContainerScopedAnnotation, true)
  | None =>
      match annotations !! append key "/pod" with
      | Some v => (v, PodScopedAnnotation, true)
      | None =>
          match annotations !! key with
          | Some v => (v, UnscopedAnnotation, true)
          | None => ("", UnscopedAnnotation, false)
          end
      end
  end.

Definition res_key (key : string) : string := append key (append "." ResmgrKeyNamespace).

Definition preferIsolatedCPUsKey := res_key "prefer-isolated-cpus".
Definition strictPreferIsolatedCPUsKey := res_key "require-isolated-cpus".
Definition preferSharedCPUsKey := res_key "prefer-shared-cpus".
Definition preferMemoryTypeKey := res_key "memory-type".
Definition preferColdStartKey := res_key "cold-start".
Definition preferReservedCPUsKey := res_key "prefer-reserved-cpus".
Definition preferCpuPriorityKey := res_key "prefer-cpu-priority".
Definition pickResourcesByHints := res_key "pick-resources-by-hints".
Definition keyCpuClass := res_key "cpu-class".
Definition keyIrqAffinity := res_key "irq-affinity".
Definition UnlimitedBurstableKey := res_key "unlimited-burstable".
Definition TopologyHintsKey := res_key "topologyhints".
Definition StrictTopologyHintsKey := append "strict." TopologyHintsKey.

Inductive prefKind := prefImplicit | prefConfig | prefAnnotated.

#[export] Instance prefKind_eq_dec : EqDecision prefKind.
Proof. solve_decision. Defined.

Definition boolConfigPreference (ptr : option bool) : bool * prefKind :=
  match ptr with
  | Some b => (b, prefConfig)
  | None => (false, prefImplicit)
  end.

Section preferences.
Context `{GoRuntime} (E : TEnv) (cch : TCache).

(** What the annotations of its pod say about a container; a container whose
    pod is not known has none. *)
Definition pod_query (c : TCtr) (key : string) : string * Z * bool :=
  query (default ∅ (tch_annotations cch !! c_podID (tc_container c))) key (c_name (tc_container c)).

Definition ctr_query (c : TCtr) (key : string) : string * Z * bool :=
  match GetPod (tch_pods cch) (tc_container c) with
  | None => ("", UnscopedAnnotation, false)
  | Some _ => pod_query c key
  end.

Definition annotated (q : string * Z * bool) : option string :=
  let '(value, _, ok) := q in if ok then Some value else None.

Definition qos (c : TCtr) : string := GetQOSClass (tch_pods cch) (tc_container c).

(** The resources of a pending update, or those required. *)
Definition resources (c : TCtr) : Resources := default (tc_Requirements c) (tc_ResourceUpdates c).

Definition ctr_PreserveCpu (c : TCtr) : bool :=
  bool_decide (annotated (ctr_query c PreserveCpuKey) = Some "true").

Definition ctr_PreserveMemory (c : TCtr) : bool :=
  bool_decide (annotated (ctr_query c PreserveMemoryKey) = Some "true").

(** A boolean annotation; one that cannot be parsed counts as false. *)
Definition bool_annotation (value : option string) : bool :=
  match value with
  | None => false
  | Some value => default false (ParseBool value)
  end.

Definition StrictTopologyHints (c : TCtr) : bool := bool_annotation (annotated (ctr_query c StrictTopologyHintsKey)).

(** ** CPU preferences *)

Definition isolatedCPUsPreference (opt : Config) (c : TCtr) : bool * prefKind :=
  let '(sVal, sScope, sOk) := pod_query c strictPreferIsolatedCPUsKey in
  let '(pVal, pScope, pOk) := pod_query c preferIsolatedCPUsKey in
  if negb sOk && negb pOk then boolConfigPreference (opt_PreferIsolated opt)
  else
    let value := if (sOk && negb pOk) || bool_decide (sScope ≤ pScope) then sVal else pVal in
    match ParseBool value with
    | None => boolConfigPreference (opt_PreferIsolated opt)
    | Some preference => (preference, prefAnnotated)
    end.

Definition strictIsolatedCPUsPreference (c : TCtr) : bool :=
  let '(_, sScope, sOk) := pod_query c strictPreferIsolatedCPUsKey in
  let '(_, pScope, pOk) := pod_query c preferIsolatedCPUsKey in
  (sOk && negb pOk) || (sOk && pOk && bool_decide (sScope ≤ pScope)).

Definition sharedCPUsPreference (opt : Config) (c : TCtr) : bool * prefKind :=
  match annotated (pod_query c preferSharedCPUsKey) with
  | None => boolConfigPreference (opt_PreferShared opt)
  | Some value =>
      match ParseBool value with
      | None => boolConfigPreference (opt_PreferShared opt)
      | Some preference => (preference, prefAnnotated)
      end
  end.

Definition cpuPrioByName (name : string) : option CPUPriority :=
  if bool_decide (name = "high") then Some PriorityHigh
  else if bool_decide (name = "normal") then Some PriorityNormal
  else if bool_decide (name = "low") then Some PriorityLow
  else if bool_decide (name = "none") then Some PriorityNone
  else None.

Definition cpuPrioPreference (defaultPrio : CPUPriority) (c : TCtr) (fallback : CPUPriority) : CPUPriority :=
  match annotated (pod_query c preferCpuPriorityKey) with
  | None => fallback
  | Some value =>
      if bool_decide (value = "default") then defaultPrio
      else default fallback (cpuPrioByName value)
  end.

Definition hideHyperthreadsPreference (c : TCtr) : bool :=
  bool_annotation (annotated (ctr_query c hideHyperthreadsKey)).

(** A pattern that is not valid ends the search. *)
Fixpoint match_namespaces (patterns : list string) (namespace : string) : bool :=
  match patterns with
  | [] => false
  | pattern :: patterns' =>
      match filepath_Match_err pattern namespace with
      | None => false
      | Some true => true
      | Some false => match_namespaces patterns' namespace
      end
  end.

Definition checkReservedPoolNamespaces (opt : Config) (namespace : string) : bool :=
  if bool_decide (namespace = NamespaceSystem) then true
  else match_namespaces (opt_ReservedPoolNamespaces opt) namespace.

(** The preference and whether it is explicit. *)
Definition checkReservedCPUsAnnotations (c : TCtr) : bool * bool :=
  match annotated (ctr_query c preferReservedCPUsKey) with
  | None => (false, false)
  | Some value =>
      match ParseBool value with
      | None => (false, false)
      | Some preference => (preference, true)
      end
  end.

Definition milli (v : option Z) : Z := default 0 v.

(** [cpuAllocationPreferences], for a container whose pod is known: full CPUs,
    fraction, limit, whether to prefer isolated CPUs, type and priority. *)
Definition cpuAllocationPreferences (opt : Config) (defaultPrio : CPUPriority) (c : TCtr)
    : Z * Z * Z * bool * cpuType * CPUPriority :=
  let namespace := GetNamespace (tch_pods cch) (tc_container c) in
  let reqs := resources c in
  let qosClass := qos c in
  let fraction := milli (rs_requestCPU reqs) in
  let prio := defaultPrio in
  let limit :=
    if bool_decide (qosClass = "Burstable") then default unlimitedCPU (rs_limitCPU reqs)
    else if bool_decide (qosClass = "Guaranteed") then milli (rs_limitCPU reqs)
    else 0 in
  let '(preferReserved, explicitReservation) := checkReservedCPUsAnnotations c in
  if ctr_PreserveCpu c then (0, fraction, limit, false, cpuPreserve, prio)
  else if preferReserved then (0, fraction, limit, false, cpuReserved, prio)
  else if checkReservedPoolNamespaces opt namespace && negb explicitReservation then
    (0, fraction, limit, false, cpuReserved, prio)
  else if bool_decide (qosClass = "Burstable") then (0, fraction, limit, false, cpuNormal, prio)
  else if bool_decide (qosClass = "BestEffort") then (0, 0, 0, false, cpuNormal, prio)
  else
    let cores := Z.quot fraction 1000 in
    let fraction := Z.rem fraction 1000 in
    let limit := 1000 * cores + fraction in
    let '(preferIsolated, isolPrefKind) := isolatedCPUsPreference opt c in
    let '(preferShared, sharedPrefKind) := sharedCPUsPreference opt c in
    let prio := cpuPrioPreference defaultPrio c defaultPrio in
    if bool_decide (cores = 0) then (0, fraction, limit, false, cpuNormal, prio)
    else if bool_decide (cores < 2) then
      if preferShared then (0, 1000 * cores + fraction, limit, false, cpuNormal, prio)
      else (cores, fraction, limit, preferIsolated, cpuNormal, prio)
    else if bool_decide (fraction > 0) then
      if negb preferShared && bool_decide (sharedPrefKind = prefAnnotated) then
        (cores, fraction, limit, preferIsolated, cpuNormal, prio)
      else (0, 1000 * cores + fraction, limit, false, cpuNormal, prio)
    else if preferShared then (0, 1000 * cores, limit, false, cpuNormal, prio)
    else (cores, 0, limit, preferIsolated && bool_decide (isolPrefKind = prefAnnotated), cpuNormal, prio).

Definition pickByHintsPreference (c : TCtr) : bool := bool_annotation (annotated (pod_query c pickResourcesByHints)).

(** ** Memory preferences *)

Definition memoryNamedTypes (name : string) : option Z :=
  if bool_decide (name = "dram") then Some memoryDRAM
  else if bool_decide (name = "pmem") then Some memoryPMEM
  else if bool_decide (name = "hbm") then Some memoryHBM
  else if bool_decide (name = "mixed") then Some memoryAll
  else None.

Fixpoint parse_memory_types (names : list string) (mtype : Z) : res Z :=
  match names with
  | [] => Ok mtype
  | name :: names' =>
      match memoryNamedTypes (to_lower name) with
      | None => Err ErrOther
      | Some t => parse_memory_types names' (mtype ||| t)
      end
  end.

Definition parseMemoryType (value : string) : res Z :=
  if bool_decide (value = "") then Ok memoryUnspec else parse_memory_types (split_on ","%char value) 0.

Definition memoryTypePreference (c : TCtr) : Z :=
  if ctr_PreserveMemory c then memoryPreserve
  else
    match annotated (pod_query c preferMemoryTypeKey) with
    | None => memoryUnspec
    | Some value => match parseMemoryType value with Ok mtype => mtype | Err _ => memoryUnspec end
    end.

Definition memoryAllocationPreference (c : TCtr) : Z * Z * Z :=
  (default 0 (rs_requestMemory (resources c)), default 0 (rs_limitMemory (resources c)), memoryTypePreference c).

(** Durations are in nanoseconds. *)
Definition time_Hour : Z := 3600 * 10 ^ 9.

Definition coldStartPreference (c : TCtr) : res Z :=
  match annotated (pod_query c preferColdStartKey) with
  | None => Ok 0
  | Some value =>
      match te_ColdStart E value with
      | None => Err ErrOther
      | Some duration => if bool_decide (duration < 0 ∨ duration > time_Hour) then Err ErrOther else Ok duration
      end
  end.

(** ** Classes *)

(** The class and whether it comes from an annotation of the container. *)
Definition cpuClassPreference (opt : Config) (c : TCtr) : res (string * bool) :=
  let '(class, scope, ok) := ctr_query c keyCpuClass in
  if negb ok then
    Ok (if bool_decide (qos c = "Guaranteed") then (opt_DefaultExclusiveCpuClass opt, false) else ("", false))
  else if bool_decide (qos c = "Guaranteed") then Ok (class, bool_decide (scope = ContainerScopedAnnotation))
  else if bool_decide (scope = ContainerScopedAnnotation) then Err ErrOther
  else Ok ("", false).

(** [resolveCpuClass]; the classes the handler knows are those of the
    configuration. *)
Definition resolveCpuClass (p : policy) (c : TCtr) : res (string * bool) :=
  if negb (ta_classes p) then Ok ("", false)
  else
    let! pref := cpuClassPreference (ta_opt p) c in
    let '(class, isCtrScoped) := pref in
    if bool_decide (class = "") then Ok ("", false)
    else if bool_decide (class ∈ cc_Name <$> opt_CPUClasses (ta_opt p)) then Ok (class, isCtrScoped)
    else Err ErrOther.

Definition GetSchedulingClass (opt : Config) (name : string) : option SchedulingClass :=
  snd <$> list_find (λ sc, sc_Name sc = name) (opt_SchedulingClasses opt).

(** A class by the name assigned to a namespace or QoS class, if any. *)
Definition assigned_class (opt : Config) (name : option string) : res (option SchedulingClass) :=
  match name with
  | None => Ok None
  | Some name =>
      match GetSchedulingClass opt name with
      | None => Err ErrOther
      | Some sc => Ok (Some sc)
      end
  end.

Definition GetDefaultSchedulingClass (opt : Config) (ns qos : string) : res (option SchedulingClass) :=
  let! sc := assigned_class opt (opt_NamespaceSchedulingClasses opt !! ns) in
  match sc with
  | Some sc => Ok (Some sc)
  | None => assigned_class opt (opt_PodQoSSchedulingClasses opt !! to_lower qos)
  end.

Definition schedulingClassPreference (opt : Config) (c : TCtr) : res (option SchedulingClass) :=
  match annotated (ctr_query c schedulingClassKey) with
  | Some name =>
      match GetSchedulingClass opt name with
      | None => Err ErrOther
      | Some sc => Ok (Some sc)
      end
  | None => GetDefaultSchedulingClass opt (GetNamespace (tch_pods cch) (tc_container c)) (qos c)
  end.

(** ** Interrupts *)

Definition parseIrqAffinity (raw : string) : res IrqAffinity :=
  match te_IrqYaml E raw with
  | None => Err ErrOther
  | Some (parsed, mode) =>
      let! mode :=
        if bool_decide (mode = "") then Ok IrqMaskFirst
        else if bool_decide (mode = "claim-first") then Ok IrqClaimFirst
        else if bool_decide (mode = "mask-first") then Ok IrqMaskFirst
        else Err ErrOther in
      if te_ValidInterrupts E (app (irq_Claim parsed) (irq_Mask parsed)) then
        Ok (MkIrqAffinity (irq_Claim parsed) (irq_Devices parsed) (irq_Mask parsed) mode)
      else Err ErrOther
  end.

(** The interrupts of hinted devices that are known, allowed and match. *)
Definition claimed_irqs (devices : list string) (hints : gmap string Hint) : list string :=
  itoa <$> filter (λ num, te_Interrupt E num = Some true ∧ existsb (te_IrqMatch E num) devices = true)
             (concat ((λ h, hint_IRQs h.2) <$> map_range hints)).

Definition addIrqAffinityForHints (a : IrqAffinity) (hints : gmap string Hint) : res IrqAffinity :=
  if bool_decide (hints = ∅ ∨ irq_Devices a = []) then Ok a
  else if negb (te_ValidPatterns E (irq_Devices a)) then Err ErrOther
  else Ok (MkIrqAffinity (app (irq_Claim a) (claimed_irqs (irq_Devices a) hints)) (irq_Devices a) (irq_Mask a)
             (irq_Mode a)).

(** The affinity, if any, and whether it is annotated for the container. *)
Definition irqAffinityPreference (c : TCtr) : res (option IrqAffinity * bool) :=
  let '(value, scope, ok) := ctr_query c keyIrqAffinity in
  if negb ok then Ok (None, false)
  else
    let! a := parseIrqAffinity value in
    let scoped := bool_decide (scope = ContainerScopedAnnotation) in
    if bool_decide (qos c = "Guaranteed") then
      let! a := addIrqAffinityForHints a (tc_TopologyHints c) in
      Ok (Some a, scoped)
    else if scoped then Err ErrOther
    else Ok (None, false).

(** ** Requests *)

(** The memory types of a request and its cold start period. *)
Definition request_memory (p : policy) (c : TCtr) (mtype types : Z) : res (Z * Z) :=
  let mtype := if bool_decide (mtype = memoryUnspec) then defaultMemoryType &^ memoryHBM else mtype in
  if bool_decide (mtype = memoryPreserve) then Ok (mtype, 0)
  else
    let mtype := TypeMask_And mtype types in
    if ta_coldStartOff p then
      Ok (if bool_decide (mtype = memoryPMEM) then mtype ||| memoryDRAM else mtype, 0)
    else
      let! coldStart := coldStartPreference c in
      Ok (if bool_decide (coldStart > 0) then mtype &^ memoryDRAM else mtype, coldStart).

(** [newRequest]; a container without a pod is dereferenced all the same. *)
Definition newRequest (p : policy) (c : TCtr) (types : Z) : res request :=
  match GetPod (tch_pods cch) (tc_container c) with
  | None => Err Panic
  | Some _ =>
      let '(full, fraction, cpuLimit, isolate, cpuType, prio) := cpuAllocationPreferences (ta_opt p) (ta_defaultPrio p) c in
      let '(req, lim, mtype) := memoryAllocationPreference c in
      let! class := resolveCpuClass p c in
      let '(cpuClass, isCtrScoped) := class in
      if bool_decide (full = 0 ∧ cpuClass ≠ "") && isCtrScoped then Err ErrOther
      else
        let! irq := irqAffinityPreference c in
        let '(irqs, isCtrScoped) := irq in
        if bool_decide (irqs ≠ None ∧ full = 0) && isCtrScoped then Err ErrOther
        else
          let! mem := request_memory p c mtype types in
          let '(mtype, coldStart) := mem in
          Ok (MkReq c full fraction cpuLimit isolate cpuType cpuClass prio req lim mtype
                (pickByHintsPreference c) irqs coldStart)
  end.

Definition MemAmountToAllocate (r : request) : Z :=
  if bool_decide (rq_memReq r ≠ 0) then rq_memReq r else rq_memLim r.

Definition SetCPUType (t : cpuType) (r : request) : request :=
  MkReq (rq_container r) (rq_full r) (rq_fraction r) (rq_limit r) (rq_isolate r) t (rq_cpuClass r) (rq_prio r)
    (rq_memReq r) (rq_memLim r) (rq_memType r) (rq_pickByHints r) (rq_irqs r) (rq_coldStart r).

(** ** Topology levels *)

Fixpoint existing_level (pools : list Pool) (level : CPUTopologyLevel) : CPUTopologyLevel :=
  match pools with
  | [] => LevelPackage
  | pool :: pools' =>
      let l := TopologyLevel (nd_kind (pool_node pool)) in
      if bool_decide (level_Value l ≤ level_Value level) then l else existing_level pools' level
  end.

Definition findExistingTopologyLevel (p : policy) (level : CPUTopologyLevel) : CPUTopologyLevel :=
  existing_level (ta_pools p) level.

(** The level with a name; other strings have the value of no level. *)
Definition level_of (name : string) : CPUTopologyLevel :=
  default LevelUndefined (snd <$> list_find (λ l, level_String l = name)
    [LevelSystem; LevelPackage; LevelDie; LevelNuma; LevelL3Cache; LevelL2Cache; LevelCore; LevelThread]).

Definition unlimitedBurstablePreference (p : policy) (c : TCtr) : CPUTopologyLevel :=
  match annotated (ctr_query c UnlimitedBurstableKey) with
  | None => opt_UnlimitedBurstable (ta_opt p)
  | Some prefer =>
      if bool_decide (level_Value (level_of prefer) = level_Value LevelUndefined) then
        opt_UnlimitedBurstable (ta_opt p)
      else findExistingTopologyLevel p (level_of prefer)
  end.
End preferences.
