(* ===== verification/TaSupply.v ===== *)
(** * Supplies, requests and grants of the topology-aware policy
    (cmd/plugins/topology-aware/policy/resources.go, node.go, pools.go,
    libmem.go, pkg/utils/topology/hints.go)

    How much of a pool can be allocated, taking exclusive CPUs and shared
    capacity from it, giving them back, and the offers of memory that go with
    it. *)

From Stdlib Require Import Ascii.
From S2P Require Import Prelude GoStrings Expr MemTypes MemNodes MemRequest MemZones MemAllocator CpuTree CpuAlloc CpuTopo BlnTypes BlnPin TaTypes TaPrefs.

Open Scope string_scope.
Open Scope Z_scope.

(** ** Supplies *)

Definition newSupply (isolated reserved sharable : CPUSet) (grantedReserved grantedShared : Z) : supply :=
  MkSupply isolated reserved sharable grantedReserved grantedShared.

Definition Cumulate (cs mcs : supply) : supply :=
  MkSupply (su_isolated cs ∪ su_isolated mcs) (su_reserved cs ∪ su_reserved mcs)
    (su_sharable cs ∪ su_sharable mcs) (su_grantedReserved cs + su_grantedReserved mcs)
    (su_grantedShared cs + su_grantedShared mcs).

Definition set_cpus (isolated sharable : CPUSet) (cs : supply) : supply :=
  MkSupply isolated (su_reserved cs) sharable (su_grantedReserved cs) (su_grantedShared cs).

Definition add_granted (reserved shared : Z) (cs : supply) : supply :=
  MkSupply (su_isolated cs) (su_reserved cs) (su_sharable cs) (su_grantedReserved cs + reserved)
    (su_grantedShared cs + shared).

(** ** Grants *)

Definition newGrant (n : Z) (c : string) (cpuType : cpuType) (cpuCls : string) (exclusive : CPUSet)
    (cpuPortion mt : Z) (irqs : option IrqAffinity) (coldstart : Z) : grant :=
  MkGrant c n exclusive cpuType cpuPortion mt coldstart false 0 0 cpuCls irqs.

Definition ReservedPortion (g : grant) : Z :=
  if bool_decide (g_cpuType g = cpuReserved) then g_cpuPortion g else 0.

Definition SharedPortion (g : grant) : Z :=
  if bool_decide (g_cpuType g = cpuNormal) then g_cpuPortion g else 0.

(** [Clone]: the timer and the interrupts are not copied. *)
Definition grant_Clone (g : grant) : grant :=
  MkGrant (g_container g) (g_node g) (g_exclusive g) (g_cpuType g) (SharedPortion g) (g_memType g)
    (g_coldStart g) false (g_memSize g) (g_memZone g) (g_cpuClass g) None.

(** The capacity of the pool of a grant. *)
Definition node_supply (p : policy) (id : Z) : supply :=
  match find_pool (ta_root p) id with
  | Some n => GetSupply n
  | None => nil_supply
  end.

Definition ReservedCPUs (p : policy) (g : grant) : CPUSet := su_reserved (node_supply p (g_node g)).
Definition SharedCPUs (p : policy) (g : grant) : CPUSet := su_sharable (FreeSupply p (g_node g)).
Definition IsolatedCPUs (p : policy) (g : grant) : CPUSet := su_isolated (node_supply p (g_node g)) ∩ g_exclusive g.

(** The pools below the pool with an ID, the pool included, children first. *)
Definition subtree (p : policy) (id : Z) : list Pool :=
  match find_pool (ta_root p) id with
  | Some n => DepthFirst n
  | None => []
  end.

(** [AccountAllocateCPU] and [AccountReleaseCPU] of the supply of a pool. *)
Definition account_allocate (g : grant) (p : policy) (n : Pool) : policy :=
  if bool_decide (NodeID n = g_node g) then p
  else
    let cs := FreeSupply p (NodeID n) in
    set_supply (NodeID n) (set_cpus (su_isolated cs ∖ g_exclusive g) (su_sharable cs ∖ g_exclusive g) cs) p.

Definition account_release (g : grant) (p : policy) (n : Pool) : policy :=
  if bool_decide (NodeID n = g_node g) then p
  else
    let cs := FreeSupply p (NodeID n) in
    let ncs := GetSupply n in
    let nodecpus := su_isolated ncs ∪ su_sharable ncs in
    let grantcpus := g_exclusive g ∩ nodecpus in
    set_supply (NodeID n)
      (set_cpus (su_isolated cs ∪ grantcpus ∩ su_isolated ncs) (su_sharable cs ∪ grantcpus ∩ su_sharable ncs) cs) p.

(** [AccountAllocateCPU] and [AccountReleaseCPU] of a grant. *)
Definition AccountAllocateCPU (g : grant) (p : policy) : policy :=
  fold_left (account_allocate g) (Parents p (g_node g)) (fold_left (account_allocate g) (subtree p (g_node g)) p).

Definition AccountReleaseCPU (g : grant) (p : policy) : policy :=
  fold_left (account_release g) (Parents p (g_node g)) (fold_left (account_release g) (subtree p (g_node g)) p).

(** [ReleaseCPU] of the supply of the pool of a grant. *)
Definition ReleaseCPU (g : grant) (p : policy) : policy :=
  let cs := FreeSupply p (g_node g) in
  let isolated := g_exclusive g ∩ su_isolated (node_supply p (g_node g)) in
  let sharable := g_exclusive g ∖ isolated in
  let cs := set_cpus (su_isolated cs ∪ isolated) (su_sharable cs ∪ sharable) cs in
  AccountReleaseCPU g (set_supply (g_node g) (add_granted (- ReservedPortion g) (- SharedPortion g) cs) p).

(** ** Capacity *)

(** Capacity granted from a pool and the pools below it. *)
Fixpoint GrantedReservedCPU (free : gmap Z supply) (n : Pool) : Z :=
  foldr (λ c acc, GrantedReservedCPU free c + acc)
    (su_grantedReserved (default nil_supply (free !! NodeID n))) (pool_children n).

Fixpoint GrantedSharedCPU (free : gmap Z supply) (n : Pool) : Z :=
  foldr (λ c acc, GrantedSharedCPU free c + acc)
    (su_grantedShared (default nil_supply (free !! NodeID n))) (pool_children n).

(** What is left of a pool without regard to the pools above it. *)
Definition own_reserved (p : policy) (n : Pool) : Z :=
  1000 * csize (su_reserved (FreeSupply p (NodeID n))) - GrantedReservedCPU (ta_free p) n.

Definition own_shared (p : policy) (n : Pool) : Z :=
  1000 * csize (su_sharable (FreeSupply p (NodeID n))) - GrantedSharedCPU (ta_free p) n.

(** The least of an amount and what is left of each pool. *)
Definition cap_by (own : Pool → Z) (pools : list Pool) (amount : Z) : Z :=
  fold_left (λ amount n, if bool_decide (own n < amount) then own n else amount) pools amount.

Definition AllocatableReservedCPU (p : policy) (n : Pool) : Z :=
  if bool_decide (csize (su_reserved (FreeSupply p (NodeID n))) = 0) then -1
  else cap_by (own_reserved p) (Parents p (NodeID n)) (own_reserved p n).

Section supply.
Context `{GoRuntime} (E : TEnv) (cch : TCache).

(** The container of a grant. *)
Definition nil_container : TCtr := MkTCtr (MkContainer "" "" "" ∅ ∅) (MkResources None None None None) None ∅.
Definition ctr_of (g : grant) : TCtr := default nil_container (tch_containers cch !! g_container g).

(** Whether a container without CPU request has a grant from a pool. *)
Definition zero_cpu_req (p : policy) (g : grant) : bool :=
  if bool_decide (g_cpuType g = cpuReserved ∧ ReservedCPUs p g ≠ ∅) then false
  else
    let ctr := ctr_of g in
    if bool_decide (qos cch ctr = "BestEffort") then true
    else bool_decide (qos cch ctr = "Burstable") && bool_decide (milli (rs_requestCPU (resources ctr)) = 0).

Definition hasZeroCpuReqContainer (p : policy) (pool : Pool) : bool :=
  existsb (λ ig, bool_decide (NodeID pool = g_node ig.2) && zero_cpu_req p ig.2) (map_range (ta_grants p)).

Definition AllocatableSharedCPU (p : policy) (n : Pool) : Z :=
  let shared := cap_by (own_shared p) (Parents p (NodeID n)) (own_shared p n) in
  if existsb (hasZeroCpuReqContainer p) (BreadthFirst n) then shared - 1 else shared.

(** ** Taking CPUs *)

Abbreviation alloc := (AllocateCpus (te_cpuAllocator E).1 (te_cpuAllocator E).2).

(** The CPUs taken and the CPUs left in the set. *)
Definition takeCPUs (from : CPUSet) (cnt : Z) (prio : CPUPriority) : res CPUSet * CPUSet :=
  alloc from cnt [CpuAlloc.WithPriority prio].

Definition HintProvider := "podresourceapi:".
Definition IsPodResourceHint (provider : string) : bool := bool_decide (is_Some (strip_prefix HintProvider provider)).

(** The loop over the hints: the CPUs taken and those left, [None] if CPUs
    cannot be taken. *)
Fixpoint take_by_hints (hints : list Hint) (perHint : Z) (prio : CPUPriority) (free cpus : CPUSet)
    : res (option (CPUSet * CPUSet)) :=
  match hints with
  | [] => Ok (Some (free, cpus))
  | h :: hints' =>
      match te_Parse E (hint_CPUs h) with
      | None => Err Panic
      | Some hcpus =>
          match (takeCPUs (free ∩ hcpus) perHint prio).1 with
          | Ok pick => take_by_hints hints' perHint prio (free ∖ pick) (cpus ∪ pick)
          | Err Panic => Err Panic
          | Err _ => Ok None
          end
      end
  end.

Definition takeCPUsByHints (from : CPUSet) (all : gmap string Hint) (cnt : Z) (prio : CPUPriority)
    : res CPUSet * CPUSet :=
  let hints := snd <$> filter (λ ph, IsPodResourceHint ph.1 = true) (map_range all) in
  let len := Z.of_nat (length hints) in
  if bool_decide (len = 0 ∨ len > cnt) then takeCPUs from cnt prio
  else
    let perHint := if bool_decide (len < cnt ∧ Z.rem cnt len = 0) then Z.quot cnt len else 1 in
    match take_by_hints hints perHint prio from ∅ with
    | Err e => (Err e, from)
    | Ok None => takeCPUs from cnt prio
    | Ok (Some (free, cpus)) =>
        let total := cnt - len * perHint in
        if bool_decide (total > 0) then
          match (takeCPUs free total prio).1 with
          | Ok pick => (Ok (cpus ∪ pick), free ∖ pick)
          | Err Panic => (Err Panic, from)
          | Err _ => takeCPUs from cnt prio
          end
        else (Ok cpus, free)
    end.

(** The CPUs collected so far and whether there has been an error. *)
Definition slice_step (p : policy) (n : Pool) (st : CPUSet * bool) (m : Pool) : CPUSet * bool :=
  if IsSameNode m n && negb (IsLeafNode m) then st
  else
    let cpus := su_sharable (FreeSupply p (NodeID m)) in
    let free := Z.quot (AllocatableSharedCPU p m) 1000 in
    match (takeCPUs cpus free PriorityNone).1 with
    | Ok cset => (st.1 ∪ cset, st.2)
    | Err _ => (st.1, true)
    end.

Definition SliceableCPUs (p : policy) (n : Pool) : res CPUSet :=
  let '(sliceable, failed) := fold_left (slice_step p n) (DepthFirst n) (∅, false) in
  if failed then Err ErrOther else Ok sliceable.

(** CPUs taken as the request asks for them. *)
Definition take_for (r : request) (from : CPUSet) (cnt : Z) : res CPUSet * CPUSet :=
  if rq_pickByHints r then takeCPUsByHints from (tc_TopologyHints (rq_container r)) cnt (rq_prio r)
  else takeCPUs from cnt (rq_prio r).

Definition pickExclusiveCPUs (n : Pool) (r : request) (cnt : Z) (dryRun : bool) (p : policy)
    : policy * res CPUSet :=
  let cs := FreeSupply p (NodeID n) in
  if rq_isolate r && bool_decide (cnt ≤ csize (su_isolated cs)) then
    let '(pick, rest) := take_for r (su_isolated cs) cnt in
    (if dryRun then p else set_supply (NodeID n) (set_cpus rest (su_sharable cs) cs) p, pick)
  else if bool_decide (1000 * cnt ≤ AllocatableSharedCPU p n) then
    match SliceableCPUs p n with
    | Err e => (p, Err e)
    | Ok slice =>
        match (take_for r slice cnt).1 with
        | Err e => (p, Err e)
        | Ok pick =>
            (if dryRun then p
             else set_supply (NodeID n) (set_cpus (su_isolated cs) (su_sharable cs ∖ pick) cs) p, Ok pick)
        end
    end
  else (p, Err ErrOther).

Definition GetCPUOffer (n : Pool) (r : request) (p : policy) : res CPUSet :=
  (pickExclusiveCPUs n r (rq_full r) true p).2.

Definition pickSharedFraction (n : Pool) (fraction : Z) (t : cpuType) (p : policy) : policy * res Z :=
  let cs := FreeSupply p (NodeID n) in
  if bool_decide (fraction < 0) then (p, Ok 0)
  else if bool_decide (fraction > 0) then
    match t with
    | cpuNormal =>
        if bool_decide (AllocatableSharedCPU p n < fraction) then (p, Err ErrOther)
        else (set_supply (NodeID n) (add_granted 0 fraction cs) p, Ok fraction)
    | cpuReserved =>
        if bool_decide (AllocatableReservedCPU p n < fraction) then (p, Err ErrOther)
        else (set_supply (NodeID n) (add_granted fraction 0 cs) p, Ok fraction)
    | cpuPreserve => (p, Ok fraction)
    end
  else (p, Ok fraction).

(** ** Allocating CPUs *)

(** Full CPUs, fraction and type to allocate: reserved CPUs are not exclusive,
    and a request there is no reserved capacity for gets normal CPUs. *)
Definition cpu_amounts (p : policy) (n : Pool) (r : request) : Z * Z * cpuType :=
  let '(full, fraction) :=
    if bool_decide (rq_cpuType r = cpuReserved ∧ rq_full r > 0) then (0, rq_fraction r + rq_full r * 1000)
    else (rq_full r, rq_fraction r) in
  (full, fraction,
   if bool_decide (rq_cpuType r = cpuReserved ∧ fraction > 0 ∧ AllocatableReservedCPU p n < fraction) then cpuNormal
   else rq_cpuType r).

Definition AllocateCPU (n : Pool) (r : request) (p : policy) : policy * res grant :=
  let '(full, fraction, cpuType) := cpu_amounts p n r in
  match pickExclusiveCPUs n r full false p with
  | (p, Err e) => (p, Err e)
  | (p, Ok exclusive) =>
      let g := newGrant (NodeID n) (tc_ID (rq_container r)) cpuType (rq_cpuClass r) exclusive 0 0 (rq_irqs r) 0 in
      let p := AccountAllocateCPU g p in
      if bool_decide (fraction > 0) then
        match pickSharedFraction n fraction cpuType p with
        | (p, Err e) => (ReleaseCPU g p, Err e)
        | (p, Ok _) => (p, Ok (set_cpuPortion fraction g))
        end
      else (p, Ok g)
  end.

(** ** Strict preferences *)

(** The alignment of CPUs and memory with a hint. *)
Definition CPUSetForCPUs (h : Hint) : CPUSet := default ∅ (te_Parse E (hint_CPUs h)).

(** The result of [Set], which does not change its receiver, is dropped. *)
Definition MemsForCPUs (h : Hint) : Z :=
  fold_left (λ mems id,
      if bool_decide (ts_NodeCPUSet (te_System E) id ∩ CPUSetForCPUs h ≠ ∅) then
        let _ := NodeMask_Set mems [id] in mems
      else mems) (ts_NodeIDs (te_System E)) (NewNodeMask []).

Fixpoint nodes_cpus (ids : list Z) : res CPUSet :=
  match ids with
  | [] => Ok ∅
  | id :: ids' =>
      if bool_decide (id ∈ ts_NodeIDs (te_System E)) then
        let! cset := nodes_cpus ids' in Ok (ts_NodeCPUSet (te_System E) id ∪ cset)
      else Err Panic
  end.

Definition CPUSetForNUMAs (h : Hint) : res CPUSet :=
  nodes_cpus (CPUSet_List (default ∅ (te_Parse E (hint_NUMAs h)))).

Definition MemsForNUMAs (h : Hint) : Z := match ParseNodeMask (hint_NUMAs h) with Ok m => m | Err _ => 0 end.

Definition MisalignedCPUSet (h : Hint) (cpus : CPUSet) : res CPUSet :=
  let misaligned := if bool_decide (CPUSetForCPUs h ≠ ∅) then cpus ∖ CPUSetForCPUs h else ∅ in
  let! aligned := CPUSetForNUMAs h in
  Ok (if bool_decide (aligned ≠ ∅) then misaligned ∪ cpus ∖ aligned else misaligned).

Definition MisalignedMems (h : Hint) (mems : Z) : Z :=
  let misaligned := if bool_decide (NodeMask_Size (MemsForCPUs h) > 0) then mems &^ MemsForCPUs h else 0 in
  if bool_decide (NodeMask_Size (MemsForNUMAs h) > 0) then misaligned ||| (mems &^ MemsForNUMAs h) else misaligned.

(** CPUs of a grant fail if there are some that are not aligned. *)
Definition check_cpus (granted : bool) (h : Hint) (cpus : CPUSet) : res unit :=
  if granted then
    let! misaligned := MisalignedCPUSet h cpus in
    if bool_decide (csize misaligned > 0) then Err ErrOther else Ok tt
  else Ok tt.

Definition check_hint (p : policy) (g : grant) (h : Hint) : res unit :=
  let! _ := check_cpus (bool_decide (SharedPortion g > 0)) h (SharedCPUs p g) in
  let! _ := check_cpus (bool_decide (ReservedPortion g > 0)) h (ReservedCPUs p g) in
  let! _ := check_cpus (bool_decide (csize (g_exclusive g) > 0)) h (g_exclusive g) in
  if bool_decide (NodeMask_Size (MisalignedMems h (g_memZone g)) > 0) then Err ErrOther else Ok tt.

Fixpoint check_hints (p : policy) (g : grant) (hints : list (string * Hint)) : res unit :=
  match hints with
  | [] => Ok tt
  | h :: hints' => let! _ := check_hint p g h.2 in check_hints p g hints'
  end.

Definition verifyStrictTopologyHints (p : policy) (r : request) (g : grant) : res unit :=
  if negb (StrictTopologyHints cch (rq_container r)) then Ok tt
  else check_hints p g (map_range (tc_TopologyHints (rq_container r))).

Definition verifyStrictCPUPreferences (p : policy) (r : request) (g : grant) : res unit :=
  if bool_decide (rq_full r < 1) || negb (rq_isolate r) then Ok tt
  else if negb (strictIsolatedCPUsPreference cch (rq_container r)) then Ok tt
  else if bool_decide (csize (IsolatedCPUs p g) < rq_full r) then Err ErrOther
  else Ok tt.

Definition verifyStrictPreferences (p : policy) (r : request) (g : grant) : res unit :=
  let! _ := verifyStrictTopologyHints p r g in
  verifyStrictCPUPreferences p r g.

(** ** Memory *)

(** [GetMemset]: the same for every kind of pool. *)
Definition GetMemset (n : Pool) (mtype : Z) : gset Z :=
  (if bool_decide (mtype &&& memoryDRAM ≠ 0) then nd_mem (pool_node n) else ∅) ∪
  (if bool_decide (mtype &&& memoryHBM ≠ 0) then nd_hbm (pool_node n) else ∅) ∪
  (if bool_decide (mtype &&& memoryPMEM ≠ 0) then nd_pMem (pool_node n) else ∅).

Definition GetMemoryType (n : Pool) : Z :=
  (if bool_decide (nd_pMem (pool_node n) ≠ ∅) then memoryPMEM else 0) |||
  (if bool_decide (nd_mem (pool_node n) ≠ ∅) then memoryDRAM else 0) |||
  (if bool_decide (nd_hbm (pool_node n) ≠ ∅) then memoryHBM else 0).

Definition HasMemoryType (n : Pool) (reqType : Z) : bool := bool_decide (GetMemoryType n &&& reqType = reqType).

Definition pool_mask (n : Pool) (mtype : Z) : Z := NewNodeMask (elements (GetMemset n mtype)).

Definition memZoneType (p : policy) (zone : Z) : Z := ZoneType (ta_memAllocator p) zone.
Definition poolZoneCapacity (p : policy) (n : Pool) (memType : Z) : Z :=
  ZoneCapacity (ta_memAllocator p) (pool_mask n memType).
Definition poolZoneFree (p : policy) (n : Pool) (memType : Z) : Z :=
  ZoneFree (ta_memAllocator p) (pool_mask n memType).

Definition ctr_PrettyName (c : TCtr) : string :=
  append
    match tch_pods cch !! c_podID (tc_container c) with
    | Some pod => pod_PrettyName pod
    | None => append "<unknown-pod " (append (c_podID (tc_container c)) ">")
    end (append "/" (c_name (tc_container c))).

(** An offer for a container, by a new request. *)
Definition offer_for (c : TCtr) (amount zone mtyp : Z) (p : policy) : policy * res Offer :=
  let a := ta_memAllocator p in
  let ptr := fresh (dom (a_heap a)) in
  let req := ContainerWithTypes (te_now E ptr) (tc_ID c) (ctr_PrettyName c) (qos cch c) amount zone mtyp in
  let '(a, o) := GetOffer no_custom ptr (MemZones.with_heap (<[ptr := req]> (a_heap a)) a) in
  (with_memory a p, o).

Definition getMemOffer (pool : Pool) (r : request) (p : policy) : policy * res Offer :=
  let memType := rq_memType r in
  let '(zone, mtyp) :=
    if bool_decide (memType = memoryPreserve) then
      (pool_mask pool memoryAll, memZoneType p (pool_mask pool memoryAll))
    else (pool_mask pool memType, memType) in
  offer_for (rq_container r) (MemAmountToAllocate r) zone mtyp p.

(** The nodes of the hints from the pod resource API. *)
Fixpoint hinted_zone (from : Z) (hints : list (string * Hint)) (zone : Z) : res Z :=
  match hints with
  | [] => Ok zone
  | (provider, h) :: hints' =>
      if negb (IsPodResourceHint provider) then hinted_zone from hints' zone
      else
        let! m := ParseNodeMask (hint_NUMAs h) in
        if negb (NodeMask_Contains (from &&& m) (NodeMask_Slice m)) then Err ErrOther
        else hinted_zone from hints' (NodeMask_Set zone (NodeMask_Slice m))
  end.

Definition getMemOfferByHints (pool : Pool) (r : request) (p : policy) : policy * res Offer :=
  let memType := rq_memType r in
  if bool_decide (memType = memoryPreserve) then (p, Err ErrOther)
  else
    match hinted_zone (pool_mask pool memType) (map_range (tc_TopologyHints (rq_container r))) 0 with
    | Err e => (p, Err e)
    | Ok zone =>
        if bool_decide (zone = 0) then (p, Err ErrOther)
        else if bool_decide (memZoneType p zone ≠ memType) then (p, Err ErrOther)
        else offer_for (rq_container r) (MemAmountToAllocate r) zone memType p
    end.

(** [restoreMemOffer]: a container with memory gives it up first. *)
Definition restoreMemOffer (g : grant) (p : policy) : policy * res Offer :=
  let zone := g_memZone g in
  let mtyp := memZoneType p zone in
  let id := g_container g in
  let '(p, err) :=
    if (AssignedZone (ta_memAllocator p) id).2 then
      let '(a, err) := Release id (ta_memAllocator p) in (with_memory a p, err)
    else (p, None) in
  match err with
  | Some e => (p, Err e)
  | None => offer_for (ctr_of g) (g_memSize g) zone mtyp p
  end.

Definition releaseMem (id : string) (p : policy) : policy * option error :=
  let '(a, err) := Release id (ta_memAllocator p) in (with_memory a p, err).

Definition Commit_offer (o : Offer) (p : policy) : policy * res (Z * gmap string Z) :=
  let '(a, r) := Commit o (ta_memAllocator p) in (with_memory a p, r).

(** ** Allocating and reserving *)

(** [Release] of a grant.  Stopping the timer of a grant that is dropped
    leaves nothing behind. *)
Definition grant_Release (g : grant) (p : policy) : policy :=
  (releaseMem (g_container g) (ReleaseCPU g p)).1.

Definition Allocate (n : Pool) (r : request) (o : option Offer) (p : policy)
    : policy * res (grant * gmap string Z) :=
  match o with
  | None => (p, Err ErrOther)
  | Some o =>
      match AllocateCPU n r p with
      | (p, Err e) => (p, Err e)
      | (p, Ok g) =>
          match verifyStrictPreferences p r g with
          | Err e => (ReleaseCPU g p, Err e)
          | Ok _ =>
              match Commit_offer o p with
              | (p, Err e) => (ReleaseCPU g p, Err e)
              | (p, Ok (zone, updates)) =>
                  (p, Ok (set_coldStart (rq_coldStart r)
                            (set_memZone zone (set_memType (rq_memType r) (set_memSize (MemAmountToAllocate r) g))),
                          updates))
              end
          end
      end
  end.

(** The grants of [Reserve] are taken with their exclusive CPUs as they are. *)
Definition reserve_cpus (n : Pool) (g : grant) (p : policy) : policy * res unit :=
  let cs := FreeSupply p (NodeID n) in
  match g_cpuType g with
  | cpuNormal =>
      let isolated := IsolatedCPUs p g in
      let exclusive := g_exclusive g ∖ isolated in
      let sharedPortion := SharedPortion g in
      if bool_decide (su_isolated cs ∩ isolated ≠ isolated) then (p, Err ErrOther)
      else if bool_decide (su_sharable cs ∩ exclusive ≠ exclusive) then (p, Err ErrOther)
      else if bool_decide (AllocatableSharedCPU p n < 1000 * csize exclusive + sharedPortion) then (p, Err ErrOther)
      else
        (set_supply (NodeID n)
           (add_granted 0 sharedPortion (set_cpus (su_isolated cs ∖ isolated) (su_sharable cs ∖ exclusive) cs)) p,
         Ok tt)
  | cpuReserved =>
      let sharedPortion := 1000 * csize (g_exclusive g) + SharedPortion g in
      if bool_decide (sharedPortion > 0 ∧ AllocatableReservedCPU p n < sharedPortion) then (p, Err ErrOther)
      else (set_supply (NodeID n) (add_granted sharedPortion 0 cs) p, Ok tt)
  | cpuPreserve => (p, Ok tt)
  end.

Definition Reserve (n : Pool) (g : grant) (o : Offer) (p : policy) : policy * res (grant * gmap string Z) :=
  match reserve_cpus n g p with
  | (p, Err e) => (p, Err e)
  | (p, Ok _) =>
      let p := AccountAllocateCPU g p in
      match Commit_offer o p with
      | (p, Err e) => (grant_Release g p, Err e)
      | (p, Ok (zone, updates)) => (p, Ok (set_memZone zone g, updates))
      end
  end.
End supply.
