(* ===== verification/TaScore.v ===== *)
(** * Scoring of pools in the topology-aware policy
    (cmd/plugins/topology-aware/policy/hint.go, node.go, resources.go,
    pools.go, pkg/topology/topology.go, pkg/sysfs/system.go)

    How well pools match the topology hints of a container, what is left of
    them for a request, and the order in which they are tried.  Scores are
    IEEE 754 numbers of 64 bits. *)

From Stdlib Require Import Ascii SpecFloat.
From S2P Require Import Prelude GoStrings Expr MemTypes MemNodes MemRequest MemZones MemAllocator CpuTree CpuAlloc CpuTopo BlnTypes BlnPin TaTypes TaPrefs TaSupply.

Open Scope string_scope.
Open Scope Z_scope.

(** ** Numbers *)

Abbreviation float64 := spec_float.

Definition f_of (z : Z) : float64 := binary_normalize 53 1024 z 0 false.
Definition f_add : float64 → float64 → float64 := SFadd 53 1024.
Definition f_mul : float64 → float64 → float64 := SFmul 53 1024.
Definition f_div : float64 → float64 → float64 := SFdiv 53 1024.
Definition f_gt (x y : float64) : bool := SFltb y x.
Definition f_eq : float64 → float64 → bool := SFeqb.

(** 0.9, its square as a constant, and 0.75. *)
Definition OverfitPenalty : float64 := f_div (f_of 9) (f_of 10).
Definition OverfitPenalty2 : float64 := f_div (f_of 81) (f_of 100).
Definition Q_ : float64 := f_div (f_of 3) (f_of 4).

(** [math.Pow] of [Q_] and the difference of two depths, exact for the first
    33 powers. *)
Definition pow_Q (k : Z) : float64 := Nat.iter (Z.to_nat k) (f_mul Q_) (f_of 1).

(** ** [strconv.ParseInt] with base 0 *)

Definition digit_of (c : ascii) : option Z :=
  let n := Z.of_nat (nat_of_ascii (lower_char c)) in
  if bool_decide (48 ≤ n ≤ 57) then Some (n - 48)
  else if bool_decide (97 ≤ n ≤ 122) then Some (n - 87)
  else None.

Definition c_under : ascii := "_"%char.

(** Digits in a base, underscores skipped. *)
Fixpoint parse_base (base : Z) (s : string) (n : Z) : option Z :=
  match s with
  | EmptyString => Some n
  | String c s' =>
      if bool_decide (c = c_under) then parse_base base s' n
      else
        match digit_of c with
        | Some d => if bool_decide (d < base) then parse_base base s' (base * n + d) else None
        | None => None
        end
  end.

(** The base and the digits after the prefix. *)
Definition base_prefix (s : string) : Z * string :=
  match s with
  | String z (String c (String d r)) =>
      if bool_decide (z = "0"%char) then
        if bool_decide (lower_char c = "b"%char) then (2, String d r)
        else if bool_decide (lower_char c = "o"%char) then (8, String d r)
        else if bool_decide (lower_char c = "x"%char) then (16, String d r)
        else (8, String c (String d r))
      else (10, s)
  | String z r => if bool_decide (z = "0"%char) then (8, r) else (10, s)
  | EmptyString => (10, s)
  end.

Inductive seen := SeenStart | SeenDigit | SeenUnder | SeenOther.

(** Underscores are between digits, or between a base prefix and a digit. *)
Fixpoint underscore_loop (hex : bool) (s : string) (saw : seen) : bool :=
  match s with
  | EmptyString => match saw with SeenUnder => false | _ => true end
  | String c s' =>
      let digit :=
        match digit_of c with
        | Some d => bool_decide (d < 10) || (hex && bool_decide (d < 16))
        | None => false
        end in
      if digit then underscore_loop hex s' SeenDigit
      else if bool_decide (c = c_under) then
        match saw with SeenDigit => underscore_loop hex s' SeenUnder | _ => false end
      else match saw with SeenUnder => false | _ => underscore_loop hex s' SeenOther end
  end.

Definition underscoreOK (s : string) : bool :=
  match s with
  | String z (String c r) =>
      if bool_decide (z = "0"%char) && bool_decide (lower_char c ∈ ["b"; "o"; "x"]%char) then
        underscore_loop (bool_decide (lower_char c = "x"%char)) r SeenDigit
      else underscore_loop false s SeenStart
  | _ => underscore_loop false s SeenStart
  end.

Definition parse_uint0 (s : string) : option Z :=
  match s with
  | EmptyString => None
  | _ =>
      let '(base, digits) := base_prefix s in
      if in_string c_under s && negb (underscoreOK s) then None else parse_base base digits 0
  end.

(** [strconv.ParseInt] with base and bit size 0. *)
Definition ParseInt0 (s : string) : option Z :=
  let v :=
    match s with
    | String "-" s' => Z.opp <$> parse_uint0 s'
    | String "+" s' => parse_uint0 s'
    | _ => parse_uint0 s
    end in
  match v with
  | Some n => if bool_decide (- 2 ^ 63 ≤ n < 2 ^ 63) then Some n else None
  | None => None
  end.

(** ** Hints *)

(** Whether one of the IDs in a list is wanted; an ID that cannot be parsed
    ends the search. *)
Fixpoint hint_ids (ids : list string) (wanted : Z → bool) : float64 :=
  match ids with
  | [] => f_of 0
  | idstr :: ids' =>
      match ParseInt0 idstr with
      | None => f_of 0
      | Some id => if wanted id then f_of 1 else hint_ids ids' wanted
      end
  end.

Definition numaHintScore (h : Hint) (sysIDs : list Z) : float64 :=
  hint_ids (split_on ","%char (hint_NUMAs h)) (λ id, bool_decide (id ∈ sysIDs)).

Definition socketHintScore (h : Hint) (sysID : Z) : float64 :=
  hint_ids (split_on ","%char (hint_Sockets h)) (λ id, bool_decide (id = sysID)).

Section score.
Context `{GoRuntime} (E : TEnv) (cch : TCache).

Abbreviation sys := (te_Sys E).
Abbreviation tsys := (te_System E).

Definition cpuHintScore (h : Hint) (CPUs : CPUSet) : float64 :=
  match te_Parse E (hint_CPUs h) with
  | None => f_of 0
  | Some hCPUs => f_div (f_of (csize (hCPUs ∩ CPUs))) (f_of (csize hCPUs))
  end.

Definition dieHintScore (h : Hint) (sysID pkg : Z) : float64 :=
  numaHintScore h (sy_DieNodeIDs sys pkg sysID).

(** [NodeHintToCPUs] of the system. *)
Definition NodeHintToCPUs (nodes : string) : string :=
  match te_Parse E nodes with
  | None => ""
  | Some mset =>
      te_String E (⋃ (ts_NodeCPUSet tsys <$> filter (λ id, id ∈ ts_NodeIDs tsys) (CPUSet_List mset)) ∩ sy_OnlineCPUs sys)
  end.

Definition resolve_hint (h : Hint) : Hint :=
  if bool_decide (hint_CPUs h = "" ∧ hint_NUMAs h ≠ "") then
    MkHint (hint_Provider h) (NodeHintToCPUs (hint_NUMAs h)) (hint_NUMAs h) (hint_Sockets h) (hint_IRQs h)
  else h.

Definition ResolvePartialHints (hints : gmap string Hint) : gmap string Hint := resolve_hint <$> hints.

(** The request of a container whose hints have been resolved.  They stay
    with the container, where resolving them again changes nothing. *)
Definition resolve_request (r : request) : request :=
  let c := rq_container r in
  MkReq (MkTCtr (tc_container c) (tc_Requirements c) (tc_ResourceUpdates c) (ResolvePartialHints (tc_TopologyHints c)))
    (rq_full r) (rq_fraction r) (rq_limit r) (rq_isolate r) (rq_cpuType r) (rq_cpuClass r) (rq_prio r)
    (rq_memReq r) (rq_memLim r) (rq_memType r) (rq_pickByHints r) (rq_irqs r) (rq_coldStart r).

Definition Parent (p : policy) (n : Pool) : option Pool := head (Parents p (NodeID n)).

(** [GetPhysicalNodeIDs], down to a depth of calls; [None] is for a depth
    that is not enough. *)
Fixpoint GetPhysicalNodeIDs (depth : nat) (p : policy) (n : Pool) : option (list Z) :=
  match depth with
  | O => None
  | S depth' =>
      let below := (λ ids, concat ids) <$> mapM (GetPhysicalNodeIDs depth' p) (pool_children n) in
      let id := nd_sysid (pool_node n) in
      match nd_kind (pool_node n) with
      | NumaNode => Some [id]
      | SocketNode | DieNode => cons id <$> below
      | L3CacheNode =>
          match below with
          | Some [] =>
              match Parent p n with
              | Some parent => GetPhysicalNodeIDs depth' p parent
              | None => Some []
              end
          | below => below
          end
      | _ => below
      end
  end.

(** Calls go up at most once and then down the tree, unless they never end:
    the stack overflow this leads to ends the program. *)
Definition physical_ids (p : policy) (n : Pool) : res (list Z) :=
  match GetPhysicalNodeIDs (2 + length (ta_pools p)) p n with
  | Some ids => Ok ids
  | None => Err Panic
  end.

(** The score of a hint, by the CPUs, NUMA nodes or sockets it names, in this
    order of preference. *)
Definition by_hint {A} (h : Hint) (byCPUs byNUMAs bySockets none : A) : A :=
  if bool_decide (hint_CPUs h ≠ "") then byCPUs
  else if bool_decide (hint_NUMAs h ≠ "") then byNUMAs
  else if bool_decide (hint_Sockets h ≠ "") then bySockets
  else none.

(** A score is divided by the number of nodes if it is positive. *)
Definition underfit (score : float64) (nodes : list Z) : float64 :=
  if f_gt score (f_of 0) then f_div score (f_of (Z.of_nat (length nodes))) else score.

Definition numanode_HintScore (id : Z) (h : Hint) : float64 :=
  let pkg := sy_NodePackageID sys id in
  by_hint h (cpuHintScore h (ts_NodeCPUSet tsys id)) (numaHintScore h [id])
    (underfit (socketHintScore h pkg) (sy_PkgNodeIDs sys pkg)) (f_of 0).

Definition socketnode_HintScore (id : Z) (h : Hint) : float64 :=
  by_hint h (cpuHintScore h (ts_PackageCPUSet tsys id)) (f_mul OverfitPenalty (numaHintScore h (sy_PkgNodeIDs sys id)))
    (socketHintScore h id) (f_of 0).

Definition dienode_HintScore (id pkg : Z) (h : Hint) : float64 :=
  by_hint h (cpuHintScore h (ts_PackageCPUSet tsys pkg)) (f_mul OverfitPenalty (dieHintScore h id pkg))
    (underfit (socketHintScore h pkg) (sy_DieNodeIDs sys pkg id)) (f_of 0).

(** [up] is the score of the hint for the parent. *)
Definition l3cachenode_HintScore (p : policy) (up : option (res float64)) (n : Pool) (h : Hint) : res float64 :=
  by_hint h (Ok (cpuHintScore h (nd_cpus (pool_node n))))
    (let! ids := physical_ids p n in
     Ok (if bool_decide (ids = []) then f_of 0 else f_mul OverfitPenalty (numaHintScore h ids)))
    (match up with
     | Some up => let! score := up in Ok (f_mul OverfitPenalty score)
     | None => Ok (f_of 0)
     end) (Ok (f_of 0)).

Definition virtualnode_HintScore (h : Hint) : float64 :=
  by_hint h (cpuHintScore h (sy_CPUSet sys)) OverfitPenalty2 OverfitPenalty (f_of 0).

Definition hint_score (p : policy) (up : option (res float64)) (n : Pool) (h : Hint) : res float64 :=
  let nd := pool_node n in
  match nd_kind nd with
  | NumaNode => Ok (numanode_HintScore (nd_sysid nd) h)
  | SocketNode => Ok (socketnode_HintScore (nd_sysid nd) h)
  | DieNode => Ok (dienode_HintScore (nd_sysid nd) (nd_pkg nd) h)
  | L3CacheNode => l3cachenode_HintScore p up n h
  | VirtualNode => Ok (virtualnode_HintScore h)
  | _ => Ok (f_of 0)
  end.

Fixpoint hint_score_up (p : policy) (above : list Pool) (n : Pool) (h : Hint) : res float64 :=
  match above with
  | [] => hint_score p None n h
  | parent :: above' => hint_score p (Some (hint_score_up p above' parent h)) n h
  end.

Definition HintScore (p : policy) (n : Pool) (h : Hint) : res float64 :=
  hint_score_up p (Parents p (NodeID n)) n h.

(** The scores of all hints, in the order of a map. *)
Fixpoint hint_scores (p : policy) (n : Pool) (hints : list (string * Hint)) : res (list float64) :=
  match hints with
  | [] => Ok []
  | (_, h) :: hints' =>
      let! score := HintScore p n h in
      let! scores := hint_scores p n hints' in
      Ok (score :: scores)
  end.

(** Combined scores, with and without those that are zero. *)
Definition combineHintScores (scores : list float64) : float64 * float64 :=
  match scores with
  | [] => (f_of 0, f_of 0)
  | _ =>
      fold_left (λ acc score,
          let '(combined, filtered) := acc in
          (f_mul combined score,
           if f_eq score (f_of 0) then filtered
           else if f_eq filtered (f_of 0) then score else f_mul filtered score)) scores (f_of 1, f_of 0)
  end.

(** ** Scores *)

Record score := MkScore {
  sc_mem : option Offer;
  sc_cpu : CPUSet;
  sc_isolated : Z;
  sc_reserved : Z;
  sc_shared : Z;
  sc_prio : CPUPriority → Z;
  sc_colocated : Z;
  sc_hints : list float64;
  sc_ccHints : option (list CpuPreference);
}.

(** The CPUs of a kind of core, or of a priority if there are no such cores. *)
Definition kind_cpus (kind : Z) (prio : CPUPriority) : CPUSet :=
  let cpus := ts_CoreKindCPUs tsys kind in
  if bool_decide (csize cpus = 0) then GetCPUPriorities (te_cpuAllocator E).2 prio else cpus.

Definition prio_capacity (p : policy) (n : Pool) (r : request) (part : Z) (prio : CPUPriority) : Z :=
  let sharable := su_sharable (FreeSupply p (NodeID n)) in
  let capacity cpus := csize (cpus ∩ sharable) * 1000 - (1000 * rq_full r + part) in
  match prio with
  | PriorityLow => capacity (kind_cpus EfficientCore PriorityLow)
  | PriorityHigh => capacity (kind_cpus PerformanceCore PriorityHigh)
  | PriorityNormal => capacity (GetCPUPriorities (te_cpuAllocator E).2 PriorityNormal)
  | PriorityNone => 0
  end.

Definition colocated (p : policy) (n : Pool) (r : request) : Z :=
  Z.of_nat (length (filter (λ ig, rq_cpuType r = g_cpuType ig.2 ∧ g_node ig.2 = NodeID n) (map_range (ta_grants p)))).

(** The offer of memory a pool makes. *)
Definition score_offer (n : Pool) (r : request) (p : policy) : policy * option Offer :=
  let node := if bool_decide (rq_memType r = memoryPreserve) then ta_root p else n in
  let '(p, o) :=
    if rq_pickByHints r then
      match getMemOfferByHints E cch node r p with
      | (p, Err _) => getMemOffer E cch node r p
      | po => po
      end
    else getMemOffer E cch node r p in
  (p, match o with Ok o => Some o | Err _ => None end).

(** [GetScore], for a request whose hints have been resolved. *)
Definition GetScore (n : Pool) (r : request) (p : policy) : policy * res score :=
  let full := rq_full r in
  let part := if bool_decide (full = 0 ∧ rq_fraction r = 0) then 1 else rq_fraction r in
  let reserved := AllocatableReservedCPU p n in
  let shared := AllocatableSharedCPU cch p n in
  let isReserved := bool_decide (rq_cpuType r = cpuReserved) in
  let isolated :=
    if negb isReserved && rq_isolate r then csize (su_isolated (FreeSupply p (NodeID n))) - full else 0 in
  let '(cpu, ccHints) :=
    if negb isReserved && bool_decide (full > 0 ∧ rq_cpuClass r ≠ "") && ta_classes p then
      match GetCPUOffer E cch n r p with
      | Err _ => (∅, None)
      | Ok cpus => (cpus, Some (te_Hints E (ta_uses p) (MkIntent (rq_cpuClass r) ∅ cpus full)))
      end
    else (∅, None) in
  match hint_scores p n (map_range (tc_TopologyHints (rq_container r))) with
  | Err e => (p, Err e)
  | Ok hints =>
      let '(p', o) := score_offer n r p in
      (p', Ok (MkScore o cpu isolated
                 (if isReserved then reserved - part else reserved)
                 (if isReserved then shared
                  else (if negb (rq_isolate r) || bool_decide (isolated < 0) then shared - 1000 * full else shared) - part)
                 (if isReserved then λ _, 0 else prio_capacity p n r part)
                 (colocated p n r) hints ccHints))
  end.

Fixpoint get_scores (pools : list Pool) (r : request) (p : policy) : policy * res (gmap Z score) :=
  match pools with
  | [] => (p, Ok ∅)
  | n :: pools' =>
      match GetScore n r p with
      | (p, Err e) => (p, Err e)
      | (p, Ok sc) =>
          match get_scores pools' r p with
          | (p, Err e) => (p, Err e)
          | (p, Ok scores) => (p, Ok (<[NodeID n := sc]> scores))
          end
      end
  end.

(** ** The order of pools *)

(** Affinities of the pools above, ever more diluted, and of those below. *)
Fixpoint affinity_above (affinities : gmap Z Z) (above : list Pool) (q sum : float64) : float64 :=
  match above with
  | [] => sum
  | n :: above' =>
      affinity_above affinities above' (f_mul q Q_)
        (f_add sum (f_mul q (f_of (default 0 (affinities !! NodeID n)))))
  end.

Definition affinityScore (p : policy) (affinities : gmap Z Z) (node : Pool) : float64 :=
  fold_left (λ sum n,
      f_add sum (f_mul (pow_Q (RootDistance n - RootDistance node)) (f_of (default 0 (affinities !! NodeID n)))))
    (BreadthFirst node) (affinity_above affinities (Parents p (NodeID node)) Q_ (f_of 0)).

(** A comparison that decides for the first or the second pool, or is a tie. *)
Definition wins (first second : bool) : option bool :=
  if first then Some true else if second then Some false else None.

Definition more (x y : Z) : option bool := wins (bool_decide (x > y)) (bool_decide (y > x)).

(** The first comparison that is not a tie decides. *)
Fixpoint first_decided (cs : list (option bool)) (otherwise : bool) : bool :=
  match cs with
  | [] => otherwise
  | Some b :: _ => b
  | None :: cs' => first_decided cs' otherwise
  end.

(** Hinted CPUs that an offer is within. *)
Fixpoint hinted_cpus (offer : CPUSet) (prefer : list CpuPreference) : CPUSet :=
  match prefer with
  | [] => ∅
  | h :: prefer' =>
      let hinted := default ∅ (snd <$> list_find (λ hinted, offer ∩ hinted = offer) (pref_Cpus h)) in
      if bool_decide (csize hinted > 0) then hinted else hinted_cpus offer prefer'
  end.

Section compare.
Context (p : policy) (r : request) (scores : gmap Z score) (affinity : gmap Z Z) (node1 node2 : Pool).

Definition no_score : score := MkScore None ∅ 0 0 0 (λ _, 0) 0 [] None.
Definition score1 : score := default no_score (scores !! NodeID node1).
Definition score2 : score := default no_score (scores !! NodeID node2).

Abbreviation id_order := (bool_decide (NodeID node1 < NodeID node2)).

Definition cmp_capacity : option bool :=
  match rq_cpuType r with
  | cpuNormal =>
      wins (bool_decide ((sc_isolated score2 < 0 ∧ 0 ≤ sc_isolated score1) ∨ (sc_shared score2 < 0 ∧ 0 ≤ sc_shared score1)))
           (bool_decide ((sc_isolated score1 < 0 ∧ 0 ≤ sc_isolated score2) ∨ (sc_shared score1 < 0 ∧ 0 ≤ sc_shared score2)))
  | cpuReserved =>
      wins (bool_decide (sc_reserved score2 < 0 ∧ 0 ≤ sc_reserved score1))
           (bool_decide (sc_reserved score1 < 0 ∧ 0 ≤ sc_reserved score2))
  | cpuPreserve => None
  end.

Definition cmp_affinity : option bool :=
  let a1 := affinityScore p affinity node1 in
  let a2 := affinityScore p affinity node2 in
  wins (f_gt a1 a2) (f_gt a2 a1).

Definition cmp_depth : option bool := more (RootDistance node1) (RootDistance node2).

Definition cmp_hints : option bool :=
  match sc_hints score1 with
  | [] => None
  | _ =>
      let '(hs1, nz1) := combineHintScores (sc_hints score1) in
      let '(hs2, nz2) := combineHintScores (sc_hints score2) in
      match wins (f_gt hs1 hs2) (f_gt hs2 hs1) with
      | Some b => Some b
      | None =>
          match (if f_eq hs1 (f_of 0) then wins (f_gt nz1 nz2) (f_gt nz2 nz1) else None) with
          | Some b => Some b
          | None =>
              if f_eq hs1 hs2 && f_eq nz1 nz2 && (negb (f_eq hs1 (f_of 0)) || negb (f_eq nz1 (f_of 0))) then
                Some (first_decided [cmp_depth] id_order)
              else None
          end
      end
  end.

Definition offer_mask (o : Offer) : Z := Offer_NodeMask o (ta_memAllocator p).

Definition cmp_offers : option bool :=
  match sc_mem score1, sc_mem score2 with
  | Some _, None => Some true
  | None, Some _ => Some false
  | None, None => None
  | Some o1, Some o2 =>
      let memType := rq_memType r in
      let ok1 := bool_decide (memZoneType p (offer_mask o1) = memType) in
      let ok2 := bool_decide (memZoneType p (offer_mask o2) = memType) in
      match wins (ok1 && negb ok2) (negb ok1 && ok2) with
      | Some b => Some b
      | None =>
          let lim := rq_memLim r in
          if bool_decide (MemAmountToAllocate r ≠ lim) then
            let capa1 := poolZoneCapacity p node1 memType in
            let capa2 := poolZoneCapacity p node2 memType in
            wins (bool_decide ((lim ≠ 0 ∧ lim ≤ capa1 ∧ capa2 < lim) ∨ (lim = 0 ∧ capa1 > capa2)))
                 (bool_decide ((lim ≠ 0 ∧ capa1 < lim ∧ lim ≤ capa2) ∨ (lim = 0 ∧ capa2 > capa1)))
          else None
      end
  end.

Definition cmp_burst : option bool :=
  if negb (bool_decide (qos cch (rq_container r) = "Burstable")) then None
  else
    let limit := rq_limit r in
    let b1 := AllocatableSharedCPU cch p node1 in
    let b2 := AllocatableSharedCPU cch p node2 in
    if bool_decide (limit ≠ unlimitedCPU) then
      wins (bool_decide (0 ≤ b1 - limit ∧ b2 - limit < 0)) (bool_decide (0 ≤ b2 - limit ∧ b1 - limit < 0))
    else
      let level1 := TopologyLevel (nd_kind (pool_node node1)) in
      let level2 := TopologyLevel (nd_kind (pool_node node2)) in
      let target := unlimitedBurstablePreference cch p (rq_container r) in
      let is1 := bool_decide (level1 = target) in
      let is2 := bool_decide (level2 = target) in
      if is1 && negb is2 then Some true
      else if is2 && negb is1 then Some false
      else if is1 && is2 then Some (first_decided [more b1 b2] id_order)
      else if bool_decide (level_Value level1 > level_Value target ∧ level_Value level2 < level_Value target) then Some true
      else if bool_decide (level_Value level2 > level_Value target ∧ level_Value level1 < level_Value target) then Some true
      else Some id_order.

Definition cmp_tightness : option bool :=
  match sc_mem score1, sc_mem score2 with
  | Some o1, Some o2 => more (NodeMask_Size (offer_mask o2)) (NodeMask_Size (offer_mask o1))
  | _, _ => None
  end.

Definition cmp_memtype : option bool :=
  if bool_decide (rq_memType r = memoryUnspec ∨ rq_memType r = memoryPreserve) then None
  else
    let has1 := HasMemoryType node1 (rq_memType r) in
    let has2 := HasMemoryType node2 (rq_memType r) in
    wins (has1 && negb has2) (negb has1 && has2).

Definition cmp_classes : option bool :=
  match sc_ccHints score1, sc_ccHints score2 with
  | Some prefer1, Some prefer2 =>
      let h1 := bool_decide (csize (hinted_cpus (sc_cpu score1) prefer1) > 0) in
      let h2 := bool_decide (csize (hinted_cpus (sc_cpu score2) prefer2) > 0) in
      if bool_decide (csize (sc_cpu score1) > 0 ∧ csize (sc_cpu score2) > 0) then wins (h1 && negb h2) (h2 && negb h1)
      else None
  | _, _ => None
  end.

(** The only pool with the capacity of a priority wins. *)
Definition cmp_prio_capacity (prio : CPUPriority) : option bool :=
  let c1 := sc_prio score1 prio in
  let c2 := sc_prio score2 prio in
  if bool_decide (c1 = c2) then None
  else wins (bool_decide (0 ≤ c1 ∧ c2 < 0)) (bool_decide (c1 < 0 ∧ 0 ≤ c2)).

Definition cmp_prio_pref : option bool :=
  match rq_prio r with
  | PriorityLow => cmp_prio_capacity PriorityLow
  | PriorityHigh => cmp_prio_capacity PriorityHigh
  | _ => None
  end.

Definition cmp_kind : option bool :=
  match rq_cpuType r with
  | cpuReserved =>
      more (Z.quot (sc_reserved score1) (sc_colocated score1 + 1)) (Z.quot (sc_reserved score2) (sc_colocated score2 + 1))
  | cpuPreserve => None
  | cpuNormal =>
      if rq_isolate r && bool_decide (sc_isolated score1 > 0 ∨ sc_isolated score2 > 0) then
        Some (first_decided [more (sc_isolated score1) (sc_isolated score2)] id_order)
      else
        match (if bool_decide (rq_prio r = PriorityNormal) then cmp_prio_capacity PriorityNormal else None) with
        | Some b => Some b
        | None =>
            if bool_decide (rq_full r > 0 ∧ (sc_shared score1 > 0 ∨ sc_shared score2 > 0)) then
              Some (first_decided [more (sc_shared score1) (sc_shared score2)] id_order)
            else
              match more (sc_colocated score2) (sc_colocated score1) with
              | Some b => Some b
              | None => more (sc_shared score1) (sc_shared score2)
              end
        end
  end.

Definition compareScores : bool :=
  first_decided
    [cmp_capacity; cmp_affinity; cmp_hints; cmp_offers; cmp_burst; cmp_tightness; cmp_memtype; cmp_classes;
     cmp_prio_pref; cmp_depth; cmp_kind] id_order.
End compare.

Definition sortPoolsByScore (r : request) (aff : gmap Z Z) (p : policy)
    : policy * res (gmap Z score * list Pool) :=
  match get_scores (ta_pools p) r p with
  | (p, Err e) => (p, Err e)
  | (p, Ok scores) => (p, Ok (scores, sort_slice (compareScores p r scores aff) (ta_pools p)))
  end.
End score.
