(* ===== verification/TaPolicy.v ===== *)
(** * Operations of the topology-aware policy
    (cmd/plugins/topology-aware/policy/pools.go, topology-aware-policy.go,
    cache.go, coldstart.go, cpu-class.go, irq-affinity.go,
    pkg/resmgr/cache/container.go)

    Allocating, releasing and updating the resources of containers, pinning
    containers to what they have been granted, interrupts and cold start. *)

From Stdlib Require Import Ascii.
From S2P Require Import Prelude GoStrings Expr MemTypes MemNodes MemRequest MemZones MemAllocator Affinity CpuTree CpuAlloc CpuTopo Kube BlnTypes BlnPin BlnPolicy TaTypes TaPrefs TaSupply TaScore.

Open Scope string_scope.
Open Scope Z_scope.

(** ** Allocations *)

Definition count_irq (g : grant) (p : policy) : policy :=
  if bool_decide (g_irqs g ≠ None) then with_irqCnt (ta_irqCnt p + 1) p else p.

Definition addGrant (g : grant) (p : policy) : policy :=
  count_irq g (with_grants (<[g_container g := g]> (ta_grants p)) p).

Definition delGrant (id : string) (p : policy) : policy :=
  match ta_grants p !! id with
  | None => p
  | Some g => count_irq g (with_grants (delete id (ta_grants p)) p)
  end.

Definition clone_grants (grants : gmap string grant) : gmap string grant := grant_Clone <$> grants.

(** ** Setting up containers *)

Definition pinning_of (id : string) (p : policy) : Pinning := default no_pinning (ta_pins p !! id).

Definition set_cpuset (id : string) (cpus : CPUSet) (p : policy) : policy :=
  let pin := pinning_of id p in
  with_settings (<[id := MkPinning (Some cpus) (pin_shares pin) (pin_mems pin) (pin_sched pin)]> (ta_pins p)) p.

Definition set_shares (id : string) (shares : Z) (p : policy) : policy :=
  let pin := pinning_of id p in
  with_settings (<[id := MkPinning (pin_cpus pin) (Some shares) (pin_mems pin) (pin_sched pin)]> (ta_pins p)) p.

Definition set_mems (id : string) (mems : string) (p : policy) : policy :=
  let pin := pinning_of id p in
  with_settings (<[id := MkPinning (pin_cpus pin) (pin_shares pin) (Some mems) (pin_sched pin)]> (ta_pins p)) p.

Definition set_sched (id : string) (calls : list SchedCall) (p : policy) : policy :=
  let pin := pinning_of id p in
  with_settings (<[id := MkPinning (pin_cpus pin) (pin_shares pin) (pin_mems pin) (app (pin_sched pin) calls)]> (ta_pins p)) p.

(** [UseClass] of the handler of CPU classes. *)
Definition use_class (class : string) (cpus : CPUSet) (p : policy) : policy :=
  with_calls (app (ta_uses p) [(class, cpus)]) p.

Definition ta_resetCpuClass (cpus : CPUSet) (p : policy) : policy :=
  if negb (ta_classes p) || bool_decide (opt_SharedPoolCpuClass (ta_opt p) = "") then p
  else use_class (opt_SharedPoolCpuClass (ta_opt p)) cpus p.

Definition setReservedPoolCpuClass (p : policy) : policy :=
  if negb (ta_classes p) || bool_decide (opt_ReservedPoolCpuClass (ta_opt p) = "") then p
  else use_class (opt_ReservedPoolCpuClass (ta_opt p)) (ta_reserved p) p.

Section policy.
Context `{GoRuntime} (E : TEnv) (cch : TCache).

(** CPUs, with hyperthreads hidden if the container asks for it. *)
Definition preferred_cpus (c : TCtr) (allocated : CPUSet) : CPUSet :=
  if bool_decide (is_Some (GetPod (tch_pods cch) (tc_container c))) && hideHyperthreadsPreference cch c
  then SingleThreadForCPUs (te_System E) allocated else allocated.

Definition setPreferredCpusetCpus (id : string) (c : TCtr) (allocated : CPUSet) (p : policy) : policy :=
  set_cpuset id (preferred_cpus c allocated) p.

Definition applySchedulingClass (sc : SchedulingClass) : list SchedCall :=
  concat
    [maybe_set SetSchedulingPolicy
       (if bool_decide (sc_Policy sc = "") then None
        else te_LinuxSchedulerPolicy_value E !! cstyle "SCHED_" (sc_Policy sc));
     maybe_set (λ v, SetSchedulingPriority (i32 v)) (sc_Priority sc);
     maybe_set SetSchedulingFlags
       (if bool_decide (sc_Flags sc = []) then None
        else mapM (λ sf, te_LinuxSchedulerFlag_value E !! cstyle "SCHED_FLAG_" sf) (sc_Flags sc));
     maybe_set (λ v, SetSchedulingNice (i32 v)) (sc_Nice sc);
     maybe_set SetSchedulingRuntime (sc_Runtime sc);
     maybe_set SetSchedulingDeadline (sc_Deadline sc);
     maybe_set SetSchedulingPeriod (sc_Period sc);
     maybe_set SetSchedulingIOClass
       (if bool_decide (sc_IOClass sc = "") then None
        else te_IOPrioClass_value E !! cstyle "IOPRIO_CLASS_" (sc_IOClass sc));
     maybe_set (λ v, SetSchedulingIOPriority (i32 v)) (sc_IOPriority sc)].

(** The CPUs of a grant. *)
Definition grant_cpus (p : policy) (g : grant) : CPUSet :=
  match g_cpuType g with
  | cpuNormal =>
      if bool_decide (g_exclusive g = ∅) then SharedCPUs p g
      else if bool_decide (SharedPortion g > 0) then g_exclusive g ∪ SharedCPUs p g
      else g_exclusive g
  | cpuReserved => ReservedCPUs p g
  | cpuPreserve => ∅
  end.

(** The part of [applyGrant] that is done if CPUs are pinned. *)
Definition apply_cpus (g : grant) (p : policy) : policy :=
  let id := g_container g in
  let cpus := grant_cpus p g in
  let p' :=
    if bool_decide (g_cpuType g = cpuPreserve) then p
    else if bool_decide (csize cpus > 0) then setPreferredCpusetCpus id (ctr_of cch g) cpus p
    else set_cpuset id ∅ p in
  let cpuPortion := if bool_decide (g_cpuType g = cpuReserved) then ReservedPortion g else SharedPortion g in
  let milliCPU := if bool_decide (cpuPortion = 0) then 1000 * csize (g_exclusive g) else cpuPortion in
  let p' := set_shares id (MilliCPUToShares milliCPU) p' in
  if bool_decide (csize (g_exclusive g) > 0 ∧ g_cpuClass g ≠ "") then use_class (g_cpuClass g) (g_exclusive g) p'
  else p'.

Definition applyGrant (g : grant) (p : policy) : policy :=
  let id := g_container g in
  let mems := if opt_PinMemory (ta_opt p) then g_memZone g else 0 in
  let p' := if opt_PinCPU (ta_opt p) then apply_cpus g p else p in
  let p' := if bool_decide (g_memType g = memoryPreserve) then p' else set_mems id (NodeMask_MemsetString mems) p' in
  match schedulingClassPreference cch (ta_opt p) (ctr_of cch g) with
  | Ok (Some sc) => set_sched id (applySchedulingClass sc) p'
  | _ => p'
  end.

(** The CPUs of a grant that shares some, after shared CPUs have changed. *)
Definition affected (g : option grant) (other : grant) : bool :=
  negb (match g with Some g => bool_decide (g_container other = g_container g) | None => false end) &&
  bool_decide (g_cpuType other = cpuNormal) &&
  negb (bool_decide (SharedPortion other = 0 ∧ g_exclusive other ≠ ∅)).

Definition updateSharedAllocations (g : option grant) (p : policy) : policy :=
  if match g with Some g => bool_decide (g_cpuType g = cpuReserved) | None => false end then p
  else
    fold_left (λ p ig,
        let other := ig.2 in
        if affected g other && opt_PinCPU (ta_opt p) then
          let shared := su_sharable (FreeSupply p (g_node other)) in
          setPreferredCpusetCpus (g_container other) (ctr_of cch other)
            (if bool_decide (g_exclusive other = ∅) then shared else g_exclusive other ∪ shared) p
        else p) (map_range (ta_grants p)) p.

(** Zones that other containers have been moved to. *)
Definition apply_updates (updates : gmap string Z) (p : policy) : policy :=
  fold_left (λ p iz,
      match ta_grants p !! iz.1 with
      | None => p
      | Some g =>
          let p := with_grants (<[iz.1 := set_memZone iz.2 g]> (ta_grants p)) p in
          if opt_PinMemory (ta_opt p) then set_mems (g_container g) (NodeMask_MemsetString iz.2) p else p
      end) (map_range updates) p.

(** ** Pools *)

(** The pool and the offer for a request, and the request with resolved hints. *)
Definition choose_pool (r : request) (poolHint : string) (p : policy) : policy * res (request * Pool * Offer) :=
  if bool_decide (rq_cpuType r = cpuNormal) then
    let pools := g_node <$> ta_grants p in
    let containers := tc_container <$> tch_containers cch in
    let c := tc_container (rq_container r) in
    match calculatePoolAffinities (tch_pods cch) containers pools (te_GetAffinity E c) c with
    | Err e => (p, Err e)
    | Ok affinity =>
        let r := resolve_request E r in
        match sortPoolsByScore E cch r affinity p with
        | (p, Err e) => (p, Err e)
        | (p, Ok (scores, pools)) =>
            let hinted :=
              if bool_decide (poolHint ≠ "") then snd <$> list_find (λ n, Name n = poolHint) pools else None in
            match (match hinted with Some n => Some n | None => head pools end) with
            | None => (p, Err ErrOther)
            | Some pool =>
                match scores !! NodeID pool with
                | Some sc => match sc_mem sc with Some o => (p, Ok (r, pool, o)) | None => (p, Err ErrOther) end
                | None => (p, Err Panic)
                end
            end
        end
    end
  else
    match getMemOffer E cch (ta_root p) r p with
    | (p, Err e) => (p, Err e)
    | (p, Ok o) => (p, Ok (r, ta_root p, o))
    end.

(** Without reserved CPUs, requests for them get normal ones. *)
Definition fallback_type (p : policy) (r : request) : request :=
  if bool_decide (su_reserved (FreeSupply p (NodeID (ta_root p))) = ∅ ∧ rq_cpuType r = cpuReserved)
  then SetCPUType cpuNormal r else r.

Definition allocatePool (c : TCtr) (poolHint : string) (p : policy) : policy * res grant :=
  match newRequest E cch p c (mc_types (a_masks (ta_memAllocator p))) with
  | Err e => (p, Err e)
  | Ok r =>
      match choose_pool (fallback_type p r) poolHint p with
      | (p, Err e) => (p, Err e)
      | (p, Ok (r, pool, o)) =>
          match Allocate E cch pool r (Some o) p with
          | (p, Err e) => (p, Err e)
          | (p, Ok (g, updates)) => (addGrant g (apply_updates updates p), Ok g)
          end
      end
  end.

(** The grant released, if there was one. *)
Definition releasePool (id : string) (p : policy) : policy * option grant :=
  match ta_grants p !! id with
  | None => (p, None)
  | Some g => (ta_resetCpuClass (g_exclusive g) (delGrant id (grant_Release g p)), Some g)
  end.

(** ** Interrupts *)

(** The CPUs to leave out first, those claimed and those masked for an
    interrupt. *)
Definition irq_step (irq : Z) (st : CPUSet * CPUSet * CPUSet) (g : grant) : CPUSet * CPUSet * CPUSet :=
  let '(preMask, claim, mask) := st in
  match g_irqs g with
  | None => st
  | Some irqs =>
      if bool_decide (g_exclusive g = ∅) then st
      else
        let claim := if existsb (te_IrqMatch E irq) (irq_Claim irqs) then claim ∪ g_exclusive g else claim in
        if existsb (te_IrqMatch E irq) (irq_Mask irqs) then
          if bool_decide (irq_Mode irqs = IrqClaimFirst) then (preMask ∪ g_exclusive g, claim, mask)
          else (preMask, claim, mask ∪ g_exclusive g)
        else (preMask, claim, mask)
  end.

Definition irqCpus (p : policy) (irq : Z) : CPUSet * CPUSet * CPUSet :=
  fold_left (λ st ig, irq_step irq st ig.2) (map_range (ta_grants p)) (∅, ∅, ∅).

(** The CPUs an interrupt should be handled by. *)
Definition irq_target (p : policy) (irq : Z) : CPUSet :=
  let '(preMask, claim, mask) := irqCpus p irq in
  let mask := mask ∖ (claim ∩ mask) in
  let cpus := ta_allowed p ∖ preMask in
  let cpus := if bool_decide (claim = ∅) then cpus else cpus ∩ claim in
  if bool_decide (mask = ∅) then cpus else cpus ∖ mask.

(** An interrupt whose affinity cannot be read is skipped. *)
Definition apply_irq (p : policy) (irq : Z) : policy :=
  match ta_irqAffinity p !! irq with
  | None => p
  | Some current =>
      let cpus := irq_target p irq in
      if bool_decide (cpus = current) then p
      else if te_SetAffinity E irq cpus then with_irqAffinity (<[irq := cpus]> (ta_irqAffinity p)) p
      else p
  end.

Definition applyIrqAffinity (p : policy) : policy :=
  if bool_decide (ta_irqApplied p = ta_irqCnt p) then p
  else
    match te_Interrupts E with
    | None => p
    | Some hwIrqs => let p := fold_left apply_irq hwIrqs p in with_irqApplied (ta_irqCnt p) p
    end.

(** ** Requests of the resource manager *)

Definition ta_allocateResources (c : TCtr) (poolHint : string) (p : policy) : policy * res unit :=
  match allocatePool c poolHint p with
  | (p, Err e) => (p, Err e)
  | (p, Ok g) =>
      (* the grant is an object of the allocations, which an update may have moved *)
      let g := default g (ta_grants p !! g_container g) in
      (updateSharedAllocations (Some g) (applyGrant g p), Ok tt)
  end.

(** Interrupts are updated when an operation returns. *)
Definition deferred (pr : policy * res unit) : policy * res unit := (applyIrqAffinity pr.1, pr.2).

Definition ta_AllocateResources (c : TCtr) (p : policy) : policy * res unit :=
  deferred (ta_allocateResources c "" p).

Definition ta_ReleaseResources (c : TCtr) (p : policy) : policy * res unit :=
  deferred
    match releasePool (tc_ID c) p with
    | (p, Some g) => (updateSharedAllocations (Some g) p, Ok tt)
    | (p, None) => (p, Ok tt)
    end.

Definition pool_name (p : policy) (id : Z) : string :=
  match find_pool (ta_root p) id with Some n => Name n | None => "" end.

Definition ta_UpdateResources (c : TCtr) (p : policy) : policy * res unit :=
  deferred
    match releasePool (tc_ID c) p with
    | (p, None) => ta_AllocateResources c p
    | (p, Some g) =>
        let p := updateSharedAllocations (Some g) p in
        ta_allocateResources c (pool_name p (g_node g)) p
    end.

(** Errors are logged; a panic ends the loop. *)
Fixpoint ta_for_each (f : TCtr → policy → policy * res unit) (cs : list TCtr) (p : policy) : policy * res unit :=
  match cs with
  | [] => (p, Ok tt)
  | c :: cs' =>
      match f c p with
      | (p, Err Panic) => (p, Err Panic)
      | (p, _) => ta_for_each f cs' p
      end
  end.

Definition ta_Sync (add del : list TCtr) (p : policy) : policy * res unit :=
  match ta_for_each ta_ReleaseResources del p with
  | (p, Err e) => (p, Err e)
  | (p, Ok _) => ta_for_each ta_AllocateResources add p
  end.

(** ** Sorting containers (pkg/resmgr/cache/container.go) *)

Definition CompareQOS (ci cj : TCtr) : Z :=
  let qosi := qos cch ci in
  let qosj := qos cch cj in
  if bool_decide (qosi = "Guaranteed" ∧ qosj ≠ "Guaranteed") then -1
  else if bool_decide (qosj = "Guaranteed" ∧ qosi ≠ "Guaranteed") then 1
  else if bool_decide (qosi = "Burstable" ∧ qosj = "BestEffort") then -1
  else if bool_decide (qosj = "Burstable" ∧ qosi = "BestEffort") then 1
  else 0.

(** Requests first, then limits; more comes first. *)
Definition compare_amounts (reqi limi reqj limj : Z) : Z :=
  let diff := i64 (reqj - reqi) in
  if bool_decide (diff < 0) then -1
  else if bool_decide (diff > 0) then 1
  else
    let diff := i64 (limj - limi) in
    if bool_decide (diff < 0) then -1 else if bool_decide (diff > 0) then 1 else 0.

Definition CompareMemory (ci cj : TCtr) : Z :=
  compare_amounts (milli (rs_requestMemory (tc_Requirements ci))) (milli (rs_limitMemory (tc_Requirements ci)))
    (milli (rs_requestMemory (tc_Requirements cj))) (milli (rs_limitMemory (tc_Requirements cj))).

Definition CompareCPU (ci cj : TCtr) : Z :=
  compare_amounts (milli (rs_requestCPU (tc_Requirements ci))) (milli (rs_limitCPU (tc_Requirements ci)))
    (milli (rs_requestCPU (tc_Requirements cj))) (milli (rs_limitCPU (tc_Requirements cj))).

Definition ctr_less_by_name (ci cj : TCtr) : bool :=
  let by_name := String.ltb (c_name (tc_container ci)) (c_name (tc_container cj)) in
  match GetPod (tch_pods cch) (tc_container ci), GetPod (tch_pods cch) (tc_container cj) with
  | Some pi, Some pj => if bool_decide (p_name pi ≠ p_name pj) then String.ltb (p_name pi) (p_name pj) else by_name
  | _, _ => by_name
  end.

Fixpoint ctr_less_by (compareFns : list (TCtr → TCtr → Z)) (ci cj : TCtr) : bool :=
  match compareFns with
  | [] => ctr_less_by_name ci cj
  | cmpFn :: compareFns' =>
      let diff := cmpFn ci cj in
      if bool_decide (diff < 0) then true
      else if bool_decide (diff > 0) then false
      else ctr_less_by compareFns' ci cj
  end.

Definition ctr_SortContainers (containers : list TCtr) : list TCtr :=
  sort_slice (ctr_less_by [CompareQOS; CompareMemory; CompareCPU]) containers.

(** ** Reinstating grants *)

(** All containers are tried; the result is an error if one of them fails. *)
Fixpoint reallocate_each (cs : list TCtr) (pools : gmap string string) (p : policy) : policy * res unit :=
  match cs with
  | [] => (p, Ok tt)
  | c :: cs' =>
      match allocatePool c (default "" (pools !! tc_ID c)) p with
      | (p, Err Panic) => (p, Err Panic)
      | (p, Err _) => match reallocate_each cs' pools p with (p, Ok _) => (p, Err ErrOther) | pe => pe end
      | (p, Ok g) => reallocate_each cs' pools (applyGrant (default g (ta_grants p !! g_container g)) p)
      end
  end.

Definition reallocateResources (containers : list TCtr) (pools : gmap string string) (p : policy)
    : policy * res unit :=
  let cs := ctr_SortContainers containers in
  let p := fold_left (λ p c, (releasePool (tc_ID c) p).1) cs p in
  match reallocate_each cs pools p with
  | (p, Err e) => (p, Err e)
  | (p, Ok _) => (updateSharedAllocations None p, Ok tt)
  end.

(** The containers of grants and the names of their pools. *)
Definition getContainerPoolHints (p : policy) (grants : gmap string grant) : list TCtr * gmap string string :=
  ((λ ig, ctr_of cch ig.2) <$> map_range grants,
   list_to_map ((λ ig, (g_container ig.2, pool_name p (g_node ig.2))) <$> map_range grants)).

(** The class of a grant as its container would get it now. *)
Definition refresh_class (p : policy) (g : grant) : grant :=
  match resolveCpuClass cch p (ctr_of cch g) with
  | Err _ => set_cpuClass "" g
  | Ok (class, _) => set_cpuClass class g
  end.

Fixpoint reinstate_each (grants : list (string * grant)) (p : policy) : policy * res unit :=
  match grants with
  | [] => (p, Ok tt)
  | (_, g) :: grants' =>
      let g := refresh_class p g in
      match restoreMemOffer E cch g p with
      | (p, Err e) => (p, Err e)
      | (p, Ok o) =>
          match find_pool (ta_root p) (g_node g) with
          | None => (p, Err Panic)
          | Some pool =>
              match Reserve cch pool g o p with
              | (p, Err e) => (p, Err e)
              | (p, Ok (g, updates)) => reinstate_each grants' (applyGrant g (addGrant g (apply_updates updates p)))
              end
          end
      end
  end.

Definition reinstateGrants (grants : gmap string grant) (p : policy) : policy * res unit :=
  let p := fold_left (λ p ig, (releaseMem ig.1 p).1) (map_range grants) p in
  match reinstate_each (map_range grants) p with
  | (p, Err e) => (p, Err e)
  | (p, Ok _) => (updateSharedAllocations None p, Ok tt)
  end.

(** If grants cannot be reinstated as they are, their containers are allocated
    again; if that fails too, the allocations are as before. *)
Definition restoreAllocations (grants : gmap string grant) (irqCnt : Z) (p : policy) : policy * res unit :=
  let p := with_irqCnt 0 (with_grants ∅ p) in
  match reinstateGrants grants p with
  | (p, Ok _) => (p, Ok tt)
  | (p, Err Panic) => (p, Err Panic)
  | (p, Err _) =>
      let '(containers, poolHints) := getContainerPoolHints p grants in
      match reallocateResources containers poolHints p with
      | (p, Ok _) => (p, Ok tt)
      | (p, Err e) => (with_irqCnt irqCnt (with_grants (clone_grants grants) p), Err e)
      end
  end.

(** ** Cold start *)

Definition triggerColdStart (id : string) (p : policy) : policy :=
  match ta_grants p !! id with
  | None => p
  | Some g =>
      if bool_decide (g_coldStart g ≤ 0) then p
      else with_grants (<[id := set_timer true g]> (ta_grants p)) p
  end.

Definition ReallocMemory (id : string) (types : Z) (p : policy) : policy * res unit :=
  match Realloc no_custom id 0 types (ta_memAllocator p) with
  | (a, Err e) => (with_memory a p, Err e)
  | (a, Ok (zone, updates)) =>
      let p := with_memory a p in
      let p :=
        match ta_grants p !! id with
        | Some g => with_grants (<[id := set_memZone zone g]> (ta_grants p)) p
        | None => p
        end in
      let p := if opt_PinMemory (ta_opt p) then set_mems id (NodeMask_MemsetString zone) p else p in
      (apply_updates updates p, Ok tt)
  end.

(** Whether containers have changed; errors of the allocator are logged. *)
Definition finishColdStart (id : string) (p : policy) : policy * res bool :=
  match ta_grants p !! id with
  | None => (p, Err ErrOther)
  | Some g =>
      let p := (ReallocMemory id (memZoneType p (g_memZone g) ||| TypeMaskDRAM) p).1 in
      match ta_grants p !! id with
      | Some g => (with_grants (<[id := set_timer false g]> (ta_grants p)) p, Ok true)
      | None => (p, Ok true)
      end
  end.
End policy.
