(* ===== verification/TaBuild.v ===== *)
(** * Building the tree of pools
    (cmd/plugins/topology-aware/policy/pools.go, node.go,
    topology-aware-policy.go, pkg/sysfs/system.go)

    The CPUs the policy may use, the pools for sockets, dies, NUMA nodes and
    caches with their CPUs and memory nodes, and the initialization of the
    policy. *)


From S2P Require Import Prelude GoStrings Expr MemTypes MemNodes MemRequest MemZones MemAllocator CpuTree CpuAlloc CpuTopo BlnTypes BlnConfig TaTypes TaPrefs TaSupply TaPolicy.

Open Scope string_scope.
Open Scope Z_scope.

(** ** Numbering pools *)

Definition set_id (id : Z) (nd : node) : node :=
  MkNode id (nd_name nd) (nd_kind nd) (nd_depth nd) (nd_sysid nd) (nd_pkg nd) (nd_cpus nd) (nd_noderes nd)
    (nd_mem nd) (nd_pMem nd) (nd_hbm nd).

Fixpoint enumeratePools (n : Pool) (id : Z) : Pool * Z :=
  let '(cs, id) :=
    (fix children (cs : list Pool) (id : Z) : list Pool * Z :=
       match cs with
       | [] => ([], id)
       | c :: cs' =>
           let '(c, id) := enumeratePools c id in
           let '(cs', id) := children cs' id in
           (c :: cs', id)
       end) (pool_children n) id in
  (MkPool (set_id id (pool_node n)) cs, id + 1).

(** The pools by name: of pools with the same name the last one created. *)
Definition nodes_by_name (root : Pool) (name : string) : option Pool :=
  last (filter (λ n, Name n = name) (BreadthFirst root)).

(** The policy before it has been initialized. *)
Definition nilnode : Pool := MkPool (MkNode (-1) "<nil node>" NilNode (-1) 0 0 ∅ nil_supply ∅ ∅ ∅) [].

Section build.
Context `{GoRuntime} (E : TEnv).

Abbreviation topo := (te_System E).
Abbreviation tsys := (te_Sys E).

(** ** NUMA nodes *)

Definition NodeOfType (t : Z) (id : Z) : bool := bool_decide (sy_MemoryType tsys id = t).

Definition NodeHasMemory (id : Z) : bool :=
  match sy_MemTotal tsys id with None => true | Some total => bool_decide (total > 0) end.

Definition NodeHasLocalCPUs (id : Z) : bool := negb (bool_decide (ts_NodeCPUSet topo id = ∅)).
Definition NodeHasNoLocalCPUs (id : Z) : bool := bool_decide (ts_NodeCPUSet topo id = ∅).

Definition FilterNode (filters : list (Z → bool)) (id : Z) : bool :=
  bool_decide (id ∈ ts_NodeIDs topo) && forallb (λ f, f id) filters.

Definition FilterNodes (filters : list (Z → bool)) (nodeIDs : list Z) : gset Z :=
  list_to_set (filter (λ id, FilterNode filters id) nodeIDs).

(** Nodes by distance, the closest ones first, and the distances. *)
Definition ClosestNodes (nodeID : Z) (filters : list (Z → bool)) : list (gset Z) * list Z :=
  if bool_decide (nodeID ∈ ts_NodeIDs topo) then
    let byDist :=
      fold_left (λ (m : gmap Z (gset Z)) (x : Z * Z),
          let '(id, dist) := x in
          if bool_decide (id = nodeID) || negb (FilterNode filters id) then m
          else <[dist := {[id]} ∪ default ∅ (m !! dist)]> m)
        (imap (λ i d, (Z.of_nat i, d)) (sy_Distances tsys nodeID)) ∅ in
    let distances := slices_Sort (elements (dom byDist)) in
    ((λ d, default ∅ (byDist !! d)) <$> distances, distances)
  else ([], []).

Definition NodeDistance (from to : Z) : Z :=
  if bool_decide (from ∈ ts_NodeIDs topo) then default (-1) (sy_Distances tsys from !! Z.to_nat to) else -1.

Definition checkHWTopology : res unit :=
  if forallb (λ from, forallb (λ to, bool_decide (NodeDistance from to = NodeDistance to from)) (ts_NodeIDs topo))
       (ts_NodeIDs topo)
  then Ok tt else Err ErrOther.

(** ** CPUs and memory of a pool *)

Section supplies.
Variables allowed isolated reserved : CPUSet.

Definition getCpuSupply (cpus : CPUSet) : supply :=
  let allowed := cpus ∩ allowed in
  let isolated := allowed ∩ isolated in
  let reserved := allowed ∩ reserved in
  newSupply isolated reserved (allowed ∖ isolated ∖ reserved) 0 0.

Definition getMemsForCpus (cpus : CPUSet) : gset Z :=
  list_to_set (filter (λ id, ts_NodeCPUSet topo id ∩ cpus ≠ ∅) (ts_NodeIDs topo)).

(** Nodes without CPUs whose closest node with CPUs and DRAM is among some. *)
Definition close_to (mems : gset Z) (id : Z) : bool :=
  match (ClosestNodes id [NodeOfType sysfs_MemoryTypeDRAM; NodeHasLocalCPUs]).1 with
  | [] => false
  | closest :: _ => bool_decide (closest ∩ mems ≠ ∅)
  end.

Definition special_mem (t : Z) (mems : gset Z) : gset Z :=
  filter (λ id, close_to mems id)
    (FilterNodes [NodeOfType t; NodeHasMemory; NodeHasNoLocalCPUs] (ts_NodeIDs topo)).

Definition getClosestSpecialMem (mems : gset Z) : gset Z :=
  special_mem sysfs_MemoryTypePMEM mems ∪ special_mem sysfs_MemoryTypeHBM mems.

Definition getAllMems : gset Z := FilterNodes [NodeHasMemory] (ts_NodeIDs topo).

Definition splitMemsByType (ids : gset Z) : gset Z * gset Z * gset Z :=
  (filter (λ id, sy_MemoryType tsys id = sysfs_MemoryTypeDRAM) ids,
   filter (λ id, sy_MemoryType tsys id = sysfs_MemoryTypePMEM) ids,
   filter (λ id, sy_MemoryType tsys id = sysfs_MemoryTypeHBM) ids).

Definition getMemSupply (is_root : bool) (cpus : CPUSet) : gset Z * gset Z * gset Z :=
  if is_root then splitMemsByType getAllMems
  else
    let mems := getMemsForCpus cpus in
    let '(dram, pmem, hbm) := splitMemsByType mems in
    let '(dm, pm, hm) := splitMemsByType (getClosestSpecialMem mems) in
    (dram ∪ dm, pmem ∪ pm, hbm ∪ hm).

(** ** Pools *)

Definition new_node (name : string) (kind : NodeKind) (depth sysid pkg : Z) (cache_cpus : CPUSet) (is_root : bool)
    (cpus : CPUSet) : node :=
  let '(dram, pmem, hbm) := getMemSupply is_root cpus in
  MkNode (-1) name kind depth sysid pkg cache_cpus (getCpuSupply cpus) dram pmem hbm.

(** Caches of a socket within some CPUs. *)
Definition getL3CacheIDsForCPUs (socketID : Z) (cpus : CPUSet) : list Z :=
  filter (λ id, cpus ∩ sy_L3CacheCPUSet tsys socketID id = sy_L3CacheCPUSet tsys socketID id)
    (sy_L3CacheIDs tsys socketID).

Definition buildL3CachePool (id : Z) (cpus : CPUSet) (parent : string) (depth : Z) : Pool :=
  MkPool (new_node (String.append parent (String.append "/L3 cache #" (itoa id))) L3CacheNode depth id 0 cpus false cpus) [].

(** The pools of caches below a pool, unless there is just one. *)
Definition cache_pools (socketID : Z) (cpus : CPUSet) (parent : string) (depth : Z) : list Pool :=
  let ids := getL3CacheIDsForCPUs socketID cpus in
  if bool_decide (1 < length ids)%nat
  then (λ id, buildL3CachePool id (sy_L3CacheCPUSet tsys socketID id) parent depth) <$> ids
  else [].

(** A NUMA node known to have no memory gets no pool. *)
Definition buildNumaNodePool (socketID depth nodeID : Z) : option Pool :=
  if bool_decide (sy_MemTotal tsys nodeID = Some 0) then None
  else
    let cpus := ts_NodeCPUSet topo nodeID in
    let name := String.append "NUMA node #" (itoa nodeID) in
    Some (MkPool (new_node name NumaNode depth nodeID 0 ∅ false cpus) (cache_pools socketID cpus name (depth + 1))).

Definition numa_or_cache_pools (socketID : Z) (nodeIDs : list Z) (cpus : CPUSet) (parent : string) (depth : Z)
    : list Pool :=
  if bool_decide (1 < length nodeIDs)%nat then omap (buildNumaNodePool socketID depth) nodeIDs
  else cache_pools socketID cpus parent depth.

Definition buildDiePool (socketID depth dieID : Z) : Pool :=
  let cpus := ts_DieCPUSet topo socketID dieID in
  let name := String.append "die #" (String.append (itoa socketID) (String.append "/" (itoa dieID))) in
  MkPool (new_node name DieNode depth dieID socketID ∅ false cpus)
    (numa_or_cache_pools socketID (sy_DieNodeIDs tsys socketID dieID) cpus name (depth + 1)).

(** Dies get no pools if there is just one or each of them is one cluster. *)
Definition omit_dies (socketID : Z) : bool :=
  let dieIDs := ts_DieIDs topo socketID in
  bool_decide (length dieIDs ≤ 1)%nat ||
  forallb (λ dieID, bool_decide (length (sy_DieClusterIDs tsys socketID dieID) ≤ 1)%nat) dieIDs.

Definition buildSocketPool (is_root : bool) (depth socketID : Z) : Pool :=
  let cpus := ts_PackageCPUSet topo socketID in
  let name := String.append "socket #" (itoa socketID) in
  MkPool (new_node name SocketNode depth socketID 0 ∅ is_root cpus)
    (if omit_dies socketID
     then numa_or_cache_pools socketID (sy_PkgNodeIDs tsys socketID) cpus name (depth + 1)
     else buildDiePool socketID (depth + 1) <$> ts_DieIDs topo socketID).

(** Several sockets have a virtual root above them. *)
Definition buildRootPool : option Pool :=
  match cs_PackageIDs (ts_sys topo) with
  | [] => None
  | [socketID] => Some (buildSocketPool true 0 socketID)
  | socketIDs =>
      Some (MkPool (new_node "root" VirtualNode 0 0 0 ∅ true (sy_CPUSet tsys))
              (buildSocketPool false 1 <$> socketIDs))
  end.
End supplies.

(** Without any socket there is no root pool to enumerate. *)
Definition buildPoolsByTopology (p : policy) : policy * res unit :=
  match checkHWTopology with
  | Err e => (p, Err e)
  | Ok _ =>
      match buildRootPool (ta_allowed p) (ta_isolated p) (ta_reserved p) with
      | None => (p, Err Panic)
      | Some root =>
          let root := (enumeratePools root 0).1 in
          (with_tree root (list_to_map ((λ n, (NodeID n, GetSupply n)) <$> DepthFirst root)) p, Ok tt)
      end
  end.

(** ** CPUs the policy may use *)

Definition available (amount : option string) : res CPUSet :=
  match Get amount with
  | AmountCPUSet a => match te_Parse E a with Some cset => Ok cset | None => Err ErrOther end
  | AmountExcludeCPUSet a => match te_Parse E a with Some cset => Ok (sy_CPUSet tsys ∖ cset) | None => Err ErrOther end
  | AmountQuantity _ => Err ErrOther
  | AmountAbsent => Ok (sy_CPUSet tsys)
  end.

(** Reserved CPUs must be allowed ones, and if some are isolated, a single one. *)
Definition check_reserved (allowed isolated reserved : CPUSet) : res unit :=
  if bool_decide (reserved ∖ allowed ≠ ∅) then Err ErrOther
  else
    let both := reserved ∩ isolated in
    if bool_decide (both ≠ ∅ ∧ (reserved ≠ both ∨ csize both > 1)) then Err ErrOther else Ok tt.

(** The reserved CPUs, if they have been set, and an error. *)
Definition reserve (amount : option string) (allowed isolated : CPUSet) : option CPUSet * res unit :=
  let given (cset : CPUSet) := (Some cset, check_reserved allowed isolated cset) in
  match Get amount with
  | AmountAbsent => (None, Err ErrOther)
  | AmountCPUSet a => match te_Parse E a with Some cset => given cset | None => (None, Err ErrOther) end
  | AmountExcludeCPUSet a =>
      match te_Parse E a with Some cset => given (allowed ∖ cset) | None => (None, Err ErrOther) end
  | AmountQuantity a =>
      match te_ParseQuantity E a with
      | None => (None, Err ErrOther)
      | Some qty =>
          match takeCPUs E (allowed ∖ isolated) (Z.quot (i64 (qty + 999)) 1000) PriorityNormal with
          | (Ok cset, _) => (Some cset, Ok tt)
          | (Err e, _) => (None, Err e)
          end
      end
  end.

Definition checkConstraints (p : policy) : policy * res unit :=
  match available (opt_AvailableResources (ta_cfg p)) with
  | Err e => (p, Err e)
  | Ok cpus =>
      let allowed := cpus ∩ sy_OnlineCPUs tsys in
      let isolated := sy_Isolated tsys ∩ allowed in
      let '(cset, r) := reserve (opt_ReservedResources (ta_cfg p)) allowed isolated in
      let reserved := default (ta_reserved p) cset in
      let p := with_cpus allowed isolated reserved p in
      match r with
      | Err e => (p, Err e)
      | Ok _ => if bool_decide (reserved = ∅) then (p, Err ErrOther) else (p, Ok tt)
      end
  end.

(** ** Initialization *)

Definition set_burstable (level : CPUTopologyLevel) (opt : Config) : Config :=
  MkConfig (opt_PinCPU opt) (opt_PinMemory opt) (opt_PreferIsolated opt) (opt_PreferShared opt)
    (opt_ReservedPoolNamespaces opt) (opt_AvailableResources opt) (opt_ReservedResources opt)
    (opt_DefaultCPUPriority opt) level (opt_SchedulingClasses opt) (opt_NamespaceSchedulingClasses opt)
    (opt_PodQoSSchedulingClasses opt) (opt_CPUClasses opt) (opt_SharedPoolCpuClass opt)
    (opt_ReservedPoolCpuClass opt) (opt_DefaultExclusiveCpuClass opt) (opt_ControllableInterrupts opt).

(** A new handler of CPU classes. *)
Definition setup_classes (p : policy) : policy * res unit :=
  if bool_decide (opt_CPUClasses (ta_opt p) = []) then (p, Ok tt)
  else if negb (te_NewClasses E) then (p, Err ErrOther)
  else
    let p := with_calls [] (with_classes true p) in
    if negb (te_Configure E (opt_CPUClasses (ta_opt p)) (ta_allowed p)) then (p, Err ErrOther)
    else (setReservedPoolCpuClass (ta_resetCpuClass (ta_allowed p) p), Ok tt).

(** The options and the configuration of the policy are the same object. *)
Definition initialize (p : policy) : policy * res unit :=
  let p := with_classes false (with_irqCnt 0 (with_grants ∅ (with_tree nilnode ∅ p))) in
  match checkConstraints p with
  | (p, Err e) => (p, Err e)
  | (p, Ok _) =>
      match buildPoolsByTopology p with
      | (p, Err e) => (p, Err e)
      | (p, Ok _) =>
          let level := findExistingTopologyLevel p (opt_UnlimitedBurstable (ta_opt p)) in
          let p := with_cfg (set_burstable level (ta_cfg p)) (with_opt (set_burstable level (ta_opt p)) p) in
          match setup_classes p with
          | (p, Err e) => (p, Err e)
          | (p, Ok _) =>
              if te_SetAllowedInterrupts E (opt_ControllableInterrupts (ta_opt p)) then (p, Ok tt) else (p, Err ErrOther)
          end
      end
  end.
End build.
