(* ===== verification/TaConfig.v ===== *)
(** * Configuring the topology-aware policy
    (cmd/plugins/topology-aware/policy/topology-aware-policy.go, cache.go,
    resources.go,
    pkg/apis/config/v1alpha1/resmgr/policy/topologyaware/config.go)

    Validating a configuration, setting the policy up, taking a new
    configuration into use, events, grants as they are stored in the cache, and
    what the policy publishes about pools and containers.  Creating metrics is
    left out, and implicit affinities, whose registration does not fail, are
    part of [te_GetAffinity]. *)

From S2P Require Import Prelude GoStrings Expr MemTypes MemNodes MemRequest MemZones MemAllocator CpuTree CpuAlloc CpuTopo BlnTypes BlnConfig TaTypes TaPrefs TaSupply TaPolicy TaBuild.

Open Scope string_scope.
Open Scope Z_scope.

(** ** Validation *)

Definition validQoSClasses : list string := ["besteffort"; "burstable"; "guaranteed"].

Definition set_qos_classes (v : gmap string string) (c : Config) : Config :=
  MkConfig (opt_PinCPU c) (opt_PinMemory c) (opt_PreferIsolated c) (opt_PreferShared c)
    (opt_ReservedPoolNamespaces c) (opt_AvailableResources c) (opt_ReservedResources c)
    (opt_DefaultCPUPriority c) (opt_UnlimitedBurstable c) (opt_SchedulingClasses c)
    (opt_NamespaceSchedulingClasses c) v (opt_CPUClasses c) (opt_SharedPoolCpuClass c)
    (opt_ReservedPoolCpuClass c) (opt_DefaultExclusiveCpuClass c) (opt_ControllableInterrupts c).

Definition set_reserved_class (v : string) (c : Config) : Config :=
  MkConfig (opt_PinCPU c) (opt_PinMemory c) (opt_PreferIsolated c) (opt_PreferShared c)
    (opt_ReservedPoolNamespaces c) (opt_AvailableResources c) (opt_ReservedResources c)
    (opt_DefaultCPUPriority c) (opt_UnlimitedBurstable c) (opt_SchedulingClasses c)
    (opt_NamespaceSchedulingClasses c) (opt_PodQoSSchedulingClasses c) (opt_CPUClasses c)
    (opt_SharedPoolCpuClass c) v (opt_DefaultExclusiveCpuClass c) (opt_ControllableInterrupts c).

Definition known_class (c : Config) (name : string) : bool := bool_decide (is_Some (GetSchedulingClass c name)).

(** Assignments of scheduling classes to QoS classes are rewritten to use lower
    case if all of them are good. *)
Definition validate_qos `{GoRuntime} (c : Config) : Config * bool :=
  let assigned := map_range (opt_PodQoSSchedulingClasses c) in
  if forallb (λ qs, bool_decide (to_lower qs.1 ∈ validQoSClasses) && known_class c qs.2) assigned then
    (set_qos_classes (fold_left (λ m qs, <[to_lower qs.1 := qs.2]> m) assigned ∅) c, true)
  else (c, false).

Definition validate_namespaces `{GoRuntime} (c : Config) : bool :=
  forallb (λ ns, known_class c ns.2) (map_range (opt_NamespaceSchedulingClasses c)).

Definition validate_cpu_classes (c : Config) : Config * bool :=
  if bool_decide (opt_CPUClasses c = []) then (c, true)
  else
    let '(names, ok) :=
      match ValidateCPUClasses (opt_CPUClasses c) with Ok names => (names, true) | Err _ => (∅, false) end in
    let ok := ok && bool_decide (opt_SharedPoolCpuClass c ≠ "") && bool_decide (opt_SharedPoolCpuClass c ∈ names) &&
      (bool_decide (opt_DefaultExclusiveCpuClass c = "") || bool_decide (opt_DefaultExclusiveCpuClass c ∈ names)) in
    if bool_decide (opt_ReservedPoolCpuClass c = "") then (set_reserved_class (opt_SharedPoolCpuClass c) c, ok)
    else (c, ok && bool_decide (opt_ReservedPoolCpuClass c ∈ names)).

Section config.
Context `{GoRuntime} (E : TEnv) (cch : TCache).

(** The configuration, which may be changed, and whether it is valid. *)
Definition Config_Validate (c : Config) : Config * res unit :=
  let '(c, ok) := validate_qos c in
  let ok := ok && validate_namespaces c in
  let '(c, ok') := validate_cpu_classes c in
  (c, if ok && ok' && te_ValidPatterns E (opt_ControllableInterrupts c) then Ok tt else Err ErrOther).

(** ** Setup *)

Definition ta_Setup (cfg : Config) (irqAffinity : gmap Z CPUSet) (pins : gmap string Pinning) (coldStartOff : bool)
    : res (policy * res unit) :=
  match newAllocator [WithSystemNodes (te_SysNodes E)] with
  | Err e => Err e
  | Ok (malloc, _) =>
      let p := MkPolicy cfg cfg (prio_Value (opt_DefaultCPUPriority cfg)) nilnode ∅ ∅ ∅ ∅ ∅ 0 0 irqAffinity malloc
                 false coldStartOff [] pins in
      Ok (deferred E (initialize E p))
  end.

Definition checkColdstartOff (p : policy) : policy :=
  if existsb (λ id, bool_decide (sy_MemoryType (te_Sys E) id = sysfs_MemoryTypePMEM) &&
                    negb (sy_HasNormalMemory (te_Sys E) id)) (ts_NodeIDs (te_System E))
  then with_coldStartOff true p else p.

Definition ta_Start (p : policy) : policy := checkColdstartOff p.

(** ** Reconfiguration *)

(** A grant moves to the pool with the same name in the new tree. *)
Definition RefetchNodes (old new : policy) (g : grant) : option grant :=
  (λ n, set_node (NodeID n) g) <$> nodes_by_name (ta_root new) (pool_name old (g_node g)).

Definition refetch_all (old new : policy) (grants : gmap string grant) : option (gmap string grant) :=
  list_to_map <$> mapM (λ ig, pair ig.1 <$> RefetchNodes old new ig.2) (map_range grants).

(** The saved policy with what is not part of it: global variables, the memory
    allocator, containers and interrupts. *)
Definition restore_saved (saved p : policy) : policy :=
  with_opt (ta_opt p) (with_defaultPrio (ta_defaultPrio p) (with_memory (ta_memAllocator p)
    (with_settings (ta_pins p) (with_irqAffinity (ta_irqAffinity p) (with_coldStartOff (ta_coldStartOff p) saved))))).

Definition reconfigure (cfg : Config) (saved : policy) : policy * res unit :=
  let allocations := clone_grants (ta_grants saved) in
  let p := with_defaultPrio (prio_Value (opt_DefaultCPUPriority cfg)) (with_cfg cfg (with_opt cfg saved)) in
  match initialize E p with
  | (p, Err Panic) => (p, Err Panic)
  | (p, Err e) => (restore_saved saved p, Err e)
  | (p, Ok _) =>
      match refetch_all saved p allocations with
      | None =>
          let p := restore_saved saved p in
          (with_defaultPrio (prio_Value (opt_DefaultCPUPriority (ta_cfg p))) (with_opt (ta_cfg p) p), Err ErrOther)
      | Some grants =>
          match restoreAllocations E cch grants (ta_irqCnt saved) p with
          | (p, Ok _) => (p, Ok tt)
          | (p, Err Panic) => (p, Err Panic)
          | (p, Err e) => let p := restore_saved saved p in (with_opt (ta_cfg p) p, Err e)
          end
      end
  end.

Definition ta_Reconfigure (cfg : Config) (p : policy) : policy * res unit := deferred E (reconfigure cfg p).

(** ** Events *)

Inductive Event :=
  | ContainerStarted (id : string)
  | ColdStartDone (id : string)
  | OtherEvent.

Definition ta_HandleEvent (e : Event) (p : policy) : policy * res bool :=
  match e with
  | ContainerStarted id => (triggerColdStart id p, Ok false)
  | ColdStartDone id =>
      match tch_containers cch !! id with
      | None => (p, Err ErrOther)
      | Some _ => finishColdStart id p
      end
  | OtherEvent => (p, Ok false)
  end.

(** ** Grants in the cache *)

Record cachedGrant := MkCachedGrant {
  cg_PrettyName : string;
  cg_Exclusive : string;
  cg_Part : Z;
  cg_CPUType : cpuType;
  cg_CPUClass : string;
  cg_Container : string;
  cg_Pool : string;
  cg_MemoryPool : Z;
  cg_MemType : string;
  cg_MemSize : Z;
  cg_ColdStart : Z;
  cg_Irqs : option IrqAffinity;
}.

(** A cached grant with the memory type as it is marshalled. *)
Definition newCachedGrant (p : policy) (g : grant) : cachedGrant :=
  MkCachedGrant (ctr_PrettyName cch (ctr_of cch g)) (te_String E (g_exclusive g)) (g_cpuPortion g) (g_cpuType g)
    (g_cpuClass g) (g_container g) (pool_name p (g_node g)) (g_memZone g) (TypeMask_String (g_memType g))
    (g_memSize g) (g_coldStart g) (g_irqs g).

(** The grant, once the memory type has been unmarshalled. *)
Definition ToGrant (p : policy) (ccg : cachedGrant) (memType : Z) : res grant :=
  match nodes_by_name (ta_root p) (cg_Pool ccg) with
  | None => Err ErrOther
  | Some node =>
      match tch_containers cch !! cg_Container ccg with
      | None => Err ErrOther
      | Some c =>
          match te_Parse E (cg_Exclusive ccg) with
          | None => Err Panic
          | Some exclusive =>
              Ok (set_memSize (cg_MemSize ccg) (set_memZone (cg_MemoryPool ccg)
                (newGrant (NodeID node) (tc_ID c) (cg_CPUType ccg) (cg_CPUClass ccg) exclusive (cg_Part ccg) memType
                   (cg_Irqs ccg) (cg_ColdStart ccg))))
          end
      end
  end.

Definition allocations_MarshalJSON (p : policy) (grants : gmap string grant) : gmap string cachedGrant :=
  newCachedGrant p <$> grants.

(** Grants that cannot be resolved are dropped; an unknown memory type makes
    unmarshalling fail. *)
Fixpoint unmarshal_grants (p : policy) (cgrants : list (string * cachedGrant)) : res (gmap string grant) :=
  match cgrants with
  | [] => Ok ∅
  | (id, ccg) :: cgrants' =>
      let! memType := parseMemoryType (cg_MemType ccg) in
      let! grants := unmarshal_grants p cgrants' in
      match ToGrant p ccg memType with
      | Ok g => Ok (<[id := g]> grants)
      | Err Panic => Err Panic
      | Err _ => Ok grants
      end
  end.

Definition allocations_UnmarshalJSON (p : policy) (cgrants : gmap string cachedGrant) : res (gmap string grant) :=
  unmarshal_grants p (map_range cgrants).

(** ** What is published *)

Record TopologyZone := MkTopologyZone {
  tz_Name : string;
  tz_Parent : string;
  tz_Type : NodeKind;
  tz_memCapacity : Z;
  tz_memAvailable : Z;
  tz_cpuCapacity : Z;
  tz_cpuAvailable : Z;
  tz_Memset : gset Z;
  tz_Shared : CPUSet;
  tz_Reserved : option CPUSet;
  tz_Isolated : option CPUSet;
}.

Definition topology_zone (p : policy) (pool : Pool) : TopologyZone :=
  let total := GetSupply pool in
  let free := FreeSupply p (NodeID pool) in
  let zone := pool_mask pool memoryAll in
  MkTopologyZone (Name pool)
    (match Parents p (NodeID pool) with [] => "" | parent :: _ => Name parent end)
    (nd_kind (pool_node pool)) (ZoneCapacity (ta_memAllocator p) zone) (ZoneFree (ta_memAllocator p) zone)
    (1000 * csize (su_sharable total ∪ su_reserved total)) (AllocatableSharedCPU cch p pool)
    (GetMemset pool memoryAll) (su_sharable free)
    (if bool_decide (su_reserved total = ∅) then None else Some (su_reserved total))
    (if bool_decide (su_isolated free = ∅) then None else Some (su_isolated total)).

Definition ta_GetTopologyZones (p : policy) : list TopologyZone := topology_zone p <$> ta_pools p.

Definition maybe_export (name value : string) (export : bool) (data : gmap string string) : gmap string string :=
  if export then <[name := value]> data else data.

Definition ta_ExportResourceData (p : policy) (id : string) : option (gmap string string) :=
  g ← ta_grants p !! id;
  let shared := te_String E (SharedCPUs p g) in
  let isolated := te_String E (IsolatedCPUs p g) in
  let exclusive := te_String E (g_exclusive g ∖ IsolatedCPUs p g) in
  let mems := g_memZone g in
  let by_type types := mems &&& NodesByTypes (a_masks (ta_memAllocator p)) types in
  let maybe_mems name types :=
    maybe_export name (NodeMask_MemsetString (by_type types)) (bool_decide (NodeMask_Size (by_type types) > 0)) in
  Some (maybe_mems "HBM_MEMS" TypeMaskHBM (maybe_mems "PMEM_MEMS" TypeMaskPMEM (maybe_mems "DRAM_MEMS" TypeMaskDRAM
    (maybe_export "ALL_MEMS" (NodeMask_MemsetString mems) true
      (maybe_export "EXCLUSIVE_CPUS" exclusive (bool_decide (exclusive ≠ ""))
        (maybe_export "ISOLATED_CPUS" isolated (bool_decide (isolated ≠ ""))
          (maybe_export "SHARED_CPUS" shared (bool_decide (SharedPortion g > 0 ∧ shared ≠ "")) ∅))))))).
End config.
