(* ===== verification/TaAccount.v ===== *)
(** * The tree of pools

    Traversals, the pools above and below a pool, and what a well-formed tree
    promises: a pool has the CPUs of the pools below it, and pools of which
    neither is above the other have no CPUs in common.  Then the books: what
    accounting for a grant does to the free supplies of the pools. *)

From S2P Require Import Prelude GoStrings MemTypes MemNodes MemRequest MemZones MemAllocator Expr CpuTree CpuOrder CpuResizeFacts CpuAlloc CpuAllocFacts CpuTopo BlnTypes TaTypes TaPrefs TaSupply.

Open Scope Z_scope.

Lemma Pool_rect' (P : Pool → Prop) :
  (∀ n cs, Forall P cs → P (MkPool n cs)) → ∀ t, P t.
Proof.
  intros Hstep. fix IH 1. intros [n cs]. apply Hstep. induction cs as [|c cs IHcs]; constructor; [apply IH|exact IHcs].
Qed.

(** CPUs a pool can give away exclusively. *)
Definition pool_cpus (n : Pool) : CPUSet := su_isolated (GetSupply n) ∪ su_sharable (GetSupply n).

(** ** Below and above *)

Definition below (m n : Pool) : Prop := m ∈ DepthFirst n.

Lemma below_iff m n : below m n ↔ m = n ∨ ∃ c, c ∈ pool_children n ∧ below m c.
Proof.
  unfold below. destruct n as [nd cs]. cbn [DepthFirst pool_children].
  rewrite elem_of_app, list_elem_of_singleton, elem_of_concat_map. naive_solver.
Qed.

Lemma below_refl n : below n n.
Proof. apply below_iff. by left. Qed.

Lemma below_child m c n : c ∈ pool_children n → below m c → below m n.
Proof. intros. apply below_iff. eauto. Qed.

Lemma below_trans l m n : below l m → below m n → below l n.
Proof.
  revert l m. induction n as [nd cs IH] using Pool_rect'. intros l m Hl [->|(c & Hc & Hm)]%below_iff; [done|].
  rewrite Forall_forall in IH. eapply below_child; [exact Hc|]. by eapply IH.
Qed.

(** A tree is larger than what is below it. *)
Definition tree_size (n : Pool) : nat := length (DepthFirst n).

Lemma child_size c n : c ∈ pool_children n → (tree_size c < tree_size n)%nat.
Proof.
  destruct n as [nd cs]. cbn. intros (l & r & ->)%list_elem_of_split. unfold tree_size.
  cbn [DepthFirst pool_children]. rewrite map_app, concat_app. cbn. rewrite !length_app. cbn. lia.
Qed.

Lemma below_size m n : below m n → m = n ∨ (tree_size m < tree_size n)%nat.
Proof.
  revert m. induction n as [nd cs IH] using Pool_rect'. intros m [->|(c & Hc & Hm)]%below_iff; [by left|].
  right. rewrite Forall_forall in IH. pose proof (child_size c _ Hc). destruct (IH c Hc m Hm) as [->|]; lia.
Qed.

(** A pool is below another one and above it only if they are the same. *)
Lemma below_antisym m n : below m n → below n m → m = n.
Proof. intros H1%below_size H2%below_size. destruct H1 as [?|]; [done|]. destruct H2 as [?|]; [done|lia]. Qed.

Lemma below_child_ne m c n : c ∈ pool_children n → below m c → m ≠ n.
Proof. intros Hc%child_size Hm%below_size Heq. subst n. destruct Hm as [Hm|]; [subst c|]; lia. Qed.

(** A pool is also in the list of the other traversal. *)
Lemma BreadthFirst_perm n : BreadthFirst n ≡ₚ DepthFirst n.
Proof.
  induction n as [nd cs IH] using Pool_rect'. cbn [BreadthFirst DepthFirst pool_children].
  rewrite <- Permutation_cons_append. constructor.
  induction IH as [|c cs Hc _ IHcs]; [done|]. cbn. by rewrite Hc, IHcs.
Qed.

Lemma elem_of_BreadthFirst m n : m ∈ BreadthFirst n ↔ below m n.
Proof. unfold below. by rewrite BreadthFirst_perm. Qed.

(** ** Well-formed trees *)

(** [I] and [R] are the isolated and the reserved CPUs of the policy. *)
Record tree_wf (I R : CPUSet) (root : Pool) : Prop := {
  wf_ids : NoDup (NodeID <$> DepthFirst root);
  wf_isolated : ∀ n, below n root → su_isolated (GetSupply n) ⊆ I;
  wf_sharable : ∀ n, below n root → su_sharable (GetSupply n) ## I ∪ R;
  wf_reserved : ∀ n, below n root → su_reserved (GetSupply n) ⊆ R;
  wf_sub : ∀ n c, below n root → c ∈ pool_children n →
    pool_cpus c ⊆ pool_cpus n ∧ su_reserved (GetSupply c) ⊆ su_reserved (GetSupply n);
  wf_disj : ∀ n c c', below n root → c ∈ pool_children n → c' ∈ pool_children n → NodeID c ≠ NodeID c' →
    pool_cpus c ## pool_cpus c';
}.

(** The IDs of the pools below a pool, child by child. *)
Lemma tree_ids nd cs :
  NodeID <$> DepthFirst (MkPool nd cs) = app (concat (map (λ c, NodeID <$> DepthFirst c) cs)) [nd_id nd].
Proof. cbn [DepthFirst pool_children]. by rewrite fmap_app, concat_map_fmap. Qed.

Lemma concat_apart {A B} (f : A → list B) cs c c' x :
  NoDup (concat (map f cs)) → c ∈ cs → c' ∈ cs → x ∈ f c → x ∈ f c' → c = c'.
Proof.
  induction cs as [|d cs IH]; [by intros _ ?%not_elem_of_nil|]. cbn. intros (_ & Hd & Hnd)%NoDup_app.
  intros [->|Hc]%elem_of_cons [->|Hc']%elem_of_cons Hx Hx'; [done|..|by apply IH].
  - destruct (Hd x Hx). apply elem_of_concat_map. eauto.
  - destruct (Hd x Hx'). apply elem_of_concat_map. eauto.
Qed.

Lemma ids_below n root : below n root → NoDup (NodeID <$> DepthFirst root) → NoDup (NodeID <$> DepthFirst n).
Proof.
  revert n. induction root as [nd cs IH] using Pool_rect'. intros n [->|(c & Hc & Hn)]%below_iff; [done|].
  rewrite tree_ids. intros (Hnd & _)%NoDup_app. rewrite Forall_forall in IH. apply (IH c Hc n Hn).
  apply list_elem_of_split in Hc as (l & r & Heq). cbn in Heq. subst cs.
  rewrite map_app, concat_app in Hnd. apply NoDup_app in Hnd as (_ & _ & Hnd). cbn in Hnd.
  by apply NoDup_app in Hnd as (Hnd & _).
Qed.

(** A pool is below one child at most. *)
Lemma children_apart root m c c' : NoDup (NodeID <$> DepthFirst root) → c ∈ pool_children root →
  c' ∈ pool_children root → below m c → below m c' → c = c'.
Proof.
  destruct root as [nd cs]. rewrite tree_ids. intros (Hnd & _)%NoDup_app Hc Hc' Hm Hm'.
  eapply (concat_apart _ cs c c' (NodeID m) Hnd); [done|done|..]; by apply list_elem_of_fmap_2.
Qed.

Section tree.
Context (I R : CPUSet) (root : Pool) (Hwf : tree_wf I R root).

Lemma same_id m n : below m root → below n root → NodeID m = NodeID n → m = n.
Proof.
  intros Hm Hn Hid. pose proof (wf_ids _ _ _ Hwf) as Hnd. unfold below in *.
  apply list_elem_of_lookup in Hm as [i Hi]. apply list_elem_of_lookup in Hn as [j Hj].
  assert (i = j) as ->; [|congruence].
  eapply NoDup_lookup; [exact Hnd|rewrite list_lookup_fmap, Hi; reflexivity|].
  rewrite list_lookup_fmap, Hj. cbn. by rewrite Hid.
Qed.

Lemma find_pool_below n : below n root → find_pool root (NodeID n) = Some n.
Proof.
  intros Hn. unfold find_pool. destruct (list_find _ _) as [[i m]|] eqn:Hf; cbn.
  - apply list_find_Some in Hf as (Hi & Hid & _). f_equal.
    apply same_id; [|done|done]. by eapply list_elem_of_lookup_2.
  - apply list_find_None in Hf. rewrite Forall_forall in Hf. by destruct (Hf n).
Qed.

Lemma find_pool_Some id n : find_pool root id = Some n → below n root ∧ NodeID n = id.
Proof.
  unfold find_pool. destruct (list_find _ _) as [[i m]|] eqn:Hf; [|done]. cbn. intros [= ->].
  apply list_find_Some in Hf as (Hi & Hid & _). split; [by eapply list_elem_of_lookup_2|done].
Qed.

Lemma wf_child n : below n root → tree_wf I R n.
Proof.
  intros Hn. destruct Hwf as [H1 H2 H3 H4 H5 H6]. split.
  - by apply (ids_below n root).
  - intros m Hm. apply H2. by eapply below_trans.
  - intros m Hm. apply H3. by eapply below_trans.
  - intros m Hm. apply H4. by eapply below_trans.
  - intros m c Hm. apply H5. by eapply below_trans.
  - intros m c c' Hm. apply H6. by eapply below_trans.
Qed.
End tree.

Section below.
Context (I R : CPUSet).

Lemma below_sub root m n : tree_wf I R root → below n root → below m n →
  pool_cpus m ⊆ pool_cpus n ∧ su_reserved (GetSupply m) ⊆ su_reserved (GetSupply n).
Proof.
  intros Hwf. revert m. induction n as [nd cs IH] using Pool_rect'. intros m Hn [->|(c & Hc & Hm)]%below_iff; [done|].
  rewrite Forall_forall in IH. destruct (IH c Hc m (below_trans _ _ _ (below_child _ _ _ Hc (below_refl c)) Hn) Hm).
  destruct (wf_sub _ _ _ Hwf _ c Hn Hc). split; (etrans; [eassumption|done]).
Qed.

(** The sharable and the isolated CPUs of a pool below are of the same kind in
    the pool above. *)
Lemma below_kinds root m n : tree_wf I R root → below n root → below m n →
  su_sharable (GetSupply m) ⊆ su_sharable (GetSupply n) ∧ su_isolated (GetSupply m) ⊆ su_isolated (GetSupply n).
Proof.
  intros Hwf Hn Hm. destruct (below_sub _ _ _ Hwf Hn Hm) as [Hsub _]. unfold pool_cpus in Hsub.
  pose proof (below_trans _ _ _ Hm Hn) as Hmr.
  pose proof (wf_isolated _ _ _ Hwf m Hmr). pose proof (wf_isolated _ _ _ Hwf n Hn).
  pose proof (wf_sharable _ _ _ Hwf m Hmr). pose proof (wf_sharable _ _ _ Hwf n Hn). set_solver.
Qed.

(** One of two pools is above the other or they have no CPUs in common. *)
Lemma below_cases root m n : tree_wf I R root → below m root → below n root →
  below m n ∨ below n m ∨ pool_cpus m ## pool_cpus n.
Proof.
  revert m n. induction root as [nd cs IH] using Pool_rect'. intros m n Hwf Hm Hn.
  pose proof Hm as [->|(c & Hc & Hmc)]%below_iff; [by right; left|].
  pose proof Hn as [->|(c' & Hc' & Hnc)]%below_iff; [by left|].
  assert (below c (MkPool nd cs)) as Hcr by (eapply below_child, below_refl; done).
  assert (below c' (MkPool nd cs)) as Hcr' by (eapply below_child, below_refl; done).
  destruct (decide (NodeID c = NodeID c')) as [Heq|Hne].
  - assert (c = c') as <- by (eapply same_id; done). rewrite Forall_forall in IH.
    apply (IH c Hc); [by apply (wf_child _ _ _ Hwf)|done..].
  - right; right. pose proof (wf_disj _ _ _ Hwf _ c c' (below_refl _) Hc Hc' Hne) as Hd.
    destruct (below_sub _ _ _ Hwf Hcr Hmc) as [H1 _]. destruct (below_sub _ _ _ Hwf Hcr' Hnc) as [H2 _]. set_solver.
Qed.

(** ** The chain of parents *)

Lemma ancestors_unfold root id :
  ancestors root id =
    if bool_decide (NodeID root = id) then Some []
    else foldr (λ c rest, match ancestors c id with Some above => Some (app above [root]) | None => rest end)
           None (pool_children root).
Proof.
  destruct root as [nd cs]. cbn [ancestors pool_children]. case_bool_decide; [done|].
  induction cs as [|c cs IHcs]; [done|]. cbn. by destruct (ancestors c id).
Qed.

Lemma ancestors_Some root id above :
  ancestors root id = Some above →
  (NodeID root = id ∧ above = []) ∨
  (NodeID root ≠ id ∧ ∃ c above', c ∈ pool_children root ∧ ancestors c id = Some above' ∧ above = app above' [root]).
Proof.
  rewrite ancestors_unfold. case_bool_decide as Hid; [by intros [= <-]; left|]. intros Hf. right. split; [done|].
  induction (pool_children root) as [|c cs IHcs]; [done|]. cbn in Hf. destruct (ancestors c id) as [ab|] eqn:Hc.
  - injection Hf as <-. exists c, ab. split_and!; [left|done|done].
  - destruct (IHcs Hf) as (c' & ab & ? & ? & ?). exists c', ab. split_and!; [by right|done|done].
Qed.

Lemma ancestors_below root id above : ancestors root id = Some above → ∃ n, below n root ∧ NodeID n = id.
Proof.
  revert above. induction root as [nd cs IH] using Pool_rect'. intros above Ha.
  apply ancestors_Some in Ha as [[Hid _]|(_ & c & ab & Hc & Ha & _)]; [eexists; split; [apply below_refl|done]|].
  rewrite Forall_forall in IH. destruct (IH c Hc ab Ha) as (n & Hn & Hid). exists n. split; [by eapply below_child|done].
Qed.

Lemma ancestors_is_Some root n : below n root → is_Some (ancestors root (NodeID n)).
Proof.
  revert n. induction root as [nd cs IH] using Pool_rect'. intros n Hn. rewrite ancestors_unfold.
  case_bool_decide as Hid; [by eexists|]. apply below_iff in Hn as [->|(c & Hc & Hn)]; [done|].
  rewrite Forall_forall in IH. cbn in *. assert (∀ l, c ∈ l → (∀ x, x ∈ l → x ∈ cs) →
    is_Some (foldr (λ c rest, match ancestors c (NodeID n) with Some above => Some (app above [MkPool nd cs]) | None => rest end) None l)) as Hl.
  { induction l as [|x l IHl]; [by intros ?%not_elem_of_nil|]. intros [->|Hcl]%elem_of_cons Hall; cbn.
    - destruct (IH x Hc n Hn) as [ab ->]. by eexists.
    - destruct (ancestors x (NodeID n)); [by eexists|]. apply IHl; [done|]. intros y Hy. apply Hall. by right. }
  by apply Hl.
Qed.

(** The pools above a pool are those it is below of, each once. *)
Lemma ancestors_spec root n above : tree_wf I R root → below n root → ancestors root (NodeID n) = Some above →
  NoDup (NodeID <$> above) ∧ ∀ m, m ∈ above ↔ below m root ∧ below n m ∧ m ≠ n.
Proof.
  revert n above. induction root as [nd cs IH] using Pool_rect'. intros n above Hwf Hn Ha.
  pose proof (same_id _ _ _ Hwf) as Hsame.
  apply ancestors_Some in Ha as [[Hid ->]|(Hid & c & ab & Hc & Ha & ->)].
  - assert (MkPool nd cs = n) as <- by (apply Hsame; [apply below_refl|done|done]).
    split; [constructor|]. intros m. split; [by intros ?%not_elem_of_nil|]. intros (Hm & Hn' & Hne).
    by destruct Hne; apply below_antisym.
  - assert (below c (MkPool nd cs)) as Hcr by (eapply below_child, below_refl; done).
    destruct (ancestors_below _ _ _ Ha) as (n' & Hn' & Hid').
    assert (n' = n) as -> by (apply Hsame; [by eapply below_trans|done|done]).
    rewrite Forall_forall in IH. destruct (IH c Hc n ab (wf_child _ _ _ Hwf c Hcr) Hn' Ha) as [Hnd Hab]. split.
    + rewrite fmap_app. apply NoDup_app. split_and!; [done| |apply NoDup_singleton].
      intros id (m & Hmid & Hm)%list_elem_of_fmap Hin. cbn in Hin. apply list_elem_of_singleton in Hin. subst id.
      apply Hab in Hm as (Hm & _). apply (below_child_ne m c _ Hc Hm).
      apply Hsame; [by eapply below_trans|apply below_refl|done].
    + intros m. rewrite elem_of_app, Hab, list_elem_of_singleton. split.
      * intros [(Hm & Hnm & Hne)| ->]; [split_and!; [by eapply below_trans|done|done]|].
        split_and!; [apply below_refl|done|]. intros Heq. by apply (below_child_ne n c _ Hc Hn').
      * intros (Hm & Hnm & Hne). apply below_iff in Hm as [->|(c' & Hc' & Hm)]; [by right|]. left.
        assert (c' = c) as ->; [|done].
        eapply (children_apart _ n _ _ (wf_ids _ _ _ Hwf)); [done|done|by eapply below_trans|done].
Qed.

Lemma Parents_spec p n : tree_wf I R (ta_root p) → below n (ta_root p) →
  NoDup (NodeID <$> Parents p (NodeID n)) ∧
  ∀ m, m ∈ Parents p (NodeID n) ↔ below m (ta_root p) ∧ below n m ∧ m ≠ n.
Proof.
  intros Hwf Hn. unfold Parents. destruct (ancestors_is_Some _ _ Hn) as [above Ha]. rewrite Ha. by apply ancestors_spec.
Qed.
End below.

(** * Accounting of CPUs in the pools

    The free supply of every pool is its capacity less what has been granted,
    from whichever pool it was granted.  Allocating and releasing CPUs keep
    these books, also when an allocation fails half way. *)

Open Scope Z_scope.

(** ** Frames *)

(** Nothing but free supplies has changed. *)
Definition same_but_free (p p' : policy) : Prop := with_free (ta_free p') p = p'.

Lemma sbf_refl p : same_but_free p p.
Proof. by destruct p. Qed.

Lemma sbf_trans p q r : same_but_free p q → same_but_free q r → same_but_free p r.
Proof. unfold same_but_free. intros <- <-. done. Qed.

Lemma sbf_set id cs p : same_but_free p (set_supply id cs p).
Proof. done. Qed.

Lemma sbf_root p p' : same_but_free p p' → ta_root p' = ta_root p.
Proof. by intros <-. Qed.

Lemma sbf_grants p p' : same_but_free p p' → ta_grants p' = ta_grants p.
Proof. by intros <-. Qed.

Lemma FreeSupply_set id cs p id' :
  FreeSupply (set_supply id cs p) id' = if bool_decide (id' = id) then cs else FreeSupply p id'.
Proof.
  unfold FreeSupply, set_supply. cbn. case_bool_decide as Hid.
  - subst. by rewrite lookup_insert_eq.
  - by rewrite lookup_insert_ne by done.
Qed.

(** A step that changes the supplies of pools one by one. *)
Definition adjust (skip : Z) (f : Pool → supply → supply) (p : policy) (n : Pool) : policy :=
  if bool_decide (NodeID n = skip) then p else set_supply (NodeID n) (f n (FreeSupply p (NodeID n))) p.

Lemma adjust_sbf skip f l p : same_but_free p (fold_left (adjust skip f) l p).
Proof.
  revert p. induction l as [|n l IH]; intros p; [apply sbf_refl|]. cbn.
  eapply sbf_trans; [|apply IH]. unfold adjust. case_bool_decide; [apply sbf_refl|apply sbf_set].
Qed.

Lemma adjust_not_in skip f l p id : id ∉ NodeID <$> l → FreeSupply (fold_left (adjust skip f) l p) id = FreeSupply p id.
Proof.
  revert p. induction l as [|n l IH]; intros p; [done|]. cbn. intros [Hne Hl]%not_elem_of_cons. rewrite IH by done.
  unfold adjust. case_bool_decide; [done|]. by rewrite FreeSupply_set, bool_decide_eq_false_2.
Qed.

Lemma adjust_in skip f l p n : NoDup (NodeID <$> l) → n ∈ l → NodeID n ≠ skip →
  FreeSupply (fold_left (adjust skip f) l p) (NodeID n) = f n (FreeSupply p (NodeID n)).
Proof.
  revert p. induction l as [|m l IH]; intros p; [by intros _ ?%not_elem_of_nil|]. cbn.
  intros [Hm Hnd]%NoDup_cons [<-|Hn]%elem_of_cons Hs.
  - rewrite adjust_not_in by done. unfold adjust. rewrite bool_decide_eq_false_2 by done.
    by rewrite FreeSupply_set, bool_decide_eq_true_2.
  - rewrite IH by done. unfold adjust. case_bool_decide; [done|].
    rewrite FreeSupply_set, bool_decide_eq_false_2; [done|]. intros Heq. destruct Hm. rewrite <- Heq.
    by apply list_elem_of_fmap_2.
Qed.

Lemma adjust_skip skip f l p : FreeSupply (fold_left (adjust skip f) l p) skip = FreeSupply p skip.
Proof.
  revert p. induction l as [|m l IH]; intros p; [done|]. cbn. rewrite IH. unfold adjust.
  case_bool_decide; [done|]. by rewrite FreeSupply_set, bool_decide_eq_false_2.
Qed.

(** The two accounting operations are such steps. *)
Definition less (X : CPUSet) (_ : Pool) (cs : supply) : supply :=
  set_cpus (su_isolated cs ∖ X) (su_sharable cs ∖ X) cs.

Definition plus (X : CPUSet) (n : Pool) (cs : supply) : supply :=
  let Y := X ∩ pool_cpus n in
  set_cpus (su_isolated cs ∪ Y ∩ su_isolated (GetSupply n)) (su_sharable cs ∪ Y ∩ su_sharable (GetSupply n)) cs.

Section account.
Context (I R : CPUSet) (p : policy) (Hwf : tree_wf I R (ta_root p)).

Lemma subtree_below n : below n (ta_root p) → subtree p (NodeID n) = DepthFirst n.
Proof. intros Hn. unfold subtree. by rewrite (find_pool_below _ _ _ Hwf n Hn). Qed.

Lemma node_supply_below n : below n (ta_root p) → node_supply p (NodeID n) = GetSupply n.
Proof. intros Hn. unfold node_supply. by rewrite (find_pool_below _ _ _ Hwf n Hn). Qed.

(** All pools below and above a pool, each once. *)
Lemma related_nodup n : below n (ta_root p) → NoDup (NodeID <$> app (DepthFirst n) (Parents p (NodeID n))).
Proof.
  intros Hn. destruct (Parents_spec _ _ p n Hwf Hn) as [Hnd Hin]. rewrite fmap_app. apply NoDup_app.
  split_and!; [by eapply ids_below, (wf_ids _ _ _ Hwf)| |done].
  intros id (m & -> & Hm)%list_elem_of_fmap (m' & Heq & Hm')%list_elem_of_fmap.
  apply Hin in Hm' as (Hr & Hnm & Hne). assert (m = m') as ->.
  { eapply same_id; [exact Hwf|by eapply below_trans|done|done]. }
  apply Hne. by apply below_antisym.
Qed.

(** What an adjustment of the pools related to one does to every pool, given
    that it does nothing to those that are not related. *)
Lemma adjust_related n f q m : below n (ta_root p) → below m (ta_root p) → NodeID m ≠ NodeID n →
  (pool_cpus m ## pool_cpus n → f m (FreeSupply q (NodeID m)) = FreeSupply q (NodeID m)) →
  FreeSupply (fold_left (adjust (NodeID n) f) (app (DepthFirst n) (Parents p (NodeID n))) q) (NodeID m) =
    f m (FreeSupply q (NodeID m)).
Proof.
  intros Hn Hm Hne Hf. destruct (Parents_spec _ _ p n Hwf Hn) as [_ Hin]. set (l := app _ _).
  assert (∀ x, x ∈ l → below x (ta_root p)) as Hl.
  { intros x [Hb|Hb]%elem_of_app; [by eapply below_trans|]. by apply Hin in Hb as [? _]. }
  destruct (decide (NodeID m ∈ NodeID <$> l)) as [Hrel|Hrel].
  - apply adjust_in; [by apply related_nodup| |done].
    apply list_elem_of_fmap in Hrel as (m' & Heq & Hm').
    assert (m = m') as ->; [|done]. eapply same_id; [exact Hwf|done|by apply Hl|done].
  - rewrite adjust_not_in by done. symmetry. apply Hf.
    destruct (below_cases _ _ _ m n Hwf Hm Hn) as [Hb|[Hb|Hd]]; [..|done];
      destruct Hrel; apply list_elem_of_fmap_2, elem_of_app; [by left|].
    right. apply Hin. split_and!; [done|done|]. by intros ->.
Qed.
End account.

Lemma AccountAllocateCPU_adjust g p :
  AccountAllocateCPU g p =
    fold_left (adjust (g_node g) (less (g_exclusive g))) (app (subtree p (g_node g)) (Parents p (g_node g))) p.
Proof. unfold AccountAllocateCPU. by rewrite fold_left_app. Qed.

Lemma AccountReleaseCPU_adjust g p :
  AccountReleaseCPU g p =
    fold_left (adjust (g_node g) (plus (g_exclusive g))) (app (subtree p (g_node g)) (Parents p (g_node g))) p.
Proof. unfold AccountReleaseCPU. by rewrite fold_left_app. Qed.

(** ** The books *)

(** CPUs that a list of grants has exclusively. *)
Definition taken (G : list grant) : CPUSet := ⋃ (g_exclusive <$> G).

(** What a list of grants has of a pool. *)
Definition granted (f : grant → Z) (id : Z) (G : list grant) : Z :=
  foldr (λ g acc, (if bool_decide (g_node g = id) then f g else 0) + acc) 0 G.

(** The free supply of a pool after a list of grants. *)
Definition supply_after (G : list grant) (n : Pool) : supply :=
  MkSupply (su_isolated (GetSupply n) ∖ taken G) (su_reserved (GetSupply n)) (su_sharable (GetSupply n) ∖ taken G)
    (granted ReservedPortion (NodeID n) G) (granted SharedPortion (NodeID n) G).

(** A grant is from a pool that has the CPUs of the grant. *)
Definition grant_ok (root : Pool) (g : grant) : Prop :=
  0 ≤ g_cpuPortion g ∧ ∃ n, below n root ∧ NodeID n = g_node g ∧ g_exclusive g ⊆ pool_cpus n.

Record books (p : policy) (G : list grant) : Prop := {
  bk_free : ∀ n, below n (ta_root p) → FreeSupply p (NodeID n) = supply_after G n;
  bk_ok : Forall (grant_ok (ta_root p)) G;
  bk_disj : disjoint_sets (g_exclusive <$> G);
}.

(** The books determine the free supplies. *)
Lemma books_determine p p' G : ta_root p' = ta_root p → books p G → books p' G →
  ∀ n, below n (ta_root p) → FreeSupply p' (NodeID n) = FreeSupply p (NodeID n).
Proof. intros Hr [H1 _ _] [H2 _ _] n Hn. rewrite H1, H2; [done|by rewrite Hr|done]. Qed.

Lemma taken_cons g G : taken (g :: G) = g_exclusive g ∪ taken G.
Proof. done. Qed.

Lemma taken_perm G G' : G ≡ₚ G' → taken G = taken G'.
Proof. intros HG. apply set_eq. intros x. unfold taken. rewrite !elem_of_union_list. by setoid_rewrite HG. Qed.

(** A grant that is not of a pool has nothing of it. *)
Lemma granted_cons f id g G :
  granted f id (g :: G) = (if bool_decide (g_node g = id) then f g else 0) + granted f id G.
Proof. done. Qed.

Lemma granted_perm f id G G' : G ≡ₚ G' → granted f id G = granted f id G'.
Proof. induction 1; rewrite ?granted_cons; lia. Qed.

Lemma books_perm p G G' : G ≡ₚ G' → books p G → books p G'.
Proof.
  intros HG [H1 H2 H3]. split.
  - intros n Hn. rewrite H1 by done. unfold supply_after. by rewrite (taken_perm _ _ HG), !(granted_perm _ _ _ _ HG).
  - by rewrite <- HG.
  - eapply disjoint_sets_perm; [|exact H3]. by rewrite HG.
Qed.

Lemma disjoint_taken X G : Forall (λ g, X ## g_exclusive g) G ↔ X ## taken G.
Proof.
  unfold taken. induction G as [|g G IH]; cbn; [set_solver|]. rewrite Forall_cons, IH. set_solver.
Qed.

Lemma books_disjoint p g G : books p (g :: G) → g_exclusive g ## taken G.
Proof.
  intros [_ _ [Hd _]]. apply disjoint_taken. rewrite Forall_fmap in Hd. exact Hd.
Qed.

Lemma granted_nonneg f id G : (∀ g, g ∈ G → 0 ≤ f g) → 0 ≤ granted f id G.
Proof.
  induction G as [|g G IH]; intros Hf; [done|]. rewrite granted_cons.
  assert (0 ≤ granted f id G) by (apply IH; intros; apply Hf; by right).
  pose proof (Hf g ltac:(by left)). case_bool_decide; lia.
Qed.

Lemma portion_nonneg g : 0 ≤ g_cpuPortion g → 0 ≤ SharedPortion g ∧ 0 ≤ ReservedPortion g.
Proof. intros. unfold SharedPortion, ReservedPortion. repeat case_bool_decide; lia. Qed.

(** ** Taking CPUs off the books and putting them back *)

Lemma supply_ext cs cs' : (∀ x, x ∈ su_isolated cs ↔ x ∈ su_isolated cs') →
  su_reserved cs = su_reserved cs' → (∀ x, x ∈ su_sharable cs ↔ x ∈ su_sharable cs') →
  su_grantedReserved cs = su_grantedReserved cs' → su_grantedShared cs = su_grantedShared cs' → cs = cs'.
Proof.
  destruct cs, cs'. cbn. intros HI%set_eq -> HS%set_eq -> ->. by rewrite HI, HS.
Qed.

(** Equality of supplies given by operations on the sets of another one, with
    the CPUs [X] told apart. *)
Ltac supply_solver X :=
  apply supply_ext; unfold less, plus, supply_after, set_cpus, add_granted;
  cbn [su_isolated su_reserved su_sharable su_grantedReserved su_grantedShared]; rewrite ?taken_cons, ?granted_cons;
  [let x := fresh "x" in intros x; unfold pool_cpus in *; destruct (decide (x ∈ X)); set_solver
  |done
  |let x := fresh "x" in intros x; unfold pool_cpus in *; destruct (decide (x ∈ X)); set_solver
  |repeat case_bool_decide; first [lia|congruence]
  |repeat case_bool_decide; first [lia|congruence]].

Section books.
Context (I R : CPUSet).

(** CPUs [X] that have been taken from the supply of the pool of a grant [g]
    are taken from all other supplies by the accounting. *)
Lemma AccountAllocate_books p q G g n : tree_wf I R (ta_root p) → books p G → same_but_free p q →
  below n (ta_root p) → g_node g = NodeID n → 0 ≤ g_cpuPortion g → g_exclusive g ⊆ pool_cpus n →
  g_exclusive g ## taken G →
  (∀ m, below m (ta_root p) → NodeID m ≠ NodeID n → FreeSupply q (NodeID m) = FreeSupply p (NodeID m)) →
  FreeSupply q (NodeID n) = supply_after (g :: G) n →
  books (AccountAllocateCPU g q) (g :: G) ∧ same_but_free p (AccountAllocateCPU g q).
Proof.
  intros Hwf [Hfree Hok Hdj] Hq Hn Hg Hpos Hsub Hdis Hothers Hthis.
  rewrite AccountAllocateCPU_adjust. pose proof (sbf_root _ _ Hq) as Hr.
  assert (tree_wf I R (ta_root q)) as Hwq by (by rewrite Hr).
  assert (below n (ta_root q)) as Hnq by (by rewrite Hr).
  rewrite Hg, (subtree_below _ _ _ Hwq n Hnq). split.
  - split.
    + rewrite (sbf_root _ _ (adjust_sbf _ _ _ _)), Hr. intros m Hm.
      destruct (decide (NodeID m = NodeID n)) as [Heq|Hne].
      { assert (m = n) as -> by (eapply same_id; [exact Hwf|done..]). by rewrite adjust_skip. }
      assert (FreeSupply q (NodeID m) = supply_after G m) as Hqm by (by rewrite Hothers, Hfree).
      rewrite (adjust_related _ _ _ Hwq); [|done|by rewrite Hr|done|].
      * rewrite Hqm. clear -Hg Hne. supply_solver (g_exclusive g).
      * intros Hd. rewrite Hqm. clear -Hd Hsub. supply_solver (g_exclusive g).
    + rewrite (sbf_root _ _ (adjust_sbf _ _ _ _)), Hr. constructor; [|done].
      split; [done|]. exists n. by rewrite Hg.
    + split; [|done]. rewrite Forall_fmap. by apply disjoint_taken in Hdis.
  - eapply sbf_trans; [exact Hq|apply adjust_sbf].
Qed.

Lemma ReleaseCPU_books p G g : tree_wf I R (ta_root p) → books p (g :: G) →
  books (ReleaseCPU g p) G ∧ same_but_free p (ReleaseCPU g p).
Proof.
  intros Hwf Hb. pose proof (books_disjoint _ _ _ Hb) as Hdis. destruct Hb as [Hfree Hok [Hd1 Hdj]].
  apply Forall_cons in Hok as [(Hpos & n & Hn & Hid & Hsub) Hok].
  pose proof (wf_isolated _ _ _ Hwf n Hn) as HI. pose proof (wf_sharable _ _ _ Hwf n Hn) as HS.
  assert (∀ m, below m (ta_root p) → NodeID m ≠ NodeID n →
    plus (g_exclusive g) m (supply_after (g :: G) m) = supply_after G m) as Hplus.
  { intros m Hm Hne. clear -Hid Hne Hdis. supply_solver (g_exclusive g). }
  unfold ReleaseCPU. cbn zeta. set (cs := add_granted _ _ _). set (q := set_supply _ _ _).
  assert (same_but_free p q) as Hq by done.
  assert (tree_wf I R (ta_root q)) as Hwq by done. assert (below n (ta_root q)) as Hnq by done.
  assert (FreeSupply q (NodeID n) = supply_after G n) as Hthis.
  { unfold q. rewrite <- Hid, FreeSupply_set, bool_decide_eq_true_2 by done. unfold cs.
    rewrite <- Hid, (node_supply_below _ _ _ Hwf n Hn), (Hfree n Hn).
    clear -Hid Hsub Hdis HI HS. supply_solver (g_exclusive g). }
  assert (∀ m, below m (ta_root p) → NodeID m ≠ NodeID n → FreeSupply q (NodeID m) = supply_after (g :: G) m) as Hother.
  { intros m Hm Hne. unfold q. rewrite FreeSupply_set, bool_decide_eq_false_2 by congruence. by apply Hfree. }
  clearbody q. clear cs. rewrite AccountReleaseCPU_adjust, <- Hid, (subtree_below _ _ _ Hwq n Hnq). split.
  - split; [|by rewrite (sbf_root _ _ (adjust_sbf _ _ _ _)), (sbf_root _ _ Hq)|done].
    rewrite (sbf_root _ _ (adjust_sbf _ _ _ _)), (sbf_root _ _ Hq). intros m Hm.
    destruct (decide (NodeID m = NodeID n)) as [Heq|Hne].
    { assert (m = n) as -> by (eapply same_id; [exact Hwf|done..]). by rewrite adjust_skip. }
    rewrite (adjust_related _ _ _ Hwq); [|done|by rewrite (sbf_root _ _ Hq)|done|].
    + rewrite Hother by done. by apply Hplus.
    + intros Hd. rewrite Hother by done. clear -Hd Hsub. supply_solver (g_exclusive g).
  - eapply sbf_trans; [exact Hq|apply adjust_sbf].
Qed.
End books.
