(* ===== verification/TaAlloc.v ===== *)
(** * Allocating CPUs from a pool

    Taking exclusive CPUs, by priority or by hints, from the isolated CPUs of
    a pool or from what the shared CPUs of its children can spare. *)

From S2P Require Import Prelude GoStrings Expr MemTypes MemNodes MemRequest MemZones MemAllocator CpuTree CpuOrder CpuResizeFacts CpuAlloc CpuAllocFacts CpuTopo BlnTypes TaTypes TaPrefs TaSupply TaAccount.

Open Scope Z_scope.

(** ** The CPU allocator *)

(** What the policy needs of the CPU allocator for the CPUs of its pools: a
    request for more CPUs than there are fails, any other one is fulfilled. *)
Class PoolCpus `{GoRuntime} (E : TEnv) (usable : CPUSet) : Prop := {
  pc_less from cnt prio : from ⊆ usable → csize from < cnt → takeCPUs E from cnt prio = (Err ErrOther, from);
  pc_take from cnt prio : from ⊆ usable → cnt ≤ csize from →
    ∃ X, takeCPUs E from cnt prio = (Ok X, from ∖ X) ∧ X ⊆ from ∧ csize X = Z.max 0 cnt;
}.

(** A negative number of CPUs is no CPUs. *)
Lemma take_sets_negative csets a : h_cnt a < 0 → take_sets csets a = a.
Proof.
  intros Ha. induction csets as [|c csets IH]; [done|]. cbn. rewrite bool_decide_eq_false_2; [done|].
  unfold csize. lia.
Qed.

Lemma allocateCpus_negative `{GoRuntime} (sys : CpuSys) topo from cnt options : cnt < 0 →
  allocateCpus (Some sys) topo from cnt options = (Ok ∅, from).
Proof.
  intros Hn. unfold allocateCpus. rewrite !bool_decide_eq_false_2 by (unfold csize; lia).
  set (a0 := fold_left _ _ _). clearbody a0. cbn [allocate_cpus]. unfold allocate, allocate_with.
  set (a := MkHelper _ from _ cnt ∅).
  assert ((if has_flag a AllocIdlePackages then takeIdlePackages sys topo a else a) = a) as ->.
  { destruct (has_flag a AllocIdlePackages); [|done]. unfold takeIdlePackages. by apply take_sets_negative. }
  assert (bool_decide (h_cnt a > 0) = false) as Hf by (apply bool_decide_eq_false_2; cbn; lia).
  rewrite Hf. cbn [andb]. destruct (bool_decide (Z.of_nat (size (tc_kind topo)) > 1)); cbn [res_bind];
    rewrite Hf; cbn [andb res_bind]; rewrite ?Hf; cbn [andb]; rewrite ?Hf; cbn;
    by rewrite bool_decide_eq_false_2 by lia.
Qed.

(** The allocator of a system keeps the promise for its online CPUs. *)
Lemma system_pool_cpus `{GoRuntime} (E : TEnv) (sys : CpuSys) topo (usable : CPUSet) :
  te_cpuAllocator E = (Some sys, topo) → topology_ok sys topo → usable ⊆ online sys → PoolCpus E usable.
Proof.
  intros Halloc Htopo Hus. split; intros from cnt prio Hfrom Hc.
  - unfold takeCPUs, AllocateCpus, allocateCpus. rewrite Halloc. cbn [fst snd]. by rewrite bool_decide_eq_true_2.
  - unfold takeCPUs, AllocateCpus. rewrite Halloc. cbn [fst snd]. destruct (decide (cnt < 0)).
    + rewrite allocateCpus_negative by done. exists ∅. rewrite difference_empty_L. split_and!; [done|set_solver|].
      unfold csize. rewrite size_empty. lia.
    + destruct (allocateCpus_spec (Some sys) topo from cnt [CpuAlloc.WithPriority prio]) as (X & -> & ? & ?);
        [split; [done|set_solver]|lia|lia|]. exists X. split_and!; [done|done|lia].
Qed.

Section alloc.
Context `{GoRuntime} (E : TEnv) (cch : TCache) (usable : CPUSet) `{!PoolCpus E usable}.

(** ** Taking CPUs *)

(** CPUs taken from a set, or the set left as it is. *)
Definition takes_from (from : CPUSet) (cnt : Z) (out : res CPUSet * CPUSet) : Prop :=
  match out with
  | (Ok X, rest) => rest = from ∖ X ∧ X ⊆ from ∧ csize X = Z.max 0 cnt
  | (Err _, rest) => rest = from
  end.

Lemma takeCPUs_takes from cnt prio : from ⊆ usable → takes_from from cnt (takeCPUs E from cnt prio).
Proof.
  intros Hf. destruct (decide (csize from < cnt)) as [Hlt|Hge].
  - by rewrite pc_less.
  - destruct (pc_take from cnt prio Hf) as (X & -> & ? & ?); [lia|]. done.
Qed.

Lemma take_by_hints_takes hints perHint prio free cpus out : free ⊆ usable → 0 ≤ perHint →
  take_by_hints E hints perHint prio free cpus = Ok (Some out) →
  ∃ X, X ⊆ free ∧ out = (free ∖ X, cpus ∪ X) ∧ csize X = Z.of_nat (length hints) * perHint.
Proof.
  intros Hf Hper. revert free cpus Hf. induction hints as [|h hints IH]; intros free cpus Hf; cbn [take_by_hints].
  - intros [= <-]. exists ∅. split_and!; [set_solver|f_equal; set_solver|unfold csize; by rewrite size_empty].
  - destruct (te_Parse E (hint_CPUs h)) as [hcpus|]; [|done].
    pose proof (takeCPUs_takes (free ∩ hcpus) perHint prio ltac:(set_solver)) as Ht.
    destruct (takeCPUs E (free ∩ hcpus) perHint prio) as [[pick|[]] rest]; cbn [fst]; try done.
    destruct Ht as (_ & Hpick & Hsize). intros (X & HX & -> & HcX)%IH; [|set_solver].
    exists (pick ∪ X). split_and!; [set_solver|f_equal; set_solver|].
    rewrite csize_union_disjoint by set_solver. rewrite HcX, Hsize. cbn [length]. lia.
Qed.

Lemma takeCPUsByHints_takes from all cnt prio : from ⊆ usable → takes_from from cnt (takeCPUsByHints E from all cnt prio).
Proof.
  intros Hf. unfold takeCPUsByHints. set (hints := snd <$> _). cbn zeta. set (len := Z.of_nat (length hints)).
  case_bool_decide as Hlen; [by apply takeCPUs_takes|].
  set (perHint := if bool_decide _ then _ else 1).
  assert (0 ≤ perHint ∧ len * perHint ≤ cnt) as [Hper Htot].
  { assert (0 < len ≤ cnt) as Hl by (unfold len in *; lia). unfold perHint. case_bool_decide as Hd; [|lia].
    rewrite Z.quot_div_nonneg by lia. split; [apply Z.div_pos; lia|apply Z.mul_div_le; lia]. }
  clearbody perHint. destruct (take_by_hints E hints perHint prio from ∅) as [[[free cpus]|]|e] eqn:Hhints;
    [|by apply takeCPUs_takes|done].
  apply take_by_hints_takes in Hhints as (X & HX & [= -> ->] & HcX); [|done|done]. fold len in HcX.
  case_bool_decide as Hmore.
  - pose proof (takeCPUs_takes (from ∖ X) (cnt - len * perHint) prio ltac:(set_solver)) as Ht.
    destruct (takeCPUs E (from ∖ X) _ prio) as [[pick|[]] rest]; cbn [fst]; [|try by apply takeCPUs_takes..].
    + destruct Ht as (_ & Hpick & Hsize). cbn. split_and!; [set_solver|set_solver|].
      rewrite (left_id_L ∅ (∪)), csize_union_disjoint by set_solver. lia.
    + done.
  - cbn. split_and!; [set_solver|set_solver|]. rewrite (left_id_L ∅ (∪)). lia.
Qed.

Lemma take_for_takes r from cnt : from ⊆ usable → takes_from from cnt (take_for E r from cnt).
Proof. intros. unfold take_for. destruct (rq_pickByHints r); [by apply takeCPUsByHints_takes|by apply takeCPUs_takes]. Qed.

(** ** Capacity *)

Lemma cap_by_le own l a : cap_by own l a ≤ a ∧ ∀ n, n ∈ l → cap_by own l a ≤ own n.
Proof.
  unfold cap_by. revert a. induction l as [|m l IH]; intros a; cbn; [split; [done|by intros ? ?%not_elem_of_nil]|].
  destruct (IH (if bool_decide (own m < a) then own m else a)) as [H1 H2].
  assert ((if bool_decide (own m < a) then own m else a) ≤ a ∧ (if bool_decide (own m < a) then own m else a) ≤ own m)
    as [??] by (case_bool_decide; lia).
  split; [lia|]. intros n [->|Hn]%elem_of_cons; [lia|by apply H2].
Qed.

Lemma AllocatableSharedCPU_le p n : AllocatableSharedCPU cch p n ≤ own_shared p n ∧
  ∀ m, m ∈ Parents p (NodeID n) → AllocatableSharedCPU cch p n ≤ own_shared p m.
Proof.
  unfold AllocatableSharedCPU. destruct (cap_by_le (own_shared p) (Parents p (NodeID n)) (own_shared p n)) as [H1 H2].
  cbn zeta. destruct (existsb _ _); split; [lia| |lia|]; intros m Hm; specialize (H2 m Hm); lia.
Qed.

Lemma AllocatableReservedCPU_le p n : 0 ≤ AllocatableReservedCPU p n →
  AllocatableReservedCPU p n ≤ own_reserved p n ∧
  ∀ m, m ∈ Parents p (NodeID n) → AllocatableReservedCPU p n ≤ own_reserved p m.
Proof.
  unfold AllocatableReservedCPU. case_bool_decide; [lia|]. intros _.
  apply (cap_by_le (own_reserved p) (Parents p (NodeID n)) (own_reserved p n)).
Qed.

(** ** Slicing *)

(** The CPUs a pool can spare. *)
Definition spared (p : policy) (m : Pool) : CPUSet :=
  match (takeCPUs E (su_sharable (FreeSupply p (NodeID m))) (Z.quot (AllocatableSharedCPU cch p m) 1000) PriorityNone).1 with
  | Ok cset => cset
  | Err _ => ∅
  end.

Lemma spared_spec p m : su_sharable (FreeSupply p (NodeID m)) ⊆ usable →
  spared p m ⊆ su_sharable (FreeSupply p (NodeID m)) ∧
  1000 * csize (spared p m) ≤ Z.max 0 (AllocatableSharedCPU cch p m).
Proof.
  intros Hus. unfold spared. set (A := AllocatableSharedCPU cch p m).
  pose proof (takeCPUs_takes (su_sharable (FreeSupply p (NodeID m))) (Z.quot A 1000) PriorityNone Hus) as Ht.
  destruct (takeCPUs E _ _ _) as [[X|e] rest]; cbn.
  - destruct Ht as (_ & HX & Hc). split; [done|]. rewrite Hc.
    pose proof (Z.quot_rem' A 1000). destruct (Z.le_gt_cases 0 A).
    + pose proof (Z.rem_bound_pos A 1000 ltac:(lia) ltac:(lia)). lia.
    + pose proof (Z.quot_pos (- A) 1000 ltac:(lia) ltac:(lia)). pose proof (Z.quot_opp_l A 1000 ltac:(lia)). lia.
  - rewrite csize_empty. split; [set_solver|lia].
Qed.

(** A sliceable CPU is one that a pool below can spare; the CPUs of the pool
    itself count only if it is a leaf. *)
Lemma sliceable_elem p n slice x : SliceableCPUs E cch p n = Ok slice → x ∈ slice →
  ∃ m, below m n ∧ (NodeID m = NodeID n → IsLeafNode m = true) ∧ x ∈ spared p m.
Proof.
  intros Hs Hx. unfold SliceableCPUs in Hs. unfold below in *. revert Hs.
  assert (∀ l st, (∀ m, m ∈ l → m ∈ DepthFirst n) → x ∈ (fold_left (slice_step E cch p n) l st).1 →
    x ∈ st.1 ∨ ∃ m, m ∈ DepthFirst n ∧ (NodeID m = NodeID n → IsLeafNode m = true) ∧ x ∈ spared p m) as Hfold.
  { induction l as [|m l IH]; intros st Hl; cbn; [by left|]. intros [Hin|?]%IH; [|by right|].
    - unfold slice_step in Hin. cbn zeta in Hin. unfold IsSameNode in Hin.
      destruct (bool_decide (NodeID m = NodeID n) && negb (IsLeafNode m)) eqn:Hskip; [by left|].
      destruct (takeCPUs E _ _ _).1 as [cset|e] eqn:Ht; [|by left]. cbn [fst] in Hin. apply elem_of_union in Hin as [?|?]; [by left|].
      right. exists m. split_and!; [apply Hl; by left| |unfold spared; by rewrite Ht].
      intros Hid. rewrite bool_decide_eq_true_2 in Hskip by done. by apply negb_false_iff.
    - intros m' Hm'. apply Hl. by right. }
  destruct (fold_left _ _ _) as [X failed] eqn:Hf. destruct failed; [done|]. intros [= ->].
  destruct (Hfold (DepthFirst n) (∅, false)) as [Hbad|?]; [done|by rewrite Hf|set_solver|done].
Qed.

(** ** Exclusive CPUs *)

Section pool.
Context (I R : CPUSet) (p : policy) (G : list grant) (Hwf : tree_wf I R (ta_root p)) (Hb : books p G)
  (Hus : pool_cpus (ta_root p) ⊆ usable).

Lemma pool_usable m : below m (ta_root p) → pool_cpus m ⊆ usable.
Proof. intros Hm. etrans; [|exact Hus]. by apply (below_sub _ _ _ _ _ Hwf (below_refl _)). Qed.

Lemma free_sharable m : below m (ta_root p) →
  su_sharable (FreeSupply p (NodeID m)) = su_sharable (GetSupply m) ∖ taken G.
Proof. intros Hm. by rewrite (bk_free _ _ Hb m Hm). Qed.

Lemma free_isolated m : below m (ta_root p) →
  su_isolated (FreeSupply p (NodeID m)) = su_isolated (GetSupply m) ∖ taken G.
Proof. intros Hm. by rewrite (bk_free _ _ Hb m Hm). Qed.

Lemma free_usable m : below m (ta_root p) → su_sharable (FreeSupply p (NodeID m)) ⊆ usable.
Proof. intros Hm. rewrite free_sharable by done. pose proof (pool_usable m Hm). unfold pool_cpus in *. set_solver. Qed.

(** Sliceable CPUs are free shared CPUs of the pool. *)
Lemma slice_sub n slice : below n (ta_root p) → SliceableCPUs E cch p n = Ok slice →
  slice ⊆ su_sharable (FreeSupply p (NodeID n)).
Proof.
  intros Hn Hs x Hx. destruct (sliceable_elem p n slice x Hs Hx) as (m & Hm & _ & Hxm).
  pose proof (below_trans _ _ _ Hm Hn) as Hmr. destruct (spared_spec p m (free_usable m Hmr)) as [Hsp _].
  apply Hsp in Hxm. rewrite free_sharable in Hxm |- * by done. destruct (below_kinds _ _ _ _ _ Hwf Hn Hm). set_solver.
Qed.

(** The state after CPUs have been picked from a pool. *)
Record picked_from (n : Pool) (X : CPUSet) (q : policy) : Prop := {
  pf_frame : same_but_free p q;
  pf_sub : X ⊆ pool_cpus n;
  pf_new : X ## taken G;
  pf_others : ∀ m, below m (ta_root p) → NodeID m ≠ NodeID n → FreeSupply q (NodeID m) = FreeSupply p (NodeID m);
  pf_this : FreeSupply q (NodeID n) = less X n (FreeSupply p (NodeID n));
}.

Lemma pick_isolated n X rest : below n (ta_root p) → X ⊆ su_isolated (FreeSupply p (NodeID n)) →
  rest = su_isolated (FreeSupply p (NodeID n)) ∖ X →
  picked_from n X (set_supply (NodeID n) (set_cpus rest (su_sharable (FreeSupply p (NodeID n))) (FreeSupply p (NodeID n))) p).
Proof.
  intros Hn HX ->. pose proof (wf_isolated _ _ _ Hwf n Hn). pose proof (wf_sharable _ _ _ Hwf n Hn).
  pose proof (free_isolated n Hn) as Hfi. pose proof (free_sharable n Hn) as Hfs. split.
  - done.
  - unfold pool_cpus. set_solver.
  - set_solver.
  - intros m Hm Hne. by rewrite FreeSupply_set, bool_decide_eq_false_2.
  - rewrite FreeSupply_set, bool_decide_eq_true_2 by done. supply_solver X.
Qed.

Lemma pick_sharable n X : below n (ta_root p) → X ⊆ su_sharable (FreeSupply p (NodeID n)) →
  picked_from n X (set_supply (NodeID n)
    (set_cpus (su_isolated (FreeSupply p (NodeID n))) (su_sharable (FreeSupply p (NodeID n)) ∖ X) (FreeSupply p (NodeID n))) p).
Proof.
  intros Hn HX. pose proof (wf_isolated _ _ _ Hwf n Hn). pose proof (wf_sharable _ _ _ Hwf n Hn).
  pose proof (free_isolated n Hn) as Hfi. pose proof (free_sharable n Hn) as Hfs. split.
  - done.
  - unfold pool_cpus. set_solver.
  - set_solver.
  - intros m Hm Hne. by rewrite FreeSupply_set, bool_decide_eq_false_2.
  - rewrite FreeSupply_set, bool_decide_eq_true_2 by done. supply_solver X.
Qed.

(** Where picked CPUs are from: isolated ones, or sliceable ones that there is
    capacity for. *)
Definition pick_source (n : Pool) (X : CPUSet) (cnt : Z) : Prop :=
  X ⊆ su_isolated (FreeSupply p (NodeID n)) ∨
  (1000 * cnt ≤ AllocatableSharedCPU cch p n ∧ ∃ slice, SliceableCPUs E cch p n = Ok slice ∧ X ⊆ slice).

Lemma pickExclusiveCPUs_spec n r cnt : below n (ta_root p) →
  match pickExclusiveCPUs E cch n r cnt false p with
  | (q, Ok X) => picked_from n X q ∧ csize X = Z.max 0 cnt ∧ pick_source n X cnt
  | (q, Err _) => same_but_free p q ∧ ∀ m, below m (ta_root p) → FreeSupply q (NodeID m) = FreeSupply p (NodeID m)
  end.
Proof.
  intros Hn. unfold pickExclusiveCPUs. cbn zeta. destruct (_ && _).
  - pose proof (take_for_takes r (su_isolated (FreeSupply p (NodeID n))) cnt) as Ht.
    destruct (take_for E r _ cnt) as [[X|e] rest].
    + destruct Ht as (Hrest & HX & Hc).
      { rewrite free_isolated by done. pose proof (pool_usable n Hn). unfold pool_cpus in *. set_solver. }
      split_and!; [by apply pick_isolated|done|by left].
    + assert (rest = su_isolated (FreeSupply p (NodeID n))) as ->.
      { apply Ht. rewrite free_isolated by done. pose proof (pool_usable n Hn). unfold pool_cpus in *. set_solver. }
      split; [done|]. intros m Hm. rewrite FreeSupply_set. case_bool_decide as Heq; [|done]. rewrite Heq.
      by destruct (FreeSupply p (NodeID n)).
  - case_bool_decide as Hcap; [|by split; [apply sbf_refl|]].
    destruct (SliceableCPUs E cch p n) as [slice|e] eqn:Hs; [|by split; [apply sbf_refl|]].
    pose proof (slice_sub n slice Hn Hs) as Hsub.
    pose proof (take_for_takes r slice cnt ltac:(etrans; [exact Hsub|by apply free_usable])) as Ht.
    destruct (take_for E r slice cnt) as [[X|e] rest]; cbn [fst]; [|by split; [apply sbf_refl|]].
    destruct Ht as (_ & HX & Hc). split_and!; [apply pick_sharable; [done|set_solver]|done|].
    right. split; [done|]. by exists slice.
Qed.

(** The books after the CPUs have been accounted for. *)
Lemma picked_books n X q g : below n (ta_root p) → picked_from n X q → g_node g = NodeID n →
  g_exclusive g = X → g_cpuPortion g = 0 →
  books (AccountAllocateCPU g q) (g :: G) ∧ same_but_free p (AccountAllocateCPU g q).
Proof.
  intros Hn [Hf Hsub Hnew Hoth Hthis] Hg HX Hz. subst X.
  assert (SharedPortion g = 0 ∧ ReservedPortion g = 0) as [Hs Hr].
  { unfold SharedPortion, ReservedPortion. repeat case_bool_decide; lia. }
  eapply (AccountAllocate_books I R p q G g n); try done; [lia|].
  rewrite Hthis, (bk_free _ _ Hb n Hn). clear -Hs Hr. supply_solver (g_exclusive g).
Qed.
End pool.

(** ** Shared capacity *)

Lemma pickSharedFraction_Err n fraction t p q e : pickSharedFraction cch n fraction t p = (q, Err e) → q = p.
Proof. unfold pickSharedFraction. cbn zeta. destruct t; repeat case_bool_decide; by intros [= -> _]. Qed.

Lemma pickSharedFraction_books I R n fraction p q v G g : tree_wf I R (ta_root p) → below n (ta_root p) →
  books p (g :: G) → g_node g = NodeID n → g_cpuPortion g = 0 → 0 < fraction →
  pickSharedFraction cch n fraction (g_cpuType g) p = (q, Ok v) →
  books q (set_cpuPortion fraction g :: G) ∧ same_but_free p q.
Proof.
  intros Hwf Hn [Hfree Hok Hdj] Hg Hz Hpos Hpick.
  assert (same_but_free p q ∧ FreeSupply q (NodeID n) =
    add_granted (ReservedPortion (set_cpuPortion fraction g)) (SharedPortion (set_cpuPortion fraction g)) (FreeSupply p (NodeID n))
    ∧ ∀ id, id ≠ NodeID n → FreeSupply q id = FreeSupply p id) as (Hq & Hthis & Hoth).
  { unfold pickSharedFraction in Hpick. cbn zeta in Hpick.
    rewrite bool_decide_eq_false_2, bool_decide_eq_true_2 in Hpick by lia.
    assert (∀ a b, same_but_free p (set_supply (NodeID n) (add_granted a b (FreeSupply p (NodeID n))) p) ∧
      FreeSupply (set_supply (NodeID n) (add_granted a b (FreeSupply p (NodeID n))) p) (NodeID n) =
        add_granted a b (FreeSupply p (NodeID n)) ∧
      ∀ id, id ≠ NodeID n → FreeSupply (set_supply (NodeID n) (add_granted a b (FreeSupply p (NodeID n))) p) id = FreeSupply p id)
      as Hset.
    { intros a b. split_and!; [done|by rewrite FreeSupply_set, bool_decide_eq_true_2|].
      intros id Hid. by rewrite FreeSupply_set, bool_decide_eq_false_2. }
    unfold ReservedPortion, SharedPortion. cbn. destruct (g_cpuType g); cbn.
    - case_bool_decide; [done|]. injection Hpick as <- _. apply Hset.
    - case_bool_decide; [done|]. injection Hpick as <- _. apply Hset.
    - injection Hpick as <- _. split_and!; [apply sbf_refl| |done]. destruct (FreeSupply p (NodeID n)). unfold add_granted. cbn.
      by rewrite !Z.add_0_r. }
  split; [|done]. pose proof (sbf_root _ _ Hq) as Hr.
  assert (SharedPortion g = 0 ∧ ReservedPortion g = 0) as [Hs Hrp].
  { unfold SharedPortion, ReservedPortion. repeat case_bool_decide; lia. }
  split.
  - rewrite Hr. intros m Hm. destruct (decide (NodeID m = NodeID n)) as [Heq|Hne].
    + assert (m = n) as -> by (eapply same_id; [exact Hwf|done..]). rewrite Hthis, Hfree by done.
      apply supply_ext; cbn -[granted]; rewrite ?granted_cons; cbn -[granted];
        [done|done|done|rewrite bool_decide_eq_true_2 by done; lia..].
    + rewrite Hoth, Hfree by done.
      apply supply_ext; cbn -[granted]; rewrite ?granted_cons; cbn -[granted];
        [done|done|done|rewrite !bool_decide_eq_false_2 by congruence; lia..].
  - rewrite Hr. apply Forall_cons in Hok as [(_ & ?) Hok]. constructor; [|done]. split; [cbn; lia|done].
  - done.
Qed.

(** ** Allocating and giving back *)

(** What is asked for is not negative. *)
Definition request_ok (r : request) : Prop := 0 ≤ rq_full r ∧ 0 ≤ rq_fraction r.

Lemma cpu_amounts_nonneg p n r full fraction t : request_ok r → cpu_amounts p n r = (full, fraction, t) →
  0 ≤ full ∧ 0 ≤ fraction.
Proof. unfold request_ok, cpu_amounts. intros [??]. case_bool_decide; intros [= <- <- _]; lia. Qed.

Lemma AllocateCPU_books I R p G n r : tree_wf I R (ta_root p) → books p G → pool_cpus (ta_root p) ⊆ usable →
  below n (ta_root p) → request_ok r →
  match AllocateCPU E cch n r p with
  | (q, Ok g) => books q (g :: G) ∧ same_but_free p q ∧ g_node g = NodeID n ∧
      g_container g = tc_ID (rq_container r) ∧
      ∃ full fraction, cpu_amounts p n r = (full, fraction, g_cpuType g) ∧
        csize (g_exclusive g) = full ∧ g_cpuPortion g = fraction
  | (q, Err _) => books q G ∧ same_but_free p q
  end.
Proof.
  intros Hwf Hb Hus Hn Hreq. unfold AllocateCPU. destruct (cpu_amounts p n r) as [[full fraction] t] eqn:Hamt.
  destruct (cpu_amounts_nonneg _ _ _ _ _ _ Hreq Hamt) as [Hfull Hfrac].
  pose proof (pickExclusiveCPUs_spec I R p G Hwf Hb Hus n r full Hn) as Hpick.
  destruct (pickExclusiveCPUs E cch n r full false p) as [q [X|e]].
  - destruct Hpick as (Hpf & HcX & _). rewrite Z.max_r in HcX by lia. set (g := newGrant _ _ _ _ _ _ _ _ _).
    destruct (picked_books I R p G Hwf Hb n X q g Hn Hpf eq_refl eq_refl eq_refl) as [Hbg Hf].
    set (q1 := AccountAllocateCPU g q) in *. pose proof (sbf_root _ _ Hf) as Hr.
    assert (tree_wf I R (ta_root q1)) as Hwq by (by rewrite Hr). assert (below n (ta_root q1)) as Hnq by (by rewrite Hr).
    case_bool_decide as Hpos.
    + destruct (pickSharedFraction cch n fraction t q1) as [q2 [v|e]] eqn:Hps.
      * destruct (pickSharedFraction_books I R n fraction q1 q2 v G g Hwq Hnq Hbg eq_refl eq_refl ltac:(lia) Hps) as [Hb2 Hf2].
        split_and!; [done|by eapply sbf_trans|done|done|]. by exists full, fraction.
      * apply pickSharedFraction_Err in Hps as ->. destruct (ReleaseCPU_books I R q1 G g Hwq Hbg) as [??].
        split; [done|by eapply sbf_trans].
    + split_and!; [done|done|done|done|]. exists full, fraction. split_and!; [done|done|]. cbn. lia.
  - destruct Hpick as [Hf Hsame]. split; [|done]. destruct Hb as [H1 H2 H3]. pose proof (sbf_root _ _ Hf) as Hr.
    split; [|by rewrite Hr|done]. rewrite Hr. intros m Hm. rewrite Hsame by done. by apply H1.
Qed.
End alloc.
