(* ===== verification/TaCapacity.v ===== *)
(** * Capacity of the pools

    The shared capacity that has been granted from a pool and the pools below
    it does not exceed what its shared CPUs can give.  Allocating from a pool
    keeps it so if the children of the pool have no children themselves. *)

From S2P Require Import Prelude GoStrings Expr MemTypes MemNodes MemRequest MemZones MemAllocator CpuTree CpuOrder CpuResizeFacts CpuAlloc CpuAllocFacts CpuTopo BlnTypes TaTypes TaPrefs TaSupply TaAccount TaAlloc.

Open Scope Z_scope.

(** ** Granted capacity *)

(** What a list of grants has of a pool and the pools below it. *)
Definition granted_below (f : grant → Z) (n : Pool) (G : list grant) : Z :=
  foldr (λ g acc, (if bool_decide (g_node g ∈ NodeID <$> DepthFirst n) then f g else 0) + acc) 0 G.

Lemma granted_below_cons f n g G : granted_below f n (g :: G) =
  (if bool_decide (g_node g ∈ NodeID <$> DepthFirst n) then f g else 0) + granted_below f n G.
Proof. done. Qed.

(** Sums over the pools below a pool. *)
Definition pool_sum (f : Z → Z) (l : list Pool) : Z := foldr (λ m acc, f (NodeID m) + acc) 0 l.

Lemma pool_sum_app f l l' : pool_sum f (app l l') = pool_sum f l + pool_sum f l'.
Proof. induction l as [|m l IH]; cbn; [done|]. unfold pool_sum in IH |- *. cbn. rewrite IH. lia. Qed.

Lemma children_sum (F : Pool → Z) f base cs : Forall (λ c, F c = pool_sum f (DepthFirst c)) cs →
  foldr (λ c acc, F c + acc) base cs = pool_sum f (concat (map DepthFirst cs)) + base.
Proof.
  induction 1 as [|c cs Hc _ IH]; cbn [map concat foldr]; [done|]. rewrite pool_sum_app, IH, Hc. lia.
Qed.

Lemma GrantedSharedCPU_sum free n :
  GrantedSharedCPU free n = pool_sum (λ id, su_grantedShared (default nil_supply (free !! id))) (DepthFirst n).
Proof.
  induction n as [nd cs IH] using Pool_rect'. cbn [GrantedSharedCPU DepthFirst pool_children].
  rewrite pool_sum_app, (children_sum _ _ _ _ IH). cbn. lia.
Qed.

Lemma GrantedReservedCPU_sum free n :
  GrantedReservedCPU free n = pool_sum (λ id, su_grantedReserved (default nil_supply (free !! id))) (DepthFirst n).
Proof.
  induction n as [nd cs IH] using Pool_rect'. cbn [GrantedReservedCPU DepthFirst pool_children].
  rewrite pool_sum_app, (children_sum _ _ _ _ IH). cbn. lia.
Qed.

Lemma pool_sum_ext f h l : (∀ m, m ∈ l → f (NodeID m) = h (NodeID m)) → pool_sum f l = pool_sum h l.
Proof.
  induction l as [|m l IH]; intros Hfh; cbn; [done|]. rewrite Hfh by (by left). f_equal. apply IH.
  intros x Hx. apply Hfh. by right.
Qed.

Lemma pool_sum_add f h l : pool_sum (λ id, f id + h id) l = pool_sum f l + pool_sum h l.
Proof. unfold pool_sum. induction l as [|m l IH]; cbn; [done|]. rewrite IH. lia. Qed.

Lemma pool_sum_one (id v : Z) l : NoDup (NodeID <$> l) →
  pool_sum (λ i, if bool_decide (id = i) then v else 0) l = if bool_decide (id ∈ NodeID <$> l) then v else 0.
Proof.
  induction l as [|m l IH]; cbn; [by rewrite bool_decide_eq_false_2 by set_solver|].
  intros [Hm Hnd]%NoDup_cons. unfold pool_sum in IH. rewrite IH by done.
  destruct (decide (id = NodeID m)) as [->|Hne].
  - rewrite (bool_decide_eq_true_2 (NodeID m = NodeID m)), (bool_decide_eq_false_2 (NodeID m ∈ _)) by done.
    rewrite bool_decide_eq_true_2 by (by left). lia.
  - rewrite (bool_decide_eq_false_2 (id = NodeID m)) by done. rewrite Z.add_0_l.
    assert (id ∈ NodeID <$> l ↔ id ∈ NodeID m :: (NodeID <$> l)) as Hiff by set_solver.
    by repeat case_bool_decide; (done || tauto).
Qed.

Lemma pool_sum_granted f G l : NoDup (NodeID <$> l) →
  pool_sum (λ id, granted f id G) l =
    foldr (λ g acc, (if bool_decide (g_node g ∈ NodeID <$> l) then f g else 0) + acc) 0 G.
Proof.
  intros Hnd. induction G as [|g G IH].
  - cbn. clear Hnd. unfold pool_sum. induction l as [|m l IHl]; cbn; [done|]. by rewrite IHl.
  - cbn [foldr]. rewrite <- IH, <- (pool_sum_one (g_node g) (f g) l Hnd), <- pool_sum_add.
    apply pool_sum_ext. intros m _. apply granted_cons.
Qed.

Section capacity.
Context (I R : CPUSet).

(** What is left of a pool, by the books. *)
Definition left_shared (n : Pool) (G : list grant) : Z :=
  1000 * csize (su_sharable (GetSupply n) ∖ taken G) - granted_below SharedPortion n G.

Definition left_reserved (n : Pool) (G : list grant) : Z :=
  1000 * csize (su_reserved (GetSupply n)) - granted_below ReservedPortion n G.

Lemma own_left p G n : tree_wf I R (ta_root p) → books p G → below n (ta_root p) →
  own_shared p n = left_shared n G ∧ own_reserved p n = left_reserved n G.
Proof.
  intros Hwf Hb Hn. unfold own_shared, own_reserved, left_shared, left_reserved.
  pose proof (ids_below _ _ Hn (wf_ids _ _ _ Hwf)) as Hnd.
  assert (∀ f h, (∀ m, below m n → f (FreeSupply p (NodeID m)) = granted h (NodeID m) G) →
    pool_sum (λ id, f (default nil_supply (ta_free p !! id))) (DepthFirst n) = granted_below h n G) as Hsum.
  { intros f h Hfh. rewrite (pool_sum_ext _ (λ id, granted h id G)); [by apply pool_sum_granted|].
    intros m Hm. by apply Hfh. }
  rewrite (bk_free _ _ Hb n Hn), GrantedSharedCPU_sum, GrantedReservedCPU_sum. cbn [supply_after su_sharable su_reserved].
  rewrite (Hsum su_grantedShared SharedPortion), (Hsum su_grantedReserved ReservedPortion); [done|..];
    intros m Hm; by rewrite (bk_free _ _ Hb m (below_trans _ _ _ Hm Hn)).
Qed.

(** No pool has granted more than it has. *)
Definition fits (root : Pool) (G : list grant) : Prop :=
  ∀ m, below m root → 0 ≤ left_shared m G ∧ 0 ≤ left_reserved m G.

Lemma granted_below_perm f n G G' : G ≡ₚ G' → granted_below f n G = granted_below f n G'.
Proof. induction 1; rewrite ?granted_below_cons; lia. Qed.

Lemma fits_perm root G G' : G ≡ₚ G' → fits root G → fits root G'.
Proof.
  intros HG Hf m Hm. destruct (Hf m Hm). unfold left_shared, left_reserved in *.
  by rewrite <- (taken_perm _ _ HG), <- !(granted_below_perm _ _ _ _ HG).
Qed.

(** Another grant takes its exclusive CPUs and its portion. *)
Lemma left_shared_cons n g G : g_exclusive g ## taken G →
  left_shared n (g :: G) = left_shared n G - 1000 * csize (su_sharable (GetSupply n) ∩ g_exclusive g)
    - (if bool_decide (g_node g ∈ NodeID <$> DepthFirst n) then SharedPortion g else 0).
Proof.
  intros Hd. unfold left_shared. rewrite granted_below_cons, taken_cons.
  assert (su_sharable (GetSupply n) ∖ (g_exclusive g ∪ taken G) =
    (su_sharable (GetSupply n) ∖ taken G) ∖ (su_sharable (GetSupply n) ∩ g_exclusive g)) as -> by set_solver.
  rewrite csize_difference by set_solver. lia.
Qed.

Lemma left_reserved_cons n g G : left_reserved n (g :: G) = left_reserved n G
  - (if bool_decide (g_node g ∈ NodeID <$> DepthFirst n) then ReservedPortion g else 0).
Proof. unfold left_reserved. rewrite granted_below_cons. lia. Qed.

(** Giving back a grant. *)
Lemma fits_release root g G : g_exclusive g ## taken G → 0 ≤ g_cpuPortion g → fits root (g :: G) → fits root G.
Proof.
  intros Hd [Hs Hr]%portion_nonneg Hf m Hm. destruct (Hf m Hm) as [H1 H2].
  rewrite left_shared_cons in H1 by done. rewrite left_reserved_cons in H2.
  pose proof (csize_nonneg (su_sharable (GetSupply m) ∩ g_exclusive g)). case_bool_decide; lia.
Qed.
End capacity.

(** ** Allocating *)

(** The children of the pool have no children. *)
Definition flat (n : Pool) : Prop := ∀ c, c ∈ pool_children n → pool_children c = [].

Lemma flat_below n m : flat n → below m n → m = n ∨ m ∈ pool_children n ∧ IsLeafNode m = true.
Proof.
  intros Hf [->|(c & Hc & Hm)]%below_iff; [by left|]. right. pose proof (Hf c Hc) as Hleaf.
  apply below_iff in Hm as [->|(c' & Hc' & _)]; [|by rewrite Hleaf in Hc'; apply not_elem_of_nil in Hc'].
  split; [done|]. unfold IsLeafNode. by rewrite bool_decide_eq_true_2.
Qed.

Section allocate.
Context `{GoRuntime} (E : TEnv) (cch : TCache) (usable : CPUSet) `{!PoolCpus E usable} (I R : CPUSet).

Lemma AllocateCPU_inv n r p q g : AllocateCPU E cch n r p = (q, Ok g) →
  ∃ full fraction t q0 X, cpu_amounts p n r = (full, fraction, t) ∧
    pickExclusiveCPUs E cch n r full false p = (q0, Ok X) ∧
    let g0 := newGrant (NodeID n) (tc_ID (rq_container r)) t (rq_cpuClass r) X 0 0 (rq_irqs r) 0 in
    (fraction ≤ 0 ∧ q = AccountAllocateCPU g0 q0 ∧ g = g0) ∨
    (0 < fraction ∧ g = set_cpuPortion fraction g0 ∧
     ∃ v, pickSharedFraction cch n fraction t (AccountAllocateCPU g0 q0) = (q, Ok v)).
Proof.
  unfold AllocateCPU. destruct (cpu_amounts p n r) as [[full fraction] t].
  destruct (pickExclusiveCPUs E cch n r full false p) as [q0 [X|e]] eqn:Hpick; [|done]. cbn zeta.
  intros Halloc. exists full, fraction, t, q0, X. split_and!; [done|done|]. cbn zeta. case_bool_decide.
  - destruct (pickSharedFraction _ _ _ _ _) as [q2 [v|e]] eqn:Hps; [|done]. injection Halloc as <- <-.
    right. split_and!; [lia|done|by exists v].
  - injection Halloc as <- <-. left. split_and!; [lia|done|done].
Qed.

Section pool.
Context (p : policy) (G : list grant) (Hwf : tree_wf I R (ta_root p)) (Hb : books p G)
  (Hus : pool_cpus (ta_root p) ⊆ usable) (Hfits : fits (ta_root p) G).

(** What the allocatable capacity of a pool says about the pools above. *)
Lemma allocatable_left n m : below n (ta_root p) → below m (ta_root p) → below n m →
  AllocatableSharedCPU cch p n ≤ left_shared m G.
Proof.
  intros Hn Hm Hnm. destruct (AllocatableSharedCPU_le cch p n) as [H1 H2].
  destruct (own_left I R p G m Hwf Hb Hm) as [<- _]. destruct (decide (NodeID m = NodeID n)) as [Heq|Hne].
  - assert (m = n) as -> by (eapply same_id; [exact Hwf|done..]). done.
  - apply H2. apply (Parents_spec _ _ p n Hwf Hn). split_and!; [done|done|]. by intros ->.
Qed.

(** Picked CPUs leave every pool with enough for what it has granted. *)
Lemma pick_fits n X full m : below n (ta_root p) → flat n → below m (ta_root p) → 0 ≤ full →
  X ⊆ pool_cpus n → csize X = full → pick_source E cch p n X full →
  0 ≤ left_shared m G - 1000 * csize (su_sharable (GetSupply m) ∩ X).
Proof.
  intros Hn Hflat Hm Hfull Hsub Hc Hsrc. destruct (Hfits m Hm) as [Hm0 _].
  assert (∀ Y : CPUSet, su_sharable (GetSupply m) ∩ X ⊆ Y → 1000 * csize Y ≤ left_shared m G →
    0 ≤ left_shared m G - 1000 * csize (su_sharable (GetSupply m) ∩ X)) as Hle.
  { intros Y HY. pose proof (csize_mono _ _ HY). lia. }
  pose proof (wf_sharable _ _ _ Hwf m Hm) as HSm.
  destruct Hsrc as [Hiso|(Hcap & slice & Hs & HX)].
  { apply (Hle ∅); [|rewrite csize_empty; lia]. rewrite (free_isolated p G Hb n Hn) in Hiso.
    pose proof (wf_isolated _ _ _ Hwf n Hn). set_solver. }
  destruct (below_cases _ _ _ m n Hwf Hm Hn) as [Hmn|[Hnm|Hd]].
  - destruct (flat_below n m Hflat Hmn) as [->|[Hmc Hleaf]].
    + apply (Hle X); [set_solver|]. rewrite Hc. pose proof (allocatable_left n n Hn Hn (below_refl n)). lia.
    + apply (Hle (spared E cch p m)).
      * intros x [Hxm Hx]%elem_of_intersection. apply HX in Hx.
        destruct (sliceable_elem E cch usable p n slice x Hs Hx) as (m' & Hm' & Hleaf' & Hxs).
        destruct (decide (NodeID m' = NodeID m)) as [Heq|Hne].
        { assert (m' = m) as -> by (eapply same_id; [exact Hwf|by eapply below_trans|done|done]). done. }
        exfalso. assert (below m' (ta_root p)) as Hm'r by (by eapply below_trans).
        destruct (spared_spec E cch usable p m' (free_usable E usable I R p G Hwf Hb Hus m' Hm'r)) as [Hsp _].
        apply Hsp in Hxs. rewrite (free_sharable p G Hb m' Hm'r) in Hxs.
        destruct (flat_below n m' Hflat Hm') as [->|[Hmc' _]].
        -- specialize (Hleaf' eq_refl). unfold IsLeafNode in Hleaf'. apply bool_decide_eq_true in Hleaf'.
           rewrite Hleaf' in Hmc. by apply not_elem_of_nil in Hmc.
        -- pose proof (wf_disj _ _ _ Hwf n m' m Hn Hmc' Hmc Hne). unfold pool_cpus in *. set_solver.
      * destruct (spared_spec E cch usable p m (free_usable E usable I R p G Hwf Hb Hus m Hm)) as [_ Hsz].
        pose proof (allocatable_left m m Hm Hm (below_refl m)). lia.
  - apply (Hle X); [set_solver|]. rewrite Hc. pose proof (allocatable_left n m Hn Hm Hnm). lia.
  - apply (Hle ∅); [|rewrite csize_empty; lia]. unfold pool_cpus in Hd, Hsub. set_solver.
Qed.
End pool.

(** The portion of a grant is counted for the pools its pool is below of. *)
Lemma node_below root n m : tree_wf I R root → below n root → below m root →
  bool_decide (NodeID n ∈ NodeID <$> DepthFirst m) = true ↔ below n m.
Proof.
  intros Hwf Hn Hm. rewrite bool_decide_eq_true. split.
  - intros (n' & Heq & Hn')%list_elem_of_fmap.
    assert (n = n') as ->; [|done]. eapply same_id; [exact Hwf|done|by eapply below_trans|done].
  - intros. by apply list_elem_of_fmap_2.
Qed.

(** The check made before a portion is granted. *)
Lemma fraction_fits p q G n fraction t v m : tree_wf I R (ta_root p) → books p G → below n (ta_root p) →
  below m (ta_root p) → below n m → 0 < fraction → pickSharedFraction cch n fraction t p = (q, Ok v) →
  (t = cpuNormal → fraction ≤ left_shared m G) ∧ (t = cpuReserved → fraction ≤ left_reserved m G).
Proof.
  intros Hwf Hb Hn Hm Hnm Hpos Hps. unfold pickSharedFraction in Hps. cbn zeta in Hps.
  rewrite bool_decide_eq_false_2, bool_decide_eq_true_2 in Hps by lia.
  destruct t; [split; [intros _|done]|split; [done|intros _]|done]; case_bool_decide as Hc; try done.
  - pose proof (allocatable_left p G Hwf Hb n m Hn Hm Hnm). lia.
  - destruct (AllocatableReservedCPU_le p n) as [H1 H2]; [lia|].
    destruct (own_left I R p G m Hwf Hb Hm) as [_ <-]. destruct (decide (NodeID m = NodeID n)) as [Heq|Hne].
    + assert (m = n) as -> by (eapply same_id; [exact Hwf|done..]). lia.
    + enough (AllocatableReservedCPU p n ≤ own_reserved p m) by lia. apply H2.
      apply (Parents_spec _ _ p n Hwf Hn). split_and!; [done|done|]. by intros ->.
Qed.

Lemma AllocateCPU_fits p G n r q g : tree_wf I R (ta_root p) → books p G → pool_cpus (ta_root p) ⊆ usable →
  fits (ta_root p) G → below n (ta_root p) → flat n → request_ok r →
  AllocateCPU E cch n r p = (q, Ok g) → fits (ta_root p) (g :: G).
Proof.
  intros Hwf Hb Hus Hfits Hn Hflat Hreq (full & fraction & t & q0 & X & Hamt & Hpick & Hrest)%AllocateCPU_inv.
  destruct (cpu_amounts_nonneg _ _ _ _ _ _ Hreq Hamt) as [Hfull _].
  pose proof (pickExclusiveCPUs_spec E cch usable I R p G Hwf Hb Hus n r full Hn) as Hspec. rewrite Hpick in Hspec.
  destruct Hspec as (Hpf & HcX & Hsrc). rewrite Z.max_r in HcX by lia. cbn zeta in Hrest. set (g0 := newGrant _ _ _ _ _ _ _ _ _) in *.
  destruct (picked_books I R p G Hwf Hb n X q0 g0 Hn Hpf eq_refl eq_refl eq_refl) as [Hbg Hf].
  pose proof (sbf_root _ _ Hf) as Hr. set (q1 := AccountAllocateCPU g0 q0) in *.
  assert (∀ m, below m (ta_root p) → 0 ≤ left_shared m (g0 :: G) ∧ 0 ≤ left_reserved m (g0 :: G)) as Hbase.
  { intros m Hm. rewrite left_shared_cons by apply (pf_new _ _ _ _ _ Hpf). rewrite left_reserved_cons.
    destruct (Hfits m Hm). unfold ReservedPortion, SharedPortion. cbn.
    pose proof (pick_fits p G Hwf Hb Hus Hfits n X full m Hn Hflat Hm Hfull (pf_sub _ _ _ _ _ Hpf) HcX Hsrc).
    repeat case_bool_decide; lia. }
  destruct Hrest as [(_ & _ & ->)|(Hpos & -> & v & Hps)]; [done|]. intros m Hm. destruct (Hbase m Hm) as [H1 H2].
  rewrite left_shared_cons, left_reserved_cons in * by apply (pf_new _ _ _ _ _ Hpf).
  cbn [set_cpuPortion g_exclusive g_node] in *. unfold ReservedPortion, SharedPortion in *. cbn in H1, H2 |- *.
  destruct (bool_decide (NodeID n ∈ NodeID <$> DepthFirst m)) eqn:Hnm; [|done].
  apply (node_below (ta_root p) n m Hwf Hn Hm) in Hnm.
  destruct (fraction_fits q1 q (g0 :: G) n fraction t v m) as [F1 F2]; [by rewrite Hr|done|by rewrite Hr..|done|done|done|].
  rewrite left_shared_cons in F1 by apply (pf_new _ _ _ _ _ Hpf). rewrite left_reserved_cons in F2.
  unfold ReservedPortion, SharedPortion in F1, F2. cbn in F1, F2.
  destruct t; cbn in *; repeat case_bool_decide; try done; try (specialize (F1 eq_refl)); try (specialize (F2 eq_refl)); lia.
Qed.
End allocate.
