(* ===== verification/TaInv.v ===== *)
(** * What the operations of the policy leave alone

    Memory is offered, committed and released without any change to the CPUs
    of the pools, and what a grant has of memory does not matter to the books.
    A container is allocated from a pool of the tree, and an allocation that
    fails leaves the books as they were.  Then the invariant of the policy, which
    choosing a pool and releasing a grant keep. *)

From S2P Require Import Prelude GoStrings MemTypes MemNodes MemRequest MemZones MemAllocator Expr Affinity CpuTree CpuOrder CpuResizeFacts CpuAlloc CpuAllocFacts CpuTopo BlnTypes BlnPolicy TaTypes TaPrefs TaSupply TaScore TaPolicy TaAccount TaAlloc TaCapacity.

Open Scope Z_scope.

(** ** Memory *)

Definition same_but_memory (p p' : policy) : Prop := with_memory (ta_memAllocator p') p = p'.

Lemma sbm_refl p : same_but_memory p p.
Proof. by destruct p. Qed.

Lemma sbm_trans p q r : same_but_memory p q → same_but_memory q r → same_but_memory p r.
Proof. unfold same_but_memory. by intros <- <-. Qed.

Lemma sbm_with p a : same_but_memory p (with_memory a p).
Proof. done. Qed.

Lemma sbm_root p p' : same_but_memory p p' → ta_root p' = ta_root p.
Proof. by intros <-. Qed.

Section memory.
Context `{GoRuntime} (E : TEnv) (cch : TCache).

Lemma offer_for_sbm c amount zone mtyp p : same_but_memory p (offer_for E cch c amount zone mtyp p).1.
Proof. unfold offer_for. cbn zeta. destruct (GetOffer _ _ _). apply sbm_with. Qed.

Lemma getMemOffer_sbm n r p : same_but_memory p (getMemOffer E cch n r p).1.
Proof. unfold getMemOffer. cbn zeta. case_bool_decide; apply offer_for_sbm. Qed.

Lemma getMemOfferByHints_sbm n r p : same_but_memory p (getMemOfferByHints E cch n r p).1.
Proof.
  unfold getMemOfferByHints. cbn zeta. case_bool_decide; [apply sbm_refl|].
  destruct (hinted_zone _ _ _); [|apply sbm_refl]. repeat case_bool_decide; try apply sbm_refl. apply offer_for_sbm.
Qed.

Lemma score_offer_sbm n r p : same_but_memory p (score_offer E cch n r p).1.
Proof.
  unfold score_offer. cbn zeta. set (m := if bool_decide _ then _ else _).
  pose proof (getMemOffer_sbm m r p) as H1. pose proof (getMemOfferByHints_sbm m r p) as H2.
  destruct (rq_pickByHints r).
  - destruct (getMemOfferByHints E cch m r p) as [q [o|e]]; [done|]. cbn [fst] in *.
    pose proof (getMemOffer_sbm m r q) as H3. destruct (getMemOffer E cch m r q). cbn in *. by eapply sbm_trans.
  - by destruct (getMemOffer E cch m r p).
Qed.

Lemma GetScore_sbm n r p : same_but_memory p (GetScore E cch n r p).1.
Proof.
  unfold GetScore. cbn zeta. destruct (if _ : bool then _ else _) as [cpu cc].
  destruct (hint_scores _ _ _ _); [|apply sbm_refl]. pose proof (score_offer_sbm n r p) as Hs.
  by destruct (score_offer E cch n r p).
Qed.

Lemma get_scores_sbm pools r p : same_but_memory p (get_scores E cch pools r p).1.
Proof.
  revert p. induction pools as [|n pools IH]; intros p; cbn; [apply sbm_refl|].
  pose proof (GetScore_sbm n r p) as Hs. destruct (GetScore E cch n r p) as [q [sc|e]]; [|done]. cbn in Hs.
  specialize (IH q). destruct (get_scores E cch pools r q) as [q' [scs|e]]; by eapply sbm_trans.
Qed.

Lemma sortPoolsByScore_spec r aff p :
  match sortPoolsByScore E cch r aff p with
  | (q, Ok (_, pools)) => same_but_memory p q ∧ pools ≡ₚ ta_pools p
  | (q, Err _) => same_but_memory p q
  end.
Proof.
  unfold sortPoolsByScore. pose proof (get_scores_sbm (ta_pools p) r p) as Hs.
  destruct (get_scores E cch (ta_pools p) r p) as [q [scs|e]]; [|done]. cbn in Hs. split; [done|].
  unfold sort_slice. rewrite sort_func_perm. by rewrite <- Hs.
Qed.

(** A pool is chosen from the tree, for the request as it is but for its hints. *)
Lemma choose_pool_spec r hint p :
  match choose_pool E cch r hint p with
  | (q, Ok (r', n, o)) =>
      same_but_memory p q ∧ below n (ta_root p) ∧ rq_full r' = rq_full r ∧ rq_fraction r' = rq_fraction r ∧
      rq_cpuType r' = rq_cpuType r ∧ tc_ID (rq_container r') = tc_ID (rq_container r)
  | (q, Err _) => same_but_memory p q
  end.
Proof.
  unfold choose_pool. case_bool_decide as Ht.
  - destruct (calculatePoolAffinities _ _ _ _ _) as [aff|e]; [|apply sbm_refl]. cbn zeta.
    pose proof (sortPoolsByScore_spec (resolve_request E r) aff p) as Hs.
    destruct (sortPoolsByScore E cch (resolve_request E r) aff p) as [q [[scores pools]|e]]; [|done].
    destruct Hs as [Hf Hp]. set (hinted := if bool_decide _ then _ else None).
    assert (∀ n, (match hinted with Some n => Some n | None => head pools end) = Some n → below n (ta_root p)) as Hin.
    { intros n Hn. change (n ∈ ta_pools p). rewrite <- Hp. unfold hinted in Hn. clear hinted.
      assert (head pools = Some n → n ∈ pools) as Hh by (destruct pools; [done|intros [= ->]; by left]).
      case_bool_decide; [|by apply Hh].
      destruct (list_find _ pools) as [[i m]|] eqn:Hfind; cbn in Hn; [|by apply Hh].
      injection Hn as ->. apply list_find_Some in Hfind as (Hi & _). by eapply list_elem_of_lookup_2. }
    destruct (match hinted with Some n => Some n | None => head pools end) as [n|]; [|done].
    specialize (Hin n eq_refl). destruct (scores !! NodeID n) as [sc|]; [|done].
    destruct (sc_mem sc); [|done]. by split_and!.
  - pose proof (getMemOffer_sbm (ta_root p) r p) as Hm.
    destruct (getMemOffer E cch (ta_root p) r p) as [q [o|e]]; [|done]. split_and!; try done.
    cbn [fst] in Hm. rewrite (sbm_root _ _ Hm). apply below_refl.
Qed.

Lemma Commit_offer_sbm o p : same_but_memory p (Commit_offer o p).1.
Proof. unfold Commit_offer. destruct (Commit o _). apply sbm_with. Qed.

Lemma releaseMem_sbm id p : same_but_memory p (releaseMem id p).1.
Proof. unfold releaseMem. destruct (Release id _). apply sbm_with. Qed.
End memory.

(** ** What the books see of a grant *)

Definition cpu_part (g : grant) : grant :=
  MkGrant (g_container g) (g_node g) (g_exclusive g) (g_cpuType g) (g_cpuPortion g) 0 0 false 0 0
    (g_cpuClass g) (g_irqs g).

Lemma taken_cpu_part G : taken (cpu_part <$> G) = taken G.
Proof. unfold taken. by rewrite <- list_fmap_compose. Qed.

Lemma granted_cpu_part f id G : (∀ g, f (cpu_part g) = f g) → granted f id (cpu_part <$> G) = granted f id G.
Proof.
  intros Hf. induction G as [|g G IH]; [done|]. rewrite fmap_cons, !granted_cons, IH, Hf. done.
Qed.

Lemma granted_below_cpu_part f n G : (∀ g, f (cpu_part g) = f g) →
  granted_below f n (cpu_part <$> G) = granted_below f n G.
Proof.
  intros Hf. induction G as [|g G IH]; [done|]. rewrite fmap_cons, !granted_below_cons, IH, Hf. done.
Qed.

Lemma supply_after_cpu_part G n : supply_after (cpu_part <$> G) n = supply_after G n.
Proof. unfold supply_after. by rewrite taken_cpu_part, !granted_cpu_part. Qed.

Lemma books_cpu_part p G : books p (cpu_part <$> G) ↔ books p G.
Proof.
  split; intros [H1 H2 H3]; split.
  - intros n Hn. by rewrite H1, supply_after_cpu_part.
  - by rewrite Forall_fmap in H2.
  - by rewrite <- list_fmap_compose in H3.
  - intros n Hn. by rewrite H1, supply_after_cpu_part.
  - by rewrite Forall_fmap.
  - by rewrite <- list_fmap_compose.
Qed.

Lemma fits_cpu_part root G : fits root (cpu_part <$> G) ↔ fits root G.
Proof.
  unfold fits, left_shared, left_reserved. setoid_rewrite taken_cpu_part.
  assert (∀ n, granted_below SharedPortion n (cpu_part <$> G) = granted_below SharedPortion n G ∧
    granted_below ReservedPortion n (cpu_part <$> G) = granted_below ReservedPortion n G) as Hg.
  { intros n. by rewrite !granted_below_cpu_part. }
  split; intros Hf m Hm; specialize (Hf m Hm); destruct (Hg m) as [E1 E2]; lia.
Qed.

Lemma books_same p p' G : ta_root p' = ta_root p → ta_free p' = ta_free p → books p G → books p' G.
Proof.
  intros Hr Hf [H1 H2 H3]. split; [|by rewrite Hr|done]. rewrite Hr. intros n Hn. unfold FreeSupply. rewrite Hf.
  by apply H1.
Qed.

(** ** Allocating from a pool *)

(** Nothing but free supplies and memory has changed. *)
Definition same_but_alloc (p p' : policy) : Prop := with_memory (ta_memAllocator p') (with_free (ta_free p') p) = p'.

Lemma sba_refl p : same_but_alloc p p.
Proof. by destruct p. Qed.

Lemma sba_trans p q r : same_but_alloc p q → same_but_alloc q r → same_but_alloc p r.
Proof. unfold same_but_alloc. by intros <- <-. Qed.

Lemma sba_free p q : same_but_free p q → same_but_alloc p q.
Proof. unfold same_but_free, same_but_alloc. intros <-. by destruct p. Qed.

Lemma sba_memory p q : same_but_memory p q → same_but_alloc p q.
Proof. unfold same_but_memory, same_but_alloc. intros <-. by destruct p. Qed.

Lemma sba_root p q : same_but_alloc p q → ta_root q = ta_root p.
Proof. by intros <-. Qed.

Lemma sba_grants p q : same_but_alloc p q → ta_grants q = ta_grants p.
Proof. by intros <-. Qed.

Lemma sba_pins p q : same_but_alloc p q → ta_pins q = ta_pins p.
Proof. by intros <-. Qed.

Lemma sba_opt p q : same_but_alloc p q → ta_opt q = ta_opt p.
Proof. by intros <-. Qed.

Section allocate.
Context `{GoRuntime} (E : TEnv) (cch : TCache) (usable : CPUSet) `{!PoolCpus E usable} (I R : CPUSet).

(** A grant of a pool, with the amounts of the request. *)
Definition grants_of (p : policy) (n : Pool) (r : request) (g : grant) : Prop :=
  g_node g = NodeID n ∧ g_container g = tc_ID (rq_container r) ∧
  ∃ full fraction, cpu_amounts p n r = (full, fraction, g_cpuType g) ∧
    csize (g_exclusive g) = full ∧ g_cpuPortion g = fraction.

Lemma csize_0 (X : CPUSet) : csize X = 0 → X = ∅.
Proof. intros Hs. apply leibniz_equiv, size_empty_inv. unfold csize in Hs. lia. Qed.

(** Reserved CPUs are not exclusive. *)
Lemma cpu_amounts_reserved p n r full fraction : request_ok r → cpu_amounts p n r = (full, fraction, cpuReserved) → full = 0.
Proof.
  intros [Hr _]. unfold cpu_amounts. destruct (decide (rq_cpuType r = cpuReserved ∧ rq_full r > 0)) as [Hd|Hd].
  - rewrite bool_decide_eq_true_2 by done. by intros [= <- _ _].
  - rewrite (bool_decide_eq_false_2 _ Hd). intros [= <- _ Ht]. case_bool_decide; [done|].
    destruct (decide (rq_full r > 0)); [by destruct Hd|lia].
Qed.

Lemma cpu_amounts_total p n r full fraction t : cpu_amounts p n r = (full, fraction, t) →
  1000 * full + fraction = 1000 * rq_full r + rq_fraction r.
Proof. unfold cpu_amounts. case_bool_decide; intros [= <- <- _]; lia. Qed.

Lemma flat_sub root n : flat root → below n root → flat n.
Proof.
  intros Hf [->|[_ Hl]]%(flat_below root n Hf); [done|]. unfold IsLeafNode in Hl. apply bool_decide_eq_true in Hl.
  intros c. rewrite Hl. by intros ?%not_elem_of_nil.
Qed.

Lemma Allocate_books p G n r o : tree_wf I R (ta_root p) → books p G → pool_cpus (ta_root p) ⊆ usable →
  below n (ta_root p) → request_ok r →
  match Allocate E cch n r o p with
  | (q, Ok (g, _)) => books q (g :: G) ∧ same_but_alloc p q ∧ grants_of p n r g ∧
      (fits (ta_root p) G → flat n → fits (ta_root p) (g :: G))
  | (q, Err _) => books q G ∧ same_but_alloc p q
  end.
Proof.
  intros Hwf Hb Hus Hn Hr. unfold Allocate. destruct o as [o|]; [|split; [done|apply sba_refl]].
  pose proof (AllocateCPU_books E cch usable I R p G n r Hwf Hb Hus Hn Hr) as Ha.
  pose proof (λ q g Hf Hfl, AllocateCPU_fits E cch usable I R p G n r q g Hwf Hb Hus Hf Hn Hfl Hr) as Hfits.
  destruct (AllocateCPU E cch n r p) as [q [g|e]].
  2:{ destruct Ha as [??]. split; [done|by apply sba_free]. }
  destruct Ha as (Hbq & Hf & Hnode & Hctr & Hamt). pose proof (sbf_root _ _ Hf) as Hroot.
  destruct (verifyStrictPreferences E cch q r g) as [?|e].
  2:{ destruct (ReleaseCPU_books I R q G g) as [Hb' Hf']; [by rewrite Hroot|done|].
      split; [done|]. by apply sba_free; eapply sbf_trans. }
  pose proof (Commit_offer_sbm o q) as Hc. destruct (Commit_offer o q) as [q' [[zone updates]|e]]; cbn [fst] in Hc.
  - split_and!.
    + apply (books_same q); [by rewrite <- Hc..|]. apply books_cpu_part. by apply books_cpu_part in Hbq.
    + eapply sba_trans; [by apply sba_free|by apply sba_memory].
    + by split_and!.
    + intros Hfit Hflat. apply fits_cpu_part. specialize (Hfits q g Hfit Hflat eq_refl). by apply fits_cpu_part in Hfits.
  - destruct (ReleaseCPU_books I R q' G g) as [Hb' Hf'].
    + rewrite <- Hc. cbn. by rewrite Hroot.
    + apply (books_same q); [by rewrite <- Hc..|done].
    + split; [done|]. eapply sba_trans; [by apply sba_free|]. eapply sba_trans; [by apply sba_memory|by apply sba_free].
Qed.
End allocate.

(** * Requests that fit are granted

    A pool without children grants what it has: a request for full CPUs and a
    fraction of its shared CPUs succeeds if the pool and the pools above it
    have that much left. *)

Open Scope Z_scope.

Lemma cap_by_ext own own' l a : (∀ m, m ∈ l → own m = own' m) → cap_by own l a = cap_by own' l a.
Proof.
  revert a. induction l as [|m l IH]; intros a Hext; [done|]. unfold cap_by in *. cbn. rewrite Hext by (by left).
  apply IH. intros. apply Hext. by right.
Qed.

Lemma cap_by_shift own own' k l a : (∀ m, m ∈ l → own' m = own m - k) → cap_by own' l (a - k) = cap_by own l a - k.
Proof.
  revert a. induction l as [|m l IH]; intros a Hext; [done|]. unfold cap_by in *. cbn. rewrite Hext by (by left).
  rewrite <- IH by (intros; apply Hext; by right). f_equal. repeat case_bool_decide; lia.
Qed.

Section live.
Context `{GoRuntime} (E : TEnv) (cch : TCache) (usable I R : CPUSet) `{!PoolCpus E usable}.

Lemma hasZero_same p q m : same_but_free p q → hasZeroCpuReqContainer cch q m = hasZeroCpuReqContainer cch p m.
Proof. by intros <-. Qed.

Section pool.
Context (p : policy) (G : list grant) (Hwf : tree_wf I R (ta_root p)) (Hb : books p G)
  (Hus : pool_cpus (ta_root p) ⊆ usable).

Lemma granted_below_nonneg f n : (∀ g, g ∈ G → 0 ≤ f g) → 0 ≤ granted_below f n G.
Proof.
  clear Hb. induction G as [|g G' IH]; intros Hf; [done|]. rewrite granted_below_cons.
  assert (0 ≤ granted_below f n G') by (apply IH; intros; apply Hf; by right).
  pose proof (Hf g ltac:(by left)). case_bool_decide; lia.
Qed.

(** The shared CPUs of a pool are at least what can be allocated of it. *)
Lemma allocatable_size n : below n (ta_root p) →
  AllocatableSharedCPU cch p n ≤ 1000 * csize (su_sharable (FreeSupply p (NodeID n))).
Proof.
  intros Hn. destruct (AllocatableSharedCPU_le cch p n) as [Hle _]. destruct (own_left I R p G n Hwf Hb Hn) as [Ho _].
  assert (0 ≤ granted_below SharedPortion n G) as Hpos.
  { apply granted_below_nonneg. intros g Hg. pose proof (bk_ok _ _ Hb) as Hok. rewrite Forall_forall in Hok.
    destruct (Hok g Hg) as [Hp _]. by apply portion_nonneg in Hp as [? _]. }
  rewrite Ho in Hle. unfold left_shared in Hle. rewrite (free_sharable p G Hb n Hn). lia.
Qed.

Lemma slice_leaf n : below n (ta_root p) → IsLeafNode n = true → 0 ≤ AllocatableSharedCPU cch p n →
  ∃ slice, SliceableCPUs E cch p n = Ok slice ∧ csize slice = Z.quot (AllocatableSharedCPU cch p n) 1000 ∧
    slice ⊆ su_sharable (FreeSupply p (NodeID n)).
Proof.
  intros Hn Hleaf Hpos. unfold SliceableCPUs. pose proof Hleaf as Hl. unfold IsLeafNode in Hl.
  apply bool_decide_eq_true in Hl. destruct n as [nd cs]. cbn in Hl. subst cs. cbn [DepthFirst pool_children map concat app fold_left].
  set (n := MkPool nd []) in *. unfold slice_step. rewrite Hleaf, andb_false_r. cbn zeta.
  set (A := AllocatableSharedCPU cch p n) in *. pose proof (allocatable_size n Hn) as Hsz.
  assert (Z.quot A 1000 ≤ csize (su_sharable (FreeSupply p (NodeID n)))) as Hq.
  { fold A in Hsz. pose proof (Z.quot_le_mono A (csize (su_sharable (FreeSupply p (NodeID n))) * 1000) 1000 ltac:(lia) ltac:(lia)).
    rewrite Z.quot_mul in * by lia. lia. }
  destruct (pc_take (su_sharable (FreeSupply p (NodeID n))) (Z.quot A 1000) PriorityNone
    (free_usable E usable I R p G Hwf Hb Hus n Hn) Hq) as (X & HX & Hsub & Hc).
  rewrite HX. cbn [fst snd]. exists X. rewrite (left_id_L ∅ (∪)). split_and!; [done| |done].
  rewrite Hc. apply Z.max_r. apply Z.quot_pos; lia.
Qed.

(** What can be allocated after CPUs have been taken from a pool. *)
Lemma allocatable_after n g q : below n (ta_root p) → same_but_free p q → books q (g :: G) → g_cpuPortion g = 0 →
  g_exclusive g ⊆ su_sharable (GetSupply n) → g_exclusive g ## taken G →
  AllocatableSharedCPU cch q n = AllocatableSharedCPU cch p n - 1000 * csize (g_exclusive g).
Proof.
  intros Hn Hq Hbq Hpor Hsub Hd. pose proof (sbf_root _ _ Hq) as Hr. unfold AllocatableSharedCPU. cbn zeta.
  assert (∀ m, below m (ta_root p) → below n m → own_shared q m = own_shared p m - 1000 * csize (g_exclusive g)) as Hown.
  { intros m Hm Hnm. destruct (own_left I R p G m Hwf Hb Hm) as [-> _].
    destruct (own_left I R q (g :: G) m) as [-> _]; [by rewrite Hr|done|by rewrite Hr|].
    rewrite left_shared_cons by done. destruct (below_kinds _ _ _ _ _ Hwf Hm Hnm) as [Hs _].
    assert (su_sharable (GetSupply m) ∩ g_exclusive g = g_exclusive g) as -> by set_solver.
    assert (SharedPortion g = 0) as -> by (unfold SharedPortion; case_bool_decide; done). case_bool_decide; lia. }
  unfold Parents. rewrite Hr. fold (Parents p (NodeID n)).
  rewrite (Hown n Hn (below_refl n)), (cap_by_shift (own_shared p)).
  - assert (existsb (hasZeroCpuReqContainer cch q) (BreadthFirst n) = existsb (hasZeroCpuReqContainer cch p) (BreadthFirst n)) as ->.
    { generalize (BreadthFirst n). induction l as [|m l IH]; [done|]. cbn. by rewrite IH, (hasZero_same p q m Hq). }
    destruct (existsb _ _); lia.
  - intros m Hm. apply (Parents_spec _ _ p n Hwf Hn) in Hm as (Hmr & Hnm & _). by apply Hown.
Qed.

Lemma AllocateCPU_leaf n r : below n (ta_root p) → IsLeafNode n = true → request_ok r →
  rq_cpuType r = cpuNormal → rq_isolate r = false → rq_pickByHints r = false →
  1000 * rq_full r + rq_fraction r ≤ AllocatableSharedCPU cch p n →
  ∃ q g, AllocateCPU E cch n r p = (q, Ok g) ∧ csize (g_exclusive g) = rq_full r ∧ g_cpuPortion g = rq_fraction r ∧
    g_exclusive g ⊆ su_sharable (FreeSupply p (NodeID n)).
Proof.
  intros Hn Hleaf [Hf0 Hr0] Ht Hiso Hhints Hfit. pose proof (allocatable_size n Hn) as Hsz.
  destruct (slice_leaf n Hn Hleaf ltac:(lia)) as (slice & Hs & Hcs & Hss).
  assert (cpu_amounts p n r = (rq_full r, rq_fraction r, cpuNormal)) as Hamt.
  { unfold cpu_amounts. rewrite Ht. by rewrite !bool_decide_eq_false_2 by (by intros [? ?]). }
  assert (rq_full r ≤ csize slice) as Hle.
  { rewrite Hcs. rewrite <- (Z.quot_mul (rq_full r) 1000) by lia. apply Z.quot_le_mono; lia. }
  pose proof (free_usable E usable I R p G Hwf Hb Hus n Hn) as Hfu.
  destruct (pc_take slice (rq_full r) (rq_prio r) ltac:(set_solver) Hle) as (X & HX & HXs & HXc).
  rewrite Z.max_r in HXc by lia.
  set (q0 := set_supply (NodeID n) (set_cpus (su_isolated (FreeSupply p (NodeID n)))
    (su_sharable (FreeSupply p (NodeID n)) ∖ X) (FreeSupply p (NodeID n))) p).
  assert (pickExclusiveCPUs E cch n r (rq_full r) false p = (q0, Ok X)) as Hpick.
  { unfold pickExclusiveCPUs. cbn zeta. rewrite Hiso. cbn [andb]. rewrite bool_decide_eq_true_2 by lia.
    rewrite Hs. unfold take_for. by rewrite Hhints, HX. }
  unfold AllocateCPU. rewrite Hamt, Hpick. cbn zeta. set (g0 := newGrant _ _ _ _ _ _ _ _ _).
  assert (X ⊆ su_sharable (FreeSupply p (NodeID n))) as HXf by set_solver.
  pose proof (pick_sharable E usable I R p G Hwf Hb Hus n X Hn HXf) as Hpf. fold q0 in Hpf.
  destruct (picked_books I R p G Hwf Hb n X q0 g0 Hn Hpf eq_refl eq_refl eq_refl) as [Hb1 Hf1].
  case_bool_decide as Hfr.
  - assert (AllocatableSharedCPU cch (AccountAllocateCPU g0 q0) n = AllocatableSharedCPU cch p n - 1000 * csize X) as Hafter.
    { apply (allocatable_after n g0); try done.
      - rewrite (free_sharable p G Hb n Hn) in HXf. cbn. set_solver.
      - apply (pf_new _ _ _ _ _ Hpf). }
    unfold pickSharedFraction. cbn zeta. rewrite bool_decide_eq_false_2, bool_decide_eq_true_2 by lia.
    rewrite bool_decide_eq_false_2 by lia. eexists _, _. split; [done|]. by split_and!.
  - eexists _, _. split; [done|]. split_and!; [done| |done]. cbn. lia.
Qed.
End pool.
End live.

(** * The invariant of the topology-aware policy

    Pools and grants agree whatever is allocated, released and updated: the
    free supply of a pool is its capacity less what is granted, the exclusive
    CPUs of grants have nothing in common, and a tree of pools with leaves
    right below the root does not grant more than it has. *)

Open Scope Z_scope.

(** ** Grants by container *)

Definition held (grants : gmap string grant) : list grant := (map_to_list grants).*2.

Lemma held_empty : held ∅ = [].
Proof. unfold held. by rewrite map_to_list_empty. Qed.

Lemma held_insert id g m : m !! id = None → held (<[id := g]> m) ≡ₚ g :: held m.
Proof. intros Hid. unfold held. by rewrite map_to_list_insert. Qed.

Lemma held_delete id g m : m !! id = Some g → held m ≡ₚ g :: held (delete id m).
Proof. intros Hid. rewrite <- (insert_delete_id m id g Hid) at 1. apply held_insert, lookup_delete_eq. Qed.

Lemma elem_of_held g m : g ∈ held m ↔ ∃ id, m !! id = Some g.
Proof.
  unfold held. rewrite list_elem_of_fmap. setoid_rewrite <- elem_of_map_to_list.
  split; [intros ([id ?] & -> & ?); by eauto|intros [id ?]; by exists (id, g)].
Qed.

Lemma held_cpu_part (m m' : gmap string grant) : cpu_part <$> m = cpu_part <$> m' → cpu_part <$> held m = cpu_part <$> held m'.
Proof.
  intros Heq. unfold held. rewrite <- !list_fmap_compose.
  assert (∀ m : gmap string grant, cpu_part ∘ snd <$> map_to_list m = (map_to_list (cpu_part <$> m)).*2) as Hm.
  { intros m0. rewrite map_to_list_fmap, <- list_fmap_compose. apply list_fmap_ext. by intros ? []. }
  by rewrite !Hm, Heq.
Qed.

Lemma cpu_part_eq g g' : cpu_part g = cpu_part g' → g_container g = g_container g' ∧ g_node g = g_node g' ∧
  g_exclusive g = g_exclusive g' ∧ g_cpuType g = g_cpuType g' ∧ g_cpuPortion g = g_cpuPortion g' ∧
  g_cpuClass g = g_cpuClass g' ∧ g_irqs g = g_irqs g'.
Proof. destruct g, g'. cbn. by intros [= -> -> -> -> -> -> ->]. Qed.

(** ** Changes of memory *)

(** CPUs, options and what grants have of CPUs are as before. *)
Record cpus_kept (p q : policy) : Prop := {
  ck_root : ta_root q = ta_root p;
  ck_free : ta_free q = ta_free p;
  ck_opt : ta_opt q = ta_opt p;
  ck_allowed : ta_allowed q = ta_allowed p;
  ck_irqCnt : ta_irqCnt q = ta_irqCnt p;
  ck_grants : cpu_part <$> ta_grants q = cpu_part <$> ta_grants p;
  ck_pins : ∀ id, pin_cpus (pinning_of id q) = pin_cpus (pinning_of id p);
}.

Lemma ck_refl p : cpus_kept p p.
Proof. done. Qed.

Lemma ck_trans p q r : cpus_kept p q → cpus_kept q r → cpus_kept p r.
Proof. intros [] []. split; congruence. Qed.

Lemma ck_memory p q : same_but_memory p q → cpus_kept p q.
Proof. intros <-. done. Qed.

(** A grant is found where it was. *)
Lemma ck_lookup p q id g : cpus_kept p q → ta_grants q !! id = Some g →
  ∃ g', ta_grants p !! id = Some g' ∧ cpu_part g' = cpu_part g.
Proof.
  intros Hk Hg. pose proof (f_equal (.!! id) (ck_grants _ _ Hk)) as Hl. cbn beta in Hl.
  rewrite !lookup_fmap, Hg in Hl. destruct (ta_grants p !! id) as [g0|]; [|done]. exists g0. split; [done|]. symmetry. by apply (inj Some).
Qed.

Lemma ck_set_memZone p id g zone : ta_grants p !! id = Some g →
  cpus_kept p (with_grants (<[id := set_memZone zone g]> (ta_grants p)) p).
Proof.
  intros Hg. split; try done. cbn. rewrite fmap_insert. change (cpu_part (set_memZone zone g)) with (cpu_part g).
  apply insert_id. by rewrite lookup_fmap, Hg.
Qed.

Lemma ck_set_timer p id g v : ta_grants p !! id = Some g →
  cpus_kept p (with_grants (<[id := set_timer v g]> (ta_grants p)) p).
Proof.
  intros Hg. split; try done. cbn. rewrite fmap_insert. change (cpu_part (set_timer v g)) with (cpu_part g).
  apply insert_id. by rewrite lookup_fmap, Hg.
Qed.

Lemma pinning_of_set id id' pin p :
  pinning_of id' (with_settings (<[id := pin]> (ta_pins p)) p) = if bool_decide (id = id') then pin else pinning_of id' p.
Proof.
  unfold pinning_of. cbn. case_bool_decide as Hid.
  - subst. by rewrite lookup_insert_eq.
  - by rewrite lookup_insert_ne.
Qed.

Lemma ck_set_mems p id mems : cpus_kept p (set_mems id mems p).
Proof.
  split; try done. intros id'. unfold set_mems. cbn zeta. rewrite pinning_of_set. case_bool_decide; [by subst|done].
Qed.

Lemma ck_set_sched p id calls : cpus_kept p (set_sched id calls p).
Proof.
  split; try done. intros id'. unfold set_sched. cbn zeta. rewrite pinning_of_set. case_bool_decide; [by subst|done].
Qed.

Lemma ck_set_shares p id shares : cpus_kept p (set_shares id shares p).
Proof.
  split; try done. intros id'. unfold set_shares. cbn zeta. rewrite pinning_of_set. case_bool_decide; [by subst|done].
Qed.

Lemma ck_use_class p class cpus : cpus_kept p (use_class class cpus p).
Proof. done. Qed.

Lemma ck_fold {A} (f : policy → A → policy) l : (∀ p x, cpus_kept p (f p x)) → ∀ p, cpus_kept p (fold_left f l p).
Proof.
  intros Hf. induction l as [|x l IH]; intros p; cbn; [apply ck_refl|]. eapply ck_trans; [apply Hf|apply IH].
Qed.

Create HintDb ta_kept.
#[export] Hint Resolve ck_refl ck_memory ck_set_memZone ck_set_timer ck_set_mems ck_set_sched ck_set_shares ck_use_class : ta_kept.

Section invariant.
Context `{GoRuntime} (E : TEnv) (cch : TCache).

Lemma apply_updates_kept updates p : cpus_kept p (apply_updates updates p).
Proof.
  unfold apply_updates. apply ck_fold. intros q [id zone]. cbn [fst snd].
  destruct (ta_grants q !! id) as [g|] eqn:Hg; [|apply ck_refl]. cbn zeta.
  destruct (opt_PinMemory _); [|by apply ck_set_memZone].
  eapply ck_trans; [by apply ck_set_memZone|apply ck_set_mems].
Qed.

Lemma ta_resetCpuClass_kept cpus p : cpus_kept p (ta_resetCpuClass cpus p).
Proof. unfold ta_resetCpuClass. destruct (_ || _); auto with ta_kept. Qed.

(** ** The invariant *)

Section inv.
Context (usable I R : CPUSet).

Record ta_inv (p : policy) : Prop := {
  ti_tree : tree_wf I R (ta_root p);
  ti_usable : pool_cpus (ta_root p) ⊆ usable;
  ti_books : books p (held (ta_grants p));
  ti_keys : ∀ id g, ta_grants p !! id = Some g → g_container g = id;
  ti_reserved : ∀ id g, ta_grants p !! id = Some g → g_cpuType g = cpuReserved → g_exclusive g = ∅;
  ti_fits : flat (ta_root p) → fits (ta_root p) (held (ta_grants p));
}.

Lemma ta_inv_kept p q : cpus_kept p q → ta_inv p → ta_inv q.
Proof.
  intros Hk [H1 H2 H3 H4 H5 H6]. pose proof (ck_root _ _ Hk) as Hr. split; rewrite ?Hr; try done.
  - apply (books_same p); [done|apply Hk|]. apply books_cpu_part.
    rewrite (held_cpu_part _ _ (ck_grants _ _ Hk)). by apply books_cpu_part.
  - intros id g (g' & Hg' & He%cpu_part_eq)%(ck_lookup _ _ _ _ Hk). destruct He as (<- & _). by apply H4.
  - intros id g (g' & Hg' & He%cpu_part_eq)%(ck_lookup _ _ _ _ Hk). destruct He as (_ & _ & <- & <- & _). by eapply H5.
  - intros Hf. apply fits_cpu_part. rewrite (held_cpu_part _ _ (ck_grants _ _ Hk)). by apply fits_cpu_part, H6.
Qed.

(** Free supplies are determined by the tree and the grants. *)
Lemma ta_inv_supplies p q : ta_inv p → ta_inv q → ta_root q = ta_root p → ta_grants q = ta_grants p →
  ∀ n, below n (ta_root p) → FreeSupply q (NodeID n) = FreeSupply p (NodeID n).
Proof.
  intros Hp Hq Hr Hg. apply (books_determine p q (held (ta_grants p)) Hr (ti_books _ Hp)).
  rewrite <- Hg. apply (ti_books _ Hq).
Qed.

(** ** Releasing *)

Lemma releasePool_inv id p : ta_inv p →
  match releasePool id p with
  | (q, Some g) => ta_inv q ∧ ta_grants p !! id = Some g ∧ ta_grants q = delete id (ta_grants p) ∧
      ta_root q = ta_root p ∧ ta_opt q = ta_opt p ∧ ta_pins q = ta_pins p
  | (q, None) => q = p ∧ ta_grants p !! id = None
  end.
Proof.
  intros Hinv. unfold releasePool. destruct (ta_grants p !! id) as [g|] eqn:Hg; [|done].
  destruct Hinv as [Hwf Hus Hb Hk Hres Hfit]. pose proof (held_delete _ _ _ Hg) as Hperm.
  apply (books_perm _ _ _ Hperm) in Hb. destruct (ReleaseCPU_books I R p _ g Hwf Hb) as [Hb' Hf].
  unfold grant_Release. pose proof (releaseMem_sbm (g_container g) (ReleaseCPU g p)) as Hm.
  set (q0 := (releaseMem _ _).1) in *. assert (ta_grants q0 = ta_grants p) as Hgr.
  { rewrite <- Hm. cbn. by apply sbf_grants. }
  set (q1 := delGrant id q0).
  assert (q1 = count_irq g (with_grants (delete id (ta_grants p)) q0)) as Hq1.
  { unfold q1, delGrant. by rewrite Hgr, Hg. }
  assert (ta_grants q1 = delete id (ta_grants p)) as Hgq by (rewrite Hq1; unfold count_irq; by case_bool_decide).
  assert (ta_root q1 = ta_root p ∧ ta_free q1 = ta_free (ReleaseCPU g p) ∧ ta_opt q1 = ta_opt p ∧ ta_pins q1 = ta_pins p)
    as (Hrq & Hfq & Hoq & Hpq).
  { rewrite Hq1, <- Hm, <- Hf. unfold count_irq. by case_bool_decide. }
  split_and!; [|done|..].
  - apply (ta_inv_kept q1); [apply ta_resetCpuClass_kept|]. split; rewrite ?Hrq, ?Hgq; try done.
    + apply (books_same (ReleaseCPU g p)); [by rewrite Hrq, (sbf_root _ _ Hf)|done|done].
    + intros id' g'' [_ Hg']%lookup_delete_Some. by apply Hk.
    + intros id' g'' [_ Hg']%lookup_delete_Some. by eapply Hres.
    + intros Hflat. specialize (Hfit Hflat). apply (fits_release _ g); [by eapply books_disjoint|..].
      * apply (bk_ok _ _) in Hb. apply Forall_cons in Hb as [[? _] _]. done.
      * by eapply fits_perm.
  - rewrite <- Hgq. unfold ta_resetCpuClass. by destruct (_ || _).
  - rewrite <- Hrq. unfold ta_resetCpuClass. by destruct (_ || _).
  - rewrite <- Hoq. unfold ta_resetCpuClass. by destruct (_ || _).
  - rewrite <- Hpq. unfold ta_resetCpuClass. by destruct (_ || _).
Qed.

(** ** Allocating *)

(** Amounts of CPU are not negative. *)
Definition ctr_ok (c : TCtr) : Prop := 0 ≤ milli (rs_requestCPU (resources c)).

Lemma cpuAllocationPreferences_nonneg opt prio c full fraction limit isolate t prio' : ctr_ok c →
  cpuAllocationPreferences cch opt prio c = (full, fraction, limit, isolate, t, prio') → 0 ≤ full ∧ 0 ≤ fraction.
Proof.
  unfold ctr_ok, cpuAllocationPreferences. cbn zeta. set (m := milli _). intros Hm.
  pose proof (Z.quot_pos m 1000 Hm ltac:(lia)). pose proof (Z.rem_nonneg m 1000 ltac:(lia) Hm).
  destruct (checkReservedCPUsAnnotations cch c) as [? ?], (isolatedCPUsPreference cch opt c) as [? ?],
    (sharedCPUsPreference cch opt c) as [? ?]. intros Heq.
  repeat (case_match; simplify_eq; try lia).
Qed.

(** The amount of CPU for a container is what it requests. *)
Definition amount_for (c : TCtr) (amount : Z) : Prop :=
  amount = milli (rs_requestCPU (resources c)) ∨ qos cch c = "BestEffort" ∧ amount = 0.

Lemma cpuAllocationPreferences_amount opt prio c full fraction limit isolate t prio' : ctr_ok c →
  cpuAllocationPreferences cch opt prio c = (full, fraction, limit, isolate, t, prio') →
  amount_for c (1000 * full + fraction).
Proof.
  unfold ctr_ok, amount_for, cpuAllocationPreferences. cbn zeta. set (m := milli _). intros Hm.
  pose proof (Z.quot_rem m 1000 ltac:(lia)) as Hqr. pose proof (Z.rem_nonneg m 1000 ltac:(lia) Hm).
  destruct (checkReservedCPUsAnnotations cch c) as [? ?], (isolatedCPUsPreference cch opt c) as [? ?],
    (sharedCPUsPreference cch opt c) as [? ?]. intros Heq.
  repeat (case_match; simplify_eq; try (left; lia));
    repeat match goal with
      | H : bool_decide _ = true |- _ => apply bool_decide_eq_true in H
      | H : bool_decide _ = false |- _ => apply bool_decide_eq_false in H
      end; try (left; lia). by right.
Qed.

Lemma newRequest_ok p c types r : ctr_ok c → newRequest E cch p c types = Ok r →
  request_ok r ∧ rq_container r = c ∧ amount_for c (1000 * rq_full r + rq_fraction r).
Proof.
  unfold newRequest. intros Hc Hr. destruct (GetPod _ _); [|done].
  destruct (cpuAllocationPreferences cch (ta_opt p) (ta_defaultPrio p) c) as [[[[[full fraction] l] i] t] pr] eqn:Hp.
  pose proof (cpuAllocationPreferences_amount _ _ _ _ _ _ _ _ _ Hc Hp) as Ham.
  apply cpuAllocationPreferences_nonneg in Hp; [|done]. destruct (memoryAllocationPreference cch c) as [[? ?] ?].
  destruct (resolveCpuClass cch p c) as [[? ?]|]; [|done]. cbn [res_bind] in Hr. case_match; [done|].
  destruct (irqAffinityPreference E cch c) as [[? ?]|]; [|done]. cbn [res_bind] in Hr. case_match; [done|].
  destruct (request_memory E cch p c _ _) as [[? ?]|]; [|done]. cbn [res_bind] in Hr. by injection Hr as <-.
Qed.

Lemma fallback_type_same p r : rq_full (fallback_type p r) = rq_full r ∧ rq_fraction (fallback_type p r) = rq_fraction r ∧
  rq_container (fallback_type p r) = rq_container r.
Proof. unfold fallback_type. by case_bool_decide. Qed.

(** What an allocation adds: a grant for the container, from a pool of the tree. *)
Record allocated (id : string) (amount : Z) (g : grant) (p q : policy) : Prop := {
  al_ctr : g_container g = id;
  al_grant : ta_grants q !! id = Some g;
  al_others : cpu_part <$> delete id (ta_grants q) = cpu_part <$> ta_grants p;
  al_root : ta_root q = ta_root p;
  al_opt : ta_opt q = ta_opt p;
  al_amount : 1000 * csize (g_exclusive g) + g_cpuPortion g = amount;
  al_pins : ∀ id, pin_cpus (pinning_of id q) = pin_cpus (pinning_of id p);
}.

Context `{!PoolCpus E usable}.

Lemma allocatePool_inv c hint p : ta_inv p → ctr_ok c → ta_grants p !! tc_ID c = None →
  match allocatePool E cch c hint p with
  | (q, Ok g) => ta_inv q ∧ ∃ amount, amount_for c amount ∧ allocated (tc_ID c) amount g p q
  | (q, Err _) => ta_inv q ∧ same_but_alloc p q
  end.
Proof.
  intros Hinv Hc Hnone. unfold allocatePool.
  destruct (newRequest E cch p c _) as [r|e] eqn:Hr; [|split; [done|apply sba_refl]].
  apply newRequest_ok in Hr as ([Hr1 Hr2] & Hrc & Ham); [|done]. destruct (fallback_type_same p r) as (Hf1 & Hf2 & Hf3).
  pose proof (choose_pool_spec E cch (fallback_type p r) hint p) as Hch.
  destruct (choose_pool E cch (fallback_type p r) hint p) as [q [[[r' n] o]|e]].
  2:{ split; [|by apply sba_memory]. by eapply ta_inv_kept; [apply ck_memory|]. }
  destruct Hch as (Hm & Hn & Hfull & Hfrac & _ & Hid). rewrite Hf3, Hrc in Hid.
  assert (ta_inv q) as [Hwf Hus Hb Hk Hres Hfit] by (by eapply ta_inv_kept; [apply ck_memory|]).
  assert (ta_grants q = ta_grants p) as Hgq by (by rewrite <- Hm).
  pose proof (sbm_root _ _ Hm) as Hrq. rewrite <- Hrq in Hn.
  assert (request_ok r') as Hok by (split; rewrite ?Hfull, ?Hfrac, ?Hf1, ?Hf2; done).
  pose proof (Allocate_books E cch usable I R q _ n r' (Some o) Hwf Hb Hus Hn Hok) as Ha.
  destruct (Allocate E cch n r' (Some o) q) as [q1 [[g updates]|e]].
  2:{ destruct Ha as [Hb1 Hs]. split; [|by eapply sba_trans; [apply sba_memory|]].
      split; rewrite ?(sba_root _ _ Hs), ?(sba_grants _ _ Hs); done. }
  destruct Ha as (Hb1 & Hs & (Hgn & Hgc & full & fraction & Hamt & Hx & Hpor) & Hf).
  rewrite Hid in Hgc. pose proof (sba_root _ _ Hs) as Hr1'. pose proof (sba_grants _ _ Hs) as Hg1.
  pose proof (apply_updates_kept updates q1) as Hup. set (q2 := apply_updates updates q1) in *.
  assert (ta_grants q2 !! tc_ID c = None) as Hnone2.
  { destruct (ta_grants q2 !! tc_ID c) as [g'|] eqn:Hg'; [|done].
    apply (ck_lookup _ _ _ _ Hup) in Hg' as (g'' & Hg'' & _). by rewrite Hg1, Hgq, Hnone in Hg''. }
  assert (ta_grants (addGrant g q2) = <[tc_ID c := g]> (ta_grants q2)) as Hgadd.
  { unfold addGrant, count_irq. rewrite Hgc. by case_bool_decide. }
  assert (ta_root (addGrant g q2) = ta_root p ∧ ta_free (addGrant g q2) = ta_free q1 ∧ ta_opt (addGrant g q2) = ta_opt p ∧
    ta_pins (addGrant g q2) = ta_pins q2) as (Hra & Hfa & Hoa & Hpa).
  { rewrite <- Hrq, <- Hr1'. unfold addGrant, count_irq.
    assert (ta_opt q1 = ta_opt p) as <- by (rewrite <- Hs, <- Hm; done).
    case_bool_decide; cbn; split_and!; (done || apply Hup). }
  split.
  - pose proof (held_insert _ g _ Hnone2) as Hperm. rewrite <- Hgadd in Hperm.
    assert (∀ G, cpu_part <$> G = cpu_part <$> held (ta_grants q) → cpu_part <$> g :: G = cpu_part <$> g :: held (ta_grants q))
      as Hcons by (intros G HG; rewrite !fmap_cons; by f_equal).
    pose proof (held_cpu_part _ _ (ck_grants _ _ Hup)) as Hheld. rewrite Hg1 in Hheld. apply Hcons in Hheld.
    split.
    + by rewrite Hra, <- Hrq.
    + by rewrite Hra, <- Hrq.
    + eapply books_perm; [symmetry; exact Hperm|]. apply (books_same q1); [by rewrite Hra, <- Hrq, <- Hr1'|done|].
      apply books_cpu_part. rewrite Hheld. by apply books_cpu_part.
    + intros id g'. rewrite Hgadd. intros [[<- <-]|[Hne Hg']]%lookup_insert_Some; [done|].
      apply (ck_lookup _ _ _ _ Hup) in Hg' as (g'' & Hg'' & (<- & _)%cpu_part_eq). apply Hk. by rewrite <- Hg1.
    + intros id g'. rewrite Hgadd. intros [[<- <-]|[Hne Hg']]%lookup_insert_Some Ht.
      * rewrite Ht in Hamt. apply csize_0. rewrite Hx. by eapply cpu_amounts_reserved.
      * apply (ck_lookup _ _ _ _ Hup) in Hg' as (g'' & Hg'' & (_ & _ & He & He' & _)%cpu_part_eq).
        rewrite <- He. rewrite <- He' in Ht. eapply Hres; [by rewrite <- Hg1|done].
    + rewrite Hra, <- Hrq. intros Hflat. eapply fits_perm; [symmetry; exact Hperm|]. apply fits_cpu_part.
      rewrite Hheld. apply fits_cpu_part. apply Hf; [by apply Hfit|].
      by eapply flat_sub.
  - eexists. split; [exact Ham|]. split; try done.
    + by rewrite Hgadd, lookup_insert_eq.
    + rewrite Hgadd, delete_insert_id by done. rewrite (ck_grants _ _ Hup). by rewrite Hg1, Hgq.
    + rewrite Hx, Hpor, (cpu_amounts_total _ _ _ _ _ _ Hamt). by rewrite Hfull, Hfrac, Hf1, Hf2.
    + intros id. unfold pinning_of at 1. rewrite Hpa. fold (pinning_of id q2). rewrite (ck_pins _ _ Hup).
      unfold pinning_of. by rewrite (sba_pins _ _ Hs), <- Hm.
Qed.
End inv.
End invariant.
