(* ===== verification/TaMain.v ===== *)
(** * Pinning containers to what they have been granted

    A container is pinned to no other CPUs than those of its grant, also after
    the shared CPUs of its pool have changed, so that CPUs granted exclusively
    to one container are never used by another one. *)

From S2P Require Import Prelude GoStrings MemTypes MemNodes MemRequest MemZones MemAllocator Expr Affinity CpuTree CpuOrder CpuResizeFacts CpuAlloc CpuAllocFacts CpuTopo Kube BlnTypes BlnPin BlnPolicy TaTypes TaPrefs TaSupply TaScore TaPolicy TaBuild TaConfig TaAccount TaAlloc TaCapacity TaInv.

Open Scope Z_scope.

(** A container has been pinned to CPUs of its grant. *)
Definition pin_ok (p : policy) (id : string) (g : grant) : Prop :=
  ∃ X, pin_cpus (pinning_of id p) = Some X ∧ X ⊆ grant_cpus p g.

(** What a container is pinned to, if it was pinned to [V] before anything was
    set for it. *)
Definition over (V : string → option CPUSet) (p : policy) (id : string) : option CPUSet :=
  match pin_cpus (pinning_of id p) with Some X => Some X | None => V id end.

Definition pinned_to (V : string → option CPUSet) (p : policy) (id : string) (g : grant) : Prop :=
  ∃ X, over V p id = Some X ∧ X ⊆ grant_cpus p g.

Definition pinned (V : string → option CPUSet) (p : policy) : Prop :=
  ∀ id g, ta_grants p !! id = Some g → g_cpuType g ≠ cpuPreserve → pinned_to V p id g.

(** Whatever containers were pinned to, if they were to CPUs of their grants
    they still are. *)
Definition stays_pinned (p q : policy) : Prop := ∀ V, pinned V p → pinned V q.

#[export] Instance stays_pinned_preorder : PreOrder stays_pinned.
Proof. split; [by intros p V|]. intros p q r Hpq Hqr V Hp. by apply Hqr, Hpq. Qed.

Definition unpinned : string → option CPUSet := λ _, None.

Lemma over_same V p q id : pin_cpus (pinning_of id q) = pin_cpus (pinning_of id p) → over V q id = over V p id.
Proof. unfold over. by intros ->. Qed.

Lemma over_unpinned p id : over unpinned p id = pin_cpus (pinning_of id p).
Proof. unfold over. by destruct (pin_cpus _). Qed.

Lemma pin_ok_to V p id g : pin_ok p id g → pinned_to V p id g.
Proof. intros (X & HX & Hsub). exists X. unfold over. by rewrite HX. Qed.

(** Whether shared CPUs matter for a grant. *)
Definition shares_cpus (g : grant) : bool :=
  bool_decide (g_cpuType g = cpuNormal) && negb (bool_decide (SharedPortion g = 0 ∧ g_exclusive g ≠ ∅)).

Lemma grant_cpus_eq p q g g' : cpu_part g = cpu_part g' → ta_root q = ta_root p →
  su_sharable (FreeSupply q (g_node g)) = su_sharable (FreeSupply p (g_node g)) ∨ (shares_cpus g = false ∧ 0 ≤ g_cpuPortion g) →
  grant_cpus q g' = grant_cpus p g.
Proof.
  intros (_ & Hn & Hx & Ht & Hp & _)%cpu_part_eq Hr Hs.
  unfold grant_cpus, ReservedCPUs, SharedCPUs, node_supply, shares_cpus, SharedPortion in *. cbn zeta in *.
  rewrite <- Hn, <- Hx, <- Ht, <- Hp, Hr. destruct Hs as [->|[Hs Hpos]]; [done|].
  destruct (g_cpuType g); [|done|done]. apply andb_false_iff in Hs as [Hs|Hs].
  { by apply bool_decide_eq_false in Hs. }
  apply negb_false_iff, bool_decide_eq_true in Hs as [Hs Hne]. cbn in Hs |- *.
  rewrite (bool_decide_eq_false_2 (g_exclusive g = ∅)) by done. rewrite (bool_decide_eq_false_2 (_ > 0)); [done|]. lia.
Qed.

(** The state apart from what containers are pinned to and the calls made to
    the handler of CPU classes. *)
Definition core_kept (p q : policy) : Prop :=
  ta_root q = ta_root p ∧ ta_free q = ta_free p ∧ ta_opt q = ta_opt p ∧ ta_grants q = ta_grants p.

Lemma core_refl p : core_kept p p.
Proof. done. Qed.

Lemma core_trans p q r : core_kept p q → core_kept q r → core_kept p r.
Proof. unfold core_kept. intuition congruence. Qed.

Lemma core_inv usable I R p q : core_kept p q → ta_inv usable I R p → ta_inv usable I R q.
Proof.
  intros (Hr & Hf & Ho & Hg) [H1 H2 H3 H4 H5 H6]. split; rewrite ?Hr, ?Hg; try done. by apply (books_same p).
Qed.

Lemma core_grant_cpus p q g : core_kept p q → grant_cpus q g = grant_cpus p g.
Proof.
  intros (Hr & Hf & _). apply grant_cpus_eq; [done|done|]. left. unfold FreeSupply. by rewrite Hf.
Qed.

Lemma pinning_set_cpuset id cpus p id' :
  pin_cpus (pinning_of id' (set_cpuset id cpus p)) = if bool_decide (id = id') then Some cpus else pin_cpus (pinning_of id' p).
Proof. unfold set_cpuset. cbn zeta. rewrite pinning_of_set. by case_bool_decide. Qed.

Section pins.
Context `{GoRuntime} (E : TEnv) (cch : TCache).

Lemma SingleThreadForCPUs_sub (sys : TopoSys) X : SingleThreadForCPUs sys X ⊆ X.
Proof.
  intros x. unfold SingleThreadForCPUs.
  assert (∀ l (st : CPUSet * CPUSet), x ∈ (fold_left (single_thread_step sys) l st).1 → x ∈ st.1 ∨ x ∈ l) as Hfold.
  { induction l as [|y l IH]; intros [res handled]; cbn; [by left|]. intros Hx%IH. revert Hx. unfold single_thread_step.
    repeat (case_match || case_bool_decide); cbn; set_solver. }
  intros [Hx|Hx]%Hfold; [set_solver|]. by apply elem_of_CPUSet_List in Hx.
Qed.

Lemma preferred_sub c X : preferred_cpus E cch c X ⊆ X.
Proof. unfold preferred_cpus. destruct (_ && _); [|done]. apply SingleThreadForCPUs_sub. Qed.

(** Applying a grant pins its container and nothing else. *)
Lemma applyGrant_spec g p : core_kept p (applyGrant E cch g p) ∧
  (∀ id, id ≠ g_container g → pin_cpus (pinning_of id (applyGrant E cch g p)) = pin_cpus (pinning_of id p)) ∧
  (opt_PinCPU (ta_opt p) = true → g_cpuType g ≠ cpuPreserve → pin_ok (applyGrant E cch g p) (g_container g) g).
Proof.
  unfold applyGrant. cbn zeta. set (q0 := if opt_PinCPU (ta_opt p) then apply_cpus E cch g p else p).
  set (q1 := if bool_decide (g_memType g = memoryPreserve) then q0 else _). set (q2 := match _ with Ok _ => _ | Err _ => _ end).
  assert (cpus_kept q0 q1) as Hk1 by (unfold q1; case_bool_decide; [apply ck_refl|apply ck_set_mems]).
  assert (cpus_kept q1 q2) as Hk2.
  { unfold q2. destruct (schedulingClassPreference _ _ _) as [[sc|]|]; [apply ck_set_sched|apply ck_refl..]. }
  assert (ta_grants q2 = ta_grants q0) as Hg2.
  { unfold q2, q1. destruct (schedulingClassPreference _ _ _) as [[sc|]|]; case_bool_decide; done. }
  pose proof (ck_trans _ _ _ Hk1 Hk2) as Hk. clearbody q2. clear q1 Hk1 Hk2.
  enough (core_kept p q0 ∧
    (∀ id, id ≠ g_container g → pin_cpus (pinning_of id q0) = pin_cpus (pinning_of id p)) ∧
    (opt_PinCPU (ta_opt p) = true → g_cpuType g ≠ cpuPreserve → pin_ok q0 (g_container g) g)) as (Hc & Hother & Hthis).
  { assert (core_kept q0 q2) as Hc' by (split_and!; [apply Hk..|done]).
    split_and!; [by eapply core_trans| |].
    - intros id Hid. rewrite (ck_pins _ _ Hk). by apply Hother.
    - intros Hpin Ht. destruct (Hthis Hpin Ht) as (X & HX & Hsub). exists X.
      by rewrite (ck_pins _ _ Hk), (core_grant_cpus _ _ _ Hc'). }
  unfold q0. destruct (opt_PinCPU (ta_opt p)); [|by split_and!]. unfold apply_cpus. cbn zeta.
  set (q3 := if bool_decide (g_cpuType g = cpuPreserve) then p else _).
  set (shares := MilliCPUToShares _). set (q4 := if bool_decide (_ ∧ _) then _ else _).
  assert (cpus_kept q3 q4 ∧ ta_grants q4 = ta_grants q3) as [Hk' Hg'].
  { unfold q4. case_bool_decide; (split; [|done]); [|apply ck_set_shares].
    eapply ck_trans; [apply ck_set_shares|apply ck_use_class]. }
  clearbody q4. assert (core_kept p q3) as Hc3 by (unfold q3, setPreferredCpusetCpus; repeat case_bool_decide; done).
  assert (core_kept q3 q4) as Hc4 by (split_and!; [apply Hk'..|done]).
  split_and!; [by eapply core_trans|..].
  - intros id Hid. rewrite (ck_pins _ _ Hk'). unfold q3, setPreferredCpusetCpus.
    repeat case_bool_decide; rewrite ?pinning_set_cpuset; try done; by rewrite bool_decide_eq_false_2.
  - intros _ Ht. unfold pin_ok. rewrite (ck_pins _ _ Hk'), (core_grant_cpus _ _ _ Hc4), (core_grant_cpus _ _ _ Hc3).
    unfold q3, setPreferredCpusetCpus. rewrite (bool_decide_eq_false_2 _ Ht).
    case_bool_decide; rewrite pinning_set_cpuset, bool_decide_eq_true_2 by done; eexists; (split; [done|]);
      [apply preferred_sub|set_solver].
Qed.

(** The CPUs that a grant gets after a change. *)
Definition shared_step (g : option grant) (p : policy) (ig : string * grant) : policy :=
  let other := ig.2 in
  if affected g other && opt_PinCPU (ta_opt p) then
    let shared := su_sharable (FreeSupply p (g_node other)) in
    setPreferredCpusetCpus E cch (g_container other) (ctr_of cch other)
      (if bool_decide (g_exclusive other = ∅) then shared else g_exclusive other ∪ shared) p
  else p.

Lemma shared_step_core g p ig : core_kept p (shared_step g p ig).
Proof. unfold shared_step. by destruct (_ && _). Qed.

Lemma affected_shares g other : affected g other = true → shares_cpus other = true.
Proof.
  unfold affected, shares_cpus. rewrite !andb_true_iff. intuition.
Qed.

Lemma shared_step_pins g p id other : opt_PinCPU (ta_opt p) = true → 0 ≤ g_cpuPortion other → g_container other = id →
  affected g other = true → pin_ok (shared_step g p (id, other)) id other.
Proof.
  intros Hpin Hpos Hid Ha. unfold pin_ok. rewrite (core_grant_cpus _ _ _ (shared_step_core g p (id, other))).
  unfold shared_step. cbn [snd]. rewrite Ha, Hpin. cbn [andb]. unfold setPreferredCpusetCpus.
  rewrite pinning_set_cpuset, bool_decide_eq_true_2 by done. eexists. split; [done|].
  etrans; [apply preferred_sub|]. apply affected_shares in Ha. unfold shares_cpus in Ha.
  apply andb_true_iff in Ha as [Ht%bool_decide_eq_true Hs]. apply negb_true_iff, bool_decide_eq_false in Hs.
  unfold grant_cpus, SharedCPUs. rewrite Ht. case_bool_decide as Hx; [done|].
  rewrite bool_decide_eq_true_2; [done|]. apply portion_nonneg in Hpos as [? _].
  destruct (decide (SharedPortion other = 0)); [by destruct Hs|lia].
Qed.

Lemma shared_step_other g p ig id : g_container ig.2 ≠ id ∨ affected g ig.2 = false →
  pin_cpus (pinning_of id (shared_step g p ig)) = pin_cpus (pinning_of id p).
Proof.
  intros Hid. unfold shared_step. destruct (affected g ig.2); [|done]. destruct Hid as [Hid|]; [|done].
  destruct (opt_PinCPU _); [|done]. cbn [andb]. unfold setPreferredCpusetCpus.
  by rewrite pinning_set_cpuset, bool_decide_eq_false_2.
Qed.

Lemma shared_fold g l p : core_kept p (fold_left (shared_step g) l p) ∧
  ∀ id, (∀ ig, ig ∈ l → g_container ig.2 ≠ id ∨ affected g ig.2 = false) →
    pin_cpus (pinning_of id (fold_left (shared_step g) l p)) = pin_cpus (pinning_of id p).
Proof.
  revert p. induction l as [|ig l IH]; intros p; cbn; [done|]. destruct (IH (shared_step g p ig)) as [H1 H2]. split.
  - eapply core_trans; [apply shared_step_core|done].
  - intros id Hl. rewrite H2 by (intros; apply Hl; by right). apply shared_step_other, Hl. by left.
Qed.

Lemma updateSharedAllocations_fold g p : core_kept p (updateSharedAllocations E cch g p) ∧
  updateSharedAllocations E cch g p =
    if match g with Some g => bool_decide (g_cpuType g = cpuReserved) | None => false end then p
    else fold_left (shared_step g) (map_range (ta_grants p)) p.
Proof.
  assert (updateSharedAllocations E cch g p = if match g with Some g => bool_decide (g_cpuType g = cpuReserved) | None => false end
    then p else fold_left (shared_step g) (map_range (ta_grants p)) p) as Heq by done.
  split; [|done]. rewrite Heq. destruct (match g with Some _ => _ | None => false end); [done|apply shared_fold].
Qed.

(** After shared CPUs have changed, the grants that use them are pinned anew. *)
Lemma updateSharedAllocations_pins g p id other : opt_PinCPU (ta_opt p) = true →
  (∀ id g, ta_grants p !! id = Some g → g_container g = id ∧ 0 ≤ g_cpuPortion g) →
  (∀ g', g = Some g' → g_cpuType g' ≠ cpuReserved) → ta_grants p !! id = Some other →
  if affected g other then pin_ok (updateSharedAllocations E cch g p) id other
  else pin_cpus (pinning_of id (updateSharedAllocations E cch g p)) = pin_cpus (pinning_of id p).
Proof.
  intros Hpin Hkeys Hg Hother. destruct (updateSharedAllocations_fold g p) as [Hc Heq].
  assert (match g with Some g => bool_decide (g_cpuType g = cpuReserved) | None => false end = false) as Hres.
  { destruct g as [g|]; [|done]. rewrite bool_decide_eq_false_2; [done|by apply Hg]. }
  rewrite Hres in Heq. rewrite Heq in Hc |- *.
  assert (∀ ig, ig ∈ map_range (ta_grants p) → ta_grants p !! ig.1 = Some ig.2) as Hin.
  { intros [? ?]. by rewrite elem_of_map_range. }
  pose proof (NoDup_map_range (ta_grants p)) as Hnd. pose proof Hother as Hmem. rewrite <- elem_of_map_range in Hmem.
  destruct (affected g other) eqn:Ha.
  - apply list_elem_of_split in Hmem as (l1 & l2 & Hl). rewrite Hl in Hin, Hnd |- *. rewrite fold_left_app in *.
    destruct (shared_fold g l1 p) as [Hc1 _]. set (q := fold_left (shared_step g) l1 p) in *.
    assert (∀ ig, ig ∈ l2 → g_container ig.2 ≠ id ∨ affected g ig.2 = false) as Hl2.
    { intros ig Hig. left. assert (ta_grants p !! ig.1 = Some ig.2) as Hl3 by (apply Hin; set_solver).
      destruct (Hkeys _ _ Hl3) as [-> _]. intros Heqid. rewrite fmap_app, fmap_cons in Hnd. cbn in Hnd.
      apply NoDup_app in Hnd as (_ & _ & [Hni _]%NoDup_cons). apply Hni. rewrite <- Heqid. by apply list_elem_of_fmap_2. }
    cbn [fold_left]. destruct (shared_fold g l2 (shared_step g q (id, other))) as [Hc2 Hp2]. specialize (Hp2 id Hl2).
    destruct (Hkeys _ _ Hother) as [Hk Hpos]. destruct Hc1 as (?&?&Ho&?).
    destruct (shared_step_pins g q id other) as (X & HX & Hsub); [by rewrite Ho|done|done|done|].
    exists X. by rewrite Hp2, (core_grant_cpus _ _ _ Hc2).
  - apply shared_fold. intros ig Hig. apply Hin in Hig. destruct (Hkeys _ _ Hig) as [-> _].
    destruct (decide (ig.1 = id)) as [Heqid|]; [|by left]. right. rewrite Heqid in Hig. by simplify_eq.
Qed.
End pins.

(** * Requests to the topology-aware policy

    The requests of the resource manager keep the invariant of the policy and
    containers pinned to their grants; those that fail leave CPUs as they were.
    States that requests lead to from an initialized policy are safe. *)

Open Scope Z_scope.

Section requests.
Context `{GoRuntime} (E : TEnv) (usable I R : CPUSet) `{!PoolCpus E usable}.
Abbreviation inv := (ta_inv usable I R).

(** ** Pinning after a change *)

Lemma inv_grant p id g : inv p → ta_grants p !! id = Some g → g_container g = id ∧ 0 ≤ g_cpuPortion g ∧
  ∃ n, below n (ta_root p) ∧ NodeID n = g_node g ∧ g_exclusive g ⊆ pool_cpus n.
Proof.
  intros Hinv Hg. pose proof (bk_ok _ _ (ti_books _ _ _ _ Hinv)) as Hok. rewrite Forall_forall in Hok.
  destruct (Hok g) as [? ?]; [apply elem_of_held; by exists id|]. split_and!; try done. by apply (ti_keys _ _ _ _ Hinv).
Qed.

Lemma sharable_same p q g : inv p → inv q → ta_root q = ta_root p →
  taken (held (ta_grants q)) = taken (held (ta_grants p)) → (∃ n, below n (ta_root p) ∧ NodeID n = g_node g) →
  su_sharable (FreeSupply q (g_node g)) = su_sharable (FreeSupply p (g_node g)).
Proof.
  intros Hp Hq Hr Ht (n & Hn & <-).
  rewrite (free_sharable p _ (ti_books _ _ _ _ Hp) n Hn), (free_sharable q _ (ti_books _ _ _ _ Hq) n ltac:(by rewrite Hr)).
  by rewrite Ht.
Qed.

(** A grant [g] has come or gone, all others are as before. *)
Lemma repin cch p q g : inv p → inv q → ta_root q = ta_root p → opt_PinCPU (ta_opt q) = true → ∀ V, pinned V p →
  (g_cpuType g = cpuReserved → taken (held (ta_grants q)) = taken (held (ta_grants p))) →
  (∀ id o, ta_grants q !! id = Some o → id ≠ g_container g →
    pin_cpus (pinning_of id q) = pin_cpus (pinning_of id p) ∧
    ∃ o', ta_grants p !! id = Some o' ∧ cpu_part o' = cpu_part o) →
  ∀ id o, ta_grants q !! id = Some o → id ≠ g_container g → g_cpuType o ≠ cpuPreserve →
    pinned_to V (updateSharedAllocations E cch (Some g) q) id o.
Proof.
  intros Hp Hq Hr Hpin V Hpinned Hres Hothers id o Ho Hne Ht.
  destruct (Hothers id o Ho Hne) as (Hpins & o' & Ho' & He). destruct (inv_grant _ _ _ Hp Ho') as (_ & Hpos & n & Hn & Hid & _).
  assert (g_cpuType o' ≠ cpuPreserve) as Ht'.
  { apply cpu_part_eq in He as (_ & _ & _ & -> & _). done. }
  destruct (Hpinned id o' Ho' Ht') as (X & HX & Hsub).
  destruct (updateSharedAllocations_fold E cch (Some g) q) as [Hc Heq].
  assert (∀ q', core_kept q q' → pin_cpus (pinning_of id q') = pin_cpus (pinning_of id q) →
    su_sharable (FreeSupply q (g_node o')) = su_sharable (FreeSupply p (g_node o')) ∨ (shares_cpus o' = false ∧ 0 ≤ g_cpuPortion o') →
    pinned_to V q' id o) as Hkeep.
  { intros q' Hc' Hpin' Hs. exists X. rewrite (over_same V p) by congruence. split; [done|].
    rewrite (core_grant_cpus _ _ _ Hc'). by rewrite (grant_cpus_eq p q o' o He Hr Hs). }
  destruct (decide (g_cpuType g = cpuReserved)) as [Hg|Hg].
  - rewrite Heq, bool_decide_eq_true_2 by done. apply Hkeep; [done|done|]. left.
    apply sharable_same; [done|done|done|by apply Hres|by exists n].
  - pose proof (updateSharedAllocations_pins E cch (Some g) q id o Hpin) as Hup.
    specialize (Hup (λ id g Hg, let '(conj a (conj b _)) := inv_grant _ _ _ Hq Hg in conj a b)).
    specialize (Hup ltac:(by intros ? [= <-]) Ho).
    destruct (affected (Some g) o) eqn:Ha; [by apply pin_ok_to|]. apply Hkeep; [done|done|]. right. split; [|done].
    destruct (inv_grant _ _ _ Hq Ho) as (Hk & _). unfold affected in Ha. rewrite Hk in Ha.
    rewrite (bool_decide_eq_false_2 (id = g_container g)) in Ha by done. cbn [negb andb] in Ha.
    unfold shares_cpus, SharedPortion in *. apply cpu_part_eq in He as (_ & _ & -> & -> & -> & _). exact Ha.
Qed.

(** CPUs granted to different containers. *)
Lemma exclusive_apart p id g id' g' : inv p → ta_grants p !! id = Some g → ta_grants p !! id' = Some g' → id ≠ id' →
  g_exclusive g ## g_exclusive g'.
Proof.
  intros Hi Hg Hg' Hne. pose proof (books_perm _ _ _ (held_delete _ _ _ Hg) (ti_books _ _ _ _ Hi)) as Hb.
  apply books_disjoint in Hb. apply disjoint_taken in Hb. rewrite Forall_forall in Hb. apply Hb.
  apply elem_of_held. exists id'. by rewrite lookup_delete_ne.
Qed.

Lemma grant_cpus_apart p id g id' g' : inv p → I ## R → ta_grants p !! id = Some g → ta_grants p !! id' = Some g' →
  id ≠ id' → grant_cpus p g ## g_exclusive g'.
Proof.
  intros Hi HIR Hg Hg' Hne. pose proof (exclusive_apart p id g id' g' Hi Hg Hg' Hne) as Hd.
  destruct (inv_grant _ _ _ Hi Hg) as (_ & _ & n & Hn & Hid & _), (inv_grant _ _ _ Hi Hg') as (_ & _ & n' & Hn' & _ & Hsub).
  pose proof (ti_tree _ _ _ _ Hi) as Hwf.
  assert (SharedCPUs p g ## g_exclusive g') as Hs.
  { unfold SharedCPUs. rewrite <- Hid, (free_sharable p _ (ti_books _ _ _ _ Hi) n Hn).
    assert (g_exclusive g' ⊆ taken (held (ta_grants p))); [|set_solver].
    rewrite (taken_perm _ _ (held_delete _ _ _ Hg')), taken_cons. set_solver. }
  assert (ReservedCPUs p g ## g_exclusive g') as Hr.
  { unfold ReservedCPUs. rewrite <- Hid, (node_supply_below _ _ _ Hwf n Hn).
    pose proof (wf_reserved _ _ _ Hwf n Hn). pose proof (wf_isolated _ _ _ Hwf n' Hn').
    pose proof (wf_sharable _ _ _ Hwf n' Hn'). unfold pool_cpus in Hsub. set_solver. }
  unfold grant_cpus. destruct (g_cpuType g); [|done|set_solver]. repeat case_bool_decide; set_solver.
Qed.

(** ** Allocating *)

(** What an allocation that fails leaves as it was. *)
Definition cpus_same (p q : policy) : Prop :=
  ta_root q = ta_root p ∧ ta_opt q = ta_opt p ∧ ta_grants q = ta_grants p ∧
  (∀ n, below n (ta_root p) → FreeSupply q (NodeID n) = FreeSupply p (NodeID n)) ∧
  ∀ id, pin_cpus (pinning_of id q) = pin_cpus (pinning_of id p).

Lemma cpus_same_pinned p q : inv p → cpus_same p q → stays_pinned p q.
Proof.
  intros Hp (Hr & _ & Hg & Hf & Hpin) V Hpinned id g Hl Ht. rewrite Hg in Hl. destruct (Hpinned id g Hl Ht) as (X & HX & Hsub).
  exists X. rewrite (over_same V p) by done. split; [done|]. rewrite (grant_cpus_eq p q g g); [done|done|done|]. left.
  destruct (inv_grant _ _ _ Hp Hl) as (_ & _ & n & Hn & <- & _). by rewrite Hf.
Qed.

(** After an allocation: a grant for the container, or nothing has changed. *)
Definition alloc_outcome (cch : TCache) (c : TCtr) (p q : policy) (r : res unit) : Prop :=
  let id := tc_ID c in
  match r with
  | Ok _ => (∃ g, ta_grants q !! id = Some g ∧ amount_for cch c (1000 * csize (g_exclusive g) + g_cpuPortion g)) ∧ cpu_part <$> delete id (ta_grants q) = cpu_part <$> ta_grants p ∧
      ta_root q = ta_root p ∧ ta_opt q = ta_opt p
  | Err _ => cpus_same p q
  end.

Lemma allocated_lookup id0 am g p q id o : allocated id0 am g p q → ta_grants q !! id = Some o → id ≠ id0 →
  ∃ o', ta_grants p !! id = Some o' ∧ cpu_part o' = cpu_part o.
Proof.
  intros Hal Ho Hne. pose proof (f_equal (.!! id) (al_others _ _ _ _ _ Hal)) as Hl. cbn beta in Hl.
  rewrite !lookup_fmap, lookup_delete_ne, Ho in Hl by done. destruct (ta_grants p !! id) as [o'|]; [|done].
  exists o'. split; [done|]. symmetry. by apply (inj Some).
Qed.

Lemma allocated_taken id am g p q : allocated id am g p q → g_exclusive g = ∅ → taken (held (ta_grants q)) = taken (held (ta_grants p)).
Proof.
  intros Hal Hx. rewrite (taken_perm _ _ (held_delete _ _ _ (al_grant _ _ _ _ _ Hal))), taken_cons, Hx, (left_id_L ∅ (∪)).
  rewrite <- (taken_cpu_part (held (ta_grants p))), <- (held_cpu_part _ _ (al_others _ _ _ _ _ Hal)). by rewrite taken_cpu_part.
Qed.

Lemma ta_allocateResources_inv cch c hint p : inv p → ctr_ok c → ta_grants p !! tc_ID c = None →
  ∀ q r, ta_allocateResources E cch c hint p = (q, r) →
  inv q ∧ alloc_outcome cch c p q r ∧ (opt_PinCPU (ta_opt p) = true → stays_pinned p q).
Proof.
  intros Hinv Hc Hnone q r. unfold ta_allocateResources.
  pose proof (allocatePool_inv E cch usable I R c hint p Hinv Hc Hnone) as Ha.
  destruct (allocatePool E cch c hint p) as [q1 [g|e]]; intros [= <- <-].
  2:{ destruct Ha as [Hi Hs]. assert (cpus_same p q1) as Hsame.
      { split_and!; [by apply sba_root|by apply sba_opt|by apply sba_grants|..].
        - apply (ta_inv_supplies usable I R); [done|done|by apply sba_root|by apply sba_grants].
        - intros id. unfold pinning_of. by rewrite (sba_pins _ _ Hs). }
      split_and!; [done|done|]. intros _. by apply cpus_same_pinned. }
  destruct Ha as (Hi1 & amount & Ham & Hal). rewrite (al_ctr _ _ _ _ _ Hal), (al_grant _ _ _ _ _ Hal). cbn [default].
  destruct (applyGrant_spec E cch g q1) as (Hc2 & Hp2 & Hthis). set (q2 := applyGrant E cch g q1) in *.
  destruct (updateSharedAllocations_fold E cch (Some g) q2) as [Hc3 Heq]. set (q3 := updateSharedAllocations _ _ _ _) in *.
  pose proof (core_inv usable I R _ _ Hc2 Hi1) as Hi2. pose proof (core_trans _ _ _ Hc2 Hc3) as Hc13.
  rewrite (al_ctr _ _ _ _ _ Hal) in Hp2, Hthis. destruct Hc2 as (Hr2 & Hf2 & Ho2 & Hg2).
  split_and!.
  - by apply (core_inv usable I R _ _ Hc13).
  - destruct Hc13 as (Hr3 & _ & Ho3 & Hg3). cbn. rewrite Hg3, Hr3, Ho3.
    split_and!; [|apply Hal|apply Hal|apply Hal]. exists g. split; [apply Hal|]. by rewrite (al_amount _ _ _ _ _ Hal).
  - intros Hpin V Hpinned id o Ho Ht. destruct Hc13 as (Hr3 & Hf3 & Ho3 & Hg3). rewrite Hg3 in Ho.
    destruct (decide (id = tc_ID c)) as [->|Hne].
    + rewrite (al_grant _ _ _ _ _ Hal) in Ho. injection Ho as <-.
      destruct (Hthis ltac:(by rewrite (al_opt _ _ _ _ _ Hal)) Ht) as (X & HX & Hsub). apply pin_ok_to. exists X.
      rewrite (core_grant_cpus _ _ _ Hc3). split; [|done]. rewrite <- HX.
      destruct (decide (g_cpuType g = cpuReserved)) as [Hres|Hres].
      { by rewrite Heq, bool_decide_eq_true_2. }
      pose proof (updateSharedAllocations_pins E cch (Some g) q2 (tc_ID c) g) as Hup.
      assert (affected (Some g) g = false) as Hself by (unfold affected; by rewrite bool_decide_eq_true_2).
      rewrite Hself in Hup. apply Hup.
      * by rewrite Ho2, (al_opt _ _ _ _ _ Hal).
      * intros id g' Hg'. destruct (inv_grant _ _ _ Hi2 Hg') as (? & ? & _). done.
      * by intros ? [= <-].
      * by rewrite Hg2, (al_grant _ _ _ _ _ Hal).
    + apply (repin cch p q2 g); try done.
      * by rewrite Hr2, (al_root _ _ _ _ _ Hal).
      * by rewrite Ho2, (al_opt _ _ _ _ _ Hal).
      * intros Hres. rewrite Hg2. apply (allocated_taken _ _ _ _ _ Hal).
        by apply (ti_reserved _ _ _ _ Hi1 _ _ (al_grant _ _ _ _ _ Hal)).
      * rewrite (al_ctr _ _ _ _ _ Hal). intros id' o' Ho' Hne'. rewrite Hp2, (al_pins _ _ _ _ _ Hal) by done.
        split; [done|]. rewrite Hg2 in Ho'. by eapply allocated_lookup.
      * by rewrite Hg2.
      * by rewrite (al_ctr _ _ _ _ _ Hal).
Qed.

(** ** Releasing and updating *)

Lemma applyIrqAffinity_kept p : core_kept p (applyIrqAffinity E p) ∧ ta_pins (applyIrqAffinity E p) = ta_pins p ∧
  ta_irqCnt (applyIrqAffinity E p) = ta_irqCnt p ∧ ta_allowed (applyIrqAffinity E p) = ta_allowed p.
Proof.
  unfold applyIrqAffinity. case_bool_decide; [done|]. destruct (te_Interrupts E) as [irqs|]; [|done]. cbn zeta.
  enough (core_kept p (fold_left (apply_irq E) irqs p) ∧ ta_pins (fold_left (apply_irq E) irqs p) = ta_pins p ∧
    ta_irqCnt (fold_left (apply_irq E) irqs p) = ta_irqCnt p ∧ ta_allowed (fold_left (apply_irq E) irqs p) = ta_allowed p) by done.
  assert (∀ q irq, core_kept q (apply_irq E q irq) ∧ ta_pins (apply_irq E q irq) = ta_pins q ∧
    ta_irqCnt (apply_irq E q irq) = ta_irqCnt q ∧ ta_allowed (apply_irq E q irq) = ta_allowed q) as Hstep.
  { intros q irq. unfold apply_irq. destruct (ta_irqAffinity q !! irq); [|done]. cbn zeta. case_bool_decide; [done|].
    by destruct (te_SetAffinity _ _ _). }
  clear H0. revert p. induction irqs as [|irq irqs IH]; intros p; cbn; [done|].
  destruct (IH (apply_irq E p irq)) as (H1 & H2 & H3 & H4), (Hstep p irq) as (S1 & S2 & S3 & S4).
  split_and!; [by eapply core_trans|congruence..].
Qed.

Lemma pinned_core p q : core_kept p q → ta_pins q = ta_pins p → stays_pinned p q.
Proof.
  intros Hc Hpins V Hp id g Hg Ht. assert (ta_grants q = ta_grants p) as Hgr by apply Hc. rewrite Hgr in Hg.
  destruct (Hp id g Hg Ht) as (X & HX & Hsub). exists X. rewrite (core_grant_cpus _ _ _ Hc), (over_same V p); [done|]. unfold pinning_of.
  by rewrite Hpins.
Qed.

(** Interrupts do not matter to CPUs and pinning. *)
Lemma deferred_inv pr : inv pr.1 → inv (deferred E pr).1 ∧ stays_pinned pr.1 (deferred E pr).1.
Proof.
  intros Hi. destruct (applyIrqAffinity_kept pr.1) as (Hc & Hpins & _). split; [by apply (core_inv usable I R _ _ Hc)|].
  by apply pinned_core.
Qed.

Lemma ta_release_inv cch id p : inv p →
  match releasePool id p with
  | (q, Some g) => inv (updateSharedAllocations E cch (Some g) q) ∧
      (opt_PinCPU (ta_opt p) = true → stays_pinned p (updateSharedAllocations E cch (Some g) q)) ∧
      ta_grants (updateSharedAllocations E cch (Some g) q) = delete id (ta_grants p) ∧
      ta_root (updateSharedAllocations E cch (Some g) q) = ta_root p ∧
      ta_opt (updateSharedAllocations E cch (Some g) q) = ta_opt p
  | (q, None) => q = p ∧ ta_grants p !! id = None
  end.
Proof.
  intros Hi. pose proof (releasePool_inv usable I R id p Hi) as Hr. destruct (releasePool id p) as [q [g|]]; [|done].
  destruct Hr as (Hq & Hg & Hgq & Hroot & Hopt & Hpins).
  destruct (updateSharedAllocations_fold E cch (Some g) q) as [Hc _]. set (q' := updateSharedAllocations _ _ _ _) in *.
  destruct (inv_grant _ _ _ Hi Hg) as (Hk & _). pose proof Hc as (Hr' & Hf' & Ho' & Hg').
  split_and!; [by apply (core_inv usable I R _ _ Hc)| |congruence..].
  intros Hpin V Hpinned id' o Ho Ht. rewrite Hg', Hgq in Ho. pose proof Ho as [Hne Hlp]%lookup_delete_Some.
  apply (repin cch p q g); try done.
  - by rewrite Hopt.
  - intros Hres. rewrite Hgq, (taken_perm _ _ (held_delete _ _ _ Hg)), taken_cons.
    rewrite (ti_reserved _ _ _ _ Hi _ _ Hg Hres). set_solver.
  - intros id2 o2 Ho2 Hne2. rewrite Hgq in Ho2. apply lookup_delete_Some in Ho2 as [_ Ho2]. split; [|by exists o2].
    unfold pinning_of. by rewrite Hpins.
  - by rewrite Hgq.
  - by rewrite Hk.
Qed.

Lemma ta_AllocateResources_inv cch c p : inv p → ctr_ok c → ta_grants p !! tc_ID c = None →
  inv (ta_AllocateResources E cch c p).1 ∧
  (opt_PinCPU (ta_opt p) = true → stays_pinned p (ta_AllocateResources E cch c p).1).
Proof.
  intros Hi Hc Hn. unfold ta_AllocateResources.
  destruct (ta_allocateResources E cch c "" p) as [q r] eqn:Ha.
  destruct (ta_allocateResources_inv cch c "" p Hi Hc Hn q r Ha) as (Hq & _ & Hp).
  destruct (deferred_inv (q, r) Hq) as [? Hd]. split; [done|]. intros. etrans; [by apply Hp|done].
Qed.

Lemma ta_ReleaseResources_inv cch c p : inv p →
  inv (ta_ReleaseResources E cch c p).1 ∧
  (opt_PinCPU (ta_opt p) = true → stays_pinned p (ta_ReleaseResources E cch c p).1) ∧
  ta_grants (ta_ReleaseResources E cch c p).1 = delete (tc_ID c) (ta_grants p) ∧
  ta_opt (ta_ReleaseResources E cch c p).1 = ta_opt p ∧ ta_root (ta_ReleaseResources E cch c p).1 = ta_root p.
Proof.
  intros Hi. unfold ta_ReleaseResources. pose proof (ta_release_inv cch (tc_ID c) p Hi) as Hr.
  destruct (releasePool (tc_ID c) p) as [q [g|]].
  - destruct Hr as (H1 & H2 & H3 & H4 & H5). set (pr := (updateSharedAllocations E cch (Some g) q, Ok tt)).
    destruct (deferred_inv pr H1) as [D1 D2]. destruct (applyIrqAffinity_kept pr.1) as ((Hr & _ & Ho & Hg) & _).
    split_and!; [done|by intros; etrans; [apply H2|apply D2]|..]; unfold deferred; cbn [fst]; [by rewrite Hg|by rewrite Ho|by rewrite Hr].
  - destruct Hr as [-> Hn]. destruct (deferred_inv (p, Ok tt) Hi) as [D1 D2].
    destruct (applyIrqAffinity_kept p) as ((Hr & _ & Ho & Hg) & _).
    split_and!; [done|by intros; apply D2|..]; unfold deferred; cbn [fst]; rewrite ?Hg, ?Ho, ?Hr; try done.
    by rewrite delete_id.
Qed.

Lemma ta_UpdateResources_inv cch c p : inv p → ctr_ok c →
  inv (ta_UpdateResources E cch c p).1 ∧
  (opt_PinCPU (ta_opt p) = true → stays_pinned p (ta_UpdateResources E cch c p).1).
Proof.
  intros Hi Hc. unfold ta_UpdateResources. pose proof (ta_release_inv cch (tc_ID c) p Hi) as Hr.
  destruct (releasePool (tc_ID c) p) as [q [g|]].
  - destruct Hr as (H1 & H2 & H3 & H4 & H5). cbn zeta. set (q1 := updateSharedAllocations E cch (Some g) q) in *.
    set (hint := pool_name q1 (g_node g)).
    destruct (ta_allocateResources E cch c hint q1) as [q2 r] eqn:Ha.
    destruct (ta_allocateResources_inv cch c hint q1 H1 Hc ltac:(rewrite H3; apply lookup_delete_eq) q2 r Ha) as (Hq & _ & Hp).
    destruct (deferred_inv (q2, r) Hq) as [? Hd]. split; [done|]. intros. etrans; [by apply H2|]. etrans; [apply Hp; by rewrite H5|done].
  - destruct Hr as [-> Hn]. destruct (ta_AllocateResources_inv cch c p Hi Hc Hn) as [D1 D2].
    destruct (deferred_inv _ D1) as [? Hd]. split; [done|]. intros. etrans; [by apply D2|done].
Qed.

(** ** Synchronization *)

Lemma alloc_outcome_domain cch c p : inv p → ctr_ok c → ta_grants p !! tc_ID c = None →
  ∀ id, is_Some (ta_grants (ta_AllocateResources E cch c p).1 !! id) → id = tc_ID c ∨ is_Some (ta_grants p !! id).
Proof.
  intros Hi Hc Hn id. unfold ta_AllocateResources. destruct (ta_allocateResources E cch c "" p) as [q r] eqn:Ha.
  destruct (ta_allocateResources_inv cch c "" p Hi Hc Hn q r Ha) as (_ & Hout & _). unfold deferred. cbn [fst].
  destruct (applyIrqAffinity_kept q) as ((_ & _ & _ & ->) & _). destruct r as [u|e].
  - destruct Hout as (_ & Hd & _). destruct (decide (id = tc_ID c)); [by left|]. right.
    pose proof (f_equal (.!! id) Hd) as Hl. cbn beta in Hl. rewrite !lookup_fmap, lookup_delete_ne in Hl by done.
    apply (fmap_is_Some cpu_part). rewrite <- Hl. by apply (fmap_is_Some cpu_part).
  - destruct Hout as (_ & _ & -> & _). by right.
Qed.

Lemma allocate_all_inv cch add p q r : inv p → Forall ctr_ok add → NoDup (tc_ID <$> add) →
  Forall (λ c, ta_grants p !! tc_ID c = None) add → ta_for_each (ta_AllocateResources E cch) add p = (q, r) →
  inv q ∧ (opt_PinCPU (ta_opt p) = true → stays_pinned p q) ∧ ta_opt q = ta_opt p ∧
  ∀ id, is_Some (ta_grants q !! id) → id ∈ tc_ID <$> add ∨ is_Some (ta_grants p !! id).
Proof.
  intros Hi Hok. revert p Hi. induction Hok as [|c add Hc Hok IH]; intros p Hi Hnd Hnone; cbn [ta_for_each].
  { intros [= <- <-]. split_and!; [done|done|done|by right]. }
  apply NoDup_cons in Hnd as [Hnotin Hnd]. apply Forall_cons in Hnone as [Hn Hnone].
  destruct (ta_AllocateResources_inv cch c p Hi Hc Hn) as [Hi1 Hp1]. pose proof (alloc_outcome_domain cch c p Hi Hc Hn) as Hdom.
  assert (ta_opt (ta_AllocateResources E cch c p).1 = ta_opt p) as Hopt.
  { unfold ta_AllocateResources. destruct (ta_allocateResources E cch c "" p) as [q0 r0] eqn:Ha.
    destruct (ta_allocateResources_inv cch c "" p Hi Hc Hn q0 r0 Ha) as (_ & Hout & _). unfold deferred. cbn [fst].
    destruct (applyIrqAffinity_kept q0) as ((_ & _ & -> & _) & _).
    destruct r0; [by destruct Hout as (_ & _ & _ & ->)|by destruct Hout as (_ & -> & _)]. }
  assert (Forall (λ c', ta_grants (ta_AllocateResources E cch c p).1 !! tc_ID c' = None) add) as Hnone1.
  { rewrite Forall_forall in Hnone |- *. intros c' Hc'. apply eq_None_not_Some. intros [Heq|Hs]%Hdom.
    - apply Hnotin. rewrite <- Heq. by apply list_elem_of_fmap_2.
    - rewrite (Hnone c' Hc') in Hs. by destruct Hs. }
  destruct (ta_AllocateResources E cch c p) as [p1 r1]. cbn [fst] in *.
  intros Hq. assert ((q, r) = (p1, Err Panic) ∨ ta_for_each (ta_AllocateResources E cch) add p1 = (q, r)) as Hq'.
  { destruct r1 as [u|e]; [by right|]. destruct e; try (by right). by left. }
  assert (∀ id, is_Some (ta_grants p1 !! id) → id ∈ tc_ID <$> c :: add ∨ is_Some (ta_grants p !! id)) as Hdom1.
  { intros id [->|?]%Hdom; [left; by left|by right]. }
  destruct Hq' as [[= -> ->]|Hq']; [by split_and!|]. destruct (IH p1 Hi1 Hnd Hnone1 Hq') as (Hi2 & Hp2 & Ho2 & Hd2).
  split_and!; [done| |congruence|intros id [?|?]%Hd2; [left; by right|by apply Hdom1]].
  intros Hpin. etrans; [by apply Hp1|]. apply Hp2. by rewrite Hopt.
Qed.

Lemma release_all_inv cch del p q r : inv p → ta_for_each (ta_ReleaseResources E cch) del p = (q, r) →
  inv q ∧ (opt_PinCPU (ta_opt p) = true → stays_pinned p q) ∧ r = Ok tt ∧ ta_opt q = ta_opt p ∧
  ta_root q = ta_root p ∧
  ∀ id, ta_grants q !! id = if bool_decide (id ∈ tc_ID <$> del) then None else ta_grants p !! id.
Proof.
  revert p. induction del as [|c del IH]; intros p Hi; cbn [ta_for_each].
  { intros [= <- <-]. split_and!; try done. }
  destruct (ta_ReleaseResources_inv cch c p Hi) as (Hi1 & Hp1 & Hg1 & Ho1 & Hr1).
  assert ((ta_ReleaseResources E cch c p).2 = Ok tt) as Hok.
  { unfold ta_ReleaseResources. by destruct (releasePool (tc_ID c) p) as [? [?|]]. }
  destruct (ta_ReleaseResources E cch c p) as [p1 r1]. cbn [fst snd] in *. subst r1. intros Hq.
  destruct (IH p1 Hi1 Hq) as (Hi2 & Hp2 & Hr & Ho2 & Hr2 & Hg2). split_and!; try done; try congruence.
  - intros Hpin. etrans; [by apply Hp1|]. apply Hp2. by rewrite Ho1.
  - intros id. rewrite Hg2, Hg1, fmap_cons. destruct (decide (id = tc_ID c)) as [->|Hne].
    + rewrite (bool_decide_eq_true_2 (tc_ID c ∈ _ :: _)) by (by left). rewrite lookup_delete_eq. by case_bool_decide.
    + rewrite lookup_delete_ne by done. by rewrite (bool_decide_ext (id ∈ tc_ID c :: (tc_ID <$> del)) (id ∈ tc_ID <$> del)) by set_solver.
Qed.

Lemma ta_Sync_inv cch add del p : inv p → Forall ctr_ok add → NoDup (tc_ID <$> add) →
  Forall (λ c, ta_grants p !! tc_ID c = None ∨ tc_ID c ∈ tc_ID <$> del) add →
  inv (ta_Sync E cch add del p).1 ∧ (opt_PinCPU (ta_opt p) = true → stays_pinned p (ta_Sync E cch add del p).1) ∧
  ta_opt (ta_Sync E cch add del p).1 = ta_opt p ∧
  ∀ id, is_Some (ta_grants (ta_Sync E cch add del p).1 !! id) →
    id ∈ tc_ID <$> add ∨ (id ∉ tc_ID <$> del) ∧ is_Some (ta_grants p !! id).
Proof.
  intros Hi Hok Hnd Hnone. unfold ta_Sync. destruct (ta_for_each (ta_ReleaseResources E cch) del p) as [p1 r1] eqn:Hd.
  destruct (release_all_inv cch del p p1 r1 Hi Hd) as (Hi1 & Hp1 & -> & Ho & _ & Hg).
  destruct (ta_for_each (ta_AllocateResources E cch) add p1) as [q r] eqn:Ha. cbn [fst].
  destruct (allocate_all_inv cch add p1 q r Hi1 Hok Hnd) as (Hi2 & Hp2 & Ho2 & Hd2).
  - rewrite Forall_forall in Hnone |- *. intros c Hc. rewrite Hg. case_bool_decide; [done|]. by destruct (Hnone c Hc).
  - done.
  - split_and!; [done|intros Hpin; etrans; [by apply Hp1|apply Hp2; by rewrite Ho]|congruence|].
    intros id [?|Hs]%Hd2; [by left|right]. rewrite Hg in Hs. case_bool_decide; [by destruct Hs|done].
Qed.

(** ** Events *)

Lemma pinned_kept p q : cpus_kept p q → stays_pinned p q.
Proof.
  intros Hk V Hp id g Hg Ht. destruct (ck_lookup _ _ _ _ Hk Hg) as (g' & Hg' & He).
  pose proof (cpu_part_eq _ _ He) as (_ & _ & _ & Ht' & _). destruct (Hp id g' Hg') as (X & HX & Hsub); [by rewrite Ht'|].
  exists X. rewrite (over_same V p) by apply (ck_pins _ _ Hk). split; [done|]. rewrite (grant_cpus_eq p q g' g He); [done|apply Hk|].
  left. unfold FreeSupply. by rewrite (ck_free _ _ Hk).
Qed.

Lemma ReallocMemory_kept id types p : cpus_kept p (ReallocMemory id types p).1.
Proof.
  unfold ReallocMemory. destruct (Realloc _ _ _ _ _) as [a [[zone updates]|e]]; [|by apply ck_memory]. cbn zeta. cbn [fst].
  eapply ck_trans; [|apply apply_updates_kept]. set (q := match ta_grants _ !! id with Some _ => _ | None => _ end).
  assert (cpus_kept p q) as Hq.
  { unfold q. eapply ck_trans; [apply ck_memory, (sbm_with p a)|].
    destruct (ta_grants (with_memory a p) !! id) eqn:Hg; [by apply ck_set_memZone|apply ck_refl]. }
  destruct (opt_PinMemory (ta_opt q)); [|done]. eapply ck_trans; [done|apply ck_set_mems].
Qed.

Lemma ta_HandleEvent_kept cch e p : cpus_kept p (ta_HandleEvent cch e p).1.
Proof.
  destruct e as [id|id|]; cbn; [..|apply ck_refl].
  - unfold triggerColdStart. destruct (ta_grants p !! id) eqn:Hg; [|apply ck_refl].
    case_bool_decide; [apply ck_refl|by apply ck_set_timer].
  - destruct (tch_containers cch !! id); [|apply ck_refl]. unfold finishColdStart.
    destruct (ta_grants p !! id) as [g|] eqn:Hg; [|apply ck_refl]. cbn zeta.
    pose proof (ReallocMemory_kept id (memZoneType p (g_memZone g) ||| TypeMaskDRAM) p) as Hk.
    set (q := (ReallocMemory _ _ p).1) in *. destruct (ta_grants q !! id) eqn:Hg'; [|done]. cbn [fst].
    eapply ck_trans; [done|by apply ck_set_timer].
Qed.
End requests.
