(* ===== verification/TaBuildFacts.v ===== *)
(** * The tree of pools of a system

    On a system whose sockets, dies, NUMA nodes and caches have CPUs of their
    own, the pools built for them form a well-formed tree, and the policy is
    initialized to a state that satisfies its invariant. *)

From S2P Require Import Prelude GoStrings Expr MemTypes MemNodes MemRequest MemZones MemAllocator CpuTree CpuOrder CpuResizeFacts CpuAlloc CpuAllocFacts CpuTopo BlnTypes TaTypes TaPrefs TaSupply TaPolicy TaBuild TaAccount TaAlloc TaCapacity TaInv TaMain.

Open Scope Z_scope.

(** ** Numbering *)

(** The numbering of children, one after the other. *)
Fixpoint enumerate_children (cs : list Pool) (id : Z) : list Pool * Z :=
  match cs with
  | [] => ([], id)
  | c :: cs' =>
      let '(c, id) := enumeratePools c id in
      let '(cs', id) := enumerate_children cs' id in
      (c :: cs', id)
  end.

Lemma enumeratePools_unfold nd cs id : enumeratePools (MkPool nd cs) id =
  (MkPool (set_id (enumerate_children cs id).2 nd) (enumerate_children cs id).1, (enumerate_children cs id).2 + 1).
Proof.
  assert (∀ cs id, (fix children (cs : list Pool) (id : Z) : list Pool * Z :=
       match cs with
       | [] => ([], id)
       | c :: cs' =>
           let '(c, id) := enumeratePools c id in
           let '(cs', id) := children cs' id in
           (c :: cs', id)
       end) cs id = enumerate_children cs id) as Heq.
  { clear. intros cs. induction cs as [|c cs IH]; intros id; cbn; [done|].
    destruct (enumeratePools c id). by rewrite IH. }
  cbn [enumeratePools pool_children pool_node]. rewrite Heq. by destruct (enumerate_children cs id).
Qed.

(** Pools are numbered in the order of a depth-first traversal. *)
Lemma enumeratePools_ids n : ∀ id, NodeID <$> DepthFirst (enumeratePools n id).1 = seqZ id (Z.of_nat (tree_size n)) ∧
  (enumeratePools n id).2 = id + Z.of_nat (tree_size n).
Proof.
  induction n as [nd cs IH] using Pool_rect'. intros id. rewrite enumeratePools_unfold. cbn [fst snd].
  assert (∀ id, concat (map (λ c, NodeID <$> DepthFirst c) (enumerate_children cs id).1) =
      seqZ id (Z.of_nat (length (concat (map DepthFirst cs)))) ∧
    (enumerate_children cs id).2 = id + Z.of_nat (length (concat (map DepthFirst cs)))) as Hcs.
  { clear nd id. induction IH as [|c cs Hc _ IHcs]; intros id; cbn; [rewrite Z.add_0_r; done|].
    destruct (Hc id) as [H1 H2]. destruct (enumeratePools c id) as [c' id']. cbn [fst snd] in *. subst id'.
    destruct (IHcs (id + Z.of_nat (tree_size c))) as [H3 H4]. destruct (enumerate_children cs _) as [cs' id']. cbn in *.
    rewrite H1, H3, length_app, Nat2Z.inj_add. unfold tree_size in *. split; [|lia]. by rewrite <- seqZ_app by lia. }
  destruct (Hcs id) as [H1 H2]. rewrite tree_ids, H1. unfold set_id. cbn [nd_id]. rewrite H2.
  unfold tree_size. cbn [DepthFirst pool_children]. rewrite length_app, Nat2Z.inj_add. cbn [length].
  split; [|lia]. rewrite seqZ_app by lia. done.
Qed.

Lemma enumeratePools_nodup n id : NoDup (NodeID <$> DepthFirst (enumeratePools n id).1).
Proof. rewrite (proj1 (enumeratePools_ids n id)). apply NoDup_seqZ. Qed.

(** ** Trees of CPUs *)

Section built.
Context (allowed isolated reserved : CPUSet).

(** A tree built for some CPUs, whose children have some of them each. *)
Inductive built : CPUSet → Pool → Prop :=
  | built_node cpus nd cs cpuss : nd_noderes nd = getCpuSupply allowed isolated reserved cpus →
      Forall2 built cpuss cs → Forall (λ X, X ⊆ cpus) cpuss → disjoint_sets cpuss → built cpus (MkPool nd cs).

Lemma built_leaf cpus nd : nd_noderes nd = getCpuSupply allowed isolated reserved cpus → built cpus (MkPool nd []).
Proof. intros. by apply (built_node cpus nd [] []). Qed.

Lemma built_enumerate n : ∀ cpus id, built cpus n → built cpus (enumeratePools n id).1.
Proof.
  induction n as [nd cs IH] using Pool_rect'. intros cpus id Hb. inversion Hb as [? ? ? cpuss Hs Hc Hsub Hd]. subst.
  rewrite enumeratePools_unfold. cbn [fst]. apply (built_node cpus _ _ cpuss); [done| |done|done].
  generalize id. clear -IH Hc. induction Hc as [|X c cpuss cs Hc _ IHc]; intros id; cbn; [constructor|].
  apply Forall_cons in IH as [IH1 IH2]. specialize (IH1 X id Hc). destruct (enumeratePools c id) as [c' id'].
  specialize (IHc IH2 id'). destruct (enumerate_children cs id'). by constructor.
Qed.

Lemma built_below n : ∀ cpus m, built cpus n → below m n → ∃ X, X ⊆ cpus ∧ built X m.
Proof.
  induction n as [nd cs IH] using Pool_rect'. intros cpus m Hb [->|(c & Hc & Hm)]%below_iff; [by exists cpus|].
  inversion Hb as [? ? ? cpuss Hs Hcs Hsub Hd]. subst. apply list_elem_of_lookup in Hc as [i Hi].
  destruct (Forall2_lookup_r _ _ _ _ _ Hcs Hi) as (X & HX & HbX). rewrite Forall_forall in IH.
  destruct (IH c (list_elem_of_lookup_2 _ _ _ Hi) X m HbX Hm) as (Y & HY & HbY). exists Y. split; [|done].
  rewrite Forall_forall in Hsub. pose proof (Hsub X (list_elem_of_lookup_2 _ _ _ HX)). set_solver.
Qed.

Lemma built_supply cpus n : built cpus n → GetSupply n = getCpuSupply allowed isolated reserved cpus.
Proof. by destruct 1. Qed.

Lemma disjoint_sets_lookup (l : list CPUSet) i j X Y : disjoint_sets l → l !! i = Some X → l !! j = Some Y → i ≠ j → X ## Y.
Proof.
  revert i j. induction l as [|Z l IH]; intros i j; [done|]. intros [H1 H2] Hi Hj Hne. rewrite Forall_forall in H1.
  destruct i as [|i], j as [|j]; cbn in *; simplify_eq.
  - by apply H1, (list_elem_of_lookup_2 _ j).
  - symmetry. by apply H1, (list_elem_of_lookup_2 _ i).
  - apply (IH i j H2 Hi Hj). intros ->. by apply Hne.
Qed.

Lemma built_wf cpus root : built cpus root → NoDup (NodeID <$> DepthFirst root) → tree_wf isolated reserved root.
Proof.
  intros Hb Hnd.
  assert (∀ n c, below n root → c ∈ pool_children n → ∃ X Y, built X n ∧ built Y c ∧ Y ⊆ X) as Hchild.
  { intros n c Hn Hc. destruct (built_below _ _ n Hb Hn) as (X & _ & HX). pose proof HX as HX'.
    destruct HX as [cpus' nd cs cpuss Hs Hcs Hsub _]. cbn in Hc. apply list_elem_of_lookup in Hc as [i Hi].
    destruct (Forall2_lookup_r _ _ _ _ _ Hcs Hi) as (Y & HY & HbY). exists cpus', Y. split_and!; [done|done|].
    rewrite Forall_forall in Hsub. by apply Hsub, (list_elem_of_lookup_2 _ i). }
  assert (∀ n, below n root → ∃ X, GetSupply n = getCpuSupply allowed isolated reserved X) as Hsup.
  { intros n Hn. destruct (built_below _ _ n Hb Hn) as (X & _ & HX). exists X. by apply built_supply. }
  split; [done|..].
  - intros n Hn. destruct (Hsup n Hn) as [X ->]. cbn. set_solver.
  - intros n Hn. destruct (Hsup n Hn) as [X ->]. cbn. set_solver.
  - intros n Hn. destruct (Hsup n Hn) as [X ->]. cbn. set_solver.
  - intros n c Hn Hc. destruct (Hchild n c Hn Hc) as (X & Y & HX & HY & HYX). unfold pool_cpus.
    rewrite (built_supply _ _ HX), (built_supply _ _ HY). cbn. split; intros x.
    + destruct (decide (x ∈ isolated)), (decide (x ∈ reserved)); set_solver.
    + set_solver.
  - intros n c c' Hn Hc Hc' Hne. destruct (built_below _ _ n Hb Hn) as (X & _ & HX).
    destruct HX as [cpus' nd cs cpuss Hs Hcs _ Hd]. cbn in Hc, Hc'.
    apply list_elem_of_lookup in Hc as [i Hi], Hc' as [j Hj].
    destruct (Forall2_lookup_r _ _ _ _ _ Hcs Hi) as (Y & HY & HbY), (Forall2_lookup_r _ _ _ _ _ Hcs Hj) as (Y' & HY' & HbY').
    assert (Y ## Y') as Hdis by (apply (disjoint_sets_lookup cpuss i j); [done..|]; intros ->; by simplify_eq).
    unfold pool_cpus. rewrite (built_supply _ _ HbY), (built_supply _ _ HbY'). cbn. set_solver.
Qed.
End built.

(** ** Systems *)

(** CPUs of the parts of a system: parts of the same kind have nothing in
    common, and the CPUs of a part are among those of what it is a part of. *)
Class TopologyFacts (E : TEnv) : Prop := {
  tf_pkg_disj : disjoint_sets (ts_PackageCPUSet (te_System E) <$> cs_PackageIDs (ts_sys (te_System E)));
  tf_pkg_sub pkg : pkg ∈ cs_PackageIDs (ts_sys (te_System E)) →
    ts_PackageCPUSet (te_System E) pkg ⊆ sy_CPUSet (te_Sys E);
  tf_die_disj pkg : disjoint_sets (ts_DieCPUSet (te_System E) pkg <$> ts_DieIDs (te_System E) pkg);
  tf_die_sub pkg die : die ∈ ts_DieIDs (te_System E) pkg →
    ts_DieCPUSet (te_System E) pkg die ⊆ ts_PackageCPUSet (te_System E) pkg;
  tf_node_disj pkg : disjoint_sets (ts_NodeCPUSet (te_System E) <$> sy_PkgNodeIDs (te_Sys E) pkg);
  tf_node_sub pkg id : id ∈ sy_PkgNodeIDs (te_Sys E) pkg →
    ts_NodeCPUSet (te_System E) id ⊆ ts_PackageCPUSet (te_System E) pkg;
  tf_die_node_disj pkg die : disjoint_sets (ts_NodeCPUSet (te_System E) <$> sy_DieNodeIDs (te_Sys E) pkg die);
  tf_die_node_sub pkg die id : id ∈ sy_DieNodeIDs (te_Sys E) pkg die →
    ts_NodeCPUSet (te_System E) id ⊆ ts_DieCPUSet (te_System E) pkg die;
  tf_cache_disj pkg : disjoint_sets (sy_L3CacheCPUSet (te_Sys E) pkg <$> sy_L3CacheIDs (te_Sys E) pkg);
}.

Section system.
Context `{GoRuntime} (E : TEnv) `{!TopologyFacts E} (allowed isolated reserved : CPUSet).
Abbreviation is_built := (built allowed isolated reserved).

(** Some pools for parts of some CPUs. *)
Definition parts (cpus : CPUSet) (cs : list Pool) : Prop :=
  ∃ cpuss, Forall2 is_built cpuss cs ∧ Forall (λ X, X ⊆ cpus) cpuss ∧ disjoint_sets cpuss.

Lemma built_parts cpus nd cs : nd_noderes nd = getCpuSupply allowed isolated reserved cpus → parts cpus cs →
  is_built cpus (MkPool nd cs).
Proof. intros Hs (cpuss & H1 & H2 & H3). by eapply built_node. Qed.

Lemma new_node_res name kind depth sysid pkg cache_cpus is_root cpus :
  nd_noderes (new_node E allowed isolated reserved name kind depth sysid pkg cache_cpus is_root cpus) =
    getCpuSupply allowed isolated reserved cpus.
Proof. unfold new_node. by destruct (getMemSupply E is_root cpus) as [[??]?]. Qed.

Lemma parts_nil cpus : parts cpus [].
Proof. exists []. by split_and!. Qed.

Lemma parts_fmap {A} (f : A → Pool) (g : A → CPUSet) cpus l :
  (∀ x, x ∈ l → is_built (g x) (f x) ∧ g x ⊆ cpus) → disjoint_sets (g <$> l) → parts cpus (f <$> l).
Proof.
  intros Hl Hd. exists (g <$> l). split_and!; [..|done].
  - apply Forall2_fmap_2, Forall_Forall2_diag, Forall_forall. intros x Hx. by apply Hl.
  - apply Forall_fmap, Forall_forall. intros x Hx. by apply Hl.
Qed.

Lemma disjoint_filter {A} (P : A → Prop) `{∀ x, Decision (P x)} (g : A → CPUSet) l :
  disjoint_sets (g <$> l) → disjoint_sets (g <$> filter P l).
Proof.
  intros Hd. pose proof (disjoint_sets_omap g (λ x, if bool_decide (P x) then Some (g x) else None) l) as Ho.
  assert (omap (λ x, if bool_decide (P x) then Some (g x) else None) l = g <$> filter P l) as Heq.
  { clear. induction l as [|x l IH]; [done|]. rewrite filter_cons. cbn [omap list_omap].
    destruct (decide (P x)).
    - rewrite bool_decide_eq_true_2, fmap_cons by done. by f_equal.
    - by rewrite bool_decide_eq_false_2. }
  rewrite <- Heq. apply Ho; [|done]. intros x c. case_bool_decide; [|done]. by intros [= <-].
Qed.

Lemma parts_omap {A} (f : A → option Pool) (g : A → CPUSet) cpus l :
  (∀ x n, x ∈ l → f x = Some n → is_built (g x) n ∧ g x ⊆ cpus) → disjoint_sets (g <$> l) → parts cpus (omap f l).
Proof.
  intros Hl Hd. apply (disjoint_filter (λ x, is_Some (f x)) g) in Hd.
  exists (g <$> filter (λ x, is_Some (f x)) l). split_and!; [..|done].
  - clear Hd. induction l as [|x l IH]; [constructor|]. rewrite filter_cons. cbn [omap list_omap].
    assert (∀ y n, y ∈ l → f y = Some n → is_built (g y) n ∧ g y ⊆ cpus) as Hl' by (intros; apply Hl; [by right|done]).
    destruct (f x) as [n|] eqn:Hx.
    + rewrite decide_True, fmap_cons by done. constructor; [by apply (Hl x n); [left|]|by apply IH].
    + rewrite decide_False by (by intros [? ?]). by apply IH.
  - apply Forall_fmap, Forall_forall. intros x [[n Hn] Hx]%list_elem_of_filter. by apply (Hl x n).
Qed.

Lemma cache_pools_parts socket cpus parent depth : parts cpus (cache_pools E allowed isolated reserved socket cpus parent depth).
Proof.
  unfold cache_pools. cbn zeta. case_bool_decide; [|apply parts_nil]. unfold getL3CacheIDsForCPUs.
  apply (parts_fmap _ (sy_L3CacheCPUSet (te_Sys E) socket)); [|apply disjoint_filter, tf_cache_disj].
  intros id [Hid _]%list_elem_of_filter. split; [|set_solver]. apply built_leaf, new_node_res.
Qed.

Lemma numa_or_cache_parts socket ids cpus parent depth : disjoint_sets (ts_NodeCPUSet (te_System E) <$> ids) →
  (∀ id, id ∈ ids → ts_NodeCPUSet (te_System E) id ⊆ cpus) →
  parts cpus (numa_or_cache_pools E allowed isolated reserved socket ids cpus parent depth).
Proof.
  intros Hd Hs. unfold numa_or_cache_pools. case_bool_decide; [|apply cache_pools_parts].
  apply (parts_omap _ (ts_NodeCPUSet (te_System E))); [|done]. intros id n Hid. unfold buildNumaNodePool.
  case_bool_decide; [done|]. cbn zeta. intros [= <-]. split; [|by apply Hs].
  apply built_parts; [apply new_node_res|apply cache_pools_parts].
Qed.

Lemma buildDiePool_built socket depth die : die ∈ ts_DieIDs (te_System E) socket →
  is_built (ts_DieCPUSet (te_System E) socket die) (buildDiePool E allowed isolated reserved socket depth die).
Proof.
  intros Hd. apply built_parts; [apply new_node_res|].
  apply numa_or_cache_parts; [apply tf_die_node_disj|]. intros id. apply tf_die_node_sub.
Qed.

Lemma buildSocketPool_built is_root depth socket :
  is_built (ts_PackageCPUSet (te_System E) socket) (buildSocketPool E allowed isolated reserved is_root depth socket).
Proof.
  apply built_parts; [apply new_node_res|]. destruct (omit_dies E socket).
  - apply numa_or_cache_parts; [apply tf_node_disj|]. intros id. apply tf_node_sub.
  - apply (parts_fmap _ (ts_DieCPUSet (te_System E) socket)); [|apply tf_die_disj].
    intros die Hd. split; [by apply buildDiePool_built|by apply tf_die_sub].
Qed.

Lemma buildRootPool_built root : buildRootPool E allowed isolated reserved = Some root →
  ∃ cpus, is_built cpus root.
Proof.
  unfold buildRootPool. destruct (cs_PackageIDs (ts_sys (te_System E))) as [|s [|s' ss]] eqn:Hp; [done|..].
  - intros [= <-]. eexists. apply buildSocketPool_built.
  - intros [= <-]. exists (sy_CPUSet (te_Sys E)). rewrite <- fmap_cons, <- fmap_cons, <- Hp.
    apply built_parts; [apply new_node_res|].
    apply (parts_fmap _ (ts_PackageCPUSet (te_System E))); [|apply tf_pkg_disj].
    intros pkg Hpkg. split; [apply buildSocketPool_built|by apply tf_pkg_sub].
Qed.
End system.

(** ** The initial state *)

Section initial.
Context `{GoRuntime} (E : TEnv) `{!TopologyFacts E} (usable : CPUSet).

Lemma free_of_tree root n : NoDup (NodeID <$> DepthFirst root) → below n root →
  (list_to_map ((λ n, (NodeID n, GetSupply n)) <$> DepthFirst root) : gmap Z supply) !! NodeID n = Some (GetSupply n).
Proof.
  intros Hnd Hn. apply elem_of_list_to_map_1.
  - by rewrite <- list_fmap_compose.
  - by apply (list_elem_of_fmap_2 (λ n, (NodeID n, GetSupply n))).
Qed.

(** A policy with a new tree and no grants. *)
Lemma built_inv allowed cpus root p : built allowed (ta_isolated p) (ta_reserved p) cpus root →
  NoDup (NodeID <$> DepthFirst root) → allowed ⊆ usable → ta_root p = root → ta_grants p = ∅ →
  ta_free p = list_to_map ((λ n, (NodeID n, GetSupply n)) <$> DepthFirst root) →
  ta_inv usable (ta_isolated p) (ta_reserved p) p ∧ pinned unpinned p ∧
  ∀ n, below n root → FreeSupply p (NodeID n) = GetSupply n.
Proof.
  intros Hb Hnd Hus Hr Hg Hf. pose proof (built_wf _ _ _ _ _ Hb Hnd) as Hwf.
  assert (∀ n, below n root → ∃ X, GetSupply n = getCpuSupply allowed (ta_isolated p) (ta_reserved p) X) as Hsup.
  { intros n Hn. destruct (built_below _ _ _ _ _ n Hb Hn) as (X & _ & HX). exists X. by apply built_supply in HX. }
  split_and!; [|intros id g; by rewrite Hg|intros n Hn; unfold FreeSupply; by rewrite Hf, free_of_tree].
  split; rewrite ?Hr; [done|..].
  - destruct (Hsup root (below_refl root)) as [X HX]. unfold pool_cpus. rewrite HX. cbn. set_solver.
  - rewrite Hg, held_empty. split; [|constructor|done]. rewrite Hr. intros n Hn. unfold FreeSupply.
    rewrite Hf, free_of_tree by done. cbn [default]. destruct (Hsup n Hn) as [X HX]. unfold supply_after, taken.
    rewrite HX. cbn. by rewrite !difference_empty_L.
  - intros id g. by rewrite Hg.
  - intros id g. by rewrite Hg.
  - rewrite Hg, held_empty. intros _ m Hm. unfold left_shared, left_reserved. cbn [granted_below foldr].
    pose proof (csize_nonneg (su_sharable (GetSupply m) ∖ taken [])). pose proof (csize_nonneg (su_reserved (GetSupply m))).
    split; lia.
Qed.

Lemma setup_classes_core p q r : setup_classes E p = (q, r) →
  core_kept p q ∧ ta_isolated q = ta_isolated p ∧ ta_reserved q = ta_reserved p ∧ ta_allowed q = ta_allowed p.
Proof.
  unfold setup_classes, setReservedPoolCpuClass, ta_resetCpuClass. intros Hq.
  repeat (case_match; simplify_eq; try by split_and!).
Qed.

(** Allowed CPUs are online, reserved ones are allowed. *)
Lemma checkConstraints_ok p q : checkConstraints E p = (q, Ok tt) →
  core_kept p q ∧ ta_allowed q ⊆ sy_OnlineCPUs (te_Sys E) ∧ ta_isolated q = sy_Isolated (te_Sys E) ∩ ta_allowed q ∧
  ta_reserved q ≠ ∅.
Proof.
  unfold checkConstraints. destruct (available E _) as [cpus|]; [|done]. cbn zeta.
  destruct (reserve E _ _ _) as [cset r]. destruct r; [|done]. case_bool_decide; [done|]. intros [= <-].
  split_and!; try done. cbn. set_solver.
Qed.

Lemma initialize_inv p q : sy_OnlineCPUs (te_Sys E) ⊆ usable → initialize E p = (q, Ok tt) →
  ta_inv usable (ta_isolated q) (ta_reserved q) q ∧ pinned unpinned q ∧ ta_grants q = ∅ ∧
  ∀ n, below n (ta_root q) → FreeSupply q (NodeID n) = GetSupply n.
Proof.
  intros Hus. unfold initialize. cbn zeta. set (p0 := with_classes false _).
  destruct (checkConstraints E p0) as [p1 [[]|e]] eqn:Hc; [|done].
  apply checkConstraints_ok in Hc as ((Hr1 & Hf1 & Ho1 & Hg1) & Hall & Hiso & Hres).
  unfold buildPoolsByTopology. destruct (checkHWTopology E); [|done].
  destruct (buildRootPool E (ta_allowed p1) (ta_isolated p1) (ta_reserved p1)) as [root|] eqn:Hroot; [|done]. cbn zeta.
  apply buildRootPool_built in Hroot as [cpus Hb]; [|done]. apply (built_enumerate _ _ _ _ _ 0) in Hb.
  pose proof (enumeratePools_nodup root 0) as Hnd. set (root' := (enumeratePools root 0).1) in *.
  set (p2 := with_cfg _ _). destruct (setup_classes E p2) as [p3 [[]|e]] eqn:Hs; [|done].
  apply setup_classes_core in Hs as ((Hr3 & Hf3 & Ho3 & Hg3) & Hi3 & Hre3 & Ha3).
  destruct (te_SetAllowedInterrupts E _); [|done]. intros [= <-].
  assert (ta_grants p3 = ∅) as Hg by (rewrite Hg3; done).
  destruct (built_inv (ta_allowed p1) cpus root' p3) as (H1 & H2 & H3); try done.
  - rewrite Hi3, Hre3. exact Hb.
  - set_solver.
  - split_and!; [done..|]. by rewrite Hr3.
Qed.
End initial.
