(* ===== verification/TaReach.v ===== *)
(** * Reachable states of the topology-aware policy

    States that requests of the resource manager lead to from an initialized
    policy, and what holds in all of them. *)

From S2P Require Import Prelude GoStrings MemTypes MemNodes MemRequest MemZones MemAllocator Expr Affinity CpuTree CpuOrder CpuResizeFacts CpuAlloc CpuAllocFacts CpuTopo Kube BlnTypes BlnPin BlnPolicy TaTypes TaPrefs TaSupply TaScore TaPolicy TaBuild TaConfig TaAccount TaAlloc TaCapacity TaInv TaMain TaBuildFacts.

Open Scope Z_scope.

Section reach.
Context `{GoRuntime} (E : TEnv) (usable : CPUSet) `{!PoolCpus E usable, !TopologyFacts E}.

(** Requests, whatever their outcome; the cache may be another one each time.
    Resources are allocated for containers that have none. *)
Inductive ta_step : policy → policy → Prop :=
  | ts_allocate cch c p : ctr_ok c → ta_grants p !! tc_ID c = None → ta_step p (ta_AllocateResources E cch c p).1
  | ts_release cch c p : ta_step p (ta_ReleaseResources E cch c p).1
  | ts_update cch c p : ctr_ok c → ta_step p (ta_UpdateResources E cch c p).1
  | ts_event cch e p : ta_step p (ta_HandleEvent cch e p).1.

(** States reached from the initialization of the policy to [p0]. *)
Definition ta_reachable (p0 p : policy) : Prop :=
  (∃ p', initialize E p' = (p0, Ok tt)) ∧ rtc ta_step p0 p.

Section inv.
Context (I R : CPUSet).
Abbreviation inv := (ta_inv usable I R).

Lemma ta_allocateResources_opt cch c hint p : inv p → ctr_ok c → ta_grants p !! tc_ID c = None →
  ta_opt (ta_allocateResources E cch c hint p).1 = ta_opt p ∧ ta_root (ta_allocateResources E cch c hint p).1 = ta_root p.
Proof.
  intros Hi Hc Hn. destruct (ta_allocateResources E cch c hint p) as [q r] eqn:Ha.
  destruct (ta_allocateResources_inv E usable I R cch c hint p Hi Hc Hn q r Ha) as (_ & Hout & _). cbn [fst].
  destruct r; [by destruct Hout as (_ & _ & -> & ->)|by destruct Hout as (-> & -> & _)].
Qed.

Lemma deferred_opt pr : ta_opt (deferred E pr).1 = ta_opt pr.1 ∧ ta_root (deferred E pr).1 = ta_root pr.1.
Proof. destruct (applyIrqAffinity_kept E pr.1) as ((? & _ & ? & _) & _). done. Qed.

Lemma ta_step_inv p q : ta_step p q → inv p →
  inv q ∧ ta_opt q = ta_opt p ∧ ta_root q = ta_root p ∧ (opt_PinCPU (ta_opt p) = true → stays_pinned p q).
Proof.
  intros Hs Hi. destruct Hs as [cch c p Hc Hn|cch c p|cch c p Hc|cch e p].
  - destruct (ta_AllocateResources_inv E usable I R cch c p Hi Hc Hn) as [H1 H2].
    unfold ta_AllocateResources in *. destruct (deferred_opt (ta_allocateResources E cch c "" p)) as [-> ->].
    destruct (ta_allocateResources_opt cch c "" p Hi Hc Hn) as [-> ->]. by split_and!.
  - destruct (ta_ReleaseResources_inv E usable I R cch c p Hi) as (H1 & H2 & H3 & H4 & H5). by split_and!.
  - destruct (ta_UpdateResources_inv E usable I R cch c p Hi Hc) as [H1 H2].
    enough (ta_opt (ta_UpdateResources E cch c p).1 = ta_opt p ∧ ta_root (ta_UpdateResources E cch c p).1 = ta_root p)
      as [-> ->] by (by split_and!).
    clear H1 H2. unfold ta_UpdateResources. pose proof (ta_release_inv E usable I R cch (tc_ID c) p Hi) as Hr.
    destruct (releasePool (tc_ID c) p) as [p1 [g|]]; cbn zeta.
    + destruct Hr as (H1 & _ & H3 & H4 & H5). set (p2 := updateSharedAllocations E cch (Some g) p1) in *.
      destruct (deferred_opt (ta_allocateResources E cch c (pool_name p2 (g_node g)) p2)) as [-> ->].
      destruct (ta_allocateResources_opt cch c (pool_name p2 (g_node g)) p2) as [-> ->]; [done|done| |done].
      rewrite H3. apply lookup_delete_eq.
    + destruct Hr as [-> Hn]. destruct (deferred_opt (ta_AllocateResources E cch c p)) as [-> ->].
      unfold ta_AllocateResources. destruct (deferred_opt (ta_allocateResources E cch c "" p)) as [-> ->].
      by apply ta_allocateResources_opt.
  - pose proof (ta_HandleEvent_kept cch e p) as Hk. split_and!; [by eapply ta_inv_kept|apply Hk..|].
    intros _. by apply pinned_kept.
Qed.

Lemma ta_steps_inv p q : rtc ta_step p q → inv p →
  inv q ∧ ta_opt q = ta_opt p ∧ ta_root q = ta_root p ∧ (opt_PinCPU (ta_opt p) = true → stays_pinned p q).
Proof.
  induction 1 as [p|p p1 q Hs _ IH]; intros Hi; [by split_and!|].
  destruct (ta_step_inv _ _ Hs Hi) as (H1 & H2 & H3 & H4). destruct (IH H1) as (H5 & H6 & H7 & H8).
  split_and!; [done|congruence|congruence|]. intros Hpin. etrans; [by apply H4|]. apply H8. by rewrite H2.
Qed.
End inv.

Lemma ta_reachable_inv p0 p : sy_OnlineCPUs (te_Sys E) ⊆ usable → ta_reachable p0 p →
  ta_inv usable (ta_isolated p0) (ta_reserved p0) p ∧ ta_root p = ta_root p0 ∧ ta_opt p = ta_opt p0 ∧
  (opt_PinCPU (ta_opt p) = true → pinned unpinned p).
Proof.
  intros Hus [[p' Hinit] Hsteps]. destruct (initialize_inv E usable p' p0 Hus Hinit) as (Hi & Hp & _ & _).
  destruct (ta_steps_inv _ _ _ _ Hsteps Hi) as (H1 & H2 & H3 & H4). split_and!; [done|done|done|].
  rewrite H2. intros Hpin. by apply H4.
Qed.

(** ** The books *)

(** C5: In every state any sequence of allocations, releases, updates and
    events leads to, failed ones included, the free supply of every pool is its
    capacity less what is granted: exclusive CPUs granted from whichever pool
    have been taken out, and the portions granted from the pool are accounted
    for. *)
Theorem reachable_books p0 p n : sy_OnlineCPUs (te_Sys E) ⊆ usable → ta_reachable p0 p → below n (ta_root p) →
  let G := held (ta_grants p) in
  FreeSupply p (NodeID n) =
    MkSupply (su_isolated (GetSupply n) ∖ taken G) (su_reserved (GetSupply n)) (su_sharable (GetSupply n) ∖ taken G)
      (granted ReservedPortion (NodeID n) G) (granted SharedPortion (NodeID n) G) ∧
  (ta_grants p = ∅ → FreeSupply p (NodeID n) = GetSupply n).
Proof.
  intros Hus Hre Hn G. destruct (ta_reachable_inv p0 p Hus Hre) as (Hi & Hroot & _ & _).
  pose proof (bk_free _ _ (ti_books _ _ _ _ Hi) n Hn) as Hf. split; [exact Hf|]. intros Hg. rewrite Hf, Hg, held_empty.
  destruct Hre as [[p' Hinit] _]. destruct (initialize_inv E usable p' p0 Hus Hinit) as (Hi0 & _ & Hg0 & Hfresh).
  rewrite Hroot in Hn. rewrite <- (Hfresh n Hn), (bk_free _ _ (ti_books _ _ _ _ Hi0) n Hn). by rewrite Hg0, held_empty.
Qed.

(** ** Exclusive CPUs *)


(** ** Capacity *)

(** C14: No overcommit: if the pools below the root have no pools below them,
    in every reachable state what is granted of a pool and the pools below it
    does not exceed the shared CPUs left to the pool, nor its reserved CPUs. *)
Theorem reachable_fits p0 p n : sy_OnlineCPUs (te_Sys E) ⊆ usable → ta_reachable p0 p → flat (ta_root p) →
  below n (ta_root p) →
  GrantedSharedCPU (ta_free p) n ≤ 1000 * csize (su_sharable (FreeSupply p (NodeID n))) ∧
  GrantedReservedCPU (ta_free p) n ≤ 1000 * csize (su_reserved (FreeSupply p (NodeID n))).
Proof.
  intros Hus Hre Hflat Hn. destruct (ta_reachable_inv p0 p Hus Hre) as (Hi & _ & _ & _).
  destruct (ti_fits _ _ _ _ Hi Hflat n Hn) as [H1 H2].
  destruct (own_left _ _ p _ n (ti_tree _ _ _ _ Hi) (ti_books _ _ _ _ Hi) Hn) as [E1 E2].
  unfold own_shared, own_reserved in *. lia.
Qed.


(** ** Requests *)

(** The policy as the resource manager sees it: what containers have of CPUs. *)
Definition cpu_view (p : policy) : gmap string grant := cpu_part <$> ta_grants p.

Lemma cpu_view_insert id g p q : ta_grants q !! id = Some g → cpu_part <$> delete id (ta_grants q) = cpu_view p →
  cpu_view q = <[id := cpu_part g]> (cpu_view p).
Proof.
  intros Hg Hd. unfold cpu_view at 1. rewrite <- (insert_delete_id _ _ _ Hg), fmap_insert. by rewrite Hd.
Qed.

(** C12: AllocateResources refines giving CPUs to a container: if it succeeds,
    the container and no other has got a grant, of exactly the amount of CPU
    it requests (none if its QoS class is BestEffort), with exclusive CPUs that
    nobody else had; if it fails, all grants, all free supplies and the CPUs
    containers are pinned to are as before. *)
Theorem ta_AllocateResources_refines p0 p cch c q r : sy_OnlineCPUs (te_Sys E) ⊆ usable → ta_reachable p0 p → ctr_ok c →
  ta_grants p !! tc_ID c = None → ta_AllocateResources E cch c p = (q, r) →
  match r with
  | Ok _ => ∃ g, cpu_view q = <[tc_ID c := g]> (cpu_view p) ∧
      (let amount := 1000 * csize (g_exclusive g) + g_cpuPortion g in
       amount = milli (rs_requestCPU (resources c)) ∨ qos cch c = "BestEffort" ∧ amount = 0) ∧
      g_exclusive g ## taken (held (ta_grants p)) ∧ ta_reachable p0 q
  | Err _ => cpu_view q = cpu_view p ∧ ta_grants q = ta_grants p ∧
      (∀ n, below n (ta_root p) → FreeSupply q (NodeID n) = FreeSupply p (NodeID n)) ∧
      (∀ id, pin_cpus (pinning_of id q) = pin_cpus (pinning_of id p)) ∧ ta_reachable p0 q
  end.
Proof.
  intros Hus Hre Hc Hn Hq. destruct (ta_reachable_inv p0 p Hus Hre) as (Hi & _ & _ & _).
  assert (ta_reachable p0 q) as Hreq.
  { destruct Hre as [Hinit Hst]. split; [done|]. eapply rtc_r; [exact Hst|]. replace q with (ta_AllocateResources E cch c p).1
      by (by rewrite Hq). by apply ts_allocate. }
  destruct (ta_reachable_inv p0 q Hus Hreq) as (Hiq & _ & _ & _).
  unfold ta_AllocateResources in Hq. destruct (ta_allocateResources E cch c "" p) as [q1 r1] eqn:Ha.
  destruct (ta_allocateResources_inv E usable _ _ cch c "" p Hi Hc Hn q1 r1 Ha) as (_ & Hout & _).
  unfold deferred in Hq. cbn in Hq. injection Hq as <- <-.
  destruct (applyIrqAffinity_kept E q1) as ((Hr1 & Hf1 & _ & Hg1) & Hpins & _). destruct r1 as [u|e].
  - destruct Hout as ((g & Hg & Ham) & Hd & _). rewrite <- Hg1 in Hg, Hd. exists (cpu_part g).
    split_and!; [by apply cpu_view_insert|done| |done]. cbn [cpu_part g_exclusive].
    pose proof (books_perm _ _ _ (held_delete _ _ _ Hg) (ti_books _ _ _ _ Hiq)) as Hb. apply books_disjoint in Hb.
    rewrite <- (taken_cpu_part (held (ta_grants p))). fold (cpu_view p) in Hd. rewrite <- (held_cpu_part _ _ Hd).
    by rewrite taken_cpu_part.
  - destruct Hout as (_ & _ & Hg & Hf & Hp). unfold cpu_view. rewrite Hg1, Hg. split_and!; try done.
    + intros n Hnb. unfold FreeSupply in *. rewrite Hf1. by apply Hf.
    + intros id. rewrite <- Hp. unfold pinning_of. by rewrite Hpins.
Qed.

(** C13: ReleaseResources refines taking CPUs away from a container: it never
    fails, no other grant changes, and if the container had none, nothing
    does.  Allocating resources for a container and releasing them gives all
    pools back what they had. *)
Theorem ta_ReleaseResources_refines p0 p cch c q r : sy_OnlineCPUs (te_Sys E) ⊆ usable → ta_reachable p0 p →
  ta_ReleaseResources E cch c p = (q, r) →
  r = Ok tt ∧ cpu_view q = delete (tc_ID c) (cpu_view p) ∧
  (∀ p' cch', ctr_ok c → ta_grants p' !! tc_ID c = None → ta_reachable p0 p' →
    p = (ta_AllocateResources E cch' c p').1 →
    cpu_view q = cpu_view p' ∧ ∀ n, below n (ta_root p') → FreeSupply q (NodeID n) = FreeSupply p' (NodeID n)).
Proof.
  intros Hus Hre Hq. destruct (ta_reachable_inv p0 p Hus Hre) as (Hi & Hroot & _ & _).
  destruct (ta_ReleaseResources_inv E usable _ _ cch c p Hi) as (Hiq & _ & Hg & _ & Hrq). rewrite Hq in Hiq, Hg, Hrq. cbn in *.
  assert (r = Ok tt) as ->.
  { unfold ta_ReleaseResources in Hq. destruct (releasePool (tc_ID c) p) as [? [?|]]; by injection Hq as <- <-. }
  assert (cpu_view q = delete (tc_ID c) (cpu_view p)) as Hv by (unfold cpu_view; by rewrite Hg, fmap_delete).
  split_and!; [done|done|]. intros p' cch' Hc Hn Hre' Hp. destruct (ta_reachable_inv p0 p' Hus Hre') as (Hi' & Hroot' & _ & _).
  assert (cpu_view q = cpu_view p') as Hv'.
  { rewrite Hv. unfold ta_AllocateResources in Hp. destruct (ta_allocateResources E cch' c "" p') as [q1 r1] eqn:Ha.
    destruct (ta_allocateResources_inv E usable _ _ cch' c "" p' Hi' Hc Hn q1 r1 Ha) as (_ & Hout & _).
    destruct (applyIrqAffinity_kept E q1) as ((_ & _ & _ & Hg1) & _). unfold deferred in Hp. cbn in Hp. subst p.
    unfold cpu_view. rewrite Hg1, <- fmap_delete. destruct r1; [by destruct Hout as (_ & -> & _)|].
    destruct Hout as (_ & _ & -> & _). by rewrite delete_id. }
  split; [done|]. intros n Hnb. rewrite (bk_free _ _ (ti_books _ _ _ _ Hi') n Hnb).
  rewrite (bk_free _ _ (ti_books _ _ _ _ Hiq) n ltac:(by rewrite Hrq, Hroot, <- Hroot')).
  rewrite <- (supply_after_cpu_part (held (ta_grants q))), (held_cpu_part _ _ Hv'). apply supply_after_cpu_part.
Qed.

(** C30: A request of normal CPUs (not reserved or preserved ones) that
    neither prefers isolated CPUs nor is picked by topology hints is granted if it
    fits: a pool without children has enough for it if its allocatable shared
    capacity, limited by the pools above, covers the full CPUs and the fraction.
    The CPUs granted exclusively are free shared CPUs of the pool, and as many as
    requested. *)
Theorem AllocateCPU_live p0 p cch n r : sy_OnlineCPUs (te_Sys E) ⊆ usable → ta_reachable p0 p → below n (ta_root p) →
  IsLeafNode n = true → 0 ≤ rq_full r → 0 ≤ rq_fraction r →
  rq_cpuType r = cpuNormal → rq_isolate r = false → rq_pickByHints r = false →
  1000 * rq_full r + rq_fraction r ≤ AllocatableSharedCPU cch p n →
  ∃ q g, AllocateCPU E cch n r p = (q, Ok g) ∧ csize (g_exclusive g) = rq_full r ∧ g_cpuPortion g = rq_fraction r ∧
    g_exclusive g ⊆ su_sharable (FreeSupply p (NodeID n)).
Proof.
  intros Hus Hre Hn Hl H1 H2 Ht Hiso Hh Hfit. destruct (ta_reachable_inv p0 p Hus Hre) as (Hi & _ & _ & _).
  exact (AllocateCPU_leaf E cch usable _ _ p _ (ti_tree _ _ _ _ Hi) (ti_books _ _ _ _ Hi) (ti_usable _ _ _ _ Hi) n r
    Hn Hl (conj H1 H2) Ht Hiso Hh Hfit).
Qed.
End reach.

(** * Interrupts

    Which CPUs handle an interrupt after the grants of containers with
    interrupt preferences have changed. *)

Open Scope Z_scope.

Section irq.
Context `{GoRuntime} (E : TEnv).

(** Containers claim an interrupt for their exclusive CPUs, or mask it, before
    claims or after them. *)
Definition claims (irq x : Z) (g : grant) : Prop :=
  ∃ irqs, g_irqs g = Some irqs ∧ x ∈ g_exclusive g ∧ existsb (te_IrqMatch E irq) (irq_Claim irqs) = true.

Definition masks (mode : IrqMode) (irq x : Z) (g : grant) : Prop :=
  ∃ irqs, g_irqs g = Some irqs ∧ x ∈ g_exclusive g ∧ existsb (te_IrqMatch E irq) (irq_Mask irqs) = true ∧
    irq_Mode irqs = mode.

Definition someone (P : grant → Prop) (p : policy) : Prop := ∃ id g, ta_grants p !! id = Some g ∧ P g.

Lemma irq_step_spec irq st g x :
  let st' := irq_step E irq st g in
  (x ∈ st'.1.1 ↔ x ∈ st.1.1 ∨ masks IrqClaimFirst irq x g) ∧
  (x ∈ st'.1.2 ↔ x ∈ st.1.2 ∨ claims irq x g) ∧
  (x ∈ st'.2 ↔ x ∈ st.2 ∨ masks IrqMaskFirst irq x g).
Proof.
  destruct st as [[pre claim] mask]. unfold irq_step, claims, masks. cbn zeta.
  destruct (g_irqs g) as [irqs|] eqn:Hi; [|cbn; split_and!; (split; [by left|by intros [?|(? & ? & _)]])].
  case_bool_decide as Hx; [cbn; rewrite Hx; set_solver|].
  assert (∀ P : IrqAffinity → Prop, (∃ i, Some irqs = Some i ∧ x ∈ g_exclusive g ∧ P i) ↔ x ∈ g_exclusive g ∧ P irqs) as Hex
    by naive_solver.
  rewrite !Hex. destruct (existsb (te_IrqMatch E irq) (irq_Claim irqs)), (existsb (te_IrqMatch E irq) (irq_Mask irqs)),
    (irq_Mode irqs) eqn:Hm; repeat case_bool_decide; cbn; rewrite ?elem_of_union; intuition congruence.
Qed.

Lemma irqCpus_spec p irq x :
  (x ∈ (irqCpus E p irq).1.1 ↔ someone (masks IrqClaimFirst irq x) p) ∧
  (x ∈ (irqCpus E p irq).1.2 ↔ someone (claims irq x) p) ∧
  (x ∈ (irqCpus E p irq).2 ↔ someone (masks IrqMaskFirst irq x) p).
Proof.
  unfold irqCpus.
  assert (∀ (l : list (string * grant)) (st : CPUSet * CPUSet * CPUSet), let st' := fold_left (λ st ig, irq_step E irq st ig.2) l st in
    (x ∈ st'.1.1 ↔ x ∈ st.1.1 ∨ ∃ ig, ig ∈ l ∧ masks IrqClaimFirst irq x ig.2) ∧
    (x ∈ st'.1.2 ↔ x ∈ st.1.2 ∨ ∃ ig, ig ∈ l ∧ claims irq x ig.2) ∧
    (x ∈ st'.2 ↔ x ∈ st.2 ∨ ∃ ig, ig ∈ l ∧ masks IrqMaskFirst irq x ig.2)) as Hfold.
  { induction l as [|ig l IH]; intros st; cbn [fold_left].
    - split_and!; split; [by left|intros [?|(? & ?%not_elem_of_nil & _)]; done|by left|
        intros [?|(? & ?%not_elem_of_nil & _)]; done|by left|intros [?|(? & ?%not_elem_of_nil & _)]; done].
    - destruct (IH (irq_step E irq st ig.2)) as (H1 & H2 & H3), (irq_step_spec irq st ig.2 x) as (S1 & S2 & S3).
      setoid_rewrite elem_of_cons. rewrite H1, H2, H3, S1, S2, S3. naive_solver. }
  assert (∀ P : grant → Prop, someone P p ↔ ∃ ig, ig ∈ map_range (ta_grants p) ∧ P ig.2) as Hs.
  { intros P. unfold someone. split.
    - intros (id & g & Hg & HP). exists (id, g). by rewrite elem_of_map_range.
    - intros ([id g] & Hg & HP). apply elem_of_map_range in Hg. by exists id, g. }
  destruct (Hfold (map_range (ta_grants p)) (∅, ∅, ∅)) as (H1 & H2 & H3). cbn zeta in *.
  rewrite H1, H2, H3, !Hs. cbn. set_solver.
Qed.

(** The CPUs that handle an interrupt. *)
Lemma irq_target_spec p irq x : x ∈ irq_target E p irq ↔
  x ∈ ta_allowed p ∧ ¬ someone (masks IrqClaimFirst irq x) p ∧
  (someone (claims irq x) p ∨
   (¬ ∃ y, someone (claims irq y) p) ∧ ¬ someone (masks IrqMaskFirst irq x) p).
Proof.
  destruct (irqCpus_spec p irq x) as (H1 & H2 & H3).
  assert ((irqCpus E p irq).1.2 = ∅ ↔ ¬ ∃ y, someone (claims irq y) p) as Hnone.
  { split.
    - intros He [y Hy]. destruct (irqCpus_spec p irq y) as (_ & Hy' & _). rewrite He in Hy'. set_solver.
    - intros Hn. apply set_eq. intros y. destruct (irqCpus_spec p irq y) as (_ & Hy & _). rewrite Hy. set_solver. }
  unfold irq_target. destruct (irqCpus E p irq) as [[pre claim] mask]. cbn [fst snd] in *.
  rewrite <- H1, <- H2, <- H3, <- Hnone. clear.
  destruct (decide (x ∈ claim)), (decide (x ∈ mask)); repeat case_bool_decide; set_solver.
Qed.

Lemma irq_target_same p q irq : ta_grants q = ta_grants p → ta_allowed q = ta_allowed p →
  irq_target E q irq = irq_target E p irq.
Proof. intros Hg Ha. unfold irq_target, irqCpus. by rewrite Hg, Ha. Qed.

Lemma apply_irq_same p irq : ta_grants (apply_irq E p irq) = ta_grants p ∧ ta_allowed (apply_irq E p irq) = ta_allowed p ∧
  ta_irqCnt (apply_irq E p irq) = ta_irqCnt p.
Proof.
  unfold apply_irq. destruct (ta_irqAffinity p !! irq); [|done]. cbn zeta. case_bool_decide; [done|].
  by destruct (te_SetAffinity _ _ _).
Qed.

Lemma apply_irq_affinity p irq irq' : ta_irqAffinity (apply_irq E p irq) !! irq' =
  if bool_decide (irq = irq') && te_SetAffinity E irq (irq_target E p irq) && bool_decide (is_Some (ta_irqAffinity p !! irq))
  then Some (irq_target E p irq) else ta_irqAffinity p !! irq'.
Proof.
  unfold apply_irq. destruct (ta_irqAffinity p !! irq) as [cur|] eqn:Hc.
  2:{ rewrite andb_false_r. done. }
  rewrite (bool_decide_eq_true_2 (is_Some (Some cur))), andb_true_r by done. cbn zeta.
  case_bool_decide as He.
  - destruct (decide (irq = irq')) as [<-|Hne].
    + rewrite Hc, <- He. by destruct (_ && _).
    + by rewrite (bool_decide_eq_false_2 (irq = irq')).
  - destruct (te_SetAffinity E irq _); cbn [ta_irqAffinity with_irqAffinity]; [|by rewrite andb_false_r].
    rewrite andb_true_r. case_bool_decide as Hi; [subst; by rewrite lookup_insert_eq|by rewrite lookup_insert_ne].
Qed.

Lemma apply_irqs irqs : ∀ p irq,
  let q := fold_left (apply_irq E) irqs p in
  ta_irqAffinity q !! irq =
    (if bool_decide (irq ∈ irqs) && te_SetAffinity E irq (irq_target E p irq) && bool_decide (is_Some (ta_irqAffinity p !! irq))
     then Some (irq_target E p irq) else ta_irqAffinity p !! irq) ∧
  ta_grants q = ta_grants p ∧ ta_allowed q = ta_allowed p ∧ ta_irqCnt q = ta_irqCnt p.
Proof.
  induction irqs as [|i irqs IH]; intros p irq; cbn [fold_left]; [done|].
  destruct (apply_irq_same p i) as (Hg & Ha & Hc). destruct (IH (apply_irq E p i) irq) as (H1 & H2 & H3 & H4).
  cbn zeta in *. split_and!; [|congruence..]. rewrite H1, (irq_target_same p _ irq Hg Ha), !apply_irq_affinity. clear.
  set (ok := te_SetAffinity E irq (irq_target E p irq)).
  destruct (decide (i = irq)) as [->|Hne].
  - fold ok. rewrite (bool_decide_eq_true_2 (irq = irq)), (bool_decide_eq_true_2 (irq ∈ irq :: irqs)) by (done || by left).
    cbn [andb]. destruct ok; cbn [andb].
    + destruct (ta_irqAffinity p !! irq) as [cur|]; cbn; [by destruct (bool_decide (irq ∈ irqs))|].
      by rewrite andb_false_r.
    + by rewrite andb_false_r.
  - rewrite (bool_decide_eq_false_2 (i = irq)) by done. cbn [andb].
    by rewrite (bool_decide_ext (irq ∈ i :: irqs) (irq ∈ irqs)) by set_solver.
Qed.

(** C31: Interrupts follow the grants: once the affinities of interrupts have
    been applied after a change, an interrupt that may be controlled and whose
    affinity can be set is handled by exactly the allowed CPUs that no container
    masks before claims, and of these by those claimed by a container for its
    exclusive CPUs, or, if no CPU is claimed, by those not masked.  Other
    interrupts are left alone. *)
Theorem applyIrqAffinity_spec p irqs irq : te_Interrupts E = Some irqs → ta_irqApplied p ≠ ta_irqCnt p →
  let q := applyIrqAffinity E p in
  (irq ∉ irqs → ta_irqAffinity q !! irq = ta_irqAffinity p !! irq) ∧
  (irq ∈ irqs → is_Some (ta_irqAffinity p !! irq) → te_SetAffinity E irq (irq_target E p irq) = true →
    ∃ cpus, ta_irqAffinity q !! irq = Some cpus ∧
    ∀ x, x ∈ cpus ↔ x ∈ ta_allowed p ∧ ¬ someone (masks IrqClaimFirst irq x) p ∧
      (someone (claims irq x) p ∨
       (¬ ∃ y, someone (claims irq y) p) ∧ ¬ someone (masks IrqMaskFirst irq x) p)) ∧
  applyIrqAffinity E q = q.
Proof.
  intros Hi Hne. unfold applyIrqAffinity at 1. rewrite bool_decide_eq_false_2, Hi by done. cbn zeta.
  destruct (apply_irqs irqs p irq) as (Ha & _ & _ & Hc). set (q := fold_left (apply_irq E) irqs p) in *.
  cbn [ta_irqAffinity with_irqApplied]. split_and!.
  - intros Hn. by rewrite Ha, (bool_decide_eq_false_2 (irq ∈ irqs)).
  - intros Hin Hs Hset. rewrite Ha, Hset, !bool_decide_eq_true_2 by done. cbn [andb]. eexists. split; [done|].
    intros x. apply irq_target_spec.
  - unfold applyIrqAffinity. by rewrite bool_decide_eq_true_2.
Qed.
End irq.
