(* ===== verification/TaWitness.v ===== *)
(** * Examples of the topology-aware policy

    The theorems about the topology-aware policy applied in an example, a
    machine with two sockets of four CPUs each, one of them reserved, and what
    the policy does in some cases that its documentation promises otherwise. *)

From Stdlib Require Import Ascii.
From S2P Require Import Prelude GoStrings Expr MemTypes MemNodes MemRequest MemZones MemAllocator MemWitness Affinity CpuTree CpuOrder CpuResizeFacts CpuAlloc CpuAllocFacts CpuTopo Kube BlnTypes BlnPin BlnPolicy BlnConfig TaTypes TaPrefs TaSupply TaScore TaPolicy TaBuild TaConfig TaAccount TaAlloc TaCapacity TaInv TaMain TaBuildFacts TaReach.

Open Scope string_scope.
Open Scope Z_scope.

#[local] Existing Instance go_default.

(** ** A machine *)

Definition tex_all : CPUSet := list_to_set [0; 1; 2; 3; 4; 5; 6; 7].

(** Each socket is a NUMA node; [caches] are those of a socket. *)
Definition tex_sys (isolated : CPUSet) (caches : Z → list Z) : TaSys :=
  MkTaSys tex_all tex_all isolated (λ pkg, [pkg]) (λ _ _, []) (λ pkg _, [pkg]) caches
    (λ pkg id, default ∅ (example_caches !! Z.to_nat id)) (λ id, id) (λ _, Some 64) (λ _, sysfs_MemoryTypeDRAM) (λ _, true)
    (λ id, if bool_decide (id = 0) then [10; 21] else [21; 10]).

Definition tex_nodes : list SysNode :=
  [MkSysNode 0 (Some 64) sysfs_MemoryTypeDRAM true (list_to_set [0; 1; 2; 3]) [10; 21];
   MkSysNode 1 (Some 64) sysfs_MemoryTypeDRAM true (list_to_set [4; 5; 6; 7]) [21; 10]].

(** CPU sets are written as lists of ranges, like sets of nodes. *)
Definition tex_String (cpus : CPUSet) : string :=
  NodeMask_MemsetString (set_fold (λ c m, Z.lor m (Z.shiftl 1 c)) 0 cpus).

Definition tex_make (isolated : CPUSet) (caches : Z → list Z) : TEnv :=
  MkTEnv (NewCPUAllocator (Some example_system)) example_system (tex_sys isolated caches)
    (λ s, if bool_decide (s = "0") then Some {[0]} else Some ∅) tex_String Zpos
    (λ q, if bool_decide (q = "1") then Some 1000 else None) tex_nodes true (λ _ _, true) (λ _, true) (λ _ _, [])
    (λ _, None) (λ _, Some (MkIrqAffinity ["nic"] [] [] IrqMaskFirst, "")) (λ _, true) (λ _, true) (λ _, Some true)
    (λ _ _, true) (Some [1]) (λ _ _, true) ∅ ∅ ∅ (λ _, Ok []).

Definition tex_env : TEnv := tex_make ∅ (λ _, []).

Definition tex_config : Config :=
  MkConfig true true None None [] None (Some "1") "" LevelPackage [] ∅ ∅ [] "" "" "" [].

Definition tex_blank : policy :=
  MkPolicy tex_config tex_config PriorityNone nilnode ∅ ∅ ∅ ∅ ∅ 0 0 {[1 := tex_all]} ex_fresh false false [] ∅.

Definition tex_malloc : Allocator :=
  match newAllocator [WithSystemNodes tex_nodes] with Ok (a, _) => a | Err _ => ex_fresh end.

Definition tex_p0 : policy := (initialize tex_env (with_memory tex_malloc tex_blank)).1.

Example tex_pools : (λ n, (NodeID n, Name n, CPUSet_List (su_sharable (GetSupply n)), CPUSet_List (su_reserved (GetSupply n))))
    <$> ta_pools tex_p0 =
  [(0, "socket #0", [1; 2; 3], [0]); (1, "socket #1", [4; 5; 6; 7], []); (2, "root", [1; 2; 3; 4; 5; 6; 7], [0])].
Proof. by vm_compute. Qed.

(** ** Containers *)

Definition tex_res (req lim : option Z) : Resources := MkResources req lim (Some 4) (Some 8).

Definition tex_ctr (id pod : string) (req lim : option Z) : TCtr :=
  MkTCtr (MkContainer id pod id ∅ ∅) (tex_res req lim) None ∅.

Definition tex_web : TCtr := tex_ctr "web" "p1" (Some 2000) (Some 2000).
Definition tex_db : TCtr := tex_ctr "db" "p2" (Some 1500) None.

Definition tex_cch : TCache :=
  MkTCache {["p1" := MkPod "p1" "u1" "web" "app" "Guaranteed" ∅; "p2" := MkPod "p2" "u2" "db" "app" "Burstable" ∅]}
    {["p1" := {[String.append keyIrqAffinity "/pod" := "claim: [ nic ]"]}]}
    {["web" := tex_web; "db" := tex_db]}.

Definition tex_p1 : policy := (ta_AllocateResources tex_env tex_cch tex_web tex_p0).1.
Definition tex_p2 : policy := (ta_AllocateResources tex_env tex_cch tex_db tex_p1).1.


Example tex_granted :
  (λ ig, (ig.1, g_node ig.2, CPUSet_List (g_exclusive ig.2), g_cpuPortion ig.2)) <$> map_to_list (ta_grants tex_p2) =
    [("web", 1, [4; 5], 0); ("db", 0, [], 1500)] ∧
  (λ ig, (ig.1, CPUSet_List <$> pin_cpus ig.2)) <$> map_to_list (ta_pins tex_p2) =
    [("web", Some [4; 5]); ("db", Some [1; 2; 3])] ∧
  CPUSet_List <$> (ta_irqAffinity tex_p2 !! 1) = Some [4; 5].
Proof. by vm_compute. Qed.

(** ** The assumptions hold *)

#[local] Instance tex_pool_cpus : PoolCpus tex_env tex_all.
Proof.
  apply (system_pool_cpus tex_env (ts_sys example_system) (newTopologyCache example_system)); [done| |].
  - apply newTopologyCache_ok, example_system_ok.
  - apply (bool_decide_unpack _). by vm_compute.
Qed.

Lemma example_package_other id : id ≠ 0 → id ≠ 1 → example_package id = ∅.
Proof. intros. unfold example_package. by rewrite !bool_decide_eq_false_2. Qed.

#[local] Instance tex_topology : TopologyFacts tex_env.
Proof.
  split; cbn.
  - apply (bool_decide_unpack _). by vm_compute.
  - intros pkg Hp. apply list_elem_of_In in Hp as [<-|[<-|[]]]; apply (bool_decide_unpack _); by vm_compute.
  - intros pkg. split; [constructor|done].
  - intros pkg die _. done.
  - intros pkg. split; [constructor|done].
  - intros pkg id ->%list_elem_of_singleton. done.
  - intros pkg die. split; [constructor|done].
  - intros pkg die id ->%list_elem_of_singleton. done.
  - intros pkg. done.
Qed.

Lemma tex_online : sy_OnlineCPUs (te_Sys tex_env) ⊆ tex_all.
Proof. done. Qed.

Lemma tex_initialized : ∃ p', initialize tex_env p' = (tex_p0, Ok tt).
Proof. exists (with_memory tex_malloc tex_blank). by vm_compute. Qed.

Lemma tex_reachable0 : ta_reachable tex_env tex_p0 tex_p0.
Proof. split; [exact tex_initialized|constructor]. Qed.

Lemma tex_reachable1 : ta_reachable tex_env tex_p0 tex_p1.
Proof.
  split; [exact tex_initialized|]. apply rtc_once, ts_allocate; [|by vm_compute].
  apply (bool_decide_unpack _). by vm_compute.
Qed.

Lemma tex_reachable2 : ta_reachable tex_env tex_p0 tex_p2.
Proof.
  split; [exact tex_initialized|]. refine (rtc_r _ _ _ (proj2 tex_reachable1) _).
  apply ts_allocate; [|by vm_compute]. apply (bool_decide_unpack _). by vm_compute.
Qed.

(** ** The theorems in the example *)

Definition tex_socket1 : Pool := default nilnode (ta_pools tex_p0 !! 1%nat).

Lemma tex_socket1_below : below tex_socket1 (ta_root tex_p0).
Proof. apply (list_elem_of_lookup_2 _ 1). by vm_compute. Qed.

Lemma reachable_books_witness :
  FreeSupply tex_p2 1 = MkSupply ∅ ∅ (list_to_set [6; 7]) 0 0.
Proof.
  destruct (reachable_books (H := go_default) tex_env tex_all tex_p0 tex_p2 tex_socket1 tex_online tex_reachable2) as [Hf _].
  - exact tex_socket1_below.
  - etrans; [exact Hf|]. by vm_compute.
Defined.

Definition tex_grant (id : string) : grant :=
  default (newGrant 0 "" cpuNormal "" ∅ 0 0 None 0) (ta_grants tex_p2 !! id).


Lemma reachable_fits_witness :
  GrantedSharedCPU (ta_free tex_p2) (ta_root tex_p2) ≤ 1000 * csize (su_sharable (FreeSupply tex_p2 2)).
Proof.
  apply (reachable_fits (H := go_default) tex_env tex_all tex_p0 tex_p2 (ta_root tex_p2) tex_online tex_reachable2).
  - assert (Forall (λ c, pool_children c = []) (pool_children (ta_root tex_p2))) as Hflat
      by (vm_compute; repeat constructor). rewrite Forall_forall in Hflat. exact Hflat.
  - apply below_refl.
Defined.

Lemma ta_AllocateResources_refines_witness :
  ∃ g, cpu_view tex_p2 = <["db" := g]> (cpu_view tex_p1) ∧ 1000 * csize (g_exclusive g) + g_cpuPortion g = 1500.
Proof.
  pose proof (ta_AllocateResources_refines (H := go_default) tex_env tex_all tex_p0 tex_p1 tex_cch tex_db tex_p2 (Ok tt)
    tex_online tex_reachable1) as Hr.
  destruct Hr as (g & Hv & Ha & _); [apply (bool_decide_unpack _); by vm_compute|by vm_compute..|].
  exists g. split; [exact Hv|]. destruct Ha as [Ha|[Hq _]]; [exact Ha|]. exfalso. revert Hq. by vm_compute.
Defined.

Lemma ta_ReleaseResources_refines_witness : let q := (ta_ReleaseResources tex_env tex_cch tex_db tex_p2).1 in
  cpu_view q = cpu_view tex_p1 ∧ FreeSupply q 1 = FreeSupply tex_p1 1.
Proof.
  destruct (ta_ReleaseResources_refines (H := go_default) tex_env tex_all tex_p0 tex_p2 tex_cch tex_db
    (ta_ReleaseResources tex_env tex_cch tex_db tex_p2).1 (Ok tt) tex_online tex_reachable2) as (_ & _ & Hr); [by vm_compute|].
  destruct (Hr tex_p1 tex_cch) as [Hv Hf]; [apply (bool_decide_unpack _); by vm_compute|by vm_compute|exact tex_reachable1|done|].
  split; [exact Hv|]. apply (Hf tex_socket1). apply (list_elem_of_lookup_2 _ 1). by vm_compute.
Defined.

Definition tex_request (full fraction : Z) : request :=
  MkReq tex_web full fraction full false cpuNormal "" PriorityNone 0 0 0 false None 0.

Lemma AllocateCPU_live_witness :
  ∃ q g, AllocateCPU tex_env tex_cch tex_socket1 (tex_request 1 500) tex_p2 = (q, Ok g) ∧ csize (g_exclusive g) = 1.
Proof.
  destruct (AllocateCPU_live (H := go_default) tex_env tex_all tex_p0 tex_p2 tex_cch tex_socket1 (tex_request 1 500)
    tex_online tex_reachable2) as (q & g & Ha & Hc & _); [|by vm_compute|done..| |].
  - apply (list_elem_of_lookup_2 _ 1). by vm_compute.
  - apply (bool_decide_unpack _). by vm_compute.
  - exists q, g. split; [exact Ha|exact Hc].
Defined.

(** The policy that has granted the CPUs, but not moved the interrupt yet. *)
Definition tex_unapplied : policy := (ta_allocateResources tex_env tex_cch tex_web "" tex_p0).1.

Lemma applyIrqAffinity_spec_witness :
  ∃ cpus, ta_irqAffinity (applyIrqAffinity tex_env tex_unapplied) !! 1 = Some cpus ∧ 4 ∈ cpus.
Proof.
  destruct (applyIrqAffinity_spec (H := go_default) tex_env tex_unapplied [1] 1) as (_ & Hin & _); [done|by vm_compute|].
  destruct Hin as (cpus & Hc & Hx); [by left|eexists; by vm_compute|by vm_compute|].
  exists cpus. split; [exact Hc|]. apply Hx. split; [|split].
  - apply (bool_decide_unpack _). by vm_compute.
  - intros (id & g & Hg & irqs & Hi & _ & _ & Hm).
    assert (ta_grants tex_unapplied = {["web" := tex_grant "web"]}) as Hgs by (by vm_compute). rewrite Hgs in Hg.
    apply lookup_singleton_Some in Hg as [_ <-]. revert Hi Hm. vm_compute. intros [= <-]. discriminate.
  - left. exists "web", (tex_grant "web"). split; [by vm_compute|].
    eexists. split; [by vm_compute|]. split; [|by vm_compute]. apply (bool_decide_unpack _). by vm_compute.
Defined.
