(* ===== verification/CchTypes.v ===== *)
(** * The cache: pods and containers (pkg/resmgr/cache)

    The data the cache keeps about pods and containers, and the parts of NRI's
    data types that it uses.  An optional value that NRI leaves out is [None];
    reading it gives 0 or the empty string. *)

From S2P Require Import Prelude GoStrings Expr Kube BlnPin TaTypes.

Open Scope string_scope.
Open Scope Z_scope.

(** ** Containers of NRI *)

(** CPU resources: shares, quota and period, and the sets of CPUs and memory
    nodes. *)
Record LinuxCPU := MkLinuxCPU {
  cpu_Shares : option Z;
  cpu_Quota : option Z;
  cpu_Period : option Z;
  cpu_Cpus : string;
  cpu_Mems : string;
}.

Definition with_Shares (v : option Z) (o : LinuxCPU) : LinuxCPU :=
  MkLinuxCPU v (cpu_Quota o) (cpu_Period o) (cpu_Cpus o) (cpu_Mems o).

Definition with_Quota (v : option Z) (o : LinuxCPU) : LinuxCPU :=
  MkLinuxCPU (cpu_Shares o) v (cpu_Period o) (cpu_Cpus o) (cpu_Mems o).

Definition with_Period (v : option Z) (o : LinuxCPU) : LinuxCPU :=
  MkLinuxCPU (cpu_Shares o) (cpu_Quota o) v (cpu_Cpus o) (cpu_Mems o).

Definition with_Cpus (v : string) (o : LinuxCPU) : LinuxCPU :=
  MkLinuxCPU (cpu_Shares o) (cpu_Quota o) (cpu_Period o) v (cpu_Mems o).

Definition with_Mems (v : string) (o : LinuxCPU) : LinuxCPU :=
  MkLinuxCPU (cpu_Shares o) (cpu_Quota o) (cpu_Period o) (cpu_Cpus o) v.

Record LinuxMemory := MkLinuxMemory {
  lm_Limit : option Z;
  lm_Swap : option Z;
}.

Definition with_Limit (v : option Z) (o : LinuxMemory) : LinuxMemory :=
  MkLinuxMemory v (lm_Swap o).

Definition with_Swap (v : option Z) (o : LinuxMemory) : LinuxMemory :=
  MkLinuxMemory (lm_Limit o) v.

(** Access to devices, read, write and create. *)
Record DeviceRule := MkDeviceRule {
  dr_Type : string;
  dr_Major : option Z;
  dr_Minor : option Z;
  dr_Access : string;
}.

Record LinuxResources := MkLinuxResources {
  lr_Cpu : option LinuxCPU;
  lr_Memory : option LinuxMemory;
  lr_Devices : list DeviceRule;
  lr_RdtClass : option string;
  lr_BlockioClass : option string;
}.

Definition with_Cpu (v : option LinuxCPU) (o : LinuxResources) : LinuxResources :=
  MkLinuxResources v (lr_Memory o) (lr_Devices o) (lr_RdtClass o) (lr_BlockioClass o).

Definition with_Memory (v : option LinuxMemory) (o : LinuxResources) : LinuxResources :=
  MkLinuxResources (lr_Cpu o) v (lr_Devices o) (lr_RdtClass o) (lr_BlockioClass o).

Definition with_RdtClass (v : option string) (o : LinuxResources) : LinuxResources :=
  MkLinuxResources (lr_Cpu o) (lr_Memory o) (lr_Devices o) v (lr_BlockioClass o).

Definition with_BlockioClass (v : option string) (o : LinuxResources) : LinuxResources :=
  MkLinuxResources (lr_Cpu o) (lr_Memory o) (lr_Devices o) (lr_RdtClass o) v.

Record LinuxDevice := MkLinuxDevice {
  ld_Type : string;
  ld_Major : Z;
  ld_Minor : Z;
}.

Record LinuxContainer := MkLinuxContainer {
  lx_Devices : list LinuxDevice;
  lx_Resources : option LinuxResources;
  lx_OomScoreAdj : option Z;
}.

Definition with_Resources (v : option LinuxResources) (o : LinuxContainer) : LinuxContainer :=
  MkLinuxContainer (lx_Devices o) v (lx_OomScoreAdj o).

Record NriMount := MkNriMount {
  mt_Destination : string;
  mt_Source : string;
  mt_Type : string;
  mt_Options : list string;
}.

(** States of containers: those of NRI, and two of the cache. *)
Inductive ContainerState :=
  | ContainerStateCreating
  | ContainerStateUnknown
  | ContainerStateCreated
  | ContainerStatePaused
  | ContainerStateRunning
  | ContainerStateExited
  | ContainerStateStale.

#[export] Instance ContainerState_eq_dec : EqDecision ContainerState.
Proof. solve_decision. Defined.

Record NriContainer := MkNriContainer {
  nc_Id : string;
  nc_PodSandboxId : string;
  nc_Name : string;
  nc_State : ContainerState;
  nc_Labels : gmap string string;
  nc_Env : list string;
  nc_Mounts : list NriMount;
  nc_Linux : option LinuxContainer;
  nc_CreatedAt : Z;
}.

Definition with_State (v : ContainerState) (o : NriContainer) : NriContainer :=
  MkNriContainer (nc_Id o) (nc_PodSandboxId o) (nc_Name o) v (nc_Labels o) (nc_Env o) (nc_Mounts o) (nc_Linux o)
    (nc_CreatedAt o).

Definition with_Linux (v : option LinuxContainer) (o : NriContainer) : NriContainer :=
  MkNriContainer (nc_Id o) (nc_PodSandboxId o) (nc_Name o) (nc_State o) (nc_Labels o) (nc_Env o) (nc_Mounts o) v
    (nc_CreatedAt o).

(** Scheduling attributes. *)
Record LinuxScheduler := MkLinuxScheduler {
  sch_Policy : Z;
  sch_Nice : Z;
  sch_Priority : Z;
  sch_Flags : list Z;
  sch_Runtime : Z;
  sch_Deadline : Z;
  sch_Period : Z;
}.

Definition with_Policy (v : Z) (o : LinuxScheduler) : LinuxScheduler :=
  MkLinuxScheduler v (sch_Nice o) (sch_Priority o) (sch_Flags o) (sch_Runtime o) (sch_Deadline o) (sch_Period o).

Definition with_Nice (v : Z) (o : LinuxScheduler) : LinuxScheduler :=
  MkLinuxScheduler (sch_Policy o) v (sch_Priority o) (sch_Flags o) (sch_Runtime o) (sch_Deadline o)
    (sch_Period o).

Definition with_Priority (v : Z) (o : LinuxScheduler) : LinuxScheduler :=
  MkLinuxScheduler (sch_Policy o) (sch_Nice o) v (sch_Flags o) (sch_Runtime o) (sch_Deadline o) (sch_Period o).

Definition with_Flags (v : list Z) (o : LinuxScheduler) : LinuxScheduler :=
  MkLinuxScheduler (sch_Policy o) (sch_Nice o) (sch_Priority o) v (sch_Runtime o) (sch_Deadline o)
    (sch_Period o).

Definition with_Runtime (v : Z) (o : LinuxScheduler) : LinuxScheduler :=
  MkLinuxScheduler (sch_Policy o) (sch_Nice o) (sch_Priority o) (sch_Flags o) v (sch_Deadline o) (sch_Period o).

Definition with_Deadline (v : Z) (o : LinuxScheduler) : LinuxScheduler :=
  MkLinuxScheduler (sch_Policy o) (sch_Nice o) (sch_Priority o) (sch_Flags o) (sch_Runtime o) v (sch_Period o).

Definition with_SchedPeriod (v : Z) (o : LinuxScheduler) : LinuxScheduler :=
  MkLinuxScheduler (sch_Policy o) (sch_Nice o) (sch_Priority o) (sch_Flags o) (sch_Runtime o) (sch_Deadline o) v.

Record LinuxIOPriority := MkLinuxIOPriority {
  iop_Class : Z;
  iop_Priority : Z;
}.

Definition with_IOClass (v : Z) (o : LinuxIOPriority) : LinuxIOPriority :=
  MkLinuxIOPriority v (iop_Priority o).

Definition with_IOPriority (v : Z) (o : LinuxIOPriority) : LinuxIOPriority :=
  MkLinuxIOPriority (iop_Class o) v.

(** ** Pending requests *)

(** What the runtime is asked to change: an adjustment of a container that is
    being created, or an update of another one. *)
Record ContainerAdjustment := MkContainerAdjustment {
  adj_Mounts : list NriMount;
  adj_Resources : LinuxResources;
  adj_Scheduler : option LinuxScheduler;
  adj_IOPriority : option LinuxIOPriority;
}.

Definition adj_with_Mounts (v : list NriMount) (o : ContainerAdjustment) : ContainerAdjustment :=
  MkContainerAdjustment v (adj_Resources o) (adj_Scheduler o) (adj_IOPriority o).

Definition adj_with_Resources (v : LinuxResources) (o : ContainerAdjustment) : ContainerAdjustment :=
  MkContainerAdjustment (adj_Mounts o) v (adj_Scheduler o) (adj_IOPriority o).

Definition adj_with_Scheduler (v : option LinuxScheduler) (o : ContainerAdjustment) : ContainerAdjustment :=
  MkContainerAdjustment (adj_Mounts o) (adj_Resources o) v (adj_IOPriority o).

Definition adj_with_IOPriority (v : option LinuxIOPriority) (o : ContainerAdjustment) : ContainerAdjustment :=
  MkContainerAdjustment (adj_Mounts o) (adj_Resources o) (adj_Scheduler o) v.

Record ContainerUpdate := MkContainerUpdate {
  upd_ContainerId : string;
  upd_Resources : LinuxResources;
}.

Definition upd_with_Resources (v : LinuxResources) (o : ContainerUpdate) : ContainerUpdate :=
  MkContainerUpdate (upd_ContainerId o) v.

Inductive PendingRequest :=
  | PendingAdjustment (a : ContainerAdjustment)
  | PendingUpdate (u : ContainerUpdate).

Definition no_resources : LinuxResources := MkLinuxResources None None [] None None.

(** ** Cached pods and containers *)

(** Resources of the containers of a pod that kubelet tells of: the devices of a
    container and the NUMA nodes they are on. *)
Record PodResDevice := MkPodResDevice {
  prd_ResourceName : string;
  prd_Nodes : list Z;
}.

Record PodResContainer := MkPodResContainer {
  prc_Name : string;
  prc_Devices : list PodResDevice;
}.

(** A pod sandbox of NRI. *)
Record NriPod := MkNriPod {
  np_Id : string;
  np_Uid : string;
  np_Name : string;
  np_Namespace : string;
  np_Labels : gmap string string;
  np_Annotations : gmap string string;
  np_CgroupParent : string;
}.

(** A cached pod; [cp_PodResources] is what is known once fetching it is
    complete, and every reader waits for that. *)
Record CPod := MkCPod {
  cp_Pod : NriPod;
  cp_QOSClass : string;
  cp_PodResources : option (list PodResContainer);
  cp_ctime : Z;
}.

Definition with_PodResources (v : option (list PodResContainer)) (o : CPod) : CPod :=
  MkCPod (cp_Pod o) (cp_QOSClass o) v (cp_ctime o).

(** A cached container.  [co_prettyName] is made when the name is first asked
    for, and kept: when the container is created, or when a saved one has been
    loaded. *)
Record CContainer := MkCContainer {
  co_Ctr : NriContainer;
  co_Requirements : Resources;
  co_PodResources : option PodResContainer;
  co_ResourceUpdates : option Resources;
  co_request : option PendingRequest;
  co_LinuxScheduler : option LinuxScheduler;
  co_LinuxIOPriority : option LinuxIOPriority;
  co_TopologyHints : gmap string Hint;
  co_Tags : gmap string string;
  co_pending : gset string;
  co_prettyName : string;
  co_ctime : Z;
}.

Definition with_Ctr (v : NriContainer) (o : CContainer) : CContainer :=
  MkCContainer v (co_Requirements o) (co_PodResources o) (co_ResourceUpdates o) (co_request o)
    (co_LinuxScheduler o) (co_LinuxIOPriority o) (co_TopologyHints o) (co_Tags o) (co_pending o)
    (co_prettyName o) (co_ctime o).

Definition with_Requirements (v : Resources) (o : CContainer) : CContainer :=
  MkCContainer (co_Ctr o) v (co_PodResources o) (co_ResourceUpdates o) (co_request o) (co_LinuxScheduler o)
    (co_LinuxIOPriority o) (co_TopologyHints o) (co_Tags o) (co_pending o) (co_prettyName o) (co_ctime o).

Definition with_ContainerResources (v : option PodResContainer) (o : CContainer) : CContainer :=
  MkCContainer (co_Ctr o) (co_Requirements o) v (co_ResourceUpdates o) (co_request o) (co_LinuxScheduler o)
    (co_LinuxIOPriority o) (co_TopologyHints o) (co_Tags o) (co_pending o) (co_prettyName o) (co_ctime o).

Definition with_ResourceUpdates (v : option Resources) (o : CContainer) : CContainer :=
  MkCContainer (co_Ctr o) (co_Requirements o) (co_PodResources o) v (co_request o) (co_LinuxScheduler o)
    (co_LinuxIOPriority o) (co_TopologyHints o) (co_Tags o) (co_pending o) (co_prettyName o) (co_ctime o).

Definition with_request (v : option PendingRequest) (o : CContainer) : CContainer :=
  MkCContainer (co_Ctr o) (co_Requirements o) (co_PodResources o) (co_ResourceUpdates o) v (co_LinuxScheduler o)
    (co_LinuxIOPriority o) (co_TopologyHints o) (co_Tags o) (co_pending o) (co_prettyName o) (co_ctime o).

Definition with_LinuxScheduler (v : option LinuxScheduler) (o : CContainer) : CContainer :=
  MkCContainer (co_Ctr o) (co_Requirements o) (co_PodResources o) (co_ResourceUpdates o) (co_request o) v
    (co_LinuxIOPriority o) (co_TopologyHints o) (co_Tags o) (co_pending o) (co_prettyName o) (co_ctime o).

Definition with_LinuxIOPriority (v : option LinuxIOPriority) (o : CContainer) : CContainer :=
  MkCContainer (co_Ctr o) (co_Requirements o) (co_PodResources o) (co_ResourceUpdates o) (co_request o)
    (co_LinuxScheduler o) v (co_TopologyHints o) (co_Tags o) (co_pending o) (co_prettyName o) (co_ctime o).

Definition with_TopologyHints (v : gmap string Hint) (o : CContainer) : CContainer :=
  MkCContainer (co_Ctr o) (co_Requirements o) (co_PodResources o) (co_ResourceUpdates o) (co_request o)
    (co_LinuxScheduler o) (co_LinuxIOPriority o) v (co_Tags o) (co_pending o) (co_prettyName o) (co_ctime o).

Definition with_Tags (v : gmap string string) (o : CContainer) : CContainer :=
  MkCContainer (co_Ctr o) (co_Requirements o) (co_PodResources o) (co_ResourceUpdates o) (co_request o)
    (co_LinuxScheduler o) (co_LinuxIOPriority o) (co_TopologyHints o) v (co_pending o) (co_prettyName o)
    (co_ctime o).

Definition with_pending (v : gset string) (o : CContainer) : CContainer :=
  MkCContainer (co_Ctr o) (co_Requirements o) (co_PodResources o) (co_ResourceUpdates o) (co_request o)
    (co_LinuxScheduler o) (co_LinuxIOPriority o) (co_TopologyHints o) (co_Tags o) v (co_prettyName o)
    (co_ctime o).

Definition with_prettyName (v : string) (o : CContainer) : CContainer :=
  MkCContainer (co_Ctr o) (co_Requirements o) (co_PodResources o) (co_ResourceUpdates o) (co_request o)
    (co_LinuxScheduler o) (co_LinuxIOPriority o) (co_TopologyHints o) (co_Tags o) (co_pending o) v (co_ctime o).

(** ** The cache *)

(** What of the cache is saved. *)
Record Snapshot := MkSnapshot {
  sn_Version : string;
  sn_Pods : gmap string CPod;
  sn_Containers : gmap string CContainer;
  sn_PolicyName : string;
  sn_PolicyJSON : gmap string string;
}.

(** Containers are shared by pointer, by the cache, by whoever has looked them
    up and by the names of the NRI plugin: they live in a heap.  [cc_file] is
    the saved cache, [cc_dirs] are the directories of containers. *)
Record CCache := MkCCache {
  cc_heap : gmap positive CContainer;
  cc_next : positive;
  cc_Pods : gmap string CPod;
  cc_Containers : gmap string positive;
  cc_PolicyName : string;
  cc_policyData : gmap string string;
  cc_PolicyJSON : gmap string string;
  cc_pending : gset string;
  cc_rdtControl : bool;
  cc_blockIOControl : bool;
  cc_saveBlock : Z;
  cc_file : option Snapshot;
  cc_dirs : gset string;
}.

Definition with_heap (v : gmap positive CContainer) (o : CCache) : CCache :=
  MkCCache v (cc_next o) (cc_Pods o) (cc_Containers o) (cc_PolicyName o) (cc_policyData o) (cc_PolicyJSON o)
    (cc_pending o) (cc_rdtControl o) (cc_blockIOControl o) (cc_saveBlock o) (cc_file o) (cc_dirs o).

Definition with_next (v : positive) (o : CCache) : CCache :=
  MkCCache (cc_heap o) v (cc_Pods o) (cc_Containers o) (cc_PolicyName o) (cc_policyData o) (cc_PolicyJSON o)
    (cc_pending o) (cc_rdtControl o) (cc_blockIOControl o) (cc_saveBlock o) (cc_file o) (cc_dirs o).

Definition with_Pods (v : gmap string CPod) (o : CCache) : CCache :=
  MkCCache (cc_heap o) (cc_next o) v (cc_Containers o) (cc_PolicyName o) (cc_policyData o) (cc_PolicyJSON o)
    (cc_pending o) (cc_rdtControl o) (cc_blockIOControl o) (cc_saveBlock o) (cc_file o) (cc_dirs o).

Definition with_Containers (v : gmap string positive) (o : CCache) : CCache :=
  MkCCache (cc_heap o) (cc_next o) (cc_Pods o) v (cc_PolicyName o) (cc_policyData o) (cc_PolicyJSON o)
    (cc_pending o) (cc_rdtControl o) (cc_blockIOControl o) (cc_saveBlock o) (cc_file o) (cc_dirs o).

Definition with_PolicyName (v : string) (o : CCache) : CCache :=
  MkCCache (cc_heap o) (cc_next o) (cc_Pods o) (cc_Containers o) v (cc_policyData o) (cc_PolicyJSON o)
    (cc_pending o) (cc_rdtControl o) (cc_blockIOControl o) (cc_saveBlock o) (cc_file o) (cc_dirs o).

Definition with_policyData (v : gmap string string) (o : CCache) : CCache :=
  MkCCache (cc_heap o) (cc_next o) (cc_Pods o) (cc_Containers o) (cc_PolicyName o) v (cc_PolicyJSON o)
    (cc_pending o) (cc_rdtControl o) (cc_blockIOControl o) (cc_saveBlock o) (cc_file o) (cc_dirs o).

Definition with_PolicyJSON (v : gmap string string) (o : CCache) : CCache :=
  MkCCache (cc_heap o) (cc_next o) (cc_Pods o) (cc_Containers o) (cc_PolicyName o) (cc_policyData o) v
    (cc_pending o) (cc_rdtControl o) (cc_blockIOControl o) (cc_saveBlock o) (cc_file o) (cc_dirs o).

Definition with_cpending (v : gset string) (o : CCache) : CCache :=
  MkCCache (cc_heap o) (cc_next o) (cc_Pods o) (cc_Containers o) (cc_PolicyName o) (cc_policyData o)
    (cc_PolicyJSON o) v (cc_rdtControl o) (cc_blockIOControl o) (cc_saveBlock o) (cc_file o) (cc_dirs o).

Definition with_rdtControl (v : bool) (o : CCache) : CCache :=
  MkCCache (cc_heap o) (cc_next o) (cc_Pods o) (cc_Containers o) (cc_PolicyName o) (cc_policyData o)
    (cc_PolicyJSON o) (cc_pending o) v (cc_blockIOControl o) (cc_saveBlock o) (cc_file o) (cc_dirs o).

Definition with_blockIOControl (v : bool) (o : CCache) : CCache :=
  MkCCache (cc_heap o) (cc_next o) (cc_Pods o) (cc_Containers o) (cc_PolicyName o) (cc_policyData o)
    (cc_PolicyJSON o) (cc_pending o) (cc_rdtControl o) v (cc_saveBlock o) (cc_file o) (cc_dirs o).

Definition with_saveBlock (v : Z) (o : CCache) : CCache :=
  MkCCache (cc_heap o) (cc_next o) (cc_Pods o) (cc_Containers o) (cc_PolicyName o) (cc_policyData o)
    (cc_PolicyJSON o) (cc_pending o) (cc_rdtControl o) (cc_blockIOControl o) v (cc_file o) (cc_dirs o).

Definition with_file (v : option Snapshot) (o : CCache) : CCache :=
  MkCCache (cc_heap o) (cc_next o) (cc_Pods o) (cc_Containers o) (cc_PolicyName o) (cc_policyData o)
    (cc_PolicyJSON o) (cc_pending o) (cc_rdtControl o) (cc_blockIOControl o) (cc_saveBlock o) v (cc_dirs o).

Definition with_dirs (v : gset string) (o : CCache) : CCache :=
  MkCCache (cc_heap o) (cc_next o) (cc_Pods o) (cc_Containers o) (cc_PolicyName o) (cc_policyData o)
    (cc_PolicyJSON o) (cc_pending o) (cc_rdtControl o) (cc_blockIOControl o) (cc_saveBlock o) (cc_file o) v.
