(* ===== verification/CchContainer.v ===== *)
(** * Topology hints of containers (pkg/resmgr/cache/container.go)

    Which mounts and devices of a container give topology hints, and the lists
    of paths that are allowed and denied to. *)

From Stdlib Require Import Ascii.
From S2P Require Import Prelude GoStrings Expr Kube BlnPin TaTypes TaPrefs CchTypes.

Open Scope string_scope.
Open Scope Z_scope.

Definition HasPrefix (s prefix : string) : bool := bool_decide (is_Some (strip_prefix prefix s)).

(** [strings.Contains] *)
Fixpoint Contains (s sub : string) : bool :=
  HasPrefix s sub || match s with String _ s => Contains s sub | EmptyString => false end.

Inductive MatchType := PrefixMatch | GlobMatch.

#[export] Instance MatchType_eq_dec : EqDecision MatchType.
Proof. solve_decision. Defined.

Record PathList := MkPathList {
  pl_Type : MatchType;
  pl_Paths : list string;
}.

Definition MountHints := "mounts".
Definition DeviceHints := "devices".
Definition PodResourceHints := "pod-resources".
Definition AllHints := "all".
Definition NoHints := "none".

Definition TestTopologyHintsKey := append "test." TopologyHintsKey.

(** What hints are generated from besides the container: decoders of YAML,
    whether interfaces for tests are enabled, and what sysfs has for a path or
    a device. *)
Record HintEnv := MkHintEnv {
  he_PathList : string → option PathList;
  he_TestHints : string → option (gmap string Hint);
  he_TestAPIsEnabled : bool;
  he_FindSysFsDevice : string → option string;
  he_FindGivenSysFsDevice : string → Z → Z → option string;
  he_NewTopologyHints : string → option (gmap string Hint);
}.

(** ** Allowed and denied paths *)

(** Whether a pattern of the list matches; [None] if one before is malformed. *)
Fixpoint any_match (t : MatchType) (paths : list string) (hostPath : string) : option bool :=
  match paths with
  | [] => Some false
  | path :: paths =>
      match
        match t with
        | GlobMatch => filepath_Match_err path hostPath
        | PrefixMatch => Some (HasPrefix hostPath path)
        end
      with
      | None => None
      | Some true => Some true
      | Some false => any_match t paths hostPath
      end
  end.

Definition list_match (l : option PathList) (hostPath : string) : option bool :=
  match l with None => Some false | Some l => any_match (pl_Type l) (pl_Paths l) hostPath end.

Definition checkAllowedAndDeniedPaths (hostPath : string) (allowPathList denyPathList : option PathList) : bool :=
  match list_match denyPathList hostPath with
  | None => false
  | Some denied =>
      match list_match allowPathList hostPath with
      | None => denied
      | Some true => false
      | Some false => denied
      end
  end.

(** ** Mounts and devices *)

Definition isReadOnlyMount (m : NriMount) : bool := bool_decide ("ro" ∈ mt_Options m).

(** Rules for all devices that come before the first one for the device count
    together with it: one that allows writing is enough. *)
Fixpoint read_only_loop (rules : list DeviceRule) (d : LinuxDevice) (readOnly : bool) : bool :=
  match rules with
  | [] => readOnly
  | r :: rules =>
      let rMajor := default 0 (dr_Major r) in
      let rMinor := default 0 (dr_Minor r) in
      let writable := if Contains (dr_Access r) "w" then false else readOnly in
      if bool_decide (dr_Type r = "" ∧ rMajor = 0 ∧ rMinor = 0) then read_only_loop rules d writable
      else if bool_decide (ld_Type d = dr_Type r ∧ ld_Major d = rMajor ∧ ld_Minor d = rMinor) then writable
      else read_only_loop rules d readOnly
  end.

Definition isReadOnlyDevice (rules : list DeviceRule) (d : LinuxDevice) : bool := read_only_loop rules d true.

Definition is_xdigit (c : ascii) : bool :=
  let n := N_of_ascii c in
  (bool_decide (48 ≤ n ∧ n ≤ 57)%N || bool_decide (65 ≤ n ∧ n ≤ 70)%N || bool_decide (97 ≤ n ∧ n ≤ 102)%N).

(** The regular expression for config maps and secrets,
    [(kubelet)?/pods/[[:xdigit:]-]+/volumes/kubernetes\.io~(configmap|secret)/],
    matched at the start of a string after [/pods/]; its optional beginning
    does not matter for whether it matches somewhere. *)
Definition volume_of_kubelet (s : string) : bool :=
  HasPrefix s "/volumes/kubernetes.io~configmap/" || HasPrefix s "/volumes/kubernetes.io~secret/".

Fixpoint pod_volume (s : string) : bool :=
  match s with
  | String c s => if is_xdigit c || bool_decide (c = c_dash) then volume_of_kubelet s || pod_volume s else false
  | EmptyString => false
  end.

Fixpoint ignoredTopologyPathRegexp (s : string) : bool :=
  match strip_prefix "/pods/" s with Some rest => pod_volume rest | None => false end ||
  match s with String _ s => ignoredTopologyPathRegexp s | EmptyString => false end.

Definition ignoredTopologyPaths : list string :=
  ["/.nri-resource-policy"; "/etc/"; "/dev/termination-log"; "/lib/"; "/lib64/"; "/usr/lib/"; "/usr/lib32/"; "/usr/lib64/"].

Definition MergeTopologyHints (org hints : gmap string Hint) : gmap string Hint := org ∪ hints.

Section hints.
Context `{GoRuntime} (HE : HintEnv).

(** Hints of a device path, unless it is denied; errors are ignored. *)
Definition hints_for_path (devPath : string) (allow deny : option PathList) : gmap string Hint :=
  if checkAllowedAndDeniedPaths devPath allow deny then ∅ else default ∅ (he_NewTopologyHints HE devPath).

Definition getTopologyHintsForMount (hostPath containerPath : string) (readOnly : bool) (allow deny : option PathList)
    : gmap string Hint :=
  if readOnly then ∅
  else if existsb (λ path, HasPrefix hostPath path || HasPrefix containerPath path) ignoredTopologyPaths then ∅
  else if ignoredTopologyPathRegexp hostPath || ignoredTopologyPathRegexp containerPath then ∅
  else if checkAllowedAndDeniedPaths hostPath allow deny then ∅
  else match he_FindSysFsDevice HE hostPath with
       | Some devPath => hints_for_path devPath allow deny
       | None => ∅
       end.

Definition getTopologyHintsForDevice (devType : string) (major minor : Z) (allow deny : option PathList) : gmap string Hint :=
  match he_FindGivenSysFsDevice HE devType major minor with
  | Some devPath => hints_for_path devPath allow deny
  | None => ∅
  end.

Definition podResHintProvider := "podresourceapi:".

(** Hints of the devices kubelet tells of: the NUMA nodes of the device. *)
Definition GetDeviceTopologyHints (r : PodResContainer) (checkDenied : string → bool) : gmap string Hint :=
  fold_left (λ hints dev,
    let name := append podResHintProvider (prd_ResourceName dev) in
    if checkDenied name then hints
    else if bool_decide (prd_Nodes dev = []) then hints
    else <[name := MkHint "" "" (join "," (itoa <$> prd_Nodes dev)) "" []]> hints) (prc_Devices r) ∅.

(** ** Preferences *)

(** Which kinds of hints to generate: mounts, devices and pod resources. *)
Record HintKinds := MkHintKinds {
  hk_mounts : bool;
  hk_devices : bool;
  hk_podResources : bool;
}.

(** [None] if hints are not wanted at all. *)
Fixpoint hint_prefs (prefs : list string) (k : HintKinds) : option HintKinds :=
  match prefs with
  | [] => Some k
  | pref :: prefs =>
      if bool_decide (pref = DeviceHints) then hint_prefs prefs (MkHintKinds (hk_mounts k) true (hk_podResources k))
      else if bool_decide (pref = MountHints) then hint_prefs prefs (MkHintKinds true (hk_devices k) (hk_podResources k))
      else if bool_decide (pref = PodResourceHints) then hint_prefs prefs (MkHintKinds (hk_mounts k) (hk_devices k) true)
      else if bool_decide (pref = AllHints) then hint_prefs prefs (MkHintKinds true true true)
      else if bool_decide (pref = NoHints) then None
      else hint_prefs prefs k
  end.

Definition wanted_hints (preference : option string) : option HintKinds :=
  match preference with
  | None => Some (MkHintKinds true true true)
  | Some value =>
      match ParseBool value with
      | Some true => Some (MkHintKinds true true true)
      | Some false => None
      | None => hint_prefs (split_on c_comma value) (MkHintKinds false false false)
      end
  end.

(** [annotation] is the effective annotation of the container with a key, [podRes]
    what kubelet tells about the container.  A mount is looked up by the path of
    its destination: this is what the code passes for the host path. *)
Definition generateTopologyHints (annotation : string → option string) (podRes : option PodResContainer)
    (ctr : NriContainer) : gmap string Hint :=
  match wanted_hints (annotation TopologyHintsKey) with
  | None => ∅
  | Some k =>
      let pathList typeStr :=
        match annotation (append typeStr (append "." TopologyHintsKey)) with
        | Some value => he_PathList HE value
        | None => None
        end in
      let allow := pathList "allow" in
      let deny := pathList "deny" in
      let mount_hints :=
        if hk_mounts k then
          fold_left (λ hints m,
            MergeTopologyHints hints
              (getTopologyHintsForMount (mt_Destination m) (mt_Source m) (isReadOnlyMount m) allow deny)) (nc_Mounts ctr) ∅
        else ∅ in
      let rules := match nc_Linux ctr with
                   | Some l => match lx_Resources l with Some r => lr_Devices r | None => [] end
                   | None => []
                   end in
      let devices := match nc_Linux ctr with Some l => lx_Devices l | None => [] end in
      let device_hints :=
        if hk_devices k then
          fold_left (λ hints d,
            if isReadOnlyDevice rules d then hints
            else MergeTopologyHints hints (getTopologyHintsForDevice (ld_Type d) (ld_Major d) (ld_Minor d) allow deny))
            devices mount_hints
        else mount_hints in
      let pod_hints :=
        if hk_podResources k then
          match podRes with
          | Some r => MergeTopologyHints device_hints
                        (GetDeviceTopologyHints r (λ path, checkAllowedAndDeniedPaths path allow deny))
          | None => device_hints
          end
        else device_hints in
      if he_TestAPIsEnabled HE then
        match annotation TestTopologyHintsKey with
        | Some value =>
            match he_TestHints HE value with
            | Some injected =>
                fold_left (λ hints h,
                  if checkAllowedAndDeniedPaths (hint_Provider h.2) allow deny then hints
                  else MergeTopologyHints hints {[hint_Provider h.2 := h.2]}) (map_range injected) pod_hints
            | None => pod_hints
            end
        | None => pod_hints
        end
      else pod_hints
  end.
End hints.

Example volumes_ignored :
  ignoredTopologyPathRegexp "/var/lib/kubelet/pods/0a-f/volumes/kubernetes.io~secret/token" = true ∧
  ignoredTopologyPathRegexp "/var/lib/kubelet/pods//volumes/kubernetes.io~secret/token" = false ∧
  ignoredTopologyPathRegexp "/pods/12/volumes/kubernetes.io~csi/data" = false.
Proof. by vm_compute. Qed.

(** * Cached containers (pkg/resmgr/cache/container.go, utils.go)

    What a container requires of resources, the requests to the runtime that
    are pending for it, and the setters that policies change it with. *)

Open Scope string_scope.
Open Scope Z_scope.

(** ** Resource requirements *)

(** Values of NRI that may be left out. *)
Definition GetCpu (r : option LinuxResources) : LinuxCPU :=
  default (MkLinuxCPU None None None "" "") (r ≫= lr_Cpu).

Definition GetMemory (r : option LinuxResources) : LinuxMemory := default (MkLinuxMemory None None) (r ≫= lr_Memory).

Definition ctr_resources (ctr : NriContainer) : option LinuxResources := nc_Linux ctr ≫= lx_Resources.

Definition ctr_oomAdj (ctr : NriContainer) : Z := default 0 (nc_Linux ctr ≫= lx_OomScoreAdj).

(** Requests and limits of CPU and memory; an amount that is not larger than 0
    is left out.  For a guaranteed pod the limit of CPU and the request of
    memory are there in any case. *)
Definition estimateResourceRequirements (estimates : gmap Z Z) (r : option LinuxResources) (qosClass : string) (oomAdj : Z)
    : Resources :=
  let cpu := GetCpu r in
  let request := SharesToMilliCPU (i64 (default 0 (cpu_Shares cpu))) in
  let requestCPU := if bool_decide (request > 0) then Some request else None in
  let memLimit := default 0 (lm_Limit (GetMemory r)) in
  let limitMemory := if bool_decide (memLimit > 0) then Some memLimit else None in
  let quota_limit :=
    let value := QuotaToMilliCPU (default 0 (cpu_Quota cpu)) (i64 (default 0 (cpu_Period cpu))) in
    if bool_decide (value > 0) then Some value else None in
  if bool_decide (qosClass = "Guaranteed") then
    MkResources requestCPU (Some (default 0 requestCPU)) (Some (default 0 limitMemory)) limitMemory
  else if bool_decide (qosClass = "Burstable") then
    let requestMemory :=
      match OomAdjToMemReq estimates oomAdj memLimit with
      | Some req => if bool_decide (req ≠ 0) then Some req else None
      | None => None
      end in
    MkResources requestCPU quota_limit requestMemory limitMemory
  else if bool_decide (qosClass = "BestEffort") then MkResources requestCPU quota_limit None limitMemory
  else MkResources requestCPU None None limitMemory.

(** What an update leaves out is taken from the container. *)
Definition merged (u orig : option Z) : option Z := if bool_decide (default 0 u = 0) then orig else u.

Definition mergeNRIResources (u orig : LinuxResources) : LinuxResources :=
  let ucpu := GetCpu (Some u) in
  let cpu :=
    match lr_Cpu orig with
    | None => ucpu
    | Some o =>
        MkLinuxCPU (merged (cpu_Shares ucpu) (cpu_Shares o)) (merged (cpu_Quota ucpu) (cpu_Quota o))
          (merged (cpu_Period ucpu) (cpu_Period o))
          (if bool_decide (cpu_Cpus ucpu = "") then cpu_Cpus o else cpu_Cpus ucpu)
          (if bool_decide (cpu_Mems ucpu = "") then cpu_Mems o else cpu_Mems ucpu)
    end in
  let umem := GetMemory (Some u) in
  let mem :=
    match lr_Memory orig with
    | None => umem
    | Some o => MkLinuxMemory (merged (lm_Limit umem) (lm_Limit o)) (merged (lm_Swap umem) (lm_Swap o))
    end in
  with_Memory (Some mem) (with_Cpu (Some cpu) u).

(** Whether an amount that is there now is what it was before. *)
Definition same_amount (updated orig : option Z) : bool :=
  match updated with None => true | Some _ => bool_decide (updated = orig) end.

Definition same_requirements (updated orig : Resources) : bool :=
  same_amount (rs_requestCPU updated) (rs_requestCPU orig) && same_amount (rs_requestMemory updated) (rs_requestMemory orig) &&
  same_amount (rs_limitCPU updated) (rs_limitCPU orig) && same_amount (rs_limitMemory updated) (rs_limitMemory orig).

(** Whether the update changes the requirements.  The code dereferences both
    the update and the resources of the container. *)
Definition SetResourceUpdates (estimates : gmap Z Z) (qosClass : string) (r : option LinuxResources) (c : CContainer)
    : res (CContainer * bool) :=
  match r, ctr_resources (co_Ctr c) with
  | Some r, Some orig =>
      let updated := estimateResourceRequirements estimates (Some (mergeNRIResources r orig)) qosClass (ctr_oomAdj (co_Ctr c)) in
      let before := default (co_Requirements c) (co_ResourceUpdates c) in
      Ok (with_ResourceUpdates (Some updated) c, negb (same_requirements updated before))
  | _, _ => Err Panic
  end.

(** ** Pending requests *)

Definition getPendingRequest (c : CContainer) : CContainer * PendingRequest :=
  match co_request c with
  | Some req => (c, req)
  | None =>
      let req :=
        if bool_decide (nc_State (co_Ctr c) = ContainerStateCreating) then
          PendingAdjustment (MkContainerAdjustment [] no_resources None None)
        else PendingUpdate (MkContainerUpdate (nc_Id (co_Ctr c)) no_resources) in
      (with_request (Some req) c, req)
  end.

Definition GetPendingAdjustment (c : CContainer) : CContainer * option ContainerAdjustment :=
  match co_request c with
  | None => (c, None)
  | Some (PendingAdjustment a) => (with_request None c, Some a)
  | Some (PendingUpdate _) => (with_request None c, None)
  end.

(** A request that is no update is dropped. *)
Definition PeekPendingUpdate (c : CContainer) : CContainer * option ContainerUpdate :=
  match co_request c with
  | None => (c, None)
  | Some (PendingUpdate u) => (c, Some u)
  | Some (PendingAdjustment _) => (with_request None c, None)
  end.

Definition ClearPendingUpdate (c : CContainer) : CContainer := with_request None c.

(** ** Setters *)

Definition on_request (f : LinuxResources → LinuxResources) (req : PendingRequest) : PendingRequest :=
  match req with
  | PendingAdjustment a => PendingAdjustment (adj_with_Resources (f (adj_Resources a)) a)
  | PendingUpdate u => PendingUpdate (upd_with_Resources (f (upd_Resources u)) u)
  end.

(** [ensureLinuxResources] and a change of the resources. *)
Definition ensureLinuxResources (f : LinuxResources → LinuxResources) (c : CContainer) : CContainer :=
  let l := default (MkLinuxContainer [] None None) (nc_Linux (co_Ctr c)) in
  with_Ctr (with_Linux (Some (with_Resources (Some (f (default no_resources (lx_Resources l)))) l)) (co_Ctr c)) c.

(** [ensureLinuxResourcesCPU] and [ensureLinuxResourcesMemory], which the
    setters of NRI's requests do likewise. *)
Definition ensureLinuxResourcesCPU (f : LinuxCPU → LinuxCPU) (r : LinuxResources) : LinuxResources :=
  with_Cpu (Some (f (GetCpu (Some r)))) r.

Definition ensureLinuxResourcesMemory (f : LinuxMemory → LinuxMemory) (r : LinuxResources) : LinuxResources :=
  with_Memory (Some (f (GetMemory (Some r)))) r.

Definition NRI := "nri".

(** A setter of a container: the changed container, and whether it has been
    marked to have a change pending. *)
Definition setter := CContainer → CContainer * bool.

Definition mark_pending (c : CContainer) : CContainer * bool := (with_pending (co_pending c ∪ {[NRI]}) c, true).

Definition set_resource (f : LinuxResources → LinuxResources) : setter := λ c,
  let '(c, req) := getPendingRequest c in
  let '(c, marked) := mark_pending (with_request (Some (on_request f req)) c) in
  (ensureLinuxResources f c, marked).

Definition SetCPUShares (value : Z) : setter := set_resource (ensureLinuxResourcesCPU (with_Shares (Some (u64 value)))).
Definition SetCPUQuota (value : Z) : setter := set_resource (ensureLinuxResourcesCPU (with_Quota (Some value))).
Definition SetCPUPeriod (value : Z) : setter := set_resource (ensureLinuxResourcesCPU (with_Period (Some (u64 value)))).
Definition SetCpusetCpus (value : string) : setter := set_resource (ensureLinuxResourcesCPU (with_Cpus value)).
Definition SetCpusetMems (value : string) : setter := set_resource (ensureLinuxResourcesCPU (with_Mems value)).
Definition SetMemoryLimit (value : Z) : setter := set_resource (ensureLinuxResourcesMemory (with_Limit (Some value))).
Definition SetMemorySwap (value : Z) : setter := set_resource (ensureLinuxResourcesMemory (with_Swap (Some value))).

(** A class is only passed on to the runtime if classes are controlled. *)
Definition set_class (control : bool) (f : LinuxResources → LinuxResources) : setter := λ c,
  let '(c, req) := getPendingRequest c in
  let c := if control then with_request (Some (on_request f req)) c else c in
  mark_pending (ensureLinuxResources f c).

Definition SetRDTClass (rdtControl : bool) (class : string) : setter := set_class rdtControl (with_RdtClass (Some class)).
Definition SetBlockIOClass (blockIOControl : bool) (class : string) : setter :=
  set_class blockIOControl (with_BlockioClass (Some class)).

(** Mounts and scheduling attributes can only be set while the container is
    being created. *)
Definition InsertMount (m : NriMount) : setter := λ c,
  let '(c, req) := getPendingRequest c in
  match req with
  | PendingAdjustment a => mark_pending (with_request (Some (PendingAdjustment (adj_with_Mounts (app (adj_Mounts a) [m]) a))) c)
  | PendingUpdate _ => (c, false)
  end.

Definition setSchedulingOnAdjustment (set : LinuxScheduler → LinuxScheduler) : setter := λ c,
  let '(c, req) := getPendingRequest c in
  match req with
  | PendingAdjustment a =>
      let sch := set (default (MkLinuxScheduler 0 0 0 [] 0 0 0) (co_LinuxScheduler c)) in
      mark_pending (with_request (Some (PendingAdjustment (adj_with_Scheduler (Some sch) a))) (with_LinuxScheduler (Some sch) c))
  | PendingUpdate _ => (c, false)
  end.

Definition SetSchedulingPolicy (value : Z) : setter := setSchedulingOnAdjustment (with_Policy value).
Definition SetSchedulingNice (value : Z) : setter := setSchedulingOnAdjustment (with_Nice value).
Definition SetSchedulingPriority (value : Z) : setter := setSchedulingOnAdjustment (with_Priority value).
Definition SetSchedulingFlags (value : list Z) : setter := setSchedulingOnAdjustment (with_Flags value).
Definition SetSchedulingRuntime (value : Z) : setter := setSchedulingOnAdjustment (with_Runtime value).
Definition SetSchedulingDeadline (value : Z) : setter := setSchedulingOnAdjustment (with_Deadline value).
Definition SetSchedulingPeriod (value : Z) : setter := setSchedulingOnAdjustment (with_SchedPeriod value).

Definition setIOPriorityOnAdjustment (set : LinuxIOPriority → LinuxIOPriority) : setter := λ c,
  let '(c, req) := getPendingRequest c in
  match req with
  | PendingAdjustment a =>
      let iop := set (default (MkLinuxIOPriority 0 0) (co_LinuxIOPriority c)) in
      mark_pending
        (with_request (Some (PendingAdjustment (adj_with_IOPriority (Some iop) a))) (with_LinuxIOPriority (Some iop) c))
  | PendingUpdate _ => (c, false)
  end.

Definition SetSchedulingIOClass (value : Z) : setter := setIOPriorityOnAdjustment (with_IOClass value).
Definition SetSchedulingIOPriority (value : Z) : setter := setIOPriorityOnAdjustment (with_IOPriority value).

(** ** Getters *)

Definition GetCPUShares (c : CContainer) : Z := i64 (default 0 (cpu_Shares (GetCpu (ctr_resources (co_Ctr c))))).
Definition GetCPUQuota (c : CContainer) : Z := default 0 (cpu_Quota (GetCpu (ctr_resources (co_Ctr c)))).
Definition GetCPUPeriod (c : CContainer) : Z := i64 (default 0 (cpu_Period (GetCpu (ctr_resources (co_Ctr c))))).
Definition GetCpusetCpus (c : CContainer) : string := cpu_Cpus (GetCpu (ctr_resources (co_Ctr c))).
Definition GetCpusetMems (c : CContainer) : string := cpu_Mems (GetCpu (ctr_resources (co_Ctr c))).
Definition GetMemoryLimit (c : CContainer) : Z := default 0 (lm_Limit (GetMemory (ctr_resources (co_Ctr c)))).
Definition GetMemorySwap (c : CContainer) : Z := default 0 (lm_Swap (GetMemory (ctr_resources (co_Ctr c)))).
Definition GetRDTClass (c : CContainer) : string := default "" (ctr_resources (co_Ctr c) ≫= lr_RdtClass).
Definition GetBlockIOClass (c : CContainer) : string := default "" (ctr_resources (co_Ctr c) ≫= lr_BlockioClass).

(** The value of an environment variable, which is a name, an equals sign and
    the value; without a name there is none. *)
Definition c_equals : ascii := "="%char.

Fixpoint GetEnv (env : list string) (key : string) : option string :=
  match env with
  | [] => None
  | e :: env =>
      match cut c_equals e with
      | (k, Some v) => if bool_decide (k ≠ "" ∧ k = key) then Some v else GetEnv env key
      | (_, None) => GetEnv env key
      end
  end.

Definition GetState (c : CContainer) : ContainerState := nc_State (co_Ctr c).
Definition UpdateState (state : ContainerState) (c : CContainer) : CContainer := with_Ctr (with_State state (co_Ctr c)) c.

(** ** Tags *)

Definition GetTag (key : string) (c : CContainer) : option string := co_Tags c !! key.

Definition SetTag (key value : string) (c : CContainer) : CContainer * option string :=
  (with_Tags (<[key := value]> (co_Tags c)) c, co_Tags c !! key).

Definition DeleteTag (key : string) (c : CContainer) : CContainer * option string :=
  (with_Tags (delete key (co_Tags c)) c, co_Tags c !! key).
