(* ===== verification/CchStore.v ===== *)
(** * The cache (pkg/resmgr/cache/cache.go, pod.go)

    Inserting, deleting and refreshing pods and containers, containers with
    pending changes, and saving and loading the cache. *)

From S2P Require Import Prelude GoStrings Expr Kube BlnPin TaTypes TaPrefs CchTypes CchContainer.

Open Scope string_scope.
Open Scope Z_scope.

(** What the cache depends on: hints, the decoder of annotated resources, the
    estimates of memory requests, the clock, whether files can be written and
    whether a directory can be used. *)
Record CEnv := MkCEnv {
  ce_hints : HintEnv;
  ce_AnnotatedResources : string → option (gmap string Resources);
  ce_estimates : gmap Z Z;
  ce_now : positive → Z;
  ce_writable : bool;
  ce_mkdir : string → bool;
}.

Definition RDTClassKey := append "rdtclass." ResmgrKeyNamespace.
Definition BlockIOClassKey := append "blockioclass." ResmgrKeyNamespace.
Definition AnnotatedResourcesKey := "noderesource.dev/resources".
Definition CacheVersion := "1".

(** ** Containers in the heap *)

Definition upd_ctr (p : positive) (f : CContainer → CContainer) (cch : CCache) : CCache :=
  with_heap (alter f p (cc_heap cch)) cch.

(** A setter applied to a container: the cache too is told of the change. *)
Definition markPending (p : positive) (s : setter) (cch : CCache) : CCache :=
  match cc_heap cch !! p with
  | None => cch
  | Some c =>
      let '(c', marked) := s c in
      let cch := with_heap (<[p := c']> (cc_heap cch)) cch in
      if marked then with_cpending (cc_pending cch ∪ {[nc_Id (co_Ctr c)]}) cch else cch
  end.

Definition ClearPending (p : positive) (controller : string) (cch : CCache) : CCache :=
  match cc_heap cch !! p with
  | None => cch
  | Some c =>
      let c' := with_pending (co_pending c ∖ {[controller]}) c in
      let cch := with_heap (<[p := c']> (cc_heap cch)) cch in
      if bool_decide (co_pending c' = ∅) then with_cpending (cc_pending cch ∖ {[nc_Id (co_Ctr c)]}) cch else cch
  end.

Definition LookupPod (id : string) (cch : CCache) : option CPod := cc_Pods cch !! id.
Definition LookupContainer (id : string) (cch : CCache) : option positive := cc_Containers cch !! id.

(** ** Names *)

Definition cpod_PrettyName (p : CPod) : string :=
  append (if bool_decide (np_Namespace (cp_Pod p) = "") then "<unknown-namespace>/" else append (np_Namespace (cp_Pod p)) "/")
    (if bool_decide (np_Name (cp_Pod p) = "") then "<unknown-pod>" else np_Name (cp_Pod p)).

(** The name of a container that has none yet is made with its pod. *)
Definition cctr_PrettyName (pods : gmap string CPod) (c : CContainer) : string :=
  if bool_decide (co_prettyName c ≠ "") then co_prettyName c
  else
    append
      match pods !! nc_PodSandboxId (co_Ctr c) with
      | Some pod => cpod_PrettyName pod
      | None => append "<unknown-pod " (append (nc_PodSandboxId (co_Ctr c)) ">")
      end (append "/" (nc_Name (co_Ctr c))).

Section cache.
Context `{GoRuntime} (E : CEnv).

(** ** Saving and loading *)

(** What JSON has of a container: its exported fields. *)
Definition saved_container (c : CContainer) : CContainer :=
  MkCContainer (co_Ctr c) (co_Requirements c) (co_PodResources c) (co_ResourceUpdates c) None (co_LinuxScheduler c)
    (co_LinuxIOPriority c) (co_TopologyHints c) (co_Tags c) ∅ "" 0.

Definition saved_pod (p : CPod) : CPod := MkCPod (cp_Pod p) (cp_QOSClass p) (cp_PodResources p) 0.

Definition saved_containers (cch : CCache) : gmap string CContainer :=
  omap (λ p, saved_container <$> cc_heap cch !! p) (cc_Containers cch).

(** The snapshot shares the map of marshalled policy entries with the cache,
    which gets the entries marshalled for the snapshot. *)
Definition Snapshot_ (cch : CCache) : CCache * Snapshot :=
  let PolicyJSON := cc_policyData cch ∪ cc_PolicyJSON cch in
  (with_PolicyJSON PolicyJSON cch,
   MkSnapshot CacheVersion (saved_pod <$> cc_Pods cch) (saved_containers cch) (cc_PolicyName cch) PolicyJSON).

Definition Save (cch : CCache) : CCache :=
  if bool_decide (cc_saveBlock cch > 0) then cch
  else
    let '(cch, s) := Snapshot_ cch in
    if ce_writable E then with_file (Some s) cch else cch.

Definition BlockSave (cch : CCache) : CCache := with_saveBlock (cc_saveBlock cch + 1) cch.

Definition UnblockSave (cch : CCache) : CCache :=
  let cch := with_saveBlock (cc_saveBlock cch - 1) cch in
  if bool_decide (cc_saveBlock cch = 0) then Save cch
  else if bool_decide (cc_saveBlock cch < 0) then with_saveBlock 0 cch
  else cch.

(** The containers of a snapshot as new objects.  Their names are not saved:
    they are made with the pods of the snapshot. *)
Definition restore_containers (cs : list (string * CContainer)) (cch : CCache) : CCache :=
  fold_left (λ cch ic,
    let p := cc_next cch in
    let c := with_prettyName (cctr_PrettyName (cc_Pods cch) ic.2) ic.2 in
    with_next (Pos.succ p) (with_Containers (<[ic.1 := p]> (cc_Containers cch)) (with_heap (<[p := c]> (cc_heap cch)) cch)))
    cs cch.

Definition Restore (s : Snapshot) (cch : CCache) : CCache * res unit :=
  if bool_decide (sn_Version s ≠ CacheVersion) then (cch, Err ErrOther)
  else
    let cch := with_policyData ∅ (with_PolicyName (sn_PolicyName s) (with_PolicyJSON (sn_PolicyJSON s) cch)) in
    (restore_containers (map_range (sn_Containers s)) (with_Containers ∅ (with_Pods (sn_Pods s) cch)), Ok tt).

Definition Load (cch : CCache) : CCache * res unit :=
  match cc_file cch with None => (cch, Ok tt) | Some s => Restore s cch end.

(** ** Policy data *)

Definition SetPolicyEntry (key data : string) (cch : CCache) : CCache :=
  with_policyData (<[key := data]> (cc_policyData cch)) cch.

(** The entry, from the data or as it was loaded. *)
Definition GetPolicyEntry (key : string) (cch : CCache) : CCache * option string :=
  match cc_policyData cch !! key with
  | Some obj => (cch, Some obj)
  | None =>
      match cc_PolicyJSON cch !! key with
      | None => (cch, None)
      | Some entry => (with_policyData (<[key := entry]> (cc_policyData cch)) cch, Some entry)
      end
  end.

Definition SetActivePolicy (policy : string) (cch : CCache) : CCache := Save (with_PolicyName policy cch).

Definition ResetActivePolicy (cch : CCache) : CCache :=
  Save (with_PolicyJSON ∅ (with_policyData ∅ (with_PolicyName "" cch))).

(** ** Pods *)

Definition parseCgroupForQOSClass (dir : string) : string :=
  if Contains dir "besteffort" then "BestEffort"
  else if Contains dir "burstable" then "Burstable"
  else "Guaranteed".

Definition createPod (nriPod : NriPod) (podRes : option (list PodResContainer)) (now : Z) : CPod :=
  MkCPod nriPod (parseCgroupForQOSClass (np_CgroupParent nriPod)) podRes now.

Definition InsertPod (nriPod : NriPod) (podRes : option (list PodResContainer)) (cch : CCache) : CCache :=
  Save (with_Pods (<[np_Id nriPod := createPod nriPod podRes (ce_now E (cc_next cch))]> (cc_Pods cch)) cch).

Definition DeletePod (id : string) (cch : CCache) : CCache * option CPod :=
  match cc_Pods cch !! id with
  | None => (cch, None)
  | Some p => (Save (with_Pods (delete id (cc_Pods cch)) cch), Some p)
  end.

(** What kubelet tells about a container of a pod. *)
Definition GetContainer (podRes : option (list PodResContainer)) (name : string) : option PodResContainer :=
  match podRes with None => None | Some l => snd <$> list_find (λ c, prc_Name c = name) l end.

(** The containers of a pod. *)
Definition pod_containers (id : string) (cch : CCache) : list positive :=
  filter (λ p, (nc_PodSandboxId ∘ co_Ctr <$> cc_heap cch !! p) = Some id) (snd <$> map_range (cc_Containers cch)).

(** ** Containers *)

Definition GetAnnotatedResources (pod : CPod) (name : string) : option Resources :=
  match np_Annotations (cp_Pod pod) !! AnnotatedResourcesKey with
  | None => None
  | Some data => match ce_AnnotatedResources E data with None => None | Some containers => containers !! name end
  end.

(** The container object before classes are set; it knows its pod. *)
Definition new_container (pod : CPod) (ctr : NriContainer) (now : Z) : CContainer :=
  let annotation key := effective (np_Annotations (cp_Pod pod)) key (nc_Name ctr) in
  let podRes := GetContainer (cp_PodResources pod) (nc_Name ctr) in
  let Requirements :=
    match GetAnnotatedResources pod (nc_Name ctr) with
    | Some annotated => annotated
    | None => estimateResourceRequirements (ce_estimates E) (ctr_resources ctr) (cp_QOSClass pod) (ctr_oomAdj ctr)
    end in
  MkCContainer ctr Requirements podRes None None None None (generateTopologyHints (ce_hints E) annotation podRes ctr) ∅ ∅
    (append (cpod_PrettyName pod) (append "/" (nc_Name ctr))) now.

Definition setDefaultClasses (pod : CPod) (p : positive) (name : string) (cch : CCache) : CCache :=
  let annotation key := effective (np_Annotations (cp_Pod pod)) key name in
  let cch := match annotation RDTClassKey with
             | Some class => markPending p (SetRDTClass (cc_rdtControl cch) class) cch
             | None => cch
             end in
  match annotation BlockIOClassKey with
  | Some class => markPending p (SetBlockIOClass (cc_blockIOControl cch) class) cch
  | None => cch
  end.

Definition createContainer (ctr : NriContainer) (state : option ContainerState) (cch : CCache) : CCache * res positive :=
  match cc_Pods cch !! nc_PodSandboxId ctr with
  | None => (cch, Err ErrOther)
  | Some pod =>
      let ctr := match state with Some s => with_State s ctr | None => ctr end in
      let p := cc_next cch in
      let c := new_container pod ctr (ce_now E p) in
      let cch := with_next (Pos.succ p) (with_heap (<[p := c]> (cc_heap cch)) cch) in
      (setDefaultClasses pod p (nc_Name ctr) cch, Ok p)
  end.

Definition createContainerDirectory (id : string) (cch : CCache) : CCache :=
  if bool_decide (is_Some (cc_Containers cch !! id)) && ce_mkdir E id then with_dirs (cc_dirs cch ∪ {[id]}) cch else cch.

Definition removeContainerDirectory (id : string) (cch : CCache) : CCache :=
  if bool_decide (is_Some (cc_Containers cch !! id)) then with_dirs (cc_dirs cch ∖ {[id]}) cch else cch.

(** If the container cannot be created, the error message is made with the ID
    of the container that there is not: a panic. *)
Definition InsertContainer (ctr : NriContainer) (state : option ContainerState) (cch : CCache) : CCache * res positive :=
  match createContainer ctr state cch with
  | (cch, Err _) => (cch, Err Panic)
  | (cch, Ok p) =>
      let cch := with_Containers (<[nc_Id ctr := p]> (cc_Containers cch)) cch in
      (Save (createContainerDirectory (nc_Id ctr) cch), Ok p)
  end.

Definition DeleteContainer (id : string) (cch : CCache) : CCache * option positive :=
  match cc_Containers cch !! id with
  | None => (cch, None)
  | Some p =>
      let cch := removeContainerDirectory id cch in
      (Save (with_Containers (delete id (cc_Containers cch)) cch), Some p)
  end.

(** Whether a path is in the cgroup of a container, as far as its pod and ID
    tell. *)
Definition in_cgroup (path : string) (cch : CCache) (p : positive) : bool :=
  match cc_heap cch !! p with
  | None => false
  | Some c =>
      match cc_Pods cch !! nc_PodSandboxId (co_Ctr c) with
      | None => false
      | Some pod =>
          let parent := np_CgroupParent (cp_Pod pod) in
          bool_decide (parent ≠ "") && HasPrefix path (append parent "/") && Contains path (nc_Id (co_Ctr c))
      end
  end.

Definition LookupContainerByCgroup (path : string) (cch : CCache) : option positive :=
  find (in_cgroup path cch) (snd <$> map_range (cc_Containers cch)).

(** ** Refreshing *)

(** A container that is gone: deleted from the cache and marked as such. *)
Definition purge (p : positive) (cch : CCache) : CCache :=
  match cc_heap cch !! p with
  | None => cch
  | Some c => upd_ctr p (UpdateState ContainerStateStale) (DeleteContainer (nc_Id (co_Ctr c)) cch).1
  end.

Definition purge_if (stale : CContainer → bool) (cch : CCache) : CCache * list positive :=
  fold_left (λ st p,
    match cc_heap st.1 !! p with
    | Some c => if stale c then (purge p st.1, app st.2 [p]) else st
    | None => st
    end) (snd <$> map_range (cc_Containers cch)) (cch, []).

Definition RefreshPods (pods : list NriPod) (podRes : option (string → string → option (list PodResContainer))) (cch : CCache)
    : CCache * list positive :=
  let valid := np_Id <$> pods in
  let cch := fold_left (λ cch item,
               if bool_decide (is_Some (cc_Pods cch !! np_Id item)) then cch else InsertPod item None cch) pods cch in
  let cch := fold_left (λ cch ip, if bool_decide (ip.1 ∈ valid) then cch else (DeletePod ip.1 cch).1)
               (map_range (cc_Pods cch)) cch in
  let '(cch, purged) := purge_if (λ c, bool_decide (nc_PodSandboxId (co_Ctr c) ∉ valid)) cch in
  (match podRes with
   | None => cch
   | Some get =>
       with_Pods ((λ p, with_PodResources (get (np_Namespace (cp_Pod p)) (np_Name (cp_Pod p))) p) <$> cc_Pods cch) cch
   end, purged).

(** Containers not known yet; a container of an unknown pod is a panic. *)
Fixpoint insert_discovered (containers : list NriContainer) (cch : CCache) : CCache * res unit :=
  match containers with
  | [] => (cch, Ok tt)
  | c :: containers =>
      if bool_decide (is_Some (cc_Containers cch !! nc_Id c)) then insert_discovered containers cch
      else match InsertContainer c None cch with
           | (cch, Ok _) => insert_discovered containers cch
           | (cch, Err e) => (cch, Err e)
           end
  end.

Definition refetch_pod_resources (p : positive) (cch : CCache) : CCache :=
  upd_ctr p (λ c,
    match cc_Pods cch !! nc_PodSandboxId (co_Ctr c) with
    | Some pod => with_ContainerResources (GetContainer (cp_PodResources pod) (nc_Name (co_Ctr c))) c
    | None => c
    end) cch.

Definition RefreshContainers (containers : list NriContainer) (cch : CCache) : CCache * res (list positive) :=
  let valid := nc_Id <$> containers in
  match insert_discovered containers cch with
  | (cch, Err e) => (cch, Err e)
  | (cch, Ok _) =>
      let all := snd <$> map_range (cc_Containers cch) in
      let '(cch, purged) := purge_if (λ c, bool_decide (nc_Id (co_Ctr c) ∉ valid)) cch in
      (fold_left (λ cch p, refetch_pod_resources p cch) all cch, Ok purged)
  end.

(** ** Lists of containers *)

Definition GetPendingContainers (cch : CCache) : list positive :=
  omap (λ id, LookupContainer id cch) (fst <$> map_range (gset_to_gmap tt (cc_pending cch))).

Definition GetContainers (cch : CCache) : list positive := snd <$> map_range (cc_Containers cch).
End cache.
