(* ===== verification/NriPlugin.v ===== *)
(** * The NRI plugin (pkg/resmgr/nri.go)

    The requests of the container runtime: what they change in the cache, what
    they ask the policy for, and which changes of containers are returned. *)

From S2P Require Import Prelude GoStrings Expr Kube BlnPin TaTypes TaPrefs CchTypes CchContainer CchStore.

Open Scope string_scope.
Open Scope Z_scope.

(** What the resource manager asks a policy for ([policy.Backend]).  A policy
    has a state of its own, and changes containers in the cache. *)
Class Backend (S : Type) := {
  be_AllocateResources : positive → CCache → S → CCache * S * res unit;
  be_ReleaseResources : positive → CCache → S → CCache * S * res unit;
  be_UpdateResources : positive → CCache → S → CCache * S * res unit;
  be_Sync : list positive → list positive → CCache → S → CCache * S * res unit;
  be_ContainerStarted : positive → CCache → S → CCache * S * res bool;
  be_ExportResourceData : positive → CCache → S → gmap string string;
}.

(** Whether classes are controlled, and whether the QoS class of the pod is the
    class of containers that have none. *)
Record ControlCfg := MkControlCfg {
  cf_rdtEnable : bool;
  cf_rdtUsePodQoS : bool;
  cf_blkioEnable : bool;
  cf_blkioUsePodQoS : bool;
}.

(** [n_hooks] tells which hooks of controllers have been run for which
    containers, [n_exported] what has been exported to containers. *)
Record nriPlugin (S : Type) := MkNriPlugin {
  n_byname : gmap string positive;
  n_cache : CCache;
  n_policy : S;
  n_hooks : list (string * string);
  n_exported : gmap string (list (string * string));
}.
Arguments MkNriPlugin {S}.
Arguments n_byname {S}.
Arguments n_cache {S}.
Arguments n_policy {S}.
Arguments n_hooks {S}.
Arguments n_exported {S}.

Section nri.
Context `{GoRuntime} {S : Type} `{!Backend S} (E : CEnv) (cfg : ControlCfg).

Definition with_byname (v : gmap string positive) (m : nriPlugin S) : nriPlugin S :=
  MkNriPlugin v (n_cache m) (n_policy m) (n_hooks m) (n_exported m).

Definition with_cache (v : CCache) (m : nriPlugin S) : nriPlugin S :=
  MkNriPlugin (n_byname m) v (n_policy m) (n_hooks m) (n_exported m).

Definition with_hooks (v : list (string * string)) (m : nriPlugin S) : nriPlugin S :=
  MkNriPlugin (n_byname m) (n_cache m) (n_policy m) v (n_exported m).

Definition with_exported (v : gmap string (list (string * string))) (m : nriPlugin S) : nriPlugin S :=
  MkNriPlugin (n_byname m) (n_cache m) (n_policy m) (n_hooks m) v.

Definition on_cache (f : CCache → CCache) (m : nriPlugin S) : nriPlugin S := with_cache (f (n_cache m)) m.

(** Asking the policy. *)
Definition ask {A} (f : CCache → S → CCache * S * res A) (m : nriPlugin S) : nriPlugin S * res A :=
  let '(cch, s, r) := f (n_cache m) (n_policy m) in
  (MkNriPlugin (n_byname m) cch s (n_hooks m) (n_exported m), r).

Definition ctr_at (m : nriPlugin S) (p : positive) : option CContainer := cc_heap (n_cache m) !! p.
Definition id_of (m : nriPlugin S) (p : positive) : string := default "" (nc_Id ∘ co_Ctr <$> ctr_at m p).
Definition name_of (m : nriPlugin S) (p : positive) : string := default "" (co_prettyName <$> ctr_at m p).
Definition state_of (m : nriPlugin S) (p : positive) : ContainerState :=
  default ContainerStateUnknown (GetState <$> ctr_at m p).
Definition created_at (m : nriPlugin S) (p : positive) : Z := default 0 (nc_CreatedAt ∘ co_Ctr <$> ctr_at m p).

Definition set_state (s : ContainerState) (p : positive) : nriPlugin S → nriPlugin S := on_cache (upd_ctr p (UpdateState s)).

(** ** Names of containers *)

(** The container that is not, or no longer, found by its name. *)
Definition mapNameToContainer (ctr : positive) (m : nriPlugin S) : nriPlugin S * option positive :=
  let name := name_of m ctr in
  let remapped := with_byname (<[name := ctr]> (n_byname m)) m in
  match n_byname m !! name with
  | None => (remapped, None)
  | Some old =>
      if bool_decide (state_of m ctr = ContainerStateCreating) then (remapped, Some old)
      else if bool_decide (created_at m ctr > created_at m old) then (remapped, Some old)
      else if bool_decide (created_at m ctr < created_at m old) then (m, Some ctr)
      else if bool_decide (state_of m ctr = ContainerStateCreated ∧ state_of m old = ContainerStateRunning) then
        (remapped, Some old)
      else if bool_decide (state_of m ctr = ContainerStateRunning ∧ state_of m old = ContainerStateCreated) then (m, Some ctr)
      else (remapped, Some old)
  end.

Fixpoint sync_names (containers : list positive) (m : nriPlugin S) (unmapped : gmap string positive)
    : nriPlugin S * gmap string positive :=
  match containers with
  | [] => (m, unmapped)
  | ctr :: containers =>
      let '(m, old) := mapNameToContainer ctr m in
      sync_names containers m match old with Some old => <[id_of m old := old]> unmapped | None => unmapped end
  end.

Definition syncNamesToContainers (containers : list positive) (m : nriPlugin S) : nriPlugin S * gmap string positive :=
  sync_names containers m ∅.

Definition unmapName (name : string) (m : nriPlugin S) : nriPlugin S * option positive :=
  match n_byname m !! name with
  | Some old => (with_byname (delete name (n_byname m)) m, Some old)
  | None => (m, None)
  end.

Definition unmapContainer (ctr : positive) (m : nriPlugin S) : nriPlugin S :=
  if bool_decide (n_byname m !! name_of m ctr = Some ctr) then with_byname (delete (name_of m ctr) (n_byname m)) m else m.

(** ** Hooks *)

(** Running a hook of the controllers, whose errors are only logged. *)
Definition run_hook (hook : string) (p : positive) (m : nriPlugin S) : nriPlugin S :=
  with_hooks (app (n_hooks m) [(hook, default "" (nc_Name ∘ co_Ctr <$> ctr_at m p))]) m.

Definition runPostAllocateHooks (created : positive) (m : nriPlugin S) : nriPlugin S :=
  fold_left (λ m p,
    if bool_decide (p = created) then run_hook "PreCreate" p m
    else if bool_decide (state_of m p = ContainerStateRunning ∨ state_of m p = ContainerStateCreated) then
      run_hook "PostUpdate" p m
    else m) (GetPendingContainers (n_cache m)) m.

Definition runPostReleaseHooks (released : list positive) (m : nriPlugin S) : nriPlugin S :=
  let m := fold_left (λ m p, run_hook "PostStop" p m) released m in
  fold_left (λ m p,
    if bool_decide (state_of m p = ContainerStateStale ∨ state_of m p = ContainerStateExited) then run_hook "PostStop" p m
    else if bool_decide (state_of m p = ContainerStateRunning ∨ state_of m p = ContainerStateCreated) then
      run_hook "PostUpdate" p m
    else m) (GetPendingContainers (n_cache m)) m.

(** ** Exported data *)

(** The keys are sorted; the file is in the directory of the container. *)
Definition ExportResourceData (p : positive) (m : nriPlugin S) : nriPlugin S :=
  let data := be_ExportResourceData p (n_cache m) (n_policy m) in
  let keys := sort_func (λ x y, match String.compare x y with Lt => -1 | Eq => 0 | Gt => 1 end) (fst <$> map_range data) in
  let lines := (λ key, (key, default "" (data !! key))) <$> keys in
  if bool_decide (is_Some (cc_Containers (n_cache m) !! id_of m p)) && ce_writable E then
    with_exported (<[id_of m p := lines]> (n_exported m)) m
  else m.

(** ** Pending changes *)

(** The default classes a request gets. *)
Definition default_rdtClass (c : CContainer) (qos : string) : string :=
  if cf_rdtEnable cfg && cf_rdtUsePodQoS cfg && bool_decide (GetRDTClass c = "") then qos else "".

Definition default_blockIOClass (c : CContainer) (qos : string) : string :=
  if cf_blkioEnable cfg && cf_blkioUsePodQoS cfg && bool_decide (GetBlockIOClass c = "") then qos else "".

Definition setDefaultClasses (c : CContainer) (qos : string) (r : LinuxResources) : LinuxResources :=
  let rdtClass := default_rdtClass c qos in
  let blockIOClass := default_blockIOClass c qos in
  let r := if bool_decide (rdtClass ≠ "") then with_RdtClass (Some rdtClass) r else r in
  if bool_decide (blockIOClass ≠ "") then with_BlockioClass (Some blockIOClass) r else r.

Definition qos_of (cch : CCache) (c : CContainer) : string :=
  match cc_Pods cch !! nc_PodSandboxId (co_Ctr c) with Some pod => cp_QOSClass pod | None => "" end.

(** The update of a container, which is also the one that stays pending. *)
Definition peek_one (p : positive) (cch : CCache) : CCache * list ContainerUpdate :=
  match cc_heap cch !! p with
  | None => (cch, [])
  | Some c =>
      match PeekPendingUpdate c with
      | (c, None) => (with_heap (<[p := c]> (cc_heap cch)) cch, [])
      | (c, Some u) =>
          let u := upd_with_Resources (setDefaultClasses c (qos_of cch c) (upd_Resources u)) u in
          (with_heap (<[p := with_request (Some (PendingUpdate u)) c]> (cc_heap cch)) cch, [u])
      end
  end.

Fixpoint peek_all (ps : list positive) (cch : CCache) : CCache * list ContainerUpdate :=
  match ps with
  | [] => (cch, [])
  | p :: ps =>
      let '(cch, u) := peek_one p cch in
      let '(cch, us) := peek_all ps cch in
      (cch, app u us)
  end.

Definition peekPendingUpdates (skip : option string) (m : nriPlugin S) : nriPlugin S * list ContainerUpdate :=
  let ps := filter (λ p, Some (id_of m p) ≠ skip) (GetPendingContainers (n_cache m)) in
  let '(cch, us) := peek_all ps (n_cache m) in
  (with_cache cch m, us).

(** All pending changes of a container. *)
Definition clear_controllers (p : positive) (cch : CCache) : CCache :=
  match cc_heap cch !! p with
  | None => cch
  | Some c => fold_left (λ cch ctrl, ClearPending p ctrl cch) (elements (co_pending c)) cch
  end.

Definition clearPendingUpdates (delivered failed : list ContainerUpdate) (m : nriPlugin S) : nriPlugin S :=
  fold_left (λ m u,
    let id := upd_ContainerId u in
    if bool_decide (id ∈ upd_ContainerId <$> failed) then m
    else match LookupContainer id (n_cache m) with
         | None => m
         | Some p =>
             ExportResourceData p (on_cache (λ cch, clear_controllers p (upd_ctr p ClearPendingUpdate cch)) m)
         end) delivered m.

Definition getPendingUpdates (skip : option string) (m : nriPlugin S) : nriPlugin S * list ContainerUpdate :=
  let '(m, updates) := peekPendingUpdates skip m in
  (clearPendingUpdates updates [] m, updates).

Definition getPendingAdjustment (id : string) (m : nriPlugin S) : nriPlugin S * option ContainerAdjustment :=
  match LookupContainer id (n_cache m) with
  | None => (m, None)
  | Some p =>
      match ctr_at m p with
      | None => (m, None)
      | Some c =>
          let '(c', adjust) := GetPendingAdjustment c in
          let adjust :=
            (λ a, adj_with_Resources (setDefaultClasses c' (qos_of (n_cache m) c') (adj_Resources a)) a) <$> adjust in
          (on_cache (λ cch, clear_controllers p (with_heap (<[p := c']> (cc_heap cch)) cch)) m, adjust)
      end
  end.

(** Updates pushed to the runtime: [sent] are the updates it could not apply,
    or that they could not be sent. *)
Definition updateContainers (sent : list ContainerUpdate → res (list ContainerUpdate)) (m : nriPlugin S)
    : nriPlugin S * res unit :=
  let '(m, updates) := peekPendingUpdates None m in
  match sent updates with
  | Err e => (m, Err e)
  | Ok failed => (clearPendingUpdates updates failed m, Ok tt)
  end.

(** ** Synchronizing with the runtime *)

Definition sync_container (m : nriPlugin S) (st : list positive * list positive) (p : positive) : list positive * list positive :=
  match state_of m p with
  | ContainerStateRunning | ContainerStateCreated => (app st.1 [p], app st.2 [p])
  | ContainerStateExited => (st.1, app st.2 [p])
  | _ => st
  end.

(** Containers to allocate resources for and to release. *)
Definition syncWithNRI (pods : list NriPod) (containers : list NriContainer)
    (podRes : option (string → string → option (list PodResContainer))) (m : nriPlugin S)
    : nriPlugin S * res (list positive * list positive) :=
  let '(cch, deleted) := RefreshPods E pods podRes (BlockSave (n_cache m)) in
  match RefreshContainers E containers cch with
  | (cch, Err e) => (with_cache (UnblockSave E cch) m, Err e)
  | (cch, Ok deleted') =>
      let m := with_cache cch m in
      let lists := fold_left (sync_container m) (GetContainers cch) ([], app deleted deleted') in
      (on_cache (UnblockSave E) m, Ok lists)
  end.

Definition Synchronize (pods : list NriPod) (containers : list NriContainer)
    (podRes : option (string → string → option (list PodResContainer))) (m : nriPlugin S)
    : nriPlugin S * res (list ContainerUpdate) :=
  match syncWithNRI pods containers podRes m with
  | (m, Err e) => (m, Err e)
  | (m, Ok (allocated, released)) =>
      let '(m, unmapped) := syncNamesToContainers allocated m in
      let m := fold_left (λ m old, set_state ContainerStateExited old.2 m) (map_range unmapped) m in
      let allocate := filter (λ p, unmapped !! id_of m p = None) allocated in
      match ask (be_Sync allocate released) m with
      | (m, Err e) => (m, Err e)
      | (m, Ok _) => let '(m, updates) := getPendingUpdates None m in (m, Ok updates)
      end
  end.

(** ** Pods *)

Definition RunPodSandbox (pod : NriPod) (podRes : option (list PodResContainer)) (m : nriPlugin S) : nriPlugin S :=
  on_cache (InsertPod E pod podRes) m.

Definition StopPodSandbox (id : string) (m : nriPlugin S) : nriPlugin S :=
  match LookupPod id (n_cache m) with
  | None => m
  | Some _ => runPostReleaseHooks (pod_containers id (n_cache m)) m
  end.

Definition RemovePodSandbox (id : string) (m : nriPlugin S) : nriPlugin S :=
  match LookupPod id (n_cache m) with
  | None => m
  | Some _ => on_cache (λ cch, (DeletePod E id cch).1) (runPostReleaseHooks (pod_containers id (n_cache m)) m)
  end.

(** ** Containers *)

Definition resource_policy_mount (id : string) : NriMount :=
  MkNriMount "/.nri-resource-policy" (append "containers/" id) "bind" ["bind"; "ro"; "rslave"].

(** The stale instance of a container, which the new one replaces. *)
Definition release_stale (name : string) (m : nriPlugin S) : nriPlugin S :=
  let '(m, old) := unmapName name m in
  match old with
  | Some old => set_state ContainerStateExited old (ask (be_ReleaseResources old) m).1
  | None => m
  end.

Definition create_container (container : NriContainer) (m : nriPlugin S)
    : nriPlugin S * res (option ContainerAdjustment * list ContainerUpdate) :=
  match InsertContainer E container (Some ContainerStateCreating) (n_cache m) with
  | (cch, Err e) => (with_cache cch m, Err e)
  | (cch, Ok c) =>
      let m := with_cache cch m in
      let m := release_stale (name_of m c) m in
      match ask (be_AllocateResources c) m with
      | (m, Err e) => (set_state ContainerStateStale c m, Err e)
      | (m, Ok _) =>
          let m := on_cache (markPending c (InsertMount (resource_policy_mount (nc_Id container)))) m in
          let m := set_state ContainerStateCreated c m in
          let m := runPostAllocateHooks c m in
          let m := ExportResourceData c m in
          let '(m, adjust) := getPendingAdjustment (nc_Id container) m in
          let '(m, updates) := getPendingUpdates (Some (nc_Id container)) m in
          ((mapNameToContainer c m).1, Ok (adjust, updates))
      end
  end.

Definition CreateContainer (container : NriContainer) (m : nriPlugin S)
    : nriPlugin S * res (option ContainerAdjustment * list ContainerUpdate) :=
  let '(m, r) := create_container container (on_cache BlockSave m) in
  (on_cache (UnblockSave E) m, r).

Definition StartContainer (id : string) (m : nriPlugin S) : nriPlugin S :=
  match LookupContainer id (n_cache m) with
  | None => m
  | Some c =>
      let m := set_state ContainerStateRunning c m in
      run_hook "PostStart" c (ask (be_ContainerStarted c) m).1
  end.

(** The values a container has are set again for the runtime. *)
Definition same_resources (p : positive) (cch : CCache) : CCache :=
  let set {A} `{EqDecision A} (get : CContainer → A) (zero : A) (s : A → setter) (cch : CCache) : CCache :=
    match cc_heap cch !! p with
    | Some c => if bool_decide (get c ≠ zero) then markPending p (s (get c)) cch else cch
    | None => cch
    end in
  set GetMemorySwap 0 SetMemorySwap
    (set GetMemoryLimit 0 SetMemoryLimit
      (set GetCpusetMems "" SetCpusetMems
        (set GetCpusetCpus "" SetCpusetCpus
          (set GetCPUPeriod 0 SetCPUPeriod
            (set GetCPUQuota 0 SetCPUQuota (set GetCPUShares 0 SetCPUShares cch)))))).

Definition UpdateContainer (id : string) (res_ : option LinuxResources) (m : nriPlugin S)
    : nriPlugin S * res (list ContainerUpdate) :=
  match LookupContainer id (n_cache m) with
  | None => (m, Ok [])
  | Some p =>
      match ctr_at m p with
      | None => (m, Ok [])
      | Some c =>
          match SetResourceUpdates (ce_estimates E) (qos_of (n_cache m) c) res_ c with
          | Err e => (m, Err e)
          | Ok (c, realUpdates) =>
              let m := on_cache (λ cch, with_heap (<[p := c]> (cc_heap cch)) cch) m in
              let '(m, r) := if realUpdates then ask (be_UpdateResources p) m else (on_cache (same_resources p) m, Ok tt) in
              match r with
              | Err e => (m, Err e)
              | Ok _ => let '(m, updates) := getPendingUpdates None m in (m, Ok updates)
              end
          end
      end
  end.

Definition StopContainer (id : string) (m : nriPlugin S) : nriPlugin S * res (list ContainerUpdate) :=
  match LookupContainer id (n_cache m) with
  | None => (m, Ok [])
  | Some c =>
      let m := unmapContainer c m in
      match ask (be_ReleaseResources c) m with
      | (m, Err e) => (m, Err e)
      | (m, Ok _) =>
          let m := set_state ContainerStateExited c m in
          let '(m, updates) := getPendingUpdates (Some id) m in
          (m, Ok updates)
      end
  end.

Definition RemoveContainer (id : string) (m : nriPlugin S) : nriPlugin S :=
  on_cache (λ cch, (DeleteContainer E id cch).1) m.
End nri.
