(* ===== verification/NriFacts.v ===== *)
(** * What the NRI plugin leaves alone

    Pending changes, hooks, exported data and saving change nothing of which
    containers there are, what they are called and which state they are in. *)

From S2P Require Import Prelude GoStrings Expr Kube BlnPin TaTypes TaPrefs CchTypes CchContainer CchStore NriPlugin.

Open Scope string_scope.
Open Scope Z_scope.

(** ** The identity of a container *)

(** The CPU a container asks for, an update of it included. *)
Definition requested (c : CContainer) : Z :=
  default 0 (rs_requestCPU (default (co_Requirements c) (co_ResourceUpdates c))).

Record Ident := MkIdent {
  i_id : string;
  i_pod : string;
  i_state : ContainerState;
  i_created : Z;
  i_pretty : string;
  i_requested : Z;
}.

Definition ident (c : CContainer) : Ident :=
  MkIdent (nc_Id (co_Ctr c)) (nc_PodSandboxId (co_Ctr c)) (nc_State (co_Ctr c)) (nc_CreatedAt (co_Ctr c)) (co_prettyName c)
    (requested c).

Definition known (cch : CCache) (p : positive) : option Ident := ident <$> cc_heap cch !! p.

(** ** Caches that have the same containers *)

Record cache_frame (cch cch' : CCache) : Prop := {
  cf_Containers : cc_Containers cch' = cc_Containers cch;
  cf_Pods : cc_Pods cch' = cc_Pods cch;
  cf_next : cc_next cch' = cc_next cch;
  cf_known : ∀ p, known cch' p = known cch p;
}.

#[export] Instance cache_frame_preorder : PreOrder cache_frame.
Proof.
  split; [by intros cch; split|]. intros x y z [H1 H2 H3 H4] [H5 H6 H7 H8]. split; [congruence..|].
  intros p. by rewrite H8.
Qed.

(** The CPUs a container is pinned to, by what its resources say. *)
Definition cpus_at (cch : CCache) (p : positive) : option string := GetCpusetCpus <$> cc_heap cch !! p.

(** The same of the container in the cache that has an ID. *)
Definition cpusets (cch : CCache) (id : string) : option string := cc_Containers cch !! id ≫= cpus_at cch.

(** Containers are in the cache by their ID. *)
Definition ids_ok (cch : CCache) : Prop := ∀ id p, cc_Containers cch !! id = Some p → ∃ i, known cch p = Some i ∧ i_id i = id.

(** Nor are containers pinned to other CPUs. *)
Record cache_still (cch cch' : CCache) : Prop := {
  cs_frame : cache_frame cch cch';
  cs_cpus : ∀ p, cpus_at cch' p = cpus_at cch p;
}.

#[export] Instance cache_still_preorder : PreOrder cache_still.
Proof.
  split; [by intros cch; split|]. intros x y z [H1 H2] [H3 H4]. split; [by etrans|]. intros p. by rewrite H4.
Qed.

Lemma cpusets_at cch cch' id : cc_Containers cch' = cc_Containers cch → (∀ p, cpus_at cch' p = cpus_at cch p) →
  cpusets cch' id = cpusets cch id.
Proof. intros Hc Hp. unfold cpusets. rewrite Hc. by destruct (cc_Containers cch !! id); cbn. Qed.

Lemma still_cpusets cch cch' id : cache_still cch cch' → cpusets cch' id = cpusets cch id.
Proof. intros [[Hc _ _ _] Hp]. by apply cpusets_at. Qed.

Create HintDb nri.

(** A change of one container that keeps its identity. *)
Lemma heap_frame p c c' cch : cc_heap cch !! p = Some c → ident c' = ident c →
  cache_frame cch (with_heap (<[p := c']> (cc_heap cch)) cch).
Proof.
  intros Hc Hi. split; [done..|]. intros q. unfold known. cbn. destruct (decide (p = q)) as [->|Hne].
  - rewrite lookup_insert_eq, Hc. cbn. by rewrite Hi.
  - by rewrite lookup_insert_ne.
Qed.

Lemma heap_still p c c' cch : cc_heap cch !! p = Some c → ident c' = ident c → GetCpusetCpus c' = GetCpusetCpus c →
  cache_still cch (with_heap (<[p := c']> (cc_heap cch)) cch).
Proof.
  intros Hc Hi Hcpus. split; [by eapply heap_frame|]. intros q. unfold cpus_at. cbn. destruct (decide (p = q)) as [->|Hne].
  - rewrite lookup_insert_eq, Hc. cbn. by rewrite Hcpus.
  - by rewrite lookup_insert_ne.
Qed.

Lemma upd_ctr_still p f cch : (∀ c, ident (f c) = ident c) → (∀ c, GetCpusetCpus (f c) = GetCpusetCpus c) →
  cache_still cch (upd_ctr p f cch).
Proof.
  intros Hf Hc. unfold upd_ctr. split; [split; [done..|]|]; intros q; unfold known, cpus_at; cbn;
    (destruct (decide (p = q)) as [->|Hne]; [rewrite lookup_alter_eq|by rewrite lookup_alter_ne]);
    (destruct (cc_heap cch !! q) as [c|]; [cbn; by rewrite ?Hf, ?Hc|done]).
Qed.

Lemma same_still cch cch' : cc_heap cch' = cc_heap cch → cc_Containers cch' = cc_Containers cch → cc_Pods cch' = cc_Pods cch →
  cc_next cch' = cc_next cch → cache_still cch cch'.
Proof. intros Hh Hc Hp Hn. unfold known, cpus_at. split; [split; [done..|]|]; intros p; unfold known, cpus_at; by rewrite Hh. Qed.

Lemma pending_still v cch : cache_still cch (with_cpending v cch).
Proof. by apply same_still. Qed.

Lemma Save_still E cch : cache_still cch (Save E cch).
Proof. unfold Save. case_bool_decide; [done|]. destruct (ce_writable E); by apply same_still. Qed.

Lemma BlockSave_still cch : cache_still cch (BlockSave cch).
Proof. by apply same_still. Qed.

Lemma UnblockSave_still E cch : cache_still cch (UnblockSave E cch).
Proof.
  unfold UnblockSave. case_bool_decide; [|case_bool_decide; by apply same_still].
  etrans; [|apply Save_still]. by apply same_still.
Qed.

#[export] Hint Resolve pending_still Save_still BlockSave_still UnblockSave_still : nri.

(** ** Setters *)

Definition setter_ok (s : setter) : Prop := ∀ c, ident (s c).1 = ident c.

Lemma pending_ident c : ident (getPendingRequest c).1 = ident c.
Proof. unfold getPendingRequest. by destruct (co_request c). Qed.

Lemma ensure_ident f c : ident (ensureLinuxResources f c) = ident c.
Proof. done. Qed.

Lemma set_resource_ok f : setter_ok (set_resource f).
Proof.
  intros c. unfold set_resource. pose proof (pending_ident c) as Hi. destruct (getPendingRequest c) as [c' req]. exact Hi.
Qed.

(** A setter that is not about the CPUs a container is pinned to. *)
Definition setter_still (s : setter) : Prop := ∀ c, ident (s c).1 = ident c ∧ GetCpusetCpus (s c).1 = GetCpusetCpus c.

Lemma pending_cpus c : GetCpusetCpus (getPendingRequest c).1 = GetCpusetCpus c.
Proof. unfold getPendingRequest. by destruct (co_request c). Qed.

Lemma pending_ctr c : co_Ctr (getPendingRequest c).1 = co_Ctr c.
Proof. unfold getPendingRequest. by destruct (co_request c). Qed.

Lemma ensure_cpus f c :
  GetCpusetCpus (ensureLinuxResources f c) = cpu_Cpus (GetCpu (Some (f (default no_resources (ctr_resources (co_Ctr c)))))).
Proof. unfold ensureLinuxResources, GetCpusetCpus, ctr_resources. cbn. by destruct (nc_Linux (co_Ctr c)) as [l|]. Qed.

Lemma set_resource_cpus f c :
  GetCpusetCpus (set_resource f c).1 = cpu_Cpus (GetCpu (Some (f (default no_resources (ctr_resources (co_Ctr c)))))).
Proof.
  unfold set_resource. pose proof (pending_ctr c) as Hc. destruct (getPendingRequest c) as [c' req]. cbn [fst] in Hc.
  rewrite <- Hc. exact (ensure_cpus f (mark_pending (with_request (Some (on_request f req)) c')).1).
Qed.

Lemma own_cpus c : cpu_Cpus (GetCpu (Some (default no_resources (ctr_resources (co_Ctr c))))) = GetCpusetCpus c.
Proof. unfold GetCpusetCpus. by destruct (ctr_resources (co_Ctr c)). Qed.

Lemma set_class_still control f : (∀ r, lr_Cpu (f r) = lr_Cpu r) → setter_still (set_class control f).
Proof.
  intros Hf c. unfold set_class. pose proof (pending_ident c) as Hi. pose proof (pending_cpus c) as Hc.
  destruct (getPendingRequest c) as [c' req]. cbn [fst] in Hi, Hc.
  set (c1 := if control then _ else c'). assert (co_Ctr c1 = co_Ctr c' ∧ ident c1 = ident c') as [H1 H2] by (by destruct control).
  split; [by rewrite <- Hi, <- H2|]. etrans; [exact (ensure_cpus f c1)|]. rewrite <- Hc, <- own_cpus, H1. unfold GetCpu. cbn. by rewrite Hf.
Qed.

Lemma InsertMount_still mt : setter_still (InsertMount mt).
Proof.
  intros c. unfold InsertMount. pose proof (pending_ident c) as Hi. pose proof (pending_cpus c) as Hc.
  destruct (getPendingRequest c) as [c' [a|u]]; (split; [exact Hi|exact Hc]).
Qed.

Lemma markPending_frame p s cch : setter_ok s → cache_frame cch (markPending p s cch).
Proof.
  intros Hs. unfold markPending. destruct (cc_heap cch !! p) as [c|] eqn:Hc; [|done].
  pose proof (Hs c) as Hi. destruct (s c) as [c' marked]. cbn in Hi.
  pose proof (heap_frame p c c' cch Hc Hi) as Hf. destruct marked; [|done]. etrans; [exact Hf|by split].
Qed.

Lemma markPending_still_at p s cch :
  (∀ c, cc_heap cch !! p = Some c → ident (s c).1 = ident c ∧ GetCpusetCpus (s c).1 = GetCpusetCpus c) →
  cache_still cch (markPending p s cch).
Proof.
  intros Hs. unfold markPending. destruct (cc_heap cch !! p) as [c|] eqn:Hc; [|done].
  destruct (Hs c eq_refl) as [Hi Hcpus]. destruct (s c) as [c' marked]. cbn in Hi, Hcpus.
  pose proof (heap_still p c c' cch Hc Hi Hcpus) as Hf. destruct marked; [|done]. etrans; [exact Hf|apply pending_still].
Qed.

Lemma markPending_still p s cch : setter_still s → cache_still cch (markPending p s cch).
Proof. intros Hs. by apply markPending_still_at. Qed.

Lemma ClearPending_still p ctrl cch : cache_still cch (ClearPending p ctrl cch).
Proof.
  unfold ClearPending. destruct (cc_heap cch !! p) as [c|] eqn:Hc; [|done].
  assert (cache_still cch (with_heap (<[p := with_pending (co_pending c ∖ {[ctrl]}) c]> (cc_heap cch)) cch)) as Hf
    by (by eapply heap_still). case_bool_decide; [|done]. etrans; [exact Hf|apply pending_still].
Qed.

Lemma clear_controllers_still p cch : cache_still cch (clear_controllers p cch).
Proof.
  unfold clear_controllers. destruct (cc_heap cch !! p) as [c|]; [|done]. generalize (elements (co_pending c)) as l. intros l.
  revert cch. induction l as [|x l IH]; intros cch; cbn; [done|]. etrans; [apply ClearPending_still|apply IH].
Qed.

Lemma same_resources_still p cch : cache_still cch (same_resources p cch).
Proof.
  assert (∀ A `{EqDecision A} (get : CContainer → A) zero (s : A → setter) cch,
    (∀ c, ident (s (get c) c).1 = ident c ∧ GetCpusetCpus (s (get c) c).1 = GetCpusetCpus c) →
    cache_still cch match cc_heap cch !! p with
                    | Some c => if bool_decide (get c ≠ zero) then markPending p (s (get c)) cch else cch
                    | None => cch
                    end) as Hset.
  { intros A ? get zero s cch' Hs. destruct (cc_heap cch' !! p) as [c|] eqn:Hc; [|done]. case_bool_decide; [|done].
    apply markPending_still_at. intros d Hd. rewrite Hc in Hd. injection Hd as <-. apply Hs. }
  unfold same_resources. cbn zeta.
  repeat (etrans; [|apply Hset; intros c; split; [apply set_resource_ok|etrans; [apply set_resource_cpus|]]; rewrite <- own_cpus]);
    try done; by destruct (lr_Cpu _).
Qed.

(** ** Plugins that have the same containers *)

Section frame.
Context `{GoRuntime} {S : Type} `{!Backend S} (E : CEnv) (cfg : ControlCfg).

Record quiet (m m' : nriPlugin S) : Prop := {
  qt_byname : n_byname m' = n_byname m;
  qt_policy : n_policy m' = n_policy m;
  qt_cache : cache_still (n_cache m) (n_cache m');
}.

#[export] Instance quiet_preorder : PreOrder quiet.
Proof.
  split; [by intros m; split|]. intros x y z [H1 H2 H3] [H4 H5 H6]. split; [congruence..|by etrans].
Qed.

Lemma quiet_cache f m : cache_still (n_cache m) (f (n_cache m)) → quiet m (on_cache f m).
Proof. by split. Qed.

Lemma nri_quiet_fold {A} (f : nriPlugin S → A → nriPlugin S) l m : (∀ m x, quiet m (f m x)) → quiet m (fold_left f l m).
Proof. intros Hf. revert m. induction l as [|x l IH]; intros m; cbn; [done|]. etrans; [apply Hf|apply IH]. Qed.

Lemma run_hook_quiet hook p m : quiet m (run_hook hook p m).
Proof. by split. Qed.

Lemma runPostAllocateHooks_quiet p m : quiet m (runPostAllocateHooks p m).
Proof. apply nri_quiet_fold. intros m' x. repeat case_bool_decide; (done || apply run_hook_quiet). Qed.

Lemma runPostReleaseHooks_quiet ps m : quiet m (runPostReleaseHooks ps m).
Proof.
  unfold runPostReleaseHooks. cbn zeta. trans (fold_left (λ m p, run_hook "PostStop" p m) ps m).
  - apply nri_quiet_fold. intros. apply run_hook_quiet.
  - apply nri_quiet_fold. intros m' x. repeat case_bool_decide; (done || apply run_hook_quiet).
Qed.

Lemma ExportResourceData_quiet p m : quiet m (ExportResourceData E p m).
Proof. unfold ExportResourceData. cbn zeta. by destruct (_ && _). Qed.

Lemma peek_all_still ps cch : cache_still cch (peek_all cfg ps cch).1.
Proof.
  revert cch. induction ps as [|p ps IH]; intros cch; cbn; [done|].
  assert (cache_still cch (peek_one cfg p cch).1) as Hone.
  { unfold peek_one. destruct (cc_heap cch !! p) as [c|] eqn:Hc; [|done].
    unfold PeekPendingUpdate. destruct (co_request c) as [[a|u]|] eqn:Hr; cbn; by eapply heap_still. }
  destruct (peek_one cfg p cch) as [cch1 u]. specialize (IH cch1). destruct (peek_all cfg ps cch1). cbn in *. by etrans.
Qed.

Lemma peekPendingUpdates_quiet skip m : quiet m (peekPendingUpdates cfg skip m).1.
Proof.
  unfold peekPendingUpdates. set (ps := filter _ _). pose proof (peek_all_still ps (n_cache m)) as Hf.
  destruct (peek_all cfg ps (n_cache m)). by split.
Qed.

Lemma clearPendingUpdates_quiet delivered failed m : quiet m (clearPendingUpdates E delivered failed m).
Proof.
  apply nri_quiet_fold. intros m' u. cbn zeta. destruct (bool_decide _); [done|]. destruct (LookupContainer _ _) as [p|]; [|done].
  etrans; [|apply ExportResourceData_quiet]. apply quiet_cache. etrans; [|apply clear_controllers_still].
  by apply upd_ctr_still.
Qed.

Lemma getPendingUpdates_quiet skip m : quiet m (getPendingUpdates E cfg skip m).1.
Proof.
  unfold getPendingUpdates. pose proof (peekPendingUpdates_quiet skip m) as Hq.
  destruct (peekPendingUpdates cfg skip m) as [m' us]. etrans; [exact Hq|apply clearPendingUpdates_quiet].
Qed.

Lemma getPendingAdjustment_quiet id m : quiet m (getPendingAdjustment cfg id m).1.
Proof.
  unfold getPendingAdjustment. destruct (LookupContainer _ _) as [p|]; [|done]. unfold ctr_at.
  destruct (cc_heap (n_cache m) !! p) as [c|] eqn:Hc; [|done].
  assert (ident (GetPendingAdjustment c).1 = ident c ∧ GetCpusetCpus (GetPendingAdjustment c).1 = GetCpusetCpus c) as [Hi Hg]
    by (unfold GetPendingAdjustment; by destruct (co_request c) as [[]|]).
  destruct (GetPendingAdjustment c) as [c' a]. cbn in *. apply quiet_cache.
  etrans; [by eapply heap_still|apply clear_controllers_still].
Qed.
End frame.

(** * The resource manager keeps track of resources

    What a policy promises to the resource manager ([Accounts]), and that the
    NRI plugin never loses track of a container that has resources: it is found
    by its name, under which only one container can have resources. *)

Open Scope string_scope.
Open Scope Z_scope.

(** ** Policies *)

(** A policy accounts for the containers it has given resources to; of the
    cache it only changes resources of containers.  What is right about a policy
    ([acc_ok]) may depend on the CPUs that the containers in the cache are pinned
    to, but only on those of containers it has given resources to. *)
Class Accounts (S : Type) `{!Backend S} := {
  holds : S → gset string;
  acc_ok : (string → option string) → S → Prop;
  acc_mono v v' s : (∀ id x, id ∈ holds s → v' id = Some x → v id = Some x) → acc_ok v s → acc_ok v' s;
  acc_allocate p cch s i cch' s' r : acc_ok (cpusets cch) s → ids_ok cch → known cch p = Some i → 0 ≤ i_requested i →
    i_id i ∉ holds s → be_AllocateResources p cch s = (cch', s', r) →
    cache_frame cch cch' ∧ acc_ok (cpusets cch') s' ∧
    holds s' = match r with Ok _ => holds s ∪ {[i_id i]} | Err _ => holds s end;
  acc_release p cch s i cch' s' r : acc_ok (cpusets cch) s → ids_ok cch → known cch p = Some i →
    be_ReleaseResources p cch s = (cch', s', r) →
    r = Ok tt ∧ cache_frame cch cch' ∧ acc_ok (cpusets cch') s' ∧ holds s' = holds s ∖ {[i_id i]};
  acc_update p cch s i cch' s' r : acc_ok (cpusets cch) s → ids_ok cch → known cch p = Some i → 0 ≤ i_requested i →
    be_UpdateResources p cch s = (cch', s', r) →
    cache_frame cch cch' ∧ acc_ok (cpusets cch') s' ∧ holds s ∖ {[i_id i]} ⊆ holds s' ∧ holds s' ⊆ holds s ∪ {[i_id i]};
  acc_sync add del cch s cch' s' r : acc_ok (cpusets cch) s → ids_ok cch →
    (∀ p, p ∈ add → ∃ i, known cch p = Some i ∧ 0 ≤ i_requested i) →
    (∀ p, p ∈ del → is_Some (known cch p)) → add ⊆ del → NoDup add →
    (∀ p q i j, known cch p = Some i → known cch q = Some j → i_id i = i_id j → p = q) →
    be_Sync add del cch s = (cch', s', r) → r ≠ Err Panic →
    r = Ok tt ∧ cache_frame cch cch' ∧ acc_ok (cpusets cch') s' ∧
    ∀ id, id ∈ holds s' →
      (id ∈ holds s ∧ ¬ ∃ p i, p ∈ del ∧ known cch p = Some i ∧ i_id i = id) ∨
      ∃ p i, p ∈ add ∧ known cch p = Some i ∧ i_id i = id;
  acc_started p cch s cch' s' r : acc_ok (cpusets cch) s → ids_ok cch → be_ContainerStarted p cch s = (cch', s', r) →
    cache_frame cch cch' ∧ acc_ok (cpusets cch') s' ∧ holds s' = holds s;
}.

(** ** Resource estimates *)

Lemma estimate_nonneg estimates r qos oomAdj :
  0 ≤ default 0 (rs_requestCPU (estimateResourceRequirements estimates r qos oomAdj)).
Proof.
  unfold estimateResourceRequirements. cbn zeta.
  assert (∀ v, 0 ≤ default 0 (if bool_decide (v > 0) then Some v else None)) as Hv.
  { intros v. case_bool_decide; cbn; lia. }
  repeat destruct (bool_decide (qos = _)); apply Hv.
Qed.

(** The environment, whose annotated resources are not negative. *)
Class EnvOk (E : CEnv) : Prop := {
  eo_annotated data containers name r : ce_AnnotatedResources E data = Some containers → containers !! name = Some r →
    0 ≤ default 0 (rs_requestCPU r);
}.

Section track.
Context {S : Type} `{!Backend S, !Accounts S}.
Implicit Types m : nriPlugin S.

Abbreviation knows m := (known (n_cache m)).
Abbreviation ctrs m := (cc_Containers (n_cache m)).
Abbreviation has m := (holds (n_policy m)).
Abbreviation fine m := (acc_ok (cpusets (n_cache m)) (n_policy m)).

(** ** The invariant *)

Definition live (s : ContainerState) : Prop := s = ContainerStateCreated ∨ s = ContainerStateRunning.

(** Pointers and IDs of containers go together; a container that has resources
    is found by its name, and so is one in the cache that is created or running. *)
Record nri_ok (m : nriPlugin S) : Prop := {
  no_ids id p : ctrs m !! id = Some p → ∃ i, knows m p = Some i ∧ i_id i = id;
  no_unique p q i j : knows m p = Some i → knows m q = Some j → i_id i = i_id j → p = q;
  no_next p : is_Some (knows m p) → (p < cc_next (n_cache m))%positive;
  no_requested p i : knows m p = Some i → 0 ≤ i_requested i;
  no_names name p : n_byname m !! name = Some p → ∃ i, knows m p = Some i ∧ i_pretty i = name;
  no_held id : id ∈ has m → ∃ name p i, n_byname m !! name = Some p ∧ knows m p = Some i ∧ i_id i = id;
  no_live id p i : ctrs m !! id = Some p → knows m p = Some i → live (i_state i) → n_byname m !! i_pretty i = Some p;
  no_policy : fine m;
}.

(** A container that is still the same, perhaps with another request. *)
Definition sim (i j : Ident) : Prop :=
  i_id j = i_id i ∧ i_state j = i_state i ∧ i_pretty j = i_pretty i ∧ (0 ≤ i_requested i → 0 ≤ i_requested j).

Lemma sim_fwd (o o' : option Ident) i : option_Forall2 sim o o' → o = Some i → ∃ j, o' = Some j ∧ sim i j.
Proof. intros Ho ->. inversion Ho; subst; eauto. Qed.

Lemma sim_bwd (o o' : option Ident) j : option_Forall2 sim o o' → o' = Some j → ∃ i, o = Some i ∧ sim i j.
Proof. intros Ho ->. inversion Ho; subst; eauto. Qed.

(** Containers may be deleted from the cache, and those found by their name may
    be given resources. *)
Lemma nri_ok_sim m m' : n_byname m' = n_byname m → ctrs m' ⊆ ctrs m → cc_next (n_cache m') = cc_next (n_cache m) →
  (∀ q, option_Forall2 sim (knows m q) (knows m' q)) → fine m' →
  (∀ id, id ∈ has m' → id ∈ has m ∨ ∃ name p i, n_byname m !! name = Some p ∧ knows m p = Some i ∧ i_id i = id) →
  nri_ok m → nri_ok m'.
Proof.
  intros Hb Hc Hn Hk Hp Hh Hok.
  assert (∀ id p, ctrs m' !! id = Some p → ctrs m !! id = Some p) as Hc' by (intros; by eapply lookup_weaken).
  pose proof (λ q i, sim_fwd _ _ i (Hk q)) as Hfwd. pose proof (λ q j, sim_bwd _ _ j (Hk q)) as Hbwd.
  split; rewrite ?Hb, ?Hn; [..|done].
  - intros id p Hid%Hc'. destruct (no_ids _ Hok id p Hid) as (i & Hi & <-). destruct (Hfwd p i Hi) as (j & ? & ? & _). eauto.
  - intros p q i j (i' & Hi & Ei & _)%Hbwd (j' & Hj & Ej & _)%Hbwd Heq. eapply (no_unique _ Hok); [done..|congruence].
  - intros p [j (i & Hi & _)%Hbwd]. apply (no_next _ Hok). eauto.
  - intros p j (i & Hi & _ & _ & _ & Hr)%Hbwd. by eapply Hr, (no_requested _ Hok).
  - intros name p Hname. destruct (no_names _ Hok name p Hname) as (i & Hi & <-). destruct (Hfwd p i Hi) as (j & ? & _ & _ & ? & _). eauto.
  - intros id Hid. assert (∃ name p i, n_byname m !! name = Some p ∧ knows m p = Some i ∧ i_id i = id) as (name & p & i & Hname & Hi & <-).
    { destruct (Hh id Hid) as [Hid'|?]; [by apply (no_held _ Hok)|done]. }
    destruct (Hfwd p i Hi) as (j & ? & ? & _). eauto 6.
  - intros id p j Hid%Hc' (i & Hi & _ & Es & -> & _)%Hbwd. rewrite Es. by eapply (no_live _ Hok).
Qed.

(** It does not depend on anything else. *)
Lemma nri_ok_frame m m' : n_byname m' = n_byname m → cache_frame (n_cache m) (n_cache m') →
  fine m' → has m' ⊆ has m → nri_ok m → nri_ok m'.
Proof.
  intros Hb [Hc _ Hn Hk] Hp Hh. apply nri_ok_sim; [done|by rewrite Hc|done| |done|by left; apply Hh].
  intros q. rewrite Hk. by destruct (knows m q); constructor.
Qed.

Lemma quiet_ok m m' : quiet m m' → nri_ok m → nri_ok m'.
Proof.
  intros [Hb Hp Hf] Hok. eapply nri_ok_frame; [done|apply Hf| |by rewrite Hp|done]. rewrite Hp.
  eapply acc_mono; [|apply (no_policy _ Hok)]. intros id x _. by rewrite (still_cpusets _ _ _ Hf).
Qed.

(** ** Single changes *)

Definition with_istate (s : ContainerState) (i : Ident) : Ident :=
  MkIdent (i_id i) (i_pod i) s (i_created i) (i_pretty i) (i_requested i).

Lemma known_set_state s p m q : knows (set_state s p m) q = if bool_decide (p = q) then with_istate s <$> knows m q else knows m q.
Proof.
  unfold known, set_state, upd_ctr. cbn. case_bool_decide as Hpq.
  - subst. rewrite lookup_alter_eq. by destruct (cc_heap (n_cache m) !! q).
  - by rewrite lookup_alter_ne.
Qed.

Lemma known_set_state_inv s p m q i : knows (set_state s p m) q = Some i →
  ∃ j, knows m q = Some j ∧ i_id i = i_id j ∧ i_pretty i = i_pretty j ∧ i_requested i = i_requested j ∧
    (p ≠ q → i = j) ∧ (p = q → i_state i = s).
Proof.
  rewrite known_set_state. case_bool_decide as Hpq; [|intros Hi; by exists i].
  destruct (knows m q) as [j|]; [|done]. cbn. intros [= <-]. by exists j.
Qed.

Lemma known_set_state_fwd s p m q i : knows m q = Some i →
  ∃ j, knows (set_state s p m) q = Some j ∧ i_id j = i_id i ∧ i_pretty j = i_pretty i.
Proof. intros Hi. rewrite known_set_state, Hi. case_bool_decide; cbn; eauto. Qed.

Lemma cpusets_set_state s p m id : cpusets (n_cache (set_state s p m)) id = cpusets (n_cache m) id.
Proof.
  apply cpusets_at; [done|]. intros q. unfold cpus_at, set_state, upd_ctr. cbn. destruct (decide (p = q)) as [->|Hne].
  - rewrite lookup_alter_eq. by destruct (cc_heap (n_cache m) !! q).
  - by rewrite lookup_alter_ne.
Qed.

Lemma fine_set_state s p m : fine m → fine (set_state s p m).
Proof. apply acc_mono. intros id x _. by rewrite cpusets_set_state. Qed.

(** The state of a container; it does not come to life. *)
Lemma set_state_ok s p m : nri_ok m → (live s → ∃ i, knows m p = Some i ∧ live (i_state i)) → nri_ok (set_state s p m).
Proof.
  intros Hok Hs. destruct Hok. split; try done.
  - intros id q Hid. destruct (no_ids0 id q Hid) as (i & Hi & <-).
    destruct (known_set_state_fwd s p m q i Hi) as (j & Hj & Hij & _). eauto.
  - intros q q' i j (i' & Hi & Ei & _)%known_set_state_inv (j' & Hj & Ej & _)%known_set_state_inv. rewrite Ei, Ej. eauto.
  - intros q [i (j & Hj & _)%known_set_state_inv]. apply no_next0. eauto.
  - intros q i (j & Hj & _ & _ & -> & _)%known_set_state_inv. eauto.
  - intros name q Hq. destruct (no_names0 name q Hq) as (i & Hi & <-).
    destruct (known_set_state_fwd s p m q i Hi) as (j & Hj & _ & Hij). eauto.
  - intros id Hid. destruct (no_held0 id Hid) as (name & q & i & Hq & Hi & <-).
    destruct (known_set_state_fwd s p m q i Hi) as (j & Hj & Hij & _). exists name, q, j. by rewrite Hij.
  - intros id q i Hid (j & Hj & _ & -> & _ & Hne & Heq)%known_set_state_inv Hl. destruct (decide (p = q)) as [->|Hpq].
    + rewrite Heq in Hl by done. destruct (Hs Hl) as (k & Hk & Hlk). simplify_eq. eauto.
    + rewrite (Hne Hpq) in Hl. eauto.
  - by apply fine_set_state.
Qed.

(** A container that is no longer found by its name has given its resources
    back, and is not live any more. *)
Lemma forget_ok name old i s m m' : nri_ok m → n_byname m !! name = Some old → knows m old = Some i → ¬ live s →
  n_byname m' = delete name (n_byname m) → cache_frame (n_cache m) (n_cache m') → fine m' →
  has m' = has m ∖ {[i_id i]} → nri_ok (set_state s old m').
Proof.
  intros Hok Hname Hold Hs Hb Hf Hp Hh. destruct Hok.
  assert (∀ n q, n_byname m !! n = Some q → q ≠ old → n_byname m' !! n = Some q) as Hkeep.
  { intros n q Hq Hne. rewrite Hb, lookup_delete_ne; [done|]. intros ->. congruence. }
  assert (∀ q, knows m' q = knows m q) as Hk by apply Hf.
  split; cbn [n_byname n_policy n_cache set_state on_cache with_cache upd_ctr with_heap cc_Containers cc_next];
    rewrite ?(cf_Containers _ _ Hf), ?(cf_next _ _ Hf); try done.
  - intros id q Hid. destruct (no_ids0 id q Hid) as (j & Hj & <-). rewrite <- Hk in Hj.
    destruct (known_set_state_fwd s old m' q j Hj) as (k & ? & ? & _). eauto.
  - intros q q' j k (j' & Hj & Ej & _)%known_set_state_inv (k' & Hk' & Ek & _)%known_set_state_inv. rewrite Hk in Hj, Hk'.
    rewrite Ej, Ek. eauto.
  - intros q [j (k & Hj & _)%known_set_state_inv]. rewrite Hk in Hj. eauto.
  - intros q j (k & Hj & _ & _ & -> & _)%known_set_state_inv. rewrite Hk in Hj. eauto.
  - intros n q. rewrite Hb. intros [Hne Hq]%lookup_delete_Some. destruct (no_names0 n q Hq) as (j & Hj & <-). rewrite <- Hk in Hj.
    destruct (known_set_state_fwd s old m' q j Hj) as (k & ? & _ & ?). eauto.
  - intros id. rewrite Hh. intros [Hid Hne]%elem_of_difference. destruct (no_held0 id Hid) as (n & q & j & Hq & Hj & <-).
    exists n, q. assert (q ≠ old) as Hqo by (intros ->; simplify_eq; set_solver). rewrite <- Hk in Hj.
    destruct (known_set_state_fwd s old m' q j Hj) as (k & ? & ? & _). exists k. split_and!; [by apply Hkeep|done|done].
  - intros id q j Hid (k & Hj & _ & -> & _ & Hne & Heq)%known_set_state_inv Hl. rewrite Hk in Hj.
    destruct (decide (old = q)) as [->|Hoq]; [by rewrite Heq in Hl|]. rewrite (Hne Hoq) in Hl. apply Hkeep; [by eapply no_live0|done].
  - by apply fine_set_state.
Qed.

(** A container becomes live, and found by its name. *)
Lemma enter_ok c i m m' : nri_ok m → knows m c = Some i → n_byname m !! i_pretty i = None →
  (∀ q, knows m' q = knows (set_state ContainerStateCreated c m) q) → ctrs m' = ctrs m →
  cc_next (n_cache m') = cc_next (n_cache m) → fine m' → has m' ⊆ has m ∪ {[i_id i]} →
  n_byname m' = <[i_pretty i := c]> (n_byname m) → nri_ok m'.
Proof.
  intros Hok Hc Hnone Hk Hcs Hn Hp Hh Hb. destruct Hok.
  assert (∀ n q, n_byname m !! n = Some q → n_byname m' !! n = Some q) as Hkeep.
  { intros n q Hq. rewrite Hb, lookup_insert_ne; [done|]. intros <-. congruence. }
  assert (∀ q j, knows m q = Some j → ∃ k, knows m' q = Some k ∧ i_id k = i_id j ∧ i_pretty k = i_pretty j) as Hfwd.
  { intros q j Hj. rewrite Hk. by apply known_set_state_fwd. }
  split; rewrite ?Hcs, ?Hn; try done.
  - intros id q Hid. destruct (no_ids0 id q Hid) as (j & Hj & <-). destruct (Hfwd q j Hj) as (k & ? & ? & _). eauto.
  - intros q q' j k. rewrite !Hk. intros (j' & Hj & Ej & _)%known_set_state_inv (k' & Hk' & Ek & _)%known_set_state_inv.
    rewrite Ej, Ek. eauto.
  - intros q. rewrite Hk. intros [j (k & Hj & _)%known_set_state_inv]. eauto.
  - intros q j. rewrite Hk. intros (k & Hj & _ & _ & -> & _)%known_set_state_inv. eauto.
  - intros n q. rewrite Hb. intros [[<- <-]|[Hne Hq]]%lookup_insert_Some.
    + destruct (Hfwd c i Hc) as (k & ? & _ & ?). eauto.
    + destruct (no_names0 n q Hq) as (j & Hj & <-). destruct (Hfwd q j Hj) as (k & ? & _ & ?). eauto.
  - intros id [Hid|Hid%elem_of_singleton]%Hh%elem_of_union.
    + destruct (no_held0 id Hid) as (n & q & j & Hq & Hj & <-). destruct (Hfwd q j Hj) as (k & ? & ? & _). exists n, q, k. eauto.
    + subst id. destruct (Hfwd c i Hc) as (k & ? & ? & _). exists (i_pretty i), c, k. rewrite Hb, lookup_insert_eq. eauto.
  - intros id q j Hid. rewrite Hk. intros (k & Hj & _ & -> & _ & Hne & Heq)%known_set_state_inv Hl.
    destruct (decide (c = q)) as [->|Hcq].
    + simplify_eq. by rewrite Hb, lookup_insert_eq.
    + rewrite (Hne Hcq) in Hl. apply Hkeep. by eapply no_live0.
Qed.
End track.
