(* ===== verification/NriReach.v ===== *)
(** * Requests of the runtime

    Every request of the container runtime keeps the invariant of the NRI plugin,
    and what creating and stopping a container promise. *)

From S2P Require Import Prelude GoStrings Expr Kube BlnPin TaTypes TaPrefs CchTypes CchContainer CchStore NriPlugin NriFacts.

Open Scope string_scope.
Open Scope Z_scope.

Section reach.
Context `{GoRuntime} {S : Type} `{!Backend S, !Accounts S} (E : CEnv) (cfg : ControlCfg) `{!EnvOk E}.
Implicit Types m : nriPlugin S.

Abbreviation knows m := (known (n_cache m)).
Abbreviation ctrs m := (cc_Containers (n_cache m)).
Abbreviation has m := (holds (n_policy m)).
Abbreviation ok := (nri_ok (S := S)).
Abbreviation fine m := (acc_ok (cpusets (n_cache m)) (n_policy m)).

(** ** The cache *)

Lemma setDefaultClasses_still pod p name cch : cache_still cch (CchStore.setDefaultClasses pod p name cch).
Proof.
  unfold CchStore.setDefaultClasses. cbn zeta.
  destruct (effective _ RDTClassKey _); destruct (effective _ BlockIOClassKey _); try done;
    repeat (etrans; [|by apply markPending_still, set_class_still]); done.
Qed.

(** A container that is inserted is a new one. *)
Lemma InsertContainer_spec ctr st cch cch' r : InsertContainer E ctr st cch = (cch', r) →
  match r with
  | Err e => e = Panic
  | Ok p => p = cc_next cch ∧ cc_next cch' = Pos.succ p ∧ cc_Containers cch' = <[nc_Id ctr := p]> (cc_Containers cch) ∧
      (∃ i, known cch' p = Some i ∧ i_id i = nc_Id ctr ∧ i_state i = default (nc_State ctr) st ∧ 0 ≤ i_requested i) ∧
      ∀ q, q ≠ p → known cch' q = known cch q ∧ cpus_at cch' q = cpus_at cch q
  end.
Proof.
  unfold InsertContainer, createContainer. destruct (cc_Pods cch !! nc_PodSandboxId ctr) as [pod|]; [|by intros [= <- <-]].
  cbn zeta. set (ctr' := match st with Some s => with_State s ctr | None => ctr end).
  set (c := new_container E pod ctr' _). set (cch1 := with_next _ _). intros [= <- <-].
  pose proof (setDefaultClasses_still pod (cc_next cch) (nc_Name ctr') cch1) as Hf.
  set (cch2 := CchStore.setDefaultClasses _ _ _ _) in *. set (cch3 := with_Containers _ cch2).
  assert (cache_still cch3 (Save E (createContainerDirectory E (nc_Id ctr) cch3))) as Hs.
  { etrans; [|apply Save_still]. unfold createContainerDirectory. destruct (_ && _); by apply same_still. }
  destruct Hf as [[Hc1 _ Hn1 Hk1] Hu1], Hs as [[Hc2 _ Hn2 Hk2] Hu2].
  assert (∀ q, known cch3 q = known cch1 q) as Hk3 by apply Hk1.
  split_and!; [done|by rewrite Hn2; apply Hn1|rewrite Hc2; cbn; by rewrite Hc1| |].
  - exists (ident c). rewrite Hk2, Hk3. unfold known, cch1. cbn. rewrite lookup_insert_eq. split_and!; [done|by destruct st..|].
    cbn. unfold requested, c, new_container. cbn.
    unfold GetAnnotatedResources. destruct (np_Annotations _ !! _) as [data|]; [|apply estimate_nonneg].
    destruct (ce_AnnotatedResources E data) as [cs|] eqn:Hd; [|apply estimate_nonneg].
    destruct (cs !! nc_Name ctr') as [r|] eqn:Hr; [|apply estimate_nonneg]. by eapply eo_annotated.
  - intros q Hq. rewrite Hk2, Hk3, Hu2. change (cpus_at cch3 q) with (cpus_at cch2 q). rewrite Hu1.
    unfold known, cpus_at, cch1. cbn. by rewrite lookup_insert_ne.
Qed.

(** ** Asking the policy *)

Lemma ask_release p m i : fine m → ids_ok (n_cache m) → knows m p = Some i → ∃ m', ask (be_ReleaseResources p) m = (m', Ok tt) ∧
  n_byname m' = n_byname m ∧ cache_frame (n_cache m) (n_cache m') ∧ fine m' ∧ has m' = has m ∖ {[i_id i]}.
Proof.
  intros Hp Hids Hi. unfold ask. destruct (be_ReleaseResources p (n_cache m) (n_policy m)) as [[cch s] r] eqn:Hr.
  destruct (acc_release _ _ _ _ _ _ _ Hp Hids Hi Hr) as (-> & Hf & Ho & Hh). eexists. by split_and!.
Qed.

Lemma ask_allocate p m i : fine m → ids_ok (n_cache m) → knows m p = Some i → 0 ≤ i_requested i → i_id i ∉ has m →
  ∃ m' r, ask (be_AllocateResources p) m = (m', r) ∧
  n_byname m' = n_byname m ∧ cache_frame (n_cache m) (n_cache m') ∧ fine m' ∧
  has m' = match r with Ok _ => has m ∪ {[i_id i]} | Err _ => has m end.
Proof.
  intros Hp Hids Hi Hq Hn. unfold ask. destruct (be_AllocateResources p (n_cache m) (n_policy m)) as [[cch s] r] eqn:Hr.
  destruct (acc_allocate _ _ _ _ _ _ _ Hp Hids Hi Hq Hn Hr) as (Hf & Ho & Hh). eexists _, _. by split_and!.
Qed.

(** ** Creating containers *)

(** A container with a new ID, in a state that is not live. *)
Lemma insert_ok ctr st m cch p : ok m → (∀ q i, knows m q = Some i → i_id i ≠ nc_Id ctr) → ¬ live st →
  InsertContainer E ctr (Some st) (n_cache m) = (cch, Ok p) →
  ok (with_cache cch m) ∧ ∃ i, known cch p = Some i ∧ i_id i = nc_Id ctr ∧ i_id i ∉ has m.
Proof.
  intros Hok Hfresh Hst Hins. destruct (InsertContainer_spec _ _ _ _ _ Hins) as (Hp & Hn & Hc & (i & Hi & Hid & Hs & Hq) & Hk).
  assert (knows m p = None) as Hnone.
  { destruct (knows m p) as [j|] eqn:Hj; [|done]. specialize ((no_next _ Hok) p ltac:(eauto)). subst p. lia. }
  assert (∀ q j, knows m q = Some j → known cch q = Some j) as Hold.
  { intros q j Hj. rewrite (proj1 (Hk q ltac:(intros ->; congruence))). done. }
  assert (∀ q j, known cch q = Some j → q = p ∧ j = i ∨ knows m q = Some j) as Hnew.
  { intros q j Hj. destruct (decide (q = p)) as [->|Hne]; [left; split; congruence|right; by rewrite <- (proj1 (Hk q Hne))]. }
  split.
  - split; cbn; rewrite ?Hn, ?Hc; try done.
    + intros id q [[<- <-]|[_ Hq']]%lookup_insert_Some; [eauto|]. destruct ((no_ids _ Hok) id q Hq') as (j & Hj & <-). eauto.
    + intros q q' j k [[-> ->]|Hj]%Hnew [[-> ->]|Hk']%Hnew Heq; [done|exfalso|exfalso|by eapply (no_unique _ Hok)].
      * apply (Hfresh q' k Hk'). congruence.
      * apply (Hfresh q j Hj). congruence.
    + intros q [j [[-> ->]|Hj]%Hnew]; [lia|]. specialize ((no_next _ Hok) q ltac:(eauto)). lia.
    + intros q j [[-> ->]|Hj]%Hnew; [done|by eapply (no_requested _ Hok)].
    + intros name q Hq'. destruct ((no_names _ Hok) name q Hq') as (j & Hj & <-). eauto.
    + intros id Hid'. destruct ((no_held _ Hok) id Hid') as (name & q & j & Hq' & Hj & <-). exists name, q, j. eauto.
    + intros id q j Hq' [[-> ->]|Hj]%Hnew Hl; [rewrite Hs in Hl; by destruct Hst|].
      apply lookup_insert_Some in Hq' as [[<- <-]|[_ Hq']]; [congruence|]. by eapply (no_live _ Hok).
    + eapply acc_mono; [|apply (no_policy _ Hok)]. intros id x Hin. destruct (no_held _ Hok id Hin) as (_ & q & j & _ & Hj & Hij).
      unfold cpusets. cbn. rewrite Hc, lookup_insert_ne by (intros <-; by apply (Hfresh q j Hj)).
      destruct (ctrs m !! id) as [q'|] eqn:Hq'; [|done]. cbn. destruct (no_ids _ Hok id q' Hq') as (j' & Hj' & _).
      by rewrite (proj2 (Hk q' ltac:(intros ->; congruence))).
  - exists i. split_and!; [done|done|]. rewrite Hid. intros Hin. destruct ((no_held _ Hok) _ Hin) as (name & q & j & _ & Hj & Hij).
    by apply (Hfresh q j Hj).
Qed.

Lemma release_stale_ok name m : ok m →
  ok (release_stale name m) ∧ n_byname (release_stale name m) !! name = None ∧ has (release_stale name m) ⊆ has m ∧
  (∀ p i, n_byname m !! name = Some p → knows m p = Some i → i_id i ∉ has (release_stale name m)) ∧
  (∀ id, id ∈ has m → id ∈ has (release_stale name m) ∨
    ∃ p i, n_byname m !! name = Some p ∧ knows m p = Some i ∧ i_id i = id) ∧
  ctrs (release_stale name m) = ctrs m ∧ cc_next (n_cache (release_stale name m)) = cc_next (n_cache m) ∧
  ∀ p, n_byname m !! name ≠ Some p → knows (release_stale name m) p = knows m p.
Proof.
  intros Hok. unfold release_stale, unmapName. destruct (n_byname m !! name) as [old|] eqn:Hold; [|split_and!; [done..|by left|done|done|done]].
  destruct (no_names _ Hok name old Hold) as (i & Hi & Hpretty). set (m1 := with_byname _ m).
  destruct (ask_release old m1 i (no_policy _ Hok) (no_ids _ Hok) Hi) as (m2 & -> & Hb & Hf & Hp & Hh). cbn [fst].
  split_and!.
  - eapply (forget_ok name old i ContainerStateExited m m2); eauto; by intros [|].
  - cbn. rewrite Hb. apply lookup_delete_eq.
  - cbn. rewrite Hh. cbn. set_solver.
  - intros p j [= <-] Hj. simplify_eq. cbn. rewrite Hh. set_solver.
  - intros id Hid. cbn. rewrite Hh. destruct (decide (id = i_id i)) as [->|Hne]; [right; eauto 6|left].
    apply elem_of_difference. split; [done|]. by intros ?%elem_of_singleton.
  - apply Hf.
  - apply Hf.
  - intros p Hne. rewrite known_set_state, bool_decide_eq_false_2 by congruence. apply Hf.
Qed.

Lemma name_of_known m p i : knows m p = Some i → name_of m p = i_pretty i.
Proof. unfold known, name_of, ctr_at. destruct (cc_heap (n_cache m) !! p); [|done]. by intros [= <-]. Qed.

Lemma id_of_known m p i : knows m p = Some i → id_of m p = i_id i.
Proof. unfold known, id_of, ctr_at. destruct (cc_heap (n_cache m) !! p); [|done]. by intros [= <-]. Qed.

Lemma state_of_known m p i : knows m p = Some i → state_of m p = i_state i.
Proof. unfold known, state_of, ctr_at. destruct (cc_heap (n_cache m) !! p); [|done]. by intros [= <-]. Qed.

(** What follows a successful allocation, up to the name. *)
Lemma nri_created_quiet c ctr m :
  let m1 := set_state ContainerStateCreated c (on_cache (markPending c (InsertMount (resource_policy_mount (nc_Id ctr)))) m) in
  let m2 := ExportResourceData E c (runPostAllocateHooks c m1) in
  let m3 := (getPendingAdjustment cfg (nc_Id ctr) m2).1 in
  let m4 := (getPendingUpdates E cfg (Some (nc_Id ctr)) m3).1 in
  n_byname m4 = n_byname m ∧ n_policy m4 = n_policy m ∧ ctrs m4 = ctrs m ∧ cc_next (n_cache m4) = cc_next (n_cache m) ∧
  (∀ q, knows m4 q = knows (set_state ContainerStateCreated c m) q) ∧ (fine m → fine m4).
Proof.
  intros m1 m2 m3 m4.
  assert (quiet m1 m4) as [Hb Hp [[Hc _ Hn Hk] Hu]].
  { trans m3; [|apply getPendingUpdates_quiet]. trans m2; [|apply getPendingAdjustment_quiet].
    etrans; [apply runPostAllocateHooks_quiet|apply ExportResourceData_quiet]. }
  pose proof (markPending_still c _ (n_cache m) (InsertMount_still (resource_policy_mount (nc_Id ctr)))) as Hs.
  pose proof Hs as [[Hc' _ Hn' Hk'] _].
  split_and!; [done|done|by rewrite Hc|by rewrite Hn| |].
  - intros q. rewrite Hk. unfold m1. rewrite !known_set_state. cbn [on_cache with_cache n_cache]. by rewrite Hk'.
  - rewrite Hp. apply acc_mono. intros id x _. rewrite (cpusets_at _ _ id Hc Hu). unfold m1. rewrite cpusets_set_state.
    cbn [on_cache with_cache n_cache]. by rewrite (still_cpusets _ _ _ Hs).
Qed.

Lemma create_container_ok ctr m m' r : ok m → (∀ q i, knows m q = Some i → i_id i ≠ nc_Id ctr) →
  create_container E cfg ctr m = (m', r) → r ≠ Err Panic →
  ok m' ∧
  match r with
  | Ok _ => ∃ p i, ctrs m' !! nc_Id ctr = Some p ∧ knows m' p = Some i ∧ i_id i = nc_Id ctr ∧ i_state i = ContainerStateCreated ∧
      n_byname m' !! i_pretty i = Some p ∧ nc_Id ctr ∈ has m' ∧ has m' ⊆ has m ∪ {[nc_Id ctr]} ∧
      (∀ q j, n_byname m !! i_pretty i = Some q → knows m q = Some j → i_id j ∉ has m') ∧
      ∀ id, id ∈ has m → id ∈ has m' ∨ ∃ q j, n_byname m !! i_pretty i = Some q ∧ knows m q = Some j ∧ i_id j = id
  | Err _ => (nc_Id ctr ∉ has m') ∧ has m' ⊆ has m
  end.
Proof.
  intros Hok Hfresh. unfold create_container.
  destruct (InsertContainer E ctr (Some ContainerStateCreating) (n_cache m)) as [cch ins] eqn:Hins.
  destruct ins as [c|e].
  2:{ apply InsertContainer_spec in Hins as ->. by intros [= <- <-]. }
  destruct (InsertContainer_spec _ _ _ _ _ Hins) as (_ & _ & Hcs & _ & Hsame).
  destruct (insert_ok ctr ContainerStateCreating m cch c Hok Hfresh ltac:(by intros [|]) Hins) as (Hok1 & i & Hi & Hid & Hnot).
  set (m1 := with_cache cch m) in *. rewrite (name_of_known m1 c i Hi).
  destruct (release_stale_ok (i_pretty i) m1 Hok1) as (Hok2 & Hnone & Hsub & Hgone & Hrest & Hc2 & Hn2 & Hk2).
  assert (∀ p, n_byname m1 !! i_pretty i = Some p → p ≠ c) as Hother.
  { intros p Hp ->. destruct (no_names _ Hok (i_pretty i) c Hp) as (j & Hj & _). pose proof (no_next _ Hok c ltac:(eauto)).
    pose proof (InsertContainer_spec _ _ _ _ _ Hins) as (-> & _). lia. }
  assert (knows (release_stale (i_pretty i) m1) c = Some i) as Hi2.
  { rewrite Hk2; [done|]. intros Hc. by apply (Hother c). }
  assert (∀ q j, n_byname m !! i_pretty i = Some q → knows m q = Some j → i_id j ∉ has (release_stale (i_pretty i) m1)) as Hgone'.
  { intros q j Hq Hj. apply (Hgone q j Hq). cbn. by rewrite (proj1 (Hsame q (Hother q Hq))). }
  set (m2 := release_stale (i_pretty i) m1) in *.
  destruct (ask_allocate c m2 i (no_policy _ Hok2) (no_ids _ Hok2) Hi2 (no_requested _ Hok2 c i Hi2) ltac:(by intros ?%Hsub))
    as (m3 & ra & -> & Hb3 & Hf3 & Hp3 & Hh3). destruct ra as [u|e].
  - pose proof (nri_created_quiet c ctr m3) as Hq. cbn zeta in *. set (m4 := ExportResourceData E c _) in *.
    destruct (getPendingAdjustment cfg (nc_Id ctr) m4) as [m5 adjust]. cbn [fst] in Hq.
    destruct (getPendingUpdates E cfg (Some (nc_Id ctr)) m5) as [m6 updates]. cbn [fst] in Hq.
    destruct Hq as (Hb6 & Hp6 & Hc6 & Hn6 & Hk6 & Hu6).
    assert (∀ q, knows m6 q = knows (set_state ContainerStateCreated c m2) q) as Hk.
    { intros q. rewrite Hk6, !known_set_state. by rewrite (cf_known _ _ Hf3). }
    assert (knows m6 c = Some (with_istate ContainerStateCreated i)) as Hc.
    { rewrite Hk, known_set_state, bool_decide_eq_true_2, Hi2 by done. done. }
    assert (mapNameToContainer c m6 = (with_byname (<[i_pretty i := c]> (n_byname m2)) m6, None)) as ->.
    { unfold mapNameToContainer. rewrite (name_of_known _ _ _ Hc). cbn [i_pretty with_istate]. by rewrite Hb6, Hb3, Hnone. }
    intros [= <- <-] _. cbn [fst]. rewrite <- Hid. assert (has m6 = has m2 ∪ {[i_id i]}) as Hh by (by rewrite Hp6).
    split; [|exists c, (with_istate ContainerStateCreated i); split_and!; cbn [n_byname n_policy n_cache with_byname]; try done].
    + apply (enter_ok c i m2); cbn [n_byname n_policy n_cache with_byname]; try done.
      * by rewrite Hc6, (cf_Containers _ _ Hf3).
      * by rewrite Hn6, (cf_next _ _ Hf3).
      * by apply Hu6.
      * by rewrite Hh.
    + rewrite Hc6, (cf_Containers _ _ Hf3), Hc2. cbn. rewrite Hcs, Hid. apply lookup_insert_eq.
    + apply lookup_insert_eq.
    + rewrite Hh. apply elem_of_union_r, elem_of_singleton_2. done.
    + rewrite Hh. by apply union_mono_r.
    + intros q j Hq Hj. rewrite Hh. intros [Hin|Hin%elem_of_singleton]%elem_of_union; [by apply (Hgone' q j)|].
      apply (Hfresh q j Hj). congruence.
    + intros id Hin. rewrite Hh. destruct (Hrest id Hin) as [?|(q & j & Hq & Hj & <-)]; [left; by apply elem_of_union_l|].
      right. exists q, j. split_and!; [done| |done]. by rewrite <- (proj1 (Hsame q (Hother q Hq))).
  - intros [= <- <-] _. split.
    + apply set_state_ok; [|by intros [|]]. eapply nri_ok_frame; [done..|by rewrite Hh3|done].
    + cbn. rewrite Hh3, <- Hid. split; [by intros ?%Hsub|done].
Qed.

Lemma CreateContainer_ok ctr m m' r : ok m → (∀ q i, knows m q = Some i → i_id i ≠ nc_Id ctr) →
  CreateContainer E cfg ctr m = (m', r) → r ≠ Err Panic → ok m' ∧ ∃ m1, create_container E cfg ctr (on_cache BlockSave m) = (m1, r) ∧ quiet m1 m'.
Proof.
  intros Hok Hfresh. unfold CreateContainer. destruct (create_container E cfg ctr (on_cache BlockSave m)) as [m1 r1] eqn:Hc.
  intros [= <- <-] Hr. assert (quiet m (on_cache BlockSave m)) as Hq by (apply quiet_cache, BlockSave_still).
  assert (quiet m1 (on_cache (UnblockSave E) m1)) as Hq' by (apply quiet_cache, UnblockSave_still).
  split; [|eauto]. eapply quiet_ok; [exact Hq'|]. eapply create_container_ok in Hc as [? _]; [done| |done|done].
  by eapply quiet_ok.
Qed.

(** ** Other requests *)

Lemma StopContainer_ok id m m' r : ok m → StopContainer E cfg id m = (m', r) →
  ok m' ∧ (∃ updates, r = Ok updates) ∧
  ∀ p, ctrs m !! id = Some p → has m' = has m ∖ {[id]} ∧ ∀ name, n_byname m' !! name ≠ Some p.
Proof.
  intros Hok. unfold StopContainer, LookupContainer. destruct (ctrs m !! id) as [c|] eqn:Hc.
  2:{ intros [= <- <-]. split_and!; [done|eauto|done]. }
  destruct (no_ids _ Hok id c Hc) as (i & Hi & Hid). set (m1 := unmapContainer c m).
  assert (n_policy m1 = n_policy m ∧ n_cache m1 = n_cache m) as [Hp1 Hc1].
  { unfold m1, unmapContainer. by case_bool_decide. }
  destruct (ask_release c m1 i) as (m2 & -> & Hb & Hf & Hp & Hh); [rewrite Hp1, Hc1; apply (no_policy _ Hok)|rewrite Hc1; exact (no_ids _ Hok)|by rewrite Hc1|].
  rewrite Hp1 in Hh. rewrite Hc1 in Hf. set (m3 := set_state ContainerStateExited c m2).
  pose proof (getPendingUpdates_quiet E cfg (Some id) m3) as Hq.
  destruct (getPendingUpdates E cfg (Some id) m3) as [m4 us]. intros [= <- <-]. cbn [fst] in Hq.
  unfold m1, unmapContainer in Hb. rewrite (name_of_known m c i Hi) in Hb. split_and!; [|eauto|].
  2:{ intros p [= <-]. split; [by rewrite (qt_policy _ _ Hq), <- Hid|]. intros name. rewrite (qt_byname _ _ Hq). cbn. rewrite Hb.
      intros Hname. assert (n_byname m !! name = Some c) as Hm.
      { case_bool_decide; [|done]. cbn in Hname. by apply lookup_delete_Some in Hname as [_ ?]. }
      destruct (no_names _ Hok name c Hm) as (j & Hj & <-). simplify_eq. case_bool_decide; [|done]. cbn in Hname.
      by rewrite lookup_delete_eq in Hname. }
  eapply quiet_ok; [exact Hq|].
  case_bool_decide as Hmap.
  - eapply (forget_ok (i_pretty i) c i); eauto; by intros [|].
  - apply set_state_ok; [|by intros [|]]. eapply nri_ok_frame; [done..|rewrite Hh; apply subseteq_difference_l; done|done].
Qed.

Lemma DeleteContainer_known id cch : cc_next (DeleteContainer E id cch).1 = cc_next cch ∧
  cc_Containers (DeleteContainer E id cch).1 = delete id (cc_Containers cch) ∧ ∀ p, known (DeleteContainer E id cch).1 p = known cch p ∧
  cpus_at (DeleteContainer E id cch).1 p = cpus_at cch p.
Proof.
  unfold DeleteContainer. destruct (cc_Containers cch !! id) as [c|] eqn:Hc; [|cbn; split_and!; [done|by rewrite delete_id|done]].
  cbn [fst]. destruct (Save_still E (with_Containers (delete id (cc_Containers (removeContainerDirectory id cch)))
    (removeContainerDirectory id cch))) as [[H1 _ H2 H3] H4].
  rewrite H1, H2. split_and!; [..|intros p; rewrite H3, H4]; unfold removeContainerDirectory; by case_bool_decide.
Qed.

Lemma option_sim (o : option Ident) : option_Forall2 sim o o.
Proof. by destruct o; constructor. Qed.

Lemma RemoveContainer_ok id m : ok m → ok (RemoveContainer E id m).
Proof.
  intros Hok. destruct (DeleteContainer_known id (n_cache m)) as (Hn & Hc & Hk). unfold RemoveContainer.
  apply (nri_ok_sim m); cbn; [done|rewrite Hc; apply delete_subseteq|done|intros q; rewrite (proj1 (Hk q)); apply option_sim| |by left|done].
  eapply acc_mono; [|apply (no_policy _ Hok)]. intros id' x _. unfold cpusets. rewrite Hc. destruct (decide (id = id')) as [->|Hne].
  - by rewrite lookup_delete_eq.
  - rewrite lookup_delete_ne by done. destruct (ctrs m !! id') as [q|]; cbn; [by rewrite (proj2 (Hk q))|done].
Qed.

Lemma StartContainer_ok id m p i : ok m → ctrs m !! id = Some p → knows m p = Some i → live (i_state i) →
  ok (StartContainer id m).
Proof.
  intros Hok Hp Hi Hl. unfold StartContainer, LookupContainer. rewrite Hp. set (m1 := set_state ContainerStateRunning p m).
  assert (ok m1) as Hok1 by (apply set_state_ok; eauto). eapply quiet_ok; [apply run_hook_quiet|]. unfold ask.
  destruct (be_ContainerStarted p (n_cache m1) (n_policy m1)) as [[cch s] r] eqn:Hs.
  destruct (acc_started _ _ _ _ _ _ (no_policy _ Hok1) (no_ids _ Hok1) Hs) as (Hf & Ho & Hh). cbn [fst].
  eapply (nri_ok_frame m1); cbn; [done..|by rewrite Hh|done].
Qed.

Lemma SetResourceUpdates_ident estimates qos r c c' b : SetResourceUpdates estimates qos r c = Ok (c', b) →
  sim (ident c) (ident c') ∧ GetCpusetCpus c' = GetCpusetCpus c.
Proof.
  unfold SetResourceUpdates. destruct r as [r|]; [|done]. destruct (ctr_resources (co_Ctr c)); [|done].
  intros [= <- _]. split; [|done]. split_and!; [done..|]. intros _. apply estimate_nonneg.
Qed.

Lemma UpdateContainer_ok id res_ m m' r p i : ok m → ctrs m !! id = Some p → knows m p = Some i → live (i_state i) →
  UpdateContainer E cfg id res_ m = (m', r) → ok m'.
Proof.
  intros Hok Hp Hi Hl. unfold UpdateContainer, LookupContainer, ctr_at. rewrite Hp.
  destruct (cc_heap (n_cache m) !! p) as [c|] eqn:Hc; [|by intros [= <- _]].
  destruct (SetResourceUpdates _ _ res_ c) as [[c' real]|e] eqn:Hs; [|by intros [= <- _]].
  apply SetResourceUpdates_ident in Hs as [Hs Hcpus]. assert (ident c = i) as Hic by (unfold known in Hi; rewrite Hc in Hi; by injection Hi).
  rewrite Hic in Hs.
  set (m1 := on_cache _ m).
  assert (ok m1 ∧ ∃ j, knows m1 p = Some j ∧ i_id j = i_id i ∧ i_pretty j = i_pretty i) as (Hok1 & j & Hj & Hji & Hjp).
  { split.
    - apply (nri_ok_sim m); cbn; [done..| | |by left|done].
      + intros q. unfold known. cbn. destruct (decide (p = q)) as [<-|Hne]; [|rewrite lookup_insert_ne by done; apply option_sim].
        rewrite lookup_insert_eq, Hc. constructor. by rewrite Hic.
      + eapply acc_mono; [|apply (no_policy _ Hok)]. intros id' x _. rewrite (cpusets_at (n_cache m)); [done|done|].
        intros q. unfold cpus_at. cbn. destruct (decide (p = q)) as [<-|Hne]; [|by rewrite lookup_insert_ne].
        rewrite lookup_insert_eq, Hc. cbn. by rewrite Hcpus.
    - exists (ident c'). unfold known. cbn. rewrite lookup_insert_eq. split_and!; [done|apply Hs|apply Hs]. }
  assert (∀ m2, ok m2 → ∀ m'', (let '(m, updates) := getPendingUpdates E cfg None m2 in (m, Ok updates)) = (m'', r) → ok m'') as Hlast.
  { intros m2 Hok2 m''. pose proof (getPendingUpdates_quiet E cfg None m2) as Hq.
    destruct (getPendingUpdates E cfg None m2). intros [= <- _]. by eapply quiet_ok. }
  destruct real.
  - unfold ask. destruct (be_UpdateResources p (n_cache m1) (n_policy m1)) as [[cch s] ru] eqn:Hu.
    destruct (acc_update _ _ _ _ _ _ _ (no_policy _ Hok1) (no_ids _ Hok1) Hj (no_requested _ Hok1 p j Hj) Hu) as ([Hcs _ Hn Hk] & Ho & _ & Hh).
    assert (ok (MkNriPlugin (n_byname m1) cch s (n_hooks m1) (n_exported m1))) as Hok2.
    { apply (nri_ok_sim m1); cbn; [done|by rewrite Hcs|done|intros q; rewrite Hk; apply option_sim|done| |done].
      intros id' [?|Hid%elem_of_singleton]%Hh%elem_of_union; [by left|]. right. exists (i_pretty i), p, j.
      split_and!; [|done|done]. by apply (no_live _ Hok id). }
    destruct ru; [by apply Hlast|by intros [= <- _]].
  - apply Hlast. eapply quiet_ok; [|exact Hok1]. apply quiet_cache, same_resources_still.
Qed.
End reach.
