(* ===== verification/NriSync.v ===== *)
(** * Synchronizing with the runtime

    After the plugin has been synchronized with the runtime, the invariant
    holds whatever the cache had been loaded with. *)

From S2P Require Import Prelude GoStrings Expr Kube BlnPin TaTypes TaPrefs CchTypes CchContainer CchStore NriPlugin NriFacts NriReach.

Open Scope string_scope.
Open Scope Z_scope.

(** ** Caches *)

Record cache_ok (cch : CCache) : Prop := {
  co_ids id p : cc_Containers cch !! id = Some p → ∃ i, known cch p = Some i ∧ i_id i = id;
  co_unique p q i j : known cch p = Some i → known cch q = Some j → i_id i = i_id j → p = q;
  co_next p : is_Some (known cch p) → (p < cc_next cch)%positive;
  co_requested p i : known cch p = Some i → 0 ≤ i_requested i;
}.

(** A container that is the same up to its state. *)
Definition same (i j : Ident) : Prop :=
  i_id j = i_id i ∧ i_pod j = i_pod i ∧ i_pretty j = i_pretty i ∧ i_requested j = i_requested i.

#[local] Instance same_preorder : PreOrder same.
Proof. split; [done|]. unfold same. intros x y z. intuition congruence. Qed.

(** Containers are deleted from the cache, or change their state. *)
Record shrinks (cch cch' : CCache) : Prop := {
  sh_Containers : cc_Containers cch' ⊆ cc_Containers cch;
  sh_next : cc_next cch' = cc_next cch;
  sh_known p : option_Forall2 same (known cch p) (known cch' p);
}.

#[local] Instance shrinks_preorder : PreOrder shrinks.
Proof.
  split.
  - intros cch. split; [done..|]. intros p. by destruct (known cch p); constructor.
  - intros x y z [H1 H2 H3] [H4 H5 H6]. split; [by etrans|congruence|]. intros p. etrans; [apply H3|apply H6].
Qed.

Lemma frame_shrinks cch cch' : cache_frame cch cch' → shrinks cch cch'.
Proof.
  intros [H1 _ H2 H3]. split; [by rewrite H1|done|]. intros p. rewrite H3. by destruct (known cch p); constructor.
Qed.

Lemma shrinks_ok cch cch' : shrinks cch cch' → cache_ok cch → cache_ok cch'.
Proof.
  intros [Hc Hn Hk] [H1 H2 H3 H4].
  assert (∀ p j, known cch' p = Some j → ∃ i, known cch p = Some i ∧ same i j) as Hb.
  { intros p j Hj. pose proof (Hk p) as Hp. rewrite Hj in Hp. inversion Hp; subst; eauto. }
  split; rewrite ?Hn.
  - intros id p Hid. destruct (H1 id p (lookup_weaken _ _ _ _ Hid Hc)) as (i & Hi & <-). pose proof (Hk p) as Hp. rewrite Hi in Hp.
    inversion Hp as [? j Hs|]; subst. exists j. split; [done|apply Hs].
  - intros p q i j (i' & Hi & Hsi)%Hb (j' & Hj & Hsj)%Hb Heq. eapply H2; [done..|].
    destruct Hsi as [Ei _], Hsj as [Ej _]. congruence.
  - intros p [j (i & Hi & _)%Hb]. eauto.
  - intros p j (i & Hi & _ & _ & _ & ->)%Hb. eauto.
Qed.

Section sync.
Context `{GoRuntime} {S : Type} `{!Backend S, !Accounts S} (E : CEnv) (cfg : ControlCfg) `{!EnvOk E}.
Implicit Types m : nriPlugin S.

Abbreviation knows m := (known (n_cache m)).
Abbreviation ctrs m := (cc_Containers (n_cache m)).
Abbreviation has m := (holds (n_policy m)).

Lemma purge_shrinks p cch : shrinks cch (purge E p cch).
Proof.
  unfold purge. destruct (cc_heap cch !! p) as [c|] eqn:Hc; [|done].
  destruct (DeleteContainer_known E (nc_Id (co_Ctr c)) cch) as (Hn & Hcs & Hk).
  set (cch1 := (DeleteContainer E _ cch).1) in *.
  split; cbn; [rewrite Hcs; apply delete_subseteq|done|]. intros q. rewrite <- (proj1 (Hk q)). unfold known, upd_ctr. cbn.
  destruct (decide (p = q)) as [<-|Hne].
  - rewrite lookup_alter_eq. by destruct (cc_heap cch1 !! p); constructor.
  - rewrite lookup_alter_ne by done. by destruct (cc_heap cch1 !! q); constructor.
Qed.

(** A container that is not stale stays. *)
Lemma purge_keeps p cch id q i : cache_ok cch → cc_Containers cch !! id = Some q → known cch p = Some i → q ≠ p →
  cc_Containers (purge E p cch) !! id = Some q.
Proof.
  intros Hok Hq Hi Hne. unfold purge. unfold known in Hi. destruct (cc_heap cch !! p) as [c|] eqn:Hc; [|done].
  injection Hi as <-. destruct (DeleteContainer_known E (nc_Id (co_Ctr c)) cch) as (_ & Hcs & _). cbn. rewrite Hcs, lookup_delete_ne; [done|].
  intros Heq. destruct (co_ids _ Hok id q Hq) as (j & Hj & Hid). apply Hne. eapply (co_unique _ Hok); [exact Hj| |].
  - unfold known. by rewrite Hc.
  - cbn. rewrite Hid. exact (eq_sym Heq).
Qed.

(** The purge: what is deleted is known, and containers that are not stale stay. *)
Lemma purge_if_spec (stale : CContainer → bool) cch : cache_ok cch →
  (∀ c c', same (ident c) (ident c') → stale c = stale c') →
  shrinks cch (purge_if E stale cch).1 ∧ (∀ p, p ∈ (purge_if E stale cch).2 → is_Some (known cch p)) ∧
  ∀ id p c, cc_Containers cch !! id = Some p → cc_heap cch !! p = Some c → stale c = false →
    cc_Containers (purge_if E stale cch).1 !! id = Some p.
Proof.
  intros Hok Hst. unfold purge_if. generalize (map_range (cc_Containers cch)).*2 as l. intros l.
  assert (∀ st : CCache * list positive, shrinks cch st.1 → (∀ p, p ∈ st.2 → is_Some (known cch p)) →
    (∀ id p c, cc_Containers cch !! id = Some p → cc_heap cch !! p = Some c → stale c = false → cc_Containers st.1 !! id = Some p) →
    let st' := fold_left (λ st p, match cc_heap st.1 !! p with
                                  | Some c => if stale c then (purge E p st.1, app st.2 [p]) else st
                                  | None => st
                                  end) l st in
    shrinks cch st'.1 ∧ (∀ p, p ∈ st'.2 → is_Some (known cch p)) ∧
    ∀ id p c, cc_Containers cch !! id = Some p → cc_heap cch !! p = Some c → stale c = false → cc_Containers st'.1 !! id = Some p) as Hfold.
  2:{ apply (Hfold (cch, [])); cbn; [done|by intros ? ?%not_elem_of_nil|done]. }
  induction l as [|x l IH]; intros [cch1 purged] H1 H2 H3; cbn in *; [done|].
  destruct (cc_heap cch1 !! x) as [cx|] eqn:Hx; [|by apply IH]. destruct (stale cx) eqn:Hsx; [|by apply IH].
  assert (known cch1 x = Some (ident cx)) as Hkx by (unfold known; by rewrite Hx).
  apply IH; cbn.
  - etrans; [exact H1|apply purge_shrinks].
  - intros p [?|Hp%list_elem_of_singleton]%elem_of_app; [eauto|]. subst p. pose proof (sh_known _ _ H1 x) as Hk. rewrite Hkx in Hk.
    inversion Hk; eauto.
  - intros id p c Hp Hc Hs. eapply purge_keeps; [by eapply shrinks_ok|eauto|exact Hkx|]. intros ->.
    pose proof (sh_known _ _ H1 x) as Hk. rewrite Hkx in Hk. unfold known in Hk. rewrite Hc in Hk. inversion Hk as [? ? Hsame|]; subst.
    rewrite (Hst _ _ Hsame) in Hs. congruence.
Qed.

(** ** Refreshing *)

(** Caches that have the same containers, but not the same pods. *)
Record core (cch cch' : CCache) : Prop := {
  cr_Containers : cc_Containers cch' = cc_Containers cch;
  cr_next : cc_next cch' = cc_next cch;
  cr_known p : known cch' p = known cch p;
  cr_cpus p : cpus_at cch' p = cpus_at cch p;
}.

Lemma still_core cch cch' : cache_still cch cch' → core cch cch'.
Proof. by intros [[? _ ? ?] ?]. Qed.

Lemma cache_core_trans x y z : core x y → core y z → core x z.
Proof. intros [H1 H2 H3 H4] [H5 H6 H7 H8]. split; [congruence..| |]; intros p; by rewrite ?H7, ?H8. Qed.

Lemma core_fold {A} (f : CCache → A → CCache) l cch : (∀ cch x, core cch (f cch x)) → core cch (fold_left f l cch).
Proof. intros Hf. revert cch. induction l as [|x l IH]; intros cch; cbn; [by split|]. by eapply cache_core_trans. Qed.

Lemma pods_core v cch : core cch (Save E (with_Pods v cch)).
Proof. apply (cache_core_trans _ (with_Pods v cch)); [by split|apply still_core, Save_still]. Qed.

Lemma core_shrinks cch cch' : core cch cch' → shrinks cch cch'.
Proof. intros [H1 H2 H3 _]. split; [by rewrite H1|done|]. intros p. rewrite H3. by destruct (known cch p); constructor. Qed.

Lemma RefreshPods_spec pods podRes cch : cache_ok cch →
  shrinks cch (RefreshPods E pods podRes cch).1 ∧ (∀ p, p ∈ (RefreshPods E pods podRes cch).2 → is_Some (known cch p)) ∧
  ∀ id p i, cc_Containers cch !! id = Some p → known cch p = Some i → i_pod i ∈ np_Id <$> pods →
    cc_Containers (RefreshPods E pods podRes cch).1 !! id = Some p.
Proof.
  intros Hok. unfold RefreshPods. cbn zeta. set (cch1 := fold_left _ pods cch). set (cch2 := fold_left _ (map_range _) cch1).
  assert (core cch cch2) as Hc.
  { eapply (cache_core_trans _ cch1); apply core_fold.
    - intros c x. case_bool_decide; [by split|]. apply pods_core.
    - intros c [id x]. case_bool_decide; [by split|]. unfold DeletePod. cbn. destruct (cc_Pods c !! id); [apply pods_core|by split]. }
  set (stale := λ c, bool_decide (nc_PodSandboxId (co_Ctr c) ∉ np_Id <$> pods)).
  destruct (purge_if_spec stale cch2) as (Hs & Hp & Hk).
  { by eapply shrinks_ok; [apply core_shrinks|]. }
  { intros c c' (_ & Hpod & _). cbn in Hpod. unfold stale. by rewrite Hpod. }
  destruct (purge_if E stale cch2) as [cch3 purged]. cbn [fst snd] in *.
  assert (∀ v, shrinks cch3 (with_Pods v cch3)) as Hv by (intros v; by apply core_shrinks).
  split_and!.
  - trans cch2; [by apply core_shrinks|]. trans cch3; [done|]. by destruct podRes.
  - intros p Hin. rewrite <- (cr_known _ _ Hc). by apply Hp.
  - intros id p i Hid Hi Hpod. rewrite <- (cr_known _ _ Hc) in Hi. rewrite <- (cr_Containers _ _ Hc) in Hid.
    assert (cc_Containers cch3 !! id = Some p) as Hin.
    { unfold known in Hi. destruct (cc_heap cch2 !! p) as [c|] eqn:Hcc; [|done]. injection Hi as <-.
      apply (Hk id p c Hid Hcc). unfold stale. apply bool_decide_eq_false_2. cbn in Hpod. auto. }
    by destruct podRes.
Qed.

(** The containers the runtime knows, which are in the cache or new. *)
Lemma insert_discovered_spec containers cch cch' : cache_ok cch →
  (∀ c p i, c ∈ containers → known cch p = Some i → i_id i = nc_Id c → cc_Containers cch !! nc_Id c = Some p) →
  insert_discovered E containers cch = (cch', Ok tt) →
  cache_ok cch' ∧ ∀ p i, known cch p = Some i → known cch' p = Some i.
Proof.
  revert cch. induction containers as [|c cs IH]; intros cch Hok Hold; cbn; [by intros [= <-]|].
  case_bool_decide as Hin. { apply IH; [done|]. intros c' p i Hc'. apply Hold. by right. }
  destruct (InsertContainer E c None cch) as [cch1 [p|e]] eqn:Hins; [|done].
  destruct (InsertContainer_spec E _ _ _ _ _ Hins) as (Hp & Hn & Hc & (i & Hi & Hid & _ & Hq) & Hk).
  assert (∀ q j, known cch q = Some j → i_id j ≠ nc_Id c) as Hfresh.
  { intros q j Hj Heq. apply Hin. exists q. by apply (Hold c q j); [left|..]. }
  assert (known cch p = None) as Hnone.
  { destruct (known cch p) as [j|] eqn:Hj; [|done]. pose proof (co_next _ Hok p ltac:(eauto)). subst p. lia. }
  assert (∀ q j, known cch q = Some j → known cch1 q = Some j) as Hfwd.
  { intros q j Hj. rewrite (proj1 (Hk q ltac:(intros ->; congruence))). done. }
  assert (∀ q j, known cch1 q = Some j → q = p ∧ j = i ∨ known cch q = Some j) as Hnew.
  { intros q j Hj. destruct (decide (q = p)) as [->|Hne]; [left; split; congruence|right; by rewrite <- (proj1 (Hk q Hne))]. }
  intros Hrest. destruct (IH cch1) as [H1 H2]; [..|done|].
  - split; rewrite ?Hn, ?Hc.
    + intros id q [[<- <-]|[_ Hq']]%lookup_insert_Some; [eauto|]. destruct (co_ids _ Hok id q Hq') as (j & Hj & <-). eauto.
    + intros q q' j k [[-> ->]|Hj]%Hnew [[-> ->]|Hk']%Hnew Heq; [done|exfalso|exfalso|by eapply (co_unique _ Hok)].
      * apply (Hfresh q' k Hk'). congruence.
      * apply (Hfresh q j Hj). congruence.
    + intros q [j [[-> ->]|Hj]%Hnew]; [lia|]. pose proof (co_next _ Hok q ltac:(eauto)). lia.
    + intros q j [[-> ->]|Hj]%Hnew; [done|by eapply (co_requested _ Hok)].
  - intros c' q j Hc' [[-> ->]|Hj]%Hnew Heq; rewrite Hc.
    + rewrite <- Heq, Hid. apply lookup_insert_eq.
    + rewrite lookup_insert_ne; [apply (Hold c' q j); [by right|done..]|]. intros Hcc. apply (Hfresh q j Hj). congruence.
  - split; [done|]. eauto.
Qed.

Lemma RefreshContainers_spec containers cch cch' purged : cache_ok cch →
  (∀ c p i, c ∈ containers → known cch p = Some i → i_id i = nc_Id c → cc_Containers cch !! nc_Id c = Some p) →
  RefreshContainers E containers cch = (cch', Ok purged) →
  cache_ok cch' ∧ (∀ p, is_Some (known cch p) → is_Some (known cch' p)) ∧ ∀ p, p ∈ purged → is_Some (known cch' p).
Proof.
  intros Hok Hold. unfold RefreshContainers. cbn zeta.
  destruct (insert_discovered E containers cch) as [cch1 [[]|e]] eqn:Hins; [|done].
  destruct (insert_discovered_spec _ _ _ Hok Hold Hins) as [Hok1 Hk1].
  set (stale := λ c, bool_decide (nc_Id (co_Ctr c) ∉ nc_Id <$> containers)).
  destruct (purge_if_spec stale cch1 Hok1) as (Hs & Hp & _).
  { intros c c' (Hid & _). cbn in Hid. unfold stale. by rewrite Hid. }
  destruct (purge_if E stale cch1) as [cch2 pg]. cbn [fst snd] in *. intros [= <- <-].
  set (all := (map_range (cc_Containers cch1)).*2). generalize all. intros l.
  assert (core cch2 (fold_left (λ cch p, refetch_pod_resources p cch) l cch2)) as Hc.
  { apply core_fold. intros c p. apply still_core, upd_ctr_still; intros cc; by destruct (cc_Pods c !! _). }
  assert (∀ p, is_Some (known cch1 p) → is_Some (known (fold_left (λ cch p, refetch_pod_resources p cch) l cch2) p)) as Hfwd.
  { intros p [i Hi]. rewrite (cr_known _ _ Hc). pose proof (sh_known _ _ Hs p) as Hkp. rewrite Hi in Hkp. inversion Hkp; eauto. }
  split_and!.
  - eapply shrinks_ok; [by apply core_shrinks|]. by eapply shrinks_ok.
  - intros p [i Hi]. apply Hfwd. eauto.
  - intros p Hin. by apply Hfwd, Hp.
Qed.

(** ** Containers to allocate resources for *)

Lemma sync_containers m l st :
  let st' := fold_left (sync_container m) l st in
  (∀ p, p ∈ st'.1 ↔ p ∈ st.1 ∨ p ∈ l ∧ live (state_of m p)) ∧ (∀ p, p ∈ st'.2 → p ∈ st.2 ∨ p ∈ l) ∧
  (st.1 ⊆ st.2 → st'.1 ⊆ st'.2).
Proof.
  revert st. induction l as [|x l IH]; intros st; cbn [fold_left].
  { split_and!; [|by left|done]. intros p. split; [by left|]. by intros [?|[?%not_elem_of_nil _]]. }
  destruct (IH (sync_container m st x)) as (H1 & H2 & H3). cbn zeta in *.
  assert (∀ p, p ∈ (sync_container m st x).1 ↔ p ∈ st.1 ∨ p = x ∧ live (state_of m p)) as Hx.
  { intros p. unfold sync_container, live. destruct (state_of m x) eqn:Hs; cbn [fst]; rewrite ?elem_of_app, ?list_elem_of_singleton;
      (destruct (decide (p = x)) as [->|Hne]; [rewrite Hs|]); naive_solver. }
  split_and!.
  - intros p. rewrite H1, Hx, elem_of_cons. naive_solver.
  - intros p Hp. apply H2 in Hp as [Hp|Hp]; [|right; by right]. unfold sync_container in Hp.
    rewrite elem_of_cons. destruct (state_of m x); cbn [snd] in Hp; rewrite ?elem_of_app, ?list_elem_of_singleton in Hp;
      clear -Hp; naive_solver.
  - intros Hsub. apply H3. unfold sync_container. destruct (state_of m x); cbn; try done; intros p Hp;
      rewrite ?elem_of_app in *; naive_solver.
Qed.

Lemma sync_containers_sublist m l st : sublist (fold_left (sync_container m) l st).1 (app st.1 l).
Proof.
  revert st. induction l as [|x l IH]; intros st; cbn [fold_left]; [by rewrite app_nil_r|]. etrans; [apply IH|].
  unfold sync_container. destruct (state_of m x); cbn [fst]; rewrite <- ?app_assoc; cbn;
    (done || (apply sublist_app; [done|by apply sublist_cons])).
Qed.

(** ** Names *)

Lemma NoDup_pointers cch : cache_ok cch → NoDup (snd <$> map_range (cc_Containers cch)).
Proof.
  intros Hok. apply NoDup_fmap_2_strong; [|apply (NoDup_fmap_1 fst), NoDup_map_range]. intros [id p] [id' p'] H1 H2 Heq. cbn in Heq. subst p'.
  apply elem_of_map_range in H1, H2. destruct (co_ids _ Hok _ _ H1) as (i & Hi & <-), (co_ids _ Hok _ _ H2) as (j & Hj & <-).
  by simplify_eq.
Qed.

(** Of the containers seen so far each one is found by its name, or it is one
    of those that are not. *)
Record named (m0 : nriPlugin S) (seen : list positive) (byname unmapped : gmap string positive) : Prop := {
  nm_name name p : byname !! name = Some p → p ∈ seen ∧ name_of m0 p = name;
  nm_seen p : p ∈ seen → byname !! name_of m0 p = Some p ∨ unmapped !! id_of m0 p = Some p;
  nm_unmapped id p : unmapped !! id = Some p → p ∈ seen ∧ id_of m0 p = id;
}.

Lemma map_name m byname ctr : let r := mapNameToContainer ctr (with_byname byname m) in
  match byname !! name_of m ctr with
  | None => r = (with_byname (<[name_of m ctr := ctr]> byname) m, None)
  | Some old => r = (with_byname (<[name_of m ctr := ctr]> byname) m, Some old) ∨ r = (with_byname byname m, Some ctr)
  end.
Proof.
  unfold mapNameToContainer. cbn [n_byname with_byname].
  change (name_of (with_byname byname m) ctr) with (name_of m ctr). destruct (byname !! name_of m ctr); [|done].
  repeat case_bool_decide; auto.
Qed.

Lemma sync_names_spec m l : ∀ seen byname unmapped,
  (∀ p q, p ∈ app seen l → q ∈ app seen l → id_of m p = id_of m q → p = q) → NoDup (app seen l) →
  named m seen byname unmapped →
  ∃ byname' unmapped', sync_names l (with_byname byname m) unmapped = (with_byname byname' m, unmapped') ∧
    named m (app seen l) byname' unmapped'.
Proof.
  induction l as [|c l IH]; intros seen byname unmapped Huniq Hnd Hnm; cbn [sync_names].
  { exists byname, unmapped. by rewrite app_nil_r. }
  pose proof (map_name m byname c) as Hmap. cbn zeta in Hmap.
  replace (app seen (c :: l)) with (app (app seen [c]) l) in * by (by rewrite <- app_assoc).
  assert (c ∉ seen) as Hc.
  { apply NoDup_app in Hnd as [Hnd _]. apply NoDup_app in Hnd as (_ & Hnd & _). intros Hin. apply (Hnd c Hin). by left. }
  assert (∀ p, p ∈ app seen [c] → p ∈ app (app seen [c]) l) as Hin by (intros; apply elem_of_app; by left).
  assert (c ∈ app seen [c]) as Hcs by (apply elem_of_app; right; by left).
  assert (∀ p, p ∈ seen → p ∈ app seen [c]) as Hseen by (intros; apply elem_of_app; by left).
  assert (∀ p, p ∈ seen → id_of m p ≠ id_of m c) as Hid.
  { intros p Hp Heq. apply Hc. replace c with p; [done|]. apply Huniq; auto. }
  destruct Hnm as [H1 H2 H3]. destruct (byname !! name_of m c) as [old|] eqn:Hold.
  - destruct (H1 _ _ Hold) as [Ho Hname]. destruct Hmap as [-> | ->]; change (id_of (with_byname _ m)) with (id_of m).
    + apply IH; [done|done|]. split.
      * intros name p [[<- <-]|[Hne Hp]]%lookup_insert_Some; [done|]. destruct (H1 name p Hp). auto.
      * intros p [Hp|Hp%list_elem_of_singleton]%elem_of_app.
        -- destruct (decide (p = old)) as [->|Hpo]; [right; apply lookup_insert_eq|].
           destruct (H2 p Hp) as [Hb|Hu].
           ++ left. rewrite lookup_insert_ne; [done|]. intros Heq. rewrite Heq in Hold. congruence.
           ++ right. rewrite lookup_insert_ne; [done|]. intros Heq. apply Hpo. symmetry. apply Huniq; auto.
        -- subst. left. apply lookup_insert_eq.
      * intros id p [[<- <-]|[_ Hp]]%lookup_insert_Some; [auto|]. destruct (H3 id p Hp). auto.
    + apply IH; [done|done|]. split.
      * intros name p Hp. destruct (H1 name p Hp). auto.
      * intros p [Hp|Hp%list_elem_of_singleton]%elem_of_app.
        -- destruct (H2 p Hp) as [Hb|Hu]; [by left|right]. rewrite lookup_insert_ne; [done|]. intros Heq. by apply (Hid p Hp).
        -- subst. right. apply lookup_insert_eq.
      * intros id p [[<- <-]|[_ Hp]]%lookup_insert_Some; [auto|]. destruct (H3 id p Hp). auto.
  - rewrite Hmap. apply IH; [done|done|]. split.
    + intros name p [[<- <-]|[_ Hp]]%lookup_insert_Some; [done|]. destruct (H1 name p Hp). auto.
    + intros p [Hp|Hp%list_elem_of_singleton]%elem_of_app; [|subst; left; apply lookup_insert_eq].
      destruct (H2 p Hp) as [Hb|Hu]; [left|by right]. rewrite lookup_insert_ne; [done|]. intros Heq. rewrite Heq in Hold. congruence.
    + intros id p Hp. destruct (H3 id p Hp). auto.
Qed.

(** Containers that are not found by their name have exited. *)
Lemma set_states_spec (l : list (string * positive)) m :
  let m' := fold_left (λ m old, set_state ContainerStateExited old.2 m) l m in
  n_byname m' = n_byname m ∧ n_policy m' = n_policy m ∧ ctrs m' = ctrs m ∧ cc_next (n_cache m') = cc_next (n_cache m) ∧
  ∀ p, knows m' p = if bool_decide (p ∈ snd <$> l) then with_istate ContainerStateExited <$> knows m p else knows m p.
Proof.
  revert m. induction l as [|[id q] l IH]; intros m; cbn [fold_left]; [done|].
  destruct (IH (set_state ContainerStateExited q m)) as (H1 & H2 & H3 & H4 & H5). cbn zeta in *.
  split_and!; [done..|]. intros p. rewrite H5, known_set_state. cbn [fmap list_fmap snd].
  destruct (decide (q = p)) as [->|Hne].
  - rewrite (bool_decide_eq_true_2 (p = p)), (bool_decide_eq_true_2 (p ∈ p :: _)) by (done || by left).
    case_bool_decide; [|done]. by destruct (knows m p).
  - rewrite (bool_decide_eq_false_2 (q = p)) by done.
    rewrite (bool_decide_ext (p ∈ q :: l.*2) (p ∈ l.*2)); [done|]. rewrite elem_of_cons. naive_solver.
Qed.

(** ** The request *)

(** What the runtime tells agrees with what the cache has loaded: a container
    known to both is of a pod the runtime knows. *)
Definition runtime_ok (pods : list NriPod) (containers : list NriContainer) (cch : CCache) : Prop :=
  ∀ c p i, c ∈ containers → known cch p = Some i → i_id i = nc_Id c →
    cc_Containers cch !! nc_Id c = Some p ∧ i_pod i ∈ np_Id <$> pods.

Lemma RefreshContainers_err containers cch cch' e : RefreshContainers E containers cch = (cch', Err e) → e = Panic.
Proof.
  unfold RefreshContainers. cbn zeta. destruct (insert_discovered E containers cch) as [cch1 [[]|e']] eqn:Hins.
  { by destruct (purge_if _ _ _). }
  intros [= <- <-]. revert cch Hins. induction containers as [|c cs IH]; intros cch; cbn; [done|].
  case_bool_decide; [apply IH|]. destruct (InsertContainer E c None cch) as [cch2 [p|e2]] eqn:Hi; [apply IH|].
  intros [= <- <-]. exact (InsertContainer_spec E _ _ _ _ _ Hi).
Qed.

Lemma syncWithNRI_spec pods containers podRes m m' r : cache_ok (n_cache m) → runtime_ok pods containers (n_cache m) →
  syncWithNRI E pods containers podRes m = (m', r) → r ≠ Err Panic →
  ∃ allocated released, r = Ok (allocated, released) ∧ n_byname m' = n_byname m ∧ n_policy m' = n_policy m ∧
    cache_ok (n_cache m') ∧ (∀ p, p ∈ allocated ↔ p ∈ GetContainers (n_cache m') ∧ live (state_of m' p)) ∧ NoDup allocated ∧
    (∀ p, p ∈ released → is_Some (knows m' p)) ∧ allocated ⊆ released.
Proof.
  intros Hok Hrt. unfold syncWithNRI. set (cch0 := BlockSave (n_cache m)).
  assert (cache_ok cch0) as Hok0 by (eapply shrinks_ok; [apply frame_shrinks, cs_frame, BlockSave_still|done]).
  destruct (RefreshPods_spec pods podRes cch0 Hok0) as (Hs1 & Hp1 & Hk1).
  destruct (RefreshPods E pods podRes cch0) as [cch1 deleted]. cbn [fst snd] in *.
  assert (cache_ok cch1) as Hok1 by (by eapply shrinks_ok).
  destruct (RefreshContainers E containers cch1) as [cch2 [deleted'|e]] eqn:Hrc.
  2:{ apply RefreshContainers_err in Hrc as ->. intros [= <- <-] Hn. by destruct Hn. }
  destruct (RefreshContainers_spec containers cch1 cch2 deleted' Hok1) as (Hok2 & Hk2 & Hp2); [|done|].
  { intros c p i Hc Hi Hid. pose proof (sh_known _ _ Hs1 p) as Hs. rewrite Hi in Hs. inversion Hs as [j i' Hji Hj|]; subst.
    destruct Hji as (E1 & _). destruct (Hrt c p j Hc (eq_sym Hj)) as [Hin Hpod]; [congruence|]. by apply (Hk1 _ p j). }
  set (m2 := with_cache cch2 m). set (l := GetContainers cch2).
  destruct (sync_containers m2 l ([], app deleted deleted')) as (H1 & H2 & H3).
  destruct (fold_left (sync_container m2) l ([], app deleted deleted')) as [allocated released] eqn:Hlists. cbn [fst snd] in *.
  intros [= <- <-] _. exists allocated, released.
  pose proof (cs_frame _ _ (UnblockSave_still E cch2)) as Hu.
  assert (∀ p, state_of (on_cache (UnblockSave E) m2) p = state_of m2 p) as Hstate.
  { intros p. pose proof (cf_known _ _ Hu p) as Hk. unfold state_of, ctr_at, known in *. cbn in *.
    destruct (cc_heap (UnblockSave E cch2) !! p), (cc_heap cch2 !! p); try done. cbn in *. by injection Hk. }
  assert (∀ p, p ∈ l → is_Some (known cch2 p)) as Hl.
  { intros p Hp. apply list_elem_of_fmap in Hp as ([id q] & -> & Hq%elem_of_map_range). destruct (co_ids _ Hok2 _ _ Hq) as (i & Hi & _).
    eauto. }
  assert (∀ p, p ∈ allocated ↔ p ∈ l ∧ live (state_of m2 p)) as Hall.
  { intros p. rewrite H1. split; [|by right]. intros [?%not_elem_of_nil|?]; done. }
  split_and!; [done|done|done| | |..].
  - eapply shrinks_ok; [apply frame_shrinks, Hu|done].
  - intros p. rewrite Hall, Hstate. unfold GetContainers. cbn. by rewrite (cf_Containers _ _ Hu).
  - pose proof (sync_containers_sublist m2 l ([], app deleted deleted')) as Hsub. rewrite Hlists in Hsub.
    eapply sublist_NoDup; [by apply NoDup_pointers|exact Hsub].
  - intros p Hp. cbn. rewrite (cf_known _ _ Hu). apply H2 in Hp as [[Hp|Hp]%elem_of_app|Hp]; [|by apply Hp2|by apply Hl].
    apply Hk2. destruct (Hp1 p Hp) as [i Hi]. pose proof (sh_known _ _ Hs1 p) as Hs. rewrite Hi in Hs. inversion Hs; eauto.
  - apply H3. intros p ?%not_elem_of_nil. done.
Qed.
End sync.
