(* ===== verification/NriMain.v ===== *)
(** * The NRI plugin as a state machine

    States that requests of the runtime lead to after the plugin has been
    synchronized with it, what holds in all of them, and what the requests
    promise. *)

From S2P Require Import Prelude GoStrings Expr Kube BlnPin TaTypes TaPrefs CchTypes CchContainer CchStore NriPlugin NriFacts NriReach NriSync.

Open Scope string_scope.
Open Scope Z_scope.

Section main.
Context `{GoRuntime} {S : Type} `{!Backend S, !Accounts S} (E : CEnv) (cfg : ControlCfg) `{!EnvOk E}.
Implicit Types m : nriPlugin S.

Abbreviation knows m := (known (n_cache m)).
Abbreviation ctrs m := (cc_Containers (n_cache m)).
Abbreviation has m := (holds (n_policy m)).
Abbreviation ok := (nri_ok (S := S)).
Abbreviation fine m := (acc_ok (cpusets (n_cache m)) (n_policy m)).

(** ** Synchronizing *)

(** A plugin that has not been synchronized: the policy has just been started,
    the cache may have been loaded. *)
Record started (m : nriPlugin S) : Prop := {
  st_cache : cache_ok (n_cache m);
  st_byname : n_byname m = ∅;
  st_holds : has m = ∅;
  st_policy : fine m;
}.

(** The names and the containers that are not found by them. *)
Lemma named_containers m l : (∀ p, p ∈ l → is_Some (knows m p)) → cache_ok (n_cache m) → NoDup l → n_byname m = ∅ →
  ∃ byname unmapped, syncNamesToContainers l m = (with_byname byname m, unmapped) ∧ named m l byname unmapped.
Proof.
  intros Hk Hok Hnd Hb. unfold syncNamesToContainers.
  destruct (sync_names_spec m l [] ∅ ∅) as (b & u & Heq & Hnm); [|done| |].
  - cbn. intros p q Hp Hq. destruct (Hk p Hp) as [i Hi], (Hk q Hq) as [j Hj].
    rewrite (id_of_known m p i Hi), (id_of_known m q j Hj). by apply (co_unique _ Hok).
  - split; [by intros ??|by intros ? ?%not_elem_of_nil|by intros ??].
  - exists b, u. rewrite <- Heq. by destruct m as [? ? ? ? ?]; cbn in Hb; subst.
Qed.

(** The plugin after containers that are not found by their names have been
    marked as exited: those to allocate resources for, and live ones, are found. *)
Record settled (m1 m3 : nriPlugin S) (allocated : list positive) (unmapped : gmap string positive) : Prop := {
  se_shrinks : shrinks (n_cache m1) (n_cache m3);
  se_ctrs : ctrs m3 = ctrs m1;
  se_policy : n_policy m3 = n_policy m1;
  se_names name p : n_byname m3 !! name = Some p → ∃ j, knows m3 p = Some j ∧ i_pretty j = name;
  se_state p j : knows m3 p = Some j → live (i_state j) → ∃ i, knows m1 p = Some i ∧ i_state i = i_state j;
  se_found p j : p ∈ allocated → knows m3 p = Some j → unmapped !! id_of m3 p = None ∨ live (i_state j) →
    n_byname m3 !! i_pretty j = Some p;
}.

Lemma settle m1 l m2 unmapped : (∀ p, p ∈ l → is_Some (knows m1 p)) → cache_ok (n_cache m1) → NoDup l → n_byname m1 = ∅ →
  syncNamesToContainers l m1 = (m2, unmapped) →
  settled m1 (fold_left (λ m old, set_state ContainerStateExited old.2 m) (map_range unmapped) m2) l unmapped.
Proof.
  intros Hk Hok Hnd Hb Hsync. destruct (named_containers m1 l Hk Hok Hnd Hb) as (byname & u & Heq & [N1 N2 N3]).
  rewrite Hsync in Heq. injection Heq as -> <-.
  destruct (set_states_spec (map_range unmapped) (with_byname byname m1)) as (B3 & P3 & C3 & X3 & K3). cbn zeta in *.
  set (m3 := fold_left _ _ _) in *. change (knows (with_byname byname m1)) with (knows m1) in K3.
  assert (∀ p, p ∈ (map_range unmapped).*2 ↔ unmapped !! id_of m1 p = Some p) as Hun.
  { intros p. rewrite list_elem_of_fmap. split.
    - intros ([id q] & -> & Hq%elem_of_map_range). cbn [snd]. by destruct (N3 id q Hq) as [_ ->].
    - intros Hu. exists (id_of m1 p, p). by rewrite elem_of_map_range. }
  assert (∀ p j, knows m3 p = Some j → ∃ i, knows m1 p = Some i ∧ same i j ∧
    (live (i_state j) → i_state i = i_state j ∧ unmapped !! id_of m1 p ≠ Some p)) as Hback.
  { intros p j. rewrite K3. case_bool_decide as Hin; rewrite Hun in Hin.
    - destruct (knows m1 p) as [i|]; [|done]. cbn. intros [= <-]. exists i. split_and!; [done|done|]. by intros [|].
    - intros Hj. by exists j. }
  split; [|done|done|..].
  - split; [by rewrite C3|done|]. intros p. rewrite K3. case_bool_decide; destruct (knows m1 p); by constructor.
  - rewrite B3. intros name p Hn. destruct (N1 name p Hn) as [Hp Hname]. destruct (Hk p Hp) as [i Hi].
    rewrite (name_of_known m1 p i Hi) in Hname. rewrite K3, Hi. case_bool_decide; cbn; eauto.
  - intros p j Hj Hl. destruct (Hback p j Hj) as (i & Hi & _ & Hs). exists i. split; [done|by apply Hs].
  - intros p j Hp Hj Hfound. destruct (Hback p j Hj) as (i & Hi & (Eid & _ & -> & _) & Hs). rewrite B3.
    rewrite <- (name_of_known m1 p i Hi). destruct (N2 p Hp) as [Hn|Hu]; [done|]. destruct Hfound as [Hnone|Hl].
    + rewrite (id_of_known m3 p j Hj), Eid, <- (id_of_known m1 p i Hi) in Hnone. congruence.
    + by destruct (Hs Hl).
Qed.

(** The invariant, once resources have been allocated. *)
Lemma settled_ok m1 m3 allocated unmapped cch s : cache_ok (n_cache m1) → settled m1 m3 allocated unmapped →
  (∀ p, p ∈ allocated ↔ p ∈ GetContainers (n_cache m1) ∧ live (state_of m1 p)) →
  cache_frame (n_cache m3) cch → acc_ok (cpusets cch) s →
  (∀ id, id ∈ holds s → ∃ p j, p ∈ allocated ∧ unmapped !! id_of m3 p = None ∧ knows m3 p = Some j ∧ i_id j = id) →
  ok (MkNriPlugin (n_byname m3) cch s (n_hooks m3) (n_exported m3)).
Proof.
  intros Hok [Hs Hc _ Hn Hst Hf] Hall [Hc' _ Hn' Hk] Ho Hh. pose proof (shrinks_ok _ _ Hs Hok) as [H1 H2 H3 H4].
  split; cbn; rewrite ?Hc', ?Hn'; [..|done].
  - intros id p Hin. rewrite Hk. by apply H1.
  - intros p q i j. rewrite !Hk. by apply H2.
  - intros p. rewrite Hk. by apply H3.
  - intros p i. rewrite Hk. by apply H4.
  - intros name p. rewrite Hk. apply Hn.
  - intros id Hid. destruct (Hh id Hid) as (p & j & Hp & Hnone & Hj & <-). exists (i_pretty j), p, j.
    rewrite Hk. split_and!; [|done|done]. apply (Hf p j Hp Hj). by left.
  - intros id p j. rewrite Hk. intros Hin Hj Hl. destruct (Hst p j Hj Hl) as (i & Hi & Es). apply (Hf p j); [|done|by right].
    apply Hall. rewrite (state_of_known m1 p i Hi), Es. split; [|done]. apply list_elem_of_fmap. exists (id, p). split; [done|].
    rewrite elem_of_map_range. by rewrite <- Hc.
Qed.

Lemma Synchronize_ok pods containers podRes m m' r : started m → runtime_ok pods containers (n_cache m) →
  Synchronize E cfg pods containers podRes m = (m', r) → r ≠ Err Panic → ok m' ∧ ∃ updates, r = Ok updates.
Proof.
  intros [Hok Hb Hh Hp] Hrt. unfold Synchronize. destruct (syncWithNRI E pods containers podRes m) as [m1 r1] eqn:Hs.
  destruct (decide (r1 = Err Panic)) as [->|Hr1]; [by intros [= <- <-]|].
  destruct (syncWithNRI_spec E _ _ _ _ _ _ Hok Hrt Hs Hr1) as (allocated & released & -> & Hb1 & Hp1 & Hok1 & Hall & Hnd & Hrel & Hsub).
  assert (∀ p, p ∈ allocated → is_Some (knows m1 p)) as Hka by (intros p Hpa; by apply Hrel, Hsub).
  destruct (syncNamesToContainers allocated m1) as [m2 unmapped] eqn:Hnames.
  pose proof (settle m1 allocated m2 unmapped Hka Hok1 Hnd ltac:(by rewrite Hb1) Hnames) as Hse.
  set (m3 := fold_left _ _ m2) in *. set (allocate := filter (λ p, unmapped !! id_of m3 p = None) allocated).
  pose proof (shrinks_ok _ _ (se_shrinks _ _ _ _ Hse) Hok1) as Hok3.
  assert (∀ p, is_Some (knows m1 p) → ∃ j, knows m3 p = Some j) as Hfwd.
  { intros p [i Hi]. pose proof (sh_known _ _ (se_shrinks _ _ _ _ Hse) p) as Hk. rewrite Hi in Hk. inversion Hk; eauto. }
  unfold ask. destruct (be_Sync allocate released (n_cache m3) (n_policy m3)) as [[cch s] rs] eqn:Hsync.
  destruct (decide (rs = Err Panic)) as [->|Hrs]; [by intros [= <- <-]|].
  apply acc_sync in Hsync as (-> & Hf & Ho & Hheld).
  2:{ rewrite (se_policy _ _ _ _ Hse), Hp1. eapply acc_mono; [|exact Hp]. rewrite Hh. by intros id x ?%not_elem_of_empty. }
  2:{ exact (co_ids _ Hok3). }
  2:{ intros p [_ Hpa]%list_elem_of_filter. destruct (Hfwd p (Hka p Hpa)) as (j & Hj).
      exists j. split; [done|by apply (co_requested _ Hok3 p)]. }
  2:{ intros p Hpr. destruct (Hfwd p (Hrel p Hpr)) as (j & Hj). eauto. }
  2:{ intros p [_ Hpa]%list_elem_of_filter. by apply Hsub. }
  2:{ by apply NoDup_filter. }
  2:{ apply (co_unique _ Hok3). }
  2:{ done. }
  set (m4 := MkNriPlugin _ cch s _ _).
  pose proof (getPendingUpdates_quiet E cfg None m4) as Hq. destruct (getPendingUpdates E cfg None m4) as [m5 us].
  intros [= <- <-] _. split; [|eauto]. eapply quiet_ok; [exact Hq|]. apply (settled_ok m1 m3 allocated unmapped); try done.
  intros id [[Hin _]|(p & j & [Hnone Hpa]%list_elem_of_filter & Hj & <-)]%Hheld; [|eauto 6].
  rewrite (se_policy _ _ _ _ Hse), Hp1, Hh in Hin. by apply not_elem_of_empty in Hin.
Qed.

(** ** Requests *)

(** A container of which the runtime has not told before. *)
Definition new_id (id : string) (m : nriPlugin S) : Prop := ∀ p i, knows m p = Some i → i_id i ≠ id.

(** The container is in the cache, and created or running. *)
Definition is_live (id : string) (m : nriPlugin S) : Prop :=
  ∃ p i, ctrs m !! id = Some p ∧ knows m p = Some i ∧ live (i_state i).

(** Requests of the runtime, and updates pushed to it.  IDs of containers are
    not used again, and only live containers are started and updated. *)
Inductive nri_step : nriPlugin S → nriPlugin S → Prop :=
  | ns_run_pod pod podRes m : nri_step m (RunPodSandbox E pod podRes m)
  | ns_stop_pod id m : nri_step m (StopPodSandbox id m)
  | ns_remove_pod id m : nri_step m (RemovePodSandbox E id m)
  | ns_create ctr m m' r : new_id (nc_Id ctr) m → CreateContainer E cfg ctr m = (m', r) → r ≠ Err Panic → nri_step m m'
  | ns_start id m : is_live id m → nri_step m (StartContainer id m)
  | ns_update id res_ m : is_live id m → nri_step m (UpdateContainer E cfg id res_ m).1
  | ns_stop id m : nri_step m (StopContainer E cfg id m).1
  | ns_remove id m : nri_step m (RemoveContainer E id m)
  | ns_push sent m : nri_step m (updateContainers E cfg sent m).1.

(** States reached after the plugin, in the state [m0], has been synchronized. *)
Definition nri_reachable (m0 m : nriPlugin S) : Prop :=
  ∃ pods containers podRes m1 updates, started m0 ∧ runtime_ok pods containers (n_cache m0) ∧
    Synchronize E cfg pods containers podRes m0 = (m1, Ok updates) ∧ rtc nri_step m1 m.

Lemma pods_ok m m' : n_byname m' = n_byname m → n_policy m' = n_policy m → core (n_cache m) (n_cache m') → ok m → ok m'.
Proof.
  intros Hb Hp [Hc Hn Hk Hu] Hok. apply (nri_ok_sim m); [done|by rewrite Hc|done| | |rewrite Hp; by left|done].
  - intros q. rewrite Hk. apply option_sim.
  - rewrite Hp. eapply acc_mono; [|apply (no_policy _ Hok)]. intros id x _. by rewrite (cpusets_at _ _ id Hc Hu).
Qed.

Lemma updateContainers_quiet sent m : quiet m (updateContainers E cfg sent m).1.
Proof.
  unfold updateContainers. pose proof (peekPendingUpdates_quiet cfg None m) as Hq.
  destruct (peekPendingUpdates cfg None m) as [m1 us]. cbn [fst] in Hq. destruct (sent us); cbn [fst]; [|done].
  etrans; [exact Hq|apply clearPendingUpdates_quiet].
Qed.

Lemma RemovePodSandbox_ok id m : ok m → ok (RemovePodSandbox E id m).
Proof.
  intros Hok. unfold RemovePodSandbox. destruct (LookupPod id (n_cache m)); [|done].
  pose proof (runPostReleaseHooks_quiet (pod_containers id (n_cache m)) m) as Hq.
  eapply pods_ok; [| | |eapply quiet_ok; [exact Hq|done]]; [done..|].
  cbn. unfold DeletePod. destruct (cc_Pods _ !! id); [apply pods_core|done].
Qed.

Lemma nri_step_ok m m' : nri_step m m' → ok m → ok m'.
Proof.
  intros Hs Hok. destruct Hs as [pod podRes m|id m|id m|ctr m m' r Hn Hc Hr|id m (p & i & Hp & Hi & Hl)|id r m (p & i & Hp & Hi & Hl)|
    id m|id m|sent m].
  - apply (pods_ok m); [done|done|apply pods_core|done].
  - unfold StopPodSandbox. destruct (LookupPod id (n_cache m)); [|done]. eapply quiet_ok; [apply runPostReleaseHooks_quiet|done].
  - by apply RemovePodSandbox_ok.
  - by eapply CreateContainer_ok.
  - by eapply StartContainer_ok.
  - destruct (UpdateContainer E cfg id r m) as [m' ru] eqn:Hu. by eapply UpdateContainer_ok.
  - destruct (StopContainer E cfg id m) as [m' ru] eqn:Hu. by eapply StopContainer_ok.
  - by apply RemoveContainer_ok.
  - eapply quiet_ok; [apply updateContainers_quiet|done].
Qed.

Lemma nri_reachable_ok m0 m : nri_reachable m0 m → ok m.
Proof.
  intros (pods & cs & pr & m1 & us & Hst & Hrt & Hsync & Hsteps).
  assert (ok m1) as Hok by (by eapply Synchronize_ok). clear Hst Hrt Hsync. induction Hsteps as [m|m m2 m3 Hs _ IH]; [done|].
  apply IH. by eapply nri_step_ok.
Qed.

(** ** What holds in all states *)

(** The container with an ID, and the name it is found by. *)
Definition called (m : nriPlugin S) (id name : string) : Prop :=
  ∃ p c, n_byname m !! name = Some p ∧ cc_heap (n_cache m) !! p = Some c ∧ nc_Id (co_Ctr c) = id ∧ co_prettyName c = name.

Lemma known_Some cch p i : known cch p = Some i → ∃ c, cc_heap cch !! p = Some c ∧ ident c = i.
Proof. unfold known. destruct (cc_heap cch !! p) as [c|]; [|done]. intros [= <-]. eauto. Qed.

Lemma called_known m id name p i : ok m → n_byname m !! name = Some p → knows m p = Some i → i_id i = id → called m id name.
Proof.
  intros Hok Hn Hi <-. destruct (no_names _ Hok name p Hn) as (j & Hj & <-). destruct (known_Some _ _ _ Hi) as (c & Hc & <-).
  exists p, c. split_and!; [done..|]. rewrite Hi in Hj. by injection Hj as <-.
Qed.

(** C2: No resources are lost track of, as long as the runtime starts and
    updates only containers that the plugin has as created or running, and does
    not use the ID of a container again ([nri_step]): in every state that such
    requests, failed ones included, lead to after synchronization with a cache
    that agrees with the runtime ([nri_reachable]), if annotated CPU requests are
    not negative ([EnvOk]), with any policy
    that accounts for the resources it gives ([Accounts], which the
    topology-aware policy meets), a container that has resources is found by its
    name, so that of all containers with the same name at most one has resources.
    Every container in the cache that is created or running is found by its name,
    too.  Both restrictions are needed: see [nex_updated_stopped],
    [nex_updated_replaced] and [nex_started_replaced] in NriWitness. *)
Theorem nri_tracks m0 m : nri_reachable m0 m →
  (∀ id, id ∈ holds (n_policy m) → ∃ name, called m id name) ∧
  (∀ id id' name, called m id name → called m id' name → id = id') ∧
  ∀ id p c, cc_Containers (n_cache m) !! id = Some p → cc_heap (n_cache m) !! p = Some c → live (GetState c) →
    called m id (co_prettyName c).
Proof.
  intros Hok%nri_reachable_ok. split_and!.
  - intros id Hid. destruct (no_held _ Hok id Hid) as (name & p & i & Hn & Hi & Hi'). exists name.
    by eapply called_known.
  - intros id id' name (p & c & Hp & Hc & <- & _) (q & d & Hq & Hd & <- & _). by simplify_eq.
  - intros id p c Hp Hc Hl. assert (knows m p = Some (ident c)) as Hk by (unfold known; by rewrite Hc).
    exists p, c. split_and!; [by apply (no_live _ Hok id p (ident c))|done| |done].
    destruct (no_ids _ Hok id p Hp) as (i & Hi & <-). by simplify_eq.
Qed.

(** ** Creating and stopping containers

    Of a policy that accounts for the resources it gives. *)

Lemma CreateContainer_holds m0 m ctr m' r : nri_reachable m0 m → new_id (nc_Id ctr) m →
  CreateContainer E cfg ctr m = (m', r) → r ≠ Err Panic →
  nri_reachable m0 m' ∧
  match r with
  | Ok _ => ∃ p c, cc_Containers (n_cache m') !! nc_Id ctr = Some p ∧ cc_heap (n_cache m') !! p = Some c ∧
      GetState c = ContainerStateCreated ∧ called m' (nc_Id ctr) (co_prettyName c) ∧
      ∀ id, id ∈ holds (n_policy m') ↔ id = nc_Id ctr ∨ id ∈ holds (n_policy m) ∧ ¬ called m id (co_prettyName c)
  | Err _ => (nc_Id ctr ∉ holds (n_policy m')) ∧ holds (n_policy m') ⊆ holds (n_policy m)
  end.
Proof.
  intros Hre Hnew Hc Hr. pose proof (nri_reachable_ok _ _ Hre) as Hok. split.
  { destruct Hre as (pods & cs & pr & m1 & us & H1 & H2 & H3 & H4). exists pods, cs, pr, m1, us. split_and!; [done..|].
    eapply rtc_r; [exact H4|]. by eapply ns_create. }
  destruct (CreateContainer_ok E cfg ctr m m' r Hok Hnew Hc Hr) as (_ & m1 & Hc1 & [Hb Hp [[Hcs _ _ Hk] _]]).
  assert (ok (on_cache BlockSave m)) as Hok0 by (eapply quiet_ok; [apply quiet_cache, BlockSave_still|done]).
  destruct (create_container_ok E cfg ctr _ _ _ Hok0 Hnew Hc1 Hr) as [_ Hspec].
  rewrite Hp. destruct r as [u|e]; [|done]. destruct Hspec as (p & i & Hin & Hi & Hid & Hs & Hname & Hhas & Hsub & Hgone & Hrest).
  rewrite <- Hk in Hi. destruct (known_Some _ _ _ Hi) as (c & Hcc & <-). exists p, c.
  cbn in Hid, Hs, Hname, Hgone, Hrest. split_and!; [by rewrite Hcs|done|done|exists p, c; rewrite Hb; by split_and!|].
  assert (∀ id, called m id (co_prettyName c) ↔ ∃ q j, n_byname m !! co_prettyName c = Some q ∧ knows m q = Some j ∧ i_id j = id)
    as Hcalled.
  { intros id. split.
    - intros (q & d & Hq & Hd & <- & _). exists q, (ident d). unfold known. by rewrite Hd.
    - intros (q & j & Hq & Hj & <-). destruct (no_names _ Hok _ _ Hq) as (k & Hk' & Hname').
      destruct (known_Some _ _ _ Hj) as (d & Hd & <-). rewrite Hj in Hk'. injection Hk' as <-. by exists q, d. }
  intros id. rewrite Hcalled. split.
  - intros Hin'. pose proof (Hsub id Hin') as Hor. apply elem_of_union in Hor. destruct Hor as [Hold|Heq]; [right|left; by apply elem_of_singleton in Heq].
    split; [done|]. intros (q & j & Hq & Hj & <-). exact (Hgone q j Hq Hj Hin').
  - intros [->|[Hold Hn]]; [done|]. destruct (Hrest id Hold) as [?|?]; [done|]. by destruct Hn.
Qed.

Lemma StopContainer_holds m0 m id p m' r : nri_reachable m0 m → StopContainer E cfg id m = (m', r) →
  cc_Containers (n_cache m) !! id = Some p →
  nri_reachable m0 m' ∧ (∃ updates, r = Ok updates) ∧ holds (n_policy m') = holds (n_policy m) ∖ {[id]} ∧
  ∀ name, n_byname m' !! name ≠ Some p.
Proof.
  intros Hre Hs Hp. pose proof (nri_reachable_ok _ _ Hre) as Hok.
  destruct (StopContainer_ok E cfg id m m' r Hok Hs) as (Hok' & Hr & Hrel). destruct (Hrel p Hp) as [Hh Hgone].
  split_and!; [|done|done|].
  { destruct Hre as (pods & cs & pr & m1 & us & H1 & H2 & H3 & H4). exists pods, cs, pr, m1, us. split_and!; [done..|].
    eapply rtc_r; [exact H4|]. replace m' with (StopContainer E cfg id m).1 by (by rewrite Hs). apply ns_stop. }
  intros name Hname. apply (Hgone name). done.
Qed.
End main.
