(* ===== verification/NriPending.v ===== *)
(** * Pending updates

    Updates of containers are sent to the runtime; those that cannot be sent,
    or that the runtime fails to apply, stay pending, all others are cleared. *)

From S2P Require Import Prelude GoStrings Expr Kube BlnPin TaTypes TaPrefs CchTypes CchContainer CchStore NriPlugin NriFacts.

Open Scope string_scope.
Open Scope Z_scope.

Section pending.
Context `{GoRuntime} {S : Type} `{!Backend S} (E : CEnv) (cfg : ControlCfg).
Implicit Types m : nriPlugin S.

(** ** Looking at updates *)

(** A container whose update has been looked at, and the update. *)
Definition peeked (cch : CCache) (c : CContainer) : CContainer * option ContainerUpdate :=
  match PeekPendingUpdate c with
  | (c, None) => (c, None)
  | (c, Some u) =>
      let u := upd_with_Resources (setDefaultClasses cfg c (qos_of cch c) (upd_Resources u)) u in
      (with_request (Some (PendingUpdate u)) c, Some u)
  end.

Lemma peek_one_spec p cch c : cc_heap cch !! p = Some c →
  peek_one cfg p cch = (with_heap (<[p := (peeked cch c).1]> (cc_heap cch)) cch, option_list (peeked cch c).2).
Proof.
  intros Hc. unfold peek_one, peeked. rewrite Hc. by destruct (PeekPendingUpdate c) as [c' [u|]].
Qed.

Lemma peek_all_spec ps cch : NoDup ps → (∀ p, p ∈ ps → is_Some (cc_heap cch !! p)) →
  let r := peek_all cfg ps cch in
  (∀ q, cc_heap r.1 !! q = if bool_decide (q ∈ ps) then (λ c, (peeked cch c).1) <$> cc_heap cch !! q else cc_heap cch !! q) ∧
  r.2 = omap (λ p, cc_heap cch !! p ≫= λ c, (peeked cch c).2) ps ∧
  cc_pending r.1 = cc_pending cch ∧ cc_Containers r.1 = cc_Containers cch.
Proof.
  revert cch. induction ps as [|p ps IH]; intros cch Hnd Hk; cbn [peek_all]; [by cbn|].
  apply NoDup_cons in Hnd as [Hp Hnd]. destruct (Hk p ltac:(by left)) as [c Hc]. rewrite (peek_one_spec p cch c Hc).
  set (cch1 := with_heap _ cch). assert (∀ q, q ∈ ps → cc_heap cch1 !! q = cc_heap cch !! q) as Hsame.
  { intros q Hq. cbn. rewrite lookup_insert_ne; [done|]. by intros ->. }
  destruct (IH cch1 Hnd) as (H1 & H2 & H3 & H4).
  { intros q Hq. rewrite Hsame by done. apply Hk. by right. }
  destruct (peek_all cfg ps cch1) as [cch2 us]. cbn [fst snd] in *. split_and!; [|..].
  - intros q. rewrite H1. destruct (decide (q = p)) as [->|Hne].
    + rewrite (bool_decide_eq_false_2 (p ∈ ps)), (bool_decide_eq_true_2 (p ∈ p :: ps)) by (done || by left).
      rewrite Hc. cbn. by rewrite lookup_insert_eq.
    + rewrite (bool_decide_ext (q ∈ p :: ps) (q ∈ ps)) by set_solver.
      assert (cc_heap cch1 !! q = cc_heap cch !! q) as -> by (cbn; by rewrite lookup_insert_ne). done.
  - assert (omap (λ q, cc_heap cch1 !! q ≫= λ d, (peeked cch1 d).2) ps = omap (λ q, cc_heap cch !! q ≫= λ d, (peeked cch d).2) ps) as Hl.
    { apply list_omap_ext, Forall_Forall2_diag, Forall_forall. intros q Hq. by rewrite (Hsame q Hq). }
    rewrite H2, Hl. cbn. rewrite Hc. cbn. by destruct ((peeked cch c).2).
  - done.
  - done.
Qed.

(** ** Clearing updates *)

Lemma ClearPendings_spec p l c cch : cc_heap cch !! p = Some c → co_pending c = list_to_set l → NoDup l → l ≠ [] →
  let cch' := fold_left (λ cch ctrl, ClearPending p ctrl cch) l cch in
  cc_heap cch' = <[p := with_pending ∅ c]> (cc_heap cch) ∧ cc_pending cch' = cc_pending cch ∖ {[nc_Id (co_Ctr c)]} ∧
  cc_Containers cch' = cc_Containers cch.
Proof.
  revert c cch. induction l as [|x l IH]; intros c cch Hc Hl Hnd Hne; [done|]. apply NoDup_cons in Hnd as [Hx Hnd].
  cbn [fold_left]. set (c1 := with_pending (co_pending c ∖ {[x]}) c).
  assert (co_pending c1 = list_to_set l) as Hl1 by (cbn; rewrite Hl; set_solver).
  set (cch1 := with_heap (<[p := c1]> (cc_heap cch)) cch).
  assert (ClearPending p x cch = if bool_decide (co_pending c1 = ∅)
    then with_cpending (cc_pending cch1 ∖ {[nc_Id (co_Ctr c)]}) cch1 else cch1) as -> by (unfold ClearPending; by rewrite Hc).
  destruct l as [|y l].
  - cbn [fold_left]. rewrite bool_decide_eq_true_2 by (by rewrite Hl1). split_and!; [|done|done]. cbn.
    unfold c1. cbn in Hl1. by rewrite Hl1.
  - rewrite bool_decide_eq_false_2 by (rewrite Hl1; set_solver).
    destruct (IH c1 cch1) as (H1 & H2 & H3); [by cbn; rewrite lookup_insert_eq|done|done|done|].
    split_and!; [|done|done]. rewrite H1. cbn. by rewrite insert_insert_eq.
Qed.

Lemma clear_one p c cch : cc_heap cch !! p = Some c → co_pending c ≠ ∅ →
  let cch' := clear_controllers p (upd_ctr p ClearPendingUpdate cch) in
  (∃ c', cc_heap cch' !! p = Some c' ∧ co_request c' = None ∧ co_pending c' = ∅) ∧ cc_pending cch' = cc_pending cch ∖ {[nc_Id (co_Ctr c)]}.
Proof.
  intros Hc Hne cch'. unfold cch', clear_controllers. set (cch1 := upd_ctr p ClearPendingUpdate cch).
  assert (cc_heap cch1 !! p = Some (ClearPendingUpdate c)) as Hc1 by (cbn; by rewrite lookup_alter_eq, Hc).
  rewrite Hc1. destruct (ClearPendings_spec p (elements (co_pending (ClearPendingUpdate c))) (ClearPendingUpdate c) cch1)
    as (H1 & H2 & _); [done|by rewrite list_to_set_elements_L|apply NoDup_elements| |].
  - intros Hnil%elements_empty_inv%leibniz_equiv. by destruct Hne.
  - split; [|exact H2]. eexists. rewrite H1, lookup_insert_eq. by split.
Qed.

(** Clearing the updates of another container. *)
Lemma clear_other p q cch : p ≠ q → let cch' := clear_controllers q (upd_ctr q ClearPendingUpdate cch) in
  cc_heap cch' !! p = cc_heap cch !! p ∧ cc_Containers cch' = cc_Containers cch ∧
  ∀ id d, cc_heap cch !! q = Some d → nc_Id (co_Ctr d) ≠ id → id ∈ cc_pending cch' ↔ id ∈ cc_pending cch.
Proof.
  intros Hne cch'. unfold cch', clear_controllers. set (cch1 := upd_ctr q ClearPendingUpdate cch).
  assert (cc_heap cch1 !! p = cc_heap cch !! p) as Hp by (cbn; by rewrite lookup_alter_ne).
  assert (cc_heap cch1 !! q = ClearPendingUpdate <$> cc_heap cch !! q) as Hq by (cbn; by rewrite lookup_alter_eq).
  rewrite Hq. destruct (cc_heap cch !! q) as [d|]; [|done]. cbn [fmap option_fmap option_map].
  destruct (decide (co_pending d = ∅)) as [Hd|Hd]; [by cbn; rewrite Hd, elements_empty|].
  destruct (ClearPendings_spec q (elements (co_pending (ClearPendingUpdate d))) (ClearPendingUpdate d) cch1)
    as (H1 & H2 & H3); [done|by rewrite list_to_set_elements_L|apply NoDup_elements| |].
  { by intros Hnil%elements_empty_inv%leibniz_equiv. }
  rewrite H1, H2, H3, lookup_insert_ne by done. split_and!; [done|done|]. intros id d' [= <-] Hid. cbn. set_solver.
Qed.

(** The state of the update of a container: what is pending, and whether the
    cache knows of it. *)
Definition waits (id : string) (p : positive) (u : ContainerUpdate) (cch : CCache) : Prop :=
  ∃ c, cc_heap cch !! p = Some c ∧ co_request c = Some (PendingUpdate u) ∧ co_pending c ≠ ∅ ∧ id ∈ cc_pending cch.

Definition cleared (id : string) (p : positive) (cch : CCache) : Prop :=
  ∃ c, cc_heap cch !! p = Some c ∧ co_request c = None ∧ co_pending c = ∅ ∧ id ∉ cc_pending cch.

Definition clear_step (failed : list ContainerUpdate) (m : nriPlugin S) (u : ContainerUpdate) : nriPlugin S :=
  clearPendingUpdates E [u] failed m.

Lemma clear_steps delivered failed m : clearPendingUpdates E delivered failed m = fold_left (clear_step failed) delivered m.
Proof. done. Qed.

Lemma clear_step_cases failed m v id p : ids_ok (n_cache m) → cc_Containers (n_cache m) !! id = Some p →
  let m' := clear_step failed m v in
  ids_ok (n_cache m') ∧ cc_Containers (n_cache m') = cc_Containers (n_cache m) ∧
  if bool_decide (upd_ContainerId v = id ∧ id ∉ upd_ContainerId <$> failed)
  then n_cache m' = clear_controllers p (upd_ctr p ClearPendingUpdate (n_cache m))
  else cc_heap (n_cache m') !! p = cc_heap (n_cache m) !! p ∧ (id ∈ cc_pending (n_cache m') ↔ id ∈ cc_pending (n_cache m)).
Proof.
  intros Hids Hp m'. pose proof (clearPendingUpdates_quiet E [v] failed m) as [_ _ [[Hc _ _ Hk] _]].
  change (clearPendingUpdates E [v] failed m) with m' in Hc, Hk.
  split_and!; [intros id' q; rewrite Hc, Hk; apply Hids|done|]. unfold m', clear_step, clearPendingUpdates. cbn [fold_left].
  destruct (decide (upd_ContainerId v ∈ upd_ContainerId <$> failed)) as [Hf|Hf].
  { rewrite (bool_decide_eq_true_2 (upd_ContainerId v ∈ _)) by done. case_bool_decide as Heq; [by destruct Heq as [<- ?]|done]. }
  rewrite (bool_decide_eq_false_2 (upd_ContainerId v ∈ _)) by done. unfold LookupContainer.
  assert (∀ q m0, n_cache (ExportResourceData E q m0) = n_cache m0) as Hexp
    by (intros q m0; unfold ExportResourceData; cbn zeta; by destruct (_ && _)).
  case_bool_decide as Heq.
  - destruct Heq as [-> _]. rewrite Hp. apply Hexp.
  - destruct (cc_Containers (n_cache m) !! upd_ContainerId v) as [q|] eqn:Hq; [|done]. rewrite Hexp. cbn [on_cache with_cache n_cache].
    assert (upd_ContainerId v ≠ id) as Hne by (intros <-; by apply Heq).
    destruct (Hids _ _ Hp) as (i & Hi & Hid), (Hids _ _ Hq) as (j & Hj & Hjd).
    destruct (clear_other p q (n_cache m)) as (H1 & _ & H2); [intros ->; congruence|]. split; [done|].
    unfold known in Hj. destruct (cc_heap (n_cache m) !! q) as [d|] eqn:Hd; [|done]. injection Hj as <-. apply (H2 id d); [done|].
    cbn in Hjd. congruence.
Qed.

(** An update that failed, or that was not delivered, is still pending; one
    that has been delivered is not. *)
Lemma clear_waits delivered failed m id p u : ids_ok (n_cache m) → cc_Containers (n_cache m) !! id = Some p →
  waits id p u (n_cache m) →
  let m' := clearPendingUpdates E delivered failed m in
  if bool_decide (id ∈ upd_ContainerId <$> delivered ∧ id ∉ upd_ContainerId <$> failed)
  then cleared id p (n_cache m') else waits id p u (n_cache m').
Proof.
  assert (∀ l m, ids_ok (n_cache m) → cc_Containers (n_cache m) !! id = Some p → cleared id p (n_cache m) →
    cleared id p (n_cache (fold_left (clear_step failed) l m))) as Hstay.
  { induction l as [|v l IH]; intros m0 Hids Hp (c & Hc & Hr & He & Hn); cbn [fold_left]; [by exists c|].
    destruct (clear_step_cases failed m0 v id p Hids Hp) as (H1 & H2 & H3). apply IH; [done|by rewrite H2|].
    case_bool_decide as Hv; [|destruct H3 as [E1 E2]; exists c; by rewrite E1, E2]. rewrite H3.
    exists (ClearPendingUpdate c). unfold clear_controllers. cbn. rewrite lookup_alter_eq, Hc. cbn. rewrite He, elements_empty. cbn.
    by rewrite lookup_alter_eq, Hc. }
  intros Hids Hp Hw. cbn zeta. rewrite clear_steps. revert m Hids Hp Hw.
  induction delivered as [|v l IH]; intros m Hids Hp Hw; [done|]. cbn [fold_left].
  destruct (clear_step_cases failed m v id p Hids Hp) as (H1 & H2 & H3). set (m1 := clear_step failed m v) in *.
  rewrite fmap_cons. case_bool_decide as Hv.
  - destruct Hv as [Hv Hf]. rewrite bool_decide_eq_true_2 by (split; [rewrite Hv; by left|done]). apply Hstay; [done|by rewrite H2|].
    destruct Hw as (c & Hc & _ & Hne & _). rewrite H3. destruct (clear_one p c (n_cache m) Hc Hne) as [(c' & Hc' & Hr' & He') Hpend].
    exists c'. rewrite Hpend. split_and!; [done|done|done|]. destruct (Hids _ _ Hp) as (i & Hi & Hid).
    unfold known in Hi. rewrite Hc in Hi. injection Hi as <-. cbn in Hid. rewrite Hid. set_solver.
  - rewrite (bool_decide_ext _ (id ∈ upd_ContainerId <$> l ∧ id ∉ upd_ContainerId <$> failed)).
    + apply IH; [done|by rewrite H2|]. destruct Hw as (c & Hc & Hr & Hne & Hin), H3 as [E1 E2]. exists c. by rewrite E1, E2.
    + rewrite elem_of_cons. split; [|tauto]. intros [[Heq|Hin] Hf]; [by destruct Hv|done].
Qed.

(** ** Sending updates *)

Lemma pending_nodup cch : ids_ok cch → NoDup (GetPendingContainers cch).
Proof.
  intros Hids. unfold GetPendingContainers, LookupContainer.
  pose proof (NoDup_map_range (gset_to_gmap tt (cc_pending cch))) as Hnd. set (ids := fst <$> _) in *. clearbody ids.
  induction Hnd as [|id ids Hid Hnd IH]; cbn; [constructor|]. destruct (cc_Containers cch !! id) as [p|] eqn:Hp; [|done].
  constructor; [|done]. intros (id' & Hin & Hp')%list_elem_of_omap. destruct (Hids _ _ Hp) as (i & Hi & <-), (Hids _ _ Hp') as (j & Hj & <-).
  rewrite Hi in Hj. injection Hj as <-. done.
Qed.

Lemma filter_true {A} (P : A → Prop) `{!∀ x, Decision (P x)} (l : list A) : (∀ x, P x) → filter P l = l.
Proof. intros HP. induction l as [|x l IH]; [done|]. by rewrite filter_cons_True, IH. Qed.

Lemma elem_of_pending cch id p : id ∈ cc_pending cch → cc_Containers cch !! id = Some p → p ∈ GetPendingContainers cch.
Proof.
  intros Hin Hp. apply list_elem_of_omap. exists id. split; [|done]. apply list_elem_of_fmap. exists (id, tt). split; [done|].
  rewrite elem_of_map_range, lookup_gset_to_gmap_Some. done.
Qed.

(** C17: No update of a container is lost: it is sent to the runtime, with what
    the policy has set.  If updates cannot be sent, or the runtime tells it could
    not apply this one, it stays pending, to be sent the next time.  Otherwise it
    is cleared. *)
Theorem updateContainers_lossless sent m id p u : ids_ok (n_cache m) → cc_Containers (n_cache m) !! id = Some p →
  waits id p u (n_cache m) → upd_ContainerId u = id →
  let updates := (peekPendingUpdates cfg None m).2 in
  let m' := (updateContainers E cfg sent m).1 in
  ∃ u', u' ∈ updates ∧ upd_ContainerId u' = id ∧ lr_Cpu (upd_Resources u') = lr_Cpu (upd_Resources u) ∧
    lr_Memory (upd_Resources u') = lr_Memory (upd_Resources u) ∧
    match sent updates with
    | Err _ => waits id p u' (n_cache m')
    | Ok failed => if bool_decide (id ∈ upd_ContainerId <$> failed) then waits id p u' (n_cache m') else cleared id p (n_cache m')
    end.
Proof.
  intros Hids Hp (c & Hc & Hr & Hne & Hin) Hu. cbn zeta. unfold updateContainers, peekPendingUpdates.
  rewrite filter_true by done.
  destruct (peek_all_spec (GetPendingContainers (n_cache m)) (n_cache m) (pending_nodup _ Hids)) as (H1 & H2 & H3 & H4).
  { intros q (id' & _ & Hq)%list_elem_of_omap. destruct (Hids _ _ Hq) as (i & Hi & _). unfold known in Hi.
    destruct (cc_heap (n_cache m) !! q); [eauto|done]. }
  pose proof (elem_of_pending _ _ _ Hin Hp) as Hpp. pose proof (peek_all_still cfg (GetPendingContainers (n_cache m)) (n_cache m)) as Hst.
  destruct (peek_all cfg _ _) as [cch us]. cbn [fst snd] in *.
  set (u' := upd_with_Resources (setDefaultClasses cfg c (qos_of (n_cache m) c) (upd_Resources u)) u).
  assert (peeked (n_cache m) c = (with_request (Some (PendingUpdate u')) c, Some u')) as Hpk by (unfold peeked, PeekPendingUpdate; by rewrite Hr).
  assert (u' ∈ us) as Hu'.
  { rewrite H2. apply list_elem_of_omap. exists p. rewrite Hc. cbn. by rewrite Hpk. }
  assert (waits id p u' cch) as Hw.
  { exists (with_request (Some (PendingUpdate u')) c). rewrite H1, H3, bool_decide_eq_true_2, Hc by done. cbn. by rewrite Hpk. }
  exists u'. split_and!; [done|done| | |].
  1,2: unfold u', setDefaultClasses; cbn; by repeat case_bool_decide.
  destruct (sent us) as [failed|e]; [|done]. cbn [fst].
  assert (ids_ok cch) as Hids' by (intros id' q; rewrite H4, (cf_known _ _ (cs_frame _ _ Hst)); apply Hids).
  pose proof (clear_waits us failed (with_cache cch m) id p u' Hids' ltac:(cbn; by rewrite H4) Hw) as Hcw.
  assert (id ∈ upd_ContainerId <$> us) as Hius by (rewrite <- Hu; by apply (list_elem_of_fmap_2 upd_ContainerId us u')).
  cbn zeta in Hcw. repeat case_bool_decide; tauto.
Qed.
End pending.
