(* ===== verification/NriTa.v ===== *)
(** * The topology-aware policy behind the NRI plugin

    The policy as a backend of the resource manager: what it sees of the cache
    and what it changes of containers.  It accounts for the resources it gives,
    so what holds of the NRI plugin with any such policy holds with this one; and
    what holds of plugin, cache and policy together. *)

From S2P Require Import Prelude GoStrings MemTypes MemNodes MemRequest MemZones MemAllocator Expr CpuTree CpuAlloc CpuAllocFacts CpuTopo Kube BlnTypes BlnPin TaTypes TaPrefs TaSupply TaScore TaPolicy TaBuild TaConfig TaAccount TaAlloc TaCapacity TaInv TaMain TaBuildFacts TaReach CchTypes CchContainer CchStore NriPlugin NriFacts NriReach NriSync NriMain.

Open Scope string_scope.
Open Scope Z_scope.

(** ** What the policy sees of the cache *)

Definition ctr_view (c : CContainer) : TCtr :=
  let ctr := co_Ctr c in
  MkTCtr (MkContainer (nc_Id ctr) (nc_PodSandboxId ctr) (nc_Name ctr) (nc_Labels ctr) (co_Tags c))
    (co_Requirements c) (co_ResourceUpdates c) (co_TopologyHints c).

Definition pod_view (p : CPod) : pod :=
  let pd := cp_Pod p in
  MkPod (np_Id pd) (np_Uid pd) (np_Name pd) (np_Namespace pd) (cp_QOSClass p) (np_Labels pd).

Definition cache_view (cch : CCache) : TCache :=
  MkTCache (pod_view <$> cc_Pods cch) (np_Annotations ∘ cp_Pod <$> cc_Pods cch)
    (omap (λ p, ctr_view <$> cc_heap cch !! p) (cc_Containers cch)).

(** ** What it changes *)

Definition sched_setter (call : SchedCall) : setter :=
  match call with
  | BlnTypes.SetSchedulingPolicy v => SetSchedulingPolicy v
  | BlnTypes.SetSchedulingPriority v => SetSchedulingPriority v
  | BlnTypes.SetSchedulingFlags v => SetSchedulingFlags v
  | BlnTypes.SetSchedulingNice v => SetSchedulingNice v
  | BlnTypes.SetSchedulingRuntime v => SetSchedulingRuntime v
  | BlnTypes.SetSchedulingDeadline v => SetSchedulingDeadline v
  | BlnTypes.SetSchedulingPeriod v => SetSchedulingPeriod v
  | BlnTypes.SetSchedulingIOClass v => SetSchedulingIOClass v
  | BlnTypes.SetSchedulingIOPriority v => SetSchedulingIOPriority v
  end.

Section backend.
Context `{GoRuntime} (E : TEnv).

(** The setters for what has been set of a container. *)
Definition pin_setters (pin : Pinning) : list setter :=
  app (match pin_cpus pin with Some cpus => [SetCpusetCpus (te_String E cpus)] | None => [] end)
    (app (match pin_shares pin with Some shares => [SetCPUShares shares] | None => [] end)
      (app (match pin_mems pin with Some mems => [SetCpusetMems mems] | None => [] end) (sched_setter <$> pin_sched pin))).

Definition apply_pin (cch : CCache) (ip : string * Pinning) : CCache :=
  match cc_Containers cch !! ip.1 with
  | None => cch
  | Some p => fold_left (λ cch s, markPending p s cch) (pin_setters ip.2) cch
  end.

(** An operation of the policy; what it sets for containers is set in the cache. *)
Definition run {A} (f : TCache → policy → policy * res A) (cch : CCache) (p : policy) : CCache * policy * res A :=
  let '(q, r) := f (cache_view cch) (with_settings ∅ p) in
  (fold_left apply_pin (map_range (ta_pins q)) cch, q, r).

(** An operation on a container, which the caller has looked up. *)
Definition on_ctr {A} (f : TCache → TCtr → policy → policy * res A) (ptr : positive) (cch : CCache) (p : policy)
    : CCache * policy * res A :=
  match cc_heap cch !! ptr with
  | None => (cch, p, Err Panic)
  | Some c => run (λ cch, f cch (ctr_view c)) cch p
  end.

Definition views (cch : CCache) (ptrs : list positive) : list TCtr :=
  omap (λ p, ctr_view <$> cc_heap cch !! p) ptrs.

Definition ta_Backend : Backend policy := {|
  be_AllocateResources := on_ctr (ta_AllocateResources E);
  be_ReleaseResources := on_ctr (ta_ReleaseResources E);
  be_UpdateResources := on_ctr (ta_UpdateResources E);
  be_Sync add del cch := run (λ tch, ta_Sync E tch (views cch add) (views cch del)) cch;
  be_ContainerStarted := on_ctr (λ tch c, ta_HandleEvent tch (ContainerStarted (tc_ID c)));
  be_ExportResourceData ptr cch p :=
    default ∅ (c ← cc_heap cch !! ptr; ta_ExportResourceData E p (nc_Id (co_Ctr c)));
|}.

#[local] Existing Instance ta_Backend.

(** ** The cache is only changed for its containers' resources *)

Lemma scheduling_ok f : setter_ok (setSchedulingOnAdjustment f).
Proof.
  intros c. unfold setSchedulingOnAdjustment. pose proof (pending_ident c) as Hi.
  destruct (getPendingRequest c) as [c' [a|u]]; exact Hi.
Qed.

Lemma io_priority_ok f : setter_ok (setIOPriorityOnAdjustment f).
Proof.
  intros c. unfold setIOPriorityOnAdjustment. pose proof (pending_ident c) as Hi.
  destruct (getPendingRequest c) as [c' [a|u]]; exact Hi.
Qed.

Lemma pin_setters_ok pin : Forall setter_ok (pin_setters pin).
Proof.
  unfold pin_setters. rewrite !Forall_app. split_and!;
    [destruct (pin_cpus pin)|destruct (pin_shares pin)|destruct (pin_mems pin)|];
    try (constructor; [apply set_resource_ok|constructor]); try constructor.
  apply Forall_fmap, Forall_true. intros []; first [apply scheduling_ok|apply io_priority_ok].
Qed.

Lemma fold_frame {A} (f : CCache → A → CCache) l : (∀ cch x, x ∈ l → cache_frame cch (f cch x)) →
  ∀ cch, cache_frame cch (fold_left f l cch).
Proof.
  induction l as [|x l IH]; intros Hf cch; cbn; [done|]. etrans; [apply Hf; by left|]. apply IH. intros. apply Hf. by right.
Qed.

Lemma apply_pin_frame cch ip : cache_frame cch (apply_pin cch ip).
Proof.
  unfold apply_pin. destruct (cc_Containers cch !! _); [|done]. apply fold_frame. intros cch2 s Hs. apply markPending_frame.
  pose proof (pin_setters_ok ip.2) as Hok. rewrite Forall_forall in Hok. by apply Hok.
Qed.

Lemma run_frame {A} (f : TCache → policy → policy * res A) cch p cch' q r : run f cch p = (cch', q, r) →
  cache_frame cch cch' ∧ f (cache_view cch) (with_settings ∅ p) = (q, r).
Proof.
  unfold run. destruct (f _ _) as [q' r']. intros [= <- <- <-]. split; [|done]. apply fold_frame. intros. apply apply_pin_frame.
Qed.

Lemma on_ctr_frame {A} (f : TCache → TCtr → policy → policy * res A) ptr i cch p cch' q r : known cch ptr = Some i →
  on_ctr f ptr cch p = (cch', q, r) → cache_frame cch cch' ∧
  ∃ c, tc_ID c = i_id i ∧ milli (rs_requestCPU (resources c)) = i_requested i ∧ f (cache_view cch) c (with_settings ∅ p) = (q, r).
Proof.
  unfold known, on_ctr. destruct (cc_heap cch !! ptr) as [c|]; [|done]. intros [= <-] [Hf Hq]%run_frame.
  split; [done|]. exists (ctr_view c). by split_and!.
Qed.

(** ** What containers are pinned to *)

Lemma SetCpusetCpus_cpus value c : GetCpusetCpus (SetCpusetCpus value c).1 = value.
Proof. unfold SetCpusetCpus. by rewrite set_resource_cpus. Qed.

Lemma markPending_cpus ptr s cch q : cpus_at (markPending ptr s cch) q =
  if bool_decide (q = ptr) then (λ c, GetCpusetCpus (s c).1) <$> cc_heap cch !! ptr else cpus_at cch q.
Proof.
  unfold markPending. destruct (cc_heap cch !! ptr) as [c|] eqn:Hc.
  - destruct (s c) as [c' marked] eqn:Hs.
    assert (cpus_at (with_heap (<[ptr := c']> (cc_heap cch)) cch) q =
      if bool_decide (q = ptr) then Some (GetCpusetCpus c') else cpus_at cch q) as Hq.
    { unfold cpus_at. cbn. case_bool_decide as Heq; [subst; by rewrite lookup_insert_eq|by rewrite lookup_insert_ne]. }
    cbn. rewrite Hs. by destruct marked.
  - case_bool_decide as Heq; [|done]. subst. unfold cpus_at. by rewrite Hc.
Qed.

Lemma other_setters_still pin ptr cch : pin_cpus pin = None →
  cache_still cch (fold_left (λ cch s, markPending ptr s cch) (pin_setters pin) cch).
Proof.
  intros Hnone. assert (Forall setter_still (pin_setters pin)) as Hall.
  { unfold pin_setters. rewrite Hnone, !Forall_app. split_and!; [constructor|..].
    - destruct (pin_shares pin); repeat constructor; intros; [apply set_resource_ok|]. unfold SetCPUShares.
      by rewrite set_resource_cpus, <- own_cpus.
    - destruct (pin_mems pin); repeat constructor; intros; [apply set_resource_ok|]. unfold SetCpusetMems.
      by rewrite set_resource_cpus, <- own_cpus.
    - apply Forall_fmap, Forall_true. intros call c. pose proof (pending_ident c) as Hi. pose proof (pending_cpus c) as Hc.
      destruct call; cbn; unfold setter_still, SetSchedulingPolicy, SetSchedulingNice, SetSchedulingPriority, SetSchedulingFlags,
        SetSchedulingRuntime, SetSchedulingDeadline, SetSchedulingPeriod, SetSchedulingIOClass, SetSchedulingIOPriority,
        setSchedulingOnAdjustment, setIOPriorityOnAdjustment; destruct (getPendingRequest c) as [c' [a|u]]; (split; [exact Hi|exact Hc]). }
  clear Hnone. revert cch. induction Hall as [|s l Hs _ IH]; intros cch; cbn; [done|].
  etrans; [by apply markPending_still|apply IH].
Qed.

(** What is set for a container is what it is pinned to then. *)
Definition now_pinned (pin : option Pinning) (before : option string) : option string :=
  match pin ≫= pin_cpus with Some X => (λ _, te_String E X) <$> before | None => before end.

Lemma pin_ptr_cpus pin ptr cch q :
  cpus_at (fold_left (λ cch s, markPending ptr s cch) (pin_setters pin) cch) q =
    if bool_decide (q = ptr) then now_pinned (Some pin) (cpus_at cch q) else cpus_at cch q.
Proof.
  destruct pin as [[X|] shares mems sched]; unfold now_pinned; cbn [mbind option_bind pin_cpus].
  - set (rest := MkPinning None shares mems sched).
    change (pin_setters _) with (SetCpusetCpus (te_String E X) :: pin_setters rest). cbn [fold_left].
    rewrite (cs_cpus _ _ (other_setters_still rest ptr _ eq_refl) q), markPending_cpus. case_bool_decide as Hq; [|done].
    subst. unfold cpus_at. destruct (cc_heap cch !! ptr); [|done]. cbn [fmap option_fmap option_map]. by rewrite SetCpusetCpus_cpus.
  - rewrite (cs_cpus _ _ (other_setters_still (MkPinning None shares mems sched) ptr cch eq_refl) q). by case_bool_decide.
Qed.

Lemma apply_pin_cpusets cch id pin id' : ids_ok cch →
  cpusets (apply_pin cch (id, pin)) id' = if bool_decide (id' = id) then now_pinned (Some pin) (cpusets cch id') else cpusets cch id'.
Proof.
  intros Hids. pose proof (cf_Containers _ _ (apply_pin_frame cch (id, pin))) as Hc.
  unfold cpusets at 1. rewrite Hc. unfold apply_pin. cbn [fst snd].
  destruct (cc_Containers cch !! id) as [ptr|] eqn:Hptr.
  - unfold cpusets. destruct (cc_Containers cch !! id') as [q|] eqn:Hq; cbn [mbind option_bind].
    + rewrite pin_ptr_cpus. destruct (Hids _ _ Hptr) as (i & Hi & Hid), (Hids _ _ Hq) as (j & Hj & Hid').
      rewrite (bool_decide_ext (q = ptr) (id' = id)); [done|]. split; [intros ->; congruence|intros ->; congruence].
    + case_bool_decide; [|done]. unfold now_pinned. by destruct (_ ≫= _).
  - case_bool_decide as Heq; [|done]. subst. unfold cpusets. rewrite Hptr. cbn. unfold now_pinned. by destruct (_ ≫= _).
Qed.

Lemma cache_frame_ids cch cch' : cache_frame cch cch' → ids_ok cch → ids_ok cch'.
Proof. intros [Hc _ _ Hk] Hids id q. rewrite Hc, Hk. apply Hids. Qed.

Lemma apply_pins_cpusets l cch id : ids_ok cch → NoDup l.*1 →
  cpusets (fold_left apply_pin l cch) id = now_pinned ((list_to_map l : gmap string Pinning) !! id) (cpusets cch id).
Proof.
  revert cch. induction l as [|[k pin] l IH]; intros cch Hids; cbn [fold_left].
  { intros _. change (list_to_map [] : gmap string Pinning) with (∅ : gmap string Pinning). by rewrite lookup_empty. }
  rewrite fmap_cons. intros [Hk Hnd]%NoDup_cons. rewrite IH; [|eapply cache_frame_ids; [apply apply_pin_frame|done]|done]. rewrite apply_pin_cpusets by done. cbn.
  case_bool_decide as Heq.
  - subst. rewrite lookup_insert_eq, (not_elem_of_list_to_map_1 l k Hk). done.
  - by rewrite lookup_insert_ne.
Qed.

Lemma run_cpusets {A} (f : TCache → policy → policy * res A) cch p cch' q r id : ids_ok cch → run f cch p = (cch', q, r) →
  cpusets cch' id = now_pinned (ta_pins q !! id) (cpusets cch id).
Proof.
  intros Hids. unfold run. destruct (f _ _) as [q' r']. intros [= <- <- <-].
  rewrite apply_pins_cpusets by (done || apply NoDup_map_range).
  rewrite (list_to_map_proper _ _ (NoDup_map_range (ta_pins q')) (map_range_perm (ta_pins q'))). by rewrite list_to_map_to_list.
Qed.

(** ** The policy accounts for what it gives *)

Section accounts.
Context (usable I R : CPUSet) `{!PoolCpus E usable}.
Abbreviation inv := (ta_inv usable I R).
Abbreviation granted p := (dom (ta_grants p) : gset string).

Lemma inv_settings p v : inv p → inv (with_settings v p).
Proof. by apply core_inv. Qed.

Lemma dom_cpu_part (m m' : gmap string grant) : cpu_part <$> m = cpu_part <$> m' → dom m = dom m'.
Proof. intros Heq. by rewrite <- (dom_fmap_L cpu_part m), Heq, dom_fmap_L. Qed.

Lemma allocate_granted tch c hint p q r : inv p → ctr_ok c → ta_grants p !! tc_ID c = None →
  ta_allocateResources E tch c hint p = (q, r) →
  inv q ∧ granted q = match r with Ok _ => granted p ∪ {[tc_ID c]} | Err _ => granted p end.
Proof.
  intros Hi Hc Hn Ha. destruct (ta_allocateResources_inv E usable I R tch c hint p Hi Hc Hn q r Ha) as (Hq & Hout & _).
  split; [done|]. destruct r as [u|e].
  - destruct Hout as ((g & Hg & _) & Hd & _). apply dom_cpu_part in Hd. rewrite dom_delete_L in Hd. rewrite <- Hd.
    apply set_eq. intros x. destruct (decide (x = tc_ID c)) as [->|Hne].
    + assert (tc_ID c ∈ granted q) by (apply elem_of_dom; eauto). set_solver.
    + set_solver.
  - by destruct Hout as (_ & _ & -> & _).
Qed.

Lemma deferred_granted pr : granted (deferred E pr).1 = granted pr.1.
Proof. unfold deferred. cbn. by destruct (applyIrqAffinity_kept E pr.1) as ((_ & _ & _ & ->) & _). Qed.

Lemma AllocateResources_granted tch c p q r : inv p → ctr_ok c → ta_grants p !! tc_ID c = None →
  ta_AllocateResources E tch c p = (q, r) →
  inv q ∧ granted q = match r with Ok _ => granted p ∪ {[tc_ID c]} | Err _ => granted p end.
Proof.
  intros Hi Hc Hn Ha. split.
  { replace q with (ta_AllocateResources E tch c p).1 by (by rewrite Ha). by apply ta_AllocateResources_inv. }
  unfold ta_AllocateResources in Ha. destruct (ta_allocateResources E tch c "" p) as [q0 r0] eqn:Ha0.
  destruct (allocate_granted tch c "" p q0 r0 Hi Hc Hn Ha0) as [_ Hg]. pose proof (deferred_granted (q0, r0)) as Hd.
  rewrite Ha in Hd. cbn [fst] in Hd. injection Ha as _ <-. by rewrite Hd.
Qed.

Lemma ReleaseResources_granted tch c p q r : inv p → ta_ReleaseResources E tch c p = (q, r) →
  r = Ok tt ∧ inv q ∧ granted q = granted p ∖ {[tc_ID c]}.
Proof.
  intros Hi Hr. destruct (ta_ReleaseResources_inv E usable I R tch c p Hi) as (Hq & _ & Hg & _).
  assert ((ta_ReleaseResources E tch c p).2 = Ok tt) as Hok.
  { unfold ta_ReleaseResources. by destruct (releasePool (tc_ID c) p) as [? [?|]]. }
  rewrite Hr in *. cbn [fst snd] in *. split_and!; [done|done|]. by rewrite Hg, dom_delete_L.
Qed.

Lemma UpdateResources_granted tch c p q r : inv p → ctr_ok c → ta_UpdateResources E tch c p = (q, r) →
  inv q ∧ granted p ∖ {[tc_ID c]} ⊆ granted q ∧ granted q ⊆ granted p ∪ {[tc_ID c]}.
Proof.
  intros Hi Hc Hu. split.
  { replace q with (ta_UpdateResources E tch c p).1 by (by rewrite Hu). by apply ta_UpdateResources_inv. }
  replace q with (ta_UpdateResources E tch c p).1 by (by rewrite Hu). clear Hu q r.
  unfold ta_UpdateResources. rewrite deferred_granted. pose proof (ta_release_inv E usable I R tch (tc_ID c) p Hi) as Hr.
  destruct (releasePool (tc_ID c) p) as [q [g|]].
  - destruct Hr as (H1 & _ & H3 & _ & _). cbn zeta. set (q1 := updateSharedAllocations E tch (Some g) q) in *.
    destruct (ta_allocateResources E tch c (pool_name q1 (g_node g)) q1) as [q2 r] eqn:Ha.
    destruct (allocate_granted tch c _ q1 q2 r H1 Hc ltac:(rewrite H3; apply lookup_delete_eq) Ha) as [_ Hg].
    cbn [fst]. rewrite H3, dom_delete_L in Hg. destruct r; rewrite Hg; set_solver.
  - destruct Hr as [-> Hn]. destruct (ta_AllocateResources E tch c p) as [q2 r] eqn:Ha.
    destruct (AllocateResources_granted tch c p q2 r Hi Hc Hn Ha) as [_ Hg]. cbn [fst]. destruct r; rewrite Hg; set_solver.
Qed.

Lemma for_each_outcome f cs p q r : ta_for_each f cs p = (q, r) → r ≠ Err Panic → r = Ok tt.
Proof.
  revert p. induction cs as [|c cs IH]; intros p; cbn; [by intros [= <- <-]|].
  destruct (f c p) as [p' [u|e]]; [apply IH|]. destruct e; try apply IH. by intros [= <- <-].
Qed.

(** The views of containers the cache knows. *)
Definition shows (cch : CCache) (ptr : positive) (c : TCtr) : Prop :=
  ∃ i, known cch ptr = Some i ∧ tc_ID c = i_id i ∧ milli (rs_requestCPU (resources c)) = i_requested i.

Lemma views_show cch ptrs : (∀ p, p ∈ ptrs → is_Some (known cch p)) → Forall2 (shows cch) ptrs (views cch ptrs).
Proof.
  induction ptrs as [|p ptrs IH]; intros Hk; [constructor|]. unfold views. cbn.
  destruct (Hk p ltac:(by left)) as [i Hi]. pose proof Hi as Hi'. unfold known in Hi'.
  destruct (cc_heap cch !! p) as [c|]; [|done]. injection Hi' as <-. cbn. constructor.
  - by exists (ident c).
  - apply IH. intros. apply Hk. by right.
Qed.

Lemma shown_ids cch ptrs cs id : Forall2 (shows cch) ptrs cs →
  id ∈ tc_ID <$> cs ↔ ∃ p i, p ∈ ptrs ∧ known cch p = Some i ∧ i_id i = id.
Proof.
  induction 1 as [|p c ptrs cs (i & Hi & Hid & _) _ IH].
  { split; [by intros ?%not_elem_of_nil|]. by intros (? & ? & ?%not_elem_of_nil & _). }
  rewrite fmap_cons, elem_of_cons, IH, Hid. split.
  - intros [->|(q & j & Hq & Hj)]; [exists p, i|exists q, j]; (split; [set_solver|done]).
  - intros (q & j & [->|Hq]%elem_of_cons & Hj & <-); [left; congruence|right; eauto].
Qed.

Lemma shown_nodup cch ptrs cs : Forall2 (shows cch) ptrs cs → NoDup ptrs →
  (∀ p q i j, known cch p = Some i → known cch q = Some j → i_id i = i_id j → p = q) → NoDup (tc_ID <$> cs).
Proof.
  intros Hs Hnd Hu. induction Hs as [|p c ptrs cs (i & Hi & Hid & _) Hs IH]; [constructor|].
  apply NoDup_cons in Hnd as [Hp Hnd]. rewrite fmap_cons. constructor; [|by apply IH].
  rewrite (shown_ids _ _ _ _ Hs). intros (q & j & Hq & Hj & Heq). rewrite (Hu p q i j) in Hp; [done|done|done|congruence].
Qed.

Lemma Sync_granted cch add del p q r : inv p → (∀ p, p ∈ add → ∃ i, known cch p = Some i ∧ 0 ≤ i_requested i) →
  (∀ p, p ∈ del → is_Some (known cch p)) → add ⊆ del → NoDup add →
  (∀ p q i j, known cch p = Some i → known cch q = Some j → i_id i = i_id j → p = q) →
  ta_Sync E (cache_view cch) (views cch add) (views cch del) p = (q, r) → r ≠ Err Panic →
  r = Ok tt ∧ inv q ∧ ta_opt q = ta_opt p ∧ (opt_PinCPU (ta_opt p) = true → stays_pinned p q) ∧ ∀ id, id ∈ granted q →
    (id ∈ granted p ∧ ¬ ∃ p i, p ∈ del ∧ known cch p = Some i ∧ i_id i = id) ∨
    ∃ p i, p ∈ add ∧ known cch p = Some i ∧ i_id i = id.
Proof.
  intros Hi Hadd Hdel Hsub Hnd Hu Hs Hr.
  pose proof (views_show cch add ltac:(intros x (i & ? & _)%Hadd; eauto)) as Hva. pose proof (views_show cch del Hdel) as Hvd.
  destruct (ta_Sync_inv E usable I R (cache_view cch) (views cch add) (views cch del) p Hi) as (Hq & Hp & Ho & Hdom).
  - clear Hs Hdel Hsub Hnd. induction Hva as [|x c l cs (i & Hx & _ & Hreq) _ IH]; constructor.
    + unfold ctr_ok. rewrite Hreq. destruct (Hadd x ltac:(by left)) as (j & Hj & ?). by simplify_eq.
    + apply IH. intros. apply Hadd. by right.
  - by eapply shown_nodup.
  - apply Forall_forall. intros c Hc. right. apply (shown_ids _ _ _ _ Hvd).
    assert (tc_ID c ∈ tc_ID <$> views cch add) as (x & i & Hx & ?)%(shown_ids _ _ _ _ Hva) by (by apply list_elem_of_fmap_2).
    exists x, i. split; [by apply Hsub|done].
  - rewrite Hs in Hq, Hp, Ho, Hdom. cbn [fst] in Hq, Hp, Ho, Hdom. split_and!; [|done|done|done|].
    + unfold ta_Sync in Hs. destruct (ta_for_each _ _ p) as [p1 r1] eqn:Hd. destruct r1 as [u|e]; [by eapply for_each_outcome|].
      injection Hs as _ <-. by eapply for_each_outcome.
    + intros id Hid%elem_of_dom. destruct (Hdom id Hid) as [Ha|[Hnot Hold]].
      * right. by apply (shown_ids _ _ _ _ Hva).
      * left. split; [by apply elem_of_dom|]. by rewrite <- (shown_ids _ _ _ _ Hvd).
Qed.

(** ** What the runtime is told *)

(** If CPUs are pinned, the containers that have grants, if they are in the
    cache, are pinned there to CPUs of their grants. *)
Definition told (v : string → option string) (p : policy) : Prop :=
  opt_PinCPU (ta_opt p) = true → ∃ V, pinned V (with_settings ∅ p) ∧
    ∀ id x X, id ∈ granted p → v id = Some x → V id = Some X → x = te_String E X.

Lemma told_grants v p id g x : told v p → opt_PinCPU (ta_opt p) = true → ta_grants p !! id = Some g → g_cpuType g ≠ cpuPreserve →
  v id = Some x → ∃ X, x = te_String E X ∧ X ⊆ grant_cpus p g.
Proof.
  intros Ht Hpin Hg Htype Hv. destruct (Ht Hpin) as (V & Hp & Hx). destruct (Hp id g Hg Htype) as (X & HX & Hsub).
  exists X. split; [|done]. apply (Hx id); [apply elem_of_dom; eauto|done|exact HX].
Qed.

(** Of what was set before, that of containers with grants is all that matters. *)
Lemma pinned_granted V p : pinned V (with_settings ∅ p) →
  pinned (λ id, if bool_decide (id ∈ granted p) then V id else None) (with_settings ∅ p).
Proof.
  intros Hp id g Hg Ht. destruct (Hp id g Hg Ht) as (X & HX & Hsub). exists X. split; [|done].
  unfold over in *. cbn in *. rewrite bool_decide_eq_true_2; [done|]. apply elem_of_dom. eauto.
Qed.

Lemma run_told {A} (f : TCache → policy → policy * res A) cch p cch' q r : ids_ok cch → run f cch p = (cch', q, r) →
  ta_opt q = ta_opt p → (opt_PinCPU (ta_opt p) = true → stays_pinned (with_settings ∅ p) q) →
  told (cpusets cch) p → told (cpusets cch') q.
Proof.
  intros Hids Hrun Hopt Hst Ht Hpin. rewrite Hopt in Hpin. destruct (Ht Hpin) as (V & Hp & Hx).
  set (V' := λ id, if bool_decide (id ∈ granted p) then V id else None).
  exists (over V' q). split.
  - pose proof (Hst Hpin V' (pinned_granted V p Hp)) as Hq. intros id g Hg Htype.
    destruct (Hq id g Hg Htype) as (X & HX & Hsub). by exists X.
  - intros id x X _. rewrite (run_cpusets _ _ _ _ _ _ id Hids Hrun). unfold over, now_pinned, pinning_of.
    assert (pin_cpus (default no_pinning (ta_pins q !! id)) = ta_pins q !! id ≫= pin_cpus) as -> by (by destruct (ta_pins q !! id)).
    destruct (ta_pins q !! id ≫= pin_cpus) as [Y|].
    + destruct (cpusets cch id); [|done]. cbn. congruence.
    + unfold V'. case_bool_decide; [|done]. by apply Hx.
Qed.

Lemma on_ctr_told {A} (f : TCache → TCtr → policy → policy * res A) ptr cch p cch' q r : inv p → ids_ok cch →
  (∀ c, cc_heap cch !! ptr = Some c → ta_step E (with_settings ∅ p) (f (cache_view cch) (ctr_view c) (with_settings ∅ p)).1) →
  on_ctr f ptr cch p = (cch', q, r) → told (cpusets cch) p → told (cpusets cch') q.
Proof.
  intros Hi Hids Hstep. unfold on_ctr. destruct (cc_heap cch !! ptr) as [c|] eqn:Hc; [|by intros [= <- <- _]].
  intros Hrun. destruct (run_frame _ _ _ _ _ _ Hrun) as [_ Hq]. specialize (Hstep c eq_refl). rewrite Hq in Hstep.
  destruct (ta_step_inv E usable I R _ _ Hstep (inv_settings p ∅ Hi)) as (_ & Ho & _ & Hp). by eapply run_told.
Qed.

(** The contract of the policy with the NRI plugin. *)
#[export] Program Instance ta_Accounts : Accounts policy := {|
  holds p := granted p;
  acc_ok v p := inv p ∧ told v p;
|}.
Next Obligation.
  intros v v' p Hv [Hi Ht]. split; [done|]. intros Hpin. destruct (Ht Hpin) as (V & Hp & Hx). exists V. split; [done|]. eauto.
Qed.
Next Obligation.
  intros ptr cch p i cch' q r [Hi Ht] Hids Hk Hreq Hn Ha.
  destruct (on_ctr_frame _ _ _ _ _ _ _ _ Hk Ha) as (Hf & c & Hid & Hr & Hq). rewrite <- Hid in Hn |- *.
  assert (told (cpusets cch') q) as Ht'.
  { eapply on_ctr_told; [exact Hi|done| |exact Ha|done]. intros c' Hc'. unfold known in Hk. rewrite Hc' in Hk. injection Hk as <-.
    apply ts_allocate; [exact Hreq|]. apply not_elem_of_dom. by rewrite Hid in Hn. }
  apply (AllocateResources_granted _ _ _ _ _ (inv_settings _ ∅ Hi)) in Hq;
    [by destruct Hq as [? ->]|unfold ctr_ok; lia|by apply not_elem_of_dom].
Qed.
Next Obligation.
  intros ptr cch p i cch' q r [Hi Ht] Hids Hk Ha. destruct (on_ctr_frame _ _ _ _ _ _ _ _ Hk Ha) as (Hf & c & Hid & _ & Hq).
  destruct (ReleaseResources_granted _ _ _ _ _ (inv_settings _ ∅ Hi) Hq) as (-> & Hi' & Hg). rewrite <- Hid.
  split_and!; [done|done|done| |done]. eapply on_ctr_told; [exact Hi|done| |exact Ha|done]. intros. apply ts_release.
Qed.
Next Obligation.
  intros ptr cch p i cch' q r [Hi Ht] Hids Hk Hreq Ha. destruct (on_ctr_frame _ _ _ _ _ _ _ _ Hk Ha) as (Hf & c & Hid & Hr & Hq).
  assert (ctr_ok c) as Hc by (unfold ctr_ok; lia).
  destruct (UpdateResources_granted _ _ _ _ _ (inv_settings _ ∅ Hi) Hc Hq) as (Hi' & Hg). rewrite <- Hid.
  split_and!; [done|done| |apply Hg|apply Hg]. eapply on_ctr_told; [exact Hi|done| |exact Ha|done].
  intros c' Hc'. unfold known in Hk. rewrite Hc' in Hk. injection Hk as <-. by apply ts_update.
Qed.
Next Obligation.
  intros add del cch p cch' q r [Hi Ht] Hids Hadd Hdel Hsub Hnd Hu Ha Hr. cbn in Ha. pose proof Ha as [Hf Hq]%run_frame.
  destruct (Sync_granted cch add del _ q r (inv_settings _ ∅ Hi) Hadd Hdel Hsub Hnd Hu Hq Hr) as (-> & Hi' & Ho & Hp & Hd).
  split_and!; [done|done|done| |done]. by eapply run_told.
Qed.
Next Obligation.
  intros ptr cch p cch' q r [Hi Ht] Hids Ha. cbn in Ha.
  assert (told (cpusets cch') q) as Ht' by (eapply on_ctr_told; [exact Hi|done| |exact Ha|done]; intros; apply ts_event).
  unfold on_ctr in Ha. destruct (cc_heap cch !! ptr) as [c|].
  - apply run_frame in Ha as [Hf Hq]. split; [done|].
    pose proof (ta_HandleEvent_kept (cache_view cch) (ContainerStarted (tc_ID (ctr_view c))) (with_settings ∅ p)) as Hk.
    rewrite Hq in Hk. split; [split; [eapply ta_inv_kept; [exact Hk|by apply inv_settings]|done]|]. apply dom_cpu_part, Hk.
  - injection Ha as <- <- _. by split_and!.
Qed.
End accounts.
End backend.

(** * The NRI plugin with the topology-aware policy

    Requests of the runtime, handled by the NRI plugin and the topology-aware
    policy together: whatever they are, no container is pinned to a CPU that
    another container has been granted exclusively. *)

Open Scope string_scope.
Open Scope Z_scope.

Section node.
Context `{GoRuntime} (E : TEnv) (usable : CPUSet) `{!PoolCpus E usable, !TopologyFacts E}.
Context (C : CEnv) (cfg : ControlCfg) `{!EnvOk C}.

#[local] Hint Extern 0 (Backend policy) => exact (ta_Backend E) : typeclass_instances.

(** States of the plugin after the policy has been initialized and the plugin
    has been synchronized with the runtime. *)
Definition node_reachable (m0 m : nriPlugin policy) : Prop :=
  (∃ p, initialize E p = (n_policy m0, Ok tt)) ∧ n_byname m0 = ∅ ∧ cache_ok (n_cache m0) ∧
  ∃ pods containers podRes m1 updates, runtime_ok pods containers (n_cache m0) ∧
    Synchronize C cfg pods containers podRes m0 = (m1, Ok updates) ∧ rtc (nri_step C cfg) m1 m.

Abbreviation accounts m0 := (ta_Accounts E usable (ta_isolated (n_policy m0)) (ta_reserved (n_policy m0))).

Lemma node_nri_reachable m0 m : sy_OnlineCPUs (te_Sys E) ⊆ usable → node_reachable m0 m →
  nri_reachable (Accounts0 := accounts m0) C cfg m0 m.
Proof.
  intros Hus ([p Hinit] & Hb & Hok & pods & cs & pr & m1 & us & Hrt & Hs & Hsteps).
  exists pods, cs, pr, m1, us. split_and!; [|done..].
  destruct (initialize_inv E usable p (n_policy m0) Hus Hinit) as (Hi & Hp & Hg & _). split; [done|done| |].
  - cbn. by rewrite Hg, dom_empty_L.
  - split; [done|]. intros _. exists unpinned. split; [|done]. intros id g Hl. cbn in Hl. by rewrite Hg in Hl.
Qed.


(** ** Creating and stopping containers *)

Lemma node_step m0 m m' : node_reachable m0 m → nri_step C cfg m m' → node_reachable m0 m'.
Proof.
  intros (Hinit & Hb & Hok & pods & cs & pr & m1 & us & Hrt & Hs & Hsteps) Hstep.
  split_and!; [done..|]. exists pods, cs, pr, m1, us. split_and!; [done..|]. by eapply rtc_r.
Qed.

(** Stopping a container in the cache takes its grant away, and no other. *)
Lemma StopContainer_grants I R m id p i m' r : ta_inv usable I R (n_policy m) →
  cc_Containers (n_cache m) !! id = Some p → known (n_cache m) p = Some i → i_id i = id →
  StopContainer C cfg id m = (m', r) → ta_grants (n_policy m') = delete id (ta_grants (n_policy m)).
Proof.
  intros Hi Hp Hk Hid. unfold StopContainer, LookupContainer. rewrite Hp. set (m1 := unmapContainer p m).
  assert (n_policy m1 = n_policy m ∧ n_cache m1 = n_cache m) as [Hp1 Hc1].
  { unfold m1, unmapContainer. by case_bool_decide. }
  unfold ask. rewrite Hp1, Hc1. cbn [be_ReleaseResources ta_Backend].
  destruct (on_ctr E (ta_ReleaseResources E) p (n_cache m) (n_policy m)) as [[cch q] rr] eqn:Ha.
  destruct (on_ctr_frame E _ _ _ _ _ _ _ _ Hk Ha) as (_ & c & Hcid & _ & Hq).
  destruct (ta_ReleaseResources_inv E usable I R (cache_view (n_cache m)) c (with_settings ∅ (n_policy m)) (inv_settings usable I R _ ∅ Hi)) as (_ & _ & Hg & _).
  rewrite Hq in Hg. cbn [fst] in Hg. rewrite Hcid, Hid in Hg. destruct rr as [u|e]; [|by intros [= <- _]].
  set (m3 := set_state ContainerStateExited p _). pose proof (getPendingUpdates_quiet C cfg (Some id) m3) as Hquiet.
  destruct (getPendingUpdates C cfg (Some id) m3) as [m4 us]. intros [= <- _].
  cbn [fst] in Hquiet. by rewrite (qt_policy _ _ Hquiet).
Qed.

(** C15: Creating a container replaces the one of the same name, with the
    topology-aware policy, in every state the requests of C1 lead to and for an ID
    that has not been used: if the request succeeds, the container is in the cache,
    created, found by its name and has a grant; a container found by this name
    before has none any more, and nobody else has lost or got one.  If it fails
    without ending the process, the container has no grant, and nobody has got
    one. *)
Theorem node_create_replaces m0 m ctr m' r : sy_OnlineCPUs (te_Sys E) ⊆ usable → node_reachable m0 m →
  new_id (nc_Id ctr) m → CreateContainer C cfg ctr m = (m', r) → r ≠ Err Panic →
  node_reachable m0 m' ∧
  match r with
  | Ok _ => ∃ p c, cc_Containers (n_cache m') !! nc_Id ctr = Some p ∧ cc_heap (n_cache m') !! p = Some c ∧
      GetState c = ContainerStateCreated ∧ called m' (nc_Id ctr) (co_prettyName c) ∧
      ∀ id, is_Some (ta_grants (n_policy m') !! id) ↔
        id = nc_Id ctr ∨ is_Some (ta_grants (n_policy m) !! id) ∧ ¬ called m id (co_prettyName c)
  | Err _ => ta_grants (n_policy m') !! nc_Id ctr = None ∧
      ∀ id, is_Some (ta_grants (n_policy m') !! id) → is_Some (ta_grants (n_policy m) !! id)
  end.
Proof.
  intros Hus Hre Hnew Hc Hr. split; [eapply node_step; [exact Hre|by eapply ns_create]|].
  destruct (CreateContainer_holds (Accounts0 := accounts m0) C cfg m0 m ctr m' r (node_nri_reachable m0 m Hus Hre) Hnew Hc Hr)
    as [_ Hspec].
  destruct r as [u|e].
  - destruct Hspec as (p & c & Hp & Hpc & Hs & Hcalled & Hall). exists p, c. split_and!; [done..|].
    intros id. rewrite <- !elem_of_dom. exact (Hall id).
  - destruct Hspec as [Hnone Hsub]. split; [by apply not_elem_of_dom|]. intros id. rewrite <- !elem_of_dom. apply Hsub.
Qed.

(** C16: Stopping a container, with the topology-aware policy, in every state the
    requests of C1 lead to: the request does not fail; the grant of the container
    is taken away, all other grants are as before, and the container is no longer
    found by a name. *)
Theorem node_stop_releases m0 m id p m' r : sy_OnlineCPUs (te_Sys E) ⊆ usable → node_reachable m0 m →
  StopContainer C cfg id m = (m', r) → cc_Containers (n_cache m) !! id = Some p →
  node_reachable m0 m' ∧ (∃ updates, r = Ok updates) ∧ ta_grants (n_policy m') = delete id (ta_grants (n_policy m)) ∧
  ∀ name, n_byname m' !! name ≠ Some p.
Proof.
  intros Hus Hre Hs Hp. pose proof (node_nri_reachable m0 m Hus Hre) as Hnri.
  destruct (StopContainer_holds (Accounts0 := accounts m0) C cfg m0 m id p m' r Hnri Hs Hp) as (_ & Hr & _ & Hn).
  pose proof (nri_reachable_ok (Accounts0 := accounts m0) C cfg m0 m Hnri) as Hok.
  destruct (no_policy (Accounts0 := accounts m0) m Hok) as [Hi _].
  destruct (no_ids (Accounts0 := accounts m0) m Hok id p Hp) as (i & Hk & Hid). split_and!; [|done| |done].
  - eapply node_step; [exact Hre|]. replace m' with (StopContainer C cfg id m).1 by (by rewrite Hs). apply ns_stop.
  - by eapply StopContainer_grants.
Qed.
End node.
