(* ===== verification/NriWitness.v ===== *)
(** * Examples of the NRI plugin

    The theorems about the NRI plugin applied in an example, with the
    topology-aware policy on a machine with two sockets. *)

From S2P Require Import Prelude GoStrings Expr Kube MemTypes MemNodes MemRequest MemZones MemAllocator MemWitness Affinity CpuTree CpuOrder CpuResizeFacts CpuAlloc CpuAllocFacts CpuTopo BlnTypes BlnPin BlnPolicy BlnConfig TaTypes TaPrefs TaSupply TaScore TaPolicy TaBuild TaConfig TaAccount TaAlloc TaCapacity TaInv TaMain TaBuildFacts TaReach TaWitness CchTypes CchContainer CchStore NriPlugin NriFacts NriReach NriSync NriMain NriPending NriTa.

Open Scope string_scope.
Open Scope Z_scope.

#[local] Existing Instance go_default.
#[local] Existing Instance tex_pool_cpus.
#[local] Existing Instance tex_topology.
#[local] Hint Extern 0 (Backend policy) => exact (ta_Backend tex_env) : typeclass_instances.

(** ** A node *)

Definition nex_env : CEnv :=
  MkCEnv (MkHintEnv (λ _, None) (λ _, None) false (λ _, None) (λ _ _ _, None) (λ _, None)) (λ _, None) ∅ (λ p, Z.pos p) true
    (λ _, true).

Definition nex_cfg : ControlCfg := MkControlCfg false false false false.

Definition nex_cache : CCache := MkCCache ∅ 1 ∅ ∅ "topology-aware" ∅ ∅ ∅ false false 0 None ∅.

Definition nex_m0 : nriPlugin policy := MkNriPlugin ∅ nex_cache tex_p0 [] ∅.

Definition nex_pods : list NriPod :=
  [MkNriPod "p1" "u1" "web" "app" ∅ ∅ "/kubepods/podu1"; MkNriPod "p2" "u2" "db" "app" ∅ ∅ "/kubepods/burstable/podu2"].

Definition nex_ctr (id pod name : string) (shares : Z) (quota : option Z) : NriContainer :=
  MkNriContainer id pod name ContainerStateCreated ∅ [] []
    (Some (MkLinuxContainer [] (Some (MkLinuxResources (Some (MkLinuxCPU (Some shares) quota (Some 100000) "" ""))
      (Some (MkLinuxMemory (Some 8) None)) [] None None)) (Some 990))) 1.

Definition nex_m1 : nriPlugin policy := (Synchronize nex_env nex_cfg nex_pods [] None nex_m0).1.
Definition nex_web : NriContainer := nex_ctr "web1" "p1" "web" 2048 (Some 200000).
Definition nex_m2 : nriPlugin policy := (CreateContainer nex_env nex_cfg nex_web nex_m1).1.
Definition nex_db : NriContainer := nex_ctr "db1" "p2" "db" 1536 None.
Definition nex_m3 : nriPlugin policy := (CreateContainer nex_env nex_cfg nex_db nex_m2).1.
Definition nex_web2 : NriContainer := nex_ctr "web2" "p1" "web" 1024 (Some 100000).
Definition nex_m4 : nriPlugin policy := (CreateContainer nex_env nex_cfg nex_web2 nex_m3).1.

(** What containers have, and what they are pinned to: the container that
    replaces another one gets its name and CPUs it had. *)
Definition nex_view (m : nriPlugin policy) : list (string * positive) * list (string * Z * list Z * Z) *
    list (string * string * ContainerState) :=
  (map_to_list (n_byname m),
   (λ ig, (ig.1, g_node ig.2, CPUSet_List (g_exclusive ig.2), g_cpuPortion ig.2)) <$> map_to_list (ta_grants (n_policy m)),
   (λ x, (nc_Id (co_Ctr x.2), GetCpusetCpus x.2, GetState x.2)) <$> map_to_list (cc_heap (n_cache m))).

Example nex_created : nex_view nex_m3 =
  ([("app/web/web", 1%positive); ("app/db/db", 2%positive)], [("web1", 1, [4; 5], 0); ("db1", 0, [], 1500)],
   [("db1", "1-3", ContainerStateCreated); ("web1", "4-5", ContainerStateCreated)]).
Proof. by vm_compute. Qed.

Example nex_replaced : nex_view nex_m4 =
  ([("app/web/web", 3%positive); ("app/db/db", 2%positive)], [("web2", 1, [4], 0); ("db1", 0, [], 1500)],
   [("web2", "4", ContainerStateCreated); ("db1", "1-3", ContainerStateCreated); ("web1", "4-5", ContainerStateExited)]).
Proof. by vm_compute. Qed.

(** The name of a container is not saved, and made again when it is loaded. *)
Example nex_loaded : (λ x, (nc_Id (co_Ctr x.2), co_prettyName x.2)) <$>
    map_to_list (cc_heap (Load (with_file (cc_file (n_cache nex_m3)) nex_cache)).1) =
  [("db1", "app/db/db"); ("web1", "app/web/web")].
Proof. by vm_compute. Qed.

(** A container of a pod that is not in the cache ends the process. *)
Example nex_unknown_pod : (CreateContainer nex_env nex_cfg (nex_ctr "x" "p3" "x" 2 None) nex_m1).2 = Err Panic.
Proof. by vm_compute. Qed.

(** ** The assumptions hold *)

#[local] Instance nex_env_ok : EnvOk nex_env.
Proof. by split. Qed.

Lemma nex_cache_ok : cache_ok nex_cache.
Proof. split; [by intros ??|by intros ??|intros p [i Hi]|intros p i Hi]; by unfold known in Hi; cbn in Hi; rewrite lookup_empty in Hi. Qed.

Lemma nex_new id (m : nriPlugin policy) : map_Forall (λ _ c, nc_Id (co_Ctr c) ≠ id) (cc_heap (n_cache m)) → new_id (S := policy) id m.
Proof. intros Hall p i Hi. destruct (known_Some _ _ _ Hi) as (c & Hc & <-). exact (Hall p c Hc). Qed.

Lemma nex_create ctr (m : nriPlugin policy) : map_Forall (λ _ c, nc_Id (co_Ctr c) ≠ nc_Id ctr) (cc_heap (n_cache m)) →
  (CreateContainer nex_env nex_cfg ctr m).2 ≠ Err Panic → nri_step nex_env nex_cfg m (CreateContainer nex_env nex_cfg ctr m).1.
Proof.
  intros Hnew Hr. destruct (CreateContainer nex_env nex_cfg ctr m) as [m' r] eqn:Hc. by eapply ns_create; [apply nex_new|..].
Qed.

Lemma nex_steps : rtc (nri_step nex_env nex_cfg) nex_m1 nex_m3.
Proof.
  apply rtc_l with nex_m2; [|apply rtc_once]; apply nex_create; try (by vm_compute); apply (bool_decide_unpack _); by vm_compute.
Qed.

Lemma nex_reachable3 : node_reachable tex_env nex_env nex_cfg nex_m0 nex_m3.
Proof.
  split_and!; [exact tex_initialized|done|exact nex_cache_ok|].
  exists nex_pods, [], None, nex_m1, []. split_and!; [by intros c p i ?%not_elem_of_nil|by vm_compute|exact nex_steps].
Qed.

Abbreviation nex_accounts := (ta_Accounts tex_env tex_all (ta_isolated (n_policy nex_m0)) (ta_reserved (n_policy nex_m0))).

Lemma nex_reachable : nri_reachable (Accounts0 := nex_accounts) nex_env nex_cfg nex_m0 nex_m3.
Proof. exact (node_nri_reachable tex_env tex_all nex_env nex_cfg nex_m0 nex_m3 tex_online nex_reachable3). Qed.

(** ** The theorems in the example *)

Definition nex_held (m : nriPlugin policy) : gset string := holds (Accounts := nex_accounts) (n_policy m).

Lemma nri_tracks_witness : ("web1" ∈ nex_held nex_m3) ∧ ∃ name, called nex_m3 "web1" name.
Proof.
  split; [apply (bool_decide_unpack _); by vm_compute|].
  apply (nri_tracks (Accounts0 := nex_accounts) nex_env nex_cfg nex_m0 nex_m3 nex_reachable).
  apply (bool_decide_unpack _). by vm_compute.
Defined.

Lemma node_create_replaces_witness : ∃ adjust updates,
  CreateContainer nex_env nex_cfg nex_web2 nex_m3 = (nex_m4, Ok (adjust, updates)) ∧
  node_reachable tex_env nex_env nex_cfg nex_m0 nex_m4 ∧
  ∃ p c, cc_Containers (n_cache nex_m4) !! "web2" = Some p ∧ cc_heap (n_cache nex_m4) !! p = Some c ∧
    ∀ id, is_Some (ta_grants (n_policy nex_m4) !! id) ↔
      id = "web2" ∨ is_Some (ta_grants (n_policy nex_m3) !! id) ∧ ¬ called nex_m3 id (co_prettyName c).
Proof.
  destruct (CreateContainer nex_env nex_cfg nex_web2 nex_m3).2 as [[adjust updates]|e] eqn:Hr; [|by vm_compute in Hr].
  exists adjust, updates.
  assert (CreateContainer nex_env nex_cfg nex_web2 nex_m3 = (nex_m4, Ok (adjust, updates))) as Hc.
  { rewrite <- Hr. apply surjective_pairing. }
  split; [exact Hc|].
  destruct (node_create_replaces tex_env tex_all nex_env nex_cfg nex_m0 nex_m3 nex_web2 nex_m4 (Ok (adjust, updates)) tex_online
    nex_reachable3) as (Hre & p & c & Hp & Hpc & _ & _ & Hh); [|exact Hc|done|].
  - apply nex_new. apply (bool_decide_unpack _). by vm_compute.
  - split; [exact Hre|]. exists p, c. split_and!; [exact Hp|exact Hpc|exact Hh].
Defined.

Lemma node_stop_releases_witness : let m' := (StopContainer nex_env nex_cfg "web1" nex_m3).1 in
  ta_grants (n_policy m') = delete "web1" (ta_grants (n_policy nex_m3)) ∧ ∀ name, n_byname m' !! name ≠ Some 1%positive.
Proof.
  pose proof (surjective_pairing (StopContainer nex_env nex_cfg "web1" nex_m3)) as Hs.
  destruct (node_stop_releases tex_env tex_all nex_env nex_cfg nex_m0 nex_m3 "web1" 1%positive _ _ tex_online nex_reachable3 Hs)
    as (_ & _ & Hh & Hn); [by vm_compute|]. exact (conj Hh Hn).
Defined.

Definition nex_grant (id : string) : grant :=
  default (newGrant 0 "" cpuNormal "" ∅ 0 0 None 0) (ta_grants (n_policy nex_m3) !! id).

Definition nex_cached (ptr : positive) : CContainer :=
  default (new_container nex_env (createPod (MkNriPod "" "" "" "" ∅ ∅ "") None 0) nex_web 0) (cc_heap (n_cache nex_m3) !! ptr).


(** ** Requests for containers that are not live

    Updating and starting do not look at the state of the container, nor at
    whether it is found by its name: a stopped or replaced container gets a grant
    that no other request for its name takes away, and a replaced container that
    is started runs without being found. *)

Definition nex_less : LinuxResources :=
  MkLinuxResources (Some (MkLinuxCPU (Some 1024) (Some 100000) (Some 100000) "" "")) (Some (MkLinuxMemory (Some 8) None)) [] None None.

Definition nex_has (id : string) (m : nriPlugin policy) : bool := bool_decide (is_Some (ta_grants (n_policy m) !! id)).

(** Whether a container is found by a name. *)
Definition nex_found (id : string) (m : nriPlugin policy) : bool :=
  existsb (λ np, bool_decide (id_of m np.2 = id)) (map_to_list (n_byname m)).

Lemma nex_not_found id (m : nriPlugin policy) : nex_found id m = false → ¬ ∃ name, called m id name.
Proof.
  intros Hf (name & p & c & Hp & Hc & Hid & _). apply not_true_iff_false in Hf. apply Hf, existsb_exists. exists (name, p).
  split; [by apply list_elem_of_In, elem_of_map_to_list|]. apply bool_decide_eq_true. unfold id_of, ctr_at. cbn. by rewrite Hc.
Qed.

Definition nex_stopped : nriPlugin policy := (StopContainer nex_env nex_cfg "web1" nex_m3).1.

Example nex_updated_stopped :
  let m := (UpdateContainer nex_env nex_cfg "web1" (Some nex_less) nex_stopped).1 in
  nex_has "web1" nex_stopped = false ∧ nex_has "web1" m = true ∧ ¬ ∃ name, called m "web1" name.
Proof. cbn zeta. split_and!; [by vm_compute..|]. apply nex_not_found. by vm_compute. Qed.

Example nex_updated_replaced :
  let m := (UpdateContainer nex_env nex_cfg "web1" (Some nex_less) nex_m4).1 in
  nex_has "web1" nex_m4 = false ∧ nex_has "web1" m = true ∧ ¬ ∃ name, called m "web1" name.
Proof. cbn zeta. split_and!; [by vm_compute..|]. apply nex_not_found. by vm_compute. Qed.

Example nex_started_replaced :
  let m := StartContainer "web1" nex_m4 in state_of m 1 = ContainerStateRunning ∧ ¬ ∃ name, called m "web1" name.
Proof. cbn zeta. split_and!; [by vm_compute..|]. apply nex_not_found. by vm_compute. Qed.

(** A container that has shared CPUs is updated when others are released. *)
Definition nex_m5 : nriPlugin policy := (ask (be_ReleaseResources 1%positive) nex_m3).1.

Definition nex_update : ContainerUpdate :=
  MkContainerUpdate "db1" (MkLinuxResources (Some (MkLinuxCPU None None None "1-3" "")) None [] None None).

Lemma nex_ids cch : map_Forall (λ id p, nc_Id ∘ co_Ctr <$> cc_heap cch !! p = Some id) (cc_Containers cch) → ids_ok cch.
Proof.
  intros Hall id p Hp. specialize (Hall id p Hp). cbn beta in Hall. unfold known.
  destruct (cc_heap cch !! p) as [c|]; [|discriminate Hall]. injection Hall as <-. by exists (ident c).
Qed.

Lemma nex_ids5 : ids_ok (n_cache nex_m5).
Proof. apply nex_ids, (bool_decide_unpack _). by vm_compute. Qed.

Lemma updateContainers_lossless_witness :
  let m' := (updateContainers nex_env nex_cfg (λ us, Ok us) nex_m5).1 in
  (peekPendingUpdates nex_cfg None nex_m5).2 = [nex_update] ∧ waits "db1" 2 nex_update (n_cache m').
Proof.
  cbn zeta. split; [by vm_compute|].
  destruct (updateContainers_lossless nex_env nex_cfg (λ us, Ok us) nex_m5 "db1" 2%positive nex_update nex_ids5)
    as (u' & Hu' & Hid & _ & _ & Hw); [by vm_compute| |done|].
  - eexists. split; [by vm_compute|]. split; [by vm_compute|]. split; [by vm_compute|].
    apply (bool_decide_unpack _). by vm_compute.
  - cbn zeta in Hw. assert ((peekPendingUpdates nex_cfg None nex_m5).2 = [nex_update]) as Hall by (by vm_compute).
    rewrite Hall in Hu', Hw. apply list_elem_of_singleton in Hu' as ->.
    rewrite bool_decide_eq_true_2 in Hw by (by vm_compute; left). exact Hw.
Defined.
