(* ===== verification/PlgTypes.v ===== *)
(** * Plugins without a resource policy: memory-policy, memory-qos, memtierd, sgx-epc

    These plugins (cmd/plugins) keep nothing about containers.  They read the
    annotations of a pod that are effective for a container and translate them
    into an adjustment of the container while it is created.  Third-party code
    (YAML, cpuset) is a parameter. *)

From Stdlib Require Import Ascii SpecFloat.
From S2P Require Import Prelude GoStrings MemNodes CpuTree CchTypes.

Open Scope string_scope.
Open Scope Z_scope.

(** ** Strings and paths *)

(** [strings.CutSuffix] *)
Fixpoint cut_suffix (s suffix : string) : option string :=
  if bool_decide (s = suffix) then Some ""
  else
    match s with
    | String c s' => String c <$> cut_suffix s' suffix
    | EmptyString => None
    end.

(** [strings.HasPrefix] and what follows the prefix: [strip_prefix].
    [filepath.Join] *)
Definition path_join (elems : list string) : string :=
  match filter (λ e, e ≠ "") elems with
  | [] => ""
  | l => path_clean (join s_slash l)
  end.

(** ** Pods and containers

    What NRI tells about a container, and what only these plugins look at. *)
Record PlgCtr := MkPlgCtr {
  pc_Ctr : NriContainer;
  pc_Args : list string;
  pc_Pid : Z;
}.

Definition pc_Name (c : PlgCtr) : string := nc_Name (pc_Ctr c).

(** The getters of NRI are safe on missing messages. *)
Definition linux_resources (c : PlgCtr) : option LinuxResources := nc_Linux (pc_Ctr c) ≫= lx_Resources.
Definition ctr_cpus (c : PlgCtr) : string := default "" (cpu_Cpus <$> (linux_resources c ≫= lr_Cpu)).
Definition ctr_mems (c : PlgCtr) : string := default "" (cpu_Mems <$> (linux_resources c ≫= lr_Cpu)).

(** ** Annotations of memory-qos and memtierd *)

Definition ann_associate (m : gmap string string) (key value : string) (override : bool) : gmap string string :=
  if override || bool_decide (m !! key = None) then <[key := value]> m else m.

(** One annotation: annotations of the container override those of the pod. *)
Definition annotation_step (suffix name : string) (eff : gmap string string) (kv : string * string) : gmap string string :=
  match cut_suffix kv.1 (str_app suffix (str_app s_slash name)) with
  | Some prefix => ann_associate eff prefix kv.2 true
  | None =>
      match cut_suffix kv.1 suffix with
      | Some prefix => ann_associate eff prefix kv.2 false
      | None => eff
      end
  end.

Section annotations.
Context `{GoRuntime}.

Definition effective_annotations (suffix : string) (pod : NriPod) (ctr : PlgCtr) : gmap string string :=
  fold_left (annotation_step suffix (pc_Name ctr)) (map_range (np_Annotations pod)) ∅.
End annotations.

(** ** sgx-epc *)

Definition epcLimitKey : string := "epc-limit.nri.io".

(** [strconv.ParseUint] in base 10 with 64 bits *)
Definition parse_uint64 (s : string) : option Z :=
  match parse_digits s with
  | Some n => if bool_decide (n < 2 ^ 64) then Some n else None
  | None => None
  end.

Fixpoint parse_epc_keys (annotations : gmap string string) (keys : list string) : res Z :=
  match keys with
  | [] => Ok 0
  | key :: keys' =>
      match annotations !! key with
      | Some value => match parse_uint64 value with Some limit => Ok limit | None => Err ErrOther end
      | None => parse_epc_keys annotations keys'
      end
  end.

Definition parseEpcLimit (annotations : gmap string string) (ctr : string) : res Z :=
  parse_epc_keys annotations [str_app epcLimitKey (str_app "/container." ctr); str_app epcLimitKey "/pod"; epcLimitKey].

(** The adjustment, the values it adds to the unified resources. *)
Definition sx_CreateContainer (pod : NriPod) (container : PlgCtr) : res (gmap string string) :=
  let! limit := parseEpcLimit (np_Annotations pod) (pc_Name container) in
  Ok (if bool_decide (limit > 0) then {["misc.max" := str_app "sgx_epc " (itoa limit)]} else ∅).

(** ** memory-qos *)

(** Single-precision floating-point numbers. *)
Definition float32 := spec_float.
Definition f32_of_Z (n : Z) : float32 := binary_normalize 24 128 n 0 false.
Definition f32_mul : float32 → float32 → float32 := SFmul 24 128.
Definition f32_sub : float32 → float32 → float32 := SFsub 24 128.

(** The integer part of a finite number. *)
Definition f32_trunc (f : float32) : option Z :=
  match f with
  | S754_zero _ => Some 0
  | S754_finite s m e =>
      let n := if bool_decide (0 ≤ e) then Zpos m * 2 ^ e else Zpos m / 2 ^ (- e) in
      Some (if s then - n else n)
  | S754_infinity _ | S754_nan => None
  end.

Record QoSClass := MkQoSClass {
  qc_Name : string;
  qc_SwapLimitRatio : float32;
}.

Record QosConfig := MkQosConfig {
  qf_UnifiedAnnotations : list string;
  qf_Classes : list QoSClass;
}.

Definition mq_annotationSuffix : string := ".memory-qos.nri.io".

Section memory_qos.
Context `{GoRuntime}.
(** Parsing of the configuration, and the conversion to int64 of numbers that do
    not fit, which is up to the processor. *)
Context (yaml : string → option QosConfig) (int64_unfit : float32 → Z).

(** Conversion to int64. *)
Definition int64_of_f32 (f : float32) : Z :=
  match f32_trunc f with
  | Some n => if bool_decide (- 2 ^ 63 ≤ n < 2 ^ 63) then n else int64_unfit f
  | None => int64_unfit f
  end.

(** The state of the plugin is its configuration, if any. *)
Definition mq_setConfig (config : string) (p : option QosConfig) : option QosConfig * res unit :=
  match yaml config with
  | Some cfg => (Some cfg, Ok tt)
  | None => (p, Err ErrOther)
  end.

Definition mq_Configure (config : string) (p : option QosConfig) : option QosConfig * res unit :=
  if bool_decide (config ≠ "") then mq_setConfig config p else (p, Ok tt).

Definition memory_high (limit : Z) (ratio : float32) : Z :=
  int64_of_f32 (f32_mul (f32_of_Z limit) (f32_sub (f32_of_Z 1) ratio)).

(** The limit of a container is read without looking whether there is memory, or
    anything, in its resources. *)
Definition memory_limit (ctr : PlgCtr) : res (option Z) :=
  match linux_resources ctr ≫= lr_Memory with
  | Some mem => Ok (lm_Limit mem)
  | None => Err Panic
  end.

Definition applyQosClass (p : option QosConfig) (ctr : PlgCtr) (cls : string) (unified : gmap string string)
    : res (gmap string string) :=
  match p with
  | None => Err ErrOther
  | Some cfg =>
      match list_find (λ c, qc_Name c = cls) (qf_Classes cfg) with
      | None => Err ErrOther
      | Some (_, class) =>
          if SFltb (f32_of_Z 0) (qc_SwapLimitRatio class) then
            let! limit := memory_limit ctr in
            match limit with
            | None => Err ErrOther
            | Some limit =>
                let unified := ann_associate unified "memory.high" (itoa (memory_high limit (qc_SwapLimitRatio class))) false in
                Ok (ann_associate unified "memory.swap.max" "max" false)
            end
          else Ok unified
      end
  end.

Definition mq_step (p : option QosConfig) (ctr : PlgCtr) (unified : res (gmap string string)) (ann : string * string)
    : res (gmap string string) :=
  let! unified := unified in
  if bool_decide (ann.1 = "class") then applyQosClass p ctr ann.2 unified
  else
    match p with
    | None => Err Panic
    | Some cfg => if bool_decide (ann.1 ∈ qf_UnifiedAnnotations cfg) then Ok (<[ann.1 := ann.2]> unified) else Err ErrOther
    end.

Definition mq_effectiveAnnotations (pod : NriPod) (ctr : PlgCtr) : gmap string string :=
  effective_annotations mq_annotationSuffix pod ctr.

(** The unified resources that are set; nothing is adjusted if there are none. *)
Definition mq_CreateContainer (p : option QosConfig) (pod : NriPod) (ctr : PlgCtr) : res (gmap string string) :=
  fold_left (mq_step p ctr) (map_range (mq_effectiveAnnotations pod ctr)) (Ok ∅).
End memory_qos.

(** ** memory-policy *)

Record MemoryPolicySpec := MkMemoryPolicySpec {
  po_Mode : string;
  po_Nodes : string;
  po_Flags : list string;
}.

(** The policy of a class can be missing. *)
Record MemoryPolicyClass := MkMemoryPolicyClass {
  mc_Name : string;
  mc_PolicySpec : option MemoryPolicySpec;
}.

(** An entry of the list of classes can be null. *)
Record MpolConfig := MkMpolConfig {
  mf_InjectMpolset : bool;
  mf_Classes : list (option MemoryPolicyClass);
}.

Record LinuxMemoryPolicy := MkLinuxMemoryPolicy {
  lp_Mode : string;
  lp_Nodes : string;
  lp_Flags : list string;
}.

(** What a container is started with: another mount, and other arguments. *)
Record MpolAdjustment := MkMpolAdjustment {
  ma_Mount : NriMount;
  ma_Args : list string;
}.

Definition mp_annotationSuffix : string := ".memory-policy.nri.io".
Definition mpolsetInjectDir : string := "/mnt/nri-memory-policy-mpolset".

Definition MpolMode_names : list string :=
  ["MPOL_DEFAULT"; "MPOL_PREFERRED"; "MPOL_BIND"; "MPOL_INTERLEAVE"; "MPOL_LOCAL"; "MPOL_PREFERRED_MANY";
   "MPOL_WEIGHTED_INTERLEAVE"].

Definition MpolFlag_names : list string := ["MPOL_F_STATIC_NODES"; "MPOL_F_RELATIVE_NODES"; "MPOL_F_NUMA_BALANCING"].

(** CPUs and NUMA nodes as the system has them (pkg/sysfs). *)
Record SysCpu := MkSysCpu {
  sc_pkg : Z;
  sc_node : Z;
}.

Record MpolNode := MkMpolNode {
  sn_pkg : Z;
  sn_distance : list Z;
}.

Record MpolSys := MkMpolSys {
  my_cpus : gmap Z SysCpu;
  my_nodes : gmap Z MpolNode;
  my_OnlineCPUs : CPUSet;
}.

Section memory_policy.
Context `{GoRuntime} (sys : MpolSys).
(** Parsing of the configuration, of the policy in an annotation and of sets of
    CPUs; preparing the directory with mpolset, and logging of everything. *)
Context (yaml_config : string → option MpolConfig) (yaml_policy : string → option MemoryPolicySpec)
  (parse_cpuset : string → option CPUSet) (prepareMpolset : option error) (veryVerbose : bool).

(** *** The system *)

Definition sys_NodeIDs : list Z := slices_Sort (fst <$> map_range (my_nodes sys)).

Definition IDSetForCPUs (cpus : CPUSet) (idForCPU : SysCpu → Z) : gset Z :=
  fold_left (λ ids id, match my_cpus sys !! id with Some cpu => {[idForCPU cpu]} ∪ ids | None => ids end)
    (UnsortedList cpus) ∅.

Definition DistanceFrom (n : MpolNode) (id : Z) : res Z :=
  if bool_decide (id < 0) then Err Panic else Ok (nth (Z.to_nat id) (sn_distance n) (-1)).

Definition sys_NodeDistance (from to : Z) : res Z :=
  match my_nodes sys !! from with Some n => DistanceFrom n to | None => Ok (-1) end.

(** The nodes at most so far away. *)
Fixpoint nodes_within (maxDist from : Z) (ids : list Z) (m : Z) : res Z :=
  match ids with
  | [] => Ok m
  | to :: ids' =>
      let! dist := sys_NodeDistance from to in
      nodes_within maxDist from ids' (if bool_decide (dist ≤ maxDist) then NodeMask_Set m [to] else m)
  end.

Fixpoint nodes_around (maxDist : Z) (froms : list Z) (m : Z) : res Z :=
  match froms with
  | [] => Ok m
  | from :: froms' => let! m := nodes_within maxDist from sys_NodeIDs m in nodes_around maxDist froms' m
  end.

(** *** Configuration *)

Fixpoint mp_check_classes (classes : list (option MemoryPolicyClass)) : res unit :=
  match classes with
  | [] => Ok tt
  | None :: _ => Err Panic
  | Some class :: classes' =>
      if bool_decide (mc_Name class = "") then Err ErrOther
      else
        match mc_PolicySpec class with
        | None => Err ErrOther
        | Some spec => if bool_decide (po_Mode spec = "") then Err ErrOther else mp_check_classes classes'
        end
  end.

Definition mp_setConfig (config : string) (p : MpolConfig) : MpolConfig * res unit :=
  match yaml_config config with
  | None => (p, Err ErrOther)
  | Some cfg =>
      match mp_check_classes (mf_Classes cfg) with
      | Ok _ => (cfg, Ok tt)
      | Err e => (p, Err e)
      end
  end.

(** mpolset is prepared if the runtime has no configuration for the plugin. *)
Definition mp_Configure (config : string) (p : MpolConfig) : MpolConfig * res unit :=
  if bool_decide (config ≠ "") then mp_setConfig config p
  else if mf_InjectMpolset p then (p, match prepareMpolset with Some e => Err e | None => Ok tt end)
  else (p, Ok tt).

(** *** Annotations *)

Definition is_choice (prefix : string) : bool := bool_decide (prefix = "class" ∨ prefix = "policy").

Definition mp_step (name : string) (eff : gmap string string) (kv : string * string) : gmap string string :=
  match cut_suffix kv.1 (str_app mp_annotationSuffix (str_app "/container." name)) with
  | Some prefix => <[prefix := kv.2]> (if is_choice prefix then delete "policy" (delete "class" eff) else eff)
  | None =>
      match cut_suffix kv.1 mp_annotationSuffix with
      | Some prefix =>
          if is_choice prefix && (bool_decide (is_Some (eff !! "class")) || bool_decide (is_Some (eff !! "policy"))) then eff
          else <[prefix := kv.2]> eff
      | None => eff
      end
  end.

Definition mp_effectiveAnnotations (pod : NriPod) (ctr : PlgCtr) : gmap string string :=
  fold_left (mp_step (pc_Name ctr)) (map_range (np_Annotations pod)) ∅.

Definition takePolicyAnnotation (ann : gmap string string) : gmap string string * res (option MemoryPolicySpec) :=
  match ann !! "policy" with
  | Some value =>
      (delete "policy" ann,
       if bool_decide (value = "") then Ok None
       else match yaml_policy value with Some spec => Ok (Some spec) | None => Err ErrOther end)
  | None => (ann, Ok None)
  end.

Fixpoint find_class (name : string) (classes : list (option MemoryPolicyClass)) : res (option MemoryPolicyClass) :=
  match classes with
  | [] => Err ErrOther
  | None :: _ => Err Panic
  | Some class :: classes' => if bool_decide (mc_Name class = name) then Ok (Some class) else find_class name classes'
  end.

Definition takeClassAnnotation (p : MpolConfig) (ann : gmap string string)
    : gmap string string * res (option MemoryPolicyClass) :=
  match ann !! "class" with
  | Some value => (delete "class" ann, if bool_decide (value = "") then Ok None else find_class value (mf_Classes p))
  | None => (ann, Ok None)
  end.

Definition getPolicySpec (p : MpolConfig) (pod : NriPod) (ctr : PlgCtr) : res (option MemoryPolicySpec) :=
  let '(effAnn, policySpec) := takePolicyAnnotation (mp_effectiveAnnotations pod ctr) in
  let! policySpec := policySpec in
  match policySpec with
  | Some spec => Ok (Some spec)
  | None =>
      let '(effAnn, class) := takeClassAnnotation p effAnn in
      let! class := class in
      match class with
      | Some class => match mc_PolicySpec class with Some spec => Ok (Some spec) | None => Err ErrOther end
      | None => if bool_decide (effAnn = ∅) then Ok None else Err ErrOther
      end
  end.

(** *** Memory policies *)

(** The nodes a policy names. *)
Definition policy_nodes (nodes : string) (ctrCpuset : CPUSet) (allowedMems : Z) : res Z :=
  if bool_decide (nodes = "all") then Ok (NewNodeMask sys_NodeIDs)
  else if bool_decide (nodes = "allowed-mems") then Ok allowedMems
  else if bool_decide (nodes = "cpu-packages") then
    let pkgs := IDSetForCPUs ctrCpuset sc_pkg in
    Ok (fold_left (λ m id, if bool_decide (default (-1) (sn_pkg <$> my_nodes sys !! id) ∈ pkgs) then NodeMask_Set m [id] else m)
          sys_NodeIDs (NewNodeMask []))
  else if bool_decide (nodes = "cpu-nodes") then Ok (NewNodeMask (UnsortedList (IDSetForCPUs ctrCpuset sc_node)))
  else
    match strip_prefix "max-dist:" nodes with
    | Some maxDist =>
        match parse_int 64 maxDist with
        | None => Err ErrOther
        | Some maxDist =>
            nodes_around maxDist (UnsortedList (IDSetForCPUs ctrCpuset sc_node)) (NewNodeMask [])
        end
    | None =>
        match nodes with
        | EmptyString => Err Panic
        | String c _ =>
            if bool_decide (48 ≤ nat_of_ascii c ≤ 57)%nat then
              match ParseNodeMask nodes with Ok m => Ok m | Err e => Err e end
            else Err ErrOther
        end
    end.

Fixpoint copy_flags (flags : list string) : res (list string) :=
  match flags with
  | [] => Ok []
  | flag :: flags' =>
      if bool_decide (flag ∈ MpolFlag_names) then let! flags' := copy_flags flags' in Ok (flag :: flags') else Err ErrOther
  end.

Definition ToLinuxMemoryPolicy (spec : MemoryPolicySpec) (ctr : PlgCtr) : res LinuxMemoryPolicy :=
  if bool_decide (po_Mode spec ∉ MpolMode_names) then Err ErrOther
  else
    let! ctrCpuset :=
      if bool_decide (ctr_cpus ctr ≠ "")
      then match parse_cpuset (ctr_cpus ctr) with Some cpus => Ok cpus | None => Err ErrOther end
      else Ok (my_OnlineCPUs sys) in
    let! allowedMems :=
      if bool_decide (ctr_mems ctr ≠ "")
      then match ParseNodeMask (ctr_mems ctr) with Ok m => Ok m | Err _ => Err ErrOther end
      else Ok (NewNodeMask sys_NodeIDs) in
    let! nodeMask := policy_nodes (po_Nodes spec) ctrCpuset allowedMems in
    let! flags := copy_flags (po_Flags spec) in
    Ok (MkLinuxMemoryPolicy (po_Mode spec) (NodeMask_MemsetString nodeMask) flags).

(** Not implemented. *)
Definition ToMemoryPolicyAdjustment (policy : LinuxMemoryPolicy) : res MpolAdjustment := Err ErrOther.

Definition ToCommandInjectionAdjustment (policy : LinuxMemoryPolicy) (ctr : PlgCtr) : MpolAdjustment :=
  MkMpolAdjustment
    (MkNriMount mpolsetInjectDir mpolsetInjectDir "bind" ["bind"; "ro"; "rslave"])
    (app [path_join [mpolsetInjectDir; "mpolset"]; "--mode"; lp_Mode policy; "--nodes"; lp_Nodes policy]
      (app (if bool_decide (lp_Flags policy ≠ []) then ["--flags"; join "," (lp_Flags policy)] else [])
        (app (if veryVerbose then ["-vv"] else []) (app ["--"] (pc_Args ctr))))).

Definition mp_CreateContainer (p : MpolConfig) (pod : NriPod) (ctr : PlgCtr) : res (option MpolAdjustment) :=
  let! policySpec := getPolicySpec p pod ctr in
  match policySpec with
  | None => Ok None
  | Some spec =>
      if bool_decide (po_Mode spec = "") then Ok None
      else
        let! policy := ToLinuxMemoryPolicy spec ctr in
        if mf_InjectMpolset p then Ok (Some (ToCommandInjectionAdjustment policy ctr))
        else let! ca := ToMemoryPolicyAdjustment policy in Ok (Some ca)
  end.
End memory_policy.

(** ** The file system

    Nodes by their path.  Any operation can fail, for whatever reason the kernel
    has ([fs_fails], which sees what was tried before). *)

Inductive FsNode :=
  | NDir (perm : Z)
  | NFile (perm : Z) (data : string)
  | NSymlink.

Inductive FsOp :=
  | FsStat (path : string)
  | FsMkdir (path : string)
  | FsChmod (path : string) (perm : Z)
  | FsRemove (path : string)
  | FsRemoveAll (path : string)
  | FsCreate (path : string)
  | FsWrite (path data : string)
  | FsRename (path to : string)
  | FsReadDir (path : string).

Inductive FsError := ENotExist | EExist | EFail.

Record Fs := MkFs {
  fs_nodes : gmap string FsNode;
  fs_log : list FsOp;
}.

(** The kernel: what fails, and which bits new nodes do not get. *)
Class Kernel := {
  fs_fails : list FsOp → FsOp → bool;
  fs_umask : Z;
  fs_leads_to_dir : string → bool;    (* a symbolic link to a directory *)
}.

Definition set_node (path : string) (n : FsNode) (s : Fs) : Fs := MkFs (<[path := n]> (fs_nodes s)) (fs_log s).
Definition del_node (path : string) (s : Fs) : Fs := MkFs (delete path (fs_nodes s)) (fs_log s).

Section fs.
Context `{Kernel}.

Definition fs_try {A} (op : FsOp) (f : Fs → Fs * (FsError + A)) (s : Fs) : Fs * (FsError + A) :=
  let s' := MkFs (fs_nodes s) (app (fs_log s) [op]) in
  if fs_fails (fs_log s) op then (s', inl EFail) else f s'.

Definition os_Lstat (path : string) : Fs → Fs * (FsError + FsNode) :=
  fs_try (FsStat path) (λ s, (s, match fs_nodes s !! path with Some n => inr n | None => inl ENotExist end)).

(** Whether a path is, or leads to, a directory. *)
Definition os_Stat (path : string) : Fs → Fs * (FsError + bool) :=
  fs_try (FsStat path) (λ s, (s,
    match fs_nodes s !! path with
    | Some (NDir _) => inr true
    | Some (NFile _ _) => inr false
    | Some NSymlink => inr (fs_leads_to_dir path)
    | None => inl ENotExist
    end)).

Definition os_Mkdir (path : string) (perm : Z) : Fs → Fs * (FsError + unit) :=
  fs_try (FsMkdir path) (λ s,
    match fs_nodes s !! path with
    | Some _ => (s, inl EExist)
    | None => (set_node path (NDir (Z.ldiff perm fs_umask)) s, inr tt)
    end).

(** The paths to a directory, the shortest one first. *)
Fixpoint path_prefixes (dir : string) (elems : list string) : list string :=
  match elems with
  | [] => []
  | e :: elems' => str_app dir e :: path_prefixes (str_app dir (str_app e s_slash)) elems'
  end.

Fixpoint mkdir_all (paths : list string) (perm : Z) (s : Fs) : Fs * (FsError + unit) :=
  match paths with
  | [] => (s, inr tt)
  | path :: paths' =>
      match fs_nodes s !! path with
      | Some _ => mkdir_all paths' perm s
      | None =>
          match os_Mkdir path perm s with
          | (s, inr _) => mkdir_all paths' perm s
          | (s, inl e) => (s, inl e)
          end
      end
  end.

(** Something else than a directory on the way is one of the reasons to fail. *)
Definition os_MkdirAll (path : string) (perm : Z) (s : Fs) : Fs * (FsError + unit) :=
  match fs_nodes s !! path with
  | Some (NDir _) => (s, inr tt)
  | Some (NFile _ _) => (s, inl EFail)
  | Some NSymlink => (s, if fs_leads_to_dir path then inr tt else inl EFail)
  | None => mkdir_all (filter (λ p, p ≠ "") (path_prefixes "" (split_on c_slash path))) perm s
  end.

Definition os_Chmod (path : string) (perm : Z) : Fs → Fs * (FsError + unit) :=
  fs_try (FsChmod path perm) (λ s,
    match fs_nodes s !! path with
    | Some (NDir _) => (set_node path (NDir perm) s, inr tt)
    | Some (NFile _ data) => (set_node path (NFile perm data) s, inr tt)
    | Some NSymlink => (s, inr tt)
    | None => (s, inl ENotExist)
    end).

Definition os_Remove (path : string) : Fs → Fs * (FsError + unit) :=
  fs_try (FsRemove path) (λ s,
    match fs_nodes s !! path with
    | Some _ => (del_node path s, inr tt)
    | None => (s, inl ENotExist)
    end).

(** The node at a path and all nodes below it. *)
Definition below (path p : string) : bool :=
  bool_decide (p = path) || bool_decide (is_Some (strip_prefix (str_app path s_slash) p)).

Definition os_RemoveAll (path : string) : Fs → Fs * (FsError + unit) :=
  fs_try (FsRemoveAll path) (λ s,
    (MkFs (filter (λ n, below path n.1 = false) (fs_nodes s)) (fs_log s), inr tt)).

(** Creating a new file, not following links. *)
Definition os_CreateExcl (path : string) (perm : Z) : Fs → Fs * (FsError + unit) :=
  fs_try (FsCreate path) (λ s,
    match fs_nodes s !! path with
    | Some _ => (s, inl EExist)
    | None => (set_node path (NFile (Z.ldiff perm fs_umask) "") s, inr tt)
    end).

Definition os_Write (path data : string) : Fs → Fs * (FsError + unit) :=
  fs_try (FsWrite path data) (λ s,
    match fs_nodes s !! path with
    | Some (NFile perm old) => (set_node path (NFile perm (str_app old data)) s, inr tt)
    | _ => (s, inl EFail)
    end).

Definition os_Rename (path to : string) : Fs → Fs * (FsError + unit) :=
  fs_try (FsRename path to) (λ s,
    match fs_nodes s !! path with
    | Some n => (set_node to n (del_node path s), inr tt)
    | None => (s, inl ENotExist)
    end).
End fs.

(** ** memtierd *)

Definition runDirPerm : Z := 448.    (* 0700 *)
Definition cfgFilePerm : Z := 384.   (* 0600 *)
Definition outFilePerm : Z := 384.   (* 0600 *)
Definition pidFilePerm : Z := 256.   (* 0400 *)

Definition mt_annotationSuffix : string := ".memtierd.nri.io".

Record MtClass := MkMtClass {
  tc_Name : string;
  tc_MemtierdConfig : string;
  tc_AllowSwap : option bool;
}.

Record memtierdEnv := MkMemtierdEnv {
  me_ctrDir : string;
  me_configFile : string;
  me_outputFile : string;
  me_pidFile : string;
  me_pid : option Z;
}.

(** The classes of the configuration, if any, the run environments by the names
    of containers, the file system and the processes that are running. *)
Record memtierd := MkMemtierd {
  mt_Classes : option (list MtClass);
  mt_envs : gmap string memtierdEnv;
  mt_fs : Fs;
  mt_procs : gset Z;
}.

Definition with_mt_fs (v : Fs) (p : memtierd) : memtierd := MkMemtierd (mt_Classes p) (mt_envs p) v (mt_procs p).
Definition with_mt_envs (v : gmap string memtierdEnv) (p : memtierd) : memtierd :=
  MkMemtierd (mt_Classes p) v (mt_fs p) (mt_procs p).
Definition with_mt_procs (v : gset Z) (p : memtierd) : memtierd := MkMemtierd (mt_Classes p) (mt_envs p) (mt_fs p) v.

Definition c_nul : ascii := ascii_of_nat 0.

(** Whether a string is safe as a single path component. *)
Definition sanitizePathSegment (s : string) : bool :=
  negb (bool_decide (s = "")) && negb (bool_decide (s = s_dot ∨ s = s_dotdot)) &&
  negb (in_string c_slash s || in_string c_nul s).

(** [strings.ReplaceAll] of a non-empty string.  An occurrence is no shorter than
    [old], so a round for each character is enough. *)
Fixpoint replace_all (n : nat) (old new s : string) : string :=
  match n with
  | O => s
  | S n' =>
      match strip_prefix old s with
      | Some rest => str_app new (replace_all n' old new rest)
      | None => match s with EmptyString => "" | String c s' => String c (replace_all n' old new s') end
      end
  end.

Definition ReplaceAll (s old new : string) : string := replace_all (S (String.length s)) old new s.

Definition pprintCtr (pod : NriPod) (ctr : PlgCtr) : string :=
  str_app (np_Namespace pod) (str_app "/" (str_app (np_Name pod) (str_app ":" (pc_Name ctr)))).

Section memtierd_plugin.
Context `{GoRuntime} `{Kernel}.
(** Parsing of the configuration, the directory of a container under the cgroup
    mount point, whether a process can be started and killed, and the directory
    of the plugin. *)
Context (yaml : string → option (list MtClass)) (find_cgroup : string → res (option string))
  (exec : memtierd → string → option Z) (kill : memtierd → Z → bool) (runDir : string).

Definition mt_setConfig (config : string) (p : memtierd) : memtierd * res unit :=
  match yaml config with
  | Some classes => (MkMemtierd (Some classes) (mt_envs p) (mt_fs p) (mt_procs p), Ok tt)
  | None => (p, Err ErrOther)
  end.

Definition mt_Configure (config : string) (p : memtierd) : memtierd * res unit :=
  if bool_decide (config ≠ "") then mt_setConfig config p else (p, Ok tt).

Definition mt_effectiveAnnotations (pod : NriPod) (ctr : PlgCtr) : gmap string string :=
  effective_annotations mt_annotationSuffix pod ctr.

(** The class of a name; none if there is no such class. *)
Definition qosClass (p : memtierd) (className : string) : res (option MtClass) :=
  match mt_Classes p with
  | None => Err ErrOther
  | Some classes => Ok (snd <$> list_find (λ c, tc_Name c = className) classes)
  end.

Definition mt_step (p : memtierd) (unified : res (gmap string string)) (ann : string * string)
    : res (gmap string string) :=
  let! unified := unified in
  if bool_decide (ann.1 = "memory.swap.max" ∨ ann.1 = "memory.high") then Ok (<[ann.1 := ann.2]> unified)
  else if bool_decide (ann.1 = "class") then
    if bool_decide (ann.2 = "") then Ok unified
    else
      let! cls := qosClass p ann.2 in
      match cls with
      | None => Err ErrOther
      | Some cls =>
          Ok (match tc_AllowSwap cls with
              | Some allow => ann_associate unified "memory.swap.max" (if allow then "max" else "0") false
              | None => unified
              end)
      end
  else Ok unified.

Definition mt_CreateContainer (p : memtierd) (pod : NriPod) (ctr : PlgCtr) : res (gmap string string) :=
  fold_left (mt_step p) (map_range (mt_effectiveAnnotations pod ctr)) (Ok ∅).

(** *** Run environments *)

Fixpoint secure_segments (cur : string) (segments : list string) (s : Fs) : Fs * bool :=
  match segments with
  | [] => (s, true)
  | seg :: segments' =>
      let cur := path_join [cur; seg] in
      let '(s, fi) := os_Lstat cur s in
      match fi with
      | inr (NDir _) =>
          match os_Chmod cur runDirPerm s with
          | (s, inr _) => secure_segments cur segments' s
          | (s, inl _) => (s, false)
          end
      | inr _ => (s, false)
      | inl ENotExist =>
          match os_Mkdir cur runDirPerm s with
          | (s, inl _) => (s, false)
          | (s, inr _) =>
              match os_Chmod cur runDirPerm s with
              | (s, inr _) => secure_segments cur segments' s
              | (s, inl _) => (s, false)
              end
          end
      | inl _ => (s, false)
      end
  end.

Definition ensureSecureDir (segments : list string) (s : Fs) : Fs * bool :=
  match os_MkdirAll runDir runDirPerm s with
  | (s, inl _) => (s, false)
  | (s, inr _) => secure_segments runDir segments s
  end.

(** The sibling file is removed in the end, if it is still there. *)
Definition writeFileAtomic (path data : string) (perm : Z) (s : Fs) : Fs * bool :=
  let tmp := str_app path ".tmp" in
  let '(s, _) := os_Remove tmp s in
  match os_CreateExcl tmp perm s with
  | (s, inl _) => (s, false)
  | (s, inr _) =>
      let '(s, ok) :=
        match os_Write tmp data s with
        | (s, inl _) => (s, false)
        | (s, inr _) =>
            match os_Chmod tmp perm s with
            | (s, inl _) => (s, false)
            | (s, inr _) => match os_Rename tmp path s with (s, inl _) => (s, false) | (s, inr _) => (s, true) end
            end
        end in
      ((os_Remove tmp s).1, ok)
  end.

(** The placeholders of a configuration are replaced in any order. *)
Definition instantiate (config cgroup stats : string) : string :=
  fold_left (λ out kv, ReplaceAll out kv.1 kv.2)
    (map_range (<["$CGROUP2_ABS_PATH" := cgroup]> {["$MEMTIERD_SWAP_STATS_PATH" := stats]} : gmap string string)) config.

Definition newMemtierdEnv (cgroup namespace podName containerName config : string) (s : Fs) : Fs * option memtierdEnv :=
  if forallb sanitizePathSegment [namespace; podName; containerName] then
    let ctrDir := path_join [runDir; namespace; podName; containerName] in
    match ensureSecureDir [namespace; podName; containerName] s with
    | (s, false) => (s, None)
    | (s, true) =>
        let configFile := path_join [ctrDir; "memtierd.config.yaml"] in
        match writeFileAtomic configFile (instantiate config cgroup (path_join [ctrDir; "memtierd.stats"])) cfgFilePerm s with
        | (s, false) => (s, None)
        | (s, true) =>
            (s, Some (MkMemtierdEnv ctrDir configFile (path_join [ctrDir; "memtierd.output"])
                        (path_join [ctrDir; "memtierd.pid"]) None))
        end
    end
  else (s, None).

(** The output file is created or truncated. *)
Definition open_output (path : string) : Fs → Fs * (FsError + unit) :=
  fs_try (FsCreate path) (λ s,
    match fs_nodes s !! path with
    | None => (set_node path (NFile (Z.ldiff outFilePerm fs_umask) "") s, inr tt)
    | Some (NFile perm _) => (set_node path (NFile perm "") s, inr tt)
    | Some _ => (s, inl EFail)
    end).

(** A pid file that cannot be written is only logged. *)
Definition startMemtierd (me : memtierdEnv) (p : memtierd) : memtierd * option memtierdEnv :=
  match open_output (me_outputFile me) (mt_fs p) with
  | (s, inl _) => (with_mt_fs s p, None)
  | (s, inr _) =>
      let p := with_mt_fs (os_Chmod (me_outputFile me) outFilePerm s).1 p in
      match exec p (me_configFile me) with
      | None => (p, None)
      | Some pid =>
          let p := with_mt_procs ({[pid]} ∪ mt_procs p) p in
          let p := with_mt_fs (writeFileAtomic (me_pidFile me) (str_app (itoa pid) (String "010"%char "")) pidFilePerm (mt_fs p)).1 p in
          (p, Some (MkMemtierdEnv (me_ctrDir me) (me_configFile me) (me_outputFile me) (me_pidFile me) (Some pid)))
      end
  end.

(** The directory of the first match; it is empty if there is none. *)
Definition getFullCgroupsPath (ctr : PlgCtr) : res string :=
  match nc_Linux (pc_Ctr ctr) with
  | None => Err Panic
  | Some _ => let! path := find_cgroup (nc_Id (pc_Ctr ctr)) in Ok (default "" path)
  end.

(** *** Requests *)

Definition mt_StartContainer (pod : NriPod) (ctr : PlgCtr) (p : memtierd) : memtierd * res unit :=
  match mt_effectiveAnnotations pod ctr !! "class" with
  | None | Some "" => (p, Ok tt)
  | Some annotatedClass =>
      match qosClass p annotatedClass with
      | Err e => (p, Err e)
      | Ok None => (p, Err ErrOther)
      | Ok (Some cls) =>
          if bool_decide (tc_MemtierdConfig cls = "") then (p, Ok tt)
          else
            match getFullCgroupsPath ctr with
            | Err e => (p, Err e)
            | Ok cgroup =>
                match newMemtierdEnv cgroup (np_Namespace pod) (np_Name pod) (pc_Name ctr) (tc_MemtierdConfig cls) (mt_fs p) with
                | (s, None) => (with_mt_fs s p, Err ErrOther)
                | (s, Some env) =>
                    match startMemtierd env (with_mt_fs s p) with
                    | (p, None) => (p, Err ErrOther)
                    | (p, Some env) => (with_mt_envs (<[pprintCtr pod ctr := env]> (mt_envs p)) p, Ok tt)
                    end
                end
            end
      end
  end.

Definition mt_StopContainer (pod : NriPod) (ctr : PlgCtr) (p : memtierd) : memtierd :=
  let ppName := pprintCtr pod ctr in
  match mt_envs p !! ppName with
  | None => p
  | Some env =>
      let p := with_mt_envs (delete ppName (mt_envs p)) p in
      let p :=
        match me_pid env with
        | Some pid => if kill p pid then with_mt_procs (mt_procs p ∖ {[pid]}) p else p
        | None => p
        end in
      with_mt_fs (os_RemoveAll (me_ctrDir env) (mt_fs p)).1 p
  end.
End memtierd_plugin.
