(* ===== verification/PlgFacts.v ===== *)
(** * What the annotation plugins do

    Which annotations are effective for a container, and that what the plugins do
    with them does not depend on the order Go visits them in; and that
    memory-policy runs nothing but mpolset with valid arguments in front of a
    container. *)

From Stdlib Require Import Ascii SpecFloat.
From S2P Require Import Prelude GoStrings MemNodes CpuTree CchTypes PlgTypes.

Open Scope string_scope.
Open Scope Z_scope.

(** ** Suffixes *)

Lemma str_app_length a b : String.length (str_app a b) = (String.length a + String.length b)%nat.
Proof. induction a as [|c a IH]; [done|]. rewrite str_app_cons. cbn. by rewrite IH. Qed.

Lemma cut_suffix_spec s suffix p : cut_suffix s suffix = Some p ↔ s = str_app p suffix.
Proof.
  split.
  - revert p. induction s as [|c s IH]; intros p; cbn; case_bool_decide as Hs.
    { intros [= <-]. by rewrite <- Hs. }
    { done. }
    { intros [= <-]. by rewrite <- Hs. }
    intros (p' & Hp & ->)%fmap_Some. rewrite str_app_cons. f_equal. by apply IH.
  - intros ->. induction p as [|c p IH].
    + rewrite str_app_nil_l. destruct suffix; cbn; by rewrite bool_decide_eq_true_2.
    + rewrite str_app_cons. cbn. rewrite bool_decide_eq_false_2, IH; [done|].
      intros Hs%(f_equal String.length). cbn in Hs. rewrite str_app_length in Hs. lia.
Qed.

Lemma cut_suffix_app p suffix : cut_suffix (str_app p suffix) suffix = Some p.
Proof. by apply cut_suffix_spec. Qed.

Lemma str_app_inj_r a b suffix : str_app a suffix = str_app b suffix → a = b.
Proof. intros He. pose proof (cut_suffix_app a suffix) as Ha. rewrite He, cut_suffix_app in Ha. congruence. Qed.

(** ** Paths *)

(** A name that is one component of a path. *)
Definition simple_name (n : string) : Prop := n ≠ "" ∧ n ≠ s_dot ∧ n ≠ s_dotdot ∧ in_string c_slash n = false.

(** The absolute path of these components. *)
Definition abs_path (l : list string) : string := String c_slash (join s_slash l).

Lemma split_on_snoc sep a b : split_on sep (str_app a (String sep b)) = app (split_on sep a) (split_on sep b).
Proof.
  induction a as [|c a IH]; [rewrite str_app_nil_l; cbn; by rewrite bool_decide_eq_true_2|]. rewrite str_app_cons. cbn.
  rewrite IH. case_bool_decide; [done|]. destruct (split_on sep a) as [|h t] eqn:Hs; [|done].
  exfalso. destruct a as [|d a]; cbn in Hs; [done|]. case_bool_decide; [done|]. by destruct (split_on sep a).
Qed.

Lemma split_on_slashless sep s : Forall (λ e, in_string sep e = false) (split_on sep s).
Proof.
  induction s as [|c s IH]; cbn; [by repeat constructor|]. case_bool_decide as Hc; [by constructor|].
  destruct (split_on sep s) as [|h t]; [by repeat constructor; cbn; rewrite bool_decide_eq_false_2|].
  apply Forall_cons in IH as [Hh Ht]. constructor; [|done]. cbn. by rewrite bool_decide_eq_false_2.
Qed.

Lemma join_append l n : l ≠ [] → join s_slash (app l [n]) = str_app (join s_slash l) (String c_slash n).
Proof.
  induction l as [|x l IH]; [done|]. intros _. destruct l as [|y l]; [done|].
  change (join s_slash (app (x :: y :: l) [n])) with (str_app x (str_app s_slash (join s_slash (app (y :: l) [n])))).
  rewrite IH by done. change (join s_slash (x :: y :: l)) with (str_app x (str_app s_slash (join s_slash (y :: l)))).
  by rewrite !str_app_assoc.
Qed.

Lemma clean_simple out l : Forall simple_name l → fold_left (clean_step true) l out = app (reverse l) out.
Proof.
  revert out. induction l as [|n l IH]; intros out Hl; [done|]. apply Forall_cons in Hl as [(H1 & H2 & H3 & _) Hl]. cbn [fold_left].
  unfold clean_step at 2. rewrite bool_decide_eq_false_2 by naive_solver. rewrite bool_decide_eq_false_2 by done.
  rewrite IH by done. by rewrite reverse_cons, <- app_assoc.
Qed.

Lemma split_abs l : Forall simple_name l →
  split_on c_slash (abs_path l) = "" :: match l with [] => [""] | _ => l end.
Proof.
  intros Hl. unfold abs_path. cbn. f_equal. destruct l as [|n l]; [done|].
  apply (split_on_join c_slash (n :: l)); [done|]. eapply Forall_impl; [exact Hl|]. by intros m (_ & _ & _ & ?).
Qed.

Lemma abs_path_inj l l' : Forall simple_name l → Forall simple_name l' → abs_path l = abs_path l' → l = l'.
Proof.
  intros Hl Hl' He. pose proof (split_abs l Hl) as H1. rewrite He, split_abs in H1 by done. injection H1 as H1.
  destruct l as [|n l], l' as [|n' l']; simplify_eq; try done.
  - by apply Forall_cons in Hl' as [(? & _) _].
  - by apply Forall_cons in Hl as [(? & _) _].
Qed.

(** Cleaning an absolute path. *)
Lemma clean_abs s : path_clean (String c_slash s) =
  abs_path (reverse (fold_left (clean_step true) (split_on c_slash s) [])).
Proof. unfold path_clean. rewrite bool_decide_eq_true_2 by done. cbn. by rewrite bool_decide_eq_true_2. Qed.

Lemma clean_step_simple out e : Forall simple_name out → in_string c_slash e = false →
  Forall simple_name (clean_step true out e).
Proof.
  intros Ho He. unfold clean_step. case_bool_decide as H1; [done|]. case_bool_decide as H2.
  - destruct out as [|x out]; [constructor|]. apply Forall_cons in Ho as [(_ & _ & Hx & _) Ho]. by rewrite bool_decide_eq_false_2.
  - constructor; [|done]. unfold simple_name. tauto.
Qed.

Lemma path_clean_abs s : ∃ l, Forall simple_name l ∧ path_clean (String c_slash s) = abs_path l.
Proof.
  rewrite clean_abs. eexists. split; [|done]. apply Forall_reverse.
  pose proof (split_on_slashless c_slash s) as Hs. assert (Forall simple_name []) as Ho by constructor. revert Hs Ho.
  generalize (@nil string). induction (split_on c_slash s) as [|e es IH]; intros out Hs Ho; [done|]. cbn.
  apply Forall_cons in Hs as [He Hs]. apply IH; [done|]. by apply clean_step_simple.
Qed.

Lemma split_on_join_all l : l ≠ [] → split_on c_slash (join s_slash l) = concat (split_on c_slash <$> l).
Proof.
  induction l as [|x l IH]; [done|]. intros _. destruct l as [|y l]; [by rewrite fmap_cons; cbn; rewrite app_nil_r|].
  change (join s_slash (x :: y :: l)) with (str_app x (String c_slash (join s_slash (y :: l)))).
  rewrite split_on_snoc, IH by done. done.
Qed.

Lemma concat_simple l : Forall simple_name l → concat (split_on c_slash <$> l) = l.
Proof.
  induction l as [|n l IH]; [done|]. intros [(_ & _ & _ & Hn) Hl]%Forall_cons. cbn. by rewrite split_on_no_sep, IH.
Qed.

(** Joining components to an absolute path. *)
Lemma path_join_abs l ns : Forall simple_name l → Forall simple_name ns → path_join (abs_path l :: ns) = abs_path (app l ns).
Proof.
  intros Hl Hns. unfold path_join. rewrite filter_cons_True by done.
  assert (filter (λ e, e ≠ "") ns = ns) as ->.
  { clear - Hns. induction Hns as [|n ns (Hn & _) _ IH]; [done|]. rewrite filter_cons_True by done. by rewrite IH. }
  assert (join s_slash (abs_path l :: ns) = String c_slash (join s_slash (join s_slash l :: ns))) as -> by (by destruct ns).
  rewrite clean_abs, split_on_join_all by done. rewrite fmap_cons. cbn [concat]. rewrite concat_simple by done.
  f_equal. rewrite fold_left_app, clean_simple by done. rewrite reverse_app, reverse_involutive. f_equal.
  destruct l as [|n l]; [done|]. change (join s_slash (n :: l)) with (join (String c_slash "") (n :: l)).
  rewrite (split_on_join c_slash (n :: l)); [|done|eapply Forall_impl; [exact Hl|by intros m (_ & _ & _ & ?)]].
  by rewrite clean_simple, app_nil_r, reverse_involutive.
Qed.

Lemma abs_path_snoc l n : abs_path (app l [n]) = str_app (abs_path l) (match l with [] => n | _ => String c_slash n end).
Proof. unfold abs_path. destruct l as [|x l]; [done|]. rewrite join_append by done. by rewrite str_app_cons. Qed.

(** ** Folding over the entries of a map *)

(** What is true of the empty map and kept by every entry, whatever the order. *)
Lemma range_ind `{GoRuntime} {V A} (P : gmap string V → A → Prop) (f : A → string * V → A) (m : gmap string V) a :
  P ∅ a →
  (∀ m' a k v, m' !! k = None → m !! k = Some v → P m' a → P (<[k := v]> m') (f a (k, v))) →
  P m (fold_left f (map_range m) a).
Proof.
  intros H0 Hs. pose proof (NoDup_map_range m) as Hnd.
  assert (∀ l, NoDup (l.*1) → (∀ kv, kv ∈ l → m !! kv.1 = Some kv.2) → P (list_to_map l) (fold_left f l a)) as Hgen.
  { intros l. induction l as [|[k v] l IH] using rev_ind; intros Hd Hin; [done|].
    rewrite fmap_app in Hd. apply NoDup_app in Hd as (Hd & Hk & _). rewrite fold_left_app. cbn.
    assert ((list_to_map l : gmap string V) !! k = None) as Hn.
    { apply not_elem_of_list_to_map. intros Hx. apply (Hk k Hx). cbn. constructor. }
    replace (list_to_map (app l [(k, v)])) with (<[k := v]> (list_to_map l : gmap string V)).
    - apply Hs; [done|apply (Hin (k, v)), elem_of_app; right; constructor|]. apply IH; [done|].
      intros kv Hkv. apply Hin, elem_of_app. by left.
    - rewrite list_to_map_app. cbn. rewrite insert_empty. apply map_eq. intros i. rewrite lookup_union.
      destruct (decide (i = k)) as [->|Hne]; [by rewrite lookup_insert_eq, Hn, lookup_singleton_eq|].
      rewrite lookup_insert_ne, lookup_singleton_ne by done. by destruct (list_to_map l !! i). }
  assert (list_to_map (map_range m) = m) as Hm.
  { etrans; [apply list_to_map_proper; [done|apply map_range_perm]|apply list_to_map_to_list]. }
  rewrite <- Hm at 1. apply Hgen; [done|]. intros [k v] Hkv. by apply elem_of_map_range in Hkv.
Qed.

(** ** Effective annotations *)

Section effective.
Context (suffix name : string).
Abbreviation ctr_suffix := (str_app suffix (str_app s_slash name)).

(** An annotation of the container, or else one of the pod that is not one of a
    container. *)
Definition effective_at (ann : gmap string string) (prefix : string) : option string :=
  match ann !! str_app prefix ctr_suffix with
  | Some v => Some v
  | None => match cut_suffix (str_app prefix suffix) ctr_suffix with Some _ => None | None => ann !! str_app prefix suffix end
  end.

Lemma effective_annotations_spec `{GoRuntime} pod ctr prefix : pc_Name ctr = name →
  effective_annotations suffix pod ctr !! prefix = effective_at (np_Annotations pod) prefix.
Proof.
  intros Hn. unfold effective_annotations. rewrite Hn. revert prefix.
  apply (range_ind (λ m eff, ∀ prefix, eff !! prefix = effective_at m prefix)).
  - intros prefix. unfold effective_at. rewrite !lookup_empty. by destruct (cut_suffix _ _).
  - intros m eff k v Hk _ IH prefix. unfold annotation_step, effective_at. cbn [fst snd].
    destruct (cut_suffix k ctr_suffix) as [p|] eqn:Hc.
    + apply cut_suffix_spec in Hc as ->. unfold ann_associate. cbn. destruct (decide (p = prefix)) as [->|Hne].
      * by rewrite !lookup_insert_eq.
      * rewrite !(lookup_insert_ne _ _ prefix), IH by done. unfold effective_at.
        rewrite (lookup_insert_ne m _ (str_app prefix ctr_suffix)) by (intros ?%str_app_inj_r; done).
        destruct (m !! _); [done|]. destruct (cut_suffix (str_app prefix suffix) ctr_suffix) eqn:Hp; [done|].
        rewrite lookup_insert_ne; [done|]. intros He. by rewrite <- He, cut_suffix_app in Hp.
    + assert (k ≠ str_app prefix ctr_suffix) as Hkc by (intros ->; by rewrite cut_suffix_app in Hc).
      rewrite (lookup_insert_ne m k (str_app prefix ctr_suffix)) by done.
      destruct (cut_suffix k suffix) as [p|] eqn:Hs.
      * apply cut_suffix_spec in Hs as ->. destruct (decide (p = prefix)) as [->|Hne].
        -- rewrite Hc. unfold ann_associate. cbn. rewrite (lookup_insert_eq m). specialize (IH prefix). unfold effective_at in IH.
           rewrite Hc, Hk in IH. destruct (m !! str_app prefix ctr_suffix) as [w|].
           ++ by rewrite bool_decide_eq_false_2 by (rewrite IH; done).
           ++ by rewrite bool_decide_eq_true_2, lookup_insert_eq.
        -- assert (ann_associate eff p v false !! prefix = eff !! prefix) as ->
             by (unfold ann_associate; cbn; case_bool_decide; [by rewrite lookup_insert_ne|done]).
           rewrite IH. unfold effective_at. rewrite (lookup_insert_ne m _ (str_app prefix suffix)); [done|].
           intros He%str_app_inj_r. done.
      * rewrite IH. unfold effective_at. rewrite (lookup_insert_ne m _ (str_app prefix suffix)); [done|].
        intros ->. by rewrite cut_suffix_app in Hs.
Qed.
End effective.

(** ** memory-qos and memtierd *)

Section unified.
Context `{GoRuntime}.

(** What a class sets; [class] is the annotation. *)
Definition mq_class_settings (int64_unfit : float32 → Z) (p : option QosConfig) (ctr : PlgCtr) (class : option string)
    : res (gmap string string) :=
  match class with Some cls => applyQosClass int64_unfit p ctr cls ∅ | None => Ok ∅ end.

Definition mt_class_settings (p : memtierd) (class : option string) : res (gmap string string) :=
  match class with Some cls => mt_step p (Ok ∅) ("class", cls) | None => Ok ∅ end.

Lemma associate_union (u m : gmap string string) k v : m !! k = None → ann_associate (u ∪ m) k v false = u ∪ <[k := v]> m.
Proof.
  intros Hm. unfold ann_associate. cbn. assert ((u ∪ m) !! k = u !! k) as -> by (rewrite lookup_union, Hm; by destruct (u !! k)).
  destruct (u !! k) as [w|] eqn:Hu; [rewrite bool_decide_eq_false_2 by done|by rewrite bool_decide_eq_true_2, insert_union_r].
  apply map_eq. intros i. rewrite !lookup_union. destruct (decide (i = k)) as [->|Hne].
  - rewrite Hm, lookup_insert_eq, Hu. done.
  - by rewrite lookup_insert_ne.
Qed.

Lemma applyQosClass_union unfit p ctr cls u :
  applyQosClass unfit p ctr cls u = let! m := applyQosClass unfit p ctr cls ∅ in Ok (u ∪ m).
Proof.
  unfold applyQosClass. destruct p as [cfg|]; [|done]. destruct (list_find _ _) as [[i class]|]; [|done].
  destruct (SFltb _ _); cbn; [|by rewrite map_union_empty]. destruct (memory_limit ctr) as [[limit|]|e]; [|done..]. cbn.
  f_equal. rewrite <- (map_union_empty u) at 1. rewrite associate_union by done. by rewrite associate_union.
Qed.

Lemma mt_class_union p cls u : mt_step p (Ok u) ("class", cls) = let! m := mt_step p (Ok ∅) ("class", cls) in Ok (u ∪ m).
Proof.
  unfold mt_step. cbn. rewrite bool_decide_eq_false_2 by (by intros [|]). rewrite (bool_decide_eq_true_2 ("class" = "class")) by done. case_bool_decide; cbn; [by rewrite map_union_empty|].
  destruct (qosClass p cls) as [[c|]|e]; [|done..]. cbn. f_equal. destruct (tc_AllowSwap c); [|symmetry; apply map_union_empty].
  rewrite <- (map_union_empty u) at 1. by rewrite associate_union.
Qed.

(** Annotations of unified resources, and then what the class sets. *)
Context (step : res (gmap string string) → string * string → res (gmap string string))
  (settings : string → res (gmap string string)) (allowed kept : string → bool).
Context (step_err : ∀ a e, step (Err e) a = Err e)
  (step_class : ∀ u cls, step (Ok u) ("class", cls) = let! m := settings cls in Ok (u ∪ m))
  (step_ok : ∀ u k v, k ≠ "class" → allowed k = true → step (Ok u) (k, v) = Ok (if kept k then <[k := v]> u else u))
  (step_bad : ∀ u k v, k ≠ "class" → allowed k = false → ∃ e, step (Ok u) (k, v) = Err e)
  (class_not_kept : kept "class" = false).

Definition class_set (class : option string) : res (gmap string string) :=
  match class with Some cls => settings cls | None => Ok ∅ end.

Definition kept_of (eff : gmap string string) : gmap string string := filter (λ kv, kept kv.1 = true) eff.

Lemma kept_insert m k v : m !! k = None → kept_of (<[k := v]> m) = if kept k then <[k := v]> (kept_of m) else kept_of m.
Proof.
  intros Hm. unfold kept_of. destruct (kept k) eqn:Hk; [by rewrite map_filter_insert_True|].
  rewrite map_filter_insert_False by (cbn; congruence). by rewrite delete_id.
Qed.

Lemma fold_unified eff u : fold_left step (map_range eff) (Ok ∅) = Ok u ↔
  (∀ k, is_Some (eff !! k) → k ≠ "class" → allowed k = true) ∧
  ∃ m, class_set (eff !! "class") = Ok m ∧ u = kept_of eff ∪ m.
Proof.
  revert u. apply (range_ind (λ eff r, ∀ u, r = Ok u ↔ (∀ k, is_Some (eff !! k) → k ≠ "class" → allowed k = true) ∧
    ∃ m, class_set (eff !! "class") = Ok m ∧ u = kept_of eff ∪ m)).
  - intros u. split.
    + intros [= <-]. split; [intros k; rewrite lookup_empty; by intros []|]. exists ∅. by rewrite lookup_empty, map_union_empty.
    + intros [_ (m & Hm & ->)]. rewrite lookup_empty in Hm. injection Hm as <-. by rewrite map_union_empty.
  - intros m r k v Hk _ IH u. destruct r as [u0|e].
    + pose proof (proj1 (IH u0) eq_refl) as (Hal & m0 & Hm0 & Hu0). clear IH.
      rewrite (kept_insert m k v Hk). destruct (decide (k = "class")) as [->|Hne].
      * rewrite step_class, lookup_insert_eq, class_not_kept. cbn. rewrite Hk in Hm0. injection Hm0 as <-.
        rewrite map_union_empty in Hu0. subst u0.
        assert (∀ k, is_Some (<["class" := v]> m !! k) → k ≠ "class" → allowed k = true) as Hal'.
        { intros k Hs Hne. rewrite lookup_insert_ne in Hs by done. by apply Hal. }
        destruct (settings v) as [mc|e]; cbn; [|by split; [|intros [_ (? & ? & _)]]].
        split; [intros [= <-]; eauto|]. by intros [_ (? & [= <-] & ->)].
      * rewrite (lookup_insert_ne m k "class") by done. destruct (allowed k) eqn:Ha.
        -- rewrite step_ok by done. subst u0.
           assert ((if kept k then <[k := v]> (kept_of m ∪ m0) else kept_of m ∪ m0) =
             (if kept k then <[k := v]> (kept_of m) else kept_of m) ∪ m0) as -> by (destruct (kept k); [by rewrite insert_union_l|done]).
           split.
           ++ intros [= <-]. split; [|eauto]. intros k' Hs Hne'. destruct (decide (k = k')) as [->|]; [done|].
              rewrite lookup_insert_ne in Hs by done. by apply Hal.
           ++ intros [_ (m1 & Hm1 & ->)]. rewrite Hm0 in Hm1. by injection Hm1 as <-.
        -- destruct (step_bad u0 k v Hne Ha) as [e ->]. split; [done|]. intros [Hal' _].
           rewrite (Hal' k) in Ha; [done|by rewrite lookup_insert_eq|done].
    + rewrite step_err. split; [done|]. intros [Hal (m1 & Hm1 & ->)]. exfalso.
      destruct (decide (k = "class")) as [->|Hne].
      * rewrite lookup_insert_eq in Hm1. specialize (IH (kept_of m ∪ ∅)). rewrite Hk in IH. cbn in IH.
        enough (Err e = Ok (kept_of m ∪ ∅)) by done. apply IH. split; [|eauto]. intros k' Hs Hne.
        apply Hal; [by rewrite lookup_insert_ne|done].
      * rewrite lookup_insert_ne in Hm1 by done. enough (Err e = Ok (kept_of m ∪ m1)) by done. apply IH. split; [|eauto].
        intros k' Hs Hne'. destruct (decide (k = k')) as [->|]; [destruct Hs; congruence|]. apply Hal; [by rewrite lookup_insert_ne|done].
Qed.
End unified.

Lemma lookup_kept (kept : string → bool) (eff m : gmap string string) k :
  (kept_of kept eff ∪ m) !! k = if decide (kept k = true ∧ is_Some (eff !! k)) then eff !! k else m !! k.
Proof.
  rewrite lookup_union. unfold kept_of. rewrite map_lookup_filter. destruct (eff !! k) as [v|]; cbn.
  - destruct (decide (kept k = true)) as [Hk|Hk].
    + rewrite option_guard_True by done. rewrite decide_True by eauto. by destruct (m !! k).
    + rewrite option_guard_False by done. rewrite decide_False by tauto. by destruct (m !! k).
  - rewrite decide_False by (intros [_ []]; done). by destruct (m !! k).
Qed.

Section plugins.
Context `{GoRuntime}.

Lemma mq_spec unfit q pod ctr u :
  let eff := mq_effectiveAnnotations pod ctr in
  mq_CreateContainer unfit q pod ctr = Ok u ↔
    (∀ k, is_Some (eff !! k) → k ≠ "class" → ∃ cfg, q = Some cfg ∧ k ∈ qf_UnifiedAnnotations cfg) ∧
    ∃ m, mq_class_settings unfit q ctr (eff !! "class") = Ok m ∧
      u = kept_of (λ k, negb (bool_decide (k = "class"))) eff ∪ m.
Proof.
  intros eff. unfold mq_CreateContainer.
  pose (allowed := λ k : string, match q with Some cfg => bool_decide (k ∈ qf_UnifiedAnnotations cfg) | None => false end).
  rewrite (fold_unified (mq_step unfit q ctr) (λ cls, applyQosClass unfit q ctr cls ∅) allowed
             (λ k, negb (bool_decide (k = "class")))); [|done| |..].
  2: { intros u' cls. unfold mq_step. cbn. rewrite bool_decide_eq_true_2 by done. apply applyQosClass_union. }
  - apply and_iff_compat_r. apply forall_proper; intros k. unfold allowed.
    destruct q as [cfg|]; [setoid_rewrite bool_decide_eq_true; naive_solver|naive_solver].
  - intros u' k v Hne Ha. unfold mq_step. cbn. rewrite bool_decide_eq_false_2 by done. unfold allowed in Ha.
    destruct q as [cfg|]; [|done]. by rewrite Ha.
  - intros u' k v Hne Ha. unfold mq_step. cbn. rewrite bool_decide_eq_false_2 by done. unfold allowed in Ha.
    destruct q as [cfg|]; [|by eexists]. rewrite Ha. by eexists.
  - done.
Qed.

Lemma mt_spec t pod ctr u :
  let eff := mt_effectiveAnnotations pod ctr in
  mt_CreateContainer t pod ctr = Ok u ↔
    ∃ m, mt_class_settings t (eff !! "class") = Ok m ∧
      u = kept_of (λ k, bool_decide (k ∈ ["memory.swap.max"; "memory.high"])) eff ∪ m.
Proof.
  intros eff. unfold mt_CreateContainer.
  rewrite (fold_unified (mt_step t) (λ cls, mt_step t (Ok ∅) ("class", cls)) (λ _, true)
             (λ k, bool_decide (k ∈ ["memory.swap.max"; "memory.high"]))); [|done|intros; apply mt_class_union|..].
  - split; [by intros [_ ?]|by split].
  - intros u' k v Hne _. unfold mt_step. cbn [res_bind fst snd].
    assert (k ∈ ["memory.swap.max"; "memory.high"] ↔ k = "memory.swap.max" ∨ k = "memory.high") as Hk by set_solver.
    rewrite (bool_decide_ext _ _ Hk). case_bool_decide; [done|]. by rewrite bool_decide_eq_false_2.
  - done.
  - by vm_compute.
Qed.

(** What memory-qos and memtierd set for a container, in whatever order Go
    visits the annotations: the effective annotations that name unified
    resources, which nothing overrides, and besides what the class sets.  The
    effective annotation is that of the container, or else that of the pod.  For
    memory-qos an annotation that is not allowed is an error. *)
Theorem unified_spec unfit (q : option QosConfig) (t : memtierd) pod ctr u :
  let mq := effective_at mq_annotationSuffix (pc_Name ctr) (np_Annotations pod) in
  let mt := effective_at mt_annotationSuffix (pc_Name ctr) (np_Annotations pod) in
  (mq_CreateContainer unfit q pod ctr = Ok u ↔
     (∀ k, is_Some (mq k) → k ≠ "class" → ∃ cfg, q = Some cfg ∧ k ∈ qf_UnifiedAnnotations cfg) ∧
     ∃ m, mq_class_settings unfit q ctr (mq "class") = Ok m ∧
       ∀ k, u !! k = if decide (k ≠ "class" ∧ is_Some (mq k)) then mq k else m !! k) ∧
  (mt_CreateContainer t pod ctr = Ok u ↔
     ∃ m, mt_class_settings t (mt "class") = Ok m ∧
       ∀ k, u !! k = if decide (k ∈ ["memory.swap.max"; "memory.high"] ∧ is_Some (mt k)) then mt k else m !! k).
Proof.
  intros mq mt. split.
  - rewrite mq_spec. unfold mq_effectiveAnnotations. setoid_rewrite (effective_annotations_spec mq_annotationSuffix _ pod ctr); [|done..].
    fold mq. apply and_iff_compat_l. apply exist_proper; intros m. apply and_iff_compat_l. split.
    + intros -> k. rewrite lookup_kept, (effective_annotations_spec _ _ pod ctr) by done. fold mq.
      apply decide_ext. rewrite negb_true_iff, bool_decide_eq_false. done.
    + intros Hu. apply map_eq. intros k. rewrite Hu, lookup_kept, (effective_annotations_spec _ _ pod ctr) by done. fold mq.
      apply decide_ext. rewrite negb_true_iff, bool_decide_eq_false. done.
  - rewrite mt_spec. unfold mt_effectiveAnnotations. rewrite (effective_annotations_spec _ _ pod ctr) by done.
    fold mt. apply exist_proper; intros m. apply and_iff_compat_l. split.
    + intros -> k. rewrite lookup_kept, (effective_annotations_spec _ _ pod ctr) by done. fold mt.
      apply decide_ext. by rewrite bool_decide_eq_true.
    + intros Hu. apply map_eq. intros k. rewrite Hu, lookup_kept, (effective_annotations_spec _ _ pod ctr) by done. fold mt.
      apply decide_ext. by rewrite bool_decide_eq_true.
Qed.
End plugins.

(** ** memory-policy: which policy *)

Section choice.
Context (ann : gmap string string) (name : string).
Abbreviation mp_ctr_suffix := (str_app mp_annotationSuffix (str_app "/container." name)).

(** Annotations of the container, and of the pod. *)
Definition mp_of_ctr (prefix : string) : option string := ann !! str_app prefix mp_ctr_suffix.
Definition mp_of_pod (prefix : string) : option string :=
  match cut_suffix (str_app prefix mp_annotationSuffix) mp_ctr_suffix with
  | Some _ => None
  | None => ann !! str_app prefix mp_annotationSuffix
  end.

(** Neither the container nor the pod has both a class and a policy. *)
Definition unambiguous : Prop :=
  (mp_of_ctr "class" = None ∨ mp_of_ctr "policy" = None) ∧ (mp_of_pod "class" = None ∨ mp_of_pod "policy" = None).

(** The class or policy of the container, or else that of the pod. *)
Definition mp_choice (prefix : string) : option string :=
  match mp_of_ctr "class", mp_of_ctr "policy" with
  | None, None => mp_of_pod prefix
  | _, _ => mp_of_ctr prefix
  end.

(** Annotations for this plugin that are neither. *)
Definition mp_known (key : string) : bool :=
  match cut_suffix key mp_ctr_suffix with
  | Some prefix => is_choice prefix
  | None => match cut_suffix key mp_annotationSuffix with Some prefix => is_choice prefix | None => true end
  end.
End choice.

Lemma is_choice_spec x : is_choice x = true ↔ x = "class" ∨ x = "policy".
Proof. apply bool_decide_eq_true. Qed.

(** Visiting one more annotation. *)
Lemma visit_ctr m name k v y : cut_suffix k (str_app mp_annotationSuffix (str_app "/container." name)) = Some y →
  (∀ x, mp_of_ctr (<[k := v]> m) name x = if decide (x = y) then Some v else mp_of_ctr m name x) ∧
  (∀ x, mp_of_pod (<[k := v]> m) name x = mp_of_pod m name x).
Proof.
  intros Hc. pose proof Hc as Hk. apply cut_suffix_spec in Hk. split; intros x; unfold mp_of_ctr, mp_of_pod.
  - subst k. case_decide as Hx; [subst; apply lookup_insert_eq|]. rewrite lookup_insert_ne; [done|]. by intros ?%str_app_inj_r.
  - destruct (cut_suffix (str_app x _) _) eqn:Hp; [done|]. rewrite lookup_insert_ne; [done|]. intros ->. congruence.
Qed.

Lemma visit_pod m name k v y : cut_suffix k (str_app mp_annotationSuffix (str_app "/container." name)) = None →
  cut_suffix k mp_annotationSuffix = Some y → m !! k = None →
  (∀ x, mp_of_ctr (<[k := v]> m) name x = mp_of_ctr m name x) ∧
  (∀ x, mp_of_pod (<[k := v]> m) name x = if decide (x = y) then Some v else mp_of_pod m name x) ∧
  mp_of_pod m name y = None.
Proof.
  intros Hc Hs Hm. pose proof Hs as Hk. apply cut_suffix_spec in Hk. split_and!; [intros x..|]; unfold mp_of_ctr, mp_of_pod.
  - rewrite lookup_insert_ne; [done|]. intros ->. by rewrite cut_suffix_app in Hc.
  - case_decide as Hx.
    + subst x. rewrite <- Hk, Hc. apply lookup_insert_eq.
    + destruct (cut_suffix (str_app x _) _); [done|]. rewrite lookup_insert_ne; [done|]. rewrite Hk. by intros ?%str_app_inj_r.
  - by rewrite <- Hk, Hc.
Qed.

Lemma visit_other m name k v : cut_suffix k (str_app mp_annotationSuffix (str_app "/container." name)) = None →
  cut_suffix k mp_annotationSuffix = None →
  (∀ x, mp_of_ctr (<[k := v]> m) name x = mp_of_ctr m name x) ∧ (∀ x, mp_of_pod (<[k := v]> m) name x = mp_of_pod m name x).
Proof.
  intros Hc Hs. split; intros x; unfold mp_of_ctr, mp_of_pod.
  - rewrite lookup_insert_ne; [done|]. intros ->. by rewrite cut_suffix_app in Hc.
  - destruct (cut_suffix (str_app x _) _); [done|]. rewrite lookup_insert_ne; [done|]. intros ->. by rewrite cut_suffix_app in Hs.
Qed.

Lemma mp_choice_ext m m' name : (∀ x, is_choice x = true → mp_of_ctr m' name x = mp_of_ctr m name x) →
  (∀ x, is_choice x = true → mp_of_pod m' name x = mp_of_pod m name x) →
  (∀ x, is_choice x = true → mp_choice m' name x = mp_choice m name x) ∧ (unambiguous m' name ↔ unambiguous m name).
Proof.
  intros Hc Hp. unfold unambiguous. rewrite !Hc, !Hp by done. split; [|done].
  intros x Hx. unfold mp_choice. by rewrite !Hc, Hp by done.
Qed.

(** The choice of an annotation, once it is visited. *)
Lemma mp_step_choice m name eff k v : m !! k = None → unambiguous (<[k := v]> m) name →
  (unambiguous m name → ∀ x, is_choice x = true → eff !! x = mp_choice m name x) →
  ∀ x, is_choice x = true → mp_step name eff (k, v) !! x = mp_choice (<[k := v]> m) name x.
Proof.
  intros Hk Hu IH. unfold mp_step. cbn [fst snd]. destruct (cut_suffix k _) as [y|] eqn:Hc; [|destruct (cut_suffix k mp_annotationSuffix) as [y|] eqn:Hs].
  - destruct (visit_ctr m name k v y Hc) as [HC HP]. destruct (is_choice y) eqn:Hy.
    + intros x Hx. destruct Hu as [Hu _]. rewrite !HC in Hu. unfold mp_choice. rewrite !HC.
      apply is_choice_spec in Hy as [->| ->], Hx as [->| ->]; repeat (case_decide; [|done] || case_decide; [done|]); simplify_map_eq;
        destruct Hu as [Hu|Hu]; try done; rewrite ?Hu; by repeat case_match.
    + destruct (mp_choice_ext m (<[k := v]> m) name) as [He Hiff]; [|by intros; rewrite HP|].
      { intros x Hx. rewrite HC. case_decide; [congruence|done]. }
      intros x Hx. rewrite He by done. rewrite lookup_insert_ne by congruence. apply IH; [by apply Hiff|done].
  - destruct (visit_pod m name k v y Hc Hs Hk) as (HC & HP & Hn). destruct (is_choice y) eqn:Hy; cbn.
    + assert (unambiguous m name) as Hu0.
      { destruct Hu as [Hu1 Hu2]. rewrite !HC in Hu1. rewrite !HP in Hu2. split; [done|]. repeat case_decide; naive_solver. }
      specialize (IH Hu0). pose proof (IH "class" eq_refl) as H1. pose proof (IH "policy" eq_refl) as H2.
      intros x Hx. specialize (IH x Hx). destruct Hu as [_ Hu]. rewrite !HP in Hu. unfold mp_choice in *. rewrite !HC, HP.
      destruct (mp_of_ctr m name "class") eqn:C1; [|destruct (mp_of_ctr m name "policy") eqn:C2].
      * rewrite bool_decide_eq_true_2 by (rewrite H1; eauto). done.
      * rewrite (bool_decide_eq_true_2 (is_Some (eff !! "policy"))) by (rewrite H2; eauto). by rewrite orb_true_r.
      * assert (eff !! "class" = None ∧ eff !! "policy" = None) as [-> ->].
        { rewrite H1, H2. apply is_choice_spec in Hy as [->| ->]; repeat case_decide; try done; destruct Hu; try done; by split. }
        rewrite !bool_decide_eq_false_2 by (by intros []). cbn. destruct (decide (x = y)) as [->|]; [by rewrite lookup_insert_eq|by rewrite lookup_insert_ne].
    + destruct (mp_choice_ext m (<[k := v]> m) name) as [He Hiff]; [by intros; rewrite HC| |].
      { intros x Hx. rewrite HP. case_decide; [congruence|done]. }
      intros x Hx. rewrite He by done. rewrite lookup_insert_ne by congruence. apply IH; [by apply Hiff|done].
  - destruct (visit_other m name k v Hc Hs) as [HC HP].
    destruct (mp_choice_ext m (<[k := v]> m) name) as [He Hiff]; [by intros; rewrite HC|by intros; rewrite HP|].
    intros x Hx. rewrite He by done. apply IH; [by apply Hiff|done].
Qed.

Lemma mp_step_known name eff k v :
  (∀ x, is_choice x = false → mp_step name eff (k, v) !! x = None) ↔
  mp_known name k = true ∧ ∀ x, is_choice x = false → eff !! x = None.
Proof.
  assert (∀ y m, is_choice y = true → (∀ x, is_choice x = false → <[y := v]> m !! x = None) ↔
    (∀ x, is_choice x = false → (m : gmap string string) !! x = None)) as Hch.
  { intros y m Hy. apply forall_proper. intros x. split; intros Hm Hx; specialize (Hm Hx);
      [rewrite lookup_insert_ne in Hm by congruence|rewrite lookup_insert_ne by congruence]; done. }
  assert (∀ y m, is_choice y = false → ¬ (∀ x, is_choice x = false → <[y := v]> (m : gmap string string) !! x = None)) as Hun.
  { intros y m Hy Hm. specialize (Hm y Hy). by rewrite lookup_insert_eq in Hm. }
  unfold mp_step, mp_known. cbn [fst snd]. destruct (cut_suffix k _) as [y|].
  - destruct (is_choice y) eqn:Hy.
    + rewrite Hch by done. split.
      * intros Hm. split; [done|]. intros x Hx. rewrite <- (Hm x Hx), !lookup_delete_ne; [done|intros <-; done..].
      * intros [_ Hm] x Hx. rewrite !lookup_delete_ne; [auto|intros <-; done..].
    + split; [by intros Hm%Hun|by intros []].
  - destruct (cut_suffix k mp_annotationSuffix) as [y|]; [|naive_solver]. destruct (is_choice y) eqn:Hy; cbn.
    + destruct (_ || _); [naive_solver|]. rewrite Hch by done. naive_solver.
    + split; [by intros Hm%Hun|by intros []].
Qed.

(** What is effective, whatever order annotations are visited in. *)
Lemma mp_effective `{GoRuntime} pod ctr : let ann := np_Annotations pod in let name := pc_Name ctr in
  let eff := mp_effectiveAnnotations pod ctr in
  unambiguous ann name →
  (∀ x, is_choice x = true → eff !! x = mp_choice ann name x) ∧
  ((∀ x, is_choice x = false → eff !! x = None) ↔ map_Forall (λ k _, mp_known name k = true) ann).
Proof.
  intros ann name eff Hu. split.
  - revert Hu. unfold eff, mp_effectiveAnnotations. fold ann name.
    apply (range_ind (λ m eff, unambiguous m name → ∀ x, is_choice x = true → eff !! x = mp_choice m name x)).
    + intros _ x _. unfold mp_choice, mp_of_ctr, mp_of_pod. rewrite !lookup_empty. by destruct (cut_suffix _ _).
    + intros m eff' k v Hk _ IH Hu. by apply mp_step_choice.
  - unfold eff, mp_effectiveAnnotations. fold ann name.
    apply (range_ind (λ m eff, (∀ x, is_choice x = false → eff !! x = None) ↔ map_Forall (λ k _, mp_known name k = true) m)).
    + split; [intros _; apply map_Forall_empty|intros _ x _; apply lookup_empty].
    + intros m eff' k v Hk _ IH. by rewrite mp_step_known, map_Forall_insert, IH.
Qed.

Section policy.
Context `{GoRuntime} (sys : MpolSys) (yaml_policy : string → option MemoryPolicySpec)
  (parse_cpuset : string → option CPUSet) (veryVerbose : bool).

(** The policy of a container by its annotations alone. *)
Definition reference_policy (p : MpolConfig) (ann : gmap string string) (name : string) : res (option MemoryPolicySpec) :=
  let unknown := if decide (map_Forall (λ k _, mp_known name k = true) ann) then Ok None else Err ErrOther in
  match mp_choice ann name "policy", mp_choice ann name "class" with
  | Some (String c s), _ => match yaml_policy (String c s) with Some spec => Ok (Some spec) | None => Err ErrOther end
  | _, Some (String c s) =>
      let! class := find_class (String c s) (mf_Classes p) in
      match class with
      | Some class => match mc_PolicySpec class with Some spec => Ok (Some spec) | None => Err ErrOther end
      | None => unknown
      end
  | _, _ => unknown
  end.

Lemma rest_empty (eff : gmap string string) :
  delete "class" (delete "policy" eff) = ∅ ↔ (∀ x, is_choice x = false → eff !! x = None).
Proof.
  split.
  - intros He x Hx. rewrite <- (lookup_empty (A:=string) x), <- He, !lookup_delete_ne; [done|intros <-; done..].
  - intros Hx. apply map_eq. intros x. rewrite lookup_empty. destruct (is_choice x) eqn:Hc; [|].
    + apply is_choice_spec in Hc as [->| ->]; [by rewrite lookup_delete_eq|].
      by rewrite lookup_delete_ne, lookup_delete_eq.
    + rewrite !lookup_delete_ne; [auto|intros <-; done..].
Qed.

(** The memory policy of a container is the one in its own annotation, or
    that of the class there, and only then the one of its pod, in whatever order
    Go visits the annotations, if neither of them has both a class and a
    policy; an annotation for the plugin that is neither is an error unless there
    is a policy. *)
Theorem getPolicySpec_reference p pod ctr : unambiguous (np_Annotations pod) (pc_Name ctr) →
  getPolicySpec yaml_policy p pod ctr = reference_policy p (np_Annotations pod) (pc_Name ctr).
Proof.
  intros Hu. destruct (mp_effective pod ctr Hu) as [Hch Hun]. unfold getPolicySpec, reference_policy.
  set (eff := mp_effectiveAnnotations pod ctr) in *. rewrite <- (Hch "policy"), <- (Hch "class") by done.
  assert (bool_decide (delete "class" (delete "policy" eff) = ∅) =
    bool_decide (map_Forall (λ k _, mp_known (pc_Name ctr) k = true) (np_Annotations pod))) as Hbd.
  { apply bool_decide_ext. by rewrite rest_empty. }
  set (unknown := if decide (map_Forall _ _) then _ else _).
  assert ((if bool_decide (delete "class" (delete "policy" eff) = ∅) then Ok None else Err ErrOther : res (option MemoryPolicySpec)) = unknown) as Hrest.
  { rewrite Hbd. unfold unknown. destruct (decide _); [by rewrite bool_decide_eq_true_2|by rewrite bool_decide_eq_false_2]. }
  assert (∀ eff', eff' !! "class" = eff !! "class" → delete "class" eff' = delete "class" (delete "policy" eff) →
    (let '(effAnn, class) := takeClassAnnotation p eff' in
     let! class := class in
     match class with
     | Some class => match mc_PolicySpec class with Some spec => Ok (Some spec) | None => Err ErrOther end
     | None => if bool_decide (effAnn = ∅) then Ok None else Err ErrOther
     end) =
    match eff !! "class" with
    | Some (String c s) =>
        let! class := find_class (String c s) (mf_Classes p) in
        match class with
        | Some class => match mc_PolicySpec class with Some spec => Ok (Some spec) | None => Err ErrOther end
        | None => unknown
        end
    | _ => unknown
    end) as Hclass.
  { intros eff' He Hd. unfold takeClassAnnotation. rewrite He. destruct (eff !! "class") as [[|c s]|] eqn:Hc; rewrite ?Hd.
    - cbn. apply Hrest.
    - cbn [bool_decide]. rewrite bool_decide_eq_false_2 by done. by rewrite Hrest.
    - cbn. rewrite <- Hrest, <- Hd. by rewrite delete_id by congruence. }
  unfold takePolicyAnnotation. destruct (eff !! "policy") as [[|c s]|] eqn:Hp.
  - cbn. rewrite Hclass; [by destruct (eff !! "class") as [[]|]|by rewrite lookup_delete_ne|done].
  - rewrite bool_decide_eq_false_2 by done. by destruct (yaml_policy _).
  - cbn. rewrite Hclass; [by destruct (eff !! "class") as [[]|]|done|by rewrite (delete_id eff "policy")].
Qed.

(** *** Nodes *)

Lemma NodeMask_Set_mask m ids : mask64 m → mask64 (NodeMask_Set m ids).
Proof.
  unfold NodeMask_Set. revert m. induction ids as [|id ids IH]; intros m Hm; [done|]. cbn. apply IH, mask64_lor; [done|apply mask64_u64].
Qed.

Lemma NewNodeMask_mask ids : mask64 (NewNodeMask ids).
Proof. apply NodeMask_Set_mask. by split. Qed.

Lemma parse_range_mask n id end_ m m' : mask64 m → parse_range n id end_ m = Ok m' → mask64 m'.
Proof.
  revert id m. induction n as [|n IH]; intros id m Hm; [done|]. cbn. repeat case_bool_decide; [done| |by intros [= <-]].
  apply IH, mask64_lor; [done|apply mask64_u64].
Qed.

Lemma parse_node_part_mask s m m' : mask64 m → parse_node_part s m = Ok m' → mask64 m'.
Proof.
  intros Hm. unfold parse_node_part. destruct (split_n2 _ _) as [|lo [|hi [|]]]; try done.
  - destruct (parse_int 32 lo); [|done]. case_bool_decide; [done|]. intros [= <-]. apply mask64_lor; [done|apply mask64_u64].
  - destruct (parse_int 32 lo); [|done]. destruct (parse_int 32 hi); [|done]. case_bool_decide; [done|]. by apply parse_range_mask.
Qed.

Lemma ParseNodeMask_mask s m : ParseNodeMask s = Ok m → mask64 m.
Proof.
  unfold ParseNodeMask. case_bool_decide; [intros [= <-]; by split|]. generalize (split_on c_comma s). intros parts.
  assert (∀ m0, mask64 m0 → parse_node_parts parts m0 = Ok m → mask64 m) as Hgen; [|by apply Hgen; split].
  induction parts as [|part parts IH]; intros m0 Hm0; cbn; [by intros [= <-]|].
  destruct (parse_node_part part m0) as [m1|] eqn:Hp; cbn; [|done]. apply IH. by eapply parse_node_part_mask.
Qed.

Lemma nodes_within_mask maxDist from ids m m' : mask64 m → nodes_within sys maxDist from ids m = Ok m' → mask64 m'.
Proof.
  revert m. induction ids as [|to ids IH]; intros m Hm; cbn; [by intros [= <-]|]. destruct (sys_NodeDistance _ _ _); cbn; [|done].
  apply IH. case_bool_decide; [by apply (NodeMask_Set_mask _ [_])|done].
Qed.

Lemma nodes_around_mask maxDist froms m m' : mask64 m → nodes_around sys maxDist froms m = Ok m' → mask64 m'.
Proof.
  revert m. induction froms as [|from froms IH]; intros m Hm; cbn; [by intros [= <-]|].
  destruct (nodes_within _ _ _ _ _) as [m1|] eqn:Hw; cbn; [|done]. apply IH. by eapply nodes_within_mask.
Qed.

Lemma policy_nodes_mask nodes cpus mems m : mask64 mems → policy_nodes sys nodes cpus mems = Ok m → mask64 m.
Proof.
  intros Hm. unfold policy_nodes. repeat case_bool_decide; try (intros [= <-]; try done; apply NewNodeMask_mask).
  - intros [= <-]. generalize (NewNodeMask_mask []). generalize (NewNodeMask []). generalize (sys_NodeIDs sys). clear.
    intros ids. induction ids as [|id ids IH]; intros m Hm; [done|]. cbn. apply IH. case_bool_decide; [by apply (NodeMask_Set_mask _ [_])|done].
  - destruct (strip_prefix _ _) as [d|].
    + destruct (parse_int _ _); [|done]. apply nodes_around_mask, NewNodeMask_mask.
    + destruct nodes as [|c s]; [done|]. case_bool_decide; [|done]. destruct (ParseNodeMask _) eqn:Hp; [|done]. intros [= <-].
      by eapply ParseNodeMask_mask.
Qed.

Lemma copy_flags_valid flags flags' : copy_flags flags = Ok flags' → flags' = flags ∧ Forall (λ f, f ∈ MpolFlag_names) flags.
Proof.
  revert flags'. induction flags as [|f flags IH]; intros flags'; cbn; [by intros [= <-]|]. case_bool_decide; [|done].
  destruct (copy_flags flags) as [fl|]; cbn; [|done]. intros [= <-]. destruct (IH fl eq_refl) as [-> ?]. by split; [|constructor].
Qed.

Lemma ToLinuxMemoryPolicy_valid spec ctr lp : ToLinuxMemoryPolicy sys parse_cpuset spec ctr = Ok lp →
  lp_Mode lp = po_Mode spec ∧ po_Mode spec ∈ MpolMode_names ∧
  lp_Flags lp = po_Flags spec ∧ Forall (λ f, f ∈ MpolFlag_names) (po_Flags spec) ∧
  ∃ mask, mask64 mask ∧ lp_Nodes lp = NodeMask_MemsetString mask ∧ ParseNodeMask (lp_Nodes lp) = Ok mask.
Proof.
  unfold ToLinuxMemoryPolicy. case_bool_decide as Hmode; [done|]. destruct (if bool_decide (ctr_cpus ctr ≠ "") then _ else _) as [cpus|]; cbn; [|done].
  destruct (if bool_decide (ctr_mems ctr ≠ "") then _ else _) as [mems|] eqn:Hmems; cbn; [|done].
  assert (mask64 mems) as Hm.
  { case_bool_decide; [|injection Hmems as <-; apply NewNodeMask_mask]. destruct (ParseNodeMask _) eqn:Hp; [|done].
    injection Hmems as <-. by eapply ParseNodeMask_mask. }
  destruct (policy_nodes _ _ _ _) as [mask|] eqn:Hn; cbn; [|done]. apply policy_nodes_mask in Hn; [|done].
  destruct (copy_flags _) as [flags|] eqn:Hf; cbn; [|done]. apply copy_flags_valid in Hf as [-> Hf]. intros [= <-]. cbn.
  split_and!; [done|exact Hmode|done|done|]. exists mask. split_and!; [done|done|]. by apply MemsetString_ParseNodeMask.
Qed.

(** Whatever annotations and configurations say, memory-policy puts nothing
    in front of the command of a container but mpolset with a memory policy mode
    and flags that exist and a set of nodes, and it leaves the command itself
    alone; it does so only if it is configured to. *)
Theorem mp_CreateContainer_safe p pod ctr a :
  mp_CreateContainer sys yaml_policy parse_cpuset veryVerbose p pod ctr = Ok (Some a) →
  mf_InjectMpolset p = true ∧
  ∃ mode mask flags, mode ∈ MpolMode_names ∧ mask64 mask ∧ Forall (λ f, f ∈ MpolFlag_names) flags ∧
    ParseNodeMask (NodeMask_MemsetString mask) = Ok mask ∧
    ma_Mount a = MkNriMount mpolsetInjectDir mpolsetInjectDir "bind" ["bind"; "ro"; "rslave"] ∧
    ma_Args a = app ["/mnt/nri-memory-policy-mpolset/mpolset"; "--mode"; mode; "--nodes"; NodeMask_MemsetString mask]
      (app (if bool_decide (flags ≠ []) then ["--flags"; join "," flags] else [])
        (app (if veryVerbose then ["-vv"; "--"] else ["--"]) (pc_Args ctr))).
Proof.
  unfold mp_CreateContainer. destruct (getPolicySpec _ _ _ _) as [[spec|]|]; cbn; [|done..]. case_bool_decide; [done|].
  destruct (ToLinuxMemoryPolicy _ _ _ _) as [lp|] eqn:Hlp; cbn; [|done]. destruct (mf_InjectMpolset p); [|done].
  intros [= <-]. split; [done|]. destruct (ToLinuxMemoryPolicy_valid _ _ _ Hlp) as (Hm & Hmode & Hf & Hflags & mask & Hmask & Hn & Hparse).
  exists (po_Mode spec), mask, (po_Flags spec). split_and!; [exact Hmode|exact Hmask|exact Hflags|by rewrite <- Hn|done|].
  unfold ToCommandInjectionAdjustment. cbn [ma_Args]. rewrite Hm, Hf, Hn. by destruct veryVerbose.
Qed.
End policy.

(** ** Examples *)

#[local] Existing Instance go_default.

Definition pex_sys : MpolSys :=
  MkMpolSys {[0 := MkSysCpu 0 0; 1 := MkSysCpu 0 1; 2 := MkSysCpu 1 2]}
    {[0 := MkMpolNode 0 [10; 12; 20]; 1 := MkMpolNode 0 [12; 10; 20]; 2 := MkMpolNode 1 [20; 20; 10]]} {[0; 1; 2]}.

Definition pex_spec : MemoryPolicySpec := MkMemoryPolicySpec "MPOL_INTERLEAVE" "max-dist:19" ["MPOL_F_STATIC_NODES"].

(** Some texts that are policies. *)
Definition pex_yaml (s : string) : option MemoryPolicySpec :=
  if bool_decide (s = "interleave") then Some pex_spec
  else if bool_decide (s = "local") then Some (MkMemoryPolicySpec "MPOL_LOCAL" "" []) else None.

Definition pex_cpuset (s : string) : option CPUSet := if bool_decide (s = "1") then Some {[1]} else None.

Definition pex_config : MpolConfig := MkMpolConfig true [Some (MkMemoryPolicyClass "all" (Some (MkMemoryPolicySpec "MPOL_BIND" "all" [])))].

Definition pex_pod (annotations : gmap string string) : NriPod := MkNriPod "p1" "u1" "web" "app" ∅ annotations "".

Definition pex_ctr (name cpus : string) : PlgCtr :=
  MkPlgCtr (MkNriContainer "c1" "p1" name ContainerStateCreating ∅ [] []
    (Some (MkLinuxContainer [] (Some (MkLinuxResources (Some (MkLinuxCPU None None None cpus "")) (Some (MkLinuxMemory (Some 1000000) None)) [] None None)) None)) 0)
    ["sleep"; "inf"] 0.

Definition pex_annotations : gmap string string :=
  {["class.memory-policy.nri.io" := "all"; "policy.memory-policy.nri.io/container.server" := "interleave"]}.

Lemma getPolicySpec_reference_witness :
  reference_policy pex_yaml pex_config pex_annotations "server" = Ok (Some pex_spec) ∧
  getPolicySpec pex_yaml pex_config (pex_pod pex_annotations) (pex_ctr "server" "1") =
    reference_policy pex_yaml pex_config pex_annotations "server".
Proof.
  split; [by vm_compute|].
  apply (getPolicySpec_reference pex_yaml pex_config (pex_pod pex_annotations) (pex_ctr "server" "1")).
  split; [left|right]; vm_compute; reflexivity.
Defined.

Definition pex_adjustment : MpolAdjustment :=
  MkMpolAdjustment (MkNriMount mpolsetInjectDir mpolsetInjectDir "bind" ["bind"; "ro"; "rslave"])
    ["/mnt/nri-memory-policy-mpolset/mpolset"; "--mode"; "MPOL_INTERLEAVE"; "--nodes"; "0-1"; "--flags"; "MPOL_F_STATIC_NODES";
     "--"; "sleep"; "inf"].

Lemma mp_CreateContainer_safe_witness :
  ∃ mode mask flags, mode ∈ MpolMode_names ∧ mask64 mask ∧ Forall (λ f, f ∈ MpolFlag_names) flags ∧
    ma_Args pex_adjustment = app ["/mnt/nri-memory-policy-mpolset/mpolset"; "--mode"; mode; "--nodes"; NodeMask_MemsetString mask]
      (app (if bool_decide (flags ≠ []) then ["--flags"; join "," flags] else []) (app ["--"] ["sleep"; "inf"])).
Proof.
  assert (Ho : mp_CreateContainer pex_sys pex_yaml pex_cpuset false pex_config (pex_pod pex_annotations) (pex_ctr "server" "1") =
    Ok (Some pex_adjustment)) by (vm_compute; reflexivity).
  destruct (mp_CreateContainer_safe pex_sys pex_yaml pex_cpuset false pex_config _ _ _ Ho)
    as (_ & mode & mask & flags & H1 & H2 & H3 & _ & _ & H4).
  exists mode, mask, flags. split; [exact H1|split; [exact H2|split; [exact H3|exact H4]]].
Defined.

(** *** Where the plugins do not do what they say

    A policy without nodes, as the modes MPOL_DEFAULT and MPOL_LOCAL need none,
    stops the plugin. *)
Example mp_no_nodes_panics :
  mp_CreateContainer pex_sys pex_yaml pex_cpuset false pex_config
    (pex_pod {["policy.memory-policy.nri.io" := "local"]}) (pex_ctr "server" "") = Err Panic.
Proof. vm_compute. reflexivity. Qed.

(** With both a class and a policy for a pod it is up to the order annotations
    are visited in which of them counts. *)
Definition go_backwards : GoRuntime := {|
  map_range K _ _ V m := reverse (map_to_list m);
  map_range_perm K _ _ V m := reverse_Permutation (map_to_list m);
  sort_func := @sort_func go_default;
  sort_func_perm := @sort_func_perm go_default;
  sort_func_sorted := @sort_func_sorted go_default;
|}.

Example mp_ambiguous :
  let pod := pex_pod {["class.memory-policy.nri.io" := "all"; "policy.memory-policy.nri.io" := "interleave"]} in
  getPolicySpec (H := go_default) pex_yaml pex_config pod (pex_ctr "server" "") ≠
  getPolicySpec (H := go_backwards) pex_yaml pex_config pod (pex_ctr "server" "").
Proof. vm_compute. discriminate. Qed.

(** memory-qos throttles containers at one quarter of their limit if the ratio is
    0.75, and always if it is 1. *)
Example mq_ratio :
  memory_high (λ _, 0) 1000000 (binary_normalize 24 128 3 (-2) false) = 250000 ∧ memory_high (λ _, 0) 1000000 (f32_of_Z 1) = 0.
Proof. vm_compute. split; reflexivity. Qed.

(** Without CPUs and memory in its resources a container stops memory-qos. *)
Example mq_no_memory_panics :
  let ctr := MkPlgCtr (MkNriContainer "c1" "p1" "server" ContainerStateCreating ∅ [] [] None 0) [] 0 in
  mq_CreateContainer (λ _, 0) (Some (MkQosConfig [] [MkQoSClass "swap" (f32_of_Z 1)]))
    (pex_pod {["class.memory-qos.nri.io" := "swap"]}) ctr = Err Panic.
Proof. vm_compute. reflexivity. Qed.

(** A container without a directory among those of cgroups is no error. *)
Example mt_no_cgroup : getFullCgroupsPath (λ _, Ok None) (pex_ctr "server" "") = Ok "".
Proof. reflexivity. Qed.
