(* ===== verification/Resctrl.v ===== *)
(** * Monitoring groups of pods: the resctrl-mon plugin (cmd/plugins/resctrl-mon)

    The plugin creates a directory of the resctrl file system, a monitoring group,
    for every pod, and writes the processes of its containers to it.  The kernel
    ties a counter to the directory, so it must stay for as long as the pod does,
    and it must not stay longer.  State (state.go), file system operations
    (resctrl.go) and requests (plugin.go), and the theorems about them. *)

From Stdlib Require Import Ascii.
From S2P Require Import Prelude GoStrings MemNodes CpuTree CchTypes PlgTypes PlgFacts.

Open Scope string_scope.
Open Scope Z_scope.

(** ** State *)

Record podInfo := MkPodInfo {
  pi_monGroupDir : string;
  pi_containers : gset string;
}.

(** Pods by their UIDs. *)
Abbreviation podState := (gmap string podInfo).

Definition addPod (podUID monGroupDir : string) (s : podState) : podState :=
  match s !! podUID with Some _ => s | None => <[podUID := MkPodInfo monGroupDir ∅]> s end.

Definition addContainer (podUID containerID : string) (s : podState) : podState :=
  alter (λ info, MkPodInfo (pi_monGroupDir info) ({[containerID]} ∪ pi_containers info)) podUID s.

Definition removeContainer (podUID containerID : string) (s : podState) : podState :=
  alter (λ info, MkPodInfo (pi_monGroupDir info) (pi_containers info ∖ {[containerID]})) podUID s.

Definition removePod (podUID : string) (s : podState) : podState := delete podUID s.

Definition getMonGroupDir (podUID : string) (s : podState) : string := default "" (pi_monGroupDir <$> s !! podUID).

Definition podHasNoContainers (podUID : string) (s : podState) : bool :=
  match s !! podUID with Some info => bool_decide (pi_containers info = ∅) | None => true end.

(** ** The resctrl file system *)

Definition defaultResctrlPath : string := "/sys/fs/resctrl".
Definition monGroupsDir : string := "mon_groups".

(** A name that does not lead out of the directory. *)
Definition isValidRDTClass (name : string) : bool :=
  negb (bool_decide (name = "" ∨ name = s_dot ∨ name = s_dotdot)) &&
  negb (in_string c_slash name || in_string (ascii_of_nat 0) name).

Definition dir_prefix (path : string) : string := if bool_decide (path = s_slash) then s_slash else str_app path s_slash.

(** The name of a node in a directory, and whether it is a directory. *)
Definition dir_entry (path : string) (n : string * FsNode) : option (string * bool) :=
  match strip_prefix (dir_prefix path) n.1 with
  | Some name =>
      if bool_decide (name = "" ∨ name = s_dot ∨ name = s_dotdot) || in_string c_slash name then None
      else Some (name, match n.2 with NDir _ => true | _ => false end)
  | None => None
  end.

Definition name_compare (x y : string * bool) : Z := match String.compare x.1 y.1 with Lt => -1 | Eq => 0 | Gt => 1 end.

Section resctrl.
Context `{GoRuntime} `{Kernel}.
(** The canonical form of a UUID, if a string is one. *)
Context (uuid : string → option string).

(** [os.ReadDir], sorted by name. *)
Definition os_ReadDir (path : string) : Fs → Fs * (FsError + list (string * bool)) :=
  fs_try (FsReadDir path) (λ s,
    match fs_nodes s !! path with
    | Some _ => (s, inr (insertion_sort name_compare (omap (dir_entry path) (map_to_list (fs_nodes s)))))
    | None => (s, inl ENotExist)
    end).

Definition createMonGroup (resctrlPath rdtClass podUID : string) (s : Fs) : Fs * option string :=
  if bool_decide (rdtClass ≠ "") && negb (isValidRDTClass rdtClass) then (s, None)
  else
    let parentDir := if bool_decide (rdtClass ≠ "") then path_join [resctrlPath; rdtClass] else resctrlPath in
    let '(s, exists_) :=
      if bool_decide (rdtClass ≠ "") then
        match os_Stat parentDir s with (s, inr is_dir) => (s, is_dir) | (s, inl _) => (s, false) end
      else (s, true) in
    if negb exists_ then (s, None)
    else
      let monGroupsPath := path_join [parentDir; monGroupsDir] in
      let monGroupDir := path_join [monGroupsPath; podUID] in
      match os_MkdirAll monGroupsPath 493 s with
      | (s, inl _) => (s, None)
      | (s, inr _) =>
          match os_Mkdir monGroupDir 493 s with
          | (s, inr _) | (s, inl EExist) => (s, Some monGroupDir)
          | (s, inl _) => (s, None)
          end
      end.

Definition removeMonGroup (monGroupDir : string) (s : Fs) : Fs := (os_Remove monGroupDir s).1.

(** Opening the file and writing to it; the kernel keeps its contents. *)
Definition writeTaskPID (monGroupDir : string) (pid : Z) (s : Fs) : Fs :=
  (fs_try (A:=unit) (FsWrite (path_join [monGroupDir; "tasks"]) (str_app (itoa pid) (String "010"%char ""))) (λ s, (s, inr tt)) s).1.

Fixpoint clean_entries (monGroupsPath : string) (pods : podState) (entries : list (string * bool)) (s : Fs) : Fs :=
  match entries with
  | [] => s
  | (name, is_dir) :: entries' =>
      let s :=
        if is_dir then
          match uuid name with
          | None => s
          | Some u =>
              let orphanDir := path_join [monGroupsPath; name] in
              if bool_decide (getMonGroupDir u pods = orphanDir) then s else (os_Remove orphanDir s).1
          end
        else s in
      clean_entries monGroupsPath pods entries' s
  end.

Definition cleanOrphanedInDir (monGroupsPath : string) (pods : podState) (s : Fs) : Fs :=
  match os_ReadDir monGroupsPath s with
  | (s, inl _) => s
  | (s, inr entries) => clean_entries monGroupsPath pods entries s
  end.

(** Entries of the root that are control groups. *)
Definition is_ctrl_group (e : string * bool) : bool :=
  e.2 && negb (bool_decide (e.1 = monGroupsDir ∨ e.1 = "info" ∨ is_Some (strip_prefix "mon_" e.1))).

Definition cleanOrphanedMonGroups (resctrlPath : string) (pods : podState) (s : Fs) : Fs :=
  let s := cleanOrphanedInDir (path_join [resctrlPath; monGroupsDir]) pods s in
  match os_ReadDir resctrlPath s with
  | (s, inl _) => s
  | (s, inr entries) =>
      fold_left (λ s e, cleanOrphanedInDir (path_join [resctrlPath; e.1; monGroupsDir]) pods s)
        (filter (λ e, is_ctrl_group e = true) entries) s
  end.

(** ** The plugin *)

Record MonConfig := MkMonConfig {
  nf_ResctrlPath : string;
  nf_Namespaces : list string;
  nf_LabelSelector : gmap string string;
}.

(** [rm_resctrlPath] is the path of the file system operations, [rm_reconciler]
    whether the reconciler has been started. *)
Record resctrlMon := MkResctrlMon {
  rm_config : MonConfig;
  rm_resctrlPath : string;
  rm_pods : podState;
  rm_fs : Fs;
  rm_reconciler : bool;
}.

Definition with_pods (v : podState) (p : resctrlMon) : resctrlMon :=
  MkResctrlMon (rm_config p) (rm_resctrlPath p) v (rm_fs p) (rm_reconciler p).
Definition with_rm_fs (v : Fs) (p : resctrlMon) : resctrlMon :=
  MkResctrlMon (rm_config p) (rm_resctrlPath p) (rm_pods p) v (rm_reconciler p).

Definition newPlugin (s : Fs) : resctrlMon :=
  MkResctrlMon (MkMonConfig defaultResctrlPath [] ∅) defaultResctrlPath ∅ s false.

(** Parsing of the configuration, with the default path. *)
Context (yaml : string → option MonConfig).

Definition rm_setConfig (data : string) (p : resctrlMon) : resctrlMon * res unit :=
  match yaml data with
  | None => (p, Err ErrOther)
  | Some cfg =>
      match path_clean (nf_ResctrlPath cfg) with
      | String c s =>
          if bool_decide (c = c_slash) then
            let path := String c s in
            (MkResctrlMon (MkMonConfig path (nf_Namespaces cfg) (nf_LabelSelector cfg)) path (rm_pods p) (rm_fs p)
               (rm_reconciler p), Ok tt)
          else (p, Err ErrOther)
      | EmptyString => (p, Err ErrOther)
      end
  end.

(** [strings.IndexAny], what comes before one of two characters. *)
Fixpoint before_any (c d : ascii) (s : string) : string :=
  match s with
  | EmptyString => ""
  | String a s' => if bool_decide (a = c ∨ a = d) then "" else String a (before_any c d s')
  end.

(** CRI-O tells the process of a container since version 1.36. *)
Definition checkRuntimeVersion (runtime version : string) : res unit :=
  if negb (bool_decide (to_lower runtime = "cri-o")) then Ok tt
  else
    let version := default version (strip_prefix "v" version) in
    let version := before_any "-"%char "+"%char version in
    match split_on c_dot version with
    | major :: minor :: _ =>
        match parse_int 64 major, parse_int 64 minor with
        | Some major, Some minor =>
            if bool_decide (major < 1 ∨ (major = 1 ∧ minor < 36)) then Err ErrOther else Ok tt
        | _, _ => Err ErrOther
        end
    | _ => Err ErrOther
    end.

Definition rm_Configure (config runtime version : string) (p : resctrlMon) : resctrlMon * res unit :=
  match checkRuntimeVersion runtime version with
  | Err e => (p, Err e)
  | Ok _ => if bool_decide (config ≠ "") then rm_setConfig config p else (p, Ok tt)
  end.

Definition shouldMonitorPod (p : resctrlMon) (pod : NriPod) : bool :=
  (bool_decide (nf_Namespaces (rm_config p) = []) || bool_decide (np_Namespace pod ∈ nf_Namespaces (rm_config p))) &&
  forallb (λ kv, bool_decide (default "" (np_Labels pod !! kv.1) = kv.2)) (map_range (nf_LabelSelector (rm_config p))).

Definition getRDTClass (ctr : PlgCtr) : string := default "" (linux_resources ctr ≫= lr_RdtClass).

(** The lock [mu] is held; the reconciler does not take it. *)
Definition ensureMonGroup (podUID containerID rdtClass : string) (p : resctrlMon) : resctrlMon * bool :=
  match uuid podUID with
  | None => (p, false)
  | Some podUID =>
      if bool_decide (getMonGroupDir podUID (rm_pods p) ≠ "") then
        (with_pods (addContainer podUID containerID (rm_pods p)) p, true)
      else
        match createMonGroup (rm_resctrlPath p) rdtClass podUID (rm_fs p) with
        | (s, None) => (with_rm_fs s p, false)
        | (s, Some monGroupDir) =>
            (with_pods (addContainer podUID containerID (addPod podUID monGroupDir (rm_pods p))) (with_rm_fs s p), true)
        end
  end.

Definition canonical (podUID : string) : string := default podUID (uuid podUID).

(** One container of a synchronization, with its pod. *)
Definition mon_sync_container (pods : gmap string NriPod) (p : resctrlMon) (ctr : PlgCtr) : resctrlMon :=
  match pods !! nc_PodSandboxId (pc_Ctr ctr) with
  | None => p
  | Some pod =>
      if shouldMonitorPod p pod then
        match ensureMonGroup (np_Uid pod) (nc_Id (pc_Ctr ctr)) (getRDTClass ctr) p with
        | (p, false) => p
        | (p, true) =>
            if bool_decide (pc_Pid ctr > 0) then
              with_rm_fs (writeTaskPID (getMonGroupDir (canonical (np_Uid pod)) (rm_pods p)) (pc_Pid ctr) (rm_fs p)) p
            else p
        end
      else p
  end.

(** Starting the reconciler again has no effect. *)
Definition rm_Synchronize (pods : list NriPod) (containers : list PlgCtr) (p : resctrlMon) : resctrlMon :=
  let podBySandboxID := fold_left (λ m pod, <[np_Id pod := pod]> m) pods ∅ in
  let p := fold_left (mon_sync_container podBySandboxID) containers p in
  let s := cleanOrphanedMonGroups (rm_resctrlPath p) (rm_pods p) (rm_fs p) in
  MkResctrlMon (rm_config p) (rm_resctrlPath p) (rm_pods p) s true.

(** A tick of the reconciler. *)
Definition reconcile (p : resctrlMon) : resctrlMon :=
  if rm_reconciler p then with_rm_fs (cleanOrphanedMonGroups (rm_resctrlPath p) (rm_pods p) (rm_fs p)) p else p.

Definition PostCreateContainer (pod : NriPod) (ctr : PlgCtr) (p : resctrlMon) : resctrlMon :=
  if shouldMonitorPod p pod then (ensureMonGroup (np_Uid pod) (nc_Id (pc_Ctr ctr)) (getRDTClass ctr) p).1 else p.

Definition rm_StartContainer (pod : NriPod) (ctr : PlgCtr) (p : resctrlMon) : resctrlMon :=
  if shouldMonitorPod p pod then
    let monGroupDir := getMonGroupDir (canonical (np_Uid pod)) (rm_pods p) in
    if bool_decide (monGroupDir = "") then p
    else if bool_decide (pc_Pid ctr > 0) then with_rm_fs (writeTaskPID monGroupDir (pc_Pid ctr) (rm_fs p)) p else p
  else p.

(** The same once more, for runtimes that know the process only then. *)
Definition PostStartContainer (pod : NriPod) (ctr : PlgCtr) (p : resctrlMon) : resctrlMon :=
  if shouldMonitorPod p pod then
    let monGroupDir := getMonGroupDir (canonical (np_Uid pod)) (rm_pods p) in
    if bool_decide (monGroupDir = "") then p
    else if bool_decide (pc_Pid ctr > 0) then with_rm_fs (writeTaskPID monGroupDir (pc_Pid ctr) (rm_fs p)) p else p
  else p.

Definition rm_StopContainer (pod : NriPod) (ctr : PlgCtr) (p : resctrlMon) : resctrlMon :=
  let podUID := canonical (np_Uid pod) in
  if bool_decide (getMonGroupDir podUID (rm_pods p) = "") then p
  else with_pods (removeContainer podUID (nc_Id (pc_Ctr ctr)) (rm_pods p)) p.

Definition rm_RemovePodSandbox (pod : NriPod) (p : resctrlMon) : resctrlMon :=
  let podUID := canonical (np_Uid pod) in
  let monGroupDir := getMonGroupDir podUID (rm_pods p) in
  if bool_decide (monGroupDir = "") then p
  else with_pods (removePod podUID (rm_pods p)) (with_rm_fs (removeMonGroup monGroupDir (rm_fs p)) p).

(** ** Steps *)

Inductive MonOp :=
  | OpConfigure (config runtime version : string)
  | OpSynchronize (pods : list NriPod) (containers : list PlgCtr)
  | OpPostCreate (pod : NriPod) (ctr : PlgCtr)
  | OpStart (pod : NriPod) (ctr : PlgCtr)
  | OpPostStart (pod : NriPod) (ctr : PlgCtr)
  | OpStop (pod : NriPod) (ctr : PlgCtr)
  | OpRemovePod (pod : NriPod)
  | OpReconcile.

Definition mon_run (op : MonOp) (p : resctrlMon) : resctrlMon :=
  match op with
  | OpConfigure config runtime version => (rm_Configure config runtime version p).1
  | OpSynchronize pods containers => rm_Synchronize pods containers p
  | OpPostCreate pod ctr => PostCreateContainer pod ctr p
  | OpStart pod ctr => rm_StartContainer pod ctr p
  | OpPostStart pod ctr => PostStartContainer pod ctr p
  | OpStop pod ctr => rm_StopContainer pod ctr p
  | OpRemovePod pod => rm_RemovePodSandbox pod p
  | OpReconcile => reconcile p
  end.

(** The plugin does something, or others change the file system but leave the
    groups of the pods alone. *)
Inductive mon_step (p : resctrlMon) : resctrlMon → Prop :=
  | mon_step_run op : mon_step p (mon_run op p)
  | mon_step_others s :
      fs_log s = fs_log (rm_fs p) →
      (∀ u info, rm_pods p !! u = Some info → fs_nodes s !! pi_monGroupDir info = fs_nodes (rm_fs p) !! pi_monGroupDir info) →
      mon_step p (with_rm_fs s p).
End resctrl.

(** ** Names in directories *)

Lemma valid_class_simple name : isValidRDTClass name = true → simple_name name.
Proof.
  unfold isValidRDTClass. rewrite andb_true_iff, !negb_true_iff, bool_decide_eq_false, orb_false_iff.
  unfold simple_name. tauto.
Qed.

Lemma dir_entry_simple path n e : dir_entry path n = Some e → simple_name e.1.
Proof.
  unfold dir_entry. destruct (strip_prefix _ _) as [name|]; [|done]. destruct (_ || _) eqn:Hn; [done|]. intros [= <-].
  apply orb_false_iff in Hn as [Hn1%bool_decide_eq_false Hn2]. unfold simple_name. cbn. tauto.
Qed.

Lemma mon_groups_simple : simple_name monGroupsDir.
Proof. by split_and!. Qed.

Lemma simple_one n : simple_name n → Forall simple_name [n].
Proof. intros Hn. constructor; [exact Hn|constructor]. Qed.

Lemma simple_snoc l n : Forall simple_name l → simple_name n → Forall simple_name (app l [n]).
Proof. intros Hl Hn. apply Forall_app. split; [exact Hl|by apply simple_one]. Qed.

Lemma last_name l l' n n' : Forall simple_name l → Forall simple_name l' → simple_name n → simple_name n' →
  abs_path (app l [n]) = abs_path (app l' [n']) → n = n'.
Proof.
  intros Hl Hl' Hn Hn' He. apply abs_path_inj in He; [|by apply simple_snoc..].
  by apply app_inj_2 in He as [_ [= ->]].
Qed.

Lemma path_clean_rooted path s : path_clean path = String c_slash s →
  ∃ l, Forall simple_name l ∧ path_clean path = abs_path l.
Proof.
  destruct path as [|a t]; [done|]. destruct (decide (a = c_slash)) as [->|Ha]; [intros _; apply path_clean_abs|]. intros Hc. exfalso.
  revert Hc. unfold path_clean. rewrite bool_decide_eq_false_2 by done. set (out := fold_left _ _ _).
  assert (Forall (λ e, e ≠ "" ∧ in_string c_slash e = false) out) as Ho.
  { unfold out. pose proof (split_on_slashless c_slash (String a t)) as Hs.
    assert (Forall (λ e, e ≠ "" ∧ in_string c_slash e = false) []) as H0 by constructor. revert Hs H0. generalize (@nil string).
    induction (split_on c_slash (String a t)) as [|e es IH]; intros o Hs H0; [done|]. cbn. apply Forall_cons in Hs as [He Hs].
    apply IH; [done|]. unfold clean_step. case_bool_decide as H1; [done|]. case_bool_decide as H2.
    - destruct o as [|x o]; [by repeat constructor|]. case_bool_decide; [by constructor|]. by apply Forall_cons in H0 as [_ H0].
    - constructor; [tauto|done]. }
  clearbody out. destruct out as [|x out]; [done|].
  assert (∃ y l, reverse (x :: out) = y :: l) as (y & l & Hr).
  { destruct (reverse (x :: out)) eqn:Hr; [|eauto]. apply (f_equal length) in Hr. by rewrite length_reverse in Hr. }
  rewrite Hr. apply Forall_reverse in Ho. rewrite Hr in Ho. apply Forall_cons in Ho as [[Hy1 Hy2] _].
  destruct y as [|b y]; [done|]. cbn in Hy2. apply orb_false_iff in Hy2 as [Hb%bool_decide_eq_false _].
  destruct l; cbn; rewrite ?str_app_cons; congruence.
Qed.

(** ** What operations leave alone *)

(** Nothing tried to remove a node, and it is still there. *)
Definition spared_in (d : string) (s s' : Fs) : Prop :=
  (∃ l, fs_log s' = app (fs_log s) l ∧ FsRemove d ∉ l) ∧ (is_Some (fs_nodes s !! d) → is_Some (fs_nodes s' !! d)).

#[export] Instance spared_preorder d : PreOrder (spared_in d).
Proof.
  split.
  - intros s. split; [|done]. exists []. rewrite app_nil_r. split; [done|]. by apply not_elem_of_nil.
  - intros s s' s'' [(l & Hl & Hd) Hn] [(l' & Hl' & Hd') Hn']. split; [|auto]. exists (app l l').
    rewrite Hl', Hl, app_assoc. split; [done|]. rewrite elem_of_app. tauto.
Qed.

Section spared.
Context `{GoRuntime} `{Kernel}.

Lemma spared_try {A} d op (f : Fs → Fs * (FsError + A)) s : op ≠ FsRemove d →
  (∀ s, fs_log (f s).1 = fs_log s ∧ (is_Some (fs_nodes s !! d) → is_Some (fs_nodes (f s).1 !! d))) →
  spared_in d s (fs_try op f s).1.
Proof.
  intros Hop Hf. unfold fs_try. set (s' := MkFs _ _).
  assert (spared_in d s s') as Hs.
  { split; [|done]. exists [op]. split; [done|]. rewrite list_elem_of_singleton. done. }
  destruct (fs_fails _ _); [done|]. destruct (Hf s') as [Hl Hn]. etrans; [exact Hs|]. split; [|done].
  exists []. rewrite Hl, app_nil_r. split; [done|]. by apply not_elem_of_nil.
Qed.

Lemma spared_stat d path s : spared_in d s (os_Stat path s).1.
Proof. by apply spared_try. Qed.

Lemma spared_readdir d path s : spared_in d s (os_ReadDir path s).1.
Proof. apply spared_try; [done|]. intros s'. by destruct (fs_nodes s' !! path). Qed.

Lemma spared_write d dir pid s : spared_in d s (writeTaskPID dir pid s).
Proof. by apply spared_try. Qed.

Lemma spared_mkdir d path perm s : spared_in d s (os_Mkdir path perm s).1.
Proof.
  apply spared_try; [done|]. intros s'. destruct (fs_nodes s' !! path) eqn:Hp; [done|]. cbn. split; [done|]. intros [n Hn].
  rewrite lookup_insert_ne; [by eexists|]. by intros ->; rewrite Hp in Hn.
Qed.

Lemma spared_mkdir_all d paths perm s : spared_in d s (mkdir_all paths perm s).1.
Proof.
  revert s. induction paths as [|path paths IH]; intros s; [done|]. cbn. destruct (fs_nodes s !! path); [done|].
  pose proof (spared_mkdir d path perm s) as Hm. destruct (os_Mkdir path perm s) as [s' [e|]]; [done|]. cbn in Hm. by etrans.
Qed.

Lemma spared_MkdirAll d path perm s : spared_in d s (os_MkdirAll path perm s).1.
Proof. unfold os_MkdirAll. destruct (fs_nodes s !! path) as [[]|]; try done. apply spared_mkdir_all. Qed.

Lemma spared_remove d path s : path ≠ d → spared_in d s (os_Remove path s).1.
Proof.
  intros Hne. apply spared_try; [congruence|]. intros s'. destruct (fs_nodes s' !! path) eqn:Hp; [|done]. cbn. split; [done|].
  by rewrite lookup_delete_ne.
Qed.

Context (uuid : string → option string).

(** A new group. *)
Lemma createMonGroup_spec l class u s : Forall simple_name l → simple_name u →
  let r := createMonGroup (abs_path l) class u s in
  (∀ d, spared_in d s r.1) ∧
  (∀ d, r.2 = Some d → (∃ lv, Forall simple_name lv ∧ d = abs_path (app lv [u])) ∧ is_Some (fs_nodes r.1 !! d)).
Proof.
  intros Hl Hu. unfold createMonGroup. destruct (bool_decide (class ≠ "") && _) eqn:Hv; [done|].
  set (parentDir := if bool_decide (class ≠ "") then path_join [abs_path l; class] else abs_path l).
  assert (∃ lp, Forall simple_name lp ∧ parentDir = abs_path lp) as (lp & Hlp & ->).
  { unfold parentDir. case_bool_decide as Hc; [|eauto]. cbn in Hv. apply negb_false_iff, valid_class_simple in Hv.
    rewrite path_join_abs by (done || by apply simple_one). exists (app l [class]). split; [by apply simple_snoc|done]. }
  set (st := if bool_decide (class ≠ "") then _ else _).
  assert (∀ d, spared_in d s st.1) as Hst.
  { intros d. unfold st. case_bool_decide; [|done]. pose proof (spared_stat d (abs_path lp) s) as Hs.
    by destruct (os_Stat _ s) as [s' [e|b]]. }
  clearbody st. destruct st as [s1 ex]. cbn in Hst. destruct ex; [cbn [negb]|done].
  pose proof mon_groups_simple as Hmg. rewrite (path_join_abs lp [monGroupsDir]) by (done || by apply simple_one).
  assert (Forall simple_name (app lp [monGroupsDir])) as Hlm by (by apply simple_snoc).
  rewrite (path_join_abs _ [u]) by (done || by apply simple_one).
  pose proof (λ d, spared_MkdirAll d (abs_path (app lp [monGroupsDir])) 493 s1) as H2.
  destruct (os_MkdirAll _ _ s1) as [s2 [e|]]; cbn in H2; [split; [intros d; etrans; [apply Hst|apply H2]|done]|].
  set (dir := abs_path (app (app lp [monGroupsDir]) [u])).
  pose proof (λ d, spared_mkdir d dir 493 s2) as H3. unfold os_Mkdir, fs_try in *.
  destruct (fs_fails _ _); cbn in H3 |- *; [split; [intros d; etrans; [apply Hst|]; etrans; [apply H2|apply H3]|done]|].
  destruct (fs_nodes s2 !! dir) as [n|] eqn:Hn; cbn in H3 |- *.
  - split; [intros d; etrans; [apply Hst|]; etrans; [apply H2|apply H3]|]. intros d [= <-]. split; [by eexists|]. by rewrite Hn.
  - split; [intros d; etrans; [apply Hst|]; etrans; [apply H2|apply H3]|]. intros d [= <-]. split; [by eexists|]. by rewrite lookup_insert_eq.
Qed.
End spared.

(** ** Groups stay *)

(** What is relied on of UUIDs: the canonical form is one, and a plain name. *)
Class UuidLaws (uuid : string → option string) := {
  uuid_canonical s u : uuid s = Some u → uuid u = Some u;
  uuid_simple s u : uuid s = Some u → simple_name u;
}.

Section groups.
Context `{GoRuntime} `{Kernel} (uuid : string → option string) `{!UuidLaws uuid}.

(** The directory of a group is named by the pod. *)
Definition group_dir (u d : string) : Prop := uuid u = Some u ∧ ∃ l, Forall simple_name l ∧ d = abs_path (app l [u]).

Definition groups_named (pods : podState) : Prop := ∀ u info, pods !! u = Some info → group_dir u (pi_monGroupDir info).

Lemma group_dir_simple u d : group_dir u d → simple_name u.
Proof. intros [Hu _]. by apply (uuid_simple u u). Qed.

Lemma groups_named_dir pods u d : groups_named pods → getMonGroupDir u pods = d → d ≠ "" →
  ∃ info, pods !! u = Some info ∧ pi_monGroupDir info = d ∧ group_dir u d.
Proof.
  intros Hn. unfold getMonGroupDir. destruct (pods !! u) as [info|] eqn:Hp; cbn; [|by intros <-]. intros <- _.
  exists info. split_and!; [done..|by apply Hn].
Qed.

(** Nothing is removed that belongs to a pod. *)
Lemma spared_entries pods lm v info entries s : groups_named pods → Forall simple_name lm → pods !! v = Some info →
  Forall (λ e, simple_name e.1) entries → spared_in (pi_monGroupDir info) s (clean_entries uuid (abs_path lm) pods entries s).
Proof.
  intros Hp Hlm Hv Hes. destruct (Hp v info Hv) as [Hcan (lv & Hlv & Hd)]. revert s.
  induction Hes as [|[name is_dir] entries Hname Hes IH]; intros s; [done|]. cbn in Hname |- *. etrans; [|apply IH].
  destruct is_dir; [|done]. destruct (uuid name) as [u|] eqn:Hu; [|done].
  rewrite (path_join_abs lm [name]) by (done || by apply simple_one). case_bool_decide as Ho; [done|].
  apply spared_remove. intros He. apply Ho. rewrite Hd in He. assert (simple_name v) as Hsv by (by apply (uuid_simple v v)).
  pose proof (last_name lm lv name v Hlm Hlv Hname Hsv He) as ->. rewrite Hcan in Hu. injection Hu as <-.
  unfold getMonGroupDir. rewrite Hv. cbn. congruence.
Qed.

Lemma spared_in_dir pods lm v info s : groups_named pods → Forall simple_name lm → pods !! v = Some info →
  spared_in (pi_monGroupDir info) s (cleanOrphanedInDir uuid (abs_path lm) pods s).
Proof.
  intros Hp Hlm Hv. unfold cleanOrphanedInDir. pose proof (spared_readdir (pi_monGroupDir info) (abs_path lm) s) as Hr.
  destruct (os_ReadDir (abs_path lm) s) as [s' [e|entries]] eqn:Hrd; [done|]. etrans; [exact Hr|].
  apply (spared_entries _ _ v); [done..|]. revert Hrd. unfold os_ReadDir, fs_try. destruct (fs_fails _ _); [done|].
  destruct (_ !! abs_path lm); [|done]. intros [= <- <-]. apply Forall_forall. intros e.
  rewrite insertion_sort_perm. intros (n & _ & He)%list_elem_of_omap. by apply dir_entry_simple in He.
Qed.

Lemma spared_clean pods l v info s : groups_named pods → Forall simple_name l → pods !! v = Some info →
  spared_in (pi_monGroupDir info) s (cleanOrphanedMonGroups uuid (abs_path l) pods s).
Proof.
  intros Hp Hl Hv. pose proof mon_groups_simple as Hmg. unfold cleanOrphanedMonGroups.
  rewrite (path_join_abs l [monGroupsDir]) by (done || by apply simple_one).
  set (s1 := cleanOrphanedInDir _ _ _ s).
  assert (spared_in (pi_monGroupDir info) s s1) as H1 by (apply (spared_in_dir _ _ v); [done|by apply simple_snoc|done]).
  clearbody s1. etrans; [exact H1|]. pose proof (spared_readdir (pi_monGroupDir info) (abs_path l) s1) as Hr.
  destruct (os_ReadDir (abs_path l) s1) as [s2 [e|entries]] eqn:Hrd; [done|]. etrans; [exact Hr|]. clear H1 Hr s.
  assert (∀ e, e ∈ filter (λ e, is_ctrl_group e = true) entries → simple_name e.1) as Hes.
  { intros e [_ He]%list_elem_of_filter. revert Hrd. unfold os_ReadDir, fs_try. destruct (fs_fails _ _); [done|].
    destruct (_ !! abs_path l); [|done]. intros [= <- <-]. rewrite insertion_sort_perm in He.
    apply list_elem_of_omap in He as (n & _ & He). by apply dir_entry_simple in He. }
  clear Hrd. revert s2. induction (filter _ entries) as [|e es IH]; intros s2; [done|]. cbn.
  assert (simple_name e.1) as He by (apply Hes; constructor).
  rewrite (path_join_abs l [e.1; monGroupsDir]) by (done || (constructor; [done|by apply simple_one])).
  etrans; [|apply IH; intros; apply Hes; by constructor].
  apply (spared_in_dir _ _ v); [done| |done]. apply Forall_app. split; [done|]. constructor; [done|by apply simple_one].
Qed.

(** What a request keeps: groups stay in their place, and are not removed. *)
Definition keeps_groups (p p' : resctrlMon) : Prop :=
  ∀ u info, rm_pods p !! u = Some info →
    (∃ info', rm_pods p' !! u = Some info' ∧ pi_monGroupDir info' = pi_monGroupDir info) ∧
    spared_in (pi_monGroupDir info) (rm_fs p) (rm_fs p').

#[export] Instance keeps_groups_preorder : PreOrder keeps_groups.
Proof.
  split; [intros p u info Hu; split; [by eexists|done]|]. intros p p' p'' H1 H2 u info Hu.
  destruct (H1 u info Hu) as [(info' & Hu' & Hd') Hs']. destruct (H2 u info' Hu') as [(info'' & Hu'' & Hd'') Hs''].
  rewrite Hd' in *. split; [exists info''; split; congruence|by etrans].
Qed.

Record mon_ok (p : resctrlMon) : Prop := {
  mo_path : ∃ l, Forall simple_name l ∧ rm_resctrlPath p = abs_path l;
  mo_named : groups_named (rm_pods p);
  mo_exists u info : rm_pods p !! u = Some info → is_Some (fs_nodes (rm_fs p) !! pi_monGroupDir info);
}.

(** A step that tracks no other pods. *)
Lemma mon_ok_keeps p p' : keeps_groups p p' → (∀ u, is_Some (rm_pods p' !! u) → is_Some (rm_pods p !! u)) →
  (∃ l, Forall simple_name l ∧ rm_resctrlPath p' = abs_path l) → mon_ok p → mon_ok p'.
Proof.
  intros Hk Hin Hl [_ Hn He]. assert (∀ u info', rm_pods p' !! u = Some info' → ∃ info, rm_pods p !! u = Some info ∧
    pi_monGroupDir info' = pi_monGroupDir info ∧ (is_Some (fs_nodes (rm_fs p) !! pi_monGroupDir info) → is_Some (fs_nodes (rm_fs p') !! pi_monGroupDir info))) as Hb.
  { intros u info' Hu'. destruct (Hin u) as [info Hu]; [by eexists|]. destruct (Hk u info Hu) as [(i & Hi & Hd) [_ Hs]].
    rewrite Hu' in Hi. injection Hi as ->. eauto. }
  split; [done|..]; intros u info' (info & Hu & -> & Hs)%Hb; [by apply Hn|]. apply Hs. by apply He with u.
Qed.

Lemma ensure_ok podUID c class p : mon_ok p →
  let r := ensureMonGroup uuid podUID c class p in mon_ok r.1 ∧ keeps_groups p r.1 ∧ rm_resctrlPath r.1 = rm_resctrlPath p.
Proof.
  intros Hok. unfold ensureMonGroup. destruct (uuid podUID) as [u|] eqn:Hu; [|done]. case_bool_decide as Hd.
  - assert (keeps_groups p (with_pods (addContainer u c (rm_pods p)) p)) as Hk.
    { intros v info Hv. split; [|done]. cbn. unfold addContainer. destruct (decide (v = u)) as [->|Hne].
      - rewrite lookup_alter_eq, Hv. by eexists.
      - rewrite lookup_alter_ne by done. by exists info. }
    split_and!; [|done|done]. apply (mon_ok_keeps p); [done| |apply Hok|done]. cbn. intros v. unfold addContainer.
    destruct (decide (v = u)) as [->|Hne]; [rewrite lookup_alter_eq|by rewrite lookup_alter_ne]. by destruct (rm_pods p !! u).
  - destruct (mo_path _ Hok) as (l & Hl & Hpath). rewrite Hpath.
    assert (rm_pods p !! u = None) as Hnew.
    { apply eq_None_ne_Some. intros info Hi. revert Hd. unfold getMonGroupDir. rewrite Hi. cbn.
      by destruct (mo_named _ Hok u info Hi) as (_ & lv & _ & ->). }
    destruct (createMonGroup_spec l class u (rm_fs p) Hl) as [Hs Hr]; [by apply (uuid_simple podUID)|].
    destruct (createMonGroup (abs_path l) class u (rm_fs p)) as [s [d|]]; cbn in *.
    + destruct (Hr d eq_refl) as [Hdir Hex]. set (pods := addContainer _ _ _).
      assert (pods = <[u := MkPodInfo d ({[c]} ∪ ∅)]> (rm_pods p)) as ->.
      { unfold pods, addContainer, addPod. by rewrite Hnew, alter_insert_eq. }
      assert (keeps_groups p (with_pods (<[u := MkPodInfo d ({[c]} ∪ ∅)]> (rm_pods p)) (with_rm_fs s p))) as Hk.
      { intros v info Hv. cbn. rewrite lookup_insert_ne by congruence. split; [by exists info|apply Hs]. }
      split_and!; [|done|done]. split; cbn.
      * eauto.
      * intros v info. destruct (decide (v = u)) as [->|Hne].
        -- rewrite lookup_insert_eq. intros [= <-]. split; [by apply (uuid_canonical podUID)|done].
        -- rewrite lookup_insert_ne by done. apply Hok.
      * intros v info. destruct (decide (v = u)) as [->|Hne]; [rewrite lookup_insert_eq; by intros [= <-]|].
        rewrite lookup_insert_ne by done. intros Hv. apply Hs. by apply (mo_exists _ Hok v).
    + assert (keeps_groups p (with_rm_fs s p)) as Hk by (intros v info Hv; split; [by exists info|apply Hs]).
      split_and!; [|done|by cbn]. apply (mon_ok_keeps p); [done..|by exists l|done].
Qed.

(** Changes of the file system only. *)
Lemma fs_step_ok s p : mon_ok p → (∀ u info, rm_pods p !! u = Some info → spared_in (pi_monGroupDir info) (rm_fs p) s) →
  mon_ok (with_rm_fs s p) ∧ keeps_groups p (with_rm_fs s p).
Proof.
  intros Hok Hs. assert (keeps_groups p (with_rm_fs s p)) as Hk by (intros v info Hv; split; [by exists info|by apply (Hs v)]).
  split; [|done]. apply (mon_ok_keeps p); [done..|apply Hok|done].
Qed.

Lemma clean_ok p : mon_ok p → let p' := with_rm_fs (cleanOrphanedMonGroups uuid (rm_resctrlPath p) (rm_pods p) (rm_fs p)) p in
  mon_ok p' ∧ keeps_groups p p'.
Proof.
  intros Hok. apply fs_step_ok; [done|]. intros u info Hu. destruct (mo_path _ Hok) as (l & Hl & ->).
  apply (spared_clean _ _ u); [apply Hok|done..].
Qed.

Lemma sync_container_ok pods p c : mon_ok p → let p' := mon_sync_container uuid pods p c in mon_ok p' ∧ keeps_groups p p'.
Proof.
  intros Hok. unfold mon_sync_container. destruct (pods !! _) as [pod|]; [|done]. destruct (shouldMonitorPod p pod); [|done].
  destruct (ensure_ok (np_Uid pod) (nc_Id (pc_Ctr c)) (getRDTClass c) p Hok) as (Hok1 & Hk1 & _).
  destruct (ensureMonGroup _ _ _ _ p) as [p1 []]; cbn in *; [|done]. case_bool_decide; [|done].
  destruct (fs_step_ok (writeTaskPID (getMonGroupDir (canonical uuid (np_Uid pod)) (rm_pods p1)) (pc_Pid c) (rm_fs p1)) p1 Hok1) as [Hok2 Hk2].
  { intros. apply spared_write. }
  split; [done|by etrans].
Qed.

Context (yaml : string → option MonConfig).

(** Nothing but the removal of a pod removes its group. *)
Lemma mon_run_ok op p : mon_ok p → mon_ok (mon_run uuid yaml op p) ∧
  ∀ u info, rm_pods p !! u = Some info →
    ((∃ info', rm_pods (mon_run uuid yaml op p) !! u = Some info' ∧ pi_monGroupDir info' = pi_monGroupDir info) ∧
     spared_in (pi_monGroupDir info) (rm_fs p) (rm_fs (mon_run uuid yaml op p))) ∨
    ∃ pod, op = OpRemovePod pod ∧ uuid (np_Uid pod) = Some u.
Proof.
  intros Hok. assert (∀ p', mon_ok p' ∧ keeps_groups p p' → mon_ok p' ∧ ∀ u info, rm_pods p !! u = Some info →
    ((∃ info', rm_pods p' !! u = Some info' ∧ pi_monGroupDir info' = pi_monGroupDir info) ∧
     spared_in (pi_monGroupDir info) (rm_fs p) (rm_fs p')) ∨ ∃ pod, op = OpRemovePod pod ∧ uuid (np_Uid pod) = Some u) as Hkeep.
  { intros p' [H1 H2]. split; [done|]. intros u info Hu. left. by apply H2. }
  destruct op as [config runtime version|pods ctrs|pod c|pod c|pod c|pod c|pod|]; cbn.
  - apply Hkeep. unfold rm_Configure. destruct (checkRuntimeVersion _ _); [|done]. case_bool_decide; [|done].
    unfold rm_setConfig. destruct (yaml config) as [cfg|]; [|done]. destruct (path_clean _) as [|ch rest] eqn:Hc; [done|].
    case_bool_decide as Ha; [|done]. subst ch. cbn. set (p' := MkResctrlMon _ _ _ _ _).
    assert (keeps_groups p p') as Hk by (intros v info Hv; split; [by exists info|done]). split; [|done].
    apply (mon_ok_keeps p); [done..| |done]. unfold p'. cbn. rewrite <- Hc. by apply path_clean_rooted with rest.
  - apply Hkeep. unfold rm_Synchronize. set (m := fold_left _ pods ∅). clearbody m.
    assert (∀ p, mon_ok p → mon_ok (fold_left (mon_sync_container uuid m) ctrs p) ∧ keeps_groups p (fold_left (mon_sync_container uuid m) ctrs p)) as Hf.
    { clear - UuidLaws0. induction ctrs as [|c ctrs IH]; intros p Hok; [done|]. cbn. destruct (sync_container_ok m p c Hok) as [H1 H2].
      destruct (IH _ H1) as [H3 H4]. split; [done|by etrans]. }
    destruct (Hf p Hok) as [H1 H2]. set (p1 := fold_left _ ctrs p) in *. destruct (clean_ok p1 H1) as [H3 H4].
    split; [|etrans; [exact H2|exact H4]]. by destruct H3.
  - apply Hkeep. unfold PostCreateContainer. destruct (shouldMonitorPod p pod); [|done].
    by destruct (ensure_ok (np_Uid pod) (nc_Id (pc_Ctr c)) (getRDTClass c) p Hok) as (? & ? & _).
  - apply Hkeep. unfold rm_StartContainer. destruct (shouldMonitorPod p pod); [|done]. repeat case_bool_decide; [done| |done].
    apply fs_step_ok; [done|]. intros. apply spared_write.
  - apply Hkeep. unfold PostStartContainer. destruct (shouldMonitorPod p pod); [|done]. repeat case_bool_decide; [done| |done].
    apply fs_step_ok; [done|]. intros. apply spared_write.
  - apply Hkeep. unfold rm_StopContainer. case_bool_decide; [done|]. set (u := canonical uuid (np_Uid pod)).
    assert (keeps_groups p (with_pods (removeContainer u (nc_Id (pc_Ctr c)) (rm_pods p)) p)) as Hk.
    { intros v info Hv. split; [|done]. cbn. unfold removeContainer. destruct (decide (v = u)) as [->|Hne].
      - rewrite lookup_alter_eq, Hv. by eexists.
      - rewrite lookup_alter_ne by done. by exists info. }
    split; [|done]. apply (mon_ok_keeps p); [done| |apply Hok|done]. cbn. intros v. unfold removeContainer.
    destruct (decide (v = u)) as [->|Hne]; [rewrite lookup_alter_eq|by rewrite lookup_alter_ne]. by destruct (rm_pods p !! u).
  - unfold rm_RemovePodSandbox. set (u := canonical uuid (np_Uid pod)). case_bool_decide as Hd; [apply Hkeep; done|].
    destruct (groups_named_dir (rm_pods p) u _ (mo_named _ Hok) eq_refl Hd) as (iu & Hu & Hiu & Hdir).
    rewrite <- Hiu in *. set (p' := with_pods _ _).
    assert (∀ v info, v ≠ u → rm_pods p !! v = Some info → spared_in (pi_monGroupDir info) (rm_fs p) (rm_fs p')) as Hs.
    { intros v info Hne Hv. apply spared_remove. intros He. destruct (mo_named _ Hok v info Hv) as [Hv1 (lv & Hlv & Hdv)].
      destruct Hdir as [Hu1 (lu & Hlu & Hdu)]. rewrite He in Hdu. rewrite Hdv in Hdu. apply Hne.
      by apply (last_name lv lu v u); [done|done|by apply (uuid_simple v)|by apply (uuid_simple u)|]. }
    split.
    + split; [apply Hok|..]; cbn; intros v info; unfold removePod; rewrite lookup_delete_Some; intros [Hne Hv]; [by apply (mo_named _ Hok)|].
      apply (Hs v info); [congruence|done|]. by apply (mo_exists _ Hok v).
    + intros v info Hv. destruct (decide (v = u)) as [->|Hne].
      * right. exists pod. split; [done|]. unfold u, canonical in *. destruct (uuid (np_Uid pod)) as [w|] eqn:Hw; [done|].
        cbn in *. destruct Hdir as [Hc _]. congruence.
      * left. split; [|by apply (Hs v info)]. exists info. cbn. unfold removePod. by rewrite lookup_delete_ne.
  - apply Hkeep. unfold reconcile. destruct (rm_reconciler p); [|done]. by apply clean_ok.
Qed.

Lemma reachable_ok s p : rtc (mon_step uuid yaml) (newPlugin s) p → mon_ok p.
Proof.
  intros Hsteps. assert (mon_ok (newPlugin s)) as Hinit.
  { split.
    - exists ["sys"; "fs"; "resctrl"]. split; [|done]. repeat (constructor; [by split_and!|]). constructor.
    - intros v i Hv. cbn in Hv. by rewrite lookup_empty in Hv.
    - intros v i Hv. cbn in Hv. by rewrite lookup_empty in Hv. }
  induction Hsteps as [|p1 p2 p3 Hstep _ IH]; [done|]. apply IH. destruct Hstep as [op'|s' Hl Hs].
  - by apply mon_run_ok.
  - destruct Hinit as [? ? He]. split; [done..|]. intros v i Hv. cbn. rewrite (Hs v i Hv). by apply (He v).
Qed.

(** A pod that has got a monitoring group keeps it, the same directory with
    the same counter of the kernel, until its sandbox is removed: in every state
    that requests, ticks of the reconciler and others who leave the groups alone
    lead to, whatever fails, the group exists, and nothing but the removal of the
    pod even tries to remove it. *)
Theorem mon_group_stays s p op u info : rtc (mon_step uuid yaml) (newPlugin s) p → rm_pods p !! u = Some info →
  let p' := mon_run uuid yaml op p in let d := pi_monGroupDir info in
  is_Some (fs_nodes (rm_fs p) !! d) ∧
  ((∃ info', rm_pods p' !! u = Some info' ∧ pi_monGroupDir info' = d) ∧
   (∃ l, fs_log (rm_fs p') = app (fs_log (rm_fs p)) l ∧ FsRemove d ∉ l) ∧ is_Some (fs_nodes (rm_fs p') !! d) ∨
   ∃ pod, op = OpRemovePod pod ∧ uuid (np_Uid pod) = Some u).
Proof.
  intros Hsteps Hu p' d. pose proof (reachable_ok s p Hsteps) as Hok.
  pose proof (mo_exists _ Hok u info Hu) as He. split; [exact He|].
  destruct (mon_run_ok op p Hok) as [_ Hr]. destruct (Hr u info Hu) as [[Hi [Hl Hn]]|Hpod]; [left|by right].
  split; [exact Hi|]. split; [exact Hl|by apply Hn].
Qed.
End groups.

(** ** Nothing is left behind *)

(** Nodes are only removed, and only in one directory. *)
Definition shrinks (lm : list string) (s s' : Fs) : Prop :=
  ∀ d, fs_nodes s' !! d = fs_nodes s !! d ∨
    (fs_nodes s' !! d = None ∧ ∃ N, simple_name N ∧ d = abs_path (app lm [N])).

#[export] Instance shrinks_preorder lm : PreOrder (shrinks lm).
Proof.
  split; [by left|]. intros s s' s'' H1 H2 d. destruct (H2 d) as [->|]; [apply H1|by right].
Qed.

Lemma shrinks_some lm s s' d n : shrinks lm s s' → fs_nodes s' !! d = Some n → fs_nodes s !! d = Some n.
Proof. intros Hs Hn. destruct (Hs d) as [He|[He _]]; congruence. Qed.

Lemma shrinks_other lm s s' l : shrinks lm s s' → Forall simple_name lm → Forall simple_name l →
  length l ≠ S (length lm) → fs_nodes s' !! abs_path l = fs_nodes s !! abs_path l.
Proof.
  intros Hs Hlm Hl Hlen. destruct (Hs (abs_path l)) as [->|(_ & N & HN & He)]; [done|]. exfalso. apply Hlen.
  apply abs_path_inj in He; [|done|by apply simple_snoc]. by rewrite He, length_app, Nat.add_1_r.
Qed.

Lemma dir_prefix_snoc l n : str_app (dir_prefix (abs_path l)) n = abs_path (app l [n]) ∨ ¬ Forall simple_name l.
Proof.
  destruct (decide (l = [])) as [->|Hl]; [by left|]. unfold dir_prefix. case_bool_decide as Hs.
  - right. intros Hf. destruct l as [|x l]; [done|]. apply (abs_path_inj _ [] Hf) in Hs; [done|constructor].
  - left. rewrite abs_path_snoc, str_app_assoc. by destruct l.
Qed.

Lemma strip_prefix_app a b : strip_prefix a (str_app a b) = Some b.
Proof. induction a as [|c a IH]; [by destruct b|]. rewrite str_app_cons. cbn. by rewrite bool_decide_eq_true_2. Qed.

Lemma dir_entry_at l n perm : Forall simple_name l → simple_name n →
  dir_entry (abs_path l) (abs_path (app l [n]), NDir perm) = Some (n, true).
Proof.
  intros Hl Hn. destruct (dir_prefix_snoc l n) as [<-|]; [|done]. unfold dir_entry. cbn. rewrite strip_prefix_app.
  destruct Hn as (H1 & H2 & H3 & H4). by rewrite bool_decide_eq_false_2, H4 by tauto.
Qed.

Section complete.
Context `{GoRuntime} `{Kernel} (uuid : string → option string) `{!UuidLaws uuid}.
Context (works : ∀ log op, fs_fails log op = false).

Lemma readdir_works path s : is_Some (fs_nodes s !! path) →
  os_ReadDir path s = (MkFs (fs_nodes s) (app (fs_log s) [FsReadDir path]),
    inr (insertion_sort name_compare (omap (dir_entry path) (map_to_list (fs_nodes s))))).
Proof. intros [n Hn]. unfold os_ReadDir, fs_try. rewrite works. cbn. by rewrite Hn. Qed.

Lemma readdir_simple path s s' entries : os_ReadDir path s = (s', inr entries) →
  fs_nodes s' = fs_nodes s ∧ Forall (λ e, simple_name e.1) entries.
Proof.
  unfold os_ReadDir, fs_try. rewrite works. cbn. destruct (fs_nodes s !! path); [|done]. intros [= <- <-]. split; [done|].
  apply Forall_forall. intros e. rewrite insertion_sort_perm. intros (n & _ & He)%list_elem_of_omap. by apply dir_entry_simple in He.
Qed.

Lemma listed l n perm s : Forall simple_name l → simple_name n → fs_nodes s !! abs_path (app l [n]) = Some (NDir perm) →
  (n, true) ∈ insertion_sort name_compare (omap (dir_entry (abs_path l)) (map_to_list (fs_nodes s))).
Proof.
  intros Hl Hn Hd. rewrite insertion_sort_perm. apply list_elem_of_omap. exists (abs_path (app l [n]), NDir perm).
  split; [by apply elem_of_map_to_list|by apply dir_entry_at].
Qed.

Lemma remove_shrinks lm n s : simple_name n → shrinks lm s (os_Remove (abs_path (app lm [n])) s).1 ∧
  fs_nodes (os_Remove (abs_path (app lm [n])) s).1 !! abs_path (app lm [n]) = None.
Proof.
  intros Hn. unfold os_Remove, fs_try. rewrite works. cbn. destruct (fs_nodes s !! abs_path (app lm [n])) eqn:Hd; cbn; [|by split; [left|]].
  split; [|apply lookup_delete_eq]. intros d. cbn. destruct (decide (d = abs_path (app lm [n]))) as [->|Hne]; [|left; by rewrite lookup_delete_ne].
  right. split; [apply lookup_delete_eq|eauto].
Qed.

Lemma entries_shrink pods lm entries s : Forall simple_name lm → Forall (λ e, simple_name e.1) entries →
  shrinks lm s (clean_entries uuid (abs_path lm) pods entries s).
Proof.
  intros Hlm Hes. revert s. induction Hes as [|[name is_dir] entries Hname Hes IH]; intros s; [done|]. cbn in Hname |- *.
  etrans; [|apply IH]. destruct is_dir; [|done]. destruct (uuid name); [|done].
  rewrite (path_join_abs lm [name]) by (done || by apply simple_one). case_bool_decide; [done|]. by apply remove_shrinks.
Qed.

Lemma entries_cleaned pods lm entries s name u n : Forall simple_name lm → Forall (λ e, simple_name e.1) entries →
  (name, true) ∈ entries → uuid name = Some u →
  fs_nodes (clean_entries uuid (abs_path lm) pods entries s) !! abs_path (app lm [name]) = Some n →
  getMonGroupDir u pods = abs_path (app lm [name]).
Proof.
  intros Hlm Hes. revert s. induction Hes as [|[name' is_dir] entries Hname Hes IH]; intros s Hin Hu; [by apply not_elem_of_nil in Hin|].
  cbn in Hname |- *. apply elem_of_cons in Hin as [[= <- <-]|Hin]; [|by apply IH]. rewrite Hu.
  rewrite (path_join_abs lm [name]) by (done || by apply simple_one). case_bool_decide as Ho; [done|].
  destruct (remove_shrinks lm name s Hname) as [_ Hgone]. intros Hn. exfalso.
  apply (shrinks_some lm) with (1 := entries_shrink pods lm entries _ Hlm Hes) in Hn. congruence.
Qed.

Lemma in_dir_shrinks pods lm s : Forall simple_name lm → shrinks lm s (cleanOrphanedInDir uuid (abs_path lm) pods s).
Proof.
  intros Hlm. unfold cleanOrphanedInDir. destruct (os_ReadDir _ s) as [s' [e|entries]] eqn:Hr.
  - unfold os_ReadDir, fs_try in Hr. rewrite works in Hr. cbn in Hr. by destruct (fs_nodes s !! _); injection Hr as <- _; left.
  - apply readdir_simple in Hr as [Hn Hes]. etrans; [|by apply entries_shrink]. intros d. left. by rewrite Hn.
Qed.

(** A directory of groups. *)
Lemma in_dir_cleaned pods lm s name u perm : Forall simple_name lm → simple_name name → is_Some (fs_nodes s !! abs_path lm) →
  uuid name = Some u → fs_nodes (cleanOrphanedInDir uuid (abs_path lm) pods s) !! abs_path (app lm [name]) = Some (NDir perm) →
  getMonGroupDir u pods = abs_path (app lm [name]).
Proof.
  intros Hlm Hname HM Hu Hn. pose proof (shrinks_some lm _ _ _ _ (in_dir_shrinks pods lm s Hlm) Hn) as Hn0. revert Hn.
  unfold cleanOrphanedInDir. pose proof (readdir_works _ s HM) as Hr. pose proof (readdir_simple _ _ _ _ Hr) as [_ Hes]. rewrite Hr.
  apply entries_cleaned; [done|done| |done]. by eapply listed.
Qed.

(** The directories of control groups, one after the other. *)
Lemma groups_shrink pods l es s d n : Forall simple_name l → Forall (λ e : string * bool, simple_name e.1) es →
  let s' := fold_left (λ s e, cleanOrphanedInDir uuid (path_join [abs_path l; e.1; monGroupsDir]) pods s) es s in
  (fs_nodes s' !! d = Some n → fs_nodes s !! d = Some n) ∧
  (∀ l', Forall simple_name l' → length l' ≠ 3 + length l → fs_nodes s' !! abs_path l' = fs_nodes s !! abs_path l')%nat.
Proof.
  intros Hl Hes. revert s. induction Hes as [|e es He Hes IH]; intros s; [done|]. cbn. pose proof mon_groups_simple as Hmg.
  rewrite (path_join_abs l [e.1; monGroupsDir]) by (done || (constructor; [done|by apply simple_one])).
  set (lm := app l [e.1; monGroupsDir]). assert (Forall simple_name lm) as Hlm.
  { apply Forall_app. split; [done|]. constructor; [done|by apply simple_one]. }
  pose proof (in_dir_shrinks pods lm s Hlm) as Hs. destruct (IH (cleanOrphanedInDir uuid (abs_path lm) pods s)) as [IH1 IH2]. split.
  - intros Hn%IH1. by eapply shrinks_some.
  - intros l' Hl' Hlen. rewrite IH2 by done. apply (shrinks_other lm); [done..|]. unfold lm. rewrite length_app. cbn. lia.
Qed.

Lemma clean_complete pods l s name u perm M : Forall simple_name l → is_Some (fs_nodes s !! abs_path l) →
  (M = app l [monGroupsDir] ∨ ∃ G p, M = app l [G; monGroupsDir] ∧ simple_name G ∧ is_ctrl_group (G, true) = true ∧
     fs_nodes s !! abs_path (app l [G]) = Some (NDir p)) →
  is_Some (fs_nodes s !! abs_path M) → simple_name name → uuid name = Some u →
  fs_nodes (cleanOrphanedMonGroups uuid (abs_path l) pods s) !! abs_path (app M [name]) = Some (NDir perm) →
  getMonGroupDir u pods = abs_path (app M [name]).
Proof.
  intros Hl Hroot HM HexM Hname Hu. pose proof mon_groups_simple as Hmg. unfold cleanOrphanedMonGroups.
  rewrite (path_join_abs l [monGroupsDir]) by (done || by apply simple_one).
  set (lm := app l [monGroupsDir]) in *. assert (Forall simple_name lm) as Hlm by (by apply simple_snoc).
  set (s1 := cleanOrphanedInDir uuid (abs_path lm) pods s). pose proof (in_dir_shrinks pods lm s Hlm) as H1. fold s1 in H1.
  assert (length lm = S (length l)) as Hlen by (unfold lm; rewrite length_app; cbn; lia).
  assert (is_Some (fs_nodes s1 !! abs_path l)) as Hroot1.
  { rewrite (shrinks_other lm s s1 l H1 Hlm Hl) by lia. done. }
  pose proof (readdir_works _ s1 Hroot1) as Hr. pose proof (readdir_simple _ _ _ _ Hr) as [Hn2 Hes]. rewrite Hr.
  set (s2 := MkFs _ _) in *. set (entries := insertion_sort _ _) in *.
  set (es := filter (λ e, is_ctrl_group e = true) entries). assert (Forall (λ e : string * bool, simple_name e.1) es) as Hes'.
  { apply Forall_forall. intros e [_ He]%list_elem_of_filter. by apply (proj1 (Forall_forall _ _) Hes). }
  destruct HM as [->|(G & p & -> & HG & Hctrl & Hdir)].
  - intros Hn. destruct (groups_shrink pods l es s2 (abs_path (app lm [name])) (NDir perm) Hl Hes') as [Hsome _].
    apply Hsome in Hn. change (fs_nodes s1 !! abs_path (app lm [name]) = Some (NDir perm)) in Hn. by eapply in_dir_cleaned.
  - set (lg := app l [G; monGroupsDir]) in *. assert (Forall simple_name lg) as Hlg.
    { apply Forall_app. split; [done|]. constructor; [done|by apply simple_one]. }
    assert (length lg = 2 + length l)%nat as Hleng by (unfold lg; rewrite length_app; cbn; lia).
    assert (Forall simple_name (app l [G])) as HlG by (by apply simple_snoc).
    assert ((G, true) ∈ es) as HGes.
    { apply list_elem_of_filter. split; [done|]. apply (listed l G p); [done..|].
      rewrite (shrinks_other lm s s1 _ H1 Hlm HlG); [done|]. rewrite length_app, Hlen. cbn. lia. }
    assert (G ≠ monGroupsDir) as HGm.
    { unfold is_ctrl_group in Hctrl. cbn in Hctrl. apply negb_true_iff, bool_decide_eq_false in Hctrl. tauto. }
    assert (is_Some (fs_nodes s2 !! abs_path lg)) as Hlg2.
    { change (fs_nodes s2) with (fs_nodes s1). destruct (H1 (abs_path lg)) as [->|(_ & N & HN & He)]; [done|]. exfalso.
      apply abs_path_inj in He; [|done|by apply simple_snoc]. unfold lg, lm in He. rewrite <- app_assoc in He.
      by apply app_inv_head in He as [= ? _]. }
    clearbody s2 es. clear s1 H1 Hroot1 Hr Hn2 entries Hes Hroot HexM Hdir.
    apply list_elem_of_split in HGes as (es1 & es2 & ->). apply Forall_app in Hes' as [He1 [_ He2]%Forall_cons].
    rewrite fold_left_app. cbn [fold_left fst]. set (s3 := fold_left _ es1 s2).
    destruct (groups_shrink pods l es1 s2 "" (NDir 0) Hl He1) as [_ Hsame]. fold s3 in Hsame.
    assert (is_Some (fs_nodes s3 !! abs_path lg)) as Hlg3 by (rewrite Hsame; [done|done|lia]).
    rewrite (path_join_abs l [G; monGroupsDir]) by (done || (constructor; [done|by apply simple_one])). fold lg.
    set (s4 := cleanOrphanedInDir _ _ _ s3). intros Hn.
    destruct (groups_shrink pods l es2 s4 (abs_path (app lg [name])) (NDir perm) Hl He2) as [Hsome _]. apply Hsome in Hn.
    by eapply in_dir_cleaned.
Qed.

Context (yaml : string → option MonConfig).

(** No counter is leaked: when nothing fails, a tick of the reconciler leaves
    no directory named like a pod in the groups of the root or of a control group
    but those of pods the plugin keeps track of. *)
Theorem reconcile_complete s p M name u perm : rtc (mon_step uuid yaml) (newPlugin s) p → rm_reconciler p = true →
  let root := rm_resctrlPath p in let nodes := fs_nodes (rm_fs p) in
  (M = path_join [root; monGroupsDir] ∨ ∃ G q, M = path_join [root; G; monGroupsDir] ∧ simple_name G ∧
     is_ctrl_group (G, true) = true ∧ nodes !! path_join [root; G] = Some (NDir q)) →
  is_Some (nodes !! root) → is_Some (nodes !! M) → simple_name name → uuid name = Some u →
  fs_nodes (rm_fs (reconcile uuid p)) !! path_join [M; name] = Some (NDir perm) →
  ∃ info, rm_pods p !! u = Some info ∧ pi_monGroupDir info = path_join [M; name].
Proof.
  intros Hsteps Hrec root nodes HM Hroot HexM Hname Hu. pose proof (reachable_ok uuid yaml s p Hsteps) as Hok.
  destruct (mo_path _ _ Hok) as (l & Hl & Hpath). unfold reconcile. rewrite Hrec. cbn. unfold root, nodes in *. rewrite Hpath in *.
  pose proof mon_groups_simple as Hmg. rewrite (path_join_abs l [monGroupsDir]) in HM by (done || by apply simple_one).
  assert (∃ lm, Forall simple_name lm ∧ M = abs_path lm ∧ (lm = app l [monGroupsDir] ∨ ∃ G q, lm = app l [G; monGroupsDir] ∧
    simple_name G ∧ is_ctrl_group (G, true) = true ∧ fs_nodes (rm_fs p) !! abs_path (app l [G]) = Some (NDir q))) as (lm & Hlm & -> & HM').
  { destruct HM as [->|(G & q & -> & HG & Hc & Hd)].
    - exists (app l [monGroupsDir]). split_and!; [by apply simple_snoc|done|by left].
    - assert (Forall simple_name [G; monGroupsDir]) as Hg by (constructor; [done|by apply simple_one]).
      rewrite (path_join_abs l [G]) in Hd by (done || by apply simple_one). rewrite (path_join_abs l _ Hl Hg).
      exists (app l [G; monGroupsDir]). split_and!; [by apply Forall_app|done|]. right. exists G, q. by split_and!. }
  rewrite (path_join_abs lm [name]) by (done || by apply simple_one). intros Hn.
  pose proof (clean_complete (rm_pods p) l (rm_fs p) name u perm lm Hl Hroot HM' HexM Hname Hu Hn) as Hd.
  destruct (groups_named_dir uuid (rm_pods p) u _ (mo_named _ _ Hok) Hd) as (info & Hi & He & _); [done|]. eauto.
Qed.
End complete.

(** ** An example *)

#[local] Existing Instance go_default.

Definition rex_kernel : Kernel := {| fs_fails _ _ := false; fs_umask := 18; fs_leads_to_dir _ := false |}.

#[local] Existing Instance rex_kernel.

Lemma rex_works log op : fs_fails log op = false.
Proof. reflexivity. Qed.

Definition rex_uuid (s : string) : option string := if bool_decide (s ∈ ["u1"; "u2"; "u9"]) then Some s else None.

#[local] Instance rex_uuid_laws : UuidLaws rex_uuid.
Proof.
  split; intros s u; unfold rex_uuid; case_bool_decide as Hs; try done; intros [= <-]; [by rewrite bool_decide_eq_true_2|].
  by repeat (apply elem_of_cons in Hs as [->|Hs]; [by split_and!|]); apply not_elem_of_nil in Hs.
Qed.

Definition rex_yaml (data : string) : option MonConfig := None.

(** A group is left over from a pod that is gone. *)
Definition rex_fs : Fs :=
  MkFs {["/sys/fs/resctrl" := NDir 493; "/sys/fs/resctrl/mon_groups" := NDir 493; "/sys/fs/resctrl/gold" := NDir 493;
         "/sys/fs/resctrl/gold/mon_groups" := NDir 493; "/sys/fs/resctrl/mon_groups/u9" := NDir 493]} [].

Definition rex_pod (uid : string) : NriPod := MkNriPod uid uid "web" "app" ∅ ∅ "".

Definition rex_ctr (pod class : string) : PlgCtr :=
  MkPlgCtr (MkNriContainer "c1" pod "server" ContainerStateRunning ∅ [] []
    (Some (MkLinuxContainer [] (Some (MkLinuxResources None None [] (Some class) None)) None)) 0) [] 42.

Definition rex_p0 : resctrlMon := newPlugin rex_fs.
Definition rex_p1 : resctrlMon := mon_run rex_uuid rex_yaml (OpSynchronize [rex_pod "u1"] [rex_ctr "u1" "gold"]) rex_p0.

Example rex_groups :
  (fs_nodes (rm_fs rex_p1) !! "/sys/fs/resctrl/gold/mon_groups/u1", fs_nodes (rm_fs rex_p1) !! "/sys/fs/resctrl/mon_groups/u9")
  = (Some (NDir 493), None).
Proof. vm_compute. reflexivity. Qed.

Lemma rex_steps : rtc (mon_step rex_uuid rex_yaml) rex_p0 rex_p1.
Proof. apply rtc_once, mon_step_run. Qed.

(** The group stays when the container stops. *)
Lemma mon_group_stays_witness :
  let p2 := mon_run rex_uuid rex_yaml (OpStop (rex_pod "u1") (rex_ctr "u1" "gold")) rex_p1 in
  let d := "/sys/fs/resctrl/gold/mon_groups/u1" in
  ∃ info, rm_pods rex_p1 !! "u1" = Some info ∧ pi_monGroupDir info = d ∧
    ((∃ info', rm_pods p2 !! "u1" = Some info' ∧ pi_monGroupDir info' = d) ∨ False).
Proof.
  intros p2 d. destruct (rm_pods rex_p1 !! "u1") as [info|] eqn:Hi; [|vm_compute in Hi; discriminate Hi].
  assert (Hd : pi_monGroupDir info = d) by (vm_compute in Hi; injection Hi as <-; vm_compute; reflexivity).
  exists info. split; [reflexivity|split; [exact Hd|left]]. rewrite <- Hd.
  destruct (mon_group_stays rex_uuid rex_yaml rex_fs rex_p1 (OpStop (rex_pod "u1") (rex_ctr "u1" "gold")) "u1" info rex_steps Hi)
    as [_ [[Hs _]|(pod & Ho & _)]]; [exact Hs|discriminate Ho].
Defined.

Lemma rex_names : simple_name "gold" ∧ simple_name "u1".
Proof. by split_and!. Qed.

Lemma reconcile_complete_witness :
  fs_nodes (rm_fs (reconcile rex_uuid rex_p1)) !! "/sys/fs/resctrl/gold/mon_groups/u1" = Some (NDir 493) ∧
  ∃ info, rm_pods rex_p1 !! "u1" = Some info ∧ pi_monGroupDir info = "/sys/fs/resctrl/gold/mon_groups/u1".
Proof.
  assert (Hn : fs_nodes (rm_fs (reconcile rex_uuid rex_p1)) !! path_join ["/sys/fs/resctrl/gold/mon_groups"; "u1"] = Some (NDir 493))
    by (vm_compute; reflexivity).
  split; [exact Hn|].
  apply (reconcile_complete rex_uuid rex_works rex_yaml rex_fs rex_p1 "/sys/fs/resctrl/gold/mon_groups" "u1" "u1" 493
    rex_steps); [vm_compute; reflexivity| | | | |vm_compute; reflexivity|exact Hn].
  - right. exists "gold", 493. split; [vm_compute; reflexivity|split; [apply rex_names|split; vm_compute; reflexivity]].
  - exists (NDir 493). vm_compute. reflexivity.
  - exists (NDir 493). vm_compute. reflexivity.
  - apply rex_names.
Defined.

(** *** Where the plugin does not do what it says

    The reconciler does not take the lock of ensureMonGroup: between the creation
    of a group and its registration it takes the group for an orphan.  The pod is
    then tracked in a directory that does not exist. *)
Example rex_race :
  let '(s1, d) := createMonGroup "/sys/fs/resctrl" "" "u2" (rm_fs rex_p1) in
  let s2 := cleanOrphanedMonGroups rex_uuid "/sys/fs/resctrl" (rm_pods rex_p1) s1 in
  let pods := addPod "u2" (default "" d) (rm_pods rex_p1) in
  getMonGroupDir "u2" pods = "/sys/fs/resctrl/mon_groups/u2" ∧ fs_nodes s2 !! getMonGroupDir "u2" pods = None.
Proof. vm_compute. split; reflexivity. Qed.

(** A control group may be called as a class can be, but its groups are never
    cleaned up if the name begins with "mon_". *)
Example rex_never_cleaned :
  let s0 := set_node "/sys/fs/resctrl/mon_x" (NDir 493) rex_fs in
  let '(s1, d) := createMonGroup "/sys/fs/resctrl" "mon_x" "u2" s0 in
  d = Some "/sys/fs/resctrl/mon_x/mon_groups/u2" ∧
  is_Some (fs_nodes (cleanOrphanedMonGroups rex_uuid "/sys/fs/resctrl" ∅ s1) !! default "" d).
Proof. vm_compute. split; [reflexivity|by eexists]. Qed.
